(* ===== verification/_CoqProject ===== *)
-Q . S2P
Prelude.v
Base64.v
Buffer.v
Queue.v
SimList.v
SimListSort.v
Str.v
StrUtil.v
Tokens.v
HashFun.v
Printf.v
Sb.v
Socket.v
Hep.v
HepSocket.v
Config.v
Hash.v
Acl.v
Pool.v
Utf8.v
Rwl.v
Kws.v
KwsHandshake.v
KwsHttp.v
Json.v
JsonNum.v
JsonParse.v
JsonPrint.v
JsonText.v
KwsConnect.v
JsonCheck.v
Thread.v
ThreadPool.v
