(* ===== verification/Prelude.v ===== *)
(** * A verification of libks

    libks (src/src, src/src/include) is the foundation library of SignalWire's
    C programs: memory pools, containers, strings and formatting, JSON, locks
    and thread pools, network lists, and WebSocket connections. This library
    models its own logic, component by component, and proves what each promises.
    The files are in the order of _CoqProject; every component is one file with
    one Module of the same name.

    ** How the C is modelled

    A function of the source is a definition of the same name. Memory objects
    are lists of bytes (or cells) with bounds: [ld], [st], [blit] and [slice]
    (below) fault outside them, pointers into them are offsets. A call returns
    [Ok] or [Err] with a fault (out of bounds, NULL, a failed assertion, use
    after free, undefined behaviour): that a theorem says a call is [Ok] says that
    none of these happens. Assertions are those of a build without NDEBUG. Signed
    arithmetic that can overflow is a fault when it does, or a hypothesis of the
    theorem bounds it; machine integers are otherwise [Z] with their wrap-around
    written out ([u8], [u16], [u32], [u64], [s32], ...) where the code's widths
    matter. The machine is a 64-bit little-endian one with the POSIX build of
    the library. Loops that are not structural take fuel; the fuel is computed
    from the input (the length of a buffer or stream, a number of nodes), and the
    theorems about such functions yield results, which the end of the fuel
    ([NoFuel]) is not.

    Functions of the operating system, of OpenSSL or of libuuid are parameters
    (arguments or Section variables) with what the code relies on as hypotheses;
    functions of the C library are written out from its standard.

    ** Parts

    - Prelude: faults, the error monad, memory, integers, C strings, big-endian
      bytes, codecs ([Codec]), reachability ([steps]), hints and tactics.
    - Base64 (ks_base64.c): encoder and decoder are the RFC 4648 functions cut to
      the buffer; the round trip, as an instance of [Codec].
    - Buffer (ks_buffer.c): refinement of a byte queue by every operation;
      packets; what [max_len] does.
    - Queue (ks_q.c): nodes in a heap refine a bounded FIFO; interleavings of
      blocked threads keep the order, lose no wake-up but to time-outs, and never
      fault.
    - SimList (simclist.c): doubly linked lists with a pointer to their middle and
      spare entries refine sequences with a cursor, for lists that do not copy
      their data; what the iterator and large lists do beyond that.
    - SimListSort (simclist.c: ks_list_sort): selection and quicksort over the
      entries of such a list end and sort, for any results of [rand].
    - Str, StrUtil, Tokens (ks_string.c): case tables; search, copying, hex, URL
      codes; splitting of strings in place as a refinement of a reference.
    - HashFun, Hash (ks_hash.h, ks_hash.c): the alignment paths of the hash are
      one function; tables refine finite maps, iterators end and show each entry.
    - Printf (ks_printf.c): the interpreter of formats; bounds of its buffers,
      the text of integers, SQL quoting as a round trip, both kinds of buffers.
    - Sb (ks_sb.c): string builders refine concatenation; uses Printf.
    - Socket (ks_socket.c): addresses, options, connecting, listening, waiting and
      moving data over a table of descriptors: no call loses or disturbs one.
    - Hep, HepSocket (ks_hep.c): capture packets, read back by a receiver of the
      protocol; the connection to it, over Socket.
    - Config (ks_config.c): configuration files; files read back, and the bounds
      for any contents; uses StrUtil.
    - Acl (ks_acl.c): network lists answer by the most specific network; uses Str.
    - Pool (ks_pool.c): pools, blocks, references and cleanup callbacks simulate
      an abstract pool; fences catch overruns. Other components take from a pool
      by an oracle of what it has, since all they see of it is the block.
    - Utf8 (ks_utf8.c): conversions and their inverses, walks, escapes, bounds.
    - Rwl (ks_mutex.c, ks_rwl): locks as programs of atomic actions under every
      interleaving, whether blocked writers or new readers go first: exclusion,
      re-entrance, freedom from deadlock, for callers that keep to [may_call].
    - Kws, KwsHandshake, KwsHttp (kws.c): frames are read back as written and
      reading is safe whatever a peer sends; client and server complete the
      handshake (its base64 is Base64's); request paths stay below the root where
      [sprintf] reads its source before it overwrites it (splitting is Tokens').
    - KwsConnect (kws.c: [kws_create], [kws_init_ex], [kws_connect_ex],
      [kws_destroy]): from a URL both ends come to be ready for frames; setting up
      is safe for any peer. Its parameters are values of Json; a socket is what
      its two streams meet, and Socket models how one is made.
    - Json, JsonCheck (ks_json.c, ks_json_check.c, the cJSON calls under them):
      values are well typed through every change; checks. Strings with formats are
      Printf's.
    - JsonNum, JsonParse, JsonPrint, JsonText (cJSON.c under [ks_json_parse],
      [ks_json_print] and [ks_json_print_unformatted]): numbers as decimals
      ([strtod], [%ld], [%lf]); the parser on any bytes and any answers of the
      allocator; the printer's growing buffer as a refinement of the text of a
      value; what is printed is parsed back.
    - ThreadPool (ks_thread_pool.c): workers, callers and the destroyer
      interleave at every atomic step: counters, jobs, progress (a push on a full
      queue needs a worker that comes back to it). Its queue is a
      list taken from the front, as Queue proves of ks_q.c, and a pop of the
      empty one times out; creations, joins and destructions of threads are
      single steps.
    - Thread (ks_thread.c): the life of a thread between its creator and itself in
      every interleaving: no use of a freed object, the result, the counts,
      progress.

    ** Kinds of theorems

    Refinements (Buffer, Queue, SimList, Hash, Pool, Tokens, Sb) relate every operation of
    a component to an abstract state by an invariant and are stated for any
    sequence of calls; JsonPrint refines a function, the text of a value. Round
    trips (Base64, Utf8, StrUtil, Kws, Printf, Hep, Config, JsonText) relate a
    writer to a reader. The concurrent components (Queue, Rwl,
    ThreadPool, Thread) are step relations; their theorems hold in every
    reachable state, for callers that do what each component allows and names.
    Bounds and safety theorems (Utf8, Printf, Kws, KwsHttp,
    Config, JsonParse) have no hypothesis on the data but the ones they name. Lemmas under
    headings such as "Where the ... does not do as it says" evaluate the model
    where the code fails its own intent.

    ** Bounds and fuel

    Sizes are below 2^30 or 2^31 where the code computes them in int or adds
    without a check (Sb, Kws; Printf's counts are checked and their overflow is a
    fault), below 2^24 elements where it computes in float (SimList), below 2^63
    or 2^64 otherwise; each theorem names its bound. Fuel: string loops take the length of the string, stream
    loops the length of the stream, list walks the number of nodes, frame
    readers the size of the input schedule, formats their length; each turn
    consumes at least one element, which the termination lemmas show. The JSON
    parser's calls nest at most 1001 deep, as its limit of 1000 makes them.

    ** Not modelled

    - simclist.c: dumping and restoring, and the comparators, meters and hashes of
      machine types; ks_list_delete_iterator, concatenation, hashing and lists that
      copy their data are modelled but not part of the refinement.
    - cJSON_Utils.c and the calls of cJSON.c that ks_json.c does not
      wrap: vendored code. A number of a JSON text is a finite double without a
      signed zero, an infinity or NaN; the decimal point is that of the C locale.
    - ks_tls.c, ks_ssl.c, the TLS branches of kws.c: OpenSSL glue.
    - ks_dso.c, ks_time.c, ks_env.c, ks_debug.c, ks_uuid.c,
      ks_metrics.c, ks.c, ks_atomic.h: wrappers of system calls whose content is
      the system's; the components that use them take their results as
      parameters.
    - ks_log.c: output; log lines have no effect on any modelled state.
    - ks_json_schema.cpp, ks_json_schema.h: a C++ wrapper of a library.
    - The Windows builds, the KS_DEBUG_MUTEX and KS_DEBUG_POOL records. *)
From stdpp Require Export base tactics option list numbers strings.
From Stdlib Require Export Lia.
From Stdlib Require Ascii String.

Declare Scope ks_scope.
Delimit Scope ks_scope with ks.

(** ** Results of C code

    A call either returns a value or stops with a fault: an access outside the
    object, a failed [ks_assert], [abort], the use of a freed object, an
    operation the C standard leaves undefined (a shift by the width, signed
    overflow, a missing variable argument or one of another type), or (for loops written with fuel)
    the end of the fuel, which every termination theorem excludes. *)

Inductive fault : Set :=
  | OutOfBounds
  | NullDeref
  | AssertFail
  | Aborted
  | UseAfterFree
  | BadShift
  | Overflow
  | BadArgument
  | NoFuel.

#[global] Instance fault_eq_dec : EqDecision fault.
Proof. solve_decision. Defined.

Inductive res (A : Type) : Type :=
  | Ok (a : A)
  | Err (f : fault).
Arguments Ok {A} _.
Arguments Err {A} _.

#[global] Instance res_ret : MRet res := fun A a => Ok a.
#[global] Instance res_bind : MBind res := fun A B f m =>
  match m with Ok a => f a | Err e => Err e end.
#[global] Instance res_fmap : FMap res := fun A B f m =>
  match m with Ok a => Ok (f a) | Err e => Err e end.

Definition ks_assert (b : bool) : res unit := if b then Ok tt else Err AssertFail.

Definition is_ok {A} (m : res A) : bool := match m with Ok _ => true | Err _ => false end.

Lemma res_bind_ok {A B} (a : A) (f : A -> res B) : (Ok a ≫= f) = f a.
Proof. reflexivity. Qed.

(** A computation that returns, or stops with a fault of [P]. *)
Definition only_fails {A} (P : fault -> Prop) (m : res A) : Prop := match m with Ok _ => True | Err e => P e end.

Lemma only_fails_bind {A B} P (m : res A) (f : A -> res B) :
  only_fails P m -> (forall a, m = Ok a -> only_fails P (f a)) -> only_fails P (m ≫= f).
Proof. destruct m; simpl; auto. Qed.

Lemma only_fails_impl {A} (P Q : fault -> Prop) (m : res A) : (forall e, P e -> Q e) -> only_fails P m -> only_fails Q m.
Proof. destruct m; simpl; auto. Qed.

Lemma only_fails_Ok {A} P (m : res A) a : m = Ok a -> only_fails P m.
Proof. by intros ->. Qed.

Lemma res_bind_inv {A B} (m : res A) (f : A -> res B) b :
  (m ≫= f) = Ok b -> exists a, m = Ok a /\ f a = Ok b.
Proof. destruct m; simpl; [eauto | discriminate]. Qed.

(** ** [ks_status_t], in the order of the C enumeration *)

Inductive ks_status_t : Set :=
  | KS_STATUS_SUCCESS | KS_STATUS_END | KS_STATUS_FAIL | KS_STATUS_BREAK
  | KS_STATUS_DISCONNECTED | KS_STATUS_GENERR | KS_STATUS_INVALID_ARGUMENT | KS_STATUS_INACTIVE
  | KS_STATUS_TIMEOUT | KS_STATUS_DUPLICATE_OPERATION | KS_STATUS_THREAD_STOP_REQUESTED
  | KS_STATUS_THREAD_ALREADY_STOPPED | KS_STATUS_THREAD_ALREADY_JOINED
  | KS_STATUS_POOL_PREFIX_LOCKED | KS_STATUS_REFS_EXIST | KS_STATUS_ARG_NULL
  | KS_STATUS_ARG_INVALID | KS_STATUS_PNT | KS_STATUS_POOL_OVER | KS_STATUS_PAGE_SIZE
  | KS_STATUS_OPEN_ZERO | KS_STATUS_NO_MEM | KS_STATUS_SIZE | KS_STATUS_TOO_BIG | KS_STATUS_MEM
  | KS_STATUS_MEM_OVER | KS_STATUS_NOT_FOUND | KS_STATUS_IS_FREE | KS_STATUS_BLOCK_STAT
  | KS_STATUS_FREE_ADDR | KS_STATUS_NO_PAGES | KS_STATUS_ALLOC | KS_STATUS_PNT_OVER
  | KS_STATUS_INVALID_POINTER | KS_STATUS_NOT_ALLOWED | KS_STATUS_RETRY.

#[global] Instance ks_status_eq_dec : EqDecision ks_status_t.
Proof. solve_decision. Defined.

(** ** Machine integers: [uN] wraps to an unsigned, [sN] to a signed N-bit value *)

Section Words.
Local Open Scope Z_scope.

Definition wrap (w x : Z) : Z := x mod 2 ^ w.
Definition swrap (w x : Z) : Z := (x + 2 ^ (w - 1)) mod 2 ^ w - 2 ^ (w - 1).
Definition u8 (x : Z) : Z := x mod 256.
Definition u16 (x : Z) : Z := x mod 65536.
Definition u32 (x : Z) : Z := x mod 4294967296.
Definition u64 (x : Z) : Z := x mod 18446744073709551616.
Definition s8 (x : Z) : Z := (x + 128) mod 256 - 128.
Definition s32 (x : Z) : Z := (x + 2147483648) mod 4294967296 - 2147483648.
Definition s64 (x : Z) : Z := (x + 9223372036854775808) mod 18446744073709551616 - 9223372036854775808.

Definition SIZE_MAX : Z := 18446744073709551615.
Definition INT_MAX : Z := 2147483647.

Definition is_byte (b : Z) : Prop := 0 <= b < 256.
Definition is_u32 (b : Z) : Prop := 0 <= b < 4294967296.

#[global] Instance is_byte_dec b : Decision (is_byte b).
Proof. unfold is_byte. apply _. Defined.

Lemma u8_range x : 0 <= u8 x < 256.
Proof. unfold u8. apply Z.mod_pos_bound. lia. Qed.
Lemma u32_range x : 0 <= u32 x < 4294967296.
Proof. unfold u32. apply Z.mod_pos_bound. lia. Qed.
Lemma u64_range x : 0 <= u64 x < 18446744073709551616.
Proof. unfold u64. apply Z.mod_pos_bound. lia. Qed.
Lemma u8_id x : 0 <= x < 256 -> u8 x = x.
Proof. apply Z.mod_small. Qed.
Lemma u16_id x : 0 <= x < 65536 -> u16 x = x.
Proof. apply Z.mod_small. Qed.
Lemma u32_id x : 0 <= x < 4294967296 -> u32 x = x.
Proof. apply Z.mod_small. Qed.
Lemma u64_id x : 0 <= x < 18446744073709551616 -> u64 x = x.
Proof. apply Z.mod_small. Qed.
Lemma s8_id x : -128 <= x < 128 -> s8 x = x.
Proof. intros. unfold s8. rewrite Z.mod_small; lia. Qed.
Lemma s32_id x : -2147483648 <= x < 2147483648 -> s32 x = x.
Proof. intros. unfold s32. rewrite Z.mod_small; lia. Qed.
Lemma s64_id x : -9223372036854775808 <= x < 9223372036854775808 -> s64 x = x.
Proof. intros. unfold s64. rewrite Z.mod_small; lia. Qed.

(** Bit operations on numbers given by their low [k] bits and the rest. *)
Lemma testbit_join k a x n : 0 <= k -> 0 <= a < 2 ^ k -> 0 <= n ->
  Z.testbit (a + 2 ^ k * x) n = if n <? k then Z.testbit a n else Z.testbit x (n - k).
Proof.
  intros Hk Ha Hn. destruct (Z.ltb_spec n k).
  - rewrite <- (Z.mod_pow2_bits_low _ k n), Z.mul_comm, Z.mod_add, Z.mod_small by lia. done.
  - replace n with ((n - k) + k) at 1 by lia. rewrite <- Z.div_pow2_bits by lia.
    rewrite Z.mul_comm, Z.div_add, Z.div_small by lia. done.
Qed.

Lemma land_join k a b x y : 0 <= k -> 0 <= a < 2 ^ k -> 0 <= b < 2 ^ k ->
  Z.land (a + 2 ^ k * x) (b + 2 ^ k * y) = Z.land a b + 2 ^ k * Z.land x y.
Proof.
  intros Hk Ha Hb. assert (Hab : 0 <= Z.land a b < 2 ^ k).
  { assert (E : Z.land a b = Z.land a b mod 2 ^ k); [|rewrite E; apply Z.mod_pos_bound; lia].
    rewrite <- Z.land_ones, <- Z.land_assoc, (Z.land_comm b), Z.land_assoc, Z.land_ones, (Z.mod_small a) by lia. done. }
  apply Z.bits_inj'. intros n Hn. rewrite Z.land_spec, !testbit_join by done. destruct (_ <? _); by rewrite Z.land_spec.
Qed.
End Words.
#[global] Arguments u8 : simpl never.
#[global] Arguments u16 : simpl never.
#[global] Arguments u32 : simpl never.
#[global] Arguments u64 : simpl never.
#[global] Arguments s8 : simpl never.
#[global] Arguments s32 : simpl never.
#[global] Arguments s64 : simpl never.

(** ** Byte arrays and C strings *)

Section Memory.
Context {A : Type}.
Local Open Scope Z_scope.

Definition zlen (m : list A) : Z := Z.of_nat (length m).

(** [m[i]], faulting outside the object. *)
Definition ld (m : list A) (i : Z) : res A :=
  if i <? 0 then Err OutOfBounds else
  match m !! Z.to_nat i with Some v => Ok v | None => Err OutOfBounds end.

(** [m[i] = v], faulting outside the object. *)
Definition st (m : list A) (i : Z) (v : A) : res (list A) :=
  if (0 <=? i) && (i <? zlen m) then Ok (<[Z.to_nat i := v]> m) else Err OutOfBounds.

(** [memcpy(dst + off, src, |src|)] and the read of [n] bytes at [off]. *)
Definition blit (dst : list A) (off : Z) (src : list A) : res (list A) :=
  if (0 <=? off) && (off + zlen src <=? zlen dst)
  then Ok (take (Z.to_nat off) dst ++ src ++ drop (Z.to_nat (off + zlen src)) dst)
  else Err OutOfBounds.

Definition slice (m : list A) (off n : Z) : res (list A) :=
  if (0 <=? off) && (0 <=? n) && (off + n <=? zlen m)
  then Ok (take (Z.to_nat n) (drop (Z.to_nat off) m)) else Err OutOfBounds.

Lemma zlen_nonneg (m : list A) : 0 <= zlen m.
Proof. unfold zlen. lia. Qed.
Lemma zlen_nil : zlen [] = 0.
Proof. reflexivity. Qed.
Lemma zlen_cons a (m : list A) : zlen (a :: m) = zlen m + 1.
Proof. unfold zlen. simpl. lia. Qed.
Lemma zlen_app (m1 m2 : list A) : zlen (m1 ++ m2) = zlen m1 + zlen m2.
Proof. unfold zlen. rewrite length_app. lia. Qed.
Lemma zlen_replicate n a : zlen (replicate n a) = Z.of_nat n.
Proof. unfold zlen. by rewrite length_replicate. Qed.
Lemma zlen_take_le n (m : list A) : 0 <= n <= zlen m -> zlen (take (Z.to_nat n) m) = n.
Proof. unfold zlen. rewrite length_take. lia. Qed.
Lemma zlen_drop_le n (m : list A) : 0 <= n <= zlen m -> zlen (drop (Z.to_nat n) m) = zlen m - n.
Proof. unfold zlen. rewrite length_drop. lia. Qed.
Lemma zlen_zero (m : list A) : zlen m = 0 -> m = [].
Proof. unfold zlen. destruct m; simpl; [done | lia]. Qed.

Lemma ld_app_mid (pre post : list A) v i : i = zlen pre -> ld (pre ++ v :: post) i = Ok v.
Proof.
  intros ->. unfold ld, zlen.
  destruct (Z.ltb_spec (Z.of_nat (length pre)) 0); [lia|].
  by rewrite Nat2Z.id, list_lookup_middle.
Qed.

(** Reading behind a prefix. *)
Lemma ld_app_shift (pre m : list A) i : 0 <= i -> ld (pre ++ m) (zlen pre + i) = ld m i.
Proof.
  intros Hi. unfold ld, zlen.
  destruct (Z.ltb_spec (Z.of_nat (length pre) + i) 0); [lia|]. destruct (Z.ltb_spec i 0); [lia|].
  rewrite lookup_app_r by lia.
  by replace (Z.to_nat (Z.of_nat (length pre) + i) - length pre)%nat with (Z.to_nat i) by lia.
Qed.

Lemma ld_in (m : list A) i : 0 <= i < zlen m -> exists v, ld m i = Ok v /\ m !! Z.to_nat i = Some v.
Proof.
  unfold zlen, ld. intros Hi. destruct (Z.ltb_spec i 0); [lia|].
  destruct (lookup_lt_is_Some_2 m (Z.to_nat i)) as [v Hv]; [lia|]. rewrite Hv. eauto.
Qed.

Lemma ld_nth (m : list A) i d : 0 <= i < zlen m -> ld m i = Ok (nth (Z.to_nat i) m d).
Proof.
  intros Hi. destruct (ld_in m i Hi) as (v & -> & Hv). f_equal.
  symmetry. by apply nth_lookup_Some.
Qed.

Lemma ld_out (m : list A) i : i < 0 \/ zlen m <= i -> ld m i = Err OutOfBounds.
Proof.
  unfold zlen, ld. intros Hi. destruct (Z.ltb_spec i 0); [done|].
  by rewrite lookup_ge_None_2 by lia.
Qed.

Lemma st_app_mid (pre post : list A) v w i :
  i = zlen pre -> st (pre ++ v :: post) i w = Ok (pre ++ w :: post).
Proof.
  intros ->. unfold st.
  rewrite zlen_app, zlen_cons.
  pose proof (zlen_nonneg pre). pose proof (zlen_nonneg post).
  destruct (Z.leb_spec 0 (zlen pre)); [|lia].
  destruct (Z.ltb_spec (zlen pre) (zlen pre + (zlen post + 1))); [|lia].
  simpl. unfold zlen. rewrite Nat2Z.id. f_equal.
  rewrite insert_app_r_alt by lia. by rewrite Nat.sub_diag.
Qed.

Lemma blit_app (pre mid post src : list A) off :
  off = zlen pre -> zlen mid = zlen src -> blit (pre ++ mid ++ post) off src = Ok (pre ++ src ++ post).
Proof.
  intros -> Hm. unfold blit. rewrite !zlen_app.
  pose proof (zlen_nonneg pre). pose proof (zlen_nonneg post). pose proof (zlen_nonneg src).
  destruct (Z.leb_spec 0 (zlen pre)); [|lia].
  destruct (Z.leb_spec (zlen pre + zlen src) (zlen pre + (zlen mid + zlen post))); [|lia].
  simpl. unfold zlen in *. f_equal. rewrite Nat2Z.id, take_app_length.
  f_equal. f_equal.
  rewrite app_assoc. apply drop_app_length'. rewrite length_app. lia.
Qed.

(** A block copied in front of the rest of a buffer. *)
Lemma blit_rest (acc rest bs : list A) d : d = zlen acc -> zlen bs <= zlen rest ->
  blit (acc ++ rest) d bs = Ok ((acc ++ bs) ++ drop (length bs) rest).
Proof.
  intros -> Hl. rewrite <- (take_drop (length bs) rest) at 1.
  rewrite (blit_app acc (take (length bs) rest) (drop (length bs) rest)); [by rewrite <- app_assoc|done|].
  unfold zlen in *. rewrite length_take. lia.
Qed.

Lemma st_rest (acc rest : list A) d v : d = zlen acc -> 0 < zlen rest ->
  st (acc ++ rest) d v = Ok (acc ++ v :: drop 1 rest).
Proof. intros -> Hl. destruct rest as [|x rest]; [done|]. by apply st_app_mid. Qed.

Lemma st_behind (acc rest : list A) k v : 0 <= k < zlen rest ->
  st (acc ++ rest) (zlen acc + k) v = Ok (acc ++ take (Z.to_nat k) rest ++ v :: drop (S (Z.to_nat k)) rest).
Proof.
  intros Hk. unfold zlen in Hk. destruct (lookup_lt_is_Some_2 rest (Z.to_nat k)) as [w Hw]; [lia|].
  rewrite <- (take_drop_middle rest _ w Hw) at 1. rewrite !app_assoc.
  apply st_app_mid. rewrite zlen_app. unfold zlen. rewrite length_take. lia.
Qed.

(** Writing the next byte. *)
Lemma st_push (o r : list A) v i : i = zlen o -> 0 < zlen r ->
  exists r', st (o ++ r) i v = Ok ((o ++ [v]) ++ r') /\ zlen r' = zlen r - 1.
Proof.
  intros -> Hr. exists (drop 1 r). rewrite st_rest by done. rewrite <- app_assoc. split; [done|].
  unfold zlen in *. rewrite length_drop. lia.
Qed.

(** Reading on and writing behind: [ck] was read, [v] is written. *)
Lemma st_lagging (done gap ck rest : list A) v : ck <> [] ->
  st (done ++ gap ++ ck ++ rest) (zlen done) v = Ok ((done ++ [v]) ++ drop 1 (gap ++ ck) ++ rest).
Proof.
  intros Hck. rewrite (app_assoc gap). assert (E : exists a l, gap ++ ck = a :: l) by (destruct gap, ck; cbn; eauto; done).
  destruct E as (a & l & ->). cbn [app drop]. rewrite <- app_assoc. by apply st_app_mid.
Qed.

(** Every list splits at an offset inside it. *)
Lemma split_at (m : list A) off :
  0 <= off <= zlen m -> exists pre post, m = pre ++ post /\ zlen pre = off.
Proof.
  intros Ho. exists (take (Z.to_nat off) m), (drop (Z.to_nat off) m).
  rewrite take_drop, zlen_take_le by done. done.
Qed.

Lemma slice_app (pre mid post : list A) off n :
  off = zlen pre -> n = zlen mid -> slice (pre ++ mid ++ post) off n = Ok mid.
Proof.
  intros -> ->. unfold slice. rewrite !zlen_app.
  pose proof (zlen_nonneg pre). pose proof (zlen_nonneg post). pose proof (zlen_nonneg mid).
  destruct (Z.leb_spec 0 (zlen pre)); [|lia]. destruct (Z.leb_spec 0 (zlen mid)); [|lia].
  destruct (Z.leb_spec (zlen pre + zlen mid) (zlen pre + (zlen mid + zlen post))); [|lia].
  simpl. unfold zlen. rewrite !Nat2Z.id, drop_app_length, take_app_length. done.
Qed.
End Memory.
#[global] Arguments zlen : simpl never.
#[global] Arguments ld : simpl never.
#[global] Arguments st : simpl never.
#[global] Arguments blit : simpl never.
#[global] Arguments slice : simpl never.

(** The C library on bytes: [strlen], and [memchr] over at most [n] bytes. *)
Fixpoint strlen (m : list Z) : res Z :=
  match m with
  | [] => Err OutOfBounds
  | c :: m => if (c =? 0)%Z then Ok 0%Z else n ← strlen m; Ok (n + 1)%Z
  end.

Fixpoint memchr (c : Z) (m : list Z) (n : Z) : res (option Z) :=
  if (n <=? 0)%Z then Ok None else
  match m with
  | [] => Err OutOfBounds
  | x :: m => if (x =? c)%Z then Ok (Some 0%Z) else r ← memchr c m (n - 1)%Z; Ok (option_map Z.succ r)
  end.

(** Bytes of a string literal, and the C string predicate. *)
Definition bytes_of_string (s : String.string) : list Z :=
  map (fun c => Z.of_nat (Ascii.nat_of_ascii c)) (String.list_ascii_of_string s).

Definition no_nul (s : list Z) : Prop := Forall (fun c => c <> 0%Z) s.
Definition all_bytes (s : list Z) : Prop := Forall is_byte s.

Lemma strlen_app (s j : list Z) : no_nul s -> strlen (s ++ 0%Z :: j) = Ok (zlen s).
Proof.
  induction 1 as [|c s Hc _ IH]; [done|]. simpl. destruct (Z.eqb_spec c 0); [done|].
  rewrite IH. by rewrite zlen_cons.
Qed.

(** A C string at [off]: its bytes up to the terminator. *)
Definition cstr (m : list Z) (off : Z) : res (list Z) :=
  n ← strlen (drop (Z.to_nat off) m); slice m off n.

Lemma cstr_full l t : no_nul l -> cstr (l ++ 0%Z :: t) 0 = Ok l.
Proof.
  intros Hl. unfold cstr. change (drop (Z.to_nat 0) ?m) with m. rewrite strlen_app by done. cbn [mbind res_bind].
  apply (slice_app [] l (0%Z :: t)); done.
Qed.

(** ** Integers as bytes, most significant first: [htons], [htonl], [hton64] and back *)

Section BigEndian.
Local Open Scope Z_scope.

Fixpoint be (n : nat) (v : Z) : list Z :=
  match n with
  | O => []
  | S n => be n (v / 256) ++ [v mod 256]
  end.
Definition from_be (bs : list Z) : Z := foldl (fun v b => v * 256 + b) 0 bs.

Lemma be_length n v : length (be n v) = n.
Proof. revert v. induction n; intros v; cbn; [done|]. rewrite length_app, IHn. simpl. lia. Qed.

Lemma from_be_be n : forall v, 0 <= v < 256 ^ Z.of_nat n -> from_be (be n v) = v.
Proof.
  induction n as [|n IH]; intros v Hv; cbn [be]; [simpl in Hv; unfold from_be; simpl; lia|].
  unfold from_be in *. rewrite Nat2Z.inj_succ, Z.pow_succ_r in Hv by lia. rewrite foldl_app, IH by (Z.to_euclidean_division_equations; lia). cbn [foldl]. (Z.to_euclidean_division_equations; lia).
Qed.
End BigEndian.

(** ** Codecs: an encoder, a decoder and the law that relates them *)

Class Codec (X Y : Type) := {
  codec_enc : X -> Y;
  codec_dec : Y -> option X;
  codec_dom : X -> Prop;
  codec_roundtrip : forall x, codec_dom x -> codec_dec (codec_enc x) = Some x;
}.

Section CodecLaws.
Context {X Y : Type} `{C : Codec X Y}.

Lemma codec_inj x1 x2 :
  codec_dom x1 -> codec_dom x2 -> codec_enc x1 = codec_enc x2 -> x1 = x2.
Proof.
  intros H1 H2 E. apply (f_equal codec_dec) in E.
  rewrite !codec_roundtrip in E by done. congruence.
Qed.
End CodecLaws.

(** ** Relations: reflexive-transitive closure and invariants of reachable states *)

Section Reach.
Context {S : Type} (step : S -> S -> Prop).

Inductive steps : S -> S -> Prop :=
  | steps_refl s : steps s s
  | steps_cons s1 s2 s3 : step s1 s2 -> steps s2 s3 -> steps s1 s3.

Lemma steps_trans s1 s2 s3 : steps s1 s2 -> steps s2 s3 -> steps s1 s3.
Proof. induction 1; eauto using steps. Qed.

Lemma steps_invariant (I : S -> Prop) s1 s2 :
  (forall a b, I a -> step a b -> I b) -> I s1 -> steps s1 s2 -> I s2.
Proof. intros Hp HI Hs. induction Hs; eauto. Qed.
End Reach.

(** ** Automation *)

Create HintDb ks.
Create Rewrite HintDb zlen.
#[export] Hint Rewrite @zlen_nil @zlen_cons @zlen_app @zlen_replicate : zlen.
#[export] Hint Resolve u8_range u32_range u64_range @zlen_nonneg : ks.
#[export] Hint Constructors steps : ks.

(** Split the boolean comparisons of the goal into linear facts. *)
Ltac zcase :=
  repeat match goal with
  | |- context [Z.ltb ?a ?b] => destruct (Z.ltb_spec a b); try (exfalso; lia)
  | |- context [Z.leb ?a ?b] => destruct (Z.leb_spec a b); try (exfalso; lia)
  | |- context [Z.eqb ?a ?b] => destruct (Z.eqb_spec a b); try (exfalso; lia)
  end; simpl.

(** Linear arithmetic with division and remainder by constants. *)
Ltac lia_div := Z.to_euclidean_division_equations; lia.

(** Split [Forall] hypotheses on conses and appends. *)
Ltac inv_Forall :=
  unfold all_bytes, no_nul in *;
  repeat match goal with
  | H : Forall _ (_ :: _) |- _ => apply Forall_cons in H; destruct H
  | H : Forall _ (_ ++ _) |- _ => apply Forall_app in H; destruct H
  end.

Ltac zlen_solve := autorewrite with zlen in *; unfold zlen in *; simpl in *; lia.

(** Invert the steps of a monadic computation that succeeded. *)
Ltac res_inv :=
  repeat match goal with
  | H : (_ ≫= _) = Ok _ |- _ => apply res_bind_inv in H; destruct H as (? & ? & H)
  | H : Ok _ = Ok _ |- _ => injection H as H
  | H : Err _ = Ok _ |- _ => discriminate H
  end.
