(* ===== verification/Base64.v ===== *)
(** Base64 (src/src/ks_base64.c): the encoder and the decoder over C buffers,
    the RFC 4648 encoding they are compared with, and the round trip. *)
From S2P Require Import Prelude.
From Stdlib Require Import ZArith.
Local Open Scope Z_scope.

Module Base64.

Definition ks_b64_table : list Z :=
  Eval vm_compute in
  bytes_of_string "ABCDEFGHIJKLMNOPQRSTUVWXYZabcdefghijklmnopqrstuvwxyz0123456789+/"%string ++ [0].

Definition b64_pad : Z := 61.

(** ** ks_b64_encode *)

(** The locals of [ks_b64_encode] with the output buffer. *)
Record enc_st := EncSt { e_out : list Z; e_bytes : Z; e_b : Z; e_l : Z; e_y : Z }.

(** [while (l >= 6) { ... }]; [true] is the [goto end]. *)
Fixpoint enc_flush (fuel : nat) (olen : Z) (s : enc_st) : res (enc_st * bool) :=
  match fuel with
  | O => Err NoFuel
  | S fuel =>
    if s.(e_l) <? 6 then Ok (s, false) else
    let l := s.(e_l) - 6 in
    c ← ld ks_b64_table ((Z.shiftr s.(e_b) l) mod 64);
    out ← st s.(e_out) s.(e_bytes) c;
    let bytes := s.(e_bytes) + 1 in
    if s32 olen - 1 <=? bytes then Ok (EncSt out bytes s.(e_b) l s.(e_y), true)
    else
      let y := s.(e_y) + 1 in
      enc_flush fuel olen (EncSt out bytes s.(e_b) l (if y =? 72 then 0 else y))
  end.

(** [for (x = 0; x < ilen; x++) { ... }] *)
Fixpoint enc_loop (inp : list Z) (olen : Z) (s : enc_st) : res (enc_st * bool) :=
  match inp with
  | [] => Ok (s, false)
  | x :: inp =>
    let b := u32 (u32 (Z.shiftl s.(e_b) 8) + x) in
    let l := s.(e_l) + 8 in
    r ← enc_flush (S (Z.to_nat l)) olen (EncSt s.(e_out) s.(e_bytes) b l s.(e_y));
    match r with
    | (s, true) => Ok (s, true)
    | (s, false) => enc_loop inp olen s
    end
  end.

(** [while (l < 6 && bytes < (int)olen - 1) out[bytes++] = '=', l += 2;] *)
Fixpoint enc_pad (fuel : nat) (olen : Z) (out : list Z) (bytes l : Z) : res (list Z * Z) :=
  match fuel with
  | O => Err NoFuel
  | S fuel =>
    if (l <? 6) && (bytes <? s32 olen - 1) then
      out ← st out bytes b64_pad;
      enc_pad fuel olen out (bytes + 1) (l + 2)
    else Ok (out, bytes)
  end.

(** The code after the loop, entered at [end:] when the flag is set. *)
Definition enc_finish (olen : Z) (r : enc_st * bool) : res (list Z) :=
  match r with
  | (s, true) => st s.(e_out) s.(e_bytes) 0
  | (s, false) =>
    r ← (if 0 <? s.(e_l) then
           c ← ld ks_b64_table ((Z.shiftl (s.(e_b) mod 16) (6 - s.(e_l))) mod 64);
           out ← st s.(e_out) s.(e_bytes) c;
           Ok (out, s.(e_bytes) + 1)
         else Ok (s.(e_out), s.(e_bytes)));
    let '(out, bytes) := r in
    r ← (if s.(e_l) =? 0 then Ok (out, bytes) else enc_pad 7 olen out bytes s.(e_l));
    let '(out, bytes) := r in
    st out bytes 0
  end.

Definition ks_b64_encode (inp out : list Z) (olen : Z) : res (list Z) :=
  enc_loop inp olen (EncSt out 0 0 0 0) ≫= enc_finish olen.

(** ** ks_b64_decode *)

(** The loops that fill [l64]: -1 everywhere, then the value of each of the 64
    letters. *)
Definition l64 : list Z :=
  Eval vm_compute in
  fold_left (fun m i => <[Z.to_nat (nth i ks_b64_table 0) := Z.of_nat i]> m)
            (seq 0 64) (replicate 256 (-1)).

Record dec_st := DecSt { d_out : list Z; d_b : Z; d_l : Z; d_ol : Z }.

(** [while (l >= 8) { ... }]; [b] is an [int] and [%] truncates. *)
Fixpoint dec_flush (fuel : nat) (olen : Z) (s : dec_st) : res (dec_st * bool) :=
  match fuel with
  | O => Err NoFuel
  | S fuel =>
    if s.(d_l) <? 8 then Ok (s, false) else
    let l := s.(d_l) - 8 in
    out ← st s.(d_out) s.(d_ol) (u8 (Z.rem (Z.shiftr s.(d_b) l) 256));
    let ol := s.(d_ol) + 1 in
    if u64 (olen - 2) <=? ol then Ok (DecSt out s.(d_b) l ol, true)
    else dec_flush fuel olen (DecSt out s.(d_b) l ol)
  end.

(** [for (ip = in; ip && *ip; ip++) { ... }]: the string ends at its NUL, and
    running past the object is a fault; the index is the signed [char]. *)
Fixpoint dec_loop (inp : list Z) (olen : Z) (s : dec_st) : res (dec_st * bool) :=
  match inp with
  | [] => Err OutOfBounds
  | ch :: inp =>
    if ch =? 0 then Ok (s, false) else
    c ← ld l64 (s8 ch);
    if c =? -1 then dec_loop inp olen s else
    let b := s32 (s32 (Z.shiftl s.(d_b) 6) + c) in
    let l := s.(d_l) + 6 in
    r ← dec_flush (S (Z.to_nat l)) olen (DecSt s.(d_out) b l s.(d_ol));
    match r with
    | (s, true) => Ok (s, true)
    | (s, false) => dec_loop inp olen s
    end
  end.

(** [end: op[ol++] = 0; return ol;] *)
Definition dec_finish (r : dec_st * bool) : res (list Z * Z) :=
  let '(s, _) := r in
  out ← st s.(d_out) s.(d_ol) 0;
  Ok (out, s.(d_ol) + 1).

(** Returns the output buffer and the returned length, NUL included. *)
Definition ks_b64_decode (inp out : list Z) (olen : Z) : res (list Z * Z) :=
  dec_loop inp olen (DecSt out 0 0 0) ≫= dec_finish.

(** ** The reference encoding: groups of three bytes *)

Definition letter (v : Z) : Z := nth (Z.to_nat v) ks_b64_table 0.

Fixpoint b64_ref (inp : list Z) : list Z :=
  match inp with
  | [] => []
  | [a] => [letter (a / 4); letter (a mod 4 * 16); b64_pad; b64_pad]
  | [a; b] => [letter (a / 4); letter (a mod 4 * 16 + b / 16); letter (b mod 16 * 4); b64_pad]
  | a :: b :: c :: inp =>
    letter (a / 4) :: letter (a mod 4 * 16 + b / 16) ::
    letter (b mod 16 * 4 + c / 64) :: letter (c mod 64) :: b64_ref inp
  end.

(** The value of a letter, [None] for the bytes the decoder skips. *)
Definition b64_val (ch : Z) : option Z :=
  match nth (Z.to_nat ch) l64 (-1) with -1 => None | v => Some v end.

(** The bytes that a list of 6-bit values stands for; leftover bits are dropped. *)
Fixpoint sextets (vs : list Z) : list Z :=
  match vs with
  | v0 :: v1 :: v2 :: v3 :: vs =>
    (v0 * 4 + v1 / 16) :: (v1 mod 16 * 16 + v2 / 4) :: (v2 mod 4 * 64 + v3) :: sextets vs
  | [v0; v1; v2] => [v0 * 4 + v1 / 16; v1 mod 16 * 16 + v2 / 4]
  | [v0; v1] => [v0 * 4 + v1 / 16]
  | _ => []
  end.

Definition b64_dec_ref (s : list Z) : list Z := sextets (omap b64_val s).

(** The encoder's loop as a stream transducer: [l] leftover bits of value [v]. *)
Fixpoint enc_stream (l v : Z) (inp : list Z) : list Z :=
  match inp with
  | [] =>
    if l =? 2 then [letter (v * 16); b64_pad; b64_pad]
    else if l =? 4 then [letter (v * 4); b64_pad] else []
  | x :: inp =>
    if l =? 0 then letter (x / 4) :: enc_stream 2 (x mod 4) inp
    else if l =? 2 then letter (v * 16 + x / 16) :: enc_stream 4 (x mod 16) inp
    else letter (v * 4 + x / 64) :: letter (x mod 64) :: enc_stream 0 0 inp
  end.

Example enc_test :
  ks_b64_encode (bytes_of_string "libks"%string) (replicate 12 255) 12
  = Ok (bytes_of_string "bGlia3M="%string ++ [0; 255; 255; 255]).
Proof. reflexivity. Qed.
Example dec_test :
  ks_b64_decode (bytes_of_string "bGlia3M="%string ++ [0]) (replicate 9 255) 9
  = Ok (bytes_of_string "libks"%string ++ [0; 255; 255; 255], 6).
Proof. reflexivity. Qed.

(** ** The encoder is the reference, cut to the buffer *)

Lemma enc_stream_ref inp : enc_stream 0 0 inp = b64_ref inp.
Proof.
  revert inp. fix IH 1. intros [|a [|b [|c inp]]]; try reflexivity.
  simpl. by rewrite <- IH.
Qed.

Lemma ld_letter i : 0 <= i < 64 -> ld ks_b64_table i = Ok (letter i).
Proof. intros Hi. apply ld_nth. change (zlen ks_b64_table) with 65. lia. Qed.

(** [fill room pre post cs]: the buffer [pre ++ post] after at most [room] of
    [cs] and the terminating NUL were written at its position. *)
Definition fill (room : nat) (pre post cs : list Z) : list Z :=
  let k := Nat.min room (length cs) in pre ++ take k cs ++ 0 :: drop (S k) post.

Lemma fill_cons room pre x post c cs :
  fill (S room) pre (x :: post) (c :: cs) = fill room (pre ++ [c]) post cs.
Proof. unfold fill. simpl. by rewrite <- app_assoc. Qed.

Lemma fill_stop pre x post cs : fill 0 pre (x :: post) cs = pre ++ 0 :: post.
Proof. reflexivity. Qed.

Lemma fill_nil room pre x post : fill room pre (x :: post) [] = pre ++ 0 :: post.
Proof. unfold fill. simpl. rewrite Nat.min_0_r. done. Qed.

Section Encode.
Variable olen : Z.
Hypothesis Holen : 2 <= olen <= INT_MAX.

Lemma int_olen : s32 olen = olen.
Proof. apply s32_id. unfold INT_MAX in *. lia. Qed.

(** One turn of the inner loop stores one letter. *)
Lemma enc_flush_step fuel pre x post b l y :
  6 <= l ->
  enc_flush (S fuel) olen (EncSt (pre ++ x :: post) (zlen pre) b l y) =
  let c := letter (Z.shiftr b (l - 6) mod 64) in
  let y' := if y + 1 =? 72 then 0 else y + 1 in
  if olen - 1 <=? zlen (pre ++ [c])
  then Ok (EncSt ((pre ++ [c]) ++ post) (zlen (pre ++ [c])) b (l - 6) y, true)
  else enc_flush fuel olen (EncSt ((pre ++ [c]) ++ post) (zlen (pre ++ [c])) b (l - 6) y').
Proof.
  intros Hl. cbn [enc_flush e_l e_b e_out e_bytes e_y].
  destruct (Z.ltb_spec l 6); [lia|].
  rewrite ld_letter by (apply Z.mod_pos_bound; lia). simpl.
  rewrite st_app_mid by done. simpl.
  cbv zeta. rewrite int_olen. autorewrite with zlen. rewrite <- app_assoc. done.
Qed.

Lemma enc_flush_done fuel out bytes b l y :
  l < 6 -> enc_flush (S fuel) olen (EncSt out bytes b l y) = Ok (EncSt out bytes b l y, false).
Proof. intros Hl. cbn [enc_flush e_l]. zcase. done. Qed.

Definition enc_goal (s : enc_st) (inp pre post : list Z) (room : nat) cs : Prop :=
  enc_loop inp olen s ≫= enc_finish olen = Ok (fill room pre post cs).

(** The bits of the accumulator the code looks at are the leftover bits. *)
Lemma enc_b0 b x : is_byte x ->
  Z.shiftr (u32 (u32 (Z.shiftl b 8) + x)) 2 mod 64 = x / 4 /\
  u32 (u32 (Z.shiftl b 8) + x) mod 4 = x mod 4.
Proof.
  unfold is_byte, u32. rewrite Z.shiftr_div_pow2, Z.shiftl_mul_pow2 by lia.
  change (2 ^ 8) with 256. change (2 ^ 2) with 4. intros. split; lia_div.
Qed.

Lemma enc_b2 b x : is_byte x ->
  Z.shiftr (u32 (u32 (Z.shiftl b 8) + x)) 4 mod 64 = b mod 4 * 16 + x / 16 /\
  u32 (u32 (Z.shiftl b 8) + x) mod 16 = x mod 16.
Proof.
  unfold is_byte, u32. rewrite Z.shiftr_div_pow2, Z.shiftl_mul_pow2 by lia.
  change (2 ^ 8) with 256. change (2 ^ 4) with 16. intros. split; lia_div.
Qed.

Lemma enc_b4 b x : is_byte x ->
  Z.shiftr (u32 (u32 (Z.shiftl b 8) + x)) 6 mod 64 = b mod 16 * 4 + x / 64 /\
  Z.shiftr (u32 (u32 (Z.shiftl b 8) + x)) 0 mod 64 = x mod 64.
Proof.
  unfold is_byte, u32. rewrite !Z.shiftr_div_pow2, !Z.shiftl_mul_pow2 by lia.
  change (2 ^ 8) with 256. change (2 ^ 6) with 64. intros. split; lia_div.
Qed.

(** What follows the inner loop: the next byte, or [end:]. *)
Definition enc_next (inp : list Z) (r : enc_st * bool) : res (list Z) :=
  match r with
  | (s, true) => enc_finish olen (s, true)
  | (s, false) => enc_loop inp olen s ≫= enc_finish olen
  end.

Lemma enc_loop_cons x inp out bytes b l y :
  enc_loop (x :: inp) olen (EncSt out bytes b l y) ≫= enc_finish olen =
  enc_flush (S (Z.to_nat (l + 8))) olen
    (EncSt out bytes (u32 (u32 (Z.shiftl b 8) + x)) (l + 8) y) ≫= enc_next inp.
Proof.
  cbn [enc_loop e_b e_l e_out e_bytes e_y].
  destruct (enc_flush _ _ _) as [[? []]|]; reflexivity.
Qed.

(** One turn of the inner loop, by the room left in the buffer. *)
Lemma enc_turn fuel pre p0 p1 post b l l' y room inp c :
  6 <= l -> l' = l - 6 -> zlen pre + Z.of_nat (S room) = olen - 1 ->
  c = letter (Z.shiftr b l' mod 64) ->
  exists y',
  enc_flush (S fuel) olen (EncSt (pre ++ p0 :: p1 :: post) (zlen pre) b l y) ≫= enc_next inp =
  match room with
  | O => Ok ((pre ++ [c]) ++ 0 :: post)
  | S _ => enc_flush fuel olen (EncSt ((pre ++ [c]) ++ p1 :: post) (zlen (pre ++ [c])) b l' y')
             ≫= enc_next inp
  end.
Proof.
  intros Hl -> Hroom ->. exists (if y + 1 =? 72 then 0 else y + 1).
  rewrite enc_flush_step by done. cbv zeta.
  match goal with |- context [?a <=? ?b] => destruct (Z.leb_spec a b) end;
    autorewrite with zlen in *; destruct room; try lia.
  - cbn [mbind res_bind enc_next enc_finish e_out e_bytes].
    apply st_app_mid. by autorewrite with zlen.
  - done.
Qed.

Lemma enc_pad_spec n : forall fuel pre post room l,
  (n < fuel)%nat -> l = 6 - 2 * Z.of_nat n ->
  zlen pre + Z.of_nat room = olen - 1 -> length post = S room ->
  (r ← enc_pad fuel olen (pre ++ post) (zlen pre) l; let '(out, bytes) := r in st out bytes 0) =
  Ok (fill room pre post (replicate n b64_pad)).
Proof.
  induction n as [|n IH]; intros [|fuel] pre post room l Hf Hl Hr Hp; try lia;
    destruct post as [|p0 post]; try discriminate Hp; cbn [enc_pad]; rewrite int_olen.
  - destruct (Z.ltb_spec l 6); [lia|]. cbn [andb mbind res_bind].
    rewrite fill_nil. by apply st_app_mid.
  - destruct (Z.ltb_spec l 6); [|lia]. destruct room as [|room].
    + destruct (Z.ltb_spec (zlen pre) (olen - 1)); [lia|]. cbn [andb mbind res_bind].
      rewrite fill_stop. by apply st_app_mid.
    + destruct (Z.ltb_spec (zlen pre) (olen - 1)); [|lia]. cbn [andb mbind res_bind].
      rewrite st_app_mid by done. cbn [replicate]. rewrite fill_cons, cons_middle, app_assoc.
      rewrite <- (IH fuel (pre ++ [b64_pad]) post room (l + 2)); [|lia|lia| |simpl in Hp; lia].
      * autorewrite with zlen. done.
      * autorewrite with zlen. lia.
Qed.

(** The code after the loop, with [l] leftover bits. *)
Lemma enc_finish_left (l b y : Z) n room pre p0 p1 post :
  l = 6 - 2 * Z.of_nat n -> (0 < n < 3)%nat ->
  zlen pre + Z.of_nat (S room) = olen - 1 -> length post = room ->
  enc_finish olen (EncSt (pre ++ p0 :: p1 :: post) (zlen pre) b l y, false) =
  Ok (fill (S room) pre (p0 :: p1 :: post)
        (letter (Z.shiftl (b mod 16) (6 - l) mod 64) :: replicate n b64_pad)).
Proof.
  intros Hl Hn Hr Hp. cbn [enc_finish e_l e_b e_out e_bytes].
  destruct (Z.ltb_spec 0 l); [|lia]. destruct (Z.eqb_spec l 0); [lia|].
  rewrite ld_letter by (apply Z.mod_pos_bound; lia). cbn [mbind res_bind].
  rewrite st_app_mid by done. cbn [mbind res_bind].
  rewrite fill_cons, cons_middle, app_assoc.
  rewrite <- (enc_pad_spec n 7 _ (p1 :: post) room l); [|lia|done| |simpl; lia].
  - autorewrite with zlen. done.
  - autorewrite with zlen. lia.
Qed.

(** The next byte, after the inner loop ended with fewer than six bits. *)
Ltac enc_more room IH :=
  rewrite fill_cons; destruct room as [|room]; [done|];
  rewrite enc_flush_done by lia; cbn [mbind res_bind enc_next];
  rewrite (IH _ _ _ room); [|done|auto|apply u32_range|autorewrite with zlen; lia|simpl in *; lia].

(** Running the loop and the code after it from any point of the input. *)
Lemma enc_run inp : forall (l b y : Z) (room : nat) pre post,
  all_bytes inp -> l = 0 \/ l = 2 \/ l = 4 -> 0 <= b ->
  zlen pre + Z.of_nat (S room) = olen - 1 -> length post = S (S room) ->
  enc_loop inp olen (EncSt (pre ++ post) (zlen pre) b l y) ≫= enc_finish olen =
  Ok (fill (S room) pre post (enc_stream l (b mod 2 ^ l) inp)).
Proof.
  induction inp as [|x inp IH]; intros l b y room pre post Hin Hl Hb Hlen Hpost.
  - destruct post as [|p0 [|p1 post]]; [simpl in Hpost; discriminate..|].
    cbn [enc_loop mbind res_bind]. simpl in Hpost.
    destruct Hl as [->|[->| ->]].
    + cbn [enc_finish e_l Z.ltb Z.eqb Z.compare mbind res_bind e_out e_bytes enc_stream].
      rewrite fill_nil. by apply st_app_mid.
    + rewrite (enc_finish_left 2 b y 2 room) by lia. cbn [enc_stream Z.eqb replicate].
      do 4 f_equal. rewrite Z.shiftl_mul_pow2 by lia. change (2 ^ (6 - 2)) with 16. change (2 ^ 2) with 4. lia_div.
    + rewrite (enc_finish_left 4 b y 1 room) by lia. cbn [enc_stream Z.eqb replicate].
      do 4 f_equal. rewrite Z.shiftl_mul_pow2 by lia. change (2 ^ (6 - 4)) with 4. change (2 ^ 4) with 16. lia_div.
  - inversion_clear Hin as [|? ? Hx Hin'].
    destruct post as [|p0 [|p1 post]]; [simpl in Hpost; discriminate..|].
    rewrite enc_loop_cons. set (b' := u32 (u32 (Z.shiftl b 8) + x)).
    destruct Hl as [->|[->| ->]].
    + destruct (enc_b0 b x Hx) as [E1 E2]. fold b' in E1, E2.
      change (S (Z.to_nat (0 + 8))) with 9%nat.
      edestruct (enc_turn 8 pre p0 p1 post b' (0 + 8) 2 y room inp) as [y' ->]; [lia..|done|].
      rewrite E1. simpl enc_stream. enc_more room IH.
      change (2 ^ 2) with 4. by rewrite E2.
    + destruct (enc_b2 b x Hx) as [E1 E2]. fold b' in E1, E2.
      change (S (Z.to_nat (2 + 8))) with 11%nat.
      edestruct (enc_turn 10 pre p0 p1 post b' (2 + 8) 4 y room inp) as [y' ->]; [lia..|done|].
      rewrite E1. simpl enc_stream. enc_more room IH.
      change (2 ^ 4) with 16. by rewrite E2.
    + destruct (enc_b4 b x Hx) as [E1 E2]. fold b' in E1, E2.
      change (S (Z.to_nat (4 + 8))) with 13%nat.
      edestruct (enc_turn 12 pre p0 p1 post b' (4 + 8) 6 y room inp) as [y' ->]; [lia..|done|].
      rewrite E1. simpl enc_stream. rewrite fill_cons. destruct room as [|room]; [done|].
      destruct post as [|p2 post]; [simpl in Hpost; discriminate|].
      edestruct (enc_turn 11 (pre ++ [letter (b mod 16 * 4 + x / 64)]) p1 p2 post b' 6 0 y' room inp)
        as [y'' ->]; [lia| lia | autorewrite with zlen; lia | done |].
      rewrite E2. enc_more room IH. by rewrite Z.mod_1_r.
Qed.

Lemma encode_out inp out :
  all_bytes inp -> zlen out = olen ->
  ks_b64_encode inp out olen =
  Ok (take (Z.to_nat (olen - 1)) (b64_ref inp) ++
      0 :: drop (S (Nat.min (Z.to_nat (olen - 1)) (length (b64_ref inp)))) out).
Proof.
  intros Hin Hout.
  pose proof (enc_run inp 0 0 0 (Z.to_nat (olen - 2)) [] out Hin) as E.
  unfold ks_b64_encode. unfold zlen in *. simpl in E. change (Z.of_nat 0) with 0 in E.
  rewrite E by lia. change (0 mod 1) with 0. rewrite enc_stream_ref. unfold fill.
  replace (S (Z.to_nat (olen - 2))) with (Z.to_nat (olen - 1)) by lia. simpl.
  by rewrite <- take_take, firstn_all.
Qed.
End Encode.

(** For every input and every output buffer of at least two bytes,
    [ks_b64_encode] stays inside the buffer and leaves in it the RFC 4648
    encoding of the input, cut to [olen - 1] letters, and a NUL. *)
Lemma ks_b64_encode_correct inp out olen :
  2 <= olen <= INT_MAX -> all_bytes inp -> zlen out = olen ->
  ks_b64_encode inp out olen =
  Ok (take (Z.to_nat (olen - 1)) (b64_ref inp) ++
      0 :: drop (S (Nat.min (Z.to_nat (olen - 1)) (length (b64_ref inp)))) out).
Proof. intros. by apply encode_out. Qed.

Lemma ks_b64_encode_correct_witness :
  ks_b64_encode [255; 0; 7] (replicate 4 9) 4 = Ok (take 3 (b64_ref [255; 0; 7]) ++ [0]).
Proof.
  apply (ks_b64_encode_correct [255; 0; 7] (replicate 4 9) 4).
  - vm_compute; split; discriminate.
  - repeat constructor; unfold is_byte; lia.
  - reflexivity.
Defined.

(** ** The decoder is the reference decoder, cut to the buffer *)

(** The decoder as a stream transducer: [l] leftover bits of value [v]. *)
Fixpoint dec_stream (l v : Z) (vs : list Z) : list Z :=
  match vs with
  | [] => []
  | x :: vs =>
    if l =? 0 then dec_stream 6 x vs
    else if l =? 6 then (v * 4 + x / 16) :: dec_stream 4 (x mod 16) vs
    else if l =? 4 then (v * 16 + x / 4) :: dec_stream 2 (x mod 4) vs
    else (v * 64 + x) :: dec_stream 0 0 vs
  end.

Lemma dec_stream_ref vs : dec_stream 0 0 vs = sextets vs.
Proof.
  revert vs. fix IH 1. intros [|a [|b [|c [|d vs]]]]; try reflexivity.
  simpl. by rewrite <- IH.
Qed.

Definition is_sextet (v : Z) : Prop := 0 <= v < 64.
Definition is_ascii (c : Z) : Prop := 0 < c < 128.

(** What the table says of every 7-bit character. *)
Lemma l64_ascii c : is_ascii c ->
  match b64_val c with
  | Some v => ld l64 (s8 c) = Ok v /\ is_sextet v
  | None => ld l64 (s8 c) = Ok (-1)
  end.
Proof.
  intros Hc.
  assert (Hall : forallb (fun n =>
    match b64_val (Z.of_nat n) with
    | Some v => match ld l64 (s8 (Z.of_nat n)) with Ok w => (w =? v) && (0 <=? v) && (v <? 64) | _ => false end
    | None => match ld l64 (s8 (Z.of_nat n)) with Ok w => (w =? -1) | _ => false end
    end) (seq 0 128) = true) by reflexivity.
  rewrite forallb_forall in Hall. unfold is_ascii in Hc.
  specialize (Hall (Z.to_nat c)). rewrite Z2Nat.id in Hall by lia.
  rewrite in_seq in Hall. specialize (Hall ltac:(lia)). unfold is_sextet.
  repeat case_match; try discriminate; lia || (f_equal; lia) || (split; [f_equal|]; lia).
Qed.

Section Decode.
Variable olen : Z.
Hypothesis Holen : 3 <= olen <= SIZE_MAX.

Lemma u64_olen : u64 (olen - 2) = olen - 2.
Proof. apply u64_id. unfold SIZE_MAX in *. lia. Qed.

(** The accumulator is an [int]; the eight bits stored depend only on the
    leftover bits and the new six. *)
Lemma dec_byte b l v :
  l = 6 \/ l = 4 \/ l = 2 -> is_sextet v ->
  let b' := s32 (s32 (Z.shiftl b 6) + v) in
  u8 (Z.rem (Z.shiftr b' (l - 2)) 256) = b mod 2 ^ l * 2 ^ (8 - l) + v / 2 ^ (l - 2) /\
  b' mod 2 ^ (l - 2) = v mod 2 ^ (l - 2).
Proof.
  intros Hl Hv b'. unfold is_sextet in Hv. unfold b', u8, s32.
  rewrite Z.shiftl_mul_pow2 by lia. change (2 ^ 6) with 64.
  destruct Hl as [->|[->| ->]]; rewrite Z.shiftr_div_pow2 by lia;
    cbn [Z.sub Z.opp Z.add Z.pos_sub Pos.pred_double Z.pow Z.pow_pos Pos.iter Z.mul Pos.mul].
  - split; lia_div.
  - split; lia_div.
  - split; lia_div.
Qed.

Lemma dec_b0 b v : is_sextet v -> s32 (s32 (Z.shiftl b 6) + v) mod 2 ^ 6 = v.
Proof.
  unfold is_sextet, s32. intros. rewrite Z.shiftl_mul_pow2 by lia. change (2 ^ 6) with 64. lia_div.
Qed.

Definition dec_next (inp : list Z) (r : dec_st * bool) : res (list Z * Z) :=
  match r with
  | (s, true) => dec_finish (s, true)
  | (s, false) => dec_loop inp olen s ≫= dec_finish
  end.

(** A character of the alphabet, a character to skip. *)
Lemma dec_loop_cons x v inp out b l ol :
  is_ascii x -> b64_val x = Some v ->
  dec_loop (x :: inp) olen (DecSt out b l ol) ≫= dec_finish =
  dec_flush (S (Z.to_nat (l + 6))) olen
    (DecSt out (s32 (s32 (Z.shiftl b 6) + v)) (l + 6) ol) ≫= dec_next inp.
Proof.
  intros Hx Ev. pose proof (l64_ascii x Hx) as H. rewrite Ev in H. destruct H as [Hld Hv].
  unfold is_ascii, is_sextet in *. cbn [dec_loop]. destruct (Z.eqb_spec x 0); [lia|].
  rewrite Hld. cbn [mbind res_bind d_b d_l d_out d_ol]. destruct (Z.eqb_spec v (-1)); [lia|].
  destruct (dec_flush _ _ _) as [[? []]|]; reflexivity.
Qed.

Lemma dec_loop_skip x inp s :
  is_ascii x -> b64_val x = None -> dec_loop (x :: inp) olen s = dec_loop inp olen s.
Proof.
  intros Hx Ev. pose proof (l64_ascii x Hx) as H. rewrite Ev in H.
  unfold is_ascii in *. cbn [dec_loop]. destruct (Z.eqb_spec x 0); [lia|]. by rewrite H.
Qed.

Lemma dec_flush_done fuel out b l ol :
  l < 8 -> dec_flush (S fuel) olen (DecSt out b l ol) = Ok (DecSt out b l ol, false).
Proof. intros Hl. cbn [dec_flush d_l]. destruct (Z.ltb_spec l 8); [done|lia]. Qed.

(** One turn of the inner loop, by the room left in the buffer. *)
Lemma dec_turn fuel pre p0 p1 post b l room inp :
  8 <= l -> zlen pre + Z.of_nat (S room) = olen - 2 ->
  let c := u8 (Z.rem (Z.shiftr b (l - 8)) 256) in
  dec_flush (S fuel) olen (DecSt (pre ++ p0 :: p1 :: post) b l (zlen pre)) ≫= dec_next inp =
  match room with
  | O => Ok ((pre ++ [c]) ++ 0 :: post, zlen pre + 2)
  | S _ => dec_flush fuel olen (DecSt ((pre ++ [c]) ++ p1 :: post) b (l - 8) (zlen (pre ++ [c])))
             ≫= dec_next inp
  end.
Proof.
  intros Hl Hroom c. cbn [dec_flush d_l d_b d_out d_ol]. destruct (Z.ltb_spec l 8); [lia|].
  rewrite st_app_mid by done. cbn [mbind res_bind]. rewrite u64_olen. fold c.
  destruct (Z.leb_spec (olen - 2) (zlen pre + 1)); destruct room; try lia.
  - cbn [mbind res_bind dec_next dec_finish d_out d_ol].
    rewrite cons_middle, app_assoc, st_app_mid by (autorewrite with zlen; done).
    cbn [mbind res_bind]. do 2 f_equal. lia.
  - autorewrite with zlen. by rewrite <- app_assoc.
Qed.

Definition dec_result (room : nat) (pre post cs : list Z) : list Z * Z :=
  (fill room pre post cs, zlen pre + Z.of_nat (Nat.min room (length cs)) + 1).

Lemma dec_result_cons room pre x post c cs :
  dec_result (S room) pre (x :: post) (c :: cs) = dec_result room (pre ++ [c]) post cs.
Proof.
  unfold dec_result. rewrite fill_cons. autorewrite with zlen. f_equal. simpl. lia.
Qed.

(** The character after the inner loop ended with fewer than eight bits. *)
Ltac dec_more room IH :=
  rewrite dec_result_cons; destruct room as [|room];
  [unfold dec_result; rewrite fill_stop; autorewrite with zlen; do 2 f_equal; simpl; lia|];
  rewrite dec_flush_done by lia; cbn [mbind res_bind dec_next];
  rewrite (IH _ _ room); [|done|auto|autorewrite with zlen; lia|simpl in *; lia].

Lemma dec_run rest inp : forall (l b : Z) (room : nat) pre post,
  Forall is_ascii inp -> l = 0 \/ l = 6 \/ l = 4 \/ l = 2 ->
  zlen pre + Z.of_nat (S room) = olen - 2 -> length post = S (S (S room)) ->
  dec_loop (inp ++ 0 :: rest) olen (DecSt (pre ++ post) b l (zlen pre)) ≫= dec_finish =
  Ok (dec_result (S room) pre post (dec_stream l (b mod 2 ^ l) (omap b64_val inp))).
Proof.
  induction inp as [|x inp IH]; intros l b room pre post Hin Hl Hlen Hpost;
    (destruct post as [|p0 [|p1 post]]; [simpl in Hpost; discriminate..|]).
  - cbn [app dec_loop Z.eqb mbind res_bind dec_finish d_out d_ol list_omap omap dec_stream].
    rewrite st_app_mid by done. unfold dec_result. cbn [mbind res_bind].
    rewrite fill_nil. do 2 f_equal. simpl. lia.
  - inversion_clear Hin as [|? ? Hx Hin'].
    pose proof (l64_ascii x Hx) as Hv. destruct (b64_val x) as [v|] eqn:Ev.
    + destruct Hv as [_ Hv]. simpl app. rewrite (dec_loop_cons x v) by done.
      simpl omap. rewrite Ev. cbn [dec_stream].
      destruct Hl as [->|Hl].
      * change (S (Z.to_nat (0 + 6))) with 7%nat. rewrite dec_flush_done by lia.
        cbn [mbind res_bind dec_next Z.eqb].
        rewrite (IH _ _ room); [|done|auto|done|simpl in *; lia].
        change (0 + 6) with 6. by rewrite dec_b0.
      * destruct (dec_byte b l v) as [E1 E2]; [auto|done|].
        replace (S (Z.to_nat (l + 6))) with (S (S (Z.to_nat (l + 5)))) by lia.
        rewrite (dec_turn _ _ _ _ _ _ _ room) by lia.
        replace (l + 6 - 8) with (l - 2) by lia. rewrite E1.
        destruct Hl as [->|[->| ->]]; cbn [Z.eqb Pos.eqb].
        -- dec_more room IH. by rewrite E2.
        -- dec_more room IH. by rewrite E2.
        -- change (2 ^ (2 - 2)) with 1 in *. rewrite Z.div_1_r, Z.mod_1_r in *.
           dec_more room IH. by rewrite Z.mod_1_r.
    + rewrite <- app_comm_cons, dec_loop_skip by done. simpl omap. rewrite Ev. by apply IH.
Qed.

Lemma decode_out inp rest out :
  Forall is_ascii inp -> zlen out = olen ->
  let n := Nat.min (Z.to_nat (olen - 2)) (length (b64_dec_ref inp)) in
  ks_b64_decode (inp ++ 0 :: rest) out olen =
  Ok (take n (b64_dec_ref inp) ++ 0 :: drop (S n) out, Z.of_nat n + 1).
Proof.
  intros Hin Hout n.
  pose proof (dec_run rest inp 0 0 (Z.to_nat (olen - 3)) [] out Hin) as E.
  unfold ks_b64_decode. unfold zlen in *. simpl in E. change (Z.of_nat 0) with 0 in E.
  rewrite E by lia. change (0 mod 1) with 0. rewrite dec_stream_ref.
  unfold dec_result, fill, n, b64_dec_ref.
  replace (S (Z.to_nat (olen - 3))) with (Z.to_nat (olen - 2)) by lia. done.
Qed.
End Decode.

(** A 7-bit C string decodes, inside any buffer of at least three bytes,
    to the reference decoding of its letters (other characters are skipped),
    cut to [olen - 2] bytes, and a NUL; the result counts the NUL. *)
Lemma ks_b64_decode_correct inp rest out olen :
  3 <= olen <= SIZE_MAX -> Forall is_ascii inp -> zlen out = olen ->
  let n := Nat.min (Z.to_nat (olen - 2)) (length (b64_dec_ref inp)) in
  ks_b64_decode (inp ++ 0 :: rest) out olen =
  Ok (take n (b64_dec_ref inp) ++ 0 :: drop (S n) out, Z.of_nat n + 1).
Proof. intros. by apply decode_out. Qed.

Lemma ks_b64_decode_correct_witness :
  ks_b64_decode ([81; 85; 33; 74; 68] ++ 0 :: [99]) [1; 2; 3; 4; 5; 6] 6 = Ok ([65; 66; 67; 0; 5; 6], 4).
Proof.
  apply (ks_b64_decode_correct [81; 85; 33; 74; 68] [99] [1; 2; 3; 4; 5; 6] 6).
  - vm_compute; split; discriminate.
  - repeat constructor; unfold is_ascii; lia.
  - reflexivity.
Defined.

(** ** Round trip *)

Lemma b64_val_letter v : is_sextet v -> b64_val (letter v) = Some v /\ is_ascii (letter v).
Proof.
  intros Hv. unfold is_sextet in Hv.
  assert (Hall : forallb (fun n =>
    match b64_val (letter (Z.of_nat n)) with
    | Some w => (w =? Z.of_nat n) && (0 <? letter (Z.of_nat n)) && (letter (Z.of_nat n) <? 128)
    | None => false end) (seq 0 64) = true) by reflexivity.
  rewrite forallb_forall in Hall. specialize (Hall (Z.to_nat v)).
  rewrite Z2Nat.id, in_seq in Hall by lia. specialize (Hall ltac:(lia)).
  destruct (b64_val (letter v)); [|discriminate]. unfold is_ascii. split; [f_equal|]; lia.
Qed.

Lemma omap_letters vs cs :
  Forall is_sextet vs -> omap b64_val (map letter vs ++ cs) = vs ++ omap b64_val cs.
Proof.
  induction 1 as [|v vs Hv Hvs IH]; [done|]. csimpl.
  destruct (b64_val_letter v Hv) as [-> _]. by rewrite IH.
Qed.

Lemma omap_pads n : omap b64_val (replicate n b64_pad) = [].
Proof. by induction n. Qed.

Ltac sextets_solve :=
  simpl; repeat (apply Forall_cons_2 || apply Forall_nil_2);
  unfold is_byte, is_sextet, is_ascii, b64_pad in *; lia_div.

(** Induction by groups of three bytes. *)
Lemma three_ind (P : list Z -> Prop) :
  P [] -> (forall a, P [a]) -> (forall a b, P [a; b]) ->
  (forall a b c l, P l -> P (a :: b :: c :: l)) -> forall l, P l.
Proof.
  intros H0 H1 H2 H3. fix IH 1. intros [|a [|b [|c l]]]; [done..|]. apply H3, IH.
Qed.

Lemma b64_dec_enc inp : all_bytes inp -> b64_dec_ref (b64_ref inp) = inp.
Proof.
  unfold b64_dec_ref. induction inp as [|a|a b|a b c inp IH] using three_ind; intros Hin; [done|..];
    inv_Forall.
  - change (b64_ref [a]) with (map letter [a / 4; a mod 4 * 16] ++ replicate 2 b64_pad).
    rewrite omap_letters, omap_pads by sextets_solve. simpl. unfold is_byte in *. f_equal. lia_div.
  - change (b64_ref [a; b]) with
      (map letter [a / 4; a mod 4 * 16 + b / 16; b mod 16 * 4] ++ replicate 1 b64_pad).
    rewrite omap_letters, omap_pads by sextets_solve. simpl.
    unfold is_byte in *. f_equal; [lia_div|]. f_equal. lia_div.
  - change (b64_ref (a :: b :: c :: inp)) with
      (map letter [a / 4; a mod 4 * 16 + b / 16; b mod 16 * 4 + c / 64; c mod 64] ++ b64_ref inp).
    rewrite omap_letters by sextets_solve. simpl. rewrite IH by done.
    unfold is_byte in *. f_equal; [lia_div|]. f_equal; [lia_div|]. f_equal. lia_div.
Qed.

(** What holds of the letters and the pad holds of the encoding. *)
Lemma b64_ref_Forall (P : Z -> Prop) inp : (forall v, is_sextet v -> P (letter v)) -> P b64_pad ->
  all_bytes inp -> Forall P (b64_ref inp).
Proof.
  intros HP Hpad. assert (Hl : forall vs cs, Forall is_sextet vs -> Forall P cs -> Forall P (map letter vs ++ cs)).
  { intros vs cs Hvs Hcs. apply Forall_app; split; [|done]. apply Forall_map. eapply Forall_impl; [exact Hvs|]. exact HP. }
  induction inp as [|a|a b|a b c inp IH] using three_ind; intros Hin; [constructor|..];
    inv_Forall.
  - apply (Hl [a / 4; a mod 4 * 16] (replicate 2 b64_pad)); [sextets_solve|by repeat constructor].
  - apply (Hl [a / 4; a mod 4 * 16 + b / 16; b mod 16 * 4] (replicate 1 b64_pad)); [sextets_solve|by repeat constructor].
  - apply (Hl [a / 4; a mod 4 * 16 + b / 16; b mod 16 * 4 + c / 64; c mod 64] (b64_ref inp));
      [sextets_solve|by apply IH].
Qed.

Lemma b64_ref_ascii inp : all_bytes inp -> Forall is_ascii (b64_ref inp).
Proof. apply b64_ref_Forall; [intros v Hv; by apply b64_val_letter|by split]. Qed.

#[export] Instance b64_codec : Codec (list Z) (list Z) := {
  codec_enc := b64_ref;
  codec_dec s := Some (b64_dec_ref s);
  codec_dom := all_bytes;
  codec_roundtrip x Hx := f_equal Some (b64_dec_enc x Hx);
}.

Lemma b64_ref_length inp : length (b64_ref inp) = (4 * ((length inp + 2) / 3))%nat.
Proof.
  induction inp as [|a|a b|a b c inp IH] using three_ind; [done..|].
  cbn [b64_ref length]. rewrite IH.
  replace (S (S (S (length inp))) + 2)%nat with (length inp + 2 + 1 * 3)%nat by lia.
  rewrite Nat.div_add by lia. lia.
Qed.



(** What the preconditions exclude does fault: a one-byte encode buffer is
    written at index 1, a one-byte decode buffer is written at index 1, and a
    character above 127 indexes the 256-entry table below 0. *)
Lemma b64_small_buffer_faults :
  (forall x inp o, is_byte x -> ks_b64_encode (x :: inp) [o] 1 = Err OutOfBounds) /\
  (forall o, ks_b64_decode (bytes_of_string "QUJD"%string ++ [0]) [o] 1 = Err OutOfBounds) /\
  (forall c rest out olen, 128 <= c < 256 -> ks_b64_decode (c :: rest) out olen = Err OutOfBounds).
Proof.
  split; [|split].
  - intros x inp o Hx.
    unfold ks_b64_encode. cbn [enc_loop e_b e_l e_out e_bytes e_y].
    generalize (Z.to_nat (0 + 8)) as fuel. intros fuel. cbn [enc_flush e_l e_b e_out e_bytes].
    change (0 + 8 <? 6) with false. cbv iota. rewrite ld_letter by (apply Z.mod_pos_bound; lia).
    cbn [mbind res_bind]. change (s32 1 - 1 <=? 0 + 1) with true. reflexivity.
  - reflexivity.
  - intros c rest out olen Hc. unfold ks_b64_decode. cbn [dec_loop].
    destruct (Z.eqb_spec c 0); [lia|]. rewrite ld_out; [done|].
    left. unfold s8. lia_div.
Qed.

End Base64.
