(* ===== verification/Buffer.v ===== *)
(** Dynamic buffers (src/src/ks_buffer.c): the record and every operation, the
    representation invariant, the refinement of an abstract byte queue, packet
    framing, and what a [max_len] really does. *)
From S2P Require Import Prelude.
Local Open Scope Z_scope.

Module Buffer.

(** [data] is [None] for the NULL pointer, else the allocated object; [head] is
    the offset [buffer->head - buffer->data]. *)
Record ks_buffer := MkBuffer {
  data : option (list Z);
  head : Z;
  used : Z;
  actually_used : Z;
  datalen : Z;
  max_len : Z;
  blocksize : Z;
  id : Z;
  loops : Z
}.

Definition set_data m b := MkBuffer (Some m) b.(head) b.(used) b.(actually_used) b.(datalen) b.(max_len) b.(blocksize) b.(id) b.(loops).
Definition set_head h b := MkBuffer b.(data) h b.(used) b.(actually_used) b.(datalen) b.(max_len) b.(blocksize) b.(id) b.(loops).
Definition set_used u b := MkBuffer b.(data) b.(head) u b.(actually_used) b.(datalen) b.(max_len) b.(blocksize) b.(id) b.(loops).
Definition set_actually_used a b := MkBuffer b.(data) b.(head) b.(used) a b.(datalen) b.(max_len) b.(blocksize) b.(id) b.(loops).
Definition set_datalen n b := MkBuffer b.(data) b.(head) b.(used) b.(actually_used) n b.(max_len) b.(blocksize) b.(id) b.(loops).
Definition set_loops l b := MkBuffer b.(data) b.(head) b.(used) b.(actually_used) b.(datalen) b.(max_len) b.(blocksize) b.(id) l.

(** The object behind [data]. *)
Definition obj (b : ks_buffer) : res (list Z) :=
  match b.(data) with Some m => Ok m | None => Err NullDeref end.

(** ** Operations *)

Section Ops.
(** The byte [realloc] leaves in the part it adds. *)
Variable junk : Z.

(** [malloc_hdr], [malloc_data]: whether the two allocations succeed;
    [buffer_id] is the static counter. [None] is KS_STATUS_FAIL. *)
Definition ks_buffer_create (malloc_hdr malloc_data : bool) (buffer_id : Z)
    (blocksize start_len max_len : Z) : option ks_buffer * Z :=
  if malloc_hdr then
    if negb (start_len =? 0) && negb malloc_data then (None, buffer_id)
    else
      let d := if start_len =? 0 then None else Some (replicate (Z.to_nat start_len) 0) in
      (Some (MkBuffer d 0 0 0 start_len max_len blocksize buffer_id 0), u32 (buffer_id + 1))
  else (None, buffer_id).

Definition ks_buffer_len (b : ks_buffer) : Z := b.(datalen).

Definition ks_buffer_freespace (b : ks_buffer) : Z :=
  if negb (b.(max_len) =? 0) then u64 (b.(max_len) - b.(used)) else 1000000.

Definition ks_buffer_inuse (b : ks_buffer) : Z := b.(used).

Definition ks_buffer_seek (b : ks_buffer) (n : Z) : Z * ks_buffer :=
  if b.(used) <? 1 then (0, set_used 0 b)
  else
    let reading := if n <=? b.(used) then n else b.(used) in
    (reading, set_head reading (set_used (u64 (b.(actually_used) - reading)) b)).

Definition ks_buffer_toss (b : ks_buffer) (n : Z) : Z * ks_buffer :=
  if b.(used) <? 1 then (0, set_used 0 b)
  else
    let reading := if n <=? b.(used) then n else b.(used) in
    let b := set_head (b.(head) + reading) (set_used (u64 (b.(used) - reading)) b) in
    (b.(used), b).

Definition ks_buffer_set_loops (b : ks_buffer) (loops : Z) : ks_buffer := set_loops loops b.

(** Returns the bytes stored at [data], the result, and the buffer. *)
Definition ks_buffer_read (b : ks_buffer) (n : Z) : res (list Z * Z * ks_buffer) :=
  m ← (match b.(data) with Some m => Ok m | None => Err AssertFail end);
  if b.(used) <? 1 then Ok ([], 0, set_used 0 b)
  else
    let reading := if n <=? b.(used) then n else b.(used) in
    bytes ← slice m b.(head) reading;
    Ok (bytes, reading,
        set_head (b.(head) + reading) (set_used (u64 (b.(used) - reading)) b)).

(** The bytes stored at [data + 0 ..] are those of both reads; the result is the
    length of the last one, as in the code. *)
Definition ks_buffer_read_loop (b : ks_buffer) (n : Z) : res (list Z * Z * ks_buffer) :=
  r ← ks_buffer_read b n;
  let '(bytes, len, b) := r in
  if len <? n then
    if b.(loops) =? 0 then Ok (bytes, len, b)
    else
      let b := set_used b.(actually_used) (set_head 0 b) in
      r ← ks_buffer_read b (u64 (n - len));
      let '(bytes2, len, b) := r in
      Ok (bytes ++ bytes2, len, set_loops (s32 (b.(loops) - 1)) b)
  else Ok (bytes, len, b).

(** The scan shared by [ks_buffer_packet_count] and [ks_buffer_read_packet]:
    at a newline, [pe] after it and after one carriage return; [Some pe] when a
    second newline stands there, not beyond [e]. *)
Definition packet_end (m : list Z) (p e : Z) : res (option Z) :=
  let pe := p + 1 in
  c ← ld m pe;
  let pe := if c =? 13 then pe + 1 else pe in
  if pe <=? e then
    c ← ld m pe;
    Ok (if c =? 10 then Some pe else None)
  else Ok None.

(** [for (p = head; p && p < e && *p; p++)] *)
Fixpoint count_loop (fuel : nat) (m : list Z) (p e x : Z) : res Z :=
  match fuel with
  | O => Err NoFuel
  | S fuel =>
    if p <? e then
      c ← ld m p;
      if c =? 0 then Ok x
      else if c =? 10 then
        o ← packet_end m p e;
        match o with
        | Some pe => count_loop fuel m (pe + 1) e (x + 1)
        | None => count_loop fuel m (p + 1) e x
        end
      else count_loop fuel m (p + 1) e x
    else Ok x
  end.

Definition ks_buffer_packet_count (b : ks_buffer) : res Z :=
  match b.(data) with
  | None => Ok 0
  | Some m => count_loop (S (Z.to_nat b.(used))) m b.(head) (b.(head) + b.(used)) 0
  end.

Fixpoint packet_loop (fuel : nat) (m : list Z) (head p e maxlen : Z) : res Z :=
  match fuel with
  | O => Err NoFuel
  | S fuel =>
    if p <? e then
      c ← ld m p;
      if c =? 0 then Ok 0
      else if c =? 10 then
        o ← packet_end m p e;
        match o with
        | Some pe => let n := pe + 1 - head in Ok (if maxlen <? n then maxlen else n)
        | None => packet_loop fuel m head (p + 1) e maxlen
        end
      else packet_loop fuel m head (p + 1) e maxlen
    else Ok 0
  end.

Definition ks_buffer_read_packet (b : ks_buffer) (maxlen : Z) : res (list Z * Z * ks_buffer) :=
  n ← (match b.(data) with
       | None => Ok 0
       | Some m => packet_loop (S (Z.to_nat b.(used))) m b.(head) b.(head)
                     (b.(head) + b.(used)) maxlen
       end);
  ks_buffer_read b n.

(** [realloc(data, n)]: the old bytes, then [junk]. *)
Definition realloc (m : list Z) (n : Z) : list Z :=
  take (Z.to_nat n) m ++ replicate (Z.to_nat n - length m) junk.

(** The compaction at the start of [ks_buffer_write]. *)
Definition write_compact (b : ks_buffer) (n : Z) : res ks_buffer :=
  let actual_freespace := u64 (b.(datalen) - b.(actually_used)) in
  if (actual_freespace <? n) &&
     ((b.(max_len) =? 0) || (u64 (b.(used) + n) <=? b.(max_len))) then
    m ← obj b;
    live ← slice m b.(head) b.(used);
    m ← blit m 0 live;
    Ok (set_actually_used b.(used) (set_head 0 (set_data m b)))
  else Ok b.

(** The growth; [None] is the failed [realloc]. *)
Definition write_grow (realloc_ok : bool) (b : ks_buffer) (n : Z) : res (ks_buffer * bool) :=
  let freespace := u64 (b.(datalen) - b.(used)) in
  if freespace <? n then
    let new_size := u64 (b.(datalen) + n) in
    let new_block_size := u64 (b.(datalen) + b.(blocksize)) in
    let new_size := if new_size <? new_block_size then new_block_size else new_size in
    let b := set_head 0 b in
    if realloc_ok then
      m ← obj b;
      Ok (set_datalen new_size (set_head 0 (set_data (realloc m new_size) b)), true)
    else Ok (b, false)
  else Ok (b, true).

Definition ks_buffer_write (realloc_ok : bool) (b : ks_buffer) (src : list Z) : res (Z * ks_buffer) :=
  let n := zlen src in
  m ← (match b.(data) with Some m => Ok m | None => Err AssertFail end);
  if n =? 0 then Ok (b.(used), b) else
  b ← write_compact b n;
  r ← write_grow realloc_ok b n;
  let '(b, grown) := r in
  if negb grown then Ok (0, b) else
  let freespace := u64 (b.(datalen) - b.(used)) in
  if freespace <? n then Ok (0, b) else
  m ← obj b;
  m ← blit m (b.(head) + b.(used)) src;
  let b := set_actually_used (u64 (b.(actually_used) + n)) (set_used (u64 (b.(used) + n)) (set_data m b)) in
  Ok (b.(used), b).

Definition ks_buffer_zero (b : ks_buffer) : res ks_buffer :=
  match b.(data) with
  | Some _ => Ok (set_head 0 (set_actually_used 0 (set_used 0 b)))
  | None => Err AssertFail
  end.

(** The two writes may meet different allocator answers. *)
Definition ks_buffer_zwrite (ok1 ok2 : bool) (b : ks_buffer) (src : list Z) : res (Z * ks_buffer) :=
  r ← ks_buffer_write ok1 b src;
  let '(w, b) := r in
  if w =? 0 then
    b ← ks_buffer_zero b;
    ks_buffer_write ok2 b src
  else Ok (w, b).

(** [*buffer] becomes NULL; the record and its object are freed. *)
Definition ks_buffer_destroy (b : option ks_buffer) : option ks_buffer := None.
End Ops.

(** ** The representation of an abstract byte queue *)

(** [repr b q]: the object of [b] is [pre ++ q ++ post] with [head] at [q], and
    the counters say so. *)
Definition repr (b : ks_buffer) (q : list Z) : Prop :=
  exists pre post,
    b.(data) = Some (pre ++ q ++ post) /\ b.(head) = zlen pre /\ b.(used) = zlen q /\
    b.(actually_used) = zlen pre + zlen q /\
    b.(datalen) = zlen (pre ++ q ++ post) /\ b.(datalen) <= SIZE_MAX.

(** The fields no read or write changes. *)
Definition same_config (b b' : ks_buffer) : Prop :=
  b'.(max_len) = b.(max_len) /\ b'.(blocksize) = b.(blocksize) /\
  b'.(id) = b.(id) /\ b'.(loops) = b.(loops).

#[local] Instance same_config_preorder : PreOrder same_config.
Proof.
  split.
  - intros b. by repeat split.
  - intros b1 b2 b3 (?&?&?&?) (?&?&?&?). repeat split; congruence.
Qed.

(** The sizes a write of [n] bytes may reach without wrapping. *)
Definition fits (b : ks_buffer) (n : Z) : Prop :=
  0 <= n /\ 0 <= b.(blocksize) /\ b.(datalen) + n <= SIZE_MAX /\ b.(datalen) + b.(blocksize) <= SIZE_MAX.

(** A write of [n] bytes respects the limit: none set, or not passed. *)
Definition in_limit (b : ks_buffer) (n : Z) : Prop :=
  b.(max_len) = 0 \/ b.(used) + n <= b.(max_len).

Ltac buf_simpl := cbn [data head used actually_used datalen max_len blocksize id loops
  set_data set_head set_used set_actually_used set_datalen set_loops] in *.

Ltac zpos := repeat match goal with
  | |- context [zlen ?l] => lazymatch goal with H : 0 <= zlen l |- _ => fail | _ => pose proof (zlen_nonneg l) end
  | H : context [zlen ?l] |- _ => lazymatch goal with H : 0 <= zlen l |- _ => fail | _ => pose proof (zlen_nonneg l) end
  end.

Ltac repr_solve :=
  buf_simpl; unfold SIZE_MAX in *; autorewrite with zlen in *; repeat split;
  try first [done | lia | congruence].

Lemma repr_used b q : repr b q -> b.(used) = zlen q.
Proof. by intros (pre & post & _ & _ & ? & _). Qed.

Lemma repr_fun b q1 q2 : repr b q1 -> repr b q2 -> q1 = q2.
Proof.
  intros (p1 & r1 & D1 & H1 & U1 & _) (p2 & r2 & D2 & H2 & U2 & _).
  assert (E : p1 ++ q1 ++ r1 = p2 ++ q2 ++ r2) by congruence.
  assert (length p1 = length p2) by (unfold zlen in *; lia).
  assert (length q1 = length q2) by (unfold zlen in *; lia).
  apply app_inj_1 in E as [_ E]; [|done]. by apply app_inj_1 in E as [-> _].
Qed.

Section Repr.
Variable junk : Z.

Lemma create_repr start blk lim bid b bid' :
  0 < start <= SIZE_MAX ->
  ks_buffer_create true true bid blk start lim = (Some b, bid') ->
  repr b [] /\ b.(max_len) = lim /\ b.(blocksize) = blk /\ b.(datalen) = start.
Proof.
  intros Hs E. unfold ks_buffer_create in E.
  destruct (Z.eqb_spec start 0); [lia|]. simpl in E. injection E as <- <-.
  repeat split; [|done..]. exists [], (replicate (Z.to_nat start) 0). buf_simpl.
  repeat split; unfold zlen; simpl; rewrite ?length_replicate; lia.
Qed.

(** After the compaction the live bytes are kept, and the write fits behind them
    or they start the object. *)
Lemma write_compact_repr b q n :
  repr b q -> fits b n -> in_limit b n ->
  exists b', write_compact b n = Ok b' /\ repr b' q /\ same_config b b' /\
    b'.(datalen) = b.(datalen) /\
    (b'.(actually_used) + n <= b'.(datalen) \/ b'.(head) = 0).
Proof.
  intros (pre & post & Hd & Hh & Hu & Ha & Hl & Hmax) (Hn & Hblk & Hs1 & Hs2) Hlim.
  assert (Hz := Hl). autorewrite with zlen in Hz. zpos. unfold SIZE_MAX in *.
  unfold write_compact. rewrite Ha, u64_id by lia.
  destruct (Z.ltb_spec (datalen b - (zlen pre + zlen q)) n) as [Hc|Hc]; cbn [andb].
  - assert (((max_len b =? 0) || (u64 (used b + n) <=? max_len b)) = true) as ->.
    { unfold in_limit in Hlim. rewrite u64_id by lia.
      destruct (Z.eqb_spec (max_len b) 0); [done|]. destruct (Z.leb_spec (used b + n) (max_len b)); [done|lia]. }
    unfold obj. rewrite Hd. cbn [mbind res_bind].
    rewrite (slice_app pre q post) by congruence. cbn [mbind res_bind].
    (* memmove: the live bytes land on the start of the object *)
    destruct (split_at (pre ++ q ++ post) (zlen q)) as (m1 & m2 & E & Hm1);
      [autorewrite with zlen; lia|].
    rewrite E. rewrite (blit_app [] m1 m2 q) by done. simpl app.
    eexists. split; [done|]. split; [|split; [by repeat split|split; [done|]]].
    + rewrite E in Hl. exists [], m2. repr_solve.
    + right. done.
  - eexists. split; [done|]. split; [|split; [done|split; [done|]]].
    + exists pre, post. done.
    + left. lia.
Qed.

(** The growth, when the write fits or the live bytes start the object. *)
Lemma write_grow_repr ok b q n :
  repr b q -> fits b n ->
  (b.(actually_used) + n <= b.(datalen) \/ b.(head) = 0) ->
  exists b' grown, write_grow junk ok b n = Ok (b', grown) /\ repr b' q /\ same_config b b' /\
    b.(datalen) <= b'.(datalen) <= b.(datalen) + Z.max n b.(blocksize) /\
    (grown = true -> b'.(actually_used) + n <= b'.(datalen)) /\
    (grown = false -> ok = false /\ b'.(datalen) = b.(datalen)).
Proof.
  intros (pre & post & Hd & Hh & Hu & Ha & Hl & Hmax) (Hn & Hblk & Hs1 & Hs2) Hor.
  assert (Hz := Hl). autorewrite with zlen in Hz. zpos. unfold SIZE_MAX in *.
  unfold write_grow. rewrite (u64_id (datalen b - used b)) by lia.
  destruct (Z.ltb_spec (datalen b - used b) n) as [Hc|Hc].
  - assert (pre = []) as ->. { apply zlen_zero. lia. }
    change (zlen []) with 0 in *. rewrite !u64_id by lia.
    assert (Hsz : (if datalen b + n <? datalen b + blocksize b
                   then datalen b + blocksize b else datalen b + n)
                  = datalen b + Z.max n (blocksize b))
      by (destruct (Z.ltb_spec (datalen b + n) (datalen b + blocksize b)); lia).
    rewrite Hsz. clear Hsz. destruct ok.
    + unfold obj. buf_simpl. rewrite Hd. cbn [mbind res_bind app].
      eexists _, true. split; [done|]. split; [|split; [by repeat split|buf_simpl; split; [lia|split; [lia|done]]]].
      exists [], (post ++ replicate (Z.to_nat (datalen b + Z.max n (blocksize b)) - length (q ++ post)) junk).
      buf_simpl. unfold realloc. rewrite take_ge by (unfold zlen in *; rewrite length_app in *; lia).
      assert (Z.of_nat (length (q ++ post)) = zlen q + zlen post)
        by (unfold zlen; rewrite length_app; lia).
      rewrite <- app_assoc. repr_solve.
    + eexists _, false. split; [done|]. split; [|split; [by repeat split|buf_simpl; split; [lia|split; [done|done]]]].
      exists [], post. buf_simpl. done.
  - eexists b, true. split; [done|]. split; [|split; [done|split; [lia|split; [|done]]]].
    + exists pre, post. done.
    + intros _. lia.
Qed.

(** A write within the limit, whatever the allocator answers. *)
Lemma write_repr ok b q src :
  repr b q -> fits b (zlen src) -> in_limit b (zlen src) ->
  exists b', same_config b b' /\ b'.(datalen) <= b.(datalen) + Z.max (zlen src) b.(blocksize) /\
  ((ks_buffer_write junk ok b src = Ok (zlen q + zlen src, b') /\ repr b' (q ++ src)) \/
   (ok = false /\ ks_buffer_write junk ok b src = Ok (0, b') /\ repr b' q)).
Proof.
  intros Hr Hf Hlim. pose proof Hf as (Hn & Hblk & Hs1 & Hs2). unfold ks_buffer_write.
  destruct Hr as (pre0 & post0 & Hd0 & Hrest). rewrite Hd0. cbn [mbind res_bind].
  assert (Hr : repr b q) by (exists pre0, post0; done). clear Hrest.
  destruct (Z.eqb_spec (zlen src) 0) as [E|E].
  { apply zlen_zero in E. subst src. exists b. split; [done|]. split; [simpl; lia|]. left.
    rewrite (repr_used b q Hr), app_nil_r, zlen_nil, Z.add_0_r. done. }
  destruct (write_compact_repr b q (zlen src) Hr Hf Hlim) as (b1 & -> & Hr1 & Hc1 & Hd1 & Hor).
  assert (Hf1 : fits b1 (zlen src)).
  { destruct Hc1 as (_ & Hb & _). unfold fits. rewrite Hb, Hd1. done. }
  cbn [mbind res_bind].
  destruct (write_grow_repr ok b1 q (zlen src) Hr1 Hf1 Hor) as (b2 & g & -> & Hr2 & Hc2 & Hd2 & Hg1 & Hg0).
  cbn [mbind res_bind]. assert (Hc : same_config b b2) by (by transitivity b1).
  assert (Hblk1 : blocksize b1 = blocksize b) by apply Hc1.
  destruct g; cbn [negb].
  - specialize (Hg1 eq_refl). destruct Hr2 as (pre & post & Hd & Hh & Hu & Ha & Hl & Hm).
    assert (Hz := Hl). autorewrite with zlen in Hz. zpos. unfold SIZE_MAX in *.
    rewrite (u64_id (datalen b2 - used b2)) by lia.
    destruct (Z.ltb_spec (datalen b2 - used b2) (zlen src)); [lia|].
    unfold obj. rewrite Hd. cbn [mbind res_bind].
    destruct (split_at post (zlen src)) as (m1 & m2 & -> & Hm1); [lia|].
    rewrite app_assoc. rewrite (blit_app (pre ++ q) m1 m2 src) by (autorewrite with zlen; lia).
    cbn [mbind res_bind]. rewrite !u64_id by lia.
    exists (set_actually_used (actually_used b2 + zlen src)
              (set_used (used b2 + zlen src) (set_data ((pre ++ q) ++ src ++ m2) b2))).
    split; [|split; [|left; split]].
    + etransitivity; [exact Hc|]. by repeat split.
    + buf_simpl. lia.
    + by rewrite Hu.
    + exists pre, m2. rewrite <- !app_assoc in *. repr_solve.
  - destruct (Hg0 eq_refl) as [-> Hd3]. exists b2. split; [done|]. split; [lia|]. right. done.
Qed.

(** [ks_buffer_read] takes the first [n] bytes of the queue, or all. *)
Lemma read_repr b q n :
  repr b q -> 0 <= n ->
  exists b', ks_buffer_read b n = Ok (take (Z.to_nat n) q, Z.min n (zlen q), b') /\
    repr b' (drop (Z.to_nat n) q) /\ same_config b b' /\ b'.(datalen) = b.(datalen).
Proof.
  intros (pre & post & Hd & Hh & Hu & Ha & Hl & Hm) Hn.
  assert (Hz := Hl). autorewrite with zlen in Hz. zpos. unfold SIZE_MAX in *.
  unfold ks_buffer_read. rewrite Hd. cbn [mbind res_bind].
  destruct (Z.ltb_spec (used b) 1) as [Hc|Hc].
  - assert (q = []) as -> by (apply zlen_zero; lia). rewrite take_nil, drop_nil.
    change (zlen (@nil Z)) with 0 in *. rewrite (Z.min_r n 0) by lia.
    eexists. split; [done|].
    split; [|split; [by repeat split|done]]. exists pre, post. buf_simpl. repeat split; try done.
  - assert (Er : (if n <=? used b then n else used b) = Z.min n (zlen q))
      by (destruct (Z.leb_spec n (used b)); lia). rewrite Er.
    destruct (split_at q (Z.min n (zlen q))) as (q1 & q2 & Eq & Hq1); [lia|]. subst q.
    autorewrite with zlen in *.
    rewrite <- app_assoc. rewrite (slice_app pre q1 (q2 ++ post)) by (lia || done). cbn [mbind res_bind].
    assert (Ht : take (Z.to_nat n) (q1 ++ q2) = q1).
    { destruct (decide (n <= zlen q1 + zlen q2)).
      - apply take_app_length'. unfold zlen in *. lia.
      - assert (q2 = []) as -> by (apply zlen_zero; lia). rewrite app_nil_r. apply take_ge. unfold zlen in *. lia. }
    assert (Hdr : drop (Z.to_nat n) (q1 ++ q2) = q2).
    { destruct (decide (n <= zlen q1 + zlen q2)).
      - apply drop_app_length'. unfold zlen in *. lia.
      - assert (q2 = []) as -> by (apply zlen_zero; lia). rewrite app_nil_r. apply drop_ge. unfold zlen in *. lia. }
    rewrite Ht, Hdr. eexists. split; [done|]. split; [|split; [by repeat split|done]].
    exists (pre ++ q1), post. rewrite u64_id by lia. rewrite <- !app_assoc in *. repr_solve.
Qed.

Lemma toss_repr b q n :
  repr b q -> 0 <= n ->
  exists b', ks_buffer_toss b n = (Z.max 0 (zlen q - n), b') /\
    repr b' (drop (Z.to_nat n) q) /\ same_config b b' /\ b'.(datalen) = b.(datalen).
Proof.
  intros Hr Hn. destruct (read_repr b q n Hr Hn) as (b' & E & Hr' & Hc & Hd).
  unfold ks_buffer_read in E. unfold ks_buffer_toss.
  destruct (data b) as [m|]; [|discriminate]. cbn [mbind res_bind] in E.
  pose proof (repr_used b q Hr) as Hu. zpos.
  destruct (Z.ltb_spec (used b) 1).
  - injection E as _ _ <-. exists (set_used 0 b). split; [f_equal; lia|done].
  - apply res_bind_inv in E as (bytes & _ & [= _ _ <-]). eexists. split; [f_equal|done].
    buf_simpl. destruct (Z.leb_spec n (used b)); rewrite u64_id; try lia;
      destruct Hr as (? & ? & ? & ? & ? & ? & ? & ?); unfold SIZE_MAX in *; autorewrite with zlen in *; zpos; lia.
Qed.

Lemma zero_repr b q :
  repr b q ->
  exists b', ks_buffer_zero b = Ok b' /\ repr b' [] /\ same_config b b' /\ b'.(datalen) = b.(datalen).
Proof.
  intros (pre & post & Hd & Hh & Hu & Ha & Hl & Hm). unfold ks_buffer_zero. rewrite Hd.
  eexists. split; [done|]. split; [|by repeat split].
  exists [], (pre ++ q ++ post). repr_solve.
Qed.
End Repr.

(** ** The byte queue the operations promise *)

Inductive op : Set :=
  | OWrite (src : list Z) (realloc_ok : bool)
  | ORead (n : Z)
  | OToss (n : Z)
  | OZero
  | OInuse.

(** What a caller sees of an operation: the bytes stored and the result. *)
Definition run_op (junk : Z) (o : op) (b : ks_buffer) : res (list Z * Z * ks_buffer) :=
  match o with
  | OWrite src realloc_ok => r ← ks_buffer_write junk realloc_ok b src; Ok ([], r.1, r.2)
  | ORead n => ks_buffer_read b n
  | OToss n => let '(r, b) := ks_buffer_toss b n in Ok ([], r, b)
  | OZero => b ← ks_buffer_zero b; Ok ([], 0, b)
  | OInuse => Ok ([], ks_buffer_inuse b, b)
  end.

Fixpoint run_ops (junk : Z) (os : list op) (b : ks_buffer) : res (list (list Z * Z) * ks_buffer) :=
  match os with
  | [] => Ok ([], b)
  | o :: os =>
    r ← run_op junk o b;
    rs ← run_ops junk os r.2;
    Ok (r.1 :: rs.1, rs.2)
  end.

(** The same operations on an unbounded queue of bytes; a write that is not
    [kept] does nothing and returns 0. *)
Definition queue_op (kept : bool) (o : op) (q : list Z) : list Z * Z * list Z :=
  match o with
  | OWrite src _ => if kept then ([], zlen q + zlen src, q ++ src) else ([], 0, q)
  | ORead n => (take (Z.to_nat n) q, Z.min n (zlen q), drop (Z.to_nat n) q)
  | OToss n => ([], Z.max 0 (zlen q - n), drop (Z.to_nat n) q)
  | OZero => ([], 0, [])
  | OInuse => ([], zlen q, q)
  end.

Fixpoint queue_ops (kept : list bool) (os : list op) (q : list Z) : list (list Z * Z) * list Z :=
  match kept, os with
  | k :: kept, o :: os => let r := queue_op k o q in
                          let rs := queue_ops kept os r.2 in (r.1 :: rs.1, rs.2)
  | _, _ => ([], q)
  end.

(** Only a write whose [realloc] fails may not be kept. *)
Definition may_keep (o : op) (kept : bool) : Prop :=
  match o with OWrite _ false => True | _ => kept = true end.

Definition op_ok (o : op) : Prop :=
  match o with ORead n | OToss n => 0 <= n | _ => True end.

(** The growth a sequence of operations may ask for. *)
Definition op_growth (blk : Z) (o : op) : Z :=
  match o with OWrite src _ => zlen src + blk | _ => 0 end.

Definition growth (blk : Z) (os : list op) : Z :=
  fold_right (fun o g => op_growth blk o + g) 0 os.

Lemma growth_nonneg blk os : 0 <= blk -> 0 <= growth blk os.
Proof.
  intros. induction os as [|o os IH]; simpl; [lia|].
  destruct o as [src ok| | | |]; simpl; try lia. pose proof (zlen_nonneg src). lia.
Qed.

(** One operation: the simulation square. *)
Lemma run_op_sim junk o b q :
  repr b q -> b.(max_len) = 0 -> 0 <= b.(blocksize) -> op_ok o ->
  b.(datalen) + op_growth b.(blocksize) o <= SIZE_MAX ->
  exists k b', may_keep o k /\ run_op junk o b = Ok ((queue_op k o q).1, b') /\ repr b' (queue_op k o q).2 /\
    same_config b b' /\ b'.(datalen) <= b.(datalen) + op_growth b.(blocksize) o.
Proof.
  intros Hr Hm Hb Ho Hg. destruct o as [src ok|n|n| |]; simpl in *; [|exists true..].
  - pose proof (zlen_nonneg src).
    destruct (write_repr junk ok b q src) as (b' & Hc & Hd & Hw); [done|repeat split; lia|by left|].
    destruct Hw as [[-> Hr']|(-> & -> & Hr')]; [exists true, b'|exists false, b']; repeat split; try done; try apply Hc; try lia.
    by destruct ok.
  - destruct (read_repr b q n Hr Ho) as (b' & -> & Hr' & Hc & Hd). exists b'.
    do 3 (split; [done|]). split; [done|lia].
  - destruct (toss_repr b q n Hr Ho) as (b' & -> & Hr' & Hc & Hd). exists b'.
    do 3 (split; [done|]). split; [done|lia].
  - destruct (zero_repr b q Hr) as (b' & -> & Hr' & Hc & Hd). exists b'.
    do 3 (split; [done|]). split; [done|lia].
  - unfold ks_buffer_inuse. rewrite (repr_used b q Hr). exists b. repeat split; try done. lia.
Qed.

(** C2: a buffer without a limit is a queue of bytes: any sequence of writes,
    reads, tosses, zeroings and size queries, on a buffer that holds [q], stays
    inside the allocated object and gives the bytes and the results the
    operations give on the queue [q], as long as the total growth does not wrap
    [ks_size_t]. Each write is kept, or, when its [realloc] fails, may return 0 and
    leave the queue as it is. *)
Theorem ks_buffer_refines_queue junk os b q :
  repr b q -> b.(max_len) = 0 -> 0 <= b.(blocksize) -> Forall op_ok os ->
  b.(datalen) + growth b.(blocksize) os <= SIZE_MAX ->
  exists kept b', Forall2 may_keep os kept /\
    run_ops junk os b = Ok ((queue_ops kept os q).1, b') /\ repr b' (queue_ops kept os q).2.
Proof.
  revert b q. induction os as [|o os IH]; intros b q Hr Hm Hb Ho Hg; [by exists [], b|].
  apply Forall_cons in Ho as [Ho Hos]. simpl in Hg. pose proof (growth_nonneg (blocksize b) os Hb).
  destruct (run_op_sim junk o b q Hr Hm Hb Ho) as (k & b1 & Hk & E & Hr1 & (Hm1 & Hb1 & _) & Hd1); [lia|].
  destruct (IH b1 (queue_op k o q).2) as (ks & b2 & Hks & E2 & Hr2); [done|congruence|congruence|done|rewrite Hb1; lia|].
  exists (k :: ks), b2. split; [by constructor|]. simpl. rewrite E. cbn [mbind res_bind]. cbn [snd fst]. rewrite E2. done.
Qed.

Lemma ks_buffer_refines_queue_witness :
  exists kept b', Forall2 may_keep
    [OWrite [1; 2; 3] true; ORead 2; OWrite [4; 5; 6; 7] false; OInuse; OToss 1; ORead 9] kept /\
  run_ops 170 [OWrite [1; 2; 3] true; ORead 2; OWrite [4; 5; 6; 7] false; OInuse; OToss 1; ORead 9]
    (MkBuffer (Some [0; 0; 0; 0]) 0 0 0 4 0 2 7 0) =
  Ok ((queue_ops kept [OWrite [1; 2; 3] true; ORead 2; OWrite [4; 5; 6; 7] false; OInuse; OToss 1; ORead 9] []).1, b') /\
  repr b' (queue_ops kept [OWrite [1; 2; 3] true; ORead 2; OWrite [4; 5; 6; 7] false; OInuse; OToss 1; ORead 9] []).2.
Proof.
  apply (ks_buffer_refines_queue 170
    [OWrite [1; 2; 3] true; ORead 2; OWrite [4; 5; 6; 7] false; OInuse; OToss 1; ORead 9]
    (MkBuffer (Some [0; 0; 0; 0]) 0 0 0 4 0 2 7 0) []).
  - exists [], [0; 0; 0; 0]. repeat split; vm_compute; discriminate.
  - reflexivity.
  - vm_compute; discriminate.
  - repeat constructor; vm_compute; discriminate.
  - vm_compute; discriminate.
Defined.

(** A write within the limit either appends exactly the bytes given and
    returns the new fill level, or (only when [realloc] fails) returns 0 and
    leaves the bytes held as they were. *)
Lemma ks_buffer_write_appends junk ok b q src :
  repr b q -> fits b (zlen src) -> in_limit b (zlen src) ->
  exists b', same_config b b' /\ b'.(datalen) <= b.(datalen) + Z.max (zlen src) b.(blocksize) /\
  ((ks_buffer_write junk ok b src = Ok (zlen q + zlen src, b') /\ repr b' (q ++ src)) \/
   (ok = false /\ ks_buffer_write junk ok b src = Ok (0, b') /\ repr b' q)).
Proof. apply write_repr. Qed.

Lemma ks_buffer_write_appends_witness :
  let b := MkBuffer (Some [9; 8; 0; 0]) 1 1 2 4 8 2 7 0 in
  exists b', same_config b b' /\ b'.(datalen) <= 4 + Z.max 3 2 /\
  ((ks_buffer_write 0 true b [1; 2; 3] = Ok (4, b') /\ repr b' [8; 1; 2; 3]) \/
   (true = false /\ ks_buffer_write 0 true b [1; 2; 3] = Ok (0, b') /\ repr b' [8])).
Proof.
  apply (ks_buffer_write_appends 0 true (MkBuffer (Some [9; 8; 0; 0]) 1 1 2 4 8 2 7 0) [8] [1; 2; 3]).
  - exists [9], [0; 0]. repeat split; vm_compute; discriminate.
  - repeat split; vm_compute; discriminate.
  - right; vm_compute; discriminate.
Defined.

(** ** Packet framing *)

(** The length of the first packet: up to and with the first "\n\n" or
    "\n\r\n", looked for up to a NUL. *)
Fixpoint packet_ref (q : list Z) : option Z :=
  match q with
  | [] => None
  | c :: q' =>
    if c =? 0 then None
    else if c =? 10 then
      match q' with
      | 10 :: _ => Some 2
      | 13 :: 10 :: _ => Some 3
      | _ => Z.succ <$> packet_ref q'
      end
    else Z.succ <$> packet_ref q'
  end.

Fixpoint count_ref (q : list Z) : Z :=
  match q with
  | [] => 0
  | c :: q' =>
    if c =? 0 then 0
    else if c =? 10 then
      match q' with
      | 10 :: q2 => 1 + count_ref q2
      | 13 :: 10 :: q2 => 1 + count_ref q2
      | _ => count_ref q'
      end
    else count_ref q'
  end.

(** Where the scan at a newline ends, by what follows it. *)
Definition packet_sep (q' : list Z) : option Z :=
  match q' with 10 :: _ => Some 1 | 13 :: 10 :: _ => Some 2 | _ => None end.

Lemma packet_ref_nl q' :
  packet_ref (10 :: q') =
  match packet_sep q' with Some n => Some (n + 1) | None => Z.succ <$> packet_ref q' end.
Proof.
  cbn [packet_ref]. change (10 =? 0) with false. change (10 =? 10) with true. cbv iota.
  unfold packet_sep. repeat case_match; done.
Qed.

Lemma packet_ref_pos q k : packet_ref q = Some k -> 0 <= k.
Proof.
  revert k. induction q as [|c q IH]; intros k; cbn [packet_ref]; [done|].
  assert (Hs : forall k, Z.succ <$> packet_ref q = Some k -> 0 <= k).
  { intros j. destruct (packet_ref q) as [i|]; intros [= <-]. specialize (IH i eq_refl). lia. }
  repeat case_match; intros; simplify_eq; eauto; lia.
Qed.

Lemma count_ref_nl q' :
  count_ref (10 :: q') =
  match packet_sep q' with Some n => 1 + count_ref (drop (Z.to_nat n) q') | None => count_ref q' end.
Proof.
  cbn [count_ref]. change (10 =? 0) with false. change (10 =? 10) with true. cbv iota.
  unfold packet_sep. repeat case_match; simplify_eq; done.
Qed.

Lemma ld_at (pre post : list Z) q i v :
  q !! i = Some v -> ld (pre ++ q ++ post) (zlen pre + Z.of_nat i) = Ok v.
Proof.
  intros Hi. pose proof (lookup_lt_Some _ _ _ Hi). unfold ld, zlen.
  destruct (Z.ltb_spec (Z.of_nat (length pre) + Z.of_nat i) 0); [lia|].
  replace (Z.to_nat (Z.of_nat (length pre) + Z.of_nat i)) with (length pre + i)%nat by lia.
  rewrite lookup_app_r by lia. replace (length pre + i - length pre)%nat with i by lia.
  rewrite lookup_app_l by done. by rewrite Hi.
Qed.

(** The scan at a newline, when the byte after the live ones is no newline. *)
Lemma packet_end_spec m pre c q' d post :
  m = pre ++ (c :: q') ++ d :: post -> d <> 10 ->
  packet_end m (zlen pre) (zlen pre + zlen (c :: q')) =
  Ok (match packet_sep q' with Some n => Some (zlen pre + n) | None => None end).
Proof.
  intros -> Hd. unfold packet_end.
  replace (pre ++ (c :: q') ++ d :: post) with (pre ++ (c :: q' ++ [d]) ++ post)
    by (simpl; by rewrite <- app_assoc).
  destruct q' as [|c1 q'].
  - rewrite (ld_at pre post _ 1 d) by done. cbn [mbind res_bind].
    destruct (Z.eqb_spec d 13) as [->|Hd13]; change (zlen [c]) with 1.
    + destruct (Z.leb_spec (zlen pre + 1 + 1) (zlen pre + 1)); [lia|done].
    + destruct (Z.leb_spec (zlen pre + 1) (zlen pre + 1)); [|lia].
      rewrite (ld_at pre post _ 1 d) by done. cbn [mbind res_bind].
      by destruct (Z.eqb_spec d 10).
  - rewrite (ld_at pre post _ 1 c1) by done. cbn [mbind res_bind]. rewrite !zlen_cons. zpos.
    destruct (Z.eqb_spec c1 13) as [->|H13].
    + destruct (Z.leb_spec (zlen pre + 1 + 1) (zlen pre + (zlen q' + 1 + 1))); [|lia].
      replace (zlen pre + 1 + 1) with (zlen pre + Z.of_nat 2) by lia.
      destruct q' as [|c2 q'].
      * rewrite (ld_at pre post _ 2 d) by done. cbn [mbind res_bind]. by destruct (Z.eqb_spec d 10).
      * rewrite (ld_at pre post _ 2 c2) by done. cbn [mbind res_bind packet_sep].
        destruct (Z.eqb_spec c2 10) as [->|]; [by do 2 f_equal|]. repeat case_match; simplify_eq; done.
    + destruct (Z.leb_spec (zlen pre + 1) (zlen pre + (zlen q' + 1 + 1))); [|lia].
      rewrite (ld_at pre post _ 1 c1) by done. cbn [mbind res_bind packet_sep].
      destruct (Z.eqb_spec c1 10) as [->|]; [done|]. repeat case_match; simplify_eq; done.
Qed.

Lemma packet_sep_bound q' n : packet_sep q' = Some n -> 1 <= n <= zlen q'.
Proof.
  unfold packet_sep. repeat case_match; intros; simplify_eq; autorewrite with zlen; zpos; lia.
Qed.

Lemma packet_loop_spec m d post maxlen h : forall q fuel pre,
  m = pre ++ q ++ d :: post -> d <> 10 -> (length q < fuel)%nat -> h <= zlen pre ->
  packet_loop fuel m h (zlen pre) (zlen pre + zlen q) maxlen =
  Ok (match packet_ref q with
      | Some n => let n := zlen pre + n - h in if maxlen <? n then maxlen else n
      | None => 0 end).
Proof.
  induction q as [|c q IH]; intros [|fuel] pre Hm Hd Hf Hh; simpl in Hf; try lia; cbn [packet_loop].
  - change (zlen []) with 0. destruct (Z.ltb_spec (zlen pre) (zlen pre + 0)); [lia|done].
  - zpos. destruct (Z.ltb_spec (zlen pre) (zlen pre + zlen (c :: q))); [|autorewrite with zlen in *; lia].
    assert (E : ld m (zlen pre) = Ok c) by (subst m; by apply ld_app_mid).
    rewrite E. cbn [mbind res_bind].
    assert (IH' : packet_loop fuel m h (zlen pre + 1) (zlen pre + zlen (c :: q)) maxlen =
      Ok (match packet_ref q with
          | Some n => let n := zlen pre + Z.succ n - h in if maxlen <? n then maxlen else n
          | None => 0 end)).
    { specialize (IH fuel (pre ++ [c])). rewrite zlen_app in IH. change (zlen [c]) with 1 in IH.
      replace (zlen pre + zlen (c :: q)) with (zlen pre + 1 + zlen q) by (rewrite zlen_cons; lia).
      rewrite IH; [|by rewrite <- app_assoc|done|lia|lia].
      destruct (packet_ref q) as [n|]; [|done]. simpl.
      by replace (zlen pre + 1 + n) with (zlen pre + Z.succ n) by lia. }
    destruct (Z.eqb_spec c 0) as [->|Hc0]; [done|].
    destruct (Z.eqb_spec c 10) as [->|Hc10].
    + rewrite (packet_end_spec m pre 10 q d post) by done. cbn [mbind res_bind].
      rewrite packet_ref_nl. destruct (packet_sep q) as [n|].
      * simpl. by replace (zlen pre + n + 1) with (zlen pre + (n + 1)) by lia.
      * rewrite IH'. by destruct (packet_ref q).
    + rewrite IH'. cbn [packet_ref].
      destruct (Z.eqb_spec c 0); [done|]. destruct (Z.eqb_spec c 10); [done|].
      by destruct (packet_ref q).
Qed.

Lemma count_loop_spec m d post : forall k q fuel pre x,
  (length q <= k)%nat -> m = pre ++ q ++ d :: post -> d <> 10 -> (length q < fuel)%nat ->
  count_loop fuel m (zlen pre) (zlen pre + zlen q) x = Ok (x + count_ref q).
Proof.
  induction k as [|k IH]; intros q fuel pre x Hk Hm Hd Hf; destruct fuel as [|fuel]; try lia;
    (destruct q as [|c q]; [cbn [count_loop]; change (zlen []) with 0;
       destruct (Z.ltb_spec (zlen pre) (zlen pre + 0)); [lia|by rewrite Z.add_0_r]|]);
    simpl in Hk, Hf; try lia; cbn [count_loop].
  zpos. destruct (Z.ltb_spec (zlen pre) (zlen pre + zlen (c :: q))); [|pose proof (zlen_nonneg q); rewrite zlen_cons in *; lia].
  assert (E : ld m (zlen pre) = Ok c) by (subst m; by apply ld_app_mid).
  rewrite E. cbn [mbind res_bind].
  assert (IH' : forall n x, 0 <= n <= zlen q ->
    count_loop fuel m (zlen pre + n + 1) (zlen pre + zlen (c :: q)) x =
    Ok (x + count_ref (drop (Z.to_nat n) q))).
  { intros n x' Hn. destruct (split_at q n Hn) as (q1 & q2 & -> & Hq1).
    rewrite length_app in *.
    specialize (IH q2 fuel (pre ++ c :: q1) x'). rewrite zlen_app, zlen_cons in IH.
    replace (zlen pre + zlen (c :: q1 ++ q2)) with (zlen pre + (zlen q1 + 1) + zlen q2)
      by (autorewrite with zlen; lia).
    replace (zlen pre + n + 1) with (zlen pre + (zlen q1 + 1)) by lia.
    rewrite IH; [|lia| |done|lia].
    - by rewrite drop_app_length' by (unfold zlen in *; lia).
    - subst m. rewrite <- !app_assoc. simpl. by rewrite <- app_assoc. }
  assert (IH0 : forall x, count_loop fuel m (zlen pre + 1) (zlen pre + zlen (c :: q)) x = Ok (x + count_ref q)).
  { intros x'. specialize (IH' 0 x'). rewrite Z.add_0_r in IH'. apply IH'. split; [done|apply zlen_nonneg]. }
  destruct (Z.eqb_spec c 0) as [->|Hc0]; [by rewrite Z.add_0_r|].
  destruct (Z.eqb_spec c 10) as [->|Hc10].
  - rewrite (packet_end_spec m pre 10 q d post) by done. cbn [mbind res_bind].
    rewrite count_ref_nl. destruct (packet_sep q) as [n|] eqn:Es.
    + apply packet_sep_bound in Es. rewrite IH' by lia. f_equal. lia.
    + apply IH0.
  - rewrite IH0. cbn [count_ref]. destruct (Z.eqb_spec c 0); [done|]. by destruct (Z.eqb_spec c 10).
Qed.

(** When the byte after the live ones is no newline,
    [ks_buffer_packet_count] counts the packets of the queue, and
    [ks_buffer_read_packet] takes its first packet, cut to [maxlen], or nothing
    when there is none. *)
Lemma ks_buffer_packets b q d maxlen :
  repr b q -> d <> 10 -> 0 <= maxlen ->
  (m ← obj b; ld m (b.(head) + b.(used))) = Ok d ->
  let n := match packet_ref q with Some n => Z.min n maxlen | None => 0 end in
  ks_buffer_packet_count b = Ok (count_ref q) /\
  exists b', ks_buffer_read_packet b maxlen = Ok (take (Z.to_nat n) q, Z.min n (zlen q), b') /\
    repr b' (drop (Z.to_nat n) q).
Proof.
  intros Hr Hd Hmax Hld n. pose proof Hr as (pre & post & E & Hh & Hu & _). revert Hld.
  unfold obj, ks_buffer_packet_count, ks_buffer_read_packet. rewrite E, Hh, Hu. cbn [mbind res_bind].
  intros Hld. destruct post as [|d' post].
  { rewrite ld_out in Hld; [discriminate|]. right. autorewrite with zlen. lia. }
  rewrite app_assoc, ld_app_mid in Hld by (by rewrite zlen_app).
  injection Hld as ->. split.
  - change (count_ref q) with (0 + count_ref q).
    eapply count_loop_spec; [reflexivity|done|done|unfold zlen; lia].
  - rewrite (packet_loop_spec _ d post) by (done || (unfold zlen; lia)). cbn [mbind res_bind].
    assert (En : (match packet_ref q with
       | Some n => let n := zlen pre + n - zlen pre in if maxlen <? n then maxlen else n
       | None => 0 end) = n).
    { unfold n. destruct (packet_ref q) as [k|]; [|done]. cbv zeta.
      destruct (Z.ltb_spec maxlen (zlen pre + k - zlen pre)); lia. }
    cbv zeta in En. rewrite En. destruct (read_repr b q n Hr) as (b' & -> & Hr' & _).
    + unfold n. pose proof (packet_ref_pos q). destruct (packet_ref q) as [k|]; [|done]. specialize (H k eq_refl). lia.
    + by exists b'.
Qed.

Lemma ks_buffer_packets_witness :
  let b := MkBuffer (Some [9; 65; 10; 13; 10; 66; 10; 10; 67; 0]) 1 8 9 10 0 4 7 0 in
  ks_buffer_packet_count b = Ok 2 /\
  exists b', ks_buffer_read_packet b 100 = Ok ([65; 10; 13; 10], 4, b') /\ repr b' [66; 10; 10; 67].
Proof.
  apply (ks_buffer_packets (MkBuffer (Some [9; 65; 10; 13; 10; 66; 10; 10; 67; 0]) 1 8 9 10 0 4 7 0)
    [65; 10; 13; 10; 66; 10; 10; 67] 0 100).
  - exists [9], [0]. repeat split; vm_compute; discriminate.
  - discriminate.
  - vm_compute; discriminate.
  - reflexivity.
Defined.

(** ** Rewinding: seek and looping reads

    [rewound b pre q]: the part of [repr] that also names the consumed bytes. *)
Definition rewound (b : ks_buffer) (pre q : list Z) : Prop :=
  exists post,
    b.(data) = Some (pre ++ q ++ post) /\ b.(head) = zlen pre /\ b.(used) = zlen q /\
    b.(actually_used) = zlen pre + zlen q /\
    b.(datalen) = zlen (pre ++ q ++ post) /\ b.(datalen) <= SIZE_MAX.

Lemma rewound_repr b pre q : rewound b pre q -> repr b q.
Proof. intros (post & ?). by exists pre, post. Qed.

(** [ks_buffer_seek] goes to an offset from the start of the object, consumed
    bytes included, but never beyond the number of bytes left; a looping read
    that runs short delivers the bytes left and then starts over from the first
    byte ever written, and returns the length of that second part only. *)
Lemma ks_buffer_rewinds b pre q n :
  rewound b pre q -> 0 <= n ->
  (q <> [] ->
   let r := Z.min n (zlen q) in
   exists b', ks_buffer_seek b n = (r, b') /\
     rewound b' (take (Z.to_nat r) (pre ++ q)) (drop (Z.to_nat r) (pre ++ q))) /\
  (b.(loops) <> 0 -> zlen q < n <= SIZE_MAX ->
   let rest := take (Z.to_nat (n - zlen q)) (pre ++ q) in
   exists b', ks_buffer_read_loop b n = Ok (q ++ rest, zlen rest, b') /\
     repr b' (drop (Z.to_nat (n - zlen q)) (pre ++ q)) /\ b'.(loops) = s32 (b.(loops) - 1)).
Proof.
  intros Hw Hn. pose proof (rewound_repr b pre q Hw) as Hr. destruct Hw as (post & Hd & Hh & Hu & Ha & Hl & Hm).
  assert (Hz := Hl). autorewrite with zlen in Hz. zpos. unfold SIZE_MAX in *. split.
  - intros Hq. set (r := Z.min n (zlen q)). unfold ks_buffer_seek.
    assert (zlen q <> 0) by (intros ?%zlen_zero; done).
    destruct (Z.ltb_spec (used b) 1); [lia|].
    assert (Er : (if n <=? used b then n else used b) = r)
      by (unfold r; destruct (Z.leb_spec n (used b)); lia).
    rewrite Er. eexists. split; [done|]. exists post.
    assert (0 <= r <= zlen (pre ++ q)) by (unfold r; rewrite zlen_app; lia).
    rewrite u64_id by (rewrite zlen_app in *; lia).
    rewrite (app_assoc (take _ _)), take_drop, <- app_assoc. buf_simpl.
    rewrite zlen_take_le, zlen_drop_le by done. repr_solve.
  - intros Hlo Hlt. set (rest := take (Z.to_nat (n - zlen q)) (pre ++ q)). unfold ks_buffer_read_loop.
    destruct (read_repr b q n Hr Hn) as (b1 & E & _ & Hc & Hd1). rewrite E. cbn [mbind res_bind].
    assert (Hdat : data b1 = data b /\ actually_used b1 = actually_used b).
    { clear - E. unfold ks_buffer_read in E. destruct (data b) eqn:Hdb; [|discriminate]. cbn [mbind res_bind] in E.
      destruct (used b <? 1); [injection E as _ _ <-; done|].
      apply res_bind_inv in E as (? & _ & [= _ _ <-]). done. }
    destruct Hdat as [Hdat1 Hau1]. rewrite Z.min_r by lia.
    destruct (Z.ltb_spec (zlen q) n); [|lia].
    assert (Hlo1 : loops b1 = loops b) by apply Hc. rewrite Hlo1.
    destruct (Z.eqb_spec (loops b) 0); [done|].
    rewrite u64_id by lia.
    destruct (read_repr (set_used (actually_used b1) (set_head 0 b1)) (pre ++ q) (n - zlen q))
      as (b2 & E2 & Hr2 & Hc2 & _).
    { exists [], post. rewrite <- app_assoc. buf_simpl. rewrite Hdat1, Hau1, Hd1. repr_solve. }
    { lia. }
    rewrite E2. cbn [mbind res_bind]. rewrite take_ge by (unfold zlen in *; lia).
    assert (Hlen : Z.min (n - zlen q) (zlen (pre ++ q)) = zlen rest).
    { unfold rest, zlen in *. rewrite length_take. lia. }
    rewrite Hlen. eexists. split; [done|]. split.
    + destruct Hr2 as (p2 & r2 & Hr2). by exists p2, r2.
    + cbn [set_loops loops]. destruct Hc2 as (_ & _ & _ & ->). buf_simpl. congruence.
Qed.

Lemma ks_buffer_rewinds_witness :
  let b := MkBuffer (Some [1; 2; 3; 4; 0; 0]) 3 1 4 6 0 4 7 (-1) in
  (exists b', ks_buffer_seek b 2 = (1, b') /\ rewound b' [1] [2; 3; 4]) /\
  (exists b', ks_buffer_read_loop b 3 = Ok ([4; 1; 2], 2, b') /\ repr b' [3; 4] /\ b'.(loops) = -2).
Proof.
  assert (H : rewound (MkBuffer (Some [1; 2; 3; 4; 0; 0]) 3 1 4 6 0 4 7 (-1)) [1; 2; 3] [4]).
  { exists [0; 0]. repeat split; vm_compute; discriminate. }
  split.
  - apply (ks_buffer_rewinds _ _ _ 2 H); [lia|discriminate].
  - apply (ks_buffer_rewinds _ _ _ 3 H); [lia|discriminate|split; [reflexivity|discriminate]].
Defined.

(** ** What a [max_len] does *)

(** [max_len] bounds nothing. A write past it skips the compaction; when the
    bytes fit in the object only after a compaction, the copy runs past the end
    of the object; when they do not fit, the object is grown anyway, the fill
    level passes [max_len], and the bytes already consumed come back in place
    of the bytes held. *)
Lemma ks_buffer_max_len_not_enforced junk b pre q src :
  rewound b pre q -> b.(max_len) <> 0 -> b.(max_len) < zlen q + zlen src ->
  fits b (zlen src) ->
  (zlen src <= b.(datalen) - zlen q -> b.(datalen) - b.(actually_used) < zlen src ->
   ks_buffer_write junk true b src = Err OutOfBounds) /\
  (b.(datalen) - zlen q < zlen src ->
   exists b' m', ks_buffer_write junk true b src = Ok (zlen q + zlen src, b') /\
     b'.(max_len) < b'.(used) /\ obj b' = Ok m' /\
     slice m' b'.(head) b'.(used) = Ok (take (length q) (pre ++ q) ++ src)).
Proof.
  intros (post & Hd & Hh & Hu & Ha & Hl & Hm) Hmax Hover (_ & Hblk & Hs1 & Hs2).
  assert (Hz := Hl). autorewrite with zlen in Hz. zpos. unfold SIZE_MAX in *.
  assert (Hskip : write_compact b (zlen src) = Ok b).
  { unfold write_compact. rewrite Hu, (u64_id (zlen q + zlen src)) by lia.
    destruct (Z.eqb_spec (max_len b) 0); [done|].
    destruct (Z.leb_spec (zlen q + zlen src) (max_len b)); [lia|]. by rewrite andb_false_r. }
  unfold ks_buffer_write, obj. rewrite Hd. cbn [mbind res_bind].
  split; intros.
  - destruct (Z.eqb_spec (zlen src) 0); [lia|]. rewrite Hskip. cbn [mbind res_bind].
    unfold write_grow. rewrite Hu, u64_id by lia.
    destruct (Z.ltb_spec (datalen b - zlen q) (zlen src)); [lia|]. cbn [mbind res_bind negb].
    rewrite Hu, u64_id by lia. destruct (Z.ltb_spec (datalen b - zlen q) (zlen src)); [lia|].
    rewrite Hd. cbn [mbind res_bind]. unfold blit. rewrite Hh. autorewrite with zlen.
    destruct (Z.leb_spec (zlen pre + zlen q + zlen src) (zlen pre + (zlen q + zlen post))); [lia|].
    by rewrite andb_false_r.
  - destruct (Z.eqb_spec (zlen src) 0); [lia|]. rewrite Hskip. cbn [mbind res_bind].
    unfold write_grow. rewrite Hu, (u64_id (datalen b - zlen q)) by lia.
    destruct (Z.ltb_spec (datalen b - zlen q) (zlen src)); [|lia]. rewrite !(u64_id (datalen b + _)) by lia.
    set (sz := if _ <? _ then _ else _).
    assert (Hsz : sz = datalen b + Z.max (zlen src) (blocksize b))
      by (unfold sz; destruct (Z.ltb_spec (datalen b + zlen src) (datalen b + blocksize b)); lia).
    unfold obj. buf_simpl. rewrite Hd. cbn [mbind res_bind negb]. buf_simpl.
    rewrite Hu, u64_id by lia. destruct (Z.ltb_spec (sz - zlen q) (zlen src)); [lia|]. cbn [mbind res_bind].
    set (m := realloc junk _ sz).
    assert (Hmz : zlen m = sz).
    { unfold m, realloc, zlen in *. rewrite length_app, length_replicate, length_take. lia. }
    destruct (split_at m (zlen q)) as (m1 & m2 & E & Hm1); [lia|].
    assert (E1 : take (length q) (pre ++ q) = m1).
    { assert (Et : take (length q) m = take (length q) (pre ++ q ++ post)).
      { unfold m, realloc. rewrite (take_ge _ (Z.to_nat sz)) by (unfold zlen in *; lia).
        rewrite take_app_le; [done|]. rewrite !length_app. lia. }
      rewrite app_assoc, take_app_le in Et by (rewrite length_app; lia).
      rewrite <- Et, E. apply take_app_length'. unfold zlen in *. lia. }
    assert (zlen m2 = sz - zlen q) by (rewrite E, zlen_app in Hmz; lia).
    destruct (split_at m2 (zlen src)) as (m3 & m4 & -> & Hm3); [lia|]. rewrite E.
    rewrite (blit_app m1 m3 m4 src) by lia. cbn [mbind res_bind].
    eexists _, (m1 ++ src ++ m4). rewrite !u64_id by lia. buf_simpl.
    split; [done|]. buf_simpl. split; [lia|]. split; [done|].
    rewrite E1, app_assoc. apply (slice_app [] (m1 ++ src) m4 0); [done|rewrite zlen_app; lia].
Qed.

Lemma ks_buffer_max_len_not_enforced_witness :
  let b := MkBuffer (Some [1; 2; 3; 0]) 2 1 3 4 3 4 7 0 in
  ks_buffer_write 0 true b [7; 8; 9] = Err OutOfBounds /\
  exists b' m', ks_buffer_write 0 true b [7; 8; 9; 10] = Ok (5, b') /\
    b'.(max_len) < b'.(used) /\ obj b' = Ok m' /\
    slice m' b'.(head) b'.(used) = Ok [1; 7; 8; 9; 10].
Proof.
  assert (H : rewound (MkBuffer (Some [1; 2; 3; 0]) 2 1 3 4 3 4 7 0) [1; 2] [3]).
  { exists [0]. repeat split; vm_compute; discriminate. }
  split.
  - apply (ks_buffer_max_len_not_enforced 0 _ _ _ [7; 8; 9] H);
      first [reflexivity | discriminate | repeat split; vm_compute; discriminate].
  - apply (ks_buffer_max_len_not_enforced 0 _ _ _ [7; 8; 9; 10] H);
      first [reflexivity | discriminate | repeat split; vm_compute; discriminate].
Defined.

(** The scan for a packet looks one byte past the bytes held: a newline left
    there by bytes already consumed ends a packet, so a buffer that holds the
    single unfinished line "b\n" reports one packet. *)
Example ks_buffer_stale_packet :
  match ks_buffer_create true true 0 4 4 0 with
  | (Some b, _) =>
    (r ← run_ops 0 [OWrite [97; 10; 10] true; ORead 3; OZero; OWrite [98; 10] true] b;
     n ← ks_buffer_packet_count r.2; Ok (n, count_ref [98; 10], (ks_buffer_inuse r.2)))
  | (None, _) => Err NullDeref
  end = Ok (1, 0, 2).
Proof. reflexivity. Qed.

(** [ks_buffer_zwrite] after a failed growth drops the bytes held and tries
    once more. *)
Lemma zwrite_drops junk b q src b1 :
  ks_buffer_write junk false b src = Ok (0, b1) -> repr b1 q ->
  exists b2, ks_buffer_zero b1 = Ok b2 /\ repr b2 [] /\
    ks_buffer_zwrite junk false true b src = ks_buffer_write junk true b2 src.
Proof.
  intros E Hr. destruct (zero_repr b1 q Hr) as (b2 & Ez & Hr2 & _).
  exists b2. split; [done|]. split; [done|]. unfold ks_buffer_zwrite.
  rewrite E. cbn [mbind res_bind Z.eqb]. rewrite Ez. done.
Qed.

End Buffer.
