(* ===== verification/Queue.v ===== *)
(** Bounded queues (src/src/ks_q.c): the doubly linked nodes with their free
    list in a heap, every operation, the refinement of a FIFO list, and the
    interleavings of threads that block on the two condition variables. *)
From S2P Require Import Prelude.
From stdpp Require Import gmap fin_maps fin_sets.
Local Open Scope Z_scope.

Module Queue.

(** ** Data *)

Record ks_qnode := QNode { n_ptr : Z; n_next : option positive; n_prev : option positive }.

(** [heap] holds the nodes the pool gave to this queue, by address; the mutex and
    the condition variables are the steps of the last section. *)
Record ks_q := MkQ {
  heap : gmap positive ks_qnode;
  flush_fn : option Z;
  flush_data : Z;
  len : Z;
  maxlen : Z;
  pushers : Z;
  poppers : Z;
  head : option positive;
  tail : option positive;
  empty : option positive;
  active : bool
}.

Definition set_list (h : gmap positive ks_qnode) (hd tl em : option positive) (n : Z) (q : ks_q) : ks_q :=
  MkQ h q.(flush_fn) q.(flush_data) n q.(maxlen) q.(pushers) q.(poppers) hd tl em q.(active).
Definition set_pushers (n : Z) (q : ks_q) : ks_q :=
  MkQ q.(heap) q.(flush_fn) q.(flush_data) q.(len) q.(maxlen) n q.(poppers) q.(head) q.(tail) q.(empty) q.(active).
Definition set_poppers (n : Z) (q : ks_q) : ks_q :=
  MkQ q.(heap) q.(flush_fn) q.(flush_data) q.(len) q.(maxlen) q.(pushers) n q.(head) q.(tail) q.(empty) q.(active).
Definition set_active (a : bool) (q : ks_q) : ks_q :=
  MkQ q.(heap) q.(flush_fn) q.(flush_data) q.(len) q.(maxlen) q.(pushers) q.(poppers) q.(head) q.(tail) q.(empty) a.

(** [*p], a fault when no node lives at [p]. *)
Definition deref (h : gmap positive ks_qnode) (p : positive) : res ks_qnode :=
  match h !! p with Some n => Ok n | None => Err UseAfterFree end.

(** A blocking call up to its return, or up to its wait on a condition. *)
Inductive outcome (A : Type) : Type :=
  | Return (a : A)
  | Wait (q : ks_q).
Arguments Return {A} _.
Arguments Wait {A} _.

(** ** Operations *)

Section Ops.
(** The number of nodes the pool can serve; [ks_pool_alloc] asserts beyond it. *)
Variable pool_cap : Z.

Definition ks_q_create (maxlen : Z) : ks_q := MkQ ∅ None 0 0 maxlen 0 0 None None None true.

Definition ks_q_set_flush_fn (q : ks_q) (fn : option Z) (data : Z) : ks_status_t * ks_q :=
  if negb q.(active) then (KS_STATUS_INACTIVE, q)
  else (KS_STATUS_SUCCESS,
        MkQ q.(heap) fn data q.(len) q.(maxlen) q.(pushers) q.(poppers) q.(head) q.(tail) q.(empty) q.(active)).

Definition ks_q_size (q : ks_q) : Z := q.(len).
Definition ks_q_maxlen (q : ks_q) : Z := q.(maxlen).

(** A node of the free list, or a new one from the pool. *)
Definition new_node (q : ks_q) : res (positive * ks_q) :=
  match q.(empty) with
  | Some p =>
    n ← deref q.(heap) p;
    Ok (p, set_list (<[p := QNode 0 None None]> q.(heap)) q.(head) q.(tail) n.(n_next) q.(len) q)
  | None =>
    if pool_cap <=? Z.of_nat (size q.(heap)) then Err Aborted
    else
      let p := fresh (dom q.(heap)) in
      Ok (p, set_list (<[p := QNode 0 None None]> q.(heap)) q.(head) q.(tail) None q.(len) q)
  end.

Definition do_push (q : ks_q) (ptr : Z) : res (ks_status_t * ks_q) :=
  if negb q.(active) then Ok (KS_STATUS_INACTIVE, q) else
  r ← new_node q;
  let '(node, q) := r in
  match q.(head) with
  | None =>
    let h := <[node := QNode ptr None None]> q.(heap) in
    Ok (KS_STATUS_SUCCESS, set_list h (Some node) (Some node) q.(empty) (u64 (q.(len) + 1)) q)
  | Some _ =>
    match q.(tail) with
    | None => Err NullDeref
    | Some t =>
      tn ← deref q.(heap) t;
      let h := <[t := QNode tn.(n_ptr) (Some node) tn.(n_prev)]> q.(heap) in
      let h := <[node := QNode ptr None (Some t)]> h in
      Ok (KS_STATUS_SUCCESS, set_list h q.(head) (Some node) q.(empty) (u64 (q.(len) + 1)) q)
    end
  end.

(** The signals a critical section sends before it unlocks. *)
Inductive cond : Set := PushCond | PopCond.

Definition queue_full (q : ks_q) : bool := negb (q.(maxlen) =? 0) && (q.(len) =? q.(maxlen)).

(** The common end of the two pushes: [do_push] and the signal. *)
Definition push_tail (q : ks_q) (ptr : Z) : res (ks_status_t * list cond * ks_q) :=
  r ← do_push q ptr;
  let '(st, q) := r in
  Ok (st, if negb (q.(poppers) =? 0) then [PopCond] else [], q).

Definition ks_q_trypush (q : ks_q) (ptr : Z) : res (ks_status_t * list cond * ks_q) :=
  if negb q.(active) then Ok (KS_STATUS_INACTIVE, [], q)
  else if queue_full q then Ok (KS_STATUS_BREAK, [], q)
  else push_tail q ptr.

(** [ks_q_push] up to [ks_cond_wait], and after it. *)
Definition ks_q_push (q : ks_q) (ptr : Z) : res (outcome (ks_status_t * list cond * ks_q)) :=
  if negb q.(active) then Ok (Return (KS_STATUS_INACTIVE, [], q))
  else if queue_full q then Ok (Wait (set_pushers (u32 (q.(pushers) + 1)) q))
  else Return <$> push_tail q ptr.

Definition ks_q_push_resume (q : ks_q) (ptr : Z) : res (ks_status_t * list cond * ks_q) :=
  let q := set_pushers (u32 (q.(pushers) - 1)) q in
  if queue_full q then
    Ok (if negb q.(active) then KS_STATUS_INACTIVE else KS_STATUS_BREAK, [], q)
  else push_tail q ptr.

(** Returns what is stored at [*ptr], nothing when the call does not store. *)
Definition do_pop (q : ks_q) : res (ks_status_t * option Z * ks_q) :=
  if negb q.(active) then Ok (KS_STATUS_INACTIVE, None, q) else
  match q.(head) with
  | None =>
    Ok (KS_STATUS_SUCCESS, Some 0,
        set_list q.(heap) q.(head) q.(tail) q.(empty) (u64 (q.(len) - 1)) q)
  | Some p =>
    np ← deref q.(heap) p;
    r ← match np.(n_next) with
        | Some p2 =>
          n2 ← deref q.(heap) p2;
          Ok (<[p2 := QNode n2.(n_ptr) n2.(n_next) None]> q.(heap), q.(tail))
        | None => Ok (q.(heap), None)
        end;
    let '(h, tl) := r in
    Ok (KS_STATUS_SUCCESS, Some np.(n_ptr),
        set_list (<[p := QNode 0 q.(empty) None]> h) np.(n_next) tl (Some p) (u64 (q.(len) - 1)) q)
  end.

Definition do_peek (q : ks_q) : res (ks_status_t * option Z) :=
  if negb q.(active) then Ok (KS_STATUS_INACTIVE, None) else
  match q.(head) with
  | None => Ok (KS_STATUS_SUCCESS, Some 0)
  | Some p => np ← deref q.(heap) p; Ok (KS_STATUS_SUCCESS, Some np.(n_ptr))
  end.

Definition pop_tail (q : ks_q) : res (ks_status_t * option Z * list cond * ks_q) :=
  r ← do_pop q;
  let '(st, v, q) := r in
  Ok (st, v, if negb (q.(pushers) =? 0) then [PushCond] else [], q).

Definition ks_q_trypop (q : ks_q) : res (ks_status_t * option Z * list cond * ks_q) :=
  if negb q.(active) then Ok (KS_STATUS_INACTIVE, None, [], q)
  else if q.(len) =? 0 then Ok (KS_STATUS_BREAK, None, [], q)
  else pop_tail q.

Definition ks_q_trypeek (q : ks_q) : res (ks_status_t * option Z) :=
  if negb q.(active) then Ok (KS_STATUS_INACTIVE, None)
  else if q.(len) =? 0 then Ok (KS_STATUS_BREAK, None)
  else do_peek q.

(** [ks_q_pop_timeout] up to the wait, and after the wait returned [r]. *)
Definition ks_q_pop_timeout (q : ks_q) : res (outcome (ks_status_t * option Z * list cond * ks_q)) :=
  if negb q.(active) then Ok (Return (KS_STATUS_INACTIVE, None, [], q))
  else if q.(len) =? 0 then Ok (Wait (set_poppers (u32 (q.(poppers) + 1)) q))
  else Return <$> pop_tail q.

Definition ks_q_pop_resume (q : ks_q) (timed : bool) (r : ks_status_t) :
    res (ks_status_t * option Z * list cond * ks_q) :=
  let q := set_poppers (u32 (q.(poppers) - 1)) q in
  if timed && negb (bool_decide (r = KS_STATUS_SUCCESS)) then Ok (r, None, [], q)
  else if q.(len) =? 0 then
    Ok (if negb q.(active) then KS_STATUS_INACTIVE else KS_STATUS_BREAK, None, [], q)
  else pop_tail q.

(** [ks_q_pop] is [ks_q_pop_timeout] without a timeout. *)
Definition ks_q_pop (q : ks_q) := ks_q_pop_timeout q.

(** The locked part of [ks_q_term]; [ks_q_wake] follows when it returns SUCCESS. *)
Definition ks_q_term (q : ks_q) : ks_status_t * ks_q :=
  (if q.(active) then KS_STATUS_SUCCESS else KS_STATUS_INACTIVE, set_active false q).

Definition ks_q_wake (q : ks_q) : list cond := [PushCond; PopCond].

(** The [while] of [ks_q_flush]: the values handed to the flush callback. *)
Fixpoint flush_loop (fuel : nat) (q : ks_q) : res (list Z * ks_q) :=
  match fuel with
  | O => Err NoFuel
  | S fuel =>
    r ← ks_q_trypop q;
    let '(st, v, _, q) := r in
    if bool_decide (st = KS_STATUS_SUCCESS) then
      rest ← flush_loop fuel q;
      let '(vs, q) := rest in Ok (option_list v ++ vs, q)
    else Ok ([], q)
  end.

Definition ks_q_flush (q : ks_q) : res (ks_status_t * list Z * ks_q) :=
  if negb q.(active) then Ok (KS_STATUS_INACTIVE, [], q)
  else match q.(flush_fn) with
  | None => Ok (KS_STATUS_FAIL, [], q)
  | Some _ =>
    r ← flush_loop (S (Z.to_nat q.(len))) q;
    let '(vs, q) := r in Ok (KS_STATUS_SUCCESS, vs, q)
  end.

(** One turn of [ks_q_wait]; [None] is another turn. *)
Definition ks_q_wait_turn (q : ks_q) : option ks_status_t :=
  let r := if negb q.(active) then KS_STATUS_INACTIVE else KS_STATUS_SUCCESS in
  if negb q.(active) || (q.(len) =? 0) then Some r else None.

(** The teardown of [ks_q_cleanup] walks a chain and frees each node; a node
    freed twice or not allocated is a fault. *)
Fixpoint free_chain (fuel : nat) (h : gmap positive ks_qnode) (np : option positive) :
    res (gmap positive ks_qnode) :=
  match fuel with
  | O => Err NoFuel
  | S fuel =>
    match np with
    | None => Ok h
    | Some p => n ← deref h p; free_chain fuel (delete p h) n.(n_next)
    end
  end.

Definition cleanup_announce (q : ks_q) : res (list Z * ks_q) :=
  if q.(active) then
    r ← ks_q_flush q;
    let '(_, vs, q) := r in Ok (vs, (ks_q_term q).2)
  else Ok ([], q).

Definition cleanup_teardown (q : ks_q) : res (gmap positive ks_qnode) :=
  let n := S (size q.(heap)) in
  h ← free_chain n q.(heap) q.(head);
  free_chain n h q.(empty).

(** [ks_q_destroy]: flush, terminate, then [ks_pool_free], which runs the
    cleanup. The result is the flushed values and the nodes left in the pool. *)
Definition ks_q_destroy (q : ks_q) : res (list Z * gmap positive ks_qnode) :=
  r ← ks_q_flush q;
  let '(_, vs, q) := r in
  let q := (ks_q_term q).2 in
  r ← cleanup_announce q;
  let '(vs2, q) := r in
  h ← cleanup_teardown q;
  Ok (vs ++ vs2, h).
End Ops.

(** ** The heap shape

    [items] are the queued nodes from [head] to [tail] with their values, [free]
    the addresses of the free list. *)

Definition first_of (items : list (positive * Z)) : option positive := fst <$> hd_error items.
Definition last_of (items : list (positive * Z)) : option positive := fst <$> last items.

Fixpoint dl (h : gmap positive ks_qnode) (prev : option positive) (items : list (positive * Z)) : Prop :=
  match items with
  | [] => True
  | (p, v) :: rest => h !! p = Some (QNode v (first_of rest) prev) /\ dl h (Some p) rest
  end.

Fixpoint fl (h : gmap positive ks_qnode) (free : list positive) : Prop :=
  match free with
  | [] => True
  | p :: rest => h !! p = Some (QNode 0 (hd_error rest) None) /\ fl h rest
  end.

Definition shape (q : ks_q) (items : list (positive * Z)) (free : list positive) : Prop :=
  dl q.(heap) None items /\ q.(head) = first_of items /\ q.(tail) = last_of items /\
  fl q.(heap) free /\ q.(empty) = hd_error free /\
  NoDup (items.*1 ++ free) /\ dom q.(heap) = list_to_set (items.*1 ++ free) /\
  q.(len) = zlen items.

(** [holds cap q vs]: [q] is well formed inside a pool of [cap] nodes and holds
    the values [vs]. *)
Definition holds (cap : Z) (q : ks_q) (vs : list Z) : Prop :=
  exists items free, shape q items free /\ vs = items.*2 /\ Z.of_nat (size q.(heap)) <= cap.

Lemma dl_insert_other h prev items p n :
  p ∉ items.*1 -> dl h prev items -> dl (<[p := n]> h) prev items.
Proof.
  revert prev. induction items as [|[p' v] items IH]; intros prev Hp Hd; [done|].
  apply not_elem_of_cons in Hp as [Hne Hp]. destruct Hd as [E Hd].
  split; [by rewrite lookup_insert_ne by done|]. by apply IH.
Qed.

Lemma fl_insert_other h free p n : p ∉ free -> fl h free -> fl (<[p := n]> h) free.
Proof.
  induction free as [|p' free IH]; intros Hp Hf; [done|].
  apply not_elem_of_cons in Hp as [Hne Hp]. destruct Hf as [E Hf].
  split; [by rewrite lookup_insert_ne by done|]. by apply IH.
Qed.

Lemma first_of_app items p v :
  first_of (items ++ [(p, v)]) = Some (from_option id p (first_of items)).
Proof. by destruct items as [|[]]. Qed.

Lemma last_of_app items p v : last_of (items ++ [(p, v)]) = Some p.
Proof. unfold last_of. by rewrite last_snoc. Qed.

(** Linking a new node behind the last one. *)
Lemma dl_link h prev items t tv p v :
  dl h prev (items ++ [(t, tv)]) -> NoDup ((items ++ [(t, tv)]).*1 ++ [p]) ->
  exists tn, h !! t = Some tn /\ tn.(n_ptr) = tv /\
  dl (<[p := QNode v None (Some t)]> (<[t := QNode tn.(n_ptr) (Some p) tn.(n_prev)]> h))
     prev ((items ++ [(t, tv)]) ++ [(p, v)]).
Proof.
  revert prev. induction items as [|[p0 v0] items IH]; intros prev Hd Hn.
  - destruct Hd as [E _]. simpl in *. apply NoDup_cons in Hn as [Hne _].
    exists (QNode tv None prev). split; [done|]. split; [done|]. simpl.
    rewrite lookup_insert_ne by set_solver. rewrite !lookup_insert_eq. done.
  - destruct Hd as [E Hd]. simpl in Hn. apply NoDup_cons in Hn as [Hne Hn].
    destruct (IH _ Hd Hn) as (tn & Et & Ev & Hd'). exists tn. split; [done|]. split; [done|].
    simpl. split; [|done].
    rewrite fmap_app in Hne. simpl in Hne.
    rewrite !lookup_insert_ne by set_solver. rewrite E. f_equal. f_equal. by destruct items as [|[]].
Qed.

(** The pointer the pool returns is not one of the nodes. *)
Lemma fresh_not_in (h : gmap positive ks_qnode) ps :
  dom h = list_to_set ps -> fresh (dom h) ∉ ps.
Proof. intros E Hin. apply (is_fresh (dom h)). rewrite E at 2. by apply elem_of_list_to_set. Qed.

Lemma size_insert_dom (h : gmap positive ks_qnode) p n :
  p ∈ dom h -> size (<[p := n]> h) = size h.
Proof. intros [x Hx]%elem_of_dom. rewrite map_size_insert_Some; [done|by exists x]. Qed.

Ltac q_simpl := cbn [heap flush_fn flush_data len maxlen pushers poppers head tail empty active
  set_list set_pushers set_poppers set_active mbind res_bind negb] in *.

(** The fields a list operation leaves alone. *)
Definition same_ctl (q q' : ks_q) : Prop :=
  q'.(flush_fn) = q.(flush_fn) /\ q'.(flush_data) = q.(flush_data) /\ q'.(maxlen) = q.(maxlen) /\
  q'.(pushers) = q.(pushers) /\ q'.(poppers) = q.(poppers) /\ q'.(active) = q.(active).

Section Shape.
Variable cap : Z.
Hypothesis Hcap : cap <= SIZE_MAX.

Lemma shape_bound q items free : shape q items free -> zlen items <= Z.of_nat (size q.(heap)).
Proof.
  intros (_ & _ & _ & _ & _ & Hn & Hdom & _).
  rewrite <- (size_dom (heap q)), Hdom, size_list_to_set by done.
  rewrite length_app, length_fmap. unfold zlen. lia.
Qed.

(** [new_node] gives a node outside the list, taken off the free list or new. *)
Lemma new_node_shape q items free :
  shape q items free -> Z.of_nat (size q.(heap)) <= cap ->
  (free = [] /\ cap <= Z.of_nat (size q.(heap)) /\ new_node cap q = Err Aborted) \/
  exists p q' free', new_node cap q = Ok (p, q') /\ same_ctl q q' /\
    dl q'.(heap) None items /\ q'.(head) = q.(head) /\ q'.(tail) = q.(tail) /\ q'.(len) = q.(len) /\
    fl q'.(heap) free' /\ q'.(empty) = hd_error free' /\
    NoDup (items.*1 ++ p :: free') /\ dom q'.(heap) = list_to_set (items.*1 ++ p :: free') /\
    Z.of_nat (size q'.(heap)) <= cap /\ Z.of_nat (size q'.(heap)) <= Z.of_nat (size q.(heap)) + 1.
Proof.
  intros (Hd & Hh & Ht & Hf & He & Hn & Hdom & Hl) Hsz. unfold new_node. rewrite He.
  destruct free as [|p free]; simpl.
  - destruct (Z.leb_spec cap (Z.of_nat (size (heap q)))) as [Hfull|Hroom]; [by left|right].
    set (p := fresh (dom (heap q))).
    assert (Hp : p ∉ items.*1 ++ []) by (by apply fresh_not_in).
    rewrite app_nil_r in *. assert (Hnone : heap q !! p = None).
    { apply not_elem_of_dom. rewrite Hdom. by rewrite elem_of_list_to_set. }
    eexists p, _, []. split; [done|]. q_simpl.
    repeat split; try done.
    + by apply dl_insert_other.
    + apply NoDup_app. repeat split; [done|set_solver|apply NoDup_singleton].
    + rewrite dom_insert_L, Hdom. rewrite list_to_set_app_L. set_solver.
    + rewrite map_size_insert_None by done. lia.
    + rewrite map_size_insert_None by done. lia.
  - destruct Hf as [Ep Hf]. right. unfold deref. rewrite Ep. q_simpl.
    eexists p, _, free. split; [done|]. q_simpl.
    apply NoDup_app in Hn as (Hn1 & Hn12 & Hn2). apply NoDup_cons in Hn2 as [Hpf Hn2].
    assert (p ∉ items.*1) by (intros Hin; apply (Hn12 _ Hin); by left).
    assert (Hpd : p ∈ dom (heap q)) by (apply elem_of_dom; by eexists).
    repeat split; try done.
    + by apply dl_insert_other.
    + by apply fl_insert_other.
    + apply NoDup_app. repeat split; [done|done|by apply NoDup_cons].
    + rewrite dom_insert_lookup_L by (by eexists). done.
    + by rewrite size_insert_dom.
    + rewrite size_insert_dom by done. lia.
Qed.

(** [do_push] appends, or the pool is exhausted. *)
Lemma do_push_holds q vs v :
  holds cap q vs -> q.(active) = true ->
  (cap <= Z.of_nat (size q.(heap)) /\ do_push cap q v = Err Aborted) \/
  exists q', do_push cap q v = Ok (KS_STATUS_SUCCESS, q') /\ holds cap q' (vs ++ [v]) /\ same_ctl q q' /\
    Z.of_nat (size q'.(heap)) <= Z.of_nat (size q.(heap)) + 1.
Proof.
  intros (items & free & Hs & -> & Hsz) Ha. pose proof Hs as (_ & Hh & Ht & _ & _ & _ & _ & Hl).
  unfold do_push. rewrite Ha. cbn [negb].
  destruct (new_node_shape q items free Hs Hsz) as [(_ & ? & ->)|H]; [by left|right].
  destruct H as (p & q1 & free' & -> & Hc & Hd1 & Hh1 & Ht1 & Hl1 & Hf1 & He1 & Hn1 & Hdom1 & Hsz1 & Hsz2).
  q_simpl. rewrite Hh1, Hh.
  assert (Hpi : p ∉ items.*1).
  { apply NoDup_app in Hn1 as (_ & H12 & _). intros Hin. apply (H12 _ Hin). by left. }
  assert (Hpf : p ∉ free').
  { apply NoDup_app in Hn1 as (_ & _ & H2). by apply NoDup_cons in H2 as []. }
  assert (Hpd : p ∈ dom (heap q1)) by (rewrite Hdom1, elem_of_list_to_set; set_solver).
  assert (Hlen : u64 (len q + 1) = zlen items + 1).
  { pose proof (zlen_nonneg items).
    assert (zlen items + 1 <= Z.of_nat (size (heap q1))).
    { rewrite <- (size_dom (heap q1)), Hdom1, size_list_to_set by done.
      rewrite length_app, length_fmap. simpl. unfold zlen. lia. }
    rewrite Hl. apply u64_id. unfold SIZE_MAX in *. lia. }
  rewrite Hl1, Hlen.
  assert (Hset : items.*1 ++ p :: free' = (items ++ [(p, v)]).*1 ++ free')
    by (rewrite fmap_app, <- app_assoc; done).
  assert (Hvs : items.*2 ++ [v] = (items ++ [(p, v)]).*2) by (by rewrite fmap_app).
  destruct (decide (items = [])) as [->|Hne].
  - simpl. eexists. split; [done|]. split; [|split; [done|q_simpl; by rewrite size_insert_dom]].
    exists [(p, v)], free'. split; [|split; [done|q_simpl; by rewrite size_insert_dom]].
    unfold shape. q_simpl. repeat split; try done.
    + by rewrite lookup_insert_eq.
    + by apply fl_insert_other.
    + rewrite dom_insert_lookup_L by (by apply elem_of_dom). done.
  - destruct (exists_last Hne) as (l & [t tv] & ->).
    assert (E : first_of (l ++ [(t, tv)]) = Some (from_option id t (first_of l))) by apply first_of_app.
    rewrite E. rewrite Ht1, Ht, last_of_app. unfold deref.
    destruct (dl_link (heap q1) None l t tv p v Hd1) as (tn & Etn & Ev & Hd2).
    { apply NoDup_app in Hn1 as (Ha1 & Ha2 & _). apply NoDup_app.
      repeat split; [done|set_solver|apply NoDup_singleton]. }
    rewrite Etn. cbn [mbind res_bind].
    assert (Htd : t ∈ dom (heap q1)) by (apply elem_of_dom; by eexists).
    eexists. split; [done|]. split; [|split; [done|
      q_simpl; rewrite !size_insert_dom; [done|done|by rewrite dom_insert; set_solver]]].
    exists ((l ++ [(t, tv)]) ++ [(p, v)]), free'. split; [|split; [done|]].
    + unfold shape. q_simpl. rewrite <- Hset. repeat split; try done.
      * rewrite first_of_app, E. done.
      * by rewrite last_of_app.
      * apply fl_insert_other; [done|]. apply fl_insert_other; [|done].
        intros Hin. apply NoDup_app in Hn1 as (_ & H12 & _). apply (H12 t); [set_solver|by right].
      * rewrite !dom_insert_L, Hdom1. set_solver.
      * rewrite !zlen_app. done.
    + q_simpl. rewrite !size_insert_dom; [done|done|by rewrite dom_insert; set_solver].
Qed.
End Shape.


(** Taking the first node off: its successor loses its [prev]. *)
Definition unlinked (h : gmap positive ks_qnode) (items : list (positive * Z)) :=
  match items with
  | [] => h
  | (p2, v2) :: rest => <[p2 := QNode v2 (first_of rest) None]> h
  end.

Lemma dl_unlink h p items :
  dl h (Some p) items -> NoDup (p :: items.*1) ->
  dl (unlinked h items) None items /\ dom (unlinked h items) = dom h /\
  size (unlinked h items) = size h /\
  (forall p', p' ∉ items.*1 -> unlinked h items !! p' = h !! p').
Proof.
  intros Hd Hn. destruct items as [|[p2 v2] items]; [done|].
  destruct Hd as [E Hd]. apply NoDup_cons in Hn as [_ Hn]. simpl in Hn. apply NoDup_cons in Hn as [Hne Hn].
  simpl. split; [|split; [|split]].
  - split; [by rewrite lookup_insert_eq|]. by apply dl_insert_other.
  - by rewrite dom_insert_lookup_L by (by eexists).
  - apply size_insert_dom, elem_of_dom. by eexists.
  - intros p' Hp'. rewrite lookup_insert_ne; [done|]. set_solver.
Qed.

Lemma fl_ext h h' free : (forall p, p ∈ free -> h' !! p = h !! p) -> fl h free -> fl h' free.
Proof.
  induction free as [|p free IH]; intros He Hf; [done|]. destruct Hf as [E Hf]. split.
  - rewrite He by (by left). done.
  - apply IH; [|done]. intros p' Hp'. apply He. by right.
Qed.

Section Pop.
Variable cap : Z.
Hypothesis Hcap : cap <= SIZE_MAX.

Lemma holds_len q vs : holds cap q vs -> q.(len) = zlen vs /\ zlen vs <= cap.
Proof.
  intros (items & free & Hs & -> & Hsz). pose proof (shape_bound q items free Hs).
  destruct Hs as (_ & _ & _ & _ & _ & _ & _ & ->). unfold zlen in *. rewrite length_fmap. lia.
Qed.

Lemma holds_len0 q vs : holds cap q vs -> (q.(len) =? 0) = bool_decide (vs = []).
Proof.
  intros [-> _]%holds_len. destruct vs; [done|]. rewrite zlen_cons. pose proof (zlen_nonneg vs).
  destruct (Z.eqb_spec (zlen vs + 1) 0); [lia|done].
Qed.

(** [do_pop] takes the oldest value and puts its node on the free list. *)
Lemma do_pop_holds q v vs :
  holds cap q (v :: vs) -> q.(active) = true ->
  exists q', do_pop q = Ok (KS_STATUS_SUCCESS, Some v, q') /\ holds cap q' vs /\ same_ctl q q' /\
    size q'.(heap) = size q.(heap).
Proof.
  intros (items & free & Hs & E & Hsz) Ha. pose proof (shape_bound q items free Hs) as Hb.
  destruct Hs as (Hd & Hh & Ht & Hf & He & Hn & Hdom & Hl).
  destruct items as [|[p v'] items]; [done|]. injection E as <- ->.
  destruct Hd as [Ep Hd]. pose proof Hn as (Hn1 & Hn12 & Hn2)%NoDup_app.
  assert (Hpf : p ∉ free) by (apply Hn12; by left).
  destruct (dl_unlink (heap q) p items Hd Hn1) as (Hd' & Hdom' & Hsz' & Hout).
  apply NoDup_cons in Hn1 as [Hpi Hn1].
  change (head q = Some p) in Hh. unfold do_pop, deref. rewrite Ha, Hh. cbn [negb]. rewrite Ep.
  cbn [mbind res_bind n_next n_ptr].
  assert (Er : match first_of items with
      | Some p2 => n2 ← match heap q !! p2 with Some n => Ok n | None => Err UseAfterFree end;
          Ok (<[p2 := QNode n2.(n_ptr) n2.(n_next) None]> (heap q), tail q)
      | None => Ok (heap q, None) end = Ok (unlinked (heap q) items, last_of items)).
  { rewrite Ht. destruct items as [|[p2 v2] items]; [done|]. destruct Hd as [E2 _].
    change (first_of ((p2, v2) :: items)) with (Some p2). cbv iota. rewrite E2. done. }
  assert (Hsz2 : size (<[p:=QNode 0 (empty q) None]> (unlinked (heap q) items)) = size (heap q)).
  { rewrite size_insert_dom; [done|]. rewrite Hdom'. apply elem_of_dom. by eexists. }
  rewrite Er. q_simpl. eexists. split; [done|]. split; [|split; [done|exact Hsz2]].
  exists items, (p :: free). split; [|split; [done|q_simpl; lia]].
  - unfold shape. q_simpl. repeat split; try done.
    + by apply dl_insert_other.
    + rewrite lookup_insert_eq. by rewrite He.
    + apply fl_insert_other; [done|]. eapply fl_ext; [|done]. intros p' Hp'. apply Hout.
      intros Hin. apply (Hn12 p'); [by right|done].
    + apply NoDup_app. repeat split; [done| |by apply NoDup_cons].
      intros x Hx. apply not_elem_of_cons. split; [by intros ->|]. apply Hn12. by right.
    + rewrite dom_insert_L, Hdom', Hdom. simpl. rewrite !list_to_set_app_L. simpl. set_solver.
    + rewrite Hl, zlen_cons, Z.add_simpl_r. rewrite zlen_cons in Hb. pose proof (zlen_nonneg items).
      apply u64_id. unfold SIZE_MAX in *. lia.
Qed.

Lemma do_peek_holds q v vs :
  holds cap q (v :: vs) -> q.(active) = true -> do_peek q = Ok (KS_STATUS_SUCCESS, Some v).
Proof.
  intros (items & free & (Hd & Hh & _) & E & _) Ha. destruct items as [|[p v'] items]; [done|].
  injection E as <- ->. destruct Hd as [Ep _]. change (head q = Some p) in Hh.
  unfold do_peek, deref. by rewrite Ha, Hh, Ep.
Qed.

Lemma q_create_holds mx : 0 <= cap -> holds cap (ks_q_create mx) [].
Proof. intros. exists [], []. split; [|done]. repeat split; try done. apply NoDup_nil_2. Qed.

(** Fields outside the list do not matter. *)
Lemma holds_ctl q q' vs :
  holds cap q vs -> q'.(heap) = q.(heap) -> q'.(head) = q.(head) -> q'.(tail) = q.(tail) ->
  q'.(empty) = q.(empty) -> q'.(len) = q.(len) -> holds cap q' vs.
Proof.
  intros (items & free & Hs & -> & Hsz) E1 E2 E3 E4 E5. exists items, free.
  unfold shape in *. rewrite E1, E2, E3, E4, E5. done.
Qed.

(** The flush takes every value, oldest first. *)
Lemma flush_loop_holds vs : forall q fuel,
  holds cap q vs -> q.(active) = true -> (length vs < fuel)%nat ->
  exists q', flush_loop fuel q = Ok (vs, q') /\ holds cap q' [] /\ same_ctl q q' /\
    size q'.(heap) = size q.(heap).
Proof.
  induction vs as [|v vs IH]; intros q [|fuel] Hq Ha Hf; simpl in Hf; try lia; cbn [flush_loop];
    unfold ks_q_trypop; rewrite Ha, (holds_len0 q _ Hq); cbn [negb].
  - cbn. exists q. done.
  - cbn [bool_decide decide]. unfold pop_tail.
    destruct (do_pop_holds q v vs Hq Ha) as (q1 & -> & Hq1 & Hc1 & Hs1).
    cbn -[flush_loop].
    destruct (IH q1 fuel Hq1) as (q2 & -> & Hq2 & Hc2 & Hs2); [|lia|].
    + destruct Hc1 as (_ & _ & _ & _ & _ & ->). done.
    + simpl. exists q2. split; [done|]. split; [done|]. split; [|congruence].
      destruct Hc1 as (?&?&?&?&?&?), Hc2 as (?&?&?&?&?&?). repeat split; congruence.
Qed.

Lemma free_chain_fl free : forall h fuel,
  fl h free -> NoDup free -> (length free < fuel)%nat ->
  free_chain fuel h (hd_error free) = Ok (foldl (fun h p => delete p h) h free).
Proof.
  induction free as [|p free IH]; intros h [|fuel] Hf Hn Hl; simpl in Hl; try lia; [done|].
  destruct Hf as [E Hf]. apply NoDup_cons in Hn as [Hp Hn]. simpl. unfold deref. rewrite E.
  cbn [mbind res_bind n_next]. apply IH; [|done|lia].
  eapply fl_ext; [|done]. intros p' Hp'. rewrite lookup_delete_ne; [done|]. by intros ->.
Qed.

Lemma free_chain_dl items : forall prev h fuel,
  dl h prev items -> NoDup items.*1 -> (length items < fuel)%nat ->
  free_chain fuel h (first_of items) = Ok (foldl (fun h p => delete p h) h items.*1).
Proof.
  induction items as [|[p v] items IH]; intros prev h [|fuel] Hd Hn Hl; simpl in Hl; try lia; [done|].
  destruct Hd as [E Hd]. apply NoDup_cons in Hn as [Hp Hn]. simpl. unfold deref. rewrite E.
  cbn [mbind res_bind n_next]. apply (IH (Some p)); [|done|lia].
  clear -Hd Hp. revert Hd. generalize (Some p) as pv. induction items as [|[p' v'] items IH]; intros pv Hd; [done|].
  destruct Hd as [E Hd]. apply not_elem_of_cons in Hp as [Hne Hp]. split; [by rewrite lookup_delete_ne|].
  by apply IH.
Qed.

Lemma foldl_delete_dom (ps : list positive) (h : gmap positive ks_qnode) :
  dom (foldl (fun h p => delete p h) h ps) = dom h ∖ list_to_set ps.
Proof.
  revert h. induction ps as [|p ps IH]; intros h; simpl; [set_solver|]. rewrite IH, dom_delete_L. set_solver.
Qed.

Lemma foldl_delete_ext (ps : list positive) (h : gmap positive ks_qnode) p :
  p ∉ ps -> foldl (fun h p => delete p h) h ps !! p = h !! p.
Proof.
  revert h. induction ps as [|p' ps IH]; intros h Hp; [done|]. apply not_elem_of_cons in Hp as [Hne Hp].
  simpl. rewrite IH by done. by rewrite lookup_delete_ne.
Qed.

(** The teardown frees every node once and leaves none. *)
Lemma teardown_holds q vs : holds cap q vs -> cleanup_teardown q = Ok ∅.
Proof.
  intros (items & free & (Hd & Hh & Ht & Hf & He & Hn & Hdom & Hl) & -> & Hsz).
  assert (Hsize : size (heap q) = (length items + length free)%nat).
  { rewrite <- size_dom, Hdom, size_list_to_set, length_app, length_fmap by done. done. }
  apply NoDup_app in Hn as (Hn1 & Hn12 & Hn2).
  unfold cleanup_teardown. rewrite Hh, He.
  rewrite (free_chain_dl items None) by (done || lia). cbn [mbind res_bind].
  rewrite free_chain_fl; [|eapply fl_ext; [|done]|done|lia].
  - f_equal. apply dom_empty_inv_L. rewrite !foldl_delete_dom, Hdom. set_solver.
  - intros p Hp. apply foldl_delete_ext. intros Hin. by apply (Hn12 p).
Qed.
End Pop.

(** ** The FIFO list the calls promise *)

Inductive call : Set :=
  | CTryPush (ptr : Z)
  | CTryPop
  | CTryPeek
  | CSize
  | CFlush
  | CSetFlush (fn : option Z) (data : Z)
  | CTerm.

(** What a caller sees: the status, the value stored, the values handed to the
    flush callback, the size read. *)
Record answer := Answer { a_status : ks_status_t; a_value : option Z; a_flushed : list Z; a_size : Z }.

Definition run_call (cap : Z) (c : call) (q : ks_q) : res (answer * ks_q) :=
  match c with
  | CTryPush ptr => r ← ks_q_trypush cap q ptr; Ok (Answer r.1.1 None [] 0, r.2)
  | CTryPop => r ← ks_q_trypop q; Ok (Answer r.1.1.1 r.1.1.2 [] 0, r.2)
  | CTryPeek => r ← ks_q_trypeek q; Ok (Answer r.1 r.2 [] 0, q)
  | CSize => Ok (Answer KS_STATUS_SUCCESS None [] (ks_q_size q), q)
  | CFlush => r ← ks_q_flush q; Ok (Answer r.1.1 None r.1.2 0, r.2)
  | CSetFlush fn data => let '(st, q) := ks_q_set_flush_fn q fn data in Ok (Answer st None [] 0, q)
  | CTerm => let '(st, q) := ks_q_term q in Ok (Answer st None [] 0, q)
  end.

(** The abstract queue. *)
Record fifo := Fifo { f_items : list Z; f_max : Z; f_active : bool; f_flush : bool }.

Definition fifo_call (c : call) (f : fifo) : answer * fifo :=
  let inactive := (Answer KS_STATUS_INACTIVE None [] 0, f) in
  let upd vs := Fifo vs f.(f_max) f.(f_active) f.(f_flush) in
  match c with
  | CSize => (Answer KS_STATUS_SUCCESS None [] (zlen f.(f_items)), f)
  | _ =>
    if negb f.(f_active) then inactive else
    match c with
    | CTryPush ptr =>
      if bool_decide (f.(f_max) <> 0 /\ zlen f.(f_items) = f.(f_max))
      then (Answer KS_STATUS_BREAK None [] 0, f)
      else (Answer KS_STATUS_SUCCESS None [] 0, upd (f.(f_items) ++ [ptr]))
    | CTryPop =>
      match f.(f_items) with
      | [] => (Answer KS_STATUS_BREAK None [] 0, f)
      | v :: vs => (Answer KS_STATUS_SUCCESS (Some v) [] 0, upd vs)
      end
    | CTryPeek =>
      match f.(f_items) with
      | [] => (Answer KS_STATUS_BREAK None [] 0, f)
      | v :: _ => (Answer KS_STATUS_SUCCESS (Some v) [] 0, f)
      end
    | CFlush =>
      if f.(f_flush) then (Answer KS_STATUS_SUCCESS None f.(f_items) 0, upd [])
      else (Answer KS_STATUS_FAIL None [] 0, f)
    | CSetFlush fn _ => (Answer KS_STATUS_SUCCESS None [] 0,
                         Fifo f.(f_items) f.(f_max) f.(f_active) (bool_decide (is_Some fn)))
    | _ => (Answer KS_STATUS_SUCCESS None [] 0, Fifo f.(f_items) f.(f_max) false f.(f_flush))
    end
  end.

Fixpoint run_calls (cap : Z) (cs : list call) (q : ks_q) : res (list answer * ks_q) :=
  match cs with
  | [] => Ok ([], q)
  | c :: cs => r ← run_call cap c q; rs ← run_calls cap cs r.2; Ok (r.1 :: rs.1, rs.2)
  end.

Fixpoint fifo_calls (cs : list call) (f : fifo) : list answer * fifo :=
  match cs with
  | [] => ([], f)
  | c :: cs => let r := fifo_call c f in let rs := fifo_calls cs r.2 in (r.1 :: rs.1, rs.2)
  end.

Definition abstracts (cap : Z) (q : ks_q) (f : fifo) : Prop :=
  holds cap q f.(f_items) /\ q.(maxlen) = f.(f_max) /\ q.(active) = f.(f_active) /\
  bool_decide (is_Some q.(flush_fn)) = f.(f_flush).

Definition call_cost (c : call) : Z := match c with CTryPush _ => 1 | _ => 0 end.
Definition calls_cost (cs : list call) : Z := fold_right (fun c n => call_cost c + n) 0 cs.

Lemma q_calls_cost_nonneg cs : 0 <= calls_cost cs.
Proof. induction cs as [|[] cs]; simpl; lia. Qed.

Section Refine.
Variable cap : Z.
Hypothesis Hcap : cap <= SIZE_MAX.

Lemma queue_full_spec q vs : holds cap q vs ->
  queue_full q = bool_decide (q.(maxlen) <> 0 /\ zlen vs = q.(maxlen)).
Proof.
  intros [El _]%holds_len. unfold queue_full. rewrite El.
  destruct (Z.eqb_spec (maxlen q) 0), (Z.eqb_spec (zlen vs) (maxlen q)); simpl; symmetry;
    (apply bool_decide_eq_true || apply bool_decide_eq_false); tauto.
Qed.

Lemma abstracts_upd q q' f vs :
  abstracts cap q f -> same_ctl q q' -> holds cap q' vs ->
  abstracts cap q' (Fifo vs f.(f_max) f.(f_active) f.(f_flush)).
Proof.
  intros (_ & Hm & Ha & Hf) (Ef & _ & Em & _ & _ & Ea) Hq'. unfold abstracts. simpl.
  rewrite Em, Ea, Ef. done.
Qed.

(** A call that changes nothing. *)
Ltac stay q := exists q; split; [done|split; [match goal with H : abstracts _ _ _ |- _ => exact H end|lia]].

Lemma q_run_call_sim c q f :
  abstracts cap q f -> Z.of_nat (size q.(heap)) + call_cost c <= cap ->
  exists q', run_call cap c q = Ok ((fifo_call c f).1, q') /\ abstracts cap q' (fifo_call c f).2 /\
    Z.of_nat (size q'.(heap)) <= Z.of_nat (size q.(heap)) + call_cost c.
Proof.
  intros HA Hsz. pose proof HA as (Hq & Hm & Ha & Hf).
  destruct c as [v| | | | |fn data|]; cbn [call_cost] in *; unfold fifo_call, run_call;
    unfold ks_q_trypush, ks_q_trypop, ks_q_trypeek, ks_q_flush, ks_q_set_flush_fn, ks_q_term, ks_q_size;
    rewrite <- ?Ha; try (destruct (active q) eqn:Eact; cbn [negb]; [|stay q]).
  - rewrite (queue_full_spec q _ Hq), Hm. destruct (bool_decide (f_max f <> 0 /\ _)); [stay q|].
    destruct (do_push_holds cap Hcap q _ v Hq Eact) as [[? _]|(q1 & E & Hq1 & Hc1 & Hs1)]; [lia|].
    unfold push_tail. rewrite E. exists q1. split; [done|]. split; [|lia].
    rewrite Ha. by eapply abstracts_upd.
  - rewrite (holds_len0 cap q _ Hq). destruct (f_items f) as [|v vs] eqn:Ef;
      cbn; [stay q|].
    destruct (do_pop_holds cap Hcap q v vs Hq Eact) as (q1 & E & Hq1 & Hc1 & Hs1).
    unfold pop_tail. rewrite E. exists q1. split; [done|]. split; [|lia].
    cbn. rewrite Ha. by eapply abstracts_upd.
  - rewrite (holds_len0 cap q _ Hq). destruct (f_items f) as [|v vs] eqn:Ef;
      cbn; [stay q|].
    rewrite (do_peek_holds cap q v vs Hq Eact). exists q.
    split; [done|]. split; [done|lia].
  - exists q. destruct (holds_len cap q _ Hq) as [-> _]. split; [done|]. split; [done|lia].
  - destruct (flush_fn q) as [fn|] eqn:Efn; rewrite <- Hf; cbn -[flush_loop];
      [|stay q].
    destruct (holds_len cap q _ Hq) as [El _].
    destruct (flush_loop_holds cap Hcap (f_items f) q (S (Z.to_nat (len q))) Hq Eact)
      as (q1 & E & Hq1 & Hc1 & Hs1); [rewrite El; unfold zlen; lia|].
    rewrite E. exists q1. split; [done|]. split; [|lia].
    pose proof (abstracts_upd q q1 f [] HA Hc1 Hq1) as H. rewrite <- Hf, <- Ha in H. done.
  - eexists. split; [done|]. split; [|simpl; lia]. cbn. unfold abstracts. cbn.
    repeat split; done.
  - destruct (active q) eqn:Eact; (eexists; split; [done|]; split; [|simpl; lia]; cbn; unfold abstracts; cbn);
    repeat split; done.
Qed.
End Refine.

(** C3: the calls that do not block, made one after another, are the calls of a
    FIFO list of at most [maxlen] values: every status, every value, every
    value handed to the flush callback in its order, and no fault, as long as
    the pool can serve one node per push. *)
Theorem ks_q_refines_fifo cap cs q f :
  cap <= SIZE_MAX -> abstracts cap q f -> Z.of_nat (size q.(heap)) + calls_cost cs <= cap ->
  exists q', run_calls cap cs q = Ok ((fifo_calls cs f).1, q') /\ abstracts cap q' (fifo_calls cs f).2.
Proof.
  intros Hcap. revert q f. induction cs as [|c cs IH]; intros q f HA Hsz; [by exists q|].
  simpl in Hsz. pose proof (q_calls_cost_nonneg cs).
  destruct (q_run_call_sim cap Hcap c q f HA) as (q1 & E & HA1 & Hs1); [lia|].
  destruct (IH q1 (fifo_call c f).2 HA1) as (q2 & E2 & HA2); [lia|].
  exists q2. simpl. rewrite E. cbn [mbind res_bind fst snd]. by rewrite E2.
Qed.

Lemma ks_q_refines_fifo_witness :
  exists q', run_calls 8 [CTryPush 11; CTryPush 12; CTryPush 13; CTryPop; CTryPush 14; CTryPop; CSize; CTryPeek]
    (ks_q_create 2) =
    Ok ((fifo_calls [CTryPush 11; CTryPush 12; CTryPush 13; CTryPop; CTryPush 14; CTryPop; CSize; CTryPeek]
           (Fifo [] 2 true false)).1, q') /\ abstracts 8 q' (Fifo [14] 2 true false).
Proof.
  apply (ks_q_refines_fifo 8
    [CTryPush 11; CTryPush 12; CTryPush 13; CTryPop; CTryPush 14; CTryPop; CSize; CTryPeek]
    (ks_q_create 2) (Fifo [] 2 true false)).
  - vm_compute; discriminate.
  - split; [apply q_create_holds; lia|done].
  - vm_compute; discriminate.
Defined.

(** Destroying an active queue hands every value to the flush callback,
    oldest first, when one is set, and drops them when none is; either way every
    node goes back to the pool exactly once. *)
Lemma ks_q_destroy_frees cap q vs :
  cap <= SIZE_MAX -> holds cap q vs -> q.(active) = true ->
  ks_q_destroy q = Ok (match q.(flush_fn) with Some _ => vs | None => [] end, ∅).
Proof.
  intros Hcap Hq Ha. unfold ks_q_destroy, ks_q_flush. rewrite Ha. cbn [negb].
  destruct (holds_len cap q _ Hq) as [El _]. destruct (flush_fn q) as [fn|]; cbn -[flush_loop cleanup_teardown].
  - destruct (flush_loop_holds cap Hcap vs q (S (Z.to_nat (len q))) Hq Ha) as (q1 & -> & Hq1 & Hc1 & _);
      [rewrite El; unfold zlen; lia|].
    cbn -[cleanup_teardown]. erewrite (teardown_holds cap Hcap); [|eapply holds_ctl; [exact Hq1|done..]].
    cbn. by rewrite app_nil_r.
  - erewrite (teardown_holds cap Hcap); [done|]. eapply holds_ctl; [exact Hq|done..].
Qed.

Lemma ks_q_destroy_frees_witness :
  let q := MkQ {[1%positive := QNode 7 (Some 3%positive) None; 2%positive := QNode 0 None None;
                 3%positive := QNode 9 None (Some 1%positive)]}
    (Some 5) 0 2 4 0 0 (Some 1%positive) (Some 3%positive) (Some 2%positive) true in
  ks_q_destroy q = Ok ([7; 9], ∅).
Proof.
  intros q. apply (ks_q_destroy_frees 3 q [7; 9]).
  - vm_compute; discriminate.
  - exists [(1%positive, 7); (3%positive, 9)], [2%positive].
    split; [repeat split|split; [reflexivity|vm_compute; discriminate]].
    apply (bool_decide_unpack _). reflexivity.
  - reflexivity.
Defined.

(** ** Threads

    A thread runs one critical section at a time under [list_mutex]; between
    sections it is at one of these points. A waiter knows whether a signal has
    reached it; it may also wake without one. *)

Inductive pc : Set :=
  | Idle
  | PushWait (ptr : Z) (signalled : bool)
  | PopWait (timed : bool) (signalled : bool)
  | TermWake
  | Flushing
  | EmptyWait.

Record world := World { w_q : ks_q; w_thr : list pc; w_pushed : list Z; w_popped : list Z; w_lost : Z }.

Definition waits_on (c : cond) (s : bool) (p : pc) : bool :=
  match c, p with
  | PushCond, PushWait _ s' | PopCond, PopWait _ s' => Bool.eqb s s'
  | _, _ => false
  end.
Definition is_term (p : pc) : bool := match p with TermWake => true | _ => false end.

Definition set_signalled (p : pc) : pc :=
  match p with
  | PushWait v _ => PushWait v true
  | PopWait t _ => PopWait t true
  | p => p
  end.

(** [ks_cond_signal]: one waiter that no signal has reached yet, if there is one. *)
Definition signal (c : cond) (thr thr' : list pc) : Prop :=
  (exists t p, thr !! t = Some p /\ waits_on c false p = true /\ thr' = <[t := set_signalled p]> thr) \/
  (Forall (fun p => waits_on c false p = false) thr /\ thr' = thr).

Definition signals (cs : list cond) (thr thr' : list pc) : Prop :=
  match cs with
  | [] => thr' = thr
  | c :: _ => signal c thr thr'
  end.

(** [ks_cond_broadcast] on both conditions. *)
Definition broadcast (thr : list pc) : list pc := map set_signalled thr.

Definition log_push (st : ks_status_t) (v : Z) (l : list Z) : list Z :=
  if bool_decide (st = KS_STATUS_SUCCESS) then l ++ [v] else l.
Definition log_pop (v : option Z) (l : list Z) : list Z := l ++ option_list v.

Section Step.
Variable cap : Z.

(** What a thread can do next; [w_pushed] and [w_popped] record the values of
    the successful calls in the order of their critical sections. A wait that times
    out may consume a signal sent to it at the same time, as
    [pthread_cond_timedwait] is allowed to; [w_lost] counts these signals. *)
Inductive step (w : world) : world -> Prop :=
  | step_trypush t v st sg q thr :
    w.(w_thr) !! t = Some Idle -> ks_q_trypush cap w.(w_q) v = Ok (st, sg, q) ->
    signals sg w.(w_thr) thr ->
    step w (World q thr (log_push st v w.(w_pushed)) w.(w_popped) w.(w_lost))
  | step_push t v st sg q thr :
    w.(w_thr) !! t = Some Idle -> ks_q_push cap w.(w_q) v = Ok (Return (st, sg, q)) ->
    signals sg w.(w_thr) thr ->
    step w (World q thr (log_push st v w.(w_pushed)) w.(w_popped) w.(w_lost))
  | step_push_wait t v q :
    w.(w_thr) !! t = Some Idle -> ks_q_push cap w.(w_q) v = Ok (Wait q) ->
    step w (World q (<[t := PushWait v false]> w.(w_thr)) w.(w_pushed) w.(w_popped) w.(w_lost))
  | step_push_resume t v s st sg q thr :
    w.(w_thr) !! t = Some (PushWait v s) -> ks_q_push_resume cap w.(w_q) v = Ok (st, sg, q) ->
    signals sg (<[t := Idle]> w.(w_thr)) thr ->
    step w (World q thr (log_push st v w.(w_pushed)) w.(w_popped) w.(w_lost))
  | step_trypop t st v sg q thr :
    w.(w_thr) !! t = Some Idle -> ks_q_trypop w.(w_q) = Ok (st, v, sg, q) ->
    signals sg w.(w_thr) thr ->
    step w (World q thr w.(w_pushed) (log_pop v w.(w_popped)) w.(w_lost))
  | step_pop t st v sg q thr :
    w.(w_thr) !! t = Some Idle -> ks_q_pop_timeout w.(w_q) = Ok (Return (st, v, sg, q)) ->
    signals sg w.(w_thr) thr ->
    step w (World q thr w.(w_pushed) (log_pop v w.(w_popped)) w.(w_lost))
  | step_pop_wait t timed q :
    w.(w_thr) !! t = Some Idle -> ks_q_pop_timeout w.(w_q) = Ok (Wait q) ->
    step w (World q (<[t := PopWait timed false]> w.(w_thr)) w.(w_pushed) w.(w_popped) w.(w_lost))
  | step_pop_resume t timed s st v sg q thr :
    w.(w_thr) !! t = Some (PopWait timed s) ->
    ks_q_pop_resume w.(w_q) timed KS_STATUS_SUCCESS = Ok (st, v, sg, q) ->
    signals sg (<[t := Idle]> w.(w_thr)) thr ->
    step w (World q thr w.(w_pushed) (log_pop v w.(w_popped)) w.(w_lost))
  | step_pop_timeout t s r st v sg q thr :
    w.(w_thr) !! t = Some (PopWait true s) -> r <> KS_STATUS_SUCCESS ->
    ks_q_pop_resume w.(w_q) true r = Ok (st, v, sg, q) ->
    signals sg (<[t := Idle]> w.(w_thr)) thr ->
    step w (World q thr w.(w_pushed) (log_pop v w.(w_popped)) (w.(w_lost) + (if s then 1 else 0)))
  | step_set_flush t fn data :
    w.(w_thr) !! t = Some Idle ->
    step w (World (ks_q_set_flush_fn w.(w_q) fn data).2 w.(w_thr) w.(w_pushed) w.(w_popped) w.(w_lost))
  | step_flush t :
    w.(w_thr) !! t = Some Idle -> w.(w_q).(active) = true -> is_Some w.(w_q).(flush_fn) ->
    step w (World w.(w_q) (<[t := Flushing]> w.(w_thr)) w.(w_pushed) w.(w_popped) w.(w_lost))
  | step_flush_pop t st v sg q thr :
    w.(w_thr) !! t = Some Flushing -> ks_q_trypop w.(w_q) = Ok (st, v, sg, q) ->
    signals sg (<[t := if bool_decide (st = KS_STATUS_SUCCESS) then Flushing else Idle]> w.(w_thr)) thr ->
    step w (World q thr w.(w_pushed) (log_pop v w.(w_popped)) w.(w_lost))
  | step_term t st q :
    w.(w_thr) !! t = Some Idle -> ks_q_term w.(w_q) = (st, q) ->
    step w (World q (<[t := if bool_decide (st = KS_STATUS_SUCCESS) then TermWake else Idle]> w.(w_thr))
              w.(w_pushed) w.(w_popped) w.(w_lost))
  | step_term_wake t :
    w.(w_thr) !! t = Some TermWake ->
    step w (World w.(w_q) (broadcast (<[t := Idle]> w.(w_thr))) w.(w_pushed) w.(w_popped) w.(w_lost))
  | step_wake t :
    w.(w_thr) !! t = Some Idle ->
    step w (World w.(w_q) (broadcast w.(w_thr)) w.(w_pushed) w.(w_popped) w.(w_lost))
  | step_wait t :
    w.(w_thr) !! t = Some Idle ->
    step w (World w.(w_q) (<[t := EmptyWait]> w.(w_thr)) w.(w_pushed) w.(w_popped) w.(w_lost))
  | step_wait_turn t :
    w.(w_thr) !! t = Some EmptyWait ->
    step w (World w.(w_q)
              (<[t := match ks_q_wait_turn w.(w_q) with Some _ => Idle | None => EmptyWait end]> w.(w_thr))
              w.(w_pushed) w.(w_popped) w.(w_lost)).
End Step.

(** ** Counting threads *)

Definition b2z (b : bool) : Z := if b then 1 else 0.
Fixpoint cnt (f : pc -> bool) (thr : list pc) : Z :=
  match thr with
  | [] => 0
  | p :: thr => b2z (f p) + cnt f thr
  end.

Lemma cnt_bound f thr : 0 <= cnt f thr <= zlen thr.
Proof. induction thr as [|p thr IH]; simpl; [done|]. rewrite zlen_cons. destruct (f p); simpl; lia. Qed.

Lemma cnt_insert f thr t p p' :
  thr !! t = Some p -> cnt f (<[t := p']> thr) = cnt f thr - b2z (f p) + b2z (f p').
Proof.
  revert t. induction thr as [|a thr IH]; intros [|t] E; simpl in *; simplify_eq; [lia|].
  rewrite (IH t E). lia.
Qed.

Lemma cnt_none f thr : Forall (fun p => f p = false) thr <-> cnt f thr = 0.
Proof.
  induction thr as [|p thr IH]; simpl; [done|]. rewrite Forall_cons, IH.
  pose proof (cnt_bound f thr). destruct (f p); simpl; split; [intros []; done|lia|lia|lia].
Qed.

Lemma cnt_some f thr t p : thr !! t = Some p -> f p = true -> 1 <= cnt f thr.
Proof.
  intros E Hf. pose proof (cnt_bound f thr). assert (cnt f thr <> 0); [|lia].
  rewrite <- cnt_none, Forall_lookup. intros H'. specialize (H' _ _ E). congruence.
Qed.

Lemma cnt_two f g thr :
  (forall p, f p = true -> g p = false) -> cnt f thr + cnt g thr <= zlen thr.
Proof.
  intros H. induction thr as [|p thr IH]; simpl; [done|]. rewrite zlen_cons. specialize (H p).
  destruct (f p); [rewrite H by done|destruct (g p)]; simpl; lia.
Qed.

Definition unsig (c : cond) (thr : list pc) : Z := cnt (waits_on c false) thr.
Definition sig (c : cond) (thr : list pc) : Z := cnt (waits_on c true) thr.

Definition other (c : cond) : cond := match c with PushCond => PopCond | PopCond => PushCond end.

(** What a signal changes. *)
Lemma signal_counts c thr thr' :
  signal c thr thr' ->
  zlen thr' = zlen thr /\ cnt is_term thr' = cnt is_term thr /\
  unsig (other c) thr' = unsig (other c) thr /\ sig (other c) thr' = sig (other c) thr /\
  ((0 < unsig c thr /\ unsig c thr' = unsig c thr - 1 /\ sig c thr' = sig c thr + 1) \/
   (unsig c thr = 0 /\ thr' = thr)).
Proof.
  unfold unsig, sig. intros [(t & p & E & Hw & ->)|[Hn%cnt_none ->]];
    [|do 4 (split; [done|]); by right].
  split; [unfold zlen; by rewrite length_insert|].
  rewrite !(cnt_insert _ _ _ _ _ E). destruct c, p; try discriminate Hw; simpl in *;
    destruct signalled; try discriminate; simpl; repeat split; try lia; left;
    match goal with |- context [cnt ?f thr] => pose proof (cnt_some f thr t _ E eq_refl) end; lia.
Qed.

Lemma broadcast_counts thr c :
  zlen (broadcast thr) = zlen thr /\ cnt is_term (broadcast thr) = cnt is_term thr /\
  unsig c (broadcast thr) = 0 /\ sig c (broadcast thr) = unsig c thr + sig c thr.
Proof.
  unfold unsig, sig, broadcast. split; [unfold zlen; by rewrite length_map|].
  induction thr as [|p thr (IH1 & IH2 & IH3)]; [done|]. simpl. rewrite IH1, IH2, IH3.
  destruct c, p; try destruct signalled; simpl; lia.
Qed.

(** ** The invariant of every interleaving *)

Section Invariant.
Variable cap : Z.
Hypothesis Hcap : cap <= SIZE_MAX.

(** [dp], [dq]: signals whose waiter has left its condition but not yet used
    them, between the wake-up and the end of the same critical section. *)
Record inv (dp dq : Z) (q : ks_q) (thr : list pc) (pushed popped : list Z) : Prop := Inv {
  i_holds : exists vs, holds cap q vs /\ pushed = popped ++ vs;
  i_max : q.(maxlen) <> 0 -> q.(len) <= q.(maxlen);
  i_pushers : q.(pushers) = unsig PushCond thr + sig PushCond thr;
  i_poppers : q.(poppers) = unsig PopCond thr + sig PopCond thr;
  i_thr : zlen thr < 4294967296;
  i_lost : 0 <= dp;
  i_pop : q.(active) = true -> 0 < unsig PopCond thr -> q.(len) <= sig PopCond thr + dp;
  i_push : q.(active) = true -> q.(maxlen) <> 0 -> 0 < unsig PushCond thr ->
           q.(maxlen) - q.(len) <= sig PushCond thr + dq;
  i_term : q.(active) = false ->
           0 < cnt is_term thr \/ (unsig PopCond thr = 0 /\ unsig PushCond thr = 0)
}.

Definition winv (w : world) : Prop := inv w.(w_lost) 0 w.(w_q) w.(w_thr) w.(w_pushed) w.(w_popped).

Ltac cnt_pos := unfold unsig, sig in *; repeat match goal with
  | |- context [cnt ?f ?thr] => lazymatch goal with H : 0 <= cnt f thr <= zlen thr |- _ => fail | _ => pose proof (cnt_bound f thr) end
  | H : context [cnt ?f ?thr] |- _ => lazymatch type of H with 0 <= cnt f thr <= zlen thr => fail | _ =>
      lazymatch goal with H : 0 <= cnt f thr <= zlen thr |- _ => fail | _ => pose proof (cnt_bound f thr) end end
  end.

Ltac act_spec := repeat match goal with
  | H : active ?q = ?b -> _, H' : active ?q = ?b |- _ => specialize (H H') end.

(** The counts are all the invariant asks of the threads. *)
Lemma inv_thr dp dq q thr thr' pu po :
  inv dp dq q thr pu po -> zlen thr' = zlen thr ->
  (forall c s, cnt (waits_on c s) thr' = cnt (waits_on c s) thr) ->
  (q.(active) = false -> cnt is_term thr <= cnt is_term thr') -> inv dp dq q thr' pu po.
Proof.
  intros [] Hz Hc Ht. unfold unsig, sig in *. constructor; unfold unsig, sig; rewrite ?Hz, ?Hc; try done.
  intros Ha. destruct (i_term0 Ha); [left|by right]. specialize (Ht Ha). lia.
Qed.

(** A thread that moves between two points outside the conditions. *)
Lemma inv_move dp dq q thr t p p' pu po :
  inv dp dq q thr pu po -> thr !! t = Some p ->
  (forall c s, waits_on c s p = false /\ waits_on c s p' = false) ->
  (is_term p = true -> is_term p' = true) ->
  inv dp dq q (<[t := p']> thr) pu po.
Proof.
  intros HI E Hw Ht. eapply inv_thr; [exact HI|unfold zlen; by rewrite length_insert|..].
  - intros c s. rewrite (cnt_insert _ _ _ _ _ E). destruct (Hw c s) as [-> ->]. lia.
  - intros _. rewrite (cnt_insert _ _ _ _ _ E). destruct (is_term p); [rewrite Ht by done; lia|].
    simpl. destruct (is_term p'); simpl; lia.
Qed.

(** A waiter that wakes leaves its condition. *)
Lemma inv_leave_push k q thr t v s pu po :
  inv k 0 q thr pu po -> thr !! t = Some (PushWait v s) ->
  inv k 1 (set_pushers (u32 (q.(pushers) - 1)) q) (<[t := Idle]> thr) pu po.
Proof.
  intros [] E. assert (Hz : zlen (<[t:=Idle]> thr) = zlen thr) by (unfold zlen; by rewrite length_insert).
  pose proof (cnt_two (waits_on PushCond false) (waits_on PushCond true) thr) as H2.
  assert (Hw : 1 <= cnt (waits_on PushCond s) thr).
  { eapply cnt_some; [exact E|]. simpl. apply Bool.eqb_reflx. }
  assert (Hu : u32 (q.(pushers) - 1) = q.(pushers) - 1).
  { apply u32_id. cnt_pos. specialize (H2 ltac:(intros []; try destruct signalled; done)).
    destruct s; lia. }
  constructor; q_simpl; rewrite ?Hz; unfold unsig, sig in *; rewrite ?(cnt_insert _ _ _ _ _ E); simpl;
    try done; destruct s; simpl; try lia.
  all: try (destruct i_holds0 as (vs & Hvs & ->); exists vs; split; [by eapply holds_ctl|done]).
  all: intros; act_spec; cnt_pos; lia.
Qed.

Lemma inv_leave_pop k q thr t b s pu po :
  inv k 0 q thr pu po -> thr !! t = Some (PopWait b s) ->
  inv (k + b2z s) 0 (set_poppers (u32 (q.(poppers) - 1)) q) (<[t := Idle]> thr) pu po.
Proof.
  intros [] E. assert (Hz : zlen (<[t:=Idle]> thr) = zlen thr) by (unfold zlen; by rewrite length_insert).
  pose proof (cnt_two (waits_on PopCond false) (waits_on PopCond true) thr) as H2.
  assert (Hw : 1 <= cnt (waits_on PopCond s) thr).
  { eapply cnt_some; [exact E|]. simpl. apply Bool.eqb_reflx. }
  assert (Hu : u32 (q.(poppers) - 1) = q.(poppers) - 1).
  { apply u32_id. cnt_pos. specialize (H2 ltac:(intros []; try destruct signalled; done)).
    destruct s; lia. }
  constructor; q_simpl; rewrite ?Hz; unfold unsig, sig in *; rewrite ?(cnt_insert _ _ _ _ _ E); simpl;
    try done; destruct s; simpl; try lia.
  all: try (destruct i_holds0 as (vs & Hvs & ->); exists vs; split; [by eapply holds_ctl|done]).
  all: intros; act_spec; cnt_pos; lia.
Qed.

(** The signal at the end of a critical section, given what it did to [len]. *)
Lemma signals_counts b c thr thr' :
  signals (if b : bool then [c] else []) thr thr' ->
  zlen thr' = zlen thr /\ cnt is_term thr' = cnt is_term thr /\
  unsig (other c) thr' = unsig (other c) thr /\ sig (other c) thr' = sig (other c) thr /\
  ((b = true /\ 0 < unsig c thr /\ unsig c thr' = unsig c thr - 1 /\ sig c thr' = sig c thr + 1) \/
   ((b = false \/ unsig c thr = 0) /\ unsig c thr' = unsig c thr /\ sig c thr' = sig c thr)).
Proof.
  destruct b; simpl.
  - intros (Hz & Ht & Hu & Hs & [(?&?&?)|[? ->]])%signal_counts; repeat split; try done; [by left|right; auto].
  - intros ->. do 4 (split; [done|]). right. auto.
Qed.

Lemma unsig_nonneg c thr : 0 <= unsig c thr.
Proof. apply cnt_bound. Qed.
Lemma sig_nonneg c thr : 0 <= sig c thr.
Proof. apply cnt_bound. Qed.

Lemma push_tail_inv k d q thr thr' v st sg q' pu po :
  inv k d q thr pu po -> d <= 1 -> queue_full q = false ->
  push_tail cap q v = Ok (st, sg, q') -> signals sg thr thr' ->
  inv k 0 q' thr' (log_push st v pu) po.
Proof.
  intros [] Hd Hfull E Hsg. destruct i_holds0 as (vs & Hq & ->). unfold push_tail in E.
  destruct (active q) eqn:Ha.
  - assert (Hroom : maxlen q <> 0 -> len q < maxlen q).
    { unfold queue_full in Hfull. intros Hm. specialize (i_max0 Hm).
      destruct (Z.eqb_spec (maxlen q) 0), (Z.eqb_spec (len q) (maxlen q)); try done. lia. }
    destruct (do_push_holds cap Hcap q vs v Hq Ha) as [[_ Ep]|(q1 & Ep & Hq1 & Hc & _)];
      rewrite Ep in E; [done|]. cbn in E. injection E as <- <- <-.
    destruct Hc as (_ & _ & Hm & Hps & Hpp & Hact).
    apply holds_len in Hq as [El _]. pose proof (holds_len cap q1 _ Hq1) as [El1 _].
    rewrite zlen_app in El1. change (zlen [v]) with 1 in El1.
    apply signals_counts in Hsg as (Hz & Ht & Hu & Hs & Hcase). simpl in Hu, Hs.
    pose proof (unsig_nonneg PopCond thr). pose proof (sig_nonneg PopCond thr).
    assert (Hcase' : (0 < unsig PopCond thr /\ unsig PopCond thr' = unsig PopCond thr - 1 /\
                      sig PopCond thr' = sig PopCond thr + 1) \/
                     (unsig PopCond thr = 0 /\ unsig PopCond thr' = 0 /\ sig PopCond thr' = sig PopCond thr)).
    { destruct Hcase as [(_&?&?&?)|([Hp|?]&?&?)]; [by left|right|right; lia].
      destruct (Z.eqb_spec (poppers q1) 0); [|done]. lia. }
    constructor; rewrite ?Hz, ?Ht, ?Hu, ?Hs, ?Hact, ?Hm, ?Hps, ?Hpp, ?Ha; try done; try (intros; lia).
    + exists (vs ++ [v]). split; [done|]. unfold log_push. simpl. by rewrite app_assoc.
  - unfold do_push in E. rewrite Ha in E. cbn in E. injection E as <- <- <-.
    apply signals_counts in Hsg as (Hz & Ht & Hu & Hs & Hcase). simpl in Hu, Hs.
    pose proof (unsig_nonneg PopCond thr'). constructor; rewrite ?Hz, ?Ht, ?Hu, ?Hs, ?Ha; try done.
    + by exists vs.
    + lia.
    + intros _. specialize (i_term0 eq_refl). lia.
Qed.

Lemma pop_tail_inv k d q thr thr' st v sg q' pu po :
  inv (k + d) 0 q thr pu po -> 0 <= k -> d <= 1 -> q.(len) <> 0 ->
  pop_tail q = Ok (st, v, sg, q') -> signals sg thr thr' ->
  inv k 0 q' thr' pu (log_pop v po).
Proof.
  intros [] Hk Hd Hlen E Hsg. destruct i_holds0 as (vs & Hq & ->). unfold pop_tail in E.
  destruct (active q) eqn:Ha.
  - pose proof (holds_len cap q vs Hq) as [El _]. destruct vs as [|v0 vs]; [by rewrite El in Hlen|].
    destruct (do_pop_holds cap Hcap q v0 vs Hq Ha) as (q1 & Ep & Hq1 & Hc & _).
    rewrite Ep in E. cbn in E. injection E as <- <- <- <-.
    destruct Hc as (_ & _ & Hm & Hps & Hpp & Hact).
    pose proof (holds_len cap q1 _ Hq1) as [El1 _]. rewrite zlen_cons in El.
    apply signals_counts in Hsg as (Hz & Ht & Hu & Hs & Hcase). simpl in Hu, Hs.
    pose proof (unsig_nonneg PushCond thr). pose proof (sig_nonneg PushCond thr).
    assert (Hcase' : (0 < unsig PushCond thr /\ unsig PushCond thr' = unsig PushCond thr - 1 /\
                      sig PushCond thr' = sig PushCond thr + 1) \/
                     (unsig PushCond thr = 0 /\ unsig PushCond thr' = 0 /\ sig PushCond thr' = sig PushCond thr)).
    { destruct Hcase as [(_&?&?&?)|([Hp|?]&?&?)]; [by left|right|right; lia].
      destruct (Z.eqb_spec (pushers q1) 0); [|done]. lia. }
    constructor; rewrite ?Hz, ?Ht, ?Hu, ?Hs, ?Hact, ?Hm, ?Hps, ?Hpp, ?Ha; try done; try (intros; lia).
    + exists vs. split; [done|]. unfold log_pop. simpl. by rewrite <- app_assoc.
  - unfold do_pop in E. rewrite Ha in E. cbn in E. injection E as <- <- <- <-.
    apply signals_counts in Hsg as (Hz & Ht & Hu & Hs & Hcase). simpl in Hu, Hs.
    pose proof (unsig_nonneg PushCond thr'). constructor; rewrite ?Hz, ?Ht, ?Hu, ?Hs, ?Ha; try done.
    + exists vs. split; [done|]. unfold log_pop. simpl. by rewrite app_nil_r.
    + lia.
    + intros _. specialize (i_term0 eq_refl). lia.
Qed.

(** Nothing is owed when the waiter that left finds its condition false. *)
Lemma inv_settle_push k q thr pu po :
  inv k 1 q thr pu po -> queue_full q = true -> inv k 0 q thr pu po.
Proof.
  intros [] Hf. constructor; try done. intros _ Hm _. unfold queue_full in Hf.
  destruct (Z.eqb_spec (len q) (maxlen q)); [|by rewrite andb_false_r in Hf].
  pose proof (sig_nonneg PushCond thr). lia.
Qed.

Lemma inv_settle_pop k d q thr pu po :
  inv (k + d) 0 q thr pu po -> 0 <= k -> q.(len) = 0 -> inv k 0 q thr pu po.
Proof.
  intros [] Hl. constructor; try done. intros _ _. pose proof (sig_nonneg PopCond thr). lia.
Qed.

Lemma inv_trypop k q thr thr' st v sg q' pu po :
  inv k 0 q thr pu po -> ks_q_trypop q = Ok (st, v, sg, q') -> signals sg thr thr' ->
  inv k 0 q' thr' pu (log_pop v po).
Proof.
  intros HI E Hsg. unfold ks_q_trypop in E.
  assert (Hsame : forall st', Ok (st', None, [], q) = Ok (st, v, sg, q') -> inv k 0 q' thr' pu (log_pop v po)).
  { intros st' [= -> <- <- <-]. simpl in Hsg. subst thr'. unfold log_pop. simpl. by rewrite app_nil_r. }
  destruct (negb (active q)); [by eapply Hsame|].
  destruct (Z.eqb_spec (len q) 0); [by eapply Hsame|]. destruct HI. eapply (pop_tail_inv k 0); [rewrite Z.add_0_r; by constructor|done|lia|done|done|done].
Qed.

(** The count of new waiters. *)
Lemma u32_succ_cnt n thr (f g : pc -> bool) :
  n = cnt f thr + cnt g thr -> zlen thr < 4294967296 ->
  (forall p, f p = true -> g p = false) -> forall t, thr !! t = Some Idle -> f Idle = false -> g Idle = false ->
  u32 (n + 1) = n + 1.
Proof.
  intros -> Hz Hfg t E Hf Hg. apply u32_id. pose proof (cnt_bound f thr). pose proof (cnt_bound g thr).
  pose proof (cnt_two f (fun p => g p || match p with Idle => true | _ => false end) thr) as H2.
  assert (Hor : cnt (fun p => g p || match p with Idle => true | _ => false end) thr >= cnt g thr + 1).
  { clear -E Hg. revert t E. induction thr as [|a thr IH]; intros [|t] E; simpl in *; simplify_eq.
    - rewrite Hg. simpl. assert (forall l, cnt (fun p => g p || match p with Idle => true | _ => false end) l >= cnt g l).
      { induction l as [|b l IHl]; simpl; [lia|]. destruct (g b), b; simpl; lia. }
      specialize (H thr). lia.
    - specialize (IH t E). destruct (g a), a; simpl; lia. }
  assert (forall p, f p = true -> g p || match p with Idle => true | _ => false end = false).
  { intros p Hp. rewrite (Hfg p Hp). simpl. destruct p; congruence. }
  specialize (H2 H1). lia.
Qed.

Lemma inv_wait_push k q thr t v pu po :
  inv k 0 q thr pu po -> thr !! t = Some Idle -> q.(active) = true -> queue_full q = true ->
  inv k 0 (set_pushers (u32 (q.(pushers) + 1)) q) (<[t := PushWait v false]> thr) pu po.
Proof.
  intros [] E Ha Hf.
  assert (Hz : zlen (<[t:=PushWait v false]> thr) = zlen thr) by (unfold zlen; by rewrite length_insert).
  assert (Hu : u32 (q.(pushers) + 1) = q.(pushers) + 1).
  { eapply u32_succ_cnt; [exact i_pushers0|done| |exact E|done|done]. intros []; try destruct signalled; done. }
  unfold queue_full in Hf.
  constructor; q_simpl; rewrite ?Hz; unfold unsig, sig in *; rewrite ?(cnt_insert _ _ _ _ _ E); simpl;
    try done; try lia.
  - intros _; act_spec. lia.
  - intros _ Hm _. destruct (Z.eqb_spec (len q) (maxlen q)); [|by rewrite andb_false_r in Hf].
    pose proof (sig_nonneg PushCond thr). unfold sig in *. lia.
  - congruence.
Qed.

Lemma inv_wait_pop k q thr t b pu po :
  inv k 0 q thr pu po -> thr !! t = Some Idle -> q.(active) = true -> q.(len) = 0 ->
  inv k 0 (set_poppers (u32 (q.(poppers) + 1)) q) (<[t := PopWait b false]> thr) pu po.
Proof.
  intros [] E Ha Hf.
  assert (Hz : zlen (<[t:=PopWait b false]> thr) = zlen thr) by (unfold zlen; by rewrite length_insert).
  assert (Hu : u32 (q.(poppers) + 1) = q.(poppers) + 1).
  { eapply u32_succ_cnt; [exact i_poppers0|done| |exact E|done|done]. intros []; try destruct signalled; done. }
  constructor; q_simpl; rewrite ?Hz; unfold unsig, sig in *; rewrite ?(cnt_insert _ _ _ _ _ E); simpl;
    try done; try lia.
  - intros _ _. pose proof (sig_nonneg PopCond thr). unfold sig in *. lia.
  - intros _ Hm. act_spec. specialize (i_push0 Hm). lia.
  - congruence.
Qed.

Lemma inv_broadcast k q thr pu po : inv k 0 q thr pu po -> inv k 0 q (broadcast thr) pu po.
Proof.
  intros []. destruct (broadcast_counts thr PushCond) as (Hz & Ht & Hu1 & Hs1).
  destruct (broadcast_counts thr PopCond) as (_ & _ & Hu2 & Hs2).
  constructor; rewrite ?Hz, ?Hu1, ?Hs1, ?Hu2, ?Hs2; try done; try lia.
Qed.

Lemma inv_broadcast_term k q thr t pu po :
  inv k 0 q thr pu po -> thr !! t = Some TermWake -> inv k 0 q (broadcast (<[t := Idle]> thr)) pu po.
Proof.
  intros [] E.
  destruct (broadcast_counts (<[t := Idle]> thr) PushCond) as (Hz & Ht & Hu1 & Hs1).
  destruct (broadcast_counts (<[t := Idle]> thr) PopCond) as (_ & _ & Hu2 & Hs2).
  assert (Hz1 : zlen (<[t:=Idle]> thr) = zlen thr) by (unfold zlen; by rewrite length_insert).
  unfold unsig, sig in *. rewrite (cnt_insert _ _ _ _ _ E), (cnt_insert (waits_on _ true) _ _ _ _ E) in Hs1.
  rewrite (cnt_insert _ _ _ _ _ E), (cnt_insert (waits_on _ true) _ _ _ _ E) in Hs2. simpl in Hs1, Hs2.
  constructor; unfold unsig, sig; rewrite ?Hz, ?Hu1, ?Hs1, ?Hu2, ?Hs2; try done; try lia.
Qed.

Lemma inv_term k q thr t pu po :
  inv k 0 q thr pu po -> thr !! t = Some Idle ->
  inv k 0 (set_active false q)
    (<[t := if bool_decide ((ks_q_term q).1 = KS_STATUS_SUCCESS) then TermWake else Idle]> thr) pu po.
Proof.
  intros [] E. set (p := if bool_decide _ then _ else _).
  assert (Hp : p = if active q then TermWake else Idle) by (unfold p, ks_q_term; by destruct (active q)).
  clearbody p. subst p. assert (Hz : forall p, zlen (<[t:=p]> thr) = zlen thr)
    by (intros; unfold zlen; by rewrite length_insert).
  constructor; q_simpl; rewrite ?Hz; unfold unsig, sig in *; rewrite ?(cnt_insert _ _ _ _ _ E); simpl; try done.
  - destruct (active q); simpl; lia.
  - destruct (active q); simpl; lia.
  - intros _. destruct (active q); simpl; [left; pose proof (cnt_bound is_term thr); lia|].
    specialize (i_term0 eq_refl). lia.
Qed.

Lemma inv_push_call k q thr thr' v st sg q' pu po :
  inv k 0 q thr pu po -> ks_q_trypush cap q v = Ok (st, sg, q') -> signals sg thr thr' ->
  inv k 0 q' thr' (log_push st v pu) po.
Proof.
  intros HI E Hsg. unfold ks_q_trypush in E.
  assert (Hsame : forall st', st' <> KS_STATUS_SUCCESS ->
    Ok (st', [], q) = Ok (st, sg, q') -> inv k 0 q' thr' (log_push st v pu) po).
  { intros st' Hst [= -> <- <-]. simpl in Hsg. subst thr'. unfold log_push. by rewrite bool_decide_eq_false_2. }
  destruct (negb (active q)); [by eapply Hsame; [|exact E]|].
  destruct (queue_full q) eqn:Hf; [by eapply Hsame; [|exact E]|]. by eapply (push_tail_inv k 0).
Qed.

Lemma step_inv w w' : winv w -> step cap w w' -> winv w'.
Proof.
  unfold winv. intros HI Hst. destruct Hst as
    [t v st sg q thr E Ec Hs | t v st sg q thr E Ec Hs | t v q E Ec | t v s st sg q thr E Ec Hs
    | t st v sg q thr E Ec Hs | t st v sg q thr E Ec Hs | t timed q E Ec | t timed s st v sg q thr E Ec Hs
    | t s r st v sg q thr E Hr Ec Hs | t fn data E | t E Ha Hfn | t st v sg q thr E Ec Hs | t st q E Ec
    | t E | t E | t E | t E]; cbn [w_q w_thr w_pushed w_popped w_lost] in *.
  - by eapply inv_push_call.
  - eapply inv_push_call; [exact HI| |exact Hs]. unfold ks_q_push in Ec. unfold ks_q_trypush.
    destruct (negb (active _)); [by injection Ec as <- <- <-|].
    destruct (queue_full _); [done|]. destruct (push_tail _ _ _); simpl in Ec; by simplify_eq.
  - unfold ks_q_push in Ec. destruct (active (w_q w)) eqn:Ha; [|done]. cbn [negb] in Ec.
    destruct (queue_full (w_q w)) eqn:Hf; [|destruct (push_tail _ _ _); discriminate].
    injection Ec as <-. by apply inv_wait_push.
  - pose proof (inv_leave_push _ _ _ _ _ _ _ _ HI E) as HL. unfold ks_q_push_resume in Ec.
    destruct (queue_full _) eqn:Hf.
    + injection Ec as <- <- <-. simpl in Hs. subst thr. apply (inv_settle_push _ _ _ _ _ HL) in Hf.
      destruct (active _); done.
    + by eapply (push_tail_inv _ 1).
  - by eapply inv_trypop.
  - eapply inv_trypop; [exact HI| |exact Hs]. unfold ks_q_pop_timeout in Ec. unfold ks_q_trypop.
    destruct (negb (active _)); [by injection Ec as <- <- <- <-|].
    destruct (len _ =? 0); [done|]. destruct (pop_tail _); simpl in Ec; by simplify_eq.
  - unfold ks_q_pop_timeout in Ec. destruct (active (w_q w)) eqn:Ha; [|done]. cbn [negb] in Ec.
    destruct (Z.eqb_spec (len (w_q w)) 0); [|destruct (pop_tail _); discriminate].
    injection Ec as <-. by apply inv_wait_pop.
  - pose proof (inv_leave_pop _ _ _ _ _ _ _ _ HI E) as HL. unfold ks_q_pop_resume in Ec.
    rewrite andb_false_r in Ec. destruct (Z.eqb_spec (len (set_poppers (u32 (poppers (w_q w) - 1)) (w_q w))) 0) as [Hl|Hl].
    + injection Ec as <- <- <- <-. simpl in Hs. subst thr.
      unfold log_pop. simpl. rewrite app_nil_r. eapply inv_settle_pop; [exact HL|by destruct HI|done].
    + eapply pop_tail_inv; [exact HL|by destruct HI|destruct s; simpl; lia|done|exact Ec|done].
  - pose proof (inv_leave_pop _ _ _ _ _ _ _ _ HI E) as HL. unfold ks_q_pop_resume in Ec.
    rewrite bool_decide_eq_false_2 in Ec by done. cbn in Ec. injection Ec as <- <- <- <-.
    simpl in Hs. subst thr. unfold log_pop. simpl. rewrite app_nil_r. by destruct s.
  - unfold ks_q_set_flush_fn. destruct (negb (active _)); [done|]. destruct HI. constructor; done.
  - eapply inv_move; [exact HI|exact E|by intros []|done].
  - eapply inv_trypop; [|exact Ec|exact Hs]. eapply inv_move; [exact HI|exact E| |done].
    intros c s. case_bool_decide; by destruct c.
  - assert (q = set_active false (w_q w)) as -> by (unfold ks_q_term in Ec; congruence).
    replace st with (ks_q_term (w_q w)).1 by (by rewrite Ec). by apply inv_term.
  - (* the wake-up of ks_q_term *)
    apply (inv_broadcast_term _ _ _ t); done.
  - by apply inv_broadcast.
  - eapply inv_move; [exact HI|exact E|by intros []|done].
  - eapply inv_move; [exact HI|exact E| |done]. intros c s. case_match; by destruct c.
Qed.
End Invariant.


Definition init_world (mx : Z) (n : nat) : world := World (ks_q_create mx) (replicate n Idle) [] [] 0.

Lemma cnt_replicate f n p : f p = false -> cnt f (replicate n p) = 0.
Proof. intros Hf. induction n as [|n IH]; simpl; [done|]. by rewrite Hf. Qed.

Lemma init_winv cap mx n :
  0 <= cap -> 0 <= mx -> Z.of_nat n < 4294967296 -> winv cap (init_world mx n).
Proof.
  intros Hcap Hmx Hn. unfold winv, init_world. cbn [w_q w_thr w_pushed w_popped w_lost].
  constructor; unfold unsig, sig; rewrite ?cnt_replicate by done; try done.
  - exists []. split; [by apply q_create_holds|done].
  - by rewrite zlen_replicate.
Qed.

Lemma reachable_winv cap mx n w :
  0 <= cap <= SIZE_MAX -> 0 <= mx -> Z.of_nat n < 4294967296 ->
  steps (step cap) (init_world mx n) w -> winv cap w.
Proof.
  intros [Hc Hc'] Hmx Hn. apply steps_invariant; [|by apply init_winv].
  intros a b. by apply step_inv.
Qed.

(** No section of any call faults; a push may stop at the assertion when the pool
    has no node left ([cap] of them are in the queue and its free list). *)
Definition served (cap : Z) {A} (q : ks_q) (r : res A) : Prop :=
  is_ok r = true \/ (r = Err Aborted /\ cap <= Z.of_nat (size q.(heap))).
Definition calls_safe (cap : Z) (q : ks_q) : Prop :=
  is_ok (ks_q_trypop q) = true /\ is_ok (ks_q_trypeek q) = true /\ is_ok (ks_q_pop_timeout q) = true /\
  (forall timed r, is_ok (ks_q_pop_resume q timed r) = true) /\
  (forall v, served cap q (ks_q_trypush cap q v)) /\ (forall v, served cap q (ks_q_push cap q v)) /\
  (forall v, served cap q (ks_q_push_resume cap q v)).

Lemma pop_tail_safe cap q vs : cap <= SIZE_MAX -> holds cap q vs -> q.(len) <> 0 -> is_ok (pop_tail q) = true.
Proof.
  intros Hc Hq Hl. unfold pop_tail. destruct (active q) eqn:Ha; [|unfold do_pop; by rewrite Ha].
  destruct vs as [|v vs]; [by rewrite (proj1 (holds_len cap _ _ Hq)) in Hl|].
  by destruct (do_pop_holds cap Hc q v vs Hq Ha) as (q1 & -> & _).
Qed.
Lemma push_tail_safe cap q vs v : cap <= SIZE_MAX -> holds cap q vs -> served cap q (push_tail cap q v).
Proof.
  intros Hc Hq. unfold push_tail. destruct (active q) eqn:Ha; [|left; unfold do_push; by rewrite Ha].
  destruct (do_push_holds cap Hc q vs v Hq Ha) as [[Hs ->]|(q1 & -> & _)]; [by right|by left].
Qed.

Lemma holds_safe cap q vs : cap <= SIZE_MAX -> holds cap q vs -> calls_safe cap q.
Proof.
  intros Hc Hq. assert (Hpop : q.(len) <> 0 -> is_ok (pop_tail q) = true) by (by eapply pop_tail_safe).
  assert (Hpush : forall v, served cap q (push_tail cap q v)) by (intros; by eapply push_tail_safe).
  split; [|split; [|split; [|split; [|split; [|split]]]]].
  - unfold ks_q_trypop. destruct (negb _); [done|]. destruct (Z.eqb_spec (len q) 0); auto.
  - unfold ks_q_trypeek. destruct (active q) eqn:Ha; [|done]. cbn [negb]. destruct (Z.eqb_spec (len q) 0) as [|Hl]; [done|].
    destruct vs as [|v vs]; [by rewrite (proj1 (holds_len cap _ _ Hq)) in Hl|]. by rewrite (do_peek_holds cap q v vs Hq Ha).
  - unfold ks_q_pop_timeout. destruct (negb _); [done|]. destruct (Z.eqb_spec (len q) 0) as [|Hl]; [done|]. by destruct (pop_tail q); [|specialize (Hpop Hl)].
  - intros timed r. unfold ks_q_pop_resume. destruct (_ && _); [done|].
    set (q' := set_poppers (u32 (poppers q - 1)) q). destruct (Z.eqb_spec (len q') 0) as [|Hl]; [done|].
    apply (pop_tail_safe cap q' vs); [done|by eapply holds_ctl|done].
  - intros v. unfold ks_q_trypush. destruct (negb _); [by left|]. destruct (queue_full q); [by left|done].
  - intros v. unfold ks_q_push. destruct (negb _); [by left|]. destruct (queue_full q); [by left|].
    destruct (Hpush v) as [H|[-> H]]; [left; by destruct (push_tail _ _ _)|by right].
  - intros v. unfold ks_q_push_resume. destruct (queue_full _); [by left|].
    apply (push_tail_safe cap (set_pushers (u32 (pushers q - 1)) q) vs v Hc). by eapply holds_ctl.
Qed.


Lemma push_step cap w v q' :
  w.(w_thr) !! 0%nat = Some Idle -> ks_q_trypush cap w.(w_q) v = Ok (KS_STATUS_SUCCESS, [], q') ->
  step cap w (World q' w.(w_thr) (w.(w_pushed) ++ [v]) w.(w_popped) w.(w_lost)).
Proof. intros Ht E. exact (step_trypush cap w 0 v KS_STATUS_SUCCESS [] q' w.(w_thr) Ht E eq_refl). Qed.


(** C5: no wake-up is lost but those that time-outs consume. While the queue is
    active and no signal is on its way to a waiter of the condition, a thread
    asleep in a pop means that the queue holds no more values than signals that
    were consumed by waits that timed out at the same time - none, where no wait
    did -, and a thread asleep in a push that the bounded queue is full; once the
    queue is terminated and the terminating thread has sent its wake-ups, every
    waiter has its signal. *)
Theorem ks_q_no_lost_wakeup cap mx n w :
  0 <= cap <= SIZE_MAX -> 0 <= mx -> Z.of_nat n < 4294967296 ->
  steps (step cap) (init_world mx n) w ->
  (w.(w_q).(active) = true -> sig PopCond w.(w_thr) = 0 ->
   forall t b, w.(w_thr) !! t = Some (PopWait b false) -> exists vs, holds cap w.(w_q) vs /\ zlen vs <= w.(w_lost)) /\
  (w.(w_q).(active) = true -> sig PushCond w.(w_thr) = 0 -> w.(w_q).(maxlen) <> 0 ->
   forall t v, w.(w_thr) !! t = Some (PushWait v false) -> w.(w_q).(len) = w.(w_q).(maxlen)) /\
  (w.(w_q).(active) = false -> (forall t, w.(w_thr) !! t <> Some TermWake) ->
   forall t b v, w.(w_thr) !! t <> Some (PopWait b false) /\ w.(w_thr) !! t <> Some (PushWait v false)).
Proof.
  intros Hcap Hmx Hn Hs. pose proof (reachable_winv cap mx n w Hcap Hmx Hn Hs) as [].
  split; [|split].
  - intros Ha Hsig t b E. destruct i_holds0 as (vs & Hq & _). pose proof (holds_len cap _ _ Hq) as [El _].
    pose proof (cnt_some (waits_on PopCond false) _ _ _ E eq_refl) as Hc. unfold unsig in i_pop0.
    specialize (i_pop0 Ha ltac:(lia)). exists vs. split; [done|lia].
  - intros Ha Hsig Hm t v E. pose proof (cnt_some (waits_on PushCond false) _ _ _ E eq_refl) as Hc.
    unfold unsig in i_push0. specialize (i_push0 Ha Hm ltac:(lia)). specialize (i_max0 Hm). lia.
  - intros Ha Hno t b v. destruct (i_term0 Ha) as [Ht|[Hp1 Hp2]].
    + assert (cnt is_term (w_thr w) = 0); [|lia]. apply cnt_none, Forall_lookup.
      intros t' p E. destruct p; try done. by specialize (Hno t').
    + split; intros E.
      * pose proof (cnt_some (waits_on PopCond false) _ _ _ E eq_refl). unfold unsig in Hp1. lia.
      * pose proof (cnt_some (waits_on PushCond false) _ _ _ E eq_refl). unfold unsig in Hp2. lia.
Qed.

Lemma pop_wait_step cap w t timed q' :
  w.(w_thr) !! t = Some Idle -> ks_q_pop w.(w_q) = Ok (Wait q') ->
  step cap w (World q' (<[t := PopWait timed false]> w.(w_thr)) w.(w_pushed) w.(w_popped) w.(w_lost)).
Proof. apply step_pop_wait. Qed.

Lemma ks_q_no_lost_wakeup_witness :
  exists w, steps (step 4) (init_world 2 2) w /\ w.(w_lost) = 0 /\
  (w.(w_q).(active) = true -> sig PopCond w.(w_thr) = 0 ->
   forall t b, w.(w_thr) !! t = Some (PopWait b false) -> exists vs, holds 4 w.(w_q) vs /\ zlen vs <= w.(w_lost)) /\
  (w.(w_q).(active) = true -> sig PushCond w.(w_thr) = 0 -> w.(w_q).(maxlen) <> 0 ->
   forall t v, w.(w_thr) !! t = Some (PushWait v false) -> w.(w_q).(len) = w.(w_q).(maxlen)) /\
  (w.(w_q).(active) = false -> (forall t, w.(w_thr) !! t <> Some TermWake) ->
   forall t b v, w.(w_thr) !! t <> Some (PopWait b false) /\ w.(w_thr) !! t <> Some (PushWait v false)).
Proof.
  assert (Hst : steps (step 4) (init_world 2 2)
    (World (set_poppers 1 (ks_q_create 2)) [PopWait false false; Idle] [] [] 0)).
  { eapply steps_cons; [|apply steps_refl]. apply (pop_wait_step 4 (init_world 2 2) 0 false); reflexivity. }
  eexists. split; [exact Hst|]. split; [reflexivity|].
  exact (ks_q_no_lost_wakeup 4 2 2 _ ltac:(vm_compute; split; discriminate)
    ltac:(discriminate) ltac:(reflexivity) Hst).
Defined.

(** A wake-up that a time-out consumes: [ks_q_pop_timeout] leaves without a look at
    the queue, and the other thread sleeps next to a value. *)
Lemma timeout_takes_signal : exists w, steps (step 4) (init_world 0 3) w /\
  w.(w_thr) = [Idle; PopWait false false; Idle] /\ w.(w_pushed) = [7] /\ w.(w_popped) = [] /\ w.(w_q).(len) = 1.
Proof.
  eexists. split.
  - eapply steps_cons. { apply (step_pop_wait _ _ 0 true); reflexivity. }
    eapply steps_cons. { apply (step_pop_wait _ _ 1 false); reflexivity. }
    eapply steps_cons. { eapply (step_trypush _ _ 2 7); [reflexivity|vm_compute; reflexivity|]. left. exists 0%nat, (PopWait true false). by repeat split. }
    eapply steps_cons. { eapply (step_pop_timeout _ _ 0 true KS_STATUS_TIMEOUT); [reflexivity|discriminate|vm_compute; reflexivity|reflexivity]. }
    apply steps_refl.
  - by repeat split.
Qed.

End Queue.
