(* ===== verification/SimList.v ===== *)
(** Lists (src/src/simclist.c): doubly linked entries between two sentinels, a
    pointer to the middle, and spare entries, as a refinement of a sequence. *)
From S2P Require Import Prelude.
From stdpp Require Import gmap fin_maps fin_sets.
Local Open Scope Z_scope.

Module SimList.

(** ** Data: entries and the users' data by address; a datum [Zpos p] points to the
    block [p], 0 is NULL *)

Record ks_list_entry_s := Entry { data : Z; next : option positive; prev : option positive }.

(** The pool: its entries and blocks of data, and how it answers: [false] refuses. *)
Record pool := Pool { entries : gmap positive ks_list_entry_s; blocks : gmap positive (list Z); serve : list bool }.

(** Functions of the user; they may read the data. *)
Record ks_list_attributes_s := Attrs {
  comparator : option (gmap positive (list Z) -> Z -> Z -> Z);
  seeker : option (gmap positive (list Z) -> Z -> Z -> Z);
  meter : option (gmap positive (list Z) -> Z -> Z);
  copy_data : bool;
  hasher : option (gmap positive (list Z) -> Z -> Z) }.

(** [spareels] is as long as [spareelsnum]. *)
Record ks_list_t := MkList {
  head_sentinel : option positive; tail_sentinel : option positive; mid : option positive; numels : Z; spareels : list positive;
  iter_active : bool; iter_pos : Z; iter_curentry : option positive; attrs : ks_list_attributes_s }.

(** A comparator's [int] times 1 or -1. *)
Definition times (c versus : Z) : res Z :=
  if (-2147483648 <=? c * versus) && (c * versus <=? INT_MAX) then Ok (c * versus) else Err Overflow.

Definition set_mid (m : option positive) (l : ks_list_t) : ks_list_t :=
  MkList l.(head_sentinel) l.(tail_sentinel) m l.(numels) l.(spareels) l.(iter_active) l.(iter_pos) l.(iter_curentry) l.(attrs).
Definition set_numels (n : Z) (l : ks_list_t) : ks_list_t :=
  MkList l.(head_sentinel) l.(tail_sentinel) l.(mid) n l.(spareels) l.(iter_active) l.(iter_pos) l.(iter_curentry) l.(attrs).
Definition set_spareels (s : list positive) (l : ks_list_t) : ks_list_t :=
  MkList l.(head_sentinel) l.(tail_sentinel) l.(mid) l.(numels) s l.(iter_active) l.(iter_pos) l.(iter_curentry) l.(attrs).
Definition set_iter (a : bool) (p : Z) (c : option positive) (l : ks_list_t) : ks_list_t :=
  MkList l.(head_sentinel) l.(tail_sentinel) l.(mid) l.(numels) l.(spareels) a p c l.(attrs).
Definition set_attrs (a : ks_list_attributes_s) (l : ks_list_t) : ks_list_t :=
  MkList l.(head_sentinel) l.(tail_sentinel) l.(mid) l.(numels) l.(spareels) l.(iter_active) l.(iter_pos) l.(iter_curentry) a.

Definition SIMCLIST_MAX_SPARE_ELEMS : nat := 5.

(** ** Pointers *)

Definition deref (p : option positive) (h : pool) : res ks_list_entry_s :=
  match p with
  | None => Err NullDeref
  | Some p => match h.(entries) !! p with Some e => Ok e | None => Err UseAfterFree end
  end.
Definition set_entry (p : option positive) (e : ks_list_entry_s) (h : pool) : pool :=
  match p with Some p => Pool (<[p := e]> h.(entries)) h.(blocks) h.(serve) | None => h end.

Definition get_next (p : option positive) (h : pool) : res (option positive) := e ← deref p h; Ok e.(next).
Definition get_prev (p : option positive) (h : pool) : res (option positive) := e ← deref p h; Ok e.(prev).
Definition get_data (p : option positive) (h : pool) : res Z := e ← deref p h; Ok e.(data).
Definition set_next (p q : option positive) (h : pool) : res pool := e ← deref p h; Ok (set_entry p (Entry e.(data) q e.(prev)) h).
Definition set_prev (p q : option positive) (h : pool) : res pool := e ← deref p h; Ok (set_entry p (Entry e.(data) e.(next) q) h).
Definition set_data (p : option positive) (d : Z) (h : pool) : res pool := e ← deref p h; Ok (set_entry p (Entry d e.(next) e.(prev)) h).

(** [ks_pool_alloc] and [ks_pool_free], of entries and of data. *)
Definition answer (h : pool) : bool * pool :=
  match h.(serve) with
  | b :: r => (b, Pool h.(entries) h.(blocks) r)
  | [] => (true, h)
  end.
Definition alloc_entry (h : pool) : option positive * pool :=
  let '(ok, h) := answer h in
  let p := fresh (dom h.(entries)) in
  if ok : bool then (Some p, set_entry (Some p) (Entry 0 None None) h) else (None, h).
Definition alloc_block (m : list Z) (h : pool) : Z * pool :=
  let '(ok, h) := answer h in
  let p := fresh (dom h.(blocks)) in
  if ok : bool then (Zpos p, Pool h.(entries) (<[p := m]> h.(blocks)) h.(serve)) else (0, h).
Definition free_entry (p : option positive) (h : pool) : res pool :=
  _ ← deref p h; Ok (match p with Some p => Pool (delete p h.(entries)) h.(blocks) h.(serve) | None => h end).
Definition free_block (d : Z) (h : pool) : res pool :=
  match d with
  | Zpos p => match h.(blocks) !! p with Some _ => Ok (Pool h.(entries) (delete p h.(blocks)) h.(serve)) | None => Err UseAfterFree end
  | _ => Err BadArgument
  end.
Definition read_block (d : Z) (n : Z) (h : pool) : res (list Z) :=
  match d with
  | 0 => Err NullDeref
  | Zpos p => match h.(blocks) !! p with Some m => slice m 0 n | None => Err UseAfterFree end
  | _ => Err BadArgument
  end.

(** [k] steps along [next] and along [prev]. *)
Fixpoint forward (k : nat) (p : option positive) (h : pool) : res (option positive) :=
  match k with O => Ok p | S k => q ← get_next p h; forward k q h end.
Fixpoint backward (k : nat) (p : option positive) (h : pool) : res (option positive) :=
  match k with O => Ok p | S k => q ← get_prev p h; backward k q h end.

(** ** The entry at a position: from the head, the middle or the tail, by where a
    quotient of two [float]s is *)

(** A quotient to the nearest integer, half to even. *)
Definition rounded (num den : Z) : Z :=
  let q := num / den in
  let r := num mod den in
  if (2 * r <? den) || ((2 * r =? den) && Z.even q) then q else q + 1.

(** A natural number as a [float]: 24 bits. *)
Definition to_float (n : Z) : Z :=
  if n <? 2 ^ 24 then n else let k := Z.log2 n - 23 in rounded n (2 ^ k) * 2 ^ k.

(** [float] [a / b], [0 < a], [0 < b], as a mantissa and the exponent of the power of 2 under it. *)
Definition fdiv (a b : Z) : Z * Z :=
  let e := 24 + Z.log2 b - Z.log2 a in
  let e := if a * 2 ^ e <? 2 ^ 24 * b then e else e - 1 in
  (rounded (a * 2 ^ e) b, e).

Inductive quarter := First | Second | Third | Fourth.
(** [(float)a / b] is 0, or more than 3/4 (infinite, or NaN, for [b = 0]), or its mantissa says. *)
Definition quarter_of (a b : Z) : quarter :=
  if b =? 0 then Fourth else if a =? 0 then First else
  let '(m, e) := fdiv (to_float a) (to_float b) in
  if 4 * m <=? 2 ^ e then First else if 2 * m <? 2 ^ e then Second else if 4 * m <=? 3 * 2 ^ e then Third else Fourth.

Definition ks_list_findpos (l : ks_list_t) (h : pool) (posstart : Z) : res (option positive) :=
  if (posstart <? -1) || (s32 l.(numels) <? posstart) then Ok None else
  if posstart =? INT_MAX then Err Overflow else
  let i := u32 (l.(numels) - 1) / 2 in
  match quarter_of (posstart + 1) l.(numels) with
  | First => forward (Z.to_nat (posstart + 1)) l.(head_sentinel) h
  | Second => backward (Z.to_nat (i - posstart)) l.(mid) h
  | Third => forward (Z.to_nat (posstart - i)) l.(mid) h
  | Fourth => backward (Z.to_nat (s32 l.(numels) - posstart)) l.(tail_sentinel) h
  end.

(** ** The representation checks, which every call asserts *)

(** [k] turns of the first loop: where it stops, and after how many. *)
Fixpoint check_first (k : nat) (s : option positive) (h : pool) : res (nat * option positive) :=
  match k with
  | O => Ok (O, s)
  | S k =>
    n ← get_next s h;
    match n with
    | None => Ok (O, s)
    | Some _ => p ← get_prev n h;
                if bool_decide (p = s) then '(i, s) ← check_first k n h; Ok (S i, s) else Ok (O, s)
    end
  end.
(** The second loop, up to an end or a wrong reference. *)
Fixpoint check_rest (fuel : nat) (i : Z) (s : option positive) (h : pool) : res (Z * option positive) :=
  match fuel with
  | O => Err NoFuel
  | S fuel =>
    n ← get_next s h;
    match n with
    | None => Ok (i, s)
    | Some _ => p ← get_prev n h;
                if bool_decide (p = s) then check_rest fuel (i + 1) n h else Ok (i, s)
    end
  end.

Definition ks_list_repOk (l : ks_list_t) (h : pool) : res bool :=
  hp ← get_prev l.(head_sentinel) h;
  tn ← get_next l.(tail_sentinel) h;
  hn ← get_next l.(head_sentinel) h;
  tp ← get_prev l.(tail_sentinel) h;
  let ok := bool_decide (l.(head_sentinel) <> None) && bool_decide (l.(tail_sentinel) <> None) &&
            bool_decide (l.(head_sentinel) <> l.(tail_sentinel)) && (bool_decide (hp = None) && bool_decide (tn = None)) &&
            ((0 <? l.(numels)) || (bool_decide (l.(mid) = None) && bool_decide (hn = l.(tail_sentinel)) && bool_decide (tp = l.(head_sentinel)))) &&
            bool_decide (length l.(spareels) <= SIMCLIST_MAX_SPARE_ELEMS)%nat in
  if negb ok then Ok false else
  if 1 <=? l.(numels) then
    let m := s32 (u32 (l.(numels) - 1)) / 2 in
    '(i, s) ← check_first (Z.to_nat (m + 1)) l.(head_sentinel) h;
    let i := Z.of_nat i - 1 in
    if negb ((i =? m) && bool_decide (l.(mid) = s)) then Ok false else
    '(i, s) ← check_rest (S (size h.(entries))) i s h;
    Ok ((i =? s32 l.(numels)) && bool_decide (s = l.(tail_sentinel)))
  else Ok true.

Definition assert_repOk (l : ks_list_t) (h : pool) : res unit := ok ← ks_list_repOk l h; ks_assert ok.

Definition ks_list_attrOk (l : ks_list_t) : bool := negb l.(attrs).(copy_data) || bool_decide (is_Some l.(attrs).(meter)).

(** ** Lists as they are made, and their attributes *)

Definition defaults : ks_list_attributes_s := Attrs None None None false None.

Definition ks_list_create (h : pool) : res (ks_list_t * pool) :=
  let '(head, h) := alloc_entry h in
  let '(tail, h) := alloc_entry h in
  h ← set_next head tail h;
  h ← set_prev tail head h;
  h ← set_next tail None h;
  h ← set_prev head None h;
  h ← set_data tail 0 h;
  h ← set_data head 0 h;
  let l := MkList head tail None 0 [] false 0 None defaults in
  _ ← assert_repOk l h;
  _ ← ks_assert (ks_list_attrOk l);
  Ok (l, h).

(** Setting an attribute returns 0, without a list -1. *)
Definition change_attrs (f : ks_list_attributes_s -> ks_list_attributes_s) (l : option ks_list_t) : res (Z * option ks_list_t) :=
  match l with
  | None => Ok (-1, None)
  | Some l => let l := set_attrs (f l.(attrs)) l in _ ← ks_assert (ks_list_attrOk l); Ok (0, Some l)
  end.
Definition ks_list_attributes_comparator (l : option ks_list_t) f :=
  change_attrs (fun a => Attrs f a.(seeker) a.(meter) a.(copy_data) a.(hasher)) l.
Definition ks_list_attributes_seeker (l : option ks_list_t) f :=
  change_attrs (fun a => Attrs a.(comparator) f a.(meter) a.(copy_data) a.(hasher)) l.
Definition ks_list_attributes_copy (l : option ks_list_t) (metric_fun : option (gmap positive (list Z) -> Z -> Z)) (copy : bool) :=
  if bool_decide (metric_fun = None) && copy then Ok (-1, l)
  else change_attrs (fun a => Attrs a.(comparator) a.(seeker) metric_fun copy a.(hasher)) l.
Definition ks_list_attributes_hash_computer (l : option ks_list_t) f :=
  change_attrs (fun a => Attrs a.(comparator) a.(seeker) a.(meter) a.(copy_data) f) l.

(** ** Entries in and out *)

(** [ks_list_drop_elem]: 0, or -1 without an entry; [numels] is the count before. *)
Definition ks_list_drop_elem (l : ks_list_t) (tmp : option positive) (pos : Z) (h : pool) : res (Z * ks_list_t * pool) :=
  match tmp with
  | None => Ok (-1, l, h)
  | Some p =>
    mid ← (if Z.odd l.(numels) then
             if l.(numels) =? 1 then Ok None else if l.(numels) / 2 <=? pos then get_prev l.(mid) h else Ok l.(mid)
           else if pos <? l.(numels) / 2 then get_next l.(mid) h else Ok l.(mid));
    e ← deref tmp h;
    h ← set_next e.(prev) e.(next) h;
    e ← deref tmp h;
    h ← set_prev e.(next) e.(prev) h;
    d ← get_data tmp h;
    h ← (if l.(attrs).(copy_data) && negb (d =? 0) then h ← free_block d h; set_data tmp 0 h else Ok h);
    let l := set_mid mid l in
    if bool_decide (length l.(spareels) < SIMCLIST_MAX_SPARE_ELEMS)%nat then Ok (0, set_spareels (l.(spareels) ++ [p]) l, h)
    else h ← free_entry tmp h; Ok (0, l, h)
  end.

(** A spare entry, or a new one. *)
Definition take_entry (l : ks_list_t) (h : pool) : res (positive * ks_list_t * pool) :=
  match last l.(spareels) with
  | Some p => Ok (p, set_spareels (take (length l.(spareels) - 1) l.(spareels)) l, h)
  | None => match alloc_entry h with
            | (Some p, h) => Ok (p, l, h)
            | (None, _) => Err AssertFail
            end
  end.

(** The datum of a new entry: the user's, or a copy of it. *)
Definition keep_data (l : ks_list_t) (d : Z) (h : pool) : res (Z * pool) :=
  if l.(attrs).(copy_data) then
    match l.(attrs).(meter) with
    | None => Err NullDeref
    | Some meter =>
      let datalen := meter h.(blocks) d in
      match alloc_block (replicate (Z.to_nat datalen) 0) h with
      | (Zpos p, h) => m ← read_block d datalen h; Ok (Zpos p, Pool h.(entries) (<[p := m]> h.(blocks)) h.(serve))
      | _ => Err NullDeref
      end
    end
  else Ok (d, h).

Definition ks_list_insert_at (l : ks_list_t) (d pos : Z) (h : pool) : res (Z * ks_list_t * pool) :=
  if l.(iter_active) || (l.(numels) <? pos) then Ok (-1, l, h) else
  '(lent, l, h) ← take_entry l h;
  '(d, h) ← keep_data l d h;
  h ← set_data (Some lent) d h;
  prec ← ks_list_findpos l h (s32 (u32 (pos - 1)));
  succ ← get_next prec h;
  h ← set_next prec (Some lent) h;
  h ← set_prev (Some lent) prec h;
  h ← set_next (Some lent) succ h;
  h ← set_prev succ (Some lent) h;
  let l := set_numels (u32 (l.(numels) + 1)) l in
  mid ← (if l.(numels) =? 1 then Ok (Some lent)
         else if Z.odd l.(numels) then (if u32 (l.(numels) - 1) / 2 <=? pos then get_next l.(mid) h else Ok l.(mid))
         else (if pos <=? u32 (l.(numels) - 1) / 2 then get_prev l.(mid) h else Ok l.(mid)));
  let l := set_mid mid l in
  _ ← assert_repOk l h;
  Ok (1, l, h).
Definition ks_list_append (l : ks_list_t) (d : Z) (h : pool) := ks_list_insert_at l d l.(numels) h.
Definition ks_list_prepend (l : ks_list_t) (d : Z) (h : pool) := ks_list_insert_at l d 0 h.

(** What [ks_list_extract_at] and [ks_list_delete_at] do once they hold the lock. *)
Definition extract_locked (l : ks_list_t) (pos : Z) (h : pool) : res (Z * ks_list_t * pool) :=
  tmp ← ks_list_findpos l h (s32 pos);
  data ← get_data tmp h;
  h ← set_data tmp 0 h;
  '(_, l, h) ← ks_list_drop_elem l tmp pos h;
  let l := set_numels (u32 (l.(numels) - 1)) l in
  _ ← assert_repOk l h;
  Ok (data, l, h).
Definition ks_list_extract_at (l : ks_list_t) (pos : Z) (h : pool) : res (Z * ks_list_t * pool) :=
  if l.(iter_active) || (l.(numels) <=? pos) then Ok (0, l, h) else extract_locked l pos h.
Definition ks_list_fetch (l : ks_list_t) (h : pool) := ks_list_extract_at l 0 h.

Definition delete_locked (l : ks_list_t) (pos : Z) (h : pool) : res (Z * ks_list_t * pool) :=
  delendo ← ks_list_findpos l h (s32 pos);
  '(_, l, h) ← ks_list_drop_elem l delendo pos h;
  let l := set_numels (u32 (l.(numels) - 1)) l in
  _ ← assert_repOk l h;
  Ok (0, l, h).
Definition ks_list_delete_at (l : ks_list_t) (pos : Z) (h : pool) : res (Z * ks_list_t * pool) :=
  if l.(iter_active) || (l.(numels) <=? pos) then Ok (-1, l, h) else delete_locked l pos h.

Definition ks_list_delete_iterator (l : ks_list_t) (h : pool) : res (Z * ks_list_t * pool) :=
  if negb l.(iter_active) || (l.(numels) <? l.(iter_pos)) then Ok (-1, l, h)
  else delete_locked l (u32 (l.(iter_pos) - 1)) h.

(** ** Searching *)

(** The loops over the entries from [el] on: the first that [f] accepts, and where
    the loop ends, with the number of turns. *)
Fixpoint search (fuel : nat) (f : Z -> bool) (el stop : option positive) (pos : Z) (h : pool) : res (option positive * Z) :=
  match fuel with
  | O => Err NoFuel
  | S fuel =>
    if bool_decide (el = stop) then Ok (el, pos) else
    e ← deref el h;
    if f e.(data) then Ok (el, pos) else search fuel f e.(next) stop (pos + 1) h
  end.
Definition entry_fuel (h : pool) : nat := S (size h.(entries)).

Definition ks_list_locate (l : ks_list_t) (d : Z) (h : pool) : res Z :=
  first ← get_next l.(head_sentinel) h;
  let f := match l.(attrs).(comparator) with
           | Some cmp => fun x => cmp h.(blocks) d x =? 0
           | None => fun x => x =? d
           end in
  '(el, pos) ← search (entry_fuel h) f first l.(tail_sentinel) 0 h;
  if bool_decide (el = l.(tail_sentinel)) then Ok (-1) else Ok (s32 pos).
Definition ks_list_contains (l : ks_list_t) (d : Z) (h : pool) : res bool := pos ← ks_list_locate l d h; Ok (0 <=? pos).

Definition ks_list_seek (l : ks_list_t) (indicator : Z) (h : pool) : res Z :=
  match l.(attrs).(seeker) with
  | None => Ok 0
  | Some seeker =>
    first ← get_next l.(head_sentinel) h;
    '(el, _) ← search (entry_fuel h) (fun x => negb (seeker h.(blocks) x indicator =? 0)) first l.(tail_sentinel) 0 h;
    if bool_decide (el = l.(tail_sentinel)) then Ok 0 else get_data el h
  end.

(** The best datum so far, over the entries from [s] on. *)
Fixpoint minmax_loop (fuel : nat) (cmp : Z -> Z -> Z) (versus curminmax : Z) (s stop : option positive) (h : pool) : res Z :=
  match fuel with
  | O => Err NoFuel
  | S fuel =>
    if bool_decide (s = stop) then Ok curminmax else
    e ← deref s h;
    c ← times (cmp curminmax e.(data)) versus;
    minmax_loop fuel cmp versus (if 0 <? c then e.(data) else curminmax) e.(next) stop h
  end.
Definition ks_list_get_minmax (l : ks_list_t) (versus : Z) (h : pool) : res Z :=
  match l.(attrs).(comparator) with
  | None => Ok 0
  | Some cmp =>
    if l.(numels) =? 0 then Ok 0 else
    first ← get_next l.(head_sentinel) h;
    e ← deref first h;
    minmax_loop (entry_fuel h) (cmp h.(blocks)) versus e.(data) e.(next) l.(tail_sentinel) h
  end.
Definition ks_list_get_max (l : ks_list_t) (h : pool) := ks_list_get_minmax l 1 h.
Definition ks_list_get_min (l : ks_list_t) (h : pool) := ks_list_get_minmax l (-1) h.

Definition ks_list_get_at (l : ks_list_t) (pos : Z) (h : pool) : res Z :=
  tmp ← ks_list_findpos l h (s32 pos);
  match tmp with None => Ok 0 | Some _ => get_data tmp h end.
Definition ks_list_size (l : ks_list_t) : Z := l.(numels).
Definition ks_list_empty (l : ks_list_t) : bool := l.(numels) =? 0.

Definition ks_list_delete (l : ks_list_t) (d : Z) (h : pool) : res (Z * ks_list_t * pool) :=
  pos ← ks_list_locate l d h;
  '(ret, l, h) ← (if pos <? 0 then Ok (-1, l, h) else '(r, l, h) ← ks_list_delete_at l pos h; Ok (if r <? 0 then -1 else 0, l, h));
  _ ← assert_repOk l h;
  Ok (ret, l, h).

(** ** Ranges *)

(** Into the spares, or freed; with [data], the copied datum first. *)
Definition drop_data (copy : bool) (tmp : option positive) (h : pool) : res pool :=
  d ← (if copy then get_data tmp h else Ok 0);
  if d =? 0 then Ok h else h ← free_block d h; set_data tmp 0 h.

Fixpoint drop_range (k : nat) (copy : bool) (tmp : option positive) (spares : list positive) (h : pool) : res (option positive * list positive * pool) :=
  match k with
  | O => Ok (tmp, spares, h)
  | S k =>
    n ← get_next tmp h;
    h ← drop_data copy tmp h;
    match tmp with
    | None => Err NullDeref
    | Some p =>
      if bool_decide (length spares < SIMCLIST_MAX_SPARE_ELEMS)%nat then drop_range k copy n (spares ++ [p]) h
      else h ← free_entry tmp h; drop_range k copy n spares h
    end
  end.

(** The first loop of [ks_list_clear]: entries become spares while there is room. *)
Fixpoint clear_spare (fuel : nat) (copy : bool) (s stop : option positive) (spares : list positive) (h : pool) : res (option positive * list positive * pool) :=
  match fuel with
  | O => Err NoFuel
  | S fuel =>
    if bool_decide (length spares < SIMCLIST_MAX_SPARE_ELEMS)%nat && bool_decide (s <> stop) then
      h ← drop_data copy s h;
      match s with
      | None => Err NullDeref
      | Some p => n ← get_next s h; clear_spare fuel copy n stop (spares ++ [p]) h
      end
    else Ok (s, spares, h)
  end.
(** The second: the others are freed through [s->next->prev], which becomes NULL. *)
Fixpoint clear_free (fuel : nat) (copy : bool) (s stop : option positive) (h : pool) : res pool :=
  match fuel with
  | O => Err NoFuel
  | S fuel =>
    if bool_decide (s = stop) then Ok h else
    h ← drop_data copy s h;
    n ← get_next s h;
    p ← get_prev n h;
    h ← free_entry p h;
    h ← set_prev n None h;
    clear_free fuel copy n stop h
  end.

(** What is done under the lock, which the call takes first. *)
Definition ks_list_clear (l : ks_list_t) (h : pool) : res (Z * ks_list_t * pool) :=
  if l.(iter_active) then _ ← assert_repOk l h; Ok (-1, l, h) else
  let copy := l.(attrs).(copy_data) in
  first ← get_next l.(head_sentinel) h;
  '(s, spares, h) ← clear_spare (entry_fuel h) copy first l.(tail_sentinel) l.(spareels) h;
  h ← clear_free (entry_fuel h) copy s l.(tail_sentinel) h;
  h ← set_next l.(head_sentinel) l.(tail_sentinel) h;
  h ← set_prev l.(tail_sentinel) l.(head_sentinel) h;
  let numels := s32 l.(numels) in
  let l := set_mid None (set_numels 0 (set_spareels spares l)) in
  _ ← assert_repOk l h;
  Ok (numels, l, h).

Definition ks_list_delete_range (l : ks_list_t) (posstart posend : Z) (h : pool) : res (Z * ks_list_t * pool) :=
  if l.(iter_active) || (posend <? posstart) || (l.(numels) <=? posend) then Ok (-1, l, h) else
  let numdel := u32 (posend - posstart + 1) in
  if numdel =? l.(numels) then ks_list_clear l h else
  tmp ← ks_list_findpos l h (s32 posstart);
  lastvalid ← get_prev tmp h;
  let midposafter := u32 (l.(numels) - 1 - numdel) / 2 in
  let midposafter := if midposafter <? posstart then midposafter else u32 (midposafter + numdel) in
  let movedx := s32 (u32 (midposafter - u32 (l.(numels) - 1) / 2)) in
  mid ← (if 0 <? movedx then forward (Z.to_nat movedx) l.(mid) h else backward (Z.to_nat (- movedx)) l.(mid) h);
  _ ← ks_assert ((posstart =? 0) || bool_decide (lastvalid <> l.(head_sentinel)));
  '(tmp, spares, h) ← drop_range (Z.to_nat numdel) l.(attrs).(copy_data) tmp l.(spareels) h;
  _ ← ks_assert (negb (posend =? l.(numels)) || bool_decide (tmp = l.(tail_sentinel)));
  h ← set_next lastvalid tmp h;
  h ← set_prev tmp lastvalid h;
  let l := set_mid mid (set_spareels spares (set_numels (u32 (l.(numels) - u32 (posend - posstart + 1))) l)) in
  _ ← assert_repOk l h;
  Ok (s32 numdel, l, h).

(** ** Iteration *)

Definition ks_list_iterator_start (l : ks_list_t) (h : pool) : res (Z * ks_list_t) :=
  if l.(iter_active) then Ok (0, l) else
  first ← get_next l.(head_sentinel) h; Ok (1, set_iter true 0 first l).
Definition ks_list_iterator_next (l : ks_list_t) (h : pool) : res (Z * ks_list_t) :=
  if negb l.(iter_active) then Ok (0, l) else
  e ← deref l.(iter_curentry) h; Ok (e.(data), set_iter true (u32 (l.(iter_pos) + 1)) e.(next) l).
Definition ks_list_iterator_hasnext (l : ks_list_t) : bool := l.(iter_active) && (l.(iter_pos) <? l.(numels)).
Definition ks_list_iterator_stop (l : ks_list_t) : Z * ks_list_t :=
  if negb l.(iter_active) then (0, l) else (1, set_iter false 0 l.(iter_curentry) l).

(** ** Concatenation, hashes, and the end of a list *)

(** Copies of the entries from [srcel] on, behind [el]. *)
Fixpoint copy_entries (fuel : nat) (srcel stop el : option positive) (h : pool) : res (option positive * pool) :=
  match fuel with
  | O => Err NoFuel
  | S fuel =>
    if bool_decide (srcel = stop) then Ok (el, h) else
    let '(p, h) := alloc_entry h in
    h ← set_next el p h;
    h ← set_prev p el h;
    e ← deref srcel h;
    h ← set_data p e.(data) h;
    copy_entries fuel e.(next) stop p h
  end.

(** [dest] is another list than [l1] and [l2]. *)
Definition ks_list_concat (l1 l2 dest : ks_list_t) (h : pool) : res (Z * ks_list_t * pool) :=
  let n := u32 (l1.(numels) + l2.(numels)) in
  let dest := set_numels n dest in
  '(dest, h) ← (if n =? 0 then Ok (dest, h) else
    first ← get_next l1.(head_sentinel) h;
    '(el, h) ← copy_entries (entry_fuel h) first l1.(tail_sentinel) dest.(head_sentinel) h;
    let mid := el in
    first ← get_next l2.(head_sentinel) h;
    '(el, h) ← copy_entries (entry_fuel h) first l2.(tail_sentinel) el h;
    h ← set_next el dest.(tail_sentinel) h;
    h ← set_prev dest.(tail_sentinel) el h;
    let err := s32 (u32 (l2.(numels) - l1.(numels))) in
    mid ← (if 0 <? Z.quot (err + 1) 2 then forward (Z.to_nat (Z.quot (err + 1) 2)) mid h
           else if Z.quot err 2 <? 0 then backward (Z.to_nat (Z.quot (- err) 2)) mid h else Ok mid);
    Ok (set_mid mid dest, h));
  ok1 ← ks_list_repOk l1 h;
  ok2 ← (if ok1 then ks_list_repOk l2 h else Ok false);
  ok ← (if ok1 && ok2 then ks_list_repOk dest h else Ok true);
  _ ← ks_assert ok;
  Ok (0, dest, h).

(** Signed arithmetic of [int32_t]: an overflow has no meaning. *)
Definition add_s32 (a b : Z) : res Z :=
  if (-2147483648 <=? a + b) && (a + b <=? INT_MAX) then Ok (a + b) else Err Overflow.
Fixpoint hash_loop (fuel : nat) (hasher : Z -> Z) (n tmphash : Z) (x stop : option positive) (h : pool) : res Z :=
  match fuel with
  | O => Err NoFuel
  | S fuel =>
    if bool_decide (x = stop) then Ok tmphash else
    e ← deref x h;
    tmphash ← add_s32 tmphash (Z.lxor tmphash (hasher e.(data)));
    hash_loop fuel hasher n (s32 (u32 (u32 tmphash + u32 tmphash mod n))) e.(next) stop h
  end.
(** The result and what is stored at [*hash]. *)
Definition ks_list_hash (l : ks_list_t) (h : pool) : res (Z * Z) :=
  let tmphash := s32 (u32 (l.(numels) * 2 + 100)) in
  match l.(attrs).(hasher) with
  | None => Ok (-1, tmphash)
  | Some hasher =>
    first ← get_next l.(head_sentinel) h;
    t ← hash_loop (entry_fuel h) (hasher h.(blocks)) l.(numels) tmphash first l.(tail_sentinel) h;
    Ok (0, t)
  end.

Fixpoint free_all (ps : list positive) (h : pool) : res pool :=
  match ps with [] => Ok h | p :: ps => h ← free_entry (Some p) h; free_all ps h end.
(** [ks_list_destroy], with the cleanup the pool calls. *)
Definition ks_list_cleanup (l : ks_list_t) (h : pool) : res pool :=
  '(_, l, h) ← ks_list_clear l h;
  h ← free_all l.(spareels) h;
  h ← free_entry l.(head_sentinel) h;
  free_entry l.(tail_sentinel) h.
Definition ks_list_destroy (l : option ks_list_t) (h : pool) : res (ks_status_t * pool) :=
  match l with
  | None => Ok (KS_STATUS_FAIL, h)
  | Some l => h ← ks_list_cleanup l h; Ok (KS_STATUS_SUCCESS, h)
  end.

(** ** The entry at a position *)

Lemma rounded_least num den k : 0 < den -> k * den <= num -> k <= rounded num den.
Proof.
  intros Hd H. unfold rounded. assert (k <= num / den) by (apply Z.div_le_lower_bound; lia). destruct (_ || _); lia.
Qed.

Lemma rounded_most num den k : 0 < den -> num <= k * den -> rounded num den <= k.
Proof.
  intros Hd H. unfold rounded. pose proof (Z.div_mod num den ltac:(lia)) as E. pose proof (Z.mod_pos_bound num den Hd) as Hm.
  destruct (Z.eq_dec (num / den) k) as [Ek|Ek].
  - assert (num mod den = 0) by nia. rewrite H0. destruct (Z.ltb_spec (2 * 0) den); [cbn [orb]; lia|lia].
  - assert (num / den < k) by nia. destruct (_ || _); lia.
Qed.

(** Whether a quotient is below one half does not depend on its rounding, below 2^24. *)
Lemma fdiv_half a b m e : 0 < a -> 0 < b <= 2 ^ 24 -> a <= 2 * b -> fdiv a b = (m, e) -> (2 * m <? 2 ^ e) = (2 * a <? b).
Proof.
  intros Ha Hb Hab. unfold fdiv. set (e0 := 24 + Z.log2 b - Z.log2 a).
  pose proof (Z.log2_spec a Ha) as [Ha1 Ha2]. pose proof (Z.log2_spec b ltac:(lia)) as [Hb1 Hb2]. pose proof (Z.log2_nonneg a). pose proof (Z.log2_nonneg b).
  assert (Hlog : Z.log2 a <= Z.log2 b + 1). { replace (Z.log2 b + 1) with (Z.log2 (2 * b)) by (rewrite Z.log2_double by lia; lia). apply Z.log2_le_mono. lia. }
  assert (He0 : 23 <= e0) by (unfold e0; lia).
  assert (Hlow : 2 ^ 23 * b <= a * 2 ^ e0).
  { apply Z.le_trans with (2 ^ Z.log2 a * 2 ^ e0); [|apply Z.mul_le_mono_nonneg_r; lia]. rewrite <- Z.pow_add_r by lia.
    replace (Z.log2 a + e0) with (23 + Z.succ (Z.log2 b)) by (unfold e0; lia). rewrite Z.pow_add_r by lia. apply Z.mul_le_mono_nonneg_l; lia. }
  set (e1 := if a * 2 ^ e0 <? 2 ^ 24 * b then e0 else e0 - 1).
  assert (He1 : 22 <= e1) by (unfold e1; destruct (_ <? _); lia).
  assert (Hlow1 : 2 ^ 23 * b <= a * 2 ^ e1).
  { unfold e1. destruct (Z.ltb_spec (a * 2 ^ e0) (2 ^ 24 * b)); [done|]. replace e0 with (e0 - 1 + 1) in H1 by lia. rewrite Z.pow_add_r in H1 by lia. change (2 ^ 24) with (2 * 2 ^ 23) in H1. lia. }
  intros [= <- <-]. assert (Hp : 2 ^ e1 = 2 * 2 ^ (e1 - 1)) by (rewrite <- (Z.pow_succ_r 2 (e1 - 1)) by lia; f_equal; lia).
  pose proof (Z.pow_pos_nonneg 2 (e1 - 1) ltac:(lia) ltac:(lia)) as Hpos. destruct (Z.ltb_spec (2 * a) b).
  - assert (H24 : 24 <= e1 - 1).
    { assert (2 ^ 23 < 2 ^ (e1 - 1)); [|assert (23 < e1 - 1) by (apply (Z.pow_lt_mono_r_iff 2); lia); lia]. nia. }
    pose proof (Z.pow_le_mono_r 2 24 (e1 - 1) ltac:(lia) H24).
    assert (rounded (a * 2 ^ e1) b <= 2 ^ (e1 - 1) - 1) by (apply rounded_most; [lia|]; rewrite Hp; nia). apply Z.ltb_lt. lia.
  - assert (2 ^ (e1 - 1) <= rounded (a * 2 ^ e1) b) by (apply rounded_least; [lia|]; rewrite Hp; nia). apply Z.ltb_ge. lia.
Qed.

Lemma to_float_exact n : n <= 2 ^ 24 -> to_float n = n.
Proof. intros H. unfold to_float. destruct (Z.ltb_spec n (2 ^ 24)); [done|]. replace n with (2 ^ 24) by lia. reflexivity. Qed.

(** The middle is on the right side of the position. *)
Lemma quarter_half a b : 0 <= a -> 0 <= b < 2 ^ 24 -> a <= b + 1 ->
  match quarter_of a b with Second => 2 * a < b | Third => b <= 2 * a /\ 0 < b | First => True | Fourth => True end.
Proof.
  intros Ha Hb Hab. unfold quarter_of. destruct (Z.eqb_spec b 0); [done|]. destruct (Z.eqb_spec a 0); [done|].
  rewrite !to_float_exact by lia. destruct (fdiv a b) as [m e] eqn:E. apply fdiv_half in E; [|lia..].
  destruct (4 * m <=? 2 ^ e); [done|]. rewrite E. destruct (Z.ltb_spec (2 * a) b); [done|]. destruct (4 * m <=? 3 * 2 ^ e); [lia|done].
Qed.

(** ** Chains of entries: their addresses and data, between [pp] and [qn] *)

Definition head_of (C : list (positive * Z)) (qn : option positive) : option positive := match C with (p, _) :: _ => Some p | [] => qn end.
Definition end_of (C : list (positive * Z)) (pp : option positive) : option positive := match last C with Some (p, _) => Some p | None => pp end.
Fixpoint dll (pp : option positive) (C : list (positive * Z)) (qn : option positive) (m : gmap positive ks_list_entry_s) : Prop :=
  match C with
  | [] => True
  | (p, d) :: C => m !! p = Some (Entry d (head_of C qn) pp) /\ dll (Some p) C qn m
  end.
(** The address at an index, and before it. *)
Definition at_ (C : list (positive * Z)) (i : nat) : option positive := fst <$> C !! i.
Definition before (C : list (positive * Z)) (i : nat) : option positive := match i with O => None | S j => at_ C j end.

Lemma head_of_app C1 C2 q : head_of (C1 ++ C2) q = head_of C1 (head_of C2 q).
Proof. by destruct C1 as [|[]]. Qed.
Lemma end_of_cons p d C pp : end_of ((p, d) :: C) pp = end_of C (Some p).
Proof. unfold end_of. rewrite last_cons. by destruct (last C) as [[]|]. Qed.
Lemma end_of_app C1 C2 p : end_of (C1 ++ C2) p = end_of C2 (end_of C1 p).
Proof. unfold end_of. rewrite last_app. by destruct (last C2) as [[]|]. Qed.

Lemma dll_app C1 C2 pp qn m : dll pp (C1 ++ C2) qn m <-> dll pp C1 (head_of C2 qn) m /\ dll (end_of C1 pp) C2 qn m.
Proof.
  revert pp. induction C1 as [|[p d] C1 IH]; intros pp; cbn [dll app]; [change (end_of [] pp) with pp; tauto|].
  rewrite head_of_app, IH, end_of_cons. tauto.
Qed.

Lemma dll_agree C pp qn m m' : dll pp C qn m -> Forall (fun x => m' !! x.1 = m !! x.1) C -> dll pp C qn m'.
Proof.
  revert pp. induction C as [|[p d] C IH]; intros pp; cbn [dll]; [done|]. intros [H1 H2] [E HC]%Forall_cons. cbn in E. rewrite E. split; [done|by apply IH].
Qed.

(** Between two entries that stay, anything may change. *)
Lemma dll_splice A p dp M M' q dq B m m' :
  dll None (A ++ (p, dp) :: M ++ (q, dq) :: B) None m ->
  Forall (fun x => m' !! x.1 = m !! x.1) A -> Forall (fun x => m' !! x.1 = m !! x.1) B ->
  m' !! p = Some (Entry dp (head_of M' (Some q)) (end_of A None)) ->
  m' !! q = Some (Entry dq (head_of B None) (end_of M' (Some p))) ->
  dll (Some p) M' (Some q) m' -> dll None (A ++ (p, dp) :: M' ++ (q, dq) :: B) None m'.
Proof.
  rewrite !dll_app. cbn [dll]. rewrite !head_of_app, !dll_app. cbn [dll head_of]. intros (HA & _ & _ & _ & HB) EA EB Ep Eq HM.
  split; [by eapply dll_agree|]. split; [done|]. split; [done|]. split; [done|]. by eapply dll_agree.
Qed.

Lemma dll_entries C m : forall pp qn, dll pp C qn m -> forall i p d, C !! i = Some (p, d) ->
  m !! p = Some (Entry d (match C !! S i with Some (q, _) => Some q | None => qn end) (match i with O => pp | S j => at_ C j end)).
Proof.
  induction C as [|[p0 d0] C IH]; intros pp qn H i p d Hi; [done|]. destruct H as [H1 H2]. destruct i as [|i].
  - injection Hi as -> ->. rewrite H1. cbn. by destruct C as [|[]].
  - cbn in Hi. rewrite (IH _ _ H2 i p d Hi). cbn. by destruct i.
Qed.

Lemma dll_entry C m i p d : dll None C None m -> C !! i = Some (p, d) -> m !! p = Some (Entry d (at_ C (S i)) (before C i)).
Proof. intros H Hi. rewrite (dll_entries _ _ _ _ H i p d Hi). f_equal. unfold at_. by destruct (C !! S i) as [[]|]. Qed.

Section Walk.
Context (C : list (positive * Z)) (h : pool) (HC : dll None C None h.(entries)).

Lemma at_some i : (i < length C)%nat -> exists p d, C !! i = Some (p, d) /\ at_ C i = Some p.
Proof. intros H. apply lookup_lt_is_Some in H as [[p d] E]. exists p, d. unfold at_. by rewrite E. Qed.

Lemma deref_at i p d : C !! i = Some (p, d) -> deref (at_ C i) h = Ok (Entry d (at_ C (S i)) (before C i)).
Proof. intros E. unfold at_ at 1. rewrite E. cbn. by rewrite (dll_entry _ _ _ _ _ HC E). Qed.

Lemma next_at i : (i < length C)%nat -> get_next (at_ C i) h = Ok (at_ C (S i)).
Proof. intros H. destruct (at_some i H) as (p & d & E & _). unfold get_next. by rewrite (deref_at _ _ _ E). Qed.
Lemma prev_at i : (i < length C)%nat -> get_prev (at_ C i) h = Ok (before C i).
Proof. intros H. destruct (at_some i H) as (p & d & E & _). unfold get_prev. by rewrite (deref_at _ _ _ E). Qed.
Lemma data_at i p d : C !! i = Some (p, d) -> get_data (at_ C i) h = Ok d.
Proof. intros E. unfold get_data. by rewrite (deref_at _ _ _ E). Qed.

Lemma forward_at k : forall i, (i + k <= length C)%nat -> forward k (at_ C i) h = Ok (at_ C (i + k)).
Proof.
  induction k as [|k IH]; intros i H; cbn [forward]; [by rewrite Nat.add_0_r|]. rewrite next_at by lia. cbn [mbind res_bind]. rewrite IH by lia. do 2 f_equal. lia.
Qed.
Lemma backward_at k : forall i, (k <= i < length C)%nat -> backward k (at_ C i) h = Ok (at_ C (i - k)).
Proof.
  induction k as [|k IH]; intros i H; cbn [backward]; [by rewrite Nat.sub_0_r|]. destruct i as [|i]; [lia|]. rewrite prev_at by lia. cbn [mbind res_bind before]. rewrite IH by lia. done.
Qed.

Lemma at_inj i j : NoDup C.*1 -> (i < length C)%nat -> (j < length C)%nat -> at_ C i = at_ C j -> i = j.
Proof.
  intros Hn Hi Hj E. destruct (at_some i Hi) as (p & d & E1 & E2), (at_some j Hj) as (q & d' & E3 & E4). rewrite E2, E4 in E. injection E as ->.
  apply (NoDup_lookup C.*1 i j q Hn); rewrite list_lookup_fmap; [by rewrite E1|by rewrite E3].
Qed.

(** The loops of the representation check go through. *)
Lemma check_first_at k : NoDup C.*1 -> forall i, (i + k < length C)%nat -> check_first k (at_ C i) h = Ok (k, at_ C (i + k)).
Proof.
  intros Hn. induction k as [|k IH]; intros i H; cbn [check_first]; [by rewrite Nat.add_0_r|].
  rewrite next_at by lia. cbn [mbind res_bind]. destruct (at_some (S i)) as (p & d & _ & E); [lia|]. rewrite E at 1. rewrite prev_at by lia. cbn [mbind res_bind before].
  rewrite bool_decide_true by done. rewrite IH by lia. cbn [mbind res_bind]. do 3 f_equal. lia.
Qed.
Lemma check_rest_at fuel : forall i z, (i < length C)%nat -> (length C - i <= fuel)%nat ->
  check_rest fuel z (at_ C i) h = Ok (z + Z.of_nat (length C - 1 - i), at_ C (length C - 1)).
Proof.
  induction fuel as [|fuel IH]; intros i z Hi Hf; [lia|]. cbn [check_rest]. rewrite next_at by done. cbn [mbind res_bind]. destruct (decide (S i < length C)%nat) as [Hs|Hs].
  - destruct (at_some (S i) Hs) as (p & d & _ & E). rewrite E at 1. rewrite prev_at by done. cbn [mbind res_bind before]. rewrite bool_decide_true by done.
    rewrite IH by lia. do 2 f_equal. lia.
  - assert (E : at_ C (S i) = None) by (unfold at_; rewrite lookup_ge_None_2 by lia; done). rewrite E. do 2 f_equal; [lia|f_equal; lia].
Qed.

(** A chain without repetition is no longer than the entries are many. *)
Lemma chain_size : NoDup C.*1 -> (length C <= size h.(entries))%nat.
Proof.
  intros Hn. rewrite <- (length_fmap fst C). rewrite <- size_dom, <- (size_list_to_set (C := gset positive)) by done. apply subseteq_size.
  intros p Hp%elem_of_list_to_set. apply list_elem_of_fmap in Hp as ([q d] & -> & Hq). apply list_elem_of_lookup in Hq as [i Hi].
  apply elem_of_dom. cbn. rewrite (dll_entry _ _ _ _ _ HC Hi). done.
Qed.
End Walk.

(** ** The list [l] in the pool [h]: sentinels, entries [ns], spares; [R] are the
    entries of others. *)

Definition full (hd : positive) (ns : list (positive * Z)) (tl : positive) : list (positive * Z) := (hd, 0) :: ns ++ [(tl, 0)].
Definition mid_of (ns : list (positive * Z)) : option positive := match length ns with O => None | S k => at_ ns (k / 2)%nat end.
Definition limit : Z := 2 ^ 24.

Record rep (l : ks_list_t) (h : pool) (R : gmap positive ks_list_entry_s) (hd tl : positive) (ns : list (positive * Z)) : Prop := {
  r_head : l.(head_sentinel) = Some hd;
  r_tail : l.(tail_sentinel) = Some tl;
  r_seg : dll None (full hd ns tl) None h.(entries);
  r_nodup : NoDup ((full hd ns tl).*1 ++ l.(spareels));
  r_numels : l.(numels) = zlen ns;
  r_bound : zlen ns < limit;
  r_mid : l.(mid) = mid_of ns;
  r_spares : (length l.(spareels) <= SIMCLIST_MAX_SPARE_ELEMS)%nat;
  r_alloc : Forall (fun p => is_Some (h.(entries) !! p)) l.(spareels);
  r_frame : forall p, p ∉ (full hd ns tl).*1 ++ l.(spareels) -> h.(entries) !! p = R !! p;
  r_foreign : Forall (fun p => R !! p = None) ((full hd ns tl).*1 ++ l.(spareels)) }.

Lemma full_length hd ns tl : length (full hd ns tl) = S (S (length ns)).
Proof. unfold full. cbn. rewrite length_app. cbn. lia. Qed.
Lemma at_full hd ns tl i : at_ (full hd ns tl) i =
  match i with O => Some hd | S i => if decide (i < length ns)%nat then at_ ns i else if decide (i = length ns) then Some tl else None end.
Proof.
  unfold at_, full. destruct i as [|i]; [done|]. change (((hd, 0) :: ns ++ [(tl, 0)]) !! S i) with ((ns ++ [(tl, 0)]) !! i). destruct (decide (i < length ns)%nat); [by rewrite lookup_app_l by done|].
  rewrite lookup_app_r by lia. destruct (decide (i = length ns)) as [->|]; [by rewrite Nat.sub_diag|]. rewrite lookup_ge_None_2 by (cbn; lia). done.
Qed.
Lemma mid_full hd ns tl : mid_of ns = match length ns with O => None | S k => at_ (full hd ns tl) (S (k / 2)) end.
Proof.
  unfold mid_of. destruct (length ns) as [|k] eqn:E; [done|]. rewrite at_full. pose proof (Nat.Div0.div_le_upper_bound k 2 k ltac:(lia)).
  destruct (decide (k / 2 < length ns)%nat); [done|lia].
Qed.

Section Rep.
Context l h R hd tl ns (Hr : rep l h R hd tl ns).
Let F := full hd ns tl.

Lemma rep_nodup : NoDup F.*1.
Proof. pose proof (r_nodup _ _ _ _ _ _ Hr) as H. by apply NoDup_app in H as [H _]. Qed.
Lemma rep_numels : l.(numels) = Z.of_nat (length ns).
Proof. by rewrite (r_numels _ _ _ _ _ _ Hr). Qed.
Lemma rep_bound : Z.of_nat (length ns) < limit.
Proof. pose proof (r_bound _ _ _ _ _ _ Hr) as H. done. Qed.

Lemma findpos_at pos : -1 <= pos <= Z.of_nat (length ns) -> ks_list_findpos l h pos = Ok (at_ F (Z.to_nat (pos + 1))).
Proof.
  intros Hp. pose proof rep_numels as En. pose proof rep_bound as Hb. pose proof (r_seg _ _ _ _ _ _ Hr) as HF. fold F in HF. unfold limit in Hb.
  unfold ks_list_findpos. rewrite En, s32_id by lia. destruct (Z.ltb_spec pos (-1)); [lia|]. destruct (Z.ltb_spec (Z.of_nat (length ns)) pos); [lia|]. cbn [orb].
  destruct (Z.eqb_spec pos INT_MAX) as [->|_]; [unfold INT_MAX in *; lia|]. pose proof (quarter_half (pos + 1) (Z.of_nat (length ns)) ltac:(lia) ltac:(lia) ltac:(lia)) as Hq.
  pose proof (full_length hd ns tl) as HL. fold F in HL.
  assert (Hmid : length ns <> 0%nat -> l.(mid) = at_ F (S ((length ns - 1) / 2)) /\ u32 (Z.of_nat (length ns) - 1) / 2 = Z.of_nat ((length ns - 1) / 2)).
  { intros Hz. rewrite (r_mid _ _ _ _ _ _ Hr), (mid_full hd ns tl). destruct (length ns) as [|k]; [done|]. rewrite Nat.sub_succ, Nat.sub_0_r. split; [done|].
    rewrite u32_id by lia. replace (Z.of_nat (S k) - 1) with (Z.of_nat k) by lia. rewrite Nat2Z.inj_div. done. }
  destruct (quarter_of (pos + 1) (Z.of_nat (length ns))).
  - rewrite (r_head _ _ _ _ _ _ Hr). change (Some hd) with (at_ F 0). rewrite (forward_at F h HF) by lia. done.
  - destruct Hmid as [-> ->]; [lia|]. assert (Z.of_nat ((length ns - 1) / 2) = (Z.of_nat (length ns) - 1) / 2) as Ed by (rewrite Nat2Z.inj_div; f_equal; lia).
    pose proof (Z.div_mod (Z.of_nat (length ns) - 1) 2 ltac:(lia)). pose proof (Z.mod_pos_bound (Z.of_nat (length ns) - 1) 2 ltac:(lia)).
    rewrite (backward_at F h HF) by lia. do 2 f_equal. lia.
  - destruct Hmid as [-> ->]; [lia|]. assert (Z.of_nat ((length ns - 1) / 2) = (Z.of_nat (length ns) - 1) / 2) as Ed by (rewrite Nat2Z.inj_div; f_equal; lia).
    pose proof (Z.div_mod (Z.of_nat (length ns) - 1) 2 ltac:(lia)). pose proof (Z.mod_pos_bound (Z.of_nat (length ns) - 1) 2 ltac:(lia)).
    rewrite (forward_at F h HF) by lia. do 2 f_equal. lia.
  - rewrite (r_tail _ _ _ _ _ _ Hr). assert (Et : Some tl = at_ F (S (length ns))) by (unfold F; rewrite at_full; destruct (decide _); [lia|by destruct (decide _)]). rewrite Et.
    rewrite (backward_at F h HF) by lia. do 2 f_equal. lia.
Qed.

Lemma rep_head : l.(head_sentinel) = at_ F 0.
Proof. by rewrite (r_head _ _ _ _ _ _ Hr). Qed.
Lemma rep_tail : l.(tail_sentinel) = at_ F (S (length ns)).
Proof. rewrite (r_tail _ _ _ _ _ _ Hr). unfold F. rewrite at_full. destruct (decide _); [lia|by destruct (decide _)]. Qed.
Lemma rep_seg : dll None F None h.(entries).
Proof. apply (r_seg _ _ _ _ _ _ Hr). Qed.
Lemma rep_length : length F = S (S (length ns)).
Proof. apply full_length. Qed.
Lemma rep_fuel : (length ns < entry_fuel h)%nat.
Proof. pose proof (chain_size F h rep_seg rep_nodup) as H. pose proof rep_length. unfold entry_fuel. lia. Qed.

Lemma repOk_true : ks_list_repOk l h = Ok true.
Proof.
  pose proof rep_seg as HF. pose proof rep_length as HL. pose proof rep_nodup as Hn. pose proof rep_bound as Hb. unfold limit in Hb.
  unfold ks_list_repOk. rewrite rep_head, rep_tail. rewrite !(prev_at F h HF), !(next_at F h HF) by lia. cbn [mbind res_bind before].
  assert (H0 : at_ F 0 = Some hd) by done. assert (Ht : at_ F (S (length ns)) = Some tl) by (rewrite <- rep_tail; apply (r_tail _ _ _ _ _ _ Hr)).
  assert (He : at_ F (S (S (length ns))) = None) by (unfold at_; rewrite lookup_ge_None_2 by lia; done).
  assert (Hne : at_ F 0 <> at_ F (S (length ns))) by (intros E; apply (at_inj F) in E; [lia|done|lia|lia]).
  rewrite He. rewrite (bool_decide_true (at_ F 0 <> None)) by (rewrite H0; done). rewrite (bool_decide_true (at_ F (S (length ns)) <> None)) by (rewrite Ht; done).
  rewrite (bool_decide_true _ Hne), !(bool_decide_true (None = None)) by done. rewrite (bool_decide_true _ (r_spares _ _ _ _ _ _ Hr)).
  rewrite rep_numels, (r_mid _ _ _ _ _ _ Hr), (mid_full hd ns tl). fold F.
  destruct (length ns) as [|k] eqn:Ek.
  - cbn [Z.of_nat Z.ltb Z.compare orb andb]. rewrite !bool_decide_true by done. done.
  - destruct (Z.ltb_spec 0 (Z.of_nat (S k))); [|lia]. cbn [orb andb negb]. destruct (Z.leb_spec 1 (Z.of_nat (S k))); [|lia].
    assert (Em : s32 (u32 (Z.of_nat (S k) - 1)) / 2 = Z.of_nat (k / 2)).
    { rewrite u32_id by lia. rewrite s32_id by lia. rewrite Nat2Z.inj_div. f_equal. lia. }
    rewrite Em. pose proof (Nat.Div0.div_le_upper_bound k 2 k ltac:(lia)). replace (Z.to_nat (Z.of_nat (k / 2) + 1)) with (S (k / 2)) by lia.
    rewrite (check_first_at F h HF (S (k / 2)) Hn 0) by lia. cbn [mbind res_bind Nat.add]. replace (Z.of_nat (S (k / 2)) - 1) with (Z.of_nat (k / 2)) by lia.
    rewrite Z.eqb_refl, (bool_decide_true (at_ F (S (k / 2)) = at_ F (S (k / 2)))) by done. cbn [andb negb].
    rewrite (check_rest_at F h HF) by (lia || (pose proof (chain_size F h HF Hn); lia)). cbn [mbind res_bind]. rewrite HL, s32_id by lia.
    replace (Z.of_nat (k / 2) + Z.of_nat (S (S (S k)) - 1 - S (k / 2))) with (Z.of_nat (S k)) by lia. rewrite Z.eqb_refl.
    replace (S (S (S k)) - 1)%nat with (S (S k)) by lia. by rewrite bool_decide_true.
Qed.
Lemma assert_rep : assert_repOk l h = Ok tt.
Proof. unfold assert_repOk. by rewrite repOk_true. Qed.

End Rep.

(** ** Insertion *)

Definition served (h : pool) : Prop := h.(serve) = [].
Definition same_pool (h h' : pool) : Prop := h'.(blocks) = h.(blocks) /\ served h'.

(** An entry that belongs to nobody: a spare one, or a new one. *)
Lemma take_entry_ok l h R hd tl ns : rep l h R hd tl ns -> served h ->
  exists p spares h', take_entry l h = Ok (p, set_spareels spares l, h') /\ same_pool h h' /\
    NoDup (p :: (full hd ns tl).*1 ++ spares) /\ is_Some (h'.(entries) !! p) /\ (forall q, q <> p -> h'.(entries) !! q = h.(entries) !! q) /\
    (length spares <= SIMCLIST_MAX_SPARE_ELEMS)%nat /\ Forall (fun p => is_Some (h.(entries) !! p)) spares /\
    Forall (fun p => R !! p = None) (p :: (full hd ns tl).*1 ++ spares) /\
    (forall q, q ∉ p :: (full hd ns tl).*1 ++ spares -> h.(entries) !! q = R !! q).
Proof.
  intros Hr Hs. pose proof (r_nodup _ _ _ _ _ _ Hr) as Hn. pose proof (r_alloc _ _ _ _ _ _ Hr) as Ha. pose proof (r_frame _ _ _ _ _ _ Hr) as Hf.
  pose proof (r_foreign _ _ _ _ _ _ Hr) as Hfo. pose proof (r_spares _ _ _ _ _ _ Hr) as Hl. unfold take_entry.
  destruct l.(spareels) as [|s0 sp _] eqn:Esp using rev_ind.
  - cbn [last]. unfold alloc_entry, answer. rewrite Hs. set (p := fresh (dom h.(entries))).
    assert (Hp : h.(entries) !! p = None) by (apply not_elem_of_dom, is_fresh). rewrite app_nil_r in *.
    assert (HpF : p ∉ (full hd ns tl).*1).
    { intros ([q d] & Eq & Hq)%list_elem_of_fmap. cbn in Eq. apply list_elem_of_lookup in Hq as [i Hi]. pose proof (dll_entry _ _ _ _ _ (r_seg _ _ _ _ _ _ Hr) Hi). congruence. }
    exists p, [], (set_entry (Some p) (Entry 0 None None) h). rewrite app_nil_r. split; [destruct l; cbn in *; subst; done|]. split; [done|]. split; [by constructor|].
    cbn. split; [rewrite lookup_insert_eq; done|]. split; [intros q Hq; by rewrite lookup_insert_ne|]. split; [unfold SIMCLIST_MAX_SPARE_ELEMS; lia|]. split; [constructor|].
    split; [constructor; [|done]; rewrite <- (Hf p HpF); done|]. intros q Hq. apply Hf. intros Hin. apply Hq. by constructor.
  - rewrite last_snoc. exists s0, sp, h. rewrite length_app. cbn [length]. replace (length sp + 1 - 1)%nat with (length sp) by lia. rewrite take_app_length.
    assert (Ep : (full hd ns tl).*1 ++ sp ++ [s0] ≡ₚ s0 :: (full hd ns tl).*1 ++ sp) by (by rewrite app_assoc, Permutation_app_comm).
    split; [done|]. split; [done|]. split; [by rewrite <- Ep|]. apply Forall_app in Ha as [Ha Ha0]. split; [by inversion Ha0|]. split; [done|].
    rewrite length_app in Hl. cbn in Hl. split; [lia|]. split; [done|]. split; [by rewrite <- Ep|]. intros q Hq. apply Hf. by rewrite Ep.
Qed.

Lemma deref_ok p e h : h.(entries) !! p = Some e -> deref (Some p) h = Ok e.
Proof. intros E. unfold deref. by rewrite E. Qed.
Lemma set_next_ok p q e h : h.(entries) !! p = Some e -> set_next (Some p) q h = Ok (set_entry (Some p) (Entry e.(data) q e.(prev)) h).
Proof. intros E. unfold set_next, deref. by rewrite E. Qed.
Lemma set_prev_ok p q e h : h.(entries) !! p = Some e -> set_prev (Some p) q h = Ok (set_entry (Some p) (Entry e.(data) e.(next) q) h).
Proof. intros E. unfold set_prev, deref. by rewrite E. Qed.
Lemma set_data_ok p d e h : h.(entries) !! p = Some e -> set_data (Some p) d h = Ok (set_entry (Some p) (Entry d e.(next) e.(prev)) h).
Proof. intros E. unfold set_data, deref. by rewrite E. Qed.
Lemma lookup_set p e h q : (set_entry (Some p) e h).(entries) !! q = if decide (q = p) then Some e else h.(entries) !! q.
Proof. cbn. destruct (decide (q = p)) as [->|]; [by rewrite lookup_insert_eq|by rewrite lookup_insert_ne]. Qed.

Local Ltac lookup_tac := rewrite !lookup_set; repeat first [rewrite decide_True by done | rewrite decide_False by congruence].

(** A split of a chain at two neighbours. *)
Lemma dll_pair A pa da qa dq B m : dll None (A ++ (pa, da) :: (qa, dq) :: B) None m ->
  m !! pa = Some (Entry da (Some qa) (end_of A None)) /\ m !! qa = Some (Entry dq (head_of B None) (Some pa)).
Proof. rewrite dll_app. cbn. intros (_ & H1 & H2 & _). done. Qed.

Lemma link_in A pa da qa dq B p d e h : dll None (A ++ (pa, da) :: (qa, dq) :: B) None h.(entries) ->
  NoDup (p :: (A ++ (pa, da) :: (qa, dq) :: B).*1) -> h.(entries) !! p = Some e -> e.(data) = d ->
  exists h', (h ← set_next (Some pa) (Some p) h; h ← set_prev (Some p) (Some pa) h; h ← set_next (Some p) (Some qa) h; set_prev (Some qa) (Some p) h) = Ok h' /\
    dll None (A ++ (pa, da) :: [(p, d)] ++ (qa, dq) :: B) None h'.(entries) /\ h'.(blocks) = h.(blocks) /\ h'.(serve) = h.(serve) /\
    (forall r, r <> pa -> r <> p -> r <> qa -> h'.(entries) !! r = h.(entries) !! r) /\ (forall r, is_Some (h.(entries) !! r) -> is_Some (h'.(entries) !! r)).
Proof.
  intros HF Hn Hp Hd. destruct (dll_pair _ _ _ _ _ _ _ HF) as [Epa Eqa].
  rewrite fmap_app in Hn. cbn in Hn. apply NoDup_cons in Hn as [HpF Hn]. apply NoDup_app in Hn as (HnA & HAq & Hn). apply NoDup_cons in Hn as [Hpa Hn]. apply NoDup_cons in Hn as [Hqa HnB].
  assert (Hne : pa <> p /\ qa <> p /\ pa <> qa).
  { split_and!; intros ->; [apply HpF|apply HpF|apply Hpa]; rewrite ?elem_of_app, ?elem_of_cons; auto. }
  destruct Hne as (N1 & N2 & N3).
  rewrite (set_next_ok _ _ _ _ Epa). cbn [mbind res_bind]. erewrite set_prev_ok by (rewrite lookup_set, decide_False by done; exact Hp). cbn [mbind res_bind data next prev].
  erewrite set_next_ok by (rewrite !lookup_set, decide_True by done; reflexivity). cbn [mbind res_bind data next prev].
  erewrite set_prev_ok by (rewrite !lookup_set, !decide_False by done; exact Eqa). cbn [data next prev]. eexists. split; [reflexivity|].
  assert (Hout : forall r, r <> pa -> r <> p -> r <> qa -> forall m', (set_entry (Some qa) m' (set_entry (Some p) (Entry (data e) (Some qa) (Some pa)) (set_entry (Some p) (Entry (data e) (next e) (Some pa)) (set_entry (Some pa) (Entry da (Some p) (end_of A None)) h)))).(entries) !! r = h.(entries) !! r).
  { intros r H1 H2 H3 m'. by rewrite !lookup_set, !decide_False by done. }
  split; [|split; [done|split; [done|split; [intros r ? ? ?; by apply Hout|]]]].
  - eapply (dll_splice A pa da [] [(p, d)] qa dq B); [exact HF| | | | |].
    + apply Forall_forall. intros x Hx%(list_elem_of_fmap_2 fst). pose proof (HAq _ Hx) as Hx2. rewrite !elem_of_cons in Hx2. rewrite elem_of_app, !elem_of_cons in HpF.
      apply Hout; intros E; rewrite E in *; tauto.
    + apply Forall_forall. intros x Hx%(list_elem_of_fmap_2 fst). rewrite elem_of_cons in Hpa. rewrite elem_of_app, !elem_of_cons in HpF.
      apply Hout; intros E; rewrite E in *; tauto.
    + rewrite !lookup_set, !(decide_False (P := pa = _)) by done. by rewrite decide_True.
    + by rewrite !lookup_set, decide_True.
    + cbn [dll head_of]. split; [|done]. rewrite !lookup_set, (decide_False (P := p = qa)), decide_True by done. by rewrite Hd.
  - intros r [x Hx]. rewrite !lookup_set. repeat (destruct (decide _); [done|]). by exists x.
Qed.

Lemma at_insert n1 n2 x i : at_ (n1 ++ x :: n2) i =
  if decide (i < length n1)%nat then at_ (n1 ++ n2) i else if decide (i = length n1) then Some x.1 else at_ (n1 ++ n2) (i - 1).
Proof.
  unfold at_. destruct (decide (i < length n1)%nat); [by rewrite !lookup_app_l by done|]. rewrite !(lookup_app_r n1) by lia.
  destruct (decide (i = length n1)) as [->|]; [by rewrite Nat.sub_diag|]. rewrite lookup_app_r by lia. destruct (i - length n1)%nat as [|k] eqn:E; [lia|].
  replace (i - 1 - length n1)%nat with k by lia. done.
Qed.

Lemma full_inner hd ns tl i : (i < length ns)%nat -> at_ (full hd ns tl) (S i) = at_ ns i.
Proof. intros H. rewrite at_full. by destruct (decide _). Qed.

Lemma odd_nat n : Z.odd (Z.of_nat n) = Nat.odd n.
Proof. induction n as [|n IH]; [done|]. by rewrite Nat2Z.inj_succ, Z.odd_succ, Nat.odd_succ, <- Z.negb_odd, <- Nat.negb_odd, IH. Qed.

(** [mid] after an insertion. *)
Lemma mid_insert n1 n2 p d h hd tl (ns := n1 ++ (p, d) :: n2) : dll None (full hd ns tl) None h.(entries) -> zlen ns < limit ->
  (if zlen ns =? 1 then Ok (Some p)
   else if Z.odd (zlen ns) then (if u32 (zlen ns - 1) / 2 <=? zlen n1 then get_next (mid_of (n1 ++ n2)) h else Ok (mid_of (n1 ++ n2)))
   else (if zlen n1 <=? u32 (zlen ns - 1) / 2 then get_prev (mid_of (n1 ++ n2)) h else Ok (mid_of (n1 ++ n2)))) = Ok (mid_of ns).
Proof.
  intros HF Hb. assert (Hl : length ns = S (length (n1 ++ n2))) by (unfold ns; rewrite !length_app; cbn; lia).
  assert (Hl1 : (length n1 <= length (n1 ++ n2))%nat) by (rewrite length_app; lia). pose proof (full_length hd ns tl) as HL.
  unfold zlen. unfold zlen, limit in Hb. set (n := length (n1 ++ n2)) in *. rewrite Hl. assert (Em : mid_of ns = at_ ns (n / 2)) by (unfold mid_of; by rewrite Hl).
  destruct (Z.eqb_spec (Z.of_nat (S n)) 1) as [E1|E1].
  - rewrite Em. assert (n = 0%nat) as En by lia. rewrite En. cbn. unfold ns. rewrite at_insert. destruct (decide _); [lia|]. by destruct (decide _); [|lia].
  - assert (Eo : mid_of (n1 ++ n2) = at_ (n1 ++ n2) ((n - 1) / 2)) by (unfold mid_of; fold n; destruct n as [|k]; [lia|]; by rewrite Nat.sub_succ, Nat.sub_0_r).
    rewrite Eo, Em. rewrite u32_id by lia. replace (Z.of_nat (S n) - 1) with (Z.of_nat n) by lia.
    assert (Ediv : Z.of_nat n / 2 = Z.of_nat (n / 2)) by (by rewrite Nat2Z.inj_div). rewrite Ediv.
    assert (Hodd : Z.odd (Z.of_nat (S n)) = Nat.even n). { by rewrite odd_nat, Nat.odd_succ. }
    rewrite Hodd. pose proof (Nat.div_mod n 2 ltac:(lia)) as Edm. pose proof (Nat.div_mod (n - 1) 2 ltac:(lia)) as Edm1. pose proof (Nat.mod_upper_bound n 2 ltac:(lia)). pose proof (Nat.mod_upper_bound (n - 1) 2 ltac:(lia)).
    destruct (Nat.even n) eqn:Ev.
    + apply Nat.even_spec in Ev as [m Em2]. assert (Em3 : (n / 2 = m /\ (n - 1) / 2 = m - 1 /\ 1 <= m)%nat) by lia. destruct Em3 as (-> & -> & Hm).
      destruct (Z.leb_spec (Z.of_nat m) (Z.of_nat (length n1))).
      * assert (E : at_ (n1 ++ n2) (m - 1) = at_ (full hd ns tl) m).
        { replace m with (S (m - 1)) at 2 by lia. rewrite full_inner by lia. unfold ns. rewrite at_insert. by destruct (decide (m - 1 < length n1)%nat); [|lia]. }
        rewrite E, (next_at _ h HF) by lia. f_equal. apply full_inner. lia.
      * f_equal. unfold ns. rewrite at_insert. destruct (decide _); [lia|]. by destruct (decide _); [lia|].
    + assert (Ev2 : exists m, n = (2 * m + 1)%nat). { apply Nat.odd_spec. unfold Nat.odd. by rewrite Ev. } destruct Ev2 as [m Em2].
      assert (Em3 : (n / 2 = m /\ (n - 1) / 2 = m)%nat) by lia. destruct Em3 as (-> & ->). destruct (Z.leb_spec (Z.of_nat (length n1)) (Z.of_nat m)).
      * assert (E : at_ (n1 ++ n2) m = at_ (full hd ns tl) (S (S m))).
        { rewrite full_inner by lia. unfold ns. rewrite at_insert. destruct (decide _); [lia|]. destruct (decide _); [lia|]. f_equal. lia. }
        rewrite E, (prev_at _ h HF) by lia. cbn [before]. f_equal. apply full_inner. lia.
      * f_equal. unfold ns. rewrite at_insert. by destruct (decide (m < length n1)%nat); [|lia].
Qed.

(** The two entries around a position. *)
Lemma full_split hd n1 n2 tl : exists A pa da qa dq B, (hd, 0) :: n1 = A ++ [(pa, da)] /\ n2 ++ [(tl, 0)] = (qa, dq) :: B /\
  full hd (n1 ++ n2) tl = A ++ (pa, da) :: (qa, dq) :: B /\ (forall M, full hd (n1 ++ M ++ n2) tl = A ++ (pa, da) :: M ++ (qa, dq) :: B) /\ length A = length n1.
Proof.
  destruct (exists_last (l := (hd, 0) :: n1)) as (A & [pa da] & E1); [done|]. destruct (n2 ++ [(tl, 0)]) as [|[qa dq] B] eqn:E2; [by destruct n2|].
  exists A, pa, da, qa, dq, B. split; [done|]. split; [done|].
  assert (H : forall M, full hd (n1 ++ M ++ n2) tl = A ++ (pa, da) :: M ++ (qa, dq) :: B).
  { intros M. unfold full. rewrite <- app_assoc. change ((hd, 0) :: n1 ++ (M ++ n2) ++ [(tl, 0)]) with (((hd, 0) :: n1) ++ (M ++ n2) ++ [(tl, 0)]). rewrite E1, <- !app_assoc, E2. done. }
  split; [apply (H [])|]. split; [done|]. apply (f_equal length) in E1. rewrite length_app in E1. cbn in E1. lia.
Qed.

Lemma rep_get l h R hd tl ns i p d : rep l h R hd tl ns -> full hd ns tl !! i = Some (p, d) ->
  h.(entries) !! p = Some (Entry d (at_ (full hd ns tl) (S i)) (before (full hd ns tl) i)).
Proof. intros Hr. apply dll_entry, (rep_seg _ _ _ _ _ _ Hr). Qed.

(** A list whose iterator, attributes and sentinels are those of [l]. *)
Definition alike (l l' : ks_list_t) : Prop :=
  l'.(iter_active) = l.(iter_active) /\ l'.(iter_pos) = l.(iter_pos) /\ l'.(iter_curentry) = l.(iter_curentry) /\ l'.(attrs) = l.(attrs).

Lemma insert_ok l h R hd tl n1 n2 d pos : rep l h R hd tl (n1 ++ n2) -> served h -> l.(attrs).(copy_data) = false -> l.(iter_active) = false ->
  zlen n1 = pos -> zlen (n1 ++ n2) + 1 < limit ->
  exists p l' h', ks_list_insert_at l d pos h = Ok (1, l', h') /\ rep l' h' R hd tl (n1 ++ (p, d) :: n2) /\ same_pool h h' /\ alike l l'.
Proof.
  intros Hr Hs Hcopy Hit Hpos Hlim. pose proof (zlen_nonneg n1) as Hn1. pose proof (zlen_nonneg n2) as Hn2. pose proof (zlen_app n1 n2) as Hz. unfold limit in Hlim.
  unfold ks_list_insert_at. rewrite Hit, (r_numels _ _ _ _ _ _ Hr). destruct (Z.ltb_spec (zlen (n1 ++ n2)) pos); [lia|]. cbn [orb].
  destruct (take_entry_ok _ _ _ _ _ _ Hr Hs) as (p & sp & h1 & -> & [Hb1 Hs1] & Hnd & [e He] & Hsame & Hlen & Hal & Hfo & Hfr). cbn [mbind res_bind].
  unfold keep_data. cbn [set_spareels attrs]. rewrite Hcopy. cbn [mbind res_bind]. rewrite (set_data_ok _ _ _ _ He). cbn [mbind res_bind].
  set (e2 := Entry d (next e) (prev e)). set (h2 := set_entry (Some p) e2 h1). set (l1 := set_spareels sp l).
  apply NoDup_cons in Hnd as [HpF Hnd]. apply Forall_cons in Hfo as [HRp Hfo].
  assert (Hh2 : forall q, q <> p -> h2.(entries) !! q = h.(entries) !! q) by (intros q Hq; unfold h2; rewrite lookup_set, decide_False by done; by apply Hsame).
  assert (Hin : forall q, q ∈ (full hd (n1 ++ n2) tl).*1 ++ sp -> q <> p) by (intros q Hq ->; done).
  assert (Hr1 : rep l1 h2 (<[p := e2]> R) hd tl (n1 ++ n2)).
  { destruct Hr. constructor; try done.
    - eapply dll_agree; [exact r_seg0|]. apply Forall_forall. intros x Hx%(list_elem_of_fmap_2 fst). apply Hh2, Hin. apply elem_of_app. by left.
    - apply Forall_forall. intros q Hq. rewrite Hh2 by (apply Hin, elem_of_app; by right). by apply (proj1 (Forall_forall _ _) Hal).
    - intros q Hq. destruct (decide (q = p)) as [->|Hqp]; [unfold h2; rewrite lookup_set, decide_True, lookup_insert_eq by done; done|].
      rewrite Hh2, lookup_insert_ne by done. apply Hfr. rewrite elem_of_cons. tauto.
    - apply Forall_forall. intros q Hq. rewrite lookup_insert_ne by (intros E; symmetry in E; revert E; by apply Hin). by apply (proj1 (Forall_forall _ _) Hfo). }
  assert (Efp : s32 (u32 (pos - 1)) = pos - 1). { unfold u32, s32. destruct (decide (pos = 0)) as [->|]; [done|]. rewrite (Z.mod_small (pos - 1)) by lia. rewrite Z.mod_small by lia. lia. }
  rewrite Efp, (findpos_at _ _ _ _ _ _ Hr1) by (unfold zlen in *; lia). cbn [mbind res_bind]. replace (Z.to_nat (pos - 1 + 1)) with (length n1) by (unfold zlen in *; lia).
  rewrite (next_at _ _ (rep_seg _ _ _ _ _ _ Hr1)) by (rewrite full_length, length_app; lia). cbn [mbind res_bind].
  destruct (full_split hd n1 n2 tl) as (A & pa & da & qa & dq & B & EA & EB & EF & EM & EL).
  assert (E1 : at_ (full hd (n1 ++ n2) tl) (length n1) = Some pa) by (unfold at_; rewrite EF, lookup_app_r, EL, Nat.sub_diag by lia; done).
  assert (E2 : at_ (full hd (n1 ++ n2) tl) (S (length n1)) = Some qa) by (unfold at_; rewrite EF, lookup_app_r, EL by lia; by replace (S (length n1) - length n1)%nat with 1%nat by lia).
  rewrite E1, E2. pose proof (rep_seg _ _ _ _ _ _ Hr1) as HF1. rewrite EF in HF1. pose proof (rep_nodup _ _ _ _ _ _ Hr) as HndF. rewrite EF in HndF.
  assert (HpF1 : p ∉ (A ++ (pa, da) :: (qa, dq) :: B).*1) by (rewrite <- EF; intros Hx; apply HpF, elem_of_app; by left).
  destruct (link_in A pa da qa dq B p d e2 h2 HF1) as (h4 & Elink & Hseg & Hb4 & Hs4 & Hout & Hsome); [by constructor|unfold h2; by rewrite lookup_set, decide_True|done|].
  cbn [mbind res_bind] in Elink.
  destruct (set_next (Some pa) (Some p) h2) as [h3|] eqn:X1; [|done]. cbn [mbind res_bind] in *. destruct (set_prev (Some p) (Some pa) h3) as [h5|] eqn:X2; [|done]. cbn [mbind res_bind] in *.
  destruct (set_next (Some p) (Some qa) h5) as [h6|] eqn:X3; [|done]. cbn [mbind res_bind] in *. rewrite Elink. cbn [mbind res_bind].
  set (ns := n1 ++ (p, d) :: n2). assert (EF' : full hd ns tl = A ++ (pa, da) :: [(p, d)] ++ (qa, dq) :: B) by (apply (EM [(p, d)])). rewrite <- EF' in Hseg.
  assert (Hzn : zlen ns = zlen (n1 ++ n2) + 1) by (unfold ns; rewrite !zlen_app, zlen_cons; lia).
  assert (El : u32 (numels l1 + 1) = zlen ns) by (unfold l1; cbn; rewrite (r_numels _ _ _ _ _ _ Hr), Hzn, u32_id by lia; done).
  rewrite El. cbn [set_numels numels mid]. assert (Em : mid l1 = mid_of (n1 ++ n2)) by apply (r_mid _ _ _ _ _ _ Hr). rewrite Em, <- Hpos.
  pose proof (mid_insert n1 n2 p d h4 hd tl Hseg ltac:(fold ns; unfold limit; lia)) as Hmid. fold ns in Hmid. rewrite Hmid. cbn [mbind res_bind].
  assert (Hperm : (full hd ns tl).*1 ++ sp ≡ₚ p :: (full hd (n1 ++ n2) tl).*1 ++ sp).
  { rewrite EF', EF, !fmap_app. cbn. rewrite <- (Permutation_middle A.*1 (qa :: B.*1) pa), <- (Permutation_middle A.*1 (p :: qa :: B.*1) pa), <- (Permutation_middle A.*1 (qa :: B.*1) p). cbn. apply Permutation_swap. }
  match goal with |- context [assert_repOk ?x h4] => set (l2 := x) end.
  assert (Hr2 : rep l2 h4 R hd tl ns).
  { pose proof (r_head _ _ _ _ _ _ Hr). pose proof (r_tail _ _ _ _ _ _ Hr). constructor; try done.
    - cbn [l2 set_mid set_numels spareels l1 set_spareels]. rewrite Hperm. by constructor.
    - unfold limit. lia.
    - apply Forall_forall. intros q Hq. apply Hsome. destruct (decide (q = p)) as [->|]; [unfold h2; rewrite lookup_set, decide_True by done; done|].
      rewrite Hh2 by done. by apply (proj1 (Forall_forall _ _) Hal).
    - intros q Hq. change (spareels l2) with sp in Hq. rewrite Hperm in Hq. assert (Hq2 := Hq). rewrite EF in Hq. rewrite fmap_app in Hq. cbn in Hq. rewrite !elem_of_cons, !elem_of_app, !elem_of_cons in Hq.
      rewrite Hout by (intros ->; tauto). rewrite Hh2 by tauto. by apply Hfr.
    - cbn [l2 set_mid set_numels spareels l1 set_spareels]. rewrite Hperm. by constructor. }
  rewrite (assert_rep _ _ _ _ _ _ Hr2). cbn [mbind res_bind]. exists p, l2, h4. split; [done|]. split; [done|]. split; [|done]. split; [rewrite Hb4; exact Hb1|].
  unfold served in *. by rewrite Hs4.
Qed.

(** ** Removal *)

(** [mid] after a removal, from the links before it. *)
Lemma mid_remove n1 n2 p d h hd tl (ns := n1 ++ (p, d) :: n2) : dll None (full hd ns tl) None h.(entries) -> zlen ns < limit ->
  (if Z.odd (zlen ns) then
     if zlen ns =? 1 then Ok None else if zlen ns / 2 <=? zlen n1 then get_prev (mid_of ns) h else Ok (mid_of ns)
   else if zlen n1 <? zlen ns / 2 then get_next (mid_of ns) h else Ok (mid_of ns)) = Ok (mid_of (n1 ++ n2)).
Proof.
  intros HF Hb. assert (Hl : length ns = S (length (n1 ++ n2))) by (unfold ns; rewrite !length_app; cbn; lia).
  assert (Hl1 : (length n1 <= length (n1 ++ n2))%nat) by (rewrite length_app; lia). pose proof (full_length hd ns tl) as HL.
  unfold zlen. set (n := length (n1 ++ n2)) in *. rewrite Hl. assert (Em : mid_of ns = at_ ns (n / 2)) by (unfold mid_of; by rewrite Hl).
  assert (Eo : n <> 0%nat -> mid_of (n1 ++ n2) = at_ (n1 ++ n2) ((n - 1) / 2)) by (intros Hn; unfold mid_of; fold n; destruct n as [|k]; [lia|]; by rewrite Nat.sub_succ, Nat.sub_0_r).
  assert (Ediv : Z.of_nat (S n) / 2 = Z.of_nat (S n / 2)) by (by rewrite Nat2Z.inj_div). rewrite Ediv, odd_nat, Em.
  pose proof (Nat.div_mod n 2 ltac:(lia)). pose proof (Nat.div_mod (n - 1) 2 ltac:(lia)). pose proof (Nat.div_mod (S n) 2 ltac:(lia)).
  pose proof (Nat.mod_upper_bound n 2 ltac:(lia)). pose proof (Nat.mod_upper_bound (n - 1) 2 ltac:(lia)). pose proof (Nat.mod_upper_bound (S n) 2 ltac:(lia)).
  assert (Eat : forall i, at_ ns i = if decide (i < length n1)%nat then at_ (n1 ++ n2) i else if decide (i = length n1) then Some p else at_ (n1 ++ n2) (i - 1)) by (intros i; apply (at_insert n1 n2 (p, d))).
  destruct (Nat.odd (S n)) eqn:Eodd.
  - apply Nat.odd_spec in Eodd as [m Em2]. destruct (Z.eqb_spec (Z.of_nat (S n)) 1) as [E1|E1].
    { unfold mid_of. fold n. by replace n with 0%nat by lia. }
    rewrite Eo by lia. assert (Em3 : (S n / 2 = m /\ n / 2 = m /\ (n - 1) / 2 = m - 1 /\ 1 <= m)%nat) by lia. destruct Em3 as (-> & -> & -> & Hm).
    destruct (Z.leb_spec (Z.of_nat m) (Z.of_nat (length n1))).
    + rewrite <- (full_inner hd ns tl) by lia. rewrite (prev_at _ h HF) by lia. cbn [before]. destruct m as [|m]; [lia|]. rewrite full_inner by lia. rewrite Eat.
      destruct (decide (m < length n1)%nat); [|lia]. do 2 f_equal. lia.
    + rewrite Eat. destruct (decide _); [lia|]. by destruct (decide _); [lia|].
  - assert (Ev : exists m, S n = (2 * m)%nat). { apply Nat.even_spec. rewrite <- Nat.negb_odd. by rewrite Eodd. } destruct Ev as [m Em2].
    rewrite Eo by lia. assert (Em3 : (S n / 2 = m /\ n / 2 = m - 1 /\ (n - 1) / 2 = m - 1 /\ 1 <= m)%nat) by lia. destruct Em3 as (-> & -> & -> & Hm).
    destruct (Z.ltb_spec (Z.of_nat (length n1)) (Z.of_nat m)).
    + rewrite <- (full_inner hd ns tl) by lia. rewrite (next_at _ h HF) by lia. rewrite full_inner by lia. rewrite Eat. replace (S (m - 1)) with m by lia.
      destruct (decide _); [lia|]. destruct (decide _) as [E|E]; [|done]. lia.
    + rewrite Eat. by destruct (decide _); [|lia].
Qed.

(** The two stores that take [(p, d)] out. *)
Lemma link_out A pa da qa dq B p d h : dll None (A ++ (pa, da) :: [(p, d)] ++ (qa, dq) :: B) None h.(entries) ->
  NoDup (A ++ (pa, da) :: [(p, d)] ++ (qa, dq) :: B).*1 ->
  exists h', (e ← deref (Some p) h; h ← set_next e.(prev) e.(next) h; e ← deref (Some p) h; set_prev e.(next) e.(prev) h) = Ok h' /\
    dll None (A ++ (pa, da) :: (qa, dq) :: B) None h'.(entries) /\ h'.(blocks) = h.(blocks) /\ h'.(serve) = h.(serve) /\
    (forall r, r <> pa -> r <> qa -> h'.(entries) !! r = h.(entries) !! r) /\ (exists e, h'.(entries) !! p = Some e /\ e.(data) = d).
Proof.
  intros HF Hn. destruct (dll_pair A pa da p d ((qa, dq) :: B) _ HF) as [Epa Ep]. cbn [head_of] in Ep.
  assert (Eqa : h.(entries) !! qa = Some (Entry dq (head_of B None) (Some p))).
  { pose proof (dll_pair (A ++ [(pa, da)]) p d qa dq B h.(entries)) as H. rewrite <- app_assoc in H. by destruct (H HF). }
  rewrite fmap_app in Hn. cbn in Hn. apply NoDup_app in Hn as (HnA & HAq & Hn). apply NoDup_cons in Hn as [Hpa Hn]. apply NoDup_cons in Hn as [Hp Hn]. apply NoDup_cons in Hn as [Hqa HnB].
  rewrite !elem_of_cons in Hpa. rewrite !elem_of_cons in Hp. assert (N1 : pa <> p /\ pa <> qa /\ p <> qa) by (split_and!; intros ->; [apply Hpa|apply Hpa|apply Hp]; auto). destruct N1 as (N1 & N2 & N3).
  rewrite (deref_ok _ _ _ Ep). cbn [mbind res_bind prev next]. rewrite (set_next_ok _ _ _ _ Epa). cbn [mbind res_bind].
  rewrite (deref_ok p (Entry d (Some qa) (Some pa))) by (by rewrite lookup_set, decide_False). cbn [mbind res_bind prev next]. erewrite set_prev_ok by (rewrite lookup_set, decide_False by done; exact Eqa).
  cbn [data next prev]. eexists. split; [reflexivity|].
  assert (Hout : forall r, r <> pa -> r <> qa -> (set_entry (Some qa) (Entry dq (head_of B None) (Some pa)) (set_entry (Some pa) (Entry da (Some qa) (end_of A None)) h)).(entries) !! r = h.(entries) !! r)
    by (intros r H1 H2; by rewrite !lookup_set, !decide_False by done).
  split; [|split; [done|split; [done|split; [done|]]]].
  - eapply (dll_splice A pa da [(p, d)] [] qa dq B); [exact HF| | | | |done].
    + apply Forall_forall. intros x Hx%(list_elem_of_fmap_2 fst). pose proof (HAq _ Hx) as Hx2. rewrite !elem_of_cons in Hx2. apply Hout; intros E; rewrite E in *; tauto.
    + apply Forall_forall. intros x Hx%(list_elem_of_fmap_2 fst). apply Hout; intros E; rewrite E in *; tauto.
    + by rewrite !lookup_set, decide_False, decide_True.
    + by rewrite !lookup_set, decide_True.
  - rewrite Hout by done. by eexists.
Qed.

(** [tmp] goes to the spares or back to the pool. *)
Lemma drop_elem_ok l h R hd tl n1 p d n2 : rep l h R hd tl (n1 ++ (p, d) :: n2) -> served h -> l.(attrs).(copy_data) = false ->
  exists l' h', ks_list_drop_elem l (Some p) (zlen n1) h = Ok (0, l', h') /\ rep (set_numels (u32 (l'.(numels) - 1)) l') h' R hd tl (n1 ++ n2) /\ same_pool h h' /\ alike l l'.
Proof.
  intros Hr Hs Hcopy. pose proof (rep_seg _ _ _ _ _ _ Hr) as HF. pose proof (r_bound _ _ _ _ _ _ Hr) as Hb. pose proof (r_nodup _ _ _ _ _ _ Hr) as Hnd.
  pose proof (zlen_nonneg (n1 ++ n2)). assert (Hz : zlen (n1 ++ (p, d) :: n2) = zlen (n1 ++ n2) + 1) by (rewrite !zlen_app, zlen_cons; lia).
  destruct (full_split hd n1 n2 tl) as (A & pa & da & qa & dq & B & EA & EB & EF & EM & EL). pose proof (EM [(p, d)]) as EF1. cbn [app] in EF1.
  unfold ks_list_drop_elem. rewrite (r_numels _ _ _ _ _ _ Hr), (r_mid _ _ _ _ _ _ Hr), (mid_remove n1 n2 p d h hd tl HF Hb). cbn [mbind res_bind].
  pose proof (rep_nodup _ _ _ _ _ _ Hr) as HndF. rewrite EF1 in HF, HndF.
  destruct (link_out A pa da qa dq B p d h HF HndF) as (h2 & Elink & Hseg & Hb2 & Hs2 & Hout & e & Hp & He).
  destruct (deref (Some p) h) as [e0|]; [|done]. cbn [mbind res_bind] in *. destruct (set_next (prev e0) (next e0) h) as [h1|]; [|done]. cbn [mbind res_bind] in *.
  destruct (deref (Some p) h1) as [e1|]; [|done]. cbn [mbind res_bind] in *. rewrite Elink. cbn [mbind res_bind]. unfold get_data. rewrite (deref_ok _ _ _ Hp). cbn [mbind res_bind]. rewrite Hcopy. cbn [andb mbind res_bind].
  assert (Hperm : (full hd (n1 ++ (p, d) :: n2) tl).*1 ≡ₚ p :: (full hd (n1 ++ n2) tl).*1).
  { rewrite EF1, EF, !fmap_app. cbn. rewrite <- (Permutation_middle A.*1 (qa :: B.*1) pa), <- (Permutation_middle A.*1 (p :: qa :: B.*1) pa), <- (Permutation_middle A.*1 (qa :: B.*1) p). cbn. apply Permutation_swap. }
  assert (Hpq : pa <> p /\ qa <> p).
  { rewrite EF1, fmap_app in Hnd. cbn in Hnd. rewrite <- app_assoc in Hnd. apply NoDup_app in Hnd as (_ & _ & Hnd). cbn in Hnd. apply NoDup_cons in Hnd as [H1 Hnd]. apply NoDup_cons in Hnd as [H2 _].
    split; intros ->; [apply H1|apply H2]; constructor. }
  assert (Hin : pa ∈ (full hd (n1 ++ n2) tl).*1 /\ qa ∈ (full hd (n1 ++ n2) tl).*1) by (rewrite EF, fmap_app; cbn; rewrite !elem_of_app, !elem_of_cons; auto).
  destruct Hpq as [Hpa Hqa], Hin as [Hina Hinq]. rewrite Hperm in Hnd. cbn [app] in Hnd. apply NoDup_cons in Hnd as [Hp1 Hnd]. apply NoDup_app in Hnd as (Hnd1 & Hdis & Hnd2).
  pose proof (r_alloc _ _ _ _ _ _ Hr) as Hal. pose proof (r_foreign _ _ _ _ _ _ Hr) as Hfo. rewrite Hperm in Hfo. cbn [app] in Hfo. apply Forall_cons in Hfo as [HRp Hfo].
  assert (Hfr : forall q, q ∉ p :: (full hd (n1 ++ n2) tl).*1 ++ l.(spareels) -> h2.(entries) !! q = R !! q).
  { intros q Hq. assert (Hq2 := Hq). rewrite elem_of_cons, elem_of_app in Hq. rewrite Hout by (intros ->; tauto). apply (r_frame _ _ _ _ _ _ Hr). by rewrite Hperm. }
  assert (Hal2 : Forall (fun q => is_Some (h2.(entries) !! q)) l.(spareels)).
  { pose proof (Hdis _ Hina). pose proof (Hdis _ Hinq). apply Forall_forall. intros q Hq. rewrite Hout by (by intros ->). by apply (proj1 (Forall_forall _ _) Hal). }
  pose proof (r_head _ _ _ _ _ _ Hr). pose proof (r_tail _ _ _ _ _ _ Hr). rewrite EF in *. rewrite elem_of_app in Hp1.
  destruct (bool_decide_reflect (length (spareels (set_mid (mid_of (n1 ++ n2)) l)) < SIMCLIST_MAX_SPARE_ELEMS)%nat) as [Hlt|Hge]; cbn [set_mid spareels] in *.
  - do 2 eexists. split; [reflexivity|]. split; [|split; [split; [done|by unfold served in *; congruence]|done]].
    assert (Hperm2 : (A ++ (pa, da) :: (qa, dq) :: B).*1 ++ l.(spareels) ++ [p] ≡ₚ p :: (A ++ (pa, da) :: (qa, dq) :: B).*1 ++ l.(spareels)) by (by rewrite app_assoc, Permutation_app_comm).
    constructor; rewrite ?EF; cbn [set_numels set_spareels set_mid spareels head_sentinel tail_sentinel mid numels]; try done.
    + rewrite Hperm2. constructor; [by rewrite elem_of_app|]. by apply NoDup_app.
    + rewrite (r_numels _ _ _ _ _ _ Hr), Hz, u32_id; [lia|unfold limit in *; lia].
    + lia.
    + rewrite length_app. cbn. lia.
    + apply Forall_app. split; [done|]. constructor; [by rewrite Hp|constructor].
    + intros q Hq. rewrite Hperm2 in Hq. by apply Hfr.
    + rewrite Hperm2. by constructor.
  - unfold free_entry. rewrite (deref_ok _ _ _ Hp). cbn [mbind res_bind]. do 2 eexists. split; [reflexivity|]. split; [|split; [split; [done|by unfold served in *; cbn; congruence]|done]].
    constructor; rewrite ?EF; cbn [set_numels set_mid spareels head_sentinel tail_sentinel mid numels entries]; try done.
    + eapply dll_agree; [exact Hseg|]. apply Forall_forall. intros x Hx%(list_elem_of_fmap_2 fst). rewrite lookup_delete_ne by (intros E; rewrite <- E in Hx; tauto). done.
    + by apply NoDup_app.
    + rewrite (r_numels _ _ _ _ _ _ Hr), Hz, u32_id; [lia|unfold limit in *; lia].
    + lia.
    + apply (r_spares _ _ _ _ _ _ Hr).
    + apply Forall_forall. intros q Hq. rewrite lookup_delete_ne by (intros ->; tauto). by apply (proj1 (Forall_forall _ _) Hal2).
    + intros q Hq. destruct (decide (q = p)) as [->|]; [by rewrite lookup_delete_eq|]. rewrite lookup_delete_ne by done. apply Hfr. rewrite elem_of_cons. tauto.
Qed.

Lemma at_middle hd n1 x n2 tl : at_ (full hd (n1 ++ x :: n2) tl) (S (length n1)) = Some x.1.
Proof. rewrite full_inner by (rewrite length_app; cbn; lia). rewrite at_insert. destruct (decide _); [lia|]. by destruct (decide _). Qed.
Lemma full_S hd ns tl i : full hd ns tl !! S i = (ns ++ [(tl, 0)]) !! i.
Proof. done. Qed.
Lemma lookup_full hd n1 x n2 tl : full hd (n1 ++ x :: n2) tl !! S (length n1) = Some x.
Proof. rewrite full_S, <- app_assoc. by apply (list_lookup_middle n1 (n2 ++ [(tl, 0)]) x). Qed.

Lemma zlen_middle {A} (n1 n2 : list A) x : zlen (n1 ++ x :: n2) = zlen (n1 ++ n2) + 1.
Proof. rewrite !zlen_app, zlen_cons. lia. Qed.

Lemma findpos_middle l h R hd tl n1 x n2 : rep l h R hd tl (n1 ++ x :: n2) -> ks_list_findpos l h (s32 (zlen n1)) = Ok (Some x.1).
Proof.
  intros Hr. pose proof (rep_bound _ _ _ _ _ _ Hr) as Hb. assert (Hl : length (n1 ++ x :: n2) = S (length n1 + length n2)) by (rewrite length_app; cbn; lia). unfold limit, zlen in *.
  rewrite s32_id by lia. rewrite (findpos_at _ _ _ _ _ _ Hr) by lia. replace (Z.to_nat (Z.of_nat (length n1) + 1)) with (S (length n1)) by lia. by rewrite at_middle.
Qed.

(** A datum overwritten. *)
Lemma rep_set_data l h R hd tl n1 p d d' n2 : rep l h R hd tl (n1 ++ (p, d) :: n2) ->
  exists h', set_data (Some p) d' h = Ok h' /\ rep l h' R hd tl (n1 ++ (p, d') :: n2) /\ h'.(blocks) = h.(blocks) /\ h'.(serve) = h.(serve).
Proof.
  intros Hr.
  destruct (full_split hd n1 n2 tl) as (A & pa & da & qa & dq & B & EA & EB & EF & EM & EL). pose proof (EM [(p, d)]) as EF1. pose proof (EM [(p, d')]) as EF2. cbn [app] in EF1, EF2.
  pose proof (rep_seg _ _ _ _ _ _ Hr) as HF. pose proof (rep_nodup _ _ _ _ _ _ Hr) as Hnd. pose proof (r_nodup _ _ _ _ _ _ Hr) as Hnd0. rewrite EF1 in HF, Hnd.
  destruct (dll_pair A pa da p d ((qa, dq) :: B) _ HF) as [Epa Ep2]. cbn [head_of] in Ep2.
  assert (Eqa : h.(entries) !! qa = Some (Entry dq (head_of B None) (Some p))).
  { pose proof (dll_pair (A ++ [(pa, da)]) p d qa dq B h.(entries)) as H. rewrite <- app_assoc in H. by destruct (H HF). }
  rewrite (set_data_ok _ _ _ _ Ep2). eexists. split; [reflexivity|]. cbn [data next prev].
  assert (Eadr : (full hd (n1 ++ (p, d') :: n2) tl).*1 = (full hd (n1 ++ (p, d) :: n2) tl).*1) by (rewrite EF1, EF2, !fmap_app; done).
  rewrite fmap_app in Hnd. cbn in Hnd. apply NoDup_app in Hnd as (_ & HA & Hnd). apply NoDup_cons in Hnd as [H1 Hnd]. apply NoDup_cons in Hnd as [H2 _]. rewrite !elem_of_cons in H1. rewrite !elem_of_cons in H2.
  assert (Hout : forall r, r <> p -> (set_entry (Some p) (Entry d' (Some qa) (Some pa)) h).(entries) !! r = h.(entries) !! r) by (intros r Hne; by rewrite lookup_set, decide_False).
  split; [|done]. destruct Hr. constructor; rewrite ?Eadr; try done.
  - rewrite EF2. eapply (dll_splice A pa da [(p, d)] [(p, d')] qa dq B); [exact HF| | | | |].
    + apply Forall_forall. intros x Hx%(list_elem_of_fmap_2 fst). apply Hout. intros E. rewrite E in Hx. apply (HA _ Hx). rewrite !elem_of_cons. auto.
    + apply Forall_forall. intros x Hx%(list_elem_of_fmap_2 fst). apply Hout. intros E. rewrite E in Hx. tauto.
    + rewrite Hout by (intros E; subst; tauto). done.
    + rewrite Hout by (intros E; subst; tauto). done.
    + cbn [dll head_of]. by rewrite lookup_set, decide_True.
  - unfold zlen in *. rewrite r_numels0, !length_app. done.
  - unfold zlen in *. rewrite length_app in *. done.
  - rewrite r_mid0. unfold mid_of. rewrite !length_app. cbn [length]. destruct (_ + _)%nat as [|k]; [done|]. rewrite !at_insert. done.
  - apply Forall_forall. intros q Hq. rewrite lookup_set. destruct (decide (q = p)); [done|]. by apply (proj1 (Forall_forall _ _) r_alloc0).
  - intros q Hq. rewrite Hout; [by apply r_frame0|]. intros ->. apply Hq. rewrite EF1, fmap_app. cbn. rewrite !elem_of_app, !elem_of_cons. auto.
Qed.

Lemma delete_locked_ok l h R hd tl n1 p d n2 : rep l h R hd tl (n1 ++ (p, d) :: n2) -> served h -> l.(attrs).(copy_data) = false ->
  exists l' h', delete_locked l (zlen n1) h = Ok (0, l', h') /\ rep l' h' R hd tl (n1 ++ n2) /\ same_pool h h' /\ alike l l'.
Proof.
  intros Hr Hs Hcopy. unfold delete_locked. rewrite (findpos_middle _ _ _ _ _ _ _ _ Hr). cbn [mbind res_bind fst].
  destruct (drop_elem_ok _ _ _ _ _ _ _ _ _ Hr Hs Hcopy) as (l' & h' & -> & Hr' & Hsame & Hal). cbn [mbind res_bind]. rewrite (assert_rep _ _ _ _ _ _ Hr'). cbn [mbind res_bind].
  by exists (set_numels (u32 (l'.(numels) - 1)) l'), h'.
Qed.

Lemma extract_locked_ok l h R hd tl n1 p d n2 : rep l h R hd tl (n1 ++ (p, d) :: n2) -> served h -> l.(attrs).(copy_data) = false ->
  exists l' h', extract_locked l (zlen n1) h = Ok (d, l', h') /\ rep l' h' R hd tl (n1 ++ n2) /\ same_pool h h' /\ alike l l'.
Proof.
  intros Hr Hs Hcopy. unfold extract_locked. rewrite (findpos_middle _ _ _ _ _ _ _ _ Hr). cbn [mbind res_bind fst].
  unfold get_data. rewrite (deref_ok _ _ _ (rep_get _ _ _ _ _ _ _ _ _ Hr (lookup_full hd n1 (p, d) n2 tl))). cbn [mbind res_bind data].
  destruct (rep_set_data _ _ _ _ _ _ _ _ 0 _ Hr) as (h1 & -> & Hr1 & Hb1 & Hs1). cbn [mbind res_bind].
  destruct (drop_elem_ok _ _ _ _ _ _ _ _ _ Hr1) as (l' & h' & -> & Hr' & Hsame & Hal); [by unfold served in *; congruence|done|]. cbn [mbind res_bind]. rewrite (assert_rep _ _ _ _ _ _ Hr'). cbn [mbind res_bind].
  exists (set_numels (u32 (l'.(numels) - 1)) l'), h'. split; [done|]. split; [done|]. split; [|done]. destruct Hsame as [H1 H2]. split; [congruence|done].
Qed.

(** ** Searching *)

(** The first index that [f] accepts. *)
Fixpoint index_of (f : Z -> bool) (xs : list Z) : option nat :=
  match xs with [] => None | x :: xs => if f x then Some O else S <$> index_of f xs end.

Lemma tail_at hd ns tl : at_ (full hd ns tl) (S (length ns)) = Some tl.
Proof. rewrite at_full. destruct (decide _); [lia|]. by destruct (decide _). Qed.

Lemma search_ok l h R hd tl f n2 : forall n1 fuel, rep l h R hd tl (n1 ++ n2) -> (length n2 < fuel)%nat ->
  search fuel f (at_ (full hd (n1 ++ n2) tl) (S (length n1))) (Some tl) (zlen n1) h =
  Ok (match index_of f n2.*2 with
      | Some i => (at_ (full hd (n1 ++ n2) tl) (S (length n1 + i)), zlen n1 + Z.of_nat i)
      | None => (Some tl, zlen (n1 ++ n2))
      end).
Proof.
  induction n2 as [|[p d] n2 IH]; intros n1 fuel Hr Hf; (destruct fuel as [|fuel]; [cbn in Hf; lia|]); cbn [search fmap list_fmap index_of].
  - assert (E : at_ (full hd (n1 ++ []) tl) (S (length n1)) = Some tl) by (rewrite app_nil_r; apply tail_at). rewrite E, bool_decide_true by done. by rewrite app_nil_r.
  - assert (Hne : at_ (full hd (n1 ++ (p, d) :: n2) tl) (S (length n1)) <> Some tl).
    { rewrite <- (tail_at hd (n1 ++ (p, d) :: n2) tl). intros E. apply at_inj in E; [rewrite length_app in E; cbn in E; lia|apply (rep_nodup _ _ _ _ _ _ Hr)|rewrite full_length, length_app; cbn; lia..]. }
    rewrite bool_decide_false by done. rewrite (deref_at _ h (rep_seg _ _ _ _ _ _ Hr) _ p d) by apply lookup_full. cbn [mbind res_bind data next].
    change (p, d).2 with d. destruct (f d); cbn [fmap option_fmap option_map]; [by rewrite Nat.add_0_r, Z.add_0_r|].
    assert (En : n1 ++ (p, d) :: n2 = (n1 ++ [(p, d)]) ++ n2) by (by rewrite <- app_assoc). rewrite En in *.
    replace (S (S (length n1))) with (S (length (n1 ++ [(p, d)]))) by (rewrite length_app; cbn; lia). replace (zlen n1 + 1) with (zlen (n1 ++ [(p, d)])) by (by rewrite zlen_app).
    rewrite IH by (done || (cbn in Hf; lia)). destruct (index_of f n2.*2) as [i|]; cbn [option_map]; [|done]. rewrite length_app, zlen_app. cbn [length]. change (zlen [(p, d)]) with 1. do 2 f_equal; [f_equal|]; lia.
Qed.

(** From the head: where the loop stops. *)
Lemma search_head l h R hd tl f ns : rep l h R hd tl ns ->
  (first ← get_next l.(head_sentinel) h; search (entry_fuel h) f first l.(tail_sentinel) 0 h) =
  Ok (match index_of f ns.*2 with
      | Some i => (at_ (full hd ns tl) (S i), Z.of_nat i)
      | None => (Some tl, zlen ns)
      end).
Proof.
  intros Hr. rewrite (rep_head _ _ _ _ _ _ Hr), (next_at _ h (rep_seg _ _ _ _ _ _ Hr)) by (rewrite full_length; lia). cbn [mbind res_bind]. rewrite (r_tail _ _ _ _ _ _ Hr).
  apply (search_ok l h R hd tl f ns []); [done|]. apply (rep_fuel _ _ _ _ _ _ Hr).
Qed.

Lemma index_of_lt f xs i : index_of f xs = Some i -> (i < length xs)%nat /\ exists x, xs !! i = Some x /\ f x = true.
Proof.
  revert i. induction xs as [|x xs IH]; intros i; cbn [index_of]; [done|]. destruct (f x) eqn:Ef; [intros [= <-]; cbn; split; [lia|eauto]|].
  destruct (index_of f xs) as [j|]; [|done]. intros [= <-]. destruct (IH j eq_refl) as [H1 H2]. cbn. split; [lia|done].
Qed.

Lemma index_not_tail l h R hd tl ns i : rep l h R hd tl ns -> (i < length ns)%nat -> at_ (full hd ns tl) (S i) <> Some tl.
Proof.
  intros Hr Hi E. rewrite <- (tail_at hd ns tl) in E. apply at_inj in E; [lia|apply (rep_nodup _ _ _ _ _ _ Hr)|rewrite full_length; lia..].
Qed.

(** The test of [ks_list_locate]. *)
Definition matches (a : ks_list_attributes_s) (m : gmap positive (list Z)) (d x : Z) : bool :=
  match a.(comparator) with Some cmp => cmp m d x =? 0 | None => x =? d end.

Lemma locate_ok l h R hd tl ns d : rep l h R hd tl ns ->
  ks_list_locate l d h = Ok (match index_of (matches l.(attrs) h.(blocks) d) ns.*2 with Some i => Z.of_nat i | None => -1 end).
Proof.
  intros Hr. unfold ks_list_locate. pose proof (search_head l h R hd tl (matches l.(attrs) h.(blocks) d) ns Hr) as E. pose proof (rep_bound _ _ _ _ _ _ Hr) as Hb. unfold limit in Hb.
  destruct (get_next (head_sentinel l) h) as [first|]; [|done]. cbn [mbind res_bind] in *.
  assert (Ef : (match comparator (attrs l) with Some cmp => fun x => cmp (blocks h) d x =? 0 | None => fun x => x =? d end) = matches (attrs l) (blocks h) d) by (unfold matches; by destruct (comparator (attrs l))).
  rewrite Ef, E. cbn [mbind res_bind]. rewrite (r_tail _ _ _ _ _ _ Hr). destruct (index_of _ _) as [i|] eqn:Ei; [|by rewrite bool_decide_true].
  apply index_of_lt in Ei as [Hi _]. rewrite length_fmap in Hi. rewrite bool_decide_false by (by eapply index_not_tail). rewrite s32_id by lia. done.
Qed.

Lemma lookup_data (ns : list (positive * Z)) i x : ns.*2 !! i = Some x -> exists p, ns !! i = Some (p, x).
Proof. rewrite list_lookup_fmap. destruct (ns !! i) as [[p d]|]; [|done]. intros [= <-]. by exists p. Qed.

Lemma full_lookup hd ns tl i x : ns !! i = Some x -> full hd ns tl !! S i = Some x.
Proof. intros H. rewrite full_S. by apply lookup_app_l_Some. Qed.

Lemma seek_ok l h R hd tl ns ind : rep l h R hd tl ns ->
  ks_list_seek l ind h = Ok (match l.(attrs).(seeker) with
                             | Some sk => match index_of (fun x => negb (sk h.(blocks) x ind =? 0)) ns.*2 with Some i => default 0 (ns.*2 !! i) | None => 0 end
                             | None => 0 end).
Proof.
  intros Hr. unfold ks_list_seek. destruct (seeker (attrs l)) as [sk|]; [|done].
  pose proof (search_head l h R hd tl (fun x => negb (sk h.(blocks) x ind =? 0)) ns Hr) as E. destruct (get_next (head_sentinel l) h) as [first|]; [|done]. cbn [mbind res_bind] in *.
  rewrite E. cbn [mbind res_bind]. rewrite (r_tail _ _ _ _ _ _ Hr). destruct (index_of _ _) as [i|] eqn:Ei; [|by rewrite bool_decide_true].
  apply index_of_lt in Ei as (Hi & x & Hx & _). rewrite length_fmap in Hi. rewrite bool_decide_false by (by eapply index_not_tail). rewrite Hx. cbn [default].
  apply lookup_data in Hx as [p Hp]. apply (data_at _ h (rep_seg _ _ _ _ _ _ Hr) _ p). by apply full_lookup.
Qed.

Lemma s32_high x : 2147483648 <= x < 4294967296 -> s32 x = x - 4294967296.
Proof. intros H. unfold s32. replace ((x + 2147483648) `mod` 4294967296) with (x - 2147483648); [lia|]. apply Zmod_unique with 1; lia. Qed.

Lemma get_at_ok l h R hd tl ns pos : rep l h R hd tl ns -> 0 <= pos < 4294967296 ->
  ks_list_get_at l pos h = Ok (if pos <? zlen ns then default 0 (ns.*2 !! Z.to_nat pos) else 0).
Proof.
  intros Hr Hp. pose proof (rep_bound _ _ _ _ _ _ Hr) as Hb. unfold limit in Hb. unfold ks_list_get_at, zlen.
  destruct (Z.leb_spec 2147483648 pos) as [Hge|Hlt].
  { rewrite s32_high by lia. destruct (Z.ltb_spec pos (Z.of_nat (length ns))); [lia|]. destruct (decide (pos = 4294967295)) as [->|Hne].
    - rewrite (findpos_at _ _ _ _ _ _ Hr) by lia. exact (data_at _ h (rep_seg _ _ _ _ _ _ Hr) 0 hd 0 eq_refl).
    - unfold ks_list_findpos. destruct (Z.ltb_spec (pos - 4294967296) (-1)); [done|lia]. }
  rewrite s32_id by lia. destruct (Z.ltb_spec pos (Z.of_nat (length ns))).
  - rewrite (findpos_at _ _ _ _ _ _ Hr) by lia. cbn [mbind res_bind]. replace (Z.to_nat (pos + 1)) with (S (Z.to_nat pos)) by lia.
    destruct (lookup_lt_is_Some_2 ns (Z.to_nat pos)) as [[p d] E]; [lia|]. rewrite list_lookup_fmap, E. pose proof (full_lookup hd ns tl _ _ E) as EF.
    rewrite (data_at _ h (rep_seg _ _ _ _ _ _ Hr) _ p d EF). unfold at_. by rewrite EF.
  - destruct (decide (pos = Z.of_nat (length ns))) as [->|Hne].
    + rewrite (findpos_at _ _ _ _ _ _ Hr) by lia. cbn [mbind res_bind]. replace (Z.to_nat (Z.of_nat (length ns) + 1)) with (S (length ns)) by lia. rewrite tail_at.
      rewrite <- (tail_at hd ns tl). apply (data_at _ h (rep_seg _ _ _ _ _ _ Hr) _ tl). by rewrite full_S, list_lookup_middle.
    + unfold ks_list_findpos. rewrite (r_numels _ _ _ _ _ _ Hr). unfold zlen. rewrite s32_id by lia. destruct (Z.ltb_spec (Z.of_nat (length ns)) pos); [|lia]. by rewrite orb_true_r.
Qed.

(** A comparator gives an [int] that has a negative. *)
Definition cmp_ok (cmp : Z -> Z -> Z) : Prop := forall a b, - INT_MAX <= cmp a b <= INT_MAX.
Definition better (cmp : Z -> Z -> Z) (versus cur x : Z) : Z := if 0 <? cmp cur x * versus then x else cur.

Lemma times_ok c v : - INT_MAX <= c <= INT_MAX -> v = 1 \/ v = -1 -> times c v = Ok (c * v).
Proof. intros Hc Hv. unfold times, INT_MAX in *. destruct (Z.leb_spec (-2147483648) (c * v)); [|lia]. destruct (Z.leb_spec (c * v) 2147483647); [done|lia]. Qed.

Lemma minmax_loop_ok l h R hd tl cmp v n2 : cmp_ok cmp -> v = 1 \/ v = -1 -> forall n1 cur fuel, rep l h R hd tl (n1 ++ n2) -> (length n2 < fuel)%nat ->
  minmax_loop fuel cmp v cur (at_ (full hd (n1 ++ n2) tl) (S (length n1))) (Some tl) h = Ok (foldl (better cmp v) cur n2.*2).
Proof.
  intros Hc Hv. induction n2 as [|[p d] n2 IH]; intros n1 cur fuel Hr Hf; (destruct fuel as [|fuel]; [cbn in Hf; lia|]); cbn [minmax_loop fmap list_fmap foldl].
  - assert (E : at_ (full hd (n1 ++ []) tl) (S (length n1)) = Some tl) by (rewrite app_nil_r; apply tail_at). by rewrite E, bool_decide_true.
  - rewrite bool_decide_false by (eapply index_not_tail; [done|rewrite length_app; cbn; lia]).
    rewrite (deref_at _ h (rep_seg _ _ _ _ _ _ Hr) _ p d) by apply lookup_full. cbn [mbind res_bind data next]. rewrite times_ok by done. cbn [mbind res_bind].
    assert (En : n1 ++ (p, d) :: n2 = (n1 ++ [(p, d)]) ++ n2) by (by rewrite <- app_assoc). rewrite En in *.
    replace (S (S (length n1))) with (S (length (n1 ++ [(p, d)]))) by (rewrite length_app; cbn; lia). rewrite IH by (done || (cbn in Hf; lia)). done.
Qed.

Lemma minmax_ok l h R hd tl ns v : rep l h R hd tl ns -> v = 1 \/ v = -1 -> (forall cmp, l.(attrs).(comparator) = Some cmp -> cmp_ok (cmp h.(blocks))) ->
  ks_list_get_minmax l v h = Ok (match l.(attrs).(comparator), ns.*2 with
                                 | Some cmp, x :: xs => foldl (better (cmp h.(blocks)) v) x xs
                                 | _, _ => 0 end).
Proof.
  intros Hr Hv Hc. unfold ks_list_get_minmax. destruct (comparator (attrs l)) as [cmp|]; [|done]. rewrite (r_numels _ _ _ _ _ _ Hr). destruct ns as [|[p d] ns]; [done|].
  destruct (Z.eqb_spec (zlen ((p, d) :: ns)) 0) as [E|_]; [rewrite zlen_cons in E; pose proof (zlen_nonneg ns); lia|]. cbn [fmap list_fmap]. change (p, d).2 with d.
  rewrite (rep_head _ _ _ _ _ _ Hr), (next_at _ h (rep_seg _ _ _ _ _ _ Hr)) by (rewrite full_length; lia). cbn [mbind res_bind].
  rewrite (deref_at _ h (rep_seg _ _ _ _ _ _ Hr) 1 p d) by done. cbn [mbind res_bind data next]. rewrite (r_tail _ _ _ _ _ _ Hr).
  apply (minmax_loop_ok l h R hd tl (cmp h.(blocks)) v ns (Hc _ eq_refl) Hv [(p, d)]); [done|]. pose proof (rep_fuel _ _ _ _ _ _ Hr) as Hf. cbn in Hf. lia.
Qed.

(** ** Ranges *)

(** A run of entries, of which the first are spared and the others freed. *)
Definition room (spares : list positive) : nat := SIMCLIST_MAX_SPARE_ELEMS - length spares.

Lemma drop_range_ok M : forall pp rest qn h spares, dll pp (M ++ rest) qn h.(entries) -> NoDup (M ++ rest).*1 ->
  exists h', drop_range (length M) false (head_of (M ++ rest) qn) spares h = Ok (head_of rest qn, spares ++ take (room spares) M.*1, h') /\
    h'.(blocks) = h.(blocks) /\ h'.(serve) = h.(serve) /\ (forall q, q ∈ drop (room spares) M.*1 -> h'.(entries) !! q = None) /\
    (forall q, q ∉ drop (room spares) M.*1 -> h'.(entries) !! q = h.(entries) !! q).
Proof.
  induction M as [|[p d] M IH]; intros pp rest qn h spares HF Hn; cbn [length drop_range app].
  { exists h. change ([].*1) with (@nil positive). rewrite take_nil, drop_nil, app_nil_r. repeat split; try done. intros q Hq. inversion Hq. }
  cbn [app dll] in HF. destruct HF as [Ep HF]. cbn [app fmap list_fmap] in Hn. apply NoDup_cons in Hn as [Hp Hn]. change (p, d).1 with p in *. cbn [head_of].
  assert (HpM : p ∉ M.*1) by (intros Hin; apply Hp; rewrite fmap_app, elem_of_app; by left).
  unfold get_next. rewrite (deref_ok _ _ _ Ep). cbn [mbind res_bind next]. unfold drop_data. cbn [mbind res_bind]. change (0 =? 0) with true. cbv iota. cbn [mbind res_bind fmap list_fmap].
  change (p, d).1 with p. destruct (bool_decide_reflect (length spares < SIMCLIST_MAX_SPARE_ELEMS)%nat) as [Hlt|Hge].
  - destruct (IH (Some p) rest qn h (spares ++ [p]) HF Hn) as (h' & E & Hb & Hs & H1 & H2). exists h'. rewrite E.
    assert (Er : room spares = S (room (spares ++ [p]))) by (unfold room; rewrite length_app; cbn [length]; lia). rewrite Er. cbn [take drop]. rewrite <- (app_assoc spares). done.
  - assert (Er : room spares = 0%nat) by (unfold room; lia). rewrite Er. cbn [take drop]. unfold free_entry. rewrite (deref_ok _ _ _ Ep). cbn [mbind res_bind].
    set (h1 := Pool (delete p h.(entries)) h.(blocks) h.(serve)).
    assert (HF1 : dll (Some p) (M ++ rest) qn h1.(entries)).
    { eapply dll_agree; [exact HF|]. apply Forall_forall. intros x Hx%(list_elem_of_fmap_2 fst). cbn. rewrite lookup_delete_ne by (intros ->; done). done. }
    destruct (IH (Some p) rest qn h1 spares HF1 Hn) as (h' & E & Hb & Hs & H1 & H2). rewrite Er in *. cbn [take drop] in *. exists h'. rewrite E. split; [done|]. split; [done|]. split; [done|]. split.
    + intros q [->|Hq]%elem_of_cons; [|by apply H1]. rewrite H2 by done. apply lookup_delete_eq.
    + intros q Hq. rewrite elem_of_cons in Hq. rewrite H2 by tauto. cbn. rewrite lookup_delete_ne by (intros ->; tauto). done.
Qed.

(** The two loops of [ks_list_clear]: spares first, then the others are freed. *)
Lemma clear_spare_ok M : forall pp t dt h spares fuel, dll pp (M ++ [(t, dt)]) None h.(entries) -> NoDup (M ++ [(t, dt)]).*1 -> (length M < fuel)%nat ->
  clear_spare fuel false (head_of (M ++ [(t, dt)]) None) (Some t) spares h =
  Ok (head_of (drop (room spares) M ++ [(t, dt)]) None, spares ++ take (room spares) M.*1, h).
Proof.
  induction M as [|[p d] M IH]; intros pp t dt h spares fuel HF Hn Hf; (destruct fuel as [|fuel]; [cbn in Hf; lia|]); cbn [app clear_spare head_of].
  { rewrite (bool_decide_false (Some t <> Some t)) by auto. rewrite andb_false_r. change ([].*1) with (@nil positive). by rewrite take_nil, drop_nil, app_nil_r. }
  cbn [app dll] in HF. destruct HF as [Ep HF]. cbn [app fmap list_fmap] in Hn. apply NoDup_cons in Hn as [Hp Hn]. change (p, d).1 with p in *.
  assert (Hpt : Some p <> Some t). { intros [= ->]. apply Hp. rewrite fmap_app, elem_of_app. right. by constructor. }
  rewrite (bool_decide_true _ Hpt), andb_true_r. cbn [fmap list_fmap]. change (p, d).1 with p. destruct (bool_decide_reflect (length spares < SIMCLIST_MAX_SPARE_ELEMS)%nat) as [Hlt|Hge].
  - unfold drop_data. cbn [mbind res_bind]. change (0 =? 0) with true. cbv iota. cbn [mbind res_bind]. unfold get_next. rewrite (deref_ok _ _ _ Ep). cbn [mbind res_bind next].
    rewrite (IH (Some p)) by (done || (cbn in Hf; lia)).
    assert (Er : room spares = S (room (spares ++ [p]))) by (unfold room; rewrite length_app; cbn [length]; lia). rewrite Er. cbn [take drop]. rewrite <- (app_assoc spares). done.
  - assert (Er : room spares = 0%nat) by (unfold room; lia). rewrite Er. cbn [take drop]. by rewrite app_nil_r.
Qed.

Lemma clear_free_ok M : forall pp t dt h fuel, dll pp (M ++ [(t, dt)]) None h.(entries) -> NoDup (M ++ [(t, dt)]).*1 -> (length M < fuel)%nat ->
  exists h', clear_free fuel false (head_of (M ++ [(t, dt)]) None) (Some t) h = Ok h' /\ h'.(blocks) = h.(blocks) /\ h'.(serve) = h.(serve) /\
    (forall q, q ∈ M.*1 -> h'.(entries) !! q = None) /\ (forall q, q ∉ M.*1 -> q <> t -> h'.(entries) !! q = h.(entries) !! q) /\ exists pv, h'.(entries) !! t = Some (Entry dt None pv).
Proof.
  induction M as [|[p d] M IH]; intros pp t dt h fuel HF Hn Hf; (destruct fuel as [|fuel]; [cbn in Hf; lia|]); cbn [app clear_free head_of].
  { rewrite bool_decide_true by done. exists h. destruct HF as [Et _]. repeat split; try done; [intros q Hq; inversion Hq|by eexists]. }
  cbn [app dll] in HF. destruct HF as [Ep HF]. cbn [app fmap list_fmap] in Hn. apply NoDup_cons in Hn as [Hp Hn]. change (p, d).1 with p in *.
  assert (Hpt : p <> t). { intros ->. apply Hp. rewrite fmap_app, elem_of_app. right. by constructor. }
  rewrite bool_decide_false by congruence. unfold drop_data. cbn [mbind res_bind]. change (0 =? 0) with true. cbv iota. cbn [mbind res_bind]. unfold get_next. rewrite (deref_ok _ _ _ Ep). cbn [mbind res_bind next].
  destruct (M ++ [(t, dt)]) as [|[n dn] N] eqn:EN; [by destruct M|]. cbn [head_of dll] in *. destruct HF as [En HN]. unfold get_prev. rewrite (deref_ok _ _ _ En). cbn [mbind res_bind prev].
  unfold free_entry. rewrite (deref_ok _ _ _ Ep). cbn [mbind res_bind]. cbn [fmap list_fmap] in Hn, Hp. change (n, dn).1 with n in *. rewrite elem_of_cons in Hp.
  assert (En1 : (Pool (delete p h.(entries)) h.(blocks) h.(serve)).(entries) !! n = Some (Entry dn (head_of N None) (Some p))) by (cbn; rewrite lookup_delete_ne by (intros ->; tauto); done).
  rewrite (set_prev_ok _ _ _ _ En1). cbn [mbind res_bind data next prev]. set (h1 := set_entry _ _ _).
  assert (Hout : forall q, q <> p -> q <> n -> h1.(entries) !! q = h.(entries) !! q) by (intros q H1 H2; unfold h1; rewrite lookup_set, decide_False by done; cbn; by rewrite lookup_delete_ne).
  assert (HF1 : dll None (M ++ [(t, dt)]) None h1.(entries)).
  { rewrite EN. cbn [dll]. split; [unfold h1; by rewrite lookup_set, decide_True|]. eapply dll_agree; [exact HN|]. apply NoDup_cons in Hn as [Hn1 _].
    apply Forall_forall. intros x Hx%(list_elem_of_fmap_2 fst). apply Hout; intros E; rewrite E in Hx; tauto. }
  destruct (IH None t dt h1 fuel HF1) as (h' & E & Hb & Hs & H1 & H2 & pv & Ht); [by rewrite EN|cbn in Hf; lia|]. exists h'. rewrite EN in E. cbn [head_of] in E. rewrite E. split; [done|]. split; [done|]. split; [done|].
  assert (HnM : n = t \/ n ∈ M.*1). { destruct M as [|[m dm] M]; injection EN as <- <- <-; [by left|right; by constructor]. }
  assert (HpM : p ∉ M.*1). { intros Hin. assert (p ∈ (M ++ [(t, dt)]).*1) as Hin2 by (rewrite fmap_app, elem_of_app; by left). rewrite EN in Hin2. cbn in Hin2. rewrite elem_of_cons in Hin2. tauto. }
  cbn [fmap list_fmap]. change (p, d).1 with p. split; [|split; [|by exists pv]].
  - intros q [->|Hq]%elem_of_cons; [|by apply H1]. rewrite H2 by done. unfold h1. rewrite lookup_set, decide_False by (intros ->; tauto). cbn. apply lookup_delete_eq.
  - intros q Hq Hqt. rewrite elem_of_cons in Hq. rewrite H2 by tauto. apply Hout; [tauto|]. intros ->. destruct HnM; tauto.
Qed.

Lemma full_perm hd n1 M n2 tl : (full hd (n1 ++ M ++ n2) tl).*1 ≡ₚ M.*1 ++ (full hd (n1 ++ n2) tl).*1.
Proof.
  unfold full. cbn [fmap list_fmap]. rewrite !fmap_app. change (hd, 0).1 with hd. rewrite <- !app_assoc. rewrite <- Permutation_middle. apply perm_skip.
  rewrite (app_assoc n1.*1), (Permutation_app_comm n1.*1), <- app_assoc. done.
Qed.

(** [M] taken out: its first entries become spares, the others are freed. *)
Lemma rep_shrink l h R hd tl n1 M n2 l' h' : rep l h R hd tl (n1 ++ M ++ n2) -> dll None (full hd (n1 ++ n2) tl) None h'.(entries) ->
  l'.(head_sentinel) = l.(head_sentinel) -> l'.(tail_sentinel) = l.(tail_sentinel) -> l'.(spareels) = l.(spareels) ++ take (room l.(spareels)) M.*1 ->
  l'.(numels) = zlen (n1 ++ n2) -> l'.(mid) = mid_of (n1 ++ n2) ->
  (forall q, q ∈ drop (room l.(spareels)) M.*1 -> h'.(entries) !! q = None) ->
  (forall q, q ∉ drop (room l.(spareels)) M.*1 -> q ∉ (full hd (n1 ++ n2) tl).*1 -> h'.(entries) !! q = h.(entries) !! q) ->
  rep l' h' R hd tl (n1 ++ n2).
Proof.
  intros Hr HF' Eh Et Esp En Em Hfreed Hkept. set (S0 := l.(spareels)) in *. set (K := take (room S0) M.*1) in *. set (D := drop (room S0) M.*1) in *. set (F' := (full hd (n1 ++ n2) tl).*1) in *.
  assert (EM : M.*1 = K ++ D) by (symmetry; apply take_drop).
  assert (Hperm : (full hd (n1 ++ M ++ n2) tl).*1 ++ S0 ≡ₚ D ++ F' ++ S0 ++ K).
  { rewrite full_perm, EM. fold F'. rewrite <- !app_assoc. rewrite (Permutation_app_comm K). rewrite <- !app_assoc. done. }
  pose proof (r_nodup _ _ _ _ _ _ Hr) as Hn. fold S0 in Hn. rewrite Hperm in Hn. apply NoDup_app in Hn as (HnD & HD & Hn). pose proof Hn as Hn2. apply NoDup_app in Hn2 as (_ & HF2 & HnS).
  pose proof (r_foreign _ _ _ _ _ _ Hr) as Hfo. fold S0 in Hfo. rewrite Hperm in Hfo. apply Forall_app in Hfo as [HfoD Hfo].
  pose proof (r_alloc _ _ _ _ _ _ Hr) as Hal. fold S0 in Hal. pose proof (r_spares _ _ _ _ _ _ Hr) as Hlen. fold S0 in Hlen.
  assert (Hsame : forall q, q ∈ S0 ++ K -> h'.(entries) !! q = h.(entries) !! q).
  { intros q Hq. apply Hkept; intros Hin; [apply (HD q Hin)|by apply (HF2 q Hin)]. apply elem_of_app. by right. }
  constructor; rewrite ?Esp.
  - rewrite Eh. apply (r_head _ _ _ _ _ _ Hr).
  - rewrite Et. apply (r_tail _ _ _ _ _ _ Hr).
  - done.
  - exact Hn.
  - done.
  - pose proof (r_bound _ _ _ _ _ _ Hr) as Hb. rewrite !zlen_app in *. pose proof (zlen_nonneg M). lia.
  - done.
  - rewrite length_app. unfold K. rewrite length_take. unfold room. fold S0. lia.
  - apply Forall_app. split; apply Forall_forall; intros q Hq; (rewrite Hsame by (apply elem_of_app; auto)); [by apply (proj1 (Forall_forall _ _) Hal)|].
    assert (Hq2 : q ∈ (full hd (n1 ++ M ++ n2) tl).*1) by (rewrite full_perm, EM, !elem_of_app; auto). apply list_elem_of_fmap in Hq2 as ([q' d] & -> & Hq2). apply list_elem_of_lookup in Hq2 as [i Hi].
    cbn. by rewrite (rep_get _ _ _ _ _ _ _ _ _ Hr Hi).
  - intros q Hq. destruct (decide (q ∈ D)) as [HqD|HqD].
    + rewrite Hfreed by done. symmetry. by apply (proj1 (Forall_forall _ _) HfoD).
    + rewrite Hkept by (done || (intros Hin; apply Hq, elem_of_app; by left)). apply (r_frame _ _ _ _ _ _ Hr). fold S0. rewrite Hperm, elem_of_app. tauto.
  - exact Hfo.
Qed.

Lemma clear_ok l h R hd tl ns : rep l h R hd tl ns -> l.(attrs).(copy_data) = false -> l.(iter_active) = false ->
  exists l' h', ks_list_clear l h = Ok (zlen ns, l', h') /\ rep l' h' R hd tl [] /\ h'.(blocks) = h.(blocks) /\ h'.(serve) = h.(serve) /\ alike l l'.
Proof.
  intros Hr Hcopy Hit. pose proof (rep_seg _ _ _ _ _ _ Hr) as HF. pose proof (rep_nodup _ _ _ _ _ _ Hr) as Hnd. pose proof (rep_fuel _ _ _ _ _ _ Hr) as Hfuel. pose proof (r_bound _ _ _ _ _ _ Hr) as Hb. unfold limit in Hb.
  pose proof (zlen_nonneg ns). unfold ks_list_clear. rewrite Hit, Hcopy, (rep_head _ _ _ _ _ _ Hr), (next_at _ h HF) by (rewrite full_length; lia). cbn [mbind res_bind].
  assert (E1 : at_ (full hd ns tl) 1 = head_of (ns ++ [(tl, 0)]) None) by (unfold full, at_; destruct ns as [|[]]; done). rewrite E1, (r_tail _ _ _ _ _ _ Hr).
  unfold full in HF, Hnd. cbn [dll] in HF. destruct HF as [Ehd HF]. cbn [fmap list_fmap] in Hnd. apply NoDup_cons in Hnd as [Hhd Hnd]. change (hd, 0).1 with hd in *.
  rewrite (clear_spare_ok ns (Some hd)) by done. cbn [mbind res_bind]. set (r := room l.(spareels)).
  assert (HFd : dll (end_of (take r ns) (Some hd)) (drop r ns ++ [(tl, 0)]) None h.(entries)).
  { rewrite <- (take_drop r ns) in HF at 1. rewrite <- app_assoc, dll_app in HF. apply HF. }
  assert (Hndd : NoDup (drop r ns ++ [(tl, 0)]).*1).
  { rewrite <- (take_drop r ns) in Hnd at 1. rewrite <- app_assoc, fmap_app in Hnd. by apply NoDup_app in Hnd as (_ & _ & ?). }
  destruct (clear_free_ok (drop r ns) _ tl 0 h (entry_fuel h) HFd Hndd) as (h1 & E & Hb1 & Hs1 & H1 & H2 & pv & Ht); [rewrite length_drop; lia|]. rewrite E. cbn [mbind res_bind].
  assert (Hin : forall q, q ∈ (drop r ns).*1 -> q ∈ ns.*1) by (intros q; rewrite <- (take_drop r ns) at 2; rewrite fmap_app, elem_of_app; auto).
  rewrite fmap_app, elem_of_app in Hhd. assert (Hht : hd <> tl) by (intros ->; apply Hhd; right; by constructor).
  assert (Ehd1 : h1.(entries) !! hd = Some (Entry 0 (head_of (ns ++ [(tl, 0)]) None) None)) by (rewrite H2 by (done || (intros Hi; apply Hhd; left; by apply Hin)); done).
  change (at_ (full hd ns tl) 0) with (Some hd). rewrite (set_next_ok _ _ _ _ Ehd1). cbn [mbind res_bind data next prev].
  rewrite (set_prev_ok tl (Some hd) (Entry 0 None pv)) by (by rewrite lookup_set, decide_False by done). cbn [mbind res_bind data next prev]. rewrite (r_numels _ _ _ _ _ _ Hr), s32_id by lia.
  match goal with |- context [assert_repOk ?x ?y] => set (l2 := x); set (h2 := y) end.
  assert (Hh2 : forall q, q <> hd -> q <> tl -> h2.(entries) !! q = h1.(entries) !! q) by (intros q Hq1 Hq2; unfold h2; by rewrite !lookup_set, !decide_False).
  assert (Htl : tl ∉ ns.*1). { rewrite fmap_app in Hnd. apply NoDup_app in Hnd as (_ & Hnd & _). intros Hi. apply (Hnd _ Hi). by constructor. }
  assert (Hr2 : rep l2 h2 R hd tl ([] ++ [])).
  { apply (rep_shrink l h R hd tl [] ns [] l2 h2); rewrite ?app_nil_r; try done.
    - unfold full, h2. cbn [app dll head_of]. split; [by rewrite !lookup_set, decide_False, decide_True by done|]. split; [by rewrite lookup_set, decide_True by done|done].
    - intros q Hq. rewrite <- fmap_drop in Hq. rewrite Hh2; [by apply H1| |]; intros ->; [apply Hhd; left; by apply Hin|by apply Htl, Hin].
    - intros q Hq Hq2. rewrite <- fmap_drop in Hq. cbn in Hq2. rewrite !elem_of_cons in Hq2. rewrite Hh2 by tauto. apply H2; tauto. }
  cbn [app] in Hr2. rewrite (assert_rep _ _ _ _ _ _ Hr2). cbn [mbind res_bind]. exists l2, h2. split; [done|]. split; [done|]. done.
Qed.

(** [mid] moves to where the middle will be. *)
Lemma mid_range l h R hd tl n1 M n2 (ns := n1 ++ M ++ n2) : rep l h R hd tl ns -> (0 < length M)%nat -> (0 < length (n1 ++ n2))%nat ->
  (let midposafter := u32 (zlen ns - 1 - zlen M) / 2 in
   let midposafter := if midposafter <? zlen n1 then midposafter else u32 (midposafter + zlen M) in
   let movedx := s32 (u32 (midposafter - u32 (zlen ns - 1) / 2)) in
   if 0 <? movedx then forward (Z.to_nat movedx) l.(mid) h else backward (Z.to_nat (- movedx)) l.(mid) h) = Ok (mid_of (n1 ++ n2)).
Proof.
  intros Hr HM Hne. pose proof (rep_seg _ _ _ _ _ _ Hr) as HF. pose proof (rep_bound _ _ _ _ _ _ Hr) as Hb. unfold limit in Hb. pose proof (full_length hd ns tl) as HL.
  assert (Hl : length ns = (length n1 + length M + length n2)%nat) by (unfold ns; rewrite !length_app; lia). rewrite length_app in Hne.
  set (n := length ns) in *. set (k := ((n - 1 - length M) / 2)%nat). set (m0 := ((n - 1) / 2)%nat).
  assert (Hk : (k <= n - 1 - length M)%nat) by (apply Nat.Div0.div_le_upper_bound; lia). assert (Hm0 : (m0 <= n - 1)%nat) by (apply Nat.Div0.div_le_upper_bound; lia).
  assert (E1 : u32 (zlen ns - 1 - zlen M) / 2 = Z.of_nat k). { unfold zlen. fold n. rewrite u32_id by lia. unfold k. rewrite Nat2Z.inj_div. f_equal. lia. }
  assert (E2 : u32 (zlen ns - 1) / 2 = Z.of_nat m0). { unfold zlen. fold n. rewrite u32_id by lia. unfold m0. rewrite Nat2Z.inj_div. f_equal. lia. }
  rewrite E1, E2. cbv zeta. set (k' := if (k <? length n1)%nat then k else (k + length M)%nat).
  assert (E3 : (if Z.of_nat k <? zlen n1 then Z.of_nat k else u32 (Z.of_nat k + zlen M)) = Z.of_nat k').
  { unfold k', zlen. destruct (Z.ltb_spec (Z.of_nat k) (Z.of_nat (length n1))), (Nat.ltb_spec k (length n1)); try lia. rewrite u32_id by lia. lia. }
  rewrite E3. assert (Hk' : (k' <= n - 1)%nat) by (unfold k'; destruct (k <? length n1)%nat; lia).
  assert (Emov : s32 (u32 (Z.of_nat k' - Z.of_nat m0)) = Z.of_nat k' - Z.of_nat m0).
  { unfold s32, u32. destruct (Z.le_gt_cases 0 (Z.of_nat k' - Z.of_nat m0)).
    - rewrite (Z.mod_small (Z.of_nat k' - Z.of_nat m0)) by lia. rewrite Z.mod_small by lia. lia.
    - rewrite <- (Z.mod_unique_pos (Z.of_nat k' - Z.of_nat m0) 4294967296 (-1) (Z.of_nat k' - Z.of_nat m0 + 4294967296)) by lia.
      rewrite <- (Z.mod_unique_pos _ 4294967296 1 (Z.of_nat k' - Z.of_nat m0 + 2147483648)) by lia. lia. }
  rewrite Emov. assert (Emid : l.(mid) = at_ (full hd ns tl) (S m0)).
  { rewrite (r_mid _ _ _ _ _ _ Hr), (mid_full hd ns tl). fold n. unfold m0. destruct n as [|j]; [lia|]. by rewrite Nat.sub_succ, Nat.sub_0_r. }
  assert (Eat : at_ (full hd ns tl) (S k') = mid_of (n1 ++ n2)).
  { rewrite full_inner by lia. unfold mid_of. rewrite length_app. assert (En : (length n1 + length n2 = S (n - 1 - length M))%nat) by lia. rewrite En. fold k. unfold at_, ns, k'.
    destruct (Nat.ltb_spec k (length n1)); [by rewrite !lookup_app_l by done|]. rewrite !lookup_app_r by lia. f_equal. f_equal. lia. }
  rewrite <- Eat, Emid. destruct (Z.ltb_spec 0 (Z.of_nat k' - Z.of_nat m0)).
  - rewrite (forward_at _ h HF) by lia. do 2 f_equal. lia.
  - rewrite (backward_at _ h HF) by lia. do 2 f_equal. lia.
Qed.

Lemma delete_range_ok l h R hd tl n1 M n2 : rep l h R hd tl (n1 ++ M ++ n2) -> (0 < length M)%nat -> l.(attrs).(copy_data) = false -> l.(iter_active) = false ->
  exists l' h', ks_list_delete_range l (zlen n1) (zlen n1 + zlen M - 1) h = Ok (zlen M, l', h') /\ rep l' h' R hd tl (n1 ++ n2) /\
    h'.(blocks) = h.(blocks) /\ h'.(serve) = h.(serve) /\ alike l l'.
Proof.
  intros Hr HM Hcopy Hit. pose proof (rep_seg _ _ _ _ _ _ Hr) as HF. pose proof (rep_nodup _ _ _ _ _ _ Hr) as Hnd. pose proof (r_bound _ _ _ _ _ _ Hr) as Hb. unfold limit in Hb.
  pose proof (zlen_nonneg n1). pose proof (zlen_nonneg n2). assert (HzM : 1 <= zlen M) by (unfold zlen; lia). assert (Hz : zlen (n1 ++ M ++ n2) = zlen n1 + zlen M + zlen n2) by (rewrite !zlen_app; lia).
  unfold ks_list_delete_range. rewrite Hit, (r_numels _ _ _ _ _ _ Hr). destruct (Z.ltb_spec (zlen n1 + zlen M - 1) (zlen n1)); [lia|]. destruct (Z.leb_spec (zlen (n1 ++ M ++ n2)) (zlen n1 + zlen M - 1)); [lia|]. cbn [orb].
  assert (End : u32 (zlen n1 + zlen M - 1 - zlen n1 + 1) = zlen M) by (rewrite u32_id; lia). rewrite End. destruct (Z.eqb_spec (zlen M) (zlen (n1 ++ M ++ n2))) as [Eall|Hne].
  { assert (n1 = [] /\ n2 = []) as [-> ->] by (split; apply zlen_zero; lia). rewrite app_nil_r in *. cbn [app] in *.
    destruct (clear_ok l h R hd tl M Hr Hcopy Hit) as (l' & h' & E & ?). by exists l', h'. }
  assert (Hlen : (0 < length (n1 ++ n2))%nat) by (rewrite length_app; unfold zlen in *; lia).
  destruct M as [|x M0] eqn:EM0; [cbn in HM; lia|]. rewrite <- EM0 in *. assert (Er1 : rep l h R hd tl (n1 ++ x :: (M0 ++ n2))) by (by rewrite EM0 in Hr).
  rewrite (findpos_middle _ _ _ _ _ _ _ _ Er1). cbn [mbind res_bind].
  destruct (full_split hd n1 n2 tl) as (A & pa & da & qa & dq & B & EA & EB & EF & EMM & EL). pose proof (EMM M) as EF1.
  assert (Epx : get_prev (Some x.1) h = Ok (Some pa)).
  { rewrite <- (at_middle hd n1 x (M0 ++ n2) tl). rewrite EM0 in HF, EF1. cbn [app] in HF, EF1. rewrite (prev_at _ h HF) by (rewrite full_length, length_app; cbn; lia). cbn [before]. unfold at_. rewrite EF1.
    by rewrite <- EL, list_lookup_middle. }
  rewrite Epx. cbn [mbind res_bind]. pose proof (mid_range l h R hd tl n1 M n2 Hr HM Hlen) as Hmid. cbv zeta in Hmid. rewrite Hmid. cbn [mbind res_bind].
  assert (Hassert : ks_assert ((zlen n1 =? 0) || bool_decide (Some pa <> head_sentinel l)) = Ok tt).
  { destruct (Z.eqb_spec (zlen n1) 0); [done|]. rewrite bool_decide_true; [done|]. rewrite (r_head _ _ _ _ _ _ Hr). intros [= ->].
    assert (E : at_ (full hd (n1 ++ M ++ n2) tl) (length n1) = at_ (full hd (n1 ++ M ++ n2) tl) 0) by (transitivity (Some hd); [unfold at_; rewrite EF1, <- EL, list_lookup_middle; done|done]).
    apply at_inj in E; [unfold zlen in *; lia|done|rewrite full_length, !length_app; lia..]. }
  rewrite Hassert. cbn [mbind res_bind]. rewrite Hcopy. rewrite EF1 in HF, Hnd. rewrite dll_app in HF. destruct HF as [HFA HF]. cbn [dll] in HF. destruct HF as [Epa HF].
  assert (HndM : NoDup (M ++ (qa, dq) :: B).*1 /\ pa ∉ (M ++ (qa, dq) :: B).*1).
  { rewrite fmap_app in Hnd. apply NoDup_app in Hnd as (_ & _ & Hnd). cbn [fmap list_fmap] in Hnd. by apply NoDup_cons in Hnd as [? ?]. }
  destruct HndM as [HndM Hpa]. rewrite fmap_app in Hpa. cbn [fmap list_fmap] in Hpa. rewrite elem_of_app, elem_of_cons in Hpa. change (qa, dq).1 with qa in Hpa.
  destruct (drop_range_ok M _ _ _ h l.(spareels) HF HndM) as (h1 & Edr & Hb1 & Hs1 & Hfree & Hkeep). cbn [head_of] in Edr.
  replace (Z.to_nat (zlen M)) with (length M) by (unfold zlen; lia). assert (Efx : head_of (M ++ (qa, dq) :: B) None = Some x.1) by (rewrite EM0; by destruct x). rewrite Efx in Edr. rewrite Edr. cbn [mbind res_bind].
  destruct (Z.eqb_spec (zlen n1 + zlen M - 1) (zlen (n1 ++ M ++ n2))); [lia|]. cbn [negb orb ks_assert mbind res_bind].
  assert (HD : forall q, q ∈ drop (room (spareels l)) M.*1 -> q ∈ M.*1) by (intros q; rewrite <- (take_drop (room (spareels l)) M.*1) at 2; rewrite elem_of_app; auto).
  rewrite fmap_app in HndM. apply NoDup_app in HndM as (_ & HMB & HndB). cbn [fmap list_fmap] in HndB. apply NoDup_cons in HndB as [HqB _]. change (qa, dq).1 with qa in *.
  assert (HqM : qa ∉ M.*1) by (intros Hi; apply (HMB _ Hi); constructor).
  assert (Hpq : pa <> qa) by tauto.
  rewrite (set_next_ok _ _ (Entry da (Some x.1) (end_of A None))) by (rewrite Hkeep by (intros Hi; apply HD in Hi; tauto); rewrite Epa, Efx; done). cbn [mbind res_bind data prev].
  assert (Eqa : exists pq, h.(entries) !! qa = Some (Entry dq (head_of B None) pq)). { rewrite dll_app in HF. destruct HF as [_ HF]. cbn [dll] in HF. destruct HF as [E _]. eauto. }
  destruct Eqa as [pq Eqa]. rewrite (set_prev_ok _ _ (Entry dq (head_of B None) pq)) by (rewrite lookup_set, decide_False by done; rewrite Hkeep by (intros Hi; by apply HD in Hi); done). cbn [mbind res_bind data next].
  match goal with |- context [assert_repOk ?x1 ?y1] => set (l2 := x1); set (h2 := y1) end.
  assert (Hout : forall q, q <> pa -> q <> qa -> h2.(entries) !! q = h1.(entries) !! q) by (intros q ? ?; unfold h2; by rewrite !lookup_set, !decide_False).
  assert (Hr2 : rep l2 h2 R hd tl (n1 ++ n2)).
  { apply (rep_shrink l h R hd tl n1 M n2); try done.
    - rewrite EF. apply (dll_splice A pa da M [] qa dq B h.(entries)).
      + rewrite dll_app. split; [done|]. cbn [dll]. by split.
      + rewrite fmap_app in Hnd. apply NoDup_app in Hnd as (_ & HA & _). apply Forall_forall. intros y Hy%(list_elem_of_fmap_2 fst). specialize (HA _ Hy). cbn [fmap list_fmap] in HA.
        rewrite fmap_app, elem_of_cons, elem_of_app in HA. cbn [fmap list_fmap] in HA. rewrite elem_of_cons in HA. change (pa, da).1 with pa in HA. change (qa, dq).1 with qa in HA.
        rewrite Hout by tauto. apply Hkeep. intros Hi%HD. tauto.
      + apply Forall_forall. intros y Hy%(list_elem_of_fmap_2 fst). rewrite Hout by (intros E; rewrite E in Hy; tauto). apply Hkeep. intros Hi%HD. apply (HMB _ Hi). by constructor.
      + unfold h2. by rewrite !lookup_set, decide_False, decide_True.
      + unfold h2. by rewrite !lookup_set, decide_True.
      + done.
    - cbn. rewrite u32_id by lia. rewrite !zlen_app. lia.
    - intros q Hq. rewrite Hout; [by apply Hfree|intros ->; apply HD in Hq; tauto|intros ->; by apply HD in Hq].
    - intros q Hq Hq2. rewrite EF, fmap_app in Hq2. cbn [fmap list_fmap] in Hq2. rewrite elem_of_app, !elem_of_cons in Hq2. change (pa, da).1 with pa in Hq2. change (qa, dq).1 with qa in Hq2.
      rewrite Hout by tauto. by apply Hkeep. }
  rewrite (assert_rep _ _ _ _ _ _ Hr2). cbn [mbind res_bind]. exists l2, h2. rewrite s32_id by lia. done.
Qed.

(** ** The beginning and the end of a list *)

Lemma alloc_entry_ok h : served h -> exists p h', alloc_entry h = (Some p, h') /\ h.(entries) !! p = None /\
  h' = Pool (<[p := Entry 0 None None]> h.(entries)) h.(blocks) [].
Proof.
  intros Hs. unfold alloc_entry, answer. rewrite Hs. do 2 eexists. split; [reflexivity|]. split; [apply not_elem_of_dom, is_fresh|]. cbn. by rewrite Hs.
Qed.

Lemma create_ok h : served h -> exists l h' hd tl, ks_list_create h = Ok (l, h') /\ rep l h' h.(entries) hd tl [] /\ same_pool h h' /\
  l.(iter_active) = false /\ l.(attrs) = defaults.
Proof.
  intros Hs. unfold ks_list_create. destruct (alloc_entry_ok h Hs) as (hd & h1 & -> & Hhd & ->).
  destruct (alloc_entry_ok (Pool (<[hd := Entry 0 None None]> h.(entries)) h.(blocks) []) eq_refl) as (tl & h2 & -> & Htl & ->). cbn [entries blocks] in *.
  assert (Hne : hd <> tl) by (intros ->; by rewrite lookup_insert_eq in Htl). rewrite lookup_insert_ne in Htl by done.
  set (h2 := Pool _ _ _). assert (E1 : h2.(entries) !! hd = Some (Entry 0 None None)) by (cbn; rewrite lookup_insert_ne, lookup_insert_eq by done; done).
  assert (E2 : h2.(entries) !! tl = Some (Entry 0 None None)) by (cbn; by rewrite lookup_insert_eq).
  rewrite (set_next_ok _ _ _ _ E1). cbn [mbind res_bind data prev next]. clear E1.
  erewrite set_prev_ok by (lookup_tac; exact E2). cbn [mbind res_bind data prev next]. clear E2.
  erewrite set_next_ok by (lookup_tac; done). cbn [mbind res_bind data prev next].
  erewrite set_prev_ok by (lookup_tac; done). cbn [mbind res_bind data prev next].
  erewrite set_data_ok by (lookup_tac; done). cbn [mbind res_bind data prev next].
  erewrite set_data_ok by (lookup_tac; done). cbn [mbind res_bind data prev next].
  match goal with |- context [assert_repOk ?x ?y] => set (l := x); set (h3 := y) end.
  assert (Hr : rep l h3 h.(entries) hd tl []).
  { constructor; try done.
    - cbn [full app dll head_of]. unfold h3. split; [by lookup_tac|]. split; [by lookup_tac|done].
    - cbn. constructor; [intros [E|E%elem_of_nil]%elem_of_cons; done|]. constructor; [apply not_elem_of_nil|constructor].
    - cbn. lia.
    - intros p Hp. cbn in Hp. rewrite !elem_of_cons in Hp. assert (p <> hd /\ p <> tl) as [? ?] by tauto. unfold h3. lookup_tac. cbn. by rewrite !lookup_insert_ne.
    - cbn. by repeat constructor. }
  rewrite (assert_rep _ _ _ _ _ _ Hr). cbn. exists l, h3, hd, tl. done.
Qed.

Lemma free_all_ok ps : forall h, NoDup ps -> Forall (fun p => is_Some (h.(entries) !! p)) ps ->
  exists h', free_all ps h = Ok h' /\ h'.(blocks) = h.(blocks) /\ h'.(serve) = h.(serve) /\
    (forall q, q ∈ ps -> h'.(entries) !! q = None) /\ (forall q, q ∉ ps -> h'.(entries) !! q = h.(entries) !! q).
Proof.
  induction ps as [|p ps IH]; intros h Hn Ha; cbn [free_all]; [exists h; repeat split; try done; intros q Hq; inversion Hq|].
  apply NoDup_cons in Hn as [Hp Hn]. apply Forall_cons in Ha as [[e He] Ha]. unfold free_entry. rewrite (deref_ok _ _ _ He). cbn [mbind res_bind].
  destruct (IH (Pool (delete p h.(entries)) h.(blocks) h.(serve)) Hn) as (h' & E & Hb & Hs & H1 & H2).
  { apply Forall_forall. intros q Hq. cbn. rewrite lookup_delete_ne by (intros ->; done). by apply (proj1 (Forall_forall _ _) Ha). }
  exists h'. rewrite E. split; [done|]. split; [done|]. split; [done|]. split.
  - intros q [->|Hq]%elem_of_cons; [|by apply H1]. rewrite H2 by done. cbn. apply lookup_delete_eq.
  - intros q Hq. rewrite elem_of_cons in Hq. rewrite H2 by tauto. cbn. rewrite lookup_delete_ne by (intros ->; tauto). done.
Qed.

(** A destroyed list leaves the entries of others. *)
Lemma destroy_ok l h R hd tl ns : rep l h R hd tl ns -> l.(attrs).(copy_data) = false -> l.(iter_active) = false ->
  exists h', ks_list_destroy (Some l) h = Ok (KS_STATUS_SUCCESS, h') /\ h'.(entries) = R /\ h'.(blocks) = h.(blocks) /\ h'.(serve) = h.(serve).
Proof.
  intros Hr Hcopy Hit. unfold ks_list_destroy, ks_list_cleanup. destruct (clear_ok _ _ _ _ _ _ Hr Hcopy Hit) as (l1 & h1 & -> & Hr1 & Hb1 & Hs1 & _). cbn [mbind res_bind].
  pose proof (r_nodup _ _ _ _ _ _ Hr1) as Hn. cbn [full app fmap list_fmap] in Hn. change (hd, 0).1 with hd in Hn. change (tl, 0).1 with tl in Hn.
  apply NoDup_cons in Hn as [Hhd Hn]. apply NoDup_cons in Hn as [Htl Hn]. rewrite elem_of_cons in Hhd.
  destruct (free_all_ok l1.(spareels) h1 Hn (r_alloc _ _ _ _ _ _ Hr1)) as (h2 & -> & Hb2 & Hs2 & H1 & H2). cbn [mbind res_bind].
  pose proof (rep_seg _ _ _ _ _ _ Hr1) as HF. cbn [full app dll head_of] in HF. destruct HF as (Ehd & Etl & _). rewrite (r_head _ _ _ _ _ _ Hr1), (r_tail _ _ _ _ _ _ Hr1).
  unfold free_entry. rewrite (deref_ok hd _ h2 (eq_trans (H2 hd ltac:(tauto)) Ehd)). cbn [mbind res_bind].
  rewrite (deref_ok tl (Entry 0 None (Some hd))) by (cbn; rewrite lookup_delete_ne by (intros ->; tauto); by rewrite H2). cbn [mbind res_bind].
  eexists. split; [reflexivity|]. cbn. split; [|split; congruence]. apply map_eq. intros q. pose proof (r_foreign _ _ _ _ _ _ Hr1) as Hfo. cbn [full app fmap list_fmap] in Hfo.
  change (hd, 0).1 with hd in Hfo. change (tl, 0).1 with tl in Hfo. apply Forall_cons in Hfo as [Rhd Hfo]. apply Forall_cons in Hfo as [Rtl Hfo].
  destruct (decide (q = tl)) as [->|Hqt]; [by rewrite lookup_delete_eq|]. rewrite lookup_delete_ne by done. destruct (decide (q = hd)) as [->|Hqh]; [by rewrite lookup_delete_eq|]. rewrite lookup_delete_ne by done.
  destruct (decide (q ∈ l1.(spareels))) as [Hq|Hq]; [rewrite H1 by done; symmetry; by apply (proj1 (Forall_forall _ _) Hfo)|]. rewrite H2 by done.
  apply (r_frame _ _ _ _ _ _ Hr1). cbn [full app fmap list_fmap]. change (hd, 0).1 with hd. change (tl, 0).1 with tl. rewrite !elem_of_cons. tauto.
Qed.

(** ** The sequence a list is *)

(** The data in order, and how many an iteration has returned. *)
Record spec := Spec { items : list Z; cursor : option nat }.

Inductive op :=
  | InsertAt (d pos : Z) | Append (d : Z) | Prepend (d : Z) | ExtractAt (pos : Z) | Fetch | DeleteAt (pos : Z) | Delete (d : Z)
  | DeleteRange (posstart posend : Z) | Clear | GetAt (pos : Z) | Locate (d : Z) | Contains (d : Z) | Seek (indicator : Z)
  | GetMax | GetMin | Size | IsEmpty | IteratorStart | IteratorNext | IteratorHasnext | IteratorStop.

Definition run (o : op) (l : ks_list_t) (h : pool) : res (Z * ks_list_t * pool) :=
  match o with
  | InsertAt d pos => ks_list_insert_at l d pos h
  | Append d => ks_list_append l d h
  | Prepend d => ks_list_prepend l d h
  | ExtractAt pos => ks_list_extract_at l pos h
  | Fetch => ks_list_fetch l h
  | DeleteAt pos => ks_list_delete_at l pos h
  | Delete d => ks_list_delete l d h
  | DeleteRange a b => ks_list_delete_range l a b h
  | Clear => ks_list_clear l h
  | GetAt pos => d ← ks_list_get_at l pos h; Ok (d, l, h)
  | Locate d => i ← ks_list_locate l d h; Ok (i, l, h)
  | Contains d => b ← ks_list_contains l d h; Ok (Z.b2z b, l, h)
  | Seek i => d ← ks_list_seek l i h; Ok (d, l, h)
  | GetMax => d ← ks_list_get_max l h; Ok (d, l, h)
  | GetMin => d ← ks_list_get_min l h; Ok (d, l, h)
  | Size => Ok (ks_list_size l, l, h)
  | IsEmpty => Ok (Z.b2z (ks_list_empty l), l, h)
  | IteratorStart => '(r, l) ← ks_list_iterator_start l h; Ok (r, l, h)
  | IteratorNext => '(r, l) ← ks_list_iterator_next l h; Ok (r, l, h)
  | IteratorHasnext => Ok (Z.b2z (ks_list_iterator_hasnext l), l, h)
  | IteratorStop => let '(r, l) := ks_list_iterator_stop l in Ok (r, l, h)
  end.

Section Spec.
Context (a : ks_list_attributes_s) (m : gmap positive (list Z)).

(** A change outside of an iteration. *)
Definition change (s : spec) (guard : bool) (refused : Z) (result : Z) (xs : list Z) : Z * spec :=
  match s.(cursor) with
  | None => if guard then (result, Spec xs None) else (refused, s)
  | Some _ => (refused, s)
  end.
Definition insert_spec (s : spec) (d pos : Z) : Z * spec :=
  change s (pos <=? zlen s.(items)) (-1) 1 (take (Z.to_nat pos) s.(items) ++ d :: drop (Z.to_nat pos) s.(items)).
Definition extract_spec (s : spec) (pos : Z) : Z * spec :=
  change s (pos <? zlen s.(items)) 0 (default 0 (s.(items) !! Z.to_nat pos)) (delete (Z.to_nat pos) s.(items)).
Definition locate_spec (s : spec) (d : Z) : Z := match index_of (matches a m d) s.(items) with Some i => Z.of_nat i | None => -1 end.
Definition best_spec (s : spec) (versus : Z) : Z :=
  match a.(comparator), s.(items) with Some cmp, x :: xs => foldl (better (cmp m) versus) x xs | _, _ => 0 end.

Definition spec_run (o : op) (s : spec) : Z * spec :=
  let n := zlen s.(items) in
  match o with
  | InsertAt d pos => insert_spec s d pos
  | Append d => insert_spec s d n
  | Prepend d => insert_spec s d 0
  | ExtractAt pos => extract_spec s pos
  | Fetch => extract_spec s 0
  | DeleteAt pos => change s (pos <? n) (-1) 0 (delete (Z.to_nat pos) s.(items))
  | Delete d => change s (0 <=? locate_spec s d) (-1) 0 (delete (Z.to_nat (locate_spec s d)) s.(items))
  | DeleteRange a b => change s ((a <=? b) && (b <? n)) (-1) (b - a + 1) (take (Z.to_nat a) s.(items) ++ drop (Z.to_nat (b + 1)) s.(items))
  | Clear => change s true (-1) n []
  | GetAt pos => (if pos <? n then default 0 (s.(items) !! Z.to_nat pos) else 0, s)
  | Locate d => (locate_spec s d, s)
  | Contains d => (Z.b2z (0 <=? locate_spec s d), s)
  | Seek i => (match a.(seeker) with
               | Some sk => match index_of (fun x => negb (sk m x i =? 0)) s.(items) with Some i => default 0 (s.(items) !! i) | None => 0 end
               | None => 0 end, s)
  | GetMax => (best_spec s 1, s)
  | GetMin => (best_spec s (-1), s)
  | Size => (n, s)
  | IsEmpty => (Z.b2z (n =? 0), s)
  | IteratorStart => match s.(cursor) with None => (1, Spec s.(items) (Some O)) | Some _ => (0, s) end
  | IteratorNext => match s.(cursor) with Some k => (default 0 (s.(items) !! k), Spec s.(items) (Some (S k))) | None => (0, s) end
  | IteratorHasnext => (Z.b2z (match s.(cursor) with Some k => Z.of_nat k <? n | None => false end), s)
  | IteratorStop => match s.(cursor) with Some _ => (1, Spec s.(items) None) | None => (0, s) end
  end.

(** Positions are [unsigned int]s, lists are shorter than [limit], and an iteration
    does not go on behind the end of the list. *)
Definition op_ok (o : op) (s : spec) : Prop :=
  match o with
  | InsertAt _ pos => 0 <= pos < 4294967296 /\ zlen s.(items) + 1 < limit
  | Append _ | Prepend _ => zlen s.(items) + 1 < limit
  | ExtractAt pos | DeleteAt pos | GetAt pos => 0 <= pos < 4294967296
  | DeleteRange a b => 0 <= a < 4294967296 /\ 0 <= b < 4294967296
  | IteratorNext => match s.(cursor) with Some k => Z.of_nat k <= zlen s.(items) | None => True end
  | _ => True
  end.
End Spec.

(** [l] in [h] is the sequence [s]. *)
Definition is_list (a : ks_list_attributes_s) (m : gmap positive (list Z)) (R : gmap positive ks_list_entry_s) (l : ks_list_t) (h : pool) (s : spec) : Prop :=
  served h /\ h.(blocks) = m /\ l.(attrs) = a /\ exists hd tl ns, rep l h R hd tl ns /\ ns.*2 = s.(items) /\
  match s.(cursor) with
  | None => l.(iter_active) = false
  | Some k => l.(iter_active) = true /\ l.(iter_pos) = Z.of_nat k /\ Z.of_nat k <= zlen ns + 1 /\ l.(iter_curentry) = at_ (full hd ns tl) (S k)
  end.

(** ** One call is one step of the sequence *)

Lemma rep_iter l h R hd tl ns act p c : rep l h R hd tl ns -> rep (set_iter act p c l) h R hd tl ns.
Proof. intros []. by constructor. Qed.

Section Step.
Context (a : ks_list_attributes_s) (m : gmap positive (list Z)) (R : gmap positive ks_list_entry_s).
Hypothesis (Hcopy : a.(copy_data) = false) (Hcmp : forall cmp, a.(comparator) = Some cmp -> cmp_ok (cmp m)).

Lemma moved_list l h l' h' hd tl ns xs : same_pool h h' -> alike l l' -> h.(blocks) = m -> l.(attrs) = a -> l.(iter_active) = false ->
  rep l' h' R hd tl ns -> ns.*2 = xs -> is_list a m R l' h' (Spec xs None).
Proof.
  intros [Hb Hs] (Ha & _ & _ & Hat) Hm Hla Hi Hr Hx. split; [done|]. split; [congruence|]. split; [congruence|].
  exists hd, tl, ns. split; [done|]. split; [done|]. cbn. congruence.
Qed.

Lemma split_list (ns : list (positive * Z)) i : (i < length ns)%nat -> exists n1 p d n2, ns = n1 ++ (p, d) :: n2 /\ length n1 = i /\
  ns.*2 !! i = Some d /\ delete i ns.*2 = (n1 ++ n2).*2.
Proof.
  intros Hi. destruct (lookup_lt_is_Some_2 ns i Hi) as [[p d] Hp]. exists (take i ns), p, d, (drop (S i) ns).
  split; [symmetry; by apply take_drop_middle|]. split; [rewrite length_take; lia|]. split; [by rewrite list_lookup_fmap, Hp|].
  rewrite fmap_app, <- (take_drop_middle ns i _ Hp) at 1. rewrite fmap_app, fmap_cons.
  replace i with (length (take i ns).*2) at 1 by (rewrite length_fmap, length_take; lia). by rewrite delete_middle.
Qed.

Definition steps (o : op) (l : ks_list_t) (h : pool) (s : spec) : Prop :=
  exists l' h', run o l h = Ok ((spec_run a m o s).1, l', h') /\ is_list a m R l' h' (spec_run a m o s).2.

Lemma insert_step l h s d pos : is_list a m R l h s -> 0 <= pos -> zlen s.(items) + 1 < limit ->
  exists l' h', ks_list_insert_at l d pos h = Ok ((insert_spec s d pos).1, l', h') /\ is_list a m R l' h' (insert_spec s d pos).2.
Proof.
  intros Hl Hp Hn. pose proof Hl as (Hs & Hm & Ha & hd & tl & ns & Hr & Hx & Hc). unfold insert_spec, change.
  pose proof (r_numels _ _ _ _ _ _ Hr) as Hnum. assert (Hz : zlen s.(items) = zlen ns) by (rewrite <- Hx; unfold zlen; by rewrite length_fmap).
  destruct s as [xs [k|]]; cbn [cursor items] in *.
  { destruct Hc as [Hi _]. exists l, h. unfold ks_list_insert_at. by rewrite Hi. }
  rewrite Hz. destruct (Z.leb_spec pos (zlen ns)) as [Hle|Hgt].
  - rewrite <- (take_drop (Z.to_nat pos) ns) in Hr.
    destruct (insert_ok l h R hd tl _ _ d pos Hr) as (p & l' & h' & E & Hr' & Hsp & Hal);
      [done|congruence|done|unfold zlen in *; rewrite length_take; lia|by rewrite take_drop, <- Hz|].
    exists l', h'. split; [done|]. eapply (moved_list l h); try done. by rewrite <- Hx, fmap_app, fmap_cons, fmap_take, fmap_drop.
  - exists l, h. unfold ks_list_insert_at. rewrite Hnum. destruct (Z.ltb_spec (zlen ns) pos); [by rewrite orb_true_r|lia].
Qed.
Lemma zlen_items (ns : list (positive * Z)) xs : ns.*2 = xs -> zlen xs = zlen ns.
Proof. intros <-. unfold zlen. by rewrite length_fmap. Qed.

Lemma remove_step l h s pos refused result f locked : is_list a m R l h s -> 0 <= pos ->
  f = (if l.(iter_active) || (l.(numels) <=? pos) then Ok (refused, l, h) else locked) ->
  (forall hd tl n1 p d n2, rep l h R hd tl (n1 ++ (p, d) :: n2) -> zlen n1 = pos -> s.(items) !! Z.to_nat pos = Some d -> exists l' h',
    locked = Ok (result, l', h') /\ rep l' h' R hd tl (n1 ++ n2) /\ same_pool h h' /\ alike l l') ->
  let r := change s (pos <? zlen s.(items)) refused result (delete (Z.to_nat pos) s.(items)) in
  exists l' h', f = Ok (r.1, l', h') /\ is_list a m R l' h' r.2.
Proof.
  intros Hl Hp -> Hlocked r. pose proof Hl as (Hs & Hm & Ha & hd & tl & ns & Hr & Hx & Hc). subst r. unfold change.
  rewrite (r_numels _ _ _ _ _ _ Hr). rewrite (zlen_items ns _ Hx). destruct s as [xs [k|]]; cbn [cursor items] in *.
  { destruct Hc as [Hi _]. exists l, h. by rewrite Hi. }
  rewrite Hc. destruct (Z.ltb_spec pos (zlen ns)) as [Hlt|Hge].
  - destruct (split_list ns (Z.to_nat pos)) as (n1 & p & d & n2 & E & Hn & Hd & Hdel); [unfold zlen in Hlt; lia|]. subst ns xs.
    destruct (Hlocked hd tl n1 p d n2 Hr) as (l' & h' & -> & Hr' & Hsp & Hal); [unfold zlen; lia|done|].
    exists l', h'. destruct (Z.leb_spec (zlen (n1 ++ (p, d) :: n2)) pos); [lia|]. split; [done|]. by eapply (moved_list l h).
  - exists l, h. destruct (Z.leb_spec (zlen ns) pos); [done|lia].
Qed.

Lemma extract_step l h s pos : is_list a m R l h s -> 0 <= pos ->
  exists l' h', ks_list_extract_at l pos h = Ok ((extract_spec s pos).1, l', h') /\ is_list a m R l' h' (extract_spec s pos).2.
Proof.
  intros Hl Hp. unfold extract_spec. eapply remove_step; [done|done|reflexivity|]. intros hd tl n1 p d n2 Hr <- ->. destruct Hl as (Hs & Hm & Ha & _).
  eapply extract_locked_ok; [done|done|congruence].
Qed.

Lemma delete_step l h s pos : is_list a m R l h s -> 0 <= pos -> let r := change s (pos <? zlen s.(items)) (-1) 0 (delete (Z.to_nat pos) s.(items)) in
  exists l' h', ks_list_delete_at l pos h = Ok (r.1, l', h') /\ is_list a m R l' h' r.2.
Proof.
  intros Hl Hp. eapply remove_step; [done|done|reflexivity|]. intros hd tl n1 p d n2 Hr <- _. destruct Hl as (Hs & Hm & Ha & _).
  eapply delete_locked_ok; [done|done|congruence].
Qed.

Lemma locate_step l h s d : is_list a m R l h s -> ks_list_locate l d h = Ok (locate_spec a m s d).
Proof. intros (_ & Hm & Ha & hd & tl & ns & Hr & Hx & _). rewrite (locate_ok _ _ _ _ _ _ _ Hr). unfold locate_spec. by rewrite Ha, Hm, Hx. Qed.

Lemma locate_range s d : -1 <= locate_spec a m s d < zlen s.(items).
Proof.
  unfold locate_spec, zlen. destruct (index_of _ _) as [i|] eqn:E; [|lia]. apply index_of_lt in E. lia.
Qed.

Lemma is_list_repOk l h s : is_list a m R l h s -> assert_repOk l h = Ok tt.
Proof. intros (_ & _ & _ & hd & tl & ns & Hr & _). by eapply assert_rep. Qed.

Lemma delete_datum_step l h s d : is_list a m R l h s -> steps (Delete d) l h s.
Proof.
  intros Hl. unfold steps. cbn [run spec_run]. unfold ks_list_delete. rewrite (locate_step _ _ _ _ Hl). cbn [mbind res_bind].
  pose proof (locate_range s d) as Hr. unfold change. destruct (Z.ltb_spec (locate_spec a m s d) 0) as [Hlt|Hge].
  { destruct (Z.leb_spec 0 (locate_spec a m s d)); [lia|]. cbn [mbind res_bind]. rewrite (is_list_repOk _ _ _ Hl). exists l, h.
    by destruct s as [xs [k|]]. }
  destruct (Z.leb_spec 0 (locate_spec a m s d)); [|lia].
  destruct (delete_step l h s (locate_spec a m s d) Hl Hge) as (l' & h' & -> & Hl'). unfold change in *. cbn [mbind res_bind].
  destruct (Z.ltb_spec (locate_spec a m s d) (zlen s.(items))); [|lia].
  exists l', h'. destruct s as [xs [k|]]; cbn in *; by rewrite (is_list_repOk _ _ _ Hl').
Qed.

Lemma clear_step l h s : is_list a m R l h s -> steps Clear l h s.
Proof.
  intros Hl. pose proof Hl as (Hs & Hm & Ha & hd & tl & ns & Hr & Hx & Hc). unfold steps. cbn [run spec_run]. unfold change.
  destruct s as [xs [k|]]; cbn [cursor items] in *.
  { destruct Hc as [Hi _]. exists l, h. unfold ks_list_clear. rewrite Hi. by rewrite (is_list_repOk _ _ _ Hl). }
  destruct (clear_ok _ _ _ _ _ _ Hr) as (l' & h' & -> & Hr' & Hb & Hse & Hal); [congruence|done|].
  exists l', h'. cbn. rewrite (zlen_items ns xs Hx). split; [done|]. eapply (moved_list l h); try done. split; [done|]. unfold served in *. congruence.
Qed.

Lemma delete_range_step l h s posstart posend : is_list a m R l h s -> 0 <= posstart -> 0 <= posend -> steps (DeleteRange posstart posend) l h s.
Proof.
  intros Hl Hp1 Hp2. pose proof Hl as (Hs & Hm & Ha & hd & tl & ns & Hr & Hx & Hc). unfold steps. cbn [run spec_run]. unfold change.
  rewrite (zlen_items ns _ Hx). pose proof (r_numels _ _ _ _ _ _ Hr) as Hn.
  destruct s as [xs [k|]]; cbn [cursor items] in *.
  { destruct Hc as [Hi _]. exists l, h. unfold ks_list_delete_range. by rewrite Hi. }
  destruct ((posstart <=? posend) && (posend <? zlen ns)) eqn:G; cbn [fst snd].
  - apply andb_true_iff in G as [G1%Z.leb_le G2%Z.ltb_lt]. unfold zlen in G2.
    set (n1 := take (Z.to_nat posstart) ns). set (M := take (Z.to_nat (posend - posstart + 1)) (drop (Z.to_nat posstart) ns)).
    set (n2 := drop (Z.to_nat (posend + 1)) ns).
    assert (E : ns = n1 ++ M ++ n2). { subst n1 M n2. replace (Z.to_nat (posend + 1)) with (Z.to_nat posstart + Z.to_nat (posend - posstart + 1))%nat by lia.
      rewrite <- drop_drop. by rewrite !take_drop. }
    assert (H1 : zlen n1 = posstart) by (subst n1; unfold zlen; rewrite length_take; lia).
    assert (HM : zlen M = posend - posstart + 1) by (subst M; unfold zlen; rewrite length_take, length_drop; lia).
    rewrite E in Hr. destruct (delete_range_ok _ _ _ _ _ _ _ _ Hr) as (l' & h' & Ed & Hr' & Hb & Hse & Hal); [unfold zlen in HM; lia|congruence|done|].
    replace (zlen n1 + zlen M - 1) with posend in Ed by lia. rewrite H1, HM in Ed. exists l', h'. split; [done|].
    eapply (moved_list l h); try done; [split; [done|unfold served in *; congruence]|]. subst n1 n2. by rewrite fmap_app, fmap_take, fmap_drop, Hx.
  - exists l, h. unfold ks_list_delete_range. rewrite Hn, Hc. split; [|done]. apply andb_false_iff in G.
    destruct (Z.ltb_spec posend posstart); cbn [orb]; [done|]. destruct (Z.leb_spec (zlen ns) posend); [done|].
    destruct G as [G%Z.leb_gt|G%Z.ltb_ge]; lia.
Qed.

Lemma read_step l h s o z : is_list a m R l h s -> run o l h = Ok (z, l, h) -> spec_run a m o s = (z, s) -> steps o l h s.
Proof. intros Hl E1 E2. unfold steps. rewrite E1, E2. by exists l, h. Qed.

Lemma iterate_step l h s o : is_list a m R l h s -> op_ok o s ->
  o = IteratorStart \/ o = IteratorNext \/ o = IteratorHasnext \/ o = IteratorStop -> steps o l h s.
Proof.
  intros Hl Hok Ho. pose proof Hl as (Hs & Hm & Ha & hd & tl & ns & Hr & Hx & Hc). unfold steps.
  pose proof (r_seg _ _ _ _ _ _ Hr) as Hseg. pose proof (zlen_items ns _ Hx) as Hz. pose proof (r_bound _ _ _ _ _ _ Hr) as Hb. unfold limit in Hb.
  destruct s as [xs [k|]]; cbn [cursor items] in *.
  - destruct Hc as (Hi & Hpos & Hk & Hcur). destruct Ho as [->|[->|[->| ->]]]; cbn [run spec_run cursor items].
    + exists l, h. unfold ks_list_iterator_start. by rewrite Hi.
    + cbn [op_ok cursor items] in Hok. unfold ks_list_iterator_next. rewrite Hi, Hcur. cbn [negb].
      destruct (at_some (full hd ns tl) (S k)) as (p & d & Hp & Hat). { rewrite full_length. unfold zlen in *. lia. }
      rewrite (deref_at _ _ Hseg _ _ _ Hp). cbn [mbind res_bind data next]. exists (set_iter true (u32 (iter_pos l + 1)) (at_ (full hd ns tl) (S (S k))) l), h.
      split.
      * do 3 f_equal. rewrite full_S in Hp. destruct (decide (k < length ns)%nat) as [Hkn|].
        -- rewrite lookup_app_l in Hp by done. cbn. by rewrite <- Hx, list_lookup_fmap, Hp.
        -- rewrite lookup_app_r in Hp by lia. replace (k - length ns)%nat with O in Hp by (unfold zlen in *; lia). injection Hp as <- <-. cbn.
           rewrite lookup_ge_None_2; [done|]. unfold zlen in *. lia.
      * split; [done|]. split; [done|]. split; [done|]. exists hd, tl, ns. split; [by apply rep_iter|]. split; [done|].
        cbn [cursor set_iter iter_active iter_pos iter_curentry]. split; [done|]. rewrite Hpos. split; [|split; [lia|done]].
        rewrite u32_id; lia.
    + exists l, h. unfold ks_list_iterator_hasnext. by rewrite Hi, Hpos, (r_numels _ _ _ _ _ _ Hr), Hz.
    + exists (set_iter false 0 (iter_curentry l) l), h. unfold ks_list_iterator_stop. rewrite Hi. split; [done|].
      split; [done|]. split; [done|]. split; [done|]. exists hd, tl, ns. split; [by apply rep_iter|]. done.
  - destruct Ho as [->|[->|[->| ->]]]; cbn [run spec_run cursor items].
    + unfold ks_list_iterator_start. rewrite Hc, (rep_head _ _ _ _ _ _ Hr), (next_at _ _ Hseg) by (rewrite full_length; lia). cbn [mbind res_bind].
      exists (set_iter true 0 (at_ (full hd ns tl) 1) l), h. split; [done|].
      split; [done|]. split; [done|]. split; [done|]. exists hd, tl, ns. split; [by apply rep_iter|]. split; [done|]. cbn. unfold zlen. split; [done|].
      split; [done|]. split; [lia|done].
    + exists l, h. unfold ks_list_iterator_next. by rewrite Hc.
    + exists l, h. unfold ks_list_iterator_hasnext. by rewrite Hc.
    + exists l, h. unfold ks_list_iterator_stop. by rewrite Hc.
Qed.

Lemma run_step o l h s : is_list a m R l h s -> op_ok o s -> steps o l h s.
Proof.
  intros Hl Hok. pose proof Hl as (Hs & Hm & Ha & hd & tl & ns & Hr & Hx & Hc). pose proof (zlen_items ns _ Hx) as Hz.
  pose proof (r_numels _ _ _ _ _ _ Hr) as Hn.
  destruct o as [d pos|d|d|pos| |pos|d|p1 p2| |pos|d|d|i| | | | | | | |]; cbn [op_ok] in Hok.
  - apply insert_step; [done|lia|lia].
  - unfold steps. cbn [run spec_run]. unfold ks_list_append. rewrite Hn, <- Hz. apply insert_step; [done|unfold zlen; lia|lia].
  - apply insert_step; [done|lia|lia].
  - apply extract_step; [done|lia].
  - apply extract_step; [done|lia].
  - apply delete_step; [done|lia].
  - by apply delete_datum_step.
  - apply delete_range_step; [done|lia|lia].
  - by apply clear_step.
  - eapply read_step; [done| |reflexivity]. cbn [run]. rewrite (get_at_ok _ _ _ _ _ _ _ Hr) by done. cbn [mbind res_bind]. by rewrite Hx, Hz.
  - eapply read_step; [done| |reflexivity]. cbn [run]. by rewrite (locate_step _ _ _ _ Hl).
  - eapply read_step; [done| |reflexivity]. cbn [run]. unfold ks_list_contains. by rewrite (locate_step _ _ _ _ Hl).
  - eapply read_step; [done| |reflexivity]. cbn [run]. rewrite (seek_ok _ _ _ _ _ _ _ Hr). by rewrite Ha, Hm, Hx.
  - eapply read_step; [done| |reflexivity]. cbn [run]. unfold ks_list_get_max. rewrite (minmax_ok _ _ _ _ _ _ _ Hr); [|by left|by rewrite Ha, Hm].
    by rewrite Ha, Hm, Hx.
  - eapply read_step; [done| |reflexivity]. cbn [run]. unfold ks_list_get_min. rewrite (minmax_ok _ _ _ _ _ _ _ Hr); [|by right|by rewrite Ha, Hm].
    by rewrite Ha, Hm, Hx.
  - eapply read_step; [done| |reflexivity]. cbn [run]. unfold ks_list_size. by rewrite Hn, Hz.
  - eapply read_step; [done| |reflexivity]. cbn [run]. unfold ks_list_empty. by rewrite Hn, Hz.
  - apply iterate_step; tauto.
  - apply iterate_step; tauto.
  - apply iterate_step; tauto.
  - apply iterate_step; tauto.
Qed.
End Step.

(** ** A program with a list: created, given its functions, used, and destroyed *)

Fixpoint run_all (os : list op) (l : ks_list_t) (h : pool) : res (list Z * ks_list_t * pool) :=
  match os with
  | [] => Ok ([], l, h)
  | o :: os => '(r, l, h) ← run o l h; '(rs, l, h) ← run_all os l h; Ok (r :: rs, l, h)
  end.
Definition session (cmp seek : option (gmap positive (list Z) -> Z -> Z -> Z)) (os : list op) (h : pool) : res (list Z * ks_list_t * pool) :=
  '(l, h) ← ks_list_create h;
  '(_, l) ← ks_list_attributes_comparator (Some l) cmp;
  '(_, l) ← ks_list_attributes_seeker l seek;
  match l with Some l => run_all os l h | None => Err NullDeref end.

Fixpoint spec_all (a : ks_list_attributes_s) (m : gmap positive (list Z)) (os : list op) (s : spec) : list Z * spec :=
  match os with
  | [] => ([], s)
  | o :: os => let '(r, s) := spec_run a m o s in let '(rs, s) := spec_all a m os s in (r :: rs, s)
  end.
Fixpoint ops_ok (a : ks_list_attributes_s) (m : gmap positive (list Z)) (os : list op) (s : spec) : Prop :=
  match os with [] => True | o :: os => op_ok o s /\ ops_ok a m os (spec_run a m o s).2 end.

Lemma run_all_ok a m R os : a.(copy_data) = false -> (forall cmp, a.(comparator) = Some cmp -> cmp_ok (cmp m)) -> forall l h s,
  is_list a m R l h s -> ops_ok a m os s ->
  exists l' h', run_all os l h = Ok ((spec_all a m os s).1, l', h') /\ is_list a m R l' h' (spec_all a m os s).2.
Proof.
  intros Hcopy Hcmp. induction os as [|o os IH]; intros l h s Hl Hok; [by exists l, h|]. destruct Hok as [Ho Hos].
  destruct (run_step a m R Hcopy Hcmp o l h s Hl Ho) as (l1 & h1 & E1 & Hl1). destruct (IH _ _ _ Hl1 Hos) as (l2 & h2 & E2 & Hl2).
  exists l2, h2. cbn [run_all spec_all]. rewrite E1. cbn [mbind res_bind]. rewrite E2. destruct (spec_run a m o s) as [r s1]. cbn [fst snd] in *.
  by destruct (spec_all a m os s1).
Qed.

Lemma session_ok (h : pool) (cmp seek : option (gmap positive (list Z) -> Z -> Z -> Z)) (os : list op) :
  let a := Attrs cmp seek None false None in
  served h -> (forall c, cmp = Some c -> cmp_ok (c h.(blocks))) -> ops_ok a h.(blocks) os (Spec [] None) ->
  exists l h1, session cmp seek os h = Ok ((spec_all a h.(blocks) os (Spec [] None)).1, l, h1) /\
    is_list a h.(blocks) h.(entries) l h1 (spec_all a h.(blocks) os (Spec [] None)).2.
Proof.
  intros a Hs Hcmp Hok. destruct (create_ok h Hs) as (l & h1 & hd & tl & Ec & Hr & [Hb Hs1] & Hi & Ha).
  assert (Hl : is_list a h.(blocks) h.(entries) (set_attrs a l) h1 (Spec [] None)).
  { split; [done|]. split; [done|]. split; [done|]. exists hd, tl, []. split; [|by split]. destruct Hr. by constructor. }
  destruct (run_all_ok a h.(blocks) h.(entries) os eq_refl Hcmp _ _ _ Hl Hok) as (l' & h' & E & Hl'). exists l', h'.
  split; [|done]. unfold session. rewrite Ec. cbn. rewrite Ha. cbn. exact E.
Qed.

(** C6: A list is a sequence. Take a list that does not copy its data, created and perhaps given a comparator (of
    results within INT_MAX) and a seeker, in a pool that serves. Of any sequence of the calls of [op] - insert_at,
    append, prepend, extract_at, fetch, delete_at, delete, delete_range, clear, get_at, locate, contains, seek,
    get_max, get_min, size, empty, iterator_start, iterator_next, iterator_hasnext, iterator_stop - as long as
    the list stays below 2^24 elements, positions are below 2^32 and the iterator is not moved once it is past the
    last element, every call returns what the same call on a plain sequence with a cursor returns (refusals to
    change it during an iteration included), no assertion fails, no pointer is followed that is NULL or has been
    freed, and every loop ends; and destroying the list outside of an iteration leaves the pool's entries and data
    exactly as they were before it was created. *)
Theorem ks_list_refines_sequence (h : pool) (cmp seek : option (gmap positive (list Z) -> Z -> Z -> Z)) (os : list op) :
  let a := Attrs cmp seek None false None in
  served h -> (forall c, cmp = Some c -> cmp_ok (c h.(blocks))) -> ops_ok a h.(blocks) os (Spec [] None) ->
  exists l h1, session cmp seek os h = Ok ((spec_all a h.(blocks) os (Spec [] None)).1, l, h1) /\
    is_list a h.(blocks) h.(entries) l h1 (spec_all a h.(blocks) os (Spec [] None)).2 /\
    ((spec_all a h.(blocks) os (Spec [] None)).2.(cursor) = None -> exists h2, ks_list_destroy (Some l) h1 = Ok (KS_STATUS_SUCCESS, h2) /\
      h2.(entries) = h.(entries) /\ h2.(blocks) = h.(blocks)).
Proof.
  intros a Hs Hcmp Hok. destruct (session_ok h cmp seek os Hs Hcmp Hok) as (l & h1 & E & Hl). fold a in E, Hl. exists l, h1. split; [done|]. split; [done|].
  intros Hcur. destruct Hl as (Hs' & Hb' & Ha' & hd & tl & ns & Hr & Hx & Hc). rewrite Hcur in Hc.
  destruct (destroy_ok _ _ _ _ _ _ Hr) as (h2 & -> & He & Hb2 & _); [by rewrite Ha'|done|]. exists h2. split; [done|]. split; [done|congruence].
Qed.

Definition by_value (_ : gmap positive (list Z)) (x y : Z) : Z := if x <? y then 1 else if y <? x then -1 else 0.

Lemma ks_list_refines_sequence_witness : exists l h1,
  session (Some by_value) None [Append 5; Prepend 7; InsertAt 6 1; GetMax; Delete 6; Locate 5; IteratorStart; Append 1; IteratorNext; IteratorHasnext; IteratorStop; ExtractAt 1; Size]
    (Pool {[4%positive := Entry 0 None None]} ∅ []) = Ok ([1; 1; 1; 7; 0; 1; 1; -1; 7; 1; 1; 5; 1], l, h1) /\
  exists h2, ks_list_destroy (Some l) h1 = Ok (KS_STATUS_SUCCESS, h2) /\ h2.(entries) = {[4%positive := Entry 0 None None]}.
Proof.
  destruct (ks_list_refines_sequence (Pool {[4%positive := Entry 0 None None]} ∅ []) (Some by_value) None
    [Append 5; Prepend 7; InsertAt 6 1; GetMax; Delete 6; Locate 5; IteratorStart; Append 1; IteratorNext; IteratorHasnext; IteratorStop; ExtractAt 1; Size])
    as (l & h1 & E & _ & D).
  - reflexivity.
  - intros c [= <-] x y. unfold by_value. destruct (x <? y), (y <? x); split; discriminate.
  - cbn. repeat split; discriminate.
  - exists l, h1. split; [exact E|]. destruct (D eq_refl) as (h2 & E2 & He & _). exists h2. by split.
Defined.

(** ** What the sequence leaves out *)

(** A list of the given data, for the examples. *)
Fixpoint append_all (xs : list Z) (l : ks_list_t) (h : pool) : res (ks_list_t * pool) :=
  match xs with [] => Ok (l, h) | x :: xs => '(_, l, h) ← ks_list_append l x h; append_all xs l h end.
Definition list_of (xs : list Z) : res (ks_list_t * pool) :=
  '(l, h) ← ks_list_create (Pool ∅ ∅ []); append_all xs l h.

(** From 2^24 elements on a [float] no longer tells the positions apart: in a list of
    2^25 + 5 elements the position left of the middle gives the middle. *)
Lemma findpos_imprecise l h : l.(numels) = 2 ^ 25 + 5 -> ks_list_findpos l h (2 ^ 24 + 1) = Ok l.(mid) /\ (2 ^ 25 + 5 - 1) / 2 = 2 ^ 24 + 2.
Proof. intros E. unfold ks_list_findpos. rewrite E. by split. Qed.

(** Deleting at the iterator: the next datum comes, but the iteration ends before the last one, and deletes
    another datum than the one it has returned. *)
Lemma delete_iterator_skips : match list_of [10; 20; 30] with
  | Ok (l, h) =>
    ('(_, l) ← ks_list_iterator_start l h; '(a, l) ← ks_list_iterator_next l h; '(_, l, h) ← ks_list_delete_iterator l h;
     '(b, l) ← ks_list_iterator_next l h; let more := ks_list_iterator_hasnext l in
     '(_, l, h) ← ks_list_delete_iterator l h; c ← ks_list_get_at l 0 h; Ok (a, b, more, c)) = Ok (10, 20, false, 20)
  | _ => False end.
Proof. vm_compute. reflexivity. Qed.
(** Before the first datum it takes the head. *)
Lemma delete_iterator_early : match list_of [10; 20; 30] with
  | Ok (l, h) => ('(_, l) ← ks_list_iterator_start l h; '(r, _, _) ← ks_list_delete_iterator l h; Ok r) = Err NullDeref
  | _ => False end.
Proof. vm_compute. reflexivity. Qed.
(** One call of [next] too many is the datum of the tail, another one follows NULL. *)
Lemma iterator_overrun : match list_of [10] with
  | Ok (l, h) => ('(_, l) ← ks_list_iterator_start l h; '(a, l) ← ks_list_iterator_next l h; '(b, l) ← ks_list_iterator_next l h; Ok (a, b)) = Ok (10, 0) /\
    ('(_, l) ← ks_list_iterator_start l h; '(a, l) ← ks_list_iterator_next l h; '(b, l) ← ks_list_iterator_next l h; ks_list_iterator_next l h) = Err NullDeref
  | _ => False end.
Proof. vm_compute. split; reflexivity. Qed.
(** The position is compared before the lock is taken: when another thread has taken
    the only element meanwhile, the tail is dropped. *)
Lemma extract_race : match list_of [10] with
  | Ok (l, h) => (l.(numels) <=? 0) = false /\ ('(d, l, h) ← ks_list_extract_at l 0 h; '(d, l, h) ← extract_locked l 0 h; Ok d) = Err NullDeref
  | _ => False end.
Proof. vm_compute. split; reflexivity. Qed.
(** A list that is destroyed during an iteration keeps its entries. *)
Lemma destroy_leaks : match list_of [10; 20] with
  | Ok (l, h) => ('(_, l) ← ks_list_iterator_start l h; '(r, h) ← ks_list_destroy (Some l) h; Ok (r, size h.(entries))) = Ok (KS_STATUS_SUCCESS, 2%nat)
  | _ => False end.
Proof. vm_compute. reflexivity. Qed.
(** An element's hash takes the sum out of range. *)
Lemma hash_overflows : match list_of [10] with
  | Ok (l, h) => ks_list_hash (set_attrs (Attrs None None None false (Some (fun _ _ => 2147483545))) l) h = Err Overflow
  | _ => False end.
Proof. vm_compute. reflexivity. Qed.

End SimList.
