(* ===== verification/SimListSort.v ===== *)
(** Sorting of lists (src/src/simclist.c: ks_list_sort and the functions under
    it): the data of the entries move, the entries stay. A list of at most 24 is
    sorted by selection, a longer one around a pivot chosen by [rand]. *)
From S2P Require Import Prelude SimList.
From stdpp Require Import gmap fin_maps.
Local Open Scope Z_scope.

Module SimListSort.
Import SimList.

Definition SIMCLIST_MINQUICKSORTELS : Z := 24.

(** ** The functions *)

Definition compare (l : ks_list_t) (versus : Z) (p q : option positive) (h : pool) : res Z :=
  a ← get_data p h;
  b ← get_data q h;
  match l.(attrs).(comparator) with
  | None => Err NullDeref
  | Some cmp => v ← times versus (-1); times (cmp h.(blocks) a b) v
  end.

Definition swap_data (p q : option positive) (h : pool) : res pool :=
  tmpdata ← get_data p h;
  d ← get_data q h;
  h ← set_data p d h;
  set_data q tmpdata h.

(** The least or greatest from [cursor] on. *)
Fixpoint find_best (fuel : nat) (l : ks_list_t) (versus : Z) (toswap cursor lel : option positive) (h : pool) : res (option positive) :=
  match fuel with
  | O => Err NoFuel
  | S fuel =>
    stop ← get_next lel h;
    if bool_decide (cursor = stop) then Ok toswap else
    c ← compare l versus toswap cursor h;
    next ← get_next cursor h;
    find_best fuel l versus (if 0 <? c then cursor else toswap) next lel h
  end.

Fixpoint selection (fuel : nat) (l : ks_list_t) (versus : Z) (firstunsorted lel : option positive) (h : pool) : res pool :=
  match fuel with
  | O => Err NoFuel
  | S fuel =>
    if bool_decide (firstunsorted = lel) then Ok h else
    cursor ← get_next firstunsorted h;
    toswap ← find_best (entry_fuel h) l versus firstunsorted cursor lel h;
    h ← (if bool_decide (toswap <> firstunsorted) then swap_data firstunsorted toswap h else Ok h);
    next ← get_next firstunsorted h;
    selection fuel l versus next lel h
  end.
Definition ks_list_sort_selectionsort (l : ks_list_t) (versus first : Z) (fel : option positive) (last : Z) (lel : option positive) (h : pool) : res pool :=
  if last <=? first then Ok h else selection (entry_fuel h) l versus fel lel h.

(** [left] to the first entry on the wrong side, or to the pivot; [right] likewise. *)
Fixpoint scan_left (fuel : nat) (l : ks_list_t) (versus : Z) (left pivot : option positive) (h : pool) : res (option positive) :=
  match fuel with
  | O => Err NoFuel
  | S fuel =>
    if bool_decide (left = pivot) then Ok left else
    c ← compare l versus left pivot h;
    if c <=? 0 then next ← get_next left h; scan_left fuel l versus next pivot h else Ok left
  end.
Fixpoint scan_right (fuel : nat) (l : ks_list_t) (versus : Z) (right pivot : option positive) (h : pool) : res (option positive) :=
  match fuel with
  | O => Err NoFuel
  | S fuel =>
    if bool_decide (right = pivot) then Ok right else
    c ← compare l versus right pivot h;
    if 0 <=? c then prev ← get_prev right h; scan_right fuel l versus prev pivot h else Ok right
  end.

Fixpoint meet (fuel : nat) (l : ks_list_t) (versus : Z) (left right pivot : option positive) (h : pool) : res (option positive * option positive * pool) :=
  match fuel with
  | O => Err NoFuel
  | S fuel =>
    if bool_decide (left = pivot) || bool_decide (right = pivot) then Ok (left, right, h) else
    left ← scan_left (entry_fuel h) l versus left pivot h;
    right ← scan_right (entry_fuel h) l versus right pivot h;
    if bool_decide (left <> pivot) && bool_decide (right <> pivot) then
      h ← swap_data left right h;
      left ← get_next left h;
      right ← get_prev right h;
      meet fuel l versus left right pivot h
    else meet fuel l versus left right pivot h
  end.

(** The datum at [side] goes behind the pivot, which moves to its neighbour [q]. *)
Definition rotate (side q pivot : option positive) (h : pool) : res pool :=
  tmpdata ← get_data side h;
  d ← get_data q h;
  h ← set_data side d h;
  d ← get_data pivot h;
  h ← set_data q d h;
  set_data pivot tmpdata h.

Fixpoint left_longer (fuel : nat) (l : ks_list_t) (versus : Z) (left pivot : option positive) (pivotid : Z) (h : pool) : res (option positive * Z * pool) :=
  match fuel with
  | O => Err NoFuel
  | S fuel =>
    if bool_decide (left = pivot) then Ok (pivot, pivotid, h) else
    c ← compare l versus left pivot h;
    if 0 <? c then
      q ← get_prev pivot h;
      h ← rotate left q pivot h;
      let pivotid := u32 (pivotid - 1) in
      if bool_decide (q = left) then Ok (q, pivotid, h) else left_longer fuel l versus left q pivotid h
    else next ← get_next left h; left_longer fuel l versus next pivot pivotid h
  end.
Fixpoint right_longer (fuel : nat) (l : ks_list_t) (versus : Z) (right pivot : option positive) (pivotid : Z) (h : pool) : res (option positive * Z * pool) :=
  match fuel with
  | O => Err NoFuel
  | S fuel =>
    if bool_decide (right = pivot) then Ok (pivot, pivotid, h) else
    c ← compare l versus right pivot h;
    if c <? 0 then
      q ← get_next pivot h;
      h ← rotate right q pivot h;
      let pivotid := u32 (pivotid + 1) in
      if bool_decide (q = right) then Ok (q, pivotid, h) else right_longer fuel l versus right q pivotid h
    else prev ← get_prev right h; right_longer fuel l versus prev pivot pivotid h
  end.

Section Sort.
(** The results of [rand], one after the other. *)
Context (rand : nat -> Z).

(** Everything around the pivot: where it ends up. *)
Definition partition (l : ks_list_t) (versus : Z) (fel lel pivot : option positive) (pivotid : Z) (h : pool) : res (option positive * Z * pool) :=
  '(lp, rp, h) ← meet (entry_fuel h) l versus fel lel pivot h;
  if bool_decide (rp = pivot) then left_longer (entry_fuel h) l versus lp pivot pivotid h
  else right_longer (entry_fuel h) l versus rp pivot pivotid h.

(** [n]: how often [rand] was called. The second test of [last > first] is never false. *)
Fixpoint ks_list_sort_quicksort (fuel : nat) (l : ks_list_t) (versus first : Z) (fel : option positive) (last : Z) (lel : option positive) (n : nat) (h : pool) :
    res (nat * pool) :=
  match fuel with
  | O => Err NoFuel
  | S fuel =>
    if last <=? first then Ok (n, h) else
    if u32 (last - first + 1) <=? SIMCLIST_MINQUICKSORTELS then h ← ks_list_sort_selectionsort l versus first fel last lel h; Ok (n, h) else
    let pivotid := u32 (rand n) mod u32 (last - first + 1) in
    pivot ← (if pivotid <? u32 (last - first + 1) / 2 then forward (Z.to_nat pivotid) fel h else backward (Z.to_nat (last - first - pivotid)) lel h);
    '(pivot, pivotid, h) ← partition l versus fel lel pivot pivotid h;
    '(n, h) ← (if 0 <? pivotid then q ← get_prev pivot h; ks_list_sort_quicksort fuel l versus first fel (u32 (first + pivotid - 1)) q (S n) h else Ok (S n, h));
    if u32 (first + pivotid) <? last then q ← get_next pivot h; ks_list_sort_quicksort fuel l versus (u32 (first + pivotid + 1)) q last lel n h else Ok (n, h)
  end.

Definition ks_list_sort (l : ks_list_t) (versus : Z) (h : pool) : res (Z * pool) :=
  if l.(iter_active) || bool_decide (l.(attrs).(comparator) = None) then Ok (-1, h) else
  if l.(numels) <=? 1 then Ok (0, h) else
  fel ← get_next l.(head_sentinel) h;
  lel ← get_prev l.(tail_sentinel) h;
  '(_, h) ← ks_list_sort_quicksort (Z.to_nat l.(numels)) l versus 0 fel (u32 (l.(numels) - 1)) lel 0 h;
  _ ← assert_repOk l h;
  Ok (0, h).
End Sort.

(** Reading a list from its first entry. *)
Fixpoint read_all (n : nat) (i : Z) (l : ks_list_t) (h : pool) : res (list Z) :=
  match n with O => Ok [] | S n => x ← ks_list_get_at l i h; r ← read_all n (i + 1) l h; Ok (x :: r) end.
Definition sort_test (versus : Z) (rand : nat -> Z) (xs : list Z) : res (list Z) :=
  '(l, h) ← list_of xs;
  r ← ks_list_attributes_comparator (Some l) (Some by_value);
  match r.2 with
  | None => Err NullDeref
  | Some l => '(_, h) ← ks_list_sort rand l versus h; read_all (length xs) 0 l h
  end.

Definition mixed : list Z := map (fun i => (Z.of_nat i * 37) mod 41) (seq 0 41).
Example sort_small : sort_test 1 (fun _ => 0) [5; 3; 9; 1; 3] = Ok [1; 3; 3; 5; 9] /\ sort_test (-1) (fun _ => 0) [5; 3; 9; 1; 3] = Ok [9; 5; 3; 3; 1].
Proof. vm_compute. repeat split. Qed.
Example sort_mixed : sort_test 1 (fun n => Z.of_nat n * 7919) mixed = Ok (map Z.of_nat (seq 0 41)) /\
  sort_test (-1) (fun n => Z.of_nat n + 31) mixed = Ok (rev (map Z.of_nat (seq 0 41))).
Proof. vm_compute. repeat split. Qed.

(** ** The entries of a list by their index, the sentinels before and behind them *)

Section Array.
Context (l : ks_list_t) (R : gmap positive ks_list_entry_s) (hd tl : positive) (ps : list positive) (m : gmap positive (list Z)) (sv : list bool).

Definition ptr (i : nat) : option positive := (hd :: ps ++ [tl]) !! i.
(** The list of the data [xs]; data of the users and the answers of the pool stay. *)
Definition arr (h : pool) (xs : list Z) : Prop :=
  length xs = length ps /\ rep l h R hd tl (zip ps xs) /\ h.(blocks) = m /\ h.(serve) = sv.

Lemma zip_length (xs : list Z) : length xs = length ps -> length (zip ps xs) = length ps.
Proof. intros E. rewrite length_zip_with. lia. Qed.

Lemma at_ptr xs i : length xs = length ps -> at_ (full hd (zip ps xs) tl) i = ptr i.
Proof. intros E. unfold at_, ptr, full. rewrite <- list_lookup_fmap. cbn [fmap list_fmap fst]. rewrite fmap_app, fst_zip by lia. done. Qed.

Lemma arr_next h xs i : arr h xs -> (i < length ps + 2)%nat -> get_next (ptr i) h = Ok (ptr (S i)).
Proof.
  intros (El & Hr & _) Hi. rewrite <- !(at_ptr xs) by done. apply next_at; [apply (rep_seg _ _ _ _ _ _ Hr)|]. rewrite full_length, zip_length by done. lia.
Qed.
Lemma arr_prev h xs i : arr h xs -> (i < length ps + 1)%nat -> get_prev (ptr (S i)) h = Ok (ptr i).
Proof.
  intros (El & Hr & _) Hi. rewrite <- !(at_ptr xs) by done. rewrite prev_at; [done|apply (rep_seg _ _ _ _ _ _ Hr)|]. rewrite full_length, zip_length by done. lia.
Qed.

Lemma lookup_zip (xs : list Z) i x : length xs = length ps -> xs !! i = Some x -> exists p, ps !! i = Some p /\ zip ps xs !! i = Some (p, x).
Proof.
  intros El Ex. assert (Hi : (i < length ps)%nat) by (rewrite <- El; by apply lookup_lt_Some in Ex). apply lookup_lt_is_Some in Hi as [p Ep].
  exists p. split; [done|]. rewrite lookup_zip_with, Ep. cbn. by rewrite Ex.
Qed.

Lemma ptr_elem i p : ps !! i = Some p -> ptr (S i) = Some p.
Proof. intros E. unfold ptr. change ((ps ++ [tl]) !! i = Some p). by rewrite lookup_app_l by (by apply lookup_lt_Some in E). Qed.

Lemma arr_data h xs i x : arr h xs -> xs !! i = Some x -> get_data (ptr (S i)) h = Ok x.
Proof.
  intros (El & Hr & _) Ex. destruct (lookup_zip xs i x El Ex) as (p & Ep & Ez). rewrite <- (at_ptr xs) by done.
  apply (data_at _ _ (rep_seg _ _ _ _ _ _ Hr) (S i) p x). rewrite full_S, lookup_app_l by (by apply lookup_lt_Some in Ez). done.
Qed.

Lemma arr_set h xs i x d : arr h xs -> xs !! i = Some x -> exists h', set_data (ptr (S i)) d h = Ok h' /\ arr h' (<[i:=d]> xs).
Proof.
  intros (El & Hr & Hb & Hs) Ex. destruct (lookup_zip xs i x El Ex) as (p & Ep & Ez). rewrite (ptr_elem i p Ep).
  assert (Hi : (i < length (zip ps xs))%nat) by (by apply lookup_lt_Some in Ez). pose proof (take_drop_middle _ _ _ Ez) as E. rewrite <- E in Hr.
  destruct (rep_set_data _ _ _ _ _ _ _ _ d _ Hr) as (h' & Es & Hr' & Hb' & Hs'). exists h'. split; [done|]. split; [by rewrite length_insert|].
  split; [|split; congruence]. assert (E' : zip ps (<[i:=d]> xs) = take i (zip ps xs) ++ (p, d) :: drop (S i) (zip ps xs)); [|by rewrite E'].
  rewrite <- insert_take_drop by done. rewrite <- (list_insert_id ps i p Ep) at 1. symmetry. apply (insert_zip_with pair).
Qed.

Lemma arr_length h xs : arr h xs -> length xs = length ps.
Proof. by intros [? _]. Qed.
Lemma arr_fuel h xs : arr h xs -> (length ps < entry_fuel h)%nat.
Proof. intros (El & Hr & _). pose proof (rep_fuel _ _ _ _ _ _ Hr) as H. by rewrite zip_length in H. Qed.
Lemma arr_bound h xs : arr h xs -> Z.of_nat (length ps) < limit.
Proof. intros (El & Hr & _). pose proof (rep_bound _ _ _ _ _ _ Hr) as H. by rewrite zip_length in H. Qed.

Hypothesis Hnd : NoDup (hd :: ps ++ [tl]).

Lemma ptr_inj i j : (i <= S (length ps))%nat -> (j <= S (length ps))%nat -> ptr i = ptr j -> i = j.
Proof.
  intros Hi Hj E. assert (H : is_Some (ptr i)) by (unfold ptr; apply lookup_lt_is_Some; cbn; rewrite length_app; cbn; lia).
  destruct H as [p Ep]. unfold ptr in *. rewrite Ep in E. symmetry in E. by apply (NoDup_lookup (hd :: ps ++ [tl]) i j p).
Qed.

(** Pointers are different where the indices are. *)
Ltac ptr_ne := let E := fresh in intros E; apply ptr_inj in E; lia.

(** ** Lists that differ by swaps at the indices from [F] to [L] *)

Inductive shuffled (F L : nat) (xs : list Z) : list Z -> Prop :=
  | shuffled_refl : shuffled F L xs xs
  | shuffled_swap i j x y ys : shuffled F L xs ys -> (F <= i <= L)%nat -> (F <= j <= L)%nat -> ys !! i = Some x -> ys !! j = Some y ->
      shuffled F L xs (<[j:=x]> (<[i:=y]> ys)).

Lemma shuffled_trans F L xs ys zs : shuffled F L xs ys -> shuffled F L ys zs -> shuffled F L xs zs.
Proof. intros H. induction 1; [done|by econstructor]. Qed.

Lemma shuffled_widen F L F' L' xs ys : (F' <= F)%nat -> (L <= L')%nat -> shuffled F L xs ys -> shuffled F' L' xs ys.
Proof. intros HF HL. induction 1; [constructor|]. econstructor; eauto; lia. Qed.

Lemma shuffled_perm F L xs ys : shuffled F L xs ys -> ys ≡ₚ xs.
Proof. induction 1 as [|i j x y ys _ IH _ _ Hi Hj]; [done|]. rewrite <- IH. by apply Permutation_insert_swap. Qed.

Lemma lookup_swap (ys : list Z) (i j : nat) (x y : Z) (k : nat) : ys !! i = Some x -> ys !! j = Some y ->
  <[j:=x]> (<[i:=y]> ys) !! k = if decide (k = j) then Some x else if decide (k = i) then Some y else ys !! k.
Proof.
  intros Hi Hj. assert (Hj' : (j < length ys)%nat) by (by apply lookup_lt_Some in Hj). assert (Hi' : (i < length ys)%nat) by (by apply lookup_lt_Some in Hi).
  destruct (decide (k = j)) as [->|]; [apply list_lookup_insert_eq; by rewrite length_insert|]. rewrite list_lookup_insert_ne by done.
  destruct (decide (k = i)) as [->|]; [by apply list_lookup_insert_eq|by apply list_lookup_insert_ne].
Qed.

Lemma shuffled_out F L xs ys k : shuffled F L xs ys -> (k < F \/ L < k)%nat -> ys !! k = xs !! k.
Proof.
  intros H Hk. induction H as [|i j x y ys _ IH Hi Hj Ei Ej]; [done|]. rewrite (lookup_swap _ _ _ _ _ _ Ei Ej).
  destruct (decide (k = j)); [lia|]. destruct (decide (k = i)); [lia|done].
Qed.

(** What holds of all data there still does. *)
Lemma shuffled_in (P : Z -> Prop) F L xs ys : shuffled F L xs ys -> (forall k x, (F <= k <= L)%nat -> xs !! k = Some x -> P x) ->
  forall k x, (F <= k <= L)%nat -> ys !! k = Some x -> P x.
Proof.
  intros H HP. induction H as [|i j x y ys _ IH Hi Hj Ei Ej]; [done|]. intros k z Hk. rewrite (lookup_swap _ _ _ _ _ _ Ei Ej).
  destruct (decide (k = j)); [intros [= <-]; by apply (IH i)|]. destruct (decide (k = i)); [intros [= <-]; by apply (IH j)|by apply IH].
Qed.

Lemma arr_swap h xs i j x y : arr h xs -> xs !! i = Some x -> xs !! j = Some y ->
  exists h', swap_data (ptr (S i)) (ptr (S j)) h = Ok h' /\ arr h' (<[j:=x]> (<[i:=y]> xs)).
Proof.
  intros Ha Hi Hj. unfold swap_data. rewrite (arr_data _ _ _ _ Ha Hi), (arr_data _ _ _ _ Ha Hj). cbn [mbind res_bind].
  destruct (arr_set _ _ _ _ y Ha Hi) as (h1 & -> & Ha1). cbn [mbind res_bind].
  assert (Hj1 : is_Some (<[i:=y]> xs !! j)) by (apply lookup_lt_is_Some; rewrite length_insert; by apply lookup_lt_Some in Hj). destruct Hj1 as [z Hz].
  destruct (arr_set _ _ _ _ x Ha1 Hz) as (h2 & -> & Ha2). by exists h2.
Qed.

(** ** Comparing *)

Context (cmp : gmap positive (list Z) -> Z -> Z -> Z) (v : Z).
Hypothesis Hcmp : l.(attrs).(comparator) = Some cmp.
Hypothesis Hv : - INT_MAX <= v <= INT_MAX.
Hypothesis Hbound : forall a b, - INT_MAX <= cmp m a b * v <= INT_MAX.

Definition c (a b : Z) : Z := cmp m a b * (v * -1).
(** The comparator is an order, and so is the order of the result. *)
Definition ordered : Prop := (forall a b, 0 < c a b <-> c b a < 0) /\ forall a b d, c a b <= 0 -> c b d <= 0 -> c a d <= 0.
Definition leq (xs : list Z) (i j : nat) : Prop := forall x y, xs !! i = Some x -> xs !! j = Some y -> c x y <= 0.
Definition sorted (F L : nat) (xs : list Z) : Prop := forall i j, (F <= i <= j)%nat -> (j <= L)%nat -> leq xs i j.

Lemma compare_ok h xs i j x y : arr h xs -> xs !! i = Some x -> xs !! j = Some y -> compare l v (ptr (S i)) (ptr (S j)) h = Ok (c x y).
Proof.
  intros Ha Hi Hj. unfold compare. rewrite (arr_data _ _ _ _ Ha Hi), (arr_data _ _ _ _ Ha Hj), Hcmp. cbn [mbind res_bind]. destruct Ha as (_ & _ & -> & _).
  unfold c. specialize (Hbound x y). unfold times, INT_MAX in *. destruct (Z.leb_spec (-2147483648) (v * -1)); [|lia]. destruct (Z.leb_spec (v * -1) 2147483647); [|lia].
  cbn [andb mbind res_bind]. destruct (Z.leb_spec (-2147483648) (cmp m x y * (v * -1))); [|lia]. by destruct (Z.leb_spec (cmp m x y * (v * -1)) 2147483647); [|lia].
Qed.

Lemma leq_refl xs i : ordered -> leq xs i i.
Proof. intros [Ho _] x y Hx Hy. rewrite Hx in Hy. injection Hy as <-. pose proof (Ho x x). lia. Qed.

Lemma leq_trans xs i j k : ordered -> is_Some (xs !! j) -> leq xs i j -> leq xs j k -> leq xs i k.
Proof. intros [_ Ho] [y Hy] H1 H2 x z Hx Hz. by eapply Ho; [apply H1|apply H2]. Qed.

Lemma elem_at h xs i : arr h xs -> (i < length ps)%nat -> exists x, xs !! i = Some x.
Proof. intros Ha Hi. rewrite <- (arr_length _ _ Ha) in Hi. by apply lookup_lt_is_Some in Hi. Qed.

(** ** Selection *)

Lemma find_best_ok h xs L : arr h xs -> (L < length ps)%nat -> forall fuel t k, (t <= L)%nat -> (k <= S L)%nat -> (S L - k < fuel)%nat ->
  exists r, find_best fuel l v (ptr (S t)) (ptr (S k)) (ptr (S L)) h = Ok (ptr (S r)) /\ (r = t \/ k <= r <= L)%nat /\
    (ordered -> forall F, (forall i, (F <= i < k)%nat -> leq xs t i) -> forall i, (F <= i <= L)%nat -> leq xs r i).
Proof.
  intros Ha HL. induction fuel as [|fuel IH]; intros t k Ht Hk Hf; [lia|]. cbn [find_best].
  rewrite (arr_next _ _ (S L) Ha) by lia. cbn [mbind res_bind]. destruct (decide (k = S L)) as [->|Hne].
  - rewrite bool_decide_true by done. exists t. split; [done|]. split; [by left|]. intros _ F H i Hi. apply H. lia.
  - rewrite bool_decide_false by ptr_ne. destruct (elem_at _ _ t Ha) as [x Hx]; [lia|]. destruct (elem_at _ _ k Ha) as [y Hy]; [lia|].
    rewrite (compare_ok _ _ _ _ _ _ Ha Hx Hy). cbn [mbind res_bind]. rewrite (arr_next _ _ (S k) Ha) by lia. cbn [mbind res_bind].
    destruct (Z.ltb_spec 0 (c x y)) as [Hc|Hc].
    + destruct (IH k (S k)) as (r & -> & Hr & Ho); [lia..|]. exists r. split; [done|]. split; [lia|]. intros Hord F HF. apply (Ho Hord).
      intros i Hi. destruct (decide (i = k)) as [->|]; [by apply leq_refl|]. eapply leq_trans; [done|by exists x| |apply HF; lia].
      intros y' x' Ey Ex. rewrite Hy in Ey. rewrite Hx in Ex. injection Ey as <-. injection Ex as <-. pose proof (proj1 Hord x y). lia.
    + destruct (IH t (S k)) as (r & -> & Hr & Ho); [lia..|]. exists r. split; [done|]. split; [lia|]. intros Hord F HF. apply (Ho Hord).
      intros i Hi. destruct (decide (i = k)) as [->|]; [|apply HF; lia]. intros x' y' Ex Ey. rewrite Hy in Ey. rewrite Hx in Ex. injection Ey as <-. by injection Ex as <-.
Qed.

(** What is settled stays below what comes behind it. *)
Definition settled (F u L : nat) (xs : list Z) : Prop := forall i j, (F <= i < u)%nat -> (i <= j <= L)%nat -> leq xs i j.

Lemma settled_shuffled F u L xs ys : settled F u L xs -> shuffled u L xs ys -> settled F u L ys.
Proof.
  intros Hs Hsh i j Hi Hj x y Hx Hy. rewrite (shuffled_out _ _ _ _ i Hsh) in Hx by lia. destruct (decide (j < u)%nat).
  - rewrite (shuffled_out _ _ _ _ j Hsh) in Hy by lia. by apply (Hs i j).
  - refine (shuffled_in (fun y => c x y <= 0) u L xs ys Hsh _ j y _ Hy); [|lia]. intros k z Hk Hz. apply (Hs i k); [done|lia|done|done].
Qed.

Lemma selection_ok F L : (L < length ps)%nat -> forall fuel u h xs, arr h xs -> (F <= u <= L)%nat -> (L - u < fuel)%nat ->
  exists h' ys, selection fuel l v (ptr (S u)) (ptr (S L)) h = Ok h' /\ arr h' ys /\ shuffled u L xs ys /\
    (ordered -> settled F u L xs -> sorted F L ys).
Proof.
  intros HL. induction fuel as [|fuel IH]; intros u h xs Ha Hu Hf; [lia|]. cbn [selection]. destruct (decide (u = L)) as [->|Hne].
  - rewrite bool_decide_true by done. exists h, xs. split; [done|]. split; [done|]. split; [constructor|]. intros Ho Hs i j Hi Hj.
    destruct (decide (i = L)) as [->|]; [|apply Hs; lia]. assert (j = L) as -> by lia. by apply leq_refl.
  - rewrite bool_decide_false by ptr_ne. rewrite (arr_next _ _ (S u) Ha) by lia. cbn [mbind res_bind].
    pose proof (arr_fuel _ _ Ha). destruct (find_best_ok _ _ L Ha HL (entry_fuel h) u (S u)) as (r & -> & Hr & Hb); [lia..|]. cbn [mbind res_bind].
    assert (Hstep : exists h1 ys, (if bool_decide (ptr (S r) <> ptr (S u)) then swap_data (ptr (S u)) (ptr (S r)) h else Ok h) = Ok h1 /\ arr h1 ys /\ shuffled u L xs ys /\
      (ordered -> forall j, (u <= j <= L)%nat -> leq ys u j)).
    { destruct (elem_at _ _ u Ha) as [x Hx]; [lia|]. destruct (elem_at _ _ r Ha) as [y Hy]; [lia|]. destruct (decide (r = u)) as [->|Hru].
      - rewrite bool_decide_false by (by intros []). exists h, xs. split; [done|]. split; [done|]. split; [constructor|]. intros Ho j Hj. apply (Hb Ho u); [|lia].
        intros i Hi. assert (i = u) as -> by lia. by apply leq_refl.
      - rewrite bool_decide_true by ptr_ne.
        destruct (arr_swap _ _ _ _ _ _ Ha Hx Hy) as (h1 & E & Ha1). exists h1, (<[r:=x]> (<[u:=y]> xs)). split; [done|]. split; [done|].
        assert (Hsh : shuffled u L xs (<[r:=x]> (<[u:=y]> xs))) by (eapply shuffled_swap; [constructor|lia|lia|done|done]). split; [done|]. intros Ho j Hj x' z Hx' Hz.
        rewrite (lookup_swap _ _ _ _ _ _ Hx Hy), decide_False, decide_True in Hx' by (done || lia). injection Hx' as <-.
        refine (shuffled_in (fun z => c y z <= 0) u L xs _ Hsh _ j z Hj Hz). intros k z' Hk Hz'. refine (Hb Ho u _ k ltac:(lia) y z' Hy Hz').
        intros i Hi. assert (i = u) as -> by lia. by apply leq_refl. }
    destruct Hstep as (h1 & ys & -> & Ha1 & Hsh & Hle). cbn [mbind res_bind]. rewrite (arr_next _ _ (S u) Ha1) by lia. cbn [mbind res_bind].
    destruct (IH (S u) h1 ys Ha1) as (h' & zs & -> & Ha' & Hsh' & Ho'); [lia..|]. exists h', zs. split; [done|]. split; [done|].
    split; [eapply shuffled_trans; [exact Hsh|]; by eapply shuffled_widen; [| |exact Hsh']; lia|]. intros Ho Hs. apply Ho'; [done|].
    intros i j Hi Hj. destruct (decide (i = u)) as [->|]; [by apply Hle|]. apply (settled_shuffled F u L xs ys Hs Hsh); lia.
Qed.

(** ** Around the pivot *)

Definition below (F a : nat) (xs : list Z) (pv : Z) : Prop := forall i x, (F <= i < a)%nat -> xs !! i = Some x -> c x pv <= 0.
Definition above (b L : nat) (xs : list Z) (pv : Z) : Prop := forall i x, (b < i <= L)%nat -> xs !! i = Some x -> 0 <= c x pv.

Lemma scan_left_ok h xs p pv F : arr h xs -> xs !! p = Some pv -> forall fuel a, (F <= a <= p)%nat -> (p - a < fuel)%nat -> below F a xs pv ->
  exists a', scan_left fuel l v (ptr (S a)) (ptr (S p)) h = Ok (ptr (S a')) /\ (a <= a' <= p)%nat /\ below F a' xs pv /\
    (a' <> p -> exists x, xs !! a' = Some x /\ 0 < c x pv).
Proof.
  intros Ha Hp. assert (Hn : (p < length ps)%nat) by (rewrite <- (arr_length _ _ Ha); by apply lookup_lt_Some in Hp).
  induction fuel as [|fuel IH]; intros a Hap Hf Hb; [lia|]. cbn [scan_left]. destruct (decide (a = p)) as [->|Hne].
  { rewrite bool_decide_true by done. exists p. split; [done|]. split; [lia|]. by split. }
  rewrite bool_decide_false by ptr_ne. destruct (elem_at _ _ a Ha) as [x Hx]; [lia|]. rewrite (compare_ok _ _ _ _ _ _ Ha Hx Hp). cbn [mbind res_bind].
  destruct (Z.leb_spec (c x pv) 0) as [Hc|Hc].
  - rewrite (arr_next _ _ (S a) Ha) by lia. cbn [mbind res_bind]. destruct (IH (S a)) as (a' & -> & H1 & H2); [lia|lia| |exists a'; split; [done|]; split; [lia|done]].
    intros i z Hi Hz. destruct (decide (i = a)) as [->|]; [|apply (Hb i); [lia|done]]. rewrite Hx in Hz. by injection Hz as <-.
  - exists a. split; [done|]. split; [lia|]. split; [done|]. intros _. by exists x.
Qed.

Lemma scan_right_ok h xs p pv L : arr h xs -> xs !! p = Some pv -> (L < length ps)%nat -> forall fuel b, (p <= b <= L)%nat -> (b - p < fuel)%nat -> above b L xs pv ->
  exists b', scan_right fuel l v (ptr (S b)) (ptr (S p)) h = Ok (ptr (S b')) /\ (p <= b' <= b)%nat /\ above b' L xs pv /\
    (b' <> p -> exists x, xs !! b' = Some x /\ c x pv < 0).
Proof.
  intros Ha Hp Hn. induction fuel as [|fuel IH]; intros b Hpb Hf Hb; [lia|]. cbn [scan_right]. destruct (decide (b = p)) as [->|Hne].
  { rewrite bool_decide_true by done. exists p. split; [done|]. split; [lia|]. by split. }
  rewrite bool_decide_false by ptr_ne. destruct (elem_at _ _ b Ha) as [x Hx]; [lia|]. rewrite (compare_ok _ _ _ _ _ _ Ha Hx Hp). cbn [mbind res_bind].
  destruct (Z.leb_spec 0 (c x pv)) as [Hc|Hc].
  - rewrite (arr_prev _ _ b Ha) by lia. cbn [mbind res_bind]. destruct b as [|b]; [lia|].
    destruct (IH b) as (b' & -> & H1 & H2); [lia|lia| |exists b'; split; [done|]; split; [lia|done]].
    intros i z Hi Hz. destruct (decide (i = S b)) as [->|]; [|apply (Hb i); [lia|done]]. rewrite Hx in Hz. by injection Hz as <-.
  - exists b. split; [done|]. split; [lia|]. split; [done|]. intros _. by exists x.
Qed.

Lemma meet_ok p pv F L : (L < length ps)%nat -> forall fuel a b h xs, arr h xs -> xs !! p = Some pv -> (F <= a <= p)%nat -> (p <= b <= L)%nat -> (b - a < fuel)%nat ->
  below F a xs pv -> above b L xs pv ->
  exists a' b' h' ys, meet fuel l v (ptr (S a)) (ptr (S b)) (ptr (S p)) h = Ok (ptr (S a'), ptr (S b'), h') /\ arr h' ys /\ shuffled F L xs ys /\ ys !! p = Some pv /\
    (F <= a' <= p)%nat /\ (p <= b' <= L)%nat /\ (a' = p \/ b' = p) /\ below F a' ys pv /\ above b' L ys pv.
Proof.
  intros Hn. induction fuel as [|fuel IH]; intros a b h xs Ha Hp Hap Hpb Hf Hbe Hab; [lia|]. cbn [meet].
  destruct (decide (a = p \/ b = p)) as [Hend|Hgo].
  { exists a, b, h, xs. split; [|split; [done|split; [constructor|done]]]. destruct Hend as [-> | ->]; rewrite (bool_decide_true (ptr (S p) = ptr (S p))) by done; [done|by rewrite orb_true_r]. }
  rewrite !bool_decide_false by ptr_ne. cbn [orb]. pose proof (arr_fuel _ _ Ha).
  destruct (scan_left_ok h xs p pv F Ha Hp (entry_fuel h) a) as (a1 & -> & Ha1 & Hbe1 & Hx1); [lia|lia|done|]. cbn [mbind res_bind].
  destruct (scan_right_ok h xs p pv L Ha Hp Hn (entry_fuel h) b) as (b1 & -> & Hb1 & Hab1 & Hy1); [lia|lia|done|]. cbn [mbind res_bind].
  destruct (decide (a1 = p \/ b1 = p)) as [Hone|Hboth].
  { assert (E : bool_decide (ptr (S a1) <> ptr (S p)) && bool_decide (ptr (S b1) <> ptr (S p)) = false).
    { destruct Hone as [-> | ->]; [by rewrite bool_decide_false by (by intros [])|by rewrite (bool_decide_false (ptr (S p) <> ptr (S p))), andb_false_r by (by intros [])]. }
    rewrite E. apply IH; try done; lia. }
  rewrite !bool_decide_true by ptr_ne. cbn [andb]. destruct Hx1 as (x & Hx & Hcx); [lia|]. destruct Hy1 as (y & Hy & Hcy); [lia|].
  destruct (arr_swap _ _ _ _ _ _ Ha Hx Hy) as (h1 & -> & Ha'). cbn [mbind res_bind]. rewrite (arr_next _ _ (S a1) Ha'), (arr_prev _ _ b1 Ha') by lia. cbn [mbind res_bind].
  set (ys := <[b1:=x]> (<[a1:=y]> xs)) in *. assert (Hk : forall k, ys !! k = if decide (k = b1) then Some x else if decide (k = a1) then Some y else xs !! k) by (intros k; by apply lookup_swap).
  destruct b1 as [|b1]; [lia|]. destruct (IH (S a1) b1 h1 ys Ha') as (a' & b' & h' & zs & -> & H1 & H2 & H3).
  - rewrite Hk. destruct (decide (p = S b1)); [lia|]. by destruct (decide (p = a1)); [lia|].
  - lia.
  - lia.
  - lia.
  - intros i z Hi. rewrite Hk. destruct (decide (i = S b1)); [lia|]. destruct (decide (i = a1)); [intros [= <-]; lia|]. apply Hbe1. lia.
  - intros i z Hi. rewrite Hk. destruct (decide (i = S b1)); [intros [= <-]; lia|]. destruct (decide (i = a1)); [lia|]. apply Hab1. lia.
  - exists a', b', h', zs. split; [done|]. split; [done|]. split; [|done]. eapply shuffled_trans; [|exact H2]. eapply shuffled_swap; [constructor|lia|lia|done|done].
Qed.

Lemma rotate_ok h xs F L s q p x y z : arr h xs -> (F <= s <= L)%nat -> (F <= q <= L)%nat -> (F <= p <= L)%nat -> s <> p -> q <> p ->
  xs !! s = Some x -> xs !! q = Some y -> xs !! p = Some z ->
  exists h' ys, rotate (ptr (S s)) (ptr (S q)) (ptr (S p)) h = Ok h' /\ arr h' ys /\ shuffled F L xs ys /\
    forall k, ys !! k = if decide (k = p) then Some x else if decide (k = q) then Some z else if decide (k = s) then Some y else xs !! k.
Proof.
  intros Ha Hs Hq Hp Hsp Hqp Ex Ey Ez. unfold rotate. rewrite (arr_data _ _ _ _ Ha Ex), (arr_data _ _ _ _ Ha Ey). cbn [mbind res_bind].
  destruct (arr_set _ _ _ _ y Ha Ex) as (h1 & -> & Ha1). cbn [mbind res_bind].
  assert (Ls : (s < length xs)%nat) by (by apply lookup_lt_Some in Ex). assert (Lq : (q < length xs)%nat) by (by apply lookup_lt_Some in Ey). assert (Lp : (p < length xs)%nat) by (by apply lookup_lt_Some in Ez).
  rewrite (arr_data _ _ p z Ha1) by (by rewrite list_lookup_insert_ne). cbn [mbind res_bind].
  assert (Hq1 : is_Some (<[s:=y]> xs !! q)) by (apply lookup_lt_is_Some; by rewrite length_insert). destruct Hq1 as [yq Hq1].
  destruct (arr_set _ _ _ _ z Ha1 Hq1) as (h2 & -> & Ha2). cbn [mbind res_bind].
  assert (Hp2 : is_Some (<[q:=z]> (<[s:=y]> xs) !! p)) by (apply lookup_lt_is_Some; by rewrite !length_insert). destruct Hp2 as [zp Hp2].
  destruct (arr_set _ _ _ _ x Ha2 Hp2) as (h3 & -> & Ha3). set (ys := <[p:=x]> _) in *. exists h3, ys. split; [done|]. split; [done|].
  assert (Hk : forall k, ys !! k = if decide (k = p) then Some x else if decide (k = q) then Some z else if decide (k = s) then Some y else xs !! k).
  { intros k. unfold ys. destruct (decide (k = p)) as [->|]; [apply list_lookup_insert_eq; by rewrite !length_insert|]. rewrite list_lookup_insert_ne by done.
    destruct (decide (k = q)) as [->|]; [apply list_lookup_insert_eq; by rewrite !length_insert|]. rewrite list_lookup_insert_ne by done.
    destruct (decide (k = s)) as [->|]; [by apply list_lookup_insert_eq|by apply list_lookup_insert_ne]. }
  split; [|exact Hk]. set (ws := <[p:=x]> (<[s:=z]> xs)). pose proof (lookup_swap _ _ _ _ _ : forall k, xs !! s = Some x -> xs !! p = Some z -> ws !! k = _) as Hw.
  assert (H1 : ws !! s = Some z) by (rewrite Hw by done; destruct (decide (s = p)); [done|by rewrite decide_True]).
  assert (H2 : ws !! q = Some (if decide (q = s) then z else y)) by (rewrite Hw by done; rewrite decide_False by done; by destruct (decide (q = s))).
  assert (E : ys = <[q:=z]> (<[s:=if decide (q = s) then z else y]> ws)).
  { apply list_eq. intros k. rewrite (lookup_swap _ _ _ _ _ _ H1 H2), Hk, Hw by done. destruct (decide (k = q)) as [->|]; [by rewrite decide_False|].
    destruct (decide (k = s)) as [->|]; [|done]. rewrite decide_False by done. by destruct (decide (q = s)); [congruence|]. }
  rewrite E. eapply shuffled_swap; [|done|done|done|done]. eapply shuffled_swap; [constructor|done|done|done|done].
Qed.

(** The pivot in its place: less or equal before it, greater or equal behind it. *)
Definition placed (F L p : nat) (xs : list Z) (pv : Z) : Prop := (F <= p <= L)%nat /\ xs !! p = Some pv /\ below F p xs pv /\ above p L xs pv.

Lemma left_longer_ok pv F L : (L < length ps)%nat -> forall fuel a p h xs, arr h xs -> xs !! p = Some pv -> (F <= a <= p)%nat -> (p <= L)%nat -> (p - a < fuel)%nat ->
  below F a xs pv -> above p L xs pv ->
  exists p' h' ys, left_longer fuel l v (ptr (S a)) (ptr (S p)) (Z.of_nat (p - F)) h = Ok (ptr (S p'), Z.of_nat (p' - F), h') /\ arr h' ys /\ shuffled F L xs ys /\
    placed F L p' ys pv.
Proof.
  intros Hn. induction fuel as [|fuel IH]; intros a p h xs Ha Hp Hap HpL Hf Hbe Hab; [lia|]. cbn [left_longer]. destruct (decide (a = p)) as [->|Hne].
  { rewrite bool_decide_true by done. exists p, h, xs. split; [done|]. split; [done|]. split; [constructor|]. by repeat split; try lia. }
  rewrite bool_decide_false by ptr_ne. destruct (elem_at _ _ a Ha) as [x Hx]; [lia|]. rewrite (compare_ok _ _ _ _ _ _ Ha Hx Hp). cbn [mbind res_bind].
  destruct (Z.ltb_spec 0 (c x pv)) as [Hc|Hc].
  - destruct p as [|q]; [lia|]. rewrite (arr_prev _ _ (S q) Ha) by lia. cbn [mbind res_bind]. destruct (elem_at _ _ q Ha) as [y Hy]; [lia|].
    destruct (rotate_ok h xs F L a q (S q) x y pv Ha) as (h1 & ys & -> & Ha1 & Hsh & Hk); [lia..|done|done|done|]. cbn [mbind res_bind].
    assert (Hq : ys !! q = Some pv) by (rewrite Hk, decide_False, decide_True by lia; done).
    assert (Hab1 : above q L ys pv).
    { intros i w Hi. rewrite Hk. destruct (decide (i = S q)); [intros [= <-]; lia|]. rewrite !decide_False by lia. apply Hab. lia. }
    assert (Hbe1 : below F a ys pv) by (intros i w Hi; rewrite Hk, !decide_False by lia; by apply Hbe).
    pose proof (arr_bound _ _ Ha) as Hlim. unfold limit in Hlim. rewrite u32_id by lia. replace (Z.of_nat (S q - F) - 1) with (Z.of_nat (q - F)) by lia.
    destruct (decide (q = a)) as [->|Hqa].
    + rewrite bool_decide_true by done. exists a, h1, ys. split; [done|]. split; [done|]. split; [done|]. by repeat split; try lia.
    + rewrite bool_decide_false by ptr_ne. destruct (IH a q h1 ys Ha1 Hq) as (p' & h' & zs & -> & H1 & H2 & H3); [lia..|done|done|].
      exists p', h', zs. split; [done|]. split; [done|]. split; [by eapply shuffled_trans|done].
  - rewrite (arr_next _ _ (S a) Ha) by lia. cbn [mbind res_bind]. apply IH; try done; try lia.
    intros i w Hi Hw. destruct (decide (i = a)) as [->|]; [|apply (Hbe i); [lia|done]]. rewrite Hx in Hw. by injection Hw as <-.
Qed.

Lemma right_longer_ok pv F L : (L < length ps)%nat -> forall fuel b p h xs, arr h xs -> xs !! p = Some pv -> (F <= p <= b)%nat -> (b <= L)%nat -> (b - p < fuel)%nat ->
  below F p xs pv -> above b L xs pv ->
  exists p' h' ys, right_longer fuel l v (ptr (S b)) (ptr (S p)) (Z.of_nat (p - F)) h = Ok (ptr (S p'), Z.of_nat (p' - F), h') /\ arr h' ys /\ shuffled F L xs ys /\
    placed F L p' ys pv.
Proof.
  intros Hn. induction fuel as [|fuel IH]; intros b p h xs Ha Hp Hpb HbL Hf Hbe Hab; [lia|]. cbn [right_longer]. destruct (decide (b = p)) as [->|Hne].
  { rewrite bool_decide_true by done. exists p, h, xs. split; [done|]. split; [done|]. split; [constructor|]. by repeat split; try lia. }
  rewrite bool_decide_false by ptr_ne. destruct (elem_at _ _ b Ha) as [x Hx]; [lia|]. rewrite (compare_ok _ _ _ _ _ _ Ha Hx Hp). cbn [mbind res_bind].
  destruct (Z.ltb_spec (c x pv) 0) as [Hc|Hc].
  - rewrite (arr_next _ _ (S p) Ha) by lia. cbn [mbind res_bind]. destruct (elem_at _ _ (S p) Ha) as [y Hy]; [lia|].
    destruct (rotate_ok h xs F L b (S p) p x y pv Ha) as (h1 & ys & -> & Ha1 & Hsh & Hk); [lia..|done|done|done|]. cbn [mbind res_bind].
    assert (Hq : ys !! S p = Some pv) by (rewrite Hk, decide_False, decide_True by lia; done).
    assert (Hbe1 : below F (S p) ys pv).
    { intros i w Hi. rewrite Hk. destruct (decide (i = p)); [intros [= <-]; lia|]. rewrite !decide_False by lia. apply Hbe. lia. }
    assert (Hab1 : above b L ys pv) by (intros i w Hi; rewrite Hk, !decide_False by lia; by apply Hab).
    pose proof (arr_bound _ _ Ha) as Hlim. unfold limit in Hlim. rewrite u32_id by lia. replace (Z.of_nat (p - F) + 1) with (Z.of_nat (S p - F)) by lia.
    destruct (decide (S p = b)) as [<-|Hqa].
    + rewrite bool_decide_true by done. exists (S p), h1, ys. split; [done|]. split; [done|]. split; [done|]. by repeat split; try lia.
    + rewrite bool_decide_false by ptr_ne. destruct (IH b (S p) h1 ys Ha1 Hq) as (p' & h' & zs & -> & H1 & H2 & H3); [lia..|done|done|].
      exists p', h', zs. split; [done|]. split; [done|]. split; [by eapply shuffled_trans|done].
  - rewrite (arr_prev _ _ b Ha) by lia. cbn [mbind res_bind]. destruct b as [|b]; [lia|]. apply IH; try done; try lia.
    intros i w Hi Hw. destruct (decide (i = S b)) as [->|]; [|apply (Hab i); [lia|done]]. rewrite Hx in Hw. by injection Hw as <-.
Qed.

Lemma partition_ok h xs F L p pv : (L < length ps)%nat -> arr h xs -> xs !! p = Some pv -> (F <= p <= L)%nat ->
  exists p' h' ys, partition l v (ptr (S F)) (ptr (S L)) (ptr (S p)) (Z.of_nat (p - F)) h = Ok (ptr (S p'), Z.of_nat (p' - F), h') /\ arr h' ys /\ shuffled F L xs ys /\
    placed F L p' ys pv.
Proof.
  intros Hn Ha Hp HFL. unfold partition. pose proof (arr_fuel _ _ Ha).
  destruct (meet_ok p pv F L Hn (entry_fuel h) F L h xs Ha Hp) as (a & b & h1 & ys & -> & Ha1 & Hsh & Hp1 & Hap & Hpb & Hend & Hbe & Hab); [lia..|intros i; lia|intros i; lia|].
  cbn [mbind res_bind]. pose proof (arr_fuel _ _ Ha1). destruct (decide (b = p)) as [->|Hb].
  - rewrite bool_decide_true by done. destruct (left_longer_ok pv F L Hn (entry_fuel h1) a p h1 ys Ha1 Hp1) as (p' & h' & zs & -> & H1 & H2 & H3); [lia..|done|done|].
    exists p', h', zs. split; [done|]. split; [done|]. split; [by eapply shuffled_trans|done].
  - rewrite bool_decide_false by ptr_ne. assert (a = p) as -> by lia.
    destruct (right_longer_ok pv F L Hn (entry_fuel h1) b p h1 ys Ha1 Hp1) as (p' & h' & zs & -> & H1 & H2 & H3); [lia..|done|done|].
    exists p', h', zs. split; [done|]. split; [done|]. split; [by eapply shuffled_trans|done].
Qed.

(** ** Quicksort *)

(** Both sides sorted around the pivot. *)
Lemma sorted_around F L p xs pv : ordered -> (F <= p <= L)%nat -> placed F L p xs pv -> ((F < p)%nat -> sorted F (p - 1) xs) -> ((p < L)%nat -> sorted (S p) L xs) -> sorted F L xs.
Proof.
  intros Ho HFL (_ & Hp & Hbe & Hab) Hl Hr i j Hi Hj.
  assert (Hle : forall k, (F <= k < p)%nat -> leq xs k p) by (intros k Hk x y Hx Hy; rewrite Hp in Hy; injection Hy as <-; by apply (Hbe k)).
  assert (Hge : forall k, (p < k <= L)%nat -> leq xs p k).
  { intros k Hk x y Hx Hy. rewrite Hp in Hx. injection Hx as <-. specialize (Hab k y Hk Hy). pose proof (proj1 Ho pv y). lia. }
  assert (Hpp : leq xs p p) by (by apply leq_refl).
  destruct (decide (j < p)%nat); [apply Hl; lia|]. destruct (decide (p < i)%nat); [apply Hr; lia|].
  apply (leq_trans xs i p j Ho); [by exists pv| |]; [destruct (decide (i = p)) as [->|]; [done|apply Hle; lia]|destruct (decide (j = p)) as [->|]; [done|apply Hge; lia]].
Qed.

(** What sorting one side keeps. *)
Lemma placed_shuffled F L p F' L' xs ys pv : placed F L p xs pv -> shuffled F' L' xs ys -> (F <= F')%nat -> (L' <= L)%nat -> (L' < p \/ p < F')%nat -> placed F L p ys pv.
Proof.
  intros (HFL & Hp & Hbe & Hab) Hsh HF HL Hside. split; [done|]. split; [rewrite (shuffled_out _ _ _ _ p Hsh) by lia; done|]. split; intros i x Hi Hx.
  - destruct (decide (F' <= i <= L')%nat) as [Hin|]; [|rewrite (shuffled_out _ _ _ _ i Hsh) in Hx by lia; by apply (Hbe i)].
    refine (shuffled_in (fun x => c x pv <= 0) F' L' xs ys Hsh _ i x Hin Hx). intros k z Hk. apply Hbe. lia.
  - destruct (decide (F' <= i <= L')%nat) as [Hin|]; [|rewrite (shuffled_out _ _ _ _ i Hsh) in Hx by lia; by apply (Hab i)].
    refine (shuffled_in (fun x => 0 <= c x pv) F' L' xs ys Hsh _ i x Hin Hx). intros k z Hk. apply Hab. lia.
Qed.

Lemma sorted_outside F L F' L' xs ys : sorted F L xs -> shuffled F' L' xs ys -> (L < F')%nat -> sorted F L ys.
Proof. intros Hs Hsh HL i j Hi Hj x y. rewrite !(shuffled_out _ _ _ _ _ Hsh) by lia. by apply Hs. Qed.

Section Quick.
Context (rand : nat -> Z).

Lemma pivot_ok h xs F L k : arr h xs -> (F < L)%nat -> (L < length ps)%nat ->
  let pivotid := u32 (rand k) mod u32 (Z.of_nat L - Z.of_nat F + 1) in
  exists p, (F <= p <= L)%nat /\ pivotid = Z.of_nat (p - F) /\
    (if pivotid <? u32 (Z.of_nat L - Z.of_nat F + 1) / 2 then forward (Z.to_nat pivotid) (ptr (S F)) h
     else backward (Z.to_nat (Z.of_nat L - Z.of_nat F - pivotid)) (ptr (S L)) h) = Ok (ptr (S p)).
Proof.
  intros Ha HFL HL pivotid. pose proof (arr_bound _ _ Ha) as Hb. unfold limit in Hb. subst pivotid. rewrite (u32_id (Z.of_nat L - Z.of_nat F + 1)) by lia.
  pose proof (Z.mod_pos_bound (u32 (rand k)) (Z.of_nat L - Z.of_nat F + 1) ltac:(lia)) as Hm. set (q := u32 (rand k) mod _) in *.
  exists (F + Z.to_nat q)%nat. split; [lia|]. split; [lia|].
  assert (El : length xs = length ps) by (by apply (arr_length h)). assert (Ef : length (full hd (zip ps xs) tl) = S (S (length ps))) by (by rewrite full_length, zip_length).
  assert (Hd : dll None (full hd (zip ps xs) tl) None h.(entries)) by (apply (rep_seg l h R); by destruct Ha as (_ & ? & _)).
  rewrite <- !(at_ptr xs) by done. destruct (q <? _).
  - rewrite (forward_at _ _ Hd) by lia. do 2 f_equal.
  - rewrite (backward_at _ _ Hd) by lia. do 2 f_equal. lia.
Qed.

Lemma quicksort_ok : forall fuel F L k h xs, arr h xs -> (F <= L)%nat -> (L < length ps)%nat -> (L - F < fuel)%nat ->
  exists k' h' ys, ks_list_sort_quicksort rand fuel l v (Z.of_nat F) (ptr (S F)) (Z.of_nat L) (ptr (S L)) k h = Ok (k', h') /\ arr h' ys /\ shuffled F L xs ys /\
    (ordered -> sorted F L ys).
Proof.
  induction fuel as [|fuel IH]; intros F L k h xs Ha HFL HL Hf; [lia|]. cbn [ks_list_sort_quicksort]. pose proof (arr_bound _ _ Ha) as Hb. unfold limit in Hb.
  destruct (Z.leb_spec (Z.of_nat L) (Z.of_nat F)) as [Hle|Hlt].
  { exists k, h, xs. split; [done|]. split; [done|]. split; [constructor|]. intros Ho i j Hi Hj. assert (i = j) as -> by lia. by apply leq_refl. }
  destruct (u32 (Z.of_nat L - Z.of_nat F + 1) <=? SIMCLIST_MINQUICKSORTELS).
  { unfold ks_list_sort_selectionsort. destruct (Z.leb_spec (Z.of_nat L) (Z.of_nat F)); [lia|]. pose proof (arr_fuel _ _ Ha).
    destruct (selection_ok F L HL (entry_fuel h) F h xs Ha) as (h' & ys & -> & Ha' & Hsh & Ho); [lia..|]. exists k, h', ys. split; [done|]. split; [done|]. split; [done|].
    intros Hord. apply Ho; [done|]. intros i j Hi. lia. }
  destruct (pivot_ok h xs F L k Ha) as (p & Hp & -> & ->); [lia|done|]. cbn [mbind res_bind]. destruct (elem_at _ _ p Ha) as [pv Epv]; [lia|].
  destruct (partition_ok h xs F L p pv HL Ha Epv Hp) as (q & h1 & ys & -> & Ha1 & Hsh1 & Hpl1). cbn [mbind res_bind]. destruct (Hpl1) as (Hq & _).
  assert (Hleft : exists k2 h2 zs, (if 0 <? Z.of_nat (q - F) then q' ← get_prev (ptr (S q)) h1; ks_list_sort_quicksort rand fuel l v (Z.of_nat F) (ptr (S F)) (u32 (Z.of_nat F + Z.of_nat (q - F) - 1)) q' (S k) h1 else Ok (S k, h1)) = Ok (k2, h2) /\
    arr h2 zs /\ shuffled F L ys zs /\ placed F L q zs pv /\ (ordered -> (F < q)%nat -> sorted F (q - 1) zs)).
  { destruct (Z.ltb_spec 0 (Z.of_nat (q - F))); [|exists (S k), h1, ys; split; [done|]; split; [done|]; split; [constructor|]; split; [done|]; intros _; lia].
    rewrite (arr_prev _ _ q Ha1) by lia. cbn [mbind res_bind]. destruct q as [|q0]; [lia|]. rewrite u32_id by lia. replace (Z.of_nat F + Z.of_nat (S q0 - F) - 1) with (Z.of_nat q0) by lia.
    destruct (IH F q0 (S k) h1 ys Ha1) as (k2 & h2 & zs & -> & Ha2 & Hsh2 & Ho2); [lia..|]. exists k2, h2, zs. split; [done|]. split; [done|].
    split; [eapply shuffled_widen; [| |exact Hsh2]; lia|]. split; [eapply placed_shuffled; [done|exact Hsh2|lia..]|]. intros Ho _. replace (S q0 - 1)%nat with q0 by lia. by apply Ho2. }
  destruct Hleft as (k2 & h2 & zs & -> & Ha2 & Hsh2 & Hpl2 & Hs2). cbn [mbind res_bind].
  assert (Hxz : shuffled F L xs zs) by (by eapply shuffled_trans). rewrite u32_id by lia. replace (Z.of_nat F + Z.of_nat (q - F)) with (Z.of_nat q) by lia.
  destruct (Z.ltb_spec (Z.of_nat q) (Z.of_nat L)).
  - rewrite (arr_next _ _ (S q) Ha2) by lia. cbn [mbind res_bind]. rewrite u32_id by lia. replace (Z.of_nat q + 1) with (Z.of_nat (S q)) by lia.
    destruct (IH (S q) L k2 h2 zs Ha2) as (k3 & h3 & ws & -> & Ha3 & Hsh3 & Ho3); [lia..|]. exists k3, h3, ws. split; [done|]. split; [done|].
    split; [eapply shuffled_trans; [exact Hxz|]; eapply shuffled_widen; [| |exact Hsh3]; lia|]. intros Ho.
    apply (sorted_around F L q ws pv Ho); [lia|eapply placed_shuffled; [done|exact Hsh3|lia..]| |intros _; by apply Ho3].
    intros HFq. eapply sorted_outside; [by apply Hs2|exact Hsh3|lia].
  - exists k2, h2, zs. split; [done|]. split; [done|]. split; [done|]. intros Ho. apply (sorted_around F L q zs pv Ho); [lia|done|by apply Hs2|lia].
Qed.
End Quick.
End Array.

(** ** Sorting *)

(** A comparator as the header wants it: positive if and only if [a] is less than [b]. *)
Definition comparator_order (f : Z -> Z -> Z) : Prop := (forall a b, 0 < f a b <-> f b a < 0) /\ forall a b d, 0 <= f a b -> 0 <= f b d -> 0 <= f a d.
(** Small to big for a positive [versus], big to small for a negative one. *)
Definition in_order (f : Z -> Z -> Z) (versus : Z) (ys : list Z) : Prop :=
  forall i j x y, (i <= j)%nat -> ys !! i = Some x -> ys !! j = Some y -> 0 <= if 0 <? versus then f x y else f y x.

Lemma order_sign (m : gmap positive (list Z)) cmp versus : versus <> 0 -> comparator_order (cmp m) ->
  (forall a b, c m cmp versus a b <= 0 <-> 0 <= if 0 <? versus then cmp m a b else cmp m b a) /\ ordered m cmp versus.
Proof.
  intros Hv [Hs Ht]. assert (Hle : forall a b, c m cmp versus a b <= 0 <-> 0 <= if 0 <? versus then cmp m a b else cmp m b a).
  { intros a b. unfold c. pose proof (Hs a b). pose proof (Hs b a). destruct (Z.ltb_spec 0 versus); nia. }
  split; [exact Hle|]. split.
  - intros a b. unfold c. pose proof (Hs a b). pose proof (Hs b a). nia.
  - intros a b d H1%Hle H2%Hle. apply Hle. destruct (0 <? versus); eauto.
Qed.

Lemma start_arr a m R l h xs : is_list a m R l h (Spec xs None) -> exists hd tl ps, length ps = length xs /\ NoDup (hd :: ps ++ [tl]) /\
  arr l R hd tl ps m h.(serve) h xs /\ h.(blocks) = m /\ l.(head_sentinel) = ptr hd tl ps 0 /\ l.(tail_sentinel) = ptr hd tl ps (S (length ps)) /\ l.(numels) = Z.of_nat (length ps).
Proof.
  intros (_ & Hb & _ & hd & tl & ns & Hr & Hx & _). cbn [items] in Hx. exists hd, tl, ns.*1.
  assert (El : length ns.*1 = length xs) by (by rewrite <- Hx, !length_fmap). assert (Ez : zip ns.*1 xs = ns) by (rewrite <- Hx; apply zip_fst_snd).
  assert (Ht : ptr hd tl ns.*1 (S (length ns.*1)) = Some tl) by (unfold ptr; change ((ns.*1 ++ [tl]) !! length ns.*1 = Some tl); by apply list_lookup_middle).
  split; [done|]. split; [|split; [|split; [done|split; [|split]]]].
  - pose proof (rep_nodup _ _ _ _ _ _ Hr) as Hn. unfold full in Hn. cbn [fmap list_fmap fst] in Hn. by rewrite fmap_app in Hn.
  - split; [by rewrite El|]. by rewrite Ez.
  - apply (r_head _ _ _ _ _ _ Hr).
  - rewrite Ht. apply (r_tail _ _ _ _ _ _ Hr).
  - rewrite length_fmap. apply (rep_numels _ _ _ _ _ _ Hr).
Qed.

Lemma end_arr a m R l h h' xs ys hd tl ps : is_list a m R l h (Spec xs None) -> arr l R hd tl ps m h.(serve) h' ys -> is_list a m R l h' (Spec ys None).
Proof.
  intros (Hs & _ & Ha & ? & ? & ? & _ & _ & Hc) (El & Hr & Hb & Hs'). split; [unfold served in *; congruence|]. split; [done|]. split; [done|].
  exists hd, tl, (zip ps ys). split; [done|]. split; [by rewrite snd_zip by lia|done].
Qed.

(** C7: Sorting sorts. Take a list of less than 2^24 elements that is not being iterated ([is_list] bounds it), and
    any comparator, a senseless one included, whose results, times [versus], are within INT_MAX. Whatever [rand]
    returns, [ks_list_sort] ends and returns 0, follows no pointer that is NULL or has been freed, no assertion
    fails, and the list then holds the same data in another order; nothing else in the pool changes, and every later
    call finds a list of that sequence. If the comparator orders the data as the header asks, they are in that
    order, from small to big for a positive [versus] and from big to small for a negative one. *)
Theorem ks_list_sort_sorts rand a m R l h xs cmp versus : is_list a m R l h (Spec xs None) -> a.(comparator) = Some cmp ->
  - INT_MAX <= versus <= INT_MAX -> (forall x y, - INT_MAX <= cmp m x y * versus <= INT_MAX) ->
  exists h' ys, ks_list_sort rand l versus h = Ok (0, h') /\ is_list a m R l h' (Spec ys None) /\ ys ≡ₚ xs /\
    (versus <> 0 -> comparator_order (cmp m) -> in_order (cmp m) versus ys).
Proof.
  intros Hl Hc Hv Hb. destruct (start_arr _ _ _ _ _ _ Hl) as (hd & tl & ps & El & Hnd & Ha & Hm & Eh & Et & En).
  assert (Hi : l.(iter_active) = false /\ l.(attrs) = a) by (by destruct Hl as (_ & _ & ? & ? & ? & ? & _ & _ & ?)). destruct Hi as [Hi Hat].
  unfold ks_list_sort. rewrite Hi, Hat, Hc, En. cbn [orb]. rewrite bool_decide_false by done.
  destruct (Z.leb_spec (Z.of_nat (length ps)) 1) as [H1|H1].
  { exists h, xs. split; [done|]. split; [done|]. split; [done|]. intros _ [Ho _] i j x y Hij Hx Hy. apply lookup_lt_Some in Hx as Lx. apply lookup_lt_Some in Hy as Ly.
    assert (i = j) as -> by lia. rewrite Hx in Hy. injection Hy as <-. pose proof (Ho x x). destruct (0 <? versus); lia. }
  rewrite Eh, Et, (arr_next _ _ _ _ _ _ _ _ _ 0 Ha), (arr_prev _ _ _ _ _ _ _ _ _ (length ps) Ha) by lia. cbn [mbind res_bind].
  pose proof (arr_bound _ _ _ _ _ _ _ _ _ Ha) as Hlim. unfold limit in Hlim. rewrite u32_id by lia. replace (Z.of_nat (length ps) - 1) with (Z.of_nat (length ps - 1)) by lia.
  rewrite <- Hat in Hc.
  destruct (quicksort_ok l R hd tl ps m h.(serve) Hnd cmp versus Hc Hv Hb rand (Z.to_nat (Z.of_nat (length ps))) 0 (length ps - 1) 0 h xs Ha) as (k & h' & ys & E & Ha' & Hsh & Ho); [lia..|].
  replace (S (length ps - 1)) with (length ps) in E by lia. change (Z.of_nat 0) with 0 in E. rewrite E. cbn [mbind res_bind].
  assert (Hr' : rep l h' R hd tl (zip ps ys)) by (by destruct Ha' as (_ & ? & _)). rewrite (assert_rep _ _ _ _ _ _ Hr'). cbn [mbind res_bind].
  exists h', ys. split; [done|]. split; [by eapply end_arr|]. split; [by eapply shuffled_perm|]. intros Hv0 Hord.
  destruct (order_sign m cmp versus Hv0 Hord) as [Hs Hod]. intros i j x y Hij Hx Hy. apply Hs. apply lookup_lt_Some in Hy as Ly. pose proof (arr_length _ _ _ _ _ _ _ _ _ Ha').
  apply (Ho Hod i j); [lia|lia|done|done].
Qed.
(** A list of 41 appended in a mixed order: sorted around pivots, and by selection. *)
Lemma ks_list_sort_sorts_witness :
  let a := Attrs (Some by_value) None None false None in
  exists l h h' ys, is_list a ∅ ∅ l h (Spec mixed None) /\ ks_list_sort (fun n => Z.of_nat n * 7919) l 1 h = Ok (0, h') /\ is_list a ∅ ∅ l h' (Spec ys None) /\
    ys ≡ₚ mixed /\ in_order (by_value ∅) 1 ys.
Proof.
  intros a. destruct (session_ok (Pool ∅ ∅ []) (Some by_value) None (map Append mixed)) as (l & h & _ & Hl); [reflexivity| |vm_compute; repeat split; discriminate|].
  { intros c [= <-] x y. unfold by_value. destruct (x <? y), (y <? x); split; discriminate. }
  assert (E : (spec_all a ∅ (map Append mixed) (Spec [] None)).2 = Spec mixed None) by (vm_compute; reflexivity). cbn [blocks entries] in Hl. fold a in Hl. rewrite E in Hl.
  destruct (ks_list_sort_sorts (fun n => Z.of_nat n * 7919) a ∅ ∅ l h mixed by_value 1 Hl eq_refl) as (h' & ys & Hs & Hl' & Hp & Ho).
  - split; discriminate.
  - intros x y. unfold by_value. destruct (x <? y), (y <? x); split; discriminate.
  - exists l, h, h', ys. do 4 (split; [assumption|]). apply Ho; [discriminate|]. split.
    + intros x y. unfold by_value. destruct (Z.ltb_spec x y), (Z.ltb_spec y x); lia.
    + intros x y z. unfold by_value. destruct (Z.ltb_spec x y), (Z.ltb_spec y x), (Z.ltb_spec y z), (Z.ltb_spec z y), (Z.ltb_spec x z), (Z.ltb_spec z x); lia.
Defined.

(** A list that is being iterated, or that has no comparator, is not sorted. *)
Lemma sort_refused rand l versus h : l.(iter_active) = true \/ l.(attrs).(comparator) = None -> ks_list_sort rand l versus h = Ok (-1, h).
Proof. unfold ks_list_sort. intros [-> | ->]; [done|]. by rewrite bool_decide_true, orb_true_r by done. Qed.
End SimListSort.
