(* ===== verification/Str.v ===== *)
(** Strings (src/src/ks_string.c): the case tables. *)
From S2P Require Import Prelude.
Local Open Scope Z_scope.

Module Str.

(** ** Case tables: entry 0 is EOF, entry [c + 1] the image of [c] *)

Definition ks_C_toupper : list Z := [
  (-1); 0; 1; 2; 3; 4; 5; 6; 7; 8; 9; 10; 11; 12; 13; 14; 15; 16; 17; 18;
  19; 20; 21; 22; 23; 24; 25; 26; 27; 28; 29; 30; 31; 32; 33; 34; 35; 36; 37; 38;
  39; 40; 41; 42; 43; 44; 45; 46; 47; 48; 49; 50; 51; 52; 53; 54; 55; 56; 57; 58;
  59; 60; 61; 62; 63; 64; 65; 66; 67; 68; 69; 70; 71; 72; 73; 74; 75; 76; 77; 78;
  79; 80; 81; 82; 83; 84; 85; 86; 87; 88; 89; 90; 91; 92; 93; 94; 95; 96; 65; 66;
  67; 68; 69; 70; 71; 72; 73; 74; 75; 76; 77; 78; 79; 80; 81; 82; 83; 84; 85; 86;
  87; 88; 89; 90; 123; 124; 125; 126; 127; 128; 129; 130; 131; 132; 133; 134; 135; 136; 137; 138;
  139; 140; 141; 142; 143; 144; 145; 146; 147; 148; 149; 150; 151; 152; 153; 154; 155; 156; 157; 158;
  159; 160; 161; 162; 163; 164; 165; 166; 167; 168; 169; 170; 171; 172; 173; 174; 175; 176; 177; 178;
  179; 180; 181; 182; 183; 184; 185; 186; 187; 188; 189; 190; 191; 192; 193; 194; 195; 196; 197; 198;
  199; 200; 201; 202; 203; 204; 205; 206; 207; 208; 209; 210; 211; 212; 213; 214; 215; 216; 217; 218;
  219; 220; 221; 222; 223; 224; 225; 226; 227; 228; 229; 230; 231; 232; 233; 234; 235; 236; 237; 238;
  239; 240; 241; 242; 243; 244; 245; 246; 247; 248; 249; 250; 251; 252; 253; 254; 255].

Definition ks_C_tolower : list Z := [
  (-1); 0; 1; 2; 3; 4; 5; 6; 7; 8; 9; 10; 11; 12; 13; 14; 15; 16; 17; 18;
  19; 20; 21; 22; 23; 24; 25; 26; 27; 28; 29; 30; 31; 32; 33; 34; 35; 36; 37; 38;
  39; 40; 41; 42; 43; 44; 45; 46; 47; 48; 49; 50; 51; 52; 53; 54; 55; 56; 57; 58;
  59; 60; 61; 62; 63; 64; 97; 98; 99; 100; 101; 102; 103; 104; 105; 106; 107; 108; 109; 110;
  111; 112; 113; 114; 115; 116; 117; 118; 119; 120; 121; 122; 91; 92; 93; 94; 95; 96; 97; 98;
  99; 100; 101; 102; 103; 104; 105; 106; 107; 108; 109; 110; 111; 112; 113; 114; 115; 116; 117; 118;
  119; 120; 121; 122; 123; 124; 125; 126; 127; 128; 129; 130; 131; 132; 133; 134; 135; 136; 137; 138;
  139; 140; 141; 142; 143; 144; 145; 146; 147; 148; 149; 150; 151; 152; 153; 154; 155; 156; 157; 158;
  159; 160; 161; 162; 163; 164; 165; 166; 167; 168; 169; 170; 171; 172; 173; 174; 175; 176; 177; 178;
  179; 180; 181; 182; 183; 184; 185; 186; 187; 188; 189; 190; 191; 192; 193; 194; 195; 196; 197; 198;
  199; 200; 201; 202; 203; 204; 205; 206; 207; 208; 209; 210; 211; 212; 213; 214; 215; 216; 217; 218;
  219; 220; 221; 222; 223; 224; 225; 226; 227; 228; 229; 230; 231; 232; 233; 234; 235; 236; 237; 238;
  239; 240; 241; 242; 243; 244; 245; 246; 247; 248; 249; 250; 251; 252; 253; 254; 255].

Definition ks_toupper (c : Z) : res Z :=
  if 255 <? u32 c then Ok c else if c <? -1 then Ok (-1) else ld ks_C_toupper (c + 1).

Definition ks_tolower (c : Z) : res Z :=
  if 255 <? u32 c then Ok c else if c <? -1 then Ok (-1) else ld ks_C_tolower (c + 1).

(** ASCII case mapping. *)
Definition upper (c : Z) : Z := if (97 <=? c) && (c <=? 122) then c - 32 else c.
Definition lower (c : Z) : Z := if (65 <=? c) && (c <=? 90) then c + 32 else c.

Lemma tables_ascii :
  forallb (fun n => match ks_toupper (Z.of_nat n), ks_tolower (Z.of_nat n) with
                    | Ok u, Ok l => (u =? upper (Z.of_nat n)) && (l =? lower (Z.of_nat n))
                    | _, _ => false end) (seq 0 256) = true.
Proof. vm_compute. reflexivity. Qed.

Lemma ks_case_byte c : is_byte c -> ks_toupper c = Ok (upper c) /\ ks_tolower c = Ok (lower c).
Proof.
  intros Hc. unfold is_byte in Hc. pose proof tables_ascii as H. rewrite forallb_forall in H.
  specialize (H (Z.to_nat c)). rewrite in_seq, Z2Nat.id in H by lia. specialize (H ltac:(lia)).
  destruct (ks_toupper c), (ks_tolower c); try discriminate. apply andb_true_iff in H as [H1 H2].
  split; f_equal; by apply Z.eqb_eq.
Qed.

End Str.
