(* ===== verification/StrUtil.v ===== *)
(** String utilities (src/src/ks_string.c): search, copying, hex, URL encoding
    and decoding, sizes for readers. *)
From S2P Require Import Prelude Str.
Local Open Scope Z_scope.

Module StrUtil.
Import Str.

(** ** Definitions *)

(** [ks_stristr(instr, str)]: the offset of [instr] in [str]. A [char] is signed. *)
Definition same_letter (a b : Z) : res bool :=
  u ← ks_toupper (s8 a); v ← ks_toupper (s8 b); Ok (u =? v).

(** [while (ks_toupper( *sptr) == ks_toupper( *pptr))]: found, at the end of [str], or not here. *)
Inductive here := Found | StrEnd | Differs.

Fixpoint compare_here (fuel : nat) (str instr : list Z) (sptr pptr : Z) : res here :=
  match fuel with
  | O => Err NoFuel
  | S fuel =>
    a ← ld str sptr; b ← ld instr pptr;
    same ← same_letter a b;
    if same : bool then
      b' ← ld instr (pptr + 1);
      if b' =? 0 then Ok Found else
      a' ← ld str (sptr + 1);
      if a' =? 0 then Ok StrEnd else compare_here fuel str instr (sptr + 1) (pptr + 1)
    else Ok Differs
  end.

(** [for (; *start && toupper( *start) != toupper( *instr); start++)]. *)
Fixpoint find_start (fuel : nat) (str instr : list Z) (start : Z) : res Z :=
  match fuel with
  | O => Err NoFuel
  | S fuel =>
    a ← ld str start;
    if a =? 0 then Ok start else
    b ← ld instr 0;
    same ← same_letter a b;
    if same : bool then Ok start else find_start fuel str instr (start + 1)
  end.

Fixpoint stristr_loop (fuel : nat) (str instr : list Z) (start : Z) : res (option Z) :=
  match fuel with
  | O => Err NoFuel
  | S fuel =>
    a ← ld str start;
    if a =? 0 then Ok None else
    start ← find_start (S (length str)) str instr start;
    a ← ld str start;
    if a =? 0 then Ok None else
    r ← compare_here (S (length str)) str instr start 0;
    match r with
    | Found => Ok (Some start)
    | StrEnd => Ok None
    | Differs => stristr_loop fuel str instr (start + 1)
    end
  end.

Definition ks_stristr (instr str : option (list Z)) : res (option Z) :=
  match instr, str with
  | Some instr, Some str => stristr_loop (S (length str)) str instr 0
  | _, _ => Ok None
  end.

(** [ks_copy_string]: the buffer and the offset returned. *)
Fixpoint copy_loop (dst src : list Z) (p e : Z) : res (list Z * Z) :=
  if p <? e then
    match src with
    | [] => Err OutOfBounds
    | c :: src =>
      dst ← st dst p c;
      if c =? 0 then Ok (dst, p) else copy_loop dst src (p + 1) e
    end
  else dst ← st dst p 0; Ok (dst, p).

Definition ks_copy_string (from_str to_str : option (list Z)) (from_str_len : Z) : res (option (list Z * Z)) :=
  match from_str, to_str with
  | None, _ => Ok None
  | Some dst, None => dst ← st dst 0 0; Ok (Some (dst, 0))
  | Some dst, Some src => r ← copy_loop dst src 0 (from_str_len - 1); Ok (Some r)
  end.

Definition hex_digits : list Z := bytes_of_string "0123456789abcdef".

Fixpoint hex_loop (data buffer : list Z) (pout : Z) : res (list Z) :=
  match data with
  | [] => st buffer pout 0
  | c :: data =>
    h ← ld hex_digits (Z.land (Z.shiftr c 4) 15); buffer ← st buffer pout h;
    l ← ld hex_digits (Z.land c 15); buffer ← st buffer (pout + 1) l;
    hex_loop data buffer (pout + 2)
  end.

(** The [len] bytes at [data]. *)
Definition ks_hex_string (data : list Z) (len : Z) (buffer : list Z) : res (list Z) :=
  data ← slice data 0 len; hex_loop data buffer 0.

(** URLs: [\r \n], space, and the characters between the bars. *)
Definition urlunsafe : list Z := [13; 10; 32; 34; 35; 37; 38; 43; 58; 59; 60; 61; 62; 63; 64; 91; 92; 93; 94; 96; 123; 124; 125].
Definition url_hex : list Z := bytes_of_string "0123456789ABCDEF".

Definition must_escape (c : Z) : bool := (c <? 32) || (126 <? c) || existsb (Z.eqb c) urlunsafe.

Fixpoint url_encode_loop (url buf : list Z) (x len : Z) : res (list Z * Z) :=
  match url with
  | [] => Err OutOfBounds
  | p :: url =>
    if p =? 0 then Ok (buf, x) else
    if len <=? x then Ok (buf, x) else
    if must_escape (s8 p) then
      if len <=? x + 3 then Ok (buf, x) else
      buf ← st buf x 37;
      h ← ld url_hex (Z.shiftr (s8 p) 4); buf ← st buf (x + 1) h;
      l ← ld url_hex (Z.land (s8 p) 15); buf ← st buf (x + 2) l;
      url_encode_loop url buf (x + 3) len
    else buf ← st buf x p; url_encode_loop url buf (x + 1) len
  end.

(** The buffer and the length; [None] for a NULL argument. *)
Definition ks_url_encode (url buf : option (list Z)) (len : Z) : res (option (list Z * Z)) :=
  match buf, url with
  | Some buf, Some url =>
    v ← url_encode_loop url buf 0 (u64 (len - 1));
    let '(buf, x) := v in
    buf ← st buf x 0; Ok (Some (buf, x))
  | _, _ => Ok None
  end.

(** [sscanf(s, "%2x", &tmp)]: white space, then at most two characters. *)
Definition hex_val (c : Z) : option Z :=
  if (48 <=? c) && (c <=? 57) then Some (c - 48)
  else if (65 <=? c) && (c <=? 70) then Some (c - 55)
  else if (97 <=? c) && (c <=? 102) then Some (c - 87) else None.

Fixpoint skip_white (s : list Z) : list Z :=
  match s with
  | c :: s' => if (c =? 32) || ((9 <=? c) && (c <=? 13)) then skip_white s' else s
  | [] => []
  end.

(** [atoi]: blanks, a sign, digits; out of [int] the C standard leaves it open. *)
Fixpoint digits (s : list Z) (n : Z) : Z :=
  match s with c :: s => if (48 <=? c) && (c <=? 57) then digits s (n * 10 + (c - 48)) else n | [] => n end.
Definition atoi (s : list Z) : res Z :=
  let v := match skip_white s with
           | 43 :: s => digits s 0
           | 45 :: s => - digits s 0
           | s => digits s 0
           end in
  if (-2147483648 <=? v) && (v <=? INT_MAX) then Ok v else Err Overflow.

Definition scan_2x (s : list Z) : option Z :=
  match skip_white s with
  | a :: rest =>
    let b := nth 0 rest 0 in
    if a =? 43 then hex_val b
    else if a =? 45 then (v ← hex_val b; Some (u32 (- v)))
    else match hex_val a with
         | None => None
         | Some va =>
           if (a =? 48) && ((b =? 120) || (b =? 88)) then None else
           match hex_val b with Some vb => Some (va * 16 + vb) | None => Some va end
         end
  | [] => None
  end.

(** [s] reads, [o] writes, in the same buffer. *)
Fixpoint url_decode_loop (fuel : nat) (m : list Z) (s o : Z) : res (list Z) :=
  match fuel with
  | O => Err NoFuel
  | S fuel =>
    c ← ld m s;
    if c =? 0 then st m o 0 else
    n ← strlen (drop (Z.to_nat s) m);
    match (if (c =? 37) && (2 <? n) then scan_2x (drop (Z.to_nat (s + 1)) m) else None) with
    | Some tmp => m ← st m o (u8 tmp); url_decode_loop fuel m (s + 3) (o + 1)
    | None => m ← st m o c; url_decode_loop fuel m (s + 1) (o + 1)
    end
  end.

Definition ks_url_decode (m : list Z) : res (list Z) := url_decode_loop (S (length m)) m 0 0.

(** [rand() / (RAND_MAX + 1.0)] as a fraction [r / (RAND_MAX + 1)]. *)
Definition RAND_MAX : Z := 2147483647.

Fixpoint random_loop (rands set buf : list Z) (x : Z) : res (list Z) :=
  match rands with
  | [] => Ok buf
  | r :: rands =>
    max ← strlen set;
    c ← ld set (max * r / (RAND_MAX + 1)); buf ← st buf x c; random_loop rands set buf (x + 1)
  end.

Definition random_chars : list Z := bytes_of_string "abcdefghijklmnopqrstuvwxyzABCDEFGHIJKLMNOPQRSTUVWXYZ0123456789" ++ [0].

(** [rands]: the next [len] values of [rand]. *)
Definition ks_random_string (rands buf : list Z) (set : option (list Z)) : res (list Z) :=
  random_loop rands (default random_chars set) buf 0.

(** [while (size >= 1024 && i < 9)]: [size] is below 2^64. *)
Fixpoint human_loop (fuel : nat) (size i : Z) : Z * Z :=
  match fuel with
  | O => (size, i)
  | S fuel => if (1024 <=? size) && (i <? 9) then human_loop fuel (size / 1024) (i + 1) else (size, i)
  end.

(** [%zu] *)
Fixpoint decimal (fuel : nat) (n : Z) (acc : list Z) : list Z :=
  match fuel with
  | O => acc
  | S fuel => let acc := 48 + n mod 10 :: acc in if n <? 10 then acc else decimal fuel (n / 10) acc
  end.

Definition units : list (list Z) :=
  map bytes_of_string ["B"; "kB"; "MB"; "GB"; "TB"; "PB"; "EB"; "ZB"; "YB"]%string.

(** [snprintf(buffer, buffer_len, ...)] of a text. *)
Definition snprintf (buffer : list Z) (buffer_len : Z) (t : list Z) : res (list Z) :=
  if buffer_len =? 0 then Ok buffer else blit buffer 0 (take (Z.to_nat (buffer_len - 1)) t ++ [0]).

(** The number printed has no point: [max_precision] has no effect. *)
Definition ks_human_readable_size (size max_precision buffer_len : Z) (buffer : list Z) : res (list Z) :=
  let '(size, i) := human_loop 9 size 0 in
  u ← ld units i;
  snprintf buffer buffer_len (decimal 20 size [] ++ u).

(** ** URL encoding and decoding *)

Definition url_escape (c : Z) : list Z :=
  if must_escape c then [37; nth (Z.to_nat (c / 16)) url_hex 0; nth (Z.to_nat (c mod 16)) url_hex 0] else [c].
Definition url_ref (s : list Z) : list Z := concat (map url_escape s).

Definition is_ascii (c : Z) : Prop := 0 < c < 128.

(** What the two routines do with one character, for every ASCII character. *)
Definition escape_ok (c : Z) : bool :=
  match url_escape c with
  | [d] => (d =? c) && negb (must_escape (s8 c)) && negb (c =? 37)
  | [p; h; l] =>
    (p =? 37) && must_escape (s8 c) && negb (h =? 0) && negb (l =? 0) &&
    match ld url_hex (Z.shiftr (s8 c) 4), ld url_hex (Z.land (s8 c) 15) with
    | Ok h', Ok l' => (h' =? h) && (l' =? l)
    | _, _ => false
    end &&
    bool_decide (skip_white [h; l] = [h; l]) && bool_decide (scan_2x [h; l] = Some c)
  | _ => false
  end.

Lemma escape_ascii c : is_ascii c -> escape_ok c = true.
Proof.
  intros Hc. unfold is_ascii in Hc.
  assert (E : forallb (fun n => escape_ok (Z.of_nat (S n))) (seq 0 127) = true) by (vm_compute; reflexivity).
  rewrite forallb_forall in E. specialize (E (Z.to_nat (c - 1)) ltac:(apply in_seq; lia)).
  by replace (Z.of_nat (S (Z.to_nat (c - 1)))) with c in E by lia.
Qed.

Lemma escape_cases c : is_ascii c ->
  (url_escape c = [c] /\ must_escape (s8 c) = false /\ c <> 37) \/
  (exists h l, url_escape c = [37; h; l] /\ must_escape (s8 c) = true /\ h <> 0 /\ l <> 0 /\
    ld url_hex (Z.shiftr (s8 c) 4) = Ok h /\ ld url_hex (Z.land (s8 c) 15) = Ok l /\
    skip_white [h; l] = [h; l] /\ scan_2x [h; l] = Some c).
Proof.
  intros Hc. pose proof (escape_ascii c Hc) as E. unfold escape_ok in E.
  destruct (url_escape c) as [|a [|b [|d [|? ?]]]]; try done.
  - left. rewrite !andb_true_iff, !negb_true_iff, !Z.eqb_eq, Z.eqb_neq in E. destruct E as [[-> ?] ?]. done.
  - right. exists b, d. destruct (ld url_hex (Z.shiftr _ _)), (ld url_hex (Z.land _ _)); rewrite ?andb_false_r in E; try done.
    rewrite !andb_true_iff, !negb_true_iff, !bool_decide_eq_true, !Z.eqb_eq, !Z.eqb_neq in E.
    destruct E as [[[[[[-> ?] ?] ?] [-> ->]] ?] ?]. done.
Qed.

Lemma url_ref_cons c s : url_ref (c :: s) = url_escape c ++ url_ref s.
Proof. done. Qed.

Lemma escape_no_nul c : is_ascii c -> no_nul (url_escape c).
Proof.
  intros Hc. destruct (escape_cases c Hc) as [(-> & _)|(h & l & -> & _ & Hh & Hl & _)];
    repeat constructor; unfold is_ascii in Hc; lia.
Qed.

Lemma url_ref_no_nul s : Forall is_ascii s -> no_nul (url_ref s).
Proof.
  induction 1 as [|c s Hc _ IH]; [constructor|]. rewrite url_ref_cons. apply Forall_app. split; [by apply escape_no_nul|done].
Qed.

Lemma url_encode_run len t s : Forall is_ascii s -> forall out rest, zlen out + zlen (url_ref s) < len ->
  zlen (url_ref s) < zlen rest -> exists rest', url_encode_loop (s ++ 0 :: t) (out ++ rest) (zlen out) len =
    Ok ((out ++ url_ref s) ++ rest', zlen (out ++ url_ref s)) /\ zlen rest' = zlen rest - zlen (url_ref s).
Proof.
  induction 1 as [|c s Hc _ IH]; intros out rest Hl Hr; cbn [app url_encode_loop].
  { exists rest. rewrite !app_nil_r. split; [done|]. change (url_ref []) with (@nil Z). change (zlen (@nil Z)) with 0. lia. }
  rewrite url_ref_cons, !zlen_app in *. pose proof (zlen_nonneg (url_ref s)).
  unfold is_ascii in Hc. destruct (Z.eqb_spec c 0); [lia|].
  destruct (escape_cases c Hc) as [(Ec & -> & Hn)|(h & l & Ec & -> & _ & _ & Eh & El & _)]; rewrite Ec in *.
  - change (zlen [c]) with 1 in *. destruct (Z.leb_spec len (zlen out)); [lia|].
    destruct (st_push out rest c (zlen out) eq_refl) as (r1 & -> & H1); [lia|]. cbn [mbind res_bind].
    replace (zlen out + 1) with (zlen (out ++ [c])) by (by rewrite zlen_app).
    destruct (IH (out ++ [c]) r1) as (rest' & -> & Er); [rewrite zlen_app; change (zlen [c]) with 1; lia|lia|].
    exists rest'. rewrite <- !app_assoc, !zlen_app. split; [by rewrite !Z.add_assoc|lia].
  - change (zlen [37; h; l]) with 3 in *. destruct (Z.leb_spec len (zlen out)); [lia|]. destruct (Z.leb_spec len (zlen out + 3)); [lia|].
    destruct (st_push out rest 37 (zlen out) eq_refl) as (r1 & -> & Hr1); [lia|]. cbn [mbind res_bind]. rewrite Eh. cbn [mbind res_bind].
    destruct (st_push (out ++ [37]) r1 h (zlen out + 1)) as (r2 & -> & Hr2); [by rewrite zlen_app|lia|]. cbn [mbind res_bind]. rewrite El.
    cbn [mbind res_bind]. rewrite <- (app_assoc out). cbn [app].
    destruct (st_push (out ++ [37; h]) r2 l (zlen out + 2)) as (r3 & -> & Hr3); [by rewrite zlen_app|lia|]. cbn [mbind res_bind].
    rewrite <- (app_assoc out). cbn [app]. replace (zlen out + 3) with (zlen (out ++ [37; h; l])) by (by rewrite zlen_app).
    destruct (IH (out ++ [37; h; l]) r3) as (rest' & -> & Er); [rewrite zlen_app; change (zlen [37; h; l]) with 3; lia|lia|].
    exists rest'. rewrite <- !app_assoc, !zlen_app. split; [by rewrite !Z.add_assoc|lia].
Qed.

Lemma scan_two h l t : skip_white [h; l] = [h; l] -> scan_2x (h :: l :: t) = scan_2x [h; l].
Proof.
  intros Hw. assert (E : (h =? 32) || ((9 <=? h) && (h <=? 13)) = false).
  { cbn in Hw. destruct ((h =? 32) || ((9 <=? h) && (h <=? 13))); [|done].
    destruct ((l =? 32) || ((9 <=? l) && (l <=? 13))); discriminate. }
  unfold scan_2x. cbn [skip_white]. by rewrite E.
Qed.

Lemma url_decode_run t s : Forall is_ascii s -> forall fuel done gap, (length s < fuel)%nat ->
  exists t', url_decode_loop fuel (done ++ gap ++ url_ref s ++ 0 :: t) (zlen done + zlen gap) (zlen done) =
    Ok ((done ++ s) ++ 0 :: t').
Proof.
  induction 1 as [|c s Hc Hs IH]; intros [|fuel] done gap Hf; simpl in Hf; try lia; cbn [url_decode_loop].
  - change (url_ref []) with (@nil Z). cbn [app]. rewrite app_assoc, (ld_app_mid (done ++ gap) t 0) by by rewrite zlen_app.
    cbn [mbind res_bind Z.eqb]. rewrite <- app_assoc. rewrite app_nil_r.
    pose proof (st_lagging done gap [0] t 0 ltac:(discriminate)) as E. cbn [app] in E. rewrite E. rewrite <- app_assoc. by eexists.
  - rewrite url_ref_cons, <- app_assoc. pose proof (url_ref_no_nul s Hs) as Hn.
    assert (Edrop : drop (Z.to_nat (zlen done + zlen gap)) (done ++ gap ++ url_escape c ++ url_ref s ++ 0 :: t) =
      (url_escape c ++ url_ref s) ++ 0 :: t).
    { rewrite app_assoc, drop_app_length' by (rewrite length_app; unfold zlen; lia). by rewrite <- app_assoc. }
    assert (Estr : strlen ((url_escape c ++ url_ref s) ++ 0 :: t) = Ok (zlen (url_escape c ++ url_ref s))).
    { apply strlen_app, Forall_app. split; [by apply escape_no_nul|done]. }
    rewrite Edrop, Estr. unfold is_ascii in Hc.
    assert (Hld : forall a l, url_escape c = a :: l ->
      ld (done ++ gap ++ url_escape c ++ url_ref s ++ 0 :: t) (zlen done + zlen gap) = Ok a).
    { intros a l ->. rewrite app_assoc. cbn [app]. by rewrite (ld_app_mid (done ++ gap) (l ++ url_ref s ++ 0 :: t) a) by by rewrite zlen_app. }
    assert (Hgo : forall v k, zlen (url_escape c) = k -> url_escape c <> [] ->
      exists t', (m ← st (done ++ gap ++ url_escape c ++ url_ref s ++ 0 :: t) (zlen done) v;
        url_decode_loop fuel m (zlen done + zlen gap + k) (zlen done + 1)) = Ok ((done ++ v :: s) ++ 0 :: t')).
    { intros v k Hk Hne. rewrite st_lagging by done. cbn [mbind res_bind].
      destruct (IH fuel (done ++ [v]) (drop 1 (gap ++ url_escape c)) ltac:(lia)) as (t' & E). exists t'.
      rewrite <- (app_assoc done [v] s) in E. cbn [app] in E. rewrite <- E. f_equal; [|by rewrite zlen_app].
      assert (Hp : zlen (drop 1 (gap ++ url_escape c)) = zlen gap + k - 1).
      { pose proof (zlen_nonneg gap). assert (1 <= k) by (subst k; destruct (url_escape c); [done|rewrite zlen_cons; pose proof (zlen_nonneg l); lia]).
        unfold zlen in *. rewrite length_drop, length_app. lia. }
      rewrite Hp, zlen_app. change (zlen [v]) with 1. lia. }
    destruct (escape_cases c Hc) as [(Ec & _ & Hn37)|(h & l & Ec & _ & Hh & Hl & _ & _ & Hw & Hsc)].
    + rewrite (Hld c [] Ec). cbn [mbind res_bind]. destruct (Z.eqb_spec c 0); [lia|]. destruct (Z.eqb_spec c 37); [done|].
      cbn [andb]. apply Hgo; by rewrite Ec.
    + rewrite (Hld 37 [h; l] Ec). cbn [mbind res_bind Z.eqb Pos.eqb andb]. rewrite zlen_app, Ec. change (zlen [37; h; l]) with 3.
      pose proof (zlen_nonneg (url_ref s)). destruct (Z.ltb_spec 2 (3 + zlen (url_ref s))); [|lia].
      assert (Esc : drop (Z.to_nat (zlen done + zlen gap + 1)) (done ++ gap ++ [37; h; l] ++ url_ref s ++ 0 :: t) = h :: l :: url_ref s ++ 0 :: t).
      { rewrite app_assoc. cbn [app]. change (37 :: ?x) with ([37] ++ x). rewrite app_assoc.
        apply drop_app_length'. rewrite !length_app. unfold zlen. simpl. lia. }
      rewrite Esc, scan_two, Hsc by done. rewrite u8_id by lia. rewrite <- Ec. apply Hgo; by rewrite Ec.
Qed.

(** C22: URL encoding is undone by decoding: for every ASCII string and a buffer
    of at least two bytes more than the encoding, [ks_url_encode] writes the
    encoding and a NUL and returns its length, and [ks_url_decode] on that buffer
    restores the string in place. *)
Theorem url_encode_decode s buf : Forall is_ascii s -> zlen (url_ref s) + 2 <= zlen buf <= SIZE_MAX ->
  exists rest, ks_url_encode (Some (s ++ [0])) (Some buf) (zlen buf) = Ok (Some (url_ref s ++ 0 :: rest, zlen (url_ref s))) /\
    exists rest', ks_url_decode (url_ref s ++ 0 :: rest) = Ok (s ++ 0 :: rest').
Proof.
  intros Hs [Hl Hmax]. unfold SIZE_MAX in Hmax. pose proof (zlen_nonneg (url_ref s)). unfold ks_url_encode. rewrite u64_id by lia.
  destruct (url_encode_run (zlen buf - 1) [] s Hs [] buf) as (rest & E & Er); [change (zlen (@nil Z)) with 0; lia|lia|].
  cbn [app] in E. change (zlen (@nil Z)) with 0 in E. rewrite E. cbn [mbind res_bind].
  rewrite st_rest by (done || lia). cbn [mbind res_bind]. exists (drop 1 rest). split; [done|].
  destruct (url_decode_run (drop 1 rest) s Hs (S (length (url_ref s ++ 0 :: drop 1 rest))) [] []) as (rest' & E').
  - rewrite length_app. assert (length s <= length (url_ref s))%nat; [|lia].
    clear -Hs. induction Hs as [|c s Hc _ IH]; [done|]. rewrite url_ref_cons, length_app.
    destruct (escape_cases c Hc) as [(-> & _)|(h & l & -> & _)]; simpl; lia.
  - exists rest'. exact E'.
Qed.

Lemma url_encode_decode_witness :
  exists rest rest', ks_url_encode (Some (bytes_of_string "a b/c%?" ++ [0])) (Some (replicate 20 7)) 20 =
      Ok (Some (bytes_of_string "a%20b/c%25%3F" ++ 0 :: rest, 13)) /\
    ks_url_decode (bytes_of_string "a%20b/c%25%3F" ++ 0 :: rest) = Ok (bytes_of_string "a b/c%?" ++ 0 :: rest').
Proof.
  destruct (url_encode_decode (bytes_of_string "a b/c%?") (replicate 20 7)) as (rest & E & rest' & E').
  - repeat constructor; vm_compute; done.
  - vm_compute. split; discriminate.
  - exists rest, rest'. split; [exact E|exact E'].
Defined.

(** ** What the code does outside of it *)

(** [char] is signed: [hex\[*p >> 4\]] is in front of the table for a byte above 127. *)
Lemma url_encode_high : ks_url_encode (Some [195; 169; 0]) (Some (replicate 20 0)) 20 = Err OutOfBounds.
Proof. vm_compute. reflexivity. Qed.

(** [len = 0] wraps: everything is written. *)
Lemma url_encode_no_room : ks_url_encode (Some [97; 0]) (Some []) 0 = Err OutOfBounds.
Proof. vm_compute. reflexivity. Qed.

(** One hex digit is enough for [sscanf], and the character behind it is dropped. *)
Lemma url_decode_one_digit : ks_url_decode (bytes_of_string "%4zoo" ++ [0]) = Ok ([4; 111; 111; 0; 111; 0]).
Proof. vm_compute. reflexivity. Qed.

(** The precision asked for changes nothing: the size is divided in integers. *)
Lemma human_readable_precision size p1 p2 n buf : ks_human_readable_size size p1 n buf = ks_human_readable_size size p2 n buf.
Proof. reflexivity. Qed.

Example human_readable_test : ks_human_readable_size 1992294 2 10 (replicate 10 7) = Ok (bytes_of_string "1MB" ++ [0] ++ replicate 6 7).
Proof. vm_compute. reflexivity. Qed.

(** A string that fits is copied with its end. *)
Lemma copy_loop_run : forall s t acc rest e, no_nul s -> zlen acc + zlen s <= e -> zlen s < zlen rest ->
  copy_loop (acc ++ rest) (s ++ 0 :: t) (zlen acc) e = Ok (acc ++ s ++ 0 :: drop (S (length s)) rest, zlen acc + zlen s).
Proof.
  induction s as [|c s IH]; intros t acc rest e Hs He Hr; cbn [app copy_loop]; autorewrite with zlen in *.
  - rewrite !st_rest by (done || lia). cbn [mbind res_bind]. rewrite Z.add_0_r. by destruct (_ <? _).
  - pose proof (zlen_nonneg s). apply Forall_cons in Hs as [Hc Hs]. destruct (Z.ltb_spec (zlen acc) e); [|lia]. rewrite st_rest by (done || lia). cbn [mbind res_bind].
    destruct (Z.eqb_spec c 0); [done|]. destruct rest as [|x rest]; [autorewrite with zlen in Hr; lia|]. autorewrite with zlen in Hr.
    specialize (IH t (acc ++ [c]) rest e Hs). rewrite zlen_app, zlen_cons, zlen_nil, <- app_assoc in IH. cbn [app] in *. change (drop 1 (x :: rest)) with rest.
    change (0 + 1) with 1 in IH. rewrite IH by lia. rewrite <- app_assoc. cbn [app length drop]. do 2 f_equal. lia.
Qed.

Lemma copy_string_fits buf s t n : no_nul s -> zlen s < n -> n <= zlen buf ->
  ks_copy_string (Some buf) (Some (s ++ 0 :: t)) n = Ok (Some (s ++ 0 :: drop (S (length s)) buf, zlen s)).
Proof. intros Hs Hn Hb. unfold ks_copy_string. pose proof (copy_loop_run s t [] buf (n - 1) Hs) as H. cbn [app] in H. rewrite zlen_nil in H. rewrite H by lia. done. Qed.

(** A copy into no room writes its NUL all the same. *)
Lemma copy_string_no_room : ks_copy_string (Some []) (Some [97; 0]) 0 = Err OutOfBounds.
Proof. reflexivity. Qed.
End StrUtil.
