(* ===== verification/Tokens.v ===== *)
(** Splitting strings (src/src/ks_string.c): [ks_separate_string] and its
    helpers, which cut a string into fields and clean them inside its buffer. *)
From S2P Require Import Prelude.
Local Open Scope Z_scope.

Module Tokens.

Definition ESCAPE_META : Z := 92.
Definition quote : Z := 39.

Definition unescape_char (c : Z) : Z :=
  if c =? 110 then 10 else if c =? 114 then 13 else if c =? 116 then 9 else if c =? 115 then 32 else c.

(** [strchr(m + off, c) != NULL] *)
Fixpoint has_char (c : Z) (m : list Z) : res bool :=
  match m with
  | [] => Err OutOfBounds
  | x :: m => if x =? c then Ok true else if x =? 0 then Ok false else has_char c m
  end.

(** ** Cleaning a field *)

Fixpoint skip_initial (fuel : nat) (m : list Z) (ptr : Z) : res Z :=
  match fuel with
  | O => Err NoFuel
  | S fuel => c ← ld m ptr; if c =? 32 then skip_initial fuel m (ptr + 1) else Ok ptr
  end.

(** Whether the backslash at [ptr] escapes the next character, and as what. *)
Definition escapes (m : list Z) (ptr delim : Z) : res (option Z) :=
  n ← ld m (ptr + 1);
  if (n =? quote) || (n =? 34) || (negb (delim =? 0) && (n =? delim)) || (n =? ESCAPE_META) then Ok (Some n)
  else if negb (unescape_char n =? n) then Ok (Some (unescape_char n)) else Ok None.

(** The loop: the buffer and [end]. *)
Fixpoint cleanup_loop (fuel : nat) (m : list Z) (ptr dest : Z) (end' : option Z) (inside : bool) (delim : Z) :
    res (list Z * option Z) :=
  match fuel with
  | O => Err NoFuel
  | S fuel =>
    c ← ld m ptr;
    if c =? 0 then Ok (m, end') else
    e ← (if c =? ESCAPE_META then escapes m ptr delim else Ok None);
    match e with
    | Some e => m ← st m dest e; cleanup_loop fuel m (ptr + 2) (dest + 1) (Some (dest + 1)) inside delim
    | None =>
      q ← (if c =? quote then (if inside then Ok true else has_char quote (drop (Z.to_nat (ptr + 1)) m)) else Ok false);
      if q : bool then
        cleanup_loop fuel m (ptr + 1) dest (if inside then end' else Some dest) (negb inside) delim
      else
        m ← st m dest c;
        cleanup_loop fuel m (ptr + 1) (dest + 1) (if negb (c =? 32) || inside then Some (dest + 1) else end') inside delim
    end
  end.

(** The field at [str]: the buffer and its new start. *)
Definition cleanup_separated_string (m : list Z) (str delim : Z) : res (list Z * Z) :=
  start ← skip_initial (S (length m)) m str;
  v ← cleanup_loop (S (length m)) m start start None false delim;
  let '(m, end') := v in
  m ← (match end' with Some e => st m e 0 | None => Ok m end);
  Ok (m, start).

(** ** Finding the fields *)

Inductive char_state := CStart | CFindDelim.

Fixpoint char_delim_loop (fuel : nat) (m : list Z) (ptr : Z) (state : char_state) (inside : bool) (array : list Z)
    (delim arraylen : Z) : res (list Z * list Z) :=
  match fuel with
  | O => Err NoFuel
  | S fuel =>
    c ← ld m ptr;
    if (c =? 0) || negb (zlen array <? arraylen) then Ok (m, array) else
    match state with
    | CStart => char_delim_loop fuel m ptr CFindDelim inside (array ++ [ptr]) delim arraylen
    | CFindDelim =>
      if c =? ESCAPE_META then char_delim_loop fuel m (ptr + 2) CFindDelim inside array delim arraylen else
      q ← (if c =? quote then (if inside then Ok true else has_char quote (drop (Z.to_nat (ptr + 1)) m)) else Ok false);
      if q : bool then char_delim_loop fuel m (ptr + 1) CFindDelim (negb inside) array delim arraylen
      else if (c =? delim) && negb inside then
        m ← st m ptr 0; char_delim_loop fuel m (ptr + 1) CStart inside array delim arraylen
      else char_delim_loop fuel m (ptr + 1) CFindDelim inside array delim arraylen
    end
  end.

(** [for (i = 0; i < count; ++i)]: the array of cleaned fields. *)
Fixpoint cleanup_all (m : list Z) (array : list Z) (delim : Z) : res (list Z * list Z) :=
  match array with
  | [] => Ok (m, [])
  | a :: array =>
    v ← cleanup_separated_string m a delim;
    let '(m, a) := v in
    w ← cleanup_all m array delim;
    let '(m, array) := w in Ok (m, a :: array)
  end.

Definition separate_string_char_delim (buf : list Z) (start delim arraylen : Z) : res (list Z * list Z) :=
  v ← char_delim_loop (2 * S (length buf)) buf start CStart false [] delim arraylen;
  let '(m, array) := v in cleanup_all m array delim.

Inductive blank_state := BStart | BSkipInitialSpace | BFindDelim | BSkipEndingSpace.

Fixpoint blank_delim_loop (fuel : nat) (m : list Z) (ptr : Z) (state : blank_state) (inside : bool) (array : list Z)
    (arraylen : Z) : res (list Z * list Z) :=
  match fuel with
  | O => Err NoFuel
  | S fuel =>
    c ← ld m ptr;
    if (c =? 0) || negb (zlen array <? arraylen) then Ok (m, array) else
    match state with
    | BStart => blank_delim_loop fuel m ptr BSkipInitialSpace inside (array ++ [ptr]) arraylen
    | BSkipInitialSpace =>
      if c =? 32 then blank_delim_loop fuel m (ptr + 1) BSkipInitialSpace inside array arraylen
      else blank_delim_loop fuel m ptr BFindDelim inside array arraylen
    | BFindDelim =>
      if c =? ESCAPE_META then blank_delim_loop fuel m (ptr + 2) BFindDelim inside array arraylen
      else if c =? quote then blank_delim_loop fuel m (ptr + 1) BFindDelim (negb inside) array arraylen
      else if (c =? 32) && negb inside then
        m ← st m ptr 0; blank_delim_loop fuel m (ptr + 1) BSkipEndingSpace inside array arraylen
      else blank_delim_loop fuel m (ptr + 1) BFindDelim inside array arraylen
    | BSkipEndingSpace =>
      if c =? 32 then blank_delim_loop fuel m (ptr + 1) BSkipEndingSpace inside array arraylen
      else blank_delim_loop fuel m ptr BStart inside array arraylen
    end
  end.

Definition separate_string_blank_delim (buf : list Z) (start arraylen : Z) : res (list Z * list Z) :=
  v ← blank_delim_loop (3 * S (length buf)) buf start BStart false [] arraylen;
  let '(m, array) := v in cleanup_all m array 0.

(** The buffer and the offsets in [array]; the count is the array's length. *)
Definition ks_separate_string (buf : option (list Z)) (delim arraylen : Z) : res (list Z * list Z) :=
  match buf with
  | None => Ok ([], [])
  | Some buf =>
    if arraylen =? 0 then Ok (buf, []) else
    a ← ld buf 0;
    caret ← (if a =? 94 then b ← ld buf 1; Ok (b =? 94) else Ok false);
    v ← (if caret : bool then
           c ← ld buf 2;
           if c =? 0 then Ok (0, delim) else
           d ← ld buf 3;
           if d =? 0 then Ok (0, delim) else Ok (3, c)
         else Ok (0, delim));
    let '(start, delim) := v in
    if delim =? 32 then separate_string_blank_delim buf start arraylen
    else separate_string_char_delim buf start delim arraylen
  end.

(** [ks_separate_string_string]: [delim] is a string. *)
Fixpoint find_sub (fuel : nat) (m delim : list Z) (p : Z) : res (option Z) :=
  match fuel with
  | O => Err NoFuel
  | S fuel =>
    s ← strlen (drop (Z.to_nat p) m);
    if s <? zlen delim then Ok None else
    if bool_decide (take (length delim) (drop (Z.to_nat p) m) = delim) then Ok (Some p)
    else find_sub fuel m delim (p + 1)
  end.

Fixpoint string_delim_loop (fuel : nat) (m delim : list Z) (last : Z) (array : list Z) : res (list Z * list Z) :=
  match fuel with
  | O => Ok (m, array)
  | S fuel =>
    d ← find_sub (S (length m)) m delim last;
    match d with
    | Some d => m ← st m d 0; string_delim_loop fuel m delim (d + zlen delim) (array ++ [d + zlen delim])
    | None => Ok (m, array)
    end
  end.

Definition ks_separate_string_string (buf delim : list Z) (arraylen : nat) : res (list Z * list Z) :=
  match arraylen with O => Err OutOfBounds | S n => string_delim_loop n buf delim 0 [0] end.

(** ** The fields as strings *)

(** A field cleaned: the characters left, and how many of them count. *)
Definition char_escapes (delim n : Z) : option Z :=
  if (n =? quote) || (n =? 34) || (negb (delim =? 0) && (n =? delim)) || (n =? ESCAPE_META) then Some n
  else if negb (unescape_char n =? n) then Some (unescape_char n) else None.

Fixpoint clean_chars (delim : Z) (s : list Z) (inside : bool) (out : list Z) (keep : nat) : list Z :=
  match s with
  | [] => take keep out
  | c :: s' =>
    match (if c =? ESCAPE_META then match s' with n :: s'' => option_map (fun e => (e, s'')) (char_escapes delim n) | [] => None end
           else None) with
    | Some (e, _) =>
      match s' with
      | n :: s'' => clean_chars delim s'' inside (out ++ [e]) (S (length out))
      | [] => take keep out
      end
    | None =>
      if (c =? quote) && (inside || existsb (Z.eqb quote) s')
      then clean_chars delim s' (negb inside) out (if inside then keep else length out)
      else clean_chars delim s' inside (out ++ [c]) (if negb (c =? 32) || inside then S (length out) else keep)
    end
  end.

Fixpoint skip_blanks (s : list Z) : list Z :=
  match s with 32 :: s => skip_blanks s | _ => s end.

Definition clean (delim : Z) (s : list Z) : list Z := clean_chars delim (skip_blanks s) false [] 0.

(** The raw fields, with [n] places left behind the current one, whose characters
    so far are [cur]; [None]: a backslash at the end, which runs off the string. *)
Fixpoint fields (delim : Z) (n : nat) (s : list Z) (inside : bool) (cur : list Z) : option (list (list Z)) :=
  match s with
  | [] => Some [cur]
  | c :: s' =>
    if (n =? 0)%nat then Some [cur ++ s] else
    if c =? ESCAPE_META then
      match s' with [] => None | d :: s'' => fields delim n s'' inside (cur ++ [c; d]) end
    else if (c =? quote) && (inside || existsb (Z.eqb quote) s') then fields delim n s' (negb inside) (cur ++ [c])
    else if (c =? delim) && negb inside then
      match s' with [] => Some [cur] | _ => option_map (cons cur) (fields delim (pred n) s' inside []) end
    else fields delim n s' inside (cur ++ [c])
  end.

Definition split (delim : Z) (n : nat) (s : list Z) : option (list (list Z)) :=
  match s with [] => Some [] | _ => fields delim (pred n) s false [] end.

(** ** Cleaning in place *)

Lemma has_char_spec c s t : c <> 0 -> no_nul s -> has_char c (s ++ 0 :: t) = Ok (existsb (Z.eqb c) s).
Proof.
  intros Hc. induction 1 as [|x s Hx _ IH]; cbn [app has_char existsb].
  - by destruct (Z.eqb_spec 0 c).
  - rewrite (Z.eqb_sym c x). destruct (Z.eqb_spec x c); [done|]. by destruct (Z.eqb_spec x 0).
Qed.

Lemma quote_test (s : list Z) inside m p t c : no_nul s -> drop p m = s ++ 0 :: t ->
  (if c =? quote then (if inside : bool then Ok true else has_char quote (drop p m)) else Ok false) =
  Ok ((c =? quote) && (inside || existsb (Z.eqb quote) s)).
Proof.
  intros Hs ->. destruct (c =? quote); [|done]. destruct inside; [done|]. by apply has_char_spec.
Qed.

(** What is behind [ck] in a buffer. *)
Lemma drop_behind (a b ck rest : list Z) i : i = zlen a + zlen b + zlen ck -> drop (Z.to_nat i) (a ++ b ++ ck ++ rest) = rest.
Proof. intros ->. rewrite !app_assoc. apply drop_app_length'. rewrite !length_app. unfold zlen. lia. Qed.

Lemma ld_past (a b rest : list Z) v i : i = zlen a + zlen b -> ld (a ++ b ++ v :: rest) i = Ok v.
Proof. intros ->. rewrite app_assoc. apply ld_app_mid. by rewrite zlen_app. Qed.

Section Clean.
Context (delim : Z) (pre post : list Z).

(** How [end] in the code stands for [keep]. *)
Definition end_is (end' : option Z) (keep : nat) : Prop := end' = Some (zlen pre + Z.of_nat keep) \/ end' = None /\ keep = 0%nat.

Definition cleaned (s : list Z) (inside : bool) (out gap : list Z) (end' : option Z) (keep : nat)
    (r : res (list Z * option Z)) : Prop :=
  exists out' gap' end'' keep', r = Ok (pre ++ out' ++ gap' ++ 0 :: post, end'') /\
    (length out' + length gap' = length out + length gap + length s)%nat /\ end_is end'' keep' /\
    take keep' out' = clean_chars delim s inside out keep /\ (keep' <= length out')%nat /\
    (end'' = None -> end' = None /\ out' = out ++ s /\ Forall (fun c => c = 32) s).

Lemma cleanup_loop_run : forall fuel s out gap end' inside keep, (length s < fuel)%nat -> no_nul s -> end_is end' keep ->
  (keep <= length out)%nat -> (inside = true -> end' <> None) ->
  cleaned s inside out gap end' keep
    (cleanup_loop fuel (pre ++ out ++ gap ++ s ++ 0 :: post) (zlen (pre ++ out) + zlen gap) (zlen (pre ++ out)) end' inside delim).
Proof.
  induction fuel as [|fuel IH]; intros s out gap end' inside keep Hf Hs He Hk Hin; [lia|]. cbn [cleanup_loop].
  rewrite (app_assoc pre out) in *.
  destruct s as [|c s].
  { cbn [app]. rewrite ld_past by done. cbn [mbind res_bind Z.eqb]. exists out, gap, end', keep. rewrite app_nil_r, <- !app_assoc.
    split; [done|]. split; [simpl; lia|]. done. }
  apply Forall_cons in Hs as [Hc Hs]. rewrite <- (app_comm_cons s). rewrite ld_past by done. cbn [mbind res_bind].
  destruct (Z.eqb_spec c 0) as [|_]; [done|].
  assert (Hesc : (if c =? ESCAPE_META then escapes ((pre ++ out) ++ gap ++ c :: s ++ 0 :: post) (zlen (pre ++ out) + zlen gap) delim else Ok None) =
    Ok (if c =? ESCAPE_META then match s with n :: _ => char_escapes delim n | [] => None end else None)).
  { destruct (c =? ESCAPE_META); [|done]. unfold escapes. change (c :: s ++ 0 :: post) with ([c] ++ s ++ 0 :: post). rewrite (app_assoc gap).
    destruct s as [|n s]; cbn [app]; rewrite ld_past by (rewrite !zlen_app; change (zlen [c]) with 1; lia); cbn [mbind res_bind].
    - by destruct delim.
    - unfold char_escapes. destruct (_ || _); [done|]. by destruct (negb _). }
  rewrite Hesc. clear Hesc. cbn [mbind res_bind].
  assert (Hput : forall v ck rest end2 inside2 keep2 i j, c :: s = ck ++ rest -> ck <> [] -> (length rest < fuel)%nat ->
    i = zlen (pre ++ out) + zlen gap + zlen ck -> j = zlen (pre ++ out) + 1 ->
    end_is end2 keep2 -> (keep2 <= S (length out))%nat ->
    (end2 = None -> end' = None /\ ck = [v] /\ v = 32) -> (inside2 = true -> end2 <> None) ->
    clean_chars delim (c :: s) inside out keep = clean_chars delim rest inside2 (out ++ [v]) keep2 ->
    cleaned (c :: s) inside out gap end' keep
      (m ← st ((pre ++ out) ++ gap ++ (c :: s) ++ 0 :: post) (zlen (pre ++ out)) v;
       cleanup_loop fuel m i j end2 inside2 delim)).
  { intros v ck rest end2 inside2 keep2 i j E Hck Hfr -> -> He2 Hk2 Hnone Hin2 Heq. rewrite E, <- (app_assoc ck), st_lagging by done. cbn [mbind res_bind].
    set (gap2 := drop 1 (gap ++ ck)).
    assert (Hg2 : length gap2 = pred (length gap + length ck)) by (unfold gap2; rewrite length_drop, length_app; lia).
    assert (1 <= length ck)%nat by (destruct ck; [done|simpl; lia]).
    destruct (IH rest (out ++ [v]) gap2 end2 inside2 keep2) as (out' & gap' & end'' & keep' & Er & Hl & He' & Ht & Hk' & Hn');
      [done|pose proof (Forall_cons_2 (fun c => c <> 0) _ _ Hc Hs) as Hcs; rewrite E in Hcs; apply Forall_app in Hcs as [_ ?]; done|done|rewrite length_app; simpl; lia|done|].
    exists out', gap', end'', keep'. split.
    - rewrite <- Er. rewrite (app_assoc pre), (app_assoc pre out). f_equal; rewrite !zlen_app; change (zlen [v]) with 1; unfold zlen in *; lia.
    - assert (Hls : length (c :: s) = (length ck + length rest)%nat) by (by rewrite E, length_app). rewrite length_app in Hl. simpl length in *.
      split; [rewrite length_app; lia|]. split; [done|]. split; [by rewrite Ht, <- E, Heq|]. split; [done|].
      intros Hx. destruct (Hn' Hx) as (Hx2 & Ho & Hsp). destruct (Hnone Hx2) as (? & -> & ->). split; [done|].
      split; [by rewrite Ho, <- app_assoc|by constructor]. }
  destruct (if c =? ESCAPE_META then match s with n :: _ => char_escapes delim n | [] => None end else None) as [e|] eqn:Ee.
  - destruct (Z.eqb_spec c ESCAPE_META) as [->|]; [|done]. destruct s as [|n s]; [done|].
    apply (Hput e [ESCAPE_META; n] s (Some (zlen (pre ++ out) + 1)) inside (S (length out))); try done; try (simpl in *; lia).
    + left. rewrite zlen_app. unfold zlen. f_equal. lia.
    + cbn [clean_chars Z.eqb Pos.eqb]. by rewrite Ee.
  - assert (Ecl : clean_chars delim (c :: s) inside out keep =
      if (c =? quote) && (inside || existsb (Z.eqb quote) s)
      then clean_chars delim s (negb inside) out (if inside then keep else length out)
      else clean_chars delim s inside (out ++ [c]) (if negb (c =? 32) || inside then S (length out) else keep)).
    { cbn [clean_chars]. destruct (c =? ESCAPE_META); [|done]. destruct s as [|n s]; [done|]. by rewrite Ee. }
    rewrite (quote_test s inside _ _ post c Hs).
    2: { change (c :: s ++ 0 :: post) with ([c] ++ s ++ 0 :: post). apply drop_behind. reflexivity. }
    cbn [mbind res_bind]. destruct ((c =? quote) && (inside || existsb (Z.eqb quote) s)).
    + set (keep2 := if inside then keep else length out). set (end2 := if inside then end' else Some (zlen (pre ++ out))).
      assert (He2 : end_is end2 keep2) by (unfold end2, keep2; destruct inside; [done|]; left; by rewrite zlen_app).
      destruct (IH s out (gap ++ [c]) end2 (negb inside) keep2 ltac:(simpl in *; lia) Hs He2 ltac:(unfold keep2; destruct inside; lia) ltac:(unfold end2; destruct inside; done))
        as (out' & gap' & end'' & keep' & Er & Hl & He' & Ht & Hk' & Hn').
      exists out', gap', end'', keep'. rewrite Ecl. split.
      * rewrite <- Er. rewrite (app_assoc pre), <- (app_assoc gap). rewrite (zlen_app gap [c]). change (zlen [c]) with 1.
        by rewrite Z.add_assoc.
      * rewrite length_app in Hl. simpl in *. split; [lia|]. do 3 (split; [done|]). intros Hx. destruct (Hn' Hx) as (Hx2 & Ho & Hsp).
        unfold end2 in Hx2. destruct inside; [by destruct (Hin eq_refl)|done].
    + apply (Hput c [c] s _ inside (if negb (c =? 32) || inside then S (length out) else keep)); try done; try (simpl in *; lia).
      * destruct (negb (c =? 32) || inside); [|done]. left. rewrite zlen_app. unfold zlen. f_equal. lia.
      * destruct (negb (c =? 32) || inside); lia.
      * destruct (negb (c =? 32) || inside) eqn:Eb; [done|]. intros ->. apply orb_false_iff in Eb as [Eb _].
        apply negb_false_iff, Z.eqb_eq in Eb. by subst.
      * intros ->. by rewrite orb_true_r.
Qed.
End Clean.

Lemma skip_blanks_split s : exists k, s = replicate k 32 ++ skip_blanks s /\ forall w, skip_blanks s <> 32 :: w.
Proof.
  induction s as [|c s (k & E & Hh)]; [by exists 0%nat|]. destruct (decide (c = 32)) as [->|Hc].
  - exists (S k). cbn. rewrite E at 1. done.
  - assert (E2 : skip_blanks (c :: s) = c :: s) by (destruct c as [|p|]; try done; do 6 (destruct p as [p|p|]; try done)).
    exists 0%nat. rewrite E2. split; [done|]. congruence.
Qed.

Lemma skip_initial_run s t k : (forall w, s <> 32 :: w) -> forall fuel pre, (k < fuel)%nat ->
  skip_initial fuel (pre ++ replicate k 32 ++ s ++ 0 :: t) (zlen pre) = Ok (zlen pre + Z.of_nat k).
Proof.
  intros Hs. induction k as [|k IH]; intros [|fuel] pre Hf; try lia; cbn [skip_initial replicate app].
  - assert (E : exists c l, s ++ 0 :: t = c :: l /\ c <> 32).
    { destruct s as [|c s]; [by exists 0, t|]. exists c, (s ++ 0 :: t). split; [done|]. intros ->. by destruct (Hs s). }
    destruct E as (c & l & -> & Hc). rewrite ld_app_mid by done. cbn [mbind res_bind]. destruct (Z.eqb_spec c 32); [done|].
    by rewrite Z.add_0_r.
  - rewrite ld_app_mid by done. cbn [mbind res_bind Z.eqb Pos.eqb].
    pose proof (IH fuel (pre ++ [32]) ltac:(lia)) as E. rewrite zlen_app, <- app_assoc in E. change (zlen [32]) with 1 in E.
    cbn [app] in E. rewrite E. f_equal. lia.
Qed.

(** One field cleaned in its place. *)
Lemma cleanup_run delim pre f post : no_nul f -> exists sp junk,
  cleanup_separated_string (pre ++ f ++ 0 :: post) (zlen pre) delim =
    Ok (pre ++ (sp ++ clean delim f ++ 0 :: junk) ++ post, zlen pre + zlen sp) /\
  length (sp ++ clean delim f ++ 0 :: junk) = S (length f).
Proof.
  intros Hf. destruct (skip_blanks_split f) as (k & E & Hh). unfold cleanup_separated_string, clean.
  set (g := skip_blanks f) in *. set (sp := replicate k 32). fold sp in E. rewrite E, <- app_assoc.
  assert (Hsp : zlen sp = Z.of_nat k) by apply zlen_replicate.
  rewrite (skip_initial_run g post k Hh : forall fuel pre, (k < fuel)%nat ->
    skip_initial fuel (pre ++ sp ++ g ++ 0 :: post) (zlen pre) = Ok (zlen pre + Z.of_nat k)).
  2: { rewrite !length_app. unfold zlen in Hsp. lia. }
  cbn [mbind res_bind].
  assert (Hg : no_nul g) by (rewrite E in Hf; by apply Forall_app in Hf as [_ ?]).
  destruct (cleanup_loop_run delim (pre ++ sp) post (S (length (pre ++ sp ++ g ++ 0 :: post))) g [] [] None false 0)
    as (out & gap & end' & keep & Er & Hl & He & Ht & Hk & Hn); [rewrite !length_app; lia|done|by right|simpl; lia|done|].
  cbn [app] in Er. rewrite app_nil_r, <- (app_assoc pre sp) in Er. change (zlen (@nil Z)) with 0 in Er.
  rewrite Z.add_0_r, zlen_app, Hsp in Er. rewrite Er. cbn [mbind res_bind]. simpl in Hl.
  destruct He as [->|[-> ->]].
  - cbn [mbind res_bind]. rewrite <- Ht in *. set (rest := drop keep out ++ gap ++ [0]).
    assert (Em : (pre ++ sp) ++ out ++ gap ++ 0 :: post = ((pre ++ sp) ++ take keep out) ++ rest ++ post).
    { unfold rest. rewrite <- !app_assoc. cbn [app]. do 2 f_equal. rewrite (app_assoc (take keep out)), take_drop. done. }
    assert (Hr : exists a l, rest = a :: l /\ length l = (length out - keep + length gap)%nat).
    { unfold rest. destruct (drop keep out ++ gap) as [|a l] eqn:Ed.
      - apply app_nil in Ed as [Ed ->]. rewrite Ed. exists 0, []. split; [done|]. apply (f_equal length) in Ed. rewrite length_drop in Ed. simpl in *. lia.
      - exists a, (l ++ [0]). rewrite app_assoc, Ed. split; [done|]. apply (f_equal length) in Ed. rewrite length_app, length_drop in Ed.
        rewrite length_app. simpl in *. lia. }
    destruct Hr as (a & l & Erest & Hlen). rewrite Em, Erest. cbn [app]. rewrite st_app_mid.
    2: { unfold zlen in *. rewrite !length_app, length_take. lia. }
    cbn [mbind res_bind]. exists sp, l. rewrite <- !app_assoc, Hsp. split; [done|].
    rewrite !length_app, length_take. unfold sp. rewrite length_replicate. simpl. lia.
  - destruct (Hn eq_refl) as (_ & -> & Hall). assert (g = []) as ->.
    { destruct g as [|c g]; [done|]. apply Forall_cons in Hall as [-> _]. by destruct (Hh g). }
    cbn [mbind res_bind app]. destruct gap; [|simpl in Hl; lia]. exists sp, []. cbn [app clean_chars take]. rewrite Hsp, <- !app_assoc.
    split; [done|]. rewrite !length_app. simpl. lia.
Qed.

(** ** Finding the fields *)

(** The fields in a row, each with its NUL, and where they begin. *)
Definition rows (fs : list (list Z)) : list Z := concat (map (fun f => f ++ [0]) fs).
Fixpoint offsets (off : Z) (fs : list (list Z)) : list Z :=
  match fs with [] => [] | f :: fs => off :: offsets (off + zlen f + 1) fs end.

Section Split.
Context (delim : Z) (Hdelim : delim <> 0) (t : list Z).

Definition split_goal (o : option (list (list Z))) (pre arr : list Z) (len : nat) (r : res (list Z * list Z)) : Prop :=
  match o with
  | Some fs => exists t', r = Ok (pre ++ rows fs ++ t', arr ++ offsets (zlen pre) fs) /\ length (rows fs ++ t') = len
  | None => t = [] -> r = Err OutOfBounds
  end.

Lemma char_delim_run arraylen : forall fuel s pre cur arr inside n, (2 * length s < fuel)%nat -> no_nul s ->
  arraylen - zlen arr - 1 = Z.of_nat n ->
  split_goal (fields delim n s inside cur) pre arr (length (cur ++ s ++ 0 :: t))
    (char_delim_loop fuel (pre ++ cur ++ s ++ 0 :: t) (zlen pre + zlen cur) CFindDelim inside (arr ++ [zlen pre]) delim arraylen).
Proof.
  intros fuel. induction fuel as [[|fuel] IH] using (well_founded_induction lt_wf); intros s pre cur arr inside n Hf Hs Hn; [lia|].
  cbn [char_delim_loop].
  destruct s as [|c s].
  { cbn [app]. rewrite ld_past by done. cbn [mbind res_bind Z.eqb orb fields]. exists t. unfold rows. cbn.
    rewrite app_nil_r, <- !app_assoc. done. }
  apply Forall_cons in Hs as [Hc Hs]. cbn [app]. rewrite ld_past by done. cbn [mbind res_bind fields].
  destruct (Z.eqb_spec c 0) as [|_]; [done|]. cbn [orb]. rewrite zlen_app. change (zlen [zlen pre]) with 1.
  destruct n as [|n]; cbn [Nat.eqb].
  { destruct (Z.ltb_spec (zlen arr + 1) arraylen); [lia|]. cbn [negb]. exists t. unfold rows. cbn.
    rewrite app_nil_r, <- !app_assoc. done. }
  destruct (Z.ltb_spec (zlen arr + 1) arraylen); [|lia]. cbn [negb].
  assert (Hgo : forall ck rest inside2 i, c :: s = ck ++ rest -> ck <> [] -> i = zlen pre + zlen cur + zlen ck ->
    split_goal (fields delim (S n) rest inside2 (cur ++ ck)) pre arr (length (cur ++ c :: s ++ 0 :: t))
      (char_delim_loop fuel (pre ++ cur ++ c :: s ++ 0 :: t) i CFindDelim inside2 (arr ++ [zlen pre]) delim arraylen)).
  { intros ck rest inside2 i E Hck ->. change (c :: s ++ 0 :: t) with ((c :: s) ++ 0 :: t). rewrite E, <- (app_assoc ck), (app_assoc cur ck).
    rewrite <- Z.add_assoc, <- zlen_app. pose proof (f_equal length E) as El. rewrite length_app in El. simpl in El, Hf.
    assert (1 <= length ck)%nat by (destruct ck; [done|simpl; lia]). apply (IH fuel); [lia|lia| |done].
    pose proof (Forall_cons_2 (fun c => c <> 0) _ _ Hc Hs) as Hcs. rewrite E in Hcs. by apply Forall_app in Hcs as [_ ?]. }
  destruct (Z.eqb_spec c ESCAPE_META) as [->|_].
  - destruct s as [|d s]; [|by apply (Hgo [ESCAPE_META; d] s)]. intros ->. destruct fuel as [|fuel]; [simpl in Hf; lia|].
    cbn [char_delim_loop app]. rewrite ld_out; [done|]. right. rewrite !zlen_app. change (zlen [ESCAPE_META; 0]) with 2. lia.
  - rewrite (quote_test s inside _ _ t c Hs).
    2: { change (c :: s ++ 0 :: t) with ([c] ++ s ++ 0 :: t). apply drop_behind. reflexivity. }
    cbn [mbind res_bind]. destruct ((c =? quote) && (inside || existsb (Z.eqb quote) s)); [by apply (Hgo [c] s)|].
    destruct (Z.eqb_spec c delim) as [->|_]; [|by apply (Hgo [c] s)]. cbn [andb].
    destruct inside; cbn [negb]; [by apply (Hgo [delim] s)|].
    rewrite app_assoc, (st_app_mid (pre ++ cur) (s ++ 0 :: t) delim 0) by by rewrite zlen_app. cbn [mbind res_bind].
    destruct fuel as [|fuel]; [simpl in Hf; lia|]. cbn [char_delim_loop].
    replace ((pre ++ cur) ++ 0 :: s ++ 0 :: t) with ((pre ++ cur ++ [0]) ++ [] ++ s ++ 0 :: t) by (by rewrite <- !app_assoc).
    assert (Ez : zlen pre + zlen cur + 1 = zlen (pre ++ cur ++ [0])) by (rewrite !zlen_app; change (zlen [0]) with 1; lia).
    rewrite Ez. destruct s as [|d s].
    { cbn [app]. rewrite ld_app_mid by done. cbn [mbind res_bind Z.eqb orb]. exists (0 :: t). unfold rows. cbn.
      rewrite app_nil_r, <- !app_assoc. split; [done|]. rewrite !length_app. simpl. lia. }
    cbn [app]. rewrite ld_app_mid by done. cbn [mbind res_bind]. pose proof (Forall_inv Hs) as Hd. cbn beta in Hd.
    destruct (Z.eqb_spec d 0) as [|_]; [done|]. cbn [orb]. rewrite zlen_app. change (zlen [zlen pre]) with 1.
    destruct (Z.ltb_spec (zlen arr + 1) arraylen); [|lia]. cbn [negb pred].
    destruct (fields delim n (d :: s) false []) as [fs|] eqn:Ef; unfold split_goal; cbn [option_map].
    + pose proof (IH fuel ltac:(lia) (d :: s) (pre ++ cur ++ [0]) [] (arr ++ [zlen pre]) false n) as E. rewrite Ef in E. cbn [app split_goal] in E.
      change (zlen (@nil Z)) with 0 in E. rewrite Z.add_0_r in E. destruct E as (t' & E & El); [simpl in *; lia|done|rewrite zlen_app; change (zlen [zlen pre]) with 1; lia|].
      exists t'. rewrite E. unfold rows. cbn. rewrite <- !app_assoc. cbn [app]. split; [by rewrite <- Ez|].
      unfold rows in El; simpl in *; rewrite !length_app in *; simpl in *; rewrite ?length_app in *; simpl in *; lia.
    + intros Ht. pose proof (IH fuel ltac:(lia) (d :: s) (pre ++ cur ++ [0]) [] (arr ++ [zlen pre]) false n) as E. rewrite Ef in E. cbn [app split_goal] in E.
      change (zlen (@nil Z)) with 0 in E. rewrite Z.add_0_r in E. apply E; [simpl in *; lia|done| |done]. rewrite zlen_app. change (zlen [zlen pre]) with 1. lia.
Qed.
End Split.

Lemma fields_no_nul delim : forall s n inside cur fs, no_nul s -> no_nul cur -> fields delim n s inside cur = Some fs -> Forall no_nul fs.
Proof.
  intros s. remember (length s) as k eqn:Ek. revert s Ek. induction k as [k IH] using (well_founded_induction lt_wf).
  intros [|c s] -> n inside cur fs Hs Hcur E; cbn [fields] in E; [injection E as <-; by repeat constructor|].
  apply Forall_cons in Hs as [Hc Hs]. destruct (n =? 0)%nat.
  { injection E as <-. constructor; [|constructor]. apply Forall_app. split; [done|by constructor]. }
  assert (Hgo : forall rest n inside ck fs, (length rest < length (c :: s))%nat -> no_nul rest -> no_nul ck ->
    fields delim n rest inside (cur ++ ck) = Some fs -> Forall no_nul fs).
  { intros rest n0 inside0 ck fs0 Hl Hr Hck E0. refine (IH _ Hl rest eq_refl _ _ _ _ Hr _ E0). by apply Forall_app. }
  destruct (c =? ESCAPE_META).
  { destruct s as [|d s]; [done|]. apply Forall_cons in Hs as [Hd Hs]. refine (Hgo s n inside [c; d] fs _ Hs _ E); [simpl; lia|by repeat constructor]. }
  destruct (_ && _); [refine (Hgo s n _ [c] fs _ Hs _ E); [simpl; lia|by repeat constructor]|].
  destruct (_ && _); [|refine (Hgo s n _ [c] fs _ Hs _ E); [simpl; lia|by repeat constructor]].
  destruct s as [|d s]; [injection E as <-; by repeat constructor|].
  destruct (fields delim (Nat.pred n) (d :: s) inside []) as [fs'|] eqn:Ef; [|done]. injection E as <-. constructor; [done|].
  refine (IH (length (d :: s)) _ (d :: s) eq_refl _ _ _ _ Hs _ Ef); [simpl; lia|constructor].
Qed.

Lemma fields_length delim : forall k s n inside cur fs, (length s < k)%nat -> fields delim n s inside cur = Some fs -> (length fs <= S n)%nat.
Proof.
  induction k as [|k IH]; intros s n inside cur fs Hk E; [lia|]. destruct s as [|c s]; cbn [fields] in E; [injection E as <-; simpl; lia|].
  simpl in Hk. destruct (Nat.eqb_spec n 0); [injection E as <-; simpl; lia|].
  destruct (c =? ESCAPE_META); [destruct s as [|d s]; [done|]; eapply IH; [|exact E]; simpl in Hk; lia|].
  destruct (_ && _); [eapply IH; [|exact E]; lia|]. destruct (_ && _); [|eapply IH; [|exact E]; lia].
  destruct s as [|d s]; [injection E as <-; simpl; lia|].
  destruct (fields delim (Nat.pred n) (d :: s) inside []) as [fs'|] eqn:Ef; [|done]. injection E as <-.
  apply IH in Ef; [simpl; lia|lia].
Qed.

(** The buffer after cleaning: field by field, each as long as it was. *)
Inductive laid (delim : Z) : Z -> list Z -> list (list Z) -> list Z -> Prop :=
  | laid_nil off m : laid delim off [] [] m
  | laid_cons off sp f junk arr fs m : length (sp ++ clean delim f ++ 0 :: junk) = S (length f) ->
      laid delim (off + zlen f + 1) arr fs m ->
      laid delim off (off + zlen sp :: arr) (f :: fs) ((sp ++ clean delim f ++ 0 :: junk) ++ m).

Lemma cleanup_all_run delim t fs : Forall no_nul fs -> forall pre,
  exists m arr, cleanup_all (pre ++ rows fs ++ t) (offsets (zlen pre) fs) delim = Ok (pre ++ m, arr) /\ laid delim (zlen pre) arr fs m /\
    length m = length (rows fs ++ t).
Proof.
  induction 1 as [|f fs Hf _ IH]; intros pre; cbn [offsets cleanup_all].
  { exists t, []. split; [done|]. split; [constructor|done]. }
  assert (Er : pre ++ rows (f :: fs) ++ t = pre ++ f ++ 0 :: rows fs ++ t) by (unfold rows; cbn; by rewrite <- !app_assoc).
  destruct (cleanup_run delim pre f (rows fs ++ t) Hf) as (sp & junk & E & El). rewrite Er, E. cbn [mbind res_bind].
  destruct (IH (pre ++ sp ++ clean delim f ++ 0 :: junk)) as (m & arr & Em & Hm & Hlm).
  assert (Ez : zlen (pre ++ sp ++ clean delim f ++ 0 :: junk) = zlen pre + zlen f + 1) by (rewrite zlen_app; unfold zlen in *; lia).
  rewrite Ez, <- !app_assoc in Em. rewrite Ez in Hm. rewrite <- !app_assoc, Em. cbn [mbind res_bind].
  eexists _, _. split; [reflexivity|]. rewrite !app_assoc, <- (app_assoc sp). split; [by constructor|].
  unfold rows in *. cbn. rewrite !length_app in *. cbn [length] in *. rewrite ?length_app in *. cbn [length] in *. lia.
Qed.

(** A C string at [off]. *)
Definition c_string (m : list Z) (off : Z) (v : list Z) : Prop := exists pre post, m = pre ++ v ++ 0 :: post /\ off = zlen pre.

Lemma c_string_cstr m o v : c_string m o v -> no_nul v -> cstr m o = Ok v.
Proof.
  intros (pre & post & -> & ->) Hv. unfold cstr. replace (Z.to_nat (zlen pre)) with (length pre) by (unfold zlen; lia).
  rewrite drop_app_length, strlen_app by done. cbn [mbind res_bind]. by apply slice_app.
Qed.

Lemma laid_strings delim off arr fs m : laid delim off arr fs m -> forall pre, off = zlen pre ->
  Forall2 (fun o f => c_string (pre ++ m) o (clean delim f)) arr fs.
Proof.
  induction 1 as [off m|off sp f junk arr fs m Hl _ IH]; intros pre ->; [constructor|]. constructor.
  - exists (pre ++ sp), (junk ++ m). split; [by rewrite <- !app_assoc|by rewrite zlen_app].
  - specialize (IH (pre ++ sp ++ clean delim f ++ 0 :: junk)). rewrite <- (app_assoc pre) in IH. apply IH.
    rewrite zlen_app. unfold zlen in *. lia.
Qed.

Lemma char_start fuel m ptr inside arr delim n c : ld m ptr = Ok c -> c <> 0 -> zlen arr < n ->
  char_delim_loop (S fuel) m ptr CStart inside arr delim n = char_delim_loop fuel m ptr CFindDelim inside (arr ++ [ptr]) delim n.
Proof.
  intros E Hc Hn. cbn [char_delim_loop]. rewrite E. cbn [mbind res_bind]. destruct (Z.eqb_spec c 0); [done|].
  by destruct (Z.ltb_spec (zlen arr) n); [|lia].
Qed.

Definition no_caret (s : list Z) : Prop := forall w, s <> 94 :: 94 :: w.

Lemma separate_run s t delim n : no_nul s -> no_caret s -> delim <> 0 -> delim <> 32 -> (0 < n)%nat ->
  match split delim n s with
  | Some fs => exists m arr, ks_separate_string (Some (s ++ 0 :: t)) delim (Z.of_nat n) = Ok (m, arr) /\ laid delim 0 arr fs m /\
      length m = length (s ++ 0 :: t)
  | None => t = [] -> ks_separate_string (Some (s ++ 0 :: t)) delim (Z.of_nat n) = Err OutOfBounds
  end.
Proof.
  intros Hs Hca Hd0 Hd32 Hn. unfold ks_separate_string. destruct (Z.eqb_spec (Z.of_nat n) 0); [lia|].
  assert (Ec : (a ← ld (s ++ 0 :: t) 0; if a =? 94 then b ← ld (s ++ 0 :: t) 1; Ok (b =? 94) else Ok false) = Ok false).
  { destruct s as [|a [|b s]]; [done| |].
    - cbn. change (ld (a :: 0 :: t) 0) with (@Ok Z a). cbn. destruct (a =? 94); done.
    - change (ld ((a :: b :: s) ++ 0 :: t) 0) with (@Ok Z a). change (ld ((a :: b :: s) ++ 0 :: t) 1) with (@Ok Z b). cbn [mbind res_bind].
      destruct (Z.eqb_spec a 94) as [->|]; [|done]. destruct (Z.eqb_spec b 94) as [->|]; [|done]. by destruct (Hca s). }
  assert (Ec2 : forall (B : Type) (f : bool -> res B), (a ← ld (s ++ 0 :: t) 0;
    caret ← (if a =? 94 then b ← ld (s ++ 0 :: t) 1; Ok (b =? 94) else Ok false); f caret) = f false).
  { intros B f. transitivity ((a ← ld (s ++ 0 :: t) 0; if a =? 94 then b ← ld (s ++ 0 :: t) 1; Ok (b =? 94) else Ok false) ≫= f); [|by rewrite Ec].
    by destruct (ld (s ++ 0 :: t) 0). }
  rewrite Ec2. cbn [mbind res_bind]. destruct (Z.eqb_spec delim 32); [done|]. unfold separate_string_char_delim, split.
  destruct s as [|c s].
  { cbn [app length Nat.mul Nat.add char_delim_loop]. change (ld (0 :: t) 0) with (@Ok Z 0). cbn. eexists _, _. split; [reflexivity|]. split; [constructor|done]. }
  destruct n as [|n]; [lia|]. pose proof Hs as Hcs. apply Forall_cons in Hs as [Hc Hs].
  set (m0 := (c :: s) ++ 0 :: t). assert (Hfuel : (2 * S (length m0) = S (S (2 * length m0)))%nat) by lia. rewrite Hfuel.
  rewrite (char_start _ m0 0 false [] delim (Z.of_nat (S n)) c) by (done || (change (zlen (@nil Z)) with 0; lia)). cbn [pred].
  pose proof (char_delim_run delim Hd0 t (Z.of_nat (S n)) (S (2 * length m0)) (c :: s) [] [] [] false n) as E. cbn [app] in E.
  change (zlen (@nil Z)) with 0 in E. rewrite Z.add_0_r in E. unfold split_goal in E.
  destruct (fields delim n (c :: s) false []) as [fs|] eqn:Ef.
  - destruct E as (t' & E & El); [unfold m0; rewrite length_app; simpl; lia|by constructor|lia|]. change (c :: s ++ 0 :: t) with m0 in E.
    change ([] ++ [0]) with [0]. rewrite E. cbn [mbind res_bind].
    destruct (cleanup_all_run delim t' fs (fields_no_nul _ _ _ _ _ _ Hcs (Forall_nil_2 _) Ef) []) as (m & arr & Em & Hm & Hlm).
    cbn [app] in Em. change (zlen (@nil Z)) with 0 in *. exists m, arr. split; [done|]. split; [done|]. by rewrite Hlm.
  - intros Ht. change ([] ++ [0]) with [0]. change (c :: s ++ 0 :: t) with m0 in E. rewrite E; [done| |by constructor|lia|done].
    unfold m0.
    cbn [length]. rewrite length_app. simpl. lia.
Qed.

(** ** What cleaning leaves *)

Lemma clean_chars_Forall (P : Z -> Prop) delim : (forall n e, P n -> char_escapes delim n = Some e -> P e) ->
  forall k s inside out keep, (length s < k)%nat -> Forall P s -> Forall P out -> Forall P (clean_chars delim s inside out keep).
Proof.
  intros HP. induction k as [|k IH]; intros s inside out keep Hk Hs Ho; [lia|]. destruct s as [|c s]; cbn [clean_chars]; [by apply Forall_take|].
  apply Forall_cons in Hs as [Hc Hs]. simpl in Hk.
  assert (Hplain : Forall P (if (c =? quote) && (inside || existsb (Z.eqb quote) s)
      then clean_chars delim s (negb inside) out (if inside then keep else length out)
      else clean_chars delim s inside (out ++ [c]) (if negb (c =? 32) || inside then S (length out) else keep))).
  { destruct (_ && _); (apply IH; [lia|done|]); [done|]. apply Forall_app. split; [done|by constructor]. }
  destruct (c =? ESCAPE_META); [|exact Hplain]. destruct s as [|n s]; [exact Hplain|].
  destruct (char_escapes delim n) as [e|] eqn:E; [|exact Hplain]. cbn [option_map].
  apply Forall_cons in Hs as [Hn Hs]. simpl in Hk. apply IH; [lia|done|]. apply Forall_app. split; [done|]. constructor; [|done]. by apply (HP n).
Qed.

Lemma skip_blanks_Forall P s : Forall P s -> Forall P (skip_blanks s).
Proof. intros H. destruct (skip_blanks_split s) as (k & E & _). rewrite E in H. by apply Forall_app in H as [_ ?]. Qed.

Lemma clean_no_nul delim f : no_nul f -> no_nul (clean delim f).
Proof.
  intros H. unfold clean. apply (clean_chars_Forall _ delim) with (k := S (length (skip_blanks f))); [|lia|by apply skip_blanks_Forall|constructor].
  intros n e Hn E. unfold char_escapes in E. destruct (_ || _); [by injection E as <-|].
  destruct (negb (unescape_char n =? n)); [|done]. injection E as <-. unfold unescape_char. by repeat case_match.
Qed.

(** Without a backslash the characters left are among those of the field. *)
Lemma clean_chars_plain (P : Z -> Prop) delim : forall s inside out keep, Forall (fun c => c <> ESCAPE_META) s ->
  Forall P s -> Forall P out -> Forall P (clean_chars delim s inside out keep).
Proof.
  induction s as [|c s IH]; intros inside out keep He Hs Ho; cbn [clean_chars]; [by apply Forall_take|].
  apply Forall_cons in Hs as [Hc Hs]. apply Forall_cons in He as [Hec He]. destruct (Z.eqb_spec c ESCAPE_META); [done|].
  destruct (_ && _); apply IH; try done. apply Forall_app. split; [done|by constructor].
Qed.

Lemma clean_plain (P : Z -> Prop) delim f : Forall (fun c => c <> ESCAPE_META) f -> Forall P f -> Forall P (clean delim f).
Proof. intros He H. apply clean_chars_plain; [by apply skip_blanks_Forall|by apply skip_blanks_Forall|constructor]. Qed.

(** Without quotes and backslashes, a string with enough places is cut at every delimiter. *)
Definition unquoted (s : list Z) : Prop := Forall (fun c => c <> ESCAPE_META /\ c <> quote) s.

Lemma fields_plain delim : forall s n cur fs, unquoted s -> Forall (fun c => c <> delim) cur ->
  fields delim n s false cur = Some fs -> (length fs <= n)%nat -> Forall (Forall (fun c => c <> delim)) fs.
Proof.
  induction s as [|c s IH]; intros n cur fs Hs Hcur E Hl; cbn [fields] in E; [injection E as <-; by repeat constructor|].
  apply Forall_cons in Hs as [[He Hq] Hs]. destruct (Nat.eqb_spec n 0) as [->|_].
  { injection E as <-. simpl in Hl. lia. }
  destruct (Z.eqb_spec c ESCAPE_META); [done|]. destruct (Z.eqb_spec c quote); [done|]. cbn [andb] in E.
  destruct (Z.eqb_spec c delim) as [->|Hd]; cbn [andb negb] in E.
  - destruct s as [|d s]; [injection E as <-; by repeat constructor|].
    destruct (fields delim (Nat.pred n) (d :: s) false []) as [fs'|] eqn:Ef; [|done]. injection E as <-. simpl in Hl.
    constructor; [done|]. apply (IH (Nat.pred n) [] fs'); [done|done|done|lia].
  - apply (IH n (cur ++ [c]) fs); [done| |done|done]. apply Forall_app. split; [done|by constructor].
Qed.

Lemma fields_Forall (P : Z -> Prop) delim : forall s n cur fs, unquoted s -> Forall P s -> Forall P cur ->
  fields delim n s false cur = Some fs -> Forall (Forall P) fs.
Proof.
  induction s as [|c s IH]; intros n cur fs Hs HP Hcur E; cbn [fields] in E; [injection E as <-; by repeat constructor|].
  apply Forall_cons in Hs as [[He Hq] Hs]. apply Forall_cons in HP as [Hc HP].
  assert (Hcc : Forall P (cur ++ [c])) by (apply Forall_app; split; [done|by constructor]).
  destruct (n =? 0)%nat.
  { injection E as <-. constructor; [|done]. apply Forall_app. split; [done|by constructor]. }
  destruct (Z.eqb_spec c ESCAPE_META); [done|]. destruct (Z.eqb_spec c quote); [done|]. cbn [andb] in E.
  destruct (_ && _); [|by apply (IH n (cur ++ [c]) fs)].
  destruct s as [|d s]; [injection E as <-; by repeat constructor|].
  destruct (fields delim (Nat.pred n) (d :: s) false []) as [fs'|] eqn:Ef; [|done]. injection E as <-.
  constructor; [done|]. by apply (IH (Nat.pred n) [] fs').
Qed.

(** Plain fields joined by the delimiter are cut and left as they were. *)
Definition is_plain (delim c : Z) : Prop := c <> 0 /\ c <> delim /\ c <> ESCAPE_META /\ c <> quote /\ c <> 32 /\ c <> 94.
Definition plain_field (delim : Z) (f : list Z) : Prop := f <> [] /\ Forall (is_plain delim) f.

Fixpoint join (delim : Z) (fs : list (list Z)) : list Z :=
  match fs with [] => [] | f :: fs => match fs with [] => f | _ => f ++ delim :: join delim fs end end.

Lemma fields_step delim n f s cur : delim <> ESCAPE_META -> delim <> quote -> Forall (is_plain delim) f -> (0 < n)%nat -> s <> [] ->
  fields delim n (f ++ delim :: s) false cur = option_map (cons (cur ++ f)) (fields delim (pred n) s false []).
Proof.
  intros Hd1 Hd2 Hf Hn Hs. revert cur. induction Hf as [|c f (_ & H1 & H2 & H3 & _) _ IH]; intros cur; cbn [app fields].
  - destruct (Nat.eqb_spec n 0); [lia|]. destruct (Z.eqb_spec delim ESCAPE_META); [done|]. destruct (Z.eqb_spec delim quote); [done|].
    rewrite Z.eqb_refl, app_nil_r. cbn [andb negb]. by destruct s.
  - destruct (Nat.eqb_spec n 0); [lia|]. destruct (Z.eqb_spec c ESCAPE_META); [done|]. destruct (Z.eqb_spec c quote); [done|].
    destruct (Z.eqb_spec c delim); [done|]. cbn [andb]. by rewrite IH, <- app_assoc.
Qed.

Lemma fields_last delim n f cur : Forall (is_plain delim) f -> fields delim n f false cur = Some [cur ++ f].
Proof.
  intros Hf. revert cur. induction Hf as [|c f (_ & H1 & H2 & H3 & _) _ IH]; intros cur; cbn [fields]; [by rewrite app_nil_r|].
  destruct (n =? 0)%nat; [done|]. destruct (Z.eqb_spec c ESCAPE_META); [done|]. destruct (Z.eqb_spec c quote); [done|].
  destruct (Z.eqb_spec c delim); [done|]. cbn [andb]. by rewrite IH, <- app_assoc.
Qed.

Lemma join_nonempty delim fs : Forall (plain_field delim) fs -> fs <> [] -> join delim fs <> [].
Proof. intros Hf Hne. destruct Hf as [|f fs [Hn _] _]; [done|]. cbn [join]. destruct f; [done|]. by destruct fs. Qed.

Lemma split_join delim n fs : delim <> ESCAPE_META -> delim <> quote -> Forall (plain_field delim) fs -> fs <> [] -> (length fs <= n)%nat ->
  split delim n (join delim fs) = Some fs.
Proof.
  intros Hd1 Hd2 Hfs Hne Hn. unfold split. pose proof (join_nonempty delim fs Hfs Hne) as Hj. destruct (join delim fs) as [|c s] eqn:E; [done|].
  rewrite <- E. clear c s E Hj. revert n Hn. induction Hfs as [|f fs [Hf0 Hf] Hfs IH]; intros n Hn; [done|]. simpl in Hn. cbn [join]. destruct fs as [|g fs].
  - by rewrite fields_last.
  - simpl in Hn. rewrite fields_step by (done || lia || by apply join_nonempty).
    rewrite (IH ltac:(done) (pred n)) by (simpl; lia). done.
Qed.

Lemma join_Forall (P : Z -> Prop) delim fs : P delim -> Forall (Forall P) fs -> Forall P (join delim fs).
Proof.
  intros Hd H. induction H as [|f fs Hf Hfs IH]; [constructor|]. cbn [join]. destruct fs; [done|]. apply Forall_app. split; [done|]. by constructor.
Qed.

Lemma clean_chars_id delim f : Forall (is_plain delim) f -> forall out, clean_chars delim f false out (length out) = out ++ f.
Proof.
  induction 1 as [|c f (_ & _ & H1 & H2 & H3 & _) _ IH]; intros out; cbn [clean_chars]; [by rewrite take_ge, app_nil_r by lia|].
  destruct (Z.eqb_spec c ESCAPE_META); [done|]. destruct (Z.eqb_spec c quote); [done|]. destruct (Z.eqb_spec c 32); [done|]. cbn [andb negb orb].
  replace (S (length out)) with (length (out ++ [c])) by (rewrite length_app; simpl; lia). by rewrite IH, <- app_assoc.
Qed.

Lemma clean_id delim f : Forall (is_plain delim) f -> clean delim f = f.
Proof.
  intros Hf. unfold clean. assert (E : skip_blanks f = f).
  { destruct Hf as [|c f (_ & _ & _ & _ & Hc & _) _]; [done|]. destruct c as [|[|p|]|]; try done. repeat (destruct p as [p|p|]; try done). }
  rewrite E. apply (clean_chars_id delim f Hf []).
Qed.

(** The whole call on joined plain fields. *)
Lemma separate_join delim n fs : delim <> 0 -> delim <> 32 -> delim <> 94 -> delim <> ESCAPE_META -> delim <> quote ->
  Forall (plain_field delim) fs -> fs <> [] -> (length fs <= n)%nat ->
  exists m arr, ks_separate_string (Some (join delim fs ++ [0])) delim (Z.of_nat n) = Ok (m, arr) /\ Forall2 (fun o f => cstr m o = Ok f) arr fs.
Proof.
  intros H0 H32 H94 Hd1 Hd2 Hfs Hne Hn.
  assert (Hnn : forall f, Forall (is_plain delim) f -> no_nul f) by (intros f Hf; eapply Forall_impl; [exact Hf|]; by intros c (H & _)).
  assert (Hall : Forall (Forall (fun c => c <> 94)) fs) by (eapply Forall_impl; [exact Hfs|]; intros f [_ Hf]; eapply Forall_impl; [exact Hf|]; by intros c (_ & _ & _ & _ & _ & H)).
  pose proof (separate_run (join delim fs) [] delim n) as H. rewrite (split_join delim n fs) in H by done.
  destruct H as (m & arr & E & Hl & _); try done.
  - apply join_Forall; [done|]. eapply Forall_impl; [exact Hfs|]. intros f [_ Hf]. by apply Hnn.
  - intros w E. pose proof (join_Forall (fun c => c <> 94) delim fs H94 Hall) as Hj. rewrite E in Hj. by apply Forall_cons in Hj as [Hj _].
  - destruct fs; [done|]. simpl in Hn. lia.
  - exists m, arr. split; [done|]. pose proof (laid_strings _ _ _ _ _ Hl [] eq_refl) as Hs. cbn [app] in Hs. clear -Hfs Hs Hnn.
    induction Hs as [|o f arr fs Ho _ IH]; [constructor|]. apply Forall_cons in Hfs as [[_ Hf] Hfs]. constructor; [|by apply IH].
    rewrite clean_id in Ho by done. apply c_string_cstr; [done|]. by apply Hnn.
Qed.



(** A string that ends in a backslash is read past its end. *)
Lemma separate_string_backslash : ks_separate_string (Some (bytes_of_string "a,b\" ++ [0])) 44 10 = Err OutOfBounds.
Proof. vm_compute. reflexivity. Qed.

(** An empty field at the end is not counted, one in the middle is. *)
Lemma separate_string_empty_end :
  split 44 10 (bytes_of_string "a,,b,") = Some (map bytes_of_string ["a"; ""; "b"]%string).
Proof. reflexivity. Qed.

Example separate_blank_test : ks_separate_string (Some (bytes_of_string "ab  'c d' e" ++ [0])) 32 10 =
  Ok ([97; 98; 0; 32; 99; 32; 100; 0; 39; 0; 101; 0], [0; 4; 10]).
Proof. vm_compute. reflexivity. Qed.

Example separate_caret_test : ks_separate_string (Some (bytes_of_string "^^;a;b" ++ [0])) 44 10 = Ok ([94; 94; 59; 97; 0; 98; 0], [3; 5]).
Proof. vm_compute. reflexivity. Qed.
End Tokens.
