(* ===== verification/HashFun.v ===== *)
(** Hash functions (src/src/include/libks/ks_hash.h, and [hash] of
    src/src/ks_hash.c): the functions of every key mode, the equivalence of the
    three paths of the byte-string hash, and what the final scrambling loses. *)
From S2P Require Import Prelude Str.
Local Open Scope Z_scope.

Module HashFun.

(** A key is a C pointer: its value, and the bytes readable from it on. *)
Record key := Key { kptr : Z; kmem : list Z }.

#[global] Instance key_eq_dec : EqDecision key.
Proof. solve_decision. Defined.

(** ** Integer keys *)

(** Signed 64-bit arithmetic: a result out of range, or the left shift of a negative
    number, has no meaning in C. A right shift of a negative number is arithmetic. *)
Definition i64 (x : Z) : res Z :=
  if (-9223372036854775808 <=? x) && (x <? 9223372036854775808) then Ok x else Err Overflow.
Definition shl64 (x n : Z) : res Z := if x <? 0 then Err Overflow else i64 (Z.shiftl x n).

Definition ks_hash_default_int64 (ky : Z) : res Z :=
  let key := s64 ky in
  a ← shl64 key 18; key ← i64 (Z.lnot key + a);
  let key := Z.lxor key (Z.shiftr key 31) in
  key ← i64 (key * 21);
  let key := Z.lxor key (Z.shiftr key 11) in
  a ← shl64 key 6; key ← i64 (key + a);
  let key := Z.lxor key (Z.shiftr key 22) in
  Ok (u32 key).

Definition ks_hash_equalkeys_int64 (k1 k2 : Z) : bool := u64 k1 =? u64 k2.

Definition ks_hash_default_int (ky : Z) : Z :=
  let x := u32 ky in
  let x := u32 (Z.lxor (Z.shiftr x 16) x * 73244475) in
  let x := u32 (Z.lxor (Z.shiftr x 16) x * 73244475) in
  Z.lxor (Z.shiftr x 16) x.

Definition ks_hash_equalkeys_int (k1 k2 : Z) : bool := u32 k1 =? u32 k2.

(** KS_64BIT is defined: a pointer is hashed as an int64. *)
Definition ks_hash_default_ptr (ky : Z) : res Z := ks_hash_default_int64 ky.
Definition ks_hash_equalkeys_ptr (k1 k2 : Z) : bool := ks_hash_equalkeys_int64 k1 k2.

(** Little-endian words of memory. *)
Definition ld16 (m : list Z) (p : Z) : res Z :=
  b0 ← ld m p; b1 ← ld m (p + 1); Ok (b0 + 256 * b1).
Definition ld32 (m : list Z) (p : Z) : res Z :=
  h0 ← ld16 m p; h1 ← ld16 m (p + 2); Ok (h0 + 65536 * h1).
Definition ld64 (m : list Z) (p : Z) : res Z :=
  w0 ← ld32 m p; w1 ← ld32 m (p + 4); Ok (w0 + 4294967296 * w1).

Definition ks_hash_default_uuid (m : list Z) : res Z :=
  w0 ← ld64 m 0; w1 ← ld64 m 8;
  h0 ← ks_hash_default_int64 w0; h1 ← ks_hash_default_int64 w1;
  Ok (Z.lxor h0 h1).

(** [memcmp(k1, k2, n) == 0] *)
Definition memeq (n : Z) (m1 m2 : list Z) : res bool :=
  s1 ← slice m1 0 n; s2 ← slice m2 0 n; Ok (bool_decide (s1 = s2)).

Definition ks_hash_equalkeys_uuid (m1 m2 : list Z) : res bool := memeq 16 m1 m2.

(** ** String keys *)

(** [strcmp(s1, s2) == 0]; running past either object is a fault. *)
Fixpoint streq (m1 m2 : list Z) : res bool :=
  match m1, m2 with
  | c1 :: m1, c2 :: m2 =>
    if c1 =? c2 then if c1 =? 0 then Ok true else streq m1 m2 else Ok false
  | _, _ => Err OutOfBounds
  end.

Definition ks_hash_equalkeys (m1 m2 : list Z) : res bool := streq m1 m2.

Fixpoint str_hash (f : Z -> res Z) (m : list Z) (h : Z) : res Z :=
  match m with
  | [] => Err OutOfBounds
  | b :: m =>
    c ← f b;
    if c =? 0 then Ok h
    else str_hash f m (u32 (u32 (u32 (c + u32 (Z.shiftl h 6)) + u32 (Z.shiftl h 16)) - h))
  end.

Definition ks_hash_default (m : list Z) : res Z := str_hash Ok m 0.
Definition ks_hash_default_ci (m : list Z) : res Z := str_hash Str.ks_tolower m 0.

(** ** Byte-string keys *)

Definition rot (x k : Z) : Z := Z.lor (u32 (Z.shiftl x k)) (Z.shiftr x (32 - k)).

Record abc := Abc { ra : Z; rb : Z; rc : Z }.

Definition mix (s : abc) : abc :=
  let '(Abc a b c) := s in
  let a := Z.lxor (u32 (a - c)) (rot c 4) in let c := u32 (c + b) in
  let b := Z.lxor (u32 (b - a)) (rot a 6) in let a := u32 (a + c) in
  let c := Z.lxor (u32 (c - b)) (rot b 8) in let b := u32 (b + a) in
  let a := Z.lxor (u32 (a - c)) (rot c 16) in let c := u32 (c + b) in
  let b := Z.lxor (u32 (b - a)) (rot a 19) in let a := u32 (a + c) in
  let c := Z.lxor (u32 (c - b)) (rot b 4) in let b := u32 (b + a) in
  Abc a b c.

Definition final (s : abc) : abc :=
  let '(Abc a b c) := s in
  let c := u32 (Z.lxor c b - rot b 14) in
  let a := u32 (Z.lxor a c - rot c 11) in
  let b := u32 (Z.lxor b a - rot a 25) in
  let c := u32 (Z.lxor c b - rot b 16) in
  let a := u32 (Z.lxor a c - rot c 4) in
  let b := u32 (Z.lxor b a - rot a 14) in
  let c := u32 (Z.lxor c b - rot b 24) in
  Abc a b c.

Definition addc (s : abc) (a b c : Z) : abc := Abc (u32 (ra s + a)) (u32 (rb s + b)) (u32 (rc s + c)).

(** [k[i]] of the three pointer types, [i] words behind [p]. *)
Definition w32 (m : list Z) (p i : Z) : res Z := ld32 m (p + 4 * i).
Definition w16 (m : list Z) (p i : Z) : res Z := ld16 m (p + 2 * i).

(** The whole blocks: aligned words, aligned halves, bytes. *)
Definition block32 (m : list Z) (p : Z) (s : abc) : res abc :=
  k0 ← w32 m p 0; k1 ← w32 m p 1; k2 ← w32 m p 2; Ok (addc s k0 k1 k2).

Definition half (m : list Z) (p i : Z) : res Z :=
  k0 ← w16 m p i; k1 ← w16 m p (i + 1); Ok (u32 (k0 + u32 (Z.shiftl k1 16))).

Definition block16 (m : list Z) (p : Z) (s : abc) : res abc :=
  x ← half m p 0; y ← half m p 2; z ← half m p 4; Ok (addc s x y z).

(** [x += k[i] << sh], one byte at a time. *)
Definition addb (m : list Z) (p sh : Z) (x : Z) : res Z :=
  b ← ld m p; Ok (u32 (x + u32 (Z.shiftl b sh))).
Definition add4 (m : list Z) (p : Z) (x : Z) : res Z :=
  x ← addb m p 0 x; x ← addb m (p + 1) 8 x; x ← addb m (p + 2) 16 x; addb m (p + 3) 24 x.

Definition block8 (m : list Z) (p : Z) (s : abc) : res abc :=
  a ← add4 m p (ra s); b ← add4 m (p + 4) (rb s); c ← add4 m (p + 8) (rc s); Ok (Abc a b c).

(** [while (length > 12)] *)
Fixpoint blocks (block : list Z -> Z -> abc -> res abc) (fuel : nat) (m : list Z) (p len : Z) (s : abc) :
    res (Z * Z * abc) :=
  match fuel with
  | O => Err NoFuel
  | S fuel =>
    if 12 <? len then s ← block m p s; blocks block fuel m (p + 12) (len - 12) (mix s)
    else Ok (p, len, s)
  end.

(** [k[i] & (2^n - 1)] *)
Definition masked (m : list Z) (p i n : Z) : res Z := k ← w32 m p i; Ok (Z.land k (2 ^ n - 1)).

(** The switch of the aligned path; [None] is the early [return c]. *)
Definition tail32 (m : list Z) (p len : Z) (s : abc) : res (option abc) :=
  if len =? 12 then s ← block32 m p s; Ok (Some s)
  else if 8 <? len then
    k2 ← masked m p 2 (8 * (len - 8)); k1 ← w32 m p 1; k0 ← w32 m p 0; Ok (Some (addc s k0 k1 k2))
  else if len =? 8 then k1 ← w32 m p 1; k0 ← w32 m p 0; Ok (Some (addc s k0 k1 0))
  else if 4 <? len then k1 ← masked m p 1 (8 * (len - 4)); k0 ← w32 m p 0; Ok (Some (addc s k0 k1 0))
  else if len =? 4 then k0 ← w32 m p 0; Ok (Some (addc s k0 0 0))
  else if 0 <? len then k0 ← masked m p 0 (8 * len); Ok (Some (addc s k0 0 0))
  else Ok None.

(** The switch of the half-aligned path, by the remaining length. *)
Definition tail16 (m : list Z) (p len : Z) (s : abc) : res (option abc) :=
  let byte i sh := b ← ld m (p + i); Ok (u32 (Z.shiftl b sh)) in
  let ok x y z := Ok (Some (addc s x y z)) in
  match len with
  | 12 => z ← half m p 4; y ← half m p 2; x ← half m p 0; ok x y z
  | 11 => b ← byte 10 16; z ← w16 m p 4; y ← half m p 2; x ← half m p 0;
          Ok (Some (addc (addc s 0 0 b) x y z))
  | 10 => z ← w16 m p 4; y ← half m p 2; x ← half m p 0; ok x y z
  | 9 => z ← byte 8 0; y ← half m p 2; x ← half m p 0; ok x y z
  | 8 => y ← half m p 2; x ← half m p 0; ok x y 0
  | 7 => b ← byte 6 16; y ← w16 m p 2; x ← half m p 0; Ok (Some (addc (addc s 0 b 0) x y 0))
  | 6 => y ← w16 m p 2; x ← half m p 0; ok x y 0
  | 5 => y ← byte 4 0; x ← half m p 0; ok x y 0
  | 4 => x ← half m p 0; ok x 0 0
  | 3 => b ← byte 2 16; x ← w16 m p 0; Ok (Some (addc (addc s b 0 0) x 0 0))
  | 2 => x ← w16 m p 0; ok x 0 0
  | 1 => x ← byte 0 0; ok x 0 0
  | _ => Ok None
  end.

(** The switch of the byte path: every case falls through to the next. *)
Definition tail8 (m : list Z) (p len : Z) (s : abc) : res (option abc) :=
  let add i sh x := if i <? len then addb m (p + i) sh x else Ok x in
  if len =? 0 then Ok None else
  c ← add 11 24 (rc s); c ← add 10 16 c; c ← add 9 8 c; c ← add 8 0 c;
  b ← add 7 24 (rb s); b ← add 6 16 b; b ← add 5 8 b; b ← add 4 0 b;
  a ← add 3 24 (ra s); a ← add 2 16 a; a ← add 1 8 a; a ← add 0 0 a;
  Ok (Some (Abc a b c)).

Definition jenkins_path (block : list Z -> Z -> abc -> res abc)
    (tail : list Z -> Z -> Z -> abc -> res (option abc)) (m : list Z) (length initval : Z) : res Z :=
  let i := u32 (u32 (3735928559 + u32 length) + initval) in
  r ← blocks block (S (Z.to_nat length)) m 0 length (Abc i i i);
  let '(p, len, s) := r in
  t ← tail m p len s;
  Ok (match t with Some s => rc (final s) | None => rc s end).

(** The pointer's alignment chooses the path (the machine is little-endian). *)
Definition ks_hash_default_arbitrary (k : key) (length initval : Z) : res Z :=
  if Z.land (kptr k) 3 =? 0 then jenkins_path block32 tail32 (kmem k) length initval
  else if Z.land (kptr k) 1 =? 0 then jenkins_path block16 tail16 (kmem k) length initval
  else jenkins_path block8 tail8 (kmem k) length initval.

(** ** The scrambling at the end of [hash] *)

Definition scramble (i : Z) : Z :=
  let i := u32 (i + Z.lnot (u32 (Z.shiftl i 9))) in
  let i := Z.lxor i (Z.lor (Z.shiftr i 14) (u32 (Z.shiftl i 18))) in
  let i := u32 (i + u32 (Z.shiftl i 4)) in
  Z.lxor i (Z.lor (Z.shiftr i 10) (u32 (Z.shiftl i 22))).

Example arbitrary_test :
  ks_hash_default_arbitrary (Key 4096 (bytes_of_string "hello world, libks"%string ++ [0; 0])) 18 13
  = ks_hash_default_arbitrary (Key 4097 (bytes_of_string "hello world, libks"%string)) 18 13.
Proof. reflexivity. Qed.
Example str_hash_ci_test :
  ks_hash_default_ci (bytes_of_string "LibKS"%string ++ [0]) = ks_hash_default (bytes_of_string "libks"%string ++ [0]).
Proof. reflexivity. Qed.

(** ** The three paths agree *)

(** The little-endian number of a byte list; the sum of up to twelve bytes into
    the state; the hash of a byte list. *)
Fixpoint le (l : list Z) : Z := match l with [] => 0 | b :: l => b + 256 * le l end.

Definition addl (s : abc) (l : list Z) : abc :=
  addc s (le (take 4 l)) (le (take 4 (drop 4 l))) (le (take 4 (drop 8 l))).

Fixpoint jref (n : nat) (l : list Z) (s : abc) : Z :=
  let finish := match l with [] => rc s | _ => rc (final (addl s l)) end in
  match n with
  | O => finish
  | S n => if 12 <? zlen l then jref n (drop 12 l) (mix (addl s (take 12 l))) else finish
  end.

Definition jenkins_ref (l : list Z) (initval : Z) : Z :=
  let i := u32 (u32 (3735928559 + u32 (zlen l)) + initval) in jref (length l) l (Abc i i i).

Lemma ld16_shift pre m i : 0 <= i -> ld16 (pre ++ m) (zlen pre + i) = ld16 m i.
Proof. intros. unfold ld16. rewrite <- Z.add_assoc, !ld_app_shift by lia. done. Qed.
Lemma ld32_shift pre m i : 0 <= i -> ld32 (pre ++ m) (zlen pre + i) = ld32 m i.
Proof. intros. unfold ld32. rewrite <- Z.add_assoc, !ld16_shift by lia. done. Qed.
Lemma w32_shift pre m i : 0 <= i -> w32 (pre ++ m) (zlen pre) i = w32 m 0 i.
Proof. intros. unfold w32. by rewrite ld32_shift by lia. Qed.
Lemma w16_shift pre m i : 0 <= i -> w16 (pre ++ m) (zlen pre) i = w16 m 0 i.
Proof. intros. unfold w16. by rewrite ld16_shift by lia. Qed.
Lemma half_shift pre m i : 0 <= i -> half (pre ++ m) (zlen pre) i = half m 0 i.
Proof. intros. unfold half. rewrite !w16_shift by lia. done. Qed.
Lemma masked_shift pre m i n : 0 <= i -> masked (pre ++ m) (zlen pre) i n = masked m 0 i n.
Proof. intros. unfold masked. by rewrite w32_shift by lia. Qed.
Lemma addb_shift pre m i sh x : 0 <= i -> addb (pre ++ m) (zlen pre + i) sh x = addb m i sh x.
Proof. intros. unfold addb. by rewrite ld_app_shift by lia. Qed.
Lemma add4_shift pre m i x : 0 <= i -> add4 (pre ++ m) (zlen pre + i) x = add4 m i x.
Proof.
  intros. unfold add4. rewrite <- !Z.add_assoc, addb_shift by lia.
  destruct (addb m i 0 x) as [x0|]; [|done]. cbn [mbind res_bind]. rewrite addb_shift by lia.
  destruct (addb m (i + 1) 8 x0) as [x1|]; [|done]. cbn [mbind res_bind]. rewrite addb_shift by lia.
  destruct (addb m (i + 2) 16 x1) as [x2|]; [|done]. cbn [mbind res_bind]. by rewrite addb_shift by lia.
Qed.

Lemma add4_shift0 pre m x : add4 (pre ++ m) (zlen pre) x = add4 m 0 x.
Proof. rewrite <- (Z.add_0_r (zlen pre)). by apply add4_shift. Qed.
Lemma block8_shift pre m s : block8 (pre ++ m) (zlen pre) s = block8 m 0 s.
Proof.
  unfold block8. rewrite add4_shift0, !add4_shift by lia. done.
Qed.

Lemma u32_add_l x y : u32 (u32 x + y) = u32 (x + y).
Proof. unfold u32. by rewrite Zplus_mod_idemp_l. Qed.
Lemma u32_add_r x y : u32 (x + u32 y) = u32 (x + y).
Proof. unfold u32. by rewrite Zplus_mod_idemp_r. Qed.

Lemma u32_add_ll x y z : u32 (u32 x + y + z) = u32 (x + y + z).
Proof. rewrite <- !Z.add_assoc. apply u32_add_l. Qed.
Lemma u32_add_lll x y z w : u32 (u32 x + y + z + w) = u32 (x + y + z + w).
Proof. rewrite <- !Z.add_assoc. apply u32_add_l. Qed.

Lemma u32_shl b sh : is_byte b -> 0 <= sh <= 24 -> u32 (Z.shiftl b sh) = b * 2 ^ sh.
Proof.
  unfold is_byte. intros Hb Hs. rewrite Z.shiftl_mul_pow2 by lia. apply u32_id.
  assert (1 <= 2 ^ sh <= 2 ^ 24) by (split; [apply (Z.pow_le_mono_r 2 0)|apply Z.pow_le_mono_r]; lia).
  change (2 ^ 24) with 16777216 in *. nia.
Qed.

Lemma land_mod k n : 0 <= n -> Z.land k (2 ^ n - 1) = k mod 2 ^ n.
Proof. intros. rewrite <- Z.land_ones, Z.ones_equiv by done. done. Qed.

Definition abc_ok (s : abc) : Prop := is_u32 (ra s) /\ is_u32 (rb s) /\ is_u32 (rc s).

Lemma addc_ok s a b c : abc_ok (addc s a b c).
Proof. repeat split; apply u32_range. Qed.

(** Evaluate the loads from a list with known elements. *)
Ltac eval_loads :=
  cbn [app take drop le];
  repeat (match goal with |- context [ld ?m ?p] =>
    let r := eval vm_compute in (ld m p) in change (ld m p) with r end;
    cbn [mbind res_bind]).

Ltac bytes12 l Hl := do 12 (destruct l as [|? l]; [discriminate Hl|]); destruct l; [|discriminate Hl].

(** One [u32] around a sum of words and shifted bytes. *)
Ltac u32_sums :=
  rewrite ?Z.shiftl_mul_pow2 by lia;
  repeat (rewrite u32_add_r || rewrite u32_add_l || rewrite u32_add_ll || rewrite u32_add_lll || rewrite Z.add_assoc).

Section Paths.
Variable m : list Z.

Lemma block32_spec pre l post s :
  m = pre ++ l ++ post -> length l = 12%nat -> block32 m (zlen pre) s = Ok (addl s l).
Proof.
  intros -> Hl. unfold block32. rewrite !w32_shift by lia. bytes12 l Hl.
  unfold w32, ld32, ld16, addl, addc. eval_loads. do 3 f_equal; lia.
Qed.

Lemma block16_spec pre l post s :
  m = pre ++ l ++ post -> length l = 12%nat -> block16 m (zlen pre) s = Ok (addl s l).
Proof.
  intros -> Hl. unfold block16. rewrite !half_shift by lia. bytes12 l Hl.
  unfold half, w16, ld16, addl, addc. eval_loads.
  u32_sums. do 3 f_equal; lia.
Qed.

Lemma block8_spec pre l post s :
  m = pre ++ l ++ post -> length l = 12%nat -> block8 m (zlen pre) s = Ok (addl s l).
Proof.
  intros -> Hl. rewrite block8_shift. bytes12 l Hl. unfold block8, add4, addb.
  unfold addl, addc. eval_loads.
  u32_sums. do 3 f_equal; lia.
Qed.
End Paths.

(** The last, partial block. *)
Definition tail_ref (l : list Z) (s : abc) : option abc :=
  match l with [] => None | _ => Some (addl s l) end.

(** Evaluate closed comparisons and list lengths. *)
Ltac eval_closed :=
  repeat match goal with
  | |- context [zlen (?a :: ?l)] => let r := eval vm_compute in (zlen (a :: l)) in change (zlen (a :: l)) with r
  | |- context [zlen []] => change (zlen (@nil Z)) with 0
  end;
  repeat match goal with
  | |- context [?a <? ?b] => let r := eval vm_compute in (a <? b) in
      lazymatch r with true => idtac | false => idtac end; change (a <? b) with r; cbv iota
  | |- context [?a =? ?b] => let r := eval vm_compute in (a =? b) in
      lazymatch r with true => idtac | false => idtac end; change (a =? b) with r; cbv iota
  end.

Ltac eval_pow :=
  repeat match goal with
  | |- context [2 ^ ?n] => let r := eval vm_compute in (2 ^ n) in
      lazymatch r with Zpos _ => idtac end; change (2 ^ n) with r
  end.

(** Every length up to twelve. *)
Ltac upto12 l Hl :=
  destruct l as [|? [|? [|? [|? [|? [|? [|? [|? [|? [|? [|? [|? [|? ?]]]]]]]]]]]]];
  [..|exfalso; simpl in Hl; lia].

Lemma tail32_shift pre m len s : tail32 (pre ++ m) (zlen pre) len s = tail32 m 0 len s.
Proof. unfold tail32, block32. rewrite !masked_shift, !w32_shift by lia. done. Qed.

Lemma tail16_shift pre m len s : tail16 (pre ++ m) (zlen pre) len s = tail16 m 0 len s.
Proof. unfold tail16. rewrite !ld_app_shift, !w16_shift, !half_shift by lia. done. Qed.

Section Tails.
Variables (pre l post m : list Z).
Hypothesis Hm : m = pre ++ l ++ post.
Hypothesis Hlen : (length l <= 12)%nat.

Lemma tail32_spec s :
  all_bytes (l ++ post) -> (zlen l + 3) / 4 * 4 <= zlen (l ++ post) ->
  tail32 m (zlen pre) (zlen l) s = Ok (tail_ref l s).
Proof.
  intros Hb Hpad. subst m. rewrite tail32_shift. clear pre.
  upto12 l Hlen; unfold tail32, block32, masked; eval_closed; try done;
    destruct post as [|p0 [|p1 [|p2 ps]]]; try (exfalso; apply Hpad; reflexivity);
    unfold w32, ld32, ld16, tail_ref, addl, addc; eval_loads;
    rewrite ?land_mod by lia; eval_pow; inv_Forall; unfold is_byte in *; do 4 f_equal; lia_div.
Qed.

Lemma tail16_spec s : all_bytes l -> tail16 m (zlen pre) (zlen l) s = Ok (tail_ref l s).
Proof.
  intros Hb. subst m. rewrite tail16_shift. clear pre.
  upto12 l Hlen; unfold tail16; eval_closed; try done;
    unfold half, w16, ld16, tail_ref, addl, addc; eval_loads; cbn [ra rb rc];
    u32_sums; eval_pow; do 4 f_equal; lia.
Qed.

Lemma tail8_spec s : abc_ok s -> tail8 m (zlen pre) (zlen l) s = Ok (tail_ref l s).
Proof.
  intros (Ha & Hb & Hc). subst m.
  upto12 l Hlen; unfold tail8; eval_closed; cbv beta zeta; eval_closed; try done;
    unfold addb; rewrite !ld_app_shift by lia; unfold tail_ref, addl, addc; eval_loads; cbn [ra rb rc];
    u32_sums; eval_pow; do 3 f_equal; rewrite ?u32_id by (unfold is_u32 in *; lia); f_equal; lia.
Qed.
End Tails.

(** ** The ranges of the words *)

Lemma log2_u32 x : is_u32 x -> Z.log2 x < 32.
Proof.
  unfold is_u32. intros Hx. destruct (decide (x = 0)) as [->|]; [done|].
  apply Z.log2_lt_pow2; [lia|]. change (2 ^ 32) with 4294967296. lia.
Qed.

Lemma u32_of_log2 x : 0 <= x -> Z.log2 x < 32 -> is_u32 x.
Proof.
  intros Hx Hl. split; [done|]. destruct (decide (x = 0)) as [->|]; [done|].
  apply Z.log2_lt_pow2 in Hl; [done|lia].
Qed.

Lemma lxor_u32 x y : is_u32 x -> is_u32 y -> is_u32 (Z.lxor x y).
Proof.
  intros Hx Hy. pose proof (log2_u32 x Hx). pose proof (log2_u32 y Hy). destruct Hx, Hy.
  apply u32_of_log2; [by apply Z.lxor_nonneg|]. pose proof (Z.log2_lxor x y). lia.
Qed.

Lemma lor_u32 x y : is_u32 x -> is_u32 y -> is_u32 (Z.lor x y).
Proof.
  intros Hx Hy. pose proof (log2_u32 x Hx). pose proof (log2_u32 y Hy). destruct Hx, Hy.
  apply u32_of_log2; [by apply Z.lor_nonneg|]. rewrite Z.log2_lor by done. lia.
Qed.

Lemma shiftr_u32 x n : is_u32 x -> 0 <= n -> is_u32 (Z.shiftr x n).
Proof.
  unfold is_u32. intros Hx Hn. rewrite Z.shiftr_div_pow2 by done.
  assert (0 < 2 ^ n) by (by apply Z.pow_pos_nonneg).
  split; [apply Z.div_pos; lia|]. apply Z.div_lt_upper_bound; [done|]. nia.
Qed.

Lemma rot_u32 x k : is_u32 x -> 0 <= k <= 32 -> is_u32 (rot x k).
Proof. intros. apply lor_u32; [apply u32_range|apply shiftr_u32; [done|lia]]. Qed.

Lemma mix_ok s : abc_ok s -> abc_ok (mix s).
Proof.
  destruct s as [a b c]. intros (Ha & Hb & Hc). unfold mix, abc_ok. cbn [ra rb rc] in *.
  repeat match goal with |- _ /\ _ => split end;
    repeat first [done | apply u32_range | apply lxor_u32 | apply rot_u32; [|lia]].
Qed.

(** ** Every path computes the reference *)

Section Whole.
Variables (block : list Z -> Z -> abc -> res abc) (tail : list Z -> Z -> Z -> abc -> res (option abc)).
Variables (m post : list Z).
Hypothesis Hblock : forall pre l post' s,
  m = pre ++ l ++ post' -> length l = 12%nat -> block m (zlen pre) s = Ok (addl s l).
Hypothesis Htail : forall pre l s,
  m = pre ++ l ++ post -> (length l <= 12)%nat -> abc_ok s -> zlen pre mod 4 = 0 ->
  tail m (zlen pre) (zlen l) s = Ok (tail_ref l s).

Lemma jref_short n l s : zlen l <= 12 ->
  jref n l s = match tail_ref l s with Some s => rc (final s) | None => rc s end.
Proof.
  intros Hl. destruct n; cbn [jref]; [by destruct l|]. destruct (Z.ltb_spec 12 (zlen l)); [lia|by destruct l].
Qed.

Lemma blocks_run n : forall l pre s fuel,
  m = pre ++ l ++ post -> abc_ok s -> (length l <= n)%nat -> (length l < fuel)%nat -> zlen pre mod 4 = 0 ->
  (r ← blocks block fuel m (zlen pre) (zlen l) s;
   let '(p, len, s) := r in
   t ← tail m p len s;
   Ok (match t with Some s => rc (final s) | None => rc s end)) = Ok (jref n l s).
Proof.
  induction n as [|n IH]; intros l pre s [|fuel] Hm Hs Hn Hf Hp; try lia; cbn [blocks].
  - destruct l; [|simpl in Hn; lia]. cbn [mbind res_bind].
    change (12 <? zlen (@nil Z)) with false. cbn [mbind res_bind]. rewrite Htail by (done || simpl; lia). done.
  - destruct (Z.ltb_spec 12 (zlen l)) as [Hl|Hl].
    + cbn [jref]. destruct (Z.ltb_spec 12 (zlen l)); [|lia].
      destruct (split_at l 12) as (l1 & l2 & -> & H1); [lia|].
      assert (H1' : length l1 = 12%nat) by (unfold zlen in H1; lia).
      rewrite (Hblock pre l1 (l2 ++ post)) by (done || by rewrite Hm, <- app_assoc).
      cbn [mbind res_bind]. rewrite take_app_length', drop_app_length' by done.
      replace (zlen pre + 12) with (zlen (pre ++ l1)) by (rewrite zlen_app; lia).
      replace (zlen (l1 ++ l2) - 12) with (zlen l2) by (rewrite zlen_app; lia).
      rewrite length_app in *. apply IH; try lia.
      * by rewrite Hm, <- !app_assoc.
      * apply mix_ok, addc_ok.
      * rewrite zlen_app, H1. rewrite <- Zplus_mod_idemp_l, Hp. done.
    + cbn [mbind res_bind]. rewrite Htail by (done || unfold zlen in *; lia). cbn [mbind res_bind].
      by rewrite jref_short by done.
Qed.
End Whole.

Lemma path_spec block tail bytes post initval :
  (forall pre l post' s,
    bytes ++ post = pre ++ l ++ post' -> length l = 12%nat ->
    block (bytes ++ post) (zlen pre) s = Ok (addl s l)) ->
  (forall pre l s,
    bytes ++ post = pre ++ l ++ post -> (length l <= 12)%nat -> abc_ok s -> zlen pre mod 4 = 0 ->
    tail (bytes ++ post) (zlen pre) (zlen l) s = Ok (tail_ref l s)) ->
  jenkins_path block tail (bytes ++ post) (zlen bytes) initval = Ok (jenkins_ref bytes initval).
Proof.
  intros Hb Ht. unfold jenkins_path, jenkins_ref. cbv zeta.
  apply (blocks_run block tail (bytes ++ post) post Hb Ht (length bytes) bytes []); try done.
  - repeat split; apply u32_range.
  - unfold zlen. lia.
Qed.

(** The memory a key of [n] bytes must have behind it on the aligned path: the
    rest of its last word. *)
Definition key_readable (k : key) (n : Z) : Prop :=
  0 <= n <= zlen (kmem k) /\ all_bytes (kmem k) /\
  (Z.land (kptr k) 3 = 0 -> (n + 3) / 4 * 4 <= zlen (kmem k)).

Lemma arbitrary_ref k n initval :
  key_readable k n ->
  ks_hash_default_arbitrary k n initval = Ok (jenkins_ref (take (Z.to_nat n) (kmem k)) initval).
Proof.
  intros (Hn & Hb & Hpad). destruct (split_at (kmem k) n Hn) as (bytes & post & E & <-).
  rewrite E in *. rewrite take_app_length' by (unfold zlen; lia).
  unfold ks_hash_default_arbitrary. rewrite E.
  destruct (Z.eqb_spec (Z.land (kptr k) 3) 0) as [H3|_]; [|destruct (Z.eqb_spec (Z.land (kptr k) 1) 0)].
  - apply path_spec; [intros; by eapply block32_spec|].
    intros pre l s Hm Hl Hs Hp. apply (tail32_spec pre l post); [done|done| |].
    + unfold all_bytes in *. rewrite Hm in Hb. by apply Forall_app in Hb as [_ Hb].
    + specialize (Hpad H3). rewrite Hm in Hpad. autorewrite with zlen in *.
      assert (Hz : zlen bytes = zlen pre + zlen l).
      { apply (f_equal zlen) in Hm. autorewrite with zlen in Hm. lia. }
      rewrite Hz in Hpad. lia_div.
  - apply path_spec; [intros; by eapply block16_spec|].
    intros pre l s Hm Hl Hs Hp. apply (tail16_spec pre l post); [done|done|].
    unfold all_bytes in *. rewrite Hm in Hb. by apply Forall_app in Hb as [_ [Hb _]%Forall_app].
  - apply path_spec; [intros; by eapply block8_spec|].
    intros pre l s Hm Hl Hs Hp. by apply (tail8_spec pre l post).
Qed.

(** C8: the hash of a byte string does not depend on how it lies in memory: the
    word path, the half-word path and the byte path, chosen by the alignment of
    the pointer, compute the same reference from the [n] bytes of the key,
    whatever follows them. *)
Theorem ks_hash_arbitrary_alignment k1 k2 n initval :
  key_readable k1 n -> key_readable k2 n ->
  take (Z.to_nat n) (kmem k1) = take (Z.to_nat n) (kmem k2) ->
  ks_hash_default_arbitrary k1 n initval = Ok (jenkins_ref (take (Z.to_nat n) (kmem k1)) initval) /\
  ks_hash_default_arbitrary k1 n initval = ks_hash_default_arbitrary k2 n initval.
Proof. intros H1 H2 E. rewrite !arbitrary_ref by done. by rewrite E. Qed.

Lemma ks_hash_arbitrary_alignment_witness :
  let k1 := Key 8192 [1; 2; 3; 4; 5; 6; 7; 8; 9; 10; 11; 12; 13; 14; 255; 254] in
  let k2 := Key 8193 [1; 2; 3; 4; 5; 6; 7; 8; 9; 10; 11; 12; 13; 14] in
  ks_hash_default_arbitrary k1 14 13 = Ok (jenkins_ref [1; 2; 3; 4; 5; 6; 7; 8; 9; 10; 11; 12; 13; 14] 13) /\
  ks_hash_default_arbitrary k1 14 13 = ks_hash_default_arbitrary k2 14 13.
Proof.
  apply (ks_hash_arbitrary_alignment
    (Key 8192 [1; 2; 3; 4; 5; 6; 7; 8; 9; 10; 11; 12; 13; 14; 255; 254])
    (Key 8193 [1; 2; 3; 4; 5; 6; 7; 8; 9; 10; 11; 12; 13; 14]) 14 13).
  - split; [split; vm_compute; discriminate|].
    split; [repeat constructor; unfold is_byte; lia|intros _; vm_compute; discriminate].
  - split; [split; vm_compute; discriminate|].
    split; [repeat constructor; unfold is_byte; lia|discriminate].
  - reflexivity.
Defined.

(** ** Integer keys do not collide before the scrambling *)

Lemma shiftr_over x : is_u32 x -> Z.shiftr x 32 = 0.
Proof.
  unfold is_u32. intros Hx. rewrite Z.shiftr_div_pow2 by lia. apply Z.div_small.
  change (2 ^ 32) with 4294967296. lia.
Qed.

(** [x ^= x >> 16] is its own inverse on 32 bits. *)
Lemma xorshift16_invol x : is_u32 x ->
  let y := Z.lxor (Z.shiftr x 16) x in Z.lxor (Z.shiftr y 16) y = x.
Proof.
  intros Hx y. unfold y. rewrite Z.shiftr_lxor, Z.shiftr_shiftr by lia.
  change (16 + 16) with 32. rewrite (shiftr_over x Hx), Z.lxor_0_l.
  by rewrite <- Z.lxor_assoc, Z.lxor_nilpotent, Z.lxor_0_l.
Qed.

Lemma xorshift16_u32 x : is_u32 x -> is_u32 (Z.lxor (Z.shiftr x 16) x).
Proof. intros. apply lxor_u32; [by apply shiftr_u32|done]. Qed.

(** The multiplier is odd. *)
Lemma mul_inv x : is_u32 x -> u32 (u32 (x * 73244475) * 295559667) = x.
Proof.
  unfold is_u32, u32. intros Hx. rewrite Zmult_mod_idemp_l, <- Z.mul_assoc.
  rewrite <- Zmult_mod_idemp_r. change ((73244475 * 295559667) mod 4294967296) with 1.
  rewrite Z.mul_1_r. by apply Z.mod_small.
Qed.

Definition unhash_int (h : Z) : Z :=
  let x := Z.lxor (Z.shiftr h 16) h in
  let x := u32 (x * 295559667) in let x := Z.lxor (Z.shiftr x 16) x in
  let x := u32 (x * 295559667) in Z.lxor (Z.shiftr x 16) x.

Lemma unhash_hash ky : unhash_int (ks_hash_default_int ky) = u32 ky.
Proof.
  unfold unhash_int, ks_hash_default_int. cbv zeta.
  assert (H0 : is_u32 (u32 ky)) by apply u32_range.
  pose proof (xorshift16_u32 _ H0) as H1.
  rewrite xorshift16_invol by apply u32_range.
  rewrite mul_inv by (apply xorshift16_u32, u32_range).
  rewrite xorshift16_invol by apply u32_range.
  rewrite mul_inv by done. by rewrite xorshift16_invol.
Qed.

(** The integer hash is a bijection of 32-bit words: two integer keys have
    the same hash exactly when the key comparison says they are equal. *)
Lemma ks_hash_default_int_injective k1 k2 :
  (ks_hash_default_int k1 =? ks_hash_default_int k2) = ks_hash_equalkeys_int k1 k2.
Proof.
  unfold ks_hash_equalkeys_int. destruct (Z.eqb_spec (u32 k1) (u32 k2)) as [E|E].
  - apply Z.eqb_eq. unfold ks_hash_default_int. by rewrite E.
  - apply Z.eqb_neq. intros H. apply E. rewrite <- (unhash_hash k1), <- (unhash_hash k2). by rewrite H.
Qed.

(** ** What the scrambling loses *)

Definition M32 : Z := 4294967295.

Lemma M32_bits n : 0 <= n -> Z.testbit M32 n = (n <? 32).
Proof.
  intros Hn. change M32 with (Z.ones 32). destruct (Z.ltb_spec n 32).
  - by apply Z.ones_spec_low.
  - by apply Z.ones_spec_high.
Qed.

Lemma u32_bits_high x n : is_u32 x -> 32 <= n -> Z.testbit x n = false.
Proof.
  intros Hx Hn. pose proof (log2_u32 x Hx). destruct Hx. apply Z.bits_above_log2; lia.
Qed.

(** Complementing a 32-bit word. *)
Lemma compl_u32 x : is_u32 x -> Z.lxor M32 x = M32 - x.
Proof.
  intros Hx. assert (Hl : Z.land x (Z.lxor M32 x) = 0).
  { apply Z.bits_inj. intros n. rewrite Z.bits_0. destruct (Z.ltb_spec n 0); [by rewrite Z.testbit_neg_r|].
    rewrite Z.land_spec, Z.lxor_spec, M32_bits by done. destruct (Z.ltb_spec n 32).
    - by destruct (Z.testbit x n).
    - by rewrite (u32_bits_high x n Hx). }
  pose proof (Z.add_nocarry_lxor _ _ Hl) as E.
  rewrite (Z.lxor_comm M32), <- Z.lxor_assoc, Z.lxor_nilpotent, Z.lxor_0_l in E.
  rewrite (Z.lxor_comm M32). lia.
Qed.

(** The rotation that the code writes for Java's [>>>]. *)
Definition rotr14 (x : Z) : Z := Z.lor (Z.shiftr x 14) (u32 (Z.shiftl x 18)).

Lemma rotr14_add x : is_u32 x -> rotr14 x = x / 16384 + (x mod 16384) * 262144.
Proof.
  intros Hx. unfold rotr14. rewrite Z.shiftr_div_pow2, Z.shiftl_mul_pow2 by lia.
  change (2 ^ 14) with 16384. change (2 ^ 18) with 262144.
  assert (E : u32 (x * 262144) = Z.shiftl (x mod 16384) 18).
  { rewrite Z.shiftl_mul_pow2 by lia. change (2 ^ 18) with 262144. unfold u32. lia_div. }
  rewrite E. unfold is_u32 in Hx.
  assert (Hl : Z.land (x / 16384) (Z.shiftl (x mod 16384) 18) = 0).
  { apply Z.bits_inj. intros n. rewrite Z.bits_0. destruct (Z.ltb_spec n 0); [by rewrite Z.testbit_neg_r|].
    rewrite Z.land_spec, Z.shiftl_spec by done. destruct (Z.ltb_spec n 18).
    - rewrite (Z.testbit_neg_r _ (n - 18)) by lia. by rewrite andb_false_r.
    - rewrite Z.bits_above_log2; [done|lia_div|]. destruct (decide (x / 16384 = 0)) as [->|]; [simpl; lia|].
      assert (Z.log2 (x / 16384) < 18); [|lia]. apply Z.log2_lt_pow2; [lia_div|]. change (2 ^ 18) with 262144. lia_div. }
  rewrite <- (Z.lxor_lor _ _ Hl), <- (Z.add_nocarry_lxor _ _ Hl).
  by rewrite Z.shiftl_mul_pow2 by lia.
Qed.

Lemma rotr14_compl x : is_u32 x -> rotr14 (M32 - x) = M32 - rotr14 x.
Proof.
  intros Hx. assert (is_u32 (M32 - x)) by (unfold is_u32, M32 in *; lia).
  rewrite !rotr14_add by done. unfold is_u32, M32 in *. lia_div.
Qed.

Lemma scramble1 i : is_u32 i -> u32 (i + Z.lnot (u32 (Z.shiftl i 9))) = u32 (- 511 * i - 1).
Proof.
  intros _. rewrite Z.shiftl_mul_pow2 by lia. change (2 ^ 9) with 512.
  replace (Z.lnot (u32 (i * 512))) with (- u32 (i * 512) - 1) by (unfold Z.lnot; lia).
  unfold u32. lia_div.
Qed.

(** The scrambling that ends [hash] pairs its inputs: where the Java code it
    follows shifts, it rotates, so every 32-bit hash has a different partner
    that it sends to the same result. *)
Lemma scramble_pairs i : is_u32 i ->
  let i' := u32 (- i - 4160486911) in is_u32 i' /\ i' <> i /\ scramble i' = scramble i.
Proof.
  intros Hi i'. assert (Hi' : is_u32 i') by apply u32_range. split; [done|]. split.
  - unfold i', is_u32, u32 in *. lia_div.
  - unfold scramble. cbv zeta. rewrite !scramble1 by done.
    assert (E : u32 (-511 * i' - 1) = M32 - u32 (-511 * i - 1)).
    { unfold i', u32, M32. lia_div. }
    rewrite E. set (j := u32 (-511 * i - 1)). assert (Hj : is_u32 j) by apply u32_range.
    fold (rotr14 (M32 - j)). fold (rotr14 j). rewrite rotr14_compl by done.
    assert (Hr : is_u32 (rotr14 j)) by (apply lor_u32; [by apply shiftr_u32|apply u32_range]).
    assert (Ex : Z.lxor (M32 - j) (M32 - rotr14 j) = Z.lxor j (rotr14 j)).
    { rewrite <- !compl_u32 by done. rewrite (Z.lxor_comm M32), Z.lxor_assoc, <- (Z.lxor_assoc M32).
      by rewrite Z.lxor_nilpotent, Z.lxor_0_l. }
    by rewrite Ex.
Qed.

Lemma scramble_pairs_witness :
  let i' := u32 (- 7 - 4160486911) in is_u32 i' /\ i' <> 7 /\ scramble i' = scramble 7.
Proof. apply (scramble_pairs 7). split; [discriminate|reflexivity]. Defined.

End HashFun.
