(* ===== verification/Printf.v ===== *)
(** Formatted printing (src/src/ks_printf.c): the interpreter of formats with its
    conversion buffer, the conversions of integers, of floating point numbers and
    of SQL strings, and the text collected in a fixed or a growing buffer. *)
From S2P Require Import Prelude.
From Stdlib Require Import SpecFloat.
Local Open Scope Z_scope.

Module Printf.

(** ** The table of conversions *)

Definition etBUFSIZE : Z := 350.

(** [etCHARLIT] has no entry in the table, [etTOKEN] and [etSRCLIST] are not compiled. *)
Inductive et := etRADIX | etFLOAT | etEXP | etGENERIC | etSIZE | etSTRING | etDYNSTRING | etPERCENT | etCHARX
  | etSQLESCAPE | etSQLESCAPE2 | etSQLESCAPE3 | etSQLESCAPE4 | etPOINTER.
#[global] Instance et_eq_dec : EqDecision et.
Proof. solve_decision. Defined.

Record et_info := Info { fmttype : Z; base : Z; info_flags : Z; type : et; charset : Z; info_prefix : Z }.

Definition FLAG_SIGNED : Z := 1.
Definition FLAG_INTERN : Z := 2.
Definition FLAG_STRING : Z := 4.
Definition has_flag (i : et_info) (f : Z) : bool := negb (Z.land i.(info_flags) f =? 0).

Definition aDigits : list Z := bytes_of_string "0123456789ABCDEF0123456789abcdef".
Definition aPrefix : list Z := [45; 120; 48; 0; 88; 48; 0].

Definition fmtinfo : list et_info := [
  Info 100 10 1 etRADIX 0 0;        (* d *)
  Info 115 0 4 etSTRING 0 0;        (* s *)
  Info 103 0 1 etGENERIC 30 0;      (* g *)
  Info 122 0 6 etDYNSTRING 0 0;     (* z *)
  Info 113 0 4 etSQLESCAPE 0 0;     (* q *)
  Info 81 0 4 etSQLESCAPE2 0 0;     (* Q *)
  Info 119 0 4 etSQLESCAPE3 0 0;    (* w *)
  Info 121 0 4 etSQLESCAPE4 0 0;    (* y *)
  Info 99 0 0 etCHARX 0 0;          (* c *)
  Info 111 8 0 etRADIX 0 2;         (* o *)
  Info 117 10 0 etRADIX 0 0;        (* u *)
  Info 120 16 0 etRADIX 16 1;       (* x *)
  Info 88 16 0 etRADIX 0 4;         (* X *)
  Info 102 0 1 etFLOAT 0 0;         (* f *)
  Info 101 0 1 etEXP 30 0;          (* e *)
  Info 69 0 1 etEXP 14 0;           (* E *)
  Info 71 0 1 etGENERIC 14 0;       (* G *)
  Info 105 10 1 etRADIX 0 0;        (* i *)
  Info 110 0 0 etSIZE 0 0;          (* n *)
  Info 37 0 0 etPERCENT 0 0;        (* % *)
  Info 112 16 0 etPOINTER 0 1 ].    (* p *)

(** A result of [int] arithmetic, undefined outside [int]. Where the summands are
    not negative and only grow, the check of a sum checks its parts. *)
Definition int_of (z : Z) : res Z := if (-2147483648 <=? z) && (z <=? INT_MAX) then Ok z else Err Overflow.

(** ** Arguments: what [va_arg] can meet *)

Inductive value := VInt (v : Z) | VLong (v : Z) | VDouble (x : spec_float) | VStr (s : option (list Z)) | VPtr (v : Z) | VCount (p : Z).

Definition va_int (args : list value) : res (Z * list value) :=
  match args with VInt v :: args => Ok (s32 v, args) | _ => Err BadArgument end.
Definition va_uint (args : list value) : res (Z * list value) :=
  match args with VInt v :: args => Ok (u32 v, args) | _ => Err BadArgument end.
Definition va_long (args : list value) : res (Z * list value) :=
  match args with VLong v :: args => Ok (s64 v, args) | _ => Err BadArgument end.
Definition va_ulong (args : list value) : res (Z * list value) :=
  match args with VLong v :: args | VPtr v :: args => Ok (u64 v, args) | _ => Err BadArgument end.
Definition va_str (args : list value) : res (option (list Z) * list value) :=
  match args with VStr s :: args => Ok (s, args) | _ => Err BadArgument end.
Definition va_double (args : list value) : res (spec_float * list value) :=
  match args with VDouble x :: args => Ok (x, args) | _ => Err BadArgument end.

(** ** Reading a conversion; the current character is the first, 0 at the end *)

Record flags := Flags {
  leftjustify : bool; plussign : bool; blanksign : bool; alternateform : bool; altform2 : bool; zeropad : bool;
  long : bool; longlong : bool }.
Definition no_flags : flags := Flags false false false false false false false false.
Definition set_left (f : flags) := Flags true f.(plussign) f.(blanksign) f.(alternateform) f.(altform2) f.(zeropad) f.(long) f.(longlong).
Definition set_longs (l ll : bool) (f : flags) := Flags f.(leftjustify) f.(plussign) f.(blanksign) f.(alternateform) f.(altform2) f.(zeropad) l ll.

Definition cur (fmt : list Z) : Z := match fmt with [] => 0 | c :: _ => c end.

Fixpoint read_flags (fmt : list Z) (f : flags) : flags * list Z :=
  match fmt with
  | [] => (f, [])
  | c :: rest =>
    if c =? 45 then read_flags rest (set_left f)
    else if c =? 43 then read_flags rest (Flags f.(leftjustify) true f.(blanksign) f.(alternateform) f.(altform2) f.(zeropad) f.(long) f.(longlong))
    else if c =? 32 then read_flags rest (Flags f.(leftjustify) f.(plussign) true f.(alternateform) f.(altform2) f.(zeropad) f.(long) f.(longlong))
    else if c =? 35 then read_flags rest (Flags f.(leftjustify) f.(plussign) f.(blanksign) true f.(altform2) f.(zeropad) f.(long) f.(longlong))
    else if c =? 33 then read_flags rest (Flags f.(leftjustify) f.(plussign) f.(blanksign) f.(alternateform) true f.(zeropad) f.(long) f.(longlong))
    else if c =? 48 then read_flags rest (Flags f.(leftjustify) f.(plussign) f.(blanksign) f.(alternateform) f.(altform2) true f.(long) f.(longlong))
    else (f, fmt)
  end.

(** [width * 10 + c - '0'] in [int]. *)
Fixpoint read_number (fmt : list Z) (n : Z) : res (Z * list Z) :=
  match fmt with
  | [] => Ok (n, [])
  | c :: rest =>
    if (48 <=? c) && (c <=? 57) then if INT_MAX <? n * 10 + c then Err Overflow else read_number rest (n * 10 + c - 48)
    else Ok (n, fmt)
  end.

Definition negate_int (n : Z) : res Z := if n =? -2147483648 then Err Overflow else Ok (- n).

(** The width, cut to what leaves room in the buffer. *)
Definition read_width (fmt : list Z) (f : flags) (args : list value) : res (Z * flags * list Z * list value) :=
  r ← (if cur fmt =? 42 then
         v ← va_int args; let '(width, args) := v in
         if width <? 0 then width ← negate_int width; Ok (width, set_left f, tail fmt, args) else Ok (width, f, tail fmt, args)
       else n ← read_number fmt 0; Ok (n.1, f, n.2, args));
  let '(width, f, fmt, args) := r in
  Ok (if etBUFSIZE - 10 <? width then etBUFSIZE - 10 else width, f, fmt, args).

(** The precision, -1 when there is none. *)
Definition read_precision (fmt : list Z) (args : list value) : res (Z * list Z * list value) :=
  if cur fmt =? 46 then
    let fmt := tail fmt in
    if cur fmt =? 42 then
      v ← va_int args; let '(precision, args) := v in
      precision ← (if precision <? 0 then negate_int precision else Ok precision); Ok (precision, tail fmt, args)
    else n ← read_number fmt 0; Ok (n.1, n.2, args)
  else Ok (-1, fmt, args).

Definition read_long (fmt : list Z) (f : flags) : flags * list Z :=
  if cur fmt =? 108 then
    let fmt := tail fmt in
    if cur fmt =? 108 then (set_longs true true f, tail fmt) else (set_longs true false f, fmt)
  else (set_longs false false f, fmt).

(** ** Integers *)

(** The value and the prefix character. *)
Definition read_integer (info : et_info) (f : flags) (args : list value) : res (Z * Z * list value) :=
  if has_flag info FLAG_SIGNED then
    r ← (if f.(longlong) || f.(long) then va_long args else va_int args);
    let '(v, args) := r in
    if v <? 0 then if v =? -9223372036854775808 then Err Overflow else Ok (- v, 45, args)
    else Ok (v, if f.(plussign) then 43 else if f.(blanksign) then 32 else 0, args)
  else
    r ← (if f.(longlong) || f.(long) then va_ulong args else va_uint args);
    let '(v, args) := r in Ok (v, 0, args).

(** The text is written from the end of [buf] towards its front. *)
Fixpoint digits_loop (fuel : nat) (cset base v : Z) (buf : list Z) (bufpt : Z) : res (list Z * Z) :=
  match fuel with
  | O => Err NoFuel
  | S fuel =>
    d ← ld aDigits (cset + v mod base); buf ← st buf (bufpt - 1) d;
    if 0 <? v / base then digits_loop fuel cset base (v / base) buf (bufpt - 1) else Ok (buf, bufpt - 1)
  end.

(** [*(--bufpt) = c] for each [c]. *)
Fixpoint push_front (cs : list Z) (buf : list Z) (bufpt : Z) : res (list Z * Z) :=
  match cs with
  | [] => Ok (buf, bufpt)
  | c :: cs => buf ← st buf (bufpt - 1) c; push_front cs buf (bufpt - 1)
  end.

Fixpoint up_to_nul (s : list Z) : list Z :=
  match s with [] => [] | c :: s => if c =? 0 then [] else c :: up_to_nul s end.

Definition conv_radix (info : et_info) (f : flags) (longvalue prefix width precision : Z) (buf : list Z) : res (list Z) :=
  let alternateform := f.(alternateform) && negb (longvalue =? 0) in
  let signed := if negb (prefix =? 0) then 1 else 0 in
  let precision := if f.(zeropad) && (precision <? width - signed) then width - signed else precision in
  let last := etBUFSIZE - 1 in
  r ← digits_loop 64 info.(charset) info.(base) longvalue buf last;
  let '(buf, bufpt) := r in
  r ← push_front (replicate (Z.to_nat (precision - (last - bufpt))) 48) buf bufpt;
  let '(buf, bufpt) := r in
  r ← push_front (if negb (prefix =? 0) then [prefix] else []) buf bufpt;
  let '(buf, bufpt) := r in
  r ← (if alternateform && negb (info.(info_prefix) =? 0) then
         let pre := up_to_nul (drop (Z.to_nat info.(info_prefix)) aPrefix) in
         c ← ld buf bufpt;
         if negb (c =? cur pre) then push_front pre buf bufpt else Ok (buf, bufpt)
       else Ok (buf, bufpt));
  let '(buf, bufpt) := r in
  slice buf bufpt (last - bufpt).

(** ** SQL strings *)

Definition is_quote (xtype : et) (ch : Z) : bool := (ch =? 39) || (bool_decide (xtype = etSQLESCAPE3) && (ch =? 92)).

Fixpoint sql_loop (xtype : et) (escarg : list Z) (m : list Z) (j : Z) : res (list Z * Z) :=
  match escarg with
  | [] => Ok (m, j)
  | ch :: escarg =>
    m ← st m j ch; let j := j + 1 in
    if is_quote xtype ch then
      if bool_decide (xtype = etSQLESCAPE4) then
        m ← st m j ch; m ← st m (j - 1) 92; sql_loop xtype escarg m (j + 1)
      else m ← st m j ch; sql_loop xtype escarg m (j + 1)
    else sql_loop xtype escarg m j
  end.

(** [n] is the number of quotes, then the size in [int] ([i] and [j] stay below
    it); a text that does not fit into [buf] gets a block of its own. *)
Definition conv_sql (xtype : et) (escarg : option (list Z)) (buf : list Z) : res (list Z) :=
  let isnull := match escarg with None => true | _ => false end in
  let s := default (bytes_of_string (if bool_decide (xtype = etSQLESCAPE2) then "NULL" else "(NULL)")) escarg in
  let needQuote := negb isnull && bool_decide (xtype = etSQLESCAPE2) in
  n ← int_of (zlen (filter (fun ch => is_quote xtype ch = true) s) + (zlen s + 1 + (if needQuote then 2 else 0)));
  let m := if etBUFSIZE <? n then replicate (Z.to_nat n) 0 else buf in
  m ← (if needQuote then st m 0 39 else Ok m);
  r ← sql_loop xtype s m (if needQuote then 1 else 0);
  let '(m, j) := r in
  r ← (if needQuote then m ← st m j 39; Ok (m, j + 1) else Ok (m, j));
  let '(m, j) := r in
  m ← st m j 0;
  slice m 0 j.

(** ** Floating point: [double] has 53 bits, [long double] (x87) has 64 *)

Definition dmul := SFmul 53 1024.
Definition ladd := SFadd 64 16384.
Definition lsub := SFsub 64 16384.
Definition lmul := SFmul 64 16384.
(** A literal is the [double] nearest to [n / d]. *)
Definition literal (n d : positive) : spec_float := SFdiv 53 1024 (S754_finite false n 0) (S754_finite false d 0).
(** From [double] to [long double], exactly; comparisons want equal formats. *)
Definition to_long (x : spec_float) : spec_float :=
  match x with S754_finite s m e => binary_normalize 64 16384 (if s : bool then Z.neg m else Z.pos m) e s | x => x end.
Definition fzero : spec_float := S754_zero false.
Definition f0_1 : spec_float := to_long (literal 1 10).
Definition f1 : spec_float := to_long (literal 1 1).
Definition f10 : spec_float := to_long (literal 10 1).
Definition f1e8 : spec_float := to_long (literal 100000000 1).
Definition f1e_8 : spec_float := to_long (literal 1 100000000).
Definition f1e32 : spec_float := to_long (literal 100000000000000000000000000000000 1).
Definition f1e_32 : spec_float := to_long (literal 1 100000000000000000000000000000000).

(** [(int) x]: towards zero, undefined outside [int]. *)
Definition to_int (x : spec_float) : res Z :=
  match x with
  | S754_zero _ => Ok 0
  | S754_finite s m e =>
    let a := if 0 <=? e then Z.pos m * 2 ^ e else Z.pos m / 2 ^ (- e) in
    let v := if s : bool then - a else a in
    if (-2147483648 <=? v) && (v <=? INT_MAX) then Ok v else Err Overflow
  | _ => Err Overflow
  end.
Definition of_int (n : Z) : spec_float := binary_normalize 64 16384 n 0 false.

(** The digit, the value behind it, the count. *)
Definition et_getdigit (val : spec_float) (cnt : Z) : res (Z * spec_float * Z) :=
  if 16 <=? cnt then Ok (48, val, cnt + 1) else
  digit ← to_int val;
  Ok (digit + 48, lmul (lsub val (of_int digit)) f10, cnt + 1).

Fixpoint rounder_loop (n : nat) (rounder : spec_float) : spec_float :=
  match n with O => rounder | S n => rounder_loop n (dmul rounder (literal 1 10)) end.

(** [while (test && limit) { realvalue *= by; exp += e; }]; [exp] leaves its
    range within [fuel] rounds. *)
Fixpoint scale (fuel : nat) (test : spec_float -> bool) (limit : Z -> bool) (by_ : spec_float) (e : Z) (realvalue : spec_float) (exp : Z) :
    res (spec_float * Z) :=
  match fuel with
  | O => Err NoFuel
  | S fuel => if test realvalue && limit exp then scale fuel test limit by_ e (lmul realvalue by_) (exp + e) else Ok (realvalue, exp)
  end.

Definition normalize (realvalue : spec_float) : res (spec_float * Z) :=
  let up exp := exp <=? 350 in
  let down exp := -350 <=? exp in
  r ← scale 1000 (SFleb f1e32) up f1e_32 32 realvalue 0;
  r ← scale 1000 (SFleb f1e8) up f1e_8 8 r.1 r.2;
  r ← scale 1000 (SFleb f10) up f0_1 1 r.1 r.2;
  r ← scale 1000 (fun x => SFltb x f1e_8) down f1e8 (-8) r.1 r.2;
  scale 1000 (fun x => SFltb x f1) down f10 (-1) r.1 r.2.

(** [*(bufpt++) = c] for each [c], and [n] digits of [val]. *)
Fixpoint put (cs : list Z) (buf : list Z) (bufpt : Z) : res (list Z * Z) :=
  match cs with
  | [] => Ok (buf, bufpt)
  | c :: cs => buf ← st buf bufpt c; put cs buf (bufpt + 1)
  end.

Fixpoint put_digits (n : nat) (val : spec_float) (nsd : Z) (buf : list Z) (bufpt : Z) : res (list Z * Z * spec_float * Z) :=
  match n with
  | O => Ok (buf, bufpt, val, nsd)
  | S n =>
    r ← et_getdigit val nsd;
    let '(d, val, nsd) := r in
    buf ← st buf bufpt (u8 d); put_digits n val nsd buf (bufpt + 1)
  end.

(** [while (bufpt[-1] == '0') *(--bufpt) = 0] *)
Fixpoint strip_zeros (fuel : nat) (buf : list Z) (bufpt : Z) : res (list Z * Z) :=
  match fuel with
  | O => Err NoFuel
  | S fuel =>
    c ← ld buf (bufpt - 1);
    if c =? 48 then buf ← st buf (bufpt - 1) 0; strip_zeros fuel buf (bufpt - 1) else Ok (buf, bufpt)
  end.

Definition strip_point (altform2 : bool) (buf : list Z) (bufpt : Z) : res (list Z * Z) :=
  r ← strip_zeros (S (Z.to_nat bufpt)) buf bufpt;
  let '(buf, bufpt) := r in
  _ ← ks_assert (0 <? bufpt);
  c ← ld buf (bufpt - 1);
  if c =? 46 then
    if altform2 then put [48] buf bufpt else buf ← st buf (bufpt - 1) 0; Ok (buf, bufpt - 1)
  else Ok (buf, bufpt).

Definition exponent (charset exp : Z) : res (list Z) :=
  c ← ld aDigits charset;
  let a := Z.abs exp in
  let hundreds := if 100 <=? a then [a / 100 + 48] else [] in
  let a := if 100 <=? a then a mod 100 else a in
  Ok ([c; if exp <? 0 then 45 else 43] ++ hundreds ++ [a / 10 + 48; a mod 10 + 48]).

(** [for (i = width; i >= nPad; i--) bufpt\[i\] = bufpt\[i - nPad\]], [n] rounds. *)
Fixpoint shift_up (n : nat) (i nPad : Z) (buf : list Z) : res (list Z) :=
  match n with
  | O => Ok buf
  | S n => c ← ld buf (i - nPad); buf ← st buf i c; shift_up n (i - 1) nPad buf
  end.

Definition conv_float (xtype : et) (info : et_info) (f : flags) (realvalue : spec_float) (width precision : Z) (buf : list Z) : res (list Z) :=
  let precision := if precision <? 0 then 6 else precision in
  let precision := if etBUFSIZE / 2 - 10 <? precision then etBUFSIZE / 2 - 10 else precision in
  let realvalue := to_long realvalue in
  let negative := SFltb realvalue fzero in
  let realvalue := if negative then SFopp realvalue else realvalue in
  let prefix := if negative then [45] else if f.(plussign) then [43] else if f.(blanksign) then [32] else [] in
  let precision := if bool_decide (xtype = etGENERIC) && (0 <? precision) then precision - 1 else precision in
  let rounder := to_long (rounder_loop (Z.to_nat precision) (literal 1 2)) in
  let realvalue := if bool_decide (xtype = etFLOAT) then ladd realvalue rounder else realvalue in
  r ← (if SFltb fzero realvalue then normalize realvalue else Ok (realvalue, 0));
  let '(realvalue, exp) := r in
  if (350 <? exp) || (exp <? -350) then Ok (bytes_of_string "NaN") else
  let flag_exp := bool_decide (xtype = etEXP) in
  let '(realvalue, exp) :=
    if bool_decide (xtype = etFLOAT) then (realvalue, exp) else
    let realvalue := ladd realvalue rounder in
    if SFleb f10 realvalue then (lmul realvalue f0_1, exp + 1) else (realvalue, exp) in
  let flag_rtz := bool_decide (xtype = etGENERIC) && negb f.(alternateform) in
  let '(xtype, precision) :=
    if bool_decide (xtype = etGENERIC) then
      if (exp <? -4) || (precision <? exp) then (etEXP, precision) else (etFLOAT, precision - exp)
    else (xtype, precision) in
  let e2 := if bool_decide (xtype = etEXP) then 0 else exp in
  let flag_dp := (0 <? precision) || f.(alternateform) || f.(altform2) in
  r ← put prefix buf 0;
  let '(buf, bufpt) := r in
  r ← (if e2 <? 0 then r ← put [48] buf bufpt; Ok (r.1, r.2, realvalue, 0) else put_digits (Z.to_nat (e2 + 1)) realvalue 0 buf bufpt);
  let '(buf, bufpt, realvalue, nsd) := r in
  r ← put (if flag_dp then [46] else []) buf bufpt;
  let '(buf, bufpt) := r in
  let zeros := Z.max 0 (Z.min (- (Z.min e2 (-1) + 1)) precision) in
  r ← put (replicate (Z.to_nat zeros) 48) buf bufpt;
  let '(buf, bufpt) := r in
  r ← put_digits (Z.to_nat (precision - zeros)) realvalue nsd buf bufpt;
  let '(buf, bufpt, _, _) := r in
  r ← (if flag_rtz && flag_dp then strip_point f.(altform2) buf bufpt else Ok (buf, bufpt));
  let '(buf, bufpt) := r in
  r ← (if flag_exp || (bool_decide (xtype = etEXP) && negb (exp =? 0)) then e ← exponent info.(charset) exp; put e buf bufpt else Ok (buf, bufpt));
  let '(buf, bufpt) := r in
  buf ← st buf bufpt 0;
  let length := bufpt in
  if f.(zeropad) && negb f.(leftjustify) && (length <? width) then
    let nPad := width - length in
    buf ← shift_up (Z.to_nat (length + 1)) width nPad buf;
    r ← put (replicate (Z.to_nat nPad) 48) buf (zlen prefix);
    slice r.1 0 width
  else slice buf 0 length.

(** ** The interpreter *)

(** [buf] of a conversion is uninitialised; what is read of it was written before. *)
Definition new_buf : list Z := replicate (Z.to_nat etBUFSIZE) 0.

(** The text and the width of a string. From 2^31 characters on its length may be
    negative: it has no text then, and the spaces of its field count from there. *)
Definition conv_string (width precision : Z) (s : list Z) : res (list Z * Z) :=
  let length := s32 (zlen s) in
  let length := if (0 <=? precision) && (precision <? length) then precision else length in
  if length <? 0 then nspace ← int_of (width - length); Ok ([], nspace) else Ok (take (Z.to_nat length) s, width).

(** One conversion: its text, the width left, the arguments left, and the count
    stored by [%n]. [count] is the number of characters so far. *)
Definition convert (info : et_info) (f : flags) (width precision count : Z) (args : list value) :
    res (list Z * Z * list value * list (Z * Z)) :=
  match info.(type) with
  | etRADIX | etPOINTER =>
    let f := if bool_decide (info.(type) = etPOINTER) then set_longs true true f else f in
    r ← read_integer info f args;
    let '(longvalue, prefix, args) := r in
    t ← conv_radix info f longvalue prefix width precision new_buf; Ok (t, width, args, [])
  | etFLOAT | etEXP | etGENERIC =>
    r ← va_double args;
    let '(x, args) := r in
    t ← conv_float info.(type) info f x width precision new_buf; Ok (t, width, args, [])
  | etSIZE =>
    match args with VCount p :: args => Ok ([], 0, args, [(p, count)]) | _ => Err BadArgument end
  | etPERCENT => Ok ([37], width, args, [])
  | etCHARX =>
    r ← va_int args;
    let '(c, args) := r in
    r ← put (u8 c :: replicate (Z.to_nat (precision - 1)) (u8 c)) new_buf 0;
    t ← slice r.1 0 (if 0 <=? precision then precision else 1);
    Ok (t, width, args, [])
  | etSTRING | etDYNSTRING =>
    r ← va_str args;
    let '(s, args) := r in
    t ← conv_string width precision (default [] s); Ok (t.1, t.2, args, [])
  | etSQLESCAPE | etSQLESCAPE2 | etSQLESCAPE3 | etSQLESCAPE4 =>
    r ← va_str args;
    let '(s, args) := r in
    t ← conv_sql info.(type) s new_buf; Ok (t, width, args, [])
  end.

(** The spaces of a field, [etSPACESIZE] at a time. *)
Definition etSPACESIZE : Z := 73.
Fixpoint pad (fuel : nat) (nspace : Z) : list (list Z) :=
  match fuel with
  | O => []
  | S fuel =>
    if nspace <=? 0 then [] else
    if etSPACESIZE <=? nspace then replicate 73 32 :: pad fuel (nspace - etSPACESIZE) else [replicate (Z.to_nat nspace) 32]
  end.

Definition field_text (f : flags) (width : Z) (t : list Z) : list (list Z) :=
  let nspace := width - zlen t in
  let spaces := pad (S (Z.to_nat (nspace / etSPACESIZE))) nspace in
  (if f.(leftjustify) then [] else spaces) ++ (if 0 <? zlen t then [t] else []) ++ (if f.(leftjustify) then spaces else []).

Definition total (chunks : list (list Z)) : Z := zlen (concat chunks).

Fixpoint plain_text (fmt : list Z) : list Z * list Z :=
  match fmt with
  | [] => ([], [])
  | c :: rest => if c =? 37 then ([], fmt) else let '(a, b) := plain_text rest in (c :: a, b)
  end.

(** [find] in the table, by the linear search. *)
Definition lookup_info (c : Z) : option et_info := List.find (fun i => i.(fmttype) =? c) fmtinfo.

(** What [vxprintf] hands to its consumer, piece by piece, its result and the
    counts stored by [%n]. The consumer returns nothing, so it does not matter
    here. [fmt] is the format without its end. [count] is the number of the
    characters so far, [total o], in [int]. *)
Record output := Output { chunks : list (list Z); ret : Z; stored : list (Z * Z) }.

Fixpoint format_loop (fuel : nat) (useExtended : bool) (fmt : list Z) (args : list value) (o : list (list Z)) (w : list (Z * Z)) : res output :=
  match fuel with
  | O => Err NoFuel
  | S fuel =>
    let '(t, fmt) := plain_text fmt in
    let o := if 0 <? zlen t then o ++ [t] else o in
    count ← int_of (total o);
    match fmt with
    | [] => Ok (Output o count w)
    | _ :: fmt =>
      if cur fmt =? 0 then _ ← int_of (count + 1); Ok (Output (o ++ [[37]]) (-1) w) else
      let '(f, fmt) := read_flags fmt no_flags in
      r ← read_width fmt f args;
      let '(width, f, fmt, args) := r in
      r ← read_precision fmt args;
      let '(precision, fmt, args) := r in
      let '(f, fmt) := read_long fmt f in
      match lookup_info (cur fmt) with
      | None => Ok (Output o (-1) w)
      | Some info =>
        if negb useExtended && has_flag info FLAG_INTERN then Ok (Output o (-1) w) else
        let precision := if (etBUFSIZE - 40 <? precision) && negb (has_flag info FLAG_STRING) then etBUFSIZE - 40 else precision in
        r ← convert info f width precision count args;
        let '(t, width, args, w') := r in
        format_loop fuel useExtended (tail fmt) args (o ++ field_text f width t) (w ++ w')
      end
    end
  end.

Definition vxprintf (useExtended : bool) (fmt : list Z) (args : list value) : res output :=
  o ← format_loop (S (length fmt)) useExtended fmt args [] [];
  Ok (Output ([] :: o.(chunks)) o.(ret) o.(stored)).

(** ** Collecting the text *)

(** [zText] with its memory; [based]: it still is the buffer given. *)
Record sgMprintf := SgMprintf { zText : option (list Z); based : bool; nChar : Z; nTotal : Z; nAlloc : Z }.

(** [xRealloc]: no function, or one that has memory for some sizes. *)
Definition realloc (available : Z -> bool) (old : option (list Z)) (size : Z) : option (list Z) :=
  if available size then
    let m := default [] old in Some (take (Z.to_nat size) m ++ replicate (Z.to_nat size - length m) 0)
  else None.

(** How many characters there is room for, and where, after asking for more memory. *)
Definition make_room (xRealloc : option (Z -> bool)) (pM : sgMprintf) (nNewChar : Z) : res (Z * option (list Z) * bool * Z) :=
  need ← int_of (pM.(nChar) + nNewChar + 1);
  if pM.(nAlloc) <? need then
    match xRealloc with
    | None => Ok (pM.(nAlloc) - pM.(nChar) - 1, pM.(zText), pM.(based), pM.(nAlloc))
    | Some available =>
      nAlloc ← int_of (pM.(nChar) + nNewChar * 2 + 1);
      if pM.(based) then
        Ok (nNewChar, option_map (fun m => take (Z.to_nat pM.(nChar)) (default [] pM.(zText)) ++ drop (Z.to_nat pM.(nChar)) m) (realloc available None nAlloc), false, nAlloc)
      else
        Ok (nNewChar, match realloc available pM.(zText) nAlloc with Some zNew => Some zNew | None => pM.(zText) end, false, nAlloc)
    end
  else Ok (nNewChar, pM.(zText), pM.(based), pM.(nAlloc)).

Definition mout (xRealloc : option (Z -> bool)) (pM : sgMprintf) (zNewText : list Z) : res sgMprintf :=
  nTotal ← int_of (pM.(nTotal) + zlen zNewText);
  room ← make_room xRealloc pM (zlen zNewText);
  let '(nNewChar, zText, based, nAlloc) := room in
  match zText with
  | None => Ok (SgMprintf zText based pM.(nChar) nTotal nAlloc)
  | Some m =>
    r ← (if 0 <? nNewChar then m ← blit m pM.(nChar) (take (Z.to_nat nNewChar) zNewText); Ok (m, pM.(nChar) + nNewChar) else Ok (m, pM.(nChar)));
    let '(m, nChar) := r in
    m ← st m nChar 0;
    Ok (SgMprintf (Some m) based nChar nTotal nAlloc)
  end.

Fixpoint mout_all (xRealloc : option (Z -> bool)) (pM : sgMprintf) (chunks : list (list Z)) : res sgMprintf :=
  match chunks with [] => Ok pM | t :: chunks => pM ← mout xRealloc pM t; mout_all xRealloc pM chunks end.

(** The text, as the memory it is in; the result of [vxprintf] is not looked at. *)
Definition base_vprintf (xRealloc : option (Z -> bool)) (useInternal : bool) (zInitBuf : list Z) (nInitBuf : Z) (zFormat : list Z) (ap : list value) :
    res (option (list Z)) :=
  o ← vxprintf useInternal zFormat ap;
  sM ← mout_all xRealloc (SgMprintf (Some zInitBuf) true 0 0 nInitBuf) o.(chunks);
  match xRealloc with
  | None => Ok sM.(zText)
  | Some available =>
    if sM.(based) then
      Ok (option_map (fun m => take (Z.to_nat (sM.(nChar) + 1)) (default [] sM.(zText)) ++ drop (Z.to_nat (sM.(nChar) + 1)) m) (realloc available None (sM.(nChar) + 1)))
    else
      limit ← int_of (sM.(nChar) + 10);
      if limit <? sM.(nAlloc) then
        Ok (match realloc available sM.(zText) (sM.(nChar) + 1) with Some zNew => Some zNew | None => sM.(zText) end)
      else Ok sM.(zText)
  end.

Definition ks_vmprintf (available : Z -> bool) (zFormat : list Z) (ap : list value) : res (option (list Z)) :=
  base_vprintf (Some available) false new_buf etBUFSIZE zFormat ap.
Definition ks_vsnprintfv (zBuf : list Z) (n : Z) (zFormat : list Z) (ap : list value) : res (option (list Z)) :=
  base_vprintf None false zBuf n zFormat ap.

(** The variants with variable arguments are the same calls. [pool_realloc] gets
    and resizes blocks of a pool; a block that it got passes [ks_pool_verify]. *)
Definition ks_mprintf := ks_vmprintf.
Definition ks_snprintfv := ks_vsnprintfv.
Definition ks_vpprintf (pool_has : Z -> bool) (zFormat : list Z) (ap : list value) : res (option (list Z)) :=
  base_vprintf (Some pool_has) false new_buf etBUFSIZE zFormat ap.
Definition ks_pprintf := ks_vpprintf.

Definition text_of (r : res (option (list Z))) : res (list Z) :=
  m ← r; match m with Some m => cstr m 0 | None => Err NullDeref end.
Definition printed (fmt : String.string) (args : list value) : res (list Z) := text_of (ks_vmprintf (fun _ => true) (bytes_of_string fmt) args).
Definition str (s : String.string) : value := VStr (Some (bytes_of_string s)).
Definition double (n d : positive) : value := VDouble (literal n d).

Example printf_1 : printed "%d|%5d|%-5d|%05d|%+d|%x|%#X|%o|%.3d|%c|%s|%.2s|%%" [VInt 42; VInt (-7); VInt 7; VInt (-7); VInt 3; VInt 255; VInt 255; VInt 8; VInt 5; VInt 65; str "abc"; str "abc"]
  = Ok (bytes_of_string "42|   -7|7    |-0007|+3|ff|0XFF|10|005|A|abc|ab|%").
Proof. vm_compute. reflexivity. Qed.
Example printf_2 : printed "%f|%.2f|%e|%g|%g|%8.3f|%08.3f|%.0f" [double 31415926535 10000000000; double 1 3; double 12345 1; double 1 10; double 1000000000 1; double 31415926535 10000000000; double 5 2; double 5 2]
  = Ok (bytes_of_string "3.141593|0.33|1.234500e+04|0.1|1e+09|   3.142|0002.500|3").
Proof. vm_compute. reflexivity. Qed.

(** ** Writing towards the front of the buffer *)

Lemma st_last front x (t : list Z) c : st ((front ++ [x]) ++ t) (zlen (front ++ [x]) - 1) c = Ok (front ++ c :: t).
Proof. rewrite <- app_assoc. cbn [app]. apply st_app_mid. rewrite zlen_app, zlen_cons, zlen_nil. lia. Qed.

Lemma snoc_of (l : list Z) : 0 < zlen l -> exists front x, l = front ++ [x].
Proof.
  intros H. destruct l as [|x l _] using rev_ind; [done|]. by exists l, x.
Qed.

Lemma push_front_run : forall cs front t, zlen cs <= zlen front ->
  exists front', push_front cs (front ++ t) (zlen front) = Ok (front' ++ rev cs ++ t, zlen front') /\ zlen front = zlen front' + zlen cs.
Proof.
  induction cs as [|c cs IH]; intros front t Hl; cbn [push_front].
  { exists front. rewrite zlen_nil. split; [done|lia]. }
  rewrite zlen_cons in *. pose proof (zlen_nonneg cs). destruct (snoc_of front) as (front0 & x & ->); [lia|]. rewrite st_last. cbn [mbind res_bind].
  rewrite zlen_app, zlen_cons, zlen_nil in Hl. replace (zlen (front0 ++ [x]) - 1) with (zlen front0) by (rewrite zlen_app, zlen_cons, zlen_nil; lia).
  destruct (IH front0 (c :: t)) as (front' & E & El); [lia|]. exists front'. rewrite E. cbn [rev]. rewrite <- !app_assoc. split; [done|].
  rewrite zlen_app, zlen_cons, zlen_nil. lia.
Qed.

(** ** Digits *)

(** The number that digits write, the most significant first. *)
Definition num (base : Z) (ds : list Z) : Z := fold_left (fun a d => a * base + d) ds 0.
Definition digit_chars (cset : Z) (ds : list Z) : list Z := map (fun d => nth (Z.to_nat (cset + d)) aDigits 0) ds.
(** The digits of [v], without leading zeros. *)
Definition is_digits (base v : Z) (ds : list Z) : Prop :=
  Forall (fun d => 0 <= d < base) ds /\ num base ds = v /\ (ds = [0] \/ exists d ds', ds = d :: ds' /\ d <> 0).

Lemma num_snoc base ds d : num base (ds ++ [d]) = num base ds * base + d.
Proof. unfold num. by rewrite fold_left_app. Qed.

Lemma digit_chars_snoc cset ds d : digit_chars cset (ds ++ [d]) = digit_chars cset ds ++ [nth (Z.to_nat (cset + d)) aDigits 0].
Proof. unfold digit_chars. by rewrite map_app. Qed.

Lemma digit_chars_length cset ds : zlen (digit_chars cset ds) = zlen ds.
Proof. unfold zlen, digit_chars. by rewrite length_map. Qed.

Lemma digits_loop_run cset base : 2 <= base -> 0 <= cset -> cset + base <= 32 -> forall fuel v front t,
  0 <= v < base ^ Z.of_nat fuel -> (0 < fuel)%nat -> Z.of_nat fuel <= zlen front ->
  exists front' ds, digits_loop fuel cset base v (front ++ t) (zlen front) = Ok (front' ++ digit_chars cset ds ++ t, zlen front') /\
    zlen front = zlen front' + zlen ds /\ zlen ds <= Z.of_nat fuel /\ is_digits base v ds.
Proof.
  intros Hb Hc Hcb. induction fuel as [|fuel IH]; intros v front t Hv Hf Hl; [lia|]. cbn [digits_loop].
  assert (Hm : 0 <= v mod base < base) by (apply Z.mod_pos_bound; lia).
  rewrite (ld_nth aDigits _ 0) by (change (zlen aDigits) with 32; lia). cbn [mbind res_bind].
  destruct (snoc_of front) as (front0 & x & ->); [lia|]. rewrite st_last. cbn [mbind res_bind].
  replace (zlen (front0 ++ [x]) - 1) with (zlen front0) by (rewrite zlen_app, zlen_cons, zlen_nil; lia).
  rewrite zlen_app, zlen_cons, zlen_nil in *. assert (Hdm : v = v / base * base + v mod base) by (rewrite (Z.div_mod v base) at 1; lia).
  destruct (Z.ltb_spec 0 (v / base)) as [Hd|Hd].
  - destruct fuel as [|fuel'].
    { exfalso. change (Z.of_nat 1) with 1 in Hv. rewrite Z.pow_1_r in Hv. rewrite Z.div_small in Hd by done. lia. }
    destruct (IH (v / base) front0 (nth (Z.to_nat (cset + v mod base)) aDigits 0 :: t)) as (front' & ds & E & El & El' & Hds & Hn & Hh).
    { split; [lia|]. apply Z.div_lt_upper_bound; [lia|]. rewrite <- Z.pow_succ_r, <- Nat2Z.inj_succ by lia. lia. }
    { lia. } { lia. }
    exists front', (ds ++ [v mod base]). rewrite E, digit_chars_snoc, <- app_assoc, zlen_app. change (zlen [v mod base]) with 1. change (zlen (@nil Z)) with 0 in *.
    split; [done|]. split; [lia|]. split; [lia|]. split; [apply Forall_app; split; [done|by constructor]|]. rewrite num_snoc, Hn.
    split; [lia|]. right. destruct Hh as [->|(d & ds' & -> & Hd0)]; [unfold num in Hn; simpl in Hn; lia|]. by exists d, (ds' ++ [v mod base]).
  - exists front0, [v mod base]. split; [done|]. change (zlen [v mod base]) with 1. change (zlen (@nil Z)) with 0. split; [lia|]. split; [lia|]. assert (E0 : v / base = 0) by (assert (0 <= v / base) by (apply Z.div_pos; lia); lia).
    split; [by constructor|]. split; [unfold num; cbn; lia|]. destruct (Z.eq_dec (v mod base) 0) as [->|Hne]; [by left|]. right. by exists (v mod base), [].
Qed.

(** ** The text of an integer *)

Definition is_radix (info : et_info) : Prop := In info fmtinfo /\ (type info = etRADIX \/ type info = etPOINTER).

Lemma radix_info info : is_radix info -> 2 <= base info /\ 8 <= base info /\ 0 <= charset info /\ charset info + base info <= 32 /\
  (info_prefix info = 0 \/ info_prefix info = 1 \/ info_prefix info = 2 \/ info_prefix info = 4).
Proof.
  intros [Hin Ht]. unfold fmtinfo in Hin. cbn [In] in Hin. intuition (subst info; cbn in *; (discriminate || lia)).
Qed.

(** The prefix of the alternate form: [0x], [0X], [0]. *)
Definition alt_text (info : et_info) : list Z := rev (up_to_nul (drop (Z.to_nat (info_prefix info)) aPrefix)).

(** [zeros]: as many as the precision, or the width with the flag [0], asks for.
    The alternate form has its prefix unless the text begins with it. *)
Definition radix_text (info : et_info) (f : flags) (prefix width precision v : Z) (ds t : list Z) : Prop :=
  let sign := if prefix =? 0 then [] else [prefix] in
  let wanted := if f.(zeropad) && (precision <? width - zlen sign) then width - zlen sign else precision in
  let body := sign ++ replicate (Z.to_nat (wanted - zlen ds)) 48 ++ digit_chars (charset info) ds in
  is_digits (base info) v ds /\
  t = (if f.(alternateform) && negb (v =? 0) && negb (info_prefix info =? 0) && negb (cur body =? cur (rev (alt_text info))) then alt_text info else []) ++ body.

Lemma is_digits_pos base v ds : is_digits base v ds -> 0 < zlen ds.
Proof. intros (_ & _ & [->|(d & ds' & -> & _)]); [done|]. rewrite zlen_cons. pose proof (zlen_nonneg ds'). lia. Qed.

Lemma conv_radix_run info f v prefix width precision buf :
  is_radix info -> 0 <= v < 2 ^ 64 -> zlen buf = etBUFSIZE -> width <= etBUFSIZE - 10 -> precision <= etBUFSIZE - 10 ->
  exists ds t, conv_radix info f v prefix width precision buf = Ok t /\ radix_text info f prefix width precision v ds t.
Proof.
  intros Hi Hv Hbuf Hw Hp. destruct (radix_info info Hi) as (Hb2 & Hb8 & Hc & Hcb & Hpre). unfold conv_radix. unfold etBUFSIZE in *.
  set (signed := if negb (prefix =? 0) then 1 else 0). assert (Hs : 0 <= signed <= 1) by (unfold signed; destruct (_ =? 0); cbn; lia).
  set (wanted := if zeropad f && (precision <? width - signed) then width - signed else precision).
  assert (Hwant : wanted + signed <= 341) by (unfold wanted; destruct (_ && _); lia).
  destruct (snoc_of buf) as (front & x & ->); [lia|]. rewrite zlen_app, zlen_cons, zlen_nil in Hbuf. replace (350 - 1) with (zlen front) by lia.
  destruct (digits_loop_run (charset info) (base info) Hb2 Hc Hcb 64 v front [x]) as (f1 & ds & -> & E1 & Hd1 & Hds); [|lia|lia|].
  { split; [lia|]. apply Z.lt_le_trans with (8 ^ Z.of_nat 64); [|apply Z.pow_le_mono_l; lia]. apply Z.lt_le_trans with (2 ^ 64); [lia|].
    change 8 with (2 ^ 3). rewrite <- Z.pow_mul_r by lia. apply Z.pow_le_mono_r; lia. }
  cbn [mbind res_bind]. replace (zlen front - zlen f1) with (zlen ds) by lia.
  set (zs := replicate (Z.to_nat (wanted - zlen ds)) 48). assert (Hz : zlen zs = Z.max 0 (wanted - zlen ds)) by (unfold zs; rewrite zlen_replicate; lia).
  pose proof (is_digits_pos _ _ _ Hds) as Hds0.
  destruct (push_front_run zs f1 (digit_chars (charset info) ds ++ [x])) as (f2 & -> & E2); [lia|]. cbn [mbind res_bind].
  destruct (push_front_run (if negb (prefix =? 0) then [prefix] else []) f2 (rev zs ++ digit_chars (charset info) ds ++ [x])) as (f3 & -> & E3).
  { unfold signed in *. destruct (prefix =? 0); cbn [negb] in *; rewrite ?zlen_cons, ?zlen_nil; lia. }
  cbn [mbind res_bind]. set (sign := if prefix =? 0 then [] else [prefix]).
  assert (Hsign : rev (if negb (prefix =? 0) then [prefix] else []) = sign) by (unfold sign; by destruct (prefix =? 0)).
  assert (Hsl : zlen sign = signed) by (unfold sign, signed; by destruct (prefix =? 0)).
  assert (Hsl' : zlen (if negb (prefix =? 0) then [prefix] else []) = signed) by (unfold signed; by destruct (prefix =? 0)). rewrite Hsign.
  assert (Hrev : rev zs = zs) by (unfold zs; rewrite rev_alt; apply reverse_replicate). rewrite Hrev. set (body := sign ++ zs ++ digit_chars (charset info) ds).
  assert (Hbl : zlen f3 + zlen body = zlen front).
  { unfold body. rewrite !zlen_app, digit_chars_length. lia. }
  assert (Hbody : f3 ++ sign ++ zs ++ digit_chars (charset info) ds ++ [x] = f3 ++ body ++ [x]) by (unfold body; by rewrite <- !app_assoc). rewrite Hbody.
  assert (Hrt : forall t, t = (if f.(alternateform) && negb (v =? 0) && negb (info_prefix info =? 0) && negb (cur body =? cur (rev (alt_text info))) then alt_text info else []) ++ body ->
    radix_text info f prefix width precision v ds t).
  { intros t ->. unfold radix_text. fold sign. rewrite Hsl. fold wanted. fold zs. fold body. split; [done|reflexivity]. }
  exists ds. destruct (alternateform f && negb (v =? 0) && negb (info_prefix info =? 0)) eqn:Ea; cbn [andb] in Hrt.
  - destruct body as [|c b] eqn:Eb; [unfold body in Eb; destruct sign; [destruct zs; [|done]; destruct ds; done|done]|]. cbn [app]. rewrite ld_app_mid by done. cbn [mbind res_bind].
    unfold alt_text in Hrt. rewrite rev_involutive in Hrt. cbn [cur] in Hrt.
    set (pre := up_to_nul (drop (Z.to_nat (info_prefix info)) aPrefix)) in *. assert (Hprel : zlen pre <= 3) by (unfold pre; destruct Hpre as [-> | [-> | [-> | ->]]]; apply Z.leb_le; vm_compute; reflexivity).
    destruct (negb (c =? cur pre)); cbn [app] in Hrt.
    + destruct (push_front_run pre f3 (c :: b ++ [x])) as (f4 & -> & El4); [lia|]. cbn [mbind res_bind].
      exists (rev pre ++ c :: b). split; [|by apply Hrt]. change (c :: b ++ [x]) with ((c :: b) ++ [x]). rewrite (app_assoc (rev pre)).
      apply slice_app; [done|]. rewrite zlen_app. assert (zlen (rev pre) = zlen pre) by (unfold zlen; by rewrite length_rev). lia.
    + cbn [mbind res_bind]. exists (c :: b). split; [|by apply Hrt]. change (c :: b ++ [x]) with ((c :: b) ++ [x]). apply slice_app; [done|lia].
  - cbn [mbind res_bind]. exists body. split; [|by apply Hrt]. apply slice_app; [done|lia].
Qed.

(** ** SQL strings *)

(** Every quote twice ([%q], [%Q]), also every backslash ([%w]), or a backslash
    in front of every quote ([%y]). *)
Definition sql_char (xtype : et) (c : Z) : list Z :=
  if is_quote xtype c then if bool_decide (xtype = etSQLESCAPE4) then [92; c] else [c; c] else [c].
Definition sql_escape (xtype : et) (s : list Z) : list Z := concat (map (sql_char xtype) s).

Lemma sql_escape_length xtype s : zlen (sql_escape xtype s) = zlen s + zlen (filter (fun c => is_quote xtype c = true) s).
Proof.
  unfold sql_escape. induction s as [|c s IH]; [done|]. cbn [map concat]. rewrite zlen_app, IH, zlen_cons. unfold sql_char.
  destruct (is_quote xtype c) eqn:E.
  - rewrite filter_cons_True by done. rewrite zlen_cons. destruct (bool_decide _); change (zlen [_; _]) with 2; lia.
  - rewrite filter_cons_False by congruence. change (zlen [c]) with 1. lia.
Qed.

Lemma int_of_ok z : -2147483648 <= z <= INT_MAX -> int_of z = Ok z.
Proof. intros H. unfold int_of. destruct (Z.leb_spec (-2147483648) z); [|lia]. by destruct (Z.leb_spec z INT_MAX); [|lia]. Qed.

Lemma int_of_cases z : int_of z = Ok z /\ -2147483648 <= z <= INT_MAX \/ int_of z = Err Overflow.
Proof. unfold int_of. destruct (Z.leb_spec (-2147483648) z); [|by right]. destruct (Z.leb_spec z INT_MAX); [by left|by right]. Qed.

Lemma sql_step xtype c s acc rest : zlen (sql_char xtype c) <= zlen rest ->
  sql_loop xtype (c :: s) (acc ++ rest) (zlen acc) =
  sql_loop xtype s ((acc ++ sql_char xtype c) ++ drop (length (sql_char xtype c)) rest) (zlen (acc ++ sql_char xtype c)).
Proof.
  intros Hl. cbn [sql_loop]. unfold sql_char in *. destruct (is_quote xtype c); [destruct (bool_decide (xtype = etSQLESCAPE4))|].
  - destruct rest as [|x [|y rest]]; try (exfalso; revert Hl; unfold zlen; simpl; lia).
    rewrite st_app_mid by done. cbn [mbind res_bind]. change (acc ++ c :: y :: rest) with (acc ++ [c] ++ y :: rest).
    rewrite (app_assoc acc), st_app_mid by (rewrite zlen_app; done). cbn [mbind res_bind]. rewrite <- app_assoc. cbn [app].
    rewrite st_app_mid by lia. cbn [mbind res_bind]. rewrite zlen_app, <- app_assoc. change (zlen [92; c]) with (1 + 1). by rewrite Z.add_assoc.
  - destruct rest as [|x [|y rest]]; try (exfalso; revert Hl; unfold zlen; simpl; lia).
    rewrite st_app_mid by done. cbn [mbind res_bind]. change (acc ++ c :: y :: rest) with (acc ++ [c] ++ y :: rest).
    rewrite (app_assoc acc), st_app_mid by (rewrite zlen_app; done). cbn [mbind res_bind]. rewrite zlen_app, <- !app_assoc. change (zlen [c; c]) with (1 + 1). by rewrite Z.add_assoc.
  - destruct rest as [|x rest]; try (exfalso; revert Hl; unfold zlen; simpl; lia).
    rewrite st_app_mid by done. cbn [mbind res_bind]. rewrite zlen_app, <- app_assoc. done.
Qed.

Lemma sql_loop_run xtype : forall s acc rest, zlen (sql_escape xtype s) <= zlen rest ->
  sql_loop xtype s (acc ++ rest) (zlen acc) =
  Ok ((acc ++ sql_escape xtype s) ++ drop (length (sql_escape xtype s)) rest, zlen (acc ++ sql_escape xtype s)).
Proof.
  induction s as [|c s IH]; intros acc rest Hl; [by rewrite !app_nil_r|].
  assert (E : sql_escape xtype (c :: s) = sql_char xtype c ++ sql_escape xtype s) by done. rewrite E in Hl |- *. rewrite zlen_app in Hl.
  pose proof (zlen_nonneg (sql_escape xtype s)). rewrite sql_step, IH by (first [lia | unfold zlen in *; rewrite length_drop; lia]).
  by rewrite drop_drop, length_app, <- !app_assoc.
Qed.

(** The text of [%q], [%Q], [%w], [%y]: no place is written outside the buffer. *)
Definition sql_text (xtype : et) (escarg : option (list Z)) : list Z :=
  match escarg with
  | None => bytes_of_string (if bool_decide (xtype = etSQLESCAPE2) then "NULL" else "(NULL)")
  | Some s => if bool_decide (xtype = etSQLESCAPE2) then [39] ++ sql_escape xtype s ++ [39] else sql_escape xtype s
  end.

Lemma conv_sql_cases xtype escarg buf : zlen buf = etBUFSIZE ->
  conv_sql xtype escarg buf = if zlen (sql_text xtype escarg) + 1 <=? INT_MAX then Ok (sql_text xtype escarg) else Err Overflow.
Proof.
  intros Hbuf. unfold conv_sql.
  set (s := default (bytes_of_string (if bool_decide (xtype = etSQLESCAPE2) then "NULL" else "(NULL)")) escarg).
  set (nq := negb match escarg with None => true | _ => false end && bool_decide (xtype = etSQLESCAPE2)).
  set (n := zlen _ + (zlen s + 1 + (if nq then 2 else 0))).
  set (q := if nq then [39] else []). set (e := sql_escape xtype s).
  assert (Hn : n = zlen e + 1 + 2 * zlen q) by (unfold n, e, q; rewrite sql_escape_length; destruct nq; [change (zlen [39]) with 1|change (zlen (@nil Z)) with 0]; lia).
  assert (Ht : sql_text xtype escarg = q ++ e ++ q).
  { unfold sql_text, q, e, s, nq. destruct escarg as [s'|]; cbn [negb andb default]; [by destruct (bool_decide _); rewrite ?app_nil_r|].
    rewrite app_nil_r. by destruct xtype. }
  pose proof (zlen_nonneg e). pose proof (zlen_nonneg q).
  replace (zlen (sql_text xtype escarg) + 1) with n by (rewrite Ht, !zlen_app; lia). unfold int_of.
  destruct (Z.leb_spec (-2147483648) n); [|lia]. destruct (Z.leb_spec n INT_MAX); [|done]. cbn [andb mbind res_bind].
  set (m := if etBUFSIZE <? n then replicate (Z.to_nat n) 0 else buf).
  assert (Hm : n <= zlen m) by (unfold m; destruct (Z.ltb_spec etBUFSIZE n); [rewrite zlen_replicate; lia|lia]).
  assert (E1 : (if nq then st m 0 39 else Ok m) = Ok (q ++ drop (length q) m)).
  { unfold q in *. destruct nq; [|done]. destruct m as [|x m]; [exfalso; change (zlen [39]) with 1 in *; rewrite zlen_nil in Hm; lia|done]. }
  rewrite E1. cbn [mbind res_bind]. replace (if nq then 1 else 0) with (zlen q) by (unfold q; by destruct nq).
  assert (Hd : forall k (l : list Z), (k <= length l)%nat -> zlen (drop k l) = zlen l - Z.of_nat k) by (intros k l Hk; unfold zlen; rewrite length_drop; lia).
  assert (Hq1 : (length q <= length m)%nat) by (unfold zlen in *; lia).
  clearbody n m. rewrite sql_loop_run by (fold e; rewrite Hd by done; unfold zlen in *; lia). cbn [mbind res_bind]. fold e. rewrite drop_drop.
  set (r := drop (length q + length e) m). assert (Hr : zlen r = zlen m - zlen q - zlen e) by (unfold r; rewrite Hd; unfold zlen in *; lia).
  assert (E2 : (if nq then m ← st ((q ++ e) ++ r) (zlen (q ++ e)) 39; Ok (m, zlen (q ++ e) + 1) else Ok ((q ++ e) ++ r, zlen (q ++ e))) =
    Ok ((q ++ e ++ q) ++ drop (length q) r, zlen (q ++ e ++ q))).
  { unfold q in *. destruct nq; [|by rewrite !app_nil_r]. change (zlen [39]) with 1 in *. destruct r as [|x r]; [rewrite zlen_nil in Hr; lia|].
    rewrite st_app_mid by done. cbn [mbind res_bind]. rewrite !zlen_app. rewrite <- !app_assoc. do 2 f_equal. change (zlen [39]) with 1. lia. }
  rewrite E2. cbn [mbind res_bind]. rewrite <- Ht. assert (Hr2 : 0 < zlen (drop (length q) r)) by (rewrite Hd; unfold zlen in *; lia).
  destruct (drop (length q) r) as [|x r2]; [done|]. rewrite st_app_mid by done. cbn [mbind res_bind].
  apply (slice_app [] (sql_text xtype escarg) (0 :: r2)); done.
Qed.

(** The text of a string of less than 2^29 or so characters. *)
Lemma conv_sql_run xtype escarg buf : zlen buf = etBUFSIZE -> zlen (sql_text xtype escarg) < INT_MAX -> conv_sql xtype escarg buf = Ok (sql_text xtype escarg).
Proof. intros Hb Hl. rewrite conv_sql_cases by done. by destruct (Z.leb_spec (zlen (sql_text xtype escarg) + 1) INT_MAX); [|lia]. Qed.

(** Of a string that is too long for [int] the size wraps in practice: negative, it
    leaves the text to the buffer of 350 bytes. *)
Lemma conv_sql_overflow s buf : zlen buf = etBUFSIZE -> INT_MAX - 2 <= zlen (sql_escape etSQLESCAPE2 s) -> conv_sql etSQLESCAPE2 (Some s) buf = Err Overflow.
Proof.
  intros Hb Hl. rewrite conv_sql_cases by done. change (sql_text etSQLESCAPE2 (Some s)) with ([39] ++ sql_escape etSQLESCAPE2 s ++ [39]). rewrite !zlen_app.
  change (zlen [39]) with 1. by destruct (Z.leb_spec (1 + (zlen (sql_escape etSQLESCAPE2 s) + 1) + 1) INT_MAX); [lia|].
Qed.

Lemma zlen_drop_nat {A} k (l : list A) : Z.of_nat k <= zlen l -> zlen (drop k l) = zlen l - Z.of_nat k.
Proof. intros H. unfold zlen in *. rewrite length_drop. lia. Qed.

(** ** Collecting in a buffer of [n] bytes: the text is cut, never written past the end *)

Definition fixed_state (n : Z) (text : list Z) (pM : sgMprintf) : Prop :=
  exists rest, pM.(zText) = Some (take (Z.to_nat (n - 1)) text ++ 0 :: rest) /\ zlen (take (Z.to_nat (n - 1)) text ++ 0 :: rest) = n /\
    pM.(nChar) = zlen (take (Z.to_nat (n - 1)) text) /\ pM.(nAlloc) = n /\ pM.(based) = true /\ pM.(nTotal) = zlen text.

Lemma mout_fixed n text t pM : 0 < n -> zlen (text ++ t) < INT_MAX -> fixed_state n text pM -> exists pM', mout None pM t = Ok pM' /\ fixed_state n (text ++ t) pM'.
Proof.
  intros Hn Hmax (rest & Ez & El & Ec & Ea & Eb & Eto). unfold mout, make_room. rewrite Ea, Ec, Ez, Eto. pose proof (zlen_nonneg text). pose proof (zlen_nonneg t).
  rewrite zlen_app in Hmax. rewrite (int_of_ok (zlen text + zlen t)) by (unfold INT_MAX in *; lia). cbn [mbind res_bind].
  set (k := zlen (take (Z.to_nat (n - 1)) text)) in *. assert (Hk : k = Z.min (n - 1) (zlen text)) by (unfold k, zlen; rewrite length_take; lia).
  rewrite zlen_app, zlen_cons in El. fold k in El.
  rewrite int_of_ok by (unfold INT_MAX in *; lia). cbn [mbind res_bind].
  set (new := if n <? k + zlen t + 1 then n - k - 1 else zlen t).
  assert (E : (if n <? k + zlen t + 1 then Ok (n - k - 1, Some (take (Z.to_nat (n - 1)) text ++ 0 :: rest), based pM, n)
    else Ok (zlen t, Some (take (Z.to_nat (n - 1)) text ++ 0 :: rest), based pM, n)) = Ok (new, Some (take (Z.to_nat (n - 1)) text ++ 0 :: rest), based pM, n)) by (unfold new; by destruct (_ <? _)).
  rewrite E. clear E. cbn [mbind res_bind]. assert (Hnew : new = Z.min (zlen t) (n - 1 - k)) by (unfold new; destruct (Z.ltb_spec n (k + zlen t + 1)); lia). clearbody new.
  assert (Et : take (Z.to_nat (n - 1)) (text ++ t) = take (Z.to_nat (n - 1)) text ++ take (Z.to_nat new) t).
  { rewrite take_app. f_equal. destruct (Z.le_gt_cases (zlen text) (n - 1)); [|f_equal; unfold zlen in *; lia].
    destruct (Z.le_gt_cases (zlen t) (n - 1 - k)); [rewrite !take_ge by (unfold zlen in *; lia); done|]. f_equal. unfold zlen in *. lia. }
  assert (Hl : zlen (take (Z.to_nat new) t) = new) by (apply zlen_take_le; lia).
  destruct (Z.ltb_spec 0 new) as [Hp|Hp].
  - assert (Hb : blit (take (Z.to_nat (n - 1)) text ++ 0 :: rest) k (take (Z.to_nat new) t) = Ok ((take (Z.to_nat (n - 1)) text ++ take (Z.to_nat new) t) ++ drop (length (take (Z.to_nat new) t)) (0 :: rest)))
      by (apply blit_rest; [done|rewrite zlen_cons; lia]). rewrite Hb. cbn [mbind res_bind].
    set (part := take (Z.to_nat new) t) in *. assert (Hlp : Z.of_nat (length part) = new) by exact Hl.
    pose proof (zlen_drop_nat (length part) (0 :: rest)) as Hd. rewrite zlen_cons, Hlp in Hd. specialize (Hd ltac:(lia)).
    destruct (drop (length part) (0 :: rest)) as [|x rest'] eqn:Ed; [rewrite zlen_nil in Hd; lia|].
    rewrite st_app_mid by (rewrite zlen_app; lia). cbn [mbind res_bind]. eexists. split; [reflexivity|]. exists rest'. cbn. rewrite Et. split; [done|].
    rewrite zlen_cons in Hd. split; [rewrite !zlen_app, zlen_cons; fold k; lia|]. split; [rewrite zlen_app; fold k; lia|]. by rewrite zlen_app.
  - assert (new = 0) as -> by lia. cbn [mbind res_bind]. rewrite st_app_mid by done. cbn [mbind res_bind]. eexists. split; [reflexivity|]. exists rest. cbn. rewrite Et, app_nil_r.
    split; [done|]. split; [rewrite zlen_app, zlen_cons; fold k; lia|]. by rewrite zlen_app.
Qed.

Lemma mout_all_fixed n : 0 < n -> forall cs text pM, zlen (text ++ concat cs) < INT_MAX -> fixed_state n text pM ->
  exists pM', mout_all None pM cs = Ok pM' /\ fixed_state n (text ++ concat cs) pM'.
Proof.
  intros Hn. induction cs as [|t cs IH]; intros text pM Hm Hs; cbn [mout_all concat] in *; [exists pM; by rewrite app_nil_r|].
  rewrite app_assoc in Hm. destruct (mout_fixed n text t pM Hn ltac:(rewrite zlen_app in Hm; pose proof (zlen_nonneg (concat cs)); lia) Hs) as (pM1 & -> & Hs1). cbn [mbind res_bind]. rewrite app_assoc. by apply IH.
Qed.

(** ** Collecting in memory that grows *)

Definition always : Z -> bool := fun _ => true.

Definition grown (text : list Z) (pM : sgMprintf) : Prop :=
  exists rest, pM.(zText) = Some (text ++ 0 :: rest) /\ pM.(nChar) = zlen text /\ pM.(nAlloc) = zlen (text ++ 0 :: rest) /\ pM.(nTotal) = zlen text.

Lemma realloc_grows old size : zlen old <= size -> realloc always (Some old) size = Some (old ++ replicate (Z.to_nat (size - zlen old)) 0).
Proof. intros H. unfold realloc, always. cbn [default]. unfold id. rewrite take_ge by (unfold zlen in *; lia). do 3 f_equal. unfold zlen. lia. Qed.

Lemma put_text (text t rest : list Z) : zlen t < zlen rest ->
  (r ← (if 0 <? zlen t then m ← blit (text ++ rest) (zlen text) (take (Z.to_nat (zlen t)) t); Ok (m, zlen text + zlen t) else Ok (text ++ rest, zlen text));
   let '(m, nChar) := r in m ← st m nChar 0; Ok (m, nChar)) = Ok ((text ++ t) ++ 0 :: drop (S (length t)) rest, zlen (text ++ t)).
Proof.
  intros Hl. rewrite take_ge by (unfold zlen; lia). rewrite zlen_app. pose proof (zlen_nonneg t). destruct (Z.ltb_spec 0 (zlen t)).
  - rewrite blit_rest by (done || lia). cbn [mbind res_bind]. rewrite st_rest by (first [by rewrite zlen_app | unfold zlen in *; rewrite length_drop; lia]). cbn [mbind res_bind].
    by rewrite drop_drop, Nat.add_1_r.
  - assert (t = []) as -> by (apply zlen_zero; lia). cbn [mbind res_bind]. rewrite zlen_nil in *. rewrite st_rest by (done || lia). cbn [mbind res_bind]. by rewrite Z.add_0_r, app_nil_r.
Qed.

(** The text collected leaves [int] room for twice as much. *)
Definition modest (text : list Z) : Prop := 2 * zlen text < INT_MAX.

Lemma make_room_grown (text t : list Z) pM : modest (text ++ t) -> grown text pM ->
  exists r b, zlen t < zlen r /\ make_room (Some always) pM (zlen t) = Ok (zlen t, Some (text ++ r), b, zlen (text ++ r)).
Proof.
  intros Hmax (rest & Ez & Ec & Ea & _). unfold modest in Hmax. rewrite zlen_app in Hmax. unfold make_room. rewrite Ea, Ec, Ez. pose proof (zlen_nonneg text). pose proof (zlen_nonneg t).
  rewrite (int_of_ok (zlen text + zlen t + 1)) by (unfold INT_MAX in *; lia). cbn [mbind res_bind].
  pose proof (zlen_app text (0 :: rest)) as El. rewrite zlen_cons in El. destruct (Z.ltb_spec (zlen (text ++ 0 :: rest)) (zlen text + zlen t + 1)); [rewrite int_of_ok by (unfold INT_MAX in *; lia); cbn [mbind res_bind]; destruct (based pM)|].
  - unfold realloc, always at 1. cbn [option_map default]. unfold id. set (m := take _ [] ++ _). set (k := zlen text + zlen t * 2 + 1).
    assert (Hm : zlen m = k) by (unfold m; rewrite take_nil; cbn [app length]; rewrite zlen_replicate; lia).
    exists (drop (Z.to_nat (zlen text)) m), false. replace (take (Z.to_nat (zlen text)) (text ++ 0 :: rest)) with text by (unfold zlen; by rewrite Nat2Z.id, take_app_length).
    assert (Hd : zlen (drop (Z.to_nat (zlen text)) m) = k - zlen text) by (rewrite zlen_drop_nat; lia).
    split; [lia|]. do 2 f_equal. rewrite zlen_app, Hd. lia.
  - rewrite realloc_grows by lia. set (z := replicate _ 0). exists (0 :: rest ++ z), false. rewrite <- app_assoc. cbn [app].
    assert (Hz : zlen z = zlen text + zlen t * 2 + 1 - zlen (text ++ 0 :: rest)) by (unfold z; rewrite zlen_replicate; lia).
    rewrite zlen_cons, zlen_app. split; [lia|]. do 2 f_equal. rewrite zlen_app, zlen_cons, zlen_app. lia.
  - exists (0 :: rest), (based pM). rewrite zlen_cons. split; [lia|done].
Qed.

Lemma mout_grown (text t : list Z) pM : modest (text ++ t) -> grown text pM -> exists pM', mout (Some always) pM t = Ok pM' /\ grown (text ++ t) pM'.
Proof.
  intros Hm Hg. destruct (make_room_grown text t pM Hm Hg) as (r & b & Hr & E). unfold mout. rewrite E. destruct Hg as (_ & _ & -> & _ & ->). clear E.
  unfold modest in Hm. rewrite zlen_app in Hm. pose proof (zlen_nonneg text). pose proof (zlen_nonneg t). rewrite (int_of_ok (zlen text + zlen t)) by (unfold INT_MAX in *; lia). cbn [mbind res_bind].
  pose proof (put_text text t r Hr) as Hp.
  destruct (if 0 <? zlen t then _ else _) as [[m c]|e]; [|done]. cbn [mbind res_bind] in Hp |- *. destruct (st m c 0) as [m'|]; [|done]. cbn [mbind res_bind] in Hp |- *.
  injection Hp as -> ->. eexists. split; [reflexivity|]. exists (drop (S (length t)) r). cbn. split; [done|]. split; [done|].
  rewrite !zlen_app, zlen_cons, zlen_drop_nat by (unfold zlen in *; lia). unfold zlen. lia.
Qed.

Lemma mout_all_grown : forall cs text pM, modest (text ++ concat cs) -> grown text pM -> exists pM', mout_all (Some always) pM cs = Ok pM' /\ grown (text ++ concat cs) pM'.
Proof.
  induction cs as [|t cs IH]; intros text pM Hm Hs; cbn [mout_all concat] in *; [exists pM; by rewrite app_nil_r|].
  rewrite app_assoc in Hm. destruct (mout_grown text t pM ltac:(unfold modest in *; rewrite zlen_app in Hm; pose proof (zlen_nonneg (concat cs)); lia) Hs) as (pM1 & -> & Hs1). cbn [mbind res_bind]. rewrite app_assoc. by apply IH.
Qed.

Lemma mout_start R x buf n : 0 < n -> mout R (SgMprintf (Some (x :: buf)) true 0 0 n) [] = Ok (SgMprintf (Some (0 :: buf)) true 0 0 n).
Proof.
  intros Hn. unfold mout, make_room. cbn [nAlloc nChar zText based nTotal]. change (zlen (@nil Z)) with 0.
  change (int_of (0 + 0)) with (@Ok Z 0). change (int_of (0 + 0 + 1)) with (@Ok Z 1). cbn [mbind res_bind].
  destruct (Z.ltb_spec n 1); [lia|]. reflexivity.
Qed.

Lemma vxprintf_starts u fmt ap o : vxprintf u fmt ap = Ok o -> exists cs, chunks o = [] :: cs.
Proof. unfold vxprintf. intros E. destruct (format_loop _ _ _ _ _ _) as [o'|]; [|done]. injection E as <-. by eexists. Qed.

Lemma ks_vsnprintfv_text fmt ap o buf : vxprintf false fmt ap = Ok o -> zlen (concat o.(chunks)) < INT_MAX -> 0 < zlen buf ->
  exists rest, ks_vsnprintfv buf (zlen buf) fmt ap = Ok (Some (take (Z.to_nat (zlen buf - 1)) (concat o.(chunks)) ++ 0 :: rest)) /\
    zlen (take (Z.to_nat (zlen buf - 1)) (concat o.(chunks)) ++ 0 :: rest) = zlen buf.
Proof.
  intros E Hmax Hn. destruct (vxprintf_starts _ _ _ _ E) as (cs & Ecs). rewrite Ecs in Hmax. unfold ks_vsnprintfv, base_vprintf. rewrite E. cbn [mbind res_bind]. rewrite Ecs. cbn [mout_all concat app].
  destruct buf as [|x buf]; [done|]. pose proof (zlen_cons x buf) as Hl. pose proof (zlen_nonneg buf). rewrite mout_start by done. cbn [mbind res_bind].
  destruct (mout_all_fixed (zlen (x :: buf)) Hn cs [] (SgMprintf (Some (0 :: buf)) true 0 0 (zlen (x :: buf)))) as (pM & -> & rest & Ez & El & _).
  { exact Hmax. }
  { exists buf. rewrite take_nil. cbn. repeat split; done. }
  cbn [mbind res_bind app]. exists rest. by rewrite Ez.
Qed.

Lemma ks_vmprintf_text fmt ap o : vxprintf false fmt ap = Ok o -> modest (concat o.(chunks)) -> exists rest, ks_vmprintf (fun _ => true) fmt ap = Ok (Some (concat o.(chunks) ++ 0 :: rest)).
Proof.
  intros E Hm. destruct (vxprintf_starts _ _ _ _ E) as (cs & Ecs). rewrite Ecs in Hm. unfold ks_vmprintf, base_vprintf. rewrite E. cbn [mbind res_bind]. rewrite Ecs. cbn [mout_all concat app].
  destruct (mout_all_grown cs [] (SgMprintf (Some (0 :: tail new_buf)) true 0 0 etBUFSIZE)) as (pM & Em & rest & Ez & Ec & Ea & _).
  { exact Hm. }
  { exists (tail new_buf). by repeat split. }
  change (mout (Some (fun _ => true)) (SgMprintf (Some new_buf) true 0 0 etBUFSIZE) []) with (Ok (SgMprintf (Some (0 :: tail new_buf)) true 0 0 etBUFSIZE)).
  cbn [mbind res_bind]. fold always. rewrite Em. cbn [mbind res_bind]. rewrite Ez, Ec, Ea. cbn [app].
  pose proof (zlen_nonneg (concat cs)). pose proof (zlen_nonneg rest). assert (Etk : take (Z.to_nat (zlen (concat cs) + 1)) (concat cs ++ 0 :: rest) = concat cs ++ [0]).
  { replace (Z.to_nat (zlen (concat cs) + 1)) with (length (concat cs) + 1)%nat by (unfold zlen; lia). by rewrite take_app_add. }
  destruct (based pM); [|rewrite int_of_ok by (unfold modest, INT_MAX in *; cbn [concat app] in Hm; lia); cbn [mbind res_bind];
    destruct (Z.ltb_spec (zlen (concat cs) + 10) (zlen (concat cs ++ 0 :: rest)))].
  - unfold realloc, always. cbn [option_map default]. unfold id. rewrite Etk. eexists. by rewrite <- app_assoc.
  - unfold realloc, always. cbn [default]. unfold id. rewrite Etk. eexists. by rewrite <- app_assoc.
  - by exists rest.
Qed.

(** Whatever a format yields (less than 2^30 characters), a buffer of [n] bytes,
    [n] at least 1, holds the first [n - 1] characters of it and the end of the
    string, nothing is written outside; and printing into memory that grows returns
    all of it. *)
Lemma printf_collects fmt ap o : vxprintf false fmt ap = Ok o -> modest (concat o.(chunks)) ->
  let text := concat o.(chunks) in
  (forall buf, 0 < zlen buf -> exists rest, ks_vsnprintfv buf (zlen buf) fmt ap = Ok (Some (take (Z.to_nat (zlen buf - 1)) text ++ 0 :: rest)) /\
     zlen (take (Z.to_nat (zlen buf - 1)) text ++ 0 :: rest) = zlen buf) /\
  exists rest, ks_vmprintf (fun _ => true) fmt ap = Ok (Some (text ++ 0 :: rest)).
Proof.
  intros E Hm. split; [|by apply ks_vmprintf_text]. intros buf Hn. apply ks_vsnprintfv_text; [done| |done].
  unfold modest in Hm. pose proof (zlen_nonneg (concat (chunks o))). lia.
Qed.

Lemma printf_collects_witness :
  let fmt := bytes_of_string "%d:%s" in
  let ap := [VInt (-12); str "abc"] in
  exists o, vxprintf false fmt ap = Ok o /\ concat o.(chunks) = bytes_of_string "-12:abc" /\
    (exists rest, ks_vsnprintfv (replicate 5 9) 5 fmt ap = Ok (Some (bytes_of_string "-12:" ++ 0 :: rest)) /\ zlen (bytes_of_string "-12:" ++ 0 :: rest) = 5) /\
    exists rest, ks_vmprintf (fun _ => true) fmt ap = Ok (Some (bytes_of_string "-12:abc" ++ 0 :: rest)).
Proof.
  eexists. split; [vm_compute; reflexivity|]. split; [reflexivity|].
  destruct (printf_collects (bytes_of_string "%d:%s") [VInt (-12); str "abc"] (Output [[]; [45; 49; 50]; [58]; [97; 98; 99]] 7 [])) as [H1 H2]; [vm_compute; reflexivity|reflexivity|].
  split; [exact (H1 (replicate 5 9) ltac:(vm_compute; reflexivity))|exact H2].
Defined.

(** ** Termination and faults *)

Definition fuelled (e : fault) : Prop := e <> NoFuel.
(** What a caller can cause with arguments that do not fit the format, or with
    numbers in it beyond [int]; nothing touches memory it should not. *)
Definition callers (e : fault) : Prop := e = BadArgument \/ e = Overflow.

Lemma callers_fuelled e : callers e -> fuelled e.
Proof. by intros [-> | ->]. Qed.

Lemma st_fuelled (m : list Z) i v : only_fails fuelled (st m i v).
Proof. unfold st. by destruct (_ && _). Qed.
Lemma ld_fuelled (m : list Z) i : only_fails fuelled (ld m i).
Proof. unfold ld. destruct (_ <? _); [done|]. by destruct (_ !! _). Qed.
Lemma slice_fuelled (m : list Z) i n : only_fails fuelled (slice m i n).
Proof. unfold slice. by destruct (_ && _ && _). Qed.
Lemma to_int_fuelled x : only_fails fuelled (to_int x).
Proof. destruct x; try done. unfold to_int. by destruct (_ && _). Qed.

Create HintDb printf.
#[local] Hint Resolve st_fuelled ld_fuelled slice_fuelled to_int_fuelled : printf.
#[local] Hint Extern 2 (only_fails _ (Ok _)) => exact I : printf.

(** Take the computation apart at its binds and tests. *)
Ltac fuelled_step := match goal with
  | |- only_fails _ (_ ≫= _) => apply only_fails_bind; [|intros ? ?]
  | |- only_fails _ (if ?b then _ else _) => destruct b
  | |- only_fails _ (let '(_, _) := ?x in _) => destruct x
  | |- only_fails _ (match ?x with (_, _) => _ end) => destruct x
  end.
Ltac fuelled := repeat (cbn zeta; first [solve [auto with printf] | fuelled_step]).

Lemma put_fuelled : forall cs buf p, only_fails fuelled (put cs buf p).
Proof. induction cs as [|c cs IH]; intros buf p; cbn [put]; fuelled. Qed.
Lemma put_digits_fuelled : forall n x nsd buf p, only_fails fuelled (put_digits n x nsd buf p).
Proof. induction n as [|n IH]; intros x nsd buf p; cbn [put_digits]; [done|]. unfold et_getdigit. fuelled. Qed.
Lemma shift_up_fuelled : forall n i k buf, only_fails fuelled (shift_up n i k buf).
Proof. induction n as [|n IH]; intros i k buf; cbn [shift_up]; fuelled. Qed.
#[local] Hint Resolve put_fuelled put_digits_fuelled shift_up_fuelled : printf.

Lemma strip_zeros_fuelled : forall fuel buf p, p < Z.of_nat fuel -> (0 < fuel)%nat -> only_fails fuelled (strip_zeros fuel buf p).
Proof.
  induction fuel as [|fuel IH]; intros buf p Hp Hf; [lia|]. cbn [strip_zeros]. destruct (Z.le_gt_cases p 0).
  - rewrite ld_out by lia. discriminate.
  - fuelled. apply IH; lia.
Qed.

Lemma strip_point_fuelled alt buf p : only_fails fuelled (strip_point alt buf p).
Proof. unfold strip_point, ks_assert. fuelled; try done. apply strip_zeros_fuelled; lia. Qed.

(** [exp] moves by at least one each round and stops beyond 350. *)
Lemma scale_up test by_ e : 1 <= e -> forall fuel x exp, 351 - exp < Z.of_nat fuel -> (0 < fuel)%nat ->
  exists x' exp', scale fuel test (fun exp => exp <=? 350) by_ e x exp = Ok (x', exp') /\ exp <= exp' <= Z.max exp (350 + e).
Proof.
  intros He. induction fuel as [|fuel IH]; intros x exp Hf H0; [lia|]. cbn [scale]. destruct (test x && (exp <=? 350)) eqn:E.
  - apply andb_true_iff in E as [_ E%Z.leb_le]. destruct (IH (lmul x by_) (exp + e)) as (x' & exp' & -> & H); [lia|lia|]. exists x', exp'. split; [done|lia].
  - exists x, exp. split; [done|lia].
Qed.

Lemma scale_down test by_ e : e <= -1 -> forall fuel x exp, exp + 351 < Z.of_nat fuel -> (0 < fuel)%nat ->
  exists x' exp', scale fuel test (fun exp => -350 <=? exp) by_ e x exp = Ok (x', exp') /\ exp' <= exp.
Proof.
  intros He. induction fuel as [|fuel IH]; intros x exp Hf H0; [lia|]. cbn [scale]. destruct (test x && (-350 <=? exp)) eqn:E.
  - apply andb_true_iff in E as [_ E%Z.leb_le]. destruct (IH (lmul x by_) (exp + e)) as (x' & exp' & -> & H); [lia|lia|]. exists x', exp'. split; [done|lia].
  - exists x, exp. split; [done|lia].
Qed.

Lemma normalize_ok x : exists x' exp, normalize x = Ok (x', exp).
Proof.
  unfold normalize. cbn zeta. destruct (scale_up (SFleb f1e32) f1e_32 32 ltac:(lia) 1000 x 0 ltac:(lia) ltac:(lia)) as (x1 & e1 & -> & H1). cbn [mbind res_bind fst snd].
  destruct (scale_up (SFleb f1e8) f1e_8 8 ltac:(lia) 1000 x1 e1 ltac:(lia) ltac:(lia)) as (x2 & e2 & -> & H2). cbn [mbind res_bind fst snd].
  destruct (scale_up (SFleb f10) f0_1 1 ltac:(lia) 1000 x2 e2 ltac:(lia) ltac:(lia)) as (x3 & e3 & -> & H3). cbn [mbind res_bind fst snd].
  destruct (scale_down (fun x => SFltb x f1e_8) f1e8 (-8) ltac:(lia) 1000 x3 e3 ltac:(lia) ltac:(lia)) as (x4 & e4 & -> & H4). cbn [mbind res_bind fst snd].
  destruct (scale_down (fun x => SFltb x f1) f10 (-1) ltac:(lia) 1000 x4 e4 ltac:(lia) ltac:(lia)) as (x5 & e5 & -> & _). by exists x5, e5.
Qed.

Lemma normalize_fuelled x : only_fails fuelled (normalize x).
Proof. by destruct (normalize_ok x) as (x' & e & ->). Qed.
Lemma exponent_fuelled c e : only_fails fuelled (exponent c e).
Proof. unfold exponent. fuelled. Qed.
#[local] Hint Resolve strip_point_fuelled normalize_fuelled exponent_fuelled : printf.

Lemma conv_float_fuelled xtype info f x width precision buf : only_fails fuelled (conv_float xtype info f x width precision buf).
Proof. unfold conv_float. fuelled. Qed.

(** ** The conversions *)

Definition no_double (v : value) : Prop := match v with VDouble _ => False | _ => True end.

(** What a conversion is given after the cuts of width and precision. *)
Definition cut_ok (info : et_info) (width precision : Z) : Prop :=
  In info fmtinfo /\ width <= etBUFSIZE - 10 /\ (has_flag info FLAG_STRING = false -> precision <= etBUFSIZE - 40).

Lemma read_integer_ok info f args : only_fails callers (read_integer info f args) /\
  forall v p args', read_integer info f args = Ok (v, p, args') -> 0 <= v < 2 ^ 64 /\ exists a, args = a :: args'.
Proof.
  assert (Hs : forall x, -9223372036854775808 <= s64 x < 9223372036854775808) by (intros x; unfold s64; lia_div).
  assert (Hi : forall x, -2147483648 <= s32 x < 2147483648) by (intros x; unfold s32; lia_div).
  assert (Hu : forall x, 0 <= u64 x < 18446744073709551616) by (intros x; apply u64_range).
  assert (Hv : forall x, 0 <= u32 x < 4294967296) by (intros x; apply u32_range). change (2 ^ 64) with 18446744073709551616.
  unfold read_integer, va_long, va_int, va_ulong, va_uint. destruct (has_flag _ _), (longlong f || long f), args as [|[x|x|x|x|x|x] args]; cbn [mbind res_bind];
    try (split; [by left|done]).
  all: try (specialize (Hs x)); try (specialize (Hi x)); try (specialize (Hu x)); try (specialize (Hv x)).
  all: repeat match goal with |- context [?a <? 0] => destruct (Z.ltb_spec a 0) | |- context [?a =? -9223372036854775808] => destruct (Z.eqb_spec a (-9223372036854775808)) end.
  all: first [split; [by right|done] | split; [done|]; intros v p args' [= <- <- <-]; split; [lia|eauto]].
Qed.

Lemma put_run : forall cs acc rest, zlen cs <= zlen rest -> put cs (acc ++ rest) (zlen acc) = Ok ((acc ++ cs) ++ drop (length cs) rest, zlen (acc ++ cs)).
Proof.
  induction cs as [|c cs IH]; intros acc rest Hl; cbn [put]; [by rewrite !app_nil_r|]. rewrite zlen_cons in Hl. pose proof (zlen_nonneg cs).
  destruct rest as [|x rest]; [rewrite zlen_nil in Hl; lia|]. rewrite zlen_cons in Hl. rewrite st_app_mid by done. cbn [mbind res_bind].
  specialize (IH (acc ++ [c]) rest ltac:(lia)). rewrite zlen_app in IH. change (zlen [c]) with 1 in IH. rewrite <- app_assoc in IH. cbn [app] in IH.
  rewrite IH, <- (app_assoc acc). done.
Qed.

Definition is_float (t : et) : bool := match t with etFLOAT | etEXP | etGENERIC => true | _ => false end.

Lemma not_string info : In info fmtinfo -> (type info = etRADIX \/ type info = etPOINTER \/ type info = etCHARX) -> has_flag info FLAG_STRING = false.
Proof. intros Hin Ht. unfold fmtinfo in Hin. cbn [In] in Hin. intuition (subst info; cbn in *; (discriminate || reflexivity)). Qed.

Lemma new_buf_length : zlen new_buf = etBUFSIZE.
Proof. reflexivity. Qed.

Lemma conv_integer_ok info f w p args : is_radix info -> cut_ok info w p ->
  only_fails callers (r ← read_integer info f args; let '(longvalue, prefix, args) := r in t ← conv_radix info f longvalue prefix w p new_buf; Ok (t, w, args, @nil (Z * Z))).
Proof.
  intros Hr (Hin & Hw & Hp). destruct (read_integer_ok info f args) as [H1 H2]. apply only_fails_bind; [done|]. intros [[v pre] args'] E.
  destruct (H2 _ _ _ E) as [Hv _]. assert (p <= etBUFSIZE - 10) by (rewrite not_string in Hp by (done || (destruct Hr as [_ [Hr|Hr]]; auto)); specialize (Hp eq_refl); unfold etBUFSIZE in *; lia).
  destruct (conv_radix_run info f v pre w p new_buf Hr Hv new_buf_length Hw) as (ds & t & -> & _); done.
Qed.

Lemma int_of_callers z : only_fails callers (int_of z).
Proof. destruct (int_of_cases z) as [[-> _]| ->]; [done|by right]. Qed.

Lemma conv_string_callers w p s : only_fails callers (conv_string w p s).
Proof. unfold conv_string. destruct (_ <? 0); [|done]. apply only_fails_bind; [apply int_of_callers|done]. Qed.

Lemma conv_sql_callers xtype s : only_fails callers (conv_sql xtype s new_buf).
Proof. rewrite conv_sql_cases by done. destruct (_ <=? _); [done|by right]. Qed.

Lemma convert_callers info f w p count args : cut_ok info w p -> is_float (type info) = false \/ Forall no_double args -> only_fails callers (convert info f w p count args).
Proof.
  intros Hc Hf. pose proof Hc as (Hin & Hw & Hp). unfold convert. destruct (type info) eqn:Et; cbn [is_float] in Hf;
    try (destruct Hf as [|Hf]; [done|]; destruct Hf as [|[x|x|x|x|x|x] args Hx _]; try done; by left).
  - rewrite bool_decide_false by done. apply conv_integer_ok; [split; auto|done].
  - destruct args as [|[] args]; by left || done.
  - destruct args as [|[x|x|x|s|x|x] args]; cbn [va_str mbind res_bind]; try by left. apply only_fails_bind; [apply conv_string_callers|done].
  - destruct args as [|[x|x|x|s|x|x] args]; cbn [va_str mbind res_bind]; try by left. apply only_fails_bind; [apply conv_string_callers|done].
  - destruct args as [|[x|x|x|s|x|x] args]; cbn [va_int mbind res_bind]; try by left.
    specialize (Hp (not_string info Hin ltac:(auto))). unfold etBUFSIZE in Hp. set (cs := u8 (s32 x) :: _).
    assert (Hl : zlen cs = 1 + Z.max 0 (p - 1)) by (unfold cs; rewrite zlen_cons, zlen_replicate; lia).
    pose proof (put_run cs [] new_buf) as E. cbn [app] in E. change (zlen (@nil Z)) with 0 in E. rewrite E by (rewrite new_buf_length; unfold etBUFSIZE; lia). cbn [mbind res_bind fst].
    destruct (slice (cs ++ drop (length cs) new_buf) 0 (if 0 <=? p then p else 1)) eqn:Es; [done|].
    unfold slice in Es. rewrite zlen_app, zlen_drop_nat in Es by (rewrite new_buf_length; unfold zlen in Hl; unfold etBUFSIZE; lia).
    rewrite new_buf_length in Es. unfold etBUFSIZE in Es. change (zlen cs) with (Z.of_nat (length cs)) in *. destruct (Z.leb_spec 0 p); revert Es; zcase; discriminate.
  - destruct args as [|[x|x|x|s|x|x] args]; cbn [va_str mbind res_bind]; try by left. apply only_fails_bind; [apply conv_sql_callers|done].
  - destruct args as [|[x|x|x|s|x|x] args]; cbn [va_str mbind res_bind]; try by left. apply only_fails_bind; [apply conv_sql_callers|done].
  - destruct args as [|[x|x|x|s|x|x] args]; cbn [va_str mbind res_bind]; try by left. apply only_fails_bind; [apply conv_sql_callers|done].
  - destruct args as [|[x|x|x|s|x|x] args]; cbn [va_str mbind res_bind]; try by left. apply only_fails_bind; [apply conv_sql_callers|done].
  - rewrite bool_decide_true by done. apply conv_integer_ok; [split; auto|done].
Qed.

Lemma convert_fuelled info f w p count args : cut_ok info w p -> only_fails fuelled (convert info f w p count args).
Proof.
  intros Hc. destruct (is_float (type info)) eqn:Ef; [|eapply only_fails_impl; [exact callers_fuelled|]; apply convert_callers; auto].
  unfold convert. assert (H : only_fails fuelled (va_double args)) by (by destruct args as [|[] args]).
  destruct (type info) eqn:Et; try done; (apply only_fails_bind; [done|]; intros [x args'] _; apply only_fails_bind; [apply conv_float_fuelled|done]).
Qed.

(** The arguments left are the last of the arguments. *)
Lemma convert_args info f w p count args t w' args' s : convert info f w p count args = Ok (t, w', args', s) -> Forall no_double args -> Forall no_double args'.
Proof.
  intros E Ha. unfold convert in E.
  assert (Hi : forall f, (r ← read_integer info f args; let '(longvalue, prefix, args) := r in t ← conv_radix info f longvalue prefix w p new_buf; Ok (t, w, args, @nil (Z * Z))) = Ok (t, w', args', s) -> Forall no_double args').
  { intros f0 E0. destruct (read_integer_ok info f0 args) as [_ H]. destruct (read_integer info f0 args) as [[[v pre] args0]|]; [|done]. cbn [mbind res_bind] in E0.
    destruct (H _ _ _ eq_refl) as [_ (a & ->)]. apply Forall_cons in Ha as [_ Ha]. destruct (conv_radix _ _ _ _ _ _ _); [|done]. by injection E0 as _ _ <- _. }
  destruct (type info); try (by apply (Hi f)); try (by apply (Hi (set_longs true true f))); try (by injection E as _ _ <- _);
    (destruct args as [|a args]; [done|]; apply Forall_cons in Ha as [Hx Ha]; destruct a; try done;
     cbn [va_double va_int va_str mbind res_bind] in E; repeat (match type of E with context [?m ≫= _] => destruct m; [|done]; cbn [mbind res_bind] in E end); by injection E as _ _ <- _).
Qed.

(** ** The interpreter consumes the format *)

Lemma plain_text_length fmt : (length (plain_text fmt).2 <= length fmt)%nat.
Proof. induction fmt as [|c fmt IH]; [done|]. cbn [plain_text]. destruct (c =? 37); [done|]. destruct (plain_text fmt). cbn in *. lia. Qed.

Lemma read_flags_length : forall fmt f, (length (read_flags fmt f).2 <= length fmt)%nat.
Proof.
  induction fmt as [|c fmt IH]; intros f; cbn [read_flags]; [done|]. cbn [length].
  repeat (destruct (_ =? _); [eapply Nat.le_trans; [apply IH|lia]|]). done.
Qed.

Lemma tail_length (l : list Z) : (length (tail l) <= length l)%nat.
Proof. destruct l; simpl; lia. Qed.

Lemma read_number_ok : forall fmt n, only_fails callers (read_number fmt n) /\ forall m fmt', read_number fmt n = Ok (m, fmt') -> (length fmt' <= length fmt)%nat.
Proof.
  induction fmt as [|c fmt IH]; intros n; cbn [read_number].
  { split; [done|]. by intros m fmt' [= <- <-]. }
  destruct (_ && _); [destruct (_ <? _)|].
  - split; [by right|done].
  - destruct (IH (n * 10 + c - 48)) as [H1 H2]. split; [done|]. intros m fmt' E. apply H2 in E. simpl. lia.
  - split; [done|]. by intros m fmt' [= <- <-].
Qed.

Lemma va_int_ok args : only_fails callers (va_int args) /\ forall v args', va_int args = Ok (v, args') -> Forall no_double args -> Forall no_double args'.
Proof.
  destruct args as [|[x|x|x|s|x|x] args]; cbn [va_int]; try (split; [by left|done]). split; [done|]. intros v args' [= <- <-] H. by apply Forall_cons in H as [_ H].
Qed.

Lemma negate_int_ok n : only_fails callers (negate_int n).
Proof. unfold negate_int. destruct (_ =? _); [by right|done]. Qed.

Lemma read_width_ok fmt f args : only_fails callers (read_width fmt f args) /\
  forall w f' fmt' args', read_width fmt f args = Ok (w, f', fmt', args') ->
    w <= etBUFSIZE - 10 /\ (length fmt' <= length fmt)%nat /\ (Forall no_double args -> Forall no_double args').
Proof.
  unfold read_width.
  set (r := if cur fmt =? 42 then _ else _).
  assert (H : only_fails callers r /\ forall w f' fmt' args', r = Ok (w, f', fmt', args') -> (length fmt' <= length fmt)%nat /\ (Forall no_double args -> Forall no_double args')).
  { unfold r. destruct (cur fmt =? 42).
    - destruct (va_int_ok args) as [H1 H2]. destruct (va_int args) as [[w args']|]; [|split; [done|done]]. cbn [mbind res_bind]. specialize (H2 _ _ eq_refl).
      pose proof (tail_length fmt). destruct (w <? 0); [|split; [done|]; by intros ? ? ? ? [= <- <- <- <-]].
      pose proof (negate_int_ok w). destruct (negate_int w); [|by split]. cbn [mbind res_bind]. split; [done|]. by intros ? ? ? ? [= <- <- <- <-].
    - destruct (read_number_ok fmt 0) as [H1 H2]. destruct (read_number fmt 0) as [[m fmt']|]; [|split; done]. cbn [mbind res_bind fst snd].
      split; [done|]. intros ? ? ? ? [= <- <- <- <-]. split; [by apply (H2 m)|done]. }
  destruct H as [H1 H2]. destruct r as [[[[w f'] fmt'] args']|]; [|by split]. cbn [mbind res_bind]. split; [done|].
  intros w0 f0 fmt0 args0 [= <- <- <- <-]. split; [destruct (Z.ltb_spec (etBUFSIZE - 10) w); lia|]. by apply (H2 w f').
Qed.

Lemma read_precision_ok fmt args : only_fails callers (read_precision fmt args) /\
  forall p fmt' args', read_precision fmt args = Ok (p, fmt', args') -> (length fmt' <= length fmt)%nat /\ (Forall no_double args -> Forall no_double args').
Proof.
  unfold read_precision. cbn zeta. pose proof (tail_length fmt). destruct (cur fmt =? 46); [|split; [done|]; by intros ? ? ? [= <- <- <-]].
  destruct (cur (tail fmt) =? 42).
  - destruct (va_int_ok args) as [H1 H2]. destruct (va_int args) as [[w args']|]; [|split; [done|done]]. cbn [mbind res_bind]. specialize (H2 _ _ eq_refl).
    pose proof (tail_length (tail fmt)). assert (Hn : only_fails callers (if w <? 0 then negate_int w else Ok w)) by (destruct (w <? 0); [apply negate_int_ok|done]).
    destruct (if w <? 0 then _ else _); [|by split]. cbn [mbind res_bind]. split; [done|]. intros ? ? ? [= <- <- <-]. split; [lia|done].
  - destruct (read_number_ok (tail fmt) 0) as [H1 H2]. destruct (read_number (tail fmt) 0) as [[m fmt']|]; [|split; done]. cbn [mbind res_bind fst snd].
    split; [done|]. intros ? ? ? [= <- <- <-]. specialize (H2 m fmt' eq_refl). split; [lia|done].
Qed.

Lemma read_long_length fmt f : (length (read_long fmt f).2 <= length fmt)%nat.
Proof.
  unfold read_long. pose proof (tail_length fmt). pose proof (tail_length (tail fmt)). destruct (_ =? _); [|done]. destruct (_ =? _); cbn; lia.
Qed.

Lemma format_loop_ok (P : fault -> Prop) (Q : list value -> Prop) u :
  (forall e, callers e -> P e) -> (forall args, Q args -> forall args', (Forall no_double args -> Forall no_double args') -> Q args') ->
  (forall info f w p count args, cut_ok info w p -> Q args -> only_fails P (convert info f w p count args)) ->
  forall fuel fmt args o w, (length fmt < fuel)%nat -> Q args -> only_fails P (format_loop fuel u fmt args o w).
Proof.
  intros HP HQ Hconv. assert (Hc : forall A (m : res A), only_fails callers m -> only_fails P m) by (intros A m; by apply only_fails_impl).
  induction fuel as [|fuel IH]; intros fmt args o w Hf Hargs; [lia|]. cbn [format_loop].
  pose proof (plain_text_length fmt) as L0. destruct (plain_text fmt) as [t fmt0]. cbn zeta. apply only_fails_bind; [apply Hc, int_of_callers|]. intros count _.
  destruct fmt0 as [|c0 fmt1]; [done|]. cbn [snd length] in L0.
  destruct (cur fmt1 =? 0); [apply only_fails_bind; [apply Hc, int_of_callers|done]|]. pose proof (read_flags_length fmt1 no_flags) as L1. destruct (read_flags fmt1 no_flags) as [f1 fmt2]. cbn [snd] in L1.
  destruct (read_width_ok fmt2 f1 args) as [H1 H2]. apply only_fails_bind; [by apply Hc|]. intros [[[width f2] fmt3] args3] E. destruct (H2 _ _ _ _ E) as (Hw & L2 & A2). clear E H1 H2.
  destruct (read_precision_ok fmt3 args3) as [H1 H2]. apply only_fails_bind; [by apply Hc|]. intros [[precision fmt4] args4] E. destruct (H2 _ _ _ E) as (L3 & A3). clear E H1 H2.
  pose proof (read_long_length fmt4 f2) as L4. destruct (read_long fmt4 f2) as [f3 fmt5]. cbn [snd] in L4.
  destruct (lookup_info (cur fmt5)) as [info|] eqn:Ei; [|done]. destruct (negb u && has_flag info FLAG_INTERN); [done|]. set (p := if (etBUFSIZE - 40 <? precision) && _ then _ else _).
  assert (Hcut : cut_ok info width p).
  { split; [by apply List.find_some in Ei as [Ei _]|]. split; [done|]. intros Hs. unfold p. rewrite Hs. cbn [negb]. rewrite andb_true_r. destruct (Z.ltb_spec (etBUFSIZE - 40) precision); lia. }
  assert (Hq : Q args4) by (apply (HQ args Hargs); auto). apply only_fails_bind; [by apply Hconv|]. intros [[[t' w'] args5] s] E.
  apply IH; [|apply (HQ args4 Hq); by eapply convert_args]. destruct fmt5; simpl in *; lia.
Qed.

(** C28: printing any format with any arguments ends; and unless an argument is a
    floating point number it either yields its text or stops for a cause of the
    caller's: an argument missing or of another type, or an [int] that overflows -
    a number in the format, an argument to negate, the size of a quoted string, the
    number of characters so far. Short of that, whatever width, precision, flags
    and strings, the conversion buffer of 350 bytes is not overrun. *)
Theorem vxprintf_safe u fmt args :
  vxprintf u fmt args <> Err NoFuel /\
  (Forall no_double args -> match vxprintf u fmt args with Ok _ => True | Err e => e = BadArgument \/ e = Overflow end).
Proof.
  unfold vxprintf. split.
  - pose proof (format_loop_ok fuelled (fun _ => True) u callers_fuelled ltac:(done) (fun info f w p count args Hc _ => convert_fuelled info f w p count args Hc)
      (S (length fmt)) fmt args [] [] ltac:(lia) I) as H. destruct (format_loop _ _ _ _ _ _); [discriminate|]. cbn. intros [= ->]. by apply H.
  - intros Ha. pose proof (format_loop_ok callers (Forall no_double) u (fun e H => H) ltac:(auto) (fun info f w p count args Hc Hd => convert_callers info f w p count args Hc (or_intror Hd))
      (S (length fmt)) fmt args [] [] ltac:(lia) Ha) as H. by destruct (format_loop _ _ _ _ _ _).
Qed.

Lemma vxprintf_safe_witness :
  Forall no_double [VInt 7; VStr (Some (replicate 1000 39))] /\
  match vxprintf false (bytes_of_string "%0999.999d %Q") [VInt 7; VStr (Some (replicate 1000 39))] with Ok _ => True | Err e => e = BadArgument \/ e = Overflow end.
Proof.
  split; [repeat constructor|]. apply (vxprintf_safe false (bytes_of_string "%0999.999d %Q") [VInt 7; VStr (Some (replicate 1000 39))]). repeat constructor.
Defined.

(** The text of an integer conversion, for every conversion of the table, value
    of 64 bits, width, precision and flags: the sign, the zeros that precision or
    width ask for, and the digits of the value in the base (without leading zeros),
    with [0], [0x] or [0X] in front in the alternate form; it fits the buffer. *)
Lemma conv_radix_text info f v prefix width precision buf :
  is_radix info -> 0 <= v < 2 ^ 64 -> zlen buf = etBUFSIZE -> width <= etBUFSIZE - 10 -> precision <= etBUFSIZE - 10 ->
  exists ds t, conv_radix info f v prefix width precision buf = Ok t /\ radix_text info f prefix width precision v ds t.
Proof. apply conv_radix_run. Qed.

Lemma conv_radix_text_witness :
  let info := Info 120 16 0 etRADIX 16 1 in
  let f := Flags false false false true false true false false in
  exists ds t, conv_radix info f 48879 0 8 (-1) new_buf = Ok t /\ radix_text info f 0 8 (-1) 48879 ds t /\ t = bytes_of_string "0x0000beef".
Proof.
  destruct (conv_radix_text (Info 120 16 0 etRADIX 16 1) (Flags false false false true false true false false) 48879 0 8 (-1) new_buf) as (ds & t & E & H).
  - split; [|by left]. cbn. tauto.
  - split; [discriminate|reflexivity].
  - reflexivity.
  - discriminate.
  - discriminate.
  - exists ds, t. split; [exact E|]. split; [exact H|]. vm_compute in E. by injection E as <-.
Defined.

(** ** Reading SQL literals *)

(** The inside of a literal up to the quote that ends it; a quote is two of them. *)
Fixpoint sql_body (s : list Z) : option (list Z * list Z) :=
  match s with
  | [] => None
  | c :: s =>
    if c =? 39 then
      match s with
      | 39 :: s => option_map (fun r => (39 :: r.1, r.2)) (sql_body s)
      | _ => Some ([], s)
      end
    else option_map (fun r => (c :: r.1, r.2)) (sql_body s)
  end.

(** The same with backslashes that quote the next character. *)
Fixpoint sql_body_escaped (s : list Z) : option (list Z * list Z) :=
  match s with
  | [] => None
  | c :: s =>
    if c =? 39 then
      match s with
      | 39 :: s => option_map (fun r => (39 :: r.1, r.2)) (sql_body_escaped s)
      | _ => Some ([], s)
      end
    else if c =? 92 then
      match s with [] => None | d :: s => option_map (fun r => (d :: r.1, r.2)) (sql_body_escaped s) end
    else option_map (fun r => (c :: r.1, r.2)) (sql_body_escaped s)
  end.

Definition after_literal (rest : list Z) : Prop := forall s, rest <> 39 :: s.

Lemma sql_body_end rest : after_literal rest -> sql_body (39 :: rest) = Some ([], rest) /\ sql_body_escaped (39 :: rest) = Some ([], rest).
Proof.
  intros H. destruct rest as [|c rest]; [done|]. assert (c <> 39) by (intros ->; by destruct (H rest)).
  cbn [sql_body sql_body_escaped]. change (39 =? 39) with true. cbv iota.
  destruct c as [|p|p]; try done. do 6 (destruct p as [p|p|]; try done).
Qed.

Lemma sql_body_escape xtype s rest : xtype = etSQLESCAPE \/ xtype = etSQLESCAPE2 -> after_literal rest ->
  sql_body (sql_escape xtype s ++ 39 :: rest) = Some (s, rest).
Proof.
  intros Hx Hr. induction s as [|c s IH]; [by apply sql_body_end|]. change (sql_escape xtype (c :: s)) with (sql_char xtype c ++ sql_escape xtype s). rewrite <- app_assoc.
  unfold sql_char, is_quote. assert (Ex3 : bool_decide (xtype = etSQLESCAPE3) = false) by (by destruct Hx as [-> | ->]). assert (Ex4 : bool_decide (xtype = etSQLESCAPE4) = false) by (by destruct Hx as [-> | ->]).
  rewrite Ex3, Ex4. cbn [andb]. rewrite orb_false_r. destruct (Z.eqb_spec c 39) as [->|Hc]; cbn [app sql_body].
  - change (39 =? 39) with true. cbv iota. by rewrite IH.
  - destruct (Z.eqb_spec c 39); [done|]. by rewrite IH.
Qed.

Lemma sql_body_escape3 s rest : after_literal rest -> sql_body_escaped (sql_escape etSQLESCAPE3 s ++ 39 :: rest) = Some (s, rest).
Proof.
  intros Hr. induction s as [|c s IH]; [by apply sql_body_end|]. change (sql_escape etSQLESCAPE3 (c :: s)) with (sql_char etSQLESCAPE3 c ++ sql_escape etSQLESCAPE3 s). rewrite <- app_assoc.
  unfold sql_char, is_quote. rewrite bool_decide_true, bool_decide_false by done. cbn [andb]. destruct (Z.eqb_spec c 39) as [->|Hc]; [|destruct (Z.eqb_spec c 92) as [->|Hc2]]; cbn [orb app sql_body_escaped].
  - change (39 =? 39) with true. cbv iota. by rewrite IH.
  - change (92 =? 39) with false. change (92 =? 92) with true. cbv iota. by rewrite IH.
  - destruct (Z.eqb_spec c 39); [done|]. destruct (Z.eqb_spec c 92); [done|]. by rewrite IH.
Qed.

Lemma field_text_plain f t : concat (field_text f 0 t) = t.
Proof.
  unfold field_text. pose proof (zlen_nonneg t). assert (Hp : forall fuel, pad fuel (0 - zlen t) = []).
  { intros [|fuel]; cbn [pad]; [done|]. by destruct (Z.leb_spec (0 - zlen t) 0); [|lia]. }
  rewrite !Hp. destruct (Z.ltb_spec 0 (zlen t)); [by destruct (leftjustify f); cbn; rewrite ?app_nil_r|].
  rewrite (zlen_zero t) by lia. by destruct (leftjustify f).
Qed.

(** A string whose quoted text, twice, is within [int]. *)
Definition quotable (s : list Z) : Prop := zlen s < 2 ^ 29 - 2.

Lemma sql_escape_modest xtype s : quotable s -> zlen (sql_escape xtype s) <= 1073741820.
Proof.
  unfold quotable. intros H. change (2 ^ 29 - 2) with 536870910 in H. rewrite sql_escape_length.
  pose proof (length_filter (fun c => is_quote xtype c = true) s). unfold zlen in *. lia.
Qed.

Lemma printed_text fmt args o : vxprintf false (bytes_of_string fmt) args = Ok o -> modest (concat o.(chunks)) -> no_nul (concat o.(chunks)) -> printed fmt args = Ok (concat o.(chunks)).
Proof.
  intros E Hm Hn. unfold printed, text_of. destruct (ks_vmprintf_text _ _ _ E Hm) as (rest & ->). cbn [mbind res_bind]. by apply cstr_full.
Qed.

Lemma sql_escape_no_nul xtype s : no_nul s -> no_nul (sql_escape xtype s).
Proof.
  intros Hs. unfold sql_escape. apply Forall_concat, Forall_map. eapply Forall_impl; [exact Hs|]. intros c Hc. unfold sql_char.
  by destruct (is_quote _ _); [destruct (bool_decide _)|]; repeat constructor.
Qed.

(** A literal between its quotes, as what a format prints. *)
Lemma printed_literal pre args xtype s : quotable s -> no_nul s ->
  (exists o, vxprintf false (bytes_of_string pre) args = Ok o /\ concat o.(chunks) = 39 :: sql_escape xtype s ++ [39]) ->
  printed pre args = Ok (39 :: sql_escape xtype s ++ [39]).
Proof.
  intros Hq Hs (o & E & Ec). rewrite <- Ec. apply printed_text; [done| |].
  - unfold modest. rewrite Ec, zlen_cons, zlen_app. change (zlen [39]) with 1. pose proof (sql_escape_modest xtype s Hq). unfold INT_MAX. lia.
  - rewrite Ec. constructor; [done|]. apply Forall_app. split; [by apply sql_escape_no_nul|by repeat constructor].
Qed.

Lemma sql_text_fits xtype s : quotable s -> zlen (sql_text xtype (Some s)) < INT_MAX.
Proof.
  intros H. pose proof (sql_escape_modest xtype s H). unfold sql_text, INT_MAX. destruct (bool_decide _); [|lia]. rewrite !zlen_app. change (zlen [39]) with 1. lia.
Qed.

(** The count of the characters so far is an [int]. *)
Ltac counted Hl := repeat (rewrite int_of_ok; [|
  unfold total, INT_MAX; rewrite ?app_nil_l, ?concat_app, ?zlen_app; cbn [concat]; rewrite ?field_text_plain, ?app_nil_r, ?zlen_app; pose proof Hl;
  repeat change (zlen (@nil Z)) with 0; repeat change (zlen [39]) with 1; repeat match goal with |- context [zlen ?l] => pose proof (zlen_nonneg l); generalize dependent (zlen l); intros end; lia];
  lazy -[conv_sql new_buf field_text sql_escape app concat int_of total]).

(** The run of a format around one such conversion. *)
Ltac sql_printed Hl Hf :=
  lazy -[conv_sql new_buf field_text sql_escape app concat int_of total]; counted Hl; rewrite conv_sql_run by (done || exact Hf);
  lazy -[field_text sql_escape app concat int_of total]; counted Hl; (eexists; split; [reflexivity|]);
  cbn [chunks concat]; rewrite ?app_nil_l, ?concat_app, ?app_nil_r, field_text_plain; done.

(** One conversion of a string as the whole format, or between quotes. *)
Lemma printed_sql pre xtype s : (xtype = etSQLESCAPE /\ pre = "'%q'"%string) \/ (xtype = etSQLESCAPE3 /\ pre = "'%w'"%string) -> quotable s -> no_nul s ->
  printed pre [VStr (Some s)] = Ok (39 :: sql_escape xtype s ++ [39]).
Proof.
  intros Hx Hq Hs. apply printed_literal; [done|done|]. pose proof (sql_escape_modest xtype s Hq) as Hl. pose proof (sql_text_fits xtype s Hq) as Hf.
  destruct Hx as [[-> ->]|[-> ->]]; sql_printed Hl Hf.
Qed.


Lemma printed_Q s : quotable s -> no_nul s -> printed "%Q" [VStr (Some s)] = Ok (39 :: sql_escape etSQLESCAPE2 s ++ [39]).
Proof.
  intros Hq Hs. apply printed_literal; [done|done|]. pose proof (sql_escape_modest etSQLESCAPE2 s Hq) as Hl. pose proof (sql_text_fits etSQLESCAPE2 s Hq) as Hf.
  sql_printed Hl Hf.
Qed.



(** [%y] puts a backslash before a quote but not before a backslash: a string that
    ends its own literal. *)
Lemma sql_y_injection :
  printed "'%y'" [VStr (Some (bytes_of_string "\' OR 1=1 --"))] = Ok (bytes_of_string "'\\' OR 1=1 --'") /\
  sql_body_escaped (bytes_of_string "\\' OR 1=1 --'") = Some (bytes_of_string "\", bytes_of_string " OR 1=1 --'").
Proof. vm_compute. repeat split. Qed.

(** [%f] of a large number with a precision of 60: 308 digits, the point and 60
    more do not fit the buffer on the stack. *)
Lemma printf_f_overrun : printed "%.60f" [VDouble (S754_finite false 4503599627370496 970)] = Err OutOfBounds /\
  is_ok (printed "%.6f" [VDouble (S754_finite false 4503599627370496 970)]) = true.
Proof. vm_compute. repeat split. Qed.

(** Of what is not a number the digit is undefined; infinity prints as [NaN]. *)
Lemma printf_nan : printed "%f" [VDouble S754_nan] = Err Overflow /\ printed "%f" [VDouble (S754_infinity false)] = Ok (bytes_of_string "NaN").
Proof. vm_compute. repeat split. Qed.

(** The least integer of 64 bits is negated as a signed number. *)
Lemma printf_min : printed "%lld" [VLong (-9223372036854775808)] = Err Overflow.
Proof. vm_compute. reflexivity. Qed.

(** A buffer of no bytes gets a zero behind it. *)
Lemma snprintfv_zero : ks_vsnprintfv [] 0 [] [] = Err OutOfBounds.
Proof. vm_compute. reflexivity. Qed.

(** When memory runs out on growing, the old block is written past its end. *)
Lemma printf_realloc_fails :
  ks_vmprintf (fun n => n <? 2000) (bytes_of_string "%s%s") [VStr (Some (replicate 600 97)); VStr (Some (replicate 900 97))] = Err OutOfBounds.
Proof. vm_compute. reflexivity. Qed.
End Printf.
