(* ===== verification/Sb.v ===== *)
(** String builders (src/src/ks_sb.c): text collected in a block of a pool that
    grows, appended as strings or printed. *)
From S2P Require Import Prelude Printf.
Local Open Scope Z_scope.

Module Sb.
Import Printf.

Definition KS_PRINT_BUF_SIZE : Z := 350.

(** [data]: the block, or NULL; [used] counts the end of the string. *)
Record ks_sb_t := Sb { pool_owner : bool; data : option (list Z); size : Z; used : Z }.

Section Builder.
(** The sizes for which the pool has memory, and what the memory held that a
    block grows by: a new block is zeroed, the rest of a resized one is not. *)
Context (pool_has : Z -> bool) (junk : nat -> Z).

Definition ks_pool_alloc (n : Z) : option (list Z) := if pool_has n then Some (replicate (Z.to_nat n) 0) else None.
Definition ks_pool_resize (old : list Z) (n : Z) : option (list Z) :=
  if pool_has n then Some (take (Z.to_nat n) old ++ map junk (seq (length old) (Z.to_nat n - length old))) else None.

(** [pool]: one is given. *)
Definition ks_sb_create (pool : bool) (preallocated : Z) : ks_sb_t :=
  let preallocated := if preallocated =? 0 then KS_PRINT_BUF_SIZE * 2 else preallocated in
  Sb (negb pool) (ks_pool_alloc preallocated) preallocated 1.

Definition ks_sb_cstr (sb : ks_sb_t) : res (list Z) :=
  match sb.(data) with None => Err NullDeref | Some m => cstr m 0 end.
Definition ks_sb_length (sb : ks_sb_t) : Z := u64 (sb.(used) - 1).

Definition ks_sb_accommodate (sb : ks_sb_t) (len : Z) : ks_status_t * ks_sb_t :=
  if len =? 0 then (KS_STATUS_SUCCESS, sb) else
  if sb.(size) <? u64 (sb.(used) + len) then
    let needed := u64 (u64 (sb.(used) + len) - sb.(size)) in
    let needed := if needed <? KS_PRINT_BUF_SIZE then KS_PRINT_BUF_SIZE else needed in
    let size := u64 (sb.(size) + needed) in
    match sb.(data) with
    | None => (KS_STATUS_SUCCESS, Sb sb.(pool_owner) (ks_pool_alloc size) size sb.(used))
    | Some m =>
      let m := ks_pool_resize m size in
      (match m with Some _ => KS_STATUS_SUCCESS | None => KS_STATUS_FAIL end, Sb sb.(pool_owner) m size sb.(used))
    end
  else (KS_STATUS_SUCCESS, sb).

(** [str] is the memory behind the pointer; [len + 1] bytes of it are copied. *)
Definition ks_sb_append_ex (sb : ks_sb_t) (str : option (list Z)) (len : Z) : res (ks_status_t * ks_sb_t) :=
  match str with
  | None => Ok (KS_STATUS_SUCCESS, sb)
  | Some str =>
    if len =? 0 then Ok (KS_STATUS_SUCCESS, sb) else
    let '(status, sb) := ks_sb_accommodate sb len in
    if negb (bool_decide (status = KS_STATUS_SUCCESS)) then Ok (KS_STATUS_FAIL, sb) else
    match sb.(data) with
    | None => Err NullDeref
    | Some m =>
      src ← slice str 0 (len + 1);
      m ← blit m (sb.(used) - 1) src;
      Ok (KS_STATUS_SUCCESS, Sb sb.(pool_owner) (Some m) sb.(size) (u64 (sb.(used) + len)))
    end
  end.

Definition ks_sb_append (sb : ks_sb_t) (str : option (list Z)) : res (ks_status_t * ks_sb_t) :=
  match str with
  | None => Ok (KS_STATUS_SUCCESS, sb)
  | Some s => n ← strlen s; ks_sb_append_ex sb str n
  end.

(** The text is printed over the end of the string. *)
Definition ks_sb_printf (sb : ks_sb_t) (fmt : list Z) (args : list value) : res (ks_status_t * ks_sb_t) :=
  let used' := u64 (sb.(used) - 1) in
  let '(status, sb) := ks_sb_accommodate sb KS_PRINT_BUF_SIZE in
  if negb (bool_decide (status = KS_STATUS_SUCCESS)) then Ok (KS_STATUS_FAIL, sb) else
  match sb.(data) with
  | None => Err NullDeref
  | Some m =>
    buf ← slice m used' (zlen m - used');
    r ← ks_vsnprintfv buf (s32 (sb.(size) - used')) fmt args;
    match r with
    | None => Err NullDeref
    | Some t =>
      m ← blit m used' t;
      n ← strlen t;
      Ok (KS_STATUS_SUCCESS, Sb sb.(pool_owner) (Some m) sb.(size) (u64 (sb.(used) + n)))
    end
  end.

(** [json]: what [ks_json_print] returns, memory of the C allocator, which
    [ks_pool_free] takes for a block of a pool: it reads a prefix in front of it. *)
Definition ks_sb_json (sb : ks_sb_t) (json : option (list Z)) : res (ks_status_t * ks_sb_t) :=
  match json with
  | None => Ok (KS_STATUS_FAIL, sb)
  | Some str => _ ← ks_sb_append sb (Some str); Err OutOfBounds
  end.
End Builder.

(** ** What a builder stands for: its text *)

Definition holds (sb : ks_sb_t) (text : list Z) : Prop :=
  exists rest, sb.(data) = Some (text ++ 0 :: rest) /\ sb.(size) = zlen (text ++ 0 :: rest) /\ sb.(used) = zlen text + 1 /\ no_nul text.

Inductive op := Append (s : option (list Z)) | AppendEx (s : list Z) | Print (fmt : list Z) (args : list value) | Accommodate (n : Z).

Definition plenty : Z -> bool := fun _ => true.

Section Runs.
Context (junk : nat -> Z).

Definition exec (sb : ks_sb_t) (o : op) : res (ks_status_t * ks_sb_t) :=
  match o with
  | Append s => ks_sb_append plenty junk sb (option_map (fun s => s ++ [0]) s)
  | AppendEx s => ks_sb_append_ex plenty junk sb (Some (s ++ [0])) (zlen s)
  | Print fmt args => ks_sb_printf plenty junk sb fmt args
  | Accommodate n => Ok (ks_sb_accommodate plenty junk sb n)
  end.

Fixpoint exec_all (sb : ks_sb_t) (ops : list op) : res ks_sb_t :=
  match ops with [] => Ok sb | o :: ops => r ← exec sb o; exec_all r.2 ops end.

(** The text an operation adds; printing adds what the format yields, up to 350
    characters. *)
Inductive adds : op -> list Z -> Prop :=
  | adds_null : adds (Append None) []
  | adds_append s : no_nul s -> adds (Append (Some s)) s
  | adds_append_ex s : no_nul s -> adds (AppendEx s) s
  | adds_print fmt args o t : vxprintf false fmt args = Ok o -> concat o.(chunks) = t -> no_nul t -> zlen t <= KS_PRINT_BUF_SIZE ->
      adds (Print fmt args) t
  | adds_accommodate n : 0 <= n < 2 ^ 30 -> adds (Accommodate n) [].

Lemma accommodate_holds sb text n : holds sb text -> 0 <= n < 2 ^ 30 -> zlen text < 2 ^ 30 -> sb.(size) < 2 ^ 31 ->
  exists sb', ks_sb_accommodate plenty junk sb n = (KS_STATUS_SUCCESS, sb') /\ holds sb' text /\ zlen text + 1 + n <= sb'.(size) /\
    sb'.(size) <= sb.(size) + 350 + n.
Proof.
  intros (rest & Ed & Es & Eu & Hn) H0 Ht Hsz. unfold ks_sb_accommodate. rewrite Ed, Eu. pose proof (zlen_nonneg text). pose proof (zlen_nonneg rest).
  assert (El : zlen (text ++ 0 :: rest) = zlen text + (zlen rest + 1)) by (by rewrite zlen_app, zlen_cons).
  assert (P30 : 2 ^ 30 = 1073741824) by reflexivity. assert (P31 : 2 ^ 31 = 2147483648) by reflexivity. rewrite P30, ?P31 in *.
  destruct (Z.eqb_spec n 0) as [->|Hn0].
  { exists sb. split; [done|]. split; [by exists rest|]. lia. }
  rewrite (u64_id (zlen text + 1 + n)) by lia. destruct (Z.ltb_spec (size sb) (zlen text + 1 + n)); [|exists sb; split; [done|]; split; [by exists rest|lia]].
  rewrite (u64_id (zlen text + 1 + n - size sb)) by lia. set (needed := if _ <? KS_PRINT_BUF_SIZE then KS_PRINT_BUF_SIZE else _).
  assert (Hnd : needed = Z.max 350 (zlen text + 1 + n - size sb)) by (unfold needed, KS_PRINT_BUF_SIZE; destruct (Z.ltb_spec (zlen text + 1 + n - size sb) 350); lia).
  clearbody needed. rewrite u64_id by lia. unfold ks_pool_resize, plenty. rewrite take_ge by (unfold zlen in *; lia).
  eexists. split; [reflexivity|]. split; [|cbn; lia].
  set (k := (Z.to_nat (size sb + needed) - length (text ++ 0%Z :: rest))%nat). exists (rest ++ map junk (seq (length (text ++ 0 :: rest)) k)). cbn [data size used]. rewrite <- app_assoc. cbn [app].
  split; [done|]. split; [rewrite zlen_app, zlen_cons, zlen_app; unfold k, zlen in *; rewrite length_map, length_seq; lia|done].
Qed.

Lemma holds_small sb text : holds sb text -> zlen text < sb.(size).
Proof. intros (rest & _ & -> & _ & _). rewrite zlen_app, zlen_cons. pose proof (zlen_nonneg rest). lia. Qed.

Lemma holds_put sb text t rest : no_nul text -> no_nul t -> sb.(data) = Some ((text ++ t) ++ 0 :: rest) -> sb.(size) = zlen ((text ++ t) ++ 0 :: rest) ->
  sb.(used) = zlen text + 1 + zlen t -> holds sb (text ++ t).
Proof. intros H1 H2 Hd Hs Hu. exists rest. split; [done|]. split; [done|]. split; [rewrite zlen_app; lia|]. by apply Forall_app. Qed.

Lemma append_ex_holds sb text s j : holds sb text -> no_nul s -> zlen s < 2 ^ 30 -> sb.(size) < 2 ^ 30 ->
  exists sb', ks_sb_append_ex plenty junk sb (Some (s ++ 0 :: j)) (zlen s) = Ok (KS_STATUS_SUCCESS, sb') /\ holds sb' (text ++ s) /\ sb'.(size) <= sb.(size) + 350 + zlen s.
Proof.
  intros Hh Hs Hl Hsz. pose proof (holds_small _ _ Hh) as Hsm. pose proof (zlen_nonneg s). pose proof (zlen_nonneg text). unfold ks_sb_append_ex.
  destruct (Z.eqb_spec (zlen s) 0) as [E|Hne]; [apply zlen_zero in E as ->; exists sb; rewrite app_nil_r; split; [done|]; split; [done|]; change (zlen (@nil Z)) with 0; lia|].
  destruct (accommodate_holds sb text (zlen s) Hh) as (sb' & -> & (rest & Ed & Es & Eu & Hn) & Hroom & Hgrow); [lia|lia|lia|]. rewrite bool_decide_true by done. cbn [negb].
  rewrite Ed, Eu. change (s ++ 0 :: j) with ([] ++ s ++ [0] ++ j). rewrite (app_assoc s). rewrite slice_app by (first [done | rewrite zlen_app; done]). cbn [mbind res_bind].
  rewrite Es, zlen_app, zlen_cons in Hroom. replace (zlen text + 1 - 1) with (zlen text) by lia.
  rewrite blit_rest by (first [done | rewrite zlen_app, (zlen_cons 0 rest); change (zlen [0]) with 1; lia]). cbn [mbind res_bind].
  assert (zlen text < 2 ^ 30) by lia. assert (P30 : 2 ^ 30 = 1073741824) by reflexivity. rewrite P30 in *. rewrite u64_id by lia.
  eexists. split; [reflexivity|]. split; [|done]. eapply holds_put; [done|done|cbn [data]|cbn [size]|done].
  - f_equal. rewrite app_assoc, <- (app_assoc _ [0]). reflexivity.
  - rewrite Es. unfold zlen. rewrite !length_app. cbn [length]. rewrite length_drop. unfold zlen in *. cbn [length] in *. lia.
Qed.

Lemma printf_holds sb text fmt args o : holds sb text -> vxprintf false fmt args = Ok o -> let t := concat o.(chunks) in
  no_nul t -> zlen t <= KS_PRINT_BUF_SIZE -> sb.(size) < 2 ^ 30 ->
  exists sb', ks_sb_printf plenty junk sb fmt args = Ok (KS_STATUS_SUCCESS, sb') /\ holds sb' (text ++ t) /\ sb'.(size) <= sb.(size) + 700.
Proof.
  intros Hh E t Ht Hl Hsz. pose proof (holds_small _ _ Hh) as Hsm. pose proof (zlen_nonneg text). pose proof (zlen_nonneg t). unfold ks_sb_printf. cbn zeta.
  assert (P30 : 2 ^ 30 = 1073741824) by reflexivity. assert (P31 : 2 ^ 31 = 2147483648) by reflexivity.
  destruct (accommodate_holds sb text KS_PRINT_BUF_SIZE Hh) as (sb' & -> & (rest & Ed & Es & Eu & Hn) & Hroom & Hgrow); [unfold KS_PRINT_BUF_SIZE; lia|lia|lia|]. rewrite bool_decide_true by done. cbn [negb].
  assert (Eu0 : used sb = zlen text + 1) by (by destruct Hh as (? & _ & _ & ? & _)). rewrite Ed, Eu0, u64_id by lia. replace (zlen text + 1 - 1) with (zlen text) by lia.
  set (buf := 0 :: rest). assert (Esz : size sb' = zlen text + zlen buf) by (rewrite Es; unfold buf; by rewrite zlen_app).
  replace (zlen (text ++ buf) - zlen text) with (zlen buf) by (rewrite zlen_app; lia).
  pose proof (slice_app text buf [] (zlen text) (zlen buf) eq_refl eq_refl) as Esl. rewrite app_nil_r in Esl. rewrite Esl. cbn [mbind res_bind].
  rewrite s32_id by (unfold KS_PRINT_BUF_SIZE in *; pose proof (zlen_nonneg buf); lia). rewrite Esz. replace (zlen text + zlen buf - zlen text) with (zlen buf) by lia.
  destruct (ks_vsnprintfv_text fmt args o buf E ltac:(unfold t, KS_PRINT_BUF_SIZE, INT_MAX in *; lia)) as (rest' & -> & El); [unfold buf; rewrite zlen_cons; pose proof (zlen_nonneg rest); lia|]. cbn [mbind res_bind]. fold t in El |- *.
  unfold KS_PRINT_BUF_SIZE in *. rewrite take_ge in El |- * by (unfold zlen in *; lia).
  pose proof (blit_app text buf [] (t ++ 0 :: rest') (zlen text) eq_refl ltac:(lia)) as Eb. rewrite !app_nil_r in Eb. rewrite Eb. cbn [mbind res_bind].
  rewrite strlen_app by done. cbn [mbind res_bind]. rewrite Eu, u64_id by lia. eexists. split; [reflexivity|]. split; [|cbn; lia].
  eapply holds_put; [done|done|cbn [data]|cbn [size]|done]; [by rewrite app_assoc|]. rewrite <- app_assoc, zlen_app, El. lia.
Qed.

(** *** One operation, and a run of them *)

Definition weight (o : op) (t : list Z) : Z := 700 + zlen t + match o with Accommodate n => n | _ => 0 end.

Lemma exec_holds sb text o t : holds sb text -> adds o t -> sb.(size) + zlen t < 2 ^ 30 ->
  exists sb', exec sb o = Ok (KS_STATUS_SUCCESS, sb') /\ holds sb' (text ++ t) /\ sb'.(size) <= sb.(size) + weight o t.
Proof.
  intros Hh Ha Hsz. pose proof (holds_small _ _ Hh) as Hsm. pose proof (zlen_nonneg t). pose proof (zlen_nonneg text). unfold weight.
  destruct Ha as [|s Hs|s Hs|fmt args o t E <- Hs Hl|n Hn]; cbn [exec option_map].
  - exists sb. rewrite app_nil_r. split; [done|]. split; [done|lia].
  - cbn [ks_sb_append]. change (s ++ [0]) with (s ++ 0 :: []) at 1. rewrite strlen_app by done. cbn [mbind res_bind].
    destruct (append_ex_holds sb text s [] Hh Hs) as (sb' & -> & ? & ?); [lia|lia|]. exists sb'. split; [done|]. split; [done|lia].
  - destruct (append_ex_holds sb text s [] Hh Hs) as (sb' & -> & ? & ?); [lia|lia|]. exists sb'. split; [done|]. split; [done|lia].
  - destruct (printf_holds sb text fmt args o Hh E Hs Hl) as (sb' & -> & ? & ?); [lia|]. exists sb'. split; [done|]. split; [done|lia].
  - destruct (accommodate_holds sb text n Hh) as (sb' & -> & ? & _ & ?); [lia|lia|lia|]. exists sb'. rewrite app_nil_r. split; [done|]. split; [done|lia].
Qed.

Definition budget (ops : list op) (ts : list (list Z)) : Z := foldr Z.add 0 (zip_with weight ops ts).

Lemma weight_covers o t : adds o t -> 700 + zlen t <= weight o t.
Proof. unfold weight. destruct 1; lia. Qed.

Lemma budget_covers ops ts : Forall2 adds ops ts -> zlen (concat ts) <= budget ops ts.
Proof.
  unfold budget. induction 1 as [|o t ops ts H _ IH]; cbn [concat zip_with foldr]; [by change (zlen (@nil Z)) with 0|].
  rewrite zlen_app. pose proof (weight_covers _ _ H). lia.
Qed.

Lemma exec_all_holds ops ts sb text : Forall2 adds ops ts -> holds sb text -> sb.(size) + budget ops ts < 2 ^ 30 ->
  exists sb', exec_all sb ops = Ok sb' /\ holds sb' (text ++ concat ts) /\ sb'.(size) < 2 ^ 30.
Proof.
  intros HF. revert sb text. induction HF as [|o t ops ts Ha HF IH]; intros sb text Hh Hb.
  - exists sb. cbn [concat exec_all] in *. rewrite app_nil_r. cbn in Hb. split; [done|]. split; [done|lia].
  - unfold budget in Hb. cbn [zip_with foldr] in Hb. fold (budget ops ts) in Hb. pose proof (budget_covers _ _ HF).
    pose proof (weight_covers _ _ Ha). pose proof (zlen_nonneg (concat ts)). destruct (exec_holds sb text o t Hh Ha) as (sb1 & E & Hh1 & Hs1); [lia|].
    destruct (IH sb1 _ Hh1) as (sb' & E' & Hh' & Hs'); [lia|]. exists sb'. cbn [exec_all concat]. rewrite E. cbn [mbind res_bind snd]. by rewrite app_assoc.
Qed.

Lemma create_holds pool n : 0 <= n -> holds (ks_sb_create plenty pool n) [] /\ (ks_sb_create plenty pool n).(size) <= n + 700.
Proof.
  intros Hn. unfold ks_sb_create, ks_pool_alloc, plenty, KS_PRINT_BUF_SIZE. set (k := if n =? 0 then _ else n).
  assert (0 < k <= n + 700) by (unfold k; destruct (Z.eqb_spec n 0); lia). clearbody k. cbn [size]. split; [|lia].
  exists (replicate (Z.to_nat k - 1) 0). cbn [data size used app].
  assert (E : replicate (Z.to_nat k) 0 = 0 :: replicate (Z.to_nat k - 1) 0) by (destruct (Z.to_nat k) eqn:?; [lia|]; cbn; by rewrite Nat.sub_0_r).
  split; [by rewrite E|]. split; [rewrite <- E, zlen_replicate; lia|]. split; [done|constructor].
Qed.

Lemma holds_reads sb text : holds sb text -> zlen text < 2 ^ 30 -> ks_sb_cstr sb = Ok text /\ ks_sb_length sb = zlen text.
Proof.
  intros (rest & Ed & _ & Eu & Hn) Hl. unfold ks_sb_cstr, ks_sb_length. rewrite Ed, Eu. split; [by apply cstr_full|].
  pose proof (zlen_nonneg text). rewrite Z.add_simpl_r. apply u64_id. change (2 ^ 30) with 1073741824 in Hl. lia.
Qed.

End Runs.

Section Examples.
Notation "'b' s" := (bytes_of_string s) (at level 9, s constr, only parsing).


(** *** Where the builder does not do as it says *)

Definition sb0 : ks_sb_t := ks_sb_create plenty true 16.
Definition after (r : res (ks_status_t * ks_sb_t)) : res (ks_status_t * res (list Z) * Z) :=
  r ← r; Ok (r.1, ks_sb_cstr r.2, ks_sb_length r.2).

(** [ks_sb_append_ex] copies [len + 1] bytes: of a part of a longer string it
    leaves the next character in the text, beyond the length it keeps. *)
Lemma append_ex_part : after (ks_sb_append_ex plenty (fun _ => 0) sb0 (Some (b "hello" ++ [0])) 3) = Ok (KS_STATUS_SUCCESS, Ok (b "hell"), 3).
Proof. by vm_compute. Qed.

(** Of an object of just [len] bytes it reads one more. *)
Lemma append_ex_overreads : after (ks_sb_append_ex plenty (fun _ => 0) sb0 (Some (b "hello")) 5) = Err OutOfBounds.
Proof. by vm_compute. Qed.

(** What is printed has to fit the room left, at least 350 bytes: a longer text
    is cut, and the call succeeds. *)
Lemma printf_cuts : after (ks_sb_printf plenty (fun _ => 0) sb0 (b "%s") [VStr (Some (replicate 400 65 ++ [0]))]) =
  Ok (KS_STATUS_SUCCESS, Ok (replicate 365 65), 365).
Proof. by vm_compute. Qed.

(** A builder whose first block the pool did not give is created all the same. *)
Lemma create_without_block : let no_pool := fun _ => false in
  ks_sb_cstr (ks_sb_create no_pool true 16) = Err NullDeref /\ after (ks_sb_append no_pool (fun _ => 0) (ks_sb_create no_pool true 16) (Some (b "x" ++ [0]))) = Err NullDeref.
Proof. by vm_compute. Qed.

(** [ks_sb_json] never returns properly with a text. *)
Lemma json_frees_foreign pool_has junk sb j : exists f, ks_sb_json pool_has junk sb (Some j) = Err f.
Proof. unfold ks_sb_json. destruct (ks_sb_append _ _ _ _) as [?|f]; [by exists OutOfBounds|by exists f]. Qed.
End Examples.
End Sb.
