(* ===== verification/Socket.v ===== *)
(** Sockets (src/src/ks_socket.c, POSIX build): addresses, options, connecting,
    listening, waiting, sending and receiving, the local address. The system's
    calls act on a table of descriptors and answer as the system decides. *)
From S2P Require Import Prelude StrUtil.
From stdpp Require Import gmap.
Local Open Scope Z_scope.

Module Socket.

Definition KS_SOCK_INVALID : Z := -1.
Definition KS_SO_NONBLOCK : Z := 2999.

(** ** The system *)

Definition EINTR : Z := 4.
Definition EBADF : Z := 9.
Definition EAGAIN : Z := 11.
Definition ETIMEDOUT : Z := 110.
Definition EINPROGRESS : Z := 115.

(** [EWOULDBLOCK] is [EAGAIN]. *)
Definition ks_errno_is_blocking (errcode : Z) : bool :=
  (errcode =? EAGAIN) || (errcode =? EINPROGRESS) || (errcode =? EINTR) || (errcode =? ETIMEDOUT) ||
  (errcode =? 35) || (errcode =? 730035).
Definition ks_errno_is_interupt (errcode : Z) : bool := errcode =? EINTR.

Definition AF_INET : Z := 2.
Definition AF_INET6 : Z := 10.
Definition O_RDWR : Z := 2.
Definition O_NONBLOCK : Z := 2048.
Definition SOL_SOCKET : Z := 1.
Definition SOL_IPV6 : Z := 41.
Definition TCP_NODELAY : Z := 1.
Definition SO_REUSEADDR : Z := 2.
Definition SO_BROADCAST : Z := 6.
Definition SO_SNDBUF : Z := 7.
Definition SO_RCVBUF : Z := 8.
Definition SO_KEEPALIVE : Z := 9.
Definition SO_LINGER : Z := 13.
Definition IPV6_V6ONLY : Z := 26.

Definition KS_POLL_READ : Z := 1.
Definition KS_POLL_WRITE : Z := 2.
Definition KS_POLL_ERROR : Z := 4.
Definition KS_POLL_HUP : Z := 8.
Definition KS_POLL_RDNORM : Z := 16.
Definition KS_POLL_RDBAND : Z := 32.
Definition KS_POLL_PRI : Z := 64.
Definition KS_POLL_INVALID : Z := 128.

Definition POLLIN : Z := 1.
Definition POLLPRI : Z := 2.
Definition POLLOUT : Z := 4.
Definition POLLERR : Z := 8.
Definition POLLHUP : Z := 16.
Definition POLLNVAL : Z := 32.
Definition POLLRDNORM : Z := 64.
Definition POLLRDBAND : Z := 128.

(** An open descriptor: its status flags and the calls made on it. *)
Inductive event :=
  | SetSockOpt (level name value : Z)
  | Connect (address : list Z)
  | Bind (address : list Z)
  | Listen (backlog : Z)
  | Shutdown (how : Z).
Record fd_info := Fd { fl : Z; events : list event }.

(** The open descriptors, [errno], and what the system will answer: results of
    calls, an error as minus its number (nothing left: 0), and addresses. *)
Record sys := Sys { fds : gmap Z fd_info; errno : Z; answers : list Z; addresses : list (list Z) }.

Definition M (A : Type) : Type := sys -> res (A * sys).
#[global] Instance M_ret : MRet M := fun A a w => Ok (a, w).
#[global] Instance M_bind : MBind M := fun A B f m w => match m w with Ok (a, w) => f a w | Err e => Err e end.
Definition lift {A} (r : res A) : M A := fun w => match r with Ok a => Ok (a, w) | Err e => Err e end.
Definition assert (b : bool) : M unit := lift (ks_assert b).

Definition set_fds (f : gmap Z fd_info) (w : sys) : sys := Sys f w.(errno) w.(answers) w.(addresses).
Definition get_errno : M Z := fun w => Ok (w.(errno), w).

(** The next answer; a negative one sets [errno] and gives -1. *)
Definition answer : M Z := fun w =>
  match w.(answers) with
  | [] => Ok (0, w)
  | a :: l => Ok (if a <? 0 then (-1, Sys w.(fds) (- a) l w.(addresses)) else (a, Sys w.(fds) w.(errno) l w.(addresses)))
  end.

Definition next_address (n : nat) : M (list Z) := fun w =>
  match w.(addresses) with
  | [] => Ok (replicate n 0, w)
  | a :: l => Ok (take n (a ++ replicate n 0), Sys w.(fds) w.(errno) w.(answers) l)
  end.

(** The lowest descriptor not in use. *)
Definition lowest (m : gmap Z fd_info) : Z :=
  default 0 (head (filter (fun z => m !! z = None) (map Z.of_nat (seq 0 (S (size m)))))).

Definition open_fd : M Z := fun w =>
  let fd := lowest w.(fds) in Ok (fd, set_fds (<[fd := Fd O_RDWR []]> w.(fds)) w).

(** What a call does to a descriptor, if it succeeds; else [EBADF] or as the system answers. *)
Definition on_fd (fd : Z) (f : fd_info -> fd_info) : M Z := fun w =>
  match w.(fds) !! fd with
  | None => Ok (-1, Sys w.(fds) EBADF w.(answers) w.(addresses))
  | Some _ =>
    match answer w with
    | Ok (r, w) => Ok (r, if r =? -1 then w else set_fds (alter f fd w.(fds)) w)
    | Err e => Err e
    end
  end.
Definition did (e : event) (i : fd_info) : fd_info := Fd i.(fl) (i.(events) ++ [e]).

Definition socket (family : Z) : M Z := r ← answer; if (r =? -1) then mret (-1) else open_fd.
(** An [accept] that has no answer fails: the last client has come. *)
Definition accept (fd : Z) : M Z := fun w =>
  match w.(answers) with
  | [] => Ok (-1, w)
  | _ => (r ← on_fd fd id; if r =? -1 then mret (-1) else open_fd) w
  end.
Definition closesocket (fd : Z) : M unit := fun w => Ok (tt, set_fds (delete fd w.(fds)) w).
Definition fcntl_getfl (fd : Z) : M Z := fun w =>
  match w.(fds) !! fd with
  | None => Ok (-1, Sys w.(fds) EBADF w.(answers) w.(addresses))
  | Some i => Ok (i.(fl), w)
  end.
Definition fcntl_setfl (fd flags : Z) : M Z := on_fd fd (fun i => Fd flags i.(events)).
Definition setsockopt (fd level name value : Z) : M Z := on_fd fd (did (SetSockOpt level name value)).
Definition connect (fd : Z) (address : list Z) : M Z := on_fd fd (did (Connect address)).
Definition bind (fd : Z) (address : list Z) : M Z := on_fd fd (did (Bind address)).
Definition listen (fd backlog : Z) : M Z := on_fd fd (did (Listen backlog)).
Definition shutdown (fd how : Z) : M Z := on_fd fd (did (Shutdown how)).
(** [send], [recv] and the like: the count. *)
Definition transfer (fd : Z) : M Z := on_fd fd id.
(** [poll] of one descriptor: the count and [revents]. *)
Definition poll (events ms : Z) : M (Z * Z) := s ← answer; if (0 <? s) then (r ← answer; mret (s, r)) else mret (s, 0).

(** ** Options *)

Definition ks_socket_option (socket option_name : Z) (enabled : bool) : M ks_status_t :=
  let opt := if enabled then 1 else 0 in
  let of_result (r : Z) := if r =? 0 then KS_STATUS_SUCCESS else KS_STATUS_FAIL in
  if bool_decide (option_name ∈ [SO_REUSEADDR; TCP_NODELAY; SO_KEEPALIVE; SO_LINGER]) then
    r ← setsockopt socket SOL_SOCKET option_name opt; mret (of_result r)
  else if option_name =? KS_SO_NONBLOCK then
    flags ← fcntl_getfl socket;
    let flags := if enabled then Z.lor flags O_NONBLOCK else Z.land flags (Z.lnot O_NONBLOCK) in
    r ← fcntl_setfl socket flags;
    mret (if r =? -1 then KS_STATUS_FAIL else KS_STATUS_SUCCESS)
  else if option_name =? IPV6_V6ONLY then
    r ← setsockopt socket SOL_IPV6 IPV6_V6ONLY opt; mret (of_result r)
  else mret KS_STATUS_FAIL.

Definition ks_socket_sndbuf (socket bufsize : Z) : M ks_status_t :=
  r ← setsockopt socket SOL_SOCKET SO_SNDBUF bufsize; mret (if r =? 0 then KS_STATUS_SUCCESS else KS_STATUS_FAIL).
Definition ks_socket_rcvbuf (socket bufsize : Z) : M ks_status_t :=
  r ← setsockopt socket SOL_SOCKET SO_RCVBUF bufsize; mret (if r =? 0 then KS_STATUS_SUCCESS else KS_STATUS_FAIL).
Definition ks_socket_reuseaddr (socket : Z) : M Z := setsockopt socket SOL_SOCKET SO_REUSEADDR 1.
Definition ks_socket_shutdown (sock how : Z) : M ks_status_t :=
  r ← shutdown sock how; mret (if r =? 0 then KS_STATUS_SUCCESS else KS_STATUS_FAIL).

(** The status and what [*sock] is then. *)
Definition ks_socket_close (sock : Z) : M (ks_status_t * Z) :=
  if sock =? KS_SOCK_INVALID then mret (KS_STATUS_FAIL, sock)
  else closesocket sock ;; mret (KS_STATUS_SUCCESS, KS_SOCK_INVALID).

Definition ks_socket_common_setup (sock : Z) : M unit :=
  if sock =? KS_SOCK_INVALID then mret tt else
  ks_socket_option sock KS_SO_NONBLOCK true ;;
  ks_socket_option sock TCP_NODELAY true ;;
  ks_socket_option sock SO_KEEPALIVE true ;;
  mret tt.

(** ** Waiting *)

Definition ks_poll (events timeout : Z) : M (Z * Z) := poll events timeout.

Definition bit_set (flags b : Z) : bool := negb (Z.land flags b =? 0).
Definition when (b : bool) (v : Z) : Z := if b then v else 0.

Definition poll_events (flags : Z) : Z :=
  Z.lor (Z.lor (Z.lor (Z.lor (when (bit_set flags KS_POLL_READ) POLLIN) (when (bit_set flags KS_POLL_WRITE) POLLOUT))
    (when (bit_set flags KS_POLL_RDNORM) POLLRDNORM)) (when (bit_set flags KS_POLL_RDBAND) POLLRDBAND))
    (when (bit_set flags KS_POLL_PRI) POLLPRI).

Definition poll_result (revents : Z) : Z :=
  Z.lor (Z.lor (Z.lor (Z.lor (Z.lor (Z.lor (Z.lor (when (bit_set revents POLLIN) KS_POLL_READ)
    (when (bit_set revents POLLOUT) KS_POLL_WRITE)) (when (bit_set revents POLLERR) KS_POLL_ERROR))
    (when (bit_set revents POLLHUP) KS_POLL_HUP)) (when (bit_set revents POLLRDNORM) KS_POLL_RDNORM))
    (when (bit_set revents POLLRDBAND) KS_POLL_RDBAND)) (when (bit_set revents POLLPRI) KS_POLL_PRI))
    (when (bit_set revents POLLNVAL) KS_POLL_INVALID).

Definition ks_wait_sock (sock ms flags : Z) : M Z :=
  if sock =? KS_SOCK_INVALID then mret KS_POLL_INVALID else
  v ← ks_poll (poll_events flags) (s32 ms);
  let '(s, revents) := v in
  mret (if s <? 0 then s else if 0 <? s then poll_result revents else 0).

(** ** Addresses

    [ks_sockaddr_t]: the union of [sockaddr_in] and [sockaddr_in6] as its 28 bytes.
    Both have the family and the port first; the address is at 4 or 8. *)
Record ks_sockaddr := Addr { family : Z; v : list Z; port : Z; host : list Z }.

Definition zero_addr : ks_sockaddr := Addr 0 (replicate 28 0) 0 (replicate 48 0).
Definition known_family (f : Z) : bool := (f =? AF_INET) || (f =? AF_INET6).
Definition addr_off (f : Z) : Z := if f =? AF_INET then 4 else 8.
Definition addr_len (f : Z) : Z := if f =? AF_INET then 4 else 16.
Definition struct_len (f : Z) : Z := if f =? AF_INET then 16 else 28.

(** An integer of 16 bits as it lies in memory, least significant byte first. *)
Definition le16 (n : Z) : list Z := [n mod 256; n / 256 mod 256].

Section Addresses.
(** [inet_ntop], [inet_pton] (what it stores, if anything) and [inet_addr] (the
    four bytes as they lie in memory, 255.255.255.255 for what is no address). *)
Context (inet_ntop : Z -> list Z -> list Z) (inet_pton6 : list Z -> option (list Z)) (inet_addr : list Z -> list Z).

Definition ks_addr_get_host (addr : ks_sockaddr) : res ks_sockaddr :=
  ks_assert (known_family addr.(family)) ;;
  a ← slice addr.(v) (addr_off addr.(family)) (addr_len addr.(family));
  let t := inet_ntop addr.(family) a in
  (* ENOSPC: nothing is written *)
  h ← (if zlen t <? zlen addr.(host) then blit addr.(host) 0 (t ++ [0]) else Ok addr.(host));
  Ok (Addr addr.(family) addr.(v) addr.(port) h).

Definition ks_addr_get_port (addr : ks_sockaddr) : res ks_sockaddr :=
  ks_assert (known_family addr.(family)) ;;
  p ← slice addr.(v) 2 2;
  Ok (Addr addr.(family) addr.(v) (from_be p) addr.(host)).

Definition finish (addr : ks_sockaddr) : res ks_sockaddr :=
  addr ← ks_addr_get_host addr; ks_addr_get_port addr.

(** Whether they are the same; [None]: NULL. *)
Definition ks_addr_cmp (sa1 sa2 : option ks_sockaddr) : res bool :=
  match sa1, sa2 with
  | Some a, Some b =>
    if negb (a.(family) =? b.(family)) then Ok false else
    if known_family a.(family) then
      pa ← slice a.(v) 2 2; pb ← slice b.(v) 2 2;
      da ← slice a.(v) (addr_off a.(family)) (addr_len a.(family));
      db ← slice b.(v) (addr_off a.(family)) (addr_len a.(family));
      Ok (bool_decide (da = db) && bool_decide (pa = pb))
    else Ok false
  | _, _ => Ok false
  end.

Definition ks_addr_copy (addr src : ks_sockaddr) : res (ks_status_t * ks_sockaddr) :=
  ks_assert (known_family src.(family)) ;;
  d ← slice src.(v) 0 (struct_len src.(family));
  w ← blit addr.(v) 0 d;
  addr ← finish (Addr src.(family) w addr.(port) addr.(host));
  Ok (KS_STATUS_SUCCESS, addr).

Definition pick_family (f : Z) (h : option (list Z)) : Z :=
  let f := if known_family f then f else AF_INET in
  match h with Some h => if bool_decide (58 ∈ h) then AF_INET6 else f | None => f end.

(** The fields of a zeroed address. *)
Definition fill (f : Z) (prt : Z) (a : option (list Z)) : res ks_sockaddr :=
  w ← blit zero_addr.(v) 0 (le16 f);
  w ← blit w 2 (be 2 (u16 prt));
  w ← (match a with Some a => blit w (addr_off f) a | None => Ok w end);
  Ok (Addr f w 0 zero_addr.(host)).

Definition ks_addr_set (h : option (list Z)) (prt f : Z) : res (ks_status_t * ks_sockaddr) :=
  let f := pick_family f h in
  let a := match h with
           | Some h => if f =? AF_INET then Some (inet_addr h) else inet_pton6 h
           | None => None   (* INADDR_ANY, in6addr_any: zeros *)
           end in
  addr ← fill f prt a; addr ← finish addr;
  Ok (KS_STATUS_SUCCESS, addr).

Definition ks_addr_set_raw (data : list Z) (prt f : Z) : res (ks_status_t * ks_sockaddr) :=
  let f := pick_family f None in
  d ← slice data 0 (addr_len f);
  addr ← fill f prt (Some d); addr ← finish addr;
  Ok (KS_STATUS_SUCCESS, addr).

(** The bytes [*data] points to; their number is [*datalen]. *)
Definition ks_addr_raw_data (addr : ks_sockaddr) : res (list Z) :=
  ks_assert (known_family addr.(family)) ;;
  slice addr.(v) (addr_off addr.(family)) (addr_len addr.(family)).

(** The results of [getaddrinfo], family and bytes of the address; or its error. *)
Definition EAI_NONAME : Z := -2.
Definition ks_addr_getbyname (name : option (list Z)) (prt : Z) (getaddrinfo : Z + list (Z * list Z)) (old : ks_sockaddr) :
    res (ks_status_t * ks_sockaddr) :=
  ks_assert (bool_decide (is_Some name)) ;;
  match getaddrinfo with
  | inl e => Ok (if e =? EAI_NONAME then KS_STATUS_NOT_FOUND else KS_STATUS_FAIL, old)
  | inr [] => Err AssertFail
  | inr ((f, a) :: _) =>
    r ← ks_addr_set_raw a prt f;
    Ok (KS_STATUS_SUCCESS, r.2)
  end.

(** ** Connecting and listening *)

Definition family_ok (addr : ks_sockaddr) : M unit := assert (known_family addr.(family)).
Definition raw_sockaddr (addr : ks_sockaddr) : M (list Z) := lift (slice addr.(v) 0 (struct_len addr.(family))).

Definition close_invalid (sock : Z) : M Z := ks_socket_close sock ;; mret KS_SOCK_INVALID.

(** After [connect]: waiting for it and making the socket blocking again. *)
Definition wait_connected (sock nb_timeout : Z) : M Z :=
  if 0 <? nb_timeout then
    poll_flags ← ks_wait_sock sock nb_timeout (Z.lor KS_POLL_READ KS_POLL_WRITE);
    if bit_set poll_flags KS_POLL_ERROR then close_invalid sock
    else if negb (bit_set poll_flags (Z.lor KS_POLL_READ KS_POLL_WRITE)) then close_invalid sock
    else
      st ← ks_socket_option sock KS_SO_NONBLOCK false;
      if decide (st = KS_STATUS_SUCCESS) then mret sock else close_invalid sock
  else mret sock.

Definition ks_socket_connect_ex (addr : ks_sockaddr) (nb_timeout : Z) : M Z :=
  family_ok addr ;;
  sock ← socket addr.(family);
  if sock =? KS_SOCK_INVALID then mret KS_SOCK_INVALID else
  st ← (if 0 <? nb_timeout then ks_socket_option sock KS_SO_NONBLOCK true else mret KS_STATUS_SUCCESS);
  if decide (st = KS_STATUS_SUCCESS) then
    a ← raw_sockaddr addr;
    r ← connect sock a;
    e ← get_errno;
    if negb (r =? 0) && negb (ks_errno_is_blocking e) then close_invalid sock
    else wait_connected sock nb_timeout
  else close_invalid sock.

Definition ks_socket_connect (addr : ks_sockaddr) : M Z := ks_socket_connect_ex addr 0.

Definition ks_addr_bind (server_sock : Z) (addr : ks_sockaddr) : M ks_status_t :=
  family_ok addr ;;
  a ← raw_sockaddr addr;
  r ← bind server_sock a;
  mret (if r <? 0 then KS_STATUS_FAIL else KS_STATUS_SUCCESS).

(** [for (;;)]: the clients accepted and their addresses, as the callback gets
    them; the loop ends when [accept] fails. *)
Fixpoint accept_loop (fuel : nat) (server_sock f : Z) (acc : list (Z * ks_sockaddr)) : M (list (Z * ks_sockaddr)) :=
  match fuel with
  | O => lift (Err NoFuel)
  | S fuel =>
    client_sock ← accept server_sock;
    if client_sock =? KS_SOCK_INVALID then mret acc else
    let g := if f =? AF_INET then AF_INET else AF_INET6 in
    raw ← next_address (Z.to_nat (struct_len g));
    addr ← lift (w ← blit zero_addr.(v) 0 raw; finish (Addr g w 0 zero_addr.(host)));
    accept_loop fuel server_sock f (acc ++ [(client_sock, addr)])
  end.

Definition close_server (server_sock : Z) (status : ks_status_t) (acc : list (Z * ks_sockaddr)) :
    M (ks_status_t * list (Z * ks_sockaddr)) :=
  if server_sock =? KS_SOCK_INVALID then mret (status, acc)
  else ks_socket_shutdown server_sock 2 ;; ks_socket_close server_sock ;; mret (status, acc).

(** [backlog]: 0 stands for 10000. *)
Definition ks_listen_sock (server_sock : Z) (addr : ks_sockaddr) (backlog : Z) : M (ks_status_t * list (Z * ks_sockaddr)) :=
  ks_socket_reuseaddr server_sock ;;
  st ← ks_addr_bind server_sock addr;
  if decide (st = KS_STATUS_SUCCESS) then
    r ← listen server_sock (if backlog =? 0 then 10000 else backlog);
    if r <? 0 then close_server server_sock KS_STATUS_FAIL []
    else
      fuel ← (fun w => Ok (S (length w.(answers)), w) : res (nat * sys));
      acc ← accept_loop fuel server_sock addr.(family) [];
      close_server server_sock KS_STATUS_FAIL acc
  else close_server server_sock KS_STATUS_FAIL [].

Definition ks_listen (h : option (list Z)) (prt f backlog : Z) : M (ks_status_t * list (Z * ks_sockaddr)) :=
  let f := pick_family f h in
  r ← lift (ks_addr_set h prt f);
  let '(st, addr) := r in
  if decide (st = KS_STATUS_SUCCESS) then
    server_sock ← socket f;
    if server_sock =? KS_SOCK_INVALID then mret (KS_STATUS_FAIL, [])
    else ks_listen_sock server_sock addr backlog
  else mret (KS_STATUS_FAIL, []).

(** ** Sending and receiving

    What the calls do with the data is the system's; [datalen] is what is asked
    for and then what was done. *)

(** [do ... while] the call is interrupted. *)
Fixpoint io_loop (fuel : nat) (sock : Z) : M Z :=
  match fuel with
  | O => lift (Err NoFuel)
  | S fuel =>
    r ← transfer sock;
    e ← get_errno;
    if (r =? -1) && ks_errno_is_interupt e then io_loop fuel sock else mret r
  end.
Definition io_call (sock : Z) : M Z := fun w => io_loop (S (length w.(answers))) sock w.

Definition io_status (r e datalen : Z) : ks_status_t * Z :=
  if 0 <? r then (KS_STATUS_SUCCESS, u64 r)
  else if r =? 0 then (KS_STATUS_DISCONNECTED, datalen)
  else if ks_errno_is_blocking e then (KS_STATUS_BREAK, datalen)
  else (KS_STATUS_FAIL, datalen).

Definition ks_socket_send (sock datalen : Z) : M (ks_status_t * Z) :=
  r ← io_call sock; e ← get_errno; mret (io_status r e datalen).
Definition ks_socket_recv (sock datalen : Z) : M (ks_status_t * Z) :=
  r ← io_call sock; e ← get_errno; mret (io_status r e datalen).
Definition ks_socket_sendto (sock datalen : Z) (addr : ks_sockaddr) : M (ks_status_t * Z) :=
  family_ok addr ;;
  r ← io_call sock; e ← get_errno; mret (io_status r e datalen).
Definition ks_socket_recvfrom (sock datalen : Z) (addr : ks_sockaddr) : M (ks_status_t * Z * ks_sockaddr) :=
  family_ok addr ;;
  r ← io_call sock; e ← get_errno;
  if 0 <? r then
    raw ← next_address (Z.to_nat (struct_len addr.(family)));
    addr ← lift (w ← blit addr.(v) 0 raw; finish (Addr addr.(family) w addr.(port) addr.(host)));
    mret (io_status r e datalen, addr)
  else mret (io_status r e datalen, addr).

(** ** The local address *)

(** What [SIOCGIFCONF] and the like tell: addresses and masks. *)
Context (interfaces : list (list Z * list Z)).

Definition get_netmask (me : list Z) : M (Z * option (list Z)) :=
  sock ← socket AF_INET;
  if sock <? 0 then closesocket sock ;; mret (-1, None) else
  r ← on_fd sock id;
  if r <? 0 then closesocket sock ;; mret (-1, None) else
  closesocket sock ;;
  match head (filter (fun i => i.1 = me) (take 20 interfaces)) with
  | Some i => mret (0, Some i.2)
  | None => mret (-1, None)
  end.

(** [doh:] *)
Definition doh {A} (tmp_socket : Z) (v : A) : M A :=
  if 0 <? tmp_socket then closesocket tmp_socket ;; mret v else mret v.

(** [getsockname]: the result and the structure. *)
Definition getsockname (fd : Z) (n : nat) : M (Z * list Z) :=
  r ← on_fd fd id; if r =? -1 then mret (r, replicate n 0) else (a ← next_address n; mret (r, a)).

Definition copied (buf src : list Z) (len : Z) : res (list Z) :=
  r ← StrUtil.ks_copy_string (Some buf) (Some src) len; Ok (default (buf, 0) r).1.

(** The status, the buffer and the mask, if it was stored. *)
Definition ks_find_local_ip (buf : list Z) (len : Z) (mask : bool) (f : Z) (route_ip : option (list Z)) :
    M (ks_status_t * list Z * option (list Z)) :=
  if len <? 16 then mret (KS_STATUS_FAIL, buf, None) else
  if f =? AF_INET then
    buf ← lift (copied buf (bytes_of_string "127.0.0.1" ++ [0]) len);
    let base := default (bytes_of_string "82.45.148.209") route_ip in
    let failed (sock : Z) := doh sock (KS_STATUS_FAIL, buf, None) in
    tmp_socket ← socket AF_INET;
    if tmp_socket =? -1 then failed tmp_socket else
    r ← setsockopt tmp_socket SOL_SOCKET SO_BROADCAST 1;
    if r =? -1 then failed tmp_socket else
    r ← connect tmp_socket (le16 AF_INET ++ be 2 4242 ++ inet_addr base ++ replicate 8 0);
    if r =? -1 then failed tmp_socket else
    o ← getsockname tmp_socket 16;
    let '(r, iface_out) := o in
    if r =? -1 then failed tmp_socket else
    a ← lift (slice iface_out 4 4);
    if bool_decide (a = [0; 0; 0; 0]) then failed tmp_socket else
    (* [getnameinfo] with NI_NUMERICHOST into [abuf] *)
    let t := inet_ntop AF_INET a in
    let abuf := if zlen t <? 25 then t ++ replicate (25 - length t) 0 else replicate 25 0 in
    buf ← lift (copied buf abuf len);
    m ← (if mask then get_netmask a else mret (0, None));
    doh tmp_socket (KS_STATUS_SUCCESS, buf, m.2)
  else if f =? AF_INET6 then
    buf ← lift (copied buf (bytes_of_string "::1" ++ [0]) len);
    let base := default (bytes_of_string "2001:503:BA3E::2:30") route_ip in
    let failed (sock : Z) := doh sock (KS_STATUS_FAIL, buf, None) in
    tmp_socket ← socket AF_INET6;
    if tmp_socket =? -1 then failed tmp_socket else
    r ← connect tmp_socket (le16 AF_INET6 ++ be 2 4242 ++ replicate 4 0 ++ default (replicate 16 0) (inet_pton6 base) ++ replicate 4 0);
    if r =? -1 then failed tmp_socket else
    o ← getsockname tmp_socket 28;
    let '(r, iface_out) := o in
    if r =? -1 then failed tmp_socket else
    a ← lift (slice iface_out 8 16);
    let t := inet_ntop AF_INET6 a in
    buf ← lift (if zlen t <? len - 1 then blit buf 0 (t ++ [0]) else Ok buf);
    doh tmp_socket (KS_STATUS_SUCCESS, buf, None)
  else mret (KS_STATUS_FAIL, buf, None).

Definition ks_ip_route (buf : list Z) (len : Z) (route_ip : list Z) : M (ks_status_t * list Z * option (list Z)) :=
  ks_find_local_ip buf len false (if bool_decide (58 ∈ route_ip) then AF_INET6 else AF_INET) (Some route_ip).
End Addresses.

(** ** Calls that return

    [wp m Q w]: from [w], [m] returns without a fault and [Q] holds then. *)

Definition wp {A} (m : M A) (Q : A -> sys -> Prop) (w : sys) : Prop :=
  match m w with Ok (a, w') => Q a w' | Err _ => False end.

Lemma wp_ret {A} (a : A) Q w : Q a w -> wp (mret a) Q w.
Proof. done. Qed.

Lemma wp_bind {A B} (m : M A) (f : A -> M B) Q w : wp m (fun a => wp (f a) Q) w -> wp (m ≫= f) Q w.
Proof. unfold wp, mbind, M_bind. by destruct (m w) as [[a w']|]. Qed.

Lemma wp_mono {A} (m : M A) (P Q : A -> sys -> Prop) w : wp m P w -> (forall a w', P a w' -> Q a w') -> wp m Q w.
Proof. unfold wp. destruct (m w) as [[a w']|]; auto. Qed.

Lemma wp_lift {A} (r : res A) a Q w : r = Ok a -> Q a w -> wp (lift r) Q w.
Proof. intros ->. done. Qed.

Lemma wp_errno (Q : Z -> sys -> Prop) w : Q w.(errno) w -> wp get_errno Q w.
Proof. done. Qed.

(** One more answer is used. *)
Definition used (w w' : sys) : Prop := (length w'.(answers) <= length w.(answers))%nat.

Lemma wp_answer (Q : Z -> sys -> Prop) w :
  (forall r w', w'.(fds) = w.(fds) -> -1 <= r -> used w w' -> Q r w') -> wp answer Q w.
Proof.
  intros H. unfold wp, answer. destruct (answers w) as [|a l] eqn:E.
  - apply H; [done|lia|]. by unfold used.
  - destruct (Z.ltb_spec a 0); cbn; (apply H; [done|lia|]); unfold used; rewrite E; cbn; lia.
Qed.

(** A call on an open descriptor changes it or fails. *)
Lemma wp_on_fd fd f (Q : Z -> sys -> Prop) w i : w.(fds) !! fd = Some i ->
  (forall w', w'.(fds) = w.(fds) -> used w w' -> Q (-1) w') ->
  (forall r w', w'.(fds) = <[fd := f i]> w.(fds) -> 0 <= r -> used w w' -> Q r w') -> wp (on_fd fd f) Q w.
Proof.
  intros Hi Hf Ho. unfold wp, on_fd. rewrite Hi. pose proof (wp_answer (fun r w' => w'.(fds) = w.(fds) /\ -1 <= r /\ used w w') w (fun r w' E Hr Hu => conj E (conj Hr Hu))) as Ha.
  unfold wp in Ha. destruct (answer w) as [[r w']|]; [|done]. destruct Ha as (E & Hr & Hu).
  destruct (Z.eqb_spec r (-1)) as [->|]; [by apply Hf|]. apply Ho; [|lia|done]. cbn. rewrite E.
  apply map_eq. intros j. destruct (decide (fd = j)) as [<-|Hne].
  - by rewrite lookup_alter_eq, lookup_insert_eq, Hi.
  - by rewrite lookup_alter_ne, lookup_insert_ne.
Qed.

Lemma lowest_unused m : m !! lowest m = None /\ 0 <= lowest m.
Proof.
  unfold lowest. set (l := map Z.of_nat (seq 0 (S (size m)))).
  destruct (filter (fun z => m !! z = None) l) as [|z zs] eqn:E; cbn.
  - exfalso. assert (Hin : (list_to_set l : gset Z) ⊆ dom m).
    { intros z Hz. apply elem_of_list_to_set in Hz. apply elem_of_dom. destruct (m !! z) eqn:Em; [done|].
      assert (Hf : z ∈ filter (fun z => m !! z = None) l) by by apply list_elem_of_filter. rewrite E in Hf. by apply not_elem_of_nil in Hf. }
    apply subseteq_size in Hin. rewrite size_dom, size_list_to_set in Hin.
    + unfold l in Hin. rewrite length_map, length_seq in Hin. lia.
    + unfold l. apply NoDup_fmap_2; [|apply NoDup_seq]. intros x y. apply Nat2Z.inj.
  - assert (Hz : z ∈ filter (fun z => m !! z = None) l) by (rewrite E; by left).
    apply list_elem_of_filter in Hz as [Hz Hl]. split; [done|]. apply list_elem_of_fmap in Hl as (n & -> & _). lia.
Qed.

(** A new descriptor. *)
Lemma wp_open_fd (Q : Z -> sys -> Prop) w :
  (forall fd w', w.(fds) !! fd = None -> 0 <= fd -> w'.(fds) = <[fd := Fd O_RDWR []]> w.(fds) -> used w w' -> Q fd w') -> wp open_fd Q w.
Proof. intros H. destruct (lowest_unused (fds w)). apply H; [done|done|done|]. unfold used. cbn. lia. Qed.

Lemma wp_socket f (Q : Z -> sys -> Prop) w :
  (forall w', w'.(fds) = w.(fds) -> Q (-1) w') ->
  (forall fd w', w.(fds) !! fd = None -> 0 <= fd -> w'.(fds) = <[fd := Fd O_RDWR []]> w.(fds) -> Q fd w') -> wp (socket f) Q w.
Proof.
  intros Hf Ho. apply wp_bind, wp_answer. intros r w' E Hr _. destruct (Z.eqb_spec r (-1)).
  - by apply wp_ret, Hf.
  - apply wp_open_fd. rewrite E. intros. by apply Ho.
Qed.

Lemma wp_close fd (Q : unit -> sys -> Prop) w :
  (forall w', w'.(fds) = delete fd w.(fds) -> Q tt w') -> wp (closesocket fd) Q w.
Proof. intros H. by apply H. Qed.

(** [w] is [w0] with the descriptor [fd] open besides. *)
Definition owns (w0 : sys) (fd : Z) (i : fd_info) (w : sys) : Prop :=
  w0.(fds) !! fd = None /\ 0 <= fd /\ w.(fds) = <[fd := i]> w0.(fds).

Lemma owns_open w0 fd i w : owns w0 fd i w -> w.(fds) !! fd = Some i.
Proof. intros (_ & _ & ->). apply lookup_insert_eq. Qed.

Lemma owns_same w0 fd i w w' : owns w0 fd i w -> w'.(fds) = w.(fds) -> owns w0 fd i w'.
Proof. intros (? & ? & E) E'. split; [done|]. split; [done|congruence]. Qed.

Lemma owns_set w0 fd i j w w' : owns w0 fd i w -> w'.(fds) = <[fd := j]> w.(fds) -> owns w0 fd j w'.
Proof. intros (? & ? & E) E2. split; [done|]. split; [done|]. by rewrite E2, E, insert_insert_eq. Qed.

Lemma owns_valid w0 fd i w : owns w0 fd i w -> (fd =? KS_SOCK_INVALID) = false.
Proof. intros (_ & ? & _). apply Z.eqb_neq. unfold KS_SOCK_INVALID. lia. Qed.

Lemma wp_owned w0 fd i f (Q : Z -> sys -> Prop) w : owns w0 fd i w ->
  (forall w', owns w0 fd i w' -> used w w' -> Q (-1) w') -> (forall r w', owns w0 fd (f i) w' -> 0 <= r -> used w w' -> Q r w') ->
  wp (on_fd fd f) Q w.
Proof.
  intros Ho Hf Hs. apply (wp_on_fd fd f Q w i); [by eapply owns_open|..].
  - intros w' E. apply Hf. by eapply owns_same.
  - intros r w' E. apply Hs. by eapply owns_set.
Qed.

Lemma wp_socket_owns w0 f (Q : Z -> sys -> Prop) w : w.(fds) = w0.(fds) ->
  (forall w', w'.(fds) = w0.(fds) -> Q (-1) w') -> (forall fd w', owns w0 fd (Fd O_RDWR []) w' -> Q fd w') -> wp (socket f) Q w.
Proof.
  intros E Hf Ho. apply wp_socket.
  - intros w' E'. apply Hf. congruence.
  - intros fd w' Hn Hp E'. apply Ho. split; [congruence|]. split; [done|congruence].
Qed.

Lemma wp_ks_close w0 fd i (Q : ks_status_t * Z -> sys -> Prop) w : owns w0 fd i w ->
  (forall w', w'.(fds) = w0.(fds) -> Q (KS_STATUS_SUCCESS, KS_SOCK_INVALID) w') -> wp (ks_socket_close fd) Q w.
Proof.
  intros Ho H. unfold ks_socket_close. rewrite (owns_valid _ _ _ _ Ho). apply wp_bind, wp_close. intros w' E. apply wp_ret, H.
  destruct Ho as (Hn & _ & Ew). by rewrite E, Ew, delete_insert_id.
Qed.

Lemma wp_close_invalid w0 fd i (Q : Z -> sys -> Prop) w : owns w0 fd i w ->
  (forall w', w'.(fds) = w0.(fds) -> Q KS_SOCK_INVALID w') -> wp (close_invalid fd) Q w.
Proof. intros Ho H. apply wp_bind. eapply wp_ks_close; [done|]. intros w' E. by apply wp_ret, H. Qed.

(** [KS_SO_NONBLOCK] changes one bit of the status flags, or fails. *)
Lemma wp_nonblock w0 fd i (on : bool) (Q : ks_status_t -> sys -> Prop) w : owns w0 fd i w ->
  (forall w', owns w0 fd i w' -> Q KS_STATUS_FAIL w') ->
  (forall w', owns w0 fd (Fd (if on then Z.lor i.(fl) O_NONBLOCK else Z.land i.(fl) (Z.lnot O_NONBLOCK)) i.(events)) w' ->
    Q KS_STATUS_SUCCESS w') -> wp (ks_socket_option fd KS_SO_NONBLOCK on) Q w.
Proof.
  intros Ho Hf Hs. unfold ks_socket_option. rewrite bool_decide_false by (vm_compute; set_solver). rewrite Z.eqb_refl.
  apply wp_bind. unfold wp at 1, fcntl_getfl. rewrite (owns_open _ _ _ _ Ho). apply wp_bind. unfold fcntl_setfl.
  eapply wp_owned; [done|..].
  - intros w' Ho' _. by apply wp_ret, Hf.
  - intros r w' Ho' Hr _. destruct (Z.eqb_spec r (-1)); [lia|]. by apply wp_ret, Hs.
Qed.

Lemma wp_poll e ms (Q : Z * Z -> sys -> Prop) w : (forall v w', w'.(fds) = w.(fds) -> Q v w') -> wp (poll e ms) Q w.
Proof.
  intros H. apply wp_bind, wp_answer. intros r w' E _ _. destruct (0 <? r); [|by apply wp_ret, H].
  apply wp_bind, wp_answer. intros r2 w2 E2 _ _. apply wp_ret, H. congruence.
Qed.

Lemma wp_wait sock ms flags (Q : Z -> sys -> Prop) w : (forall r w', w'.(fds) = w.(fds) -> Q r w') -> wp (ks_wait_sock sock ms flags) Q w.
Proof.
  intros H. unfold ks_wait_sock. destruct (sock =? _); [by apply wp_ret, H|]. apply wp_bind, wp_poll. intros [s r] w' E. by apply wp_ret, H.
Qed.

(** What connecting gives back: nothing new, or a new descriptor that blocks. *)
Definition connected (w0 : sys) (address : list Z) (r : Z) (w : sys) : Prop :=
  r = KS_SOCK_INVALID /\ w.(fds) = w0.(fds) \/
  exists i, owns w0 r i w /\ Z.testbit i.(fl) 11 = false /\ (i.(events) = [Connect address] \/ i.(events) = []).

Lemma wp_wait_connected w0 fd i t a w : owns w0 fd i w -> (t <= 0 -> Z.testbit i.(fl) 11 = false) ->
  i.(events) = [Connect a] \/ i.(events) = [] -> wp (wait_connected fd t) (connected w0 a) w.
Proof.
  intros Ho Hb He. assert (Hinv : forall w i, owns w0 fd i w -> wp (close_invalid fd) (connected w0 a) w).
  { intros w1 i1 Ho1. eapply wp_close_invalid; [done|]. intros w' E. by left. }
  unfold wait_connected. destruct (Z.ltb_spec 0 t); [|apply wp_ret; right; exists i; auto].
  apply wp_bind, wp_wait. intros pf w1 E1. pose proof (owns_same _ _ _ _ _ Ho E1) as Ho1.
  destruct (bit_set pf KS_POLL_ERROR); [by eapply Hinv|]. destruct (negb _); [by eapply Hinv|].
  apply wp_bind. eapply wp_nonblock; [done|..]; intros w2 Ho2.
  - rewrite decide_False by done. by eapply Hinv.
  - rewrite decide_True by done. apply wp_ret. right. eexists. split; [done|]. cbn [fl events]. split; [|done].
    rewrite Z.land_spec, Z.lnot_spec by lia. change (Z.testbit O_NONBLOCK 11) with true. by rewrite andb_false_r.
Qed.

Lemma raw_ok addr : known_family addr.(family) = true -> zlen addr.(v) = 28 -> exists a, slice addr.(v) 0 (struct_len addr.(family)) = Ok a.
Proof.
  intros Hf Hv. unfold slice, struct_len. rewrite Hv. destruct (family addr =? AF_INET); cbn; by eexists.
Qed.

(** ** Addresses *)

Lemma len_le16 n : zlen (le16 n) = 2.
Proof. done. Qed.

Lemma blit_total (m bs : list Z) off : 0 <= off -> off + zlen bs <= zlen m ->
  blit m off bs = Ok (take (Z.to_nat off) m ++ bs ++ drop (Z.to_nat (off + zlen bs)) m).
Proof. intros Ho Hl. unfold blit. destruct (Z.leb_spec 0 off); [|lia]. by destruct (Z.leb_spec (off + zlen bs) (zlen m)); [|lia]. Qed.

Lemma slice_total (m : list Z) off n : 0 <= off -> 0 <= n -> off + n <= zlen m -> exists d, slice m off n = Ok d.
Proof.
  intros Ho Hn Hl. unfold slice. destruct (Z.leb_spec 0 off); [|lia]. destruct (Z.leb_spec 0 n); [|lia].
  destruct (Z.leb_spec (off + n) (zlen m)); [|lia]. by eexists.
Qed.

Lemma known_two f : known_family f = true -> f = AF_INET \/ f = AF_INET6.
Proof. unfold known_family. intros H. apply orb_prop in H as [->%Z.eqb_eq| ->%Z.eqb_eq]; auto. Qed.

(** An address with [data] and [prt] where they belong. *)
Definition holds_addr (f : Z) (data : list Z) (prt : Z) (a : ks_sockaddr) : Prop :=
  a.(family) = f /\ zlen a.(v) = 28 /\ zlen a.(host) = 48 /\ slice a.(v) 2 2 = Ok (be 2 prt) /\
  slice a.(v) (addr_off f) (addr_len f) = Ok data.

Lemma fill_ok f prt data : known_family f = true -> 0 <= prt < 65536 -> zlen data = addr_len f ->
  exists a, fill f prt (Some data) = Ok a /\ holds_addr f data prt a.
Proof.
  intros Hf Hp Hd. unfold fill. rewrite u16_id by lia.
  assert (Hb : exists x y, be 2 prt = [x; y]) by (eexists _, _; reflexivity). destruct Hb as (x & y & Eb). unfold holds_addr. rewrite Eb.
  destruct (known_two f Hf) as [-> | ->]; unfold addr_len in Hd; cbn [Z.eqb Pos.eqb AF_INET AF_INET6] in Hd; unfold zlen in Hd.
  - destruct data as [|d0 [|d1 [|d2 [|d3 [|]]]]]; cbn in Hd; try lia. eexists. split; [reflexivity|]. repeat split; reflexivity.
  - do 16 (destruct data as [|? data]; cbn in Hd; try lia). destruct data; cbn in Hd; try lia.
    eexists. split; [reflexivity|]. repeat split; reflexivity.
Qed.

Lemma be2_inj p q : 0 <= p < 65536 -> 0 <= q < 65536 -> be 2 p = be 2 q -> p = q.
Proof.
  intros Hp Hq E. rewrite <- (from_be_be 2 p), <- (from_be_be 2 q) by (change (256 ^ Z.of_nat 2) with 65536; lia). by rewrite E.
Qed.

Lemma cmp_ok f1 d1 p1 a1 f2 d2 p2 a2 : known_family f1 = true -> 0 <= p1 < 65536 -> 0 <= p2 < 65536 ->
  holds_addr f1 d1 p1 a1 -> holds_addr f2 d2 p2 a2 ->
  ks_addr_cmp (Some a1) (Some a2) = Ok (bool_decide (f1 = f2 /\ d1 = d2 /\ p1 = p2)).
Proof.
  intros Hf Hp1 Hp2 (E1 & _ & _ & Hp1' & Ha1) (E2 & _ & _ & Hp2' & Ha2). unfold ks_addr_cmp. rewrite E1, E2.
  destruct (Z.eqb_spec f1 f2) as [<-|Hne]; cbn [negb]; [|by rewrite bool_decide_false by tauto].
  rewrite Hf, Hp1', Hp2', Ha1, Ha2. cbn [mbind res_bind]. f_equal. rewrite <- bool_decide_and. apply bool_decide_ext.
  split; [intros [? ?]; split; [done|]; split; [done|by apply be2_inj]|intros (_ & -> & ->); done].
Qed.

Lemma pick_known f h : known_family (pick_family f h) = true.
Proof. unfold pick_family. destruct h as [h|]; [destruct (bool_decide (58 ∈ h)); [done|]|]; by destruct (known_family f) eqn:E. Qed.

Section AddressLaws.
Context (inet_ntop : Z -> list Z -> list Z) (inet_pton6 : list Z -> option (list Z)) (inet_addr : list Z -> list Z).

Lemma finish_ok f data prt a : known_family f = true -> 0 <= prt < 65536 -> holds_addr f data prt a ->
  exists h, finish inet_ntop a = Ok (Addr f a.(v) prt h) /\ zlen h = 48 /\
    (zlen (inet_ntop f data) < 48 -> no_nul (inet_ntop f data) -> cstr h 0 = Ok (inet_ntop f data)).
Proof.
  intros Hf Hp (Ef & Hv & Hh & E2 & Ea). unfold finish, ks_addr_get_host, ks_addr_get_port. rewrite Ef, Hf, Ea. cbn [ks_assert mbind res_bind].
  rewrite Hh. set (t := inet_ntop f data). pose proof (zlen_nonneg t). destruct (Z.ltb_spec (zlen t) 48) as [Hlt|Hge].
  - rewrite blit_total by (rewrite ?zlen_app; change (zlen [0]) with 1; lia). cbn [mbind res_bind family v host Z.to_nat take app].
    rewrite Hf, E2. cbn [ks_assert mbind res_bind]. rewrite from_be_be by (change (256 ^ Z.of_nat 2) with 65536; lia).
    eexists. split; [reflexivity|]. rewrite Z.add_0_l. change (take (Z.to_nat 0) ?m) with (@nil Z). rewrite app_nil_l.
    assert (Et : zlen (t ++ [0]) = zlen t + 1) by by rewrite zlen_app. split.
    + rewrite zlen_app, Et, zlen_drop_le by lia. lia.
    + intros _ Hn. rewrite <- app_assoc. by apply cstr_full.
  - cbn [mbind res_bind family v host]. rewrite Hf, E2. cbn [ks_assert mbind res_bind]. rewrite from_be_be by (change (256 ^ Z.of_nat 2) with 65536; lia).
    eexists. split; [reflexivity|]. split; [done|lia].
Qed.

Lemma set_raw_ok f prt data : known_family f = true -> 0 <= prt < 65536 -> zlen data = addr_len f ->
  exists a, ks_addr_set_raw inet_ntop data prt f = Ok (KS_STATUS_SUCCESS, a) /\ holds_addr f data prt a /\ a.(port) = prt /\
    (zlen (inet_ntop f data) < 48 -> no_nul (inet_ntop f data) -> cstr a.(host) 0 = Ok (inet_ntop f data)).
Proof.
  intros Hf Hp Hd. unfold ks_addr_set_raw, pick_family. rewrite Hf, <- Hd.
  assert (E : slice data 0 (zlen data) = Ok data).
  { rewrite <- (app_nil_r data) at 1. by apply (slice_app [] data []). }
  rewrite E. cbn [mbind res_bind]. destruct (fill_ok f prt data Hf Hp Hd) as (a & -> & Ha). cbn [mbind res_bind].
  destruct (finish_ok f data prt a Hf Hp Ha) as (h & -> & Hh & Ht). cbn [mbind res_bind]. eexists. split; [reflexivity|].
  destruct Ha as (? & ? & ? & ? & ?). by split.
Qed.

Lemma copy_ok f data prt a b : known_family f = true -> 0 <= prt < 65536 -> holds_addr f data prt a -> zlen b.(v) = 28 -> zlen b.(host) = 48 ->
  exists c, ks_addr_copy inet_ntop b a = Ok (KS_STATUS_SUCCESS, c) /\ holds_addr f data prt c /\ c.(port) = prt.
Proof.
  intros Hf Hp (Ef & Hv & Hh & E2 & Ea) Hvb Hhb. unfold ks_addr_copy. rewrite Ef, Hf. cbn [ks_assert mbind res_bind].
  assert (Hs : 0 <= struct_len f <= 28 /\ addr_off f + addr_len f <= struct_len f /\ 4 <= struct_len f /\ 0 <= addr_off f /\ 0 <= addr_len f).
  { destruct (known_two f Hf) as [-> | ->]; vm_compute; repeat split; discriminate. }
  assert (Esl : slice a.(v) 0 (struct_len f) = Ok (take (Z.to_nat (struct_len f)) a.(v))).
  { unfold slice. rewrite Hv. destruct (Z.leb_spec 0 (struct_len f)); [|lia]. by destruct (Z.leb_spec (0 + struct_len f) 28); [|lia]. }
  rewrite Esl. cbn [mbind res_bind]. set (d := take _ a.(v)). assert (Hd : zlen d = struct_len f) by (apply zlen_take_le; lia).
  rewrite blit_total by lia. cbn [mbind res_bind Z.to_nat take app].
  assert (Hpre : forall off n x, slice a.(v) off n = Ok x -> off + n <= struct_len f ->
    slice (d ++ drop (Z.to_nat (0 + zlen d)) b.(v)) off n = Ok x).
  { intros off n x. unfold slice. destruct (Z.leb_spec 0 off); [|done]. destruct (Z.leb_spec 0 n); [|done]. cbn [andb].
    destruct (Z.leb_spec (off + n) (zlen (v a))); [|done]. intros [= <-] Hle. rewrite zlen_app, zlen_drop_le by lia.
    destruct (Z.leb_spec (off + n) (zlen d + (zlen (v b) - (0 + zlen d)))); [|lia]. f_equal. unfold d, zlen in *.
    rewrite drop_app_le, take_app_le by (rewrite ?length_drop, length_take; lia). rewrite <- (take_drop (Z.to_nat (struct_len f)) (v a)) at 2.
    rewrite drop_app_le, take_app_le; [done|rewrite ?length_drop, length_take; lia..]. }
  destruct (finish_ok f data prt (Addr f (d ++ drop (Z.to_nat (0 + zlen d)) b.(v)) b.(port) b.(host)) Hf Hp) as (h & E & Hh' & _).
  { split; [done|]. split; [cbn; rewrite zlen_app, zlen_drop_le; lia|]. split; [done|]. cbn [v]. split; apply Hpre; [done|lia|done|lia]. }
  change (take (Z.to_nat 0) (v b) ++ ?l) with l. rewrite E. cbn [mbind res_bind]. eexists. split; [reflexivity|]. split; [|done]. split; [done|]. cbn [v host].
  split; [rewrite zlen_app, zlen_drop_le; lia|]. split; [done|]. split; apply Hpre; [done|lia|done|lia].
Qed.

Lemma finish_total a : known_family a.(family) = true -> zlen a.(v) = 28 ->
  exists a', finish inet_ntop a = Ok a' /\ a'.(family) = a.(family) /\ a'.(v) = a.(v).
Proof.
  intros Hf Hv. unfold finish, ks_addr_get_host, ks_addr_get_port. rewrite Hf. cbn [ks_assert mbind res_bind].
  assert (Hb : 0 <= addr_off a.(family) /\ 0 <= addr_len a.(family) /\ addr_off a.(family) + addr_len a.(family) <= 28).
  { destruct (known_two _ Hf) as [-> | ->]; vm_compute; repeat split; discriminate. }
  destruct (slice_total a.(v) (addr_off a.(family)) (addr_len a.(family))) as (d & ->); [lia..|]. cbn [mbind res_bind].
  set (t := inet_ntop _ d). pose proof (zlen_nonneg t). destruct (Z.ltb_spec (zlen t) (zlen a.(host))).
  - rewrite blit_total by (rewrite ?zlen_app; change (zlen [0]) with 1; lia). cbn [mbind res_bind family v]. rewrite Hf.
    destruct (slice_total a.(v) 2 2) as (p & ->); [lia..|]. cbn [ks_assert mbind res_bind]. by eexists.
  - cbn [mbind res_bind family v]. rewrite Hf. destruct (slice_total a.(v) 2 2) as (p & ->); [lia..|].
    cbn [ks_assert mbind res_bind]. by eexists.
Qed.

Lemma addr_set_ok h prt f : (forall t, zlen (inet_addr t) = 4) -> (forall t a, inet_pton6 t = Some a -> zlen a = 16) ->
  exists a, ks_addr_set inet_ntop inet_pton6 inet_addr h prt f = Ok (KS_STATUS_SUCCESS, a) /\ a.(family) = pick_family f h /\ zlen a.(v) = 28.
Proof.
  intros H4 H6. unfold ks_addr_set. pose proof (pick_known f h) as Hf. set (g := pick_family f h) in *.
  set (a := match h with Some h => _ | None => None end).
  assert (Ha : match a with Some d => zlen d = addr_len g | None => True end).
  { unfold a. destruct h as [h|]; [|done]. destruct (Z.eqb_spec g AF_INET) as [Eg|]; [rewrite Eg; apply H4|].
    destruct (inet_pton6 h) eqn:E; [|done]. rewrite (H6 _ _ E). unfold addr_len. by destruct (Z.eqb_spec g AF_INET). }
  assert (Hfill : exists b, fill g prt a = Ok b /\ b.(family) = g /\ zlen b.(v) = 28).
  { unfold fill. rewrite (blit_total zero_addr.(v)) by (vm_compute; discriminate). cbn [mbind res_bind].
    set (w1 := take _ _ ++ _). assert (Hw1 : zlen w1 = 28) by reflexivity.
    assert (Hbe : zlen (be 2 (u16 prt)) = 2) by reflexivity.
    rewrite (blit_total w1) by (rewrite ?Hbe, ?Hw1; lia). cbn [mbind res_bind].
    set (w2 := take _ w1 ++ _). assert (Hw2 : zlen w2 = 28) by reflexivity. clearbody w2.
    destruct a as [d|]; [|by eexists].
    assert (Hb : 0 <= addr_off g /\ addr_off g + addr_len g <= 28) by (destruct (known_two _ Hf) as [-> | ->]; vm_compute; split; discriminate).
    pose proof (zlen_nonneg d). rewrite blit_total by lia. cbn [mbind res_bind]. eexists. split; [reflexivity|]. split; [done|]. cbn [v].
    rewrite !zlen_app, zlen_take_le, zlen_drop_le by lia. lia. }
  destruct Hfill as (b & -> & Hbf & Hbv). cbn [mbind res_bind]. destruct (finish_total b) as (c & -> & Hc1 & Hc2); [by rewrite Hbf|done|].
  cbn [mbind res_bind]. exists c. split; [done|]. by rewrite Hc1, Hc2.
Qed.
End AddressLaws.

(** ** Listening *)

(** The table with a new descriptor for each client. *)
Definition hand (clients : list (Z * ks_sockaddr)) (m : gmap Z fd_info) : gmap Z fd_info :=
  foldl (fun m c => <[c.1 := Fd O_RDWR []]> m) m clients.

(** Clients whose descriptors are new and apart. *)
Definition new_clients (clients : list (Z * ks_sockaddr)) (m : gmap Z fd_info) : Prop :=
  NoDup clients.*1 /\ Forall (fun c => m !! c.1 = None) clients.

Lemma hand_lookup clients : forall m x, x ∉ clients.*1 -> hand clients m !! x = m !! x.
Proof.
  unfold hand. induction clients as [|c clients IH]; intros m x Hx; [done|]. cbn in *. apply not_elem_of_cons in Hx as [Hc Hx].
  rewrite IH by done. by rewrite lookup_insert_ne.
Qed.

Lemma hand_in clients : forall m x, x ∈ clients.*1 -> is_Some (hand clients m !! x).
Proof.
  unfold hand. induction clients as [|c clients IH]; intros m x Hx; [by apply not_elem_of_nil in Hx|]. cbn in *.
  destruct (decide (x ∈ clients.*1)); [by apply IH|]. apply elem_of_cons in Hx as [->|]; [|done].
  fold (hand clients (<[c.1:=Fd O_RDWR []]> m)). rewrite hand_lookup by done. rewrite lookup_insert_eq. by eexists.
Qed.

Lemma hand_delete clients : forall m x, x ∉ clients.*1 -> delete x (hand clients m) = hand clients (delete x m).
Proof.
  unfold hand. induction clients as [|c clients IH]; intros m x Hx; [done|]. cbn in *. apply not_elem_of_cons in Hx as [Hc Hx].
  by rewrite IH, delete_insert_ne by done.
Qed.

Lemma wp_accept server i (Q : Z -> sys -> Prop) w : w.(fds) !! server = Some i ->
  (forall w', w'.(fds) = w.(fds) -> Q (-1) w') ->
  (forall fd w', w.(fds) !! fd = None -> 0 <= fd -> w'.(fds) = <[fd := Fd O_RDWR []]> w.(fds) ->
    (length w'.(answers) < length w.(answers))%nat -> Q fd w') -> wp (accept server) Q w.
Proof.
  intros Hi Hf Ho. unfold wp, accept. destruct (answers w) as [|a l] eqn:E; [by apply Hf|].
  unfold on_fd, mbind, M_bind. rewrite Hi. unfold answer. rewrite E. destruct (Z.ltb_spec a 0).
  - by apply Hf.
  - destruct (Z.eqb_spec a (-1)); [lia|].
    assert (Eid : alter id server (fds w) = fds w).
    { apply map_eq. intros j. destruct (decide (server = j)) as [<-|]; [by rewrite lookup_alter_eq, Hi|by rewrite lookup_alter_ne]. }
    unfold open_fd, set_fds. cbn [fds answers]. rewrite Eid. destruct (lowest_unused (fds w)). apply Ho; [done|done|done|cbn; lia].
Qed.

Lemma wp_next_address n (Q : list Z -> sys -> Prop) w : (forall a w', length a = n -> w'.(fds) = w.(fds) -> w'.(answers) = w.(answers) -> Q a w') ->
  wp (next_address n) Q w.
Proof.
  intros H. unfold wp, next_address. destruct (addresses w) as [|a l]; apply H; try done.
  - by rewrite length_replicate.
  - rewrite length_take, length_app, length_replicate. lia.
Qed.

Section Listening.
Context (inet_ntop : Z -> list Z -> list Z) (inet_pton6 : list Z -> option (list Z)) (inet_addr : list Z -> list Z).
Hypothesis (H4 : forall t, zlen (inet_addr t) = 4) (H6 : forall t a, inet_pton6 t = Some a -> zlen a = 16).

Lemma wp_accept_loop server i f m : m !! server = Some i -> forall fuel acc w,
  w.(fds) = hand acc m -> new_clients acc m -> (length w.(answers) < fuel)%nat ->
  wp (accept_loop inet_ntop fuel server f acc) (fun acc' w' => w'.(fds) = hand acc' m /\ new_clients acc' m) w.
Proof.
  intros Hs. induction fuel as [|fuel IH]; intros acc w Ew [Hnd Hnew] Hl; [lia|]. cbn [accept_loop].
  assert (Hsn : server ∉ acc.*1).
  { intros Hin. apply list_elem_of_fmap in Hin as (c & -> & Hc). rewrite Forall_forall in Hnew. specialize (Hnew c Hc). cbn in Hnew. congruence. }
  apply wp_bind. eapply wp_accept; [rewrite Ew, hand_lookup by done; exact Hs|..].
  - intros w' E. rewrite Z.eqb_refl. apply wp_ret. split; [by rewrite E|done].
  - intros fd w' Hn Hp E Hl'. destruct (Z.eqb_spec fd KS_SOCK_INVALID); [unfold KS_SOCK_INVALID in *; lia|].
    set (g := if f =? AF_INET then AF_INET else AF_INET6).
    assert (Hg : known_family g = true) by (unfold g; by destruct (f =? AF_INET)).
    apply wp_bind, wp_next_address. intros raw w2 Hraw E2 Ea2.
    assert (Hsl : 0 <= struct_len g <= 28) by (destruct (known_two _ Hg) as [-> | ->]; vm_compute; split; discriminate).
    assert (Hraw' : zlen raw = struct_len g) by (unfold zlen; lia).
    assert (Haddr : exists a, (w ← blit zero_addr.(v) 0 raw; finish inet_ntop (Addr g w 0 zero_addr.(host))) = Ok a).
    { change 28 with (zlen zero_addr.(v)) in Hsl. rewrite blit_total by lia. cbn [mbind res_bind].
      edestruct finish_total as (a & E3 & _); cycle 2; [exists a; exact E3|done|]. cbn [v].
      change (take (Z.to_nat 0) zero_addr.(v)) with (@nil Z). rewrite app_nil_l, zlen_app, zlen_drop_le by lia.
      change (zlen zero_addr.(v)) with 28. lia. }
    destruct Haddr as (a & Ea). apply wp_bind. eapply wp_lift; [exact Ea|]. apply IH.
    + rewrite E2, E, Ew. unfold hand. by rewrite foldl_app.
    + rewrite Ew in Hn. assert (Hna : fd ∉ acc.*1) by (intros Hin; apply (hand_in acc m) in Hin; rewrite Hn in Hin; by destruct Hin).
      rewrite hand_lookup in Hn by done. split.
      * rewrite fmap_app. apply NoDup_app. split; [done|]. split; [|repeat constructor; apply not_elem_of_nil].
        intros x Hx Hx2. apply list_elem_of_singleton in Hx2. by subst.
      * apply Forall_app. split; [done|]. by constructor.
    + rewrite Ea2. lia.
Qed.

Lemma wp_close_server w0 server i st acc (Q : ks_status_t * list (Z * ks_sockaddr) -> sys -> Prop) w :
  w0.(fds) !! server = None -> 0 <= server -> new_clients acc (<[server := i]> w0.(fds)) -> w.(fds) = hand acc (<[server := i]> w0.(fds)) ->
  (forall w', w'.(fds) = hand acc w0.(fds) -> new_clients acc w0.(fds) -> Q (st, acc) w') -> wp (close_server server st acc) Q w.
Proof.
  intros Hn Hp [Hnd Hnew] Ew H. unfold close_server. destruct (Z.eqb_spec server KS_SOCK_INVALID); [unfold KS_SOCK_INVALID in *; lia|].
  assert (Hsn : server ∉ acc.*1).
  { intros Hin. apply list_elem_of_fmap in Hin as (c & -> & Hc). rewrite Forall_forall in Hnew. specialize (Hnew c Hc). cbn in Hnew.
    by rewrite lookup_insert_eq in Hnew. }
  assert (Hclose : forall w', w'.(fds) = w.(fds) \/ (exists j, w'.(fds) = <[server := j]> w.(fds)) ->
    wp (ks_socket_close server ;; mret (st, acc)) Q w').
  { intros w' E. apply wp_bind. unfold ks_socket_close. destruct (Z.eqb_spec server KS_SOCK_INVALID); [lia|]. apply wp_bind, wp_close.
    intros w2 E2. apply wp_ret, wp_ret, H.
    - rewrite E2. assert (Ed : delete server w'.(fds) = delete server w.(fds)).
      { destruct E as [-> | (j & ->)]; [done|]. apply delete_insert_eq. }
      rewrite Ed, Ew, hand_delete by done. by rewrite delete_insert_id.
    - split; [done|]. eapply Forall_impl; [exact Hnew|]. cbn. intros c Hc. destruct (decide (server = c.1)) as [<-|]; [done|].
      by rewrite lookup_insert_ne in Hc. }
  apply wp_bind. unfold ks_socket_shutdown. apply wp_bind. unfold shutdown.
  eapply wp_on_fd; [rewrite Ew, hand_lookup by done; apply lookup_insert_eq|..].
  - intros w' E _. apply wp_ret, Hclose. by left.
  - intros r w' E _ _. apply wp_ret, Hclose. right. by eexists.
Qed.

Lemma wp_listen_sock w0 server i addr backlog (Q : ks_status_t * list (Z * ks_sockaddr) -> sys -> Prop) w :
  owns w0 server i w -> known_family addr.(family) = true -> zlen addr.(v) = 28 ->
  (forall acc w', w'.(fds) = hand acc w0.(fds) -> new_clients acc w0.(fds) -> Q (KS_STATUS_FAIL, acc) w') ->
  wp (ks_listen_sock inet_ntop server addr backlog) Q w.
Proof.
  intros Ho Hf Hv H. unfold ks_listen_sock.
  assert (Hnone : forall w' j, owns w0 server j w' -> wp (close_server server KS_STATUS_FAIL []) Q w').
  { intros w' j (Hn & Hp & E). eapply (wp_close_server w0 server j); [done|done|split; constructor|exact E|]. intros w2 E2 Hnew. by apply H. }
  assert (Hbind : forall w' j, owns w0 server j w' -> wp (st ← ks_addr_bind server addr;
    if decide (st = KS_STATUS_SUCCESS) then
      r ← listen server (if backlog =? 0 then 10000 else backlog);
      if r <? 0 then close_server server KS_STATUS_FAIL []
      else
        fuel ← (fun w => Ok (S (length w.(answers)), w) : res (nat * sys));
        acc ← accept_loop inet_ntop fuel server addr.(family) [];
        close_server server KS_STATUS_FAIL acc
    else close_server server KS_STATUS_FAIL []) Q w').
  { intros w' j Hj. apply wp_bind. unfold ks_addr_bind, family_ok, raw_sockaddr. rewrite Hf. apply wp_bind. cbn [wp assert lift ks_assert].
    destruct (raw_ok addr Hf Hv) as (a & Ea). apply wp_bind. eapply wp_lift; [exact Ea|]. apply wp_bind. eapply wp_owned; [exact Hj|..].
    - intros w2 Hj2 _. apply wp_ret. cbn. by eapply Hnone.
    - intros r w2 Hj2 Hr _. apply wp_ret. destruct (Z.ltb_spec r 0); [lia|]. rewrite decide_True by done.
      apply wp_bind. eapply wp_owned; [exact Hj2|..].
      + intros w3 Hj3 _. by eapply Hnone.
      + intros r3 w3 Hj3 Hr3 _. destruct (Z.ltb_spec r3 0); [lia|]. apply wp_bind. cbn [wp]. apply wp_bind.
        destruct Hj3 as (Hn & Hp & E). unfold wp at 1. eapply wp_mono.
        * eapply (wp_accept_loop server _ _ (<[server := _]> w0.(fds))); [apply lookup_insert_eq|exact E|split; constructor|lia].
        * intros acc w4 [E4 Hnew]. eapply wp_close_server; [done|done|exact Hnew|exact E4|]. intros w5 E5 Hn5. by apply H. }
  apply wp_bind. unfold ks_socket_reuseaddr. eapply wp_owned; [exact Ho|..].
  - intros w' Ho' _. by eapply Hbind.
  - intros r w' Ho' _ _. by eapply Hbind.
Qed.
End Listening.

(** ** Waiting and moving data *)

Definition all_below (n : Z) (p : Z -> bool) : bool := forallb p (map Z.of_nat (seq 0 (Z.to_nat n))).

Lemma all_below_at n p x : all_below n p = true -> 0 <= x < n -> p x = true.
Proof.
  intros H Hx. unfold all_below in H. rewrite forallb_forall in H. apply H. apply in_map_iff. exists (Z.to_nat x). rewrite in_seq. lia.
Qed.

(** What was asked for comes back as it was asked for; a peer that hung up, an
    error and a bad descriptor come besides. *)
Lemma poll_flags flags revents : 0 <= flags < 256 -> 0 <= revents < 256 ->
  Z.land revents (Z.lnot (Z.lor (poll_events flags) (Z.lor POLLERR (Z.lor POLLHUP POLLNVAL)))) = 0 ->
  Z.land (poll_result revents) (Z.lnot (Z.lor flags (Z.lor KS_POLL_ERROR (Z.lor KS_POLL_HUP KS_POLL_INVALID)))) = 0.
Proof.
  intros Hf Hr H. assert (E : all_below 256 (fun f => all_below 256 (fun r =>
    negb (Z.land r (Z.lnot (Z.lor (poll_events f) (Z.lor POLLERR (Z.lor POLLHUP POLLNVAL)))) =? 0) ||
    (Z.land (poll_result r) (Z.lnot (Z.lor f (Z.lor KS_POLL_ERROR (Z.lor KS_POLL_HUP KS_POLL_INVALID)))) =? 0))) = true) by (vm_compute; reflexivity).
  apply all_below_at with (x := flags) in E; [|done]. apply all_below_at with (x := revents) in E; [|done].
  rewrite H in E. cbn in E. by apply Z.eqb_eq.
Qed.

(** An interrupted call is made again; the first other answer decides. *)
Lemma io_call_runs sock i w n a l e : w.(fds) !! sock = Some i -> w.(answers) = replicate n (- EINTR) ++ a :: l -> a <> - EINTR ->
  e = (if a <? 0 then - a else if (n =? 0)%nat then w.(errno) else EINTR) -> 
  exists w', io_call sock w = Ok (if a <? 0 then -1 else a, w') /\ w'.(fds) = w.(fds) /\ w'.(errno) = e /\ w'.(answers) = l.
Proof.
  intros Hi Ha Hne ->. unfold io_call. rewrite Ha. assert (Hf : (n < S (length (replicate n (- EINTR) ++ a :: l)))%nat) by (rewrite length_app, length_replicate; lia).
  revert Hf. generalize (S (length (replicate n (- EINTR) ++ a :: l))). revert w Hi Ha.
  assert (Eid : forall f : gmap Z fd_info, f !! sock = Some i -> alter id sock f = f).
  { intros f E. apply map_eq. intros j. destruct (decide (sock = j)) as [<-|]; [by rewrite lookup_alter_eq, E|by rewrite lookup_alter_ne]. }
  induction n as [|n IH]; intros w Hi Ha [|fuel] Hf; try lia; cbn [io_loop]; unfold transfer, on_fd, mbind, M_bind, answer; rewrite Hi, Ha; cbn [replicate app].
  - destruct (Z.ltb_spec a 0).
    + cbn [Z.eqb Pos.eqb get_errno errno fds andb]. assert (E : ks_errno_is_interupt (- a) = false) by (apply Z.eqb_neq; lia).
      unfold get_errno. cbn [errno]. rewrite E. eexists. split; [reflexivity|]. done.
    + destruct (Z.eqb_spec a (-1)); [lia|]. unfold get_errno, set_fds. cbn [errno fds answers addresses andb]. eexists. split; [reflexivity|].
      cbn. by rewrite Eid.
  - change (- EINTR <? 0) with true. cbn [Z.eqb Pos.eqb]. unfold get_errno. cbn [errno]. rewrite Z.opp_involutive.
    change ((-1 =? -1) && ks_errno_is_interupt EINTR) with true. cbv iota.
    destruct (IH (Sys w.(fds) EINTR (replicate n (- EINTR) ++ a :: l) w.(addresses)) Hi eq_refl fuel ltac:(lia)) as (w' & E & Hfd & He & Hl).
    exists w'. split; [exact E|]. split; [done|]. split; [|done]. rewrite He. cbn. destruct (a <? 0); [done|]. by destruct (n =? 0)%nat.
Qed.

Lemma ks_socket_connect_ex_owns addr nb_timeout a w : known_family addr.(family) = true -> zlen addr.(v) = 28 ->
  slice addr.(v) 0 (struct_len addr.(family)) = Ok a -> wp (ks_socket_connect_ex addr nb_timeout) (connected w a) w.
Proof.
  intros Hf Hv Ea. unfold ks_socket_connect_ex, family_ok, raw_sockaddr.
  rewrite Hf. apply wp_bind. cbn [wp]. apply wp_bind. eapply (wp_socket_owns w); [done|intros w1 E; by apply wp_ret; left|].
  intros fd w1 Ho1. rewrite (owns_valid _ _ _ _ Ho1).
  assert (Hinv : forall w' i, owns w fd i w' -> wp (close_invalid fd) (connected w a) w').
  { intros w' i Ho. eapply wp_close_invalid; [done|]. intros w'' E. by left. }
  assert (Hrest : forall w' i, owns w fd i w' -> i.(events) = [] -> (nb_timeout <= 0 -> Z.testbit i.(fl) 11 = false) ->
    wp (a ← lift (slice addr.(v) 0 (struct_len addr.(family))); r ← connect fd a; e ← get_errno;
      if negb (r =? 0) && negb (ks_errno_is_blocking e) then close_invalid fd else wait_connected fd nb_timeout) (connected w a) w').
  { intros w' i Ho He Hb. apply wp_bind. eapply wp_lift; [done|]. apply wp_bind. eapply wp_owned; [done|..].
    - intros w2 Ho2 _. apply wp_bind, wp_errno. destruct (_ && _); [by eapply Hinv|]. eapply wp_wait_connected; [done|done|by right].
    - intros r w2 Ho2 _ _. apply wp_bind, wp_errno. destruct (_ && _); [by eapply Hinv|].
      eapply wp_wait_connected; [done|done|]. left. cbn. by rewrite He. }
  apply wp_bind. destruct (Z.ltb_spec 0 nb_timeout).
  - eapply wp_nonblock; [done|..]; intros w2 Ho2; cbn [fl events] in Ho2.
    + rewrite decide_False by done. by eapply Hinv.
    + rewrite decide_True by done. eapply Hrest; [done|done|lia].
  - apply wp_ret. rewrite decide_True by done. eapply Hrest; [done|done|done].
Qed.

(** C36: connecting neither loses descriptors nor touches those of others: whatever
    the system answers, with or without a time limit, [ks_socket_connect_ex] returns
    the invalid socket with the table as it was, or a descriptor that was not in
    use, blocking again, connected or on its way to [addr] and nothing else done to
    it, and the rest of the table as it was. *)
Theorem ks_socket_connect_safe addr nb_timeout w :
  known_family addr.(family) = true -> zlen addr.(v) = 28 ->
  exists a, slice addr.(v) 0 (struct_len addr.(family)) = Ok a /\
    wp (ks_socket_connect_ex addr nb_timeout) (connected w a) w.
Proof.
  intros Hf Hv. destruct (raw_ok addr Hf Hv) as (a & Ea). exists a. split; [done|]. by apply ks_socket_connect_ex_owns.
Qed.

(** C37: listening hands each client over once and keeps nothing: whatever the host,
    the port and the answers of the system, [ks_listen] returns, always with a
    failure; its own descriptor is closed, the descriptors of the clients were not
    in use and are different from each other, and the table of descriptors is what
    it was with these added. *)
Theorem ks_listen_hands_over inet_ntop inet_pton6 inet_addr h prt f backlog w :
  (forall t, zlen (inet_addr t) = 4) -> (forall t a, inet_pton6 t = Some a -> zlen a = 16) ->
  wp (ks_listen inet_ntop inet_pton6 inet_addr h prt f backlog)
    (fun r w' => r.1 = KS_STATUS_FAIL /\ w'.(fds) = hand r.2 w.(fds) /\ new_clients r.2 w.(fds)) w.
Proof.
  intros H4 H6. unfold ks_listen. destruct (addr_set_ok inet_ntop inet_pton6 inet_addr h prt (pick_family f h) H4 H6) as (a & E & Ef & Hv).
  apply wp_bind. eapply wp_lift; [exact E|]. cbv beta iota zeta. rewrite decide_True by done. apply wp_bind. apply (wp_socket_owns w); [done|..].
  - intros w' E'. rewrite Z.eqb_refl. apply wp_ret. split; [done|]. split; [done|]. split; constructor.
  - intros fd w' Ho. change (wp (if fd =? KS_SOCK_INVALID then mret (KS_STATUS_FAIL, []) else ks_listen_sock inet_ntop fd a backlog)
      (fun r w' => r.1 = KS_STATUS_FAIL /\ w'.(fds) = hand r.2 w.(fds) /\ new_clients r.2 w.(fds)) w').
    rewrite (owns_valid _ _ _ _ Ho). eapply wp_listen_sock; [exact Ho|by rewrite Ef; apply pick_known|done|]. by split.
Qed.

(** An address is what it was made of: for an address of either family as raw
    bytes and a port, [ks_addr_set_raw] makes one whose port and raw data these are;
    a copy of it into any other has the same and compares equal; and
    [ks_addr_cmp] tells two apart exactly when family, bytes or port differ. *)
Lemma addresses_faithful inet_ntop f data prt f' data' prt' b :
  known_family f = true -> 0 <= prt < 65536 -> zlen data = addr_len f ->
  known_family f' = true -> 0 <= prt' < 65536 -> zlen data' = addr_len f' -> zlen b.(v) = 28 -> zlen b.(host) = 48 ->
  exists a a' c,
    ks_addr_set_raw inet_ntop data prt f = Ok (KS_STATUS_SUCCESS, a) /\ a.(port) = prt /\ ks_addr_raw_data a = Ok data /\
    ks_addr_set_raw inet_ntop data' prt' f' = Ok (KS_STATUS_SUCCESS, a') /\
    ks_addr_cmp (Some a) (Some a') = Ok (bool_decide (f = f' /\ data = data' /\ prt = prt')) /\
    ks_addr_copy inet_ntop b a = Ok (KS_STATUS_SUCCESS, c) /\ c.(port) = prt /\ ks_addr_raw_data c = Ok data /\
    ks_addr_cmp (Some c) (Some a) = Ok true.
Proof.
  intros Hf Hp Hd Hf' Hp' Hd' Hb Hh. destruct (set_raw_ok inet_ntop f prt data Hf Hp Hd) as (a & Ea & Ha & Hap & _).
  destruct (set_raw_ok inet_ntop f' prt' data' Hf' Hp' Hd') as (a' & Ea' & Ha' & _).
  destruct (copy_ok inet_ntop f data prt a b Hf Hp Ha Hb Hh) as (c & Ec & Hc & Hcp). exists a, a', c.
  assert (Hraw : forall x, holds_addr f data prt x -> ks_addr_raw_data x = Ok data).
  { intros x (E & _ & _ & _ & Hs). unfold ks_addr_raw_data. by rewrite E, Hf. }
  rewrite (cmp_ok f data prt a f' data' prt' a'), (cmp_ok f data prt c f data prt a), (bool_decide_true (f = f /\ _)) by done.
  by repeat (split; auto).
Qed.

(** ** Concrete calls *)

Definition ex_ntop (f : Z) (a : list Z) : list Z := bytes_of_string (if f =? AF_INET then "10.0.0.1" else "2001:db8::1").
Definition ex_addr (t : list Z) : list Z :=
  if bool_decide (t = bytes_of_string "10.0.0.1") then [10; 0; 0; 1] else [255; 255; 255; 255].
Definition ex_pton6 (t : list Z) : option (list Z) :=
  if bool_decide (t = bytes_of_string "::1") then Some (replicate 15 0 ++ [1]) else None.
(** Standard input, output and error are open. *)
Definition ex_sys (answers : list Z) (addresses : list (list Z)) : sys :=
  Sys (list_to_map [(0, Fd O_RDWR []); (1, Fd O_RDWR []); (2, Fd O_RDWR [])]) 0 answers addresses.
Definition ex_peer : ks_sockaddr := Addr AF_INET ([2; 0; 0; 80; 10; 0; 0; 1] ++ replicate 20 0) 80 (replicate 48 0).

Lemma ks_socket_connect_safe_witness :
  exists a, slice ex_peer.(v) 0 (struct_len ex_peer.(family)) = Ok a /\
    wp (ks_socket_connect_ex ex_peer 500) (connected (ex_sys [0; 0; - EINPROGRESS; 1; POLLOUT; 0] []) a) (ex_sys [0; 0; - EINPROGRESS; 1; POLLOUT; 0] []).
Proof. apply (ks_socket_connect_safe ex_peer 500); reflexivity. Defined.

Lemma ks_listen_hands_over_witness :
  let w := ex_sys [0; 0; 0; 0; 7; 8; - EBADF] [[2; 0; 200; 10; 10; 0; 0; 9]] in
  wp (ks_listen ex_ntop ex_pton6 ex_addr None 80 AF_INET 0)
    (fun r w' => r.1 = KS_STATUS_FAIL /\ w'.(fds) = hand r.2 w.(fds) /\ new_clients r.2 w.(fds)) w.
Proof.
  apply (ks_listen_hands_over ex_ntop ex_pton6 ex_addr None 80 AF_INET 0).
  - intros t. unfold ex_addr. by destruct (bool_decide _).
  - intros t a. unfold ex_pton6. destruct (bool_decide _); [|done]. by intros [= <-].
Defined.

Lemma addresses_faithful_witness : exists a a' c,
  ks_addr_set_raw ex_ntop [10; 0; 0; 1] 8080 AF_INET = Ok (KS_STATUS_SUCCESS, a) /\ a.(port) = 8080 /\
  ks_addr_raw_data a = Ok [10; 0; 0; 1] /\
  ks_addr_set_raw ex_ntop [10; 0; 0; 1] 8081 AF_INET = Ok (KS_STATUS_SUCCESS, a') /\ ks_addr_cmp (Some a) (Some a') = Ok false /\
  ks_addr_copy ex_ntop ex_peer a = Ok (KS_STATUS_SUCCESS, c) /\ c.(port) = 8080 /\ ks_addr_raw_data c = Ok [10; 0; 0; 1] /\
  ks_addr_cmp (Some c) (Some a) = Ok true.
Proof.
  apply (addresses_faithful ex_ntop AF_INET [10; 0; 0; 1] 8080 AF_INET [10; 0; 0; 1] 8081 ex_peer); try reflexivity; lia.
Defined.

(** Two clients come; both are kept, on 4 and 5. *)
Lemma listen_example :
  match ks_listen ex_ntop ex_pton6 ex_addr None 80 AF_INET 0 (ex_sys [0; 0; 0; 0; 7; 8; - EBADF] [[2; 0; 200; 10; 10; 0; 0; 9]]) with
  | Ok ((_, l), w) => map (fun c => (c.1, (c.2).(port))) l = [(4, 51210); (5, 0)] /\ (w.(fds) !! 3) = None
  | Err _ => False
  end.
Proof. vm_compute. done. Qed.

(** ** Where sockets do not do as they say *)

(** A blocking [connect] that times out, or is interrupted, is taken for one that
    goes on: the socket that comes back is not connected. *)
Lemma connect_timed_out :
  match ks_socket_connect ex_peer (ex_sys [0; - ETIMEDOUT] []) with
  | Ok (sock, w) => sock = 3 /\ (w.(fds) !! 3) = Some (Fd O_RDWR [])
  | Err _ => False
  end.
Proof. vm_compute. done. Qed.

(** [TCP_NODELAY] is set at the level of sockets, where its number, 1, is [SO_DEBUG]:
    no option of TCP is set. *)
Lemma nodelay_is_debug :
  match (s ← socket AF_INET; ks_socket_common_setup s) (ex_sys [] []) with
  | Ok (_, w) => (w.(fds) !! 3) = Some (Fd (Z.lor O_RDWR O_NONBLOCK) [SetSockOpt SOL_SOCKET 1 1; SetSockOpt SOL_SOCKET SO_KEEPALIVE 1])
  | Err _ => False
  end.
Proof. vm_compute. done. Qed.

(** A host that is no address is not refused: the address is 255.255.255.255 or ::. *)
Lemma addr_set_never_fails :
  match ks_addr_set ex_ntop ex_pton6 ex_addr (Some (bytes_of_string "localhost")) 80 AF_INET,
        ks_addr_set ex_ntop ex_pton6 ex_addr (Some (bytes_of_string "a:b")) 80 AF_INET with
  | Ok (s1, a1), Ok (s2, a2) => s1 = KS_STATUS_SUCCESS /\ s2 = KS_STATUS_SUCCESS /\
      ks_addr_raw_data a1 = Ok [255; 255; 255; 255] /\ ks_addr_raw_data a2 = Ok (replicate 16 0)
  | _, _ => False
  end.
Proof. vm_compute. done. Qed.

(** When descriptor 0 is free the query's socket is 0, and [tmp_socket > 0] does not close it. *)
Lemma descriptor_zero_leaks :
  match ks_find_local_ip ex_ntop ex_pton6 ex_addr [] (replicate 20 0) 20 false AF_INET None (Sys ∅ 0 [] [[2; 0; 0; 0; 10; 0; 0; 1]]) with
  | Ok ((st, buf, _), w) => st = KS_STATUS_SUCCESS /\ cstr buf 0 = Ok (bytes_of_string "10.0.0.1") /\ is_Some (w.(fds) !! 0)
  | Err _ => False
  end.
Proof. vm_compute. split; [done|]. split; [done|]. by eexists. Qed.

(** A buffer of 16 bytes, which the check admits, is too small for most addresses of
    IPv6: the call succeeds, and the buffer says ::1. *)
Lemma loopback_for_long_address : forall ntop, (forall a, 16 <= zlen (ntop AF_INET6 a)) ->
  match ks_find_local_ip ntop ex_pton6 ex_addr [] (replicate 16 7) 16 false AF_INET6 None (ex_sys [] []) with
  | Ok ((st, buf, _), _) => st = KS_STATUS_SUCCESS /\ cstr buf 0 = Ok (bytes_of_string "::1")
  | Err _ => False
  end.
Proof.
  intros ntop Hn. cbv [ks_find_local_ip]. pose proof (Hn (replicate 16 0)).
  assert (E : (zlen (ntop AF_INET6 (replicate 16 0)) <? 15) = false) by (apply Z.ltb_ge; lia). revert E. clear.
  generalize (ntop AF_INET6). intros g E. vm_compute in E. vm_compute. by rewrite E.
Qed.

(** A wait of 2^31 ms or more is one without a limit: [poll] takes a negative time so. *)
Lemma long_wait_is_forever ms : 2147483648 <= ms < 4294967296 -> s32 ms < 0.
Proof. intros H. unfold s32. rewrite <- (Z.mod_add (ms + 2147483648) (-1)) by done. rewrite Z.mod_small; lia. Qed.
End Socket.
