(* ===== verification/Hep.v ===== *)
(** Capture packets of the protocol HEP version 3 (src/src/ks_hep.c,
    src/src/include/libks/internal/ks_hep.h): how [ks_hepv3_capture_create]
    puts one together, and a receiver that reads it. *)
From S2P Require Import Prelude.
Local Open Scope Z_scope.

Module Hep.

(** ** The packed structures, by the bytes of their fields *)

Definition htons (v : Z) : list Z := be 2 (u16 v).
Definition htonl (v : Z) : list Z := be 4 (u32 v).

Record ks_hepv3_chunk := Chunk { vendor_id : list Z; type_id : list Z; length : list Z }.
Definition chunk_bytes (c : ks_hepv3_chunk) : list Z := c.(vendor_id) ++ c.(type_id) ++ c.(length).
Definition sizeof_chunk : Z := 6.

(** [ks_hepv3_chunk_uint8], [..._uint16], [..._uint32], [..._ip4], [..._ip6]:
    a chunk and its data. *)
Record ks_hepv3_chunk_data := ChunkData { chunk : ks_hepv3_chunk; data : list Z }.
Definition chunk_data_bytes (c : ks_hepv3_chunk_data) : list Z := chunk_bytes c.(chunk) ++ c.(data).
Definition sizeof_uint8 : Z := sizeof_chunk + 1.
Definition sizeof_uint16 : Z := sizeof_chunk + 2.
Definition sizeof_uint32 : Z := sizeof_chunk + 4.
Definition sizeof_ip4 : Z := sizeof_chunk + 4.
Definition sizeof_ip6 : Z := sizeof_chunk + 16.

Record ks_hepv3_ctrl := Ctrl { id : list Z; total : list Z }.
Definition sizeof_ctrl : Z := 6.

Record ks_hepv3_generic := Generic {
  header : ks_hepv3_ctrl; ip_family : ks_hepv3_chunk_data; ip_proto : ks_hepv3_chunk_data;
  src_port : ks_hepv3_chunk_data; dst_port : ks_hepv3_chunk_data;
  time_sec : ks_hepv3_chunk_data; time_usec : ks_hepv3_chunk_data;
  proto_t : ks_hepv3_chunk_data; capt_id : ks_hepv3_chunk_data }.
Definition generic_bytes (g : ks_hepv3_generic) : list Z :=
  g.(header).(id) ++ g.(header).(total) ++ chunk_data_bytes g.(ip_family) ++ chunk_data_bytes g.(ip_proto) ++
  chunk_data_bytes g.(src_port) ++ chunk_data_bytes g.(dst_port) ++ chunk_data_bytes g.(time_sec) ++
  chunk_data_bytes g.(time_usec) ++ chunk_data_bytes g.(proto_t) ++ chunk_data_bytes g.(capt_id).
Definition sizeof_generic : Z := sizeof_ctrl + sizeof_uint8 * 3 + sizeof_uint16 * 2 + sizeof_uint32 * 3.

Definition KS_HEPV3_HEADER_ID : list Z := [72; 69; 80; 51].
Definition KS_HEPV3_VENDOR_ID_GENERIC : Z := 0.
Definition KS_HEPV3_GENERIC_TYPE_ID_IP_FAMILY : Z := 1.
Definition KS_HEPV3_GENERIC_TYPE_ID_IP_PROTO : Z := 2.
Definition KS_HEPV3_GENERIC_TYPE_ID_SRC_IP4 : Z := 3.
Definition KS_HEPV3_GENERIC_TYPE_ID_DST_IP4 : Z := 4.
Definition KS_HEPV3_GENERIC_TYPE_ID_SRC_IP6 : Z := 5.
Definition KS_HEPV3_GENERIC_TYPE_ID_DST_IP6 : Z := 6.
Definition KS_HEPV3_GENERIC_TYPE_ID_SRC_PORT : Z := 7.
Definition KS_HEPV3_GENERIC_TYPE_ID_DST_PORT : Z := 8.
Definition KS_HEPV3_GENERIC_TYPE_ID_TIMESTAMP_SEC : Z := 9.
Definition KS_HEPV3_GENERIC_TYPE_ID_TIMESTAMP_USEC : Z := 10.
Definition KS_HEPV3_GENERIC_TYPE_ID_PROTO_TYPE : Z := 11.
Definition KS_HEPV3_GENERIC_TYPE_ID_AGENT_ID : Z := 12.
Definition KS_HEPV3_GENERIC_TYPE_ID_PAYLOAD : Z := 15.

Inductive ks_hepv3_direction_t := KS_HEPV3_DIR_SEND | KS_HEPV3_DIR_RECV.
#[export] Instance direction_eq_dec : EqDecision ks_hepv3_direction_t := ltac:(solve_decision).

Record ks_hepv3_capture_params_t := Params {
  p_ip_family : Z; local_ip : list Z; remote_ip : list Z; local_port : Z; remote_port : Z;
  direction : ks_hepv3_direction_t; capture_id : Z; protocol_type_id : Z;
  payload : option (list Z); payload_size : Z }.

Definition AF_INET : Z := 2.
Definition IPPROTO_TCP : Z := 6.

(** [x.chunk.vendor_id = ...; x.chunk.type_id = ...; x.chunk.length = ...]. *)
Definition chunk_head (type size : Z) : ks_hepv3_chunk :=
  Chunk (htons KS_HEPV3_VENDOR_ID_GENERIC) (htons type) (htons size).

Section Create.
(** The functions of the C library: addresses as the bytes they have in
    memory, [inet_pton] writing nothing for a text that is no address. *)
Context (inet_addr : list Z -> list Z) (inet_pton6 : list Z -> option (list Z)).
(** Whether [malloc] gives a block, what is in it, and the time. *)
Context (malloc : Z -> bool) (junk : Z) (ks_time_now : Z).

Definition set_generic (p : ks_hepv3_capture_params_t) (total_len : Z) : ks_hepv3_generic :=
  let is_send := bool_decide (p.(direction) = KS_HEPV3_DIR_SEND) in
  let now_usec := ks_time_now in
  let now_sec := now_usec ÷ 1000000 in
  Generic
    (Ctrl KS_HEPV3_HEADER_ID (htons (u16 total_len)))
    (ChunkData (chunk_head KS_HEPV3_GENERIC_TYPE_ID_IP_FAMILY sizeof_uint8) [u8 p.(p_ip_family)])
    (ChunkData (chunk_head KS_HEPV3_GENERIC_TYPE_ID_IP_PROTO sizeof_uint8) [u8 IPPROTO_TCP])
    (ChunkData (chunk_head KS_HEPV3_GENERIC_TYPE_ID_SRC_PORT sizeof_uint16) (htons (if is_send then p.(local_port) else p.(remote_port))))
    (ChunkData (chunk_head KS_HEPV3_GENERIC_TYPE_ID_DST_PORT sizeof_uint16) (htons (if is_send then p.(remote_port) else p.(local_port))))
    (ChunkData (chunk_head KS_HEPV3_GENERIC_TYPE_ID_TIMESTAMP_SEC sizeof_uint32) (htonl (u32 now_sec)))
    (ChunkData (chunk_head KS_HEPV3_GENERIC_TYPE_ID_TIMESTAMP_USEC sizeof_uint32) (htonl (u32 (now_usec - now_sec * 1000000))))
    (ChunkData (chunk_head KS_HEPV3_GENERIC_TYPE_ID_PROTO_TYPE sizeof_uint8) [u8 p.(protocol_type_id)])
    (ChunkData (chunk_head KS_HEPV3_GENERIC_TYPE_ID_AGENT_ID sizeof_uint32) (htonl p.(capture_id))).

(** The chunks of the two addresses, source first, and [iplen]. *)
Definition set_addresses (p : ks_hepv3_capture_params_t) : ks_hepv3_chunk_data * ks_hepv3_chunk_data * Z :=
  let is_send := bool_decide (p.(direction) = KS_HEPV3_DIR_SEND) in
  if p.(p_ip_family) =? AF_INET then
    let local_addr := inet_addr p.(local_ip) in
    let remote_addr := inet_addr p.(remote_ip) in
    (ChunkData (chunk_head KS_HEPV3_GENERIC_TYPE_ID_SRC_IP4 sizeof_ip4) (if is_send then local_addr else remote_addr),
     ChunkData (chunk_head KS_HEPV3_GENERIC_TYPE_ID_DST_IP4 sizeof_ip4) (if is_send then remote_addr else local_addr),
     sizeof_ip4 + sizeof_ip4)
  else
    let local_addr := default (replicate 16 0) (inet_pton6 p.(local_ip)) in
    let remote_addr := default (replicate 16 0) (inet_pton6 p.(remote_ip)) in
    (ChunkData (chunk_head KS_HEPV3_GENERIC_TYPE_ID_SRC_IP6 sizeof_ip6) (if is_send then local_addr else remote_addr),
     ChunkData (chunk_head KS_HEPV3_GENERIC_TYPE_ID_DST_IP6 sizeof_ip6) (if is_send then remote_addr else local_addr),
     sizeof_ip6 + sizeof_ip6).

(** The length returned and, when [*out_buffer] is written, the block or NULL. *)
Definition ks_hepv3_capture_create (p : ks_hepv3_capture_params_t) : res (Z * option (option (list Z))) :=
  match p.(payload) with
  | None => Ok (0, None)
  | Some payload =>
    if p.(payload_size) =? 0 then Ok (0, None) else
    if negb (malloc sizeof_generic) then Ok (0, None) else
    let '(src_ip, dst_ip, iplen) := set_addresses p in
    let payload_chunk := chunk_head KS_HEPV3_GENERIC_TYPE_ID_PAYLOAD (u16 (sizeof_chunk + p.(payload_size))) in
    let total_len := u64 (sizeof_generic + p.(payload_size) + iplen + sizeof_chunk) in
    let hg := set_generic p total_len in
    if negb (malloc total_len) then Ok (0, Some None) else
    let out := replicate (Z.to_nat total_len) junk in
    out ← blit out 0 (generic_bytes hg);
    let sizeof_ip := if p.(p_ip_family) =? AF_INET then sizeof_ip4 else sizeof_ip6 in
    let buflen := sizeof_generic in
    out ← blit out buflen (chunk_data_bytes src_ip);
    let buflen := buflen + sizeof_ip in
    out ← blit out buflen (chunk_data_bytes dst_ip);
    let buflen := buflen + sizeof_ip in
    out ← blit out buflen (chunk_bytes payload_chunk);
    let buflen := buflen + sizeof_chunk in
    src ← slice payload 0 p.(payload_size);
    out ← blit out buflen src;
    Ok (u64 (buflen + p.(payload_size)), Some (Some out))
  end.
End Create.

(** ** A receiver *)

(** Vendor, type and data of each chunk. *)
Fixpoint read_chunks (fuel : nat) (m : list Z) : option (list (Z * Z * list Z)) :=
  match fuel, m with
  | _, [] => Some []
  | S fuel, v1 :: v2 :: t1 :: t2 :: l1 :: l2 :: r =>
    let n := from_be [l1; l2] - sizeof_chunk in
    if (n <? 0) || (zlen r <? n) then None else
    cs ← read_chunks fuel (drop (Z.to_nat n) r);
    Some ((from_be [v1; v2], from_be [t1; t2], take (Z.to_nat n) r) :: cs)
  | _, _ => None
  end.

Definition receive (m : list Z) : option (list (Z * Z * list Z)) :=
  let n := from_be (take 2 (drop 4 m)) in
  if bool_decide (take 4 m = KS_HEPV3_HEADER_ID) && (sizeof_ctrl <=? n) && (n <=? zlen m)
  then read_chunks (List.length m) (take (Z.to_nat (n - sizeof_ctrl)) (drop (Z.to_nat sizeof_ctrl) m)) else None.

Record capture := Capture {
  family : Z; protocol : Z; source : list Z * Z; destination : list Z * Z;
  seconds : Z; microseconds : Z; protocol_type : Z; node : Z; body : list Z }.

Definition get (cs : list (Z * Z * list Z)) (type : Z) : option (list Z) :=
  snd <$> find (fun c => (c.1.1 =? KS_HEPV3_VENDOR_ID_GENERIC) && (c.1.2 =? type)) cs.

Definition decode (m : list Z) : option capture :=
  cs ← receive m;
  let number t := from_be <$> get cs t in
  family ← number 1; protocol ← number 2;
  src ← get cs (if family =? AF_INET then 3 else 5); dst ← get cs (if family =? AF_INET then 4 else 6);
  sport ← number 7; dport ← number 8; sec ← number 9; usec ← number 10; type ← number 11; node ← number 12; body ← get cs 15;
  Some (Capture family protocol (src, sport) (dst, dport) sec usec type node body).

(** ** What is sent is what is received *)

Definition wire (c : Z * list Z) : list Z := chunk_data_bytes (ChunkData (chunk_head c.1 (sizeof_chunk + zlen c.2)) c.2).

Lemma read_wire fuel cs : Forall (fun c => 0 <= c.1 < 65536 /\ zlen c.2 < 65530) cs -> (List.length cs <= fuel)%nat ->
  read_chunks fuel (concat (map wire cs)) = Some (map (fun c => (0, c.1, c.2)) cs).
Proof.
  intros H. revert fuel. induction H as [|[t d] cs [Ht Hd] _ IH]; intros fuel Hf; cbn [concat map]; [by destruct fuel|].
  destruct fuel as [|fuel]; [cbn in Hf; lia|]. unfold wire at 1, chunk_data_bytes, chunk_bytes, chunk_head. cbn [chunk data vendor_id type_id length fst snd] in *.
  unfold htons. pose proof (zlen_nonneg d). unfold sizeof_chunk. rewrite (u16_id t), (u16_id (6 + zlen d)) by lia. cbn [be app]. cbn [read_chunks].
  assert (E : forall v, 0 <= v < 65536 -> from_be [v / 256 mod 256; v mod 256] = v) by (intros v Hv; apply (from_be_be 2 v); lia).
  rewrite (E t), (E (6 + zlen d)) by lia. replace (6 + zlen d - sizeof_chunk) with (zlen d) by (unfold sizeof_chunk; lia).
  destruct (Z.ltb_spec (zlen d) 0); [lia|]. rewrite zlen_app. pose proof (zlen_nonneg (concat (map wire cs))). destruct (Z.ltb_spec (zlen d + zlen (concat (map wire cs))) (zlen d)); [lia|].
  cbn [orb]. unfold zlen. rewrite Nat2Z.id, drop_app_length, take_app_length, IH by (cbn in Hf; lia).
  done.
Qed.

Lemma wire_length c : zlen (wire c) = 6 + zlen c.2.
Proof. unfold wire, chunk_data_bytes, chunk_bytes, chunk_head, htons. cbn [chunk data vendor_id type_id length be app]. rewrite !zlen_cons. lia. Qed.

Lemma receive_wires cs : Forall (fun c => 0 <= c.1 < 65536 /\ zlen c.2 < 65530) cs -> zlen (concat (map wire cs)) < 65530 ->
  receive (KS_HEPV3_HEADER_ID ++ htons (6 + zlen (concat (map wire cs))) ++ concat (map wire cs)) = Some (map (fun c => (0, c.1, c.2)) cs).
Proof.
  intros H Hl. set (w := concat (map wire cs)) in *. pose proof (zlen_nonneg w). unfold receive, htons, KS_HEPV3_HEADER_ID. rewrite u16_id by lia.
  cbn [be app]. cbn [take drop]. rewrite take_0. pose proof (from_be_be 2 (6 + zlen w)) as E. cbn [be app] in E. rewrite E by lia. rewrite bool_decide_true by done.
  rewrite !zlen_cons. unfold sizeof_ctrl. destruct (Z.leb_spec 6 (6 + zlen w)); [|lia]. destruct (Z.leb_spec (6 + zlen w) (zlen w + 1 + 1 + 1 + 1 + 1 + 1)); [|lia].
  cbn [andb]. change (drop (Z.to_nat 6) (?a :: ?b :: ?c :: ?d :: ?e :: ?f :: ?r)) with r.
  rewrite take_ge by (unfold zlen in *; lia). apply read_wire; [done|]. cbn [List.length]. assert (List.length cs <= List.length w)%nat; [|lia].
  subst w. clear. induction cs as [|c cs IH]; [done|]. cbn [map concat List.length]. rewrite length_app. pose proof (wire_length c). pose proof (zlen_nonneg c.2). unfold zlen in *. lia.
Qed.

Section Sent.
Context (inet_addr : list Z -> list Z) (inet_pton6 : list Z -> option (list Z)).
Hypothesis inet_addr_length : forall s, zlen (inet_addr s) = 4.
Hypothesis inet_pton6_length : forall s a, inet_pton6 s = Some a -> zlen a = 16.

(** The address of a text, for the family. *)
Definition address (af : Z) (s : list Z) : list Z :=
  if af =? AF_INET then inet_addr s else default (replicate 16 0) (inet_pton6 s).
Definition sender (p : ks_hepv3_capture_params_t) : list Z * Z :=
  match p.(direction) with
  | KS_HEPV3_DIR_SEND => (address p.(p_ip_family) p.(local_ip), p.(local_port))
  | KS_HEPV3_DIR_RECV => (address p.(p_ip_family) p.(remote_ip), p.(remote_port))
  end.
Definition receiver (p : ks_hepv3_capture_params_t) : list Z * Z :=
  match p.(direction) with
  | KS_HEPV3_DIR_SEND => (address p.(p_ip_family) p.(remote_ip), p.(remote_port))
  | KS_HEPV3_DIR_RECV => (address p.(p_ip_family) p.(local_ip), p.(local_port))
  end.

Definition chunks_of (p : ks_hepv3_capture_params_t) (now : Z) (body : list Z) : list (Z * list Z) :=
  [(1, [u8 p.(p_ip_family)]); (2, [6]); (7, htons (sender p).2); (8, htons (receiver p).2);
   (9, htonl (u32 (now ÷ 1000000))); (10, htonl (u32 (now - now ÷ 1000000 * 1000000)));
   (11, [u8 p.(protocol_type_id)]); (12, htonl p.(capture_id));
   (if p.(p_ip_family) =? AF_INET then 3 else 5, (sender p).1); (if p.(p_ip_family) =? AF_INET then 4 else 6, (receiver p).1); (15, body)].

Lemma address_length af s : zlen (address af s) = if af =? AF_INET then 4 else 16.
Proof.
  unfold address. destruct (af =? AF_INET); [apply inet_addr_length|]. destruct (inet_pton6 s) eqn:E; [by eapply inet_pton6_length|done].
Qed.

Lemma fill_step (acc bs : list Z) k j d : d = zlen acc -> (List.length bs <= k)%nat ->
  blit (acc ++ replicate k j) d bs = Ok ((acc ++ bs) ++ replicate (k - List.length bs) j).
Proof.
  intros -> Hk. rewrite blit_rest; [|done|rewrite zlen_replicate; unfold zlen; lia]. by rewrite drop_replicate.
Qed.

Definition packet (p : ks_hepv3_capture_params_t) (now : Z) (body : list Z) : list Z :=
  let w := concat (map wire (chunks_of p now body)) in KS_HEPV3_HEADER_ID ++ htons (u16 (sizeof_ctrl + zlen w)) ++ w.

Lemma generic_wires p total now body :
  generic_bytes (set_generic now p total) = KS_HEPV3_HEADER_ID ++ htons (u16 total) ++ concat (map wire (take 8 (chunks_of p now body))).
Proof. unfold chunks_of, set_generic, sender, receiver. cbn [take]. by destruct (direction p). Qed.

Lemma addresses_wires p now body : exists src dst n, set_addresses inet_addr inet_pton6 p = (src, dst, n + n) /\
  n = (if p.(p_ip_family) =? AF_INET then sizeof_ip4 else sizeof_ip6) /\
  chunk_data_bytes src ++ chunk_data_bytes dst = concat (map wire (take 2 (drop 8 (chunks_of p now body)))) /\
  zlen (chunk_data_bytes src) = n /\ zlen (chunk_data_bytes dst) = n.
Proof.
  assert (Ha : forall t s, wire (t, address (p_ip_family p) s) =
    chunk_data_bytes (ChunkData (chunk_head t (if p.(p_ip_family) =? AF_INET then sizeof_ip4 else sizeof_ip6)) (address (p_ip_family p) s))).
  { intros t s. unfold wire. cbn [fst snd]. rewrite address_length. by destruct (_ =? _). }
  pose proof (fun t s => wire_length (t, address (p_ip_family p) s)) as Hl. cbn [snd] in Hl. setoid_rewrite address_length in Hl. setoid_rewrite Ha in Hl.
  unfold set_addresses, chunks_of. cbn [drop take concat map]. unfold sender, receiver. unfold address in *.
  destruct (p_ip_family p =? AF_INET); do 3 eexists; (split; [reflexivity|]); (split; [reflexivity|]);
    (destruct (direction p); cbn [bool_decide fst]; rewrite !Ha, app_nil_r; (split; [reflexivity|]); split; apply Hl).
Qed.

Lemma chunks_split p now body :
  concat (map wire (chunks_of p now body)) = concat (map wire (take 8 (chunks_of p now body))) ++ concat (map wire (take 2 (drop 8 (chunks_of p now body)))) ++ wire (15, body).
Proof. cbn [chunks_of take drop map concat]. rewrite <- !app_assoc, !app_nil_r. done. Qed.

Lemma wires_length p now body : zlen (concat (map wire (take 8 (chunks_of p now body)))) = sizeof_generic - sizeof_ctrl.
Proof. cbn [chunks_of take map concat]. rewrite !zlen_app, !wire_length. reflexivity. Qed.

Lemma htons_u16 x : htons (u16 x) = htons x.
Proof. unfold htons, u16. by rewrite Zmod_mod. Qed.

Lemma slice_length (m : list Z) n body : slice m 0 n = Ok body -> zlen body = n.
Proof.
  unfold slice. destruct ((0 <=? 0) && _ && _) eqn:E; [|done]. intros [= <-]. rewrite !andb_true_iff, !Z.leb_le in E.
  apply zlen_take_le. change (drop (Z.to_nat 0) m) with m. lia.
Qed.

Lemma create_packet malloc j now p m body : p.(payload) = Some m -> slice m 0 p.(payload_size) = Ok body ->
  0 < p.(payload_size) < 2 ^ 62 -> (forall n, malloc n = true) ->
  ks_hepv3_capture_create inet_addr inet_pton6 malloc j now p = Ok (zlen (packet p now body), Some (Some (packet p now body))).
Proof.
  intros Ep Es Hsz Hm. pose proof (slice_length _ _ _ Es) as El. unfold ks_hepv3_capture_create. rewrite Ep. destruct (Z.eqb_spec (payload_size p) 0); [lia|].
  rewrite Hm. cbn [negb]. destruct (addresses_wires p now body) as (src & dst & k & -> & En & Ew & Hs & Hd). rewrite <- En.
  assert (Hn : 0 < k <= 22) by (rewrite En; by destruct (_ =? _)). assert (P62 : 2 ^ 62 = 4611686018427387904) by reflexivity. rewrite P62 in *.
  assert (Hg : sizeof_generic = 73) by reflexivity. assert (Hc : sizeof_chunk = 6) by reflexivity. assert (Ht : sizeof_ctrl = 6) by reflexivity.
  rewrite Hm. cbn [negb]. set (total := u64 (_ + sizeof_chunk)). assert (Etotal : total = 73 + payload_size p + (k + k) + 6) by (subst total; rewrite u64_id; lia). clearbody total.
  pose proof (generic_wires p total now body) as Egen. pose proof (wires_length p now body) as Ewl.
  assert (Elen : sizeof_ctrl + zlen (concat (map wire (chunks_of p now body))) = total).
  { rewrite chunks_split, <- Ew, !zlen_app, wire_length, Ewl, Hs, Hd. cbn [snd]. lia. }
  assert (Hgl : zlen (generic_bytes (set_generic now p total)) = 73) by (rewrite Egen, !zlen_app, Ewl; reflexivity).
  pose proof (fill_step [] (generic_bytes (set_generic now p total)) (Z.to_nat total) j 0 eq_refl) as B1. cbn [app] in B1. rewrite B1 by (unfold zlen in *; lia). cbn [mbind res_bind].
  rewrite fill_step by (unfold zlen in *; lia). cbn [mbind res_bind].
  rewrite fill_step by (rewrite ?zlen_app; unfold zlen in *; lia). cbn [mbind res_bind].
  set (head := chunk_bytes _). assert (Hh : zlen head = 6) by reflexivity.
  assert (Eh : head ++ body = wire (15, body)) by (unfold wire, head, chunk_data_bytes, chunk_head; cbn [fst snd chunk data]; by rewrite El, htons_u16). clearbody head.
  rewrite fill_step by (rewrite ?zlen_app; unfold zlen in *; lia). cbn [mbind res_bind]. rewrite Es. cbn [mbind res_bind].
  rewrite fill_step by (rewrite ?zlen_app; unfold zlen in *; lia). cbn [mbind res_bind].
  set (z := (_ - _)%nat). assert (z = 0%nat) as -> by (subst z; unfold zlen in *; lia). cbn [replicate]. rewrite app_nil_r.
  assert (Epk : packet p now body = (((generic_bytes (set_generic now p total) ++ chunk_data_bytes src) ++ chunk_data_bytes dst) ++ head) ++ body).
  { unfold packet. rewrite Elen, chunks_split, <- Ew, Egen, <- Eh, <- !app_assoc. done. }
  rewrite <- Epk. do 2 f_equal. rewrite Epk, !zlen_app, u64_id; lia.
Qed.
Definition wf_params (p : ks_hepv3_capture_params_t) : Prop :=
  0 <= p.(p_ip_family) < 256 /\ 0 <= p.(protocol_type_id) < 256 /\ 0 <= p.(local_port) < 65536 /\ 0 <= p.(remote_port) < 65536 /\
  0 <= p.(capture_id) < 4294967296.

(** The room a packet leaves for its payload. *)
Definition most_payload (af : Z) : Z := 65535 - sizeof_generic - (if af =? AF_INET then sizeof_ip4 + sizeof_ip4 else sizeof_ip6 + sizeof_ip6) - sizeof_chunk.

Definition captured (p : ks_hepv3_capture_params_t) (now : Z) (body : list Z) : capture :=
  Capture p.(p_ip_family) IPPROTO_TCP (sender p) (receiver p) (now / 1000000) (now mod 1000000) p.(protocol_type_id) p.(capture_id) body.

Lemma chunks_length p now body : zlen (concat (map wire (chunks_of p now body))) = 65535 - 6 - most_payload p.(p_ip_family) + zlen body.
Proof.
  rewrite chunks_split, !zlen_app, wires_length, wire_length. destruct (addresses_wires p now body) as (src & dst & n & _ & En & <- & Hs & Hd).
  rewrite zlen_app, Hs, Hd, En. unfold most_payload, sizeof_ctrl, sizeof_chunk. cbn [snd]. destruct (_ =? _); lia.
Qed.

Lemma chunks_fit p now body : zlen body <= most_payload p.(p_ip_family) -> Forall (fun c => 0 <= c.1 < 65536 /\ zlen c.2 < 65530) (chunks_of p now body).
Proof.
  intros Hb. assert (most_payload (p_ip_family p) < 65530) by (unfold most_payload; by destruct (_ =? _)).
  assert (Ha : forall s, zlen (address (p_ip_family p) s) < 65530) by (intros s; rewrite address_length; by destruct (_ =? _)).
  unfold chunks_of, sender, receiver. repeat constructor; cbn [fst snd]; try done; try lia; destruct (direction p); cbn [fst snd]; first [apply Ha | by destruct (_ =? _) | done].
Qed.

Lemma decode_chunks p now body : wf_params p -> 0 <= now < 4294967296000000 -> zlen body <= most_payload p.(p_ip_family) ->
  decode (packet p now body) = Some (captured p now body).
Proof.
  intros (Hf & Ht & Hl & Hr & Hi) Hn Hb. pose proof (chunks_length p now body) as El. pose proof (zlen_nonneg body).
  assert (0 <= most_payload (p_ip_family p) <= 65436) by (unfold most_payload; by destruct (_ =? _)).
  unfold decode, packet. rewrite htons_u16. unfold sizeof_ctrl. rewrite receive_wires by (first [by apply chunks_fit | lia]). cbn [mbind option_bind].
  assert (E1 : forall v, 0 <= v < 256 -> from_be [u8 v] = v) by (intros v Hv; rewrite u8_id by done; unfold from_be; cbn [foldl]; lia).
  assert (E2 : forall v, 0 <= v < 65536 -> from_be (htons v) = v) by (intros v Hv; unfold htons; rewrite u16_id by done; by apply from_be_be).
  assert (E4 : forall v, 0 <= v < 4294967296 -> from_be (htonl v) = v) by (intros v Hv; unfold htonl; rewrite u32_id by done; by apply from_be_be).
  assert (Hs : 0 <= (sender p).2 < 65536) by (unfold sender; by destruct (direction p)).
  assert (Hd : 0 <= (receiver p).2 < 65536) by (unfold receiver; by destruct (direction p)).
  assert (Eq : now ÷ 1000000 = now / 1000000) by (apply Z.quot_div_nonneg; lia). unfold chunks_of, captured. rewrite Eq.
  assert (Em : now - now / 1000000 * 1000000 = now mod 1000000) by lia_div. rewrite Em.
  rewrite (u32_id (now / 1000000)), (u32_id (now mod 1000000)) by lia_div. unfold get. cbn [map find fst snd].
  unfold KS_HEPV3_VENDOR_ID_GENERIC.
  destruct (p_ip_family p =? AF_INET) eqn:EF; cbn [fmap option_fmap option_map mbind option_bind andb Z.eqb Pos.eqb snd fst];
    rewrite !(E1 (p_ip_family p)), EF by done; cbn [fmap option_fmap option_map mbind option_bind andb Z.eqb Pos.eqb snd fst];
    rewrite !E2, !E4, E1 by first [done | lia_div]; by destruct (sender p), (receiver p).
Qed.
(** C31: A capture packet carries what it was given. Whatever the parameters
    (either family, either direction, addresses that are none included) and
    a payload that is there, of at least one byte and at most [most_payload] -
    65535 bytes less the other chunks of the packet; nothing in the code checks
    that, and more is lost for a receiver ([long_payload_escapes]) - when memory is
    there [ks_hepv3_capture_create] returns the length of the block it makes, writes
    all of it and nothing else, and a receiver of the protocol reads from it
    the family, TCP, the addresses and ports by their role (the local end is
    the source of what is sent and the destination of what is received), the
    time in seconds (of 32 bits) and microseconds, the protocol type, the capture
    id and the payload. *)
Theorem hep_captured malloc j now p m body : wf_params p -> p.(payload) = Some m -> slice m 0 p.(payload_size) = Ok body ->
  0 < p.(payload_size) <= most_payload p.(p_ip_family) -> (forall n, malloc n = true) -> 0 <= now < 4294967296000000 ->
  exists out, ks_hepv3_capture_create inet_addr inet_pton6 malloc j now p = Ok (zlen out, Some (Some out)) /\
    decode out = Some (captured p now body).
Proof.
  intros Hp Ep Es Hsz Hm Hn. exists (packet p now body). assert (most_payload (p_ip_family p) <= 65436) by (unfold most_payload; by destruct (_ =? _)).
  split; [by apply (create_packet malloc j now p m body); [..|change (2 ^ 62) with 4611686018427387904; lia|]|].
  apply decode_chunks; [done|done|]. rewrite (slice_length _ _ _ Es). lia.
Qed.

(** *** Where the packet does not do as it says *)

(** The lengths have 16 bits and nothing checks the payload against them: one
    of 65536 bytes is announced as empty, and follows the packet in the stream
    as if it were the next packets. *)
Lemma long_payload_escapes p now body : zlen body = 65536 -> packet p now body = packet p now [] ++ body.
Proof.
  intros Hb. unfold packet. rewrite !chunks_length, Hb. change (zlen (@nil Z)) with 0.
  assert (u16 (sizeof_ctrl + (65535 - 6 - most_payload (p_ip_family p) + 65536)) = u16 (sizeof_ctrl + (65535 - 6 - most_payload (p_ip_family p) + 0))) as ->
    by (unfold most_payload; by destruct (_ =? _)).
  rewrite !chunks_split.
  unfold wire at 3 6, chunk_data_bytes, chunk_head. cbn [fst snd chunk data]. rewrite Hb. change (zlen (@nil Z)) with 0.
  rewrite <- !app_assoc. reflexivity.
Qed.
End Sent.

Definition sample_addr (s : list Z) : list Z := if bool_decide (s = bytes_of_string "10.0.0.1") then [10; 0; 0; 1] else [255; 255; 255; 255].
Definition sample_params (m : list Z) : ks_hepv3_capture_params_t :=
  Params AF_INET (bytes_of_string "10.0.0.1") (bytes_of_string "example") 5060 5070 KS_HEPV3_DIR_RECV 200 1 (Some m) 5.

Lemma sample_addr_length s : zlen (sample_addr s) = 4.
Proof. unfold sample_addr. by case_bool_decide. Qed.

Lemma hep_captured_witness : let p := sample_params (bytes_of_string "hello!") in
  exists out, ks_hepv3_capture_create sample_addr (fun _ => None) (fun _ => true) 0 1700000000123456 p = Ok (zlen out, Some (Some out)) /\
    decode out = Some (captured sample_addr (fun _ => None) p 1700000000123456 (bytes_of_string "hello")).
Proof.
  apply (hep_captured sample_addr (fun _ => None) sample_addr_length (fun s a (H : None = Some a) => match H with end)) with (m := bytes_of_string "hello!").
  - vm_compute. repeat split; discriminate.
  - reflexivity.
  - reflexivity.
  - vm_compute. split; [done|discriminate].
  - reflexivity.
  - lia.
Defined.

(** A text that is no address is sent as 255.255.255.255. *)
Lemma hep_captured_fields : captured sample_addr (fun _ => None) (sample_params (bytes_of_string "hello!")) 1700000000123456 (bytes_of_string "hello") =
  Capture 2 6 ([255; 255; 255; 255], 5070) ([10; 0; 0; 1], 5060) 1700000000 123456 1 200 (bytes_of_string "hello").
Proof. by vm_compute. Qed.

(** No payload, one of no bytes, no memory: the length is 0, and only the
    failure to allocate the packet is seen in [*out_buffer]. *)
Lemma create_errors inet_addr inet_pton6 malloc j now p :
  (p.(payload) = None \/ p.(payload_size) = 0 \/ malloc sizeof_generic = false ->
    ks_hepv3_capture_create inet_addr inet_pton6 malloc j now p = Ok (0, None)) /\
  (p.(payload) <> None -> p.(payload_size) <> 0 -> (forall n, malloc n = (n =? sizeof_generic)) ->
    u64 (sizeof_generic + p.(payload_size) + (set_addresses inet_addr inet_pton6 p).2 + sizeof_chunk) <> sizeof_generic ->
    ks_hepv3_capture_create inet_addr inet_pton6 malloc j now p = Ok (0, Some None)).
Proof.
  unfold ks_hepv3_capture_create. split.
  - destruct (payload p); [|done]. intros [[=]|[->|H]]; [done|]. destruct (_ =? 0); [done|]. by rewrite H.
  - destruct (payload p); [intros _|done]. intros Hz Hm Ht. destruct (Z.eqb_spec (payload_size p) 0); [done|]. rewrite (Hm sizeof_generic), Z.eqb_refl. cbn [negb].
    destruct (set_addresses inet_addr inet_pton6 p) as [[src dst] k]. cbn [snd] in Ht. apply Z.eqb_neq in Ht. by rewrite Hm, Ht.
Qed.
End Hep.
