(* ===== verification/HepSocket.v ===== *)
(** The connection to a capture server (src/src/ks_hep.c, [ks_hepv3_socket_*]) over
    the sockets of Socket. *)
From S2P Require Import Prelude Socket.
From stdpp Require Import gmap.
Import Socket.
Local Open Scope Z_scope.

Module HepSocket.

Definition KS_HEPV3_CONNECT_TIMIEOUT_MS : Z := 10000.

Section HepSocket.
(** [ks_tls_t] and its calls; whether the pool has memory; the resolver's answer;
    [inet_ntop]. *)
Context {tls : Type} (ks_tls_connect : M (option tls)) (ks_tls_destroy : tls -> M unit)
  (ks_tls_write_timeout : tls -> Z -> M (ks_status_t * Z)).
Context (pool_alloc : bool) (getaddrinfo : Z + list (Z * list Z)) (inet_ntop : Z -> list Z -> list Z).

Record ks_hepv3_socket_params := Params { server : option (list Z); p_port : Z; use_tls : bool; pool : bool }.
Record ks_hepv3_socket := HepSock { raw_socket : Z; tls_socket : option tls }.

(** The status and [*out_hep_socketP]. *)
Definition ks_hepv3_socket_init_tls : M (ks_status_t * option ks_hepv3_socket) :=
  if negb pool_alloc then mret (KS_STATUS_ALLOC, None) else
  ktls ← ks_tls_connect;
  match ktls with
  | None => mret (KS_STATUS_GENERR, None)
  | Some t => mret (KS_STATUS_SUCCESS, Some (HepSock KS_SOCK_INVALID (Some t)))
  end.

Definition ks_hepv3_socket_init_raw (params : ks_hepv3_socket_params) : M (ks_status_t * option ks_hepv3_socket) :=
  r ← lift (ks_addr_getbyname inet_ntop params.(server) params.(p_port) getaddrinfo zero_addr);
  let '(st, capt_addr) := r in
  if decide (st = KS_STATUS_SUCCESS) then
    if negb pool_alloc then mret (KS_STATUS_ALLOC, None) else
    tcp_socket ← ks_socket_connect_ex capt_addr KS_HEPV3_CONNECT_TIMIEOUT_MS;
    if tcp_socket =? KS_SOCK_INVALID then mret (KS_STATUS_FAIL, None)
    else ks_socket_common_setup tcp_socket ;; mret (KS_STATUS_SUCCESS, Some (HepSock tcp_socket None))
  else mret (KS_STATUS_FAIL, None).

(** [out]: what [*out_hep_socketP] was. *)
Definition ks_hepv3_socket_init (params : ks_hepv3_socket_params) (out : option ks_hepv3_socket) :
    M (ks_status_t * option ks_hepv3_socket) :=
  if negb (bool_decide (is_Some params.(server))) || (params.(p_port) =? 0) || negb params.(pool) then mret (KS_STATUS_ARG_NULL, out)
  else if params.(use_tls) then ks_hepv3_socket_init_tls
  else ks_hepv3_socket_init_raw params.

Definition ks_hepv3_socket_destroy (hep_socket : option ks_hepv3_socket) : M unit :=
  match hep_socket with
  | None => mret tt
  | Some s =>
    match s.(tls_socket) with
    | Some t => ks_tls_destroy t
    | None => ks_socket_shutdown s.(raw_socket) 2 ;; ks_socket_close s.(raw_socket) ;; mret tt
    end
  end.

Definition ks_hepv3_socket_write (hep_socket : option ks_hepv3_socket) (bytes : option Z) : M (ks_status_t * option Z) :=
  match hep_socket, bytes with
  | Some s, Some n =>
    if n =? 0 then mret (KS_STATUS_ARG_NULL, bytes) else
    r ← (match s.(tls_socket) with Some t => ks_tls_write_timeout t n | None => ks_socket_send s.(raw_socket) n end);
    mret (r.1, Some r.2)
  | _, _ => mret (KS_STATUS_ARG_NULL, bytes)
  end.

(** ** What is opened is closed *)

Lemma wp_option w0 fd i name on (Q : ks_status_t -> sys -> Prop) w : owns w0 fd i w ->
  (forall st j w', owns w0 fd j w' -> Q st w') -> wp (ks_socket_option fd name on) Q w.
Proof.
  intros Ho H. unfold ks_socket_option.
  assert (Hset : forall l n x, wp (r ← setsockopt fd l n x; mret (if r =? 0 then KS_STATUS_SUCCESS else KS_STATUS_FAIL)) Q w).
  { intros l n x. apply wp_bind. eapply wp_owned; [done|..]; intros; apply wp_ret; by eapply H. }
  destruct (bool_decide _); [apply Hset|]. destruct (Z.eqb_spec name KS_SO_NONBLOCK) as [->|].
  - pose proof (wp_nonblock w0 fd i on Q w Ho) as Hn. unfold ks_socket_option in Hn.
    rewrite bool_decide_false, Z.eqb_refl in Hn by (vm_compute; set_solver). apply Hn; intros; by eapply H.
  - destruct (_ =? _); [apply Hset|]. apply wp_ret. by eapply H.
Qed.

Lemma wp_common_setup w0 fd i (Q : unit -> sys -> Prop) w : owns w0 fd i w ->
  (forall j w', owns w0 fd j w' -> Q tt w') -> wp (ks_socket_common_setup fd) Q w.
Proof.
  intros Ho H. unfold ks_socket_common_setup. rewrite (owns_valid _ _ _ _ Ho).
  do 3 (apply wp_bind; eapply wp_option; [done|]; clear Ho; intros ? ? ? Ho). apply wp_ret. by eapply H.
Qed.

(** Without TLS, a capture socket holds one descriptor that was not in use, until it
    is destroyed; a failed [ks_hepv3_socket_init] holds none. *)
Lemma hep_socket_kept params out w : params.(use_tls) = false -> params.(p_port) < 65536 -> 0 <= params.(p_port) ->
  match getaddrinfo with inl _ => True | inr l => l <> [] /\ Forall (fun a => known_family a.1 = true /\ zlen a.2 = addr_len a.1) l end ->
  wp (ks_hepv3_socket_init params out) (fun r w' =>
    (r.1 <> KS_STATUS_SUCCESS /\ w'.(fds) = w.(fds)) \/
    (r.1 = KS_STATUS_SUCCESS /\ exists s i, r.2 = Some s /\ s.(tls_socket) = None /\ owns w s.(raw_socket) i w' /\
      wp (ks_hepv3_socket_destroy r.2) (fun _ w2 => w2.(fds) = w.(fds)) w')) w.
Proof.
  intros Ht Hp1 Hp0 Hg. unfold ks_hepv3_socket_init. destruct (negb _ || _ || _) eqn:E; [apply wp_ret; by left|]. rewrite Ht.
  apply orb_false_iff in E as [E _]. apply orb_false_iff in E as [E _]. apply negb_false_iff, bool_decide_eq_true_1 in E.
  unfold ks_hepv3_socket_init_raw, ks_addr_getbyname. rewrite bool_decide_true by done. cbn [ks_assert mbind res_bind].
  destruct getaddrinfo as [e|[|[f a] l]].
  - apply wp_bind. eapply wp_lift; [reflexivity|]. cbv beta iota zeta.
    rewrite decide_False by (by destruct (e =? EAI_NONAME)). apply wp_ret. by left.
  - by destruct Hg.
  - destruct Hg as [_ Hg]. apply Forall_cons in Hg as [[Hf Ha] _]. cbn in Hf, Ha.
    destruct (set_raw_ok inet_ntop f params.(p_port) a Hf ltac:(lia) Ha) as (b & -> & (Hbf & Hbv & _) & _). cbn [mbind res_bind snd].
    apply wp_bind. eapply wp_lift; [reflexivity|]. cbv beta iota zeta. rewrite decide_True by done.
    destruct pool_alloc; cbn [negb]; [|apply wp_ret; by left].
    destruct (raw_ok b) as (x & Ex); [by rewrite Hbf|done|]. apply wp_bind.
    eapply wp_mono; [eapply ks_socket_connect_ex_owns; [by rewrite Hbf|done|exact Ex]|].
    intros fd w1 [[-> E1]|(i & Ho & _)].
    + rewrite Z.eqb_refl. apply wp_ret. by left.
    + rewrite (owns_valid _ _ _ _ Ho). apply wp_bind. eapply wp_common_setup; [done|]. intros j w2 Ho2. apply wp_ret. right.
      split; [done|]. exists (HepSock fd None), j. split; [done|]. split; [done|]. split; [done|]. cbn.
      apply wp_bind. unfold ks_socket_shutdown. apply wp_bind. eapply wp_owned; [exact Ho2|..].
      * intros w3 Ho3 _. apply wp_ret, wp_bind. eapply wp_ks_close; [exact Ho3|]. intros w4 E4. by apply wp_ret.
      * intros r w3 Ho3 _ _. apply wp_ret, wp_bind. eapply wp_ks_close; [exact Ho3|]. intros w4 E4. by apply wp_ret.
Qed.
End HepSocket.
End HepSocket.
