(* ===== verification/Config.v ===== *)
(** Configuration files (src/src/ks_config.c): lines of a stream read one at a
    time and cut in place into a name and a value. *)
From S2P Require Import Prelude StrUtil.
Local Open Scope Z_scope.

Module Config.

(** ** The C library on memory and streams *)

Fixpoint find_char (c : Z) (m : list Z) : res (option Z) :=
  match m with
  | [] => Err OutOfBounds
  | x :: m => if x =? c then Ok (Some 0) else if x =? 0 then Ok None else r ← find_char c m; Ok (option_map Z.succ r)
  end.
(** [strchr(m + off, c)] *)
Definition strchr (m : list Z) (off c : Z) : res (option Z) :=
  r ← find_char c (drop (Z.to_nat off) m); Ok (option_map (Z.add off) r).

(** The line [fgets] takes from a stream, of at most [n] characters, and what
    is left. *)
Fixpoint take_line (n : nat) (s : list Z) : list Z * list Z :=
  match n, s with
  | S n, c :: s => if c =? 10 then ([c], s) else let '(l, r) := take_line n s in (c :: l, r)
  | _, _ => ([], s)
  end.
Definition fgets (buf : list Z) (size : nat) (s : list Z) : res (option (list Z * list Z)) :=
  match s with
  | [] => Ok None
  | _ => let '(l, r) := take_line (size - 1) s in buf ← blit buf 0 (l ++ [0]); Ok (Some (buf, r))
  end.

(** ** The handle *)

(** [file]: what is left of the stream, when one is open. *)
Record ks_config := Cfg {
  file : option (list Z); path : list Z; category : list Z; section : list Z; buf : list Z;
  lineno : Z; catno : Z; sectno : Z; lockto : Z }.

(** [memset(cfg, 0, sizeof( *cfg))] *)
Definition zeroed : ks_config :=
  Cfg None (replicate 512 0) (replicate 256 0) (replicate 256 0) (replicate 1024 0) 0 0 0 0.

Definition ks_set_string (dst src : list Z) (size : Z) : res (list Z) :=
  r ← StrUtil.ks_copy_string (Some dst) (Some src) size;
  match r with Some (m, _) => Ok m | None => Ok dst end.

(** [*var] and [*val]: NULL, a place in [buf], the literal [""]. *)
Inductive ptr := Null | At (off : Z) | Literal.

(** ** One line *)

(** The text ends at [";;"] or at the end of the line; [end]. *)
Definition cut_line (m : list Z) : res (list Z * option Z) :=
  semi ← strchr m 0 59;
  double ← match semi with Some i => c ← ld m (i + 1); Ok (c =? 59) | None => Ok false end;
  match semi, double with
  | Some i, true => m ← st m i 0; Ok (m, Some (i - 1))
  | _, _ =>
    nl ← strchr m 0 10;
    match nl with
    | None => Ok (m, None)
    | Some i => c ← ld m (i - 1); let i := if c =? 13 then i - 1 else i in m ← st m i 0; Ok (m, Some i)
    end
  end.

Definition blank (c : Z) : bool := (c =? 32) || (c =? 9).

(** Blanks at [p] and behind it, but not at [end], are cut off. *)
Fixpoint skip_blanks (fuel : nat) (m : list Z) (p : Z) (e : option Z) : res (list Z * Z) :=
  match fuel with
  | O => Err NoFuel
  | S fuel =>
    c ← ld m p;
    if blank c && negb (bool_decide (Some p = e)) then m ← st m p 0; skip_blanks fuel m (p + 1) e else Ok (m, p)
  end.

(** Blanks at [p] and in front of it, but not at [var], are cut off. *)
Fixpoint trim_back (fuel : nat) (m : list Z) (p var : Z) : res (list Z) :=
  match fuel with
  | O => Err NoFuel
  | S fuel =>
    c ← ld m p;
    if blank c && negb (p =? var) then m ← st m p 0; trim_back fuel m (p - 1) var else Ok m
  end.

(** A name and a value, or neither. *)
Definition split_pair (m : list Z) : res (list Z * Z * option Z) :=
  let fuel := S (length m) in
  r ← cut_line m;
  let '(m, e) := r in
  r ← skip_blanks fuel m 0 e;
  let '(m, var) := r in
  eq ← strchr m var 61;
  match eq with
  | None => Ok (m, var, None)
  | Some i =>
    m ← st m i 0;
    c ← ld m (i + 1);
    r ← (if c =? 62 then m ← st m (i + 1) 0; Ok (m, i + 2) else Ok (m, i + 1));
    let '(m, val) := r in
    m ← trim_back fuel m (i - 1) var;
    r ← skip_blanks fuel m val e;
    let '(m, val) := r in
    Ok (m, var, Some val)
  end.

(** What a turn of the loop comes to: the call returns, or the next line. *)
Inductive turn := Return (ret : Z) (var val : ptr) (cfg : ks_config) | Next (ret : Z) (var val : ptr) (cfg : ks_config).

Definition END : list Z := bytes_of_string "__END__".

Definition read_line (cfg : ks_config) (s : list Z) (ret : Z) (var val : ptr) : res turn :=
  let 'Cfg file path category section buf lineno catno sectno lockto := cfg in
  let lineno := s32 (lineno + 1) in
  line ← fgets buf 1024 s;
  match line with
  | None => Ok (Return 0 var val (Cfg (Some s) path category section buf lineno catno sectno lockto))
  | Some (buf, s) =>
    let file := Some s in
    c ← ld buf 0;
    e ← (if c =? 91 then strchr buf 0 93 else Ok None);
    match e with
    | Some e =>
      buf ← st buf e 0;
      c ← ld buf 1;
      if c =? 43 then
        section ← ks_set_string section (drop 2 buf) 256;
        let sectno := s32 (sectno + 1) in
        if (-1 <? lockto) && negb (sectno =? lockto) then
          Ok (Return ret (At 2) val (Cfg file path category section buf lineno catno sectno lockto))
        else Ok (Return 1 Literal Literal (Cfg file path category section buf 0 0 sectno lockto))
      else
        category ← ks_set_string category (drop 1 buf) 256;
        Ok (Next ret (At 1) val (Cfg file path category section buf lineno (s32 (catno + 1)) sectno lockto))
    | None =>
      let cfg buf := Cfg file path category section buf lineno catno sectno lockto in
      if (c =? 35) || (c =? 59) || (c =? 10) || (c =? 13) then Ok (Next ret (At 0) val (cfg buf)) else
      text ← cstr buf 0;
      if bool_decide (take 7 text = END) then Ok (Return ret (At 0) val (cfg buf)) else
      r ← split_pair buf;
      let '(buf, var, v) := r in
      match v with
      | None => Ok (Next (-1) (At var) Null (cfg buf))
      | Some v => Ok (Return 1 (At var) (At v) (cfg buf))
      end
    end
  end.

(** A turn takes a character of the stream or more: its length bounds them. *)
Fixpoint lines_loop (fuel : nat) (cfg : ks_config) (ret : Z) (var val : ptr) : res (Z * ptr * ptr * ks_config) :=
  match fuel, cfg.(file) with
  | O, _ => Err NoFuel
  | _, None => Err NullDeref
  | S fuel, Some s =>
    t ← read_line cfg s ret var val;
    match t with
    | Return ret var val cfg => Ok (ret, var, val, cfg)
    | Next ret var val cfg => lines_loop fuel cfg ret var val
    end
  end.

Definition ks_config_next_pair (cfg : ks_config) : res (Z * ptr * ptr * ks_config) :=
  match cfg.(file) with
  | None => Ok (0, Null, Null, cfg)
  | Some s => lines_loop (S (length s)) cfg 0 Null Null
  end.

(** ** Opening and closing *)

Section Open.
(** The directory of the configuration, and what [fopen] finds under a path. *)
Context (KS_CONFIG_DIR : list Z) (fopen : list Z -> option (list Z)).

(** [ks_snprintf] into 1024 bytes, which keeps one more than the end of the
    string free. *)
Definition in_config_dir (file : list Z) : list Z := take 1022 (KS_CONFIG_DIR ++ bytes_of_string "/" ++ file).

(** The sections of [openks.conf] up to the one that has the name. *)
Fixpoint find_section (fuel : nat) (cfg : ks_config) (file_path : list Z) (last : Z) : res (Z * ks_config) :=
  match fuel with
  | O => Err NoFuel
  | S fuel =>
    r ← ks_config_next_pair cfg;
    let '(ret, _, _, cfg) := r in
    if ret =? 0 then Ok (0, zeroed) else
    name ← cstr cfg.(section) 0;
    if negb (cfg.(sectno) =? last) && bool_decide (name = file_path) then
      let 'Cfg file path category section buf lineno catno sectno _ := cfg in
      Ok (1, Cfg file path category section buf lineno catno sectno sectno)
    else find_section fuel cfg file_path last
  end.

Definition opened (contents path : list Z) : res ks_config :=
  let 'Cfg _ p category section buf lineno catno sectno _ := zeroed in
  p ← ks_set_string p (path ++ [0]) 512;
  Ok (Cfg (Some contents) p category section buf lineno catno sectno (-1)).

Definition ks_config_open_file (file_path : list Z) : res (Z * ks_config) :=
  let absolute := bool_decide (take 1 file_path = [47]) in
  let path := if absolute then file_path else in_config_dir file_path in
  match fopen path with
  | Some contents => cfg ← opened contents path; Ok (1, cfg)
  | None =>
    let 'Cfg f p category section buf lineno catno sectno _ := zeroed in
    let cfg := Cfg f p category section buf lineno catno sectno (-1) in
    if absolute then Ok (0, cfg) else
    let path := in_config_dir (bytes_of_string "openks.conf") in
    match fopen path with
    | None => Ok (0, cfg)
    | Some contents => cfg ← opened contents path; find_section (S (length contents)) cfg file_path (-1)
    end
  end.

Definition ks_config_close_file (cfg : ks_config) : ks_config := zeroed.
End Open.

(** ** Bits of a channel *)

Fixpoint cas_loop (bits : list Z) (bit outbits : Z) : Z * Z :=
  match bits with
  | [] => (0, outbits)
  | c :: bits =>
    if c =? 49 then cas_loop bits (Z.shiftr bit 1) (Z.lor outbits bit)
    else if c =? 48 then cas_loop bits (Z.shiftr bit 1) outbits else (-1, outbits)
  end.

(** [outbits]: what it held is returned when it is not written. *)
Definition ks_config_get_cas_bits (strvalue : list Z) (outbits : Z) : res (Z * Z) :=
  double_colon ← strchr strvalue 0 58;
  match double_colon with
  | None => Ok (-1, outbits)
  | Some i =>
    text ← cstr strvalue (i + 1);
    if zlen text <? 4 then Ok (-1, 0) else Ok (cas_loop (take 4 text) 8 0)
  end.

(** ** The C functions on the lines of a file *)

Definition avoids (cs : list Z) (s : list Z) : Prop := Forall (fun c => ~ In c cs) s.

Lemma avoids_app cs s t : avoids cs (s ++ t) <-> avoids cs s /\ avoids cs t.
Proof. apply Forall_app. Qed.

Lemma avoids_list cs s : forallb (fun c => negb (existsb (Z.eqb c) cs)) s = true -> avoids cs s.
Proof.
  intros H. induction s as [|c s IH]; [constructor|]. cbn in H. apply andb_true_iff in H as [H1 H2]. constructor; [|by apply IH].
  intros Hin. apply negb_true_iff in H1. assert (existsb (Z.eqb c) cs = true); [|congruence]. apply existsb_exists. exists c. by rewrite Z.eqb_refl.
Qed.

Lemma avoids_no_nul cs s : In 0 cs -> avoids cs s -> no_nul s.
Proof. intros H0 H. eapply Forall_impl; [exact H|]. intros c Hc ->. done. Qed.

Lemma find_char_none c s j : c <> 0 -> avoids [0; c] s -> find_char c (s ++ 0 :: j) = Ok None.
Proof.
  intros Hc. induction 1 as [|x s Hx _ IH]; cbn [app find_char]; [by destruct (Z.eqb_spec 0 c)|].
  destruct (Z.eqb_spec x c); [subst; cbn in Hx; tauto|]. destruct (Z.eqb_spec x 0); [subst; cbn in Hx; tauto|]. by rewrite IH.
Qed.

Lemma find_char_some c s j : avoids [0; c] s -> find_char c (s ++ c :: j) = Ok (Some (zlen s)).
Proof.
  induction 1 as [|x s Hx _ IH]; cbn [app find_char]; [by rewrite Z.eqb_refl|].
  destruct (Z.eqb_spec x c); [subst; cbn in Hx; tauto|]. destruct (Z.eqb_spec x 0); [subst; cbn in Hx; tauto|]. rewrite IH. cbn. by rewrite zlen_cons.
Qed.

Lemma drop_zlen (pre s : list Z) : drop (Z.to_nat (zlen pre)) (pre ++ s) = s.
Proof. unfold zlen. by rewrite Nat2Z.id, drop_app_length. Qed.

Lemma strchr_none pre c s j : c <> 0 -> avoids [0; c] s -> strchr (pre ++ s ++ 0 :: j) (zlen pre) c = Ok None.
Proof. intros Hc Hs. unfold strchr. by rewrite drop_zlen, find_char_none. Qed.

Lemma strchr_some pre c s j : avoids [0; c] s -> strchr (pre ++ s ++ c :: j) (zlen pre) c = Ok (Some (zlen pre + zlen s)).
Proof. intros Hs. unfold strchr. by rewrite drop_zlen, find_char_some. Qed.

Lemma take_line_lf n l r : avoids [10] l -> (length l < n)%nat -> take_line n (l ++ 10 :: r) = (l ++ [10], r).
Proof.
  intros H. revert n. induction H as [|c l Hc _ IH]; intros n Hn; (destruct n as [|n]; [cbn in Hn; lia|]); cbn [app take_line]; [done|].
  destruct (Z.eqb_spec c 10); [subst; cbn in Hc; tauto|]. cbn in Hn. rewrite IH by lia. done.
Qed.

Lemma take_line_last n l : avoids [10] l -> (length l <= n)%nat -> take_line n l = (l, []).
Proof.
  intros H. revert n. induction H as [|c l Hc _ IH]; intros n Hn; destruct n as [|n]; cbn in *; try done; [lia|].
  destruct (Z.eqb_spec c 10); [subst; tauto|]. rewrite IH by lia. done.
Qed.

(** A line: all but the last of a file end with a line feed. *)
Definition line_of (l rest : list Z) : Prop :=
  exists t, avoids [10] t /\ (l = t ++ [10] \/ l = t /\ t <> [] /\ rest = []).

Lemma fgets_line buf l rest : zlen buf = 1024 -> zlen l <= 1023 -> line_of l rest ->
  fgets buf 1024 (l ++ rest) = Ok (Some (l ++ 0 :: drop (S (length l)) buf, rest)).
Proof.
  intros Hb Hl (t & Ht & Hlf).
  assert (El : take_line (1024 - 1) (l ++ rest) = (l, rest)).
  { destruct Hlf as [->|(-> & _ & ->)].
    - rewrite <- app_assoc. cbn [app]. rewrite zlen_app in Hl. change (zlen [10]) with 1 in Hl. apply take_line_lf; [done|unfold zlen in *; lia].
    - rewrite app_nil_r. apply take_line_last; [done|unfold zlen in *; lia]. }
  assert (Hne : l ++ rest <> []) by (destruct Hlf as [->|(-> & ? & _)]; [by destruct t|by destruct t]).
  unfold fgets. destruct (l ++ rest) eqn:E; [done|]. rewrite El.
  pose proof (blit_rest [] buf (l ++ [0]) 0 eq_refl) as B. cbn [app] in B. rewrite B by (rewrite zlen_app; change (zlen [0]) with 1; lia).
  cbn [mbind res_bind]. rewrite <- app_assoc, length_app. cbn [app length]. by rewrite Nat.add_1_r.
Qed.

Lemma skip_blanks_run bl c post e : Forall (fun x => blank x = true) bl -> blank c = false -> forall pre fuel p,
  p = zlen pre -> (forall i, 0 <= i < zlen bl -> e <> Some (p + i)) -> (length bl < fuel)%nat ->
  skip_blanks fuel (pre ++ bl ++ c :: post) p e = Ok (pre ++ replicate (length bl) 0 ++ c :: post, p + zlen bl).
Proof.
  intros Hbl Hc. induction Hbl as [|x bl Hx _ IH]; intros pre fuel p -> He Hf; (destruct fuel as [|fuel]; [cbn in Hf; lia|]); cbn [app length replicate skip_blanks].
  - rewrite ld_app_mid by done. cbn [mbind res_bind]. rewrite Hc. cbn [andb]. do 2 f_equal. change (zlen (@nil Z)) with 0. lia.
  - rewrite ld_app_mid by done. cbn [mbind res_bind]. rewrite Hx, bool_decide_false by (intros E; apply (He 0); [rewrite zlen_cons; pose proof (zlen_nonneg bl); lia|by rewrite Z.add_0_r]).
    cbn [negb andb]. rewrite st_app_mid by done. cbn [mbind res_bind].
    change (pre ++ 0 :: bl ++ c :: post) with (pre ++ [0] ++ bl ++ c :: post). rewrite app_assoc, IH.
    + rewrite <- app_assoc, zlen_cons. do 2 f_equal. lia.
    + by rewrite zlen_app.
    + intros i Hi E. apply (He (i + 1)); [rewrite zlen_cons; lia|]. rewrite E. f_equal. lia.
    + cbn in Hf. lia.
Qed.

Lemma trim_back_run pre c post var : blank c = false -> var <= zlen pre -> forall bl fuel p, Forall (fun x => blank x = true) bl ->
  p = zlen pre + zlen bl -> (length bl < fuel)%nat ->
  trim_back fuel (pre ++ c :: bl ++ post) p var = Ok (pre ++ c :: replicate (length bl) 0 ++ post).
Proof.
  intros Hc Hv bl. revert post. induction bl as [|x bl IH] using rev_ind; intros post fuel p Hbl -> Hf; (destruct fuel as [|fuel]; [cbn in Hf; lia|]); cbn [trim_back].
  - cbn [app length replicate]. change (zlen (@nil Z)) with 0. rewrite ld_app_mid by lia. cbn [mbind res_bind]. by rewrite Hc.
  - apply Forall_app in Hbl as [Hbl Hx]. apply Forall_cons in Hx as [Hx _]. rewrite zlen_app. change (zlen [x]) with 1. rewrite <- app_assoc. cbn [app].
    assert (E : pre ++ c :: bl ++ x :: post = (pre ++ c :: bl) ++ x :: post) by (by rewrite <- app_assoc). rewrite E.
    pose proof (zlen_nonneg bl). rewrite ld_app_mid by (rewrite zlen_app, zlen_cons; lia). cbn [mbind res_bind]. rewrite Hx. destruct (Z.eqb_spec (zlen pre + (zlen bl + 1)) var); [lia|].
    cbn [negb andb]. rewrite st_app_mid by (rewrite zlen_app, zlen_cons; lia). cbn [mbind res_bind]. rewrite <- app_assoc. cbn [app].
    rewrite IH; [|done|lia|rewrite length_app in Hf; cbn in Hf; lia]. rewrite length_app, replicate_add, <- app_assoc. done.
Qed.

(** ** The lines of a file and what they mean *)

(** How a line with a pair ends. *)
Inductive ending := LF | CRLF | Comment (text : list Z) | EndOfFile.
Definition print_ending (e : ending) : list Z :=
  match e with LF => [10] | CRLF => [13; 10] | Comment t => [59; 59] ++ t ++ [10] | EndOfFile => [] end.

Inductive line :=
  | Pair (indent name sp : list Z) (arrow : bool) (sp' value : list Z) (e : ending)
  | Category (name rest : list Z)
  | Section_ (name rest : list Z)
  | Remark (rest : list Z)
  | Junk (indent text : list Z) (e : ending).

Definition body (l : line) : list Z :=
  match l with
  | Pair indent name sp arrow sp' value _ => indent ++ name ++ sp ++ [61] ++ (if arrow then [62] else []) ++ sp' ++ value
  | Junk indent text _ => indent ++ text
  | _ => []
  end.
Definition print_line (l : line) : list Z :=
  match l with
  | Pair _ _ _ _ _ _ e | Junk _ _ e => body l ++ print_ending e
  | Category name rest => [91] ++ name ++ [93] ++ rest
  | Section_ name rest => [91; 43] ++ name ++ [93] ++ rest
  | Remark rest => rest
  end.

Definition blanks (s : list Z) : Prop := Forall (fun c => blank c = true) s.
(** The characters that delimit: NUL, line feed, carriage return, [;]. *)
Definition delims : list Z := [0; 10; 13; 59].
Definition starts (s : list Z) : Prop := exists c t, s = c :: t /\ blank c = false.
Definition stops (s : list Z) : Prop := exists t c, s = t ++ [c] /\ blank c = false.

Lemma split_value_tail value post : (value = [] \/ starts value) -> exists c t, value ++ 0 :: post = c :: t /\ blank c = false.
Proof. intros [->|(c & t & -> & Hc)]; [by exists 0, post|by exists c, (t ++ 0 :: post)]. Qed.

Definition wf_ending (e : ending) : Prop := match e with Comment t => avoids [0; 10] t | _ => True end.

(** The cut: what is left is the text; [end] is behind it, or at its last character. *)
Lemma cut_line_run t e j : avoids delims t -> t <> [] -> wf_ending e ->
  exists j' e', cut_line (t ++ print_ending e ++ 0 :: j) = Ok (t ++ 0 :: j', e') /\ length j' = (length (print_ending e) + length j)%nat /\
    (forall i, e' = Some i -> i = zlen t \/ i = zlen t - 1 /\ exists c, e = Comment c).
Proof.
  intros Ht Hne He. unfold cut_line.
  assert (H59 : avoids [0; 59] t) by (eapply Forall_impl; [exact Ht|]; cbn; tauto).
  assert (H10 : avoids [0; 10] t) by (eapply Forall_impl; [exact Ht|]; cbn; tauto).
  assert (Hl : exists u x, t = u ++ [x] /\ x <> 13).
  { destruct t as [|x u _] using rev_ind; [done|]. exists u, x. split; [done|]. apply Forall_app in Ht as [_ Hx]. apply Forall_cons in Hx as [Hx _]. cbn in Hx. lia. }
  pose proof (fun c s => strchr_some [] c s) as S. pose proof (fun c s => strchr_none [] c s) as N. cbn [app] in S, N. change (zlen (@nil Z)) with 0 in S, N.
  destruct e as [| |c|]; cbn [print_ending app wf_ending length] in *.
  - change (t ++ 10 :: 0 :: j) with (t ++ [10] ++ 0 :: j). rewrite app_assoc, (N 59); [|done|apply avoids_app; split; [done|by apply avoids_list]].
    cbn [mbind res_bind]. rewrite <- app_assoc. cbn [app]. rewrite (S 10) by done. cbn [mbind res_bind].
    destruct Hl as (u & x & -> & Hx). rewrite zlen_app. change (zlen [x]) with 1. rewrite <- !app_assoc. cbn [app]. rewrite ld_app_mid by lia. cbn [mbind res_bind].
    destruct (Z.eqb_spec x 13); [done|]. cbn zeta. change (u ++ x :: 10 :: 0 :: j) with (u ++ [x] ++ 10 :: 0 :: j). rewrite app_assoc, st_app_mid by (rewrite zlen_app; change (zlen [x]) with 1; lia).
    cbn [mbind res_bind]. do 2 eexists. split; [reflexivity|]. split; [done|]. intros i [= <-]. left. lia.
  - change (t ++ 13 :: 10 :: 0 :: j) with (t ++ [13; 10] ++ 0 :: j). rewrite app_assoc, (N 59); [|done|apply avoids_app; split; [done|by apply avoids_list]].
    cbn [mbind res_bind]. rewrite <- app_assoc. change (t ++ [13; 10] ++ 0 :: j) with (t ++ [13] ++ 10 :: 0 :: j). rewrite app_assoc, (S 10) by (apply avoids_app; split; [done|by apply avoids_list]).
    cbn [mbind res_bind]. rewrite zlen_app. change (zlen [13]) with 1. rewrite <- app_assoc. cbn [app]. rewrite ld_app_mid by lia. cbn [mbind res_bind Z.eqb Pos.eqb]. cbn zeta.
    rewrite st_app_mid by lia. cbn [mbind res_bind]. do 2 eexists. split; [reflexivity|]. split; [done|]. intros i [= <-]. left. lia.
  - rewrite (S 59) by done. cbn [mbind res_bind]. change (t ++ 59 :: 59 :: (c ++ [10]) ++ 0 :: j) with (t ++ [59] ++ 59 :: (c ++ [10]) ++ 0 :: j). rewrite app_assoc.
    rewrite ld_app_mid by (by rewrite zlen_app). cbn [mbind res_bind Z.eqb Pos.eqb]. rewrite <- app_assoc. cbn [app]. rewrite st_app_mid by done. cbn [mbind res_bind].
    do 2 eexists. split; [reflexivity|]. split; [cbn; rewrite !length_app; cbn; lia|]. intros i [= <-]. right. split; [done|by exists c].
  - rewrite (N 59) by done. cbn [mbind res_bind]. rewrite (N 10) by done. cbn [mbind res_bind]. do 2 eexists. split; [reflexivity|]. by split.
Qed.

Lemma cstr_at pre s j : no_nul s -> cstr (pre ++ s ++ 0 :: j) (zlen pre) = Ok s.
Proof. intros Hs. unfold cstr. rewrite drop_zlen, strlen_app by done. cbn [mbind res_bind]. by apply slice_app. Qed.

Definition zeros (s : list Z) : list Z := replicate (length s) 0.
Lemma zlen_zeros s : zlen (zeros s) = zlen s.
Proof. unfold zeros. by rewrite zlen_replicate. Qed.

Lemma blanks_avoid s c : blanks s -> blank c = false -> avoids [0; c] s.
Proof. intros H Hc. eapply Forall_impl; [exact H|]. intros x Hx [<-|[<-|[]]]; [done|congruence]. Qed.

(** The name: what is in front of it and between it and the sign is cut off. *)
Lemma split_name fuel indent name sp tail e : blanks indent -> blanks sp -> starts name -> stops name -> avoids [0; 61] name ->
  (forall i, e = Some i -> zlen indent <= i) -> (length indent < fuel)%nat -> (length sp < fuel)%nat ->
  skip_blanks fuel (indent ++ name ++ sp ++ 61 :: tail) 0 e = Ok (zeros indent ++ name ++ sp ++ 61 :: tail, zlen indent) /\
  strchr (zeros indent ++ name ++ sp ++ 61 :: tail) (zlen indent) 61 = Ok (Some (zlen indent + zlen name + zlen sp)) /\
  forall tail', trim_back fuel (zeros indent ++ name ++ sp ++ tail') (zlen indent + zlen name + zlen sp - 1) (zlen indent) =
    Ok (zeros indent ++ name ++ zeros sp ++ tail').
Proof.
  intros Hi Hsp (c & t & En & Hc) (u & x & En' & Hx) Ha He Hf1 Hf2. repeat split.
  - rewrite En. cbn [app]. pose proof (skip_blanks_run indent c (t ++ sp ++ 61 :: tail) e Hi Hc [] fuel 0 eq_refl) as R. cbn [app] in R. rewrite R; [done| |done].
    intros i Hir E. specialize (He _ E). lia.
  - rewrite <- (zlen_zeros indent). rewrite (app_assoc name), strchr_some; [by rewrite zlen_app, Z.add_assoc|]. apply avoids_app. split; [done|by apply blanks_avoid].
  - intros tail'. rewrite En', <- !app_assoc. cbn [app]. rewrite app_assoc.
    rewrite trim_back_run; [by rewrite <- app_assoc|done| |done| |done]; rewrite ?zlen_app, ?zlen_zeros; change (zlen [x]) with 1; pose proof (zlen_nonneg u); lia.
Qed.

(** The value: what is between the sign and it is cut off. *)
Lemma split_value fuel pre sp value j e : blanks sp -> value = [] \/ starts value ->
  (forall i, e = Some i -> sp = [] \/ zlen pre + zlen sp <= i) -> (length sp < fuel)%nat ->
  skip_blanks fuel (pre ++ sp ++ value ++ 0 :: j) (zlen pre) e = Ok (pre ++ zeros sp ++ value ++ 0 :: j, zlen pre + zlen sp).
Proof.
  intros Hsp Hv He Hf. destruct (split_value_tail value j Hv) as (c & t & -> & Hc). apply skip_blanks_run; try done.
  intros i Hi E. destruct (He _ E) as [->|]; [by change (zlen (@nil Z)) with 0 in Hi; lia|lia].
Qed.

Definition wf_pair (indent name sp : list Z) (arrow : bool) (sp' value : list Z) (e : ending) : Prop :=
  (blanks indent /\ blanks sp /\ blanks sp') /\ (starts name /\ stops name /\ avoids (61 :: delims) name) /\
  ((value = [] \/ starts value) /\ avoids delims value) /\ wf_ending e /\
  (arrow = true \/ sp' <> [] \/ forall t, value <> 62 :: t) /\ (value <> [] \/ sp' = [] \/ forall c, e <> Comment c).

Lemma blanks_delims s : blanks s -> avoids delims s.
Proof. intros H. eapply Forall_impl; [exact H|]. intros x Hx. cbn. intros [<-|[<-|[<-|[<-|[]]]]]; done. Qed.

Lemma pair_body_delims indent name sp arrow sp' value e : wf_pair indent name sp arrow sp' value e -> avoids delims (body (Pair indent name sp arrow sp' value e)).
Proof.
  intros ((Hi & Hs & Hs') & (_ & _ & Hn) & (_ & Hv) & _). cbn [body]. rewrite !avoids_app. repeat split; try done; try by apply blanks_delims.
  - eapply Forall_impl; [exact Hn|]. cbn. tauto.
  - by apply avoids_list.
  - destruct arrow; by apply avoids_list.
Qed.

(** The sign: [=] or [=>]. *)
Lemma split_sign pre n (arrow : bool) sp' value j : n = zlen pre -> (arrow = true \/ sp' <> [] \/ forall t, value <> 62 :: t) -> blanks sp' ->
  let z := if arrow then [0; 0] else [0] in
  (m ← st (pre ++ 61 :: (if arrow then [62] else []) ++ sp' ++ value ++ 0 :: j) n 0;
   c ← ld m (n + 1);
   if c =? 62 then m ← st m (n + 1) 0; Ok (m, n + 2) else Ok (m, n + 1)) = Ok (pre ++ z ++ sp' ++ value ++ 0 :: j, n + zlen z).
Proof.
  intros -> Ha Hs z. rewrite st_app_mid by done. cbn [mbind res_bind].
  assert (E : forall x t, pre ++ 0 :: x :: t = (pre ++ [0]) ++ x :: t) by (intros; by rewrite <- app_assoc). assert (En : zlen pre + 1 = zlen (pre ++ [0])) by (by rewrite zlen_app).
  subst z. destruct arrow; cbn [app].
  - rewrite E, En, ld_app_mid by done. cbn [mbind res_bind Z.eqb Pos.eqb]. rewrite st_app_mid by done. cbn [mbind res_bind]. rewrite <- app_assoc. reflexivity.
  - assert (Hx : exists x t, sp' ++ value ++ 0 :: j = x :: t /\ x <> 62).
    { destruct sp' as [|x sp']; [|apply Forall_cons in Hs as [Hx _]; exists x, (sp' ++ value ++ 0 :: j); split; [done|by intros ->]].
      destruct value as [|x value]; [by exists 0, j|]. exists x, (value ++ 0 :: j). split; [done|]. intros ->. destruct Ha as [?|[?|Ha]]; [done|done|by apply (Ha value)]. }
    destruct Hx as (x & t & -> & Hx). rewrite E, En, ld_app_mid by done. cbn [mbind res_bind]. destruct (Z.eqb_spec x 62); [done|]. by rewrite <- E, <- En.
Qed.

Lemma split_pair_run indent name sp arrow sp' value e j : wf_pair indent name sp arrow sp' value e ->
  exists m k, split_pair (body (Pair indent name sp arrow sp' value e) ++ print_ending e ++ 0 :: j) = Ok (m, zlen indent, Some k) /\
    cstr m (zlen indent) = Ok name /\ cstr m k = Ok value /\ length m = length (body (Pair indent name sp arrow sp' value e) ++ print_ending e ++ 0 :: j).
Proof.
  intros Hwf. pose proof (pair_body_delims _ _ _ _ _ _ _ Hwf) as Hd. destruct Hwf as ((Hi & Hs & Hs') & (Hst & Hsp & Hn) & (Hv & Hvd) & He & Ha & Hc).
  set (b := body _) in *. assert (Hb : b <> []) by (unfold b; cbn [body]; destruct Hst as (c & t & -> & _); by destruct indent).
  destruct (cut_line_run b e j Hd Hb He) as (j' & e' & Ecut & Elen & Hend). unfold split_pair. rewrite Ecut. cbn [mbind res_bind].
  set (fuel := S _). assert (Hfuel : (length b < fuel)%nat) by (unfold fuel; rewrite length_app; lia). clearbody fuel.
  assert (Eb : b = indent ++ name ++ sp ++ 61 :: (if arrow then [62] else []) ++ sp' ++ value) by done.
  assert (Elb : zlen b = zlen indent + zlen name + zlen sp + 1 + (if arrow then 1 else 0) + zlen sp' + zlen value) by (rewrite Eb, !zlen_app, zlen_cons, !zlen_app; destruct arrow; change (zlen [62]) with 1; change (zlen (@nil Z)) with 0; lia).
  pose proof (zlen_nonneg indent). pose proof (zlen_nonneg name). pose proof (zlen_nonneg sp). pose proof (zlen_nonneg sp'). pose proof (zlen_nonneg value).
  assert (Hn61 : avoids [0; 61] name) by (eapply Forall_impl; [exact Hn|]; cbn; tauto).
  destruct (split_name fuel indent name sp ((if arrow then [62] else []) ++ sp' ++ value ++ 0 :: j') e' Hi Hs Hst Hsp Hn61) as (S1 & S2 & S3);
    [intros i Ei; destruct (Hend i Ei) as [->|[-> _]]; destruct arrow; lia|destruct arrow; unfold zlen in *; lia|destruct arrow; unfold zlen in *; lia|].
  rewrite Eb, <- !app_assoc. cbn [app]. rewrite <- !app_assoc. rewrite S1. cbn [mbind res_bind]. rewrite S2. cbn [mbind res_bind].
  set (n := zlen indent + zlen name + zlen sp) in *. set (pre := zeros indent ++ name ++ sp).
  assert (Epre : forall t, zeros indent ++ name ++ sp ++ t = pre ++ t) by (intros; unfold pre; by rewrite <- !app_assoc).
  assert (Hnp : n = zlen pre) by (unfold n, pre; rewrite !zlen_app, zlen_zeros; lia).
  pose proof (split_sign pre n arrow sp' value j' Hnp Ha Hs') as Sg. cbn zeta in Sg. set (z := if arrow then [0; 0] else [0]) in *.
  rewrite Epre. destruct (st _ n 0) as [m1|]; [|done]. cbn [mbind res_bind] in Sg |- *. destruct (ld m1 (n + 1)) as [x|]; [|done]. cbn [mbind res_bind] in Sg |- *.
  rewrite Sg. cbn [mbind res_bind]. rewrite <- Epre, S3. cbn [mbind res_bind].
  set (pre' := zeros indent ++ name ++ zeros sp ++ z). assert (Epre' : forall t, zeros indent ++ name ++ zeros sp ++ z ++ t = pre' ++ t) by (intros; unfold pre'; by rewrite <- !app_assoc).
  assert (Ez : zlen z = 1 + if arrow then 1 else 0) by (by destruct arrow).
  assert (Hnp' : n + zlen z = zlen pre') by (unfold n, pre'; rewrite !zlen_app, !zlen_zeros; lia).
  rewrite Epre', Hnp', split_value; [|done|done| |destruct arrow; unfold zlen in *; lia].
  - cbn [mbind res_bind]. eexists _, _. split; [reflexivity|]. split; [|split].
    + rewrite <- Epre', <- (zlen_zeros indent). assert (exists t, zeros sp ++ z ++ zeros sp' ++ value ++ 0 :: j' = 0 :: t) as [t ->]; [|apply cstr_at].
      { unfold zeros. destruct sp; cbn [length replicate app]; [unfold z; destruct arrow; by eexists|by eexists]. }
      by apply (avoids_no_nul (61 :: delims)); [cbn; tauto|].
    + rewrite app_assoc. replace (zlen pre' + zlen sp') with (zlen (pre' ++ zeros sp')) by (by rewrite zlen_app, zlen_zeros). apply cstr_at. by apply (avoids_no_nul delims); [cbn; tauto|].
    + unfold pre', zeros. rewrite !length_app, !length_replicate. cbn [length]. rewrite !length_app. cbn [length]. rewrite Elen. unfold z. destruct arrow; cbn [length]; lia.
  - intros i Ei. rewrite <- Hnp', Ez. destruct (Hend i Ei) as [->|[-> [c Ec]]]; [right; rewrite Elb; unfold n; destruct arrow; lia|].
    destruct Hc as [Hc|[->|Hc]]; [|by left|by destruct (Hc c)]. right. destruct value; [done|]. rewrite zlen_cons in *. pose proof (zlen_nonneg value). rewrite Elb. unfold n. destruct arrow; lia.
Qed.

Lemma split_junk_run indent text e j : blanks indent -> text = [] \/ starts text -> avoids (61 :: delims) text -> indent ++ text <> [] -> (forall c, e <> Comment c) ->
  exists m, split_pair ((indent ++ text) ++ print_ending e ++ 0 :: j) = Ok (m, zlen indent, None) /\ length m = length ((indent ++ text) ++ print_ending e ++ 0 :: j).
Proof.
  intros Hi Ht Ha Hne He. set (b := indent ++ text) in *.
  assert (Hd : avoids delims b) by (apply avoids_app; split; [by apply blanks_delims|eapply Forall_impl; [exact Ha|]; cbn; tauto]).
  assert (Hwe : wf_ending e) by (destruct e; try done; by destruct (He text0)).
  destruct (cut_line_run b e j Hd Hne Hwe) as (j' & e' & Ecut & Elen & Hend). unfold split_pair. rewrite Ecut. cbn [mbind res_bind].
  assert (Elb : zlen b = zlen indent + zlen text) by apply zlen_app. pose proof (zlen_nonneg text). set (fuel := S _). assert (Hfuel : (length indent < fuel)%nat) by (unfold fuel, b; rewrite !length_app; lia). clearbody fuel.
  pose proof (split_value fuel [] indent text j' e' Hi Ht) as S. cbn [app] in S. change (zlen (@nil Z)) with 0 in S. unfold b. rewrite <- app_assoc, S; [| |done].
  - cbn [mbind res_bind]. rewrite Z.add_0_l. rewrite <- (zlen_zeros indent), strchr_none; [|done|eapply Forall_impl; [exact Ha|]; cbn; tauto]. cbn [mbind res_bind].
    eexists. split; [by rewrite zlen_zeros|]. unfold zeros. rewrite !length_app, length_replicate. cbn [length]. rewrite Elen. lia.
  - intros i Ei. right. destruct (Hend i Ei) as [->|[_ [c Ec]]]; [lia|by destruct (He c)].
Qed.

(** ** What a caller reads *)

Record entry := Entry { e_section : list Z; e_category : list Z; e_var : list Z; e_val : list Z }.

Definition string_at (cfg : ks_config) (p : ptr) : res (list Z) :=
  match p with Null => Err NullDeref | At i => cstr cfg.(buf) i | Literal => Ok [] end.
Definition entry_of (cfg : ks_config) (var val : ptr) : res entry :=
  sec ← cstr cfg.(section) 0; cat ← cstr cfg.(category) 0; var ← string_at cfg var; val ← string_at cfg val; Ok (Entry sec cat var val).

(** [while (ks_config_next_pair(cfg, &var, &val)) ...] *)
Fixpoint read_all (fuel : nat) (cfg : ks_config) : res (list entry) :=
  match fuel with
  | O => Err NoFuel
  | S fuel =>
    r ← ks_config_next_pair cfg;
    let '(ret, var, val, cfg) := r in
    if ret =? 0 then Ok [] else e ← entry_of cfg var val; es ← read_all fuel cfg; Ok (e :: es)
  end.

(** ** What the lines say: the section and the category they are in, and the pairs *)

Definition effect (st : list Z * list Z) (l : line) : (list Z * list Z) * option entry :=
  match l with
  | Pair _ name _ _ _ value _ => (st, Some (Entry st.1 st.2 name value))
  | Category name _ => ((st.1, name), None)
  | Section_ name _ => ((name, st.2), Some (Entry name st.2 [] []))
  | Remark _ | Junk _ _ _ => (st, None)
  end.
Fixpoint meaning (st : list Z * list Z) (ls : list line) : list entry :=
  match ls with
  | [] => []
  | l :: ls => let '(st, e) := effect st l in match e with Some e => e :: meaning st ls | None => meaning st ls end
  end.

Definition wf_line (l : line) : Prop :=
  zlen (print_line l) <= 1023 /\
  match l with
  | Pair indent name sp arrow sp' value e =>
    wf_pair indent name sp arrow sp' value e /\ avoids [91; 35] (take 1 (print_line l)) /\ take 7 (print_line l) <> END
  | Category name _ => avoids [0; 93] name /\ zlen name < 256 /\ avoids [43] (take 1 name)
  | Section_ name _ => avoids [0; 93] name /\ zlen name < 256
  | Remark rest => ~ avoids [35; 59; 10; 13] (take 1 rest)
  | Junk indent text e => blanks indent /\ (text = [] \/ starts text) /\ avoids (61 :: delims) text /\ indent ++ text <> [] /\ (forall c, e <> Comment c) /\
    avoids [91; 35] (take 1 (print_line l)) /\ take 7 (print_line l) <> END
  end.
Fixpoint wf_file (ls : list line) : Prop :=
  match ls with
  | [] => True
  | l :: ls => wf_line l /\ line_of (print_line l) (concat (map print_line ls)) /\ wf_file ls
  end.

(** ** A turn of the loop *)

Definition field (m s : list Z) : Prop := no_nul s /\ zlen m = 256 /\ exists j, m = s ++ 0 :: j.
Definition inv (cfg : ks_config) (text : list Z) (st : list Z * list Z) : Prop :=
  cfg.(file) = Some text /\ zlen cfg.(buf) = 1024 /\ cfg.(lockto) = -1 /\ field cfg.(section) st.1 /\ field cfg.(category) st.2.

Lemma set_string_field m s j old : no_nul s -> zlen s < 256 -> field m old -> exists m', ks_set_string m (s ++ 0 :: j) 256 = Ok m' /\ field m' s.
Proof.
  intros Hs Hl (_ & Hm & _). unfold ks_set_string. rewrite StrUtil.copy_string_fits by (first [done | lia]). cbn [mbind res_bind]. eexists. split; [reflexivity|].
  split; [done|]. split; [|by eexists]. rewrite zlen_app, zlen_cons. unfold zlen in *. rewrite length_drop. lia.
Qed.

Lemma entry_of_inv cfg text st var val v w : inv cfg text st -> string_at cfg var = Ok v -> string_at cfg val = Ok w ->
  entry_of cfg var val = Ok (Entry st.1 st.2 v w).
Proof.
  intros (_ & _ & _ & (Hs & _ & js & Es) & (Hc & _ & jc & Ec)) Ev Ew. unfold entry_of. rewrite Es, Ec, !cstr_full by done. cbn [mbind res_bind]. rewrite Ev. cbn [mbind res_bind]. by rewrite Ew.
Qed.

Lemma ld_head x (m : list Z) : ld (x :: m) 0 = Ok x.
Proof. by apply (ld_app_mid [] m x 0). Qed.

Lemma field_length m s : field m s -> zlen m = 256.
Proof. by intros (_ & ? & _). Qed.

(** A header: the name is cut out in front of the bracket. *)
Lemma cut_header pre name rest : avoids [0; 93] pre -> avoids [0; 93] name ->
  strchr (pre ++ name ++ 93 :: rest) 0 93 = Ok (Some (zlen (pre ++ name))) /\
  st (pre ++ name ++ 93 :: rest) (zlen (pre ++ name)) 0 = Ok (pre ++ name ++ 0 :: rest).
Proof.
  intros Hp Hn. rewrite app_assoc. split.
  - pose proof (strchr_some [] 93 (pre ++ name) rest) as S. cbn [app] in S. change (zlen (@nil Z)) with 0 in S. rewrite S by (by apply avoids_app). done.
  - rewrite st_app_mid by done. by rewrite <- app_assoc.
Qed.

Lemma new_buffer (p buf : list Z) : zlen buf = 1024 -> zlen p <= 1023 -> zlen (p ++ 0 :: drop (S (length p)) buf) = 1024.
Proof. intros Hb Hp. rewrite zlen_app, zlen_cons. unfold zlen in *. rewrite length_drop. lia. Qed.

(** A line that is no header, remark or end. *)
Lemma read_plain cfg p rest ret var val r : cfg.(file) = Some (p ++ rest) -> zlen cfg.(buf) = 1024 -> zlen p <= 1023 -> line_of p rest ->
  avoids [91; 35; 59; 10; 13] (take 1 p) -> no_nul p -> take 7 p <> END -> split_pair (p ++ 0 :: drop (S (length p)) cfg.(buf)) = Ok r ->
  read_line cfg (p ++ rest) ret var val =
    let 'Cfg _ path category section _ lineno catno sectno lockto := cfg in
    let cfg' := Cfg (Some rest) path category section r.1.1 (s32 (lineno + 1)) catno sectno lockto in
    Ok (match r.2 with None => Next (-1) (At r.1.2) Null cfg' | Some v => Return 1 (At r.1.2) (At v) cfg' end).
Proof.
  intros Hf Hb Hl Hline Ha Hn HE Er. destruct cfg as [file path category section buf lineno catno sectno lockto]. cbn in Hf, Hb, Er |- *.
  unfold read_line. rewrite fgets_line by done. cbn [mbind res_bind].
  assert (Hp : exists c t, p = c :: t) by (destruct Hline as (t & _ & [->|(-> & ? & _)]); [destruct t; by do 2 eexists|destruct t; [done|by do 2 eexists]]).
  destruct Hp as (c & t & ->). cbn [app]. rewrite ld_head. cbn [mbind res_bind]. apply Forall_cons in Ha as [Ha _]. cbn in Ha.
  destruct (Z.eqb_spec c 91); [subst; tauto|]. cbn [mbind res_bind]. destruct (Z.eqb_spec c 35); [subst; tauto|]. destruct (Z.eqb_spec c 59); [subst; tauto|]. destruct (Z.eqb_spec c 10); [subst; tauto|]. destruct (Z.eqb_spec c 13); [subst; tauto|].
  cbn [orb]. change (c :: t ++ ?z) with ((c :: t) ++ z). rewrite cstr_full by done. cbn [mbind res_bind]. rewrite bool_decide_false by done. cbn [app] in Er |- *. rewrite Er. cbn [mbind res_bind].
  destruct r as [[m w] [v|]]; done.
Qed.

Lemma plain_conditions b e : avoids delims b -> b <> [] -> wf_ending e -> avoids [91; 35] (take 1 (b ++ print_ending e)) ->
  avoids [91; 35; 59; 10; 13] (take 1 (b ++ print_ending e)) /\ no_nul (b ++ print_ending e).
Proof.
  intros Hd Hb He Ha. split.
  - destruct b as [|c b]; [done|]. cbn in Ha |- *. apply Forall_cons in Ha as [Ha _]. apply Forall_cons in Hd as [Hd _]. constructor; [|constructor]. unfold delims in Hd. cbn in *. tauto.
  - apply Forall_app. split; [by apply (avoids_no_nul delims); [cbn; tauto|]|]. destruct e as [| |c|]; cbn [print_ending app]; repeat constructor; try done.
    apply Forall_app. split; [by apply (avoids_no_nul [0; 10]); [cbn; tauto|]|by repeat constructor].
Qed.

Lemma name_no_nul name : avoids [0; 93] name -> no_nul name.
Proof. apply avoids_no_nul. cbn. tauto. Qed.

Lemma ld_next x s j : no_nul s -> exists c, ld (x :: s ++ 0 :: j) 1 = Ok c /\ (c = 0 /\ s = [] \/ take 1 s = [c]).
Proof.
  intros Hs. destruct s as [|c s]; cbn [app].
  - exists 0. split; [by apply (ld_app_mid [x] j 0 1)|by left].
  - exists c. split; [by apply (ld_app_mid [x] (s ++ 0 :: j) c 1)|by right].
Qed.

Lemma read_line_effect cfg l rest st ret var val : wf_line l -> line_of (print_line l) rest -> inv cfg (print_line l ++ rest) st ->
  exists t, read_line cfg (print_line l ++ rest) ret var val = Ok t /\
    match (effect st l).2, t with
    | Some e, Return r v w cfg' => r = 1 /\ inv cfg' rest (effect st l).1 /\ entry_of cfg' v w = Ok e
    | None, Next _ _ _ cfg' => inv cfg' rest (effect st l).1
    | _, _ => False
    end.
Proof.
  intros (Hlen & Hl) Hline Hinv. pose proof Hinv as (Hf & Hb & Hlk & Hs & Hc). pose proof (new_buffer (print_line l) cfg.(buf) Hb Hlen) as Hnb.
  destruct l as [indent name sp arrow sp' value e|name tail|name tail|tail|indent text e]; cbn [effect fst snd].
  - destruct Hl as (Hwf & H1 & H7). destruct (split_pair_run indent name sp arrow sp' value e (drop (S (length (print_line (Pair indent name sp arrow sp' value e)))) cfg.(buf)) Hwf) as (m & k & Er & Ev & Ew & El).
    rewrite app_assoc in Er, El. change (body _ ++ print_ending e) with (print_line (Pair indent name sp arrow sp' value e)) in Er, El.
    assert (Hpc := plain_conditions _ e (pair_body_delims _ _ _ _ _ _ _ Hwf)). destruct Hpc as [Hpc Hnn];
      [destruct Hwf as (_ & ((c & t & -> & _) & _) & _); by destruct indent|apply Hwf|done|].
    erewrite read_plain; [|done..| | | |exact Er]; [|done..].
    destruct cfg as [file path category section buf lineno catno sectno lockto]. eexists. split; [reflexivity|]. cbn [fst snd]. split; [done|].
    assert (Hinv' : inv (Cfg (Some rest) path category section m (s32 (lineno + 1)) catno sectno lockto) rest st) by (split; [done|]; split; [cbn in *; unfold zlen in *; congruence|done]).
    split; [done|]. eapply entry_of_inv; done.
  - destruct cfg as [file path category section buf lineno catno sectno lockto]. cbn in Hf, Hb, Hlk, Hs, Hc. subst lockto. destruct Hl as (Hn & Hl & Hp).
    unfold read_line. rewrite fgets_line by done. cbn [mbind res_bind print_line app] in *. rewrite ld_head. cbn [mbind res_bind Z.eqb Pos.eqb].
    set (J := drop _ _) in *. destruct (cut_header [91] name (tail ++ 0 :: J)) as [E1 E2]; [by apply avoids_list|done|]. cbn [app] in E1, E2.
    rewrite <- app_assoc. cbn [app]. rewrite E1. cbn [mbind res_bind]. rewrite E2. cbn [mbind res_bind].
    destruct (ld_next 91 name (tail ++ 0 :: J) (name_no_nul _ Hn)) as (c & -> & Ec). cbn [mbind res_bind].
    destruct (Z.eqb_spec c 43) as [->|_]; [destruct Ec as [[? _]|Ec]; [done|rewrite Ec in Hp; apply Forall_cons in Hp as [Hp _]; cbn in Hp; tauto]|]. cbn [drop]. rewrite drop_0.
    destruct (set_string_field category name (tail ++ 0 :: J) st.2) as (m' & -> & Hm'); [by apply name_no_nul|done|done|]. cbn [mbind res_bind].
    eexists. split; [reflexivity|]. split; [done|]. split; [|done].
    cbn. rewrite <- Hnb. rewrite !zlen_cons, !zlen_app, !zlen_cons, !zlen_app, !zlen_cons. change (zlen (drop _ buf)) with (zlen J). lia.
  - destruct cfg as [file path category section buf lineno catno sectno lockto]. cbn in Hf, Hb, Hlk, Hs, Hc. subst lockto. destruct Hl as (Hn & Hl).
    unfold read_line. rewrite fgets_line by done. cbn [mbind res_bind print_line app] in *. rewrite ld_head. cbn [mbind res_bind Z.eqb Pos.eqb].
    set (J := drop _ _) in *. destruct (cut_header [91; 43] name (tail ++ 0 :: J)) as [E1 E2]; [by apply avoids_list|done|]. cbn [app] in E1, E2.
    rewrite <- app_assoc. cbn [app]. rewrite E1. cbn [mbind res_bind]. rewrite E2. cbn [mbind res_bind].
    pose proof (ld_app_mid [91] (name ++ 0 :: tail ++ 0 :: J) 43 1 eq_refl) as E3. cbn [app] in E3. rewrite E3. cbn [mbind res_bind Z.eqb Pos.eqb drop app]. rewrite drop_0.
    destruct (set_string_field section name (tail ++ 0 :: J) st.1) as (m' & -> & Hm'); [by apply name_no_nul|done|done|]. cbn [mbind res_bind Z.ltb Z.compare andb].
    assert (Hinv' : inv (Cfg (Some rest) path category m' (91 :: 43 :: name ++ 0 :: tail ++ 0 :: J) 0 0 (s32 (sectno + 1)) (-1)) rest (name, st.2)).
    { split; [done|]. split; [|done]. cbn. rewrite <- Hnb. rewrite !zlen_cons, !zlen_app, !zlen_cons, !zlen_app, !zlen_cons. change (zlen (drop _ buf)) with (zlen J). lia. }
    eexists. split; [reflexivity|]. split; [done|]. split; [done|]. by eapply entry_of_inv in Hinv'.
  - destruct cfg as [file path category section buf lineno catno sectno lockto]. cbn in Hf, Hb, Hlk, Hs, Hc. subst lockto.
    unfold read_line. rewrite fgets_line by done. cbn [mbind res_bind print_line] in *. destruct tail as [|c tail]; [destruct Hl; constructor|]. cbn [app]. rewrite ld_head. cbn [mbind res_bind].
    assert (Hcc : c = 35 \/ c = 59 \/ c = 10 \/ c = 13). { cbn [take] in Hl. destruct (decide (c = 35)), (decide (c = 59)), (decide (c = 10)), (decide (c = 13)); try tauto. destruct Hl. constructor; [|constructor]. cbn. intuition. }
    destruct (Z.eqb_spec c 91); [lia|]. cbn [mbind res_bind]. destruct ((c =? 35) || (c =? 59) || (c =? 10) || (c =? 13)) eqn:Eo.
    + eexists. split; [reflexivity|]. by split.
    + exfalso. rewrite !orb_false_iff, !Z.eqb_neq in Eo. lia.
  - destruct Hl as (Hi & Ht & Ha & Hne & He & H1 & H7). destruct (split_junk_run indent text e (drop (S (length (print_line (Junk indent text e)))) cfg.(buf)) Hi Ht Ha Hne He) as (m & Er & El).
    rewrite app_assoc in Er, El. change ((indent ++ text) ++ print_ending e) with (print_line (Junk indent text e)) in Er, El.
    assert (Hd : avoids delims (indent ++ text)) by (apply avoids_app; split; [by apply blanks_delims|eapply Forall_impl; [exact Ha|]; cbn; tauto]).
    destruct (plain_conditions _ e Hd Hne) as [Hpc Hnn]; [destruct e; try done; by destruct (He text0)|done|].
    erewrite read_plain; [|done..| | | |exact Er]; [|done..].
    destruct cfg as [file path category section buf lineno catno sectno lockto]. eexists. split; [reflexivity|]. cbn [fst snd].
    split; [done|]. split; [cbn in *; unfold zlen in *; congruence|done].
Qed.

(** ** A call, and all calls *)

Definition print (ls : list line) : list Z := concat (map print_line ls).

Lemma read_line_end cfg ret var val : read_line cfg [] ret var val =
  let 'Cfg _ path category section buf lineno catno sectno lockto := cfg in
  Ok (Return 0 var val (Cfg (Some []) path category section buf (s32 (lineno + 1)) catno sectno lockto)).
Proof. by destruct cfg. Qed.

Lemma next_entry ls : forall fuel cfg st ret var val, wf_file ls -> inv cfg (print ls) st -> (length ls < fuel)%nat ->
  exists ret' var' val' cfg', lines_loop fuel cfg ret var val = Ok (ret', var', val', cfg') /\
    ((ret' = 0 /\ meaning st ls = []) \/
     (exists e st' ls', ret' = 1 /\ meaning st ls = e :: meaning st' ls' /\ entry_of cfg' var' val' = Ok e /\
        inv cfg' (print ls') st' /\ wf_file ls' /\ (length ls' < length ls)%nat)).
Proof.
  induction ls as [|l ls IH]; intros fuel cfg st ret var val Hwf Hinv Hf; (destruct fuel as [|fuel]; [cbn in Hf; lia|]); cbn [lines_loop]; pose proof Hinv as (Hfile & _); rewrite Hfile.
  - change (print []) with (@nil Z). rewrite read_line_end. destruct cfg as [file path category section buf lineno catno sectno lockto]. do 4 eexists. split; [reflexivity|]. by left.
  - destruct Hwf as (Hl & Hline & Hwf). change (print (l :: ls)) with (print_line l ++ print ls) in *.
    destruct (read_line_effect cfg l (print ls) st ret var val Hl Hline Hinv) as (t & -> & Ht). cbn [mbind res_bind meaning].
    destruct (effect st l) as [st' [e|]]; cbn [fst snd] in Ht; destruct t as [r v w cfg'|r v w cfg']; try done.
    + destruct Ht as (-> & Hinv' & He). do 4 eexists. split; [reflexivity|]. right. exists e, st', ls. do 5 (split; [done|]). cbn. lia.
    + cbn in Hf. destruct (IH fuel cfg' st' r v w Hwf Ht) as (ret' & var' & val' & cfg'' & -> & [[-> ->]|(e & st'' & ls' & -> & -> & ? & ? & ? & ?)]); [lia|..].
      * do 4 eexists. split; [reflexivity|]. by left.
      * do 4 eexists. split; [reflexivity|]. right. exists e, st'', ls'. do 5 (split; [done|]). cbn. lia.
Qed.

Lemma print_length ls : wf_file ls -> (length ls <= length (print ls))%nat.
Proof.
  induction ls as [|l ls IH]; [done|]. intros (_ & (t & _ & Ht) & Hwf). unfold print. cbn [map concat length]. rewrite length_app. specialize (IH Hwf). unfold print in IH.
  destruct Ht as [->|(-> & ? & _)]; [rewrite length_app; cbn [length]; lia|destruct t; [done|cbn [length]; lia]].
Qed.

Lemma read_all_meaning fuel : forall ls cfg st, wf_file ls -> inv cfg (print ls) st -> (length ls < fuel)%nat -> read_all fuel cfg = Ok (meaning st ls).
Proof.
  induction fuel as [|fuel IH]; intros ls cfg st Hwf Hinv Hf; [lia|]. cbn [read_all]. unfold ks_config_next_pair. pose proof Hinv as (Hfile & _). rewrite Hfile.
  destruct (next_entry ls (S (length (print ls))) cfg st 0 Null Null Hwf Hinv) as (ret & var & val & cfg' & -> & [[-> Hm]|(e & st' & ls' & -> & Hm & He & Hinv' & Hwf' & Hl)]);
    [pose proof (print_length ls Hwf); lia|..]; rewrite Hm; cbn [mbind res_bind Z.eqb]; [done|].
  rewrite He. cbn [mbind res_bind]. rewrite (IH ls' cfg' st' Hwf' Hinv') by lia. done.
Qed.

Lemma opened_inv text path : no_nul path -> zlen path < 512 -> exists cfg, opened text path = Ok cfg /\ inv cfg text ([], []).
Proof.
  intros Hp Hl. unfold opened, zeroed, ks_set_string. rewrite StrUtil.copy_string_fits; [|done|lia|by vm_compute]. cbn [mbind res_bind].
  eexists. split; [reflexivity|]. split; [done|]. split; [by vm_compute|]. split; [done|].
  assert (Hz : field (replicate 256 0) []) by (split; [constructor|]; split; [by vm_compute|]; by exists (replicate 255 0)). by split.
Qed.

(** C32: The parser reads back what a file says. For any file of well-formed
    lines (pairs with [=] or [=>], blanks around the name and in front of the
    value, ended by LF, CRLF, a [;;] comment or the end of the file;
    categories; sections; remarks; lines without a sign), calls of
    [ks_config_next_pair] until it returns 0 yield the sections and the pairs
    in order, each with the section and category it is in, cut exactly where
    the blanks, the sign and the ending are; remarks and lines without a sign
    are passed over. *)
Theorem config_reads_back ls path fuel : wf_file ls -> no_nul path -> zlen path < 512 -> (length ls < fuel)%nat ->
  exists cfg, opened (print ls) path = Ok cfg /\ read_all fuel cfg = Ok (meaning ([], []) ls).
Proof.
  intros Hwf Hp Hl Hf. destruct (opened_inv (print ls) path Hp Hl) as (cfg & E & Hinv). exists cfg. split; [done|]. by apply read_all_meaning.
Qed.

(** ** Any contents: the calls stay in the buffer *)

Definition nul_from (m : list Z) (p : Z) : Prop := 0 <= p /\ exists z, p <= z /\ ld m z = Ok 0.

Lemma ld_bounds (m : list Z) i v : ld m i = Ok v -> 0 <= i < zlen m.
Proof. intros E. destruct (decide (0 <= i < zlen m)); [done|]. rewrite ld_out in E by lia. done. Qed.

Lemma st_frame (m : list Z) i v : 0 <= i < zlen m -> exists m', st m i v = Ok m' /\ zlen m' = zlen m /\ forall k, ld m' k = if k =? i then Ok v else ld m k.
Proof.
  intros Hi. unfold st. rewrite andb_true_intro by (split; [apply Z.leb_le|apply Z.ltb_lt]; lia). eexists. split; [reflexivity|]. split; [unfold zlen; by rewrite length_insert|].
  intros k. unfold ld. destruct (Z.ltb_spec k 0); [destruct (Z.eqb_spec k i); [lia|done]|]. destruct (Z.eqb_spec k i) as [->|Hk].
  - rewrite list_lookup_insert_eq; [done|unfold zlen in Hi; lia].
  - rewrite list_lookup_insert_ne by lia. done.
Qed.

Lemma nul_ld m p : nul_from m p -> exists c, ld m p = Ok c /\ (c <> 0 -> nul_from m (p + 1)).
Proof.
  intros (Hp & z & Hz & E). pose proof (ld_bounds _ _ _ E). destruct (ld_in m p) as (c & Ec & _); [lia|]. exists c. split; [done|]. intros Hc.
  split; [lia|]. exists z. split; [|done]. destruct (Z.eq_dec z p); [subst; congruence|lia].
Qed.

(** A NUL written keeps what is terminated terminated. *)
Lemma nul_st m i : 0 <= i < zlen m -> exists m', st m i 0 = Ok m' /\ zlen m' = zlen m /\ (forall k, ld m' k = if k =? i then Ok 0 else ld m k) /\ (forall q, nul_from m q -> nul_from m' q).
Proof.
  intros Hi. destruct (st_frame m i 0 Hi) as (m' & E & El & Ek). exists m'. do 3 (split; [done|]). intros q (Hq & z & Hz & Ez). split; [done|].
  exists z. split; [done|]. rewrite Ek. by destruct (z =? i).
Qed.

Lemma nul_le m p q : 0 <= q <= p -> nul_from m p -> nul_from m q.
Proof. intros Hq (Hp & z & Hz & E). split; [lia|]. exists z. split; [lia|done]. Qed.

Lemma nul_split m p : nul_from m p -> exists s t, drop (Z.to_nat p) m = s ++ 0 :: t /\ no_nul s.
Proof.
  intros (Hp & z & Hz & E). assert (Hin : In 0 (drop (Z.to_nat p) m)).
  { unfold ld in E. destruct (z <? 0); [done|]. destruct (m !! Z.to_nat z) as [v|] eqn:Ez; [|done]. injection E as ->.
    apply list_elem_of_In. apply list_elem_of_lookup. exists (Z.to_nat z - Z.to_nat p)%nat. rewrite lookup_drop. by replace (Z.to_nat p + (Z.to_nat z - Z.to_nat p))%nat with (Z.to_nat z) by lia. }
  clear E. induction (drop (Z.to_nat p) m) as [|x l IH]; [done|]. destruct (decide (x = 0)) as [->|Hx].
  - exists [], l. split; [done|constructor].
  - destruct Hin as [?|Hin]; [done|]. destruct (IH Hin) as (s & t & -> & Hs). exists (x :: s), t. split; [done|by constructor].
Qed.

Lemma cstr_safe m p : nul_from m p -> exists s, cstr m p = Ok s.
Proof.
  intros Hn. destruct (nul_split m p Hn) as (s & t & E & Hs). destruct Hn as (Hp & z & Hz & Ez). pose proof (ld_bounds _ _ _ Ez). exists s.
  rewrite <- (take_drop (Z.to_nat p) m), E. replace p with (zlen (take (Z.to_nat p) m)) at 2 by (apply zlen_take_le; lia). by apply cstr_at.
Qed.

Lemma find_char_safe c s t : c <> 0 -> no_nul s -> exists r, find_char c (s ++ 0 :: t) = Ok r /\ forall i, r = Some i -> 0 <= i < zlen s /\ ld (s ++ 0 :: t) i = Ok c.
Proof.
  intros Hc. induction 1 as [|x s Hx _ IH]; cbn [app find_char].
  - destruct (Z.eqb_spec 0 c); [done|]. by exists None.
  - destruct (Z.eqb_spec x c) as [->|]; [exists (Some 0); split; [done|]; intros i [= <-]; rewrite zlen_cons; pose proof (zlen_nonneg s); split; [lia|apply ld_head]|].
    destruct (Z.eqb_spec x 0); [done|]. destruct IH as (r & -> & Hr). cbn [mbind res_bind]. eexists. split; [reflexivity|]. intros i Ei. destruct r as [k|]; [|done]. injection Ei as <-.
    destruct (Hr k eq_refl) as [Hk E]. rewrite zlen_cons. split; [lia|]. pose proof (ld_app_shift [x] (s ++ 0 :: t) k) as Sh. change (zlen [x]) with 1 in Sh. cbn [app] in Sh. rewrite <- Z.add_1_l, Sh by lia. done.
Qed.

Lemma strchr_safe m p c : c <> 0 -> nul_from m p -> exists r, strchr m p c = Ok r /\ forall i, r = Some i -> p <= i /\ ld m i = Ok c /\ nul_from m (i + 1).
Proof.
  intros Hc Hn. destruct (nul_split m p Hn) as (s & t & E & Hs). destruct Hn as (Hp & z & Hz & Ez). pose proof (ld_bounds _ _ _ Ez).
  assert (Em : m = take (Z.to_nat p) m ++ s ++ 0 :: t) by (by rewrite <- E, take_drop). assert (Ep : zlen (take (Z.to_nat p) m) = p) by (apply zlen_take_le; lia).
  unfold strchr. rewrite E. destruct (find_char_safe c s t Hc Hs) as (r & -> & Hr). cbn [mbind res_bind]. eexists. split; [reflexivity|]. intros i Ei. destruct r as [k|]; [|done]. injection Ei as <-.
  destruct (Hr k eq_refl) as [Hk Ek]. split; [lia|]. rewrite Em. split; [rewrite <- Ep at 2; rewrite ld_app_shift by lia; done|]. split; [lia|]. exists (p + zlen s). split; [lia|].
  rewrite <- Ep at 2. rewrite ld_app_shift by lia. by apply ld_app_mid.
Qed.

Lemma skip_blanks_safe e : forall fuel m p, nul_from m p -> zlen m - p < Z.of_nat fuel ->
  exists m' p', skip_blanks fuel m p e = Ok (m', p') /\ zlen m' = zlen m /\ p <= p' /\ nul_from m' p' /\
    (forall q, nul_from m q -> nul_from m' q) /\ (forall k, k < p \/ p' <= k -> ld m' k = ld m k) /\ (p < p' -> ld m' (p' - 1) = Ok 0).
Proof.
  induction fuel as [|fuel IH]; intros m p Hn Hf; [destruct Hn as (? & z & ? & E); pose proof (ld_bounds _ _ _ E); lia|]. cbn [skip_blanks].
  destruct (nul_ld m p Hn) as (c & E & Hnext). rewrite E. cbn [mbind res_bind]. destruct (blank c && _) eqn:Eb.
  - apply andb_true_iff in Eb as [Eb _]. assert (Hc : c <> 0) by (by intros ->). pose proof (ld_bounds _ _ _ E) as Hpb.
    destruct (nul_st m p Hpb) as (m1 & -> & El & Ek & Hkeep). cbn [mbind res_bind].
    destruct (IH m1 (p + 1)) as (m' & p' & -> & El' & Hp' & Hn' & Hkeep' & Hsame & Hz); [by apply Hkeep, Hnext|lia|].
    exists m', p'. split; [done|]. split; [lia|]. split; [lia|]. split; [done|]. split; [by intros q Hq; apply Hkeep', Hkeep|]. split.
    + intros k Hk. rewrite Hsame by lia. rewrite Ek. destruct (Z.eqb_spec k p); [lia|done].
    + intros _. destruct (decide (p + 1 < p')); [by apply Hz|]. replace (p' - 1) with p by lia. rewrite Hsame by lia. by rewrite Ek, Z.eqb_refl.
  - exists m, p. split; [done|]. split; [done|]. split; [lia|]. split; [done|]. split; [done|]. split; [done|lia].
Qed.

Lemma trim_back_safe var : 0 <= var -> forall fuel m p, var <= p < zlen m \/ 0 <= p /\ ld m p = Ok 0 -> p < Z.of_nat fuel ->
  exists m', trim_back fuel m p var = Ok m' /\ zlen m' = zlen m /\ forall q, nul_from m q -> nul_from m' q.
Proof.
  intros Hv. induction fuel as [|fuel IH]; intros m p Hp Hf; [lia|]. cbn [trim_back].
  assert (Hpb : 0 <= p < zlen m) by (destruct Hp as [?|[? E]]; [lia|by apply ld_bounds in E]).
  destruct (ld_in m p Hpb) as (c & E & _). rewrite E. cbn [mbind res_bind]. destruct (blank c && _) eqn:Eb; [|by exists m].
  apply andb_true_iff in Eb as [Eb Ev]. apply negb_true_iff, Z.eqb_neq in Ev. destruct Hp as [Hp|[_ E0]]; [|rewrite E in E0; by injection E0 as ->].
  destruct (nul_st m p Hpb) as (m1 & -> & El & _ & Hkeep). cbn [mbind res_bind]. destruct (IH m1 (p - 1)) as (m' & -> & El' & Hk'); [lia|lia|].
  exists m'. split; [done|]. split; [lia|]. intros q Hq. by apply Hk', Hkeep.
Qed.

Lemma cut_line_safe m c : nul_from m 0 -> ld m 0 = Ok c -> c <> 10 -> c <> 59 ->
  exists m' e, cut_line m = Ok (m', e) /\ zlen m' = zlen m /\ nul_from m' 0 /\ (ld m' 0 = Ok c \/ ld m' 0 = Ok 0).
Proof.
  intros Hn E H10 H59. unfold cut_line. destruct (strchr_safe m 0 59) as (semi & -> & Hsemi); [done|done|]. cbn [mbind res_bind].
  assert (Hd : exists double, match semi with Some i => c ← ld m (i + 1); Ok (c =? 59) | None => Ok false end = Ok double).
  { destruct semi as [i|]; [|by eexists]. destruct (Hsemi i eq_refl) as (_ & _ & Hi). destruct (nul_ld _ _ Hi) as (x & -> & _). by eexists. }
  destruct Hd as (double & ->). cbn [mbind res_bind]. destruct (strchr_safe m 0 10) as (nl & Enl & Hnl); [done|done|].
  assert (Hst : forall i, 0 <= i < zlen m -> exists m', st m i 0 = Ok m' /\ zlen m' = zlen m /\ nul_from m' 0 /\ (ld m' 0 = Ok c \/ ld m' 0 = Ok 0)).
  { intros i Hi. destruct (nul_st m i Hi) as (m' & -> & El & Ek & Hk). exists m'. do 2 (split; [done|]). split; [by apply Hk|]. rewrite Ek. destruct (0 =? i); [by right|by left]. }
  assert (Hrest : exists m' e, (nl ← strchr m 0 10;
      match nl with
      | None => Ok (m, None)
      | Some i => c ← ld m (i - 1); let i := if c =? 13 then i - 1 else i in m ← st m i 0; Ok (m, Some i)
      end) = Ok (m', e) /\ zlen m' = zlen m /\ nul_from m' 0 /\ (ld m' 0 = Ok c \/ ld m' 0 = Ok 0)).
  { rewrite Enl. cbn [mbind res_bind]. destruct nl as [i|]; [|exists m, None; split; [done|]; split; [done|]; split; [done|by left]].
    destruct (Hnl i eq_refl) as (Hi & Ei & _). pose proof (ld_bounds _ _ _ Ei). assert (i <> 0) by (intros ->; congruence).
    destruct (ld_in m (i - 1)) as (x & -> & _); [lia|]. cbn [mbind res_bind]. cbn zeta. set (k := if x =? 13 then _ else _). assert (0 <= k < zlen m) by (unfold k; destruct (x =? 13); lia).
    destruct (Hst k) as (m' & -> & R); [done|]. cbn [mbind res_bind]. by do 2 eexists. }
  destruct semi as [i|]; [|exact Hrest]. destruct double; [|exact Hrest].
  destruct (Hsemi i eq_refl) as (Hi & Ei & _). pose proof (ld_bounds _ _ _ Ei). destruct (Hst i) as (m' & -> & R); [done|]. cbn [mbind res_bind]. by do 2 eexists.
Qed.

Lemma split_pair_safe m c : nul_from m 0 -> ld m 0 = Ok c -> c <> 10 -> c <> 59 -> c <> 61 ->
  exists m' var v, split_pair m = Ok (m', var, v) /\ zlen m' = zlen m.
Proof.
  intros Hn E H10 H59 H61. unfold split_pair. destruct (cut_line_safe m c Hn E H10 H59) as (m1 & e & -> & El1 & Hn1 & E1). cbn [mbind res_bind].
  destruct (skip_blanks_safe e (S (length m)) m1 0) as (m2 & var & -> & El2 & Hv & Hn2 & _ & Hsame2 & Hz2); [done|rewrite El1; unfold zlen; lia|]. cbn [mbind res_bind].
  destruct (strchr_safe m2 var 61) as (eq & -> & Heq); [done|done|]. cbn [mbind res_bind]. destruct eq as [i|]; [|do 3 eexists; split; [reflexivity|lia]].
  destruct (Heq i eq_refl) as (Hi & Ei & Hni). pose proof (ld_bounds _ _ _ Ei) as Hib.
  destruct (nul_st m2 i Hib) as (m3 & -> & El3 & Ek3 & Hk3). cbn [mbind res_bind]. destruct (nul_ld m3 (i + 1)) as (x & Ex & Hx); [by apply Hk3|]. rewrite Ex. cbn [mbind res_bind].
  assert (Hm4 : exists m4 val, (if x =? 62 then m ← st m3 (i + 1) 0; Ok (m, i + 2) else Ok (m3, i + 1)) = Ok (m4, val) /\ zlen m4 = zlen m /\ nul_from m4 val /\ forall k, k < i -> ld m4 k = ld m2 k).
  { destruct (Z.eqb_spec x 62) as [->|_].
    - destruct (nul_st m3 (i + 1)) as (m4 & -> & El4 & Ek4 & Hk4); [by eapply ld_bounds|]. cbn [mbind res_bind]. exists m4, (i + 2). split; [done|]. split; [lia|].
      split; [apply Hk4; replace (i + 2) with (i + 1 + 1) by lia; by apply Hx|]. intros k Hk. rewrite Ek4, Ek3. destruct (Z.eqb_spec k (i + 1)); [lia|]. destruct (Z.eqb_spec k i); [lia|done].
    - exists m3, (i + 1). split; [done|]. split; [lia|]. split; [by apply Hk3|]. intros k Hk. rewrite Ek3. destruct (Z.eqb_spec k i); [lia|done]. }
  destruct Hm4 as (m4 & val & -> & El4 & Hn4 & Hsame4). cbn [mbind res_bind].
  assert (Hpos : var = i -> 0 < var).
  { intros ->. destruct (decide (0 < i)); [done|]. assert (i = 0) as -> by lia. rewrite Hsame2 in Ei by lia. destruct E1 as [E1|E1]; rewrite E1 in Ei; congruence. }
  destruct (trim_back_safe var Hv (S (length m)) m4 (i - 1)) as (m5 & -> & El5 & Hk5).
  { destruct (decide (var = i)) as [Ev|]; [right|left; lia]. specialize (Hpos Ev). subst i. split; [lia|]. rewrite Hsame4 by lia. by apply Hz2. }
  { unfold zlen in *. lia. }
  cbn [mbind res_bind]. destruct (skip_blanks_safe e (S (length m)) m5 val) as (m6 & val' & -> & El6 & _); [by apply Hk5|destruct Hn4 as [? _]; unfold zlen in *; lia|].
  cbn [mbind res_bind]. do 3 eexists. split; [reflexivity|]. lia.
Qed.

Lemma copy_loop_safe s t : no_nul s -> forall dst p e, 0 <= p <= e -> e < zlen dst ->
  exists dst' q, StrUtil.copy_loop dst (s ++ 0 :: t) p e = Ok (dst', q) /\ zlen dst' = zlen dst.
Proof.
  induction 1 as [|c s Hc _ IH]; intros dst p e Hp He; cbn [app StrUtil.copy_loop].
  - destruct (Z.ltb_spec p e); destruct (st_frame dst p 0) as (d & -> & El & _); try lia; cbn [mbind res_bind]; by do 2 eexists.
  - destruct (Z.ltb_spec p e); (destruct (st_frame dst p c) as (d & Ed & El & _); [lia|]); [|destruct (st_frame dst p 0) as (d0 & -> & ? & _); [lia|]; cbn [mbind res_bind]; by do 2 eexists].
    rewrite Ed. cbn [mbind res_bind]. destruct (Z.eqb_spec c 0); [done|]. destruct (IH d (p + 1) e) as (d' & q & -> & El'); [lia|lia|]. do 2 eexists. split; [reflexivity|lia].
Qed.

Lemma set_string_safe dst m p : nul_from m p -> zlen dst = 256 -> exists dst', ks_set_string dst (drop (Z.to_nat p) m) 256 = Ok dst' /\ zlen dst' = 256.
Proof.
  intros Hn Hd. destruct (nul_split m p Hn) as (s & t & -> & Hs). unfold ks_set_string, StrUtil.ks_copy_string.
  destruct (copy_loop_safe s t Hs dst 0 (256 - 1)) as (d & q & -> & El); [lia|lia|]. cbn [mbind res_bind]. eexists. split; [reflexivity|lia].
Qed.

Definition sizes (cfg : ks_config) : Prop := zlen cfg.(buf) = 1024 /\ zlen cfg.(section) = 256 /\ zlen cfg.(category) = 256.

(** What is left of the stream when [fgets] took a line, or a part of a long one. *)
Definition next_line (s : list Z) : list Z := (take_line 1023 s).2.

Lemma take_line_spec n s l r : take_line n s = (l, r) -> s = l ++ r /\ (length l <= n)%nat.
Proof.
  revert s l r. induction n as [|n IH]; intros s l r; cbn [take_line]; [intros [= <- <-]; split; [done|cbn; lia]|].
  destruct s as [|c s]; [intros [= <- <-]; split; [done|cbn; lia]|]. destruct (c =? 10); [intros [= <- <-]; split; [done|cbn; lia]|].
  destruct (take_line n s) as [l' r'] eqn:E. intros [= <- <-]. destruct (IH _ _ _ E) as [-> ?]. split; [done|cbn; lia].
Qed.

Lemma take_line_first n c s l r : take_line (S n) (c :: s) = (l, r) -> exists l', l = c :: l'.
Proof. cbn [take_line]. destruct (c =? 10); [intros [= <- <-]; by eexists|]. destruct (take_line n s). intros [= <- <-]. by eexists. Qed.

Lemma fgets_safe buf c s : zlen buf = 1024 -> exists l buf', take_line 1023 (c :: s) = (c :: l, next_line (c :: s)) /\
  fgets buf 1024 (c :: s) = Ok (Some (buf', next_line (c :: s))) /\ zlen buf' = 1024 /\ nul_from buf' 0 /\ ld buf' 0 = Ok c.
Proof.
  intros Hb. unfold next_line, fgets. change (1024 - 1)%nat with 1023%nat. destruct (take_line 1023 (c :: s)) as [l r] eqn:E.
  destruct (take_line_spec _ _ _ _ E) as [Es Hl]. pose proof (take_line_first 1022 c s l r E) as Hl0.
  destruct Hl0 as (l' & ->). exists l'. pose proof (blit_rest [] buf ((c :: l') ++ [0]) 0 eq_refl) as B. cbn [app] in B.
  cbn [app]. rewrite B by (rewrite zlen_cons, zlen_app; change (zlen [0]) with 1; unfold zlen in *; cbn [length] in *; lia). cbn [mbind res_bind].
  eexists. split; [reflexivity|]. split; [reflexivity|]. split; [|split; [|apply ld_head]].
  - rewrite zlen_cons, !zlen_app. change (zlen [0]) with 1. unfold zlen in *. rewrite length_drop. cbn [length] in *. rewrite length_app. cbn [length]. lia.
  - split; [lia|]. exists (zlen (c :: l')). split; [apply zlen_nonneg|]. change (c :: (l' ++ [0]) ++ ?t) with ((c :: l' ++ [0]) ++ t). change (c :: l' ++ [0]) with ((c :: l') ++ [0]). rewrite <- app_assoc. by apply ld_app_mid.
Qed.

Lemma read_line_safe cfg s ret var val : sizes cfg -> s <> [] -> take 1 s <> [61] ->
  exists t, read_line cfg s ret var val = Ok t /\ match t with Return _ _ _ cfg' | Next _ _ _ cfg' => sizes cfg' /\ cfg'.(file) = Some (next_line s) end.
Proof.
  intros (Hb & Hs & Hc) Hne H61. destruct s as [|c s]; [done|]. assert (Hc61 : c <> 61) by (by intros ->). destruct cfg as [file path category section buf lineno catno sectno lockto]. cbn in Hb, Hs, Hc.
  unfold read_line. destruct (fgets_safe buf c s Hb) as (l & b & _ & -> & Hb' & Hn & E0). cbn [mbind res_bind]. rewrite E0. cbn [mbind res_bind].
  assert (He : exists e, (if c =? 91 then strchr b 0 93 else Ok None) = Ok e /\ forall i, e = Some i -> c = 91 /\ 0 < i < 1024).
  { destruct (Z.eqb_spec c 91) as [->|]; [|by eexists]. destruct (strchr_safe b 0 93) as (e & -> & Hi); [done|done|]. eexists. split; [reflexivity|]. intros i Ei.
    destruct (Hi i Ei) as (? & Ex & _). split; [done|]. pose proof (ld_bounds _ _ _ Ex). assert (i <> 0) by (intros ->; congruence). lia. }
  destruct He as (e & -> & He). cbn [mbind res_bind]. destruct e as [i|].
  - destruct (He i eq_refl) as [-> Hi]. destruct (nul_st b i) as (b1 & -> & El & Ek & Hk); [lia|]. cbn [mbind res_bind].
    assert (Hn1 : nul_from b1 1) by (destruct (nul_ld b 0 Hn) as (x & Ex & Hx); apply Hk, Hx; rewrite E0 in Ex; by injection Ex as <-).
    destruct (nul_ld b1 1 Hn1) as (x & -> & Hx). cbn [mbind res_bind]. destruct (Z.eqb_spec x 43) as [->|_].
    + destruct (set_string_safe section b1 2) as (sec & Esec & Hsec); [by apply Hx|done|]. change (Z.to_nat 2) with 2%nat in Esec. rewrite Esec. cbn [mbind res_bind].
      destruct (_ && _); eexists; (split; [reflexivity|]); (split; [split; [cbn; lia|done]|done]).
    + destruct (set_string_safe category b1 1) as (cat & Ecat & Hcat); [done|done|]. change (Z.to_nat 1) with 1%nat in Ecat. rewrite Ecat. cbn [mbind res_bind].
      eexists. split; [reflexivity|]. split; [split; [cbn; lia|done]|done].
  - destruct ((c =? 35) || (c =? 59) || (c =? 10) || (c =? 13)) eqn:Eo; [by eexists|].
    rewrite !orb_false_iff, !Z.eqb_neq in Eo. destruct (cstr_safe b 0 Hn) as (txt & ->). cbn [mbind res_bind]. destruct (bool_decide _); [by eexists|].
    destruct (split_pair_safe b c Hn E0) as (m & w & v & -> & El); [tauto..|]. cbn [mbind res_bind].
    destruct v as [v|]; eexists; (split; [reflexivity|]); (split; [split; [cbn; lia|done]|done]).
Qed.

Lemma next_line_shorter s : s <> [] -> (length (next_line s) < length s)%nat.
Proof.
  intros Hs. destruct s as [|c s]; [done|]. unfold next_line. destruct (take_line 1023 (c :: s)) as [l r] eqn:E. destruct (take_line_spec _ _ _ _ E) as [Es _].
  rewrite Es, length_app. destruct (take_line_first 1022 c s l r E) as (l' & ->). cbn. lia.
Qed.

(** No line, nor the rest of a long line, starts with the sign. *)
Definition no_bare_sign (s : list Z) : Prop := forall n, take 1 (Nat.iter n next_line s) <> [61].

Lemma no_bare_sign_next s : no_bare_sign s -> no_bare_sign (next_line s).
Proof. intros H n. pose proof (H (S n)) as Hn. by rewrite Nat.iter_succ_r in Hn. Qed.

Lemma lines_loop_safe fuel : forall cfg s ret var val, sizes cfg -> cfg.(file) = Some s -> no_bare_sign s -> (length s < fuel)%nat ->
  exists ret' var' val' cfg' s', lines_loop fuel cfg ret var val = Ok (ret', var', val', cfg') /\
    sizes cfg' /\ cfg'.(file) = Some s' /\ no_bare_sign s' /\ (ret' = 0 \/ (length s' < length s)%nat).
Proof.
  induction fuel as [|fuel IH]; intros cfg s ret var val Hz Hf Hbs Hl; [lia|]. cbn [lines_loop]. rewrite Hf. destruct (decide (s = [])) as [->|Hne].
  - rewrite read_line_end. destruct cfg as [file path category section buf lineno catno sectno lockto]. do 5 eexists. split; [reflexivity|]. split; [exact Hz|]. split; [done|]. split; [done|by left].
  - destruct (read_line_safe cfg s ret var val Hz Hne (Hbs O)) as (t & -> & Ht). cbn [mbind res_bind]. pose proof (next_line_shorter s Hne). pose proof (no_bare_sign_next s Hbs).
    destruct t as [r v w cfg'|r v w cfg']; destruct Ht as [Hz' Hf'].
    + do 5 eexists. split; [reflexivity|]. split; [done|]. split; [done|]. split; [done|by right].
    + destruct (IH cfg' (next_line s) r v w) as (ret' & var' & val' & cfg'' & s' & -> & ? & ? & ? & Hr); [done..|lia|]. do 5 eexists. split; [reflexivity|].
      split; [done|]. split; [done|]. split; [done|]. destruct Hr; [by left|right; lia].
Qed.

(** C33: Whatever a file holds (NUL bytes, lines longer than the buffer, no line
    feed at the end, brackets, [;;] and signs anywhere), a call of
    [ks_config_next_pair] returns, reads and writes only its buffers, and has
    either come to the end or taken something of the file, as long as nothing
    [fgets] takes starts with the sign: no line, and of a line of more than 1023
    characters no piece of 1023 either (then the byte before the buffer is read,
    [sign_first], [sign_behind_1023]). *)
Theorem config_safe cfg s : sizes cfg -> cfg.(file) = Some s -> no_bare_sign s ->
  exists ret var val cfg' s', ks_config_next_pair cfg = Ok (ret, var, val, cfg') /\
    sizes cfg' /\ cfg'.(file) = Some s' /\ no_bare_sign s' /\ (ret = 0 \/ (length s' < length s)%nat).
Proof. intros Hz Hf Hbs. unfold ks_config_next_pair. rewrite Hf. apply lines_loop_safe; [done..|lia]. Qed.

(** *** Four bits behind a colon *)

Definition bit_char (b : bool) : Z := if b then 49 else 48.

Lemma cas_bits pre b3 b2 b1 b0 rest j o : avoids [0; 58] pre -> no_nul rest ->
  ks_config_get_cas_bits (pre ++ 58 :: map bit_char [b3; b2; b1; b0] ++ rest ++ 0 :: j) o =
    Ok (0, 8 * Z.b2z b3 + 4 * Z.b2z b2 + 2 * Z.b2z b1 + Z.b2z b0).
Proof.
  intros Hp Hr. unfold ks_config_get_cas_bits. pose proof (strchr_some [] 58 pre (map bit_char [b3; b2; b1; b0] ++ rest ++ 0 :: j) Hp) as S.
  cbn [app] in S. change (zlen (@nil Z)) with 0 in S. rewrite S. cbn [mbind res_bind]. rewrite Z.add_0_l.
  set (bits := map bit_char _). assert (Hb : no_nul bits) by (unfold bits; repeat constructor; unfold bit_char; by case_match).
  pose proof (cstr_at (pre ++ [58]) (bits ++ rest) j) as C. rewrite <- !app_assoc in C. cbn [app] in C. rewrite zlen_app in C. change (zlen [58]) with 1 in C. rewrite C by (by apply Forall_app). cbn [mbind res_bind].
  rewrite zlen_app. change (zlen bits) with 4. pose proof (zlen_nonneg rest). destruct (Z.ltb_spec (4 + zlen rest) 4); [lia|].
  change 4%nat with (length bits). rewrite take_app_length. unfold bits. by destruct b3, b2, b1, b0.
Qed.

(** ** Samples *)

Definition b : String.string -> list Z := bytes_of_string.

Definition sample : list line := [
  Remark (b "# a remark" ++ [10]);
  Category (b "audio") [13; 10];
  Pair [9; 32] (b "rate") [32] true [32] (b "8000 Hz") LF;
  Junk [] (b "no sign here") CRLF;
  Pair [] (b "empty") [] false [] [] CRLF;
  Section_ (b "spans") (b "  " ++ [10]);
  Pair [] (b "span") [] false [] (b "1=2") (Comment (b " the first"));
  Pair [] (b "last") [] false [32] (b "x") EndOfFile ].

Lemma sample_meaning : meaning ([], []) sample =
  [ Entry [] (b "audio") (b "rate") (b "8000 Hz"); Entry [] (b "audio") (b "empty") []; Entry (b "spans") (b "audio") [] [];
    Entry (b "spans") (b "audio") (b "span") (b "1=2"); Entry (b "spans") (b "audio") (b "last") (b "x") ].
Proof. reflexivity. Qed.

Ltac by_avoids := apply avoids_list; reflexivity.

Lemma starts_dec s : match s with c :: _ => negb (blank c) | [] => false end = true -> starts s.
Proof. destruct s as [|c s]; [done|]. intros H. exists c, s. split; [done|by apply negb_true_iff]. Qed.

Lemma stops_dec s : match last s with Some c => negb (blank c) | None => false end = true -> stops s.
Proof.
  destruct s as [|c s _] using rev_ind; [done|]. rewrite last_snoc. intros H. exists s, c. split; [done|by apply negb_true_iff].
Qed.

Lemma line_of_dec t l rest : forallb (fun c => negb (c =? 10)) t = true -> l = t ++ [10] \/ l = t /\ t <> [] /\ rest = [] -> line_of l rest.
Proof.
  intros Ht Hl. exists t. split; [|done]. rewrite forallb_forall in Ht. apply List.Forall_forall. intros c Hc [<-|[]]. by specialize (Ht _ Hc).
Qed.

Lemma blanks_dec s : forallb blank s = true -> blanks s.
Proof. intros H. rewrite forallb_forall in H. by apply List.Forall_forall. Qed.

Ltac wf_sample :=
  repeat match goal with
  | |- _ /\ _ => split
  | |- True => exact I
  | |- blanks _ => apply blanks_dec; reflexivity
  | |- avoids _ _ => apply avoids_list; reflexivity
  | |- starts _ => apply starts_dec; reflexivity
  | |- stops _ => apply stops_dec; reflexivity
  | |- zlen _ <= _ => by vm_compute
  | |- zlen _ < _ => by vm_compute
  | |- _ <> _ => by vm_compute
  | |- wf_ending _ => cbn [wf_ending]
  | |- wf_line _ => unfold wf_line
  | |- wf_pair _ _ _ _ _ _ _ => unfold wf_pair
  | |- ~ avoids _ _ => let H := fresh in intros H; apply Forall_cons in H as [H _]; apply H; cbn; tauto
  | |- _ \/ starts _ => first [by left | right; apply starts_dec; reflexivity]
  | |- _ \/ _ \/ _ => first [by left | by right; left | by right; right]
  | |- forall c, _ <> Comment c => done
  | |- line_of ?l _ => first [apply (line_of_dec (removelast l)); [reflexivity|by left] | apply (line_of_dec l); [reflexivity|by right]]
  end.

Lemma sample_wf : wf_file sample.
Proof.
  unfold sample. cbn [wf_file]. wf_sample.
Qed.

Lemma config_reads_back_witness : exists cfg, opened (print sample) (b "/etc/x.conf") = Ok cfg /\ read_all 9 cfg = Ok (meaning ([], []) sample).
Proof.
  apply (config_reads_back sample (b "/etc/x.conf") 9).
  - exact sample_wf.
  - repeat constructor; discriminate.
  - reflexivity.
  - apply Nat.ltb_lt. reflexivity.
Defined.

Lemma no_bare_sign_nil : no_bare_sign [].
Proof. intros n. induction n as [|n IH]; [done|]. rewrite Nat.iter_succ_r. exact IH. Qed.

Lemma no_bare_sign_step s : take 1 s <> [61] -> no_bare_sign (next_line s) -> no_bare_sign s.
Proof. intros H Hn n. destruct n as [|n]; [done|]. rewrite Nat.iter_succ_r. apply Hn. Qed.

Definition start (text : list Z) : ks_config :=
  match opened text (b "/etc/x.conf") with Ok cfg => cfg | Err _ => zeroed end.

Definition odd_text : list Z := b "[" ++ [10] ++ b ";x" ++ [0; 10] ++ b "a=;;" ++ [10] ++ b "  ;; =".

Lemma config_safe_witness : exists ret var val cfg' s', ks_config_next_pair (start odd_text) = Ok (ret, var, val, cfg') /\
    sizes cfg' /\ cfg'.(file) = Some s' /\ no_bare_sign s' /\ (ret = 0 \/ (length s' < length odd_text)%nat).
Proof.
  apply (config_safe (start odd_text) odd_text).
  - by vm_compute.
  - by vm_compute.
  - do 4 (apply no_bare_sign_step; [by vm_compute|]). apply no_bare_sign_nil.
Defined.

(** *** Where the parser does not do as it means to *)

Definition call (cfg : ks_config) : res (Z * res (list Z) * res (list Z)) :=
  r ← ks_config_next_pair cfg; let '(ret, var, val, cfg) := r in Ok (ret, string_at cfg var, string_at cfg val).
Definition next (cfg : ks_config) : ks_config :=
  match ks_config_next_pair cfg with Ok (_, _, _, cfg) => cfg | Err _ => zeroed end.

(** A line that starts with the sign: the blanks in front of it are looked for
    in front of the buffer. *)
Lemma sign_first : call (start (b "=x" ++ [10])) = Err OutOfBounds.
Proof. by vm_compute. Qed.

(** The same behind 1023 characters of a long line, which [fgets] takes first. *)
Lemma sign_behind_1023 : call (start (replicate 1023 97 ++ b "=x" ++ [10])) = Err OutOfBounds /\ is_ok (call (start (replicate 1022 97 ++ b "=x" ++ [10]))) = true.
Proof. by vm_compute. Qed.

(** [__END__] does not end a file when the line in front of it has no sign: the
    call returns -1, which is true, with no value, and the next one goes on
    behind the mark. *)
Lemma end_after_junk : let cfg := start (b "junk" ++ [10] ++ b "__END__" ++ [10] ++ b "a=b") in
  call cfg = Ok (-1, Ok (b "__END__" ++ [10]), Err NullDeref) /\ call (next cfg) = Ok (1, Ok (b "a"), Ok (b "b")).
Proof. by vm_compute. Qed.

(** Only the first semicolon of a line is looked at: behind a single one a
    comment is part of the value. *)
Lemma comment_behind_semicolon : call (start (b "a=b;c ;; d" ++ [10])) = Ok (1, Ok (b "a"), Ok (b "b;c ;; d")).
Proof. by vm_compute. Qed.

(** Blanks at the end of a value stay; a value of one blank in front of a
    comment is that blank. *)
Lemma blanks_kept : call (start (b "a = b  " ++ [10])) = Ok (1, Ok (b "a"), Ok (b "b  ")) /\ call (start (b "a= ;; none" ++ [10])) = Ok (1, Ok (b "a"), Ok (b " ")).
Proof. by vm_compute. Qed.

(** A file that is not there is the section of the common file that has its
    name; only that section is read, up to the next. *)
Lemma open_section :
  let text := b "[+one]" ++ [10] ++ b "a=1" ++ [10] ++ b "[+two]" ++ [10] ++ b "a=2" ++ [10] ++ b "[+three]" ++ [10] ++ b "a=3" in
  let fopen path := if bool_decide (path = b "/etc/openks/openks.conf") then Some text else None in
  match ks_config_open_file (b "/etc/openks") fopen (b "two") with
  | Ok (1, cfg) => call cfg = Ok (1, Ok (b "a"), Ok (b "2")) /\ (r ← call (next cfg); Ok r.1.1) = Ok 0
  | _ => False
  end.
Proof. by vm_compute. Qed.
End Config.
