(* ===== verification/Hash.v ===== *)
(** Chained hash tables (src/src/ks_hash.c): the record, every operation, the
    refinement of a finite map of canonical keys, the iterators, and the lock
    state each call leaves. *)
From S2P Require Import Prelude Str HashFun.
From stdpp Require Import gmap fin_maps.
From Stdlib Require Floats.SpecFloat.
Import HashFun.
Local Open Scope Z_scope.

Module Hash.

(** ** Data *)

Inductive ks_hash_mode_t : Set :=
  | KS_HASH_MODE_DEFAULT | KS_HASH_MODE_CASE_SENSITIVE | KS_HASH_MODE_CASE_INSENSITIVE
  | KS_HASH_MODE_INT | KS_HASH_MODE_INT64 | KS_HASH_MODE_UUID | KS_HASH_MODE_PTR
  | KS_HASH_MODE_ARBITRARY.

Definition KS_HASH_FLAG_MUTEX : Z := 1.
Definition KS_HASH_FLAG_FREE_KEY : Z := 2.
Definition KS_HASH_FLAG_FREE_VALUE : Z := 4.
Definition KS_HASH_FLAG_RWLOCK : Z := 8.
Definition KS_HASH_FLAG_DUP_CHECK : Z := 16.
Definition KS_HASH_FLAG_NOLOCK : Z := 32.

Definition has (flags flag : Z) : bool := negb (Z.land flags flag =? 0).

(** An entry, with the address [e_id] the pool gave it; values are addresses,
    0 is NULL. *)
Record entry := Entry {
  e_id : positive; e_k : key; e_v : Z; e_h : Z; e_flags : Z; e_destructor : option Z
}.

(** A chain lists its entries along [next]. [next_id] is the pool's next
    address. [w_held] and [r_held] count the write (or mutex) and read locks the
    running thread holds. *)
Record ks_hash := MkHash {
  tablelength : Z;
  table : list (list entry);
  entrycount : Z;
  loadlimit : Z;
  primeindex : Z;
  hashfn : key -> res Z;
  eqfn : key -> key -> res bool;
  flags : Z;
  destructor : option Z;
  readers : Z;
  keysize : Z;
  mode : ks_hash_mode_t;
  next_id : positive;
  w_held : Z;
  r_held : Z
}.

Definition set_table (t : list (list entry)) (n : Z) (id : positive) (h : ks_hash) : ks_hash :=
  MkHash h.(tablelength) t n h.(loadlimit) h.(primeindex) h.(hashfn) h.(eqfn) h.(flags)
    h.(destructor) h.(readers) h.(keysize) h.(mode) id h.(w_held) h.(r_held).
Definition set_size (len : Z) (t : list (list entry)) (limit pi : Z) (h : ks_hash) : ks_hash :=
  MkHash len t h.(entrycount) limit pi h.(hashfn) h.(eqfn) h.(flags)
    h.(destructor) h.(readers) h.(keysize) h.(mode) h.(next_id) h.(w_held) h.(r_held).
Definition set_locks (w r rd : Z) (h : ks_hash) : ks_hash :=
  MkHash h.(tablelength) h.(table) h.(entrycount) h.(loadlimit) h.(primeindex) h.(hashfn) h.(eqfn)
    h.(flags) h.(destructor) rd h.(keysize) h.(mode) h.(next_id) w r.
Definition set_config (f ks : Z) (d : option Z) (h : ks_hash) : ks_hash :=
  MkHash h.(tablelength) h.(table) h.(entrycount) h.(loadlimit) h.(primeindex) h.(hashfn) h.(eqfn)
    f d h.(readers) ks h.(mode) h.(next_id) h.(w_held) h.(r_held).

(** What removing entries releases. *)
Inductive event : Set :=
  | FreeKey (k : positive)
  | FreeValue (v : Z)
  | Destroy (d v : Z)
  | FreeEntry (id : positive).

(** ** Hashing *)

Definition hash (h : ks_hash) (k : key) : res Z :=
  i ← match h.(mode) with
      | KS_HASH_MODE_ARBITRARY => ks_hash_default_arbitrary k h.(keysize) 13
      | _ => h.(hashfn) k
      end;
  Ok (scramble i).

Definition key_equals (h : ks_hash) (k1 k2 : key) : res bool :=
  match h.(mode) with
  | KS_HASH_MODE_ARBITRARY => memeq h.(keysize) (kmem k1) (kmem k2)
  | _ => h.(eqfn) k1 k2
  end.

Definition indexFor (tablelength hashvalue : Z) : Z := hashvalue mod tablelength.

Definition primes : list Z :=
  [53; 97; 193; 389; 769; 1543; 3079; 6151; 12289; 24593; 49157; 98317; 196613; 393241;
   786433; 1572869; 3145739; 6291469; 12582917; 25165843; 50331653; 100663319; 201326611;
   402653189; 805306457; 1610612741].
Definition prime_table_length : Z := 26.

(** [0.65f], the conversion of an [unsigned] to [float], and [ceil]. *)
Definition max_load_factor : SpecFloat.spec_float := SpecFloat.S754_finite false 10905190 (-24).
Definition float_of (x : Z) : SpecFloat.spec_float := SpecFloat.binary_normalize 24 128 x 0 false.
Definition ceil (f : SpecFloat.spec_float) : Z :=
  match f with
  | SpecFloat.S754_finite false m e =>
    if 0 <=? e then Zpos m * 2 ^ e else - (Zneg m / 2 ^ (- e))
  | _ => 0
  end.
Definition loadlimit_of (size : Z) : Z :=
  u32 (ceil (SpecFloat.SFmul 24 128 (float_of size) max_load_factor)).

(** ** Creation *)

Definition int_hash (f : Z -> res Z) (k : key) : res Z := f (kptr k).
Definition hash_int (ky : Z) : res Z := Ok (ks_hash_default_int ky).
Definition int_eq (f : Z -> Z -> bool) (k1 k2 : key) : res bool := Ok (f (kptr k1) (kptr k2)).
Definition mem_hash (f : list Z -> res Z) (k : key) : res Z := f (kmem k).
Definition mem_eq (f : list Z -> list Z -> res bool) (k1 k2 : key) : res bool := f (kmem k1) (kmem k2).

Definition is_none {A} (o : option A) : bool := match o with None => true | Some _ => false end.

(** The functions and the key size a mode asks for. *)
Definition mode_functions (md : ks_hash_mode_t) (hashf : option (key -> res Z))
    (eqf : option (key -> key -> res bool)) :
    res (option (key -> res Z) * option (key -> key -> res bool) * Z) :=
  let ints hf ef n :=
    _ ← ks_assert (is_none hashf); _ ← ks_assert (is_none eqf); Ok (Some hf, Some ef, n) in
  match md with
  | KS_HASH_MODE_CASE_INSENSITIVE =>
    _ ← ks_assert (is_none hashf); Ok (Some (mem_hash ks_hash_default_ci), eqf, 0)
  | KS_HASH_MODE_INT => ints (int_hash hash_int) (int_eq ks_hash_equalkeys_int) 4
  | KS_HASH_MODE_INT64 => ints (int_hash ks_hash_default_int64) (int_eq ks_hash_equalkeys_int64) 8
  | KS_HASH_MODE_UUID => ints (mem_hash ks_hash_default_uuid) (mem_eq ks_hash_equalkeys_uuid) 16
  | KS_HASH_MODE_PTR => ints (int_hash ks_hash_default_ptr) (int_eq ks_hash_equalkeys_ptr) 8
  | KS_HASH_MODE_ARBITRARY => Ok (hashf, eqf, 8)
  | _ => Ok (hashf, eqf, 0)
  end.

(** [for (pindex = 0; ...) if (primes[pindex] > minsize) break] *)
Fixpoint find_prime (ps : list Z) (pindex minsize : Z) : option (Z * Z) :=
  match ps with
  | [] => None
  | p :: ps => if minsize <? p then Some (pindex, p) else find_prime ps (pindex + 1) minsize
  end.

Definition ks_hash_create_ex (minsize : Z) (hashf : option (key -> res Z))
    (eqf : option (key -> key -> res bool)) (md : ks_hash_mode_t) (fl : Z) (d : option Z) :
    res (ks_status_t * option ks_hash) :=
  fns ← mode_functions md hashf eqf;
  let '(hashf, eqf, ks) := fns in
  let fl := if has fl KS_HASH_FLAG_NOLOCK then Z.land fl (Z.lnot KS_HASH_FLAG_RWLOCK) else fl in
  let hashf := default (mem_hash ks_hash_default) hashf in
  let eqf := default (mem_eq ks_hash_equalkeys) eqf in
  let minsize := if minsize =? 0 then 16 else minsize in
  if 1073741824 <? minsize then Ok (KS_STATUS_FAIL, None) else
  let '(pindex, size) := default (prime_table_length, 53) (find_prime primes 0 minsize) in
  Ok (KS_STATUS_SUCCESS,
      Some (MkHash size (replicate (Z.to_nat size) []) 0 (loadlimit_of size) pindex hashf eqf fl d 0
              ks md 1 0 0)).

Definition ks_hash_create (md : ks_hash_mode_t) (fl : Z) := ks_hash_create_ex 16 None None md fl None.

Definition ks_hash_set_flags (h : ks_hash) (f : Z) : ks_hash := set_config f h.(keysize) h.(destructor) h.
Definition ks_hash_set_keysize (h : ks_hash) (n : Z) : ks_hash := set_config h.(flags) n h.(destructor) h.
Definition ks_hash_set_destructor (h : ks_hash) (d : option Z) : ks_hash :=
  set_config h.(flags) h.(keysize) d h.

(** ** Locks *)

Definition ks_hash_write_lock (h : ks_hash) : ks_hash :=
  if has h.(flags) KS_HASH_FLAG_NOLOCK then h else set_locks (h.(w_held) + 1) h.(r_held) h.(readers) h.
Definition ks_hash_write_unlock (h : ks_hash) : ks_hash :=
  if has h.(flags) KS_HASH_FLAG_NOLOCK then h else set_locks (h.(w_held) - 1) h.(r_held) h.(readers) h.

Definition lock_read (h : ks_hash) : ks_hash :=
  set_locks h.(w_held) (h.(r_held) + 1) (u32 (h.(readers) + 1)) h.
Definition unlock_read (h : ks_hash) : ks_hash :=
  set_locks h.(w_held) (h.(r_held) - 1) (u32 (h.(readers) - 1)) h.

Definition ks_hash_read_lock (h : ks_hash) : ks_status_t * ks_hash :=
  if negb (has h.(flags) KS_HASH_FLAG_RWLOCK) then (KS_STATUS_INACTIVE, h)
  else (KS_STATUS_SUCCESS, lock_read h).

Definition ks_hash_read_unlock (h : ks_hash) : res (ks_status_t * ks_hash) :=
  if negb (has h.(flags) KS_HASH_FLAG_RWLOCK) then Ok (KS_STATUS_INACTIVE, h)
  else _ ← ks_assert (negb (h.(readers) =? 0)); Ok (KS_STATUS_SUCCESS, unlock_read h).

(** ** Expansion *)

Definition bucket_push (t : list (list entry)) (index : Z) (e : entry) : res (list (list entry)) :=
  c ← ld t index; st t index (e :: c).

(** [while (NULL != (e = h->table[i]))]: the chain moves, front first. *)
Fixpoint move_chain (newsize : Z) (chain : list entry) (newtable : list (list entry)) :
    res (list (list entry)) :=
  match chain with
  | [] => Ok newtable
  | e :: chain =>
    t ← bucket_push newtable (indexFor newsize e.(e_h)) e; move_chain newsize chain t
  end.

Fixpoint move_table (newsize : Z) (t newtable : list (list entry)) : res (list (list entry)) :=
  match t with
  | [] => Ok newtable
  | chain :: t => newtable ← move_chain newsize chain newtable; move_table newsize t newtable
  end.

(** [ks_pool_alloc] asserts that it never returns NULL, so the second plan of
    the code is never taken. *)
Definition ks_hash_expand (h : ks_hash) : res ks_hash :=
  if h.(primeindex) =? prime_table_length - 1 then Ok h
  else
    let pi := h.(primeindex) + 1 in
    newsize ← ld primes pi;
    t ← move_table newsize h.(table) (replicate (Z.to_nat newsize) []);
    Ok (set_size newsize t (loadlimit_of newsize) pi h).

Definition ks_hash_count (h : ks_hash) : Z := h.(entrycount).

(** ** Removal, insertion, search *)

(** What happens to the key and the value of a removed entry, and the value
    [_ks_hash_remove] returns. *)
Definition release (h : ks_hash) (e : entry) : list event * Z :=
  let fk := if has e.(e_flags) KS_HASH_FLAG_FREE_KEY then [FreeKey e.(e_id)] else [] in
  let '(fv, v) :=
    if has e.(e_flags) KS_HASH_FLAG_FREE_VALUE then ([FreeValue e.(e_v)], 0)
    else match e.(e_destructor), h.(destructor) with
         | Some d, _ => ([Destroy d e.(e_v)], 0)
         | None, Some d => ([Destroy d e.(e_v)], 0)
         | None, None => ([], e.(e_v))
         end in
  (fk ++ fv ++ [FreeEntry e.(e_id)], v).

(** The walk of a chain: the entry unlinked, and the chain without it. *)
Fixpoint chain_remove (h : ks_hash) (k : key) (hashvalue : Z) (chain : list entry) :
    res (option entry * list entry) :=
  match chain with
  | [] => Ok (None, [])
  | e :: chain =>
    same ← (if hashvalue =? e.(e_h) then key_equals h k e.(e_k) else Ok false);
    if (same : bool) then Ok (Some e, chain)
    else r ← chain_remove h k hashvalue chain; Ok (r.1, e :: r.2)
  end.

Definition remove_at (h : ks_hash) (k : key) (hashvalue index : Z) : res (Z * list event * ks_hash) :=
  chain ← ld h.(table) index;
  r ← chain_remove h k hashvalue chain;
  match r with
  | (Some e, chain) =>
    t ← st h.(table) index chain;
    let '(ev, v) := release h e in
    Ok (v, ev, set_table t (u32 (h.(entrycount) - 1)) h.(next_id) h)
  | (None, _) => Ok (0, [], h)
  end.

(** [ks_hash_insert_ex] after the hash and the index were computed. *)
Definition insert_locked (h : ks_hash) (k : key) (v : Z) (fl : Z) (d : option Z) (hashvalue index : Z) :
    res (list event * ks_hash) :=
  let h := ks_hash_write_lock h in
  let fl := if fl =? 0 then h.(flags) else fl in
  r ← (if has fl KS_HASH_FLAG_DUP_CHECK then remove_at h k hashvalue index else Ok (0, [], h));
  let '(_, ev, h) := r in
  let h := set_table h.(table) (u32 (h.(entrycount) + 1)) h.(next_id) h in
  r ← (if h.(loadlimit) <? h.(entrycount) then
         h ← ks_hash_expand h; Ok (h, indexFor h.(tablelength) hashvalue)
       else Ok (h, index));
  let '(h, index) := r in
  t ← bucket_push h.(table) index (Entry h.(next_id) k v hashvalue fl d);
  Ok (ev, ks_hash_write_unlock (set_table t h.(entrycount) (Pos.succ h.(next_id)) h)).

(** The two values are computed before the lock is taken. *)
Definition ks_hash_insert_ex (h : ks_hash) (k : key) (v : Z) (fl : Z) (d : option Z) :
    res (list event * ks_hash) :=
  hashvalue ← hash h k;
  insert_locked h k v fl d hashvalue (indexFor h.(tablelength) hashvalue).

Definition ks_hash_insert (h : ks_hash) (k : key) (v : Z) := ks_hash_insert_ex h k v 0 None.

Definition ks_hash_remove (h : ks_hash) (k : key) : res (Z * list event * ks_hash) :=
  hashvalue ← hash h k;
  let h := ks_hash_write_lock h in
  r ← remove_at h k hashvalue (indexFor h.(tablelength) hashvalue);
  let '(v, ev, h) := r in Ok (v, ev, ks_hash_write_unlock h).

Fixpoint chain_search (h : ks_hash) (k : key) (hashvalue : Z) (chain : list entry) : res Z :=
  match chain with
  | [] => Ok 0
  | e :: chain =>
    same ← (if hashvalue =? e.(e_h) then key_equals h k e.(e_k) else Ok false);
    if (same : bool) then Ok e.(e_v) else chain_search h k hashvalue chain
  end.

(** [locked] is KS_READLOCKED; the lock is taken and kept for the caller. *)
Definition ks_hash_search (h : ks_hash) (k : key) (locked : bool) : res (Z * ks_hash) :=
  _ ← ks_assert (negb locked || has h.(flags) KS_HASH_FLAG_RWLOCK);
  hashvalue ← hash h k;
  let index := indexFor h.(tablelength) hashvalue in
  let h := if locked then lock_read h else h in
  chain ← ld h.(table) index;
  v ← chain_search h k hashvalue chain;
  Ok (v, h).

(** [*h] becomes NULL; everything the table owned is released. *)
Definition ks_hash_destroy (h : option ks_hash) : option ks_hash * list event :=
  match h with
  | None => (None, [])
  | Some h => (None, concat (map (fun chain => concat (map (fun e => (release h e).1) chain)) h.(table)))
  end.

(** ** Iterators *)

Record iterator := Iter { pos : Z; locked : bool; cur : option positive }.

(** [e->next] for the entry at address [id]; a fault when it was freed. *)
Fixpoint chain_next (id : positive) (chain : list entry) : option (option entry) :=
  match chain with
  | [] => None
  | e :: chain => if bool_decide (e.(e_id) = id) then Some (head chain) else chain_next id chain
  end.

Fixpoint table_next (id : positive) (t : list (list entry)) : option (option entry) :=
  match t with
  | [] => None
  | chain :: t => match chain_next id chain with Some r => Some r | None => table_next id t end
  end.

Fixpoint find_entry (id : positive) (t : list entry) : option entry :=
  match t with
  | [] => None
  | e :: t => if bool_decide (e.(e_id) = id) then Some e else find_entry id t
  end.

(** [while (i->pos < tablelength && !table[i->pos]) i->pos++] *)
Fixpoint skip_empty (fuel : nat) (t : list (list entry)) (len p : Z) : res (Z * option entry) :=
  match fuel with
  | O => Err NoFuel
  | S fuel =>
    if p <? len then
      chain ← ld t p;
      match chain with
      | [] => skip_empty fuel t len (p + 1)
      | e :: _ => Ok (p, Some e)
      end
    else Ok (p, None)
  end.

(** The iterator is freed and its lock given back. *)
Definition ks_hash_last (h : ks_hash) (i : iterator) : ks_hash :=
  if i.(locked) then unlock_read h else h.

Definition ks_hash_next (h : ks_hash) (i : iterator) : res (option iterator * ks_hash) :=
  let scan p :=
    r ← skip_empty (S (Z.to_nat h.(tablelength))) h.(table) h.(tablelength) p;
    match r with
    | (p, Some e) => Ok (Some (Iter p i.(locked) (Some e.(e_id))), h)
    | (p, None) => Ok (None, ks_hash_last h i)
    end in
  match i.(cur) with
  | None => scan i.(pos)
  | Some id =>
    match table_next id h.(table) with
    | None => Err UseAfterFree
    | Some (Some e) => Ok (Some (Iter i.(pos) i.(locked) (Some e.(e_id))), h)
    | Some None => scan (i.(pos) + 1)
    end
  end.

Definition ks_hash_first (h : ks_hash) (lk : bool) : res (option iterator * ks_hash) :=
  _ ← ks_assert (negb lk || has h.(flags) KS_HASH_FLAG_RWLOCK);
  ks_hash_next (if lk then lock_read h else h) (Iter 0 lk None).

(** The key and the value; [*klen] is stored when the caller asks for it, as the
    [int] of a [strlen] of the key, of whatever mode. *)
Definition ks_hash_this (h : ks_hash) (i : iterator) (klen : bool) : res (option (key * Z) * option Z) :=
  match i.(cur) with
  | None => Ok (None, if klen then Some 0 else None)
  | Some id => match find_entry id (concat h.(table)) with
               | Some e => n ← (if klen then n ← strlen (kmem e.(e_k)); Ok (Some (s32 n)) else Ok None); Ok (Some (e.(e_k), e.(e_v)), n)
               | None => Err UseAfterFree
               end
  end.

Definition set_value (id : positive) (v : Z) (e : entry) : entry :=
  if bool_decide (e.(e_id) = id) then Entry e.(e_id) e.(e_k) v e.(e_h) e.(e_flags) e.(e_destructor) else e.

Definition ks_hash_this_val (h : ks_hash) (i : iterator) (v : Z) : ks_hash :=
  match i.(cur) with
  | None => h
  | Some id => set_table (map (map (set_value id v)) h.(table)) h.(entrycount) h.(next_id) h
  end.

(** ** What a hash function and a comparison owe the table

    On the keys of [dom], the hash exists and depends on the canonical bytes
    [canon] only, and the comparison decides their equality. *)
Class KeyLaws (hf : key -> res Z) (ef : key -> key -> res bool) (dom : key -> Prop)
    (canon : key -> list Z) : Prop := {
  hash_total : forall k, dom k -> exists i, hf k = Ok i;
  hash_canon : forall k1 k2, dom k1 -> dom k2 -> canon k1 = canon k2 -> hf k1 = hf k2;
  eq_canon : forall k1 k2, dom k1 -> dom k2 -> ef k1 k2 = Ok (bool_decide (canon k1 = canon k2))
}.

Definition any_key (k : key) : Prop := True.
Definition canon32 (k : key) : list Z := [u32 (kptr k)].
Definition canon64 (k : key) : list Z := [u64 (kptr k)].

Lemma bool_decide_eqb (b : bool) (P : Prop) `{Decision P} : (b = true <-> P) -> b = bool_decide P.
Proof. intros HP. case_bool_decide; [by apply HP|]. destruct b; [|done]. by destruct H0; apply HP. Qed.

#[export] Instance int_laws : KeyLaws (int_hash hash_int) (int_eq ks_hash_equalkeys_int) any_key canon32.
Proof.
  split.
  - intros k _. by eexists.
  - intros k1 k2 _ _ [= E]. unfold int_hash, hash_int, ks_hash_default_int. by rewrite E.
  - intros k1 k2 _ _. unfold int_eq, ks_hash_equalkeys_int. f_equal. apply bool_decide_eqb.
    rewrite Z.eqb_eq. unfold canon32. split; [by intros ->|by intros [= ->]].
Qed.

(** Keys whose hash no overflow stops. *)
Definition hashable (hf : key -> res Z) (k : key) : Prop := is_ok (hf k) = true.

Lemma hashable_total hf k : hashable hf k -> exists i, hf k = Ok i.
Proof. unfold hashable. destruct (hf k); [by eexists|done]. Qed.

Lemma s64_u64 x y : u64 x = u64 y -> s64 x = s64 y.
Proof. unfold u64, s64. intros E. f_equal. by rewrite <- Zplus_mod_idemp_l, E, Zplus_mod_idemp_l. Qed.

#[export] Instance int64_laws : KeyLaws (int_hash ks_hash_default_int64) (int_eq ks_hash_equalkeys_int64) (hashable (int_hash ks_hash_default_int64)) canon64.
Proof.
  split.
  - intros k. apply hashable_total.
  - intros k1 k2 _ _ [= E]. unfold int_hash, ks_hash_default_int64. by rewrite (s64_u64 _ _ E).
  - intros k1 k2 _ _. unfold int_eq, ks_hash_equalkeys_int64. f_equal. apply bool_decide_eqb.
    rewrite Z.eqb_eq. unfold canon64. split; [by intros ->|by intros [= ->]].
Qed.

#[export] Instance ptr_laws : KeyLaws (int_hash ks_hash_default_ptr) (int_eq ks_hash_equalkeys_ptr) (hashable (int_hash ks_hash_default_ptr)) canon64.
Proof. exact int64_laws. Qed.

(** Keys of [n] bytes. *)
Definition has_bytes (n : nat) (k : key) : Prop := (n <= length (kmem k))%nat.
Definition canon_bytes (n : nat) (k : key) : list Z := take n (kmem k).

Lemma ld_take (m1 m2 : list Z) n i : take n m1 = take n m2 -> 0 <= i < Z.of_nat n -> ld m1 i = ld m2 i.
Proof.
  intros E Hi. unfold ld. destruct (Z.ltb_spec i 0); [done|].
  assert (m1 !! Z.to_nat i = m2 !! Z.to_nat i) as ->; [|done].
  rewrite <- (lookup_take_lt m1 n), <- (lookup_take_lt m2 n) by lia. by rewrite E.
Qed.

Lemma slice_take (m : list Z) n : (n <= length m)%nat -> slice m 0 (Z.of_nat n) = Ok (take n m).
Proof.
  intros Hn. unfold slice, zlen. destruct (Z.leb_spec 0 (Z.of_nat n)); [|lia].
  destruct (Z.leb_spec (0 + Z.of_nat n) (Z.of_nat (length m))); [|lia]. simpl. by rewrite Nat2Z.id.
Qed.

Lemma memeq_take m1 m2 n : (n <= length m1)%nat -> (n <= length m2)%nat ->
  memeq (Z.of_nat n) m1 m2 = Ok (bool_decide (take n m1 = take n m2)).
Proof. intros. unfold memeq. rewrite !slice_take by done. done. Qed.

Definition uuid_key (k : key) : Prop := has_bytes 16 k /\ hashable (mem_hash ks_hash_default_uuid) k.

#[export] Instance uuid_laws :
  KeyLaws (mem_hash ks_hash_default_uuid) (mem_eq ks_hash_equalkeys_uuid) uuid_key (canon_bytes 16).
Proof.
  split.
  - intros k [_ Hk]. by apply hashable_total.
  - intros k1 k2 _ _ E. unfold canon_bytes in E. unfold mem_hash, ks_hash_default_uuid, ld64, ld32, ld16.
    by rewrite !(ld_take (kmem k1) (kmem k2) 16 _ E) by lia.
  - intros k1 k2 [H1 _] [H2 _]. apply (memeq_take _ _ 16); done.
Qed.

(** C strings: the bytes up to the NUL. *)
Definition c_string (k : key) : Prop := exists s post, kmem k = s ++ 0 :: post /\ no_nul s.
Fixpoint cstr (m : list Z) : list Z :=
  match m with [] => [] | c :: m => if c =? 0 then [] else c :: cstr m end.
Definition canon_str (k : key) : list Z := cstr (kmem k).

Lemma cstr_app s post : no_nul s -> cstr (s ++ 0 :: post) = s.
Proof. induction 1 as [|c s Hc Hs IH]; simpl; [done|]. destruct (Z.eqb_spec c 0); [done|]. by rewrite IH. Qed.

Lemma streq_spec s1 p1 s2 p2 : no_nul s1 -> no_nul s2 ->
  streq (s1 ++ 0 :: p1) (s2 ++ 0 :: p2) = Ok (bool_decide (s1 = s2)).
Proof.
  intros H1. revert s2. induction H1 as [|c1 s1 Hc1 Hs1 IH]; intros s2 H2; destruct H2 as [|c2 s2 Hc2 Hs2]; cbn [app streq].
  - done.
  - destruct (Z.eqb_spec 0 c2); [congruence|]. by rewrite bool_decide_eq_false_2.
  - destruct (Z.eqb_spec c1 0); [done|]. by rewrite bool_decide_eq_false_2.
  - destruct (Z.eqb_spec c1 c2) as [->|Hne].
    + destruct (Z.eqb_spec c2 0); [done|]. rewrite IH by done. f_equal. by repeat case_bool_decide; simplify_eq.
    + case_bool_decide; by simplify_eq.
Qed.

Lemma str_hash_spec f s h : no_nul s ->
  (forall c, c ∈ s -> exists c', f c = Ok c' /\ c' <> 0) -> f 0 = Ok 0 ->
  exists i, forall post, str_hash f (s ++ 0 :: post) h = Ok i.
Proof.
  intros Hs Hf H0. revert h. induction Hs as [|c s Hc Hs IH]; intros h; simpl.
  - exists h. intros. by rewrite H0.
  - destruct (Hf c) as (c' & -> & Hc'); [by left|]. cbn [mbind res_bind].
    destruct (Z.eqb_spec c' 0); [done|]. apply IH. intros c'' Hin. apply Hf. by right.
Qed.

(** Any of the two string hashes with [strcmp] keeps the laws. *)
Lemma str_laws f (dom : key -> Prop) :
  (forall k, dom k -> c_string k) -> f 0 = Ok 0 ->
  (forall k c, dom k -> c ∈ cstr (kmem k) -> exists c', f c = Ok c' /\ c' <> 0) ->
  KeyLaws (mem_hash (fun m => str_hash f m 0)) (mem_eq ks_hash_equalkeys) dom canon_str.
Proof.
  intros Hd H0 Hf.
  assert (Hh : forall k, dom k -> exists i, forall post, str_hash f (cstr (kmem k) ++ 0 :: post) 0 = Ok i).
  { intros k Hk. destruct (Hd k Hk) as (s & post & E & Hs).
    apply str_hash_spec; [rewrite E; by rewrite cstr_app|by intros c; apply (Hf k c)|done]. }
  assert (Hk' : forall k, dom k -> exists post, kmem k = cstr (kmem k) ++ 0 :: post).
  { intros k Hk. destruct (Hd k Hk) as (s & post & E & Hs). exists post. by rewrite E, cstr_app. }
  split.
  - intros k Hk. destruct (Hh k Hk) as (i & Hi). destruct (Hk' k Hk) as (post & E).
    exists i. unfold mem_hash. rewrite E. apply Hi.
  - intros k1 k2 H1 H2 E. unfold canon_str in E. destruct (Hh k1 H1) as (i & Hi).
    destruct (Hk' k1 H1) as (p1 & E1), (Hk' k2 H2) as (p2 & E2).
    unfold mem_hash. rewrite E1, E2, <- E. by rewrite !Hi.
  - intros k1 k2 H1 H2. destruct (Hd k1 H1) as (s1 & p1 & E1 & Hs1), (Hd k2 H2) as (s2 & p2 & E2 & Hs2).
    unfold mem_eq, ks_hash_equalkeys, canon_str. rewrite E1, E2, streq_spec, !cstr_app by done. done.
Qed.

#[export] Instance default_laws :
  KeyLaws (mem_hash ks_hash_default) (mem_eq ks_hash_equalkeys) c_string canon_str.
Proof.
  apply str_laws; [done|done|]. intros k c (s & post & E & Hs) Hc. rewrite E, cstr_app in Hc by done.
  exists c. split; [done|]. unfold no_nul in Hs. rewrite Forall_forall in Hs. by apply Hs.
Qed.

(** Strings of bytes, which [ks_tolower] maps to non-NUL characters. *)
Definition c_bytes (k : key) : Prop := c_string k /\ all_bytes (kmem k).

#[export] Instance ci_laws :
  KeyLaws (mem_hash ks_hash_default_ci) (mem_eq ks_hash_equalkeys) c_bytes canon_str.
Proof.
  apply str_laws; [by intros k []|done|]. intros k c [(s & post & E & Hs) Hb] Hc.
  unfold all_bytes in Hb. rewrite E in Hc, Hb. rewrite cstr_app in Hc by done. apply Forall_app in Hb as [Hb _].
  unfold no_nul in Hs. rewrite !Forall_forall in Hs, Hb. specialize (Hs c Hc). specialize (Hb c Hc).
  exists (Str.lower c). split; [by apply Str.ks_case_byte|]. unfold Str.lower, is_byte in *.
  destruct (Z.leb_spec 65 c), (Z.leb_spec c 90); simpl; lia.
Qed.

Definition readable (n : nat) (k : key) : Prop := key_readable k (Z.of_nat n).

#[export] Instance arbitrary_laws n initval :
  KeyLaws (fun k => ks_hash_default_arbitrary k (Z.of_nat n) initval)
          (fun k1 k2 => memeq (Z.of_nat n) (kmem k1) (kmem k2)) (readable n) (canon_bytes n).
Proof.
  split.
  - intros k Hk. eexists. by apply arbitrary_ref.
  - intros k1 k2 H1 H2 E. rewrite !arbitrary_ref by done. rewrite !Nat2Z.id. unfold canon_bytes in E. by rewrite E.
  - intros k1 k2 [H1 _] [H2 _]. apply memeq_take; unfold zlen in *; lia.
Qed.

(** ** Tables as multisets of entries *)

Definition entries (h : ks_hash) : list entry := concat h.(table).

Section Lists.
Context {A : Type}.

Lemma alter_in (f : A -> A) (t : list A) i c : t !! i = Some c -> alter f i t = <[i := f c]> t.
Proof.
  revert i. induction t as [|a t IH]; intros [|i] E; simpl in *; simplify_eq; [done|]. unfold alter in IH. by rewrite (IH i E).
Qed.

Lemma concat_insert (t : list (list A)) i c c' :
  t !! i = Some c -> concat (<[i := c']> t) ++ c ≡ₚ concat t ++ c'.
Proof.
  revert i. induction t as [|a t IH]; intros [|i] E; simpl in *; simplify_eq.
  - by rewrite (Permutation_app_comm (_ ++ concat t)), (Permutation_app_comm c'), app_assoc.
  - rewrite <- !app_assoc. by rewrite (IH i E).
Qed.

Lemma elem_of_concat (t : list (list A)) x :
  x ∈ concat t <-> exists i c, t !! i = Some c /\ x ∈ c.
Proof.
  induction t as [|a t IH]; simpl.
  - split; [by intros ?%elem_of_nil|intros (i & c & E & _); done].
  - rewrite elem_of_app, IH. split.
    + intros [Hx|(i & c & E & Hx)]; [by exists 0%nat, a|by exists (S i), c].
    + intros ([|i] & c & E & Hx); simpl in E; simplify_eq; [by left|right; eauto].
Qed.

Lemma concat_empty n : concat (replicate n (@nil A)) = [].
Proof. by induction n. Qed.
End Lists.

Lemma bucket_push_ok t i e : 0 <= i < zlen t ->
  exists c, t !! Z.to_nat i = Some c /\ bucket_push t i e = Ok (<[Z.to_nat i := e :: c]> t).
Proof.
  intros Hi. unfold bucket_push. destruct (ld_in t i Hi) as (c & -> & Ec). exists c. split; [done|].
  cbn [mbind res_bind]. unfold st. destruct (Z.leb_spec 0 i), (Z.ltb_spec i (zlen t)); try lia. done.
Qed.

Lemma bucket_push_concat (t : list (list entry)) i c e : t !! i = Some c -> concat (<[i := e :: c]> t) ≡ₚ e :: concat t.
Proof.
  intros E. pose proof (concat_insert t i c (e :: c) E) as H.
  rewrite <- Permutation_middle in H. by apply (Permutation_app_inv_r c).
Qed.

(** Every entry hangs where its hash says. *)
Definition placed (n : Z) (t : list (list entry)) : Prop :=
  forall i c e, t !! i = Some c -> e ∈ c -> e.(e_h) mod n = Z.of_nat i.

Lemma placed_insert n t i c e : placed n t -> t !! i = Some c -> e.(e_h) mod n = Z.of_nat i ->
  placed n (<[i := e :: c]> t).
Proof.
  intros Hp E He j c' e' Ej Hin. destruct (decide (i = j)) as [<-|Hne].
  - rewrite list_lookup_insert_eq in Ej by (by eapply lookup_lt_Some). injection Ej as <-.
    apply elem_of_cons in Hin as [->|Hin]; [done|by eapply Hp].
  - rewrite list_lookup_insert_ne in Ej by done. by eapply Hp.
Qed.

(** Pushing an entry in the bucket of its hash. *)
Lemma push_entry n t e : 0 < n -> zlen t = n -> placed n t ->
  exists t', bucket_push t (indexFor n e.(e_h)) e = Ok t' /\ zlen t' = n /\ placed n t' /\
    concat t' ≡ₚ e :: concat t.
Proof.
  intros Hn Hl Hp. unfold indexFor. pose proof (Z.mod_pos_bound (e_h e) n Hn).
  destruct (bucket_push_ok t (e_h e mod n) e) as (c & Ec & ->); [lia|].
  eexists. split; [done|]. split; [unfold zlen in *; by rewrite length_insert|]. split.
  - apply placed_insert; [done|done|]. rewrite Z2Nat.id; [done|lia].
  - by apply bucket_push_concat.
Qed.

Lemma move_chain_ok n chain : forall t, 0 < n -> zlen t = n -> placed n t ->
  exists t', move_chain n chain t = Ok t' /\ zlen t' = n /\ placed n t' /\ concat t' ≡ₚ chain ++ concat t.
Proof.
  induction chain as [|e chain IH]; intros t Hn Hl Hp; cbn [move_chain]; [by exists t|].
  destruct (push_entry n t e Hn Hl Hp) as (t1 & -> & Hl1 & Hp1 & Hc1). cbn [mbind res_bind].
  destruct (IH t1 Hn Hl1 Hp1) as (t2 & -> & Hl2 & Hp2 & Hc2). exists t2. repeat split; try done.
  rewrite Hc2, Hc1. simpl. by rewrite Permutation_middle.
Qed.

Lemma move_table_ok n t : forall nt, 0 < n -> zlen nt = n -> placed n nt ->
  exists t', move_table n t nt = Ok t' /\ zlen t' = n /\ placed n t' /\ concat t' ≡ₚ concat t ++ concat nt.
Proof.
  induction t as [|chain t IH]; intros nt Hn Hl Hp; cbn [move_table]; [by exists nt|].
  destruct (move_chain_ok n chain nt Hn Hl Hp) as (t1 & -> & Hl1 & Hp1 & Hc1). cbn [mbind res_bind].
  destruct (IH t1 Hn Hl1 Hp1) as (t2 & -> & Hl2 & Hp2 & Hc2). exists t2. repeat split; try done.
  rewrite Hc2, Hc1. simpl. rewrite !app_assoc. by rewrite (Permutation_app_comm (concat t)).
Qed.

(** ** Well-formed tables *)

Section Table.
Context (hf : key -> res Z) (ef : key -> key -> res bool) (dom : key -> Prop) (canon : key -> list Z).
Context `{HL : KeyLaws hf ef dom canon}.

Record wf (h : ks_hash) : Prop := Wf {
  w_hash : forall k, hash h k = hf k;
  w_eq : forall k1 k2, key_equals h k1 k2 = ef k1 k2;
  w_len : zlen h.(table) = h.(tablelength);
  w_prime : ld primes h.(primeindex) = Ok h.(tablelength);
  w_placed : placed h.(tablelength) h.(table);
  w_keys : Forall (fun e => dom e.(e_k) /\ hf e.(e_k) = Ok e.(e_h)) (entries h);
  w_count : h.(entrycount) = zlen (entries h);
  w_ids : NoDup (e_id <$> entries h) /\ Forall (fun e => (e.(e_id) < h.(next_id))%positive) (entries h)
}.

(** The keys of the table are distinct, as DUP_CHECK keeps them. *)
Definition uniq (h : ks_hash) : Prop := NoDup ((fun e => canon e.(e_k)) <$> entries h).

(** The map the table holds. *)
Definition amap (h : ks_hash) : gmap (list Z) Z :=
  list_to_map ((fun e => (canon e.(e_k), e.(e_v))) <$> entries h).

Lemma primes_pos i p : ld primes i = Ok p -> 0 < p.
Proof.
  intros E. destruct (decide (0 <= i < 26)) as [Hi|Hi]; [|rewrite ld_out in E; [done|change (zlen primes) with 26; lia]].
  rewrite (ld_nth _ _ 0) in E by (change (zlen primes) with 26; lia). injection E as <-.
  assert (Hall : Forall (fun p => 0 < p) primes) by (repeat constructor).
  rewrite Forall_forall in Hall. apply Hall, list_elem_of_In, (nth_In primes 0). simpl. lia.
Qed.

Lemma wf_len_pos h : wf h -> 0 < h.(tablelength).
Proof. intros []. by eapply primes_pos. Qed.

(** The comparison of hashes before the comparison of keys changes nothing. *)
Lemma same_key h k hv e :
  wf h -> dom k -> hf k = Ok hv -> dom e.(e_k) -> hf e.(e_k) = Ok e.(e_h) ->
  (if hv =? e_h e then key_equals h k (e_k e) else Ok false) = Ok (bool_decide (canon k = canon (e_k e))).
Proof.
  intros Hw Hk Hhv Hd He. destruct (Z.eqb_spec hv (e_h e)).
  - rewrite (w_eq h Hw). by apply eq_canon.
  - case_bool_decide as Hc; [|done]. exfalso. pose proof (hash_canon k (e_k e) Hk Hd Hc). congruence.
Qed.

(** The walk of a chain finds the entry of the key, or there is none. *)
Lemma chain_remove_ok h k hv chain :
  wf h -> dom k -> hf k = Ok hv ->
  Forall (fun e => dom e.(e_k) /\ hf e.(e_k) = Ok e.(e_h)) chain ->
  (exists e rest, chain_remove h k hv chain = Ok (Some e, rest) /\ canon e.(e_k) = canon k /\
     e ∈ chain /\ chain ≡ₚ e :: rest) \/
  (chain_remove h k hv chain = Ok (None, chain) /\ Forall (fun e => canon e.(e_k) <> canon k) chain).
Proof.
  intros Hw Hk Hhv. induction 1 as [|e chain [Hd He] Hch IH]; [by right|].
  cbn [chain_remove]. rewrite (same_key h k hv e) by done. cbn [mbind res_bind]. case_bool_decide as Hc.
  - left. exists e, chain. repeat split; try done. by left.
  - destruct IH as [(e' & rest & -> & Hc' & Hin & Hp)|[-> Hno]].
    + left. exists e', (e :: rest). repeat split; try done; [by right|]. rewrite Hp. by apply perm_swap.
    + right. split; [done|]. constructor; [congruence|done].
Qed.

Lemma chain_search_ok h k hv chain :
  wf h -> dom k -> hf k = Ok hv ->
  Forall (fun e => dom e.(e_k) /\ hf e.(e_k) = Ok e.(e_h)) chain ->
  (exists e, e ∈ chain /\ canon e.(e_k) = canon k /\ chain_search h k hv chain = Ok e.(e_v)) \/
  (chain_search h k hv chain = Ok 0 /\ Forall (fun e => canon e.(e_k) <> canon k) chain).
Proof.
  intros Hw Hk Hhv. induction 1 as [|e chain [Hd He] Hch IH]; [by right|].
  cbn [chain_search]. rewrite (same_key h k hv e) by done. cbn [mbind res_bind]. case_bool_decide as Hc.
  - left. exists e. split; [by left|]. done.
  - destruct IH as [(e' & Hin & Hc' & ->)|[-> Hno]].
    + left. exists e'. split; [by right|done].
    + right. split; [done|]. constructor; [congruence|done].
Qed.

(** An entry with the key's canonical bytes can only hang in the key's bucket. *)
Lemma not_elsewhere h k hv chain :
  wf h -> dom k -> hf k = Ok hv -> h.(table) !! Z.to_nat (hv mod h.(tablelength)) = Some chain ->
  Forall (fun e => canon e.(e_k) <> canon k) chain -> Forall (fun e => canon e.(e_k) <> canon k) (entries h).
Proof.
  intros Hw Hk Hhv Ec Hno. rewrite Forall_forall in *. intros e Hin Hc.
  pose proof (w_keys h Hw) as Hkeys. rewrite Forall_forall in Hkeys. destruct (Hkeys e Hin) as [Hd He].
  pose proof (hash_canon _ _ Hd Hk Hc) as E. assert (e_h e = hv) as <- by congruence.
  apply elem_of_concat in Hin as (i & c & Ei & Hin).
  pose proof (w_placed h Hw i c e Ei Hin) as Hi. rewrite Hi, Nat2Z.id in Ec.
  assert (c = chain) as -> by congruence. by apply (Hno e).
Qed.

Lemma bucket_lookup h hv : wf h ->
  exists chain, h.(table) !! Z.to_nat (hv mod h.(tablelength)) = Some chain /\
    ld h.(table) (indexFor h.(tablelength) hv) = Ok chain /\
    Forall (fun e => dom e.(e_k) /\ hf e.(e_k) = Ok e.(e_h)) chain /\
    (forall c', st h.(table) (indexFor h.(tablelength) hv) c' =
       Ok (<[Z.to_nat (hv mod h.(tablelength)) := c']> h.(table))).
Proof.
  intros Hw. pose proof (wf_len_pos h Hw) as Hp. pose proof (Z.mod_pos_bound hv _ Hp) as Hb.
  destruct (ld_in h.(table) (hv mod h.(tablelength))) as (chain & El & Ec); [by rewrite (w_len h Hw)|].
  exists chain. split; [done|]. split; [done|]. split.
  - pose proof (w_keys h Hw) as Hkeys. rewrite Forall_forall in *. intros e Hin. apply Hkeys.
    apply elem_of_concat. eauto.
  - intros c'. unfold st, indexFor. rewrite (w_len h Hw).
    destruct (Z.leb_spec 0 (hv mod h.(tablelength))), (Z.ltb_spec (hv mod h.(tablelength)) h.(tablelength)); try lia. done.
Qed.

(** Replacing a bucket by one with fewer entries. *)
Lemma wf_remove h t i chain e rest :
  wf h -> zlen (entries h) < 4294967296 -> h.(table) !! i = Some chain -> chain ≡ₚ e :: rest ->
  t = <[i := rest]> h.(table) ->
  wf (set_table t (u32 (h.(entrycount) - 1)) h.(next_id) h) /\ entries h ≡ₚ e :: concat t.
Proof.
  intros Hw Hsz Ei Hp ->.
  assert (Hent : entries h ≡ₚ e :: concat (<[i:=rest]> h.(table))).
  { pose proof (concat_insert _ i chain rest Ei) as H. rewrite Hp in H.
    rewrite <- Permutation_middle in H. symmetry. apply (Permutation_app_inv_r rest). by rewrite <- H. }
  split; [|done]. destruct Hw. constructor; try done; unfold entries in *; cbn [table set_table tablelength entrycount next_id].
  - unfold zlen in *. by rewrite length_insert.
  - intros j c e' Ej Hin. destruct (decide (i = j)) as [<-|Hne].
    + rewrite list_lookup_insert_eq in Ej by (by eapply lookup_lt_Some). injection Ej as <-.
      apply (w_placed0 i chain e' Ei). rewrite Hp. by right.
    + rewrite list_lookup_insert_ne in Ej by done. by eapply w_placed0.
  - rewrite Hent in w_keys0. by apply Forall_cons in w_keys0 as [_ ?].
  - rewrite w_count0. unfold zlen in *. rewrite Hent in *. simpl in *. rewrite u32_id by lia. lia.
  - destruct w_ids0 as [Hn Hlt]. rewrite Hent in Hn, Hlt. apply Forall_cons in Hlt as [_ ?].
    by apply NoDup_cons in Hn as [_ ?].
Qed.

Lemma remove_at_ok h k hv :
  wf h -> zlen (entries h) < 4294967296 -> dom k -> hf k = Ok hv ->
  (exists e t, remove_at h k hv (indexFor h.(tablelength) hv) =
       Ok ((release h e).2, (release h e).1, set_table t (u32 (h.(entrycount) - 1)) h.(next_id) h) /\
     canon e.(e_k) = canon k /\ entries h ≡ₚ e :: concat t /\
     wf (set_table t (u32 (h.(entrycount) - 1)) h.(next_id) h)) \/
  (remove_at h k hv (indexFor h.(tablelength) hv) = Ok (0, [], h) /\
   Forall (fun e => canon e.(e_k) <> canon k) (entries h)).
Proof.
  intros Hw Hsz Hk Hhv. destruct (bucket_lookup h hv Hw) as (chain & Ec & El & Hch & Hst).
  unfold remove_at. rewrite El. cbn [mbind res_bind].
  destruct (chain_remove_ok h k hv chain Hw Hk Hhv Hch) as [(e & rest & -> & Hc & Hin & Hp)|[-> Hno]].
  - left. cbn [mbind res_bind]. rewrite Hst. cbn [mbind res_bind].
    destruct (wf_remove h _ _ chain e rest Hw Hsz Ec Hp eq_refl) as [Hw' Hent].
    exists e. eexists. destruct (release h e) as [ev v]. done.
  - right. split; [done|]. by eapply not_elsewhere.
Qed.

(** The expansion keeps every entry. *)
Lemma expand_ok h : wf h ->
  exists h', ks_hash_expand h = Ok h' /\ wf h' /\ entries h' ≡ₚ entries h /\
    h'.(entrycount) = h.(entrycount) /\ h'.(flags) = h.(flags) /\ h'.(destructor) = h.(destructor) /\
    h'.(next_id) = h.(next_id) /\ h'.(w_held) = h.(w_held) /\ h'.(r_held) = h.(r_held) /\ h'.(readers) = h.(readers).
Proof.
  intros Hw. unfold ks_hash_expand.
  destruct (Z.eqb_spec (primeindex h) (prime_table_length - 1)) as [|Hne]; [by exists h|].
  pose proof (w_prime h Hw) as Hpr. unfold prime_table_length in Hne.
  assert (Hpi : 0 <= primeindex h < 26).
  { destruct (decide (0 <= primeindex h < 26)); [done|].
    rewrite ld_out in Hpr; [done|]. change (zlen primes) with 26. lia. }
  destruct (ld_in primes (primeindex h + 1)) as (n & En & _); [change (zlen primes) with 26; lia|].
  rewrite En. cbn [mbind res_bind]. pose proof (primes_pos _ _ En) as Hn.
  destruct (move_table_ok n h.(table) (replicate (Z.to_nat n) [])) as (t & -> & Hl & Hp & Hc); [done| | |].
  { rewrite zlen_replicate. lia. }
  { intros i c e E Hin. apply lookup_replicate in E as [-> _]. by apply elem_of_nil in Hin. }
  rewrite concat_empty, app_nil_r in Hc. cbn [mbind res_bind].
  eexists. split; [done|]. split; [|done]. destruct Hw.
  constructor; try done; unfold entries in *; cbn [table set_size tablelength entrycount next_id].
  - by rewrite Hc.
  - unfold zlen in *. by rewrite Hc.
  - by rewrite Hc.
Qed.

(** Linking a new entry in its bucket. *)
Lemma wf_push h e :
  wf h -> dom e.(e_k) -> hf e.(e_k) = Ok e.(e_h) -> e.(e_id) = h.(next_id) ->
  exists t, bucket_push h.(table) (indexFor h.(tablelength) e.(e_h)) e = Ok t /\
    concat t ≡ₚ e :: entries h /\
    wf (set_table t (zlen (entries h) + 1) (Pos.succ h.(next_id)) h).
Proof.
  intros Hw Hd He Hid. pose proof (wf_len_pos h Hw) as Hn.
  destruct (push_entry _ (table h) e Hn (w_len h Hw) (w_placed h Hw)) as (t & -> & Hl & Hp & Hc).
  exists t. split; [done|]. split; [done|]. destruct Hw.
  constructor; try done; unfold entries in *; cbn [table set_table tablelength entrycount next_id].
  - rewrite Hc. by constructor.
  - unfold zlen. rewrite Hc. simpl. lia.
  - destruct w_ids0 as [Hnd Hlt]. rewrite Hc. split.
    + simpl. constructor; [|done]. intros (e' & E & Hin)%list_elem_of_fmap.
      rewrite Forall_forall in Hlt. specialize (Hlt e' Hin). rewrite <- E, Hid in Hlt. lia.
    + constructor; [rewrite Hid; lia|]. eapply Forall_impl; [exact Hlt|]. simpl. lia.
Qed.

(** ** The map *)

Definition keys (l : list entry) : list (list Z) := (fun e => canon e.(e_k)) <$> l.
Definition emap (l : list entry) : gmap (list Z) Z := list_to_map ((fun e => (canon e.(e_k), e.(e_v))) <$> l).

Lemma keys_fst l : ((fun e => (canon e.(e_k), e.(e_v))) <$> l).*1 = keys l.
Proof. unfold keys. by rewrite <- list_fmap_compose. Qed.

Lemma emap_perm l1 l2 : l1 ≡ₚ l2 -> NoDup (keys l1) -> emap l1 = emap l2.
Proof. intros Hp Hn. unfold emap. apply list_to_map_proper; [by rewrite keys_fst|by rewrite Hp]. Qed.

Lemma emap_none l c : c ∉ keys l -> emap l !! c = None.
Proof. intros Hc. apply not_elem_of_list_to_map_1. by rewrite keys_fst. Qed.

Lemma keys_no c l : Forall (fun e => canon e.(e_k) <> c) l -> c ∉ keys l.
Proof. intros Hno (e & E & Hin)%list_elem_of_fmap. rewrite Forall_forall in Hno. by apply (Hno e Hin). Qed.

Lemma emap_size l : NoDup (keys l) -> Z.of_nat (size (emap l)) = zlen l.
Proof.
  intros Hn. unfold emap. induction l as [|e l IH]; [done|].
  apply NoDup_cons in Hn as [Hc Hn]. cbn. rewrite map_size_insert_None by (by apply emap_none).
  rewrite zlen_cons. rewrite <- (IH Hn). unfold emap. lia.
Qed.

Lemma emap_delete l e l' : l ≡ₚ e :: l' -> NoDup (keys l) ->
  emap l' = delete (canon e.(e_k)) (emap l) /\ NoDup (keys l') /\ emap l !! canon e.(e_k) = Some e.(e_v).
Proof.
  intros Hp Hn. assert (Hn' : NoDup (keys (e :: l'))) by (unfold keys in *; by rewrite <- Hp).
  rewrite (emap_perm l (e :: l') Hp Hn). apply NoDup_cons in Hn' as [Hc Hn']. cbn. split; [|split; [done|]].
  - by rewrite delete_insert_id by (by apply emap_none).
  - by rewrite lookup_insert_eq.
Qed.

Definition plain (h : ks_hash) : Prop :=
  Forall (fun e => e.(e_flags) = h.(flags) /\ e.(e_destructor) = None) (entries h) /\
  h.(destructor) = None /\ has h.(flags) KS_HASH_FLAG_FREE_VALUE = false /\
  has h.(flags) KS_HASH_FLAG_DUP_CHECK = true.

(** [abstracts h m]: the DUP_CHECK table [h] holds the map [m]. *)
Definition abstracts (h : ks_hash) (m : gmap (list Z) Z) : Prop :=
  wf h /\ uniq h /\ plain h /\ amap h = m.

Definition same_locks (h h' : ks_hash) : Prop :=
  h'.(w_held) = h.(w_held) /\ h'.(r_held) = h.(r_held) /\ h'.(readers) = h.(readers).

Lemma wf_locks h w r rd : wf h -> wf (set_locks w r rd h).
Proof. by intros []. Qed.

Lemma abstracts_locks h m w r rd : abstracts h m -> abstracts (set_locks w r rd h) m.
Proof. intros (Hw & ?). split; [by apply wf_locks|done]. Qed.

(** The removal on the map. *)
Lemma remove_at_map h m k hv :
  abstracts h m -> zlen (entries h) < 4294967296 -> dom k -> hf k = Ok hv ->
  exists ev h', remove_at h k hv (indexFor h.(tablelength) hv) = Ok (default 0 (m !! canon k), ev, h') /\
    abstracts h' (delete (canon k) m) /\ Forall (fun e => canon e.(e_k) <> canon k) (entries h') /\
    zlen (entries h') <= zlen (entries h) /\ h'.(tablelength) = h.(tablelength) /\
    h'.(flags) = h.(flags) /\ same_locks h h' /\ h'.(loadlimit) = h.(loadlimit).
Proof.
  intros (Hw & Hu & Hpl & <-) Hsz Hk Hhv.
  destruct (remove_at_ok h k hv Hw Hsz Hk Hhv) as [(e & t & -> & Hc & Hp & Hw')|[-> Hno]].
  - destruct (emap_delete _ _ _ Hp Hu) as (Hdel & Hnd & Hlk).
    assert (Hlook : amap h !! canon k = Some (e_v e)) by (rewrite <- Hc; exact Hlk).
    rewrite Hlook. destruct Hpl as (Hfl & Hde & Hfv & Hdup).
    assert (Hfl' : Forall (fun e => e.(e_flags) = h.(flags) /\ e.(e_destructor) = None) (e :: concat t))
      by (by rewrite <- Hp).
    apply Forall_cons in Hfl' as [[He1 He2] Hfl'].
    assert (Hrel : (release h e).2 = e_v e) by (unfold release; by rewrite He1, He2, Hde, Hfv).
    rewrite Hrel. eexists _, _. split; [done|]. split; [|split; [|split; [|done]]].
    + split; [done|]. split; [exact Hnd|]. split; [done|]. rewrite <- Hc. exact Hdel.
    + unfold uniq in Hu. rewrite Hp in Hu. apply NoDup_cons in Hu as [Hni _].
      apply Forall_forall. intros e' Hin E. apply Hni. rewrite Hc, <- E.
      apply list_elem_of_fmap. by exists e'.
    + unfold zlen. rewrite Hp. simpl. unfold entries. simpl. lia.
  - pose proof (keys_no _ _ Hno) as Hnk. pose proof (emap_none _ _ Hnk) as Hnone.
    change (amap h) with (emap (entries h)). rewrite Hnone. eexists _, _. split; [done|].
    rewrite delete_id by done. done.
Qed.

Lemma search_map h m k :
  abstracts h m -> dom k -> ks_hash_search h k false = Ok (default 0 (m !! canon k), h).
Proof.
  intros (Hw & Hu & _ & <-) Hk. destruct (hash_total k Hk) as [hv Hhv].
  unfold ks_hash_search. cbn [negb orb ks_assert mbind res_bind]. rewrite (w_hash h Hw), Hhv. cbn [mbind res_bind].
  destruct (bucket_lookup h hv Hw) as (chain & Ec & -> & Hch & _). cbn [mbind res_bind].
  destruct (chain_search_ok h k hv chain Hw Hk Hhv Hch) as [(e & Hin & Hc & ->)|[-> Hno]]; cbn [mbind res_bind].
  - assert (amap h !! canon k = Some (e_v e)) as ->; [|done].
    apply elem_of_list_to_map; [by rewrite keys_fst|]. apply list_elem_of_fmap. exists e.
    split; [by rewrite Hc|]. apply elem_of_concat. eauto.
  - pose proof (not_elsewhere h k hv chain Hw Hk Hhv Ec Hno) as Hno'.
    change (amap h) with (emap (entries h)). by rewrite (emap_none _ _ (keys_no _ _ Hno')).
Qed.

(** The expansion does not look at the count. *)
Lemma expand_count h n :
  ks_hash_expand (set_table h.(table) n h.(next_id) h) =
  h' ← ks_hash_expand h; Ok (set_table h'.(table) n h'.(next_id) h').
Proof.
  unfold ks_hash_expand. cbn [set_table primeindex table].
  destruct (primeindex h =? prime_table_length - 1); [done|].
  destruct (ld primes (primeindex h + 1)) as [sz|]; [|done]. cbn [mbind res_bind].
  by destruct (move_table sz (table h) (replicate (Z.to_nat sz) [])).
Qed.

(** Linking a key that is not in the table. *)
Lemma link_map h m k v hv :
  abstracts h m -> zlen (entries h) + 1 < 4294967296 -> dom k -> hf k = Ok hv ->
  Forall (fun e => canon e.(e_k) <> canon k) (entries h) ->
  exists h1 index t,
    (if h.(loadlimit) <? u32 (h.(entrycount) + 1) then
       h1 ← ks_hash_expand (set_table h.(table) (u32 (h.(entrycount) + 1)) h.(next_id) h);
       Ok (h1, indexFor h1.(tablelength) hv)
     else Ok (set_table h.(table) (u32 (h.(entrycount) + 1)) h.(next_id) h, indexFor h.(tablelength) hv))
    = Ok (h1, index) /\
    bucket_push h1.(table) index (Entry h1.(next_id) k v hv h.(flags) None) = Ok t /\
    abstracts (set_table t h1.(entrycount) (Pos.succ h1.(next_id)) h1) (<[canon k := v]> m) /\
    same_locks h h1 /\ h1.(flags) = h.(flags) /\ zlen (concat t) <= zlen (entries h) + 1.
Proof.
  intros (Hw & Hu & Hpl & <-) Hsz Hk Hhv Hno.
  assert (Hex : exists h2, wf h2 /\ entries h2 ≡ₚ entries h /\ h2.(flags) = h.(flags) /\
    h2.(destructor) = h.(destructor) /\ same_locks h h2 /\
    (if h.(loadlimit) <? u32 (h.(entrycount) + 1) then
       h1 ← ks_hash_expand (set_table h.(table) (u32 (h.(entrycount) + 1)) h.(next_id) h);
       Ok (h1, indexFor h1.(tablelength) hv)
     else Ok (set_table h.(table) (u32 (h.(entrycount) + 1)) h.(next_id) h, indexFor h.(tablelength) hv))
    = Ok (set_table h2.(table) (u32 (h.(entrycount) + 1)) h2.(next_id) h2, indexFor h2.(tablelength) hv)).
  { destruct (loadlimit h <? u32 (entrycount h + 1)); [|by exists h].
    destruct (expand_ok h Hw) as (h2 & E & Hw2 & Hp2 & _ & Hf & Hd & _ & Hl1 & Hl2 & Hl3).
    exists h2. rewrite expand_count, E. done. }
  destruct Hex as (h2 & Hw2 & Hp2 & Hf2 & Hd2 & Hl2 & ->).
  assert (Hcnt : u32 (h.(entrycount) + 1) = zlen (entries h2) + 1).
  { rewrite (w_count h Hw). rewrite u32_id by (unfold zlen in *; lia). unfold zlen. by rewrite Hp2. }
  destruct (wf_push h2 (Entry h2.(next_id) k v hv h.(flags) None) Hw2 Hk Hhv eq_refl) as (t & Et & Hct & Hwt).
  eexists _, _, t. split; [done|]. split; [exact Et|]. split; [|split; [done|split; [done|]]].
  - rewrite Hcnt. split; [exact Hwt|].
    assert (Hkeys : NoDup (keys (Entry (next_id h2) k v hv (flags h) None :: entries h2))).
    { unfold keys. simpl. constructor.
      - fold (keys (entries h2)). intros Hin. unfold keys in Hin. rewrite Hp2 in Hin. by apply (keys_no _ _ Hno).
      - unfold uniq in Hu. by rewrite Hp2. }
    assert (Hnt : NoDup (keys (concat t))) by (unfold keys in *; by rewrite Hct).
    split; [exact Hnt|]. split.
    + destruct Hpl as (Hfl & Hde & Hfv & Hdup). unfold plain. cbn [set_table destructor flags].
      rewrite Hf2, Hd2. split; [|done]. unfold entries in *. cbn [table set_table]. rewrite Hct.
      constructor; [done|]. by rewrite Hp2.
    + change (emap (concat t) = <[canon k := v]> (emap (entries h))).
      rewrite (emap_perm _ _ Hct Hnt). cbn. f_equal. apply emap_perm; [done|].
      unfold uniq, keys in *. by rewrite Hp2.
  - unfold zlen. rewrite Hct. simpl. rewrite Hp2. lia.
Qed.
End Table.



(** ** The calls of a client *)

Inductive call : Type :=
  | CInsert (k : key) (v : Z)
  | CRemove (k : key)
  | CSearch (k : key)
  | CCount.

Definition run_call (c : call) (h : ks_hash) : res (Z * ks_hash) :=
  match c with
  | CInsert k v => r ← ks_hash_insert h k v; Ok (0, r.2)
  | CRemove k => r ← ks_hash_remove h k; Ok (r.1.1, r.2)
  | CSearch k => ks_hash_search h k false
  | CCount => Ok (ks_hash_count h, h)
  end.

Fixpoint run_calls (cs : list call) (h : ks_hash) : res (list Z * ks_hash) :=
  match cs with
  | [] => Ok ([], h)
  | c :: cs => r ← run_call c h; rs ← run_calls cs r.2; Ok (r.1 :: rs.1, rs.2)
  end.

(** The same calls on a finite map; NULL is 0. *)
Definition map_call (canon : key -> list Z) (c : call) (m : gmap (list Z) Z) : Z * gmap (list Z) Z :=
  match c with
  | CInsert k v => (0, <[canon k := v]> m)
  | CRemove k => (default 0 (m !! canon k), delete (canon k) m)
  | CSearch k => (default 0 (m !! canon k), m)
  | CCount => (Z.of_nat (size m), m)
  end.

Fixpoint map_calls (canon : key -> list Z) (cs : list call) (m : gmap (list Z) Z) : list Z * gmap (list Z) Z :=
  match cs with
  | [] => ([], m)
  | c :: cs => let r := map_call canon c m in let rs := map_calls canon cs r.2 in (r.1 :: rs.1, rs.2)
  end.

Definition call_key (P : key -> Prop) (c : call) : Prop :=
  match c with CInsert k _ | CRemove k | CSearch k => P k | CCount => True end.
Definition call_cost (c : call) : Z := match c with CInsert _ _ => 1 | _ => 0 end.
Definition calls_cost (cs : list call) : Z := fold_right (fun c n => call_cost c + n) 0 cs.

Lemma hash_calls_cost_nonneg cs : 0 <= calls_cost cs.
Proof. induction cs as [|[] cs]; simpl; lia. Qed.

Section Calls.
Context (hf : key -> res Z) (ef : key -> key -> res bool) (dom : key -> Prop) (canon : key -> list Z).
Context `{HL : KeyLaws hf ef dom canon}.
Local Abbreviation abstracts := (abstracts hf ef dom canon).

Lemma abstracts_lock h m : abstracts h m -> abstracts (ks_hash_write_lock h) m.
Proof. intros. unfold ks_hash_write_lock. case_match; [done|by apply abstracts_locks]. Qed.
Lemma abstracts_unlock h m : abstracts h m -> abstracts (ks_hash_write_unlock h) m.
Proof. intros. unfold ks_hash_write_unlock. case_match; [done|by apply abstracts_locks]. Qed.

(** The lock of a writing call is given back. *)
Lemma unlock_locks h h1 : same_locks (ks_hash_write_lock h) h1 -> h1.(flags) = h.(flags) ->
  same_locks h (ks_hash_write_unlock h1).
Proof.
  unfold same_locks, ks_hash_write_lock, ks_hash_write_unlock. intros (E1 & E2 & E3) Ef. rewrite Ef.
  destruct (has (flags h) KS_HASH_FLAG_NOLOCK); [done|]. cbn in *. rewrite E1, E2, E3. repeat split; lia.
Qed.

Lemma lock_same h : entries (ks_hash_write_lock h) = entries h /\ (ks_hash_write_lock h).(flags) = h.(flags) /\
  (ks_hash_write_lock h).(tablelength) = h.(tablelength).
Proof. unfold ks_hash_write_lock. by case_match. Qed.

Lemma unlock_entries h : entries (ks_hash_write_unlock h) = entries h.
Proof. unfold ks_hash_write_unlock. by case_match. Qed.

Lemma insert_map h m k v :
  abstracts h m -> zlen (entries h) + 1 < 4294967296 -> dom k ->
  exists ev h', ks_hash_insert h k v = Ok (ev, h') /\ abstracts h' (<[canon k := v]> m) /\ same_locks h h' /\
    zlen (entries h') <= zlen (entries h) + 1.
Proof.
  intros HA Hsz Hk. pose proof HA as (Hw & _ & Hpl & _). destruct (hash_total k Hk) as [hv Hhv].
  unfold ks_hash_insert, ks_hash_insert_ex. rewrite (w_hash _ _ _ h Hw), Hhv. cbn [mbind res_bind].
  unfold insert_locked. cbn [Z.eqb]. pose proof (abstracts_lock h m HA) as HA1.
  destruct (lock_same h) as (He1 & Hf1 & Ht1). set (h1 := ks_hash_write_lock h) in *.
  rewrite Hf1. destruct Hpl as (_ & _ & _ & Hdup). rewrite Hdup, <- Ht1.
  destruct (remove_at_map _ _ _ _ h1 m k hv HA1) as (ev & h2 & -> & HA2 & Hno & Hz2 & Htl & Hf2 & Hl2 & _);
    [rewrite He1; lia|done|done|]. cbn [mbind res_bind]. rewrite <- Htl.
  destruct (link_map _ _ _ _ h2 _ k v hv HA2) as (h3 & idx & t & E3 & Et & HA3 & Hl3 & Hf3 & Hz3);
    [rewrite He1 in Hz2; lia|done|done|done|].
  cbn [set_table loadlimit entrycount tablelength]. rewrite E3. cbn [mbind res_bind].
  rewrite <- Hf1, <- Hf2, Et. cbn [mbind res_bind].
  eexists _, _. split; [done|]. split; [|split].
  - apply abstracts_unlock. rewrite insert_delete_eq in HA3. exact HA3.
  - apply unlock_locks; [|exact (eq_trans Hf3 (eq_trans Hf2 Hf1))]. fold h1.
    destruct Hl2 as (?&?&?), Hl3 as (?&?&?).
    repeat split; cbn [set_table w_held r_held readers]; congruence.
  - rewrite unlock_entries. unfold entries at 1. cbn [set_table table]. rewrite He1 in Hz2. lia.
Qed.

Lemma hash_run_call_sim c h m :
  abstracts h m -> zlen (entries h) + call_cost c < 4294967296 -> call_key dom c ->
  exists h', run_call c h = Ok ((map_call canon c m).1, h') /\ abstracts h' (map_call canon c m).2 /\
    same_locks h h' /\ zlen (entries h') <= zlen (entries h) + call_cost c.
Proof.
  intros HA Hsz Hk. destruct c as [k v|k|k|]; cbn [call_cost call_key run_call map_call fst snd] in *.
  - destruct (insert_map h m k v HA Hsz Hk) as (ev & h' & -> & HA' & Hl & Hz). by exists h'.
  - pose proof HA as (Hw & _). destruct (hash_total k Hk) as [hv Hhv]. unfold ks_hash_remove.
    rewrite (w_hash _ _ _ h Hw), Hhv. cbn [mbind res_bind]. pose proof (abstracts_lock h m HA) as HA1.
    destruct (lock_same h) as (He1 & Hf1 & _).
    destruct (remove_at_map _ _ _ _ _ m k hv HA1) as (ev & h2 & -> & HA2 & _ & Hz2 & _ & Hf2 & Hl2 & _);
      [rewrite He1; lia|done|done|]. eexists. split; [done|]. cbn [snd].
    split; [by apply abstracts_unlock|]. split; [apply unlock_locks; [done|congruence]|].
    rewrite unlock_entries. rewrite He1 in Hz2. lia.
  - rewrite (search_map _ _ _ _ h m k HA Hk). exists h. repeat split; try apply HA; lia.
  - exists h. pose proof HA as (Hw & Hu & _ & Hm). unfold ks_hash_count.
    assert (Hs : Z.of_nat (size m) = zlen (entries h)) by (rewrite <- Hm; by apply emap_size).
    rewrite (w_count _ _ _ h Hw), Hs. split; [done|]. split; [done|]. split; [done|lia].
Qed.

Lemma run_calls_sim cs : forall h m,
  abstracts h m -> zlen (entries h) + calls_cost cs < 4294967296 -> Forall (call_key dom) cs ->
  exists h', run_calls cs h = Ok ((map_calls canon cs m).1, h') /\ abstracts h' (map_calls canon cs m).2 /\
    same_locks h h'.
Proof.
  induction cs as [|c cs IH]; intros h m HA Hsz Hk; [by exists h|]. simpl in Hsz.
  apply Forall_cons in Hk as [Hc Hk]. pose proof (hash_calls_cost_nonneg cs).
  destruct (hash_run_call_sim c h m HA) as (h1 & E1 & HA1 & Hl1 & Hz1); [lia|done|].
  destruct (IH h1 (map_call canon c m).2 HA1) as (h2 & E2 & HA2 & Hl2); [lia|done|].
  exists h2. simpl. rewrite E1. cbn [mbind res_bind fst snd]. rewrite E2. cbn [mbind res_bind fst snd].
  split; [done|]. split; [done|]. destruct Hl1 as (?&?&?), Hl2 as (?&?&?). repeat split; congruence.
Qed.
End Calls.

(** ** The tables of every mode *)

Definition scrambled (hf : key -> res Z) (k : key) : res Z := i ← hf k; Ok (scramble i).

#[export] Instance scrambled_laws hf ef dom canon `{KeyLaws hf ef dom canon} :
  KeyLaws (scrambled hf) ef dom canon.
Proof.
  split.
  - intros k Hk. destruct (hash_total k Hk) as [i Hi]. unfold scrambled. rewrite Hi. by eexists.
  - intros k1 k2 H1 H2 E. unfold scrambled. by rewrite (hash_canon k1 k2 H1 H2 E).
  - intros k1 k2. apply eq_canon.
Qed.

Definition mode_hash (md : ks_hash_mode_t) : key -> res Z :=
  match md with
  | KS_HASH_MODE_INT => int_hash hash_int
  | KS_HASH_MODE_INT64 => int_hash ks_hash_default_int64
  | KS_HASH_MODE_PTR => int_hash ks_hash_default_ptr
  | KS_HASH_MODE_UUID => mem_hash ks_hash_default_uuid
  | KS_HASH_MODE_CASE_INSENSITIVE => mem_hash ks_hash_default_ci
  | KS_HASH_MODE_ARBITRARY => fun k => ks_hash_default_arbitrary k 8 13
  | _ => mem_hash ks_hash_default
  end.

Definition mode_eq (md : ks_hash_mode_t) : key -> key -> res bool :=
  match md with
  | KS_HASH_MODE_INT => int_eq ks_hash_equalkeys_int
  | KS_HASH_MODE_INT64 => int_eq ks_hash_equalkeys_int64
  | KS_HASH_MODE_PTR => int_eq ks_hash_equalkeys_ptr
  | KS_HASH_MODE_UUID => mem_eq ks_hash_equalkeys_uuid
  | KS_HASH_MODE_ARBITRARY => fun k1 k2 => memeq 8 (kmem k1) (kmem k2)
  | _ => mem_eq ks_hash_equalkeys
  end.

(** The keys a mode may be given, and what tells them apart: the low 32 or 64
    bits, the 16 or 8 bytes, the characters. Keys whose 64-bit hash overflows are
    left out. *)
Definition mode_dom (md : ks_hash_mode_t) : key -> Prop :=
  match md with
  | KS_HASH_MODE_INT => any_key
  | KS_HASH_MODE_INT64 => hashable (int_hash ks_hash_default_int64)
  | KS_HASH_MODE_PTR => hashable (int_hash ks_hash_default_ptr)
  | KS_HASH_MODE_UUID => uuid_key
  | KS_HASH_MODE_CASE_INSENSITIVE => c_bytes
  | KS_HASH_MODE_ARBITRARY => readable 8
  | _ => c_string
  end.

Definition mode_canon (md : ks_hash_mode_t) : key -> list Z :=
  match md with
  | KS_HASH_MODE_INT => canon32
  | KS_HASH_MODE_INT64 | KS_HASH_MODE_PTR => canon64
  | KS_HASH_MODE_UUID => canon_bytes 16
  | KS_HASH_MODE_ARBITRARY => canon_bytes 8
  | _ => canon_str
  end.

#[export] Instance mode_laws md : KeyLaws (mode_hash md) (mode_eq md) (mode_dom md) (mode_canon md).
Proof.
  destruct md.
  - exact default_laws.
  - exact default_laws.
  - exact ci_laws.
  - exact int_laws.
  - exact int64_laws.
  - exact uuid_laws.
  - exact ptr_laws.
  - exact (arbitrary_laws 8 13).
Qed.

Definition holds (md : ks_hash_mode_t) (h : ks_hash) (m : gmap (list Z) Z) : Prop :=
  abstracts (scrambled (mode_hash md)) (mode_eq md) (mode_dom md) (mode_canon md) h m.

(** A new table of any mode holds the empty map. *)
Lemma hash_create_holds md fl :
  has fl KS_HASH_FLAG_FREE_VALUE = false -> has fl KS_HASH_FLAG_DUP_CHECK = true ->
  exists h, ks_hash_create md fl = Ok (KS_STATUS_SUCCESS, Some h) /\ holds md h ∅.
Proof.
  intros Hfv Hdup.
  set (fl' := if has fl KS_HASH_FLAG_NOLOCK then Z.land fl (Z.lnot KS_HASH_FLAG_RWLOCK) else fl).
  assert (Hfl : has fl' KS_HASH_FLAG_FREE_VALUE = false /\ has fl' KS_HASH_FLAG_DUP_CHECK = true).
  { unfold fl'. destruct (has fl KS_HASH_FLAG_NOLOCK); [|done]. unfold has in *.
    rewrite <- !Z.land_assoc.
    change (Z.land (Z.lnot KS_HASH_FLAG_RWLOCK) KS_HASH_FLAG_FREE_VALUE) with KS_HASH_FLAG_FREE_VALUE.
    change (Z.land (Z.lnot KS_HASH_FLAG_RWLOCK) KS_HASH_FLAG_DUP_CHECK) with KS_HASH_FLAG_DUP_CHECK. done. }
  destruct Hfl as [Hfl1 Hfl2].
  destruct md; (eexists; split; [reflexivity|]; fold fl'; split; [|split; [|split]];
    [|apply NoDup_nil_2|split; [apply Forall_nil_2|done]|done]); constructor; try done;
    try (intros i c e E Hin; apply lookup_replicate in E as [-> _]; by apply elem_of_nil in Hin);
    try (split; [apply NoDup_nil_2|]); apply Forall_nil_2.
Qed.

(** In every mode, a new DUP_CHECK table is a finite map on the canonical bytes of
    its keys. Those of CASE_INSENSITIVE are compared in their case. *)
Lemma mode_refines_map md fl cs :
  has fl KS_HASH_FLAG_FREE_VALUE = false -> has fl KS_HASH_FLAG_DUP_CHECK = true ->
  Forall (call_key (mode_dom md)) cs -> calls_cost cs < 4294967296 ->
  exists h h', ks_hash_create md fl = Ok (KS_STATUS_SUCCESS, Some h) /\
    run_calls cs h = Ok ((map_calls (mode_canon md) cs ∅).1, h') /\
    holds md h' (map_calls (mode_canon md) cs ∅).2 /\ same_locks h h'.
Proof.
  intros Hfv Hdup Hk Hcost. destruct (hash_create_holds md fl Hfv Hdup) as (h & E & HA).
  destruct (run_calls_sim _ _ _ _ cs h ∅ HA) as (h' & E' & HA' & Hl); [|done|by exists h, h'].
  destruct HA as (_ & _ & _ & Hm). enough (entries h = []) as -> by done.
  unfold ks_hash_create, ks_hash_create_ex in E. destruct md; injection E as <-; reflexivity.
Qed.



(** Two keys that differ in case only are two keys of a CASE_INSENSITIVE table. *)
Lemma case_insensitive_keeps_case :
  let k1 := Key 64 (bytes_of_string "Content-Type"%string ++ [0]) in
  let k2 := Key 96 (bytes_of_string "content-type"%string ++ [0]) in
  match ks_hash_create KS_HASH_MODE_CASE_INSENSITIVE 17 with
  | Ok (_, Some h) => fst <$> run_calls [CInsert k1 7; CSearch k1; CSearch k2; CCount] h = Ok [0; 7; 0; 1]
  | _ => False
  end.
Proof. vm_compute. reflexivity. Qed.

(** Small non-negative integers are hashed; a negative one, and one like an address, is not. *)
Lemma lxor_small x n k : 0 <= x < 2 ^ k -> 0 <= n -> 0 <= Z.lxor x (Z.shiftr x n) < 2 ^ k.
Proof.
  intros Hx Hn. assert (Hs : 0 <= Z.shiftr x n <= x).
  { rewrite Z.shiftr_div_pow2 by done. split; [apply Z.div_pos; lia|]. apply Z.div_le_upper_bound; [lia|]. nia. }
  assert (Hl : 0 <= Z.lxor x (Z.shiftr x n)) by (apply Z.lxor_nonneg; lia). split; [done|].
  destruct (decide (Z.lxor x (Z.shiftr x n) = 0)) as [->|Hne]; [lia|]. destruct (decide (x = 0)) as [->|Hx0]; [by rewrite Z.shiftr_0_l in Hne|].
  apply Z.log2_lt_pow2; [lia|]. eapply Z.le_lt_trans; [apply Z.log2_lxor; lia|].
  apply Z.max_lub_lt; [apply Z.log2_lt_pow2; lia|]. eapply Z.le_lt_trans; [apply Z.log2_le_mono, Hs|]. apply Z.log2_lt_pow2; lia.
Qed.

Lemma i64_ok x : -9223372036854775808 <= x < 9223372036854775808 -> i64 x = Ok x.
Proof. intros H. unfold i64. destruct (Z.leb_spec (-9223372036854775808) x), (Z.ltb_spec x 9223372036854775808); done || lia. Qed.
Lemma shl64_ok x n : 0 <= x -> 0 <= n -> x * 2 ^ n < 9223372036854775808 -> shl64 x n = Ok (x * 2 ^ n).
Proof. intros Hx Hn H. unfold shl64. destruct (Z.ltb_spec x 0); [lia|]. rewrite Z.shiftl_mul_pow2 by done. apply i64_ok. lia. Qed.

Lemma int64_hashable x : 0 <= x < 2 ^ 33 -> is_ok (ks_hash_default_int64 x) = true.
Proof.
  intros Hx. unfold ks_hash_default_int64.
  assert (s64 x = x) as -> by (unfold s64; rewrite Z.mod_small; lia).
  rewrite shl64_ok by lia. cbn [mbind res_bind]. rewrite i64_ok by (unfold Z.lnot; lia). cbn [mbind res_bind].
  destruct (decide (x = 0)) as [->|Hx0]; [done|].
  assert (H1 : 0 <= Z.lnot x + x * 2 ^ 18 < 2 ^ 51) by (unfold Z.lnot; lia).
  apply (lxor_small _ 31) in H1; [|done]. set (k1 := Z.lxor _ _) in *. clearbody k1.
  rewrite i64_ok by lia. cbn [mbind res_bind]. assert (H2 : 0 <= k1 * 21 < 2 ^ 56) by lia.
  apply (lxor_small _ 11) in H2; [|done]. set (k2 := Z.lxor _ _) in *. clearbody k2.
  rewrite shl64_ok by lia. cbn [mbind res_bind]. rewrite i64_ok by lia. done.
Qed.

Lemma int64_overflows : ks_hash_default_int64 (-1) = Err Overflow /\ ks_hash_default_ptr 140737488355328 = Err Overflow.
Proof. split; vm_compute; reflexivity. Qed.

(** Asking for the length of an integer key follows the integer as a pointer. *)
Lemma this_klen_of_integer : match ks_hash_create KS_HASH_MODE_INT 17 with
  | Ok (_, Some h) => (r ← run_calls [CInsert (Key 5 []) 7] h; '(i, h) ← ks_hash_first r.2 false;
      match i with Some i => ks_hash_this h i true | None => Err NullDeref end) = Err OutOfBounds
  | _ => False end.
Proof. vm_compute. reflexivity. Qed.

(** ** Iteration *)

(** The loop of a client: from the iterator on, what [ks_hash_this] shows. *)
Fixpoint iterate (fuel : nat) (h : ks_hash) (r : option iterator) : res (list (key * Z) * ks_hash) :=
  match r with
  | None => Ok ([], h)
  | Some i =>
    match fuel with
    | O => Err NoFuel
    | S fuel =>
      '(kv, _) ← ks_hash_this h i false;
      n ← ks_hash_next h i;
      rest ← iterate fuel n.2 n.1;
      Ok (option_list kv ++ rest.1, rest.2)
    end
  end.

Definition kv (e : entry) : key * Z := (e.(e_k), e.(e_v)).

Lemma chain_next_notin id c : id ∉ e_id <$> c -> chain_next id c = None.
Proof.
  induction c as [|e c IH]; intros Hn; [done|]. simpl. apply not_elem_of_cons in Hn as [Hne Hn].
  rewrite bool_decide_eq_false_2 by congruence. by apply IH.
Qed.

Lemma chain_next_found l1 e l2 : e_id e ∉ e_id <$> l1 -> chain_next (e_id e) (l1 ++ e :: l2) = Some (head l2).
Proof.
  induction l1 as [|e1 l1 IH]; intros Hn; simpl.
  - by rewrite bool_decide_eq_true_2.
  - apply not_elem_of_cons in Hn as [Hne Hn]. rewrite bool_decide_eq_false_2 by congruence. by apply IH.
Qed.

Lemma table_next_found T1 l1 e l2 T2 :
  NoDup (e_id <$> concat (T1 ++ (l1 ++ e :: l2) :: T2)) ->
  table_next (e_id e) (T1 ++ (l1 ++ e :: l2) :: T2) = Some (head l2).
Proof.
  induction T1 as [|c T1 IH]; simpl; rewrite fmap_app; intros Hn.
  - rewrite chain_next_found; [done|]. apply NoDup_app in Hn as (Hn & _ & _).
    rewrite fmap_app in Hn. apply NoDup_app in Hn as (_ & Hd & _). intros Hin. apply (Hd _ Hin). by left.
  - apply NoDup_app in Hn as (_ & Hd & Hn). rewrite chain_next_notin; [by apply IH|].
    intros Hin. apply (Hd _ Hin). rewrite concat_app. simpl. rewrite <- app_assoc. simpl.
    rewrite !fmap_app, fmap_cons. apply elem_of_app. right. apply elem_of_app. right. by left.
Qed.

Lemma find_entry_found l1 e l2 : NoDup (e_id <$> l1 ++ e :: l2) -> find_entry (e_id e) (l1 ++ e :: l2) = Some e.
Proof.
  induction l1 as [|e1 l1 IH]; simpl; intros Hn; [by rewrite bool_decide_eq_true_2|].
  apply NoDup_cons in Hn as [Hne Hn]. rewrite bool_decide_eq_false_2; [by apply IH|].
  intros E. apply Hne. rewrite E, fmap_app, fmap_cons. apply elem_of_app. right. by left.
Qed.

(** The scan stops at the next chain that is not empty. *)
Lemma skip_empty_spec T2 : forall T1 fuel,
  (length T2 < fuel)%nat ->
  (exists n e l T3, T2 = replicate n [] ++ (e :: l) :: T3 /\
     skip_empty fuel (T1 ++ T2) (zlen (T1 ++ T2)) (zlen T1) = Ok (zlen T1 + Z.of_nat n, Some e)) \/
  (concat T2 = [] /\ skip_empty fuel (T1 ++ T2) (zlen (T1 ++ T2)) (zlen T1) = Ok (zlen (T1 ++ T2), None)).
Proof.
  induction T2 as [|c T2 IH]; intros T1 [|fuel] Hf; simpl in Hf; try lia; cbn [skip_empty].
  - right. rewrite app_nil_r. destruct (Z.ltb_spec (zlen T1) (zlen T1)); [lia|done].
  - rewrite ld_app_mid by done. cbn [mbind res_bind].
    destruct (Z.ltb_spec (zlen T1) (zlen (T1 ++ c :: T2))) as [Hlt|Hge];
      [|rewrite zlen_app, zlen_cons in Hge; pose proof (zlen_nonneg T2); lia].
    destruct c as [|e l].
    + specialize (IH (T1 ++ [[]]) fuel). rewrite <- app_assoc in IH. simpl app in IH.
      assert (E1 : zlen (T1 ++ [[]]) = zlen T1 + 1) by (by rewrite zlen_app). rewrite E1 in IH.
      destruct IH as [(n & e & l & T3 & -> & ->)|[Hc ->]]; [lia| |].
      * left. exists (S n), e, l, T3. split; [done|]. do 2 f_equal. lia.
      * right. done.
    + left. exists 0%nat, e, l, T2. split; [done|]. do 2 f_equal. lia.
Qed.

Lemma concat_replicate_nil {A} n (T : list (list A)) : concat (replicate n [] ++ T) = concat T.
Proof. induction n; simpl; done. Qed.

Definition chained (h : ks_hash) : Prop :=
  NoDup (e_id <$> entries h) /\ zlen h.(table) = h.(tablelength).

(** The [pos] of the iterator that scans from [p]. *)
Definition scan_pos (cr : option positive) (p : Z) : Z := match cr with Some _ => p - 1 | None => p end.

(** The scan from a position, with what the rest of the loop does. *)
Lemma scan_spec h T1 T2 lk :
  chained h -> h.(table) = T1 ++ T2 ->
  (exists T1' e l T3, h.(table) = T1' ++ (e :: l) :: T3 /\ concat T2 = e :: l ++ concat T3 /\
     (forall cr, cr = None \/ (exists e0, cr = Some (e_id e0) /\ table_next (e_id e0) h.(table) = Some None) ->
      ks_hash_next h (Iter (scan_pos cr (zlen T1)) lk cr) =
      Ok (Some (Iter (zlen T1') lk (Some (e_id e))), h))) \/
  (concat T2 = [] /\
   (forall cr, cr = None \/ (exists e0, cr = Some (e_id e0) /\ table_next (e_id e0) h.(table) = Some None) ->
    ks_hash_next h (Iter (scan_pos cr (zlen T1)) lk cr) =
    Ok (None, ks_hash_last h (Iter (scan_pos cr (zlen T1)) lk cr)))).
Proof.
  intros [_ Hl] Et.
  assert (Hscan : forall cr, cr = None \/ (exists e0, cr = Some (e_id e0) /\ table_next (e_id e0) h.(table) = Some None) ->
    ks_hash_next h (Iter (scan_pos cr (zlen T1)) lk cr) =
    (r ← skip_empty (S (Z.to_nat h.(tablelength))) h.(table) h.(tablelength) (zlen T1);
     match r with
     | (p, Some e) => Ok (Some (Iter p lk (Some e.(e_id))), h)
     | (p, None) => Ok (None, ks_hash_last h (Iter (scan_pos cr (zlen T1)) lk cr))
     end)).
  { intros cr [->|(e0 & -> & E)]; [done|]. unfold ks_hash_next. cbn [cur]. rewrite E. cbn [pos locked].
    cbn [scan_pos]. by replace (zlen T1 - 1 + 1) with (zlen T1) by lia. }
  destruct (skip_empty_spec T2 T1 (S (Z.to_nat h.(tablelength)))) as [(n & e & l & T3 & -> & E)|[Hc E]].
  { rewrite <- Hl, Et. unfold zlen. rewrite length_app. lia. }
  - left. exists (T1 ++ replicate n []), e, l, T3. rewrite <- app_assoc, Et. split; [done|].
    split; [by rewrite concat_replicate_nil|]. intros cr Hcr. rewrite Et in Hscan. rewrite Hscan by done.
    rewrite <- Hl, Et in *. rewrite E. cbn [mbind res_bind]. do 4 f_equal.
    rewrite zlen_app, zlen_replicate. done.
  - right. split; [done|]. intros cr Hcr. rewrite Hscan by done. rewrite <- Hl, Et in *. by rewrite E.
Qed.

(** From an entry on, the loop shows it and the rest of the table. *)
Lemma iterate_from h lk : chained h -> forall fuel T1 l1 e l2 T2,
  h.(table) = T1 ++ (l1 ++ e :: l2) :: T2 -> (length (l2 ++ concat T2) < fuel)%nat ->
  exists i, iterate fuel h (Some (Iter (zlen T1) lk (Some (e_id e)))) =
    Ok (kv e :: (kv <$> l2 ++ concat T2), ks_hash_last h i) /\ i.(locked) = lk.
Proof.
  intros Hch. pose proof Hch as [Hn Hl].
  induction fuel as [|fuel IH]; intros T1 l1 e l2 T2 Et Hf; [lia|]. cbn [iterate].
  assert (Hthis : ks_hash_this h (Iter (zlen T1) lk (Some (e_id e))) false = Ok (Some (kv e), None)).
  { unfold ks_hash_this. cbn [cur]. unfold entries in Hn. rewrite Et in *.
    assert (Ec : concat (T1 ++ (l1 ++ e :: l2) :: T2) = (concat T1 ++ l1) ++ e :: (l2 ++ concat T2)).
    { rewrite concat_app. simpl. by rewrite <- !app_assoc. }
    rewrite Ec in *. by rewrite find_entry_found. }
  rewrite Hthis. cbn [mbind res_bind].
  assert (Hnext : table_next (e_id e) h.(table) = Some (head l2)).
  { unfold entries in Hn. rewrite Et in *. by apply table_next_found. }
  destruct l2 as [|e2 l2].
  - simpl in Hf |- *. assert (Et2 : h.(table) = (T1 ++ [l1 ++ [e]]) ++ T2) by (by rewrite <- app_assoc).
    pose proof (scan_spec h _ T2 lk Hch Et2) as Hs. rewrite zlen_app in Hs. change (zlen [_]) with 1 in Hs.
    destruct Hs as [(T1' & e' & l & T3 & Et' & Ec & Hs)|[Ec Hs]];
      specialize (Hs (Some (e_id e)) (or_intror (ex_intro _ e (conj eq_refl Hnext)))); cbn [scan_pos] in Hs;
      rewrite Z.add_simpl_r in Hs; rewrite Hs; cbn [mbind res_bind fst snd].
    + destruct (IH T1' [] e' l T3 Et') as (i & -> & Hi); [rewrite Ec in Hf; simpl in Hf; lia|].
      exists i. rewrite Ec. cbn. done.
    + rewrite Ec. destruct fuel; cbn; by eexists.
  - cbn in Hnext. unfold ks_hash_next at 1. cbn [cur]. rewrite Hnext. cbn [mbind res_bind fst snd pos locked].
    destruct (IH T1 (l1 ++ [e]) e2 l2 T2) as (i & -> & Hi).
    + by rewrite Et, <- app_assoc.
    + simpl in Hf. lia.
    + exists i. done.
Qed.

Lemma chained_locks h w r rd : chained h -> chained (set_locks w r rd h).
Proof. done. Qed.

(** C10: a client's loop over an unchanging table shows every entry once, bucket
    by bucket, ends, and gives back the read lock it took. *)
Theorem ks_hash_iterates h lk :
  chained h -> (lk = true -> has h.(flags) KS_HASH_FLAG_RWLOCK = true) -> is_u32 h.(readers) ->
  exists h', (r ← ks_hash_first h lk; iterate (S (length (entries h))) r.2 r.1) =
    Ok (kv <$> entries h, h') /\ entries h' = entries h /\ same_locks h h'.
Proof.
  intros Hch Hlk Hrd. unfold ks_hash_first.
  assert (ks_assert (negb lk || has (flags h) KS_HASH_FLAG_RWLOCK) = Ok tt) as ->.
  { destruct lk; [by rewrite Hlk|done]. }
  cbn [mbind res_bind]. set (h0 := if lk then lock_read h else h).
  assert (Hch0 : chained h0) by (unfold h0; by destruct lk).
  assert (He0 : entries h0 = entries h) by (unfold h0; by destruct lk).
  assert (Hlast : forall i, i.(locked) = lk -> entries (ks_hash_last h0 i) = entries h /\ same_locks h (ks_hash_last h0 i)).
  { intros i Hi. unfold ks_hash_last. rewrite Hi. unfold h0. destruct lk; [|done]. split; [done|].
    unfold is_u32 in Hrd. repeat split; cbn; [lia|]. unfold u32.
    rewrite <- Zminus_mod_idemp_l. rewrite Zmod_mod, Zminus_mod_idemp_l, Z.add_simpl_r. by apply Z.mod_small. }
  destruct (scan_spec h0 [] h0.(table) lk Hch0 eq_refl) as [(T1 & e & l & T3 & Et & Ec & Hs)|[Ec Hs]];
    specialize (Hs None (or_introl eq_refl)); change (zlen (@nil (list entry))) with 0 in Hs; cbn [scan_pos] in Hs;
    rewrite Hs; cbn [mbind res_bind fst snd].
  - destruct (iterate_from h0 lk Hch0 (S (length (entries h))) T1 [] e l T3 Et) as (i & -> & Hi).
    { rewrite <- He0. unfold entries. rewrite Ec. simpl. lia. }
    eexists. split; [|by apply Hlast]. rewrite <- He0. unfold entries. rewrite Ec. done.
  - exists (ks_hash_last h0 (Iter 0 lk None)). split; [|by apply Hlast]. rewrite <- He0. unfold entries.
    rewrite Ec. done.
Qed.

(** ** The index that is computed before the lock *)

Lemma amap_none (canon : key -> list Z) h c : amap canon h !! c = None ->
  Forall (fun e => canon e.(e_k) <> c) (entries h).
Proof.
  intros Hn. apply not_elem_of_list_to_map_2 in Hn. apply Forall_forall. intros e Hin E. apply Hn.
  change (((fun e => (canon (e_k e), e_v e)) <$> entries h).*1) with
    (fst <$> ((fun e => (canon (e_k e), e_v e)) <$> entries h)).
  rewrite <- list_fmap_compose. apply list_elem_of_fmap. by exists e.
Qed.

Lemma chain_search_ext h h' k hv c :
  (forall k1 k2, key_equals h' k1 k2 = key_equals h k1 k2) -> chain_search h' k hv c = chain_search h k hv c.
Proof. intros He. induction c as [|e c IH]; [done|]. simpl. by rewrite He, IH. Qed.

(** [ks_hash_insert_ex] computes the bucket before it takes the lock. When
    another thread expands the table in between, the entry is counted and linked
    in a bucket where no search for its key looks. *)
Lemma ks_hash_insert_stale_index md h m k v hv idx :
  holds md h m -> mode_dom md k -> hash h k = Ok hv -> m !! mode_canon md k = None ->
  0 <= idx < h.(tablelength) -> idx <> indexFor h.(tablelength) hv ->
  h.(entrycount) + 1 <= h.(loadlimit) < 4294967296 ->
  exists h', insert_locked h k v 0 None hv idx = Ok ([], h') /\
    h'.(entrycount) = h.(entrycount) + 1 /\ (exists e, e ∈ entries h' /\ e.(e_k) = k /\ e.(e_v) = v) /\
    ks_hash_search h' k false = Ok (0, h').
Proof.
  intros HA Hk Hhv Hm Hidx Hne Hload. pose proof HA as (Hw & _ & Hpl & <-).
  pose proof (amap_none _ _ _ Hm) as Hno. rewrite (w_hash _ _ _ h Hw) in Hhv.
  pose proof (w_count _ _ _ h Hw) as Hcnt. pose proof (zlen_nonneg (entries h)) as Hz.
  pose proof (wf_len_pos _ _ _ h Hw) as Hpos.
  set (h1 := ks_hash_write_lock h).
  assert (Hs : h1.(table) = h.(table) /\ h1.(entrycount) = h.(entrycount) /\ h1.(loadlimit) = h.(loadlimit) /\
    h1.(flags) = h.(flags) /\ wf (scrambled (mode_hash md)) (mode_eq md) (mode_dom md) h1 /\
    (forall k, hash h1 k = hash h k) /\ h1.(tablelength) = h.(tablelength)).
  { unfold h1, ks_hash_write_lock. case_match; [done|]. by repeat split; try apply Hw. }
  destruct Hs as (Et & Ec & El & Ef & Hw1 & Eh & En).
  destruct (ld_in h1.(table) idx) as (chain & Eld & Hchain); [rewrite Et, (w_len _ _ _ h Hw); lia|].
  assert (Hch : Forall (fun e => mode_dom md e.(e_k) /\ scrambled (mode_hash md) e.(e_k) = Ok e.(e_h)) chain).
  { pose proof (w_keys _ _ _ h Hw) as Hkeys. rewrite Forall_forall in *. intros e Hin. apply Hkeys.
    apply elem_of_concat. rewrite Et in Hchain. eauto. }
  assert (Hrem : remove_at h1 k hv idx = Ok (0, [], h1)).
  { unfold remove_at. rewrite Eld. cbn [mbind res_bind].
    destruct (chain_remove_ok _ _ _ _ h1 k hv chain Hw1 Hk Hhv Hch) as [(e & rest & _ & Hc & Hin & _)|[-> _]]; [|done].
    exfalso. rewrite Forall_forall in Hno. apply (Hno e); [|done]. apply elem_of_concat. rewrite Et in Hchain. eauto. }
  unfold insert_locked. fold h1. cbn [Z.eqb]. rewrite Ef. destruct Hpl as (_ & _ & _ & Hdup).
  rewrite Hdup, Hrem. cbn [mbind res_bind set_table loadlimit entrycount table next_id].
  rewrite u32_id by (rewrite Ec; lia). rewrite Ec, El.
  destruct (Z.ltb_spec (loadlimit h) (entrycount h + 1)); [lia|]. cbn [mbind res_bind set_table table next_id entrycount].
  destruct (bucket_push_ok h1.(table) idx (Entry (next_id h1) k v hv (flags h) None)) as (c & Hc & ->);
    [rewrite Et, (w_len _ _ _ h Hw); lia|]. cbn [mbind res_bind].
  eexists. split; [done|]. unfold ks_hash_write_unlock. cbn [set_table flags].
  set (h2 := set_table _ _ _ _). set (h3 := if has _ _ then _ else _).
  assert (Hs3 : h3.(table) = h2.(table) /\ h3.(entrycount) = h.(entrycount) + 1 /\
    (forall k, hash h3 k = hash h k) /\ h3.(tablelength) = h.(tablelength) /\
    (forall k1 k2, key_equals h3 k1 k2 = key_equals h k1 k2)).
  { unfold h3, h2, h1, ks_hash_write_lock. by repeat case_match. }
  destruct Hs3 as (Et3 & Ec3 & Eh3 & En3 & Es3). split; [done|]. split.
  - exists (Entry (next_id h1) k v hv (flags h) None). split; [|done]. unfold entries. rewrite Et3.
    apply elem_of_concat. exists (Z.to_nat idx). eexists. unfold h2. cbn [set_table table].
    split; [apply list_lookup_insert_eq; by eapply lookup_lt_Some|by left].
  - unfold ks_hash_search. cbn [negb orb ks_assert mbind res_bind]. rewrite Eh3, (w_hash _ _ _ h Hw), Hhv.
    cbn [mbind res_bind]. rewrite En3.
    destruct (bucket_lookup _ _ _ h hv Hw) as (chain2 & Hc2 & _ & Hch2 & _).
    unfold indexFor in *. pose proof (Z.mod_pos_bound hv _ Hpos).
    assert (Eld3 : ld h3.(table) (hv mod h.(tablelength)) = Ok chain2).
    { rewrite Et3. unfold h2. cbn [set_table table]. unfold ld.
      destruct (Z.ltb_spec (hv mod h.(tablelength)) 0); [lia|].
      rewrite list_lookup_insert_ne by lia. by rewrite Et, Hc2. }
    rewrite Eld3. cbn [mbind res_bind]. rewrite (chain_search_ext h) by done.
    destruct (chain_search_ok _ _ _ _ h k hv chain2 Hw Hk Hhv Hch2) as [(e & Hin & Hc' & _)|[-> _]]; [|done].
    exfalso. rewrite Forall_forall in Hno. apply (Hno e); [|done]. apply elem_of_concat. eauto.
Qed.

(** Integer keys 0, 1, ..., inserted in a new table. *)
Definition int_key (n : nat) : key := Key (Z.of_nat n) [].
Definition fill (n : nat) : list call := map (fun i => CInsert (int_key i) (Z.of_nat i + 1)) (seq 0 n).
Definition int_table (n : nat) : res ks_hash :=
  c ← ks_hash_create KS_HASH_MODE_INT 17;
  match c with
  | (_, Some h) => r ← run_calls (fill n) h; Ok r.2
  | (_, None) => Err NullDeref
  end.

Lemma fill_cost n : calls_cost (fill n) = Z.of_nat n.
Proof.
  unfold fill. generalize 0%nat as a. induction n as [|n IH]; intros a; [done|].
  cbn [seq map calls_cost fold_right call_cost] in *. specialize (IH (S a)). unfold calls_cost in IH. lia.
Qed.

Lemma int_table_ok n : Z.of_nat n < 4294967296 ->
  exists h, int_table n = Ok h /\ h.(readers) = 0 /\
    holds KS_HASH_MODE_INT h (map_calls canon32 (fill n) ∅).2.
Proof.
  intros Hn. destruct (hash_create_holds KS_HASH_MODE_INT 17 eq_refl eq_refl) as (h0 & E0 & HA0).
  unfold int_table. rewrite E0. injection E0 as E0. cbn [mbind res_bind].
  assert (Hk : Forall (call_key (mode_dom KS_HASH_MODE_INT)) (fill n))
    by (apply Forall_map, Forall_true; by intros).
  destruct (run_calls_sim _ _ _ _ (fill n) h0 ∅ HA0) as (h & E & HA & _ & _ & Hr).
  - assert (entries h0 = []) as -> by (by subst h0). rewrite fill_cost. rewrite zlen_nil. lia.
  - exact Hk.
  - exists h. rewrite E. cbn [mbind res_bind snd]. split; [reflexivity|]. split; [by rewrite Hr; subst h0|exact HA].
Qed.

(** The bucket for key 1000 computed before the 36th insertion expands the table
    from 53 to 97 buckets. *)
Lemma ks_hash_insert_stale_index_witness :
  exists h h' hv, int_table 36 = Ok h /\ hash h (int_key 1000) = Ok hv /\ indexFor 53 hv <> indexFor 97 hv /\
    insert_locked h (int_key 1000) 5 0 None hv (indexFor 53 hv) = Ok ([], h') /\
    ks_hash_search h' (int_key 1000) false = Ok (0, h').
Proof.
  destruct (int_table_ok 36 eq_refl) as (h & Et & _ & HA).
  assert (Hc : exists hv, hash h (int_key 1000) = Ok hv /\ h.(tablelength) = 97 /\
    h.(entrycount) = 36 /\ h.(loadlimit) = 64 /\ indexFor 53 hv <> indexFor 97 hv).
  { assert (Hb : match int_table 36 with
      | Ok h => match hash h (int_key 1000) with
                | Ok hv => bool_decide (h.(tablelength) = 97 /\ h.(entrycount) = 36 /\ h.(loadlimit) = 64 /\
                           indexFor 53 hv <> indexFor 97 hv)
                | _ => false end
      | _ => false end = true) by (vm_compute; reflexivity).
    rewrite Et in Hb. destruct (hash h (int_key 1000)) as [hv|]; [|discriminate]. exists hv.
    apply bool_decide_eq_true in Hb. split; [exact eq_refl|exact Hb]. }
  destruct Hc as (hv & Hhv & Hl & Hn & Hll & Hne).
  destruct (ks_hash_insert_stale_index KS_HASH_MODE_INT h _ (int_key 1000) 5 hv (indexFor 53 hv) HA)
    as (h' & E1 & _ & _ & E2).
  - exact I.
  - exact Hhv.
  - vm_compute; reflexivity.
  - rewrite Hl. unfold indexFor. pose proof (Z.mod_pos_bound hv 53). lia.
  - rewrite Hl. exact Hne.
  - rewrite Hn, Hll. lia.
  - exists h, h', hv. split; [exact Et|]. split; [exact Hhv|]. split; [exact Hne|]. split; [exact E1|exact E2].
Defined.

Lemma ks_hash_iterates_witness :
  exists h h', int_table 3 = Ok h /\
    (r ← ks_hash_first h false; iterate (S (length (entries h))) r.2 r.1) = Ok (kv <$> entries h, h') /\
    entries h' = entries h /\ same_locks h h'.
Proof.
  destruct (int_table_ok 3 eq_refl) as (h & Et & Hr & Hw & _).
  destruct (ks_hash_iterates h false) as (h' & H).
  - split; [apply (w_ids _ _ _ h Hw)|apply (w_len _ _ _ h Hw)].
  - discriminate.
  - rewrite Hr. split; [discriminate|reflexivity].
  - exists h, h'. split; [exact Et|exact H].
Defined.

End Hash.
