(* ===== verification/Acl.v ===== *)
(** Access control lists (src/src/ks_acl.c): networks written as CIDR texts or
    as an address and a mask, and the verdict of a list on an address. *)
From S2P Require Import Prelude Str StrUtil Tokens.
Local Open Scope Z_scope.

Module Acl.
Import StrUtil.

(** ** Addresses *)

(** [AF_UNSPEC] is 0, what a zeroed node has. *)
Inductive family := AF_UNSPEC | AF_INET | AF_INET6.
#[global] Instance family_eq_dec : EqDecision family.
Proof. solve_decision. Defined.

(** The 16 bytes of the union; [v4] is the first four as a little-endian word. *)
Definition ks_ip_t := list Z.
Definition v4 (ip : ks_ip_t) : Z := nth 0 ip 0 + 256 * nth 1 ip 0 + 65536 * nth 2 ip 0 + 16777216 * nth 3 ip 0.
Definition set_v4 (x : Z) (ip : ks_ip_t) : ks_ip_t :=
  [x mod 256; x / 256 mod 256; x / 65536 mod 256; x / 16777216 mod 256] ++ drop 4 ip.
Definition htonl (x : Z) : Z :=
  16777216 * (x mod 256) + 65536 * (x / 256 mod 256) + 256 * (x / 65536 mod 256) + x / 16777216 mod 256.

Definition ks_test_subnet (ip net mask : Z) : bool :=
  if negb (mask =? 0) then Z.land net mask =? Z.land ip mask else if negb (net =? 0) then net =? ip else true.

(** The four 32-bit words, byte by byte. *)
Definition in6_and_mask (ip mask : ks_ip_t) : ks_ip_t := zip_with Z.land ip mask.
Definition in6_is_addr_unspecified (ip : ks_ip_t) : bool := forallb (Z.eqb 0) ip.

Definition ks_testv6_subnet (_ip _net _mask : ks_ip_t) : bool :=
  if negb (in6_is_addr_unspecified _mask) then bool_decide (in6_and_mask _net _mask = in6_and_mask _ip _mask)
  else if negb (in6_is_addr_unspecified _net) then bool_decide (_net = _ip) else true.

(** ** Lists *)

Record ks_network_node := Node {
  ip : ks_ip_t; mask : ks_ip_t; bits : Z; node_family : family; ok : bool; token : option (list Z); str : list Z }.

(** [nodes] from [node_head] on. *)
Record ks_network_list := List { nodes : list ks_network_node; default_type : bool; name : list Z }.

Definition ks_network_list_create (name : list Z) (default_type : bool) : ks_network_list := List [] default_type name.

(** The loop of both lookups; [test] is the family's. *)
Fixpoint validate_loop (test : ks_network_node -> bool) (nodes : list ks_network_node) (ok' : bool) (bits' : Z) (token' : option (list Z)) :
    bool * option (list Z) :=
  match nodes with
  | [] => (ok', token')
  | node :: nodes =>
    if (bits' <=? node.(bits)) && test node then validate_loop test nodes node.(ok) node.(bits) node.(token)
    else validate_loop test nodes ok' bits' token'
  end.

Definition test_ip6 (a : ks_ip_t) (node : ks_network_node) : bool :=
  negb (bool_decide (node.(node_family) = AF_INET)) && ks_testv6_subnet a node.(ip) node.(mask).
Definition test_ip (a : Z) (node : ks_network_node) : bool :=
  negb (bool_decide (node.(node_family) = AF_INET6)) && ks_test_subnet a (v4 node.(ip)) (v4 node.(mask)).

(** The verdict and [*token], which is left alone when no node decides. *)
Definition ks_network_list_validate_ip6_token (l : ks_network_list) (a : ks_ip_t) (token : option (list Z)) : bool * option (list Z) :=
  validate_loop (test_ip6 a) l.(nodes) l.(default_type) 0 token.
Definition ks_network_list_validate_ip_token (l : ks_network_list) (a : Z) (token : option (list Z)) : bool * option (list Z) :=
  validate_loop (test_ip a) l.(nodes) l.(default_type) 0 token.

(** [strncasecmp(ip_str, "::ffff:", 7)] *)
Definition ks_network_ipv4_mapped_ipv6_addr (ip_str : list Z) : option (list Z) :=
  if bool_decide (map Str.lower (take 7 ip_str) = bytes_of_string "::ffff:") then Some (drop 7 ip_str) else None.

(** The text in front of the first [c] and the text behind it. *)
Fixpoint cut (c : Z) (s : list Z) : option (list Z * list Z) :=
  match s with
  | [] => None
  | x :: s => if x =? c then Some ([], s) else option_map (fun r => (x :: r.1, r.2)) (cut c s)
  end.
Definition has (c : Z) (s : list Z) : bool := existsb (Z.eqb c) s.

(** [for (n=bits,i=0 ;i < 16; i++)] *)
Fixpoint mask6 (k : nat) (n : Z) : list Z :=
  match k with
  | O => []
  | S k => if 8 <=? n then 255 :: mask6 k (n - 8) else Z.land 255 (Z.lnot (Z.shiftr 255 n)) :: mask6 k 0
  end.

Definition mask4 (bits : Z) : res Z :=
  if 32 <=? bits then Err BadShift else Ok (Z.land 4294967295 (u32 (Z.lnot (Z.shiftr 4294967295 bits)))).

(** What goes wrong: [-1] and [-2]. *)
Inductive cidr := NoBits | BadBits | Cidr (ip mask : ks_ip_t) (bits : Z).

Section Net.
(** [inet_pton]: the bytes of an address, in network order; it writes nothing
    for a text that is none. [uninit]: what the locals hold before. *)
Context (inet_pton : family -> list Z -> option (list Z)) (uninit : ks_ip_t).

Definition ks_inet_pton (af : family) (host : list Z) (a : ks_ip_t) : ks_ip_t :=
  match inet_pton af host with Some b => b ++ drop (length b) a | None => a end.

(** Strings are given by their characters. The rest of [host] is not read. *)
Definition ks_parse_cidr (string : list Z) (ip mask : ks_ip_t) : res cidr :=
  host ← ks_copy_string (Some (replicate 128 0)) (Some (string ++ [0])) 127;
  host ← cstr (default [] (fst <$> host)) 0;
  match cut 47 host with
  | None => Ok NoBits
  | Some (host, bit_str) =>
    bits ← atoi bit_str;
    if has 58 string then
      if (bits <? 0) || (128 <? bits) then Ok BadBits
      else Ok (Cidr (ks_inet_pton AF_INET6 host ip) (mask6 16 bits) bits)
    else
      if (bits <? 0) || (32 <? bits) then Ok BadBits else
      let ip := ks_inet_pton AF_INET host ip in
      m ← mask4 bits;
      Ok (Cidr (set_v4 (htonl (v4 ip)) ip) (set_v4 m mask) bits)
  end.

Definition ks_network_list_perform_add_cidr_token (l : ks_network_list) (cidr_str : list Z) (ok : bool) (token : option (list Z)) :
    res (ks_status_t * ks_network_list) :=
  let cidr_str := default cidr_str (ks_network_ipv4_mapped_ipv6_addr cidr_str) in
  c ← ks_parse_cidr cidr_str uninit uninit;
  match c with
  | Cidr ip mask bits =>
    let node := Node ip mask bits (if has 58 cidr_str then AF_INET6 else AF_INET) ok
                  (match token with Some [] => None | _ => token end) cidr_str in
    Ok (KS_STATUS_SUCCESS, List (node :: l.(nodes)) l.(default_type) l.(name))
  | _ => Ok (KS_STATUS_GENERR, l)
  end.

(** [for (i = 0; i < argc; i++)] *)
Fixpoint add_each (m : list Z) (argv : list Z) (l : ks_network_list) (ok : bool) (token : option (list Z)) (status : ks_status_t) :
    res (ks_status_t * ks_network_list) :=
  match argv with
  | [] => Ok (status, l)
  | a :: argv =>
    s ← cstr m a;
    r ← ks_network_list_perform_add_cidr_token l s ok token;
    let '(this_status, l) := r in
    add_each m argv l ok token (if bool_decide (this_status = KS_STATUS_SUCCESS) then status else this_status)
  end.

Definition ks_network_list_add_cidr_token (l : ks_network_list) (cidr_str : list Z) (ok : bool) (token : option (list Z)) :
    res (ks_status_t * ks_network_list) :=
  if has 44 cidr_str then
    r ← Tokens.ks_separate_string (Some (cidr_str ++ [0])) 44 32;
    let '(m, argv) := r in add_each m argv l ok token KS_STATUS_SUCCESS
  else ks_network_list_perform_add_cidr_token l cidr_str ok token.

(** The number of ones in a 32-bit word. *)
Definition popcount (v : Z) : Z :=
  let v := u32 (v - Z.land (Z.shiftr v 1) 1431655765) in
  let v := u32 (Z.land v 858993459 + Z.land (Z.shiftr v 2) 858993459) in
  Z.shiftr (u32 (Z.land (u32 (v + Z.shiftr v 4)) 252645135 * 16843009)) 24.

(** A node is zeroed memory; its family stays 0. *)
Definition ks_network_list_add_host_mask (l : ks_network_list) (host mask_str : list Z) (ok : bool) : ks_network_list :=
  let ip := ks_inet_pton AF_INET host uninit in
  let mask := ks_inet_pton AF_INET mask_str uninit in
  let zero := replicate 16 0 in
  let node := Node (set_v4 (htonl (v4 ip)) zero) (set_v4 (htonl (v4 mask)) zero) (popcount (v4 mask)) AF_UNSPEC ok None
                (host ++ [58] ++ mask_str) in
  List (node :: l.(nodes)) l.(default_type) l.(name).

(** The address that [ip_str] writes, and whether it is one with colons. *)
Definition read_ip (ip_str : list Z) : bool * ks_ip_t :=
  match ks_network_ipv4_mapped_ipv6_addr ip_str with
  | None =>
    if has 58 ip_str then (true, ks_inet_pton AF_INET6 ip_str uninit)
    else (false, let ip := ks_inet_pton AF_INET ip_str uninit in set_v4 (htonl (v4 ip)) ip)
  | Some ipv4 => (false, let ip := ks_inet_pton AF_INET ipv4 uninit in set_v4 (htonl (v4 ip)) ip)
  end.

Definition ks_check_network_list_ip_cidr (ip_str cidr_str : list Z) : res bool :=
  let '(ipv6, ip) := read_ip ip_str in
  c ← ks_parse_cidr cidr_str uninit uninit;
  match c with
  | Cidr net mask bits => Ok (if ipv6 : bool then ks_testv6_subnet ip net mask else ks_test_subnet (v4 ip) (v4 net) (v4 mask))
  | _ => Ok false
  end.

Definition ks_check_network_list_ip_token (ip_str : list Z) (l : ks_network_list) (token : option (list Z)) : bool * option (list Z) :=
  let '(ipv6, ip) := read_ip ip_str in
  if ipv6 : bool then ks_network_list_validate_ip6_token l ip token else ks_network_list_validate_ip_token l (v4 ip) token.
End Net.

(** ** Addresses as numbers *)

(** The number that bytes in network order write. *)
Fixpoint be (l : list Z) : Z := match l with [] => 0 | b :: l => b * 2 ^ (8 * zlen l) + be l end.
Definition width (af : family) : Z := match af with AF_INET6 => 128 | _ => 32 end.

(** The ones among the low [n] bits. *)
Fixpoint ones (n : nat) (x : Z) : Z := match n with O => 0 | S n => x mod 2 + ones n (x / 2) end.

Lemma be_range l : all_bytes l -> 0 <= be l < 2 ^ (8 * zlen l).
Proof.
  induction 1 as [|b l Hb _ IH]; cbn [be]; [done|]. rewrite zlen_cons. pose proof (zlen_nonneg l).
  replace (8 * (zlen l + 1)) with (8 + 8 * zlen l) by lia. rewrite Z.pow_add_r by lia. unfold is_byte in Hb. change (2 ^ 8) with 256. nia.
Qed.

Lemma v4_set x ip : 0 <= x < 2 ^ 32 -> v4 (set_v4 x ip) = x.
Proof. intros H. cbv [v4 set_v4 nth app]. change (2 ^ 32) with 4294967296 in H. lia_div. Qed.

Lemma htonl_v4 b r : zlen b = 4 -> all_bytes b -> htonl (v4 (b ++ r)) = be b.
Proof.
  intros Hl Hb. destruct b as [|a [|b [|c [|d [|]]]]]; try (unfold zlen in Hl; simpl in Hl; lia). inv_Forall. unfold is_byte in *.
  cbv [be v4 htonl nth app zlen length]. change (2 ^ (8 * Z.of_nat 3)) with 16777216. change (2 ^ (8 * Z.of_nat 2)) with 65536.
  change (2 ^ (8 * Z.of_nat 1)) with 256. change (2 ^ (8 * Z.of_nat 0)) with 1. lia_div.
Qed.

Lemma below_range (P : Z -> bool) (n : nat) x : 0 <= x < Z.of_nat n -> forallb (fun i => P (Z.of_nat i)) (seq 0 n) = true -> P x = true.
Proof. intros Hx H. rewrite forallb_forall in H. rewrite <- (Z2Nat.id x) by lia. apply H, in_seq. lia. Qed.

(** Decide a statement about [x] in a small range by trying all of it. *)
Ltac try_all P n x := let H := fresh "Hall" in
  assert (H : P x = true); [apply (below_range P n x); [lia|vm_compute; reflexivity]|cbv beta in H].

(** ** The mask and the bits of an IPv4 network *)

Lemma mask4_spec n : 0 <= n < 32 -> mask4 n = Ok (2 ^ (32 - n) * (2 ^ n - 1)).
Proof.
  intros Hn. try_all (fun n => match mask4 n with Ok m => m =? 2 ^ (32 - n) * (2 ^ n - 1) | _ => false end) 32%nat n.
  destruct (mask4 n); [|done]. apply Z.eqb_eq in Hall. by subst.
Qed.

Lemma land_high k m x : 0 <= k -> 0 <= m -> 0 <= x < 2 ^ (k + m) -> Z.land x (2 ^ k * (2 ^ m - 1)) = 2 ^ k * (x / 2 ^ k).
Proof.
  intros Hk Hm Hx. rewrite Z.pow_add_r in Hx by done. rewrite (Z.div_mod x (2 ^ k)) at 1 by lia.
  rewrite (Z.add_comm (_ * _)), <- (Z.add_0_l (2 ^ k * (2 ^ m - 1))), land_join by (first [done | apply Z.mod_pos_bound; lia | lia]).
  rewrite Z.land_0_r. replace (2 ^ m - 1) with (Z.ones m) by (rewrite Z.ones_equiv; lia). rewrite Z.land_ones by done.
  rewrite Z.mod_small; [lia|]. split; [apply Z.div_pos; lia|apply Z.div_lt_upper_bound; lia].
Qed.

(** The first [n] bits agree; a network of no bits must be written as zero. *)
Lemma ks_test_subnet_spec a net n : 0 <= n <= 32 -> 0 <= a < 2 ^ 32 -> 0 <= net < 2 ^ 32 -> (n = 0 -> net = 0) ->
  ks_test_subnet a net (2 ^ (32 - n) * (2 ^ n - 1)) = bool_decide (a / 2 ^ (32 - n) = net / 2 ^ (32 - n)).
Proof.
  intros Hn Ha Hnet H0. unfold ks_test_subnet. destruct (decide (n = 0)) as [->|Hn0].
  - rewrite (H0 eq_refl). rewrite Z.div_small by done. reflexivity.
  - assert (1 < 2 ^ n) by (apply Z.pow_gt_1; lia). assert (0 < 2 ^ (32 - n)) by lia.
    destruct (Z.eqb_spec (2 ^ (32 - n) * (2 ^ n - 1)) 0); [nia|]. cbn [negb].
    rewrite !land_high by (first [lia | replace (32 - n + n) with 32 by lia; done]).
    destruct (Z.eqb_spec (2 ^ (32 - n) * (net / 2 ^ (32 - n))) (2 ^ (32 - n) * (a / 2 ^ (32 - n)))) as [E|E].
    + apply Z.mul_reg_l in E; [|lia]. by rewrite bool_decide_true.
    + rewrite bool_decide_false; [done|]. congruence.
Qed.

(** ** The mask and the bits of an IPv6 network *)

Lemma mask6_0 k : mask6 k 0 = replicate k 0.
Proof. induction k as [|k IH]; [done|]. cbn. by rewrite IH. Qed.

Lemma mask6_byte n x : 0 <= n < 8 -> is_byte x -> Z.land x (Z.land 255 (Z.lnot (Z.shiftr 255 n))) = 2 ^ (8 - n) * (x / 2 ^ (8 - n)).
Proof.
  intros Hn Hx. unfold is_byte in Hx.
  try_all (fun n => forallb (fun i => let x := Z.of_nat i in Z.land x (Z.land 255 (Z.lnot (Z.shiftr 255 n))) =? 2 ^ (8 - n) * (x / 2 ^ (8 - n))) (seq 0 256)) 8%nat n.
  rewrite forallb_forall in Hall. specialize (Hall (Z.to_nat x)). rewrite Z2Nat.id in Hall by lia. apply Z.eqb_eq, Hall, in_seq. lia.
Qed.

Lemma zip_zero l k : length l = k -> zip_with Z.land l (replicate k 0) = replicate k 0.
Proof. intros <-. induction l as [|x l IH]; [done|]. cbn. by rewrite Z.land_0_r, IH. Qed.

Lemma digit_eq (c q1 q2 x1 x2 : Z) : 0 <= q1 < c -> 0 <= q2 < c -> x1 * c + q1 = x2 * c + q2 <-> x1 = x2 /\ q1 = q2.
Proof. intros H1 H2. split; [|by intros [-> ->]]. intros E.
  assert (Ex : x1 = x2); [|subst; split; [done|lia]].
  assert (D : forall x q, 0 <= q < c -> (x * c + q) / c = x) by (intros x q Hq; rewrite Z.div_add_l, Z.div_small by lia; lia).
  rewrite <- (D x1 q1), <- (D x2 q2) by done. by rewrite E.
Qed.

Lemma be_high x l n : 0 <= n <= 8 * zlen l -> (x * 2 ^ (8 * zlen l) + be l) / 2 ^ n = x * 2 ^ (8 * zlen l - n) + be l / 2 ^ n.
Proof.
  intros Hn. replace (8 * zlen l) with ((8 * zlen l - n) + n) at 1 by lia. rewrite Z.pow_add_r by lia.
  rewrite Z.mul_assoc, Z.div_add_l by lia. done.
Qed.

Lemma be_div l n : all_bytes l -> 0 <= n <= 8 * zlen l -> 0 <= be l / 2 ^ n < 2 ^ (8 * zlen l - n).
Proof.
  intros Hl Hn. pose proof (be_range l Hl). split; [apply Z.div_pos; lia|]. apply Z.div_lt_upper_bound; [lia|].
  rewrite <- Z.pow_add_r by lia. replace (n + (8 * zlen l - n)) with (8 * zlen l) by lia. lia.
Qed.

Lemma mask6_spec : forall k n net a, length net = k -> length a = k -> all_bytes net -> all_bytes a -> 0 <= n <= 8 * Z.of_nat k ->
  zip_with Z.land net (mask6 k n) = zip_with Z.land a (mask6 k n) <->
  be net / 2 ^ (8 * Z.of_nat k - n) = be a / 2 ^ (8 * Z.of_nat k - n).
Proof.
  induction k as [|k IH]; intros n net a Hnet Ha Hbn Hba Hn.
  { by destruct net, a. }
  destruct net as [|x net], a as [|y a]; try discriminate. injection Hnet as Hnet. injection Ha as Ha.
  apply Forall_cons in Hbn as [Hx Hbn]. apply Forall_cons in Hba as [Hy Hba]. cbn [mask6 be].
  assert (En : zlen net = Z.of_nat k) by (unfold zlen; lia). assert (Ea : zlen a = Z.of_nat k) by (unfold zlen; lia).
  destruct (Z.leb_spec 8 n); cbn [zip_with].
  - replace (8 * Z.of_nat (S k) - n) with (8 * Z.of_nat k - (n - 8)) by lia. unfold is_byte in *.
    rewrite !be_high, En, Ea, digit_eq by (first [lia | rewrite <- ?En; apply be_div; [done|lia] | rewrite <- ?Ea; apply be_div; [done|lia]]).
    rewrite <- IH by (done || lia). change 255 with (Z.ones 8). rewrite !Z.land_ones, !Z.mod_small by (lia || done).
    split; [intros [=]; done|]. by intros [-> ->].
  - rewrite mask6_0, !zip_zero by done. rewrite !mask6_byte by (done || lia).
    replace (8 * Z.of_nat (S k) - n) with (8 * Z.of_nat k + (8 - n)) by lia. rewrite !Z.pow_add_r, <- !Z.div_div by lia.
    pose proof (be_range net Hbn) as Rn. pose proof (be_range a Hba) as Ra. rewrite En in *. rewrite Ea in *.
    rewrite !Z.div_add_l, (Z.div_small (be net)), (Z.div_small (be a)), !Z.add_0_r by lia.
    split; [|by intros ->]. intros [= E]. apply Z.mul_reg_l in E; [done|]. apply Z.pow_nonzero; lia.
Qed.

Lemma unspecified_mask n : 0 <= n <= 128 -> in6_is_addr_unspecified (mask6 16 n) = (n =? 0).
Proof. intros Hn. try_all (fun n => Bool.eqb (in6_is_addr_unspecified (mask6 16 n)) (n =? 0)) 129%nat n. by apply eqb_prop in Hall. Qed.

Lemma be_zero l : all_bytes l -> be l = 0 -> in6_is_addr_unspecified l = true.
Proof.
  induction 1 as [|b l Hb Hl IH]; [done|]. cbn [be]. intros E. pose proof (be_range l Hl). unfold is_byte in Hb.
  assert (b = 0) as -> by nia. cbn. apply IH. lia.
Qed.

Lemma ks_testv6_subnet_spec a net n : 0 <= n <= 128 -> length a = 16%nat -> length net = 16%nat -> all_bytes a -> all_bytes net ->
  (n = 0 -> be net = 0) -> ks_testv6_subnet a net (mask6 16 n) = bool_decide (be a / 2 ^ (128 - n) = be net / 2 ^ (128 - n)).
Proof.
  intros Hn Hla Hln Ha Hnet H0. unfold ks_testv6_subnet. rewrite unspecified_mask by done.
  destruct (Z.eqb_spec n 0) as [->|Hn0]; cbn [negb].
  - rewrite be_zero by auto. cbn [negb]. rewrite H0 by done. pose proof (be_range a Ha) as Hr. unfold zlen in Hr. rewrite Hla in Hr.
    by rewrite Z.div_small by exact Hr.
  - apply bool_decide_ext. pose proof (mask6_spec 16 n net a Hln Hla Hnet Ha Hn) as H. unfold in6_and_mask. rewrite H.
    change (8 * Z.of_nat 16) with 128. split; congruence.
Qed.

(** ** The ones of a word, four bytes at a time *)

Definition word (a b c d : Z) : Z := a + 2 ^ 8 * (b + 2 ^ 8 * (c + 2 ^ 8 * d)).

Lemma word_of x : 0 <= x < 2 ^ 32 -> exists a b c d, is_byte a /\ is_byte b /\ is_byte c /\ is_byte d /\ x = word a b c d.
Proof.
  intros Hx. change (2 ^ 32) with 4294967296 in Hx. exists (x mod 256), (x / 256 mod 256), (x / 65536 mod 256), (x / 16777216).
  unfold is_byte, word. change (2 ^ 8) with 256. repeat split; lia_div.
Qed.

Lemma land_word a b c d m : is_byte a -> is_byte b -> is_byte c -> is_byte d -> is_byte m ->
  Z.land (word a b c d) (word m m m m) = word (Z.land a m) (Z.land b m) (Z.land c m) (Z.land d m).
Proof. unfold is_byte, word. intros. by rewrite !land_join by (change (2 ^ 8) with 256; lia). Qed.

Lemma shift_word s a b c d : 0 <= s <= 8 -> is_byte a -> is_byte b -> is_byte c -> is_byte d ->
  Z.shiftr (word a b c d) s = word (a / 2 ^ s + 2 ^ (8 - s) * (b mod 2 ^ s)) (b / 2 ^ s + 2 ^ (8 - s) * (c mod 2 ^ s))
                                   (c / 2 ^ s + 2 ^ (8 - s) * (d mod 2 ^ s)) (d / 2 ^ s).
Proof.
  intros Hs Ha Hb Hc Hd. unfold word, is_byte in *. rewrite Z.shiftr_div_pow2 by lia.
  assert (E8 : 2 ^ 8 = 2 ^ (8 - s) * 2 ^ s) by (rewrite <- Z.pow_add_r by lia; f_equal; lia).
  assert (D : forall x y, (x + 2 ^ 8 * y) / 2 ^ s = x / 2 ^ s + 2 ^ (8 - s) * y).
  { intros x y. rewrite E8. replace (x + 2 ^ (8 - s) * 2 ^ s * y) with (x + 2 ^ (8 - s) * y * 2 ^ s) by lia. by rewrite Z.div_add by lia. }
  assert (M : forall x, x = 2 ^ s * (x / 2 ^ s) + x mod 2 ^ s) by (intros x; apply Z.div_mod; lia).
  rewrite D. rewrite (M b) at 1. rewrite (M c) at 1. rewrite (M d) at 1. rewrite E8. ring.
Qed.

(** What the three steps make of a byte. *)
Definition pairs (x : Z) : Z := x - Z.land (x / 2) 85.
Definition nibbles (x : Z) : Z := Z.land x 51 + Z.land (x / 4) 51.
Definition whole (x : Z) : Z := Z.land (x + x / 16) 15.

Lemma pairs_byte x e : is_byte x -> 0 <= e < 2 -> Z.land (x / 2 + 128 * e) 85 = Z.land (x / 2) 85 /\ 0 <= pairs x < 171 /\ Z.land (x / 2) 85 <= x.
Proof.
  unfold is_byte. intros Hx He. unfold pairs.
  try_all (fun x => forallb (fun e => (Z.land (x / 2 + 128 * e) 85 =? Z.land (x / 2) 85) && (0 <=? x - Z.land (x / 2) 85) && (x - Z.land (x / 2) 85 <? 171)) [0; 1]) 256%nat x.
  rewrite forallb_forall in Hall. specialize (Hall e). assert (Hi : In e [0; 1]) by (assert (e = 0 \/ e = 1) as [-> | ->] by lia; cbn; auto).
  specialize (Hall Hi). lia.
Qed.

Lemma nibbles_byte x e : is_byte x -> 0 <= e < 4 -> Z.land (x / 4 + 64 * e) 51 = Z.land (x / 4) 51 /\ 0 <= nibbles x < 256.
Proof.
  unfold is_byte. intros Hx He. unfold nibbles.
  try_all (fun x => forallb (fun e => (Z.land (x / 4 + 64 * e) 51 =? Z.land (x / 4) 51) && (0 <=? Z.land x 51 + Z.land (x / 4) 51) && (Z.land x 51 + Z.land (x / 4) 51 <? 256)) [0; 1; 2; 3]) 256%nat x.
  rewrite forallb_forall in Hall. specialize (Hall e).
  assert (Hi : In e [0; 1; 2; 3]) by (assert (e = 0 \/ e = 1 \/ e = 2 \/ e = 3) as [-> | [-> | [-> | ->]]] by lia; cbn; auto).
  specialize (Hall Hi). lia.
Qed.

(** A byte whose halves are at most 4. *)
Definition halves (z : Z) : Prop := 0 <= z /\ z mod 16 <= 4 /\ z / 16 <= 4.

Lemma ones_byte x : is_byte x -> whole (nibbles (pairs x)) = ones 8 x /\ 0 <= ones 8 x <= 8 /\ halves (nibbles (pairs x)).
Proof.
  unfold is_byte. intros Hx. try_all (fun x => let z := nibbles (pairs x) in (whole z =? ones 8 x) && (0 <=? ones 8 x) && (ones 8 x <=? 8) && (z mod 16 <=? 4) && (z / 16 <=? 4) && (0 <=? z)) 256%nat x.
  cbn zeta in *. unfold halves. lia.
Qed.

Lemma whole_carry z e : 0 <= z -> z mod 16 <= 4 -> z / 16 <= 4 -> 0 <= e <= 4 -> Z.land (z + (z / 16 + 16 * e)) 15 = whole z /\ z + (z / 16 + 16 * e) < 256.
Proof.
  intros H1 H2 H3 H4. unfold whole. change 15 with (Z.ones 4). rewrite !Z.land_ones by lia. change (2 ^ 4) with 16.
  split; [|lia_div]. replace (z + (z / 16 + 16 * e)) with (z + z / 16 + e * 16) by lia. by rewrite Z.mod_add by lia.
Qed.

Lemma ones_join n : forall k a y, 0 <= a < 2 ^ Z.of_nat k -> ones (k + n) (a + 2 ^ Z.of_nat k * y) = ones k a + ones n y.
Proof.
  induction k as [|k IH]; intros a y Ha.
  - replace (a + _) with y by (change (2 ^ Z.of_nat 0) with 1 in *; lia). done.
  - rewrite Nat2Z.inj_succ, Z.pow_succ_r in * by lia. cbn [Nat.add ones].
    replace ((a + 2 * 2 ^ Z.of_nat k * y) mod 2) with (a mod 2).
    2: { replace (a + 2 * 2 ^ Z.of_nat k * y) with (a + (2 ^ Z.of_nat k * y) * 2) by lia. by rewrite Z.mod_add. }
    replace ((a + 2 * 2 ^ Z.of_nat k * y) / 2) with (a / 2 + 2 ^ Z.of_nat k * y).
    2: { replace (a + 2 * 2 ^ Z.of_nat k * y) with (a + (2 ^ Z.of_nat k * y) * 2) by lia. by rewrite Z.div_add. }
    rewrite IH; lia_div.
Qed.

Lemma step_pairs a b c d : is_byte a -> is_byte b -> is_byte c -> is_byte d ->
  u32 (word a b c d - Z.land (Z.shiftr (word a b c d) 1) (word 85 85 85 85)) = word (pairs a) (pairs b) (pairs c) (pairs d) /\
  is_byte (pairs a) /\ is_byte (pairs b) /\ is_byte (pairs c) /\ is_byte (pairs d).
Proof.
  intros Ha Hb Hc Hd. rewrite shift_word by (done || lia). change (2 ^ 1) with 2. change (2 ^ (8 - 1)) with 128.
  assert (R : forall x, 0 <= x mod 2 < 2) by (intros x; apply Z.mod_pos_bound; lia).
  pose proof (pairs_byte a (b mod 2) Ha (R b)) as (Ea & Ra & Sa). pose proof (pairs_byte b (c mod 2) Hb (R c)) as (Eb & Rb & Sb).
  pose proof (pairs_byte c (d mod 2) Hc (R d)) as (Ec & Rc & Sc). pose proof (pairs_byte d 0 Hd ltac:(lia)) as (_ & Rd & Sd).
  pose proof (R b). pose proof (R c). pose proof (R d).
  rewrite land_word by (unfold is_byte in *; lia_div). rewrite Ea, Eb, Ec. unfold is_byte in *.
  split; [|lia]. rewrite u32_id; unfold word, pairs in *; change (2 ^ 8) with 256 in *; lia.
Qed.

Lemma step_nibbles a b c d : is_byte a -> is_byte b -> is_byte c -> is_byte d ->
  u32 (Z.land (word a b c d) (word 51 51 51 51) + Z.land (Z.shiftr (word a b c d) 2) (word 51 51 51 51)) = word (nibbles a) (nibbles b) (nibbles c) (nibbles d) /\
  is_byte (nibbles a) /\ is_byte (nibbles b) /\ is_byte (nibbles c) /\ is_byte (nibbles d).
Proof.
  intros Ha Hb Hc Hd. rewrite shift_word by (done || lia). change (2 ^ 2) with 4. change (2 ^ (8 - 2)) with 64.
  assert (R : forall x, 0 <= x mod 4 < 4) by (intros x; apply Z.mod_pos_bound; lia).
  pose proof (nibbles_byte a (b mod 4) Ha (R b)) as (Ea & Ra). pose proof (nibbles_byte b (c mod 4) Hb (R c)) as (Eb & Rb).
  pose proof (nibbles_byte c (d mod 4) Hc (R d)) as (Ec & Rc). pose proof (nibbles_byte d 0 Hd ltac:(lia)) as (_ & Rd).
  pose proof (R b). pose proof (R c). pose proof (R d).
  rewrite !land_word by (unfold is_byte in *; lia_div). rewrite Ea, Eb, Ec. unfold is_byte in *.
  split; [|done]. rewrite u32_id; unfold word, nibbles in *; change (2 ^ 8) with 256 in *; lia.
Qed.

Lemma step_whole a b c d : halves a -> halves b -> halves c -> halves d ->
  Z.land (u32 (word a b c d + Z.shiftr (word a b c d) 4)) (word 15 15 15 15) = word (whole a) (whole b) (whole c) (whole d).
Proof.
  intros (Ha & Ha1 & Ha2) (Hb & Hb1 & Hb2) (Hc & Hc1 & Hc2) (Hd & Hd1 & Hd2).
  assert (B : forall x, 0 <= x -> x mod 16 <= 4 -> x / 16 <= 4 -> is_byte x) by (unfold is_byte; intros; lia_div).
  rewrite shift_word by (auto || lia). change (2 ^ 4) with 16. change (2 ^ (8 - 4)) with 16.
  assert (R : forall x, 0 <= x mod 16) by (intros x; apply Z.mod_pos_bound; lia).
  destruct (whole_carry a (b mod 16)) as [Ea La]; [auto..|]. destruct (whole_carry b (c mod 16)) as [Eb Lb]; [auto..|].
  destruct (whole_carry c (d mod 16)) as [Ec Lc]; [auto..|]. destruct (whole_carry d 0) as [Ed Ld]; [auto with lia..|lia|].
  rewrite <- Ea, <- Eb, <- Ec, <- Ed, Z.mul_0_r, Z.add_0_r in *.
  pose proof (R b). pose proof (R c). pose proof (R d).
  rewrite u32_id by (unfold word; change (2 ^ 8) with 256; lia_div).
  rewrite <- land_word by (unfold is_byte; lia_div). f_equal. unfold word. ring.
Qed.

(** The number of ones that [ks_network_list_add_host_mask] takes as the bits. *)
Lemma popcount_ones x : 0 <= x < 2 ^ 32 -> popcount x = ones 32 x.
Proof.
  intros Hx. destruct (word_of x Hx) as (a & b & c & d & Ha & Hb & Hc & Hd & ->). unfold popcount.
  change 1431655765 with (word 85 85 85 85). change 858993459 with (word 51 51 51 51). change 252645135 with (word 15 15 15 15).
  destruct (step_pairs a b c d) as (-> & Ha1 & Hb1 & Hc1 & Hd1); [done..|].
  destruct (step_nibbles (pairs a) (pairs b) (pairs c) (pairs d)) as (-> & Ha2 & Hb2 & Hc2 & Hd2); [done..|].
  rewrite step_whole by (by apply ones_byte).
  pose proof (ones_byte a Ha) as (Ea & Ra & _). pose proof (ones_byte b Hb) as (Eb & Rb & _). pose proof (ones_byte c Hc) as (Ec & Rc & _).
  pose proof (ones_byte d Hd) as (Ed & Rd & _). rewrite Ea, Eb, Ec, Ed. unfold word, is_byte in *.
  change 32%nat with (8 + (8 + (8 + 8)))%nat. change (2 ^ 8) with (2 ^ Z.of_nat 8). rewrite !ones_join by (change (2 ^ Z.of_nat 8) with 256; lia).
  revert Ra Rb Rc Rd. generalize (ones 8 a), (ones 8 b), (ones 8 c), (ones 8 d). clear. intros p q r s Hp Hq Hr Hs.
  unfold u32. rewrite Z.shiftr_div_pow2 by lia. change (2 ^ Z.of_nat 8) with 256. change (2 ^ 8) with 256. change (2 ^ 24) with 16777216.
  replace ((p + 256 * (q + 256 * (r + 256 * s))) * 16843009) with
    ((p + (p + q) * 256 + (p + q + r) * 65536 + (p + q + r + s) * 16777216) + ((q + r + s) + (r + s) * 256 + s * 65536) * 4294967296) by lia.
  rewrite Z.mod_add, Z.mod_small by lia. rewrite Z.div_add, Z.div_small by lia. lia.
Qed.

(** ** Networks, entries and texts *)

(** A network, the bytes of its address, and its text. *)
Record network := Net { n_family : family; n_host : list Z; n_addr : list Z; n_bits : Z }.
Definition net_text (c : network) : list Z := c.(n_host) ++ 47 :: decimal 20 c.(n_bits) [].

(** One call: networks (joined by commas), allowed or denied, with a token. *)
Record entry := Entry { e_nets : list network; e_ok : bool; e_token : option (list Z) }.
Definition rule : Type := network * bool * option (list Z).
Definition rules (es : list entry) : list rule := concat (map (fun e => map (fun c => (c, e.(e_ok), e.(e_token))) e.(e_nets)) es).

Section Verdict.
Context (inet_pton : family -> list Z -> option (list Z)) (uninit : ks_ip_t).

(** [host] writes the address [a]: no special characters, a colon only with
    IPv6, not the mapped form. *)
Definition is_host (af : family) (host a : list Z) : Prop :=
  Forall (fun c => Tokens.is_plain 44 c /\ c <> 47) host /\ has 58 host = bool_decide (af = AF_INET6) /\ af <> AF_UNSPEC /\
  ks_network_ipv4_mapped_ipv6_addr host = None /\ inet_pton af host = Some a /\ all_bytes a /\ 8 * zlen a = width af.

(** An address asked for: as it is, or IPv4 mapped into IPv6. *)
Definition is_query (af : family) (text a : list Z) : Prop :=
  is_host af text a \/ af = AF_INET /\ exists host, text = bytes_of_string "::ffff:" ++ host /\ is_host AF_INET host a.

(** A network of no bits is only the one of address zero, 32 bits of IPv4 are a
    shift by the width; the text must fit into [host]. *)
Definition net_ok (c : network) : Prop :=
  is_host c.(n_family) c.(n_host) c.(n_addr) /\ 0 <= c.(n_bits) <= width c.(n_family) /\ (c.(n_family) = AF_INET -> c.(n_bits) < 32) /\
  (c.(n_bits) = 0 -> be c.(n_addr) = 0) /\ zlen c.(n_host) <= 120.
Definition entry_ok (e : entry) : Prop := e.(e_nets) <> [] /\ (length e.(e_nets) <= 32)%nat /\ Forall net_ok e.(e_nets).

Fixpoint add_all (l : ks_network_list) (es : list entry) : res (list ks_status_t * ks_network_list) :=
  match es with
  | [] => Ok ([], l)
  | e :: es =>
    r ← ks_network_list_add_cidr_token inet_pton uninit l (Tokens.join 44 (map net_text e.(e_nets))) e.(e_ok) e.(e_token);
    r' ← add_all r.2 es; Ok (r.1 :: r'.1, r'.2)
  end.

(** The network of the rule contains the address: the same first bits. *)
Definition contains (af : family) (a : list Z) (r : rule) : Prop :=
  let c := r.1.1 in c.(n_family) = af /\ be a / 2 ^ (width af - c.(n_bits)) = be c.(n_addr) / 2 ^ (width af - c.(n_bits)).
Definition rule_bits (r : rule) : Z := r.1.1.(n_bits).
Definition rule_ok (r : rule) : bool := r.1.2.
Definition rule_token (r : rule) : option (list Z) := match r.2 with Some [] => None | t => t end.

(** ** What the texts are read as *)

Lemma cut_app c a b : Forall (fun x => x <> c) a -> cut c (a ++ c :: b) = Some (a, b).
Proof.
  induction 1 as [|x a Hx _ IH]; cbn [app cut]; [by rewrite Z.eqb_refl|]. destruct (Z.eqb_spec x c); [done|]. by rewrite IH.
Qed.

Lemma has_app c a b : has c (a ++ b) = has c a || has c b.
Proof. apply existsb_app. Qed.

Lemma has_none c a : Forall (fun x => x <> c) a -> has c a = false.
Proof. induction 1 as [|x a Hx _ IH]; [done|]. cbn. destruct (Z.eqb_spec c x); [congruence|done]. Qed.

Lemma bits_text n : 0 <= n <= 128 -> atoi (decimal 20 n []) = Ok n /\ zlen (decimal 20 n []) <= 3 /\
  Forall (fun c => 48 <= c <= 57) (decimal 20 n []).
Proof.
  intros Hn. try_all (fun n => match atoi (decimal 20 n []) with Ok m => m =? n | _ => false end && (zlen (decimal 20 n []) <=? 3) &&
    forallb (fun c => (48 <=? c) && (c <=? 57)) (decimal 20 n [])) 129%nat n.
  apply andb_true_iff in Hall as [H H3]. apply andb_true_iff in H as [H1 H2]. destruct (atoi _) as [m|]; [|done].
  split; [f_equal; lia|]. split; [lia|]. rewrite forallb_forall in H3. apply Forall_forall. intros c Hc. apply list_elem_of_In, H3 in Hc. lia.
Qed.

Lemma text_plain c : net_ok c -> Tokens.plain_field 44 (net_text c) /\ zlen (net_text c) < 126 /\ has 44 (net_text c) = false /\
  has 58 (net_text c) = bool_decide (n_family c = AF_INET6) /\ ks_network_ipv4_mapped_ipv6_addr (net_text c) = None.
Proof.
  intros ((Hh & H58 & Hf & Hm & _) & Hn & H32 & _ & Hl). destruct (bits_text (n_bits c)) as (_ & Hz & Hd); [destruct (n_family c); cbn in Hn; lia|].
  unfold net_text. set (ds := decimal 20 (n_bits c) []) in *.
  assert (Hds : Forall (fun c => Tokens.is_plain 44 c /\ c <> 58) (47 :: ds)).
  { constructor; [by repeat split|]. eapply Forall_impl; [exact Hd|]. intros x Hx. cbv beta in Hx. unfold Tokens.is_plain, Tokens.ESCAPE_META, Tokens.quote. lia. }
  assert (Hall : Forall (Tokens.is_plain 44) (n_host c ++ 47 :: ds)).
  { apply Forall_app. split; eapply Forall_impl; [exact Hh|by intros x []|exact Hds|by intros x []]. }
  split; [split; [by destruct (n_host c)|done]|]. split; [rewrite zlen_app, zlen_cons; lia|].
  split; [apply has_none; eapply Forall_impl; [exact Hall|]; by intros x (_ & H & _)|].
  split; [rewrite has_app, H58, (has_none 58 (47 :: ds)), orb_false_r; [done|]; eapply Forall_impl; [exact Hds|]; by intros x []|].
  unfold ks_network_ipv4_mapped_ipv6_addr in *. destruct (bool_decide_reflect (map Str.lower (take 7 (n_host c)) = bytes_of_string "::ffff:")) as [|Hne]; [done|].
  rewrite bool_decide_false; [done|]. intros E. apply Hne. destruct (decide (7 <= length (n_host c))%nat); [by rewrite take_app_le in E by lia|].
  exfalso. rewrite take_app_ge, map_app in E by lia. assert (E47 : has 47 (bytes_of_string "::ffff:") = true); [|discriminate E47].
  rewrite <- E, has_app. replace (7 - length (n_host c))%nat with (S (6 - length (n_host c))) by lia. cbn [take map].
  change (Str.lower 47) with 47. cbn. apply orb_true_r.
Qed.

(** ** Adding a network *)

(** The node that a rule becomes. *)
Definition built (r : rule) (n : ks_network_node) : Prop :=
  let c := r.1.1 in n.(node_family) = c.(n_family) /\ n.(bits) = c.(n_bits) /\ n.(ok) = rule_ok r /\ n.(token) = rule_token r /\
  match c.(n_family) with
  | AF_INET6 => n.(ip) = c.(n_addr) /\ n.(mask) = mask6 16 c.(n_bits)
  | _ => v4 n.(ip) = be c.(n_addr) /\ v4 n.(mask) = 2 ^ (32 - c.(n_bits)) * (2 ^ c.(n_bits) - 1)
  end.

Lemma pton_16 af host a : zlen uninit = 16 -> is_host af host a -> zlen a = 16 -> ks_inet_pton inet_pton af host uninit = a.
Proof.
  intros Hu (_ & _ & _ & _ & E & _) Ha. unfold ks_inet_pton. rewrite E, drop_ge, app_nil_r; [done|]. unfold zlen in *. lia.
Qed.

Lemma pton_4 host a : is_host AF_INET host a -> htonl (v4 (ks_inet_pton inet_pton AF_INET host uninit)) = be a /\ 0 <= be a < 2 ^ 32.
Proof.
  intros (_ & _ & _ & _ & E & Hb & Hw). cbn in Hw. assert (Ha : zlen a = 4) by lia. unfold ks_inet_pton. rewrite E, htonl_v4 by done.
  split; [done|]. pose proof (be_range a Hb) as H. by rewrite Ha in H.
Qed.

Lemma parse_text c : zlen uninit = 16 -> net_ok c -> exists i m, ks_parse_cidr inet_pton (net_text c) uninit uninit = Ok (Cidr i m c.(n_bits)) /\
  match c.(n_family) with
  | AF_INET6 => i = c.(n_addr) /\ m = mask6 16 c.(n_bits)
  | _ => v4 i = be c.(n_addr) /\ v4 m = 2 ^ (32 - c.(n_bits)) * (2 ^ c.(n_bits) - 1)
  end.
Proof.
  intros Hu Hc. destruct (text_plain c Hc) as ((_ & Hp) & Hl & _ & H58 & _). destruct Hc as (Hh & Hn & H32 & H0 & _).
  assert (Hnn : no_nul (net_text c)) by (eapply Forall_impl; [exact Hp|]; by intros x (H & _)).
  unfold ks_parse_cidr. rewrite (copy_string_fits _ (net_text c) []) by (done || lia). cbn [mbind res_bind option_fmap option_map fmap fst default].
  unfold default, id. rewrite cstr_full by done. cbn [mbind res_bind]. unfold net_text at 1.
  rewrite cut_app by (destruct Hh as (Hh & _); eapply Forall_impl; [exact Hh|]; by intros x []).
  destruct (bits_text (n_bits c)) as (-> & _ & _); [destruct (n_family c); cbn in Hn; lia|]. cbn [mbind res_bind]. rewrite H58.
  destruct (n_family c) eqn:Ef; [by destruct Hh as (_ & _ & Hh & _)| |]; cbn [width] in Hn.
  - rewrite bool_decide_false by done. destruct (Z.ltb_spec (n_bits c) 0); [lia|]. destruct (Z.ltb_spec 32 (n_bits c)); [lia|]. cbn [orb].
    rewrite mask4_spec by (specialize (H32 eq_refl); lia). cbn [mbind res_bind]. eexists _, _. split; [reflexivity|].
    destruct (pton_4 _ _ Hh) as [-> Hr]. rewrite !v4_set; [done| |done].
    assert (0 < 2 ^ n_bits c) by lia. assert (2 ^ (32 - n_bits c) * 2 ^ n_bits c = 2 ^ 32) by (rewrite <- Z.pow_add_r by lia; f_equal; lia). nia.
  - rewrite bool_decide_true by done. destruct (Z.ltb_spec (n_bits c) 0); [lia|]. destruct (Z.ltb_spec 128 (n_bits c)); [lia|]. cbn [orb].
    eexists _, _. split; [reflexivity|]. split; [|done]. apply pton_16; [done|done|]. destruct Hh as (_ & _ & _ & _ & _ & _ & Hw). cbn in Hw. lia.
Qed.

Lemma perform_add c o t l : zlen uninit = 16 -> net_ok c -> exists n, built (c, o, t) n /\
  ks_network_list_perform_add_cidr_token inet_pton uninit l (net_text c) o t = Ok (KS_STATUS_SUCCESS, List (n :: l.(nodes)) l.(default_type) l.(name)).
Proof.
  intros Hu Hc. destruct (text_plain c Hc) as (_ & _ & _ & H58 & Hm). destruct (parse_text c Hu Hc) as (i & m & E & Him).
  unfold ks_network_list_perform_add_cidr_token. rewrite Hm. cbn [default]. unfold id. rewrite E. cbn [mbind res_bind].
  eexists. split; [|reflexivity]. unfold built. cbn [fst snd node_family bits ok token ip mask]. rewrite H58. split; [|split; [done|]; split; [done|]; split; [by destruct t as [[]|]|exact Him]].
  destruct Hc as ((_ & _ & Hf & _) & _). by destruct (n_family c).
Qed.
Lemma add_each_run o t : zlen uninit = 16 -> forall cs m argv l, Forall net_ok cs -> Forall2 (fun a f => cstr m a = Ok f) argv (map net_text cs) ->
  exists ns, Forall2 built (map (fun c => (c, o, t)) cs) ns /\
  add_each inet_pton uninit m argv l o t KS_STATUS_SUCCESS = Ok (KS_STATUS_SUCCESS, List (rev ns ++ l.(nodes)) l.(default_type) l.(name)).
Proof.
  intros Hu. induction cs as [|c cs IH]; intros m argv l Hcs Hargv; cbn [map] in *; inversion Hargv as [|a f argv' fs Ha Hargv']; subst.
  { exists []. split; [constructor|]. by destruct l. }
  apply Forall_cons in Hcs as [Hc Hcs]. destruct (perform_add c o t l Hu Hc) as (n & Hn & E).
  destruct (IH m argv' (List (n :: l.(nodes)) l.(default_type) l.(name)) Hcs Hargv') as (ns & Hns & E').
  exists (n :: ns). split; [by constructor|]. cbn [add_each]. rewrite Ha. cbn [mbind res_bind]. rewrite E. cbn [mbind res_bind].
  rewrite bool_decide_true, E' by done. cbn [nodes default_type name rev]. by rewrite <- app_assoc.
Qed.

Lemma add_entry e l : zlen uninit = 16 -> entry_ok e ->
  exists ns, Forall2 built (map (fun c => (c, e.(e_ok), e.(e_token))) e.(e_nets)) ns /\
  ks_network_list_add_cidr_token inet_pton uninit l (Tokens.join 44 (map net_text e.(e_nets))) e.(e_ok) e.(e_token) =
    Ok (KS_STATUS_SUCCESS, List (rev ns ++ l.(nodes)) l.(default_type) l.(name)).
Proof.
  intros Hu (Hne & Hlen & Hok). destruct e as [cs o t]. cbn [e_nets e_ok e_token] in *. unfold ks_network_list_add_cidr_token.
  destruct cs as [|c [|c' cs]]; [done| |].
  - apply Forall_cons in Hok as [Hc _]. destruct (text_plain c Hc) as (_ & _ & H44 & _). destruct (perform_add c o t l Hu Hc) as (n & Hn & E).
    exists [n]. split; [by apply Forall2_cons|]. cbn [map Tokens.join]. rewrite H44. exact E.
  - set (fs := map net_text (c :: c' :: cs)). assert (H44 : has 44 (Tokens.join 44 fs) = true).
    { cbn [fs map Tokens.join]. rewrite has_app. cbn. apply orb_true_r. }
    rewrite H44. destruct (Tokens.separate_join 44 32 fs) as (m & argv & E & Hargv); try done.
    { unfold fs. apply Forall_map. eapply Forall_impl; [exact Hok|]. intros x Hx. by apply text_plain. }
    { unfold fs. by rewrite length_map. }
    change (Z.of_nat 32) with 32 in E. rewrite E. cbn [mbind res_bind]. by apply add_each_run.
Qed.

Lemma add_all_run : zlen uninit = 16 -> forall es l, Forall entry_ok es ->
  exists ns, Forall2 built (rules es) ns /\
  add_all l es = Ok (replicate (length es) KS_STATUS_SUCCESS, List (rev ns ++ l.(nodes)) l.(default_type) l.(name)).
Proof.
  intros Hu. induction es as [|e es IH]; intros l Hes; [exists []; split; [constructor|by destruct l]|].
  apply Forall_cons in Hes as [He Hes]. destruct (add_entry e l Hu He) as (ns1 & H1 & E1).
  destruct (IH (List (rev ns1 ++ l.(nodes)) l.(default_type) l.(name)) Hes) as (ns2 & H2 & E2).
  exists (ns1 ++ ns2). split; [unfold rules; cbn; by apply Forall2_app|]. cbn [add_all]. rewrite E1. cbn [mbind res_bind snd fst]. rewrite E2.
  cbn [mbind res_bind snd fst nodes default_type name length replicate]. by rewrite rev_app_distr, <- app_assoc.
Qed.

(** ** The verdict *)

Lemma validate_loop_spec test : forall ns ok' bits' token',
  (exists n1 n n2, ns = n1 ++ n :: n2 /\ test n = true /\ bits' <= bits n /\
     Forall (fun m => test m = true -> bits m <= bits n) n1 /\ Forall (fun m => test m = true -> bits m < bits n) n2 /\
     validate_loop test ns ok' bits' token' = (ok n, token n)) \/
  Forall (fun m => test m = true -> bits m < bits') ns /\ validate_loop test ns ok' bits' token' = (ok', token').
Proof.
  induction ns as [|m ns IH]; intros ok' bits' token'; cbn [validate_loop]; [right; split; [constructor|done]|].
  destruct (Z.leb_spec bits' (bits m)); cbn [andb]; [destruct (test m) eqn:Em|].
  - left. destruct (IH (ok m) (bits m) (token m)) as [(n1 & n & n2 & -> & Hn & Hb & H1 & H2 & E)|[Hf E]].
    + exists (m :: n1), n, n2. split; [done|]. split; [done|]. split; [lia|]. split; [by constructor|]. by split.
    + exists [], m, ns. split; [done|]. split; [done|]. split; [done|]. split; [constructor|]. by split.
  - destruct (IH ok' bits' token') as [(n1 & n & n2 & -> & Hn & Hb & H1 & H2 & E)|[Hf E]]; [left|right; split; [constructor; [congruence|done]|done]].
    exists (m :: n1), n, n2. split; [done|]. split; [done|]. split; [done|]. split; [constructor; [congruence|done]|]. by split.
  - destruct (IH ok' bits' token') as [(n1 & n & n2 & -> & Hn & Hb & H1 & H2 & E)|[Hf E]]; [left|right; split; [constructor; [lia|done]|done]].
    exists (m :: n1), n, n2. split; [done|]. split; [done|]. split; [done|]. split; [constructor; [lia|done]|]. by split.
Qed.

(** Testing an address against the node of a rule. *)
Lemma test_built af a r n : net_ok r.1.1 -> built r n -> all_bytes a -> 8 * zlen a = width af -> af <> AF_UNSPEC ->
  (if decide (af = AF_INET6) then test_ip6 a n else test_ip (be a) n) = true <-> contains af a r.
Proof.
  intros (Hh & Hn & _ & H0 & _) (Ef & Eb & _ & _ & Him) Ha Hw Haf. destruct r as [[c o] t]. unfold contains. cbn [fst] in *.
  destruct Hh as (_ & _ & Hcf & _ & _ & Hcb & Hcw). pose proof (be_range a Ha) as Ra. pose proof (be_range _ Hcb) as Rc. rewrite Hw in Ra. rewrite Hcw in Rc.
  unfold test_ip, test_ip6. rewrite Ef. destruct (n_family c) eqn:Ec, af; cbn in Haf, Hcf; try done; cbn [width] in *.
  all: destruct (decide _); try done; cbn [negb bool_decide decide].
  - destruct Him as [-> ->]. rewrite ks_test_subnet_spec by (done || lia). rewrite bool_decide_false by done. cbn [negb andb]. rewrite bool_decide_eq_true. split; [done|by intros [_ ?]].
  - rewrite bool_decide_true by done. split; [discriminate|by intros [? _]].
  - rewrite bool_decide_true by done. split; [discriminate|by intros [? _]].
  - destruct Him as [-> ->]. rewrite ks_testv6_subnet_spec by (first [done | unfold zlen in *; lia]). rewrite bool_decide_false by done. cbn [negb andb].
    rewrite bool_decide_eq_true. split; [done|by intros [_ ?]].
Qed.

Lemma read_query af text a : zlen uninit = 16 -> is_query af text a -> all_bytes a /\ 8 * zlen a = width af /\ af <> AF_UNSPEC /\
  match af with
  | AF_INET6 => read_ip inet_pton uninit text = (true, a)
  | _ => exists i, read_ip inet_pton uninit text = (false, i) /\ v4 i = be a
  end.
Proof.
  intros Hu [Hh|[-> (host & -> & Hh)]]; pose proof Hh as (_ & H58 & Hf & Hm & _ & Ha & Hw); (split; [done|]); (split; [done|]); (split; [done|]); unfold read_ip.
  - rewrite Hm, H58. destruct af; [done| |].
    + rewrite bool_decide_false by done. eexists. split; [reflexivity|]. destruct (pton_4 _ _ Hh) as [-> Hr]. by apply v4_set.
    + rewrite bool_decide_true by done. rewrite (pton_16 _ _ a); [done|done|done|]. cbn in Hw. lia.
  - change (ks_network_ipv4_mapped_ipv6_addr (bytes_of_string "::ffff:" ++ host)) with (Some host).
    eexists. split; [reflexivity|]. destruct (pton_4 _ _ Hh) as [-> Hr]. by apply v4_set.
Qed.

(** What decides an address: the first rule among those with the most bits of
    the ones that contain it; else the default. *)
Definition decided (af : family) (a : list Z) (rs : list rule) (default : bool) (token0 : option (list Z)) (r : bool * option (list Z)) : Prop :=
  (exists rs1 r0 rs2, rs = rs1 ++ r0 :: rs2 /\ contains af a r0 /\ Forall (fun r' => contains af a r' -> rule_bits r' < rule_bits r0) rs1 /\
     Forall (fun r' => contains af a r' -> rule_bits r' <= rule_bits r0) rs2 /\ r = (rule_ok r0, rule_token r0)) \/
  (Forall (fun r' => ~ contains af a r') rs /\ r = (default, token0)).

Lemma rules_ok es : Forall entry_ok es -> Forall (fun r : rule => net_ok r.1.1) (rules es).
Proof.
  induction 1 as [|e es (_ & _ & He) _ IH]; [constructor|]. unfold rules. cbn. apply Forall_app. split; [|done].
  apply Forall_map. by eapply Forall_impl; [exact He|].
Qed.

Lemma built_Forall (P : rule -> Prop) (Q : ks_network_node -> Prop) rs ns : Forall2 built rs ns -> Forall (fun r : rule => net_ok r.1.1) rs ->
  (forall r n, built r n -> net_ok r.1.1 -> Q n -> P r) -> Forall Q ns -> Forall P rs.
Proof.
  intros H Hok HPQ HQ. induction H as [|r n rs ns Hb _ IH]; [constructor|]. apply Forall_cons in Hok as [Hr Hok]. apply Forall_cons in HQ as [Hq HQ].
  constructor; [by apply (HPQ r n)|by apply IH].
Qed.

Lemma decided_loop test af a rs ns dflt token0 : Forall2 built rs ns -> Forall (fun r : rule => net_ok r.1.1) rs ->
  (forall r n, built r n -> net_ok r.1.1 -> test n = true <-> contains af a r) ->
  decided af a rs dflt token0 (validate_loop test (rev ns) dflt 0 token0).
Proof.
  intros Hb Hok Ht. assert (Hbits : forall r n, built r n -> bits n = rule_bits r) by (by intros r n (_ & E & _)).
  destruct (validate_loop_spec test (rev ns) dflt 0 token0) as [(n1 & n & n2 & En & Hn & _ & H1 & H2 & ->)|[Hf ->]].
  - left. apply (f_equal (@rev _)) in En. rewrite rev_involutive, rev_app_distr in En. cbn [rev] in En. rewrite <- app_assoc in En. cbn [app] in En. subst ns.
    apply Forall2_app_inv_r in Hb as (rs1 & rs' & Hb1 & Hb' & ->). inversion Hb' as [|r0 ? rs2 ? Hr Hb2]; subst.
    apply Forall_app in Hok as [Hok1 Hok2]. apply Forall_cons in Hok2 as [Hok0 Hok2]. apply Forall_rev in H1, H2.
    exists rs1, r0, rs2. split; [done|]. split; [by apply (Ht r0 n)|].
    split; [|split; [|destruct Hr as (_ & _ & Eo & Et & _); congruence]].
    + refine (built_Forall _ _ _ _ Hb1 Hok1 _ H2). intros r' n' Hb0 Hr' Hn' Hc. rewrite <- (Hbits _ _ Hb0), <- (Hbits _ _ Hr). by apply Hn', (Ht r' n').
    + refine (built_Forall _ _ _ _ Hb2 Hok2 _ H1). intros r' n' Hb0 Hr' Hn' Hc. rewrite <- (Hbits _ _ Hb0), <- (Hbits _ _ Hr). by apply Hn', (Ht r' n').
  - right. split; [|done]. apply Forall_rev in Hf. rewrite rev_involutive in Hf. refine (built_Forall _ _ _ _ Hb Hok _ Hf).
    intros r' n' Hb0 Hr' Hn' Hc. pose proof (Hbits _ _ Hb0) as E. assert (bits n' < 0) by (by apply Hn', (Ht r' n')).
    destruct Hr' as (_ & Hr' & _). unfold rule_bits in E. lia.
Qed.
End Verdict.

(** C27: take a list built from the creation by calls of [ks_network_list_add_cidr_token] alone, each with one to
    32 networks of either family joined by commas, allowing or denying, with or without a token. All calls succeed,
    and for an address - of either family, or an IPv4 address mapped into IPv6 - the list answers by the most
    specific network that contains it, of equals the one added first, with that network's token; by its default
    when there is none. To contain is to have the same first bits as numbers. The networks are well written
    ([net_ok]): an address, a number of bits of its family - below 32 for IPv4, where 32 is a shift by the width
    ([parse_cidr_32]), and 0 only for the address zero ([cidr_zero_bits]) - in at most 120 characters of address.
    Nodes of [ks_network_list_add_host_mask] are not among them ([host_mask_any_family]). *)
Theorem acl_longest_prefix inet_pton uninit list_name dflt es af text a token0 :
  zlen uninit = 16 -> Forall (entry_ok inet_pton) es -> is_query inet_pton af text a ->
  exists l, add_all inet_pton uninit (ks_network_list_create list_name dflt) es = Ok (replicate (length es) KS_STATUS_SUCCESS, l) /\
    decided af a (rules es) dflt token0 (ks_check_network_list_ip_token inet_pton uninit text l token0).
Proof.
  intros Hu Hes Hq. destruct (add_all_run inet_pton uninit Hu es (ks_network_list_create list_name dflt) Hes) as (ns & Hb & E).
  eexists. split; [exact E|]. destruct (read_query inet_pton uninit af text a Hu Hq) as (Ha & Hw & Hf & Hr).
  unfold ks_check_network_list_ip_token. pose proof (rules_ok inet_pton es Hes) as Hok. cbn [nodes default_type ks_network_list_create]. rewrite app_nil_r.
  pose proof (fun r n => test_built inet_pton af a r n) as Ht.
  destruct af; [done| |]; destruct (decide _) as [?|?] in Ht; try done.
  - destruct Hr as (i & -> & ->). apply (decided_loop inet_pton); auto.
  - rewrite Hr. apply (decided_loop inet_pton); auto.
Qed.

(** ** An address and a mask *)

Lemma ones_word a b c d : is_byte a -> is_byte b -> is_byte c -> is_byte d -> ones 32 (word a b c d) = ones 8 a + ones 8 b + ones 8 c + ones 8 d.
Proof.
  unfold is_byte, word. intros. change 32%nat with (8 + (8 + (8 + 8)))%nat. change (2 ^ 8) with (2 ^ Z.of_nat 8).
  rewrite !ones_join by (change (2 ^ Z.of_nat 8) with 256; lia). lia.
Qed.

Lemma pton_word inet_pton uninit host m : is_host inet_pton AF_INET host m ->
  exists a b c d, is_byte a /\ is_byte b /\ is_byte c /\ is_byte d /\ be m = word d c b a /\ v4 (ks_inet_pton inet_pton AF_INET host uninit) = word a b c d.
Proof.
  intros (_ & _ & _ & _ & E & Hb & Hw). cbn in Hw. unfold ks_inet_pton. rewrite E. destruct m as [|a [|b [|c [|d [|]]]]]; try (unfold zlen in Hw; simpl in Hw; lia).
  inv_Forall. exists a, b, c, d. do 4 (split; [done|]). unfold word. cbn [be v4 nth app]. unfold zlen. cbn [length]. unfold v4. cbn [nth].
  change (2 ^ 8) with 256. change (2 ^ (8 * Z.of_nat 3)) with 16777216. change (2 ^ (8 * Z.of_nat 2)) with 65536.
  change (2 ^ (8 * Z.of_nat 1)) with 256. change (2 ^ (8 * Z.of_nat 0)) with 1. split; ring.
Qed.

Lemma word_range a b c d : is_byte a -> is_byte b -> is_byte c -> is_byte d -> 0 <= word a b c d < 2 ^ 32.
Proof. unfold is_byte, word. change (2 ^ 8) with 256. change (2 ^ 32) with 4294967296. lia. Qed.

Lemma land_same x y m : 0 <= m -> Z.land x m = Z.land y m <-> (forall i, 0 <= i -> Z.testbit m i = true -> Z.testbit x i = Z.testbit y i).
Proof.
  intros Hm. split; intros H.
  - intros i Hi Hb. assert (E : Z.testbit (Z.land x m) i = Z.testbit (Z.land y m) i) by (by rewrite H). by rewrite !Z.land_spec, Hb, !andb_true_r in E.
  - apply Z.bits_inj'. intros i Hi. rewrite !Z.land_spec. destruct (Z.testbit m i) eqn:Hb; [by rewrite (H i)|by rewrite !andb_false_r].
Qed.

(** A network added by address and mask goes to the front of the list with as
    many bits as the mask has ones (the bit tricks count them), contains the IPv4
    addresses that agree with its address in every bit of the mask, and has no
    token. *)
Lemma add_host_mask_node inet_pton uninit l host a mask_str m o :
  is_host inet_pton AF_INET host a -> is_host inet_pton AF_INET mask_str m -> be m <> 0 ->
  exists n, ks_network_list_add_host_mask inet_pton uninit l host mask_str o = List (n :: l.(nodes)) l.(default_type) l.(name) /\
    bits n = ones 32 (be m) /\ ok n = o /\ token n = None /\
    forall x, 0 <= x < 2 ^ 32 ->
      (test_ip x n = true <-> forall i, 0 <= i -> Z.testbit (be m) i = true -> Z.testbit x i = Z.testbit (be a) i).
Proof.
  intros Ha Hm Hm0. unfold ks_network_list_add_host_mask. eexists. split; [reflexivity|]. cbn [bits ok token].
  destruct (pton_4 inet_pton uninit _ _ Ha) as [Ea Ra]. destruct (pton_4 inet_pton uninit _ _ Hm) as [Em Rm].
  destruct (pton_word inet_pton uninit mask_str m Hm) as (w1 & w2 & w3 & w4 & H1 & H2 & H3 & H4 & Eb & Ev).
  split; [rewrite Ev, popcount_ones by (by apply word_range); rewrite Eb, !ones_word by done; lia|]. split; [done|]. split; [done|].
  intros x Hx. unfold test_ip. cbn [node_family ip mask]. rewrite Ea, Em, !v4_set by done. cbn [negb andb bool_decide decide]. rewrite bool_decide_false by done. cbn [negb andb].
  unfold ks_test_subnet. destruct (Z.eqb_spec (be m) 0); [done|]. cbn [negb]. rewrite Z.eqb_eq, land_same by lia.
  split; intros H i Hi Hb; symmetry; by apply H.
Qed.

(** ** Examples *)

(** An [inet_pton] for the examples: texts of four numbers, and three addresses
    of IPv6. *)
Fixpoint numbers (fuel : nat) (s : list Z) : list (list Z) :=
  match fuel with O => [s] | S fuel => match cut 46 s with Some (a, b) => a :: numbers fuel b | None => [s] end end.
Definition small_number (s : list Z) : option Z :=
  if forallb (fun c => (48 <=? c) && (c <=? 57)) s && negb (bool_decide (s = [])) && (digits s 0 <=? 255) then Some (digits s 0) else None.
Definition sample_pton (af : family) (s : list Z) : option (list Z) :=
  match af with
  | AF_INET => match mapM small_number (numbers 4 s) with Some [a; b; c; d] => Some [a; b; c; d] | _ => None end
  | _ =>
    if bool_decide (s = bytes_of_string "2001:db8::") then Some ([32; 1; 13; 184] ++ replicate 12 0)
    else if bool_decide (s = bytes_of_string "2001:db8::1") then Some ([32; 1; 13; 184] ++ replicate 11 0 ++ [1])
    else if bool_decide (s = bytes_of_string "::") then Some (replicate 16 0) else None
  end.
Definition sample_uninit : ks_ip_t := replicate 16 170.
Definition net (af : family) (s : String.string) (n : Z) : network :=
  let h := bytes_of_string s in Net af h (default [] (sample_pton af h)) n.
Definition sample_entries : list entry :=
  [ Entry [net AF_INET "10.0.0.0" 8; net AF_INET6 "2001:db8::" 32] true (Some (bytes_of_string "in"));
    Entry [net AF_INET "10.1.0.0" 16] false None; Entry [net AF_INET "10.1.2.3" 16; net AF_INET "0.0.0.0" 0] true (Some [120]) ].

Lemma acl_longest_prefix_witness :
  exists l, add_all sample_pton sample_uninit (ks_network_list_create [] false) sample_entries = Ok (replicate 3 KS_STATUS_SUCCESS, l) /\
    ks_check_network_list_ip_token sample_pton sample_uninit (bytes_of_string "::FFFF:10.1.9.9") l None = (false, None) /\
    decided AF_INET [10; 1; 9; 9] (rules sample_entries) false None
      (ks_check_network_list_ip_token sample_pton sample_uninit (bytes_of_string "::ffff:10.1.9.9") l None).
Proof.
  destruct (acl_longest_prefix sample_pton sample_uninit [] false sample_entries AF_INET (bytes_of_string "::ffff:10.1.9.9") [10; 1; 9; 9] None) as (l & E & H).
  - reflexivity.
  - apply (bool_decide_unpack _). vm_compute. exact I.
  - right. split; [reflexivity|]. exists (bytes_of_string "10.1.9.9"). split; [reflexivity|]. apply (bool_decide_unpack _). vm_compute. exact I.
  - exists l. split; [exact E|]. split; [|exact H]. injection E as <-. vm_compute. reflexivity.
Defined.

Lemma add_host_mask_node_witness :
  let l := ks_network_list_create [] false in
  exists n, ks_network_list_add_host_mask sample_pton sample_uninit l (bytes_of_string "10.1.0.0") (bytes_of_string "255.255.240.0") true = List [n] false [] /\
    bits n = 20 /\ test_ip 167840064 n = true /\ test_ip 167841793 n = false.
Proof.
  cbn zeta. destruct (add_host_mask_node sample_pton sample_uninit (ks_network_list_create [] false) (bytes_of_string "10.1.0.0") [10; 1; 0; 0] (bytes_of_string "255.255.240.0")
    [255; 255; 240; 0] true) as (n & E & Hb & _).
  - apply (bool_decide_unpack _). vm_compute. exact I.
  - apply (bool_decide_unpack _). vm_compute. exact I.
  - discriminate.
  - exists n. split; [exact E|]. split; [rewrite Hb; reflexivity|]. injection E as <-. split; vm_compute; reflexivity.
Defined.

(** One address of IPv4 is a shift by the width of the word. *)
Lemma parse_cidr_32 : ks_parse_cidr sample_pton (bytes_of_string "10.1.2.3/32") sample_uninit sample_uninit = Err BadShift.
Proof. vm_compute. reflexivity. Qed.

(** No bits at all, written with an address: only that address belongs to it. *)
Lemma cidr_zero_bits :
  ks_check_network_list_ip_cidr sample_pton sample_uninit (bytes_of_string "5.6.7.8") (bytes_of_string "1.2.3.4/0") = Ok false /\
  ks_check_network_list_ip_cidr sample_pton sample_uninit (bytes_of_string "1.2.3.4") (bytes_of_string "1.2.3.4/0") = Ok true /\
  ks_check_network_list_ip_cidr sample_pton sample_uninit (bytes_of_string "5.6.7.8") (bytes_of_string "0.0.0.0/0") = Ok true.
Proof. vm_compute. repeat split. Qed.

(** What is not an address is checked all the same, with whatever the local held. *)
Lemma check_uninit :
  let check uninit := ks_check_network_list_ip_cidr sample_pton uninit (bytes_of_string "localhost") (bytes_of_string "10.0.0.0/8") in
  check (replicate 16 0) = Ok false /\ check (10 :: replicate 15 0) = Ok true.
Proof. vm_compute. repeat split. Qed.

(** A network of IPv4 added with a mask decides addresses of IPv6. *)
Lemma host_mask_any_family :
  let l := ks_network_list_add_host_mask sample_pton sample_uninit (ks_network_list_create [] false) (bytes_of_string "10.0.0.0") (bytes_of_string "255.0.0.0") true in
  ks_network_list_validate_ip6_token l ([32; 1; 13; 10] ++ replicate 12 7) None = (true, None) /\
  ks_network_list_validate_ip6_token l ([10; 0; 0; 1] ++ replicate 12 7) None = (false, None).
Proof. vm_compute. repeat split. Qed.

(** Of more than 32 networks in one text the ones behind are dropped, and the call succeeds. *)
Lemma too_many_networks :
  let text := Tokens.join 44 (replicate 32 (bytes_of_string "10.0.0.0/8") ++ [bytes_of_string "11.0.0.0/8"]) in
  exists l, ks_network_list_add_cidr_token sample_pton sample_uninit (ks_network_list_create [] false) text true None = Ok (KS_STATUS_SUCCESS, l) /\
    length l.(nodes) = 32%nat /\ ks_check_network_list_ip_token sample_pton sample_uninit (bytes_of_string "11.1.1.1") l None = (false, None).
Proof.
  eexists. split; [vm_compute; reflexivity|]. split; vm_compute; reflexivity.
Qed.

Example add_bad_text : ks_network_list_add_cidr_token sample_pton sample_uninit (ks_network_list_create [] true) (bytes_of_string "10.0.0.0/33,10.0.0.0,2001:db8::/129") true None =
  Ok (KS_STATUS_GENERR, ks_network_list_create [] true).
Proof. vm_compute. reflexivity. Qed.
End Acl.
