(* ===== verification/Pool.v ===== *)
(** Memory pools (src/src/ks_pool.c, src/src/include/libks/internal/ks_pool.h):
    the blocks with their prefixes and fences, the doubly linked list of each
    pool, the cleanup callbacks, the simulation of an abstract pool by every
    operation, and the string copies into a pool. *)
From S2P Require Import Prelude.
From stdpp Require Import gmap fin_maps fin_sets.
Local Open Scope Z_scope.

Module Pool.

(** ** Data *)

Definition KS_POOL_MAGIC : Z := 3735928559.
Definition KS_POOL_PREFIX_MAGIC : Z := 3735928559.
Definition KS_POOL_FENCE_MAGIC0 : Z := 250.
Definition KS_POOL_FENCE_MAGIC1 : Z := 211.
Definition KS_POOL_FENCE_SIZE : Z := 2.
(** [sizeof(ks_pool_prefix_t)] on a 64-bit machine without KS_DEBUG_POOL. *)
Definition KS_POOL_PREFIX_SIZE : Z := 96.

Inductive ks_pool_cleanup_action_t : Set := KS_MPCL_ANNOUNCE | KS_MPCL_TEARDOWN | KS_MPCL_DESTROY.
Inductive ks_pool_cleanup_type_t : Set := KS_MPCL_FREE | KS_MPCL_GLOBAL_FREE.

#[global] Instance action_eq_dec : EqDecision ks_pool_cleanup_action_t.
Proof. solve_decision. Defined.

Inductive pool_func : Set :=
  | KS_POOL_FUNC_CLOSE | KS_POOL_FUNC_CLEAR | KS_POOL_FUNC_ALLOC | KS_POOL_FUNC_CALLOC
  | KS_POOL_FUNC_FREE | KS_POOL_FUNC_RESIZE | KS_POOL_FUNC_INCREF | KS_POOL_FUNC_DECREF.

(** One allocation: the prefix, and in [mem] the bytes behind it, the user's and
    the fence. *)
Record ks_pool_prefix := Prefix {
  p_magic1 : Z; size : Z; p_magic2 : Z; refs : Z;
  prev : option positive; next : option positive; p_magic3 : Z;
  cleanup_callback : option Z; cleanup_arg : Z; p_magic4 : Z; p_pool : positive; p_magic5 : Z;
  mem : list Z
}.

(** [mutex] is the depth of the recursive lock; file, line and tag are left out. *)
Record ks_pool := MkPool {
  magic1 : Z; alloc_c : Z; user_alloc : Z; max_alloc : Z; log_func : option Z;
  first : option positive; last : option positive; log_on_close : bool;
  magic2 : Z; mutex : Z; cleaning_up : bool
}.

(** What the outside sees: calls of a cleanup callback, of a pool's log function,
    and the warnings about items not released. *)
Inductive event : Type :=
  | Cleanup (cb : Z) (addr : positive) (arg : Z) (action : ks_pool_cleanup_action_t)
      (type : ks_pool_cleanup_type_t)
  | PoolLog (fn : Z) (func : pool_func) (byte_size ele_n : Z) (old_addr new_addr : option positive)
      (old_byte_size : Z)
  | Unreleased (bytes : Z).

Record world := World {
  pools : gmap positive ks_pool;
  blocks : gmap positive ks_pool_prefix;
  trace : list event
}.

(** ** Computations that change the world and can fault *)

Definition M (A : Type) : Type := world -> res (A * world).
#[global] Instance M_ret : MRet M := fun A a w => Ok (a, w).
#[global] Instance M_bind : MBind M := fun A B f m w =>
  match m w with Ok (a, w) => f a w | Err e => Err e end.

Definition fail {A} (f : fault) : M A := fun _ => Err f.
Definition assert (b : bool) : M unit := fun w => if b then Ok (tt, w) else Err AssertFail.
Definition get_block (p : positive) : M ks_pool_prefix := fun w =>
  match w.(blocks) !! p with Some b => Ok (b, w) | None => Err UseAfterFree end.
Definition get_pool (pid : positive) : M ks_pool := fun w =>
  match w.(pools) !! pid with Some p => Ok (p, w) | None => Err UseAfterFree end.
Definition put_block (p : positive) (b : ks_pool_prefix) : M unit := fun w =>
  Ok (tt, World w.(pools) (<[p := b]> w.(blocks)) w.(trace)).
Definition put_pool (pid : positive) (p : ks_pool) : M unit := fun w =>
  Ok (tt, World (<[pid := p]> w.(pools)) w.(blocks) w.(trace)).
Definition emit (evs : list event) : M unit := fun w =>
  Ok (tt, World w.(pools) w.(blocks) (w.(trace) ++ evs)).
Definition query {A} (f : world -> A) : M A := fun w => Ok (f w, w).
Definition lift {A} (r : res A) : M A := fun w =>
  match r with Ok a => Ok (a, w) | Err e => Err e end.

Definition non_null (ptr : option positive) : M positive :=
  match ptr with Some p => mret p | None => fail AssertFail end.

(** A store to one field of the object behind a pointer. *)
Definition upd_block (p : positive) (f : ks_pool_prefix -> ks_pool_prefix) : M unit :=
  b ← get_block p; put_block p (f b).
Definition upd_pool (pid : positive) (f : ks_pool -> ks_pool) : M unit :=
  p ← get_pool pid; put_pool pid (f p).

Definition set_links (pv nx : option positive) (b : ks_pool_prefix) : ks_pool_prefix :=
  Prefix b.(p_magic1) b.(size) b.(p_magic2) b.(refs) pv nx b.(p_magic3)
    b.(cleanup_callback) b.(cleanup_arg) b.(p_magic4) b.(p_pool) b.(p_magic5) b.(mem).
Definition set_prev (pv : option positive) (b : ks_pool_prefix) := set_links pv b.(next) b.
Definition set_next (nx : option positive) (b : ks_pool_prefix) := set_links b.(prev) nx b.
Definition set_refs (r : Z) (b : ks_pool_prefix) : ks_pool_prefix :=
  Prefix b.(p_magic1) b.(size) b.(p_magic2) r b.(prev) b.(next) b.(p_magic3)
    b.(cleanup_callback) b.(cleanup_arg) b.(p_magic4) b.(p_pool) b.(p_magic5) b.(mem).
Definition set_callback (cb : option Z) (arg : Z) (b : ks_pool_prefix) : ks_pool_prefix :=
  Prefix b.(p_magic1) b.(size) b.(p_magic2) b.(refs) b.(prev) b.(next) b.(p_magic3)
    cb arg b.(p_magic4) b.(p_pool) b.(p_magic5) b.(mem).
Definition set_mem (m : list Z) (b : ks_pool_prefix) : ks_pool_prefix :=
  Prefix b.(p_magic1) b.(size) b.(p_magic2) b.(refs) b.(prev) b.(next) b.(p_magic3)
    b.(cleanup_callback) b.(cleanup_arg) b.(p_magic4) b.(p_pool) b.(p_magic5) m.
Definition set_size (n : Z) (m : list Z) (b : ks_pool_prefix) : ks_pool_prefix :=
  Prefix b.(p_magic1) n b.(p_magic2) b.(refs) b.(prev) b.(next) b.(p_magic3)
    b.(cleanup_callback) b.(cleanup_arg) b.(p_magic4) b.(p_pool) b.(p_magic5) m.

Definition set_ends (f l : option positive) (p : ks_pool) : ks_pool :=
  MkPool p.(magic1) p.(alloc_c) p.(user_alloc) p.(max_alloc) p.(log_func) f l p.(log_on_close)
    p.(magic2) p.(mutex) p.(cleaning_up).
Definition set_first (f : option positive) (p : ks_pool) := set_ends f p.(last) p.
Definition set_last (l : option positive) (p : ks_pool) := set_ends p.(first) l p.
Definition set_counts (c u m : Z) (p : ks_pool) : ks_pool :=
  MkPool p.(magic1) c u m p.(log_func) p.(first) p.(last) p.(log_on_close)
    p.(magic2) p.(mutex) p.(cleaning_up).
Definition set_mutex (n : Z) (p : ks_pool) : ks_pool :=
  MkPool p.(magic1) p.(alloc_c) p.(user_alloc) p.(max_alloc) p.(log_func) p.(first) p.(last)
    p.(log_on_close) p.(magic2) n p.(cleaning_up).
Definition set_cleaning (c : bool) (p : ks_pool) : ks_pool :=
  MkPool p.(magic1) p.(alloc_c) p.(user_alloc) p.(max_alloc) p.(log_func) p.(first) p.(last)
    p.(log_on_close) p.(magic2) p.(mutex) c.
Definition set_log (f : option Z) (p : ks_pool) : ks_pool :=
  MkPool p.(magic1) p.(alloc_c) p.(user_alloc) p.(max_alloc) f p.(first) p.(last)
    p.(log_on_close) p.(magic2) p.(mutex) p.(cleaning_up).

Definition lock (pid : positive) : M unit := upd_pool pid (fun p => set_mutex (p.(mutex) + 1) p).
Definition unlock (pid : positive) : M unit := upd_pool pid (fun p => set_mutex (p.(mutex) - 1) p).

Definition log_call (pid : positive) (func : pool_func) (n ele : Z) (o a : option positive) (on : Z) : M unit :=
  p ← get_pool pid;
  match p.(log_func) with
  | None => mret tt
  | Some fn => emit [PoolLog fn func n ele o a on]
  end.

(** ** The C allocator

    [malloc] gives an address not in use, or NULL; [realloc] keeps the address or
    moves to an unused one, or NULL. [junk] is a byte of fresh memory, and
    [sigint_fatal] tells whether SIGINT, which [ks_debug_break] raises, ends the
    process. *)
Class CAlloc := {
  malloc : gmap positive ks_pool_prefix -> Z -> option positive;
  malloc_pool : gmap positive ks_pool -> option positive;
  realloc : gmap positive ks_pool_prefix -> positive -> Z -> option positive;
  junk : Z;
  sigint_fatal : bool;
  malloc_fresh : forall h n p, malloc h n = Some p -> h !! p = None;
  malloc_pool_fresh : forall h p, malloc_pool h = Some p -> h !! p = None;
  realloc_fresh : forall h p n q, realloc h p n = Some q -> q = p \/ h !! q = None
}.

Section Ops.
Context `{CAlloc}.

(** What a cleanup callback does to the world. *)
Variable callback : Z -> positive -> Z -> ks_pool_cleanup_action_t -> ks_pool_cleanup_type_t -> M unit.

Definition CHECK_PREFIX (b : ks_pool_prefix) : M unit :=
  assert ((b.(p_magic1) =? KS_POOL_PREFIX_MAGIC) && (b.(p_magic2) =? KS_POOL_PREFIX_MAGIC) &&
          (b.(p_magic3) =? KS_POOL_PREFIX_MAGIC) && (b.(p_magic4) =? KS_POOL_PREFIX_MAGIC) &&
          (b.(p_magic5) =? KS_POOL_PREFIX_MAGIC)).

Definition call_cleanup (cb : Z) (addr : positive) (arg : Z) (action : ks_pool_cleanup_action_t)
    (type : ks_pool_cleanup_type_t) : M unit :=
  emit [Cleanup cb addr arg action type];; callback cb addr arg action type.

Definition perform_pool_cleanup_on_free (addr : positive) : M unit :=
  b ← get_block addr;
  pool ← get_pool b.(p_pool);
  if pool.(cleaning_up) then mret tt else
  match b.(cleanup_callback) with
  | None => mret tt
  | Some cb =>
    call_cleanup cb addr b.(cleanup_arg) KS_MPCL_ANNOUNCE KS_MPCL_FREE;;
    b ← get_block addr;
    match b.(cleanup_callback) with
    | None => fail NullDeref
    | Some cb =>
      call_cleanup cb addr b.(cleanup_arg) KS_MPCL_TEARDOWN KS_MPCL_FREE;;
      b ← get_block addr;
      match b.(cleanup_callback) with
      | None => fail NullDeref
      | Some cb => call_cleanup cb addr b.(cleanup_arg) KS_MPCL_DESTROY KS_MPCL_FREE
      end
    end
  end.

(** One of the three loops; the first one warns about each item. *)
Fixpoint cleanup_pass (fuel : nat) (pid : positive) (action : ks_pool_cleanup_action_t)
    (prefix : option positive) : M unit :=
  match prefix with
  | None => mret tt
  | Some p =>
    match fuel with
    | O => fail NoFuel
    | S fuel =>
      b ← get_block p;
      pool ← get_pool pid;
      (if bool_decide (action = KS_MPCL_ANNOUNCE) && pool.(log_on_close)
       then emit [Unreleased b.(size)] else mret tt);;
      match b.(cleanup_callback) with
      | None => mret tt
      | Some cb => call_cleanup cb p b.(cleanup_arg) action KS_MPCL_GLOBAL_FREE
      end;;
      cleanup_pass fuel pid action b.(next)
    end
  end.

(** Enough turns for a list of blocks of this world. *)
Definition walk_fuel : M nat := query (fun w => S (base.size w.(blocks))).

Definition pass_from_first (pid : positive) (action : ks_pool_cleanup_action_t) : M unit :=
  pool ← get_pool pid;
  fuel ← walk_fuel;
  cleanup_pass fuel pid action pool.(first).

Definition perform_pool_cleanup (pid : positive) : M unit :=
  pool ← get_pool pid;
  if pool.(cleaning_up) then mret tt else
  upd_pool pid (set_cleaning true);;
  pass_from_first pid KS_MPCL_ANNOUNCE;;
  pass_from_first pid KS_MPCL_TEARDOWN;;
  pass_from_first pid KS_MPCL_DESTROY.

Definition ks_pool_remove_cleanup (ptr : option positive) : M ks_status_t :=
  p ← non_null ptr;
  b ← get_block p;
  CHECK_PREFIX b;;
  put_block p (set_callback None 0 b);;
  mret KS_STATUS_SUCCESS.

(** The callback is not NULL: the code asserts it, its type here says it. *)
Definition ks_pool_set_cleanup (ptr : option positive) (arg : Z) (cb : Z) : M ks_status_t :=
  p ← non_null ptr;
  b ← get_block p;
  CHECK_PREFIX b;;
  put_block p (set_callback (Some cb) arg b);;
  mret KS_STATUS_SUCCESS.

Definition check_pool (pool : ks_pool) : ks_status_t :=
  if negb (pool.(magic1) =? KS_POOL_MAGIC) then KS_STATUS_PNT
  else if negb (pool.(magic2) =? KS_POOL_MAGIC) then KS_STATUS_POOL_OVER
  else KS_STATUS_SUCCESS.

(** The first two bytes at [off] behind the prefix. *)
Definition check_fence (m : list Z) (off : Z) : res ks_status_t :=
  f0 ← ld m off;
  r ← (if f0 =? KS_POOL_FENCE_MAGIC0 then
         f1 ← ld m (off + 1); Ok (f1 =? KS_POOL_FENCE_MAGIC1)
       else Ok false);
  if r : bool then Ok KS_STATUS_SUCCESS
  else if sigint_fatal then Err Aborted else Ok KS_STATUS_PNT_OVER.

Definition write_fence (m : list Z) (off : Z) : res (list Z) :=
  m ← st m off KS_POOL_FENCE_MAGIC0;
  st m (off + 1) KS_POOL_FENCE_MAGIC1.

Definition new_prefix (pid : positive) (n : Z) (nx : option positive) (m : list Z) : ks_pool_prefix :=
  Prefix KS_POOL_PREFIX_MAGIC n KS_POOL_PREFIX_MAGIC 1 None nx KS_POOL_PREFIX_MAGIC
    None 0 KS_POOL_PREFIX_MAGIC pid KS_POOL_PREFIX_MAGIC m.

(** The object [malloc(required)] must hold the prefix; the bytes behind it are
    zero after the [memset]. *)
Definition alloc_mem (pid : positive) (n : Z) : M positive :=
  assert (negb (n =? 0));;
  let required := u64 (KS_POOL_PREFIX_SIZE + n + KS_POOL_FENCE_SIZE) in
  start ← query (fun w => malloc w.(blocks) required);
  p ← non_null start;
  pool ← get_pool pid;
  m ← lift (if required <? KS_POOL_PREFIX_SIZE then Err OutOfBounds
            else write_fence (replicate (Z.to_nat (required - KS_POOL_PREFIX_SIZE)) 0) n);
  match pool.(first) with
  | None => mret tt
  | Some q => upd_block q (set_prev (Some p))
  end;;
  put_block p (new_prefix pid n pool.(first) m);;
  upd_pool pid (set_first (Some p));;
  upd_pool pid (fun pool => match pool.(last) with None => set_last (Some p) pool | _ => pool end);;
  log_call pid KS_POOL_FUNC_INCREF n 1 None (Some p) 0;;
  upd_pool pid (fun pool =>
    let user := u64 (pool.(user_alloc) + n) in
    set_counts (u64 (pool.(alloc_c) + 1)) user
      (if pool.(max_alloc) <? user then user else pool.(max_alloc)) pool);;
  mret p.

(** The four cases of taking a prefix out of the list of its pool. *)
Definition unlink (pid : positive) (b : ks_pool_prefix) : M unit :=
  match b.(prev), b.(next) with
  | None, None => upd_pool pid (set_ends None None)
  | None, Some n => upd_pool pid (set_first (Some n));; upd_block n (set_prev None)
  | Some p, None => upd_pool pid (set_last (Some p));; upd_block p (set_next None)
  | Some p, Some n => upd_block p (set_next (Some n));; upd_block n (set_prev (Some p))
  end.

Definition free_block (p : positive) : M unit := fun w =>
  match w.(blocks) !! p with
  | Some _ => Ok (tt, World w.(pools) (delete p w.(blocks)) w.(trace))
  | None => Err UseAfterFree
  end.

Definition free_mem (addr : positive) : M ks_status_t :=
  b ← get_block addr;
  CHECK_PREFIX b;;
  let pid := b.(p_pool) in
  (if 0 <? b.(refs) then
     put_block addr (set_refs (b.(refs) - 1) b);;
     log_call pid KS_POOL_FUNC_DECREF b.(size) (b.(refs) - 1) (Some addr) None 0
   else mret tt);;
  b ← get_block addr;
  if 0 <? b.(refs) then mret KS_STATUS_REFS_EXIST else
  ret ← lift (check_fence b.(mem) b.(size));
  perform_pool_cleanup_on_free addr;;
  b ← get_block addr;
  unlink pid b;;
  upd_pool pid (fun pool =>
    set_counts (u64 (pool.(alloc_c) - 1)) (u64 (pool.(user_alloc) - b.(size))) pool.(max_alloc) pool);;
  free_block addr;;
  mret ret.

(** [ks_pool_raw_open] and the pool's mutex. *)
Definition ks_pool_tagged_open : M (ks_status_t * positive) :=
  start ← query (fun w => malloc_pool w.(pools));
  pid ← non_null start;
  put_pool pid (MkPool KS_POOL_MAGIC 0 0 0 None None None false KS_POOL_MAGIC 0 false);;
  mret (KS_STATUS_SUCCESS, pid).

(** [free] of every prefix, the next one read first. *)
Fixpoint free_all (fuel : nat) (prefix : option positive) : M unit :=
  match prefix with
  | None => mret tt
  | Some p =>
    match fuel with
    | O => fail NoFuel
    | S fuel => b ← get_block p; free_block p;; free_all fuel b.(next)
    end
  end.

Definition assert_success (r : ks_status_t) : M unit := assert (bool_decide (r = KS_STATUS_SUCCESS)).

Definition ks_pool_clear (pid : positive) : M ks_status_t :=
  pool ← get_pool pid;
  assert_success (check_pool pool);;
  log_call pid KS_POOL_FUNC_CLEAR 0 0 None None 0;;
  lock pid;;
  perform_pool_cleanup pid;;
  pool ← get_pool pid;
  fuel ← walk_fuel;
  free_all fuel pool.(first);;
  upd_pool pid (set_ends None None);;
  unlock pid;;
  mret KS_STATUS_SUCCESS.

Definition free_pool (pid : positive) : M unit := fun w =>
  Ok (tt, World (delete pid w.(pools)) w.(blocks) w.(trace)).

Definition ks_pool_raw_close (pid : positive) : M ks_status_t :=
  ret ← ks_pool_clear pid;
  log_call pid KS_POOL_FUNC_CLOSE 0 0 None None 0;;
  free_pool pid;;
  mret ret.

(** [ks_pool_close(&pool)]: the status and the pool pointer left behind. *)
Definition ks_pool_close (pool : option positive) : M (ks_status_t * option positive) :=
  match pool with
  | None => mret (KS_STATUS_SUCCESS, None)
  | Some pid =>
    ret ← ks_pool_raw_close pid;
    mret (ret, if bool_decide (ret = KS_STATUS_SUCCESS) then None else pool)
  end.

Definition ks_pool_verify (addr : option positive) : M bool :=
  match addr with
  | None => mret false
  | Some p =>
    b ← get_block p;
    CHECK_PREFIX b;;
    r ← lift (check_fence b.(mem) b.(size));
    mret (bool_decide (r = KS_STATUS_SUCCESS))
  end.

Fixpoint verify_all (fuel : nat) (prefix : option positive) : M unit :=
  match prefix with
  | None => mret tt
  | Some p =>
    match fuel with
    | O => fail NoFuel
    | S fuel =>
      ok ← ks_pool_verify (Some p);
      assert ok;;
      b ← get_block p;
      verify_all fuel b.(next)
    end
  end.

Definition ks_pool_pool_verify (pid : positive) : M unit :=
  lock pid;;
  pool ← get_pool pid;
  fuel ← walk_fuel;
  verify_all fuel pool.(first);;
  unlock pid.

Definition ks_pool_get (addr : option positive) : M positive :=
  p ← non_null addr;
  b ← get_block p;
  mret b.(p_pool).

Definition __ks_pool_alloc_ex (pid : positive) (n : Z) : M positive :=
  assert (negb (n =? 0));;
  pool ← get_pool pid;
  assert_success (check_pool pool);;
  lock pid;;
  addr ← alloc_mem pid n;
  unlock pid;;
  log_call pid KS_POOL_FUNC_ALLOC n 0 (Some addr) None 0;;
  b ← get_block addr;
  CHECK_PREFIX b;;
  mret addr.

(** [ele_n * ele_size] wraps. *)
Definition __ks_pool_calloc_ex (pid : positive) (ele_n ele_size : Z) : M positive :=
  assert (negb (ele_n =? 0));;
  assert (negb (ele_size =? 0));;
  pool ← get_pool pid;
  assert_success (check_pool pool);;
  let n := u64 (ele_n * ele_size) in
  lock pid;;
  addr ← alloc_mem pid n;
  unlock pid;;
  log_call pid KS_POOL_FUNC_CALLOC ele_size ele_n (Some addr) None 0;;
  mret addr.

(** The status and the pointer left in [*addrP]. *)
Definition ks_pool_free_ex (addrP : option positive) : M (ks_status_t * option positive) :=
  match addrP with
  | None => mret (KS_STATUS_SUCCESS, None)
  | Some addr =>
    b ← get_block addr;
    CHECK_PREFIX b;;
    let pid := b.(p_pool) in
    pool ← get_pool pid;
    assert_success (check_pool pool);;
    lock pid;;
    log_call pid (if b.(refs) =? 1 then KS_POOL_FUNC_FREE else KS_POOL_FUNC_DECREF)
      b.(size) (u64 (b.(refs) - 1)) (Some addr) None 0;;
    ret ← free_mem addr;
    unlock pid;;
    if bool_decide (ret = KS_STATUS_REFS_EXIST) then mret (ret, Some addr)
    else assert_success ret;; mret (ret, None)
  end.

Definition ks_pool_ref_ex (addr : option positive) : M positive :=
  p ← non_null addr;
  b ← get_block p;
  CHECK_PREFIX b;;
  let pid := b.(p_pool) in
  pool ← get_pool pid;
  assert_success (check_pool pool);;
  lock pid;;
  put_block p (set_refs (u64 (b.(refs) + 1)) b);;
  unlock pid;;
  log_call pid KS_POOL_FUNC_INCREF b.(size) (u64 (b.(refs) + 1)) (Some p) None 0;;
  mret p.

(** The bytes behind the prefix after [realloc] to [n] of them. *)
Definition realloc_mem (m : list Z) (n : Z) : list Z :=
  take (Z.to_nat n) m ++ replicate (Z.to_nat n - length m) junk.

Definition relink (pid p : positive) : M unit :=
  b ← get_block p;
  match b.(prev) with
  | Some q => upd_block q (set_next (Some p))
  | None => upd_pool pid (set_first (Some p))
  end;;
  match b.(next) with
  | Some q => upd_block q (set_prev (Some p))
  | None => upd_pool pid (set_last (Some p))
  end.

Definition __ks_pool_resize_ex (old_addr : option positive) (new_size : Z) : M (option positive) :=
  p ← non_null old_addr;
  assert (negb (new_size =? 0));;
  b ← get_block p;
  CHECK_PREFIX b;;
  let pid := b.(p_pool) in
  pool ← get_pool pid;
  if negb (bool_decide (check_pool pool = KS_STATUS_SUCCESS)) then mret None else
  lock pid;;
  if 1 <? b.(refs) then unlock pid;; fail AssertFail
  else if new_size =? b.(size) then unlock pid;; mret (Some p)
  else
    let required := u64 (KS_POOL_PREFIX_SIZE + new_size + KS_POOL_FENCE_SIZE) in
    start ← query (fun w => realloc w.(blocks) p required);
    p' ← non_null start;
    m ← lift (if required <? KS_POOL_PREFIX_SIZE then Err OutOfBounds
              else write_fence (realloc_mem b.(mem) (required - KS_POOL_PREFIX_SIZE)) new_size);
    free_block p;;
    put_block p' (set_size new_size m b);;
    relink pid p';;
    log_call pid KS_POOL_FUNC_RESIZE new_size 0 (Some p) (Some p') b.(size);;
    unlock pid;;
    mret (Some p').

(** The number of allocations, the user bytes, their maximum and the total. *)
Definition ks_pool_stats (pid : positive) : M (Z * Z * Z * Z) :=
  pool ← get_pool pid;
  assert_success (check_pool pool);;
  mret (pool.(alloc_c), pool.(user_alloc), pool.(max_alloc),
        u64 (pool.(user_alloc) + pool.(alloc_c) * (KS_POOL_PREFIX_SIZE + KS_POOL_FENCE_SIZE))).

Definition ks_pool_set_log_func (pid : positive) (fn : Z) : M ks_status_t :=
  pool ← get_pool pid;
  assert_success (check_pool pool);;
  put_pool pid (set_log (Some fn) pool);;
  mret KS_STATUS_SUCCESS.

(** A store of the program into a block, the fence within its reach. *)
Definition store (addr : positive) (off : Z) (bs : list Z) : M unit :=
  b ← get_block addr;
  m ← lift (blit b.(mem) off bs);
  put_block addr (set_mem m b).

(** ** Strings copied into a pool

    A string argument is the bytes readable from its pointer. *)

Definition __ks_pstrdup (pid : positive) (str : option (list Z)) : M (option positive) :=
  match str with
  | None => mret None
  | Some m =>
    n ← lift (strlen m);
    let len := u64 (n + 1) in
    p ← __ks_pool_alloc_ex pid len;
    bs ← lift (slice m 0 len);
    store p 0 bs;;
    mret (Some p)
  end.

(** The bytes copied and terminated, the common end of the next two. *)
Definition copy_terminated (pid : positive) (m : list Z) (len : Z) : M (option positive) :=
  p ← __ks_pool_alloc_ex pid (u64 (len + 1));
  bs ← lift (slice m 0 len);
  store p 0 bs;;
  store p len [0];;
  mret (Some p).

(** [end - str] is computed when [memchr] found nothing, that is from NULL. *)
Definition __ks_pstrndup (pid : positive) (str : option (list Z)) (len : Z) : M (option positive) :=
  match str with
  | None => mret None
  | Some m =>
    e ← lift (memchr 0 m len);
    match e with
    | None => fail NullDeref
    | Some _ => copy_terminated pid m len
    end
  end.

Definition __ks_pstrmemdup (pid : positive) (str : option (list Z)) (len : Z) : M (option positive) :=
  match str with
  | None => mret None
  | Some m => copy_terminated pid m len
  end.

Definition __ks_pmemdup (pid : positive) (buf : option (list Z)) (len : Z) : M (option positive) :=
  match buf with
  | None => mret None
  | Some m =>
    p ← __ks_pool_alloc_ex pid len;
    bs ← lift (slice m 0 len);
    store p 0 bs;;
    mret (Some p)
  end.

(** The lengths of the arguments, and their copies one behind the other; the
    first ten lengths are cached. *)
Fixpoint arg_lengths (args : list (list Z)) : res (list Z) :=
  match args with
  | [] => Ok []
  | m :: args => n ← strlen m; ns ← arg_lengths args; Ok (n :: ns)
  end.

Fixpoint copy_args (p : positive) (args : list (list Z)) (lengths : list Z) (endp : Z) : M Z :=
  match args with
  | [] => mret endp
  | m :: args =>
    n ← lift (match lengths with n :: _ => Ok n | [] => strlen m end);
    bs ← lift (slice m 0 n);
    store p endp bs;;
    copy_args p args (tail lengths) (endp + n)
  end.

Definition __ks_pstrcat (pid : positive) (args : list (list Z)) : M positive :=
  ns ← lift (arg_lengths args);
  p ← __ks_pool_alloc_ex pid (u64 (foldr Z.add 0 ns + 1));
  endp ← copy_args p args (take 10 ns) 0;
  store p endp [0];;
  mret p.
End Ops.

(** ** The pools the operations promise

    An abstract pool is the list of its blocks, the newest first. [extra_c] and
    [extra_u] say how far its two counters are off the list: 0 until the pool is
    cleared or a block is resized. *)

Record ablock := ABlock { b_size : Z; b_refs : Z; b_mem : list Z; b_clean : option (Z * Z) }.

Record apool := APool {
  items : list (positive * ablock);
  extra_c : Z; extra_u : Z; a_max : Z;
  a_log : option Z; a_warn : bool; a_cleaned : bool
}.

Definition total (l : list (positive * ablock)) : Z := foldr (fun x n => x.2.(b_size) + n) 0 l.
Definition count (a : apool) : Z := u64 (zlen a.(items) + a.(extra_c)).
Definition user (a : apool) : Z := u64 (total a.(items) + a.(extra_u)).

Definition with_items (l : list (positive * ablock)) (a : apool) : apool :=
  APool l a.(extra_c) a.(extra_u) a.(a_max) a.(a_log) a.(a_warn) a.(a_cleaned).

Definition empty_pool : apool := APool [] 0 0 0 None false false.
Definition fence_bytes : list Z := [KS_POOL_FENCE_MAGIC0; KS_POOL_FENCE_MAGIC1].
Definition zeroed (n : Z) : ablock := ABlock n 1 (replicate (Z.to_nat n) 0 ++ fence_bytes) None.
Definition fenced (b : ablock) : Prop := drop (Z.to_nat b.(b_size)) b.(b_mem) = fence_bytes.

Definition a_push (p : positive) (b : ablock) (a : apool) : apool :=
  let a := with_items ((p, b) :: a.(items)) a in
  APool a.(items) a.(extra_c) a.(extra_u) (Z.max a.(a_max) (user a)) a.(a_log) a.(a_warn) a.(a_cleaned).

(** Clearing leaves the counters and says that the cleanups ran. *)
Definition a_clear (a : apool) : apool :=
  APool [] (zlen a.(items) + a.(extra_c)) (total a.(items) + a.(extra_u)) a.(a_max) a.(a_log) a.(a_warn) true.

(** A block resized in place; the user counter does not follow. *)
Definition a_resize (l : list (positive * ablock)) (delta : Z) (a : apool) : apool :=
  APool l a.(extra_c) (a.(extra_u) - delta) a.(a_max) a.(a_log) a.(a_warn) a.(a_cleaned).

Definition resized `{CAlloc} (n : Z) (b : ablock) : ablock :=
  ABlock n b.(b_refs)
    (take (Z.to_nat n) (b.(b_mem) ++ replicate (Z.to_nat n - length b.(b_mem)) junk) ++ fence_bytes)
    b.(b_clean).

(** The callbacks of one block, and those of one pass over a pool. *)
Definition freed_events (p : positive) (b : ablock) : list event :=
  match b.(b_clean) with
  | None => []
  | Some (cb, arg) =>
    [Cleanup cb p arg KS_MPCL_ANNOUNCE KS_MPCL_FREE; Cleanup cb p arg KS_MPCL_TEARDOWN KS_MPCL_FREE;
     Cleanup cb p arg KS_MPCL_DESTROY KS_MPCL_FREE]
  end.
Definition pass_events (act : ks_pool_cleanup_action_t) (l : list (positive * ablock)) : list event :=
  omap (fun x => '(cb, arg) ← x.2.(b_clean); Some (Cleanup cb x.1 arg act KS_MPCL_GLOBAL_FREE)) l.
Definition clear_events (a : apool) : list event :=
  if a.(a_cleaned) then [] else
  pass_events KS_MPCL_ANNOUNCE a.(items) ++ pass_events KS_MPCL_TEARDOWN a.(items) ++
  pass_events KS_MPCL_DESTROY a.(items).

Inductive call : Type :=
  | COpen | CAlloc_ (pid : positive) (n : Z) | CCalloc (pid : positive) (ele_n ele_size : Z)
  | CFree (addr : option positive) | CRef (addr : positive) | CResize (addr : positive) (n : Z)
  | CSetCleanup (addr : positive) (arg cb : Z) | CRemoveCleanup (addr : positive)
  | CVerify (addr : option positive) | CPoolVerify (pid : positive) | CGet (addr : positive)
  | CStats (pid : positive) | CSetLog (pid : positive) (fn : Z)
  | CStore (addr : positive) (off : Z) (bs : list Z)
  | CClear (pid : positive) | CClose (pool : option positive).

Inductive answer : Type :=
  | RUnit | RStatus (st : ks_status_t) | RPtr (p : option positive)
  | RStatusPtr (st : ks_status_t) (p : option positive) | RBool (b : bool) | RStats (c u m t : Z).

Local Abbreviation pools_t := (gmap positive apool).

Definition fresh_addr (A : pools_t) (p : positive) : Prop :=
  forall pid a, A !! pid = Some a -> p ∉ a.(items).*1.

(** [live A pid a l1 p b l2]: [b] lives at [p], between [l1] and [l2] in the pool. *)
Definition live (A : pools_t) (pid : positive) (a : apool) (l1 : list (positive * ablock))
    (p : positive) (b : ablock) (l2 : list (positive * ablock)) : Prop :=
  A !! pid = Some a /\ a.(items) = l1 ++ (p, b) :: l2.

Definition a_upd (pid : positive) (a : apool) (l1 : list (positive * ablock)) (p : positive)
    (b : ablock) (l2 : list (positive * ablock)) (A : pools_t) : pools_t :=
  <[pid := with_items (l1 ++ (p, b) :: l2) a]> A.

Definition fits (n : Z) : Prop := 0 < n /\ n <= SIZE_MAX - KS_POOL_PREFIX_SIZE - KS_POOL_FENCE_SIZE.

Inductive spec `{CAlloc} : call -> pools_t -> answer -> list event -> pools_t -> Prop :=
  | SOpen A pid : A !! pid = None ->
      spec COpen A (RStatusPtr KS_STATUS_SUCCESS (Some pid)) [] (<[pid := empty_pool]> A)
  | SAlloc A pid a n p : A !! pid = Some a -> fresh_addr A p ->
      spec (CAlloc_ pid n) A (RPtr (Some p)) [] (<[pid := a_push p (zeroed n) a]> A)
  | SCalloc A pid a n m p : A !! pid = Some a -> fresh_addr A p ->
      spec (CCalloc pid n m) A (RPtr (Some p)) [] (<[pid := a_push p (zeroed (n * m)) a]> A)
  | SFreeNull A : spec (CFree None) A (RStatusPtr KS_STATUS_SUCCESS None) [] A
  | SFreeRef A pid a l1 p b l2 : live A pid a l1 p b l2 -> 1 < b.(b_refs) ->
      spec (CFree (Some p)) A (RStatusPtr KS_STATUS_REFS_EXIST (Some p)) []
        (a_upd pid a l1 p (ABlock b.(b_size) (b.(b_refs) - 1) b.(b_mem) b.(b_clean)) l2 A)
  | SFreeLast A pid a l1 p b l2 : live A pid a l1 p b l2 -> b.(b_refs) = 1 ->
      spec (CFree (Some p)) A (RStatusPtr KS_STATUS_SUCCESS None)
        (if a.(a_cleaned) then [] else freed_events p b) (<[pid := with_items (l1 ++ l2) a]> A)
  | SRef A pid a l1 p b l2 : live A pid a l1 p b l2 ->
      spec (CRef p) A (RPtr (Some p)) []
        (a_upd pid a l1 p (ABlock b.(b_size) (b.(b_refs) + 1) b.(b_mem) b.(b_clean)) l2 A)
  | SResizeSame A pid a l1 p b l2 : live A pid a l1 p b l2 ->
      spec (CResize p b.(b_size)) A (RPtr (Some p)) [] A
  | SResize A pid a l1 p b l2 n p' : live A pid a l1 p b l2 -> n <> b.(b_size) ->
      p' = p \/ fresh_addr A p' ->
      spec (CResize p n) A (RPtr (Some p')) []
        (<[pid := a_resize (l1 ++ (p', resized n b) :: l2) (n - b.(b_size)) a]> A)
  | SSetCleanup A pid a l1 p b l2 arg cb : live A pid a l1 p b l2 ->
      spec (CSetCleanup p arg cb) A (RStatus KS_STATUS_SUCCESS) []
        (a_upd pid a l1 p (ABlock b.(b_size) b.(b_refs) b.(b_mem) (Some (cb, arg))) l2 A)
  | SRemoveCleanup A pid a l1 p b l2 : live A pid a l1 p b l2 ->
      spec (CRemoveCleanup p) A (RStatus KS_STATUS_SUCCESS) []
        (a_upd pid a l1 p (ABlock b.(b_size) b.(b_refs) b.(b_mem) None) l2 A)
  | SVerifyNull A : spec (CVerify None) A (RBool false) [] A
  | SVerify A p : spec (CVerify (Some p)) A (RBool true) [] A
  | SPoolVerify A pid : spec (CPoolVerify pid) A RUnit [] A
  | SGet A pid a l1 p b l2 : live A pid a l1 p b l2 -> spec (CGet p) A (RPtr (Some pid)) [] A
  | SStats A pid a : A !! pid = Some a ->
      spec (CStats pid) A (RStats (count a) (user a) a.(a_max) (u64 (user a + count a * 98))) [] A
  | SSetLog A pid a fn : A !! pid = Some a ->
      spec (CSetLog pid fn) A (RStatus KS_STATUS_SUCCESS) []
        (<[pid := APool a.(items) a.(extra_c) a.(extra_u) a.(a_max) (Some fn) a.(a_warn) a.(a_cleaned)]> A)
  | SStore A pid a l1 p b l2 off bs m : live A pid a l1 p b l2 -> blit b.(b_mem) off bs = Ok m ->
      spec (CStore p off bs) A RUnit []
        (a_upd pid a l1 p (ABlock b.(b_size) b.(b_refs) m b.(b_clean)) l2 A)
  | SClear A pid a : A !! pid = Some a ->
      spec (CClear pid) A (RStatus KS_STATUS_SUCCESS) (clear_events a) (<[pid := a_clear a]> A)
  | SCloseNull A : spec (CClose None) A (RStatusPtr KS_STATUS_SUCCESS None) [] A
  | SClose A pid a : A !! pid = Some a ->
      spec (CClose (Some pid)) A (RStatusPtr KS_STATUS_SUCCESS None) (clear_events a) (delete pid A).

(** What a caller must respect: live addresses, sizes that fit, fences intact
    where the code looks at them, one reference to a block that is resized. *)
Definition legal (c : call) (A : pools_t) : Prop :=
  let has p P := exists pid a l1 b l2, live A pid a l1 p b l2 /\ P b in
  let opened pid := is_Some (A !! pid) in
  match c with
  | COpen | CFree None | CVerify None | CClose None => True
  | CAlloc_ pid n => opened pid /\ fits n
  | CCalloc pid n m => opened pid /\ 0 < n /\ 0 < m /\ fits (n * m)
  | CFree (Some p) => has p (fun b => b.(b_refs) = 1 -> fenced b)
  | CRef p => has p (fun b => b.(b_refs) < SIZE_MAX)
  | CResize p n => has p (fun b => b.(b_refs) = 1) /\ fits n
  | CSetCleanup p _ _ | CRemoveCleanup p | CGet p => has p (fun _ => True)
  | CVerify (Some p) => has p fenced
  | CPoolVerify pid => exists a, A !! pid = Some a /\ Forall (fun x => fenced x.2) a.(items)
  | CStore p off bs => has p (fun b => 0 <= off /\ off + zlen bs <= b.(b_size) + KS_POOL_FENCE_SIZE)
  | CStats pid | CSetLog pid _ | CClear pid | CClose (Some pid) => opened pid
  end.

Section Run.
Context `{CAlloc}.
Variable callback : Z -> positive -> Z -> ks_pool_cleanup_action_t -> ks_pool_cleanup_type_t -> M unit.

Definition run (c : call) : M answer :=
  match c with
  | COpen => r ← ks_pool_tagged_open; mret (RStatusPtr r.1 (Some r.2))
  | CAlloc_ pid n => p ← __ks_pool_alloc_ex pid n; mret (RPtr (Some p))
  | CCalloc pid n m => p ← __ks_pool_calloc_ex pid n m; mret (RPtr (Some p))
  | CFree addr => r ← ks_pool_free_ex callback addr; mret (RStatusPtr r.1 r.2)
  | CRef p => p ← ks_pool_ref_ex (Some p); mret (RPtr (Some p))
  | CResize p n => r ← __ks_pool_resize_ex (Some p) n; mret (RPtr r)
  | CSetCleanup p arg cb => r ← ks_pool_set_cleanup (Some p) arg cb; mret (RStatus r)
  | CRemoveCleanup p => r ← ks_pool_remove_cleanup (Some p); mret (RStatus r)
  | CVerify addr => r ← ks_pool_verify addr; mret (RBool r)
  | CPoolVerify pid => ks_pool_pool_verify pid;; mret RUnit
  | CGet p => r ← ks_pool_get (Some p); mret (RPtr (Some r))
  | CStats pid => r ← ks_pool_stats pid; mret (RStats r.1.1.1 r.1.1.2 r.1.2 r.2)
  | CSetLog pid fn => r ← ks_pool_set_log_func pid fn; mret (RStatus r)
  | CStore p off bs => store p off bs;; mret RUnit
  | CClear pid => r ← ks_pool_clear callback pid; mret (RStatus r)
  | CClose pool => r ← ks_pool_close callback pool; mret (RStatusPtr r.1 r.2)
  end.
End Run.

(** ** The list of a pool in the heap *)

Definition conc (pid : positive) (pv nx : option positive) (b : ablock) : ks_pool_prefix :=
  Prefix KS_POOL_PREFIX_MAGIC b.(b_size) KS_POOL_PREFIX_MAGIC b.(b_refs) pv nx KS_POOL_PREFIX_MAGIC
    (fst <$> b.(b_clean)) (from_option snd 0 b.(b_clean)) KS_POOL_PREFIX_MAGIC pid KS_POOL_PREFIX_MAGIC
    b.(b_mem).

Definition first_or (l : list (positive * ablock)) (d : option positive) : option positive :=
  match l with [] => d | x :: _ => Some x.1 end.
Definition last_or (d : option positive) (l : list (positive * ablock)) : option positive :=
  match stdpp.list_basics.list.last l with None => d | Some x => Some x.1 end.

Fixpoint seg (B : gmap positive ks_pool_prefix) (pid : positive) (pv : option positive)
    (l : list (positive * ablock)) (nx : option positive) : Prop :=
  match l with
  | [] => True
  | (p, b) :: l => B !! p = Some (conc pid pv (first_or l nx) b) /\ seg B pid (Some p) l nx
  end.

Lemma first_or_app l1 l2 nx : first_or (l1 ++ l2) nx = first_or l1 (first_or l2 nx).
Proof. by destruct l1. Qed.

Lemma last_or_snoc pv l x : last_or pv (l ++ [x]) = Some x.1.
Proof. unfold last_or. by rewrite last_snoc. Qed.

Lemma last_or_cons pv x l : last_or pv (x :: l) = last_or (Some x.1) l.
Proof. unfold last_or. rewrite last_cons. by destruct (stdpp.list_basics.list.last l). Qed.

Lemma last_or_app pv l1 l2 : last_or pv (l1 ++ l2) = last_or (last_or pv l1) l2.
Proof. revert pv. induction l1 as [|x l1 IH]; intros pv; [done|]. simpl. by rewrite !last_or_cons, IH. Qed.

Lemma seg_app B pid pv l1 l2 nx :
  seg B pid pv (l1 ++ l2) nx <-> seg B pid pv l1 (first_or l2 nx) /\ seg B pid (last_or pv l1) l2 nx.
Proof.
  revert pv. induction l1 as [|[p b] l1 IH]; intros pv; simpl; [naive_solver|].
  rewrite IH, first_or_app, last_or_cons. simpl. tauto.
Qed.

Lemma seg_ext B B' pid pv l nx :
  (forall q, q ∈ l.*1 -> B' !! q = B !! q) -> seg B pid pv l nx -> seg B' pid pv l nx.
Proof.
  revert pv. induction l as [|[p b] l IH]; intros pv HB; [done|]. intros [E Hs]. simpl. split.
  - rewrite HB; [done|]. by left.
  - apply IH; [|done]. intros q Hq. apply HB. by right.
Qed.

Lemma seg_insert B pid pv l nx q x : q ∉ l.*1 -> seg B pid pv l nx -> seg (<[q := x]> B) pid pv l nx.
Proof. intros Hq. apply seg_ext. intros r Hr. rewrite lookup_insert_ne; [done|]. by intros ->. Qed.

Lemma seg_delete B pid pv l nx q : q ∉ l.*1 -> seg B pid pv l nx -> seg (delete q B) pid pv l nx.
Proof. intros Hq. apply seg_ext. intros r Hr. rewrite lookup_delete_ne; [done|]. by intros ->. Qed.

(** The block at the end of a segment, with another successor. *)
Lemma seg_set_next B pid pv l q b nx nx' :
  q ∉ l.*1 -> seg B pid pv (l ++ [(q, b)]) nx ->
  B !! q = Some (conc pid (last_or pv l) nx b) /\
  seg (<[q := conc pid (last_or pv l) nx' b]> B) pid pv (l ++ [(q, b)]) nx'.
Proof.
  intros Hq [H1 [E _]]%seg_app. split; [done|]. apply seg_app. simpl. split; [by apply seg_insert|].
  by rewrite lookup_insert_eq.
Qed.

(** The block at its beginning, with another predecessor. *)
Lemma seg_set_prev B pid pv pv' l q b nx :
  q ∉ l.*1 -> seg B pid pv ((q, b) :: l) nx ->
  B !! q = Some (conc pid pv (first_or l nx) b) /\
  seg (<[q := conc pid pv' (first_or l nx) b]> B) pid pv' ((q, b) :: l) nx.
Proof.
  intros Hq [E Hs]. split; [done|]. simpl. rewrite lookup_insert_eq. split; [done|]. by apply seg_insert.
Qed.

Lemma seg_mid B pid l1 p b l2 :
  seg B pid None (l1 ++ (p, b) :: l2) None ->
  B !! p = Some (conc pid (last_or None l1) (first_or l2 None) b).
Proof. by intros [_ [E _]]%seg_app. Qed.

(** A block changed in place. *)
Lemma seg_upd B pid l1 p b b' l2 :
  NoDup (l1 ++ (p, b) :: l2).*1 -> seg B pid None (l1 ++ (p, b) :: l2) None ->
  seg (<[p := conc pid (last_or None l1) (first_or l2 None) b']> B) pid None (l1 ++ (p, b') :: l2) None.
Proof.
  rewrite fmap_app. simpl. intros (Hn1 & H12 & [Hp Hn2]%NoDup_cons)%NoDup_app [Hs1 [E Hs2]]%seg_app.
  apply seg_app. simpl. rewrite lookup_insert_eq. split; [|split; [done|by apply seg_insert]].
  apply seg_insert; [|done]. intros Hin. apply (H12 p Hin). by left.
Qed.

Lemma seg_in B pid pv l nx q : seg B pid pv l nx -> q ∈ l.*1 ->
  exists pv nx b, B !! q = Some (conc pid pv nx b).
Proof.
  revert pv. induction l as [|[p b] l IH]; intros pv; simpl; [by rewrite elem_of_nil|].
  intros [E Hs] [->|Hq]%elem_of_cons; [eauto|eauto].
Qed.

(** ** The relation between a world and its abstract pools *)

Definition conc_at (depth : Z) (a : apool) : ks_pool :=
  MkPool KS_POOL_MAGIC (count a) (user a) a.(a_max) a.(a_log) (first_or a.(items) None)
    (last_or None a.(items)) a.(a_warn) KS_POOL_MAGIC depth a.(a_cleaned).
Definition conc_pool : apool -> ks_pool := conc_at 0.

Definition block_ok (b : ablock) : Prop :=
  fits b.(b_size) /\ 0 < b.(b_refs) <= SIZE_MAX /\ zlen b.(b_mem) = b.(b_size) + KS_POOL_FENCE_SIZE.

Lemma block_ok_intro b : fits b.(b_size) -> 0 < b.(b_refs) <= SIZE_MAX ->
  zlen b.(b_mem) = b.(b_size) + KS_POOL_FENCE_SIZE -> block_ok b.
Proof. intros. split; [|split]; assumption. Qed.

Definition pool_ok (B : gmap positive ks_pool_prefix) (pid : positive) (a : apool) : Prop :=
  seg B pid None a.(items) None /\ NoDup a.(items).*1 /\ Forall (fun x => block_ok x.2) a.(items).

(** The pools are the abstract ones, and every block of the heap is in the list
    of its pool. *)
Definition R (w : world) (A : pools_t) : Prop :=
  w.(pools) = conc_pool <$> A /\
  (forall pid a, A !! pid = Some a -> pool_ok w.(blocks) pid a) /\
  (forall q b, w.(blocks) !! q = Some b -> exists a, A !! b.(p_pool) = Some a /\ q ∈ a.(items).*1).

Lemma R_live w A pid a q pv nx b :
  R w A -> A !! pid = Some a -> w.(blocks) !! q = Some (conc pid pv nx b) -> q ∈ a.(items).*1.
Proof.
  intros (_ & _ & H3) Ha Hq. destruct (H3 _ _ Hq) as (a' & Ha' & Hin). simpl in Ha'. congruence.
Qed.

(** Lists of different pools have no block in common. *)
Lemma R_disjoint w A pid a pid' a' q :
  R w A -> A !! pid = Some a -> A !! pid' = Some a' -> q ∈ a.(items).*1 -> q ∈ a'.(items).*1 -> pid = pid'.
Proof.
  intros (_ & H2 & _) Ha Ha' Hq Hq'.
  destruct (H2 _ _ Ha) as [Hs _], (H2 _ _ Ha') as [Hs' _].
  destruct (seg_in _ _ _ _ _ _ Hs Hq) as (? & ? & ? & E), (seg_in _ _ _ _ _ _ Hs' Hq') as (? & ? & ? & E').
  rewrite E in E'. by inversion E'.
Qed.

(** What a step on one pool owes: it touches only addresses of its old and its
    new list, and what it adds was not in use. *)
Lemma R_step P B t A pid a a' B' t' :
  R (World P B t) A -> A !! pid = Some a -> pool_ok B' pid a' ->
  (forall q, q ∉ a.(items).*1 -> q ∉ a'.(items).*1 -> B' !! q = B !! q) ->
  (forall q, q ∈ a.(items).*1 -> q ∉ a'.(items).*1 -> B' !! q = None) ->
  (forall q, q ∈ a'.(items).*1 -> q ∉ a.(items).*1 -> B !! q = None) ->
  R (World (<[pid := conc_pool a']> P) B' t') (<[pid := a']> A).
Proof.
  intros HR Ha Hok Hout Hgone Hnew. pose proof HR as (HP & H2 & H3). simpl in *.
  split; [simpl; by rewrite HP, fmap_insert|]. split; simpl.
  - intros pid' a0. destruct (decide (pid' = pid)) as [->|Hne];
      [rewrite lookup_insert_eq; by intros [= <-]|rewrite lookup_insert_ne by done].
    intros Ha0. destruct (H2 _ _ Ha0) as (Hs & Hn & Hf). split; [|done].
    eapply seg_ext; [|done]. intros q Hq. apply Hout.
    + intros Hin. by apply Hne, (R_disjoint _ _ _ _ _ _ _ HR Ha0 Ha Hq).
    + intros Hin. destruct (seg_in _ _ _ _ _ _ Hs Hq) as (? & ? & ? & E).
      rewrite Hnew in E; [done|done|].
      intros Hin'. by apply Hne, (R_disjoint _ _ _ _ _ _ _ HR Ha0 Ha Hq).
  - intros q b Hq. destruct (decide (q ∈ a'.(items).*1)) as [Hin|Hnin].
    + destruct Hok as (Hs & _). destruct (seg_in _ _ _ _ _ _ Hs Hin) as (? & ? & ? & E).
      rewrite Hq in E. injection E as ->. simpl. exists a'. by rewrite lookup_insert_eq.
    + destruct (decide (q ∈ a.(items).*1)) as [Hin|Hnin']; [by rewrite Hgone in Hq|].
      rewrite Hout in Hq by done. destruct (H3 _ _ Hq) as (a0 & Ha0 & Hin).
      exists a0. split; [|done]. rewrite lookup_insert_ne; [done|]. intros Heq.
      rewrite <- Heq in Ha0. congruence.
Qed.

(** ** Running the primitive steps on the pool [pid] *)

Definition is_cleanup (e : event) : bool := match e with Cleanup _ _ _ _ _ => true | _ => false end.
Definition cleanups (t : list event) : list event := List.filter is_cleanup t.

Lemma cleanups_app t1 t2 : cleanups (t1 ++ t2) = cleanups t1 ++ cleanups t2.
Proof. apply List.filter_app. Qed.

Definition logs (p : ks_pool) (func : pool_func) (n ele : Z) (o a : option positive) (on : Z) : list event :=
  match p.(log_func) with None => [] | Some fn => [PoolLog fn func n ele o a on] end.

Lemma cleanups_logs p func n ele o a on : cleanups (logs p func n ele o a on) = [].
Proof. unfold logs. by destruct (log_func p). Qed.

Lemma logs_ext p p' func n ele o a on :
  p.(log_func) = p'.(log_func) -> logs p func n ele o a on = logs p' func n ele o a on.
Proof. unfold logs. by intros ->. Qed.

Section Steps.
Variable (pid : positive) (P : gmap positive ks_pool).
Implicit Type (p : ks_pool) (B : gmap positive ks_pool_prefix) (t : list event).

Lemma get_pool_r p B t :
  get_pool pid (World (<[pid := p]> P) B t) = Ok (p, World (<[pid := p]> P) B t).
Proof. unfold get_pool. simpl. by rewrite lookup_insert_eq. Qed.

Lemma put_pool_r p p' B t :
  put_pool pid p' (World (<[pid := p]> P) B t) = Ok (tt, World (<[pid := p']> P) B t).
Proof. unfold put_pool. simpl. by rewrite insert_insert_eq. Qed.

Lemma upd_pool_r f p B t :
  upd_pool pid f (World (<[pid := p]> P) B t) = Ok (tt, World (<[pid := f p]> P) B t).
Proof. unfold upd_pool, mbind, M_bind. by rewrite get_pool_r, put_pool_r. Qed.

Lemma log_call_r func n ele o a on p B t :
  log_call pid func n ele o a on (World (<[pid := p]> P) B t) =
  Ok (tt, World (<[pid := p]> P) B (t ++ logs p func n ele o a on)).
Proof.
  unfold log_call, logs, mbind, M_bind. rewrite get_pool_r. destruct (log_func p); [done|].
  by rewrite app_nil_r.
Qed.

Lemma get_block_r q b p B t : B !! q = Some b ->
  get_block q (World (<[pid := p]> P) B t) = Ok (b, World (<[pid := p]> P) B t).
Proof. intros E. unfold get_block. simpl. by rewrite E. Qed.

Lemma put_block_r q b p B t :
  put_block q b (World (<[pid := p]> P) B t) = Ok (tt, World (<[pid := p]> P) (<[q := b]> B) t).
Proof. done. Qed.

Lemma upd_block_r q f b p B t : B !! q = Some b ->
  upd_block q f (World (<[pid := p]> P) B t) = Ok (tt, World (<[pid := p]> P) (<[q := f b]> B) t).
Proof. intros E. unfold upd_block, mbind, M_bind. by rewrite (get_block_r q b). Qed.

Lemma free_block_r q b p B t : B !! q = Some b ->
  free_block q (World (<[pid := p]> P) B t) = Ok (tt, World (<[pid := p]> P) (delete q B) t).
Proof. intros E. unfold free_block. simpl. by rewrite E. Qed.

Lemma lock_r d a B t :
  lock pid (World (<[pid := conc_at d a]> P) B t) = Ok (tt, World (<[pid := conc_at (d + 1) a]> P) B t).
Proof. apply upd_pool_r. Qed.

Lemma unlock_r d a B t :
  unlock pid (World (<[pid := conc_at d a]> P) B t) = Ok (tt, World (<[pid := conc_at (d - 1) a]> P) B t).
Proof. apply upd_pool_r. Qed.

Lemma check_prefix_r pid' pv nx b w : CHECK_PREFIX (conc pid' pv nx b) w = Ok (tt, w).
Proof. done. Qed.

Lemma assert_true w : assert true w = Ok (tt, w).
Proof. done. Qed.
End Steps.

Create Rewrite HintDb run.
#[local] Hint Rewrite get_pool_r put_pool_r upd_pool_r log_call_r put_block_r check_prefix_r assert_true
  lock_r unlock_r : run.

(** One step after the other, the block look-ups by the hypotheses at hand. *)
Ltac run :=
  unfold mbind, M_bind, mret, M_ret, query, lift, assert_success; cbn beta iota;
  repeat (progress (autorewrite with run; cbn beta iota zeta) ||
    match goal with
    | E : ?B !! ?q = Some ?b |- context [get_block ?q (World (<[?pid := ?p]> ?P) ?B ?t)] =>
      rewrite (get_block_r pid P q b p B t E)
    | E : ?B !! ?q = Some ?b |- context [upd_block ?q ?f (World (<[?pid := ?p]> ?P) ?B ?t)] =>
      rewrite (upd_block_r pid P q f b p B t E)
    | E : ?B !! ?q = Some ?b |- context [free_block ?q (World (<[?pid := ?p]> ?P) ?B ?t)] =>
      rewrite (free_block_r pid P q b p B t E)
    end).

(** ** The operations one by one *)

Lemma write_fence_end (m f : list Z) n :
  zlen m = n -> zlen f = KS_POOL_FENCE_SIZE -> write_fence (m ++ f) n = Ok (m ++ fence_bytes).
Proof.
  unfold KS_POOL_FENCE_SIZE. intros Hm Hf.
  destruct f as [|f0 [|f1 [|]]]; try (unfold zlen in Hf; simpl in Hf; lia).
  unfold write_fence. rewrite st_app_mid by done. cbn [mbind res_bind].
  change (KS_POOL_FENCE_MAGIC0 :: [f1]) with ([KS_POOL_FENCE_MAGIC0] ++ [f1]).
  rewrite app_assoc, st_app_mid by (rewrite zlen_app; unfold zlen in *; simpl; lia).
  by rewrite <- app_assoc.
Qed.

Lemma required_fits n : fits n -> u64 (KS_POOL_PREFIX_SIZE + n + KS_POOL_FENCE_SIZE) = n + 98.
Proof. unfold fits, KS_POOL_PREFIX_SIZE, KS_POOL_FENCE_SIZE, SIZE_MAX. intros. rewrite u64_id; lia. Qed.

Lemma zeroed_mem n : fits n ->
  write_fence (replicate (Z.to_nat (n + 98 - KS_POOL_PREFIX_SIZE)) 0) n = Ok (zeroed n).(b_mem).
Proof.
  unfold fits, KS_POOL_PREFIX_SIZE, KS_POOL_FENCE_SIZE. intros.
  replace (Z.to_nat (n + 98 - 96)) with (Z.to_nat n + 2)%nat by lia.
  rewrite replicate_add. apply write_fence_end; [|done]. rewrite zlen_replicate. lia.
Qed.

Lemma zeroed_ok n : fits n -> block_ok (zeroed n).
Proof.
  intros Hn. split; [done|]. split; [done|]. simpl. rewrite zlen_app, zlen_replicate.
  unfold fits in Hn. change (zlen fence_bytes) with 2. unfold KS_POOL_FENCE_SIZE. lia.
Qed.

Lemma zmax_if a b : (if a <? b then b else a) = Z.max a b.
Proof. destruct (Z.ltb_spec a b); lia. Qed.

Lemma count_push q b a : u64 (count a + 1) = count (a_push q b a).
Proof.
  unfold count, a_push. simpl. rewrite zlen_cons. unfold u64. rewrite Zplus_mod_idemp_l. f_equal. lia.
Qed.

Lemma user_push q b a : u64 (user a + b.(b_size)) = user (a_push q b a).
Proof. unfold user, a_push. simpl. unfold u64. rewrite Zplus_mod_idemp_l. f_equal. lia. Qed.

Lemma last_or_some q l : last_or (Some q) l = match last_or None l with None => Some q | r => r end.
Proof. unfold last_or. by destruct (stdpp.list_basics.list.last l). Qed.

Lemma alloc_pool d a q n :
  let p := set_first (Some q) (conc_at d a) in
  let p := match p.(last) with None => set_last (Some q) p | _ => p end in
  let u := u64 (p.(user_alloc) + n) in
  set_counts (u64 (p.(alloc_c) + 1)) u (if p.(max_alloc) <? u then u else p.(max_alloc)) p =
  conc_at d (a_push q (zeroed n) a).
Proof.
  unfold set_last, set_first, set_ends, conc_at.
  cbn [magic1 alloc_c user_alloc max_alloc log_func first last log_on_close magic2 mutex cleaning_up].
  rewrite zmax_if. cbn [a_push with_items items first_or fst].
  rewrite last_or_cons. cbn [fst]. rewrite last_or_some. rewrite <- !(count_push _ (zeroed n)).
  rewrite <- (user_push q (zeroed n)).
  destruct (last_or None (items a)); unfold set_counts;
    cbn [magic1 alloc_c user_alloc max_alloc log_func first last log_on_close magic2 mutex cleaning_up
         a_max a_push with_items a_log a_warn a_cleaned];
    rewrite !(user_push q (zeroed n)); done.
Qed.

Section Alloc.
Context `{CAlloc}.

(** The heap after a block is pushed. *)
Definition pushed (pid : positive) (B : gmap positive ks_pool_prefix) (q : positive) (b : ablock)
    (l : list (positive * ablock)) : gmap positive ks_pool_prefix :=
  <[q := conc pid None (first_or l None) b]>
    match l with [] => B | (r, c) :: l => <[r := conc pid (Some q) (first_or l None) c]> B end.

Lemma alloc_mem_r pid P B t d a n q :
  seg B pid None a.(items) None -> fits n -> malloc B (n + 98) = Some q ->
  alloc_mem pid n (World (<[pid := conc_at d a]> P) B t) =
  Ok (q, World (<[pid := conc_at d (a_push q (zeroed n) a)]> P) (pushed pid B q (zeroed n) a.(items))
           (t ++ logs (conc_at d a) KS_POOL_FUNC_INCREF n 1 None (Some q) 0)).
Proof.
  intros Hs Hf Hm. unfold alloc_mem. rewrite required_fits by done.
  pose proof Hf as Hf'. unfold fits in Hf'.
  destruct (Z.eqb_spec n 0); [lia|]. cbn [negb]. run. cbn [blocks]. rewrite Hm. cbn [non_null]. run.
  destruct (Z.ltb_spec (n + 98) KS_POOL_PREFIX_SIZE); [unfold KS_POOL_PREFIX_SIZE in *; lia|].
  rewrite zeroed_mem by done. cbn beta iota.
  unfold pushed. destruct (items a) as [|[r c] l] eqn:Ei.
  - cbn [conc_at first]. rewrite Ei. cbn [first_or]. run. rewrite alloc_pool, (logs_ext _ (conc_at d a)); [done|].
    by destruct (last _).
  - destruct Hs as [Er Hs]. cbn [conc_at first]. rewrite Ei. cbn [first_or fst]. run.
    rewrite alloc_pool, (logs_ext _ (conc_at d a)); [done|]. by destruct (last _).
Qed.

Lemma pushed_ok pid B q b a :
  pool_ok B pid a -> block_ok b -> B !! q = None -> pool_ok (pushed pid B q b a.(items)) pid (a_push q b a).
Proof.
  intros (Hs & Hn & Hf) Hb Hq.
  assert (Hqi : q ∉ (items a).*1).
  { intros Hin. destruct (seg_in _ _ _ _ _ _ Hs Hin) as (? & ? & ? & E). congruence. }
  split; [|split; [by apply NoDup_cons|by apply Forall_cons]]. unfold pushed, a_push. cbn [items with_items seg].
  rewrite lookup_insert_eq. split; [done|]. apply seg_insert; [done|].
  destruct (items a) as [|[r c] l]; [done|]. apply NoDup_cons in Hn as [Hr _].
  by apply (seg_set_prev B pid None).
Qed.

Lemma pushed_out pid B q b l r :
  r ∉ l.*1 -> r <> q -> pushed pid B q b l !! r = B !! r.
Proof.
  intros Hr Hne. unfold pushed. rewrite lookup_insert_ne by done.
  destruct l as [|[r' c] l]; [done|]. apply not_elem_of_cons in Hr as [Hr _].
  by rewrite lookup_insert_ne.
Qed.

Lemma R_push P B t t' A pid a q b :
  R (World (<[pid := conc_at 0 a]> P) B t) A -> A !! pid = Some a -> block_ok b -> B !! q = None ->
  R (World (<[pid := conc_at 0 (a_push q b a)]> P) (pushed pid B q b a.(items)) t') (<[pid := a_push q b a]> A).
Proof.
  intros HR Ha Hb Hq. pose proof HR as (_ & Hok & _). specialize (Hok _ _ Ha). simpl in Hok.
  pose proof (R_step _ _ _ _ pid a (a_push q b a) (pushed pid B q b (items a)) t' HR Ha) as Hstep.
  rewrite insert_insert_eq in Hstep. apply Hstep; clear Hstep.
  - by apply pushed_ok.
  - intros r Hr Hr'. cbn in Hr'. apply not_elem_of_cons in Hr' as [Hne _]. by apply pushed_out.
  - intros r Hr Hr'. cbn in Hr'. apply not_elem_of_cons in Hr' as [_ Hr']. done.
  - intros r Hr Hr'. cbn in Hr. apply elem_of_cons in Hr as [->|Hr]; done.
Qed.

Lemma fresh_of_none w A q : R w A -> w.(blocks) !! q = None -> fresh_addr A q.
Proof.
  intros (_ & H2 & _) Hq pid a Ha Hin. destruct (H2 _ _ Ha) as [Hs _].
  destruct (seg_in _ _ _ _ _ _ Hs Hin) as (? & ? & ? & E). congruence.
Qed.

End Alloc.

(** [does m w r evs A']: [m] returns [r], makes the callbacks [evs] and takes
    the world from [A] to [A']. *)
Definition does {X} (m : M X) (w : world) (r : X) (evs : list event) (A' : pools_t) : Prop :=
  exists w', m w = Ok (r, w') /\ R w' A' /\ cleanups w'.(trace) = cleanups w.(trace) ++ evs.

Lemma R_world w A pid a : R w A -> A !! pid = Some a ->
  w = World (<[pid := conc_at 0 a]> w.(pools)) w.(blocks) w.(trace) /\ pool_ok w.(blocks) pid a.
Proof.
  intros (HP & Hok & _) Ha. split; [|by apply Hok]. destruct w as [P B t]. simpl in *. f_equal.
  symmetry. apply insert_id. rewrite HP, lookup_fmap, Ha. done.
Qed.

(** Start from a world related to [A], opened at the pool [pid]. *)
Ltac open_world w Ha :=
  let Ew := fresh "Ew" in let Hok := fresh "Hok" in let HR' := fresh "HR" in
  match goal with HR : R w _ |- _ =>
    destruct (R_world _ _ _ _ HR Ha) as [Ew Hok];
    pose proof HR as HR'; rewrite Ew in HR'; unfold does; rewrite Ew; clear Ew;
    destruct w as [P B t]; cbn [pools blocks trace] in *
  end.

Ltac no_cleanups := cbn [trace]; rewrite ?cleanups_app, ?cleanups_logs, ?app_nil_r, ?app_assoc; done.

Section AllocDoes.
Context `{CAlloc}.

Lemma alloc_does w A pid a n q :
  R w A -> A !! pid = Some a -> fits n -> malloc w.(blocks) (n + 98) = Some q ->
  does (__ks_pool_alloc_ex pid n) w q [] (<[pid := a_push q (zeroed n) a]> A).
Proof.
  intros HR Ha Hf Hm. pose proof (malloc_fresh _ _ _ Hm) as Hq. open_world w Ha.
  unfold __ks_pool_alloc_ex. pose proof Hf as Hf'. unfold fits in Hf'.
  destruct (Z.eqb_spec n 0); [lia|]. cbn [negb]. run.
  rewrite (alloc_mem_r pid P B t (0 + 1) a n q) by (done || apply Hok). cbn beta iota. run.
  rewrite (get_block_r pid P q (conc pid None (first_or (items a) None) (zeroed n)))
    by (apply lookup_insert_eq). run.
  eexists. split; [done|]. split; [|no_cleanups]. by apply (R_push P B t); [..|apply zeroed_ok|].
Qed.

Lemma calloc_does w A pid a n m q :
  R w A -> A !! pid = Some a -> 0 < n -> 0 < m -> fits (n * m) -> malloc w.(blocks) (n * m + 98) = Some q ->
  does (__ks_pool_calloc_ex pid n m) w q [] (<[pid := a_push q (zeroed (n * m)) a]> A).
Proof.
  intros HR Ha Hn Hm' Hf Hm. pose proof (malloc_fresh _ _ _ Hm) as Hq. open_world w Ha.
  unfold __ks_pool_calloc_ex. pose proof Hf as Hf'. unfold fits, SIZE_MAX, KS_POOL_PREFIX_SIZE, KS_POOL_FENCE_SIZE in Hf'.
  destruct (Z.eqb_spec n 0); [lia|]. destruct (Z.eqb_spec m 0); [lia|]. cbn [negb]. run.
  rewrite u64_id by lia.
  rewrite (alloc_mem_r pid P B t (0 + 1) a (n * m) q) by (done || apply Hok). cbn beta iota. run.
  eexists. split; [done|]. split; [|no_cleanups]. by apply (R_push P B t); [..|apply zeroed_ok|].
Qed.

(** Without memory an allocation stops at the assertion. *)
Lemma alloc_oom w A pid a n :
  R w A -> A !! pid = Some a -> fits n -> malloc w.(blocks) (n + 98) = None ->
  __ks_pool_alloc_ex pid n w = Err AssertFail.
Proof.
  intros HR Ha Hf Hm. open_world w Ha. unfold __ks_pool_alloc_ex. pose proof Hf as Hf'. unfold fits in Hf'.
  destruct (Z.eqb_spec n 0) as [->|Hn]; [lia|]. cbn [negb]. run.
  unfold alloc_mem. rewrite required_fits by done. destruct (Z.eqb_spec n 0); [lia|]. cbn [negb]. run.
  cbn [blocks]. by rewrite Hm.
Qed.

Lemma calloc_oom w A pid a n m :
  R w A -> A !! pid = Some a -> 0 < n -> 0 < m -> fits (n * m) -> malloc w.(blocks) (n * m + 98) = None ->
  __ks_pool_calloc_ex pid n m w = Err AssertFail.
Proof.
  intros HR Ha Hn Hm' Hf Hm. open_world w Ha.
  unfold __ks_pool_calloc_ex. pose proof Hf as Hf'. unfold fits, SIZE_MAX, KS_POOL_PREFIX_SIZE, KS_POOL_FENCE_SIZE in Hf'.
  destruct (Z.eqb_spec n 0); [lia|]. destruct (Z.eqb_spec m 0); [lia|]. cbn [negb]. run.
  rewrite u64_id by lia. unfold alloc_mem. rewrite required_fits by done.
  destruct (Z.eqb_spec (n * m) 0); [lia|]. cbn [negb]. run. cbn [blocks]. by rewrite Hm.
Qed.

Lemma open_does w A pid : R w A -> malloc_pool w.(pools) = Some pid ->
  does ks_pool_tagged_open w (KS_STATUS_SUCCESS, pid) [] (<[pid := empty_pool]> A) /\ A !! pid = None.
Proof.
  intros HR Hm. pose proof (malloc_pool_fresh _ _ Hm) as Hp. pose proof HR as (HP & H2 & H3).
  assert (HA : A !! pid = None).
  { rewrite HP, lookup_fmap in Hp. by destruct (A !! pid). }
  split; [|done]. unfold does, ks_pool_tagged_open. run. rewrite Hm. cbn.
  eexists. split; [done|]. cbn. split; [|by rewrite app_nil_r].
  split; [simpl; by rewrite HP, fmap_insert|]. split; simpl.
  - intros pid' a'. destruct (decide (pid' = pid)) as [->|Hne].
    + rewrite lookup_insert_eq. intros [= <-]. repeat split; constructor.
    + rewrite lookup_insert_ne by done. apply H2.
  - intros q b Hq. destruct (H3 _ _ Hq) as (a' & Ha' & Hin). exists a'. split; [|done].
    rewrite lookup_insert_ne; [done|]. congruence.
Qed.
End AllocDoes.

Lemma total_app l1 l2 : total (l1 ++ l2) = total l1 + total l2.
Proof. induction l1 as [|x l1 IH]; [done|]. simpl. unfold total in *. lia. Qed.

Lemma first_or_upd l1 p b b' l2 : first_or (l1 ++ (p, b') :: l2) None = first_or (l1 ++ (p, b) :: l2) None.
Proof. by rewrite !first_or_app. Qed.

Lemma last_or_upd l1 p b b' l2 : last_or None (l1 ++ (p, b') :: l2) = last_or None (l1 ++ (p, b) :: l2).
Proof. by rewrite !last_or_app, !last_or_cons. Qed.

(** A block changed in place does not show in the pool. *)
Lemma conc_upd d a l1 p b b' l2 : items a = l1 ++ (p, b) :: l2 -> b'.(b_size) = b.(b_size) ->
  conc_at d (with_items (l1 ++ (p, b') :: l2) a) = conc_at d a.
Proof.
  intros Ei Es. unfold conc_at, count, user. cbn [items with_items extra_c extra_u a_max a_log a_warn a_cleaned].
  rewrite Ei, (first_or_upd l1 p b), (last_or_upd l1 p b), !total_app, !zlen_app. simpl.
  rewrite !zlen_cons, Es. done.
Qed.

Lemma addrs_upd (l1 : list (positive * ablock)) p b b' l2 :
  (l1 ++ (p, b') :: l2).*1 = (l1 ++ (p, b) :: l2).*1.
Proof. by rewrite !fmap_app. Qed.

Lemma R_upd P B t t' A pid a l1 p b b' l2 :
  R (World (<[pid := conc_at 0 a]> P) B t) A -> live A pid a l1 p b l2 -> block_ok b' ->
  b'.(b_size) = b.(b_size) ->
  R (World (<[pid := conc_at 0 a]> P)
       (<[p := conc pid (last_or None l1) (first_or l2 None) b']> B) t') (a_upd pid a l1 p b' l2 A).
Proof.
  intros HR [Ha Ei] Hb Es. pose proof HR as (_ & Hok & _). specialize (Hok _ _ Ha). simpl in Hok.
  destruct Hok as (Hs & Hn & Hf).
  rewrite <- (conc_upd 0 a l1 p b b' l2 Ei Es). unfold a_upd.
  pose proof (R_step _ _ _ _ pid a (with_items (l1 ++ (p, b') :: l2) a)
    (<[p := conc pid (last_or None l1) (first_or l2 None) b']> B) t' HR Ha) as Hstep.
  rewrite insert_insert_eq in Hstep. cbn [items with_items] in Hstep. rewrite Ei in *.
  assert (Hp : p ∈ (l1 ++ (p, b) :: l2).*1).
  { rewrite fmap_app. apply elem_of_app. right. by left. }
  apply Hstep; clear Hstep.
  - split; [|split]; cbn [items with_items]; [by apply (seg_upd B pid l1 p b)| |].
    + by rewrite (addrs_upd _ _ b).
    + apply Forall_app in Hf as [Hf1 Hf2%Forall_cons]. apply Forall_app. split; [done|].
      apply Forall_cons. split; [done|apply Hf2].
  - intros q Hq _. rewrite lookup_insert_ne; [done|]. congruence.
  - intros q Hq Hq'. by rewrite (addrs_upd _ _ b) in Hq'.
  - intros q Hq Hq'. by rewrite (addrs_upd _ _ b) in Hq.
Qed.

(** Open the world at the pool of a live block. *)
Ltac open_live w HL :=
  let Ha := fresh "Ha" in let Ei := fresh "Ei" in let Eb := fresh "Eb" in let Hbk := fresh "Hbk" in
  let HL' := fresh "HL" in
  pose proof HL as HL'; destruct HL' as [Ha Ei]; open_world w Ha;
  match goal with Hok : pool_ok ?B ?pid ?a |- _ =>
    let Hs := fresh "Hs" in let Hn := fresh "Hn" in let Hf := fresh "Hf" in
    destruct Hok as (Hs & Hn & Hf); rewrite Ei in Hs, Hn, Hf;
    pose proof (seg_mid _ _ _ _ _ _ Hs) as Eb;
    pose proof (proj1 (proj1 (Forall_cons _ _ _) (proj2 (proj1 (Forall_app _ _ _) Hf)))) as Hbk;
    cbn [snd] in Hbk
  end.

Section InPlace.
Context `{CAlloc}.

Lemma ref_does w A pid a l1 p b l2 : R w A -> live A pid a l1 p b l2 -> b.(b_refs) < SIZE_MAX ->
  does (ks_pool_ref_ex (Some p)) w p []
    (a_upd pid a l1 p (ABlock b.(b_size) (b.(b_refs) + 1) b.(b_mem) b.(b_clean)) l2 A).
Proof.
  intros HR HL Hr. open_live w HL. destruct Hbk as (Hfit & Hrefs & Hmem).
  unfold ks_pool_ref_ex. run. cbn [non_null]. run. cbn [p_pool conc]. run. cbn [refs size conc].
  rewrite u64_id by (unfold SIZE_MAX in *; lia).
  eexists. split; [done|]. split; [|no_cleanups].
  apply (R_upd P B t _ _ _ _ _ _ b (ABlock (b_size b) (b_refs b + 1) (b_mem b) (b_clean b))); [exact HR0|exact HL| |reflexivity].
  apply block_ok_intro; [exact Hfit|simpl; lia|exact Hmem].
Qed.

Lemma set_cleanup_does w A pid a l1 p b l2 arg cb : R w A -> live A pid a l1 p b l2 ->
  does (ks_pool_set_cleanup (Some p) arg cb) w KS_STATUS_SUCCESS []
    (a_upd pid a l1 p (ABlock b.(b_size) b.(b_refs) b.(b_mem) (Some (cb, arg))) l2 A).
Proof.
  intros HR HL. open_live w HL. unfold ks_pool_set_cleanup. cbn [non_null]. run.
  eexists. split; [done|]. split; [|no_cleanups].
  apply (R_upd P B t _ _ _ _ _ _ b (ABlock (b_size b) (b_refs b) (b_mem b) (Some (cb, arg)))); [exact HR0|exact HL|exact Hbk|reflexivity].
Qed.

Lemma remove_cleanup_does w A pid a l1 p b l2 : R w A -> live A pid a l1 p b l2 ->
  does (ks_pool_remove_cleanup (Some p)) w KS_STATUS_SUCCESS []
    (a_upd pid a l1 p (ABlock b.(b_size) b.(b_refs) b.(b_mem) None) l2 A).
Proof.
  intros HR HL. open_live w HL. unfold ks_pool_remove_cleanup. cbn [non_null]. run.
  eexists. split; [done|]. split; [|no_cleanups].
  apply (R_upd P B t _ _ _ _ _ _ b (ABlock (b_size b) (b_refs b) (b_mem b) None)); [exact HR0|exact HL|exact Hbk|reflexivity].
Qed.

Lemma blit_ok (m : list Z) off bs : 0 <= off -> off + zlen bs <= zlen m ->
  exists m', blit m off bs = Ok m' /\ zlen m' = zlen m.
Proof.
  intros Ho Hl. unfold blit. destruct (Z.leb_spec 0 off); [|lia].
  destruct (Z.leb_spec (off + zlen bs) (zlen m)); [|lia]. simpl. eexists. split; [done|].
  rewrite !zlen_app. pose proof (zlen_nonneg bs). rewrite zlen_take_le by lia. rewrite zlen_drop_le; lia.
Qed.

Lemma store_does w A pid a l1 p b l2 off bs : R w A -> live A pid a l1 p b l2 ->
  0 <= off -> off + zlen bs <= b.(b_size) + KS_POOL_FENCE_SIZE ->
  exists m, blit b.(b_mem) off bs = Ok m /\
  does (store p off bs) w tt [] (a_upd pid a l1 p (ABlock b.(b_size) b.(b_refs) m b.(b_clean)) l2 A).
Proof.
  intros HR HL Ho Hl. open_live w HL. destruct Hbk as (Hfit & Hrefs & Hmem).
  destruct (blit_ok (b_mem b) off bs) as (m & Em & Hm); [lia|lia|]. exists m. split; [done|].
  unfold store. run. unfold lift. cbn [mem conc]. rewrite Em. run.
  eexists. split; [done|]. split; [|no_cleanups].
  apply (R_upd P B t _ _ _ _ _ _ b (ABlock (b_size b) (b_refs b) m (b_clean b))); [exact HR0|exact HL| |reflexivity].
  apply block_ok_intro; [exact Hfit|exact Hrefs|cbn; by rewrite Hm].
Qed.

Lemma check_fence_ok m n : 0 <= n -> drop (Z.to_nat n) m = fence_bytes -> check_fence m n = Ok KS_STATUS_SUCCESS.
Proof.
  intros Hn Hd. assert (Em : m = take (Z.to_nat n) m ++ fence_bytes) by (by rewrite <- Hd, take_drop).
  assert (Hl : zlen (take (Z.to_nat n) m) = n).
  { apply zlen_take_le. split; [done|]. apply (f_equal length) in Hd. rewrite length_drop in Hd.
    simpl in Hd. unfold zlen. lia. }
  unfold check_fence. rewrite Em. unfold fence_bytes. rewrite (ld_app_mid _ _ _ n) by (symmetry; exact Hl).
  cbn [mbind res_bind]. change (KS_POOL_FENCE_MAGIC0 =? KS_POOL_FENCE_MAGIC0) with true. cbn iota.
  change [KS_POOL_FENCE_MAGIC0; KS_POOL_FENCE_MAGIC1] with ([KS_POOL_FENCE_MAGIC0] ++ [KS_POOL_FENCE_MAGIC1]).
  rewrite app_assoc, ld_app_mid by (rewrite zlen_app; unfold zlen in *; simpl; lia). done.
Qed.

Lemma verify_does w A pid a l1 p b l2 : R w A -> live A pid a l1 p b l2 -> fenced b ->
  does (ks_pool_verify (Some p)) w true [] A.
Proof.
  intros HR HL Hfe. open_live w HL. destruct Hbk as (Hfit & Hrefs & Hmem).
  unfold ks_pool_verify. run. unfold lift. cbn [mem size conc].
  rewrite check_fence_ok by (done || (unfold fits in Hfit; lia)).
  eexists. split; [done|]. split; [done|no_cleanups].
Qed.

Lemma get_does w A pid a l1 p b l2 : R w A -> live A pid a l1 p b l2 -> does (ks_pool_get (Some p)) w pid [] A.
Proof.
  intros HR HL. open_live w HL. unfold ks_pool_get. cbn [non_null]. run.
  eexists. split; [done|]. split; [done|no_cleanups].
Qed.

Lemma stats_does w A pid a : R w A -> A !! pid = Some a ->
  does (ks_pool_stats pid) w (count a, user a, a.(a_max), u64 (user a + count a * 98)) [] A.
Proof.
  intros HR Ha. open_world w Ha. unfold ks_pool_stats. run.
  eexists. split; [done|]. split; [done|no_cleanups].
Qed.

Lemma set_log_does w A pid a fn : R w A -> A !! pid = Some a ->
  does (ks_pool_set_log_func pid fn) w KS_STATUS_SUCCESS []
    (<[pid := APool a.(items) a.(extra_c) a.(extra_u) a.(a_max) (Some fn) a.(a_warn) a.(a_cleaned)]> A).
Proof.
  intros HR Ha. open_world w Ha. unfold ks_pool_set_log_func. run.
  eexists. split; [done|]. split; [|no_cleanups].
  pose proof (R_step _ _ _ _ pid a (APool (items a) (extra_c a) (extra_u a) (a_max a) (Some fn) (a_warn a)
    (a_cleaned a)) B t HR0 Ha) as Hstep. rewrite insert_insert_eq in Hstep. by apply Hstep.
Qed.
End InPlace.

(** ** Freeing a block *)

Lemma nil_or_snoc {X} (l : list X) : l = [] \/ exists l' x, l = l' ++ [x].
Proof. destruct l as [|x l] using rev_ind; [by left|right; eauto]. Qed.

Lemma NoDup_mid (l1 : list (positive * ablock)) p b l2 : NoDup (l1 ++ (p, b) :: l2).*1 ->
  NoDup (l1 ++ l2).*1 /\ p ∉ (l1 ++ l2).*1.
Proof.
  rewrite !fmap_app. simpl. intros (H1 & H12 & [Hp H2]%NoDup_cons)%NoDup_app. split.
  - apply NoDup_app. split; [done|]. split; [|done]. intros q Hq Hq'. apply (H12 q Hq). by right.
  - rewrite elem_of_app. intros [Hq|Hq]; [|done]. apply (H12 p Hq). by left.
Qed.

Lemma unlink_r pid P B t pl l1 p b l2 :
  seg B pid None (l1 ++ (p, b) :: l2) None -> NoDup (l1 ++ (p, b) :: l2).*1 ->
  pl.(first) = first_or (l1 ++ (p, b) :: l2) None -> pl.(last) = last_or None (l1 ++ (p, b) :: l2) ->
  exists B', unlink pid (conc pid (last_or None l1) (first_or l2 None) b) (World (<[pid := pl]> P) B t) =
    Ok (tt, World (<[pid := set_ends (first_or (l1 ++ l2) None) (last_or None (l1 ++ l2)) pl]> P) B' t) /\
    seg B' pid None (l1 ++ l2) None /\ (forall q, q ∉ (l1 ++ l2).*1 -> B' !! q = B !! q).
Proof.
  intros Hs Hn Ef El. destruct (NoDup_mid _ _ _ _ Hn) as [Hn' _].
  apply seg_app in Hs as [Hs1 [_ Hs2]]. cbn [first_or fst] in Hs1.
  unfold unlink. cbn [conc prev next].
  destruct (nil_or_snoc l1) as [->|(l1' & [q c] & ->)], l2 as [|[r e] l2'];
    rewrite ?app_nil_r, ?last_or_snoc in *; cbn [app first_or last_or stdpp.list_basics.list.last fst] in *; run.
  - exists B. done.
  - cbn in Hn'. apply NoDup_cons in Hn' as [Hr _].
    destruct (seg_set_prev B pid (Some p) None l2' r e None Hr Hs2) as [Er Hs2'].
    run. eexists. split; [|split; [exact Hs2'|]].
    + unfold set_first. rewrite El, !last_or_cons. done.
    + intros q Hq. rewrite lookup_insert_ne; [done|]. intros ->. apply Hq. by left.
  - rewrite fmap_app in Hn'. cbn in Hn'. apply NoDup_app in Hn' as (_ & H12 & _).
    assert (Hq : q ∉ l1'.*1) by (intros Hin; apply (H12 q Hin); by left).
    destruct (seg_set_next B pid None l1' q c (Some p) None Hq Hs1) as [Eq Hs1'].
    run. eexists. split; [|split; [exact Hs1'|]].
    + unfold set_last. rewrite Ef, !first_or_app. by destruct l1'.
    + intros r Hr. rewrite lookup_insert_ne; [done|]. intros ->. apply Hr. rewrite fmap_app.
      apply elem_of_app. right. by left.
  - rewrite <- app_assoc in *. rewrite fmap_app in Hn'. cbn in Hn'.
    apply NoDup_app in Hn' as (_ & H12 & [Hqr Hn2]%NoDup_cons). apply NoDup_cons in Hn2 as [Hr _].
    assert (Hq : q ∉ l1'.*1) by (intros Hin; apply (H12 q Hin); by left).
    assert (Hr1 : r ∉ l1'.*1) by (intros Hin; apply (H12 r Hin); right; by left).
    assert (Hql : q ∉ l2'.*1) by (intros Hin; apply Hqr; by right).
    assert (Hne : r <> q) by (intros ->; apply Hqr; by left).
    destruct (seg_set_next B pid None l1' q c (Some p) (Some r) Hq Hs1) as [Eq Hs1'].
    run. apply (seg_insert _ _ _ _ _ q (conc pid (last_or None l1') (Some r) c)) in Hs2;
      [|cbn; by apply not_elem_of_cons].
    destruct (seg_set_prev _ pid (Some p) (Some q) l2' r e None Hr Hs2) as [Er Hs2'].
    change (set_next (Some r) (conc pid (last_or None l1') (Some p) c))
      with (conc pid (last_or None l1') (Some r) c).
    run. eexists. split; [|split].
    + assert (E : set_ends (first_or (l1' ++ (q, c) :: (r, e) :: l2') None)
        (last_or None (l1' ++ (q, c) :: (r, e) :: l2')) pl = pl).
      { rewrite first_or_app, last_or_app, !last_or_cons. cbn [first_or fst].
        rewrite <- ?app_assoc, ?first_or_app in Ef. rewrite <- ?app_assoc, ?last_or_app in El.
        cbn [app] in El. rewrite !last_or_cons in El.
        cbn [app first_or fst] in Ef. cbn [fst] in El. rewrite <- El. destruct pl. unfold set_ends. cbn in *. f_equal.
        rewrite Ef. by destruct l1'. }
      cbn [app]. rewrite E. done.
    + cbn [app]. apply seg_app. cbn [first_or fst]. cbn [seg]. split; [|split].
      * apply seg_app in Hs1' as [Hs1' _]. apply seg_insert; [done|exact Hs1'].
      * rewrite lookup_insert_ne by done. rewrite lookup_insert_eq. done.
      * exact Hs2'.
    + intros x Hx. cbn [app] in Hx. rewrite fmap_app in Hx. cbn in Hx.
      rewrite !lookup_insert_ne; [done|intros ->; set_solver|intros ->; set_solver].
Qed.

Lemma zlen_mid {X} (l1 : list X) x l2 : zlen (l1 ++ x :: l2) = zlen (l1 ++ l2) + 1.
Proof. rewrite !zlen_app, zlen_cons. lia. Qed.

Lemma total_mid l1 p b l2 : total (l1 ++ (p, b) :: l2) = total (l1 ++ l2) + b.(b_size).
Proof. rewrite !total_app. simpl. lia. Qed.

(** The counters after a block left the list. *)
Lemma conc_removed d a l1 p b l2 : items a = l1 ++ (p, b) :: l2 ->
  let pl := set_ends (first_or (l1 ++ l2) None) (last_or None (l1 ++ l2)) (conc_at d a) in
  set_counts (u64 (pl.(alloc_c) - 1)) (u64 (pl.(user_alloc) - b.(b_size))) pl.(max_alloc) pl =
  conc_at d (with_items (l1 ++ l2) a).
Proof.
  intros Ei. unfold conc_at, count, user, set_ends, set_counts.
  cbn [magic1 alloc_c user_alloc max_alloc log_func first last log_on_close magic2 mutex cleaning_up
    items with_items extra_c extra_u a_max a_log a_warn a_cleaned].
  rewrite Ei, zlen_mid, total_mid. unfold u64. rewrite !Zminus_mod_idemp_l. do 2 f_equal; f_equal; lia.
Qed.

(** The world after a block left its list and the heap. *)
Lemma R_take P B B' t t' A pid a l1 p b l2 :
  R (World (<[pid := conc_at 0 a]> P) B t) A -> live A pid a l1 p b l2 ->
  NoDup (l1 ++ (p, b) :: l2).*1 -> seg B' pid None (l1 ++ l2) None ->
  (forall q, q <> p -> q ∉ (l1 ++ l2).*1 -> B' !! q = B !! q) ->
  R (World (<[pid := conc_at 0 (with_items (l1 ++ l2) a)]> P) (delete p B') t')
    (<[pid := with_items (l1 ++ l2) a]> A).
Proof.
  intros HR [Ha Ei] Hn Hs Hout. destruct (NoDup_mid _ _ _ _ Hn) as [Hn' Hp].
  pose proof HR as (_ & Hok & _). destruct (Hok _ _ Ha) as (_ & _ & Hf).
  pose proof (R_step _ _ _ _ pid a (with_items (l1 ++ l2) a) (delete p B') t' HR Ha) as Hstep.
  rewrite insert_insert_eq in Hstep. cbn [items with_items] in Hstep. rewrite Ei in *.
  assert (Hin : forall q, q ∈ (l1 ++ (p, b) :: l2).*1 <-> q = p \/ q ∈ (l1 ++ l2).*1).
  { intros q. rewrite !fmap_app. cbn. rewrite !elem_of_app, elem_of_cons. tauto. }
  apply Hstep; clear Hstep.
  - split; [by apply seg_delete|]. split; [done|]. cbn [items with_items].
    apply Forall_app in Hf as [Hf1 [_ Hf2]%Forall_cons]. by apply Forall_app.
  - intros q Hq _. rewrite Hin in Hq. apply Decidable.not_or in Hq as [Hne Hq].
    rewrite lookup_delete_ne by done. by apply Hout.
  - intros q Hq Hq'. apply Hin in Hq as [->|Hq]; [by rewrite lookup_delete_eq|done].
  - intros q Hq Hq'. destruct Hq'. apply Hin. by right.
Qed.

Section Free.
Context `{CAlloc}.
Variable callback : Z -> positive -> Z -> ks_pool_cleanup_action_t -> ks_pool_cleanup_type_t -> M unit.
(** A callback that leaves the pools alone. *)
Hypothesis quiet : forall cb p arg act ty w, callback cb p arg act ty w = Ok (tt, w).

Lemma call_cleanup_r cb p arg act ty w :
  call_cleanup callback cb p arg act ty w =
  Ok (tt, World w.(pools) w.(blocks) (w.(trace) ++ [Cleanup cb p arg act ty])).
Proof. unfold call_cleanup, mbind, M_bind, emit. by rewrite quiet. Qed.

Lemma cleanup_on_free_r pid P B t d a p pv nx b :
  B !! p = Some (conc pid pv nx b) ->
  perform_pool_cleanup_on_free callback p (World (<[pid := conc_at d a]> P) B t) =
  Ok (tt, World (<[pid := conc_at d a]> P) B (t ++ if a.(a_cleaned) then [] else freed_events p b)).
Proof.
  intros Eb. unfold perform_pool_cleanup_on_free, freed_events. run. cbn [p_pool conc]. run.
  cbn [cleaning_up conc_at]. destruct (a_cleaned a); [by rewrite app_nil_r|].
  unfold conc at 1. cbn [cleanup_callback]. destruct (b_clean b) as [[cb arg]|] eqn:Ec; cbn [fmap option_fmap option_map fst];
    [|by rewrite app_nil_r].
  rewrite call_cleanup_r. cbn [pools blocks trace]. run.
  unfold conc at 1. cbn [cleanup_callback]. rewrite Ec. cbn [fmap option_fmap option_map fst].
  rewrite call_cleanup_r. cbn [pools blocks trace]. run.
  unfold conc at 1. cbn [cleanup_callback]. rewrite Ec. cbn [fmap option_fmap option_map fst].
  rewrite call_cleanup_r. cbn [pools blocks trace].
  unfold conc. cbn [cleanup_arg]. rewrite Ec. cbn [from_option snd]. by rewrite <- !app_assoc.
Qed.

Lemma cleanups_freed p b : cleanups (freed_events p b) = freed_events p b.
Proof. unfold freed_events. by destruct (b_clean b) as [[]|]. Qed.

Lemma free_ref_does w A pid a l1 p b l2 : R w A -> live A pid a l1 p b l2 -> 1 < b.(b_refs) ->
  does (ks_pool_free_ex callback (Some p)) w (KS_STATUS_REFS_EXIST, Some p) []
    (a_upd pid a l1 p (ABlock b.(b_size) (b.(b_refs) - 1) b.(b_mem) b.(b_clean)) l2 A).
Proof.
  intros HR HL Hr. open_live w HL. destruct Hbk as (Hfit & Hrefs & Hmem).
  unfold ks_pool_free_ex. run. cbn [p_pool conc]. run. unfold free_mem. run.
  cbn [p_pool refs size conc]. destruct (Z.ltb_spec 0 (b_refs b)); [|lia]. run.
  rewrite (get_block_r pid P p (conc pid (last_or None l1) (first_or l2 None)
    (ABlock (b_size b) (b_refs b - 1) (b_mem b) (b_clean b)))) by (apply lookup_insert_eq).
  cbn beta iota. cbn [refs conc b_refs]. destruct (Z.ltb_spec 0 (b_refs b - 1)); [|lia]. run.
  rewrite bool_decide_eq_true_2 by done.
  eexists. split; [done|]. split; [|no_cleanups].
  apply (R_upd P B t _ _ _ _ _ _ b (ABlock (b_size b) (b_refs b - 1) (b_mem b) (b_clean b)));
    [exact HR0|exact HL| |reflexivity].
  apply block_ok_intro; [exact Hfit|simpl; lia|exact Hmem].
Qed.

Lemma free_mem_last_r pid P B t a l1 p b l2 ret :
  seg B pid None (l1 ++ (p, b) :: l2) None -> NoDup (l1 ++ (p, b) :: l2).*1 ->
  items a = l1 ++ (p, b) :: l2 -> b.(b_refs) = 1 -> check_fence b.(b_mem) b.(b_size) = Ok ret ->
  exists B' t', free_mem callback p (World (<[pid := conc_at 1 a]> P) B t) =
    Ok (ret, World (<[pid := conc_at 1 (with_items (l1 ++ l2) a)]> P) (delete p B') t') /\
    seg B' pid None (l1 ++ l2) None /\
    (forall q, q <> p -> q ∉ (l1 ++ l2).*1 -> B' !! q = B !! q) /\
    cleanups t' = cleanups t ++ if a.(a_cleaned) then [] else freed_events p b.
Proof.
  intros Hs Hn Ei Hr Hfe. pose proof (seg_mid _ _ _ _ _ _ Hs) as Eb.
  set (b0 := ABlock (b_size b) 0 (b_mem b) (b_clean b)).
  pose proof (seg_upd B pid l1 p b b0 l2 Hn Hs) as Hs0.
  assert (Hn0 : NoDup (l1 ++ (p, b0) :: l2).*1) by (by rewrite (addrs_upd _ _ b)).
  destruct (NoDup_mid _ _ _ _ Hn0) as [Hn' Hp].
  unfold free_mem. run. cbn [p_pool refs size conc]. rewrite Hr. change (0 <? 1) with true. cbn iota. run.
  change (set_refs (1 - 1) (conc pid (last_or None l1) (first_or l2 None) b))
    with (conc pid (last_or None l1) (first_or l2 None) b0).
  set (B0 := <[p := conc pid (last_or None l1) (first_or l2 None) b0]> B) in *.
  assert (Eb0 : B0 !! p = Some (conc pid (last_or None l1) (first_or l2 None) b0)) by (apply lookup_insert_eq).
  run. cbn [refs mem size conc b0 b_refs b_mem b_size]. change (0 <? 0) with false. cbn iota.
  unfold lift. rewrite Hfe. cbn beta iota.
  rewrite (cleanup_on_free_r _ _ _ _ _ _ p _ _ b0 Eb0). cbn beta iota. run.
  match goal with |- context [World (<[pid := conc_at ?d a]> P) B0 ?t] =>
    destruct (unlink_r pid P B0 t (conc_at d a) l1 p b0 l2 Hs0 Hn0) as (B' & Eu & Hs' & Hout);
      [cbn [conc_at first]; by rewrite Ei, (first_or_upd l1 p b b0)
      |cbn [conc_at last]; by rewrite Ei, (last_or_upd l1 p b b0)|]
  end.
  fold b0. rewrite Eu. cbn beta iota.
  assert (Ep : B' !! p = Some (conc pid (last_or None l1) (first_or l2 None) b0)) by (by rewrite Hout).
  run. cbn [size conc b_size]. rewrite (conc_removed _ _ l1 p b l2 Ei).
  eexists B', _. split; [done|]. split; [exact Hs'|]. split.
  - intros q Hq Hq'. rewrite Hout by done. unfold B0. by rewrite lookup_insert_ne.
  - rewrite !cleanups_app, !cleanups_logs, ?app_nil_r. f_equal.
    destruct (a_cleaned a); [done|]. change (freed_events p b0) with (freed_events p b). apply cleanups_freed.
Qed.

Lemma free_last_does w A pid a l1 p b l2 : R w A -> live A pid a l1 p b l2 -> b.(b_refs) = 1 -> fenced b ->
  does (ks_pool_free_ex callback (Some p)) w (KS_STATUS_SUCCESS, None)
    (if a.(a_cleaned) then [] else freed_events p b) (<[pid := with_items (l1 ++ l2) a]> A).
Proof.
  intros HR HL Hr Hfe. open_live w HL. destruct Hbk as ([? ?] & _ & _).
  unfold ks_pool_free_ex. run. cbn [p_pool conc]. run.
  match goal with |- context [free_mem _ _ (World _ B ?t1)] =>
    destruct (free_mem_last_r pid P B t1 a l1 p b l2 KS_STATUS_SUCCESS Hs Hn Ei Hr) as
      (B' & t' & E & Hs' & Hout & Et) end.
  { apply check_fence_ok; [lia|exact Hfe]. }
  change (0 + 1) with 1 in *. rewrite E. cbn beta iota. run. rewrite bool_decide_eq_false_2 by done. run.
  eexists. split; [done|]. split; [by apply (R_take P B B' t _ A pid a l1 p b l2 HR0 HL)|].
  cbn [trace]. rewrite Et, cleanups_app, cleanups_logs, app_nil_r. done.
Qed.

(** A block whose fence was overwritten: the check fails, and so does the free. *)
Lemma check_fence_bad (m : list Z) n : 0 <= n -> zlen m = n + KS_POOL_FENCE_SIZE ->
  drop (Z.to_nat n) m <> fence_bytes ->
  check_fence m n = if sigint_fatal then Err Aborted else Ok KS_STATUS_PNT_OVER.
Proof.
  unfold KS_POOL_FENCE_SIZE. intros Hn Hl Hd. assert (Hz : zlen (drop (Z.to_nat n) m) = zlen m - n) by (apply zlen_drop_le; lia).
  assert (Hm : m = take (Z.to_nat n) m ++ drop (Z.to_nat n) m) by (by rewrite take_drop).
  assert (Ht : n = zlen (take (Z.to_nat n) m)) by (rewrite zlen_take_le; lia).
  destruct (drop (Z.to_nat n) m) as [|f0 [|f1 [|f2 rest]]] eqn:Ed; rewrite ?zlen_cons, ?zlen_nil in Hz; try lia.
  2: { clear -Hz Hl. pose proof (zlen_nonneg rest). lia. }
  unfold check_fence. rewrite Hm. rewrite (ld_app_mid _ _ _ n) by exact Ht. cbn [mbind res_bind].
  change (f0 :: [f1]) with ([f0] ++ [f1]).
  rewrite app_assoc, ld_app_mid by (rewrite zlen_app; unfold zlen in *; simpl; lia).
  destruct (Z.eqb_spec f0 KS_POOL_FENCE_MAGIC0) as [->|]; [|done]. cbn [mbind res_bind].
  destruct (Z.eqb_spec f1 KS_POOL_FENCE_MAGIC1) as [->|]; done.
Qed.

End Free.

(** ** Resizing a block *)

(** The last block before the moved one gets its new address. *)
Lemma fix_next_r pid P B t pl l1 nx nx' :
  seg B pid None l1 nx -> NoDup l1.*1 ->
  exists B', (match last_or None l1 with
    | Some q => upd_block q (set_next nx') | None => upd_pool pid (set_first nx') end)
      (World (<[pid := pl]> P) B t) =
    Ok (tt, World (<[pid := if last_or None l1 is Some _ then pl else set_first nx' pl]> P) B' t) /\
    seg B' pid None l1 nx' /\ (forall q, q ∉ l1.*1 -> B' !! q = B !! q).
Proof.
  intros Hs Hn. destruct (nil_or_snoc l1) as [->|(l & [q c] & ->)].
  - cbn. run. by exists B.
  - rewrite last_or_snoc. cbn [fst]. rewrite fmap_app in Hn. apply NoDup_app in Hn as (_ & H12 & _).
    assert (Hq : q ∉ l.*1) by (intros Hin; apply (H12 q Hin); by left).
    destruct (seg_set_next B pid None l q c nx nx' Hq Hs) as [Eq Hs'].
    run. eexists. split; [done|]. split; [exact Hs'|].
    intros r Hr. rewrite lookup_insert_ne; [done|]. intros ->. apply Hr. rewrite fmap_app.
    apply elem_of_app. right. by left.
Qed.

Lemma fix_prev_r pid P B t pl l2 pv pv' :
  seg B pid pv l2 None -> NoDup l2.*1 ->
  exists B', (match first_or l2 None with
    | Some q => upd_block q (set_prev pv') | None => upd_pool pid (set_last pv') end)
      (World (<[pid := pl]> P) B t) =
    Ok (tt, World (<[pid := if first_or l2 None is Some _ then pl else set_last pv' pl]> P) B' t) /\
    seg B' pid pv' l2 None /\ (forall q, q ∉ l2.*1 -> B' !! q = B !! q).
Proof.
  intros Hs Hn. destruct l2 as [|[q c] l].
  - cbn. run. by exists B.
  - cbn [first_or fst]. apply NoDup_cons in Hn as [Hq _].
    destruct (seg_set_prev B pid pv pv' l q c None Hq Hs) as [Eq Hs'].
    run. eexists. split; [done|]. split; [exact Hs'|].
    intros r Hr. rewrite lookup_insert_ne; [done|]. intros ->. apply Hr. by left.
Qed.

Lemma relink_r pid P B t pl l1 p p' b b1 l2 :
  seg B pid None l1 (Some p) -> seg B pid (Some p) l2 None ->
  B !! p' = Some (conc pid (last_or None l1) (first_or l2 None) b1) ->
  NoDup (l1 ++ (p', b1) :: l2).*1 ->
  pl.(first) = first_or (l1 ++ (p, b) :: l2) None -> pl.(last) = last_or None (l1 ++ (p, b) :: l2) ->
  exists B', relink pid p' (World (<[pid := pl]> P) B t) =
    Ok (tt, World (<[pid := set_ends (first_or (l1 ++ (p', b1) :: l2) None)
                              (last_or None (l1 ++ (p', b1) :: l2)) pl]> P) B' t) /\
    seg B' pid None (l1 ++ (p', b1) :: l2) None /\
    (forall q, q ∉ (l1 ++ l2).*1 -> B' !! q = B !! q).
Proof.
  intros Hs1 Hs2 Ep Hn Ef El. destruct (NoDup_mid _ _ _ _ Hn) as [Hn' Hp].
  rewrite fmap_app in Hn'. apply NoDup_app in Hn' as (Hn1 & H12 & Hn2).
  rewrite fmap_app, not_elem_of_app in Hp. destruct Hp as [Hp1 Hp2].
  unfold relink. run. cbn [prev next conc].
  destruct (fix_next_r pid P B t pl l1 (Some p) (Some p') Hs1 Hn1) as (B1 & -> & Hs1' & Hout1).
  cbn beta iota. apply (seg_ext _ B1) in Hs2.
  2: { intros q Hq. apply Hout1. intros Hq'. by apply (H12 q). }
  match goal with |- context [World (<[pid := ?pl1]> P) B1 t] =>
    destruct (fix_prev_r pid P B1 t pl1 l2 (Some p) (Some p') Hs2 Hn2) as (B2 & -> & Hs2' & Hout2)
  end.
  exists B2. split; [|split].
  - f_equal. f_equal. f_equal. f_equal. rewrite first_or_app, last_or_app, last_or_cons. cbn [first_or fst].
    rewrite first_or_app in Ef. rewrite last_or_app, last_or_cons in El. cbn [first_or fst] in Ef, El.
    destruct pl. unfold set_last, set_first, set_ends. cbn in *.
    destruct (nil_or_snoc l1) as [->|(l & x & ->)], l2 as [|y l2]; rewrite ?last_or_snoc in *; cbn in *;
      rewrite ?last_or_cons in *; try congruence; rewrite ?first_or_app in *; destruct l; cbn in *; congruence.
  - apply seg_app. cbn [first_or fst seg]. split; [|split; [|exact Hs2']].
    + eapply seg_ext; [|exact Hs1']. intros q Hq. apply Hout2. intros Hq'. by apply (H12 q).
    + by rewrite Hout2, Hout1.
  - intros q Hq. rewrite fmap_app, not_elem_of_app in Hq. destruct Hq. by rewrite Hout2, Hout1.
Qed.

Section Resize.
Context `{CAlloc}.

Lemma resized_mem n b : fits n ->
  write_fence (realloc_mem b.(b_mem) (n + 98 - KS_POOL_PREFIX_SIZE)) n = Ok (resized n b).(b_mem).
Proof.
  intros Hn. unfold fits, KS_POOL_PREFIX_SIZE, KS_POOL_FENCE_SIZE in *. unfold realloc_mem. cbn [resized b_mem].
  replace (Z.to_nat (n + 98 - 96)) with (Z.to_nat n + 2)%nat by lia.
  set (k := Z.to_nat n). set (m := b_mem b).
  assert (E : take (k + 2) m ++ replicate (k + 2 - length m) junk =
    take k (m ++ replicate (k - length m) junk) ++ 
    drop k (take (k + 2) m ++ replicate (k + 2 - length m) junk)).
  { rewrite <- (take_drop k (take (k + 2) m ++ replicate (k + 2 - length m) junk)) at 1. f_equal.
    rewrite !take_app, take_take, length_take, !take_replicate. f_equal; f_equal; lia. }
  rewrite E. apply write_fence_end.
  - unfold zlen. rewrite length_take, length_app, length_replicate. lia.
  - unfold zlen. rewrite length_drop, length_app, length_take, length_replicate. unfold KS_POOL_FENCE_SIZE. lia.
Qed.

Lemma resized_ok n b : fits n -> 0 < b.(b_refs) <= SIZE_MAX -> block_ok (resized n b).
Proof.
  intros Hn Hr. apply block_ok_intro; [exact Hn|exact Hr|]. cbn [resized b_mem b_size].
  rewrite zlen_app. change (zlen fence_bytes) with 2. unfold fits in Hn. unfold KS_POOL_FENCE_SIZE, zlen.
  rewrite length_take, length_app, length_replicate. lia.
Qed.

Lemma conc_resized d a l1 p b l2 p' n : items a = l1 ++ (p, b) :: l2 ->
  set_ends (first_or (l1 ++ (p', resized n b) :: l2) None) (last_or None (l1 ++ (p', resized n b) :: l2))
    (conc_at d a) = conc_at d (a_resize (l1 ++ (p', resized n b) :: l2) (n - b.(b_size)) a).
Proof.
  intros Ei. unfold conc_at, count, user, set_ends, a_resize.
  cbn [magic1 alloc_c user_alloc max_alloc log_func first last log_on_close magic2 mutex cleaning_up
    items extra_c extra_u a_max a_log a_warn a_cleaned].
  rewrite Ei, !zlen_mid, !total_mid. cbn [b_size resized]. f_equal. f_equal. lia.
Qed.

Lemma resize_same_does w A pid a l1 p b l2 : R w A -> live A pid a l1 p b l2 -> b.(b_refs) = 1 ->
  does (__ks_pool_resize_ex (Some p) b.(b_size)) w (Some p) [] A.
Proof.
  intros HR HL Hr. open_live w HL. destruct Hbk as ([? ?] & _ & _).
  unfold __ks_pool_resize_ex. cbn [non_null]. run.
  destruct (Z.eqb_spec (b_size b) 0); [lia|]. cbn [negb]. run. cbn [p_pool conc]. run.
  rewrite bool_decide_eq_true_2 by done. cbn [negb]. run. cbn [refs size conc]. rewrite Hr.
  change (1 <? 1) with false. rewrite Z.eqb_refl. cbn iota. run.
  eexists. split; [done|]. split; [exact HR0|no_cleanups].
Qed.

(** The world after a block changed its size and address. *)
Lemma R_move P B B' t t' A pid a l1 p b l2 p' n :
  R (World (<[pid := conc_at 0 a]> P) B t) A -> live A pid a l1 p b l2 -> fits n ->
  p' = p \/ B !! p' = None -> p' ∉ (l1 ++ l2).*1 -> NoDup (l1 ++ (p', resized n b) :: l2).*1 ->
  p ∉ (l1 ++ l2).*1 ->
  seg B' pid None (l1 ++ (p', resized n b) :: l2) None ->
  (forall q, q ∉ (l1 ++ l2).*1 ->
    B' !! q = <[p' := conc pid (last_or None l1) (first_or l2 None) (resized n b)]> (delete p B) !! q) ->
  let a' := a_resize (l1 ++ (p', resized n b) :: l2) (n - b.(b_size)) a in
  R (World (<[pid := conc_at 0 a']> P) B' t') (<[pid := a']> A).
Proof.
  intros HR [Ha Ei] Hfn Hp' Hp'' Hn1 Hp Hs' Hout. pose proof HR as (_ & Hok & _).
  destruct (Hok _ _ Ha) as (_ & _ & Hf). rewrite Ei in Hf.
  pose proof (fun t' => R_step _ _ _ _ pid a (a_resize (l1 ++ (p', resized n b) :: l2) (n - b_size b) a)
    B' t' HR Ha) as Hstep. rewrite insert_insert_eq in Hstep. cbn [items a_resize] in Hstep. rewrite Ei in Hstep.
  assert (HinO : forall q, q ∈ (l1 ++ (p, b) :: l2).*1 <-> q = p \/ q ∈ (l1 ++ l2).*1).
  { intros q. rewrite !fmap_app. cbn. rewrite !elem_of_app, elem_of_cons. tauto. }
  assert (HinN : forall q, q ∈ (l1 ++ (p', resized n b) :: l2).*1 <-> q = p' \/ q ∈ (l1 ++ l2).*1).
  { intros q. rewrite !fmap_app. cbn. rewrite !elem_of_app, elem_of_cons. tauto. }
  apply Hstep; clear Hstep.
  - split; [exact Hs'|]. split; [exact Hn1|]. cbn [items a_resize].
    apply Forall_app in Hf as [Hf1 [Hb Hf2]%Forall_cons]. apply Forall_app. split; [done|].
    apply Forall_cons. split; [|done]. apply resized_ok; [done|apply Hb].
  - intros q Hq Hq'. rewrite HinO in Hq. rewrite HinN in Hq'. by rewrite Hout, lookup_insert_ne, lookup_delete_ne by naive_solver.
  - intros q Hq Hq'. rewrite HinO in Hq. rewrite HinN in Hq'. destruct Hq as [->|]; [|tauto].
    by rewrite Hout, lookup_insert_ne, lookup_delete_eq by naive_solver.
  - intros q Hq Hq'. rewrite HinO in Hq'. rewrite HinN in Hq. destruct Hq as [->|]; [|tauto].
    destruct Hp' as [->|]; [tauto|done].
Qed.

Lemma resize_does w A pid a l1 p b l2 n p' : R w A -> live A pid a l1 p b l2 -> b.(b_refs) = 1 ->
  fits n -> n <> b.(b_size) -> realloc w.(blocks) p (n + 98) = Some p' ->
  does (__ks_pool_resize_ex (Some p) n) w (Some p') []
    (<[pid := a_resize (l1 ++ (p', resized n b) :: l2) (n - b.(b_size)) a]> A).
Proof.
  intros HR HL Hr Hfn Hne Hre. pose proof (realloc_fresh _ _ _ _ Hre) as Hp'.
  open_live w HL. destruct Hbk as (Hfit & Hrefs & Hmem).
  unfold __ks_pool_resize_ex. cbn [non_null]. run. pose proof Hfn as Hfn'. unfold fits in Hfn'.
  destruct (Z.eqb_spec n 0); [lia|]. cbn [negb]. run. cbn [p_pool conc]. run.
  rewrite bool_decide_eq_true_2 by done. cbn [negb]. run. cbn [refs size conc]. rewrite Hr.
  change (1 <? 1) with false. destruct (Z.eqb_spec n (b_size b)); [done|]. cbn iota.
  rewrite required_fits by done. cbn [blocks]. rewrite Hre. cbn [non_null]. run.
  destruct (Z.ltb_spec (n + 98) KS_POOL_PREFIX_SIZE); [unfold KS_POOL_PREFIX_SIZE in *; lia|].
  unfold lift. cbn [mem conc]. rewrite resized_mem by done. cbn beta iota. run.
  change (set_size n (b_mem (resized n b)) (conc pid (last_or None l1) (first_or l2 None) b))
    with (conc pid (last_or None l1) (first_or l2 None) (resized n b)).
  destruct (NoDup_mid _ _ _ _ Hn) as [Hn0 Hp].
  assert (Hp'' : p' ∉ (l1 ++ l2).*1).
  { destruct Hp' as [->|Hnone]; [done|]. intros Hin.
    assert (Hin' : p' ∈ (l1 ++ (p, b) :: l2).*1).
    { rewrite fmap_app in *. cbn. rewrite elem_of_app, elem_of_cons in *. tauto. }
    destruct (seg_in _ _ _ _ _ _ Hs Hin') as (? & ? & ? & E). congruence. }
  pose proof Hs as Hs0. apply seg_app in Hs0 as [Hs1 [_ Hs2]]. cbn [first_or fst] in Hs1.
  pose proof Hp as Hpp. pose proof Hp'' as Hpp'. rewrite fmap_app, not_elem_of_app in Hpp, Hpp'.
  destruct Hpp as [Hp1 Hp2], Hpp' as [Hp1' Hp2'].
  set (B1 := <[p' := conc pid (last_or None l1) (first_or l2 None) (resized n b)]> (delete p B)).
  assert (Hn1 : NoDup (l1 ++ (p', resized n b) :: l2).*1).
  { rewrite fmap_app in *. cbn. apply NoDup_app in Hn0 as (Hn1 & H12 & Hn2). apply NoDup_app.
    split; [done|]. split; [|by apply NoDup_cons]. intros q Hq [->|Hq']%elem_of_cons; [done|]. by apply (H12 q). }
  match goal with |- context [World (<[pid := conc_at ?d a]> P) B1 ?t] =>
    destruct (relink_r pid P B1 t (conc_at d a) l1 p p' b (resized n b) l2) as (B' & Eu & Hs' & Hout);
      [by apply seg_insert, seg_delete|by apply seg_insert, seg_delete|apply lookup_insert_eq|exact Hn1
      |cbn [conc_at first]; by rewrite Ei |cbn [conc_at last]; by rewrite Ei|]
  end.
  rewrite Eu. cbn beta iota. rewrite (conc_resized _ a l1 p b l2 p' n Ei). run.
  eexists. split; [done|]. split; [|no_cleanups].
  by apply (R_move P B B' t _ A pid a l1 p b l2 p' n HR0 HL).
Qed.

Lemma resize_oom w A pid a l1 p b l2 n : R w A -> live A pid a l1 p b l2 -> b.(b_refs) = 1 ->
  fits n -> n <> b.(b_size) -> realloc w.(blocks) p (n + 98) = None ->
  __ks_pool_resize_ex (Some p) n w = Err AssertFail.
Proof.
  intros HR HL Hr Hfn Hne Hre. open_live w HL.
  unfold __ks_pool_resize_ex. cbn [non_null]. run. pose proof Hfn as Hfn'. unfold fits in Hfn'.
  destruct (Z.eqb_spec n 0); [lia|]. cbn [negb]. run. cbn [p_pool conc]. run.
  rewrite bool_decide_eq_true_2 by done. cbn [negb]. run. cbn [refs size conc]. rewrite Hr.
  change (1 <? 1) with false. destruct (Z.eqb_spec n (b_size b)); [done|]. cbn iota.
  rewrite required_fits by done. cbn [blocks]. by rewrite Hre.
Qed.
End Resize.

(** ** Clearing and closing a pool *)

Definition drop_blocks (l : list positive) (B : gmap positive ks_pool_prefix) : gmap positive ks_pool_prefix :=
  foldl (fun B q => delete q B) B l.

Lemma drop_blocks_out l B q : q ∉ l -> drop_blocks l B !! q = B !! q.
Proof.
  revert B. unfold drop_blocks. induction l as [|x l IH]; intros B Hq; [done|].
  apply not_elem_of_cons in Hq as [Hne Hq]. cbn. rewrite IH by done. by rewrite lookup_delete_ne.
Qed.

Lemma drop_blocks_in l B q : q ∈ l -> drop_blocks l B !! q = None.
Proof.
  revert B. induction l as [|x l IH]; intros B Hq; [by apply elem_of_nil in Hq|].
  change (drop_blocks (x :: l) B) with (drop_blocks l (delete x B)).
  destruct (decide (q ∈ l)) as [Hin|Hnin]; [by apply IH|].
  apply elem_of_cons in Hq as [->|Hq]; [|done].
  rewrite drop_blocks_out by done. apply lookup_delete_eq.
Qed.

Lemma seg_size B pid pv l nx : seg B pid pv l nx -> NoDup l.*1 -> (length l <= base.size B)%nat.
Proof.
  intros Hs Hn. rewrite <- (length_fmap fst l), <- (size_list_to_set (C := gset positive)) by done.
  rewrite <- size_dom. apply subseteq_size. intros q Hq. apply elem_of_list_to_set in Hq.
  destruct (seg_in _ _ _ _ _ _ Hs Hq) as (? & ? & ? & E). apply elem_of_dom. by eexists.
Qed.

Lemma free_all_r pid P t pl fuel l : forall B pv, seg B pid pv l None -> NoDup l.*1 ->
  (length l <= fuel)%nat ->
  free_all fuel (first_or l None) (World (<[pid := pl]> P) B t) =
  Ok (tt, World (<[pid := pl]> P) (drop_blocks l.*1 B) t).
Proof.
  revert fuel. induction l as [|[p b] l IH]; intros [|fuel] B pv Hs Hn Hl; simpl in Hl; try lia; try done.
  destruct Hs as [E Hs]. apply NoDup_cons in Hn as [Hp Hn]. cbn [first_or fst free_all]. run.
  cbn [next conc]. rewrite (IH fuel (delete p B) (Some p)); [done| |done|lia]. by apply seg_delete.
Qed.

Section Clear.
Context `{CAlloc}.
Variable callback : Z -> positive -> Z -> ks_pool_cleanup_action_t -> ks_pool_cleanup_type_t -> M unit.
Hypothesis quiet : forall cb p arg act ty w, callback cb p arg act ty w = Ok (tt, w).

Lemma cleanup_pass_r pid P act d a fuel l : forall B t pv, seg B pid pv l None -> (length l <= fuel)%nat ->
  exists t', cleanup_pass callback fuel pid act (first_or l None) (World (<[pid := conc_at d a]> P) B t) =
    Ok (tt, World (<[pid := conc_at d a]> P) B t') /\ cleanups t' = cleanups t ++ pass_events act l.
Proof.
  revert fuel. induction l as [|[p b] l IH]; intros [|fuel] B t pv Hs Hl; simpl in Hl; try lia;
    try (exists t; rewrite app_nil_r; done).
  destruct Hs as [E Hs]. cbn [first_or fst cleanup_pass]. run. cbn [size conc].
  assert (exists t1, (if bool_decide (act = KS_MPCL_ANNOUNCE) && log_on_close (conc_at d a)
    then emit [Unreleased (b_size b)] else fun w => Ok (tt, w)) (World (<[pid := conc_at d a]> P) B t) =
    Ok (tt, World (<[pid := conc_at d a]> P) B t1) /\ cleanups t1 = cleanups t) as (t1 & -> & Et1).
  { destruct (_ && _); [|eauto]. eexists. split; [done|]. by rewrite cleanups_app, app_nil_r. }
  cbn beta iota. unfold conc at 1. cbn [cleanup_callback].
  destruct (b_clean b) as [[cb arg]|] eqn:Ec; cbn [fmap option_fmap option_map fst].
  - rewrite (call_cleanup_r callback quiet). cbn [pools blocks trace]. cbn [next conc].
    destruct (IH fuel B (t1 ++ [Cleanup cb p (cleanup_arg (conc pid pv (first_or l None) b)) act KS_MPCL_GLOBAL_FREE])
      (Some p) Hs) as (t2 & E2 & Et2); [lia|]. exists t2. split; [exact E2|].
    rewrite Et2, cleanups_app, Et1. unfold conc. cbn [cleanup_arg]. rewrite Ec.
    unfold pass_events. cbn [omap list_omap snd]. rewrite Ec. by rewrite <- app_assoc.
  - cbn [next conc]. destruct (IH fuel B t1 (Some p) Hs) as (t2 & E2 & Et2); [lia|].
    exists t2. split; [exact E2|]. rewrite Et2, Et1. unfold pass_events. cbn [omap list_omap snd]. by rewrite Ec.
Qed.

Lemma pass_from_first_r pid P act d a B t : seg B pid None a.(items) None -> NoDup a.(items).*1 ->
  exists t', pass_from_first callback pid act (World (<[pid := conc_at d a]> P) B t) =
    Ok (tt, World (<[pid := conc_at d a]> P) B t') /\ cleanups t' = cleanups t ++ pass_events act a.(items).
Proof.
  intros Hs Hn. unfold pass_from_first, walk_fuel. run. cbn [first conc_at blocks].
  apply (cleanup_pass_r pid P act d a (S (base.size B)) (items a) B t None Hs).
  pose proof (seg_size _ _ _ _ _ Hs Hn). lia.
Qed.

Definition mark_cleaned (a : apool) : apool :=
  APool a.(items) a.(extra_c) a.(extra_u) a.(a_max) a.(a_log) a.(a_warn) true.

Lemma perform_pool_cleanup_r pid P d a B t : seg B pid None a.(items) None -> NoDup a.(items).*1 ->
  exists t', perform_pool_cleanup callback pid (World (<[pid := conc_at d a]> P) B t) =
    Ok (tt, World (<[pid := conc_at d (mark_cleaned a)]> P) B t') /\ cleanups t' = cleanups t ++ clear_events a.
Proof.
  intros Hs Hn. unfold perform_pool_cleanup, clear_events. run. cbn [cleaning_up conc_at].
  destruct (a_cleaned a) eqn:Ec.
  - exists t. rewrite app_nil_r. split; [|done]. destruct a. cbn in Ec. by subst.
  - run. change (set_cleaning true (conc_at d a)) with (conc_at d (mark_cleaned a)).
    destruct (pass_from_first_r pid P KS_MPCL_ANNOUNCE d (mark_cleaned a) B t Hs Hn) as (t1 & -> & E1).
    destruct (pass_from_first_r pid P KS_MPCL_TEARDOWN d (mark_cleaned a) B t1 Hs Hn) as (t2 & -> & E2).
    destruct (pass_from_first_r pid P KS_MPCL_DESTROY d (mark_cleaned a) B t2 Hs Hn) as (t3 & -> & E3).
    exists t3. split; [done|]. rewrite E3, E2, E1. cbn [items mark_cleaned]. by rewrite <- !app_assoc.
Qed.

Lemma conc_cleared d a : set_ends None None (conc_at d (mark_cleaned a)) = conc_at d (a_clear a).
Proof. done. Qed.

Lemma clear_r pid P a B t : pool_ok B pid a ->
  exists t', ks_pool_clear callback pid (World (<[pid := conc_at 0 a]> P) B t) =
    Ok (KS_STATUS_SUCCESS, World (<[pid := conc_at 0 (a_clear a)]> P) (drop_blocks a.(items).*1 B) t') /\
    cleanups t' = cleanups t ++ clear_events a.
Proof.
  intros (Hs & Hn & _). unfold ks_pool_clear. run.
  match goal with |- context [World (<[pid := conc_at ?d a]> P) B ?t1] =>
    destruct (perform_pool_cleanup_r pid P d a B t1 Hs Hn) as (t2 & -> & E2) end.
  cbn beta iota. unfold walk_fuel. run. cbn [blocks first conc_at].
  rewrite (free_all_r pid P t2 _ _ (items a) B None Hs Hn).
  2: { pose proof (seg_size _ _ _ _ _ Hs Hn). cbn [items mark_cleaned]. lia. }
  cbn beta iota. run. rewrite conc_cleared. run. exists t2. split; [done|].
  rewrite E2, cleanups_app, cleanups_logs, app_nil_r. done.
Qed.

Lemma R_clear P B t t' A pid a : R (World (<[pid := conc_at 0 a]> P) B t) A -> A !! pid = Some a ->
  R (World (<[pid := conc_at 0 (a_clear a)]> P) (drop_blocks a.(items).*1 B) t') (<[pid := a_clear a]> A).
Proof.
  intros HR Ha.
  pose proof (fun t' => R_step _ _ _ _ pid a (a_clear a) (drop_blocks a.(items).*1 B) t' HR Ha) as Hstep.
  rewrite insert_insert_eq in Hstep. apply Hstep; clear Hstep.
  - repeat split; constructor.
  - intros q Hq _. by apply drop_blocks_out.
  - intros q Hq _. by apply drop_blocks_in.
  - intros q Hq. by apply elem_of_nil in Hq.
Qed.

Lemma clear_does w A pid a : R w A -> A !! pid = Some a ->
  does (ks_pool_clear callback pid) w KS_STATUS_SUCCESS (clear_events a) (<[pid := a_clear a]> A).
Proof.
  intros HR Ha. open_world w Ha. destruct (clear_r pid P a B t Hok) as (t' & E & Et).
  eexists. split; [exact E|]. split; [by apply (R_clear P B t)|done].
Qed.

Lemma close_does w A pid a : R w A -> A !! pid = Some a ->
  does (ks_pool_close callback (Some pid)) w (KS_STATUS_SUCCESS, None) (clear_events a) (delete pid A).
Proof.
  intros HR Ha. open_world w Ha. destruct (clear_r pid P a B t Hok) as (t' & E & Et).
  unfold ks_pool_close, ks_pool_raw_close. run. rewrite E. run. unfold free_pool.
  rewrite bool_decide_eq_true_2 by done.
  eexists. split; [done|]. cbn [trace]. split; [|by rewrite cleanups_app, cleanups_logs, app_nil_r].
  destruct (R_clear P B t t A pid a HR0 Ha) as (HP & H2 & H3). cbn [pools blocks] in *.
  split; [|split]; cbn [pools blocks].
  - rewrite HP, <- fmap_delete. by rewrite delete_insert_eq.
  - intros pid' a' Ha'. apply lookup_delete_Some in Ha' as [Hne Ha']. apply H2.
    by rewrite lookup_insert_ne.
  - intros q b Hq. destruct (H3 _ _ Hq) as (a' & Ha' & Hin). destruct (decide (p_pool b = pid)) as [Eq|Hne].
    + rewrite Eq, lookup_insert_eq in Ha'. injection Ha' as <-. by apply elem_of_nil in Hin.
    + rewrite lookup_insert_ne in Ha' by done. exists a'. by rewrite lookup_delete_ne.
Qed.

Lemma verify_all_r pid P t d a l fuel : forall B pv, seg B pid pv l None ->
  Forall (fun x => block_ok x.2 /\ fenced x.2) l -> (length l <= fuel)%nat ->
  verify_all fuel (first_or l None) (World (<[pid := conc_at d a]> P) B t) =
  Ok (tt, World (<[pid := conc_at d a]> P) B t).
Proof.
  revert fuel. induction l as [|[p b] l IH]; intros [|fuel] B pv Hs Hf Hl; simpl in Hl; try lia; try done.
  destruct Hs as [E Hs]. apply Forall_cons in Hf as [[((Hpos & _) & _) Hfe] Hf]. cbn [snd] in *.
  cbn [first_or fst verify_all]. unfold ks_pool_verify. run. unfold lift. cbn [mem size conc].
  rewrite check_fence_ok by (exact Hfe || lia). run. 
  cbn [next conc]. apply (IH fuel B (Some p)); [done|done|lia].
Qed.

Lemma pool_verify_does w A pid a : R w A -> A !! pid = Some a -> Forall (fun x => fenced x.2) a.(items) ->
  does (ks_pool_pool_verify pid) w tt [] A.
Proof.
  intros HR Ha Hfe. open_world w Ha. destruct Hok as (Hs & Hn & Hf).
  unfold ks_pool_pool_verify, walk_fuel. run. cbn [first conc_at blocks].
  rewrite (verify_all_r pid P t (0 + 1) a (items a) _ B None Hs);
    [|by apply Forall_and|pose proof (seg_size _ _ _ _ _ Hs Hn); lia].
  cbn beta iota. run. eexists. split; [done|]. split; [done|no_cleanups].
Qed.
End Clear.

(** ** Strings in a pool *)

Lemma does_bind {X Y} (m : M X) (f : X -> M Y) w r r2 evs evs2 A1 A2 :
  does m w r evs A1 -> (forall w1, R w1 A1 -> does (f r) w1 r2 evs2 A2) ->
  does (m ≫= f) w r2 (evs ++ evs2) A2.
Proof.
  intros (w1 & E1 & HR1 & Et1) Hf. destruct (Hf w1 HR1) as (w2 & E2 & HR2 & Et2).
  exists w2. unfold mbind, M_bind. rewrite E1. split; [done|]. split; [done|].
  by rewrite Et2, Et1, app_assoc.
Qed.

Lemma does_ret {X} (r : X) w A : R w A -> does (mret r) w r [] A.
Proof. intros HR. exists w. split; [done|]. split; [done|]. by rewrite app_nil_r. Qed.

Lemma does_lift {X Y} (v : X) (f : X -> M Y) w r evs A :
  does (f v) w r evs A -> does (lift (Ok v) ≫= f) w r evs A.
Proof. done. Qed.

Definition filled (n : Z) (m : list Z) : ablock := ABlock n 1 m None.

Lemma a_push_upd q n m m' a :
  with_items ((q, filled n m') :: items a) (a_push q (filled n m) a) = a_push q (filled n m') a.
Proof. done. Qed.

Section Strings.
Context `{CAlloc}.

(** A store into the block just pushed. *)
Lemma store_pushed w A pid a q n pre mid post bs :
  R w (<[pid := a_push q (filled n (pre ++ mid ++ post)) a]> A) -> zlen mid = zlen bs ->
  zlen pre + zlen bs <= n + KS_POOL_FENCE_SIZE ->
  does (store q (zlen pre) bs) w tt [] (<[pid := a_push q (filled n (pre ++ bs ++ post)) a]> A).
Proof.
  intros HR Hm Hl. set (b := filled n (pre ++ mid ++ post)).
  assert (HL : live (<[pid := a_push q b a]> A) pid (a_push q b a) [] q b (items a)).
  { split; [apply lookup_insert_eq|done]. }
  destruct (store_does w _ pid (a_push q b a) [] q b (items a) (zlen pre) bs HR HL) as (m & Em & Hd);
    [apply zlen_nonneg|exact Hl|].
  cbn [b b_mem filled] in Em. rewrite (blit_app pre mid post bs (zlen pre) eq_refl Hm) in Em.
  injection Em as <-. unfold a_upd in Hd. rewrite insert_insert_eq in Hd. exact Hd.
Qed.

Lemma zeroed_filled n : zeroed n = filled n (replicate (Z.to_nat n) 0 ++ fence_bytes).
Proof. done. Qed.

(** Bytes and a terminator put into a new block of exactly their size. *)
Lemma fill_rest w A pid a q n pre bs k : R w (<[pid := a_push q (filled n (pre ++ replicate (length bs + k) 0 ++ fence_bytes)) a]> A) ->
  n = zlen pre + zlen bs + Z.of_nat k ->
  does (store q (zlen pre) bs) w tt []
    (<[pid := a_push q (filled n ((pre ++ bs) ++ replicate k 0 ++ fence_bytes)) a]> A).
Proof.
  intros HR Hn. rewrite replicate_add, <- !app_assoc in HR.
  rewrite <- app_assoc. eapply store_pushed; [exact HR| |unfold KS_POOL_FENCE_SIZE; lia].
  rewrite zlen_replicate. reflexivity.
Qed.

Lemma slice_whole (s j : list Z) n : n = zlen s -> slice (s ++ j) 0 n = Ok s.
Proof. intros ->. exact (slice_app [] s j 0 (zlen s) eq_refl eq_refl). Qed.

Definition cstring (x : list Z * list Z) : list Z := x.1 ++ 0 :: x.2.

Lemma arg_lengths_ok args : Forall (fun x => no_nul x.1) args ->
  arg_lengths (map cstring args) = Ok (map (fun x => zlen x.1) args).
Proof.
  induction 1 as [|x args Hx _ IH]; [done|]. cbn [map arg_lengths].
  change (cstring x) with (x.1 ++ 0 :: x.2). rewrite strlen_app by done. cbn [mbind res_bind]. rewrite IH. done.
Qed.

Lemma copy_args_ok pid A a q N args : forall k pre w ns,
  Forall (fun x => no_nul x.1) args ->
  R w (<[pid := a_push q (filled N (pre ++ replicate (length (concat args.*1) + k) 0 ++ fence_bytes)) a]> A) ->
  N = zlen pre + zlen (concat args.*1) + Z.of_nat k ->
  (exists i, ns = take i (map (fun x => zlen x.1) args)) ->
  does (copy_args q (map cstring args) ns (zlen pre)) w (zlen (pre ++ concat args.*1)) []
    (<[pid := a_push q (filled N ((pre ++ concat args.*1) ++ replicate k 0 ++ fence_bytes)) a]> A).
Proof.
  induction args as [|x args IH]; intros k pre w ns Hf HR HN [i Ei]; cbn [map copy_args fmap list_fmap concat] in *.
  - rewrite app_nil_r. by apply does_ret.
  - apply Forall_cons in Hf as [Hx Hf].
    assert (En : (match ns with n :: _ => Ok n | [] => strlen (cstring x) end) = Ok (zlen x.1)).
    { change (cstring x) with (x.1 ++ 0 :: x.2). rewrite strlen_app by done. destruct i; cbn in Ei; by rewrite Ei. }
    rewrite En. apply does_lift.
    assert (Esl : slice (cstring x) 0 (zlen x.1) = Ok x.1) by (by apply slice_whole).
    rewrite Esl. apply does_lift.
    rewrite length_app, <- Nat.add_assoc in HR. rewrite zlen_app in HN.
    eapply (does_bind _ _ _ tt _ [] [] _ _).
    + apply fill_rest; [exact HR|unfold zlen in *; lia].
    + intros w1 HR1. rewrite app_assoc.
      replace (zlen pre + zlen x.1) with (zlen (pre ++ x.1)) by apply zlen_app.
      apply IH; [done|exact HR1|rewrite zlen_app; lia|].
      exists (pred i). rewrite Ei. by destruct i.
Qed.

Lemma pstrcat_does w A pid a args q : R w A -> A !! pid = Some a -> Forall (fun x => no_nul x.1) args ->
  let s := concat args.*1 in fits (zlen s + 1) -> malloc w.(blocks) (zlen s + 1 + 98) = Some q ->
  does (__ks_pstrcat pid (map cstring args)) w q []
    (<[pid := a_push q (filled (zlen s + 1) (s ++ [0] ++ fence_bytes)) a]> A).
Proof.
  intros HR Ha Hf s Hfit Hm. unfold __ks_pstrcat. rewrite arg_lengths_ok by done. apply does_lift.
  assert (Es : foldr Z.add 0 (map (fun x => zlen x.1) args) = zlen s).
  { clear. subst s. induction args as [|x args IH]; [done|]. cbn. rewrite zlen_app. cbn in IH. lia. }
  pose proof Hfit as Hfit'. unfold fits, SIZE_MAX, KS_POOL_PREFIX_SIZE, KS_POOL_FENCE_SIZE in Hfit'.
  rewrite Es, u64_id by lia.
  eapply (does_bind _ _ _ q _ [] [] _ _); [by apply alloc_does|]. intros w1 HR1.
  rewrite zeroed_filled in HR1. replace (Z.to_nat (zlen s + 1)) with (length s + 1)%nat in HR1 by (unfold zlen; lia).
  eapply (does_bind _ _ _ (zlen s) _ [] [] _ _).
  - apply (copy_args_ok pid A a q (zlen s + 1) args 1 [] w1); [done|exact HR1|done|eauto].
  - intros w2 HR2. cbn [app] in HR2.
    eapply (does_bind _ _ _ tt _ [] [] _ _); [|intros; by apply does_ret].
    pose proof (fill_rest w2 A pid a q (zlen s + 1) s [0] 0) as Hfill. cbn [length Nat.add replicate app] in Hfill.
    rewrite <- app_assoc in Hfill. apply Hfill; [exact HR2|change (zlen [0]) with 1; lia].
Qed.

(** [ks_pstrdup] and [ks_pmemdup] copy bytes into a block of their size. *)
Lemma copy_does w A pid a bs q : R w A -> A !! pid = Some a -> fits (zlen bs) ->
  malloc w.(blocks) (zlen bs + 98) = Some q ->
  does (p ← __ks_pool_alloc_ex pid (zlen bs); store p 0 bs;; mret (Some p)) w (Some q) []
    (<[pid := a_push q (filled (zlen bs) (bs ++ fence_bytes)) a]> A).
Proof.
  intros HR Ha Hfit Hm.
  eapply (does_bind _ _ _ q _ [] [] _ _); [by apply alloc_does|]. intros w1 HR1.
  eapply (does_bind _ _ _ tt _ [] [] _ _); [|intros; by apply does_ret].
  rewrite zeroed_filled in HR1. replace (Z.to_nat (zlen bs)) with (length bs + 0)%nat in HR1 by (unfold zlen; lia).
  pose proof (fill_rest w1 A pid a q (zlen bs) [] bs 0 HR1) as Hfill. apply Hfill. rewrite zlen_nil. lia.
Qed.

Lemma pstrdup_does w A pid a s j q : R w A -> A !! pid = Some a -> no_nul s -> fits (zlen s + 1) ->
  malloc w.(blocks) (zlen s + 1 + 98) = Some q ->
  does (__ks_pstrdup pid (Some (s ++ 0 :: j))) w (Some q) []
    (<[pid := a_push q (filled (zlen s + 1) (s ++ [0] ++ fence_bytes)) a]> A).
Proof.
  intros HR Ha Hs Hfit Hm. unfold __ks_pstrdup. rewrite strlen_app by done. apply does_lift.
  pose proof Hfit as Hfit'. unfold fits, SIZE_MAX, KS_POOL_PREFIX_SIZE, KS_POOL_FENCE_SIZE in Hfit'.
  rewrite u64_id by lia. assert (Ez : zlen s + 1 = zlen (s ++ [0])) by (rewrite zlen_app; done).
  change (s ++ 0 :: j) with (s ++ [0] ++ j). rewrite app_assoc, (slice_whole (s ++ [0]) j _ Ez), Ez in *.
  pose proof (copy_does w A pid a (s ++ [0]) q HR Ha Hfit Hm) as Hd. rewrite <- app_assoc in Hd. exact Hd.
Qed.
End Strings.

(** ** The properties *)

(** The C allocator has nothing left for this call. *)
Definition oom `{CAlloc} (c : call) (w : world) : Prop :=
  match c with
  | COpen => malloc_pool w.(pools) = None
  | CAlloc_ _ n => malloc w.(blocks) (n + 98) = None
  | CCalloc _ n m => malloc w.(blocks) (n * m + 98) = None
  | CResize p n => realloc w.(blocks) p (n + 98) = None
  | _ => False
  end.

Section Simulation.
Context `{CAlloc}.
Variable callback : Z -> positive -> Z -> ks_pool_cleanup_action_t -> ks_pool_cleanup_type_t -> M unit.
Hypothesis quiet : forall cb p arg act ty w, callback cb p arg act ty w = Ok (tt, w).

Lemma does_map {X Y} (m : M X) (f : X -> Y) w r evs A :
  does m w r evs A -> does (x ← m; mret (f x)) w (f r) evs A.
Proof. intros (w' & E & HR & Et). exists w'. unfold mbind, M_bind. rewrite E. done. Qed.

Definition simulated (c : call) (w : world) (A : pools_t) : Prop :=
  (oom c w /\ run callback c w = Err AssertFail) \/
  exists r evs A', spec c A r evs A' /\ does (run callback c) w r evs A'.

Lemma simulated_intro c w A r evs A' :
  spec c A r evs A' -> does (run callback c) w r evs A' -> simulated c w A.
Proof. intros. right. eauto. Qed.

(** The calls that need memory. *)
Lemma run_sim_alloc w A : R w A ->
  simulated COpen w A /\
  (forall pid n, legal (CAlloc_ pid n) A -> simulated (CAlloc_ pid n) w A) /\
  (forall pid n m, legal (CCalloc pid n m) A -> simulated (CCalloc pid n m) w A) /\
  (forall p n, legal (CResize p n) A -> simulated (CResize p n) w A).
Proof.
  intros HR. split; [|split; [|split]].
  - destruct (malloc_pool (pools w)) as [pid|] eqn:Em.
    + destruct (open_does w A pid HR Em) as [Hd HA].
      eapply simulated_intro; [by apply SOpen|]. exact (does_map _ _ _ _ _ _ Hd).
    + left. split; [exact Em|]. cbn [run]. unfold ks_pool_tagged_open. run. by rewrite Em.
  - intros pid n [[a Ha] Hf]. destruct (malloc (blocks w) (n + 98)) as [q|] eqn:Em.
    + eapply simulated_intro; [apply (SAlloc A pid a n q Ha)|].
      * eapply fresh_of_none; [exact HR|by eapply malloc_fresh].
      * apply (does_map _ (fun p => RPtr (Some p))). by apply alloc_does.
    + left. split; [exact Em|]. cbn [run]. unfold mbind, M_bind. by rewrite (alloc_oom w A pid a n).
  - intros pid n m ([a Ha] & Hn & Hm & Hf). destruct (malloc (blocks w) (n * m + 98)) as [q|] eqn:Em.
    + eapply simulated_intro; [apply (SCalloc A pid a n m q Ha)|].
      * eapply fresh_of_none; [exact HR|by eapply malloc_fresh].
      * apply (does_map _ (fun p => RPtr (Some p))). by apply calloc_does.
    + left. split; [exact Em|]. cbn [run]. unfold mbind, M_bind. by rewrite (calloc_oom w A pid a n m).
  - intros p n [(pid & a & l1 & b & l2 & HL & Hr) Hf].
    destruct (decide (n = b_size b)) as [->|Hne].
    { eapply simulated_intro; [by eapply SResizeSame|]. apply (does_map _ RPtr).
      by eapply resize_same_does. }
    destruct (realloc (blocks w) p (n + 98)) as [q|] eqn:Em.
    + eapply simulated_intro; [apply (SResize A pid a l1 p b l2 n q HL Hne)|].
      * destruct (realloc_fresh _ _ _ _ Em) as [->|Hq]; [by left|right]. by eapply fresh_of_none.
      * apply (does_map _ RPtr). by apply resize_does.
    + left. split; [exact Em|]. cbn [run]. unfold mbind, M_bind. by rewrite (resize_oom w A pid a l1 p b l2 n).
Qed.

(** The calls on one live block. *)
Lemma run_sim_block w A p : R w A ->
  (legal (CFree (Some p)) A -> simulated (CFree (Some p)) w A) /\
  (legal (CRef p) A -> simulated (CRef p) w A) /\
  (forall arg cb, legal (CSetCleanup p arg cb) A -> simulated (CSetCleanup p arg cb) w A) /\
  (legal (CRemoveCleanup p) A -> simulated (CRemoveCleanup p) w A) /\
  (legal (CVerify (Some p)) A -> simulated (CVerify (Some p)) w A) /\
  (legal (CGet p) A -> simulated (CGet p) w A) /\
  (forall off bs, legal (CStore p off bs) A -> simulated (CStore p off bs) w A).
Proof.
  intros HR. repeat split.
  - intros (pid & a & l1 & b & l2 & HL & Hfe).
    assert (Hrefs : 0 < b_refs b).
    { destruct HL as [Ha Ei]. destruct HR as (_ & Hok & _). destruct (Hok _ _ Ha) as (_ & _ & Hf).
      rewrite Ei in Hf. apply Forall_app in Hf as [_ [Hb _]%Forall_cons]. apply Hb. }
    destruct (decide (b_refs b = 1)) as [E1|Hne].
    + eapply simulated_intro; [by eapply SFreeLast|].
      apply (does_map _ (fun r => RStatusPtr r.1 r.2) _ (KS_STATUS_SUCCESS, None)).
      eapply free_last_does; eauto.
    + eapply simulated_intro; [eapply SFreeRef; [exact HL|lia]|].
      apply (does_map _ (fun r => RStatusPtr r.1 r.2) _ (KS_STATUS_REFS_EXIST, Some p)).
      eapply free_ref_does; [done|done|lia].
  - intros (pid & a & l1 & b & l2 & HL & Hr). eapply simulated_intro; [by eapply SRef|].
    apply (does_map _ (fun p => RPtr (Some p))). by eapply ref_does.
  - intros arg cb (pid & a & l1 & b & l2 & HL & _). eapply simulated_intro; [by eapply SSetCleanup|].
    apply (does_map _ RStatus). by eapply set_cleanup_does.
  - intros (pid & a & l1 & b & l2 & HL & _). eapply simulated_intro; [by eapply SRemoveCleanup|].
    apply (does_map _ RStatus). by eapply remove_cleanup_does.
  - intros (pid & a & l1 & b & l2 & HL & Hf). eapply simulated_intro; [by eapply SVerify|].
    apply (does_map _ RBool). by eapply verify_does.
  - intros (pid & a & l1 & b & l2 & HL & _). eapply simulated_intro; [by eapply SGet|].
    apply (does_map _ (fun p => RPtr (Some p))). by eapply get_does.
  - intros off bs (pid & a & l1 & b & l2 & HL & Ho & Hl).
    destruct (store_does w A pid a l1 p b l2 off bs HR HL Ho Hl) as (m & Em & Hd).
    eapply simulated_intro; [by eapply SStore|]. exact (does_map _ (fun _ => RUnit) _ _ _ _ Hd).
Qed.

Lemma run_sim c w A : R w A -> legal c A -> simulated c w A.
Proof.
  intros HR HL. destruct c as [|pid n|pid n m|[p|]|p|p n|p arg cb|p|[p|]|pid|p|pid|pid fn|p off bs|pid|[pid|]];
    try (by apply run_sim_alloc); try (by apply (run_sim_block w A p HR)); cbn [legal] in HL.
  - eapply simulated_intro; [apply SFreeNull|].
    apply (does_map _ (fun r => RStatusPtr r.1 r.2) _ (KS_STATUS_SUCCESS, None)). by apply does_ret.
  - eapply simulated_intro; [apply SVerifyNull|]. apply (does_map _ RBool). by apply does_ret.
  - destruct HL as (a & Ha & Hf). eapply simulated_intro; [apply SPoolVerify|].
    apply (does_map _ (fun _ => RUnit) _ tt). by eapply pool_verify_does.
  - destruct HL as [a Ha]. eapply simulated_intro; [by apply SStats|].
    exact (does_map _ (fun r => RStats r.1.1.1 r.1.1.2 r.1.2 r.2) _ _ _ _ (stats_does w A pid a HR Ha)).
  - destruct HL as [a Ha]. eapply simulated_intro; [by apply SSetLog|]. apply (does_map _ RStatus). by apply set_log_does.
  - destruct HL as [a Ha]. eapply simulated_intro; [by apply SClear|]. apply (does_map _ RStatus). by apply clear_does.
  - destruct HL as [a Ha]. eapply simulated_intro; [by apply SClose|].
    apply (does_map _ (fun r => RStatusPtr r.1 r.2) _ (KS_STATUS_SUCCESS, None)). by apply close_does.
  - eapply simulated_intro; [apply SCloseNull|].
    apply (does_map _ (fun r => RStatusPtr r.1 r.2) _ (KS_STATUS_SUCCESS, None)). by apply does_ret.
Qed.
End Simulation.

(** Two lists of the same pool in two heaps hold the same blocks. *)
Lemma seg_det B B' pid pv l nx q : seg B pid pv l nx -> seg B' pid pv l nx -> q ∈ l.*1 -> B' !! q = B !! q.
Proof.
  revert pv. induction l as [|[p b] l IH]; intros pv; [by rewrite elem_of_nil|].
  intros [E Hs] [E' Hs'] [->|Hq]%elem_of_cons; [cbn; congruence|eauto].
Qed.

Lemma closed_blocks w w' A pid : R w A -> R w' (delete pid A) ->
  forall q b, w'.(blocks) !! q = Some b <-> w.(blocks) !! q = Some b /\ b.(p_pool) <> pid.
Proof.
  intros (_ & H2 & H3) (_ & H2' & H3') q b. split.
  - intros Hq. destruct (H3' _ _ Hq) as (a & Ha & Hin). apply lookup_delete_Some in Ha as [Hne Ha].
    split; [|congruence]. destruct (H2 _ _ Ha) as [Hs _].
    destruct (H2' (p_pool b) a) as [Hs' _]; [by rewrite lookup_delete_ne|].
    by rewrite <- (seg_det _ _ _ _ _ _ q Hs Hs' Hin).
  - intros [Hq Hne]. destruct (H3 _ _ Hq) as (a & Ha & Hin).
    destruct (H2 _ _ Ha) as [Hs _]. destruct (H2' (p_pool b) a) as [Hs' _]; [by rewrite lookup_delete_ne by congruence|].
    by rewrite (seg_det _ _ _ _ _ _ q Hs Hs' Hin).
Qed.

Lemma R_empty : R (World ∅ ∅ []) ∅.
Proof. split; [by rewrite fmap_empty|]. split; intros ? ? E; cbn in E; by rewrite lookup_empty in E. Qed.

Lemma fresh_none {V} (h : gmap positive V) p : Some (fresh (dom h)) = Some p -> h !! p = None.
Proof. intros [= <-]. apply not_elem_of_dom, is_fresh. Qed.

(** The first free address; a resized block always moves. *)
#[local] Instance bump_alloc : CAlloc := {|
  malloc := fun h _ => Some (fresh (dom h));
  malloc_pool := fun h => Some (fresh (dom h));
  realloc := fun h _ _ => Some (fresh (dom h));
  junk := 0; sigint_fatal := false;
  malloc_fresh := fun h _ p E => fresh_none h p E;
  malloc_pool_fresh := fun h p E => fresh_none h p E;
  realloc_fresh := fun h _ _ q E => or_intror (fresh_none h q E)
|}.

Definition no_callback : Z -> positive -> Z -> ks_pool_cleanup_action_t -> ks_pool_cleanup_type_t -> M unit :=
  fun _ _ _ _ _ => mret tt.

(** A pool with two blocks, the newest one with a cleanup callback. *)
Definition sample_a : apool :=
  APool [(6%positive, ABlock 2 1 ([4; 5] ++ fence_bytes) (Some (42, 7)));
         (5%positive, ABlock 3 1 ([1; 2; 3] ++ fence_bytes) None)] 0 0 5 None false false.
Definition sample_A : pools_t := {[1%positive := sample_a]}.
Definition sample_w : world :=
  World {[1%positive := conc_pool sample_a]}
    (<[6%positive := conc 1 None (Some 5%positive) (ABlock 2 1 ([4; 5] ++ fence_bytes) (Some (42, 7)))]>
     {[5%positive := conc 1 (Some 6%positive) None (ABlock 3 1 ([1; 2; 3] ++ fence_bytes) None)]}) [].

Lemma sample_R : R sample_w sample_A.
Proof.
  unfold sample_A. split; [by rewrite map_fmap_singleton|]. split; cbn [blocks sample_w].
  - intros pid a Ha; apply lookup_singleton_Some in Ha as [<- <-]. split; [|split].
    + cbn. by rewrite lookup_insert_eq, lookup_insert_ne, lookup_singleton_eq.
    + cbn. apply NoDup_cons. split; [set_solver|apply NoDup_singleton].
    + apply Forall_cons. split; [|apply Forall_singleton];
        (split; [split; [reflexivity|discriminate]|split; [split; [reflexivity|discriminate]|reflexivity]]).
  - intros q b [[<- <-]|[Hne [<- <-]%lookup_singleton_Some]]%lookup_insert_Some;
      exists sample_a; (split; [apply lookup_singleton_eq|cbn; set_solver]).
Qed.

Lemma sample_live : live sample_A 1%positive sample_a [] 6%positive
  (ABlock 2 1 ([4; 5] ++ fence_bytes) (Some (42, 7)))
  [(5%positive, ABlock 3 1 ([1; 2; 3] ++ fence_bytes) None)].
Proof. split; [apply lookup_singleton_eq|done]. Qed.

(** C11: pools behave as the abstract pools, for cleanup callbacks that make no
    pool calls of their own. From the empty world, every call a caller may make (a
    live address, a size that fits, fences intact where they are looked at, one
    reference to a block that is resized) either finds the C allocator empty and
    stops at the assertion, or returns what the specification says, makes exactly
    the callbacks it says, and leaves a world whose heap is the abstract one: list,
    counters, reference counts, contents and fences of every block of every pool.
    The abstract counters are kept as the code keeps them, not as ks_pool.h
    describes them: [ks_pool_clear] leaves them and a resize does not move them
    (the lemmas [ks_pool_clear_forgets] and [ks_pool_resize_miscounts]). *)
Theorem ks_pool_simulates `{CAlloc} callback :
  (forall cb p arg act ty w, callback cb p arg act ty w = Ok (tt, w)) ->
  R (World ∅ ∅ []) ∅ /\
  (forall c w A, R w A -> legal c A ->
    (oom c w /\ run callback c w = Err AssertFail) \/
    exists r evs A', spec c A r evs A' /\
      exists w', run callback c w = Ok (r, w') /\ R w' A' /\
        cleanups w'.(trace) = cleanups w.(trace) ++ evs).
Proof. intros quiet. split; [exact R_empty|]. intros c w A HR HL. exact (run_sim callback quiet c w A HR HL). Qed.

Lemma ks_pool_simulates_witness :
  (exists w', run no_callback (CFree (Some 6%positive)) sample_w =
    Ok (RStatusPtr KS_STATUS_SUCCESS None, w') /\
    cleanups w'.(trace) = [Cleanup 42 6 7 KS_MPCL_ANNOUNCE KS_MPCL_FREE;
      Cleanup 42 6 7 KS_MPCL_TEARDOWN KS_MPCL_FREE; Cleanup 42 6 7 KS_MPCL_DESTROY KS_MPCL_FREE]).
Proof.
  destruct (ks_pool_simulates (H := bump_alloc) no_callback) as [_ Hs]; [reflexivity|].
  destruct (Hs (CFree (Some 6%positive)) sample_w sample_A sample_R) as [[[] _]|(r & evs & A' & _ & w' & E & _)].
  { do 5 eexists. split; [exact sample_live|]. reflexivity. }
  exists w'. assert (Ew : exists r w', run no_callback (CFree (Some 6%positive)) sample_w = Ok (r, w') /\
    r = RStatusPtr KS_STATUS_SUCCESS None /\ cleanups w'.(trace) = [Cleanup 42 6 7 KS_MPCL_ANNOUNCE KS_MPCL_FREE;
      Cleanup 42 6 7 KS_MPCL_TEARDOWN KS_MPCL_FREE; Cleanup 42 6 7 KS_MPCL_DESTROY KS_MPCL_FREE]).
  { do 2 eexists. split; [vm_compute; reflexivity|]. split; reflexivity. }
  destruct Ew as (r1 & w1 & E1 & -> & Ec). rewrite E1 in E. injection E as <- <-. rewrite E1. split; [reflexivity|exact Ec].
Defined.

(** C12: closing a pool that [ks_pool_clear] has not cleaned before, with cleanup
    callbacks that make no pool calls of their own, makes every registered callback of every block in use, in
    list order, first all ANNOUNCE, then all TEARDOWN, then all DESTROY calls,
    frees exactly the blocks of that pool and the pool, and leaves the other
    pools and their blocks untouched. *)
Theorem ks_pool_close_frees `{CAlloc} callback w A pid a :
  (forall cb p arg act ty w, callback cb p arg act ty w = Ok (tt, w)) ->
  R w A -> A !! pid = Some a -> a.(a_cleaned) = false ->
  exists w', ks_pool_close callback (Some pid) w = Ok ((KS_STATUS_SUCCESS, None), w') /\
    cleanups w'.(trace) = cleanups w.(trace) ++ pass_events KS_MPCL_ANNOUNCE a.(items) ++
      pass_events KS_MPCL_TEARDOWN a.(items) ++ pass_events KS_MPCL_DESTROY a.(items) /\
    w'.(pools) = delete pid w.(pools) /\
    (forall q b, w'.(blocks) !! q = Some b <-> w.(blocks) !! q = Some b /\ b.(p_pool) <> pid).
Proof.
  intros quiet HR Ha Hc. destruct (close_does callback quiet w A pid a HR Ha) as (w' & E & HR' & Et).
  exists w'. split; [exact E|]. unfold clear_events in Et. rewrite Hc in Et. split; [exact Et|].
  split; [by rewrite (proj1 HR'), (proj1 HR), fmap_delete|].
  apply (closed_blocks w w' A pid HR HR').
Qed.

Lemma ks_pool_close_frees_witness :
  exists w', ks_pool_close no_callback (Some 1%positive) sample_w = Ok ((KS_STATUS_SUCCESS, None), w') /\
    forall q, w'.(blocks) !! q = None.
Proof.
  destruct (ks_pool_close_frees (H := bump_alloc) no_callback sample_w sample_A 1%positive sample_a)
    as (w' & E & _ & _ & Hb); [reflexivity|exact sample_R|apply lookup_singleton_eq|reflexivity|].
  exists w'. split; [exact E|]. intros q. destruct (blocks w' !! q) as [b|] eqn:Eq; [|reflexivity].
  destruct (proj1 (Hb q b) Eq) as [Ew Hne]. destruct Hne.
  destruct (proj2 (proj2 sample_R) q b Ew) as (a & Ha & _).
  unfold sample_A in Ha. apply lookup_singleton_Some in Ha as [Ha _]. symmetry. exact Ha.
Defined.

(** C13: a write past the end of a block is caught: when the two fence bytes of a
    block with one reference changed, and cleanup callbacks make no pool calls of
    their own, [ks_pool_verify] is false unless the SIGINT of [ks_debug_break] has
    ended the program, and [ks_pool_free] stops the program, at that SIGINT if it is
    fatal and otherwise at the assertion, which a build with NDEBUG leaves out. *)
Theorem ks_pool_overrun_detected `{CAlloc} callback w A pid a l1 p b l2 :
  (forall cb p arg act ty w, callback cb p arg act ty w = Ok (tt, w)) ->
  R w A -> live A pid a l1 p b l2 -> b.(b_refs) = 1 -> ~ fenced b ->
  ks_pool_verify (Some p) w = (if sigint_fatal then Err Aborted else Ok (false, w)) /\
  ks_pool_free_ex callback (Some p) w = Err (if sigint_fatal then Aborted else AssertFail).
Proof.
  intros quiet HR HL Hr Hfe. open_live w HL. destruct Hbk as ([? ?] & _ & Hmem).
  pose proof (check_fence_bad (b_mem b) (b_size b) ltac:(lia) Hmem Hfe) as Hbad. split.
  - unfold ks_pool_verify. run. unfold lift. cbn [mem size conc]. rewrite Hbad.
    by destruct sigint_fatal.
  - unfold ks_pool_free_ex. run. cbn [p_pool conc]. run. destruct sigint_fatal.
    + unfold free_mem. run. cbn [p_pool refs size conc]. rewrite Hr. change (0 <? 1) with true.
      cbn iota. run. erewrite (get_block_r pid P p) by apply lookup_insert_eq. cbn beta iota.
      cbn [refs mem size set_refs conc]. change (0 <? 1 - 1) with false. cbn iota. unfold lift.
      by rewrite Hbad.
    + match goal with |- context [free_mem _ _ (World _ B ?t1)] =>
        destruct (free_mem_last_r callback quiet pid P B t1 a l1 p b l2 KS_STATUS_PNT_OVER Hs Hn Ei Hr Hbad)
          as (B' & t' & E & _) end.
      change (0 + 1) with 1 in *. rewrite E. cbn beta iota. run. done.
Qed.

(** Byte 2 of the two-byte block 6 is the first byte of its fence. *)
Definition broken_a : apool :=
  APool [(6%positive, ABlock 2 1 [4; 5; 0; KS_POOL_FENCE_MAGIC1] None)] 0 0 2 None false false.
Definition broken_w : world :=
  World {[1%positive := conc_pool broken_a]}
    {[6%positive := conc 1 None None (ABlock 2 1 [4; 5; 0; KS_POOL_FENCE_MAGIC1] None)]} [].

Lemma broken_R : R broken_w {[1%positive := broken_a]}.
Proof.
  split; [by rewrite map_fmap_singleton|]. split; cbn [blocks broken_w].
  - intros pid a [<- <-]%lookup_singleton_Some. split; [|split].
    + cbn. by rewrite lookup_singleton_eq.
    + apply NoDup_singleton.
    + apply Forall_singleton.
      split; [split; [reflexivity|discriminate]|split; [split; [reflexivity|discriminate]|reflexivity]].
  - intros q b [<- <-]%lookup_singleton_Some.
    exists broken_a. split; [apply lookup_singleton_eq|cbn; set_solver].
Qed.

Lemma ks_pool_overrun_detected_witness :
  ks_pool_verify (Some 6%positive) broken_w = Ok (false, broken_w) /\
  ks_pool_free_ex no_callback (Some 6%positive) broken_w = Err AssertFail.
Proof.
  apply (ks_pool_overrun_detected (H := bump_alloc) no_callback broken_w {[1%positive := broken_a]} 1%positive
    broken_a [] 6%positive (ABlock 2 1 [4; 5; 0; KS_POOL_FENCE_MAGIC1] None) []);
    [reflexivity|exact broken_R|split; [apply lookup_singleton_eq|reflexivity]|reflexivity|discriminate].
Defined.

(** A block allocated, given a callback and freed again; what the free returned
    and the allocation counter afterwards. *)
Definition use_once `{CAlloc} callback (pid : positive) (n arg cb : Z) : M (ks_status_t * Z) :=
  p ← __ks_pool_alloc_ex pid n;
  ks_pool_set_cleanup (Some p) arg cb;;
  r ← ks_pool_free_ex callback (Some p);
  s ← ks_pool_stats pid;
  mret (r.1, s.1.1.1).

Lemma use_once_does `{CAlloc} callback w A pid a n arg cb q :
  (forall cb p arg act ty w, callback cb p arg act ty w = Ok (tt, w)) ->
  R w A -> A !! pid = Some a -> fits n -> malloc w.(blocks) (n + 98) = Some q ->
  exists a', a'.(items) = a.(items) /\ a'.(extra_c) = a.(extra_c) /\ a'.(a_cleaned) = a.(a_cleaned) /\
  does (use_once callback pid n arg cb) w (KS_STATUS_SUCCESS, count a)
    (if a.(a_cleaned) then [] else freed_events q (ABlock n 1 [] (Some (cb, arg)))) (<[pid := a']> A).
Proof.
  intros quiet HR Ha Hf Hm. set (b := ABlock n 1 (zeroed n).(b_mem) (Some (cb, arg))).
  set (a1 := with_items ((q, b) :: items a) (a_push q (zeroed n) a)).
  exists (with_items (items a) a1). do 3 (split; [done|]).
  assert (Hl : forall x, live (<[pid := with_items ((q, x) :: items a) (a_push q (zeroed n) a)]> A) pid
    (with_items ((q, x) :: items a) (a_push q (zeroed n) a)) [] q x (items a))
    by (intros; split; [apply lookup_insert_eq|done]).
  assert (Hfe : fenced b).
  { unfold fenced, b. cbn [b_size b_mem zeroed]. rewrite drop_app_ge by (rewrite length_replicate; lia).
    by rewrite length_replicate, Nat.sub_diag. }
  eapply (does_bind _ _ _ q _ [] _); [by apply alloc_does|]. intros w1 HR1.
  eapply (does_bind _ _ _ KS_STATUS_SUCCESS _ [] _).
  { eapply set_cleanup_does; [exact HR1|exact (Hl (zeroed n))]. }
  intros w2 HR2. unfold a_upd in HR2. rewrite insert_insert_eq in HR2.
  rewrite <- (app_nil_r (if a_cleaned a then _ else _)).
  eapply (does_bind _ _ _ (KS_STATUS_SUCCESS, None) _ _ []).
  { exact (free_last_does callback quiet w2 _ pid _ [] q b (items a) HR2 (Hl b) eq_refl Hfe). }
  intros w3 HR3. rewrite insert_insert_eq in HR3.
  eapply (does_bind _ _ _ _ _ [] []); [apply stats_does; [exact HR3|apply lookup_insert_eq]|].
  intros w4 HR4. cbn [fst]. by apply (does_ret (KS_STATUS_SUCCESS, count a)).
Qed.

(** [ks_pool_clear] "wipes the pool clean so we can start again", but it
    resets neither the counters nor [cleaning_up]: after it the pool still
    counts the blocks it freed, and a block allocated, given a cleanup callback
    and freed later is freed without its callback. *)
Lemma ks_pool_clear_forgets `{CAlloc} callback w A pid a n arg cb :
  (forall cb p arg act ty w, callback cb p arg act ty w = Ok (tt, w)) ->
  (forall h m, malloc h m <> None) ->
  R w A -> A !! pid = Some a -> fits n ->
  exists w', (ks_pool_clear callback pid;; use_once callback pid n arg cb) w =
      Ok ((KS_STATUS_SUCCESS, count a), w') /\
    cleanups w'.(trace) = cleanups w.(trace) ++ clear_events a.
Proof.
  intros quiet Hmem HR Ha Hf.
  destruct (clear_does callback quiet w A pid a HR Ha) as (w1 & E1 & HR1 & Et1).
  destruct (malloc (blocks w1) (n + 98)) as [q|] eqn:Em; [|by destruct (Hmem (blocks w1) (n + 98))].
  destruct (use_once_does callback w1 _ pid (a_clear a) n arg cb q quiet HR1 (lookup_insert_eq _ _ _) Hf Em)
    as (a' & _ & _ & _ & w2 & E2 & HR2 & Et2).
  exists w2. unfold mbind at 1, M_bind at 1. rewrite E1, E2. split; [done|].
  by rewrite Et2, Et1, app_nil_r.
Qed.

Lemma ks_pool_clear_forgets_witness :
  exists w', (ks_pool_clear no_callback 1%positive;; use_once no_callback 1%positive 8 3 9) sample_w =
      Ok ((KS_STATUS_SUCCESS, 2), w') /\
    cleanups w'.(trace) = [Cleanup 42 6 7 KS_MPCL_ANNOUNCE KS_MPCL_GLOBAL_FREE;
      Cleanup 42 6 7 KS_MPCL_TEARDOWN KS_MPCL_GLOBAL_FREE; Cleanup 42 6 7 KS_MPCL_DESTROY KS_MPCL_GLOBAL_FREE].
Proof.
  apply (ks_pool_clear_forgets (H := bump_alloc) no_callback sample_w sample_A 1%positive sample_a);
    [reflexivity|discriminate|exact sample_R|apply lookup_singleton_eq|split; [reflexivity|discriminate]].
Defined.

Lemma resized_fenced `{CAlloc} n b : fits n -> fenced (resized n b).
Proof.
  intros [Hn _]. unfold fenced. cbn [resized b_size b_mem].
  rewrite drop_app_ge by (rewrite length_take; lia). rewrite length_take, length_app, length_replicate.
  match goal with |- drop ?k _ = _ => replace k with 0%nat by lia end. done.
Qed.

(** The user counter after a block was resized and freed is off by the change of
    size: an unsigned underflow for a block that grew. *)
Lemma ks_pool_resize_miscounts `{CAlloc} callback w A pid a l1 p b l2 n p' :
  (forall cb p arg act ty w, callback cb p arg act ty w = Ok (tt, w)) ->
  R w A -> live A pid a l1 p b l2 -> b.(b_refs) = 1 -> fits n -> n <> b.(b_size) ->
  realloc w.(blocks) p (n + 98) = Some p' ->
  exists w', (__ks_pool_resize_ex (Some p) n;; ks_pool_free_ex callback (Some p');;
              s ← ks_pool_stats pid; mret s.1.1.2) w =
    Ok (u64 (total (l1 ++ l2) + a.(extra_u) - (n - b.(b_size))), w').
Proof.
  intros quiet HR HL Hr Hf Hne Hre.
  assert (Hd : does (__ks_pool_resize_ex (Some p) n;; ks_pool_free_ex callback (Some p');;
              s ← ks_pool_stats pid; mret s.1.1.2) w
    (u64 (total (l1 ++ l2) + a.(extra_u) - (n - b.(b_size))))
    (if a_cleaned a then [] else freed_events p' (resized n b))
    (<[pid := with_items (l1 ++ l2) (a_resize (l1 ++ (p', resized n b) :: l2) (n - b.(b_size)) a)]> A)).
  { eapply (does_bind _ _ _ _ _ [] _); [by eapply resize_does|]. intros w1 HR1.
    rewrite <- (app_nil_r (if a_cleaned a then _ else _)).
    eapply (does_bind _ _ _ (KS_STATUS_SUCCESS, None) _ _ []).
    { set (a1 := a_resize (l1 ++ (p', resized n b) :: l2) (n - b_size b) a) in *.
      assert (HL1 : live (<[pid := a1]> A) pid a1 l1 p' (resized n b) l2) by (split; [apply lookup_insert_eq|done]).
      exact (free_last_does callback quiet w1 _ pid a1 l1 p' _ l2 HR1 HL1 Hr (resized_fenced n b Hf)). }
    intros w2 HR2. rewrite insert_insert_eq in HR2.
    eapply (does_bind _ _ _ _ _ [] []); [apply stats_does; [exact HR2|apply lookup_insert_eq]|].
    intros w3 HR3. cbn [fst snd]. unfold user. cbn [items with_items extra_u a_resize].
    rewrite Z.add_sub_assoc. by apply does_ret. }
  destruct Hd as (w' & E & _). eauto.
Qed.

(** [ele_n * ele_size] is not checked: the block is smaller than its elements. *)
Lemma ks_pool_calloc_wraps `{CAlloc} w A pid a n m q :
  R w A -> A !! pid = Some a -> 0 < n -> 0 < m -> SIZE_MAX < n * m -> fits (u64 (n * m)) ->
  malloc w.(blocks) (u64 (n * m) + 98) = Some q ->
  does (__ks_pool_calloc_ex pid n m) w q [] (<[pid := a_push q (zeroed (u64 (n * m))) a]> A) /\
  u64 (n * m) < n * m.
Proof.
  intros HR Ha Hn Hm' Hw Hf Hm. split; [|pose proof (u64_range (n * m)); unfold SIZE_MAX in *; lia].
  pose proof (malloc_fresh _ _ _ Hm) as Hq. open_world w Ha. unfold __ks_pool_calloc_ex.
  destruct (Z.eqb_spec n 0); [lia|]. destruct (Z.eqb_spec m 0); [lia|]. cbn [negb]. run.
  rewrite (alloc_mem_r pid P B t (0 + 1) a (u64 (n * m)) q) by (done || apply Hok). cbn beta iota. run.
  eexists. split; [done|]. split; [|no_cleanups]. by apply (R_push P B t); [..|apply zeroed_ok|].
Qed.

Lemma memchr_app s j len : no_nul s -> zlen s < len -> memchr 0 (s ++ 0 :: j) len = Ok (Some (zlen s)).
Proof.
  intros Hs. revert len. induction Hs as [|c s Hc _ IH]; intros len Hl.
  - simpl. rewrite zlen_nil in Hl. destruct (Z.leb_spec len 0); [lia|]. done.
  - simpl. rewrite zlen_cons in Hl. pose proof (zlen_nonneg s). destruct (Z.leb_spec len 0); [lia|]. destruct (Z.eqb_spec c 0); [done|].
    rewrite IH by lia. rewrite zlen_cons. simpl. by rewrite Z.add_1_r.
Qed.

Lemma memchr_none s j len : no_nul s -> 0 <= len <= zlen s -> memchr 0 (s ++ j) len = Ok None.
Proof.
  intros Hs. revert len. induction Hs as [|c s Hc _ IH]; intros len Hl.
  - unfold zlen in Hl; simpl in Hl. replace len with 0 by lia. by destruct j.
  - rewrite zlen_cons in Hl. simpl. destruct (Z.leb_spec len 0); [done|]. destruct (Z.eqb_spec c 0); [done|].
    rewrite IH by lia. done.
Qed.

(** [ks_pstrndup] copies [len] bytes exactly when a terminator lies within them:
    a short string in an object of fewer than [len] bytes is read beyond its end,
    and a string longer than [len] runs into the subtraction from NULL. *)
Lemma ks_pstrndup_inverted `{CAlloc} w A pid a s j len : R w A -> A !! pid = Some a -> no_nul s ->
  (0 <= len <= zlen s -> __ks_pstrndup pid (Some (s ++ 0 :: j)) len w = Err NullDeref) /\
  (forall q, zlen s + 1 + zlen j < len -> fits (len + 1) -> malloc w.(blocks) (len + 1 + 98) = Some q ->
    __ks_pstrndup pid (Some (s ++ 0 :: j)) len w = Err OutOfBounds).
Proof.
  intros HR Ha Hs. split.
  - intros Hl. unfold __ks_pstrndup. rewrite memchr_none by done. done.
  - intros q Hl Hf Hm. unfold __ks_pstrndup. pose proof (zlen_nonneg j).
    rewrite memchr_app by (done || lia). unfold lift at 1, mbind at 1, M_bind at 1. cbn beta iota.
    unfold copy_terminated.
    pose proof Hf as Hf'. unfold fits, SIZE_MAX, KS_POOL_PREFIX_SIZE, KS_POOL_FENCE_SIZE in Hf'.
    rewrite u64_id by lia.
    destruct (alloc_does w A pid a (len + 1) q HR Ha Hf Hm) as (w1 & E & _).
    unfold mbind at 1, M_bind at 1. rewrite E. unfold slice. rewrite zlen_app, zlen_cons.
    destruct (Z.leb_spec (0 + len) (zlen s + (zlen j + 1))); [lia|]. by rewrite !andb_false_r.
Qed.

(** [ks_pstrcat] with any number of arguments, more than the ten lengths it
    caches included, and [ks_pstrdup] give a new block of exactly the size of
    the result that holds the concatenation and a terminator, fence intact. *)
Lemma ks_pool_strings `{CAlloc} w A pid a args q :
  R w A -> A !! pid = Some a -> Forall (fun x => no_nul x.1) args ->
  let s := concat args.*1 in
  fits (zlen s + 1) -> malloc w.(blocks) (zlen s + 1 + 98) = Some q ->
  let b := ABlock (zlen s + 1) 1 (s ++ [0] ++ fence_bytes) None in
  does (__ks_pstrcat pid (map (fun x => x.1 ++ 0 :: x.2) args)) w q [] (<[pid := a_push q b a]> A) /\
  (forall j, does (__ks_pstrdup pid (Some (s ++ 0 :: j))) w (Some q) [] (<[pid := a_push q b a]> A)).
Proof.
  intros HR Ha Hf s Hfit Hm b. split; [by apply pstrcat_does|]. intros j. apply pstrdup_does; try done.
  subst s. clear -Hf. unfold no_nul in *. apply Forall_concat, Forall_map. exact Hf.
Qed.

Lemma ks_pool_strings_witness :
  exists q, does (__ks_pstrcat 1%positive [[97; 98; 0]; [0; 55]; [99; 0]]) sample_w q []
    (<[1%positive := a_push q (ABlock 4 1 ([97; 98; 99; 0] ++ fence_bytes) None) sample_a]> sample_A).
Proof.
  exists (fresh (dom sample_w.(blocks))).
  destruct (ks_pool_strings (H := bump_alloc) sample_w sample_A 1%positive sample_a
    [([97; 98], []); ([], [55]); ([99], [])] (fresh (dom sample_w.(blocks)))) as [Hd _];
    [exact sample_R|apply lookup_singleton_eq| |split; [reflexivity|discriminate]|reflexivity|exact Hd].
  repeat constructor; discriminate.
Defined.
End Pool.
