(* ===== verification/Utf8.v ===== *)
(** UTF-8 (src/src/ks_utf8.c, src/src/include/libks/ks_utf8.h): the conversions
    between bytes and code points, the walks over encoded strings, the escaped
    form, and the inverse laws between them. *)
From S2P Require Import Prelude.
Local Open Scope Z_scope.

Module Utf8.

(** ** Tables and tests *)

Definition offsetsFromUTF8 : list Z := [0; 12416; 925824; 63447168; 4194836608; 2181570688].

Definition trailingBytesForUTF8 : list Z :=
  replicate 192 0 ++ replicate 32 1 ++ replicate 16 2 ++ replicate 8 3 ++ replicate 4 4 ++ replicate 4 5.

(** [isutf]: not a continuation byte. *)
Definition isutf (c : Z) : bool := negb (Z.land c 192 =? 128).

(** [(uint32_t)c] of a [char], which is signed. *)
Definition char_to_u32 (c : Z) : Z := u32 (if c <? 128 then c else c - 256).

Definition octal_digit (c : Z) : bool := (48 <=? c) && (c <=? 55).
Definition hex_digit (c : Z) : bool :=
  ((48 <=? c) && (c <=? 57)) || ((65 <=? c) && (c <=? 70)) || ((97 <=? c) && (c <=? 102)).

Definition ks_u8_seqlen (s : list Z) : res Z :=
  c ← ld s 0; n ← ld trailingBytesForUTF8 c; Ok (n + 1).

(** ** Conversions *)

(** The bytes of one code point, by the four ranges; none above 0x10FFFF. *)
Definition wc_bytes (ch : Z) : list Z :=
  if ch <? 128 then [ch]
  else if ch <? 2048 then [Z.lor (Z.shiftr ch 6) 192; Z.lor (Z.land ch 63) 128]
  else if ch <? 65536 then
    [Z.lor (Z.shiftr ch 12) 224; Z.lor (Z.land (Z.shiftr ch 6) 63) 128; Z.lor (Z.land ch 63) 128]
  else if ch <? 1114112 then
    [Z.lor (Z.shiftr ch 18) 240; Z.lor (Z.land (Z.shiftr ch 12) 63) 128;
     Z.lor (Z.land (Z.shiftr ch 6) 63) 128; Z.lor (Z.land ch 63) 128]
  else [].

Definition ks_u8_wc_toutf8 (dest : list Z) (ch : Z) : res (Z * list Z) :=
  dest ← blit dest 0 (wc_bytes ch); Ok (zlen (wc_bytes ch), dest).

(** [d] is the write position. The early return leaves the bytes unterminated. *)
Fixpoint toutf8_loop (fuel : nat) (dest : list Z) (sz : Z) (src : list Z) (srcsz : Z) (d i : Z) :
    res (Z * list Z) :=
  match fuel with
  | O => Err NoFuel
  | S fuel =>
    more ← (if srcsz <? 0 then ch ← ld src i; Ok (negb (ch =? 0)) else Ok (i <? srcsz));
    if more : bool then
      ch ← ld src i;
      let bs := wc_bytes ch in
      if (0 <? zlen bs) && (sz - (zlen bs - 1) <=? d) then Ok (i, dest) else
      dest ← blit dest d bs;
      toutf8_loop fuel dest sz src srcsz (d + zlen bs) (i + 1)
    else
      dest ← (if d <? sz then st dest d 0 else Ok dest);
      Ok (i, dest)
  end.

Definition ks_u8_toutf8 (dest : list Z) (sz : Z) (src : list Z) (srcsz : Z) : res (Z * list Z) :=
  toutf8_loop (S (length src)) dest sz src srcsz 0 0.

(** The [switch] that falls through: [nb] more bytes after each shift; the
    cases 4 and 5 do not exist. *)
Fixpoint toucs_bytes (src : list Z) (nb : nat) (s ch : Z) : res (Z * Z) :=
  b ← ld src s;
  let ch := u32 (ch + b) in
  match nb with
  | O => Ok (ch, s + 1)
  | S nb => toucs_bytes src nb (s + 1) (u32 (Z.shiftl ch 6))
  end.

Fixpoint toucs_loop (fuel : nat) (dest : list Z) (sz : Z) (src : list Z) (srcsz : Z) (s i : Z) :
    res (Z * list Z) :=
  match fuel with
  | O => Err NoFuel
  | S fuel =>
    let finish := dest ← st dest i 0; Ok (i, dest) in
    if i <? sz - 1 then
      lead ← ld src s;
      nb ← ld trailingBytesForUTF8 lead;
      if (if srcsz =? -1 then lead =? 0 else srcsz <=? s + nb) then finish else
      r ← (if nb <=? 3 then toucs_bytes src (Z.to_nat nb) s 0 else Ok (0, s));
      let '(ch, s) := r in
      off ← ld offsetsFromUTF8 nb;
      dest ← st dest i (u32 (ch - off));
      toucs_loop fuel dest sz src srcsz s (i + 1)
    else finish
  end.

Definition ks_u8_toucs (dest : list Z) (sz : Z) (src : list Z) (srcsz : Z) : res (Z * list Z) :=
  toucs_loop (S (Z.to_nat sz)) dest sz src srcsz 0 0.

(** ** Walks over a string *)

(** The do-while of [ks_u8_nextchar]: the value, the number of bytes and the
    index behind them. *)
Fixpoint nextchar_loop (fuel : nat) (s : list Z) (i ch sz : Z) : res (Z * Z * Z) :=
  match fuel with
  | O => Err NoFuel
  | S fuel =>
    b ← ld s i;
    let ch := u32 (u32 (Z.shiftl ch 6) + b) in
    c ← ld s (i + 1);
    if negb (c =? 0) && negb (isutf c) then nextchar_loop fuel s (i + 1) ch (sz + 1)
    else Ok (ch, sz + 1, i + 1)
  end.

Definition ks_u8_nextchar (s : list Z) (i : Z) : res (Z * Z) :=
  r ← nextchar_loop (S (length s)) s i 0 0;
  let '(ch, sz, i) := r in
  off ← ld offsetsFromUTF8 (sz - 1);
  Ok (u32 (ch - off), i).

(** The same body under another name. *)
Definition ks_u8_get_char (s : list Z) (i : Z) : res (Z * Z) := ks_u8_nextchar s i.

Definition ks_u8_inc (s : list Z) (i : Z) : res Z :=
  c ← ld s (i + 1); if isutf c then Ok (i + 1) else
  c ← ld s (i + 2); if isutf c then Ok (i + 2) else
  c ← ld s (i + 3); if isutf c then Ok (i + 3) else Ok (i + 4).

Definition ks_u8_dec (s : list Z) (i : Z) : res Z :=
  c ← ld s (i - 1); if isutf c then Ok (i - 1) else
  c ← ld s (i - 2); if isutf c then Ok (i - 2) else
  c ← ld s (i - 3); if isutf c then Ok (i - 3) else Ok (i - 4).

Fixpoint offset_loop (fuel : nat) (str : list Z) (charnum offs : Z) : res Z :=
  match fuel with
  | O => Err NoFuel
  | S fuel =>
    if 0 <? charnum then
      c ← ld str offs;
      if c =? 0 then Ok offs else
      offs ← ks_u8_inc str offs; offset_loop fuel str (charnum - 1) offs
    else Ok offs
  end.

Definition ks_u8_offset (str : list Z) (charnum : Z) : res Z := offset_loop (S (length str)) str charnum 0.

Fixpoint charnum_loop (fuel : nat) (s : list Z) (offset charnum offs : Z) : res Z :=
  match fuel with
  | O => Err NoFuel
  | S fuel =>
    if offs <? offset then
      c ← ld s offs;
      if c =? 0 then Ok charnum else
      offs ← ks_u8_inc s offs; charnum_loop fuel s offset (charnum + 1) offs
    else Ok charnum
  end.

Definition ks_u8_charnum (s : list Z) (offset : Z) : res Z := charnum_loop (S (length s)) s offset 0 0.

Fixpoint strlen_loop (fuel : nat) (s : list Z) (i count : Z) : res Z :=
  match fuel with
  | O => Err NoFuel
  | S fuel =>
    r ← ks_u8_nextchar s i;
    if r.1 =? 0 then Ok count else strlen_loop fuel s r.2 (count + 1)
  end.

Definition ks_u8_strlen (s : list Z) : res Z := strlen_loop (S (length s)) s 0 0.

(** The position of [ch], if any, and the number of characters before it. *)
Fixpoint strchr_loop (fuel : nat) (s : list Z) (ch i charn : Z) : res (option Z * Z) :=
  match fuel with
  | O => Err NoFuel
  | S fuel =>
    b ← ld s i;
    if b =? 0 then Ok (None, charn) else
    r ← ks_u8_nextchar s i;
    if r.1 =? ch then Ok (Some i, charn) else strchr_loop fuel s ch r.2 (charn + 1)
  end.

Definition ks_u8_strchr (s : list Z) (ch : Z) : res (option Z * Z) := strchr_loop (S (length s)) s ch 0 0.

(** The same with a byte count instead of a terminator. *)
Fixpoint memnext_loop (fuel : nat) (s : list Z) (sz i c csz : Z) : res (Z * Z * Z) :=
  match fuel with
  | O => Err NoFuel
  | S fuel =>
    b ← ld s i;
    let c := u32 (u32 (Z.shiftl c 6) + b) in
    more ← (if i + 1 <? sz then x ← ld s (i + 1); Ok (negb (isutf x)) else Ok false);
    if more : bool then memnext_loop fuel s sz (i + 1) c (csz + 1) else Ok (c, csz + 1, i + 1)
  end.

Fixpoint memchr_loop (fuel : nat) (s : list Z) (ch sz i charn : Z) : res (option Z * Z) :=
  match fuel with
  | O => Err NoFuel
  | S fuel =>
    if i <? sz then
      r ← memnext_loop (S (length s)) s sz i 0 0;
      let '(c, csz, i2) := r in
      off ← ld offsetsFromUTF8 (csz - 1);
      if u32 (c - off) =? ch then Ok (Some i, charn) else memchr_loop fuel s ch sz i2 (charn + 1)
    else Ok (None, charn)
  end.

Definition ks_u8_memchr (s : list Z) (ch sz : Z) : res (option Z * Z) :=
  memchr_loop (S (Z.to_nat sz)) s ch (s32 sz) 0 0.

(** ** Escapes *)

Definition digit_val (c : Z) : Z := if c <=? 57 then c - 48 else if c <=? 70 then c - 55 else c - 87.
(** [strtol] on the digits collected. *)
Definition strtol (base : Z) (digs : list Z) : Z := foldl (fun n c => n * base + digit_val c) 0 digs.

(** At most [n] digits from [i] on, and the index behind them; the byte behind
    the last one is read too. *)
Fixpoint read_digits (test : Z -> bool) (n : nat) (str : list Z) (i : Z) : res (list Z * Z) :=
  c ← ld str i;
  match n with
  | O => Ok ([], i)
  | S n =>
    if test c then r ← read_digits test n str (i + 1); Ok (c :: r.1, r.2) else Ok ([], i)
  end.

(** [\x], [\u] and [\U]: the letter itself when no digit follows. *)
Definition read_hex (n : nat) (str : list Z) (ch : Z) : res (Z * Z) :=
  r ← read_digits hex_digit n str 1;
  Ok (match r.1 with [] => ch | ds => u32 (strtol 16 ds) end, r.2).

(** The code point and the number of bytes read. *)
Definition ks_u8_read_escape_sequence (str : list Z) : res (Z * Z) :=
  c ← ld str 0;
  if c =? 110 then Ok (10, 1)
  else if c =? 116 then Ok (9, 1)
  else if c =? 114 then Ok (13, 1)
  else if c =? 98 then Ok (8, 1)
  else if c =? 102 then Ok (12, 1)
  else if c =? 118 then Ok (11, 1)
  else if c =? 97 then Ok (7, 1)
  else if octal_digit c then
    r ← read_digits octal_digit 2 str 1; Ok (u32 (strtol 8 (c :: r.1)), r.2)
  else if c =? 120 then read_hex 2 str c
  else if c =? 117 then read_hex 4 str c
  else if c =? 85 then read_hex 8 str c
  else Ok (char_to_u32 c, 1).

(** [s] is the read position; [src] at [s] is what the callee sees. *)
Fixpoint unescape_loop (fuel : nat) (buf : list Z) (sz : Z) (src : list Z) (s c : Z) : res (Z * list Z) :=
  match fuel with
  | O => Err NoFuel
  | S fuel =>
    let finish := buf ← (if c <? sz then st buf c 0 else Ok buf); Ok (c, buf) in
    b ← ld src s;
    if negb (b =? 0) && (c <? sz) then
      r ← (if b =? 92 then
             x ← ks_u8_read_escape_sequence (drop (Z.to_nat (s + 1)) src); Ok (x.1, s + 1 + x.2)
           else Ok (char_to_u32 b, s + 1));
      let '(ch, s) := r in
      let bs := wc_bytes ch in
      if sz - c <? zlen bs then finish else
      buf ← blit buf c bs;
      unescape_loop fuel buf sz src s (c + zlen bs)
    else finish
  end.

Definition ks_u8_unescape (buf : list Z) (sz : Z) (src : list Z) : res (Z * list Z) :=
  unescape_loop (S (length src)) buf sz src 0 0.

(** [%X] digits: upper case, most significant first; at least [n] of them. *)
Definition hex_char (d : Z) : Z := if d <? 10 then d + 48 else d + 55.
Fixpoint hex_fixed (n : nat) (x : Z) : list Z :=
  match n with
  | O => []
  | S n => hex_fixed n (x / 16) ++ [hex_char (x mod 16)]
  end.
Definition hex_byte (x : Z) : list Z := if x <? 16 then hex_fixed 1 x else hex_fixed 2 x.

(** What [ks_u8_escape_wchar] prints. *)
Definition escape_text (ch : Z) : list Z :=
  if ch =? 10 then [92; 110]
  else if ch =? 9 then [92; 116]
  else if ch =? 13 then [92; 114]
  else if ch =? 8 then [92; 98]
  else if ch =? 12 then [92; 102]
  else if ch =? 11 then [92; 118]
  else if ch =? 7 then [92; 97]
  else if ch =? 92 then [92; 92]
  else if (ch <? 32) || (ch =? 127) then [92; 120] ++ hex_byte (u8 ch)
  else if 65535 <? ch then [92; 85] ++ hex_fixed 8 ch
  else if (128 <=? ch) && (ch <=? 65535) then [92; 117] ++ hex_fixed 4 (u16 ch)
  else [ch].

(** [snprintf(buf + off, n, s)]: cut to [n - 1] bytes and terminated; returns
    the length of [s]. *)
Definition snprintf (buf : list Z) (off n : Z) (s : list Z) : res (Z * list Z) :=
  if n <=? 0 then Ok (zlen s, buf)
  else buf ← blit buf off (take (Z.to_nat (n - 1)) s ++ [0]); Ok (zlen s, buf).

Definition ks_u8_escape_wchar (buf : list Z) (off sz ch : Z) : res (Z * list Z) :=
  snprintf buf off sz (escape_text ch).

Fixpoint escape_loop (fuel : nat) (buf : list Z) (sz : Z) (src : list Z) (quotes : bool) (i c : Z) :
    res (Z * list Z) :=
  match fuel with
  | O => Err NoFuel
  | S fuel =>
    b ← ld src i;
    if negb (b =? 0) && (c <? sz) then
      r ← (if quotes && (b =? 34) then
             x ← snprintf buf c (sz - c) [92; 34]; Ok (x, i + 1)
           else
             n ← ks_u8_nextchar src i;
             x ← ks_u8_escape_wchar buf c (sz - c) n.1; Ok (x, n.2));
      let '(amt, buf, i) := r in
      escape_loop fuel buf sz src quotes i (c + amt)
    else
      buf ← (if c <? sz then st buf c 0 else Ok buf); Ok (c, buf)
  end.

Definition ks_u8_escape (buf : list Z) (sz : Z) (src : list Z) (escape_quotes : bool) : res (Z * list Z) :=
  escape_loop (S (length src)) buf sz src escape_quotes 0 0.

(** ** [ks_u8_is_locale_utf8] *)

Definition locale_end (c : Z) : bool := (c =? 0) || (c =? 64) || (c =? 43) || (c =? 44).

(** The bytes up to the end of the encoding name. *)
Fixpoint encoding_of (s : list Z) : res (list Z) :=
  match s with
  | [] => Err OutOfBounds
  | c :: s => if locale_end c then Ok [] else e ← encoding_of s; Ok (c :: e)
  end.

Fixpoint ks_u8_is_locale_utf8 (locale : list Z) : res bool :=
  match locale with
  | [] => Err OutOfBounds
  | c :: s =>
    if locale_end c then Ok false
    else if c =? 46 then
      e ← encoding_of s;
      Ok (bool_decide (e = bytes_of_string "UTF-8") || bool_decide (e = bytes_of_string "utf8"))
    else ks_u8_is_locale_utf8 s
  end.

Example locale_test : ks_u8_is_locale_utf8 (bytes_of_string "en_US.UTF-8@x" ++ [0]) = Ok true.
Proof. reflexivity. Qed.
Example escape_test :
  ks_u8_escape (replicate 20 7) 20 ([226; 136; 142; 34; 1] ++ [0]) true =
  Ok (11, bytes_of_string "\u220E" ++ [92; 34] ++ bytes_of_string "\x1" ++ [0] ++ replicate 8 7).
Proof. vm_compute. reflexivity. Qed.

(** ** The bytes of a code point *)

Definition valid (ch : Z) : Prop := 0 < ch < 1114112.
Definition utf8 (cs : list Z) : list Z := concat (map wc_bytes cs).

(** A fact about each of the numbers below [n], by computation. *)
Lemma below (n : nat) (P : Z -> bool) :
  forallb (fun k => P (Z.of_nat k)) (seq 0 n) = true -> forall x, 0 <= x < Z.of_nat n -> P x = true.
Proof.
  intros H x Hx. rewrite forallb_forall in H. replace x with (Z.of_nat (Z.to_nat x)) by lia.
  apply H. apply in_seq. lia.
Qed.

Lemma lor_128 x : 0 <= x < 64 -> Z.lor x 128 = 128 + x.
Proof. intros Hx. apply Z.eqb_eq. revert x Hx. apply (below 64 (fun x => Z.lor x 128 =? 128 + x)). reflexivity. Qed.
Lemma lor_192 x : 0 <= x < 32 -> Z.lor x 192 = 192 + x.
Proof. intros Hx. apply Z.eqb_eq. revert x Hx. apply (below 32 (fun x => Z.lor x 192 =? 192 + x)). reflexivity. Qed.
Lemma lor_224 x : 0 <= x < 16 -> Z.lor x 224 = 224 + x.
Proof. intros Hx. apply Z.eqb_eq. revert x Hx. apply (below 16 (fun x => Z.lor x 224 =? 224 + x)). reflexivity. Qed.
Lemma lor_240 x : 0 <= x < 8 -> Z.lor x 240 = 240 + x.
Proof. intros Hx. apply Z.eqb_eq. revert x Hx. apply (below 8 (fun x => Z.lor x 240 =? 240 + x)). reflexivity. Qed.

Lemma isutf_byte x : 0 <= x < 256 -> isutf x = negb ((128 <=? x) && (x <? 192)).
Proof.
  intros Hx. apply eqb_prop. revert x Hx.
  apply (below 256 (fun x => eqb (isutf x) (negb ((128 <=? x) && (x <? 192))))). reflexivity.
Qed.

Lemma isutf_cont x : 0 <= x < 64 -> isutf (128 + x) = false.
Proof. intros. rewrite isutf_byte by lia. zcase; lia || done. Qed.

Lemma trailing_byte x : 0 <= x < 256 ->
  ld trailingBytesForUTF8 x =
  Ok (if x <? 192 then 0 else if x <? 224 then 1 else if x <? 240 then 2 else if x <? 248 then 3
      else if x <? 252 then 4 else 5).
Proof.
  intros Hx. rewrite (ld_nth _ _ 0) by exact Hx. f_equal. apply Z.eqb_eq. revert x Hx.
  apply (below 256 (fun x => nth (Z.to_nat x) trailingBytesForUTF8 0 =?
    (if x <? 192 then 0 else if x <? 224 then 1 else if x <? 240 then 2 else if x <? 248 then 3
      else if x <? 252 then 4 else 5))). reflexivity.
Qed.

Lemma land_63 x : Z.land x 63 = x mod 64.
Proof. exact (Z.land_ones x 6 ltac:(lia)). Qed.

(** One, two, three or four bytes. *)
Inductive wc_shape (ch : Z) : list Z -> Prop :=
  | Wc1 : ch < 128 -> wc_shape ch [ch]
  | Wc2 a b : 2 <= a < 32 -> 0 <= b < 64 -> ch = a * 64 + b -> wc_shape ch [192 + a; 128 + b]
  | Wc3 a b c : 0 <= a < 16 -> 0 <= b < 64 -> 0 <= c < 64 -> ch = a * 4096 + b * 64 + c ->
      2048 <= ch -> wc_shape ch [224 + a; 128 + b; 128 + c]
  | Wc4 a b c d : 0 <= a < 8 -> 0 <= b < 64 -> 0 <= c < 64 -> 0 <= d < 64 ->
      ch = a * 262144 + b * 4096 + c * 64 + d -> 65536 <= ch ->
      wc_shape ch [240 + a; 128 + b; 128 + c; 128 + d].

Lemma wc_bytes_shape ch : 0 <= ch < 1114112 -> wc_shape ch (wc_bytes ch).
Proof.
  intros Hch. unfold wc_bytes. rewrite !land_63, !Z.shiftr_div_pow2 by lia.
  change (2 ^ 6) with 64. change (2 ^ 12) with 4096. change (2 ^ 18) with 262144.
  destruct (Z.ltb_spec ch 128); [by apply Wc1|].
  destruct (Z.ltb_spec ch 2048).
  { rewrite lor_192, lor_128 by lia_div. apply Wc2; lia_div. }
  destruct (Z.ltb_spec ch 65536).
  { rewrite lor_224, !lor_128 by lia_div. apply Wc3; lia_div. }
  destruct (Z.ltb_spec ch 1114112); [|lia].
  rewrite lor_240, !lor_128 by lia_div. apply Wc4; lia_div.
Qed.

Lemma shape_head ch bs : valid ch -> wc_shape ch bs ->
  exists b rest, bs = b :: rest /\ isutf b = true /\ b <> 0 /\ 0 <= b < 256 /\ (length rest <= 3)%nat.
Proof.
  intros Hv Hs. unfold valid in Hv.
  destruct Hs; (do 2 eexists; split; [reflexivity|]); (rewrite isutf_byte by lia; split; [|simpl; lia]);
    zcase; done || lia.
Qed.

(** What may follow a character: the terminator, or the start of another one. *)
Definition stops (m : list Z) : Prop := exists x m', m = x :: m' /\ (x = 0 \/ isutf x = true).

Lemma stops_next cs j : Forall valid cs -> stops (utf8 cs ++ 0 :: j).
Proof.
  intros Hf. destruct Hf as [|ch cs' Hv _]; [exists 0, j; auto|]. unfold utf8. cbn [map concat].
  destruct (shape_head ch _ Hv (wc_bytes_shape ch ltac:(unfold valid in Hv; lia))) as (b & rest & -> & Hb & _).
  do 2 eexists. split; [done|]. by right.
Qed.

Lemma ld_behind {A} (pre m : list A) k i : 0 <= k -> i = zlen pre + k -> ld (pre ++ m) i = ld m k.
Proof. intros Hk ->. by apply ld_app_shift. Qed.

(** Read a byte at a constant distance behind [pre]. *)
Ltac ld_at pre k := rewrite (ld_behind pre _ k) by lia; unfold ld at 1; cbn [Z.ltb Z.compare Z.to_nat Pos.to_nat
  Pos.iter_op Nat.add lookup list_lookup mbind res_bind].

Lemma char_step pre b ch m :
  forall fuel sz x, ld (pre ++ b :: x :: m) (zlen pre) = Ok b /\ ld (pre ++ b :: x :: m) (zlen pre + 1) = Ok x /\
  nextchar_loop (S fuel) (pre ++ b :: x :: m) (zlen pre) ch sz =
    if negb (x =? 0) && negb (isutf x)
    then nextchar_loop fuel ((pre ++ [b]) ++ x :: m) (zlen (pre ++ [b])) (u32 (u32 (Z.shiftl ch 6) + b)) (sz + 1)
    else Ok (u32 (u32 (Z.shiftl ch 6) + b), sz + 1, zlen pre + 1).
Proof.
  intros fuel sz x.
  assert (E0 : ld (pre ++ b :: x :: m) (zlen pre) = Ok b) by (by apply ld_app_mid).
  assert (E1 : ld (pre ++ b :: x :: m) (zlen pre + 1) = Ok x) by (rewrite (ld_behind pre _ 1 (zlen pre + 1)); [done|lia|lia]).
  split; [done|]. split; [done|]. cbn [nextchar_loop]. rewrite E0. cbn [mbind res_bind]. rewrite E1.
  cbn [mbind res_bind]. rewrite <- app_assoc, zlen_app. done.
Qed.

(** The bytes behind the first one are all read; the accumulated number. *)
Lemma nextchar_cont conts : forall pre b ch sz m fuel,
  Forall (fun c => 128 <= c < 192) conts -> stops m -> (length conts < fuel)%nat ->
  nextchar_loop fuel (pre ++ b :: conts ++ m) (zlen pre) ch sz =
  Ok (foldl (fun ch c => u32 (u32 (Z.shiftl ch 6) + c)) (u32 (u32 (Z.shiftl ch 6) + b)) conts,
      sz + 1 + zlen conts, zlen pre + 1 + zlen conts).
Proof.
  induction conts as [|c conts IH]; intros pre b ch sz m fuel Hf Hm Hl; destruct fuel as [|fuel]; simpl in Hl; try lia.
  - destruct Hm as (x & m' & -> & Hx). cbn [app foldl].
    destruct (char_step pre b ch m' fuel sz x) as (_ & _ & ->). change (zlen (@nil Z)) with 0. rewrite !Z.add_0_r.
    destruct Hx as [Hx|Hx]; rewrite Hx; [done|]. by rewrite andb_false_r.
  - apply Forall_cons in Hf as [Hc Hf]. cbn [app foldl].
    destruct (char_step pre b ch (conts ++ m) fuel sz c) as (_ & _ & ->).
    rewrite isutf_byte by lia. destruct (Z.eqb_spec c 0); [lia|].
    destruct (Z.leb_spec 128 c); [|lia]. destruct (Z.ltb_spec c 192); [|lia]. cbn [negb andb].
    rewrite IH by (done || lia). rewrite zlen_app, !zlen_cons, zlen_nil. f_equal. f_equal; [f_equal|]; lia.
Qed.

(** Drop the wrap-arounds of small numbers, the innermost first. *)
Ltac u32_small := rewrite ?Z.shiftl_mul_pow2 by lia; change (2 ^ 6) with 64;
  repeat match goal with
  | |- context [u32 ?x] => lazymatch x with context [u32 _] => fail | _ => rewrite (u32_id x) by lia end
  end.

Definition add_byte (ch c : Z) : Z := u32 (u32 (Z.shiftl ch 6) + c).

(** What both decoders compute from the bytes of a code point. *)
Lemma wc_decode ch : 0 <= ch < 1114112 ->
  exists b conts off, wc_bytes ch = b :: conts /\ Forall (fun c => 128 <= c < 192) conts /\
    0 <= b < 256 /\ ld trailingBytesForUTF8 b = Ok (zlen conts) /\ zlen conts <= 3 /\
    ld offsetsFromUTF8 (zlen conts) = Ok off /\ u32 (foldl add_byte (u32 b) conts - off) = ch.
Proof.
  intros Hch. pose proof (wc_bytes_shape ch Hch) as Hs. unfold add_byte.
  inversion Hs; subst; do 3 eexists; (split; [reflexivity|]); (split; [repeat constructor; lia|]);
    (split; [lia|]); rewrite trailing_byte by lia.
  all: split; [zcase; reflexivity|]; split; [discriminate|]; split; [reflexivity|];
    cbn [foldl]; u32_small; lia.
Qed.

Lemma nextchar_ok pre ch m : 0 <= ch < 1114112 -> stops m ->
  ks_u8_nextchar (pre ++ wc_bytes ch ++ m) (zlen pre) = Ok (ch, zlen pre + zlen (wc_bytes ch)).
Proof.
  intros Hch Hm. unfold ks_u8_nextchar.
  destruct (wc_decode ch Hch) as (b & conts & off & -> & Hf & _ & _ & _ & Ho & Hv).
  cbn [app]. rewrite nextchar_cont; [|done|done|rewrite length_app; simpl; rewrite length_app; lia].
  cbn [mbind res_bind]. replace (0 + 1 + zlen conts - 1) with (zlen conts) by lia. rewrite Ho.
  cbn [mbind res_bind]. change (u32 (u32 (Z.shiftl 0 6) + b)) with (u32 b).
  change (fun ch0 c => u32 (u32 (Z.shiftl ch0 6) + c)) with add_byte. rewrite Hv, zlen_cons. do 2 f_equal. lia.
Qed.

(** ** Encoding *)

Lemma utf8_cons ch cs : utf8 (ch :: cs) = wc_bytes ch ++ utf8 cs.
Proof. done. Qed.

Lemma utf8_app cs1 cs2 : utf8 (cs1 ++ cs2) = utf8 cs1 ++ utf8 cs2.
Proof. unfold utf8. by rewrite map_app, concat_app. Qed.

Lemma wc_bytes_pos ch : 0 <= ch < 1114112 -> 1 <= zlen (wc_bytes ch) <= 4.
Proof. intros Hch. destruct (wc_bytes_shape ch Hch); rewrite ?zlen_cons; change (zlen (@nil Z)) with 0; lia. Qed.

(** What tells the encoder that it is done. *)
Definition counted (srcsz n : Z) (post : list Z) : Prop :=
  (srcsz < 0 /\ exists j, post = 0 :: j) \/ (0 <= srcsz /\ srcsz = n).

Lemma more_chars pre cs post srcsz : Forall valid cs -> counted srcsz (zlen pre + zlen cs) post ->
  (if srcsz <? 0 then ch ← ld (pre ++ cs ++ post) (zlen pre); Ok (negb (ch =? 0)) else Ok (zlen pre <? srcsz)) =
  Ok (negb (bool_decide (cs = []))).
Proof.
  intros Hv [[Hs [j ->]]|[Hs ->]]; (destruct cs as [|c cs]; [|apply Forall_cons in Hv as [Hc _]]).
  - destruct (Z.ltb_spec srcsz 0); [|lia]. cbn [app]. by rewrite ld_app_mid.
  - destruct (Z.ltb_spec srcsz 0); [|lia]. cbn [app]. rewrite ld_app_mid by done. cbn [mbind res_bind].
    destruct (Z.eqb_spec c 0) as [->|]; [by unfold valid in Hc; lia|done].
  - destruct (Z.ltb_spec (zlen pre + zlen (@nil Z)) 0); [lia|]. change (zlen (@nil Z)) with 0. by rewrite Z.add_0_r, Z.ltb_irrefl.
  - rewrite zlen_cons in *. destruct (Z.ltb_spec (zlen pre + (zlen cs + 1)) 0); [lia|].
    pose proof (zlen_nonneg cs). destruct (Z.ltb_spec (zlen pre) (zlen pre + (zlen cs + 1))); [done|lia].
Qed.

Lemma utf8_take_le n cs : zlen (utf8 (take n cs)) <= zlen (utf8 cs).
Proof. rewrite <- (take_drop n cs) at 2. rewrite utf8_app, zlen_app. pose proof (zlen_nonneg (utf8 (drop n cs))). lia. Qed.

(** The longest prefix of [cs] that fits behind [n] bytes, and the buffer. *)
Definition fits (sz n : Z) (cs : list Z) (k : nat) : Prop :=
  (k <= length cs)%nat /\ n + zlen (utf8 (take k cs)) <= sz /\
  ((k < length cs)%nat -> sz < n + zlen (utf8 (take (S k) cs))).

Definition after_utf8 (sz n : Z) (cs : list Z) (k : nat) (rest : list Z) : list Z :=
  utf8 (take k cs) ++ (let r := drop (length (utf8 (take k cs))) rest in
    if bool_decide (k = length cs) && (n + zlen (utf8 cs) <? sz) then 0 :: drop 1 r else r).

Lemma toutf8_fit cs : forall fuel pre post acc rest srcsz sz,
  Forall valid cs -> counted srcsz (zlen pre + zlen cs) post ->
  zlen acc <= sz -> sz <= zlen (acc ++ rest) -> (length cs < fuel)%nat ->
  exists k, fits sz (zlen acc) cs k /\
    toutf8_loop fuel (acc ++ rest) sz (pre ++ cs ++ post) srcsz (zlen acc) (zlen pre) =
    Ok (zlen pre + Z.of_nat k, acc ++ after_utf8 sz (zlen acc) cs k rest).
Proof.
  induction cs as [|ch cs IH]; intros [|fuel] pre post acc rest srcsz sz Hv Hc Hl Hr Hf; simpl in Hf; try lia;
    cbn [toutf8_loop]; rewrite more_chars by done; rewrite zlen_app in Hr.
  - exists 0%nat. unfold fits, after_utf8. change (zlen (utf8 (take 0 []))) with 0. change (zlen (utf8 [])) with 0.
    split; [split; [done|]; split; [lia|simpl; lia]|]. rewrite !Z.add_0_r. cbn [mbind res_bind].
    rewrite bool_decide_eq_true_2 by done. change (utf8 (take 0 [])) with (@nil Z). cbn [bool_decide negb andb app length].
    destruct (Z.ltb_spec (zlen acc) sz); [|done]. by rewrite st_rest by (done || lia).
  - cbn [mbind res_bind]. pose proof Hv as Hv0. apply Forall_cons in Hv as [Hch Hv].
    assert (Hp : 1 <= zlen (wc_bytes ch) <= 4) by (apply wc_bytes_pos; unfold valid in Hch; lia).
    pose proof (zlen_nonneg (utf8 cs)).
    cbn [app]. rewrite ld_app_mid by done. cbn [mbind res_bind].
    change (bool_decide (ch :: cs = [])) with false. cbn [negb]. destruct (Z.ltb_spec 0 (zlen (wc_bytes ch))); [|lia].
    destruct (Z.leb_spec (sz - (zlen (wc_bytes ch) - 1)) (zlen acc)) as [Hfull|Hroom]; cbn [andb].
    { exists 0%nat. unfold fits, after_utf8. change (utf8 (take 1 (ch :: cs))) with (wc_bytes ch ++ []).
      change (utf8 (take 0 (ch :: cs))) with (@nil Z). change (zlen (@nil Z)) with 0. rewrite app_nil_r, !Z.add_0_r.
      split; [split; [simpl; lia|]; split; [lia|intros; lia]|done]. }
    rewrite blit_rest by (done || lia). cbn [mbind res_bind].
    replace (pre ++ ch :: cs ++ post) with ((pre ++ [ch]) ++ cs ++ post) by (by rewrite <- app_assoc).
    replace (zlen acc + zlen (wc_bytes ch)) with (zlen (acc ++ wc_bytes ch)) by apply zlen_app.
    replace (zlen pre + 1) with (zlen (pre ++ [ch])) by (by rewrite zlen_app).
    destruct (IH fuel (pre ++ [ch]) post (acc ++ wc_bytes ch) (drop (length (wc_bytes ch)) rest) srcsz sz)
      as (k & (Hk & Hfit & Hmax) & ->); [done| | | |lia|].
    + rewrite zlen_cons in Hc. rewrite zlen_app. change (zlen [ch]) with 1.
      by replace (zlen pre + 1 + zlen cs) with (zlen pre + (zlen cs + 1)) by lia.
    + rewrite zlen_app. lia.
    + unfold zlen in *. rewrite !length_app, length_drop. lia.
    + exists (S k). unfold fits, after_utf8. cbn [take length]. rewrite !utf8_cons, !zlen_app in *.
      split; [split; [lia|]; split; [lia|intros; lia]|]. change (zlen [ch]) with 1.
      rewrite length_app, !drop_drop, <- !app_assoc, Z.add_assoc.
      rewrite (bool_decide_ext (S k = S (length cs)) (k = length cs)) by lia. do 2 f_equal.
      1: lia.
      rewrite ?Nat.add_assoc. done.
Qed.

Lemma toutf8_run cs fuel pre post acc rest srcsz sz :
  Forall valid cs -> counted srcsz (zlen pre + zlen cs) post ->
  zlen acc + zlen (utf8 cs) < sz -> sz <= zlen (acc ++ rest) -> (length cs < fuel)%nat ->
  toutf8_loop fuel (acc ++ rest) sz (pre ++ cs ++ post) srcsz (zlen acc) (zlen pre) =
  Ok (zlen pre + zlen cs, (acc ++ utf8 cs) ++ 0 :: drop (S (length (utf8 cs))) rest).
Proof.
  intros Hv Hc Hl Hr Hf. pose proof (zlen_nonneg (utf8 cs)).
  destruct (toutf8_fit cs fuel pre post acc rest srcsz sz Hv Hc ltac:(lia) Hr Hf) as (k & (Hk & Hfit & Hmax) & ->).
  pose proof (utf8_take_le (S k) cs). assert (k = length cs) as -> by lia.
  unfold after_utf8. rewrite firstn_all, bool_decide_eq_true_2 by done. cbn [andb].
  destruct (Z.ltb_spec (zlen acc + zlen (utf8 cs)) sz); [|lia].
  by rewrite drop_drop, Nat.add_1_r, <- app_assoc.
Qed.

(** ** Decoding *)

Lemma toucs_bytes_ok conts : forall pre b post ch,
  toucs_bytes (pre ++ b :: conts ++ post) (length conts) (zlen pre) ch =
  Ok (foldl add_byte (u32 (ch + b)) conts, zlen pre + 1 + zlen conts).
Proof.
  induction conts as [|c conts IH]; intros pre b post ch; cbn [length toucs_bytes app];
    rewrite ld_app_mid by done; cbn [mbind res_bind].
  - cbn [foldl]. change (zlen (@nil Z)) with 0. by rewrite Z.add_0_r.
  - replace (pre ++ b :: c :: conts ++ post) with ((pre ++ [b]) ++ c :: conts ++ post) by (by rewrite <- app_assoc).
    replace (zlen pre + 1) with (zlen (pre ++ [b])) by (by rewrite zlen_app).
    rewrite IH. rewrite zlen_app, (zlen_cons c conts). change (zlen [b]) with 1. f_equal. f_equal. lia.
Qed.

(** The end of the input: a terminator, or a readable byte behind the count. *)
Definition ends (srcsz n : Z) (post : list Z) : Prop :=
  exists x j, post = x :: j /\ 0 <= x < 256 /\ ((srcsz = -1 /\ x = 0) \/ (0 <= srcsz /\ srcsz = n)).

Lemma toucs_run cs : forall fuel pre post acc rest srcsz sz,
  Forall valid cs -> ends srcsz (zlen pre + zlen (utf8 cs)) post ->
  zlen acc + zlen cs < sz -> sz <= zlen (acc ++ rest) -> (length cs < fuel)%nat ->
  toucs_loop fuel (acc ++ rest) sz (pre ++ utf8 cs ++ post) srcsz (zlen pre) (zlen acc) =
  Ok (zlen acc + zlen cs, (acc ++ cs) ++ 0 :: drop (S (length cs)) rest).
Proof.
  induction cs as [|ch cs IH]; intros [|fuel] pre post acc rest srcsz sz Hv He Hl Hr Hf; simpl in Hf; try lia;
    cbn [toucs_loop]; rewrite zlen_app in Hr; destruct (Z.ltb_spec (zlen acc) (sz - 1)) as [|];
    rewrite ?zlen_cons in Hl; change (zlen (@nil Z)) with 0 in Hl; try (pose proof (zlen_nonneg cs); lia).
  - destruct He as (x & j & -> & Hx & He). cbn [utf8 map concat app]. rewrite ld_app_mid by done.
    cbn [mbind res_bind]. rewrite trailing_byte by done. cbn [mbind res_bind].
    change (zlen (utf8 [])) with 0 in He.
    assert (E : (if srcsz =? -1 then x =? 0 else srcsz <=? zlen pre + (if x <? 192 then 0 else if x <? 224 then 1
      else if x <? 240 then 2 else if x <? 248 then 3 else if x <? 252 then 4 else 5)) = true).
    { destruct He as [[-> ->]|[? ->]]; [done|]. destruct (Z.eqb_spec (zlen pre + 0) (-1)); [lia|].
      apply Z.leb_le. destruct (x <? 192), (x <? 224), (x <? 240), (x <? 248), (x <? 252); lia. }
    rewrite E, (st_rest acc rest) by (done || lia). cbn [mbind res_bind].
    change (zlen (@nil Z)) with 0. by rewrite Z.add_0_r, app_nil_r.
  - rewrite (st_rest acc rest) by (done || lia). cbn [mbind res_bind].
    change (zlen (@nil Z)) with 0. by rewrite Z.add_0_r, app_nil_r.
  - apply Forall_cons in Hv as [Hch Hv]. rewrite utf8_cons in *.
    destruct (wc_decode ch) as (b & conts & off & E & Hconts & Hb & Ht & H3 & Ho & Hval);
      [unfold valid in Hch; lia|]. rewrite E in *. rewrite <- app_assoc. cbn [app].
    rewrite ld_app_mid by done. cbn [mbind res_bind]. rewrite Ht. cbn [mbind res_bind].
    assert (Es : (if srcsz =? -1 then b =? 0 else srcsz <=? zlen pre + zlen conts) = false).
    { destruct (shape_head ch _ Hch (wc_bytes_shape ch ltac:(unfold valid in Hch; lia))) as (b' & r' & E' & _ & Hb0 & _).
      rewrite E in E'. injection E' as -> ->. destruct He as (x & j & _ & _ & [[-> _]|[Hs Hn]]).
      - by apply Z.eqb_neq.
      - destruct (Z.eqb_spec srcsz (-1)); [lia|]. apply Z.leb_gt. rewrite zlen_app, zlen_cons in Hn.
        pose proof (zlen_nonneg (utf8 cs)). lia. }
    rewrite Es. destruct (Z.leb_spec (zlen conts) 3); [|lia]. replace (Z.to_nat (zlen conts)) with (length conts) by (unfold zlen; lia).
    rewrite toucs_bytes_ok. cbn [mbind res_bind]. change (0 + b) with b. rewrite Ho. cbn [mbind res_bind].
    rewrite Hval, (st_rest acc rest) by (done || lia). cbn [mbind res_bind].
    replace (pre ++ b :: conts ++ utf8 cs ++ post) with ((pre ++ wc_bytes ch) ++ utf8 cs ++ post)
      by (by rewrite E, <- app_assoc).
    replace (zlen pre + 1 + zlen conts) with (zlen (pre ++ wc_bytes ch)) by (rewrite E, zlen_app, zlen_cons; lia).
    replace (acc ++ ch :: drop 1 rest) with ((acc ++ [ch]) ++ drop 1 rest) by (by rewrite <- app_assoc).
    replace (zlen acc + 1) with (zlen (acc ++ [ch])) by (by rewrite zlen_app).
    rewrite IH; [|done| | | |lia].
    + rewrite zlen_app, (zlen_cons ch cs), drop_drop, <- app_assoc. change (zlen [ch]) with 1. rewrite <- !app_assoc. do 2 f_equal. lia.
    + rewrite <- E, zlen_app in *. by rewrite <- Z.add_assoc.
    + rewrite zlen_app. change (zlen [ch]) with 1. lia.
    + unfold zlen in *. rewrite !length_app, length_drop. simpl. lia.
Qed.

(** ** Walking over an encoded string *)

Lemma stops_utf m : stops m -> exists x m', m = x :: m' /\ isutf x = true.
Proof. intros (x & m' & -> & [->|Hx]); eauto. Qed.

Lemma inc_ok pre ch m : valid ch -> stops m ->
  ks_u8_inc (pre ++ wc_bytes ch ++ m) (zlen pre) = Ok (zlen pre + zlen (wc_bytes ch)).
Proof.
  intros Hv (x & m' & -> & Hx)%stops_utf. unfold valid in Hv. unfold ks_u8_inc.
  rewrite (ld_behind pre _ 1 (zlen pre + 1)), (ld_behind pre _ 2 (zlen pre + 2)), (ld_behind pre _ 3 (zlen pre + 3)) by lia.
  destruct (wc_bytes_shape ch) as [| | |]; [lia|..]; unfold ld; change (Z.to_nat 1) with 1%nat;
    change (Z.to_nat 2) with 2%nat; change (Z.to_nat 3) with 3%nat; cbn -[zlen Z.add isutf];
    rewrite ?isutf_cont by lia; rewrite ?Hx; done.
Qed.

(** The text of [cs] behind [pre], at its first character. *)
Lemma utf8_split pre ch cs m : pre ++ utf8 (ch :: cs) ++ m = pre ++ wc_bytes ch ++ utf8 cs ++ m.
Proof. by rewrite utf8_cons, <- app_assoc. Qed.

Lemma utf8_next pre ch cs m : pre ++ utf8 (ch :: cs) ++ m = (pre ++ wc_bytes ch) ++ utf8 cs ++ m.
Proof. by rewrite utf8_cons, <- !app_assoc. Qed.

Lemma utf8_first pre ch cs m : valid ch ->
  exists b, ld (pre ++ utf8 (ch :: cs) ++ m) (zlen pre) = Ok b /\ b <> 0.
Proof.
  intros Hv. rewrite utf8_split. unfold valid in Hv.
  destruct (shape_head ch _ Hv (wc_bytes_shape ch ltac:(lia))) as (b & rest & -> & _ & Hb & _).
  exists b. cbn [app]. by rewrite ld_app_mid.
Qed.

Lemma utf8_long cs : Forall valid cs -> (length cs <= length (utf8 cs))%nat.
Proof.
  induction 1 as [|ch cs Hv _ IH]; [done|]. rewrite utf8_cons, length_app. simpl.
  pose proof (wc_bytes_pos ch ltac:(unfold valid in Hv; lia)). unfold zlen in *. lia.
Qed.

Lemma offset_run cs : forall fuel pre j k, Forall valid cs -> 0 <= k <= zlen cs -> (length cs < fuel)%nat ->
  offset_loop fuel (pre ++ utf8 cs ++ 0 :: j) k (zlen pre) = Ok (zlen pre + zlen (utf8 (take (Z.to_nat k) cs))).
Proof.
  induction cs as [|ch cs IH]; intros [|fuel] pre j k Hv Hk Hf; simpl in Hf; try lia; cbn [offset_loop];
    destruct (Z.ltb_spec 0 k) as [Hpos|].
  - change (zlen (@nil Z)) with 0 in Hk. lia.
  - rewrite take_nil. change (zlen (utf8 [])) with 0. by rewrite Z.add_0_r.
  - rewrite zlen_cons in Hk. apply Forall_cons in Hv as [Hch Hv].
    destruct (utf8_first pre ch cs (0 :: j) Hch) as (b & -> & Hb). cbn [mbind res_bind].
    destruct (Z.eqb_spec b 0); [done|]. rewrite utf8_split, inc_ok by (done || by apply stops_next).
    cbn [mbind res_bind]. replace (zlen pre + zlen (wc_bytes ch)) with (zlen (pre ++ wc_bytes ch)) by apply zlen_app.
    rewrite <- utf8_split, utf8_next, IH by (done || lia).
    replace (Z.to_nat k) with (S (Z.to_nat (k - 1))) by lia. cbn [take].
    rewrite utf8_cons, !zlen_app. f_equal. lia.
  - replace k with 0 by lia. cbn [Z.to_nat take]. change (zlen (utf8 [])) with 0. by rewrite Z.add_0_r.
Qed.

Lemma charnum_run cs : forall fuel pre j k n, Forall valid cs -> 0 <= k <= zlen cs -> (length cs < fuel)%nat ->
  charnum_loop fuel (pre ++ utf8 cs ++ 0 :: j) (zlen pre + zlen (utf8 (take (Z.to_nat k) cs))) n (zlen pre) = Ok (n + k).
Proof.
  induction cs as [|ch cs IH]; intros [|fuel] pre j k n Hv Hk Hf; simpl in Hf; try lia; cbn [charnum_loop].
  - change (zlen (@nil Z)) with 0 in Hk. replace k with 0 by lia.
    change (zlen (utf8 (take (Z.to_nat 0) []))) with 0.
    destruct (Z.ltb_spec (zlen pre) (zlen pre + 0)); [lia|]. by rewrite Z.add_0_r.
  - rewrite zlen_cons in Hk. apply Forall_cons in Hv as [Hch Hv].
    destruct (decide (k = 0)) as [->|Hk0].
    { change (zlen (utf8 (take (Z.to_nat 0) (ch :: cs)))) with 0.
      destruct (Z.ltb_spec (zlen pre) (zlen pre + 0)); [lia|]. by rewrite Z.add_0_r. }
    replace (Z.to_nat k) with (S (Z.to_nat (k - 1))) by lia. cbn [take]. rewrite (utf8_cons ch (take _ cs)), zlen_app.
    pose proof (wc_bytes_pos ch ltac:(unfold valid in Hch; lia)). pose proof (zlen_nonneg (utf8 (take (Z.to_nat (k - 1)) cs))).
    destruct (Z.ltb_spec (zlen pre) (zlen pre + (zlen (wc_bytes ch) + zlen (utf8 (take (Z.to_nat (k - 1)) cs))))); [|lia].
    destruct (utf8_first pre ch cs (0 :: j) Hch) as (b & -> & Hb). cbn [mbind res_bind].
    destruct (Z.eqb_spec b 0); [done|]. rewrite utf8_split, inc_ok by (done || by apply stops_next).
    cbn [mbind res_bind]. rewrite Z.add_assoc.
    replace (zlen pre + zlen (wc_bytes ch)) with (zlen (pre ++ wc_bytes ch)) by apply zlen_app.
    rewrite <- utf8_split, utf8_next, IH by (done || lia). f_equal. lia.
Qed.

Lemma strlen_run cs : forall fuel pre j n, Forall valid cs -> (length cs < fuel)%nat ->
  strlen_loop fuel (pre ++ utf8 cs ++ 0 :: j) (zlen pre) n =
  r ← ks_u8_nextchar (pre ++ utf8 cs ++ 0 :: j) (zlen pre + zlen (utf8 cs));
  if r.1 =? 0 then Ok (n + zlen cs)
  else strlen_loop (fuel - length cs - 1) (pre ++ utf8 cs ++ 0 :: j) r.2 (n + zlen cs + 1).
Proof.
  induction cs as [|ch cs IH]; intros [|fuel] pre j n Hv Hf; simpl in Hf; try lia; cbn [strlen_loop].
  - cbn [length]. change (zlen (utf8 [])) with 0. change (zlen (@nil Z)) with 0. rewrite !Z.add_0_r.
    replace (S fuel - 0 - 1)%nat with fuel by lia. done.
  - apply Forall_cons in Hv as [Hch Hv]. assert (0 <= ch < 1114112) by (unfold valid in Hch; lia).
    rewrite utf8_split, nextchar_ok by (done || by apply stops_next). cbn [mbind res_bind fst snd].
    destruct (Z.eqb_spec ch 0); [unfold valid in Hch; lia|].
    replace (zlen pre + zlen (wc_bytes ch)) with (zlen (pre ++ wc_bytes ch)) by apply zlen_app.
    rewrite <- utf8_split, utf8_next, IH by (done || lia).
    rewrite zlen_cons, utf8_cons, !zlen_app. cbn [length].
    replace (S fuel - S (length cs) - 1)%nat with (fuel - length cs - 1)%nat by lia.
    replace (n + 1 + zlen cs) with (n + (zlen cs + 1)) by lia. by rewrite (Z.add_assoc (zlen pre)).
Qed.

Lemma strchr_run cs : forall fuel pre j ch n, Forall valid cs -> (length cs < fuel)%nat ->
  strchr_loop fuel (pre ++ utf8 cs ++ 0 :: j) ch (zlen pre) n =
  Ok (match list_find (fun c => c = ch) cs with
      | Some (k, _) => (Some (zlen pre + zlen (utf8 (take k cs))), n + Z.of_nat k)
      | None => (None, n + zlen cs)
      end).
Proof.
  induction cs as [|c cs IH]; intros [|fuel] pre j ch n Hv Hf; simpl in Hf; try lia; cbn [strchr_loop].
  - cbn [utf8 map concat app]. rewrite ld_app_mid by done. cbn. by rewrite Z.add_0_r.
  - apply Forall_cons in Hv as [Hc Hv]. assert (0 <= c < 1114112) by (unfold valid in Hc; lia).
    destruct (utf8_first pre c cs (0 :: j) Hc) as (b & -> & Hb). cbn [mbind res_bind].
    destruct (Z.eqb_spec b 0); [done|]. rewrite utf8_split, nextchar_ok by (done || by apply stops_next).
    cbn [mbind res_bind fst snd list_find]. rewrite decide_bool_decide.
    destruct (Z.eqb_spec c ch) as [->|Hne].
    { rewrite bool_decide_eq_true_2 by done. cbn. by rewrite !Z.add_0_r. }
    rewrite bool_decide_eq_false_2 by done.
    replace (zlen pre + zlen (wc_bytes c)) with (zlen (pre ++ wc_bytes c)) by apply zlen_app.
    rewrite <- utf8_split, utf8_next, IH by (done || lia).
    destruct (list_find (fun c => c = ch) cs) as [[k x]|]; cbn [fmap option_fmap option_map prod_map];
      cbn [fst take]; rewrite ?utf8_cons, ?zlen_cons, ?zlen_app; apply f_equal, f_equal2; try apply (f_equal Some);
      done || lia.
Qed.

Lemma ld_back {A} (pre m : list A) n i v : 0 <= n - i -> ld m (n - i) = Ok v -> ld (pre ++ m) (zlen pre + n - i) = Ok v.
Proof. intros Hn <-. apply ld_behind; lia. Qed.

Lemma dec_ok pre ch m : valid ch ->
  ks_u8_dec (pre ++ wc_bytes ch ++ m) (zlen pre + zlen (wc_bytes ch)) = Ok (zlen pre).
Proof.
  intros Hv. unfold valid in Hv. unfold ks_u8_dec.
  destruct (wc_bytes_shape ch) as [| | |]; [lia|..]; rewrite ?zlen_cons; change (zlen (@nil Z)) with 0;
    cbn [Z.add Pos.add Pos.succ app];
    erewrite (ld_back pre _ _ 1) by first [lia|reflexivity];
    try erewrite (ld_back pre _ _ 2) by first [lia|reflexivity];
    try erewrite (ld_back pre _ _ 3) by first [lia|reflexivity];
    cbn [mbind res_bind]; rewrite ?isutf_cont by lia;
    rewrite ?isutf_byte by lia; zcase; first [lia | f_equal; lia].
Qed.

(** [ks_u8_memchr] stops a character at the count as at the next lead byte. *)
Lemma memnext_cont conts : forall fuel pre b m sz c csz,
  Forall (fun c => 128 <= c < 192) conts -> zlen pre + 1 + zlen conts <= sz ->
  (zlen pre + 1 + zlen conts = sz \/ exists x m', m = x :: m' /\ isutf x = true) -> (length conts < fuel)%nat ->
  memnext_loop fuel (pre ++ b :: conts ++ m) sz (zlen pre) c csz =
  Ok (foldl add_byte (u32 (u32 (Z.shiftl c 6) + b)) conts, csz + 1 + zlen conts, zlen pre + 1 + zlen conts).
Proof.
  induction conts as [|x conts IH]; intros [|fuel] pre b m sz c csz Hf Hs Hm Hl; simpl in Hl; try lia;
    cbn [memnext_loop app]; rewrite (ld_app_mid pre _ _ (zlen pre)) by done; cbn [mbind res_bind foldl];
    rewrite (ld_behind pre _ 1 (zlen pre + 1)) by lia.
  - change (zlen (@nil Z)) with 0 in *. rewrite !Z.add_0_r in *. destruct (Z.ltb_spec (zlen pre + 1) sz); [|done].
    destruct Hm as [|(x & m' & -> & Hx)]; [lia|]. change (ld (b :: x :: m') 1) with (@Ok Z x).
    cbn [mbind res_bind]. by rewrite Hx.
  - rewrite zlen_cons in *. pose proof (zlen_nonneg conts). destruct (Z.ltb_spec (zlen pre + 1) sz); [|lia].
    change (ld (b :: x :: conts ++ m) 1) with (@Ok Z x). apply Forall_cons in Hf as [Hx Hf].
    cbn [mbind res_bind]. rewrite isutf_byte by lia.
    destruct (Z.leb_spec 128 x); [|lia]. destruct (Z.ltb_spec x 192); [|lia]. cbn [negb andb].
    replace (pre ++ b :: x :: conts ++ m) with ((pre ++ [b]) ++ x :: conts ++ m) by (by rewrite <- app_assoc).
    replace (zlen pre + 1) with (zlen (pre ++ [b])) by (by rewrite zlen_app).
    assert (E1 : zlen (pre ++ [b]) = zlen pre + 1) by (by rewrite zlen_app).
    rewrite IH; [|done|lia|rewrite E1; destruct Hm; [left; lia|by right]|lia].
    rewrite E1. unfold add_byte at 2. f_equal. f_equal; [f_equal|]; lia.
Qed.
Lemma memchr_run cs : forall fuel pre m ch n, Forall valid cs -> (length cs < fuel)%nat ->
  memchr_loop fuel (pre ++ utf8 cs ++ m) ch (zlen pre + zlen (utf8 cs)) (zlen pre) n =
  Ok (match list_find (fun c => c = ch) cs with
      | Some (k, _) => (Some (zlen pre + zlen (utf8 (take k cs))), n + Z.of_nat k)
      | None => (None, n + zlen cs)
      end).
Proof.
  induction cs as [|c cs IH]; intros [|fuel] pre m ch n Hv Hf; simpl in Hf; try lia; cbn [memchr_loop].
  - change (zlen (utf8 [])) with 0. destruct (Z.ltb_spec (zlen pre) (zlen pre + 0)); [lia|]. by rewrite Z.add_0_r.
  - apply Forall_cons in Hv as [Hc Hv]. assert (0 <= c < 1114112) by (unfold valid in Hc; lia).
    destruct (wc_decode c) as (b & conts & off & E & Hb & _ & _ & _ & Ho & Hd); [done|].
    rewrite utf8_cons, zlen_app in *. pose proof (wc_bytes_pos c ltac:(done)). pose proof (zlen_nonneg (utf8 cs)).
    destruct (Z.ltb_spec (zlen pre) (zlen pre + (zlen (wc_bytes c) + zlen (utf8 cs)))); [|lia].
    assert (Er : memnext_loop (S (length (pre ++ (wc_bytes c ++ utf8 cs) ++ m))) (pre ++ (wc_bytes c ++ utf8 cs) ++ m)
      (zlen pre + (zlen (wc_bytes c) + zlen (utf8 cs))) (zlen pre) 0 0 =
      Ok (foldl add_byte (u32 b) conts, zlen conts + 1, zlen pre + zlen (wc_bytes c))).
    { rewrite E, zlen_cons in *. rewrite <- app_assoc. cbn [app]. rewrite memnext_cont; [|done|lia| |].
      - change (u32 (u32 (Z.shiftl 0 6) + b)) with (u32 b). f_equal. f_equal; [f_equal|]; lia.
      - destruct cs as [|c2 cs]; [left; change (zlen (utf8 [])) with 0; lia|right].
        apply Forall_cons in Hv as [Hc2 _]. rewrite utf8_cons. unfold valid in Hc2.
        destruct (shape_head c2 _ Hc2 (wc_bytes_shape c2 ltac:(lia))) as (x & r & -> & Hx & _).
        by do 2 eexists.
      - rewrite !length_app. simpl. rewrite !length_app. lia. }
    rewrite Er. cbn [mbind res_bind]. rewrite Z.add_simpl_r, Ho. cbn [mbind res_bind list_find].
    rewrite Hd, decide_bool_decide. destruct (Z.eqb_spec c ch) as [->|Hne].
    { rewrite bool_decide_eq_true_2 by done. cbn. by rewrite !Z.add_0_r. }
    rewrite bool_decide_eq_false_2 by done. rewrite Z.add_assoc.
    replace (zlen pre + zlen (wc_bytes c)) with (zlen (pre ++ wc_bytes c)) by apply zlen_app.
    rewrite <- app_assoc, app_assoc, IH by (done || lia).
    destruct (list_find (fun c => c = ch) cs) as [[k x]|]; cbn [fmap option_fmap option_map prod_map];
      cbn [fst take]; rewrite ?utf8_cons, ?zlen_cons, ?zlen_app; apply f_equal, f_equal2; try apply (f_equal Some);
      done || lia.
Qed.

(** C14: encoding and decoding are inverse: for code points 1 to 0x10FFFF, given
    by a count or a terminator, with room for the bytes and their NUL,
    [ks_u8_toutf8] converts all of them, and [ks_u8_toucs] on its output (by
    terminator, or by count when the byte behind is readable) gives back
    exactly these code points. *)
Theorem u8_roundtrip cs src_n post dest1 sz1 dest2 sz2 j :
  Forall valid cs -> counted src_n (zlen cs) post ->
  zlen (utf8 cs) < sz1 <= zlen dest1 -> zlen cs < sz2 <= zlen dest2 ->
  ks_u8_toutf8 dest1 sz1 (cs ++ post) src_n =
    Ok (zlen cs, utf8 cs ++ 0 :: drop (S (length (utf8 cs))) dest1) /\
  forall n, n = -1 \/ n = zlen (utf8 cs) ->
    ks_u8_toucs dest2 sz2 (utf8 cs ++ 0 :: j) n = Ok (zlen cs, cs ++ 0 :: drop (S (length cs)) dest2).
Proof.
  intros Hv Hc H1 H2. split.
  - exact (toutf8_run cs (S (length (cs ++ post))) [] post [] dest1 src_n sz1 Hv Hc ltac:(apply H1) ltac:(apply H1)
      ltac:(rewrite length_app; lia)).
  - intros n Hn. apply (toucs_run cs (S (Z.to_nat sz2)) [] (0 :: j) [] dest2 n sz2 Hv); [|apply H2|apply H2|unfold zlen in *; lia].
    exists 0, j. split; [done|]. split; [lia|]. pose proof (zlen_nonneg (utf8 cs)).
    destruct Hn; subst; auto.
Qed.

Lemma u8_roundtrip_witness :
  ks_u8_toutf8 (replicate 9 0) 9 [65; 228; 8364; 0] (-1) = Ok (3, [65; 195; 164; 226; 130; 172; 0; 0; 0]) /\
  ks_u8_toucs (replicate 4 7) 4 [65; 195; 164; 226; 130; 172; 0] (-1) = Ok (3, [65; 228; 8364; 0]).
Proof.
  destruct (u8_roundtrip [65; 228; 8364] (-1) [0] (replicate 9 0) 9 (replicate 4 7) 4 []) as [H1 H2];
    [repeat constructor; lia|left; split; [lia|exists []; reflexivity]|split; reflexivity || discriminate
    |split; reflexivity || discriminate|].
  split; [exact H1|exact (H2 (-1) (or_introl eq_refl))].
Defined.

(** [ks_u8_toutf8] in a buffer of any size converts the longest prefix that
    fits, returns how many code points that is, writes nothing at or behind
    [sz], and terminates the text exactly when all of it and the NUL fit. *)
Lemma u8_toutf8_bounds cs srcsz post dest sz :
  Forall valid cs -> counted srcsz (zlen cs) post -> 0 <= sz <= zlen dest ->
  exists k dest', ks_u8_toutf8 dest sz (cs ++ post) srcsz = Ok (Z.of_nat k, dest') /\ fits sz 0 cs k /\
    take (length (utf8 (take k cs))) dest' = utf8 (take k cs) /\
    length dest' = length dest /\ drop (Z.to_nat sz) dest' = drop (Z.to_nat sz) dest /\
    (zlen (utf8 cs) < sz -> k = length cs /\ dest' !! length (utf8 cs) = Some 0) /\
    (sz <= zlen (utf8 cs) -> drop (length (utf8 (take k cs))) dest' = drop (length (utf8 (take k cs))) dest).
Proof.
  intros Hv Hc Hs.
  destruct (toutf8_fit cs (S (length (cs ++ post))) [] post [] dest srcsz sz Hv Hc ltac:(apply Hs) ltac:(apply Hs)
    ltac:(rewrite length_app; lia)) as (k & Hfit & Hrun).
  exists k, (after_utf8 sz 0 cs k dest). split; [exact Hrun|]. split; [exact Hfit|]. clear Hrun Hc. change (fits sz 0 cs k) in Hfit.
  destruct Hfit as (Hk & Hfit & Hmax). pose proof (utf8_take_le (S k) cs) as Hle. unfold after_utf8.
  set (t := utf8 (take k cs)) in *. set (r := drop (length t) dest).
  assert (Hr : length r = (length dest - length t)%nat) by (subst r; by rewrite length_drop).
  split; [by rewrite take_app_length|].
  destruct (Z.ltb_spec (0 + zlen (utf8 cs)) sz); [assert (k = length cs) as -> by lia|].
  - rewrite bool_decide_eq_true_2 by done. assert (length t = length (utf8 cs)) as Et by (subst t; by rewrite firstn_all).
    cbn [andb]. unfold zlen in *. clearbody t. split; [rewrite length_app; simpl; rewrite length_drop; lia|].
    split; [|split; [|lia]].
    + rewrite drop_app_ge by lia. subst r. rewrite drop_drop.
      replace (Z.to_nat sz - length t)%nat with (S (Z.to_nat sz - length t - 1))%nat by lia.
      cbn [drop]. rewrite drop_drop. f_equal. lia.
    + intros _. split; [done|]. rewrite lookup_app_r by lia. by rewrite Et, Nat.sub_diag.
  - rewrite andb_false_r. unfold zlen in *. split; [rewrite length_app; lia|].
    split; [|split; [lia|intros _; by rewrite drop_app_length]].
    rewrite drop_app_ge by lia. subst r. rewrite drop_drop. f_equal. lia.
Qed.

Lemma u8_toutf8_bounds_witness : exists k dest',
  ks_u8_toutf8 [7; 7; 7; 7] 3 ([65; 8364] ++ [0]) (-1) = Ok (Z.of_nat k, dest') /\ fits 3 0 [65; 8364] k.
Proof.
  destruct (u8_toutf8_bounds [65; 8364] (-1) [0] [7; 7; 7; 7] 3) as (k & dest' & H1 & H2 & _);
    [repeat constructor; lia|left; split; [lia|exists []; reflexivity]|split; discriminate|].
  exists k, dest'. split; [exact H1|exact H2].
Defined.

(** Walking a NUL-terminated encoded string: the byte offset of character
    [k] is the length of the first [k] encodings, [ks_u8_charnum] inverts it,
    [ks_u8_nextchar] there reads character [k] and moves to the next one,
    [ks_u8_dec] moves back, [ks_u8_strchr] and, given the byte count,
    [ks_u8_memchr] find the first occurrence, and [ks_u8_strlen] counts the
    characters when a byte that is not a continuation follows the terminator;
    it reads that byte, which is beyond the string. *)
Lemma u8_walk cs j :
  Forall valid cs ->
  let s := utf8 cs ++ 0 :: j in
  let at_char (k : nat) := zlen (utf8 (take k cs)) in
  (forall k, (k <= length cs)%nat ->
    ks_u8_offset s (Z.of_nat k) = Ok (at_char k) /\ ks_u8_charnum s (at_char k) = Ok (Z.of_nat k)) /\
  (forall k ch, cs !! k = Some ch -> ks_u8_nextchar s (at_char k) = Ok (ch, at_char (S k)) /\
    ks_u8_dec s (at_char (S k)) = Ok (at_char k)) /\
  (forall ch, let found := match list_find (fun c => c = ch) cs with
     | Some (k, _) => (Some (at_char k), Z.of_nat k) | None => (None, zlen cs) end in
    ks_u8_strchr s ch = Ok found /\
    (zlen (utf8 cs) < 2147483648 -> ks_u8_memchr s ch (zlen (utf8 cs)) = Ok found)) /\
  (stops j -> ks_u8_strlen s = Ok (zlen cs)) /\ (j = [] -> ks_u8_strlen s = Err OutOfBounds).
Proof.
  intros Hv s at_char. pose proof (utf8_long cs Hv) as Hlen.
  assert (Hfuel : (length cs < S (length s))%nat) by (subst s; rewrite length_app; simpl; lia).
  split; [|split; [|split; [|split]]].
  - intros k Hk. split.
    + pose proof (offset_run cs (S (length s)) [] j (Z.of_nat k) Hv ltac:(unfold zlen; lia) Hfuel) as H.
      by rewrite Nat2Z.id in H.
    + pose proof (charnum_run cs (S (length s)) [] j (Z.of_nat k) 0 Hv ltac:(unfold zlen; lia) Hfuel) as H.
      by rewrite Nat2Z.id in H.
  - intros k ch Hk. subst s at_char. cbn beta.
    assert (E : utf8 cs ++ 0 :: j = utf8 (take k cs) ++ wc_bytes ch ++ utf8 (drop (S k) cs) ++ 0 :: j).
    { rewrite <- (take_drop_middle cs k ch Hk) at 1. by rewrite utf8_app, utf8_cons, <- !app_assoc. }
    rewrite E, (take_S_r cs k ch Hk), utf8_app, zlen_app. change (utf8 [ch]) with (wc_bytes ch ++ []).
    rewrite app_nil_r. apply (Forall_lookup_1 _ _ _ _ Hv) in Hk. unfold valid in Hk.
    split; [|by apply dec_ok]. apply nextchar_ok; [lia|]. apply stops_next. by apply Forall_drop.
  - intros ch found. split; [exact (strchr_run cs (S (length s)) [] j ch 0 Hv Hfuel)|]. intros Hs.
    unfold ks_u8_memchr. replace (s32 (zlen (utf8 cs))) with (zlen (utf8 cs)) by (symmetry; apply s32_id; unfold zlen in *; lia).
    refine (memchr_run cs (S (Z.to_nat (zlen (utf8 cs)))) [] (0 :: j) ch 0 Hv _). unfold zlen. lia.
  - intros Hj. unfold ks_u8_strlen. etransitivity; [apply (strlen_run cs (S (length s)) [] j 0 Hv Hfuel)|].
    cbn [app]. change (zlen [] + zlen (utf8 cs)) with (zlen (utf8 cs)).
    change (0 :: j) with (wc_bytes 0 ++ j). rewrite nextchar_ok by (done || lia). done.
  - intros ->. unfold ks_u8_strlen. etransitivity; [apply (strlen_run cs (S (length s)) [] [] 0 Hv Hfuel)|].
    cbn [app]. change (zlen [] + zlen (utf8 cs)) with (zlen (utf8 cs)). unfold ks_u8_nextchar. cbn [nextchar_loop].
    rewrite (ld_app_mid (utf8 cs) [] 0 (zlen (utf8 cs)) eq_refl). cbn [mbind res_bind]. rewrite ld_out; [done|]. right. rewrite zlen_app.
    change (zlen [0]) with 1. lia.
Qed.

Lemma u8_walk_witness : ks_u8_strlen ([195; 164; 226; 130; 172] ++ [0; 0]) = Ok 2 /\
  ks_u8_offset ([195; 164; 226; 130; 172] ++ [0; 0]) 1 = Ok 2.
Proof.
  destruct (u8_walk [228; 8364] [0]) as (Ho & _ & _ & Hl & _); [repeat constructor; lia|].
  split; [apply Hl; exists 0, []; split; [reflexivity|left; reflexivity]|].
  exact (proj1 (Ho 1%nat ltac:(simpl; lia))).
Defined.
(** ** The escaped form *)

Definition esc (quotes : bool) (ch : Z) : list Z :=
  if quotes && (ch =? 34) then [92; 34] else escape_text ch.
Definition escaped (quotes : bool) (cs : list Z) : list Z := concat (map (esc quotes) cs).

(** The characters printed as [\x] with one digit. *)
Definition hex_single (ch : Z) : bool := (ch <? 7) || ((13 <? ch) && (ch <? 16)).

(** None of them stands before a hexadecimal digit. *)
Fixpoint hex_safe (cs : list Z) : bool :=
  match cs with
  | ch :: cs => match cs with ch2 :: _ => negb (hex_single ch && hex_digit ch2) | [] => true end && hex_safe cs
  | [] => true
  end.

Lemma hex_char_ok d : 0 <= d < 16 -> hex_digit (hex_char d) && (digit_val (hex_char d) =? d) = true.
Proof. apply (below 16 (fun d => hex_digit (hex_char d) && (digit_val (hex_char d) =? d))). reflexivity. Qed.

Lemma hex_fixed_ok n : forall x, 0 <= x ->
  Forall (fun c => hex_digit c = true) (hex_fixed n x) /\ length (hex_fixed n x) = n /\
  strtol 16 (hex_fixed n x) = x mod 16 ^ Z.of_nat n.
Proof.
  induction n as [|n IH]; intros x Hx; cbn [hex_fixed].
  { split; [constructor|]. split; [done|]. by rewrite Z.mod_1_r. }
  assert (Hm : 0 <= x mod 16 < 16) by lia_div. apply hex_char_ok in Hm as [Hd Hv%Z.eqb_eq]%andb_prop.
  destruct (IH (x / 16)) as (Hf & Hl & Hs); [lia_div|]. split; [by apply Forall_app; auto|].
  split; [rewrite length_app, Hl; simpl; lia|]. unfold strtol in *. rewrite foldl_app, Hs. cbn [foldl].
  rewrite Hv, Nat2Z.inj_succ, Z.pow_succ_r, Z.rem_mul_r by lia. lia.
Qed.

Lemma read_digits_run test n : forall ds pre y tail,
  Forall (fun c => test c = true) ds -> (length ds <= n)%nat -> ((length ds < n)%nat -> test y = false) ->
  read_digits test n (pre ++ ds ++ y :: tail) (zlen pre) = Ok (ds, zlen pre + zlen ds).
Proof.
  induction n as [|n IH]; intros [|d ds] pre y tail Hd Hl Hy; simpl in Hl; try lia; cbn [read_digits app];
    rewrite ld_app_mid by done; cbn [mbind res_bind]; change (zlen (@nil Z)) with 0; rewrite ?Z.add_0_r; try done.
  - rewrite Hy by (simpl; lia). done.
  - apply Forall_cons in Hd as [-> Hd].
    replace (pre ++ d :: ds ++ y :: tail) with ((pre ++ [d]) ++ ds ++ y :: tail) by (by rewrite <- app_assoc).
    replace (zlen pre + 1) with (zlen (pre ++ [d])) by (by rewrite zlen_app).
    rewrite IH; [|done|lia|intros; apply Hy; simpl; lia]. cbn [mbind res_bind fst snd].
    rewrite zlen_app, (zlen_cons d ds). change (zlen [d]) with 1. do 2 f_equal. lia.
Qed.

Lemma read_hex_run n k x ch y tail : 0 <= x < 16 ^ Z.of_nat k -> 0 < Z.of_nat k <= 8 -> (k <= n)%nat ->
  ((k < n)%nat -> hex_digit y = false) ->
  read_hex n (ch :: hex_fixed k x ++ y :: tail) ch = Ok (x, 1 + Z.of_nat k).
Proof.
  intros Hx Hk Hn Hy. destruct (hex_fixed_ok k x) as (Hf & Hl & Hs); [lia|]. unfold read_hex.
  change (ch :: hex_fixed k x ++ y :: tail) with ([ch] ++ hex_fixed k x ++ y :: tail). change 1 with (zlen [ch]).
  rewrite read_digits_run by (done || rewrite Hl; done). cbn [mbind res_bind fst snd].
  replace (zlen (hex_fixed k x)) with (Z.of_nat k) by (unfold zlen; lia).
  assert (16 ^ Z.of_nat k <= 16 ^ 8) by (apply Z.pow_le_mono_r; lia). change (16 ^ 8) with 4294967296 in *.
  destruct (hex_fixed k x) as [|d ds]; [simpl in Hl; lia|]. by rewrite Hs, Z.mod_small, u32_id by lia.
Qed.

Lemma read_x_run ch y tail : 0 < ch < 128 -> (ch < 16 -> hex_digit y = false) ->
  ks_u8_read_escape_sequence ((120 :: hex_byte (u8 ch)) ++ y :: tail) = Ok (ch, zlen (120 :: hex_byte (u8 ch))).
Proof.
  intros Hch Hy. replace (u8 ch) with ch by (unfold u8; lia_div). unfold hex_byte.
  change (read_hex 2 ((120 :: if ch <? 16 then hex_fixed 1 ch else hex_fixed 2 ch) ++ y :: tail) 120 =
    Ok (ch, zlen (120 :: if ch <? 16 then hex_fixed 1 ch else hex_fixed 2 ch))).
  destruct (Z.ltb_spec ch 16).
  - exact (read_hex_run 2 1 ch 120 y tail ltac:(lia) ltac:(lia) ltac:(lia) ltac:(auto)).
  - exact (read_hex_run 2 2 ch 120 y tail ltac:(lia) ltac:(lia) ltac:(lia) ltac:(lia)).
Qed.

(** What one character is escaped to: itself, or a backslash and what
    [ks_u8_read_escape_sequence] takes back to it. *)
Lemma esc_read q ch y tail : valid ch -> (hex_single ch = true -> hex_digit y = false) ->
  (esc q ch = [ch] /\ ch <> 92 /\ char_to_u32 ch = ch) \/
  (exists t, esc q ch = 92 :: t /\ ks_u8_read_escape_sequence (t ++ y :: tail) = Ok (ch, zlen t)).
Proof.
  intros Hv Hy. unfold valid in Hv. unfold esc.
  destruct (Z.eqb_spec ch 34) as [->|Hq]; [destruct q; [right; by eexists [34]|by left]|].
  rewrite andb_false_r. unfold escape_text.
  repeat match goal with |- context [if ch =? ?k then _ :: ?t else _] =>
    destruct (Z.eqb_spec ch k) as [->|]; [right; by exists t|] end.
  destruct (Z.ltb_spec ch 32); [|destruct (Z.eqb_spec ch 127)]; cbn [orb].
  1,2: right; exists (120 :: hex_byte (u8 ch)); split; [done|]; apply read_x_run; [lia|];
    intros; apply Hy; unfold hex_single; lia.
  destruct (Z.ltb_spec 65535 ch); [|destruct (Z.leb_spec 128 ch), (Z.leb_spec ch 65535); cbn [andb]; try lia].
  - right. exists (85 :: hex_fixed 8 ch). split; [done|].
    exact (read_hex_run 8 8 ch 85 y tail ltac:(lia) ltac:(lia) ltac:(lia) ltac:(lia)).
  - right. replace (u16 ch) with ch by (unfold u16; lia_div). exists (117 :: hex_fixed 4 ch). split; [done|].
    exact (read_hex_run 4 4 ch 117 y tail ltac:(lia) ltac:(lia) ltac:(lia) ltac:(lia)).
  - left. split; [done|]. split; [done|]. unfold char_to_u32. destruct (Z.ltb_spec ch 128); [apply u32_id|]; lia.
Qed.

Lemma snprintf_rest (acc rest t : list Z) sz : zlen acc + zlen t < sz -> sz <= zlen (acc ++ rest) ->
  snprintf (acc ++ rest) (zlen acc) (sz - zlen acc) t =
  Ok (zlen t, (acc ++ t) ++ 0 :: drop (S (length t)) rest).
Proof.
  intros Hl Hr. rewrite zlen_app in Hr. pose proof (zlen_nonneg t). unfold snprintf.
  destruct (Z.leb_spec (sz - zlen acc) 0); [lia|]. rewrite take_ge by (unfold zlen in *; lia).
  rewrite blit_rest by (done || rewrite zlen_app; change (zlen [0]) with 1; lia).
  cbn [mbind res_bind]. rewrite length_app, <- !app_assoc. cbn [length]. by rewrite Nat.add_1_r.
Qed.

(** Only the character 34 starts with the byte 34. *)
Lemma first_byte pre ch cs m : valid ch ->
  exists b, ld (pre ++ utf8 (ch :: cs) ++ m) (zlen pre) = Ok b /\ b <> 0 /\ (b =? 34) = (ch =? 34).
Proof.
  intros Hv. rewrite utf8_split. unfold valid in Hv.
  destruct (wc_bytes_shape ch) as [| | |]; [lia|..]; eexists; cbn [app]; rewrite ld_app_mid by done;
    (split; [reflexivity|]); split; try lia; apply eq_bool_prop_intro; split; intros; lia.
Qed.

Lemma escape_run q cs : forall fuel pre j acc rest sz,
  Forall valid cs -> zlen acc + zlen (escaped q cs) < sz -> sz <= zlen (acc ++ rest) -> (length cs < fuel)%nat ->
  escape_loop fuel (acc ++ rest) sz (pre ++ utf8 cs ++ 0 :: j) q (zlen pre) (zlen acc) =
  Ok (zlen acc + zlen (escaped q cs), (acc ++ escaped q cs) ++ 0 :: drop (S (length (escaped q cs))) rest).
Proof.
  induction cs as [|ch cs IH]; intros [|fuel] pre j acc rest sz Hv Hl Hr Hf; simpl in Hf; try lia;
    cbn [escape_loop].
  - cbn [utf8 map concat app]. rewrite ld_app_mid by done. cbn [mbind res_bind negb andb Z.eqb].
    change (zlen (escaped q [])) with 0 in *. destruct (Z.ltb_spec (zlen acc) sz); [|lia].
    rewrite zlen_app in Hr. rewrite st_rest by (done || lia). cbn [mbind res_bind escaped map concat length].
    by rewrite Z.add_0_r, app_nil_r.
  - change (escaped q (ch :: cs)) with (esc q ch ++ escaped q cs) in *. rewrite zlen_app in Hl.
    apply Forall_cons in Hv as [Hch Hv]. assert (0 <= ch < 1114112) by (unfold valid in Hch; lia).
    pose proof (zlen_nonneg (escaped q cs)). pose proof (zlen_nonneg (esc q ch)).
    destruct (first_byte pre ch cs (0 :: j) Hch) as (b & -> & Hb & Hq). cbn [mbind res_bind]. rewrite Hq.
    destruct (Z.eqb_spec b 0); [done|]. destruct (Z.ltb_spec (zlen acc) sz); [|lia]. cbn [negb andb].
    assert (E : (if q && (ch =? 34) then x ← snprintf (acc ++ rest) (zlen acc) (sz - zlen acc) [92; 34]; Ok (x, zlen pre + 1)
      else n ← ks_u8_nextchar (pre ++ utf8 (ch :: cs) ++ 0 :: j) (zlen pre);
           x ← ks_u8_escape_wchar (acc ++ rest) (zlen acc) (sz - zlen acc) n.1; Ok (x, n.2)) =
      Ok ((zlen (esc q ch), (acc ++ esc q ch) ++ 0 :: drop (S (length (esc q ch))) rest), zlen pre + zlen (wc_bytes ch))).
    { unfold esc in *. destruct (q && (ch =? 34)) eqn:Eq.
      - apply andb_prop in Eq as [_ ->%Z.eqb_eq]. rewrite snprintf_rest by (done || lia). done.
      - rewrite utf8_split, nextchar_ok by (done || by apply stops_next). cbn [mbind res_bind fst snd].
        unfold ks_u8_escape_wchar. rewrite snprintf_rest by (done || lia). done. }
    rewrite E. cbn [mbind res_bind].
    replace (zlen pre + zlen (wc_bytes ch)) with (zlen (pre ++ wc_bytes ch)) by apply zlen_app.
    replace (zlen acc + zlen (esc q ch)) with (zlen (acc ++ esc q ch)) by apply zlen_app.
    rewrite utf8_next, IH; [|done|rewrite zlen_app; lia|
      unfold zlen in *; rewrite !length_app in *; simpl; rewrite length_drop; lia|lia].
    rewrite !zlen_app, length_app. cbn [drop]. rewrite drop_drop, <- !app_assoc, Z.add_assoc. do 2 f_equal.
Qed.

(** What follows a character in the escaped text. *)
Lemma esc_next q ch cs j : hex_safe (ch :: cs) = true -> Forall valid cs ->
  exists y tail, escaped q cs ++ 0 :: j = y :: tail /\ (hex_single ch = true -> hex_digit y = false).
Proof.
  intros Hs Hv. destruct cs as [|ch2 cs]; [by exists 0, j|]. apply Forall_cons in Hv as [Hv _].
  change (escaped q (ch2 :: cs)) with (esc q ch2 ++ escaped q cs). simpl in Hs. apply andb_prop in Hs as [Hs _].
  destruct (esc_read q ch2 0 [] Hv ltac:(done)) as [(-> & _)|(t & -> & _)]; do 2 eexists; (split; [reflexivity|]);
    intros E; rewrite E in Hs; [by destruct (hex_digit ch2)|done].
Qed.

Lemma esc_long q cs : Forall valid cs -> (length cs <= length (escaped q cs))%nat.
Proof.
  induction 1 as [|ch cs Hv _ IH]; [done|]. change (escaped q (ch :: cs)) with (esc q ch ++ escaped q cs).
  rewrite length_app. destruct (esc_read q ch 0 [] Hv ltac:(done)) as [(-> & _)|(t & -> & _)]; simpl; lia.
Qed.

Lemma unescape_run q cs : forall fuel pre j acc rest sz,
  Forall valid cs -> hex_safe cs = true -> zlen acc + zlen (utf8 cs) < sz -> sz <= zlen (acc ++ rest) ->
  (length cs < fuel)%nat ->
  unescape_loop fuel (acc ++ rest) sz (pre ++ escaped q cs ++ 0 :: j) (zlen pre) (zlen acc) =
  Ok (zlen acc + zlen (utf8 cs), (acc ++ utf8 cs) ++ 0 :: drop (S (length (utf8 cs))) rest).
Proof.
  induction cs as [|ch cs IH]; intros [|fuel] pre j acc rest sz Hv Hs Hl Hr Hf; simpl in Hf; try lia;
    cbn [unescape_loop]; rewrite zlen_app in Hr.
  - cbn [escaped map concat app]. rewrite ld_app_mid by done. cbn [mbind res_bind negb andb Z.eqb].
    change (zlen (utf8 [])) with 0 in *. destruct (Z.ltb_spec (zlen acc) sz); [|lia].
    rewrite st_rest by (done || lia). cbn [mbind res_bind utf8 map concat length].
    by rewrite Z.add_0_r, app_nil_r.
  - apply Forall_cons in Hv as [Hch Hv]. destruct (esc_next q ch cs j Hs Hv) as (y & tail & Et & Hy).
    assert (Hs' : hex_safe cs = true) by (by apply andb_prop in Hs as [_ ?]).
    rewrite utf8_cons, zlen_app in *. pose proof (wc_bytes_pos ch ltac:(unfold valid in Hch; lia)).
    pose proof (zlen_nonneg (utf8 cs)).
    change (escaped q (ch :: cs)) with (esc q ch ++ escaped q cs). rewrite <- app_assoc.
    assert (E : exists b, ld (pre ++ esc q ch ++ escaped q cs ++ 0 :: j) (zlen pre) = Ok b /\ b <> 0 /\
      (if b =? 92 then
         x ← ks_u8_read_escape_sequence (drop (Z.to_nat (zlen pre + 1)) (pre ++ esc q ch ++ escaped q cs ++ 0 :: j));
         Ok (x.1, zlen pre + 1 + x.2)
       else Ok (char_to_u32 b, zlen pre + 1)) = Ok (ch, zlen (pre ++ esc q ch))).
    { rewrite Et, zlen_app. destruct (esc_read q ch y tail Hch Hy) as [(-> & Hn & Hc)|(t & -> & Ht)].
      - exists ch. cbn [app]. rewrite ld_app_mid by done. split; [done|]. split; [unfold valid in Hch; lia|].
        destruct (Z.eqb_spec ch 92); [done|]. by rewrite Hc.
      - exists 92. cbn [app]. rewrite ld_app_mid by done. split; [done|]. split; [done|].
        change (92 :: t ++ y :: tail) with ([92] ++ t ++ y :: tail). rewrite app_assoc.
        replace (Z.to_nat (zlen pre + 1)) with (length (pre ++ [92])) by (rewrite length_app; unfold zlen; simpl; lia).
        rewrite drop_app_length. change (92 =? 92) with true. cbv iota. rewrite Ht. cbn [mbind res_bind fst snd].
        rewrite (zlen_cons 92 t). do 2 f_equal. lia. }
    destruct E as (b & -> & Hb & E). cbn [mbind res_bind].
    destruct (Z.eqb_spec b 0); [done|]. destruct (Z.ltb_spec (zlen acc) sz); [|lia]. cbn [negb andb].
    rewrite E. cbn [mbind res_bind]. destruct (Z.ltb_spec (sz - zlen acc) (zlen (wc_bytes ch))); [lia|].
    rewrite blit_rest by (done || lia). cbn [mbind res_bind].
    replace (zlen acc + zlen (wc_bytes ch)) with (zlen (acc ++ wc_bytes ch)) by apply zlen_app.
    rewrite app_assoc, IH; [|done|done|rewrite zlen_app; lia|
      unfold zlen in *; rewrite !length_app in *; rewrite length_drop; lia|lia].
    rewrite !zlen_app, length_app, drop_drop, <- !app_assoc, Nat.add_succ_r, Z.add_assoc. done.
Qed.

(** [ks_u8_unescape] inverts [ks_u8_escape], with and without escaped
    quotes, for every string of code points 1 to 0x10FFFF in which no control
    character that is printed with one hexadecimal digit (1 to 6, 14, 15)
    stands before a hexadecimal digit, when both buffers have the room; the
    counts returned are the lengths of the results. *)
Lemma u8_escape_roundtrip cs q j1 j2 buf1 sz1 buf2 sz2 :
  Forall valid cs -> hex_safe cs = true ->
  zlen (escaped q cs) < sz1 <= zlen buf1 -> zlen (utf8 cs) < sz2 <= zlen buf2 ->
  ks_u8_escape buf1 sz1 (utf8 cs ++ 0 :: j1) q =
    Ok (zlen (escaped q cs), escaped q cs ++ 0 :: drop (S (length (escaped q cs))) buf1) /\
  ks_u8_unescape buf2 sz2 (escaped q cs ++ 0 :: j2) =
    Ok (zlen (utf8 cs), utf8 cs ++ 0 :: drop (S (length (utf8 cs))) buf2).
Proof.
  intros Hv Hs H1 H2. split.
  - apply (escape_run q cs _ [] j1 [] buf1 sz1 Hv); [apply H1..|].
    pose proof (utf8_long cs Hv). rewrite length_app. simpl. lia.
  - apply (unescape_run q cs _ [] j2 [] buf2 sz2 Hv Hs); [apply H2..|].
    pose proof (esc_long q cs Hv). rewrite length_app. simpl. lia.
Qed.

Lemma u8_escape_roundtrip_witness :
  ks_u8_unescape (replicate 9 7) 9 (bytes_of_string "\u220E" ++ [92; 34] ++ bytes_of_string "\x1G" ++ [0]) =
  Ok (6, [226; 136; 142; 34; 1; 71; 0; 7; 7]).
Proof.
  destruct (u8_escape_roundtrip [8718; 34; 1; 71] true [] [] (replicate 20 7) 20 (replicate 9 7) 9) as [_ H];
    [repeat constructor; lia|reflexivity|split; reflexivity || discriminate|split; reflexivity || discriminate|].
  exact H.
Defined.

(** The condition on control characters is needed. *)
Lemma escape_of_control_is_ambiguous :
  ks_u8_escape (replicate 9 7) 9 [1; 65; 0] false = Ok (4, bytes_of_string "\x1A" ++ [0; 7; 7; 7; 7]) /\
  ks_u8_unescape (replicate 3 7) 3 (bytes_of_string "\x1A" ++ [0]) = Ok (1, [26; 0; 7]).
Proof. split; vm_compute; reflexivity. Qed.

(** A byte above 127 outside an escape is dropped: [(uint32_t)] of a signed
    [char] is no code point. *)
Lemma unescape_drops_utf8 :
  ks_u8_unescape (replicate 4 7) 4 [97; 195; 164; 98; 0] = Ok (2, [97; 98; 0; 7]).
Proof. reflexivity. Qed.

(** A backslash at the end takes the terminator as the character escaped, and
    the text goes on behind it. *)
Lemma unescape_runs_past_the_end :
  ks_u8_unescape (replicate 4 7) 4 [97; 92; 0; 98; 0] = Ok (3, [97; 0; 98; 0]).
Proof. reflexivity. Qed.

(** A lead byte of five bytes is decoded to the same number for ever: the
    source position does not move. *)
Lemma toucs_stuck : ks_u8_toucs (replicate 4 7) 4 [248; 136; 128; 128; 128; 65; 0] (-1) =
  Ok (3, replicate 3 (u32 (0 - 4194836608)) ++ [0]).
Proof. reflexivity. Qed.
End Utf8.
