(* ===== verification/Rwl.v ===== *)
(** Read/write locks (src/src/ks_mutex.c, the ks_rwl functions on POSIX): each
    call is a program of atomic actions on the shared lock, threads interleave
    between any two of them, and the invariants of the interleavings. *)
From S2P Require Import Prelude.
Local Open Scope Z_scope.

Module Rwl.

(** ** The lock and its atomic actions *)

(** What a [pthread_rwlock_t] holds: the thread that has it for writing, and
    the number of times it is held for reading. *)
Record pthread_rwlock := MkRw { writer : option Z; readers : Z }.

Record ks_rwl := MkRwl { rwlock : pthread_rwlock; write_locker : Z; wlc : Z }.

Definition EBUSY : Z := 16.
Definition EDEADLK : Z := 35.

(** An action returns a value and the new lock; [None]: the thread waits. [held]: a
    writer is blocked on the lock and the implementation lets it go before new
    readers; POSIX leaves that to the implementation. *)
Definition action : Type := bool -> ks_rwl -> option (Z * ks_rwl).

Definition set_rw (l : ks_rwl) (rw : pthread_rwlock) : ks_rwl := MkRwl rw l.(write_locker) l.(wlc).

Definition pthread_rwlock_rdlock (self : Z) : action := fun held l =>
  match l.(rwlock).(writer) with
  | None => if held then None else Some (0, set_rw l (MkRw None (l.(rwlock).(readers) + 1)))
  | Some w => if w =? self then Some (EDEADLK, l) else None
  end.

Definition pthread_rwlock_tryrdlock : action := fun held l =>
  match l.(rwlock).(writer) with
  | None => if held then Some (EBUSY, l) else Some (0, set_rw l (MkRw None (l.(rwlock).(readers) + 1)))
  | Some _ => Some (EBUSY, l)
  end.

Definition pthread_rwlock_wrlock (self : Z) : action := fun held l =>
  match l.(rwlock).(writer) with
  | None => if l.(rwlock).(readers) =? 0 then Some (0, set_rw l (MkRw (Some self) 0)) else None
  | Some w => if w =? self then Some (EDEADLK, l) else None
  end.

Definition pthread_rwlock_trywrlock (self : Z) : action := fun held l =>
  match l.(rwlock).(writer) with
  | None => if l.(rwlock).(readers) =? 0 then Some (0, set_rw l (MkRw (Some self) 0)) else Some (EBUSY, l)
  | Some _ => Some (EBUSY, l)
  end.

(** The write lock if the caller has it, a read lock otherwise. *)
Definition pthread_rwlock_unlock (self : Z) : action := fun held l =>
  match l.(rwlock).(writer) with
  | Some w => Some (0, if w =? self then set_rw l (MkRw None 0) else l)
  | None => Some (0, set_rw l (MkRw None (l.(rwlock).(readers) - 1)))
  end.

Definition load_write_locker : action := fun _ l => Some (l.(write_locker), l).
Definition store_write_locker (v : Z) : action := fun _ l => Some (v, MkRwl l.(rwlock) v l.(wlc)).
Definition load_wlc : action := fun _ l => Some (l.(wlc), l).
Definition store_wlc (v : Z) : action := fun _ l => Some (v, MkRwl l.(rwlock) l.(write_locker) v).

(** ** The calls: programs of actions *)

Inductive prog : Type :=
  | Ret (s : ks_status_t)
  | Act (a : action) (k : Z -> prog).

Local Notation "x <- a ;; p" := (Act a (fun x => p)) (at level 100, a at next level, right associativity) : ks_scope.
Local Open Scope ks_scope.

(** [wlc++] and [wlc--]: a load and a store. *)
Definition inc_wlc (k : prog) : prog := c <- load_wlc ;; _ <- store_wlc (u32 (c + 1)) ;; k.
Definition dec_wlc (k : prog) : prog := c <- load_wlc ;; _ <- store_wlc (u32 (c - 1)) ;; k.

Definition __ks_rwl_read_lock (self : Z) : prog :=
  _ <- pthread_rwlock_rdlock self ;; Ret KS_STATUS_SUCCESS.

Definition __ks_rwl_write_lock (self : Z) : prog :=
  w <- load_write_locker ;;
  if w =? self then inc_wlc (Ret KS_STATUS_SUCCESS)
  else
    _ <- pthread_rwlock_wrlock self ;;
    _ <- store_write_locker self ;;
    Ret KS_STATUS_SUCCESS.

Definition __ks_rwl_try_read_lock (self : Z) : prog :=
  rc <- pthread_rwlock_tryrdlock ;;
  if rc =? 0 then Ret KS_STATUS_SUCCESS else Ret KS_STATUS_FAIL.

Definition __ks_rwl_try_write_lock (self : Z) : prog :=
  w <- load_write_locker ;;
  if w =? self then inc_wlc (Ret KS_STATUS_SUCCESS)
  else
    rc <- pthread_rwlock_trywrlock self ;;
    if rc =? 0 then
      _ <- store_write_locker self ;;
      Ret KS_STATUS_SUCCESS
    else Ret KS_STATUS_FAIL.

Definition __ks_rwl_read_unlock (self : Z) : prog :=
  _ <- pthread_rwlock_unlock self ;; Ret KS_STATUS_SUCCESS.

Definition last_write_unlock (self : Z) : prog :=
  _ <- store_write_locker 0 ;;
  _ <- pthread_rwlock_unlock self ;;
  Ret KS_STATUS_SUCCESS.

Definition __ks_rwl_write_unlock (self : Z) : prog :=
  w <- load_write_locker ;;
  if w =? self then
    c <- load_wlc ;;
    if 0 <? c then dec_wlc (Ret KS_STATUS_SUCCESS) else last_write_unlock self
  else last_write_unlock self.

(** The lock in zeroed pool memory; [pool]: a pool was given, [mem]: it has the
    memory, [rc]: what [pthread_rwlock_init] returns. *)
Definition __ks_rwl_create (pool mem : bool) (rc : Z) : ks_status_t * option ks_rwl :=
  if negb pool then (KS_STATUS_FAIL, None)
  else if negb mem then (KS_STATUS_FAIL, None)
  else if negb (rc =? 0) then (KS_STATUS_FAIL, None)
  else (KS_STATUS_SUCCESS, Some (MkRwl (MkRw None 0) 0 0)).

(** ** Threads *)

Inductive call := ReadLock | WriteLock | TryReadLock | TryWriteLock | ReadUnlock | WriteUnlock.

Definition body (c : call) (self : Z) : prog :=
  match c with
  | ReadLock => __ks_rwl_read_lock self
  | WriteLock => __ks_rwl_write_lock self
  | TryReadLock => __ks_rwl_try_read_lock self
  | TryWriteLock => __ks_rwl_try_write_lock self
  | ReadUnlock => __ks_rwl_read_unlock self
  | WriteUnlock => __ks_rwl_write_unlock self
  end.

(** A thread: the call it is in, and how often it has the lock for writing and
    for reading, as its callers count. *)
Record thread := MkThread { code : option (call * prog); wdepth : nat; rholds : nat }.

(** The counts when the call returns. *)
Definition returned (c : call) (s : ks_status_t) (th : thread) : thread :=
  let ok := bool_decide (s = KS_STATUS_SUCCESS) in
  match c with
  | ReadLock | TryReadLock => MkThread None th.(wdepth) (if ok then S th.(rholds) else th.(rholds))
  | WriteLock | TryWriteLock => MkThread None (if ok then S th.(wdepth) else th.(wdepth)) th.(rholds)
  | ReadUnlock => MkThread None th.(wdepth) (th.(rholds) - 1)
  | WriteUnlock => MkThread None (th.(wdepth) - 1) th.(rholds)
  end.

(** What a caller may do: unlock what it has, read-lock when it is not the
    writer, and nest write locks less than 2^32 deep. *)
Definition may_call (c : call) (th : thread) : Prop :=
  match c with
  | ReadLock | TryReadLock => th.(wdepth) = 0%nat
  | WriteLock | TryWriteLock => Z.of_nat th.(wdepth) < 4294967296
  | ReadUnlock => (0 < th.(rholds))%nat
  | WriteUnlock => (0 < th.(wdepth))%nat
  end.

#[global] Instance may_call_dec c th : Decision (may_call c th).
Proof. destruct c; unfold may_call; apply _. Defined.

Record sys := MkSys { lock : ks_rwl; threads : list thread }.

(** One event of thread [i]: the start of a call, an action, or a return. *)
Inductive event := Start (c : call) | Run.

(** A thread is blocked in [pthread_rwlock_wrlock]. *)
Definition writer_waits (s : sys) : bool :=
  existsb (fun th => match th.(code) with
                     | Some (WriteLock, Act a _) => bool_decide (a false s.(lock) = None)
                     | _ => false
                     end) s.(threads).

(** Whether the implementation holds a reader back when a writer is blocked: any
    rule, on the whole state. *)
Definition policy : Type := sys -> nat -> bool.

(** [tid i]: what [ks_thread_self_id] returns in thread [i]. *)
Definition run_event (pol : policy) (tid : nat -> Z) (i : nat) (e : event) (s : sys) : option sys :=
  th ← s.(threads) !! i;
  match e, th.(code) with
  | Start c, None => if decide (may_call c th)
      then Some (MkSys s.(lock) (<[i := MkThread (Some (c, body c (tid i))) th.(wdepth) th.(rholds)]> s.(threads)))
      else None
  | Run, Some (c, Act a k) =>
      r ← a (writer_waits s && pol s i) s.(lock);
      Some (MkSys r.2 (<[i := MkThread (Some (c, k r.1)) th.(wdepth) th.(rholds)]> s.(threads)))
  | Run, Some (c, Ret st) => Some (MkSys s.(lock) (<[i := returned c st th]> s.(threads)))
  | _, _ => None
  end.

Definition step (pol : policy) (tid : nat -> Z) (s s' : sys) : Prop := exists i e, run_event pol tid i e s = Some s'.

(** [n] threads and the lock [__ks_rwl_create] made. *)
Definition start (n : nat) (l : ks_rwl) : sys := MkSys l (replicate n (MkThread None 0 0)).

Definition reachable (pol : policy) (tid : nat -> Z) (s : sys) : Prop :=
  exists n l, __ks_rwl_create true true 0 = (KS_STATUS_SUCCESS, Some l) /\ steps (step pol tid) (start n l) s.

(** A thread in an unlock call no longer counts the hold it gives up. *)
Definition writes (th : thread) : nat :=
  match th.(code) with Some (WriteUnlock, _) => th.(wdepth) - 1 | _ => th.(wdepth) end.
Definition reads (th : thread) : nat :=
  match th.(code) with Some (ReadUnlock, _) => th.(rholds) - 1 | _ => th.(rholds) end.

(** A schedule, to run the model. *)
Fixpoint run_all (pol : policy) (tid : nat -> Z) (es : list (nat * event)) (s : sys) : option sys :=
  match es with
  | [] => Some s
  | (i, e) :: es => s ← run_event pol tid i e s; run_all pol tid es s
  end.


(** ** Where a thread is in a call *)

(** What a thread has of the lock: nothing; the POSIX lock for writing without
    its name in [write_locker]; or both, with [wlc] nested locks. *)
Inductive phase := PNone | PRaw | POwn (n : nat).

Definition phase_ok (t : Z) (l : ks_rwl) (ph : phase) : Prop :=
  match ph with
  | PNone => l.(rwlock).(writer) <> Some t /\ l.(write_locker) <> t
  | PRaw => l.(rwlock).(writer) = Some t /\ l.(write_locker) = 0 /\ l.(wlc) = 0
  | POwn n => l.(rwlock).(writer) = Some t /\ l.(write_locker) = t /\ l.(wlc) = Z.of_nat n
  end.

Local Abbreviation done_ok := (Ret KS_STATUS_SUCCESS).

(** The points of a call of thread [t] with [d] write and [r] read holds, the
    phase there, the POSIX read locks it has, and a measure of the work left
    until it has returned and given up what it holds. *)
Inductive at_point (t : Z) (d r : nat) : option (call * prog) -> phase -> nat -> nat -> Prop :=
  | P_idle : d = 0%nat -> at_point t d r None PNone r (10 * r)
  | P_owner : d <> 0%nat -> r = 0%nat -> Z.of_nat d <= 4294967296 -> at_point t d r None (POwn (d - 1)) 0 (10 * d)
  | P_read : d = 0%nat -> at_point t d r (Some (ReadLock, __ks_rwl_read_lock t)) PNone r (10 * S r + 2)
  | P_read_ret : d = 0%nat -> at_point t d r (Some (ReadLock, done_ok)) PNone (S r) (10 * S r + 1)
  | P_tryread : d = 0%nat -> at_point t d r (Some (TryReadLock, __ks_rwl_try_read_lock t)) PNone r (10 * S r + 2)
  | P_tryread_ret : d = 0%nat -> at_point t d r (Some (TryReadLock, done_ok)) PNone (S r) (10 * S r + 1)
  | P_tryread_fail : d = 0%nat ->
      at_point t d r (Some (TryReadLock, Ret KS_STATUS_FAIL)) PNone r (10 * S r + 1)
  | P_unread : d = 0%nat -> r <> 0%nat ->
      at_point t d r (Some (ReadUnlock, __ks_rwl_read_unlock t)) PNone r (10 * (r - 1) + 2)
  | P_unread_ret : d = 0%nat -> r <> 0%nat ->
      at_point t d r (Some (ReadUnlock, done_ok)) PNone (r - 1) (10 * (r - 1) + 1)
  | P_write c p : (c, p) = (WriteLock, __ks_rwl_write_lock t) \/ (c, p) = (TryWriteLock, __ks_rwl_try_write_lock t) ->
      d = 0%nat -> at_point t d r (Some (c, p)) PNone r (10 * (S d + r) + 5)
  | P_rewrite c p : (c, p) = (WriteLock, __ks_rwl_write_lock t) \/ (c, p) = (TryWriteLock, __ks_rwl_try_write_lock t) ->
      d <> 0%nat -> r = 0%nat -> Z.of_nat d < 4294967296 ->
      at_point t d r (Some (c, p)) (POwn (d - 1)) 0 (10 * S d + 5)
  | P_rewrite_load c : c = WriteLock \/ c = TryWriteLock -> d <> 0%nat -> r = 0%nat -> Z.of_nat d < 4294967296 ->
      at_point t d r (Some (c, inc_wlc done_ok)) (POwn (d - 1)) 0 (10 * S d + 4)
  | P_rewrite_store c : c = WriteLock \/ c = TryWriteLock -> d <> 0%nat -> r = 0%nat -> Z.of_nat d < 4294967296 ->
      at_point t d r (Some (c, Act (store_wlc (u32 (Z.of_nat (d - 1) + 1))) (fun _ => done_ok)))
        (POwn (d - 1)) 0 (10 * S d + 3)
  | P_write_wait : d = 0%nat ->
      at_point t d r (Some (WriteLock, Act (pthread_rwlock_wrlock t)
        (fun _ => Act (store_write_locker t) (fun _ => done_ok)))) PNone r (10 * (S d + r) + 4)
  | P_write_try : d = 0%nat ->
      at_point t d r (Some (TryWriteLock, Act (pthread_rwlock_trywrlock t)
        (fun rc => if rc =? 0 then Act (store_write_locker t) (fun _ => done_ok) else Ret KS_STATUS_FAIL)))
        PNone r (10 * (S d + r) + 4)
  | P_write_name c : c = WriteLock \/ c = TryWriteLock -> d = 0%nat -> r = 0%nat ->
      at_point t d r (Some (c, Act (store_write_locker t) (fun _ => done_ok))) PRaw 0 (10 * S d + 3)
  | P_write_ret c : c = WriteLock \/ c = TryWriteLock -> r = 0%nat -> Z.of_nat d < 4294967296 ->
      at_point t d r (Some (c, done_ok)) (POwn d) 0 (10 * S d + 1)
  | P_trywrite_fail : d = 0%nat ->
      at_point t d r (Some (TryWriteLock, Ret KS_STATUS_FAIL)) PNone r (10 * (S d + r) + 1)
  | P_unwrite : d <> 0%nat -> r = 0%nat -> Z.of_nat d <= 4294967296 ->
      at_point t d r (Some (WriteUnlock, __ks_rwl_write_unlock t)) (POwn (d - 1)) 0 (10 * (d - 1) + 7)
  | P_unwrite_test : d <> 0%nat -> r = 0%nat -> Z.of_nat d <= 4294967296 ->
      at_point t d r (Some (WriteUnlock, Act load_wlc
        (fun c => if 0 <? c then dec_wlc done_ok else last_write_unlock t))) (POwn (d - 1)) 0 (10 * (d - 1) + 6)
  | P_unwrite_load : (1 < d)%nat -> r = 0%nat -> Z.of_nat d <= 4294967296 ->
      at_point t d r (Some (WriteUnlock, dec_wlc done_ok)) (POwn (d - 1)) 0 (10 * (d - 1) + 5)
  | P_unwrite_store : (1 < d)%nat -> r = 0%nat -> Z.of_nat d <= 4294967296 ->
      at_point t d r (Some (WriteUnlock, Act (store_wlc (u32 (Z.of_nat (d - 1) - 1))) (fun _ => done_ok)))
        (POwn (d - 1)) 0 (10 * (d - 1) + 4)
  | P_unwrite_nested : (1 < d)%nat -> r = 0%nat -> Z.of_nat d <= 4294967296 ->
      at_point t d r (Some (WriteUnlock, done_ok)) (POwn (d - 2)) 0 (10 * (d - 1) + 1)
  | P_last : d = 1%nat -> r = 0%nat ->
      at_point t d r (Some (WriteUnlock, last_write_unlock t)) (POwn 0) 0 (10 * (d - 1) + 5)
  | P_last_unlock : d = 1%nat -> r = 0%nat ->
      at_point t d r (Some (WriteUnlock, Act (pthread_rwlock_unlock t) (fun _ => done_ok))) PRaw 0 (10 * (d - 1) + 4)
  | P_last_ret : d = 1%nat -> r = 0%nat ->
      at_point t d r (Some (WriteUnlock, done_ok)) PNone 0 (10 * (d - 1) + 1).


(** The lock as a whole, with [n] POSIX read locks given out. *)
Definition lock_ok (l : ks_rwl) (n : nat) : Prop :=
  l.(rwlock).(readers) = Z.of_nat n /\
  match l.(rwlock).(writer) with
  | None => l.(write_locker) = 0 /\ l.(wlc) = 0
  | Some w => n = 0%nat /\ (l.(write_locker) = 0 \/ l.(write_locker) = w)
  end.

(** What one action of thread [t] may do to the others. *)
Definition frame (t : Z) (l l' : ks_rwl) : Prop :=
  (forall u ph, u <> 0 -> u <> t -> phase_ok u l ph -> phase_ok u l' ph) /\
  (l'.(rwlock).(writer) = None \/ l'.(rwlock).(writer) = Some t \/ l'.(rwlock).(writer) = l.(rwlock).(writer)).

Lemma frame_free t l l' : l.(rwlock).(writer) = None ->
  (l'.(rwlock).(writer) = None \/ l'.(rwlock).(writer) = Some t) -> l'.(write_locker) = l.(write_locker) -> frame t l l'.
Proof. intros E El Eo. split; [|tauto]. intros u [| |m] Hu Ht; cbn; rewrite Eo, E; [destruct El; intuition congruence|..]; by intros []. Qed.

Lemma frame_mine t l l' : l.(rwlock).(writer) = Some t ->
  (l'.(rwlock).(writer) = None \/ l'.(rwlock).(writer) = Some t) ->
  (l'.(write_locker) = 0 \/ l'.(write_locker) = t) -> frame t l l'.
Proof. intros E El Eo. split; [|tauto]. intros u [| |m] Hu Ht; cbn; rewrite E; [destruct El, Eo; intuition congruence|..]; intros []; congruence. Qed.

(** What an action of thread [t] did: its phase, the POSIX read locks, the others. *)
Definition effect (t : Z) (N : nat) (l l' : ks_rwl) (rr : nat) (ph' : phase) (rr' : nat) : Prop :=
  phase_ok t l' ph' /\ lock_ok l' (N - rr + rr') /\ frame t l l'.

Section Effects.
Context (t : Z) (N rr : nat) (b : bool) (l l' : ks_rwl) (x : Z).
Hypothesis (Ht : t <> 0) (Hl : lock_ok l N) (Hle : (rr <= N)%nat).

Lemma same_effect ph : phase_ok t l ph -> effect t N l l rr ph rr.
Proof. intros Hph. split; [done|]. split; [by replace (N - rr + rr)%nat with N by lia|]. split; auto. Qed.

Lemma take_read_effect : phase_ok t l PNone -> l.(rwlock).(writer) = None ->
  effect t N l (set_rw l (MkRw None (l.(rwlock).(readers) + 1))) rr PNone (S rr).
Proof.
  intros [Hw Ho] E. destruct Hl as [Hr Hi]. rewrite E in Hi.
  split; [by split|]. split; [split; [cbn; lia|done]|]. apply frame_free; auto.
Qed.

Lemma rdlock_effect : phase_ok t l PNone -> pthread_rwlock_rdlock t b l = Some (x, l') -> effect t N l l' rr PNone (S rr).
Proof.
  intros Hph Ha. unfold pthread_rwlock_rdlock in Ha. destruct (writer (rwlock l)) as [w|] eqn:E.
  - destruct (Z.eqb_spec w t) as [->|]; [|done]. by destruct Hph.
  - destruct b; [done|]. injection Ha as <- <-. by apply take_read_effect.
Qed.

Lemma tryrdlock_effect : phase_ok t l PNone -> pthread_rwlock_tryrdlock b l = Some (x, l') ->
  (x = 0 /\ effect t N l l' rr PNone (S rr)) \/ (x = EBUSY /\ effect t N l l' rr PNone rr).
Proof.
  intros Hph Ha. unfold pthread_rwlock_tryrdlock in Ha. destruct (writer (rwlock l)) as [w|] eqn:E; [|destruct b]; injection Ha as <- <-.
  - right. split; [done|]. by apply same_effect.
  - right. split; [done|]. by apply same_effect.
  - left. split; [done|]. by apply take_read_effect.
Qed.

Lemma take_write_effect : phase_ok t l PNone -> l.(rwlock).(writer) = None -> l.(rwlock).(readers) = 0 ->
  rr = 0%nat /\ effect t N l (set_rw l (MkRw (Some t) 0)) rr PRaw rr.
Proof.
  intros [Hw Ho] E Er. destruct Hl as [Hr Hi]. rewrite E in Hi. destruct Hi. split; [lia|].
  split; [done|]. split; [split; cbn; [|split; auto]; lia|]. apply frame_free; auto.
Qed.

Lemma wrlock_effect : phase_ok t l PNone -> pthread_rwlock_wrlock t b l = Some (x, l') ->
  rr = 0%nat /\ effect t N l l' rr PRaw rr.
Proof.
  intros Hph Ha. unfold pthread_rwlock_wrlock in Ha. destruct (writer (rwlock l)) as [w|] eqn:E.
  - destruct (Z.eqb_spec w t) as [->|]; [|done]. by destruct Hph.
  - destruct (Z.eqb_spec (readers (rwlock l)) 0); [|done]. injection Ha as <- <-. by apply take_write_effect.
Qed.

Lemma trywrlock_effect : phase_ok t l PNone -> pthread_rwlock_trywrlock t b l = Some (x, l') ->
  (x = 0 /\ rr = 0%nat /\ effect t N l l' rr PRaw rr) \/ (x = EBUSY /\ effect t N l l' rr PNone rr).
Proof.
  intros Hph Ha. unfold pthread_rwlock_trywrlock in Ha. destruct (writer (rwlock l)) as [w|] eqn:E;
    [|destruct (Z.eqb_spec (readers (rwlock l)) 0)]; injection Ha as <- <-; [right|left|right]; (split; [done|]);
    first [by apply same_effect|by apply take_write_effect].
Qed.

Lemma unlock_read_effect : phase_ok t l PNone -> rr <> 0%nat -> pthread_rwlock_unlock t b l = Some (x, l') ->
  effect t N l l' rr PNone (rr - 1).
Proof.
  intros [Hw Ho] Hr Ha. unfold pthread_rwlock_unlock in Ha. destruct Hl as [Hn Hi].
  destruct (writer (rwlock l)) as [w|] eqn:E; [lia|]. injection Ha as <- <-.
  split; [by split|]. split; [split; [cbn; lia|done]|]. apply frame_free; auto.
Qed.

Lemma unlock_write_effect : phase_ok t l PRaw -> pthread_rwlock_unlock t b l = Some (x, l') -> effect t N l l' rr PNone rr.
Proof.
  intros (Hw & Ho & Hc) Ha. unfold pthread_rwlock_unlock in Ha. destruct Hl as [Hn Hi]. rewrite Hw in Ha, Hi.
  rewrite Z.eqb_refl in Ha. injection Ha as <- <-. cbn in *.
  split; [split; cbn; congruence|]. split; [split; cbn; [lia|done]|]. apply frame_mine; auto.
Qed.

Lemma store_name_effect : phase_ok t l PRaw -> store_write_locker t b l = Some (x, l') -> effect t N l l' rr (POwn 0) rr.
Proof.
  intros (Hw & Ho & Hc) [= <- <-]. destruct Hl as [Hn Hi]. rewrite Hw in Hi.
  split; [done|]. split; [split; cbn; [lia|rewrite Hw; split; [lia|by right]]|]. apply frame_mine; auto.
Qed.

Lemma clear_name_effect : phase_ok t l (POwn 0) -> store_write_locker 0 b l = Some (x, l') -> effect t N l l' rr PRaw rr.
Proof.
  intros (Hw & Ho & Hc) [= <- <-]. destruct Hl as [Hn Hi]. rewrite Hw in Hi.
  split; [done|]. split; [split; cbn; [lia|rewrite Hw; split; [lia|by left]]|]. apply frame_mine; auto.
Qed.

Lemma store_wlc_effect m v : phase_ok t l (POwn m) -> store_wlc (Z.of_nat v) b l = Some (x, l') -> effect t N l l' rr (POwn v) rr.
Proof.
  intros (Hw & Ho & Hc) [= <- <-]. destruct Hl as [Hn Hi]. rewrite Hw in Hi.
  split; [done|]. split; [split; cbn; [lia|rewrite Hw; split; [lia|by right]]|]. apply frame_mine; auto.
Qed.
End Effects.

Lemma at_point_cases t d r o ph rr n o' ph' rr' n' :
  at_point t d r o ph rr n -> o' = o -> ph' = ph -> rr' = rr -> n' = n -> at_point t d r o' ph' rr' n'.
Proof. by intros ? -> -> -> ->. Qed.

(** The next point after an effect. *)
Ltac next_point P := do 3 eexists; split; [eapply at_point_cases; [eapply P|..]; try reflexivity|split]; try eassumption; auto; try lia.

Lemma point_act t d r c a k ph rr n b l N x l' : at_point t d r (Some (c, Act a k)) ph rr n ->
  phase_ok t l ph -> lock_ok l N -> (rr <= N)%nat -> t <> 0 -> a b l = Some (x, l') ->
  exists ph' rr' n', at_point t d r (Some (c, k x)) ph' rr' n' /\ (n' < n)%nat /\ effect t N l l' rr ph' rr'.
Proof.
  intros Hp Hph Hl Hle Ht Ha. inversion Hp; subst; clear Hp.
  - eapply rdlock_effect in Ha; eauto. next_point P_read_ret.
  - eapply tryrdlock_effect in Ha as [[-> He]|[-> He]]; eauto; [next_point P_tryread_ret|next_point P_tryread_fail].
  - eapply unlock_read_effect in Ha; eauto. next_point P_unread_ret.
  - destruct H1 as [[= -> -> ->]|[= -> -> ->]]; injection Ha as <- <-; destruct Hph as [Hw Ho];
      (destruct (Z.eqb_spec (write_locker l) t); [done|]);
      [next_point P_write_wait|next_point P_write_try]; apply same_effect; done.
  - assert (c = WriteLock \/ c = TryWriteLock) by (destruct H1 as [[= -> _]|[= -> _]]; auto).
    destruct H1 as [[= _ -> ->]|[= _ -> ->]]; injection Ha as <- <-; pose proof (proj1 (proj2 Hph)) as ->;
      rewrite Z.eqb_refl; next_point P_rewrite_load; apply same_effect; done.
  - injection Ha as <- <-. pose proof (proj2 (proj2 Hph)) as ->. next_point P_rewrite_store. by apply same_effect.
  - rewrite u32_id in Ha by lia. replace (Z.of_nat (d - 1) + 1) with (Z.of_nat d) in Ha by lia.
    eapply (store_wlc_effect t N 0) in Ha; eauto. next_point P_write_ret.
  - eapply (wrlock_effect t N rr) in Ha as [-> Ha]; eauto. next_point P_write_name.
  - eapply (trywrlock_effect t N rr) in Ha as [(-> & -> & He)|[-> He]]; eauto; [next_point P_write_name|next_point P_trywrite_fail].
  - eapply (store_name_effect t N 0) in Ha; eauto. next_point P_write_ret.
  - injection Ha as <- <-. pose proof (proj1 (proj2 Hph)) as ->. rewrite Z.eqb_refl. next_point P_unwrite_test. by apply same_effect.
  - injection Ha as <- <-. rewrite (proj2 (proj2 Hph)). destruct (Z.ltb_spec 0 (Z.of_nat (d - 1))).
    + next_point P_unwrite_load. by apply same_effect.
    + assert (d = 1%nat) as -> by lia. next_point P_last. by apply same_effect.
  - injection Ha as <- <-. pose proof (proj2 (proj2 Hph)) as ->. next_point P_unwrite_store. by apply same_effect.
  - rewrite u32_id in Ha by lia. replace (Z.of_nat (d - 1) - 1) with (Z.of_nat (d - 2)) in Ha by lia.
    eapply (store_wlc_effect t N 0) in Ha; eauto. next_point P_unwrite_nested.
  - eapply (clear_name_effect t N 0) in Ha; eauto. next_point P_last_unlock.
  - eapply (unlock_write_effect t N 0) in Ha; eauto. next_point P_last_ret.
Qed.

Lemma point_start t c d r ph rr n : at_point t d r None ph rr n -> may_call c (MkThread None d r) ->
  exists n', at_point t d r (Some (c, body c t)) ph rr n' /\ (c = ReadUnlock \/ c = WriteUnlock -> (n' < n)%nat).
Proof.
  intros Hp Hc. inversion Hp; subst; clear Hp; destruct c; cbn in Hc; try lia;
    eexists; (split; [first [apply P_read|apply P_tryread|apply P_unread|apply P_unwrite
      |apply P_write; [auto|]|apply P_rewrite; auto]; auto; lia|intros [|]; try discriminate; lia]).
Qed.

Lemma point_return t c st d r ph rr n : at_point t d r (Some (c, Ret st)) ph rr n ->
  let th := returned c st (MkThread (Some (c, Ret st)) d r) in
  exists n', at_point t th.(wdepth) th.(rholds) th.(code) ph rr n' /\ (n' < n)%nat.
Proof.
  intros Hp. inversion Hp; subst; clear Hp;
    try match goal with H : _ = _ \/ _ = _ |- _ => destruct H; subst; try discriminate end; cbn;
    try rewrite bool_decide_eq_true_2 by done; try rewrite bool_decide_eq_false_2 by done; eexists;
    (split; [eapply at_point_cases; [first [apply P_idle; lia|apply P_owner; lia]|..]; try reflexivity; try lia|try lia]).
  all: f_equal; lia.
Qed.

Lemma sum_insert {A} (f : A -> nat) l i x y : l !! i = Some x ->
  (f x <= sum_list_with f l)%nat /\ sum_list_with f (<[i := y]> l) = (sum_list_with f l - f x + f y)%nat.
Proof.
  revert i. induction l as [|a l IH]; intros [|i] Hx; simpl in *; [done|done|injection Hx as ->; lia|].
  destruct (IH i Hx). lia.
Qed.

Lemma sum_positive {A} (f : A -> nat) l : (0 < sum_list_with f l)%nat -> exists i x, l !! i = Some x /\ (0 < f x)%nat.
Proof.
  induction l as [|a l IH]; cbn; [lia|]. intros H. destruct (decide (0 < f a)%nat); [by exists 0%nat, a|].
  destruct IH as (i & x & Hi & Hx); [lia|]. by exists (S i), x.
Qed.

Lemma sum_same {A B} (f : A -> nat) (g : B -> nat) l : forall k, length l = length k ->
  (forall i x y, l !! i = Some x -> k !! i = Some y -> f x = g y) -> sum_list_with f l = sum_list_with g k.
Proof.
  induction l as [|x l IH]; intros [|y k] Hl H; simpl in *; try lia.
  rewrite (H 0%nat x y eq_refl eq_refl), (IH k); [done|lia|]. intros i. exact (H (S i)).
Qed.

Lemma threads_steps pol tid s s' : steps (step pol tid) s s' -> length s.(threads) = length s'.(threads).
Proof.
  induction 1 as [|s1 s2 s3 (i & e & E) _ IH]; [done|]. rewrite <- IH. unfold run_event in E.
  destruct (threads s1 !! i) as [th|]; [|done]. cbn in E.
  destruct e as [c0|], (code th) as [[c [st|a k]]|]; try discriminate; [destruct (decide _)| |destruct (a _ (lock s1)) as [[x l]|]];
    try discriminate; injection E as <-; cbn; by rewrite length_insert.
Qed.

(** ** Invariants of all interleavings *)

Section Interleavings.
Context (pol : policy) (tid : nat -> Z) (tid_inj : forall i j, tid i = tid j -> i = j) (tid_pos : forall i, tid i <> 0).

(** Every thread is at a point, the phases are true of the lock, and the POSIX
    read locks are those of the threads. *)
Record inv (s : sys) (pts : list (phase * nat * nat)) : Prop := {
  inv_len : length pts = length s.(threads);
  inv_point : forall i th ph rr n, s.(threads) !! i = Some th -> pts !! i = Some (ph, rr, n) ->
    at_point (tid i) th.(wdepth) th.(rholds) th.(code) ph rr n /\ phase_ok (tid i) s.(lock) ph;
  inv_lock : lock_ok s.(lock) (sum_list_with (fun p => p.1.2) pts);
  inv_writer : forall w, s.(lock).(rwlock).(writer) = Some w -> exists i, (i < length s.(threads))%nat /\ w = tid i
}.

Lemma inv_update s pts i th ph rr n l' o d r ph' rr' n' :
  inv s pts -> s.(threads) !! i = Some th -> pts !! i = Some (ph, rr, n) -> at_point (tid i) d r o ph' rr' n' ->
  effect (tid i) (sum_list_with (fun p => p.1.2) pts) s.(lock) l' rr ph' rr' ->
  inv (MkSys l' (<[i := MkThread o d r]> s.(threads))) (<[i := (ph', rr', n')]> pts).
Proof.
  intros [Hl Hp Hk Hw] Hi Hpi Hat (Hph & Hlk & Hf & Hwr).
  assert (Hlt : (i < length (threads s))%nat) by (by eapply lookup_lt_Some).
  split; cbn.
  - by rewrite !length_insert.
  - intros j thj phj rrj nj Hj Hpj. destruct (decide (i = j)) as [<-|Hne].
    + rewrite list_lookup_insert_eq in Hj by done. rewrite list_lookup_insert_eq in Hpj by lia.
      injection Hj as <-. injection Hpj as -> -> ->. done.
    + rewrite list_lookup_insert_ne in Hj by done. rewrite list_lookup_insert_ne in Hpj by done.
      destruct (Hp j thj phj rrj nj Hj Hpj) as [Ha Hphj]. split; [done|]. apply Hf; auto.
  - by destruct (sum_insert (fun p : phase * nat * nat => p.1.2) pts i _ (ph', rr', n') Hpi) as [_ ->].
  - intros w E. rewrite length_insert. rewrite E in Hwr. destruct Hwr as [|[[= ->]|Hwr]]; [done|eauto|eauto].
Qed.

(** Every event keeps the invariant; actions, returns and unlock calls reduce
    the measure of their thread. *)
Lemma inv_event s pts i e s' : inv s pts -> run_event pol tid i e s = Some s' ->
  exists p p', pts !! i = Some p /\ inv s' (<[i := p']> pts) /\
    (e = Run \/ e = Start ReadUnlock \/ e = Start WriteUnlock -> (p'.2 < p.2)%nat).
Proof.
  intros HI E. unfold run_event in E. destruct (threads s !! i) as [th|] eqn:Hi; [|done]. cbn in E.
  assert (exists p, pts !! i = Some p) as [[[ph rr] n] Hpi].
  { apply lookup_lt_is_Some. rewrite (inv_len _ _ HI). by eapply lookup_lt_Some. }
  destruct (inv_point _ _ HI _ _ _ _ _ Hi Hpi) as [Hat Hph].
  assert (Hrr := proj1 (sum_insert (fun p : phase * nat * nat => p.1.2) pts i _ (ph, rr, n) Hpi)). cbn in Hrr.
  destruct th as [o d r]. cbn in *. exists (ph, rr, n). destruct e as [c|], o as [[c' [st|a k]]|]; try discriminate.
  - destruct (decide (may_call c (MkThread None d r))) as [Hc|]; [|done]. injection E as <-.
    destruct (point_start _ _ _ _ _ _ _ Hat Hc) as (n' & Hat' & Hn). exists (ph, rr, n'). split; [done|].
    split; [|intros [|[[= ->]|[= ->]]]; [done|auto|auto]].
    eapply inv_update; [done|done|done|done|]. by apply same_effect; [apply (inv_lock _ _ HI)|..].
  - injection E as <-. destruct (point_return _ _ _ _ _ _ _ _ Hat) as (n' & Hat' & Hn). exists (ph, rr, n').
    split; [done|]. split; [|done]. destruct (returned c' st (MkThread (Some (c', Ret st)) d r)) as [o' d' r'].
    eapply inv_update; [done|done|done|done|]. by apply same_effect; [apply (inv_lock _ _ HI)|..].
  - destruct (a _ (lock s)) as [[x l']|] eqn:Ea; [|done]. injection E as <-.
    destruct (point_act _ _ _ _ _ _ _ _ _ _ _ _ _ _ Hat Hph (inv_lock _ _ HI) Hrr (tid_pos i) Ea)
      as (ph' & rr' & n' & Hat' & Hn & He).
    exists (ph', rr', n'). split; [done|]. split; [|done]. by eapply inv_update.
Qed.

Lemma inv_start m l : __ks_rwl_create true true 0 = (KS_STATUS_SUCCESS, Some l) ->
  inv (start m l) (replicate m (PNone, 0%nat, 0%nat)).
Proof.
  intros [= <-]. split; cbn.
  - by rewrite !length_replicate.
  - intros i th ph rr n [-> _]%lookup_replicate_1 [[= -> -> ->] _]%lookup_replicate_1. cbn.
    split; [by apply (P_idle _ 0 0)|]. split; [done|]. intros E. by apply (tid_pos i).
  - assert (E : sum_list_with (fun p : phase * nat * nat => p.1.2) (replicate m (PNone, 0%nat, 0%nat)) = 0%nat)
      by (induction m; auto). rewrite E. done.
  - done.
Qed.

Lemma reachable_inv s : reachable pol tid s -> exists pts, inv s pts.
Proof.
  intros (m & l & Hl & Hs). apply (steps_invariant _ (fun s => exists pts, inv s pts) _ _) in Hs; [done| |].
  - intros a b [pts HI] (i & e & E). destruct (inv_event _ _ _ _ _ HI E) as (p & p' & _ & HI' & _). eauto.
  - eexists. by apply inv_start.
Qed.

(** What a point says of its thread. *)
Lemma point_writes t l th ph rr n : at_point t th.(wdepth) th.(rholds) th.(code) ph rr n -> phase_ok t l ph ->
  (0 < writes th)%nat -> l.(rwlock).(writer) = Some t.
Proof.
  destruct th as [o d r]. unfold writes. cbn. intros Hp Hph Hw.
  inversion Hp; subst; try match goal with H : _ \/ _ |- _ => destruct H as [[= -> ->]|[= -> ->]] || destruct H; subst end;
    first [apply Hph | lia].
Qed.

Lemma point_reads t th ph rr n : at_point t th.(wdepth) th.(rholds) th.(code) ph rr n -> (reads th <= rr)%nat.
Proof.
  destruct th as [o d r]. unfold reads. cbn. intros Hp.
  inversion Hp; subst; try match goal with H : _ \/ _ |- _ => destruct H as [[= -> ->]|[= -> ->]] || destruct H; subst end; lia.
Qed.

Lemma point_blocked t d r c a k ph rr n b l : at_point t d r (Some (c, Act a k)) ph rr n -> a b l = None ->
  (exists w, l.(rwlock).(writer) = Some w /\ w <> t) \/
  (l.(rwlock).(writer) = None /\ rr = r /\
   ((l.(rwlock).(readers) <> 0 /\ c = WriteLock /\ a false l = None) \/ (b = true /\ c = ReadLock))).
Proof.
  intros Hp Ha. inversion Hp; subst; clear Hp;
    try match goal with H : _ \/ _ |- _ => destruct H as [[= -> -> ->]|[= -> -> ->]] end; try discriminate.
  all: unfold pthread_rwlock_rdlock, pthread_rwlock_wrlock, pthread_rwlock_tryrdlock, pthread_rwlock_trywrlock,
    pthread_rwlock_unlock in *; destruct (writer (rwlock l)) as [w|] eqn:E; try discriminate.
  - destruct (Z.eqb_spec w t); [discriminate|]. eauto.
  - destruct b; [|discriminate]. right. split; [done|]. split; [done|]. by right.
  - by destruct b.
  - destruct (Z.eqb_spec w t); [discriminate|]. eauto.
  - destruct (Z.eqb_spec (readers (rwlock l)) 0); [discriminate|]. right. split; [done|]. split; [done|]. by left.
  - destruct (Z.eqb_spec (readers (rwlock l)) 0); discriminate.
Qed.

Lemma inv_points s pts i th : inv s pts -> s.(threads) !! i = Some th ->
  exists ph rr n, pts !! i = Some (ph, rr, n) /\ at_point (tid i) th.(wdepth) th.(rholds) th.(code) ph rr n /\
    phase_ok (tid i) s.(lock) ph /\ (rr <= sum_list_with (fun p => p.1.2) pts)%nat.
Proof.
  intros HI Hi. assert (exists p, pts !! i = Some p) as [[[ph rr] n] Hp].
  { apply lookup_lt_is_Some. rewrite (inv_len _ _ HI). by eapply lookup_lt_Some. }
  exists ph, rr, n. split; [done|]. split; [|split]; [by eapply (inv_point _ _ HI)..|].
  exact (proj1 (sum_insert (fun p : phase * nat * nat => p.1.2) pts i _ (ph, rr, n) Hp)).
Qed.
End Interleavings.

Lemma run_all_steps pol tid es : forall s s', run_all pol tid es s = Some s' -> steps (step pol tid) s s'.
Proof.
  induction es as [|[i e] es IH]; intros s s' E; cbn in E; [injection E as <-; constructor|].
  destruct (run_event pol tid i e s) as [s1|] eqn:E1; [|done]. eapply steps_cons; [by exists i, e|]. by apply IH.
Qed.

Lemma run_all_reachable pol tid n es s :
  run_all pol tid es (start n (MkRwl (MkRw None 0) 0 0)) = Some s -> reachable pol tid s.
Proof. intros E. exists n, (MkRwl (MkRw None 0) 0 0). split; [done|]. by eapply run_all_steps. Qed.

(** A thread in [__ks_rwl_write_lock] has no read lock itself, nor, if [strict], has
    one in [__ks_rwl_read_lock]. *)
Definition no_nesting (strict : bool) (s : sys) : Prop :=
  forall i th c p, s.(threads) !! i = Some th -> th.(code) = Some (c, p) ->
    c = WriteLock \/ (strict = true /\ c = ReadLock) -> th.(rholds) = 0%nat.

(** The rule of an implementation that never holds readers back. *)
Definition readers_first : policy := fun _ _ => false.
(** And of one that always does when a writer is blocked. *)
Definition writers_first : policy := fun _ _ => true.

(** No call is running and nothing is held. *)
Definition quiet (s : sys) : Prop := Forall (fun th => th = MkThread None 0 0) s.(threads).

Section Progress.
Context (pol : policy) (tid : nat -> Z) (tid_inj : forall i j, tid i = tid j -> i = j) (tid_pos : forall i, tid i <> 0).
Context (strict : bool) (Hpol : strict = false -> forall s i, pol s i = false).

(** If no thread can go on in its call, and none outside holds anything, then
    nothing is held at all: nobody waits. *)
Lemma stuck_quiet s pts : inv tid s pts -> no_nesting strict s ->
  (forall i, run_event pol tid i Run s = None) ->
  (forall i th, s.(threads) !! i = Some th -> th.(code) = None -> th.(wdepth) = 0%nat /\ th.(rholds) = 0%nat) ->
  quiet s.
Proof.
  intros HI Hup Hstuck Hidle. apply Forall_lookup_2. intros i th Hi.
  assert (Hblock : forall i th c p, threads s !! i = Some th -> code th = Some (c, p) ->
    exists a k, p = Act a k /\ a (writer_waits s && pol s i) (lock s) = None).
  { clear -Hstuck. intros i th c p Hi Hc. specialize (Hstuck i). unfold run_event in Hstuck. rewrite Hi in Hstuck.
    cbn in Hstuck. rewrite Hc in Hstuck. destruct p as [|a k]; [done|]. exists a, k. split; [done|].
    destruct (a _ (lock s)) eqn:E; [done|done]. }
  destruct th as [[[c p]|] d r]; [exfalso|destruct (Hidle _ _ Hi eq_refl); cbn in *; by subst].
  (* nobody writes *)
  assert (Hw : writer (rwlock (lock s)) = None).
  { destruct (writer (rwlock (lock s))) as [w|] eqn:Hw; [exfalso|done].
    destruct (inv_writer _ _ _ HI w Hw) as (j & Hj & ->). apply lookup_lt_is_Some in Hj as [thj Hj].
    destruct (inv_points tid s pts j thj HI Hj) as (phj & rrj & nj & _ & Hatj & Hphj & _).
    destruct thj as [[[cj pj]|] dj rj].
    + destruct (Hblock _ _ _ _ Hj eq_refl) as (aj & kj & -> & Haj). cbn in Hatj.
      destruct (point_blocked _ _ _ _ _ _ _ _ _ _ _ Hatj Haj) as [(w' & Hw' & Hne')|(Hw' & _)]; congruence.
    + destruct (Hidle _ _ Hj eq_refl) as [Hd Hr]. cbn in *. subst. inversion Hatj; subst; [by destruct Hphj|done]. }
  (* somebody reads *)
  assert (Hwait : forall i th c a k b, threads s !! i = Some th -> code th = Some (c, Act a k) -> a b (lock s) = None ->
    c = WriteLock -> readers (rwlock (lock s)) <> 0).
  { intros i' th' c' a' k' b' Hi' Hc' Ha' ->. destruct (inv_points tid s pts i' th' HI Hi') as (ph & rr & n & _ & Hat & _).
    rewrite Hc' in Hat. destruct (point_blocked _ _ _ _ _ _ _ _ _ _ _ Hat Ha') as [(w' & Hw' & _)|(_ & _ & [(? & _)|[_ ?]])]; congruence. }
  assert (Hr : readers (rwlock (lock s)) <> 0).
  { destruct (inv_points tid s pts i _ HI Hi) as (ph & rr & n & _ & Hat & _ & _).
    destruct (Hblock _ _ _ _ Hi eq_refl) as (a & k & -> & Ha). cbn in Hat.
    destruct (point_blocked _ _ _ _ _ _ _ _ _ _ _ Hat Ha) as [(w' & Hw' & _)|(_ & _ & [(? & _)|[Hb _]])]; [congruence|done|].
    apply andb_true_iff in Hb as [Hb _]. apply existsb_exists in Hb as (th' & Hin & Hb).
    apply list_elem_of_In, list_elem_of_lookup in Hin as [i' Hi'].
    destruct (code th') as [[[] [|a' k']]|] eqn:Hc'; try done. apply bool_decide_eq_true in Hb. by eapply Hwait. }
  (* it is blocked, and has a read lock *)
  pose proof (inv_lock _ _ _ HI) as [Hn _].
  destruct (sum_positive (fun p : phase * nat * nat => p.1.2) pts) as (j & [[phj rrj] nj] & Hpj & Hrr); [lia|].
  assert (Hlt : (j < length (threads s))%nat) by (rewrite <- (inv_len _ _ _ HI); by eapply lookup_lt_Some).
  apply lookup_lt_is_Some in Hlt as [thj Hj].
  assert (Hatj : at_point (tid j) (wdepth thj) (rholds thj) (code thj) phj rrj nj) by (by eapply (inv_point _ _ _ HI)).
  cbn in Hrr. destruct thj as [[[cj pj]|] dj rj]; cbn in *.
  - destruct (Hblock _ _ _ _ Hj eq_refl) as (aj & kj & -> & Haj).
    destruct (point_blocked _ _ _ _ _ _ _ _ _ _ _ Hatj Haj) as [(w' & Hw' & _)|(_ & -> & Hc)]; [congruence|].
    pose proof (Hup _ _ _ _ Hj eq_refl) as Hz. cbn in Hz. destruct Hc as [(_ & -> & _)|[Hb ->]]; [specialize (Hz ltac:(by left)); lia|].
    apply andb_true_iff in Hb as [_ Hpi]. destruct strict; [specialize (Hz ltac:(by right)); lia|].
    by rewrite Hpol in Hpi.
  - destruct (Hidle _ _ Hj eq_refl). cbn in *. subst. inversion Hatj; subst; lia.
Qed.

Lemma no_nesting_event s i e s' : no_nesting strict s -> run_event pol tid i e s = Some s' ->
  e = Run \/ e = Start ReadUnlock \/ e = Start WriteUnlock -> no_nesting strict s'.
Proof.
  intros Hup E He j th cj p Hj Hc Hcj. unfold run_event in E. destruct (threads s !! i) as [thi|] eqn:Hi; [|done]. cbn in E.
  destruct (decide (i = j)) as [<-|Hne].
  - destruct thi as [[[c [st|a k]]|] d r], e as [c'|]; cbn in E; try discriminate.
    + injection E as <-. cbn in Hj. rewrite list_lookup_insert_eq in Hj by (by eapply lookup_lt_Some).
      injection Hj as <-. by destruct c.
    + destruct (a _ (lock s)) as [[x l']|]; [|done]. injection E as <-. cbn in Hj.
      rewrite list_lookup_insert_eq in Hj by (by eapply lookup_lt_Some). injection Hj as <-. cbn in *.
      injection Hc as -> _. exact (Hup i _ _ _ Hi eq_refl Hcj).
    + destruct (decide _); [|done]. injection E as <-. cbn in Hj.
      rewrite list_lookup_insert_eq in Hj by (by eapply lookup_lt_Some). injection Hj as <-. cbn in *.
      destruct He as [|[[= ->]|[= ->]]]; [done|injection Hc as <- _; naive_solver..].
  - assert (threads s !! j = Some th); [|by eapply Hup].
    destruct e as [c'|], (code thi) as [[c [st|a k]]|]; try discriminate; [destruct (decide _); [|done]| |
      destruct (a _ (lock s)) as [[x l']|]; [|done]]; injection E as <-; cbn in Hj; by rewrite list_lookup_insert_ne in Hj.
Qed.

(** From any state in which no thread waits for a lock that its own read lock
    blocks, the threads can finish their calls and unlock what they have. *)
Lemma drain m : forall s pts, inv tid s pts -> no_nesting strict s -> (sum_list_with snd pts <= m)%nat ->
  exists s' pts', steps (step pol tid) s s' /\ inv tid s' pts' /\ quiet s'.
Proof.
  induction m as [m IH] using lt_wf_ind. intros s pts HI Hup Hm.
  assert (Hgo : forall i e s1, run_event pol tid i e s = Some s1 -> e = Run \/ e = Start ReadUnlock \/ e = Start WriteUnlock ->
    exists s' pts', steps (step pol tid) s s' /\ inv tid s' pts' /\ quiet s').
  { intros i e s1 E He. destruct (inv_event pol tid tid_inj tid_pos _ _ _ _ _ HI E) as (p & p' & Hp & HI' & Hlt).
    specialize (Hlt He). destruct (sum_insert snd pts i p p' Hp) as [Hle Hsum].
    destruct (IH (sum_list_with snd (<[i := p']> pts)) ltac:(lia) s1 _ HI' (no_nesting_event _ _ _ _ Hup E He) ltac:(lia))
      as (s' & pts' & Hs & HI'' & Hq).
    exists s', pts'. split; [|done]. eapply steps_cons; [by exists i, e|done]. }
  destruct (decide (Exists (fun i => is_Some (run_event pol tid i Run s)) (seq 0 (length (threads s))))) as [Hex|Hno].
  { apply Exists_exists in Hex as (i & _ & s1 & E). eauto. }
  destruct (decide (Exists (fun th => code th = None /\ (0 < wdepth th + rholds th)%nat) (threads s))) as [Hex|Hno2].
  { apply Exists_exists in Hex as (th & (i & Hi)%list_elem_of_lookup & Hc & Hh).
    destruct th as [o d r]; cbn in *; subst o. destruct d as [|d].
    - eapply (Hgo i (Start ReadUnlock)); [|auto]. unfold run_event. rewrite Hi. cbn.
      rewrite decide_True by (cbn; lia). done.
    - eapply (Hgo i (Start WriteUnlock)); [|auto]. unfold run_event. rewrite Hi. cbn.
      rewrite decide_True by (cbn; lia). done. }
  exists s, pts. split; [constructor|]. split; [done|]. eapply (stuck_quiet s pts HI Hup).
  - intros i. destruct (run_event pol tid i Run s) eqn:E; [|done]. exfalso. apply Hno. apply Exists_exists.
    exists i. split; [|by rewrite E]. apply elem_of_seq. unfold run_event in E.
    destruct (threads s !! i) eqn:Hi; [|done]. apply lookup_lt_Some in Hi. lia.
  - intros i th Hi Hc. destruct (decide (0 < wdepth th + rholds th)%nat); [|lia]. exfalso. apply Hno2.
    apply Exists_exists. exists th. split; [by eapply list_elem_of_lookup_2|done].
Qed.
End Progress.

(** C15: mutual exclusion: in every interleaving of the calls of any number of
    threads that unlock only what they have, do not read-lock while they have the
    lock for writing, and nest write locks less than 2^32 deep, and however the
    implementation lets readers and blocked writers go first, while a thread has the
    lock for writing (however deep) no other thread has it for writing or reading. *)
Theorem rwl_mutual_exclusion pol tid s i j thi thj :
  (forall i j, tid i = tid j -> i = j) -> (forall i, tid i <> 0) -> reachable pol tid s ->
  s.(threads) !! i = Some thi -> s.(threads) !! j = Some thj -> i <> j ->
  (0 < writes thi)%nat -> writes thj = 0%nat /\ reads thj = 0%nat.
Proof.
  intros Hinj Hnz Hr Hi Hj Hne Hw. destruct (reachable_inv pol tid Hinj Hnz s Hr) as [pts HI].
  destruct (inv_points tid s pts i thi HI Hi) as (ph & rr & n & _ & Hat & Hph & _).
  destruct (inv_points tid s pts j thj HI Hj) as (ph' & rr' & n' & _ & Hat' & Hph' & Hle).
  pose proof (point_writes _ _ _ _ _ _ Hat Hph Hw) as E. pose proof (inv_lock _ _ _ HI) as [_ Hl]. rewrite E in Hl.
  pose proof (point_reads _ _ _ _ _ Hat'). split; [|lia].
  destruct (decide (writes thj = 0%nat)); [done|].
  pose proof (point_writes _ _ _ _ _ _ Hat' Hph' ltac:(lia)) as E'. rewrite E in E'. injection E' as E'. by apply Hinj in E'.
Qed.

Definition tid0 (i : nat) : Z := Z.of_nat i + 1.

Lemma rwl_mutual_exclusion_witness :
  let s := run_all readers_first tid0 [(0%nat, Start WriteLock); (0%nat, Run); (0%nat, Run); (0%nat, Run); (0%nat, Run);
    (1%nat, Start TryReadLock); (1%nat, Run); (1%nat, Run)] (start 2 (MkRwl (MkRw None 0) 0 0)) in
  exists s', s = Some s' /\ forall th, s'.(threads) !! 1%nat = Some th -> writes th = 0%nat /\ reads th = 0%nat.
Proof.
  eexists. split; [vm_compute; reflexivity|]. intros th Hth.
  refine (rwl_mutual_exclusion readers_first tid0 _ 0 1 (MkThread None 1 0) th _ _ _ _ Hth _ _);
    [unfold tid0; lia|unfold tid0; lia| |reflexivity|discriminate|cbn; lia].
  apply (run_all_reachable readers_first tid0 2 [(0%nat, Start WriteLock); (0%nat, Run); (0%nat, Run); (0%nat, Run); (0%nat, Run);
    (1%nat, Start TryReadLock); (1%nat, Run); (1%nat, Run)]). vm_compute. reflexivity.
Defined.

(** Re-entrance: between calls the thread that has write-locked [d] times
    and not unlocked has the POSIX lock, its name in [write_locker] and [wlc]
    equal to [d - 1], so exactly its [d]-th unlock gives the lock up; when no
    call is running the POSIX lock has as many readers as the threads count,
    and when nothing is held the lock is as [__ks_rwl_create] made it. *)
Lemma rwl_reentrance pol tid s :
  (forall i j, tid i = tid j -> i = j) -> (forall i, tid i <> 0) -> reachable pol tid s ->
  (forall i th, s.(threads) !! i = Some th -> th.(code) = None -> (0 < th.(wdepth))%nat ->
    s.(lock) = MkRwl (MkRw (Some (tid i)) 0) (tid i) (Z.of_nat th.(wdepth) - 1)) /\
  ((forall i th, s.(threads) !! i = Some th -> th.(code) = None) ->
    s.(lock).(rwlock).(readers) = Z.of_nat (sum_list_with rholds s.(threads))) /\
  (quiet s -> s.(lock) = MkRwl (MkRw None 0) 0 0).
Proof.
  intros Hinj Hnz Hr. destruct (reachable_inv pol tid Hinj Hnz s Hr) as [pts HI]. pose proof (inv_lock _ _ _ HI) as [Hn Hl].
  assert (Hsum : (forall i th, threads s !! i = Some th -> code th = None) ->
    readers (rwlock (lock s)) = Z.of_nat (sum_list_with rholds (threads s))).
  { intros Hidle. rewrite Hn. f_equal. apply sum_same; [apply (inv_len _ _ _ HI)|]. intros i p th Hp Hi.
    destruct p as [[ph rr] n]. destruct (inv_point _ _ _ HI _ _ _ _ _ Hi Hp) as [Hat _].
    rewrite (Hidle _ _ Hi) in Hat. inversion Hat; subst; cbn; auto. }
  split; [|split; [done|]].
  - intros i th Hi Hc Hd. destruct (inv_points tid s pts i th HI Hi) as (ph & rr & n & _ & Hat & Hph & _).
    rewrite Hc in Hat. inversion Hat; subst; [lia|]. destruct Hph as (Hw & Ho & Hlc). rewrite Hw in Hl. destruct Hl as [Hz _].
    destruct (lock s) as [[w k] o c]. cbn in *. subst. do 2 f_equal; lia.
  - intros Hq. assert (Hz : sum_list_with rholds (threads s) = 0%nat).
    { clear -Hq. unfold quiet in Hq. induction Hq as [|th ths -> _ IH]; [done|exact IH]. }
    assert (Hk : readers (rwlock (lock s)) = 0)
      by (rewrite Hsum, Hz; [done|]; intros i th Hi; by rewrite (Forall_lookup_1 _ _ _ _ Hq Hi)).
    destruct (writer (rwlock (lock s))) as [w|] eqn:E.
    + destruct (inv_writer _ _ _ HI w E) as (i & Hi & ->). apply lookup_lt_is_Some in Hi as [th Hi].
      destruct (inv_points tid s pts i th HI Hi) as (ph & rr & n & _ & Hat & Hph & _).
      rewrite (Forall_lookup_1 _ _ _ _ Hq Hi) in Hat. cbn in Hat. inversion Hat; subst; [by destruct Hph|done].
    + destruct (lock s) as [[w k] o c]. cbn in *. destruct Hl. clear Hn Hsum. by subst.
Qed.

Lemma rwl_reentrance_witness :
  exists s, run_all readers_first tid0 ([(0%nat, Start WriteLock)] ++ replicate 4 (0%nat, Run) ++ [(0%nat, Start TryWriteLock)] ++
    replicate 4 (0%nat, Run)) (start 2 (MkRwl (MkRw None 0) 0 0)) = Some s /\ s.(lock) = MkRwl (MkRw (Some 1) 0) 1 1.
Proof.
  eexists. split; [vm_compute; reflexivity|].
  refine (proj1 (rwl_reentrance readers_first tid0 _ _ _ _) 0%nat (MkThread None 2 0) _ _ _);
    [unfold tid0; lia|unfold tid0; lia| |reflexivity|reflexivity|cbn; lia].
  apply (run_all_reachable readers_first tid0 2 ([(0%nat, Start WriteLock)] ++ replicate 4 (0%nat, Run) ++ [(0%nat, Start TryWriteLock)] ++
    replicate 4 (0%nat, Run))). vm_compute. reflexivity.
Defined.

(** C16: no deadlock: under the calling rules of mutual exclusion, from every
    reachable state in which no thread write-locks on top of its own read lock -
    nor, unless the implementation never holds readers back for a blocked writer,
    read-locks on top of one - the threads can run on until every call has returned
    and everything held has been unlocked, and the lock is free again. *)
Theorem rwl_no_deadlock pol tid strict s :
  (forall i j, tid i = tid j -> i = j) -> (forall i, tid i <> 0) -> reachable pol tid s -> no_nesting strict s ->
  (strict = false -> forall s i, pol s i = false) ->
  exists s', steps (step pol tid) s s' /\ quiet s' /\ s'.(lock).(rwlock).(writer) = None /\
    length s'.(threads) = length s.(threads).
Proof.
  intros Hinj Hnz Hr Hup Hpol. destruct (reachable_inv pol tid Hinj Hnz s Hr) as [pts HI].
  destruct (drain pol tid Hinj Hnz strict Hpol _ s pts HI Hup (le_n _)) as (s' & pts' & Hs & HI' & Hq).
  exists s'. split; [done|]. split; [done|]. split; [|symmetry; by eapply threads_steps].
  destruct (writer (rwlock (lock s'))) as [w|] eqn:E; [|done].
  destruct (inv_writer _ _ _ HI' w E) as (i & Hi & ->). apply lookup_lt_is_Some in Hi as [th Hi].
  destruct (inv_points tid s' pts' i th HI' Hi) as (ph & rr & n & _ & Hat & Hph & _).
  rewrite (Forall_lookup_1 _ _ _ _ Hq Hi) in Hat. cbn in Hat. inversion Hat; subst; [by destruct Hph|done].
Qed.

(** A reader with the lock, a writer blocked behind it, and a second reader held back
    behind the writer. *)
Definition waiting : list (nat * event) :=
  [(0%nat, Start ReadLock)] ++ replicate 2 (0%nat, Run) ++ [(1%nat, Start WriteLock); (1%nat, Run); (2%nat, Start ReadLock)].

Lemma rwl_no_deadlock_witness :
  exists s s', run_all writers_first tid0 waiting (start 3 (MkRwl (MkRw None 0) 0 0)) = Some s /\
    run_event writers_first tid0 1 Run s = None /\ run_event writers_first tid0 2 Run s = None /\
    steps (step writers_first tid0) s s' /\ quiet s'.
Proof.
  destruct (run_all writers_first tid0 waiting (start 3 (MkRwl (MkRw None 0) 0 0))) as [s|] eqn:E; [|discriminate].
  destruct (rwl_no_deadlock writers_first tid0 true s) as (s' & Hs & Hq & _); [unfold tid0; lia|unfold tid0; lia|
    exact (run_all_reachable writers_first tid0 3 waiting s E)| |discriminate|]; vm_compute in E; injection E as <-.
  - intros [|[|[|i]]] th c p Hi Hc _; cbn in Hi; try discriminate; injection Hi as <-; [discriminate Hc|reflexivity|reflexivity].
  - eexists. exists s'. split; [reflexivity|]. split; [reflexivity|]. split; [reflexivity|]. split; [exact Hs|exact Hq].
Defined.

(** Where blocked writers go first, a thread that read-locks again on top of its own
    read lock can wait for ever: nobody can go on. *)
Lemma rwl_recursive_read_deadlock :
  exists s, run_all writers_first tid0 ([(0%nat, Start ReadLock)] ++ replicate 2 (0%nat, Run) ++
      [(1%nat, Start WriteLock); (1%nat, Run); (0%nat, Start ReadLock)]) (start 2 (MkRwl (MkRw None 0) 0 0)) = Some s /\
    forall i e, run_event writers_first tid0 i e s = None.
Proof.
  eexists. split; [vm_compute; reflexivity|]. intros [|[|i]] [c|]; reflexivity.
Qed.

(** The writer that read-locks: [pthread_rwlock_rdlock] refuses (EDEADLK), the
    call still reports success, and the read unlock that belongs to it gives up
    the write lock: a second thread then writes at the same time. *)
Lemma rwl_read_under_write :
  let l1 := MkRwl (MkRw (Some 1) 0) 1 0 in
  pthread_rwlock_rdlock 1 false l1 = Some (EDEADLK, l1) /\
  __ks_rwl_read_lock 1 = Act (pthread_rwlock_rdlock 1) (fun _ => Ret KS_STATUS_SUCCESS) /\
  exists l2, pthread_rwlock_unlock 1 false l1 = Some (0, l2) /\ l2.(write_locker) = 1 /\
    exists l3, pthread_rwlock_wrlock 2 false l2 = Some (0, l3) /\ l3.(rwlock).(writer) = Some 2.
Proof. split; [done|]. split; [done|]. eexists. split; [done|]. split; [done|]. by eexists. Qed.

End Rwl.
