(* ===== verification/Kws.v ===== *)
(** WebSocket connections (src/src/kws.c, without TLS): socket reads and writes,
    the opening handshake, closing, and the frames, with the inverse law of
    writing and reading frames and the memory safety of reading. *)
From S2P Require Import Prelude.
Local Open Scope Z_scope.

Module Kws.

(** ** The socket

    What the next [recv] and [send] calls meet. An empty list of [recv_event]
    is the end of the stream, an empty list of [send_event] a socket that takes
    everything. One call moves at most [MAX_RW] bytes. *)

Inductive recv_event := Recv (bs : list Z) | RecvBlock | RecvFail.
Inductive send_event := Sent (n : Z) | SendBlock | SendFail.

Definition MAX_RW : Z := 2147479552.

(** The result of [recv], whether an error is one of blocking, the bytes, and
    what is left. *)
Definition recv (ev : list recv_event) (n : Z) : Z * bool * list Z * list recv_event :=
  match ev with
  | [] => (0, false, [], [])
  | RecvBlock :: ev => (-1, true, [], ev)
  | RecvFail :: ev => (-1, false, [], ev)
  | Recv bs :: ev =>
    let n := Z.min n MAX_RW in
    if zlen bs <=? n then (zlen bs, false, bs, ev)
    else (n, false, take (Z.to_nat n) bs, Recv (drop (Z.to_nat n) bs) :: ev)
  end.

Definition send (ev : list send_event) (bs : list Z) (n : Z) : Z * bool * list Z * list send_event :=
  let n := Z.min n MAX_RW in
  match ev with
  | [] => (n, false, take (Z.to_nat n) bs, [])
  | SendBlock :: ev => (-1, true, [], ev)
  | SendFail :: ev => (-1, false, [], ev)
  | Sent m :: ev => let n := Z.min m n in (n, false, take (Z.to_nat n) bs, ev)
  end.

(** ** The connection *)

Definition WS_BLOCK : Z := 10000.
Definition WS_WRITE_SANITY : nat := 200.
Definition WS_NORMAL_CLOSE : Z := 1000.

Definition WS_NONE : Z := 0.
Definition WS_RECV_CLOSE : Z := 1000.
Definition WS_PROTO_ERR : Z := 1002.

Definition WSOC_CONTINUATION : Z := 0.
Definition WSOC_TEXT : Z := 1.
Definition WSOC_BINARY : Z := 2.
Definition WSOC_CLOSE : Z := 8.
Definition WSOC_PING : Z := 9.
Definition WSOC_PONG : Z := 10.
Definition WSOC_INVALID : Z := 15.

Definition KWS_CLOSE_SOCK : Z := 1.
Definition KWS_BLOCK : Z := 2.
Definition KWS_STAY_OPEN : Z := 4.
Definition KWS_FLAG_DONTMASK : Z := 8.
Definition KWS_HTTP : Z := 16.

Inductive kws_type_t := KWS_CLIENT | KWS_SERVER.

(** The parts of a [kws_t] that reading uses: the count of tries, bytes behind
    the handshake left in [buffer], and the socket. *)
Record reader := MkReader {
  x : Z; unprocessed_buffer_len : Z; unprocessed_position : Z; inbox : list recv_event }.

(** The socket for writing, what was written, and the coming values of [rand]. *)
Record writer := MkWriter { outbox : list send_event; sent : list Z; nonces : list Z }.

(** [sock]: not [KS_SOCK_INVALID]. The fields [body], [payload], [plen], [rplen]
    and [packetlen] are set anew by each [kws_read_frame] and are variables there. *)
Record kws := MkKws {
  type : kws_type_t;
  sock : bool;
  buffer : list Z;
  bbuffer : list Z;
  buflen : Z;
  bbuflen : Z;
  datalen : Z;
  uri : option (list Z);
  rd : reader;
  wr : writer;
  down : Z;
  handshake : bool;
  logical_established : bool;
  block : Z;
  sanity : Z;
  flags : Z;
  write_buffer : option (list Z);
  write_buffer_len : Z;
  payload_size_max : Z;
  req_uri : list Z;
  req_host : list Z;
  req_proto : option (list Z);
  headers : list (list Z * list Z) }.

Definition set_sock (v : bool) (k : kws) : kws :=
  MkKws k.(type) v k.(buffer) k.(bbuffer) k.(buflen) k.(bbuflen) k.(datalen) k.(uri) k.(rd) k.(wr) k.(down)
    k.(handshake) k.(logical_established) k.(block) k.(sanity) k.(flags) k.(write_buffer) k.(write_buffer_len)
    k.(payload_size_max) k.(req_uri) k.(req_host) k.(req_proto) k.(headers).
Definition set_buffer (v : list Z) (k : kws) : kws :=
  MkKws k.(type) k.(sock) v k.(bbuffer) k.(buflen) k.(bbuflen) k.(datalen) k.(uri) k.(rd) k.(wr) k.(down)
    k.(handshake) k.(logical_established) k.(block) k.(sanity) k.(flags) k.(write_buffer) k.(write_buffer_len)
    k.(payload_size_max) k.(req_uri) k.(req_host) k.(req_proto) k.(headers).
Definition set_bbuffer (v : list Z) (k : kws) : kws :=
  MkKws k.(type) k.(sock) k.(buffer) v k.(buflen) k.(bbuflen) k.(datalen) k.(uri) k.(rd) k.(wr) k.(down)
    k.(handshake) k.(logical_established) k.(block) k.(sanity) k.(flags) k.(write_buffer) k.(write_buffer_len)
    k.(payload_size_max) k.(req_uri) k.(req_host) k.(req_proto) k.(headers).
Definition set_bbuflen (v : Z) (k : kws) : kws :=
  MkKws k.(type) k.(sock) k.(buffer) k.(bbuffer) k.(buflen) v k.(datalen) k.(uri) k.(rd) k.(wr) k.(down)
    k.(handshake) k.(logical_established) k.(block) k.(sanity) k.(flags) k.(write_buffer) k.(write_buffer_len)
    k.(payload_size_max) k.(req_uri) k.(req_host) k.(req_proto) k.(headers).
Definition set_datalen (v : Z) (k : kws) : kws :=
  MkKws k.(type) k.(sock) k.(buffer) k.(bbuffer) k.(buflen) k.(bbuflen) v k.(uri) k.(rd) k.(wr) k.(down)
    k.(handshake) k.(logical_established) k.(block) k.(sanity) k.(flags) k.(write_buffer) k.(write_buffer_len)
    k.(payload_size_max) k.(req_uri) k.(req_host) k.(req_proto) k.(headers).
Definition set_uri (v : option (list Z)) (k : kws) : kws :=
  MkKws k.(type) k.(sock) k.(buffer) k.(bbuffer) k.(buflen) k.(bbuflen) k.(datalen) v k.(rd) k.(wr) k.(down)
    k.(handshake) k.(logical_established) k.(block) k.(sanity) k.(flags) k.(write_buffer) k.(write_buffer_len)
    k.(payload_size_max) k.(req_uri) k.(req_host) k.(req_proto) k.(headers).
Definition set_rd (v : reader) (k : kws) : kws :=
  MkKws k.(type) k.(sock) k.(buffer) k.(bbuffer) k.(buflen) k.(bbuflen) k.(datalen) k.(uri) v k.(wr) k.(down)
    k.(handshake) k.(logical_established) k.(block) k.(sanity) k.(flags) k.(write_buffer) k.(write_buffer_len)
    k.(payload_size_max) k.(req_uri) k.(req_host) k.(req_proto) k.(headers).
Definition set_wr (v : writer) (k : kws) : kws :=
  MkKws k.(type) k.(sock) k.(buffer) k.(bbuffer) k.(buflen) k.(bbuflen) k.(datalen) k.(uri) k.(rd) v k.(down)
    k.(handshake) k.(logical_established) k.(block) k.(sanity) k.(flags) k.(write_buffer) k.(write_buffer_len)
    k.(payload_size_max) k.(req_uri) k.(req_host) k.(req_proto) k.(headers).
Definition set_down (v : Z) (k : kws) : kws :=
  MkKws k.(type) k.(sock) k.(buffer) k.(bbuffer) k.(buflen) k.(bbuflen) k.(datalen) k.(uri) k.(rd) k.(wr) v
    k.(handshake) k.(logical_established) k.(block) k.(sanity) k.(flags) k.(write_buffer) k.(write_buffer_len)
    k.(payload_size_max) k.(req_uri) k.(req_host) k.(req_proto) k.(headers).
Definition set_handshake (v : bool) (k : kws) : kws :=
  MkKws k.(type) k.(sock) k.(buffer) k.(bbuffer) k.(buflen) k.(bbuflen) k.(datalen) k.(uri) k.(rd) k.(wr)
    k.(down) v k.(logical_established) k.(block) k.(sanity) k.(flags) k.(write_buffer) k.(write_buffer_len)
    k.(payload_size_max) k.(req_uri) k.(req_host) k.(req_proto) k.(headers).
Definition set_logical_established (v : bool) (k : kws) : kws :=
  MkKws k.(type) k.(sock) k.(buffer) k.(bbuffer) k.(buflen) k.(bbuflen) k.(datalen) k.(uri) k.(rd) k.(wr)
    k.(down) k.(handshake) v k.(block) k.(sanity) k.(flags) k.(write_buffer) k.(write_buffer_len)
    k.(payload_size_max) k.(req_uri) k.(req_host) k.(req_proto) k.(headers).
Definition set_block (v : Z) (k : kws) : kws :=
  MkKws k.(type) k.(sock) k.(buffer) k.(bbuffer) k.(buflen) k.(bbuflen) k.(datalen) k.(uri) k.(rd) k.(wr)
    k.(down) k.(handshake) k.(logical_established) v k.(sanity) k.(flags) k.(write_buffer)
    k.(write_buffer_len) k.(payload_size_max) k.(req_uri) k.(req_host) k.(req_proto) k.(headers).
Definition set_flags (v : Z) (k : kws) : kws :=
  MkKws k.(type) k.(sock) k.(buffer) k.(bbuffer) k.(buflen) k.(bbuflen) k.(datalen) k.(uri) k.(rd) k.(wr)
    k.(down) k.(handshake) k.(logical_established) k.(block) k.(sanity) v k.(write_buffer)
    k.(write_buffer_len) k.(payload_size_max) k.(req_uri) k.(req_host) k.(req_proto) k.(headers).
Definition set_write_buffer (v : option (list Z)) (k : kws) : kws :=
  MkKws k.(type) k.(sock) k.(buffer) k.(bbuffer) k.(buflen) k.(bbuflen) k.(datalen) k.(uri) k.(rd) k.(wr)
    k.(down) k.(handshake) k.(logical_established) k.(block) k.(sanity) k.(flags) v k.(write_buffer_len)
    k.(payload_size_max) k.(req_uri) k.(req_host) k.(req_proto) k.(headers).
Definition set_write_buffer_len (v : Z) (k : kws) : kws :=
  MkKws k.(type) k.(sock) k.(buffer) k.(bbuffer) k.(buflen) k.(bbuflen) k.(datalen) k.(uri) k.(rd) k.(wr)
    k.(down) k.(handshake) k.(logical_established) k.(block) k.(sanity) k.(flags) k.(write_buffer) v
    k.(payload_size_max) k.(req_uri) k.(req_host) k.(req_proto) k.(headers).

Definition flag_set (k : kws) (f : Z) : bool := negb (Z.land k.(flags) f =? 0).

(** ** Reading *)

Fixpoint recv_loop (fuel : nat) (ev : list recv_event) (x bytes block block_n : Z) :
    res (Z * list Z * list recv_event * Z) :=
  match fuel with
  | O => Err NoFuel
  | S fuel =>
    let '(r, blocking, bs, ev) := recv ev (u64 (s32 bytes)) in
    if (r =? -1) && (block =? 0) && blocking then Ok (-2, [], ev, x)
    else
      let x := if (r =? -1) && negb (block =? 0) then x + 1 else x in
      if (r =? -1) && blocking && (x <? block_n) then recv_loop fuel ev x bytes block block_n
      else Ok (r, bs, ev, x)
  end.

(** The result, what was put at [data], and the reader. [buf] is [kws->buffer]. *)
Definition kws_raw_read (rd : reader) (buf : list Z) (bytes block : Z) : res (Z * list Z * reader) :=
  let block_n := block ÷ 10 in
  let len := rd.(unprocessed_buffer_len) in
  let pos := rd.(unprocessed_position) in
  if 0 <? len then
    if bytes <? len then
      d ← slice buf pos bytes; Ok (bytes, d, MkReader rd.(x) (len - bytes) (pos + bytes) rd.(inbox))
    else
      d ← slice buf pos len; Ok (len, d, MkReader rd.(x) 0 0 rd.(inbox))
  else
    v ← recv_loop (S (length rd.(inbox))) rd.(inbox) (rd.(x) + 1) bytes block block_n;
    let '(r, bs, ev, x) := v in
    let r := if (10000 <=? x) || (negb (block =? 0) && (block_n <=? x)) then -1 else r in
    let d := bs ++ (if (0 <? r) && (r <? bytes) then [0] else []) in
    Ok (r, d, MkReader (if 0 <=? r then 0 else x) len pos ev).

(** A string read to [off] in [dst]; [src] is [kws->buffer] when [dst] is not. *)
Definition kws_string_read (rd : reader) (src : option (list Z)) (dst : list Z) (off size block : Z) :
    res (Z * list Z * reader) :=
  if size <? 1 then Ok (-1, dst, rd) else
  dst ← st dst (off + size - 1) 0;
  if size <? 2 then Ok (0, dst, rd) else
  v ← kws_raw_read rd (default dst src) (size - 1) block;
  let '(r, d, rd) := v in
  dst ← blit dst off d;
  Ok (r, dst, rd).

(** [kws_raw_read_blocking] into [kws->buffer]. *)
Fixpoint raw_read_blocking_loop (fuel : nat) (rd : reader) (buf : list Z) (off max_bytes max_retries total zero_reads : Z) :
    res (Z * list Z * reader) :=
  match fuel with
  | O => Err NoFuel
  | S fuel =>
    if (total <? max_bytes) && (zero_reads <? max_retries) then
      v ← kws_raw_read rd buf (max_bytes - total) WS_BLOCK;
      let '(r, d, rd) := v in
      buf ← blit buf (off + total) d;
      if r =? 0 then raw_read_blocking_loop fuel rd buf off max_bytes max_retries total (zero_reads + 1)
      else if r <? 0 then Ok (total, buf, rd)
      else raw_read_blocking_loop fuel rd buf off max_bytes max_retries (total + r) 0
    else Ok (total, buf, rd)
  end.

Definition kws_raw_read_blocking (rd : reader) (buf : list Z) (off max_bytes max_retries : Z) : res (Z * list Z * reader) :=
  raw_read_blocking_loop (S (Z.to_nat ((max_bytes + 1) * (max_retries + 1)))) rd buf off max_bytes max_retries 0 0.

Definition kws_string_read_blocking (rd : reader) (buf : list Z) (off size max_retries : Z) : res (Z * list Z * reader) :=
  if size <? 1 then Ok (-1, buf, rd) else
  buf ← st buf (off + size - 1) 0;
  if size <? 2 then Ok (0, buf, rd) else
  kws_raw_read_blocking rd buf off (size - 1) max_retries.


(** ** Writing and closing *)

(** [do ... while (--sanity > 0 && wrote < bytes)]. *)
Fixpoint send_loop (sanity : nat) (w : writer) (data : list Z) (wrote bytes : Z) : Z * writer :=
  let '(r, blocking, bs, ev) := send w.(outbox) (drop (Z.to_nat wrote) data) (u64 (s32 (bytes - wrote))) in
  let w := MkWriter ev (w.(sent) ++ bs) w.(nonces) in
  let wrote := if 0 <? r then wrote + r else wrote in
  let result := if 0 <=? r then wrote else r in
  if (r =? -1) && negb blocking then (result, w)
  else match sanity with
       | S (S _ as sanity) => if wrote <? bytes then send_loop sanity w data wrote bytes else (result, w)
       | _ => (result, w)
       end.

Definition kws_raw_write (w : writer) (data : list Z) (bytes : Z) : Z * writer :=
  send_loop WS_WRITE_SANITY w data 0 bytes.

(** The next [len] values of [rand], each scaled to a byte. *)
Definition gen_nonce (w : writer) (len : nat) : list Z * writer :=
  (map u8 (take len (w.(nonces) ++ replicate len 0)), MkWriter w.(outbox) w.(sent) (drop len w.(nonces))).

(** [p\[i\] ^= key\[i % 4\]]. *)
Definition mask_with (key : list Z) (data : list Z) : list Z :=
  imap (fun i b => Z.lxor b (nth (i mod 4) key 0)) data.

Definition close_frame (k : kws) (reason : Z) : list Z * writer :=
  let got_reason := if reason =? 0 then WS_NORMAL_CLOSE else reason in
  match k.(type) with
  | KWS_CLIENT =>
    let '(key, w) := gen_nonce k.(wr) 4 in
    ([136; 130] ++ key ++ mask_with key (be 2 (u16 got_reason)), w)
  | KWS_SERVER => ([136; 2] ++ be 2 (u16 got_reason), k.(wr))
  end.

Definition kws_close (k : kws) (reason : Z) : Z * kws :=
  if negb (k.(down) =? 0) then (-1, k) else
  let k := set_uri None (set_down 1 k) in
  let k := if k.(handshake) && k.(sock) then
             let '(fr, w) := close_frame k reason in
             set_wr (kws_raw_write w fr (zlen fr)).2 k
           else k in
  (reason * -1, set_sock false k).

(** ** The opening handshake *)

Definition lower (c : Z) : Z := if (65 <=? c) && (c <=? 90) then c + 32 else c.
(** [strncasecmp(s, name, strlen(name)) == 0]. *)
Definition has_prefix_ci (name s : list Z) : bool :=
  bool_decide (map lower (take (length name) s) = map lower name).

(** What stands behind the first [pat] in [s]: [strstr]. *)
Fixpoint after (pat s : list Z) : option (list Z) :=
  if bool_decide (take (length pat) s = pat) then Some (drop (length pat) s) else
  match s with [] => None | _ :: s => after pat s end.

(** The line that begins with [name] and a colon. *)
Fixpoint find_line (fuel : nat) (name s : list Z) : option (list Z) :=
  match fuel with
  | O => None
  | S fuel =>
    if has_prefix_ci name s && bool_decide (nth (length name) s 0 = 58) then Some s else
    match after [10] s with Some s => find_line fuel name s | None => None end
  end.

Fixpoint skip_spaces (s : list Z) : list Z :=
  match s with 32 :: s => skip_spaces s | _ => s end.

Fixpoint up_to (c : Z) (s : list Z) : option (list Z) :=
  match s with
  | [] => None
  | b :: s => if b =? c then Some [] else match up_to c s with Some l => Some (b :: l) | None => None end
  end.

(** The value, cut to [buflen - 1] bytes; [None]: the call returns 0. *)
Definition cheezy_get_var (data name : list Z) (buflen : Z) : option (list Z) :=
  p ← find_line (S (length data)) name data;
  v ← after [58] p;
  let v := skip_spaces v in
  e ← (match up_to 13 v with Some l => Some l | None => up_to 10 v end);
  Some (take (Z.to_nat (buflen - 1)) e).

Definition c64 : list Z := bytes_of_string "ABCDEFGHIJKLMNOPQRSTUVWXYZabcdefghijklmnopqrstuvwxyz0123456789+/".
Definition c64_at (i : Z) : Z := nth (Z.to_nat (i mod 64)) c64 0.

(** [while (l >= 6)]: [l] falls below 14 before each byte. *)
Fixpoint b64_flush (fuel : nat) (b l : Z) : list Z * Z :=
  match fuel with
  | O => ([], l)
  | S fuel =>
    if 6 <=? l then let '(cs, l') := b64_flush fuel b (l - 6) in (c64_at (Z.shiftr b (l - 6)) :: cs, l') else ([], l)
  end.

Fixpoint b64_loop (inp : list Z) (b l : Z) : list Z :=
  match inp with
  | [] =>
    (if 0 <? l then [c64_at (u32 (Z.shiftl (b mod 16) (6 - l)))] else []) ++
    (if l =? 0 then [] else if l <? 4 then [61; 61] else if l <? 6 then [61] else [])
  | c :: inp =>
    let b := u32 (u32 (Z.shiftl b 8) + c) in
    let '(cs, l) := b64_flush 3 b (l + 8) in cs ++ b64_loop inp b l
  end.

Definition b64encode (inp : list Z) : list Z := b64_loop inp 0 0.

Section Handshake.
(** SHA-1, of OpenSSL. *)
Context (SHA1 : list Z -> list Z).

Definition WEBSOCKET_GUID : list Z := bytes_of_string "258EAFA5-E914-47DA-95CA-C5AB0DC85B11".
Definition crlf : list Z := [13; 10].
Definition text (s : String.string) : list Z := bytes_of_string s.

Definition accept_key (key : list Z) : list Z := b64encode (SHA1 (take 255 (key ++ WEBSOCKET_GUID))).
Definition verify_accept (enonce accept : list Z) : bool := bool_decide (accept_key enonce = accept).

Definition client_request (k : kws) (enonce : list Z) : list Z :=
  text "GET " ++ k.(req_uri) ++ text " HTTP/1.1" ++ crlf ++ text "Host: " ++ k.(req_host) ++ crlf ++
  text "Upgrade: websocket" ++ crlf ++ text "Connection: Upgrade" ++ crlf ++
  text "Sec-WebSocket-Key: " ++ enonce ++ crlf ++ text "Sec-WebSocket-Version: 13" ++ crlf ++
  match k.(req_proto) with Some pr => text "Sec-WebSocket-Protocol: " ++ pr ++ crlf | None => [] end ++
  concat (map (fun h => h.1 ++ text ": " ++ h.2 ++ crlf) k.(headers)) ++ crlf.

(** Every read goes to [buffer + datalen], which does not move. *)
Fixpoint client_read_loop (fuel : nat) (k : kws) : res (Z * kws) :=
  match fuel with
  | O => Err NoFuel
  | S fuel =>
    v ← kws_string_read k.(rd) None k.(buffer) k.(datalen) (k.(buflen) - k.(datalen)) WS_BLOCK;
    let '(bytes, buf, rd') := v in
    let k := set_rd rd' (set_buffer buf k) in
    if 0 <? bytes then
      resp ← cstr buf 0;
      match after [13; 10; 13; 10] resp with Some _ => Ok (bytes, k) | None => client_read_loop fuel k end
    else Ok (bytes, k)
  end.

Definition pending_bytes (rd : reader) : nat :=
  length rd.(inbox) + length (concat (map (fun e => match e with Recv bs => bs | _ => [] end) rd.(inbox))) +
  Z.to_nat rd.(unprocessed_buffer_len).

Definition ws_client_handshake (k : kws) : res (Z * kws) :=
  let '(nonce, w) := gen_nonce k.(wr) 16 in
  let enonce := b64encode nonce in
  let req := client_request k enonce in
  let k := set_wr (kws_raw_write w req (zlen req)).2 k in
  v ← client_read_loop (S (S (pending_bytes k.(rd)))) k;
  let '(bytes, k) := v in
  if 0 <? bytes then
    resp ← cstr k.(buffer) 0;
    let accept := default [] (cheezy_get_var resp (text "Sec-WebSocket-Accept") 128) in
    if bool_decide (accept = []) || negb (verify_accept enonce accept) then Ok (-1, k) else
    let k :=
      match after [13; 10; 13; 10] resp with
      | Some rest =>
        let frame_end := zlen resp - zlen rest in
        if frame_end <? bytes
        then set_rd (MkReader k.(rd).(x) (bytes - frame_end) frame_end k.(rd).(inbox)) k else k
      | None => k
      end in
    Ok (0, set_handshake true k)
  else Ok (-1, k).

(** The server collects the request behind [datalen]. *)
Fixpoint server_read_loop (fuel : nat) (k : kws) : res (Z * kws) :=
  match fuel with
  | O => Err NoFuel
  | S fuel =>
    v ← kws_string_read k.(rd) None k.(buffer) k.(datalen) (k.(buflen) - k.(datalen)) WS_BLOCK;
    let '(bytes, buf, rd') := v in
    let k := set_rd rd' (set_buffer buf k) in
    if 0 <? bytes then
      let k := set_datalen (k.(datalen) + bytes) k in
      req ← cstr buf 0;
      if is_Some_dec (after [13; 10; 13; 10] req) then Ok (bytes, k)
      else if is_Some_dec (after [10; 10] req) then Ok (bytes, k)
      else server_read_loop fuel k
    else Ok (bytes, k)
  end.

Definition server_response (key proto : list Z) : list Z :=
  take 511 (text "HTTP/1.1 101 Switching Protocols" ++ crlf ++ text "Upgrade: websocket" ++ crlf ++
    text "Connection: Upgrade" ++ crlf ++ text "Sec-WebSocket-Accept: " ++
    b64encode (SHA1 (key ++ WEBSOCKET_GUID)) ++ crlf ++
    (if bool_decide (proto = []) then [] else text "Sec-WebSocket-Protocol: " ++ proto ++ crlf) ++ crlf).

Definition bad_request : list Z :=
  text "HTTP/1.1 400 Bad Request" ++ crlf ++ text "Sec-WebSocket-Version: 13" ++ crlf ++ crlf.

(** [err:]; [bytes]: what the last read returned. *)
Definition server_refuse (k : kws) (bytes : Z) : Z * kws :=
  if negb (flag_set k KWS_STAY_OPEN) then
    let k := if 0 <? bytes then set_wr (kws_raw_write k.(wr) bad_request (zlen bad_request)).2 k else k in
    (-1, (kws_close k WS_NONE).2)
  else if flag_set k KWS_HTTP then (0, set_handshake true k)
  else (-1, k).

Definition ws_server_handshake (k : kws) : res (Z * kws) :=
  if negb k.(sock) then Ok (-3, k) else
  v ← server_read_loop (S (S (pending_bytes k.(rd)))) k;
  let '(bytes, k) := v in
  if (bytes <? 0) || (k.(buflen) - 1 <? bytes) then Ok (server_refuse k bytes) else
  buf ← st k.(buffer) k.(datalen) 0;
  let k := set_buffer buf k in
  req ← cstr buf 0;
  if negb (has_prefix_ci (text "GET ") req) then Ok (server_refuse k bytes) else
  match up_to 32 (drop 4 req) with
  | None => Ok (server_refuse k bytes)
  | Some path =>
    let k := set_uri (Some path) k in
    let key := default [] (cheezy_get_var req (text "Sec-WebSocket-Key") 256) in
    let proto := default [] (cheezy_get_var req (text "Sec-WebSocket-Protocol") 256) in
    if bool_decide (key = []) then Ok (server_refuse k bytes) else
    let respond := server_response key proto in
    let '(wrote, w) := kws_raw_write k.(wr) respond (zlen respond) in
    let k := set_wr w k in
    if negb (wrote =? zlen respond) then Ok (server_refuse k bytes) else
    Ok (0, set_flags (Z.land k.(flags) (Z.lnot KWS_HTTP)) (set_handshake true k))
  end.

(** [establish_logical_layer] without TLS. *)
Definition ws_handshake (k : kws) : res (Z * kws) :=
  match k.(type) with KWS_CLIENT => ws_client_handshake k | KWS_SERVER => ws_server_handshake k end.

Fixpoint handshake_loop (fuel : nat) (k : kws) : res (Z * kws) :=
  match fuel with
  | O => Err NoFuel
  | S fuel =>
    if (k.(down) =? 0) && negb k.(handshake) then
      v ← ws_handshake k;
      let '(r, k) := v in
      if r <? 0 then Ok (-1, set_down 1 k)
      else if negb k.(handshake) && (k.(block) =? 0) then Ok (-2, k)
      else handshake_loop fuel k
    else Ok (0, set_logical_established true k)
  end.

Definition establish_logical_layer (k : kws) : res (Z * kws) :=
  if k.(sanity) =? 0 then Ok (-1, k)
  else if k.(logical_established) then Ok (0, k)
  else handshake_loop 2 k.
End Handshake.

(** ** Frames out *)

Section Frames.
(** [ks_pool_alloc] and [ks_pool_resize] of a block; [None]: no memory. *)
Context (pool_alloc : Z -> option (list Z)) (pool_resize : list Z -> Z -> option (list Z)).

Definition frame_header (oc bytes : Z) : list Z :=
  [u8 (Z.lor oc 128)] ++
  (if bytes <? 126 then [u8 bytes]
   else if bytes <? 65536 then 126 :: be 2 bytes
   else 127 :: be 8 bytes).

Definition grow_write_buffer (k : kws) (need : Z) : res kws :=
  if k.(write_buffer_len) <? need then
    let k := set_write_buffer_len need k in
    match k.(write_buffer) with
    | None => Ok (set_write_buffer (pool_alloc need) k)
    | Some b => match pool_resize b need with
                | Some b => Ok (set_write_buffer (Some b) k)
                | None => Err Aborted
                end
    end
  else Ok k.

Definition kws_write_frame (k : kws) (oc : Z) (data : list Z) (bytes : Z) : res (Z * kws) :=
  let mask := negb (flag_set k KWS_FLAG_DONTMASK) in
  if negb (k.(down) =? 0) then Ok (-1, k) else
  let hdr := frame_header oc bytes in
  let hlen := zlen hdr in
  k ← grow_write_buffer k (hlen + bytes + 1 + (if mask then 4 else 0));
  match k.(write_buffer) with
  | None => Err NullDeref
  | Some bp =>
    bp ← blit bp 0 hdr;
    payload ← slice data 0 bytes;
    v ← (if mask then
           let '(key, w) := gen_nonce k.(wr) 4 in
           b1 ← ld bp 1;
           bp ← st bp 1 (Z.lor b1 128);
           bp ← blit bp hlen key;
           bp ← blit bp (hlen + 4) (mask_with key payload);
           Ok (bp, hlen + 4, w)
         else bp ← blit bp hlen payload; Ok (bp, hlen, k.(wr)));
    let '(bp, hlen, w) := v in
    let '(raw_ret, w) := kws_raw_write w bp (hlen + bytes) in
    let k := set_wr w (set_write_buffer (Some bp) k) in
    if (raw_ret <=? 0) || negb (raw_ret =? hlen + bytes) then Ok (raw_ret, k) else Ok (bytes, k)
  end.

(** ** Frames in *)

(** What [*data] points to. *)
Inductive data_ptr := DataNull | DataBuffer (off : Z) | DataBody.

Context (SHA1 : list Z -> list Z).

(** [need] bytes of the header; [false] when the peer does not send them. *)
Definition fill_header (k : kws) (need : Z) : res (bool * kws) :=
  if k.(datalen) <? need then
    v ← kws_string_read_blocking k.(rd) k.(buffer) k.(datalen) (need - k.(datalen) + 1) 10;
    let '(bytes, buf, rd') := v in
    let k := set_rd rd' (set_buffer buf k) in
    if bytes <? 0 then Ok (false, k) else
    let k := set_datalen (k.(datalen) + bytes) k in
    Ok (need <=? k.(datalen), k)
  else Ok (true, k).

(** The first bytes of a frame: the result when they do not come. *)
Definition start_header (k : kws) : res (Z * kws + kws) :=
  v ← kws_string_read k.(rd) None k.(buffer) 0 (9 + 1) k.(block);
  let '(r, buf, rd') := v in
  let k := set_datalen r (set_rd rd' (set_buffer buf k)) in
  if r <? 0 then (if r =? -2 then Ok (inl (-2, k)) else Ok (inl (kws_close k WS_NONE)))
  else if r <? 2 then
    v ← kws_string_read k.(rd) None k.(buffer) r (9 - r) WS_BLOCK;
    let '(bytes, buf, rd') := v in
    let k := set_rd rd' (set_buffer buf k) in
    if bytes <? 0 then Ok (inl (kws_close k WS_NONE)) else
    let k := set_datalen (r + bytes) k in
    if k.(datalen) <? 2 then Ok (inl (kws_close k WS_NONE)) else Ok (inr k)
  else Ok (inr k).

(** Mask and length: [plen], the header length, and the mask. [None]: refused. *)
Definition read_header (k : kws) : res (kws * option (Z * Z * option (list Z))) :=
  b1 ← ld k.(buffer) 1;
  let mask := negb (Z.land (Z.shiftr b1 7) 1 =? 0) in
  let need := 2 + (if mask then 4 else 0) in
  v ← fill_header k need;
  let '(got, k) := v in
  if negb got then Ok (k, None) else
  let plen := Z.land b1 127 in
  let ext := if plen =? 127 then 8 else if plen =? 126 then 2 else 0 in
  let need := need + ext in
  v ← (if ext =? 0 then Ok (true, k) else fill_header k need);
  let '(got, k) := v in
  if negb got then Ok (k, None) else
  len ← slice k.(buffer) 2 ext;
  let plen := if plen =? 127 then s64 (from_be len) else if plen =? 126 then u16 (from_be len) else plen in
  if mask then maskp ← slice k.(buffer) (2 + ext) 4; Ok (k, Some (plen, need, Some maskp))
  else Ok (k, Some (plen, need, None)).

(** Signed 64-bit arithmetic. *)
Definition in_s64 (v : Z) : res Z :=
  if (-9223372036854775808 <=? v) && (v <=? 9223372036854775807) then Ok v else Err Overflow.

(** Room for [plen] bytes and a NUL at [body]; [None]: over [payload_size_max]. *)
Definition grow_body (k : kws) (body plen : Z) : res (kws * bool) :=
  let blen := s32 body in
  total ← in_s64 (blen + plen);
  if s64 k.(bbuflen) <=? total then
    let k := set_bbuflen (u64 (total + 1)) k in
    if negb (k.(payload_size_max) =? 0) && (k.(payload_size_max) <? k.(bbuflen)) then Ok (k, false)
    else match pool_resize k.(bbuffer) k.(bbuflen) with
         | Some b => Ok (set_bbuffer b k, true)
         | None => Err Aborted
         end
  else Ok (k, true).

(** [while (need)]: the rest of the payload, to [bbuffer + off]; [None]: refused. *)
Fixpoint payload_loop (fuel : nat) (k : kws) (off need : Z) : res (kws * bool) :=
  match fuel with
  | O => Err NoFuel
  | S fuel =>
    if need =? 0 then Ok (k, true) else
    v ← kws_string_read k.(rd) (Some k.(buffer)) k.(bbuffer) off (need + 1) WS_BLOCK;
    let '(r, bb, rd') := v in
    let k := set_rd rd' (set_bbuffer bb k) in
    if r <? 1 then Ok (k, false)
    else payload_loop fuel (set_datalen (k.(datalen) + r) k) (off + r) (need - r)
  end.

(** The payload of a frame with [plen] bytes at [body], [hlen] bytes of header
    read: what came behind the header, the rest, the mask, and for text a NUL. *)
Definition read_payload (k : kws) (oc body plen hlen : Z) (maskp : option (list Z)) : res (kws * bool) :=
  need ← in_s64 (plen - (k.(datalen) - hlen));
  if need <? 0 then Ok (k, false) else
  g ← grow_body k body plen;
  let '(k, room) := g in
  if negb room then Ok (k, false) else
  let rplen := plen - need in
  k ← (if negb (rplen =? 0) then
         _ ← ks_assert (body + rplen <=? k.(bbuflen));
         d ← slice k.(buffer) hlen rplen;
         bb ← blit k.(bbuffer) body d;
         Ok (set_bbuffer bb k)
       else Ok k);
  _ ← ks_assert (body + plen <=? k.(bbuflen));
  v ← payload_loop (S (S (pending_bytes k.(rd)))) k (body + rplen) need;
  let '(k, complete) := v in
  if negb complete then Ok (k, false) else
  k ← (match maskp with
       | Some key => d ← slice k.(bbuffer) body plen; bb ← blit k.(bbuffer) body (mask_with key d); Ok (set_bbuffer bb k)
       | None => Ok k
       end);
  k ← (if oc =? WSOC_TEXT then bb ← st k.(bbuffer) (body + plen) 0; Ok (set_bbuffer bb k) else Ok k);
  Ok (k, true).

(** The result with [*oc] and [*data]. *)
Definition refuse (k : kws) (oc reason : Z) : Z * Z * data_ptr * kws :=
  let '(r, k) := kws_close k reason in (r, oc, DataNull, k).

(** From [again:]; [body] is an offset in [bbuffer]. *)
Fixpoint read_frames (fuel : nat) (k : kws) (oc : Z) (frag : bool) (body packetlen : Z) : res (Z * Z * data_ptr * kws) :=
  match fuel with
  | O => Err NoFuel
  | S fuel =>
    v ← establish_logical_layer SHA1 k;
    let '(ll, k) := v in
    if ll <? 0 then Ok (ll, oc, DataNull, k) else
    if negb (k.(down) =? 0) then Ok (-1, oc, DataNull, k) else
    if negb k.(handshake) then Ok (refuse k oc WS_NONE) else
    h ← start_header k;
    match h with
    | inl (r, k) => Ok (r, oc, DataNull, k)
    | inr k =>
      b0 ← ld k.(buffer) 0;
      let oc := Z.land b0 15 in
      if oc =? WSOC_CLOSE then
        let '(r, k) := kws_close k WS_RECV_CLOSE in Ok (r, oc, DataBuffer 2, k)
      else if (oc =? WSOC_CONTINUATION) || (oc =? WSOC_TEXT) || (oc =? WSOC_BINARY) || (oc =? WSOC_PING) || (oc =? WSOC_PONG) then
        let fin := negb (Z.land (Z.shiftr b0 7) 1 =? 0) in
        let frag := if negb fin && negb (oc =? WSOC_CONTINUATION) then true
                    else if fin && (oc =? WSOC_CONTINUATION) then false else frag in
        v ← read_header k;
        let '(k, hd) := v in
        match hd with
        | None => Ok (refuse k WSOC_CLOSE WS_NONE)
        | Some (plen, hlen, maskp) =>
          v ← read_payload k oc body plen hlen maskp;
          let '(k, ok) := v in
          if negb ok then Ok (refuse k WSOC_CLOSE WS_NONE)
          else if frag then read_frames fuel k oc frag (body + plen) (packetlen + plen)
          else Ok (packetlen + plen, oc, DataBody, k)
        end
      else Ok (refuse k WSOC_CLOSE WS_PROTO_ERR)
    end
  end.

Definition kws_read_frame (k : kws) : res (Z * Z * data_ptr * kws) :=
  read_frames (S (S (pending_bytes k.(rd)))) k WSOC_INVALID false 0 0.
End Frames.

(** ** Reading from a stream in chunks *)

(** The socket delivers [bs] in chunks, then [rest]. *)
Definition delivers (ev : list recv_event) (bs : list Z) (rest : list recv_event) : Prop :=
  exists cs, ev = map Recv cs ++ rest /\ concat cs = bs /\ Forall (fun c => c <> []) cs.

Lemma recv_chunk ev bs rest n : delivers ev bs rest -> bs <> [] -> 1 <= n < 2147483648 ->
  exists m ev', recv ev (u64 (s32 n)) = (m, false, take (Z.to_nat m) bs, ev') /\ 1 <= m <= n /\ m <= zlen bs /\
    delivers ev' (drop (Z.to_nat m) bs) rest.
Proof.
  intros (cs & -> & Hc & Hne) Hbs Hn. rewrite s32_id, u64_id by lia. destruct cs as [|c cs]; [by subst|].
  apply Forall_cons in Hne as [Hcne Hne]. cbn [map app recv concat] in *. set (n' := Z.min n MAX_RW).
  assert (1 <= n' <= n) by (unfold n', MAX_RW; lia). assert (1 <= zlen c) by (destruct c; [done|rewrite zlen_cons; pose proof (zlen_nonneg c); lia]).
  pose proof (zlen_nonneg (concat cs)). assert (zlen bs = zlen c + zlen (concat cs)) by (by rewrite <- Hc, zlen_app).
  destruct (Z.leb_spec (zlen c) n').
  - exists (zlen c), (map Recv cs ++ rest). subst bs.
    replace (Z.to_nat (zlen c)) with (length c) by (unfold zlen; lia). rewrite take_app_length, drop_app_length.
    split; [done|]. split; [lia|]. split; [lia|]. by exists cs.
  - exists n', (Recv (drop (Z.to_nat n') c) :: map Recv cs ++ rest). subst bs. unfold zlen in *.
    rewrite take_app_le, drop_app_le by lia. split; [done|]. split; [lia|]. split; [lia|].
    exists (drop (Z.to_nat n') c :: cs). split; [done|]. split; [done|]. constructor; [|done].
    intros E. apply (f_equal length) in E. rewrite length_drop in E. simpl in E. lia.
Qed.

(** A reader at the socket, with few tries so far. *)
Definition at_socket (rd : reader) : Prop := rd.(x) = 0 /\ rd.(unprocessed_buffer_len) = 0.
Definition good_block (block : Z) : Prop := block = 0 \/ 20 <= block.

Lemma block_tries block : good_block block -> negb (block =? 0) && (block ÷ 10 <=? 0 + 1) = false.
Proof.
  intros [->|H]; [done|]. destruct (Z.eqb_spec block 0); [done|]. cbn.
  apply Z.leb_gt. assert (20 ÷ 10 <= block ÷ 10) by (apply Z.quot_le_mono; lia). change (20 ÷ 10) with 2 in *. lia.
Qed.

Lemma raw_read_chunk rd buf bs rest n block : at_socket rd -> good_block block -> delivers rd.(inbox) bs rest ->
  bs <> [] -> 1 <= n < 2147483648 ->
  exists m rd', kws_raw_read rd buf n block =
      Ok (m, take (Z.to_nat m) bs ++ (if m <? n then [0] else []), rd') /\
    1 <= m <= n /\ m <= zlen bs /\ at_socket rd' /\ delivers rd'.(inbox) (drop (Z.to_nat m) bs) rest.
Proof.
  intros [Hx Hu] Hb Hd Hbs Hn. destruct (recv_chunk _ _ _ n Hd Hbs Hn) as (m & ev' & Er & Hm & Hml & Hd').
  exists m, (MkReader 0 0 rd.(unprocessed_position) ev'). unfold kws_raw_read. rewrite Hu, Hx. cbn [Z.ltb Z.compare].
  cbn [recv_loop]. rewrite Er. destruct (Z.eqb_spec m (-1)); [lia|]. cbn [andb mbind res_bind].
  rewrite block_tries by done. change (10000 <=? 0 + 1) with false. cbn [orb].
  destruct (Z.ltb_spec 0 m); [|lia]. destruct (Z.leb_spec 0 m); [|lia]. cbn [andb]. repeat split; done || lia.
Qed.

(** What [recv] puts behind [got], with the NUL after a short read. *)
Lemma blit_chunk (got tail bs : list Z) m n : 0 <= m <= n -> m <= zlen bs -> n <= zlen tail ->
  exists tail', blit (got ++ tail) (zlen got) (take (Z.to_nat m) bs ++ (if m <? n then [0] else [])) =
    Ok ((got ++ take (Z.to_nat m) bs) ++ tail') /\ zlen tail' = zlen tail - m /\
    tail' = (if m <? n then [0] else []) ++ drop (Z.to_nat m + length (if m <? n then [0] else [])) tail.
Proof.
  intros Hm Hb Ht. assert (El : zlen (take (Z.to_nat m) bs) = m) by (apply zlen_take_le; lia).
  set (z := if m <? n then [0] else []). assert (Ez : zlen z <= n - m) by (unfold z; destruct (Z.ltb_spec m n); simpl; unfold zlen; simpl; lia).
  rewrite blit_rest; [|done|rewrite zlen_app; lia].
  exists (z ++ drop (length (take (Z.to_nat m) bs ++ z)) tail). split; [by rewrite <- !app_assoc|].
  split; [unfold zlen in *; rewrite !length_app, length_drop; lia|].
  f_equal. rewrite length_app. f_equal. f_equal. unfold zlen in El. lia.
Qed.

Lemma string_read_chunk rd src got tail bs rest n block : at_socket rd -> good_block block ->
  delivers rd.(inbox) bs rest -> bs <> [] -> 1 <= n < 2147483648 -> n < zlen tail ->
  exists m tail' rd', kws_string_read rd src (got ++ tail) (zlen got) (n + 1) block =
      Ok (m, (got ++ take (Z.to_nat m) bs) ++ tail', rd') /\
    1 <= m <= n /\ m <= zlen bs /\ zlen tail' = zlen tail - m /\ at_socket rd' /\
    delivers rd'.(inbox) (drop (Z.to_nat m) bs) rest /\ exists t, tail' = 0 :: t.
Proof.
  intros Hrd Hb Hd Hbs Hn Ht. unfold kws_string_read.
  destruct (Z.ltb_spec (n + 1) 1); [lia|]. destruct (Z.ltb_spec (n + 1) 2); [lia|].
  replace (zlen got + (n + 1) - 1) with (zlen got + n) by lia. rewrite st_behind by lia. cbn [mbind res_bind].
  set (t := take (Z.to_nat n) tail ++ 0 :: drop (S (Z.to_nat n)) tail).
  assert (Et : zlen t = zlen tail).
  { unfold t, zlen in *. rewrite length_app, length_take. cbn [length]. rewrite length_drop. lia. }
  replace (n + 1 - 1) with n by lia.
  destruct (raw_read_chunk rd (default (got ++ t) src) bs rest n block Hrd Hb Hd Hbs Hn) as (m & rd' & -> & Hm & Hml & Hrd' & Hd').
  cbn [mbind res_bind]. destruct (blit_chunk got t bs m n) as (tail' & -> & Ht' & Etl); [lia..|].
  exists m, tail', rd'. rewrite Ht', Et. repeat (split; [done|]). rewrite Etl. destruct (Z.ltb_spec m n); [by eexists|].
  replace m with n by lia. unfold t. rewrite Nat.add_0_r, drop_app_length' by (rewrite length_take; unfold zlen in *; lia). by eexists.
Qed.

(** [kws_string_read_blocking] takes exactly what is asked for. *)
Lemma blocking_loop_run rest max : forall fuel rd got tail bs total,
  at_socket rd -> delivers rd.(inbox) bs rest -> 0 <= total <= max -> max < 2147483648 -> max - total <= zlen bs ->
  max - total <= zlen tail -> (Z.to_nat (max - total) < fuel)%nat ->
  exists tail' rd', raw_read_blocking_loop fuel rd (got ++ tail) (zlen got - total) max 10 total 0 =
      Ok (max, (got ++ take (Z.to_nat (max - total)) bs) ++ tail', rd') /\
    zlen tail' = zlen tail - (max - total) /\ at_socket rd' /\ delivers rd'.(inbox) (drop (Z.to_nat (max - total)) bs) rest.
Proof.
  induction fuel as [|fuel IH]; intros rd got tail bs total Hrd Hd Ht Hmax Hbs Htl Hf; [lia|]. cbn [raw_read_blocking_loop].
  destruct (Z.ltb_spec total max) as [Hlt|]; cbn [andb Z.ltb Z.compare].
  2: { replace max with total by lia. rewrite Z.sub_diag. cbn [Z.to_nat take drop]. exists tail, rd.
       rewrite app_nil_r, Z.sub_0_r. done. }
  change (0 <? 10) with true. cbn [andb].
  destruct (raw_read_chunk rd (got ++ tail) bs rest (max - total) WS_BLOCK Hrd ltac:(right; unfold WS_BLOCK; lia) Hd
    ltac:(intros ->; change (zlen (@nil Z)) with 0 in *; lia) ltac:(lia)) as (m & rd' & -> & Hm & Hml & Hrd' & Hd').
  cbn [mbind res_bind]. assert (El : zlen (take (Z.to_nat m) bs) = m) by (apply zlen_take_le; lia).
  replace (zlen got - total + total) with (zlen got) by lia.
  destruct (blit_chunk got tail bs m (max - total)) as (tail1 & -> & E1 & _); [lia..|].
  cbn [mbind res_bind]. destruct (Z.eqb_spec m 0); [lia|]. destruct (Z.ltb_spec m 0); [lia|].
  replace (zlen got - total) with (zlen (got ++ take (Z.to_nat m) bs) - (total + m)) by (rewrite zlen_app; lia).
  destruct (IH rd' (got ++ take (Z.to_nat m) bs) tail1 (drop (Z.to_nat m) bs) (total + m)) as (tail' & rd'' & -> & Hl' & Hr' & Hd'');
    [done|done|lia|lia|rewrite zlen_drop_le by lia; lia|lia|lia|].
  exists tail', rd''. rewrite drop_drop in Hd''.
  replace (Z.to_nat (max - total)) with (Z.to_nat m + Z.to_nat (max - (total + m)))%nat by lia.
  rewrite <- take_take_drop, <- !app_assoc. split; [done|]. split; [lia|]. done.
Qed.

(** ** The format of frames *)

Record frame := Frame { f_fin : bool; f_oc : Z; f_key : option (list Z); f_data : list Z }.

Definition f_ext (f : frame) : list Z :=
  let n := zlen f.(f_data) in if n <? 126 then [] else if n <? 65536 then be 2 n else be 8 n.
Definition f_len7 (f : frame) : Z :=
  let n := zlen f.(f_data) in if n <? 126 then n else if n <? 65536 then 126 else 127.
Definition f_mask (f : frame) : Z := match f.(f_key) with Some _ => 128 | None => 0 end.
Definition f_head (f : frame) : list Z :=
  [(if f.(f_fin) then 128 else 0) + f.(f_oc); f_mask f + f_len7 f] ++ f_ext f ++ default [] f.(f_key).
Definition f_body (f : frame) : list Z :=
  match f.(f_key) with Some key => mask_with key f.(f_data) | None => f.(f_data) end.
Definition frame_bytes (f : frame) : list Z := f_head f ++ f_body f.

Definition wf_frame (f : frame) : Prop :=
  0 <= f.(f_oc) < 16 /\ zlen f.(f_data) < 2147483000 /\ (forall key, f.(f_key) = Some key -> length key = 4%nat).

Lemma mask_length key d : length (mask_with key d) = length d.
Proof. apply length_imap. Qed.

Lemma mask_involutive key d : mask_with key (mask_with key d) = d.
Proof.
  unfold mask_with. apply list_eq. intros i. rewrite !list_lookup_imap.
  destruct (d !! i); cbn; [|done]. by rewrite Z.lxor_assoc, Z.lxor_nilpotent, Z.lxor_0_r.
Qed.

Lemma f_len7_range f : 0 <= f_len7 f < 128.
Proof. unfold f_len7. pose proof (zlen_nonneg (f_data f)). zcase; lia. Qed.

Lemma mask_bit f : negb (Z.land (Z.shiftr (f_mask f + f_len7 f) 7) 1 =? 0) = bool_decide (is_Some (f_key f)).
Proof.
  pose proof (f_len7_range f). rewrite Z.shiftr_div_pow2 by lia. change (2 ^ 7) with 128. unfold f_mask.
  destruct (f_key f).
  - replace ((128 + f_len7 f) / 128) with 1 by lia_div. by rewrite bool_decide_eq_true_2.
  - replace ((0 + f_len7 f) / 128) with 0 by lia_div. rewrite bool_decide_eq_false_2; [done|by intros []].
Qed.

Lemma len_bits f : Z.land (f_mask f + f_len7 f) 127 = f_len7 f.
Proof.
  pose proof (f_len7_range f). change 127 with (Z.ones 7). rewrite Z.land_ones by lia. change (2 ^ 7) with 128.
  unfold f_mask. destruct (f_key f); lia_div.
Qed.

Lemma f_ext_len f : zlen (f_ext f) = if f_len7 f =? 127 then 8 else if f_len7 f =? 126 then 2 else 0.
Proof.
  pose proof (zlen_nonneg (f_data f)). unfold f_ext, f_len7.
  destruct (Z.ltb_spec (zlen (f_data f)) 126); [|destruct (Z.ltb_spec (zlen (f_data f)) 65536)].
  - destruct (Z.eqb_spec (zlen (f_data f)) 127); [lia|]. destruct (Z.eqb_spec (zlen (f_data f)) 126); [lia|done].
  - done.
  - done.
Qed.

Lemma f_ext_val f : wf_frame f ->
  (if f_len7 f =? 127 then s64 (from_be (f_ext f)) else if f_len7 f =? 126 then u16 (from_be (f_ext f)) else f_len7 f) =
  zlen (f_data f).
Proof.
  intros (_ & Hl & _). pose proof (zlen_nonneg (f_data f)). unfold f_ext, f_len7.
  destruct (Z.ltb_spec (zlen (f_data f)) 126); [|destruct (Z.ltb_spec (zlen (f_data f)) 65536)].
  - destruct (Z.eqb_spec (zlen (f_data f)) 127); [lia|]. destruct (Z.eqb_spec (zlen (f_data f)) 126); [lia|done].
  - cbn [Z.eqb Pos.eqb]. rewrite from_be_be by (change (256 ^ Z.of_nat 2) with 65536; lia). apply u16_id. lia.
  - cbn [Z.eqb Pos.eqb]. rewrite from_be_be, s64_id by (change (256 ^ Z.of_nat 8) with 18446744073709551616; lia). done.
Qed.

Lemma f_key_len f : wf_frame f -> zlen (default [] (f_key f)) = if bool_decide (is_Some (f_key f)) then 4 else 0.
Proof.
  intros (_ & _ & Hk). destruct (f_key f) as [key|]; [|done].
  cbn. unfold zlen. by rewrite (Hk key eq_refl).
Qed.

Lemma f_head_len f : wf_frame f ->
  zlen (f_head f) = 2 + zlen (f_ext f) + (if bool_decide (is_Some (f_key f)) then 4 else 0).
Proof. intros Hf. unfold f_head. rewrite !zlen_app, f_key_len by done. change (zlen [_; _]) with 2. lia. Qed.

(** A connection after steps that change the buffers and what was read only. *)
Definition upd (k : kws) (d : Z) (buf : list Z) (rd : reader) (bb : list Z) (bl : Z) : kws :=
  set_bbuflen bl (set_bbuffer bb (set_datalen d (set_rd rd (set_buffer buf k)))).

(** [buf] begins with the first [d] bytes of [F] and is as long as [kws->buffer]. *)
Definition holds (k : kws) (F : list Z) (d : Z) (buf : list Z) : Prop :=
  0 <= d <= zlen F /\ take (Z.to_nat d) buf = take (Z.to_nat d) F /\ zlen buf = zlen k.(buffer).

Lemma holds_split k F d buf : holds k F d buf -> buf = take (Z.to_nat d) F ++ drop (Z.to_nat d) buf.
Proof. intros (_ & <- & _). by rewrite take_drop. Qed.

Lemma holds_ld k F d buf i : holds k F d buf -> 0 <= i < d -> ld buf i = ld F i.
Proof.
  intros (Hd & Ht & Hl) Hi. unfold ld. destruct (Z.ltb_spec i 0); [lia|].
  rewrite <- (lookup_take_lt buf (Z.to_nat d)), Ht, lookup_take_lt by lia. done.
Qed.

Lemma holds_slice k F d buf off n : holds k F d buf -> d <= zlen buf -> 0 <= off -> 0 <= n -> off + n <= d -> slice buf off n = slice F off n.
Proof.
  intros (Hd & Ht & Hl) Hb Ho Hn Hi. unfold slice.
  destruct (Z.leb_spec 0 off); [|lia]. destruct (Z.leb_spec 0 n); [|lia].
  destruct (Z.leb_spec (off + n) (zlen buf)); [|lia]. destruct (Z.leb_spec (off + n) (zlen F)); [|lia]. cbn [andb].
  rewrite !take_drop_commute. f_equal. f_equal.
  assert (E : forall l : list Z, take (Z.to_nat off + Z.to_nat n) l = take (Z.to_nat off + Z.to_nat n) (take (Z.to_nat d) l))
    by (intros l; rewrite take_take; f_equal; lia).
  by rewrite E, Ht, <- E.
Qed.

Lemma holds_more k F d m buf tail : holds k F d buf -> 0 <= m -> d + m <= zlen F ->
  zlen tail = zlen (drop (Z.to_nat d) buf) - m ->
  holds k F (d + m) ((take (Z.to_nat d) F ++ take (Z.to_nat m) (drop (Z.to_nat d) F)) ++ tail).
Proof.
  intros (Hd & Ht & Hl) Hm Hdm Htl. rewrite take_take_drop, <- Z2Nat.inj_add by lia.
  assert (El : zlen (take (Z.to_nat (d + m)) F) = d + m) by (apply zlen_take_le; lia).
  split; [lia|]. split.
  - rewrite take_app_le by (unfold zlen in *; lia). apply take_ge. unfold zlen in *. lia.
  - rewrite zlen_app, El, Htl, <- Hl. assert (d <= zlen buf).
    { apply (f_equal length) in Ht. rewrite !length_take in Ht. unfold zlen in *. lia. }
    rewrite zlen_drop_le by lia. lia.
Qed.

Lemma holds_le k F d buf : holds k F d buf -> d <= zlen buf.
Proof. intros (Hd & Ht & _). apply (f_equal length) in Ht. rewrite !length_take in Ht. unfold zlen in *. lia. Qed.

Lemma fill_header_run k F rest d buf rd bb bl need : holds k F d buf -> at_socket rd ->
  delivers rd.(inbox) (drop (Z.to_nat d) F) rest -> need <= zlen F -> need <= d + 100 -> need + 1 < zlen k.(buffer) ->
  exists buf' rd', fill_header (upd k d buf rd bb bl) need = Ok (true, upd k (Z.max d need) buf' rd' bb bl) /\
    holds k F (Z.max d need) buf' /\ at_socket rd' /\ delivers rd'.(inbox) (drop (Z.to_nat (Z.max d need)) F) rest.
Proof.
  intros Hh Hrd Hdel Hn Hsmall Hroom. unfold fill_header. cbn. destruct (Z.ltb_spec d need) as [Hlt|]; cycle 1.
  { exists buf, rd. rewrite Z.max_l by lia. done. }
  pose proof (holds_split _ _ _ _ Hh) as Eb. pose proof Hh as (Hd & Ht & Hl).
  assert (Eg : zlen (take (Z.to_nat d) F) = d) by (apply zlen_take_le; lia).
  assert (Ed : zlen (drop (Z.to_nat d) buf) = zlen buf - d) by (apply zlen_drop_le; lia).
  assert (Ef : zlen (drop (Z.to_nat d) F) = zlen F - d) by (apply zlen_drop_le; lia).
  unfold kws_string_read_blocking. destruct (Z.ltb_spec (need - d + 1) 1); [lia|]. destruct (Z.ltb_spec (need - d + 1) 2); [lia|].
  set (t := take (Z.to_nat (need - d)) (drop (Z.to_nat d) buf) ++ 0 :: drop (S (Z.to_nat (need - d))) (drop (Z.to_nat d) buf)).
  assert (Et : zlen t = zlen buf - d).
  { unfold t, zlen in *. rewrite length_app, length_take. cbn [length]. rewrite !length_drop in *. lia. }
  assert (Est : st buf (d + (need - d + 1) - 1) 0 = Ok (take (Z.to_nat d) F ++ t)).
  { transitivity (st (take (Z.to_nat d) F ++ drop (Z.to_nat d) buf) (zlen (take (Z.to_nat d) F) + (need - d)) 0);
      [f_equal; [exact Eb|lia]|apply st_behind; lia]. }
  rewrite Est. cbn [mbind res_bind].
  unfold kws_raw_read_blocking. replace (need - d + 1 - 1) with (need - d) by lia.
  destruct (blocking_loop_run rest (need - d) (S (Z.to_nat ((need - d + 1) * (10 + 1)))) rd (take (Z.to_nat d) F) t
    (drop (Z.to_nat d) F) 0) as (tail' & rd' & E & Htl & Hrd' & Hdel'); [done|done|lia|lia|lia|lia|lia|].
  rewrite Eg, Z.sub_0_r in E. rewrite E. cbn [mbind res_bind]. rewrite Z.sub_0_r in *.
  destruct (Z.ltb_spec (need - d) 0); [lia|]. rewrite Z.max_r by lia.
  eexists. exists rd'. cbn. replace (d + (need - d)) with need by lia. rewrite Z.leb_refl. split; [reflexivity|].
  split; [|split; [done|]].
  - replace need with (d + (need - d)) at 1 by lia. apply (holds_more k F d (need - d) buf); [done|lia|lia|lia].
  - rewrite drop_drop, <- Z2Nat.inj_add in Hdel' by lia. by replace (d + (need - d)) with need in Hdel' by lia.
Qed.

(** A connection whose handshake is done and that was not closed. *)
Record ready (k : kws) : Prop := {
  ready_up : k.(down) = 0;
  ready_shaken : k.(handshake) = true;
  ready_sanity : k.(sanity) <> 0;
  ready_logical : k.(logical_established) = true;
  ready_block : good_block k.(block);
  ready_buffer : 64 <= zlen k.(buffer);
  ready_bbuffer : zlen k.(bbuffer) = k.(bbuflen) /\ k.(bbuflen) < 9223372036854775808;
  ready_rd : at_socket k.(rd)
}.

Lemma start_header_run k F rest : ready k -> delivers k.(rd).(inbox) F rest -> 2 <= zlen F ->
  exists d buf rd, start_header k = Ok (inr (set_datalen d (set_rd rd (set_buffer buf k)))) /\ 2 <= d <= 9 /\
    holds k F d buf /\ at_socket rd /\ delivers rd.(inbox) (drop (Z.to_nat d) F) rest.
Proof.
  intros [_ _ _ _ Hb Hl _ Hrd] Hdel HF. unfold start_header.
  assert (HFne : F <> []) by (intros ->; change (zlen (@nil Z)) with 0 in HF; lia).
  destruct (string_read_chunk k.(rd) None [] k.(buffer) F rest 9 k.(block) Hrd Hb Hdel HFne ltac:(lia) ltac:(lia))
    as (m & tail & rd1 & E1 & Hm & HmF & Ht1 & Hrd1 & Hdel1 & _).
  change (zlen (@nil Z)) with 0 in E1. cbn [app] in E1. rewrite E1. cbn [mbind res_bind].
  destruct (Z.ltb_spec m 0); [lia|].
  assert (Hh : holds k F m (take (Z.to_nat m) F ++ tail)).
  { apply (holds_more k F 0 m k.(buffer)); [split; [lia|done]|lia|lia|exact Ht1]. }
  destruct (Z.ltb_spec m 2) as [Hlt|]; cycle 1.
  { exists m, (take (Z.to_nat m) F ++ tail), rd1. split; [done|]. split; [lia|]. done. }
  assert (m = 1) as -> by lia.
  assert (E2 : zlen (take (Z.to_nat 1) F) = 1) by (apply zlen_take_le; lia).
  destruct (string_read_chunk rd1 None (take (Z.to_nat 1) F) tail (drop (Z.to_nat 1) F) rest 7 WS_BLOCK Hrd1
    ltac:(right; unfold WS_BLOCK; lia) Hdel1) as (m2 & tail2 & rd2 & E3 & Hm2 & Hm2F & Ht2 & Hrd2 & Hdel2 & _);
    [intros E; apply (f_equal zlen) in E; rewrite zlen_drop_le in E by lia; change (zlen (@nil Z)) with 0 in E; lia|lia|lia|].
  rewrite E2 in E3. change (9 - 1) with (7 + 1). cbn [rd set_rd set_buffer set_datalen buffer]. rewrite E3. cbn [mbind res_bind].
  rewrite zlen_drop_le in Hm2F by lia. destruct (Z.ltb_spec m2 0); [lia|]. cbn [datalen set_datalen].
  destruct (Z.ltb_spec (1 + m2) 2); [lia|].
  eexists (1 + m2), _, rd2. split; [reflexivity|]. split; [lia|]. split; [|split; [done|]].
  - apply (holds_more k F 1 m2 _ _ Hh); [lia|lia|].
    rewrite zlen_drop_le by (rewrite zlen_app; lia). rewrite zlen_app. lia.
  - rewrite drop_drop, <- Z2Nat.inj_add in Hdel2 by lia. done.
Qed.

Lemma frame_ld0 f : ld (frame_bytes f) 0 = Ok ((if f_fin f then 128 else 0) + f_oc f).
Proof. done. Qed.

Lemma frame_ld1 f : ld (frame_bytes f) 1 = Ok (f_mask f + f_len7 f).
Proof. done. Qed.

Lemma frame_ext f : slice (frame_bytes f) 2 (zlen (f_ext f)) = Ok (f_ext f).
Proof.
  unfold frame_bytes, f_head. rewrite <- !app_assoc.
  change 2 with (zlen [(if f_fin f then 128 else 0) + f_oc f; f_mask f + f_len7 f]). by apply slice_app.
Qed.

Lemma frame_key f key : f_key f = Some key -> wf_frame f -> slice (frame_bytes f) (2 + zlen (f_ext f)) 4 = Ok key.
Proof.
  intros E (_ & _ & Hk). unfold frame_bytes, f_head. rewrite E. cbn [default from_option]. rewrite <- !app_assoc.
  rewrite (app_assoc _ (f_ext f)). apply slice_app; [by rewrite zlen_app|]. unfold zlen. by rewrite (Hk key E).
Qed.

Lemma body_len f : zlen (f_body f) = zlen (f_data f).
Proof. unfold f_body, zlen. destruct (f_key f); [by rewrite mask_length|done]. Qed.

Lemma read_header_run k f rest d buf rd bb bl : wf_frame f -> 64 <= zlen k.(buffer) -> 2 <= d <= 9 ->
  holds k (frame_bytes f) d buf -> at_socket rd -> delivers rd.(inbox) (drop (Z.to_nat d) (frame_bytes f)) rest ->
  let d' := Z.max d (zlen (f_head f)) in
  exists buf' rd', read_header (upd k d buf rd bb bl) =
      Ok (upd k d' buf' rd' bb bl, Some (zlen (f_data f), zlen (f_head f), f_key f)) /\
    holds k (frame_bytes f) d' buf' /\ at_socket rd' /\
    delivers rd'.(inbox) (drop (Z.to_nat d') (frame_bytes f)) rest.
Proof.
  intros Hf Hl Hd Hh Hrd Hdel d'. pose proof (f_head_len f Hf) as Eh. pose proof (f_ext_len f) as Ee.
  assert (HF : zlen (f_head f) <= zlen (frame_bytes f)) by (unfold frame_bytes; rewrite zlen_app; pose proof (zlen_nonneg (f_body f)); lia).
  pose proof (zlen_nonneg (f_ext f)). set (m := if bool_decide (is_Some (f_key f)) then 4 else 0) in *.
  assert (Hm : 0 <= m <= 4) by (unfold m; destruct (bool_decide _); lia).
  assert (He : zlen (f_ext f) <= 8) by (rewrite Ee; zcase; lia).
  unfold read_header. cbn [buffer upd set_bbuflen set_bbuffer set_datalen set_rd set_buffer].
  rewrite (holds_ld _ _ _ _ 1 Hh), frame_ld1 by lia. cbn [mbind res_bind]. rewrite mask_bit, len_bits, <- Ee. fold m.
  destruct (fill_header_run k (frame_bytes f) rest d buf rd bb bl (2 + m) Hh Hrd Hdel) as (buf1 & rd1 & E1 & Hh1 & Hrd1 & Hdel1); [lia..|].
  change (set_bbuflen bl (set_bbuffer bb (set_datalen d (set_rd rd (set_buffer buf k))))) with (upd k d buf rd bb bl).
  rewrite E1. cbn [mbind res_bind negb].
  assert (E2 : exists buf2 rd2, (if zlen (f_ext f) =? 0 then Ok (true, upd k (Z.max d (2 + m)) buf1 rd1 bb bl)
      else fill_header (upd k (Z.max d (2 + m)) buf1 rd1 bb bl) (2 + m + zlen (f_ext f))) = Ok (true, upd k d' buf2 rd2 bb bl) /\
    holds k (frame_bytes f) d' buf2 /\ at_socket rd2 /\ delivers rd2.(inbox) (drop (Z.to_nat d') (frame_bytes f)) rest).
  { replace d' with (Z.max (Z.max d (2 + m)) (2 + m + zlen (f_ext f))) by lia.
    destruct (Z.eqb_spec (zlen (f_ext f)) 0) as [E0|]; [|apply fill_header_run; done || lia].
    exists buf1, rd1. rewrite (Z.max_l (Z.max d (2 + m))) by lia. done. }
  destruct E2 as (buf2 & rd2 & -> & Hh2 & Hrd2 & Hdel2). cbn [mbind res_bind negb].
  cbn [buffer upd set_bbuflen set_bbuffer set_datalen set_rd set_buffer].
  pose proof (holds_le _ _ _ _ Hh2).
  rewrite (holds_slice _ _ _ _ 2 (zlen (f_ext f)) Hh2), frame_ext by lia. cbn [mbind res_bind]. rewrite f_ext_val by done.
  exists buf2, rd2. split; [|done]. replace (2 + m + zlen (f_ext f)) with (zlen (f_head f)) by lia.
  destruct (f_key f) as [key|] eqn:Ek; [|done]. cbn [bool_decide]. change (bool_decide (is_Some (Some key))) with true. cbv iota.
  assert (m = 4) as Em by done. rewrite (holds_slice _ _ _ _ (2 + zlen (f_ext f)) 4 Hh2) by lia.
  rewrite (frame_key f key) by done. done.
Qed.

(** ** Payloads *)

(** A resized block keeps its bytes. *)
Definition resizes (pool_resize : list Z -> Z -> option (list Z)) : Prop :=
  forall b n, zlen b <= n < 8589934592 -> exists t, pool_resize b n = Some (b ++ t) /\ zlen (b ++ t) = n.

Lemma delivers_pending rd bs rest : delivers rd.(inbox) bs rest -> (length bs <= pending_bytes rd)%nat.
Proof.
  intros (cs & E & <- & _). unfold pending_bytes. rewrite E, map_app, concat_app, !length_app, map_map. cbn.
  rewrite map_id. lia.
Qed.

(** Read the fields of a connection after steps. *)
Ltac upd_fields := cbn [Kws.rd Kws.buffer Kws.bbuffer Kws.bbuflen Kws.datalen Kws.payload_size_max Kws.down Kws.handshake
  upd set_bbuflen set_bbuffer set_datalen set_rd set_buffer].

Section Payload.
Context (pool_resize : list Z -> Z -> option (list Z)) (Hresize : resizes pool_resize).

Lemma payload_loop_run k buf bl rest : forall fuel d rd got tail bs,
  at_socket rd -> delivers rd.(inbox) bs rest -> zlen bs < zlen tail -> zlen bs < 2147483648 -> (length bs < fuel)%nat ->
  exists rd' tail', payload_loop fuel (upd k d buf rd (got ++ tail) bl) (zlen got) (zlen bs) =
      Ok (upd k (d + zlen bs) buf rd' ((got ++ bs) ++ tail') bl, true) /\
    zlen tail' = zlen tail - zlen bs /\ at_socket rd' /\ delivers rd'.(inbox) [] rest.
Proof.
  induction fuel as [|fuel IH]; intros d rd got tail bs Hrd Hdel Ht Hs Hf; [lia|]. cbn [payload_loop].
  destruct (Z.eqb_spec (zlen bs) 0) as [E0|Hne].
  { apply zlen_zero in E0 as ->. exists rd, tail. change (zlen (@nil Z)) with 0. rewrite Z.add_0_r, Z.sub_0_r, app_nil_r. done. }
  pose proof (zlen_nonneg bs).
  destruct (string_read_chunk rd (Some buf) got tail bs rest (zlen bs) WS_BLOCK Hrd ltac:(right; unfold WS_BLOCK; lia) Hdel)
    as (m & tail1 & rd1 & E1 & Hm & _ & Ht1 & Hrd1 & Hdel1 & _); [by intros ->|lia|lia|].
  upd_fields. rewrite E1. cbn [mbind res_bind].
  destruct (Z.ltb_spec m 1); [lia|].
  assert (Em : zlen (take (Z.to_nat m) bs) = m) by (apply zlen_take_le; lia).
  assert (Ed : zlen (drop (Z.to_nat m) bs) = zlen bs - m) by (apply zlen_drop_le; lia).
  destruct (IH (d + m) rd1 (got ++ take (Z.to_nat m) bs) tail1 (drop (Z.to_nat m) bs)) as (rd2 & tail2 & E2 & Ht2 & Hrd2 & Hdel2);
    [done|done|lia|lia|rewrite length_drop; unfold zlen in *; lia|].
  rewrite zlen_app, Em, Ed in E2. exists rd2, tail2.
  replace ((got ++ take (Z.to_nat m) bs) ++ drop (Z.to_nat m) bs) with (got ++ bs) in E2 by (by rewrite <- app_assoc, take_drop).
  split; [|split; [lia|done]]. rewrite <- Z.add_assoc, Zplus_minus in E2. exact E2.
Qed.

Lemma grow_body_run k d buf rd got tail bl plen : zlen (got ++ tail) = bl -> bl < 9223372036854775808 ->
  zlen got < 2147483648 -> 0 <= plen < 2147483648 ->
  k.(payload_size_max) = 0 \/ zlen got + plen < k.(payload_size_max) ->
  exists tail2 bl2, grow_body pool_resize (upd k d buf rd (got ++ tail) bl) (zlen got) plen =
      Ok (upd k d buf rd (got ++ tail2) bl2, true) /\
    zlen (got ++ tail2) = bl2 /\ bl2 < 9223372036854775808 /\ plen < zlen tail2.
Proof.
  intros Hbl Hb63 Hg Hp Hmax. pose proof (zlen_nonneg got). pose proof (zlen_nonneg tail). rewrite zlen_app in Hbl.
  unfold grow_body. rewrite s32_id by lia. unfold in_s64.
  destruct (Z.leb_spec (-9223372036854775808) (zlen got + plen)); [|lia].
  destruct (Z.leb_spec (zlen got + plen) 9223372036854775807); [|lia].
  cbn [andb mbind res_bind bbuflen upd set_bbuflen]. rewrite s64_id by lia.
  destruct (Z.leb_spec bl (zlen got + plen)); cycle 1.
  { exists tail, bl. rewrite zlen_app. split; [done|]. lia. }
  rewrite u64_id by lia.
  upd_fields.
  assert (E : negb (payload_size_max k =? 0) && (payload_size_max k <? zlen got + plen + 1) = false).
  { destruct Hmax as [->|]; [done|]. apply andb_false_r || (destruct (Z.ltb_spec (payload_size_max k) (zlen got + plen + 1)); [lia|apply andb_false_r]). }
  rewrite E. destruct (Hresize (got ++ tail) (zlen got + plen + 1)) as (t & -> & Et); [rewrite zlen_app; lia|].
  exists (tail ++ t), (zlen got + plen + 1). rewrite app_assoc. split; [done|]. split; [done|]. split; [lia|].
  rewrite !zlen_app in *. lia.
Qed.

Lemma f_unmask f : match f_key f with Some key => mask_with key (f_body f) | None => f_body f end = f_data f.
Proof. unfold f_body. destruct (f_key f); [apply mask_involutive|done]. Qed.

Lemma frame_len f : zlen (frame_bytes f) = zlen (f_head f) + zlen (f_data f).
Proof. unfold frame_bytes. by rewrite zlen_app, body_len. Qed.

(** What came with the header. *)
Lemma early_payload k f d buf rd got tail bl : holds k (frame_bytes f) d buf -> zlen (f_head f) <= d ->
  zlen (got ++ tail) = bl -> zlen (f_data f) < zlen tail ->
  exists tail3, (if negb (d - zlen (f_head f) =? 0) then
      _ ← ks_assert (zlen got + (d - zlen (f_head f)) <=? bl);
      p ← slice buf (zlen (f_head f)) (d - zlen (f_head f));
      bb ← blit (got ++ tail) (zlen got) p;
      Ok (set_bbuffer bb (upd k d buf rd (got ++ tail) bl))
    else Ok (upd k d buf rd (got ++ tail) bl)) =
    Ok (upd k d buf rd ((got ++ take (Z.to_nat (d - zlen (f_head f))) (f_body f)) ++ tail3) bl) /\
    zlen tail3 = zlen tail - (d - zlen (f_head f)).
Proof.
  intros Hh Hd Hbl Ht. pose proof (holds_le _ _ _ _ Hh) as Hle. pose proof Hh as (Hdf & _). rewrite frame_len in Hdf.
  pose proof (body_len f) as Eb. pose proof (zlen_nonneg (f_head f)). pose proof (zlen_nonneg tail). rewrite zlen_app in Hbl.
  set (hl := zlen (f_head f)) in *. destruct (Z.eqb_spec (d - hl) 0) as [E0|Hne]; cbn [negb].
  { rewrite E0. exists tail. cbn [Z.to_nat take]. rewrite app_nil_r, Z.sub_0_r. done. }
  unfold ks_assert. destruct (Z.leb_spec (zlen got + (d - hl)) bl); [|lia]. cbn [mbind res_bind].
  rewrite (holds_slice _ _ _ _ hl (d - hl) Hh) by lia.
  assert (Es : slice (frame_bytes f) hl (d - hl) = Ok (take (Z.to_nat (d - hl)) (f_body f))).
  { unfold frame_bytes. rewrite <- (take_drop (Z.to_nat (d - hl)) (f_body f)) at 1. apply slice_app; [done|].
    rewrite zlen_take_le; lia. }
  rewrite Es. cbn [mbind res_bind]. rewrite blit_rest; [|done|rewrite zlen_take_le by lia; lia]. cbn [mbind res_bind].
  eexists. split; [reflexivity|]. unfold zlen in *. rewrite length_drop, length_take. lia.
Qed.

Lemma read_payload_run k f rest d buf rd got tail bl : wf_frame f -> holds k (frame_bytes f) d buf -> zlen (f_head f) <= d ->
  at_socket rd -> delivers rd.(inbox) (drop (Z.to_nat d) (frame_bytes f)) rest ->
  zlen (got ++ tail) = bl -> bl < 9223372036854775808 -> zlen got < 2147483648 ->
  k.(payload_size_max) = 0 \/ zlen got + zlen (f_data f) < k.(payload_size_max) ->
  exists rd' tail' bl', read_payload pool_resize (upd k d buf rd (got ++ tail) bl) (f_oc f) (zlen got) (zlen (f_data f))
      (zlen (f_head f)) (f_key f) = Ok (upd k (zlen (frame_bytes f)) buf rd' ((got ++ f_data f) ++ tail') bl', true) /\
    zlen ((got ++ f_data f) ++ tail') = bl' /\ bl' < 9223372036854775808 /\ at_socket rd' /\ delivers rd'.(inbox) [] rest /\
    (f_oc f = WSOC_TEXT -> exists t, tail' = 0 :: t).
Proof.
  intros Hf Hh Hd Hrd Hdel Hbl Hb63 Hgot Hmax. pose proof Hh as (Hdf & _). rewrite frame_len in Hdf.
  pose proof (proj1 (proj2 Hf)) as Hlen. pose proof (body_len f) as Eb. pose proof (zlen_nonneg (f_head f)).
  pose proof (zlen_nonneg (f_data f)). set (hl := zlen (f_head f)) in *. set (plen := zlen (f_data f)) in *.
  unfold read_payload. upd_fields. unfold in_s64.
  destruct (Z.leb_spec (-9223372036854775808) (plen - (d - hl))); [|lia].
  destruct (Z.leb_spec (plen - (d - hl)) 9223372036854775807); [|lia]. cbn [andb mbind res_bind].
  destruct (Z.ltb_spec (plen - (d - hl)) 0); [lia|].
  destruct (grow_body_run k d buf rd got tail bl plen Hbl Hb63 Hgot ltac:(lia) Hmax) as (tail2 & bl2 & E2 & Hbl2 & Hb263 & Ht2).
  change (set_bbuflen bl (set_bbuffer (got ++ tail) (set_datalen d (set_rd rd (set_buffer buf k))))) with
    (upd k d buf rd (got ++ tail) bl). rewrite E2. cbn [mbind res_bind negb].
  replace (plen - (plen - (d - hl))) with (d - hl) by lia. upd_fields.
  change (set_bbuflen bl2 (set_bbuffer (got ++ tail2) (set_datalen d (set_rd rd (set_buffer buf k))))) with
    (upd k d buf rd (got ++ tail2) bl2).
  destruct (early_payload k f d buf rd got tail2 bl2 Hh Hd Hbl2 Ht2) as (tail3 & E3 & Ht3). fold hl in E3, Ht3. rewrite E3.
  cbn [mbind res_bind]. unfold ks_assert. upd_fields.
  rewrite zlen_app in Hbl2. destruct (Z.leb_spec (zlen got + plen) bl2); [|lia]. cbn [mbind res_bind].
  assert (Edrop : drop (Z.to_nat d) (frame_bytes f) = drop (Z.to_nat (d - hl)) (f_body f)).
  { unfold frame_bytes. rewrite drop_app_ge by (unfold zlen in *; lia). f_equal. unfold zlen in *. lia. }
  rewrite Edrop in Hdel. set (early := take (Z.to_nat (d - hl)) (f_body f)) in *. set (late := drop (Z.to_nat (d - hl)) (f_body f)) in *.
  assert (El : zlen early = d - hl) by (apply zlen_take_le; lia).
  assert (Ela : zlen late = plen - (d - hl)) by (unfold late; rewrite zlen_drop_le; lia).
  destruct (payload_loop_run k buf bl2 rest (S (S (pending_bytes rd))) d rd (got ++ early) tail3 late) as (rd4 & tail4 & E4 & Ht4 & Hrd4 & Hdel4);
    [done|done|lia|lia|pose proof (delivers_pending _ _ _ Hdel); lia|].
  rewrite zlen_app, El, Ela in E4.
  change (set_bbuflen bl2 (set_bbuffer ((got ++ early) ++ tail3) (set_datalen d (set_rd rd (set_buffer buf k))))) with
    (upd k d buf rd ((got ++ early) ++ tail3) bl2). rewrite E4. cbn [mbind res_bind negb]. upd_fields.
  replace ((got ++ early) ++ late) with (got ++ f_body f) by (by rewrite <- app_assoc; unfold early, late; rewrite take_drop).
  assert (E5 : (match f_key f with
     | Some key => p ← slice ((got ++ f_body f) ++ tail4) (zlen got) plen;
         bb ← blit ((got ++ f_body f) ++ tail4) (zlen got) (mask_with key p);
         Ok (upd k (d + (plen - (d - hl))) buf rd4 bb bl2)
     | None => Ok (upd k (d + (plen - (d - hl))) buf rd4 ((got ++ f_body f) ++ tail4) bl2) end) =
    Ok (upd k (zlen (frame_bytes f)) buf rd4 ((got ++ f_data f) ++ tail4) bl2)).
  { rewrite frame_len. fold hl. fold plen. replace (d + (plen - (d - hl))) with (hl + plen) by lia.
    pose proof (f_unmask f) as Eu. destruct (f_key f) as [key|]; [|by rewrite Eu].
    rewrite <- app_assoc, (slice_app got (f_body f) tail4) by done. cbn [mbind res_bind]. rewrite Eu.
    rewrite (blit_app got (f_body f) tail4) by (done || lia). cbn [mbind res_bind]. by rewrite <- app_assoc. }
  assert (E5' := f_equal (fun r => r ≫= (fun k0 : kws =>
    (if f_oc f =? WSOC_TEXT then bb ← st (Kws.bbuffer k0) (zlen got + plen) 0; Ok (set_bbuffer bb k0) else Ok k0)
      ≫= fun k1 : kws => Ok (k1, true))) E5). cbn beta in E5'.
  assert (Eg : zlen (got ++ f_data f) = zlen got + plen) by apply zlen_app.
  assert (Ebl : zlen ((got ++ f_data f) ++ tail4) = bl2) by (rewrite zlen_app, Eg; lia).
  destruct (Z.eqb_spec (f_oc f) WSOC_TEXT) as [Et|Hnt]; cycle 1.
  { exists rd4, tail4, bl2. split; [exact E5'|]. done. }
  assert (E7 : (bb ← st ((got ++ f_data f) ++ tail4) (zlen got + plen) 0;
      Ok (set_bbuffer bb (upd k (zlen (frame_bytes f)) buf rd4 ((got ++ f_data f) ++ tail4) bl2))) =
    Ok (upd k (zlen (frame_bytes f)) buf rd4 ((got ++ f_data f) ++ 0 :: drop 1 tail4) bl2)).
  { rewrite <- Eg, st_rest by (done || lia). done. }
  exists rd4, (0 :: drop 1 tail4), bl2.
  split; [etransitivity; [exact E5'|exact (f_equal (fun r => r ≫= fun k1 : kws => Ok (k1, true)) E7)]|].
  assert (Et4 : zlen (0 :: drop 1 tail4) = zlen tail4) by (unfold zlen in *; cbn; rewrite length_drop; lia).
  split; [rewrite zlen_app, Et4, <- zlen_app; done|]. split; [done|]. split; [done|]. split; [done|]. eauto.
Qed.


(** ** Messages *)

Definition known_oc (oc : Z) : Prop :=
  oc = WSOC_CONTINUATION \/ oc = WSOC_TEXT \/ oc = WSOC_BINARY \/ oc = WSOC_PING \/ oc = WSOC_PONG.

(** Whether the code expects more frames after [f]. *)
Definition frag_after (frag : bool) (f : frame) : bool :=
  if negb (f_fin f) && negb (f_oc f =? WSOC_CONTINUATION) then true
  else if f_fin f && (f_oc f =? WSOC_CONTINUATION) then false else frag.

Fixpoint one_unit (frag : bool) (fs : list frame) : bool :=
  match fs with
  | [] => false
  | f :: fs => if frag_after frag f then one_unit true fs else bool_decide (fs = [])
  end.

Fixpoint delivers_frames (ev : list recv_event) (fs : list frame) (rest : list recv_event) : Prop :=
  match fs with
  | [] => ev = rest
  | f :: fs => exists mid, delivers ev (frame_bytes f) mid /\ delivers_frames mid fs rest
  end.

Definition message_data (fs : list frame) : list Z := concat (map f_data fs).
Definition last_oc (oc : Z) (fs : list frame) : Z := foldl (fun _ f => f_oc f) oc fs.

Lemma delivers_nil ev rest : delivers ev [] rest -> ev = rest.
Proof. intros ([|c cs] & -> & Hc & Hne); [done|]. apply Forall_cons in Hne as [Hne _]. by destruct c. Qed.

Lemma fin_bit f : wf_frame f -> negb (Z.land (Z.shiftr ((if f_fin f then 128 else 0) + f_oc f) 7) 1 =? 0) = f_fin f.
Proof.
  intros (Ho & _). rewrite Z.shiftr_div_pow2 by lia. change (2 ^ 7) with 128.
  destruct (f_fin f); [replace ((128 + f_oc f) / 128) with 1 by lia_div|replace ((0 + f_oc f) / 128) with 0 by lia_div]; done.
Qed.

Lemma oc_bits f : wf_frame f -> Z.land ((if f_fin f then 128 else 0) + f_oc f) 15 = f_oc f.
Proof.
  intros (Ho & _). change 15 with (Z.ones 4). rewrite Z.land_ones by lia. change (2 ^ 4) with 16. destruct (f_fin f); lia_div.
Qed.

Lemma head_at_least f : wf_frame f -> 2 <= zlen (f_head f).
Proof. intros Hf. rewrite f_head_len by done. pose proof (zlen_nonneg (f_ext f)). destruct (bool_decide _); lia. Qed.

(** One frame, as the first part of [read_frames] has it. *)
Lemma one_frame_run f k got tail rest : ready k -> wf_frame f -> k.(Kws.bbuffer) = got ++ tail ->
  delivers k.(Kws.rd).(inbox) (frame_bytes f) rest -> zlen got < 2147483648 ->
  k.(payload_size_max) = 0 \/ zlen got + zlen (f_data f) < k.(payload_size_max) ->
  exists k1 k2 k3 tail', start_header k = Ok (inr k1) /\ ld k1.(Kws.buffer) 0 = Ok ((if f_fin f then 128 else 0) + f_oc f) /\
    read_header k1 = Ok (k2, Some (zlen (f_data f), zlen (f_head f), f_key f)) /\
    read_payload pool_resize k2 (f_oc f) (zlen got) (zlen (f_data f)) (zlen (f_head f)) (f_key f) = Ok (k3, true) /\
    ready k3 /\ k3.(Kws.bbuffer) = (got ++ f_data f) ++ tail' /\ k3.(Kws.rd).(inbox) = rest /\
    k3.(payload_size_max) = k.(payload_size_max) /\ (f_oc f = WSOC_TEXT -> exists t, tail' = 0 :: t).
Proof.
  intros Hk Hf Ebb Hdel Hgot Hmax. pose proof (head_at_least f Hf). pose proof (frame_len f). pose proof (zlen_nonneg (f_data f)).
  destruct (start_header_run k (frame_bytes f) rest Hk Hdel ltac:(lia)) as (d & buf & rd1 & E1 & Hd & Hh1 & Hrd1 & Hdel1).
  pose proof (ready_buffer k Hk) as Hbl. pose proof (ready_bbuffer k Hk) as [Hbb Hb63].
  destruct (read_header_run k f rest d buf rd1 k.(Kws.bbuffer) k.(Kws.bbuflen) Hf Hbl Hd Hh1 Hrd1 Hdel1)
    as (buf2 & rd2 & E2 & Hh2 & Hrd2 & Hdel2).
  rewrite Ebb in Hbb.
  destruct (read_payload_run k f rest _ buf2 rd2 got tail k.(Kws.bbuflen) Hf Hh2 ltac:(lia) Hrd2 Hdel2 Hbb Hb63 Hgot Hmax)
    as (rd3 & tail3 & bl3 & E3 & Hbl3 & Hb363 & Hrd3 & Hdel3 & Htext).
  rewrite <- Ebb in E3. eexists _, _, _, tail3. split; [exact E1|].
  split; [upd_fields; rewrite (holds_ld _ _ _ _ 0 Hh1) by lia; apply frame_ld0|].
  split; [exact E2|]. split; [exact E3|]. destruct Hk as [? ? ? ? ? ? ? ?].
  split; [split; upd_fields; try done; destruct Hh2 as (_ & _ & Hlb); rewrite Hlb; done|].
  split; [done|]. split; [by apply delivers_nil|]. split; done.
Qed.

Lemma establish_ready sha k : ready k -> establish_logical_layer sha k = Ok (0, k).
Proof.
  intros [_ _ Hs Hl _ _ _ _]. unfold establish_logical_layer. destruct (Z.eqb_spec (sanity k) 0); [done|]. by rewrite Hl.
Qed.

Lemma known_not_close oc : known_oc oc -> (oc =? WSOC_CLOSE) = false /\
  (oc =? WSOC_CONTINUATION) || (oc =? WSOC_TEXT) || (oc =? WSOC_BINARY) || (oc =? WSOC_PING) || (oc =? WSOC_PONG) = true.
Proof. unfold known_oc. intros [H|[H|[H|[H|H]]]]; by rewrite H. Qed.

Lemma read_frames_run sha rest fs : forall fuel k oc frag got tail pl, ready k -> k.(Kws.bbuffer) = got ++ tail ->
  delivers_frames k.(Kws.rd).(inbox) fs rest -> one_unit frag fs = true -> Forall wf_frame fs ->
  Forall (fun f => known_oc (f_oc f)) fs -> zlen got + zlen (message_data fs) < 2147483648 ->
  k.(payload_size_max) = 0 \/ zlen got + zlen (message_data fs) < k.(payload_size_max) -> (length fs <= fuel)%nat ->
  exists k' tail', read_frames pool_resize sha fuel k oc frag (zlen got) pl =
      Ok (pl + zlen (message_data fs), last_oc oc fs, DataBody, k') /\ ready k' /\
    k'.(Kws.bbuffer) = (got ++ message_data fs) ++ tail' /\ k'.(Kws.rd).(inbox) = rest /\
    (last_oc oc fs = WSOC_TEXT -> exists t, tail' = 0 :: t).
Proof.
  induction fs as [|f fs IH]; intros [|fuel] k oc frag got tail pl Hk Ebb Hdel Hu Hwf Hoc Hsz Hmax Hf; simpl in Hf; try done; try lia.
  destruct Hdel as (mid & Hd1 & Hd2). apply Forall_cons in Hwf as [Hf1 Hwf]. apply Forall_cons in Hoc as [Ho1 Hoc].
  change (message_data (f :: fs)) with (f_data f ++ message_data fs) in *. rewrite zlen_app in *.
  pose proof (zlen_nonneg (message_data fs)). pose proof (zlen_nonneg (f_data f)).
  destruct (one_frame_run f k got tail mid Hk Hf1 Ebb Hd1) as (k1 & k2 & k3 & tail3 & E1 & E2 & E3 & E4 & Hk3 & Ebb3 & Ein & Epm & Htext);
    [lia|lia|].
  cbn [read_frames]. rewrite establish_ready by done. cbn [mbind res_bind]. change (0 <? 0) with false. cbv iota.
  rewrite (ready_up k Hk), (ready_shaken k Hk). cbn [Z.eqb negb]. rewrite E1. cbn [mbind res_bind]. rewrite E2. cbn [mbind res_bind].
  rewrite oc_bits, fin_bit by done. destruct (known_not_close _ Ho1) as [-> ->]. cbv iota. rewrite E3. cbn [mbind res_bind].
  rewrite E4. cbn [mbind res_bind negb]. fold (frag_after frag f). cbn [one_unit] in Hu.
  destruct (frag_after frag f).
  - replace (zlen got + zlen (f_data f)) with (zlen (got ++ f_data f)) by apply zlen_app. rewrite <- Ein in Hd2.
    destruct (IH fuel k3 (f_oc f) true (got ++ f_data f) tail3 (pl + zlen (f_data f))) as (k' & tail' & E5 & Hk' & Eb' & Er' & Ht');
      [done|done|done|done|done|done|rewrite zlen_app; lia|rewrite zlen_app, Epm; lia|lia|].
    exists k', tail'. rewrite E5. rewrite Z.add_assoc, (app_assoc got). done.
  - apply bool_decide_eq_true_1 in Hu as ->. cbn in Hd2. subst mid. exists k3, tail3.
    unfold message_data. cbn [map concat last_oc foldl]. rewrite app_nil_r. change (zlen (@nil Z)) with 0. rewrite Z.add_0_r. done.
Qed.

Lemma delivers_frames_pending fs rest : forall ev, Forall wf_frame fs -> delivers_frames ev fs rest ->
  (length fs <= length (concat (map (fun e => match e with Recv bs => bs | _ => [] end) ev)))%nat.
Proof.
  induction fs as [|f fs IH]; intros ev Hwf Hd; cbn; [lia|]. destruct Hd as (mid & (cs & -> & Hc & _) & Hd).
  apply Forall_cons in Hwf as [Hf Hwf]. specialize (IH mid Hwf Hd).
  rewrite map_app, concat_app, length_app, map_map. cbn. rewrite map_id, Hc.
  pose proof (head_at_least f Hf). pose proof (frame_len f). pose proof (zlen_nonneg (f_data f)). unfold zlen in *. lia.
Qed.
End Payload.

(** ** Writing *)

(** The socket takes at least a byte at a time, all in fewer than 200 calls. *)
Definition takes_all (w : writer) : Prop :=
  exists ns, w.(outbox) = map Sent ns /\ Forall (fun n => 1 <= n) ns /\ (length ns < WS_WRITE_SANITY)%nat.

Lemma send_loop_run bytes data ns : forall sanity w wrote, w.(outbox) = map Sent ns -> Forall (fun n => 1 <= n) ns ->
  (length ns < sanity)%nat -> 0 <= wrote < bytes -> bytes <= zlen data -> bytes < 2147479552 ->
  exists ev, send_loop sanity w data wrote bytes =
    (bytes, MkWriter ev (w.(sent) ++ drop (Z.to_nat wrote) (take (Z.to_nat bytes) data)) w.(nonces)) /\
    exists ns', ev = map Sent ns' /\ Forall (fun n => 1 <= n) ns' /\ (length ns' <= length ns)%nat.
Proof.
  induction ns as [|n ns IH]; intros [|sanity] w wrote Hout Hns Hlen Hw Hb Hmax; simpl in Hlen; try lia;
    cbn [send_loop]; rewrite Hout; cbn [map send]; rewrite s32_id, u64_id by lia;
    rewrite (Z.min_l (bytes - wrote) MAX_RW) by (unfold MAX_RW; lia).
  - destruct (Z.ltb_spec 0 (bytes - wrote)); [|lia]. destruct (Z.leb_spec 0 (bytes - wrote)); [|lia].
    destruct (Z.eqb_spec (bytes - wrote) (-1)); [lia|]. cbn [andb]. replace (wrote + (bytes - wrote)) with bytes by lia.
    rewrite Z.ltb_irrefl. rewrite take_drop_commute, <- Z2Nat.inj_add by lia. replace (wrote + (bytes - wrote)) with bytes by lia.
    exists []. split; [destruct sanity; done|]. exists []. split; [done|]. split; [constructor|lia].
  - apply Forall_cons in Hns as [Hn Hns]. set (m := Z.min n (bytes - wrote)). assert (1 <= m <= bytes - wrote) by lia.
    destruct (Z.ltb_spec 0 m); [|lia]. destruct (Z.leb_spec 0 m); [|lia]. destruct (Z.eqb_spec m (-1)); [lia|]. cbn [andb].
    assert (Ed : take (Z.to_nat m) (drop (Z.to_nat wrote) data) ++ drop (Z.to_nat (wrote + m)) (take (Z.to_nat bytes) data) =
      drop (Z.to_nat wrote) (take (Z.to_nat bytes) data)).
    { rewrite Z2Nat.inj_add, <- drop_drop by lia.
      etransitivity; [|apply (take_drop (Z.to_nat m) (drop (Z.to_nat wrote) (take (Z.to_nat bytes) data)))].
      f_equal. rewrite !take_drop_commute, take_take. do 2 f_equal. lia. }
    destruct (Z.ltb_spec (wrote + m) bytes).
    + destruct sanity as [|sanity]; [lia|].
      destruct (IH (S sanity) (MkWriter (map Sent ns) (sent w ++ take (Z.to_nat m) (drop (Z.to_nat wrote) data)) (nonces w)) (wrote + m))
        as (ev & E & ns' & Hev & Hns' & Hl'); [done|done|lia|lia|lia|lia|].
      exists ev. rewrite E. cbn [sent nonces]. rewrite <- app_assoc, Ed. split; [done|]. exists ns'. split; [done|]. split; [done|simpl in *; lia].
    + assert (wrote + m = bytes) as Em by lia. rewrite Em in *. exists (map Sent ns).
      rewrite (drop_ge (take (Z.to_nat bytes) data) (Z.to_nat bytes)) in Ed by (rewrite length_take; lia). rewrite app_nil_r in Ed. rewrite Ed.
      split; [destruct sanity; done|]. exists ns. split; [done|]. split; [done|simpl in *; lia].
Qed.

Lemma raw_write_run w data bytes : takes_all w -> 0 < bytes <= zlen data -> bytes < 2147479552 ->
  exists w', kws_raw_write w data bytes = (bytes, w') /\ w'.(sent) = w.(sent) ++ take (Z.to_nat bytes) data /\ takes_all w'.
Proof.
  intros (ns & Ho & Hns & Hl) Hb Hm. unfold kws_raw_write.
  destruct (send_loop_run bytes data ns WS_WRITE_SANITY w 0 Ho Hns Hl ltac:(lia) ltac:(lia) Hm) as (ev & -> & ns' & -> & Hns' & Hl').
  eexists. split; [done|]. split; [done|]. exists ns'. split; [done|]. split; [done|simpl in *; lia].
Qed.

Section WriteFrame.
Context (pool_alloc : Z -> option (list Z)) (pool_resize : list Z -> Z -> option (list Z)).
Hypothesis (Halloc : forall n, 0 <= n < 8589934592 -> exists b, pool_alloc n = Some b /\ zlen b = n) (Hresize : resizes pool_resize).

(** A connection that may write. *)
Record writable (k : kws) : Prop := {
  writable_up : k.(down) = 0;
  writable_buffer : k.(write_buffer_len) = match k.(write_buffer) with Some b => zlen b | None => 0 end;
  writable_socket : takes_all k.(wr)
}.

Lemma grow_write_buffer_run k need : writable k -> 0 < need < 8589934592 ->
  exists k' bp, grow_write_buffer pool_alloc pool_resize k need = Ok k' /\ k'.(write_buffer) = Some bp /\ need <= zlen bp /\
    k'.(write_buffer_len) = zlen bp /\ k'.(wr) = k.(wr) /\ k'.(down) = 0.
Proof.
  intros [Hup Hw _] Hn. unfold grow_write_buffer. destruct (Z.ltb_spec (write_buffer_len k) need).
  - cbn [write_buffer set_write_buffer_len]. destruct (write_buffer k) as [b|].
    + destruct (Hresize b need) as (t & -> & Et); [lia|]. eexists _, (b ++ t). split; [reflexivity|]. split; [done|].
      split; [lia|]. done.
    + destruct (Halloc need) as (b & Eb & Ebl); [lia|]. eexists _, b. split; [reflexivity|]. cbn. split; [done|].
      split; [lia|]. done.
  - destruct (write_buffer k) as [b|] eqn:E; [|lia]. exists k, b. split; [done|]. split; [done|]. split; [lia|]. done.
Qed.

Lemma oc_byte oc : 0 <= oc < 16 -> u8 (Z.lor oc 128) = 128 + oc.
Proof.
  intros H. assert (E : forallb (fun oc => u8 (Z.lor (Z.of_nat oc) 128) =? 128 + Z.of_nat oc) (seq 0 16) = true) by reflexivity.
  rewrite forallb_forall in E. specialize (E (Z.to_nat oc) ltac:(apply in_seq; lia)). rewrite Z2Nat.id in E by lia. lia.
Qed.

Lemma len_byte n : 0 <= n < 128 -> Z.lor n 128 = 128 + n.
Proof.
  intros H. assert (E : forallb (fun n => Z.lor (Z.of_nat n) 128 =? 128 + Z.of_nat n) (seq 0 128) = true) by reflexivity.
  rewrite forallb_forall in E. specialize (E (Z.to_nat n) ltac:(apply in_seq; lia)). rewrite Z2Nat.id in E by lia. lia.
Qed.

(** The frame [kws_write_frame] sends. *)
Definition frame_of (k : kws) (oc : Z) (data : list Z) : frame :=
  Frame true oc (if flag_set k KWS_FLAG_DONTMASK then None else Some (gen_nonce k.(wr) 4).1) data.

Lemma frame_header_eq oc data key : 0 <= oc < 16 ->
  frame_header oc (zlen data) = 128 + oc :: f_len7 (Frame true oc key data) :: f_ext (Frame true oc key data).
Proof.
  intros Ho. unfold frame_header. rewrite oc_byte by done. unfold f_len7, f_ext. cbn [f_data]. pose proof (zlen_nonneg data).
  destruct (Z.ltb_spec (zlen data) 126); [by rewrite u8_id by lia|]. by destruct (zlen data <? 65536).
Qed.

Lemma nonce_length w : length (gen_nonce w 4).1 = 4%nat.
Proof. cbn [gen_nonce fst]. rewrite length_map, length_take, length_app, length_replicate. lia. Qed.

Lemma frame_of_wf k oc data : 0 <= oc < 16 -> zlen data < 2147483000 -> wf_frame (frame_of k oc data).
Proof.
  intros Ho Hl. split; [done|]. split; [done|]. cbn. destruct (flag_set k KWS_FLAG_DONTMASK); [done|].
  intros key [= <-]. apply nonce_length.
Qed.

Lemma res_bind_assoc2 {A B C D} (m : res A) (n : A -> res B) (o : A -> B -> res C) (h : C -> res D) :
  (m ≫= fun a => n a ≫= fun b => o a b ≫= h) = ((m ≫= fun a => n a ≫= fun b => o a b) ≫= h).
Proof. destruct m as [a|]; [|done]. cbn. by destruct (n a). Qed.

Lemma take_zapp (l t : list Z) : take (Z.to_nat (zlen l)) (l ++ t) = l.
Proof. unfold zlen. rewrite Nat2Z.id. by apply take_app_length. Qed.

(** The bytes put together in [write_buffer]. *)
Lemma assemble_run k oc data bp : 0 <= oc < 16 ->
  let mask := negb (flag_set k KWS_FLAG_DONTMASK) in
  let hdr := frame_header oc (zlen data) in
  zlen hdr + zlen data + 1 + (if mask then 4 else 0) <= zlen bp ->
  exists t w, (bp ← blit bp 0 hdr;
    payload ← slice data 0 (zlen data);
    (if mask then
       let '(key, w) := gen_nonce k.(wr) 4 in
       b1 ← ld bp 1;
       bp ← st bp 1 (Z.lor b1 128);
       bp ← blit bp (zlen hdr) key;
       bp ← blit bp (zlen hdr + 4) (mask_with key payload);
       Ok (bp, zlen hdr + 4, w)
     else bp ← blit bp (zlen hdr) payload; Ok (bp, zlen hdr, k.(wr)))) =
    Ok (frame_bytes (frame_of k oc data) ++ t, zlen (f_head (frame_of k oc data)), w) /\
    zlen (frame_bytes (frame_of k oc data) ++ t) = zlen bp /\ w.(sent) = k.(wr).(sent) /\ w.(outbox) = k.(wr).(outbox).
Proof.
  intros Ho mask hdr Hroom. pose proof (zlen_nonneg data). pose proof (zlen_nonneg hdr).
  assert (Hr : zlen hdr + zlen data + 1 <= zlen bp) by (destruct mask; lia).
  assert (E1 : blit bp 0 hdr = Ok (hdr ++ drop (length hdr) bp)) by (apply (blit_rest [] bp hdr); [done|lia]).
  rewrite E1. cbn [mbind res_bind]. set (t1 := drop (length hdr) bp).
  assert (Et1 : zlen t1 = zlen bp - zlen hdr) by (unfold t1, zlen in *; rewrite length_drop; lia).
  assert (E2 : slice data 0 (zlen data) = Ok data).
  { rewrite <- (app_nil_r data) at 1. by apply (slice_app [] data []). }
  rewrite E2. cbn [mbind res_bind].
  assert (Eh : forall key, hdr = [128 + oc; f_len7 (Frame true oc key data)] ++ f_ext (Frame true oc key data))
    by (intros key; apply frame_header_eq; done).
  unfold frame_bytes, frame_of, mask in *. destruct (flag_set k KWS_FLAG_DONTMASK); cbn [negb] in *.
  - rewrite blit_rest by (done || lia). cbn [mbind res_bind].
    exists (drop (length data) t1), (wr k). unfold f_head, f_body, f_mask. cbn [f_fin f_oc f_key f_data default].
    rewrite app_nil_r, Z.add_0_l, <- (Eh None). split; [done|]. split; [|done].
    unfold zlen in *. rewrite !length_app, length_drop. lia.
  - pose proof (nonce_length (wr k)) as Hk4. destruct (gen_nonce (wr k) 4) as [key w] eqn:Ek. cbn [fst] in *.
    assert (Ew : sent w = sent (wr k) /\ outbox w = outbox (wr k)) by (unfold gen_nonce in Ek; injection Ek as <- <-; done).
    set (f := Frame true oc (Some key) data). rewrite (Eh (Some key)). fold f. cbn [app].
    change (ld (128 + oc :: f_len7 f :: f_ext f ++ t1) 1) with (@Ok Z (f_len7 f)). cbn [mbind res_bind].
    rewrite len_byte by apply f_len7_range.
    assert (Est : st (128 + oc :: f_len7 f :: f_ext f ++ t1) 1 (128 + f_len7 f) = Ok (128 + oc :: 128 + f_len7 f :: f_ext f ++ t1))
      by (apply (st_app_mid [128 + oc] (f_ext f ++ t1) (f_len7 f) (128 + f_len7 f) 1); done).
    rewrite Est. cbn [mbind res_bind].
    assert (Ez : zlen hdr = zlen (128 + oc :: 128 + f_len7 f :: f_ext f)) by (rewrite (Eh (Some key)); fold f; done).
    change (zlen (128 + oc :: f_len7 f :: f_ext f)) with (zlen (128 + oc :: 128 + f_len7 f :: f_ext f)). rewrite <- Ez.
    assert (Hk : zlen key = 4) by (unfold zlen; by rewrite Hk4).
    change (128 + oc :: 128 + f_len7 f :: f_ext f ++ t1) with ((128 + oc :: 128 + f_len7 f :: f_ext f) ++ t1).
    rewrite blit_rest by (done || lia). cbn [mbind res_bind].
    set (hd := (128 + oc :: 128 + f_len7 f :: f_ext f) ++ key).
    assert (Ehd : f_head f = hd) by done.
    assert (Ehl : zlen hd = zlen hdr + 4) by (unfold hd; rewrite zlen_app; lia).
    rewrite <- Ehl. rewrite blit_rest; [|done|].
    2: { unfold zlen in *. rewrite length_drop, mask_length. lia. }
    cbn [mbind res_bind]. exists (drop (length (mask_with key data)) (drop (length key) t1)), w. rewrite Ehd.
    split; [done|]. split; [|done]. cbn [f_body f_key f f_data].
    unfold zlen in *. rewrite !length_app, !length_drop, !mask_length. lia.
Qed.

Lemma write_frame_run k oc data : writable k -> 0 <= oc < 16 -> zlen data < 2147479000 ->
  exists k', kws_write_frame pool_alloc pool_resize k oc data (zlen data) = Ok (zlen data, k') /\
    k'.(wr).(sent) = k.(wr).(sent) ++ frame_bytes (frame_of k oc data) /\ writable k'.
Proof.
  intros Hk Ho Hlen. unfold kws_write_frame. rewrite (writable_up k Hk). cbn [Z.eqb negb].
  pose proof (zlen_nonneg data).
  assert (Hh : 2 <= zlen (frame_header oc (zlen data)) <= 10).
  { rewrite (frame_header_eq oc data None Ho), !zlen_cons. pose proof (f_ext_len (Frame true oc None data)) as E. rewrite E. zcase; lia. }
  set (need := zlen (frame_header oc (zlen data)) + zlen data + 1 + (if negb (flag_set k KWS_FLAG_DONTMASK) then 4 else 0)).
  assert (Hn : 0 < need < 8589934592) by (unfold need; destruct (flag_set k KWS_FLAG_DONTMASK); cbn [negb]; lia).
  destruct (grow_write_buffer_run k need Hk Hn) as (k1 & bp & -> & Ebp & Hbp & Ewl & Ewr & Edn). cbn [mbind res_bind].
  rewrite Ebp, Ewr. destruct (assemble_run k oc data bp Ho Hbp) as (t & w & E & Et & Es & Eo).
  set (fb := frame_bytes (frame_of k oc data)) in *.
  assert (Efb : zlen fb = zlen (f_head (frame_of k oc data)) + zlen data) by apply frame_len.
  pose proof (head_at_least _ (frame_of_wf k oc data Ho ltac:(lia))).
  assert (Hf14 : zlen (f_head (frame_of k oc data)) <= 14).
  { rewrite f_head_len by (apply frame_of_wf; lia). pose proof (f_ext_len (frame_of k oc data)) as E1. rewrite E1.
    destruct (bool_decide _); zcase; lia. }
  assert (Hw : takes_all w) by (destruct (writable_socket k Hk) as (ns & ? & ?); exists ns; by rewrite Eo).
  destruct (raw_write_run w (fb ++ t) (zlen fb) Hw ltac:(rewrite zlen_app; pose proof (zlen_nonneg t); lia) ltac:(lia))
    as (w' & Erw & Esent & Hw').
  exists (set_wr w' (set_write_buffer (Some (fb ++ t)) k1)). split; [|split; [cbn; by rewrite Esent, Es, take_zapp|]].
  - rewrite res_bind_assoc2, E. cbn [mbind res_bind]. rewrite <- Efb, Erw.
    destruct (Z.leb_spec (zlen fb) 0); [lia|]. by rewrite Z.eqb_refl.
  - split; [done| |done]. cbn. by rewrite Ewl.
Qed.
End WriteFrame.

Lemma kws_read_frame_run pool_resize sha k fs rest : resizes pool_resize -> ready k ->
  delivers_frames k.(rd).(inbox) fs rest -> one_unit false fs = true -> Forall wf_frame fs ->
  Forall (fun f => known_oc (f_oc f)) fs -> zlen (message_data fs) < 2147483648 ->
  k.(payload_size_max) = 0 \/ zlen (message_data fs) < k.(payload_size_max) ->
  exists k' tail, kws_read_frame pool_resize sha k = Ok (zlen (message_data fs), last_oc WSOC_INVALID fs, DataBody, k') /\
    ready k' /\ k'.(bbuffer) = message_data fs ++ tail /\ k'.(rd).(inbox) = rest /\
    (last_oc WSOC_INVALID fs = WSOC_TEXT -> exists t, tail = 0 :: t).
Proof.
  intros Hres Hk Hd Hu Hwf Hoc Hl Hm. pose proof (delivers_frames_pending fs rest _ Hwf Hd).
  apply (read_frames_run pool_resize Hres sha rest fs (S (S (pending_bytes k.(rd)))) k WSOC_INVALID false [] k.(bbuffer) 0);
    [done|done|done|done|done|done|change (zlen (@nil Z)) with 0; lia|change (zlen (@nil Z)) with 0; lia|unfold pending_bytes; lia].
Qed.

(** ** Safety: any input *)

(** The bytes still to be read. *)
Definition inbox_bytes (ev : list recv_event) : Z := zlen (concat (map (fun e => match e with Recv bs => bs | _ => [] end) ev)).
Definition avail (rd : reader) : Z := inbox_bytes rd.(inbox) + rd.(unprocessed_buffer_len).

(** What the handshake left behind is inside a buffer of [n] bytes. *)
Definition safe_rd (n : Z) (rd : reader) : Prop :=
  0 <= rd.(unprocessed_buffer_len) /\
  (0 < rd.(unprocessed_buffer_len) ->
    0 <= rd.(unprocessed_position) /\ rd.(unprocessed_position) + rd.(unprocessed_buffer_len) <= n).

Lemma inbox_nonneg ev : 0 <= inbox_bytes ev.
Proof. apply zlen_nonneg. Qed.

Lemma inbox_cons e ev : inbox_bytes (e :: ev) = match e with Recv bs => zlen bs | _ => 0 end + inbox_bytes ev.
Proof. unfold inbox_bytes. cbn. rewrite zlen_app. by destruct e. Qed.

Lemma recv_safe ev n : 0 < n < 9223372036854775808 -> exists r blocking bs ev',
  recv ev (u64 (s32 n)) = (r, blocking, bs, ev') /\ zlen bs <= n /\ -1 <= r <= n /\
  (r = -1 -> bs = [] /\ (length ev' < length ev)%nat) /\ (0 <= r -> r = zlen bs) /\
  inbox_bytes ev' = inbox_bytes ev - zlen bs.
Proof.
  intros Hn. assert (Hm : 0 <= Z.min (u64 (s32 n)) MAX_RW <= n).
  { unfold MAX_RW, u64, s32. lia_div. }
  destruct ev as [|[bs| |] ev]; cbn [recv].
  - exists 0, false, [], []. change (zlen (@nil Z)) with 0. repeat split; try lia; done.
  - set (m := Z.min (u64 (s32 n)) MAX_RW) in *. pose proof (zlen_nonneg bs). rewrite inbox_cons.
    destruct (Z.leb_spec (zlen bs) m).
    + exists (zlen bs), false, bs, ev. repeat split; lia || done.
    + exists m, false, (take (Z.to_nat m) bs), (Recv (drop (Z.to_nat m) bs) :: ev). rewrite zlen_take_le by lia.
      repeat split; try lia. rewrite inbox_cons, zlen_drop_le by lia. lia.
  - exists (-1), true, [], ev. change (zlen (@nil Z)) with 0. rewrite inbox_cons. repeat split; try lia; cbn; lia.
  - exists (-1), false, [], ev. change (zlen (@nil Z)) with 0. rewrite inbox_cons. repeat split; try lia; cbn; lia.
Qed.

Lemma recv_loop_safe n block block_n : 0 < n < 9223372036854775808 -> forall fuel ev x, (length ev < fuel)%nat ->
  exists r bs ev' x', recv_loop fuel ev x n block block_n = Ok (r, bs, ev', x') /\ zlen bs <= n /\ -2 <= r <= n /\
    (0 <= r -> r = zlen bs) /\ inbox_bytes ev' <= inbox_bytes ev - zlen bs.
Proof.
  intros Hn. induction fuel as [|fuel IH]; intros ev x Hf; [lia|]. cbn [recv_loop].
  destruct (recv_safe ev n Hn) as (r & blocking & bs & ev' & -> & Hbs & Hr & Hfail & Hok & Hin).
  pose proof (zlen_nonneg bs).
  destruct ((r =? -1) && (block =? 0) && blocking) eqn:E1.
  { apply andb_prop in E1 as [[E1 _]%andb_prop _]. apply Z.eqb_eq in E1. destruct (Hfail E1) as [-> _].
    exists (-2), [], ev', x. change (zlen (@nil Z)) with 0 in *. repeat split; lia. }
  set (x' := if (r =? -1) && negb (block =? 0) then x + 1 else x).
  destruct ((r =? -1) && blocking && (x' <? block_n)) eqn:E2.
  - apply andb_prop in E2 as [[E2 _]%andb_prop _]. apply Z.eqb_eq in E2. destruct (Hfail E2) as [-> Hlen].
    change (zlen (@nil Z)) with 0 in *.
    destruct (IH ev' x' ltac:(lia)) as (r2 & bs2 & ev2 & x2 & -> & ? & ? & ? & ?).
    exists r2, bs2, ev2, x2. repeat split; lia || done.
  - exists r, bs, ev', x'. repeat split; lia || done.
Qed.

Lemma slice_ok {A} (m : list A) off n : 0 <= off -> 0 <= n -> off + n <= zlen m -> exists d, slice m off n = Ok d /\ zlen d = n.
Proof.
  intros Ho Hn Hl. unfold slice. destruct (Z.leb_spec 0 off); [|lia]. destruct (Z.leb_spec 0 n); [|lia].
  destruct (Z.leb_spec (off + n) (zlen m)); [|lia]. eexists. split; [done|].
  apply zlen_take_le. rewrite zlen_drop_le by lia. lia.
Qed.

Lemma raw_read_safe rd buf n block : safe_rd (zlen buf) rd -> 0 < n < 9223372036854775808 ->
  exists r d rd', kws_raw_read rd buf n block = Ok (r, d, rd') /\ -2 <= r <= n /\ zlen d <= n /\ safe_rd (zlen buf) rd' /\
    avail rd' <= avail rd - Z.max 0 r /\ 0 <= avail rd'.
Proof.
  intros [Hu Hpos] Hn. unfold kws_raw_read, avail. pose proof (inbox_nonneg (inbox rd)).
  destruct (Z.ltb_spec 0 (unprocessed_buffer_len rd)) as [Hlt|].
  - specialize (Hpos Hlt). destruct (Z.ltb_spec n (unprocessed_buffer_len rd)).
    + destruct (slice_ok buf (unprocessed_position rd) n) as (d & -> & Hd); [lia..|].
      exists n, d, (MkReader (x rd) (unprocessed_buffer_len rd - n) (unprocessed_position rd + n) (inbox rd)).
      split; [done|]. unfold safe_rd. cbn. repeat split; lia.
    + destruct (slice_ok buf (unprocessed_position rd) (unprocessed_buffer_len rd)) as (d & -> & Hd); [lia..|].
      exists (unprocessed_buffer_len rd), d, (MkReader (x rd) 0 0 (inbox rd)).
      split; [done|]. unfold safe_rd. cbn. repeat split; lia.
  - destruct (recv_loop_safe n block (block ÷ 10) Hn (S (length (inbox rd))) (inbox rd) (x rd + 1) ltac:(lia))
      as (r & bs & ev & x' & -> & Hbs & Hr & Hok & Hin). cbn [mbind res_bind]. pose proof (zlen_nonneg bs). pose proof (inbox_nonneg ev).
    set (r' := if (10000 <=? x') || (negb (block =? 0) && (block ÷ 10 <=? x')) then -1 else r).
    assert (Hr' : r' = -1 \/ r' = r) by (unfold r'; destruct (_ || _); auto).
    eexists r', _, _. split; [reflexivity|]. cbn. unfold safe_rd. cbn.
    split; [lia|]. split.
    { rewrite zlen_app. destruct (Z.ltb_spec 0 r'), (Z.ltb_spec r' n); change (zlen [0]) with 1; change (zlen (@nil Z)) with 0; cbn [andb];
        change (zlen [0]) with 1; change (zlen (@nil Z)) with 0; lia. }
    split; [split; lia|]. lia.
Qed.

Lemma st_ok {A} (m : list A) i v : 0 <= i < zlen m -> exists m', st m i v = Ok m' /\ zlen m' = zlen m.
Proof.
  intros Hi. exists (take (Z.to_nat i) m ++ v :: drop (S (Z.to_nat i)) m). split.
  - exact (st_behind [] m i v Hi).
  - unfold zlen in *. rewrite length_app, length_take. simpl. rewrite length_drop. lia.
Qed.

Lemma blit_in {A} (m bs : list A) off : 0 <= off -> off + zlen bs <= zlen m -> exists m', blit m off bs = Ok m' /\ zlen m' = zlen m.
Proof.
  intros Ho Hl. rewrite <- (take_drop (Z.to_nat off) m).
  assert (E1 : zlen (take (Z.to_nat off) m) = off) by (apply zlen_take_le; pose proof (zlen_nonneg bs); lia).
  assert (E2 : zlen (drop (Z.to_nat off) m) = zlen m - off) by (apply zlen_drop_le; pose proof (zlen_nonneg bs); lia).
  rewrite blit_rest by (done || lia). eexists. split; [done|].
  rewrite !zlen_app, E1, E2. unfold zlen in *. rewrite length_drop. lia.
Qed.

Lemma string_read_safe rd src dst off size block : safe_rd (zlen (default dst src)) rd -> 1 < size < 9223372036854775808 ->
  0 <= off -> off + size <= zlen dst ->
  exists r dst' rd', kws_string_read rd src dst off size block = Ok (r, dst', rd') /\ -2 <= r < size /\ zlen dst' = zlen dst /\
    safe_rd (zlen (default dst src)) rd' /\ avail rd' <= avail rd - Z.max 0 r /\ 0 <= avail rd'.
Proof.
  intros Hrd Hs Ho Hl. unfold kws_string_read. destruct (Z.ltb_spec size 1); [lia|]. destruct (Z.ltb_spec size 2); [lia|].
  destruct (st_ok dst (off + size - 1) 0) as (dst1 & -> & Hd1); [lia|]. cbn [mbind res_bind].
  assert (Hrd1 : safe_rd (zlen (default dst1 src)) rd) by (destruct src; cbn in *; [done|by rewrite Hd1]).
  destruct (raw_read_safe rd (default dst1 src) (size - 1) block Hrd1 ltac:(lia)) as (r & d & rd' & -> & Hr & Hd & Hrd' & Ha & Ha0).
  cbn [mbind res_bind]. destruct (blit_in dst1 d off) as (dst2 & -> & Hd2); [lia|lia|]. cbn [mbind res_bind].
  exists r, dst2, rd'. split; [done|]. split; [lia|]. split; [lia|]. split; [|lia]. destruct src; cbn in *; [done|by rewrite <- Hd1].
Qed.

(** Split a conjunction, not the definitions in it. *)
Ltac parts := repeat match goal with |- _ /\ _ => split end; try lia; try done.

Lemma blocking_loop_safe off max : 0 <= off -> max < 9223372036854775808 -> forall fuel rd buf total zero,
  safe_rd (zlen buf) rd -> off + max <= zlen buf -> 0 <= total <= max -> 0 <= zero <= 10 ->
  (max - total) * 11 + 10 - zero < Z.of_nat fuel ->
  exists t buf' rd', raw_read_blocking_loop fuel rd buf off max 10 total zero = Ok (t, buf', rd') /\ total <= t <= max /\
    zlen buf' = zlen buf /\ safe_rd (zlen buf) rd' /\ avail rd' <= avail rd - (t - total).
Proof.
  intros Ho Hm. induction fuel as [|fuel IH]; intros rd buf total zero Hrd Hl Ht Hz Hf; [lia|]. cbn [raw_read_blocking_loop].
  destruct ((total <? max) && (zero <? 10)) eqn:E; [apply andb_prop in E as [Et%Z.ltb_lt Ez%Z.ltb_lt]|exists total, buf, rd; parts].
  destruct (raw_read_safe rd buf (max - total) WS_BLOCK Hrd ltac:(lia)) as (r & d & rd1 & -> & Hr & Hd & Hrd1 & Ha & _).
  cbn [mbind res_bind]. destruct (blit_in buf d (off + total)) as (buf1 & -> & Hb1); [lia|lia|]. cbn [mbind res_bind].
  destruct (Z.eqb_spec r 0); [|destruct (Z.ltb_spec r 0)].
  - destruct (IH rd1 buf1 total (zero + 1)) as (t & buf2 & rd2 & -> & ? & ? & ? & ?); [by rewrite Hb1|lia..|].
    exists t, buf2, rd2. rewrite Hb1 in *. parts.
  - exists total, buf1, rd1. parts.
  - destruct (IH rd1 buf1 (total + r) 0) as (t & buf2 & rd2 & -> & ? & ? & ? & ?); [by rewrite Hb1|lia..|].
    exists t, buf2, rd2. rewrite Hb1 in *. parts.
Qed.

(** A connection after header bytes were read. *)
Definition upd_head (k : kws) (d : Z) (buf : list Z) (rd : reader) : kws := set_datalen d (set_rd rd (set_buffer buf k)).

Definition head_safe (k : kws) (buf : list Z) (rd : reader) : Prop :=
  zlen buf = zlen k.(buffer) /\ safe_rd (zlen k.(buffer)) rd.

Lemma upd_head_id k : upd_head k k.(datalen) k.(buffer) k.(rd) = k.
Proof. by destruct k. Qed.

Lemma fill_header_safe k need : safe_rd (zlen k.(buffer)) k.(rd) -> 0 <= k.(datalen) -> need < 60 -> 64 <= zlen k.(buffer) ->
  exists b d buf rd, fill_header k need = Ok (b, upd_head k d buf rd) /\ head_safe k buf rd /\
    k.(datalen) <= d <= Z.max k.(datalen) need /\ (b = true -> need <= d) /\ avail rd + d <= avail k.(Kws.rd) + k.(datalen).
Proof.
  intros Hrd Hd Hn Hl. unfold fill_header. destruct (Z.ltb_spec (datalen k) need); cycle 1.
  { exists true, (datalen k), (buffer k), (rd k). rewrite upd_head_id. parts. }
  unfold kws_string_read_blocking. destruct (Z.ltb_spec (need - datalen k + 1) 1); [lia|].
  destruct (st_ok (buffer k) (datalen k + (need - datalen k + 1) - 1) 0) as (buf1 & -> & Hb1); [lia|]. cbn [mbind res_bind].
  destruct (Z.ltb_spec (need - datalen k + 1) 2); [lia|]. unfold kws_raw_read_blocking. rewrite Z.add_simpl_r.
  destruct (blocking_loop_safe (datalen k) (need - datalen k) Hd ltac:(lia) (S (Z.to_nat ((need - datalen k + 1) * (10 + 1))))
    (rd k) buf1 0 0) as (t & buf2 & rd2 & -> & ? & ? & ? & ?); [by rewrite Hb1|lia..|].
  cbn [mbind res_bind]. destruct (Z.ltb_spec t 0); [lia|].
  exists (need <=? datalen k + t), (datalen k + t), buf2, rd2. split; [done|]. rewrite Hb1 in *.
  split; [by split; [lia|]|]. split; [lia|]. split; [apply Z.leb_le|lia].
Qed.

(** A connection that can be read: established, up, and its buffers as long as it says. *)
Record live (k : kws) : Prop := {
  live_up : k.(down) = 0;
  live_shaken : k.(handshake) = true;
  live_sanity : k.(sanity) <> 0;
  live_logical : k.(logical_established) = true;
  live_buffer : 64 <= zlen k.(buffer);
  live_bbuffer : zlen k.(bbuffer) = k.(bbuflen) /\ k.(bbuflen) < 9223372036854775808;
  live_rd : safe_rd (zlen k.(buffer)) k.(rd)
}.

Lemma live_head k d buf rd : live k -> head_safe k buf rd -> live (upd_head k d buf rd).
Proof. intros [? ? ? ? ? ? ?] [E ?]. split; try done; cbn; by rewrite E. Qed.

(** Up and readable, or closed. *)
Definition live_or_closed (k : kws) : Prop := live k \/ k.(down) <> 0.

Lemma closed k reason : k.(down) = 0 -> (kws_close k reason).2.(down) <> 0.
Proof.
  intros H. unfold kws_close. rewrite H. cbn [Z.eqb negb].
  set (k1 := set_uri None (set_down 1 k)). destruct (handshake k1 && sock k1); [|done]. destruct (close_frame k1 reason) as [fr w]. done.
Qed.

Lemma close_result k reason : k.(down) = 0 -> exists k', kws_close k reason = (reason * -1, k') /\ k'.(down) <> 0.
Proof.
  intros H. pose proof (closed k reason H) as Hc. destruct (kws_close k reason) as [r k'] eqn:E. exists k'. split; [|done].
  unfold kws_close in E. rewrite H in E. by injection E as <- _.
Qed.

(** The close in the goal, of a connection that is up by [H]. *)
Ltac closes H := match goal with |- context [kws_close ?k ?reason] =>
  let k' := fresh "k" in let Hd := fresh "Hdown" in destruct (close_result k reason H) as (k' & -> & Hd) end.

Lemma start_header_safe k : live k -> exists h, start_header k = Ok h /\
  match h with
  | inl (r, k') => r <= 0 /\ live_or_closed k'
  | inr k' => exists d buf rd, k' = upd_head k d buf rd /\ head_safe k buf rd /\ 2 <= d <= 9 /\ avail rd + d <= avail k.(Kws.rd)
  end.
Proof.
  intros Hk. pose proof (live_up k Hk) as Hup. pose proof (live_buffer k Hk). unfold start_header.
  destruct (string_read_safe k.(rd) None k.(buffer) 0 10 k.(block)) as (r & buf & rd1 & E & Hr & Hb & Hrd1 & Ha & Ha0);
    [apply live_rd, Hk|lia|lia|lia|]. cbn [default from_option] in *. change (9 + 1) with 10. rewrite E. cbn [mbind res_bind].
  destruct (Z.ltb_spec r 0).
  { destruct (Z.eqb_spec r (-2)); eexists; (split; [reflexivity|]); [|closes Hup; split; [done|by right]].
    split; [done|]. left. by apply (live_head k r buf rd1). }
  destruct (Z.ltb_spec r 2); cycle 1.
  { eexists. split; [reflexivity|]. exists r, buf, rd1. parts. }
  cbn [Kws.rd Kws.buffer set_datalen set_rd set_buffer].
  destruct (string_read_safe rd1 None buf r (9 - r) WS_BLOCK) as (b & buf2 & rd2 & E2 & Hr2 & Hb2 & Hrd2 & Ha2 & Ha02);
    [cbn; by rewrite Hb|lia|lia|lia|]. rewrite E2. cbn [mbind res_bind default from_option] in *. rewrite Hb in Hrd2.
  destruct (Z.ltb_spec b 0).
  { eexists. split; [reflexivity|]. closes Hup. split; [done|by right]. }
  cbn [datalen set_datalen]. destruct (Z.ltb_spec (r + b) 2); eexists; (split; [reflexivity|]).
  - closes Hup. split; [done|by right].
  - exists (r + b), buf2, rd2. parts. split; [lia|done].
Qed.

Lemma s64_range v : -9223372036854775808 <= s64 v < 9223372036854775808.
Proof. unfold s64. lia_div. Qed.

Lemma read_header_safe k : live k -> 2 <= k.(datalen) <= 9 -> exists d buf rd hd,
  read_header k = Ok (upd_head k d buf rd, hd) /\ head_safe k buf rd /\ avail rd <= avail k.(Kws.rd) /\
  match hd with
  | Some (plen, hlen, _) => 2 <= hlen <= d /\ d <= 14 /\ -9223372036854775808 <= plen < 9223372036854775808 /\
      avail rd + d <= avail k.(Kws.rd) + k.(datalen)
  | None => True
  end.
Proof.
  intros Hk Hd. pose proof (live_buffer k Hk) as Hl. pose proof (live_rd k Hk). unfold read_header.
  destruct (ld_in k.(buffer) 1 ltac:(lia)) as (b1 & -> & _). cbn [mbind res_bind].
  set (mask := negb (Z.land (Z.shiftr b1 7) 1 =? 0)). set (m := if mask then 4 else 0).
  assert (Hm : 0 <= m <= 4) by (unfold m; destruct mask; lia).
  destruct (fill_header_safe k (2 + m)) as (g1 & d1 & buf1 & rd1 & -> & Hh1 & Hd1 & Hg1 & Ha1); [done|lia..|]. cbn [mbind res_bind].
  destruct g1; cbn [negb]; [specialize (Hg1 eq_refl)|exists d1, buf1, rd1, None; parts].
  set (plen := Z.land b1 127). assert (Hp : 0 <= plen < 128).
  { unfold plen. change 127 with (Z.ones 7). rewrite Z.land_ones by lia. change (2 ^ 7) with 128. lia_div. }
  set (ext := if plen =? 127 then 8 else if plen =? 126 then 2 else 0).
  assert (He : 0 <= ext <= 8) by (unfold ext; zcase; lia).
  pose proof (live_head k d1 buf1 rd1 Hk Hh1) as Hk1. destruct Hh1 as [Eb1 Hs1].
  assert (E2 : exists g d buf rd, (if ext =? 0 then Ok (true, upd_head k d1 buf1 rd1)
      else fill_header (upd_head k d1 buf1 rd1) (2 + m + ext)) = Ok (g, upd_head k d buf rd) /\ head_safe k buf rd /\
    d1 <= d <= Z.max d1 (2 + m + ext) /\ (g = true -> 2 + m + ext <= d) /\ avail rd + d <= avail rd1 + d1).
  { destruct (Z.eqb_spec ext 0); [exists true, d1, buf1, rd1; parts; by split|].
    destruct (fill_header_safe (upd_head k d1 buf1 rd1) (2 + m + ext)) as (g & d & buf & rd & -> & [Eb Hs] & ? & ? & ?);
      [apply Hk1|cbn; lia|lia|apply Hk1|]. cbn in *. rewrite Eb1 in *. exists g, d, buf, rd. parts. }
  destruct E2 as (g2 & d2 & buf2 & rd2 & -> & Hh2 & Hd2 & Hg2 & Ha2). cbn [mbind res_bind].
  destruct g2; cbn [negb]; [specialize (Hg2 eq_refl)|exists d2, buf2, rd2, None; parts].
  destruct Hh2 as [Eb2 Hs2]. cbn [buffer upd_head set_datalen set_rd set_buffer].
  destruct (slice_ok buf2 2 ext) as (len & -> & _); [lia..|]. cbn [mbind res_bind].
  set (pl := if plen =? 127 then s64 (from_be len) else if plen =? 126 then u16 (from_be len) else plen).
  assert (-9223372036854775808 <= pl < 9223372036854775808).
  { unfold pl. pose proof (s64_range (from_be len)). unfold u16. destruct (plen =? 127); [done|]. destruct (plen =? 126); lia_div. }
  destruct mask.
  - destruct (slice_ok buf2 (2 + ext) 4) as (key & -> & _); [lia..|]. cbn [mbind res_bind].
    exists d2, buf2, rd2, (Some (pl, 2 + m + ext, Some key)). parts.
  - exists d2, buf2, rd2, (Some (pl, 2 + m + ext, None)). parts.
Qed.

(** A result, no memory, or a length out of range. *)
Definition safe {A} (P : A -> Prop) (r : res A) : Prop :=
  match r with Ok a => P a | Err f => f = Aborted \/ f = Overflow end.

Lemma safe_bind {A B} (P : A -> Prop) (Q : B -> Prop) r (f : A -> res B) :
  safe P r -> (forall a, P a -> safe Q (f a)) -> safe Q (r ≫= f).
Proof. destruct r; cbn; auto. Qed.

Lemma in_s64_safe v : safe (fun w => w = v /\ -9223372036854775808 <= v < 9223372036854775808) (in_s64 v).
Proof.
  unfold in_s64. destruct ((-9223372036854775808 <=? v) && (v <=? 9223372036854775807)) eqn:E; cbn; [|auto].
  apply andb_prop in E as [? ?]. split; [done|]. lia.
Qed.

Definition upd_body (k : kws) (d : Z) (bb : list Z) (rd : reader) : kws := set_datalen d (set_rd rd (set_bbuffer bb k)).

Lemma payload_loop_safe : forall fuel k off need, safe_rd (zlen k.(buffer)) k.(rd) -> 0 <= off -> 0 <= need ->
  off + need < zlen k.(bbuffer) < 9223372036854775808 -> avail k.(rd) < Z.of_nat fuel ->
  exists c d bb rd, payload_loop fuel k off need = Ok (upd_body k d bb rd, c) /\ zlen bb = zlen k.(bbuffer) /\
    safe_rd (zlen k.(buffer)) rd /\ (c = true -> avail rd + need <= avail k.(Kws.rd)).
Proof.
  induction fuel as [|fuel IH]; intros k off need Hrd Ho Hn Hl Hf.
  { destruct Hrd as [? _]. unfold avail in Hf. pose proof (inbox_nonneg (inbox (rd k))). lia. }
  cbn [payload_loop]. destruct (Z.eqb_spec need 0).
  { exists true, (datalen k), (bbuffer k), (rd k). split; [by destruct k|]. parts. }
  destruct (string_read_safe (rd k) (Some (buffer k)) (bbuffer k) off (need + 1) WS_BLOCK) as (r & bb & rd1 & -> & Hr & Hb & Hrd1 & Ha & Ha0);
    [done|lia..|]. cbn [mbind res_bind default from_option] in *.
  destruct (Z.ltb_spec r 1).
  { exists false, (datalen k), bb, rd1. split; [by destruct k|]. parts. }
  destruct (IH (upd_body k (datalen k + r) bb rd1) (off + r) (need - r)) as (c & d & bb2 & rd2 & E & Hb2 & Hrd2 & Hc);
    [done|lia|lia|cbn; lia|cbn; lia|]. cbn [Kws.rd Kws.bbuffer Kws.buffer upd_body set_datalen set_rd set_bbuffer] in *.
  exists c, d, bb2, rd2. split; [exact E|]. parts. intros Hc1. specialize (Hc Hc1). lia.
Qed.

Section Safety.
Context (pool_resize : list Z -> Z -> option (list Z)) (SHA1 : list Z -> list Z).
Hypothesis (Hsize : forall b n b', pool_resize b n = Some b' -> zlen b' = n /\ n < 9223372036854775808).

Lemma grow_body_safe k body plen : live k -> 0 <= body < 2147483648 -> 0 <= plen ->
  safe (fun '(k', room) => exists bl bb, k' = set_bbuflen bl (set_bbuffer bb k) /\
    (room = true -> zlen bb = bl /\ body + plen < bl < 9223372036854775808)) (grow_body pool_resize k body plen).
Proof.
  intros Hk Hb Hp. destruct (live_bbuffer k Hk) as [Hl H63]. pose proof (zlen_nonneg (bbuffer k)). unfold grow_body.
  rewrite s32_id, s64_id by lia. eapply safe_bind; [apply in_s64_safe|]. intros ? [-> Ht].
  destruct (Z.leb_spec (bbuflen k) (body + plen)); cycle 1.
  { exists (bbuflen k), (bbuffer k). split; [by destruct k|]. parts. }
  cbn [payload_size_max bbuflen bbuffer set_bbuflen]. destruct (_ && _).
  { exists (u64 (body + plen + 1)), (bbuffer k). split; [by destruct k|done]. }
  rewrite u64_id by lia. destruct (pool_resize (bbuffer k) (body + plen + 1)) as [b|] eqn:E; [|cbn; auto].
  destruct (Hsize _ _ _ E). exists (body + plen + 1), b. split; [by destruct k|]. parts.
Qed.

Lemma pending_avail rd : avail rd <= Z.of_nat (pending_bytes rd).
Proof. unfold avail, inbox_bytes, pending_bytes, zlen. lia. Qed.

Lemma read_payload_safe k oc body plen hlen key : live k -> 0 <= hlen <= k.(datalen) -> k.(datalen) <= 14 ->
  0 <= body < 2147483648 -> -9223372036854775808 <= plen < 9223372036854775808 ->
  safe (fun '(k', ok) => k'.(down) = 0 /\ (ok = true -> live k' /\ 0 <= plen /\ body + plen < zlen k'.(bbuffer) /\
    avail k'.(rd) + plen <= avail k.(rd) + (k.(datalen) - hlen))) (read_payload pool_resize k oc body plen hlen key).
Proof.
  intros Hk Hh Hd Hb Hp. pose proof (live_buffer k Hk). pose proof (live_up k Hk) as Hup. unfold read_payload.
  eapply safe_bind; [apply in_s64_safe|]. intros need [-> _].
  destruct (Z.ltb_spec (plen - (datalen k - hlen)) 0) as [|Hn]; [done|].
  eapply safe_bind; [apply (grow_body_safe k body plen Hk Hb); lia|]. intros [k1 room] (bl & bb & -> & Hroom).
  destruct room; cbn [negb]; [destruct (Hroom eq_refl) as [Hbl Hb1]|done].
  set (early := datalen k - hlen) in *. set (need := plen - early) in *. replace (plen - need) with early by lia.
  cbn [buffer bbuffer bbuflen rd set_bbuflen set_bbuffer].
  assert (E1 : exists bb1, (if negb (early =? 0) then
      _ ← ks_assert (body + early <=? bl); d ← slice (buffer k) hlen early; bb0 ← blit bb body d;
      Ok (set_bbuffer bb0 (set_bbuflen bl (set_bbuffer bb k)))
    else Ok (set_bbuflen bl (set_bbuffer bb k))) = Ok (set_bbuflen bl (set_bbuffer bb1 k)) /\ zlen bb1 = bl).
  { destruct (Z.eqb_spec early 0); cbn [negb]; [eauto|]. unfold ks_assert. destruct (Z.leb_spec (body + early) bl); [|lia].
    cbn [mbind res_bind]. destruct (slice_ok (buffer k) hlen early) as (d & -> & Hdl); [lia..|]. cbn [mbind res_bind].
    destruct (blit_in bb d body) as (bb1 & -> & ?); [lia..|]. exists bb1. split; [done|lia]. }
  destruct E1 as (bb1 & -> & Hbb1). cbn [mbind res_bind]. unfold ks_assert. cbn [bbuflen set_bbuflen].
  destruct (Z.leb_spec (body + plen) bl); [|lia]. cbn [mbind res_bind rd set_bbuflen set_bbuffer].
  destruct (payload_loop_safe (S (S (pending_bytes (rd k)))) (set_bbuflen bl (set_bbuffer bb1 k)) (body + early) need)
    as (c & d & bb2 & rd2 & -> & Hbb2 & Hrd2 & Hc); [exact (live_rd k Hk)|lia|lia|cbn; lia|cbn; pose proof (pending_avail (rd k)); lia|].
  cbn [mbind res_bind bbuffer rd buffer set_bbuflen set_bbuffer] in *. destruct c; cbn [negb]; [specialize (Hc eq_refl)|done].
  rewrite Hbb1 in Hbb2.
  set (k2 := fun bb => upd_body (set_bbuflen bl (set_bbuffer bb k)) d bb rd2).
  assert (Hk2 : forall bb, zlen bb = bl -> live (k2 bb)).
  { intros bb0 Hbb0. destruct Hk. split; done || (cbn; lia). }
  assert (E3 : exists bb3, (match key with
       | Some key => p ← slice bb2 body plen; bb ← blit bb2 body (mask_with key p); Ok (k2 bb)
       | None => Ok (k2 bb2)
       end) = Ok (k2 bb3) /\ zlen bb3 = bl).
  { destruct key as [key|]; [|eauto]. destruct (slice_ok bb2 body plen) as (p & -> & Hpl); [lia..|]. cbn [mbind res_bind].
    destruct (blit_in bb2 (mask_with key p) body) as (bb3 & -> & ?); [lia|unfold zlen in *; rewrite mask_length; lia|].
    exists bb3. split; [done|lia]. }
  destruct E3 as (bb3 & E3 & Hbb3). eapply (safe_bind (fun k' => k' = k2 bb3)).
  { cbn [bbuffer upd_body set_datalen set_rd set_bbuffer].
    change (safe (fun k' => k' = k2 bb3) (match key with
       | Some key => p ← slice bb2 body plen; bb ← blit bb2 body (mask_with key p); Ok (k2 bb)
       | None => Ok (k2 bb2) end)). by rewrite E3. }
  intros ? ->. eapply (safe_bind (fun k' => exists bb4, k' = k2 bb4 /\ zlen bb4 = bl)).
  { destruct (oc =? WSOC_TEXT); [|by exists bb3]. cbn [bbuffer k2 upd_body set_datalen set_rd set_bbuffer].
    destruct (st_ok bb3 (body + plen) 0) as (bb4 & -> & ?); [lia|]. exists bb4. split; [done|lia]. }
  intros ? (bb4 & -> & Hbb4). split; [done|]. intros _. split; [by apply Hk2|]. cbn. lia.
Qed.
(** What the caller gets: nothing, the close frame's bytes, or the message in
    [bbuffer] with a byte behind it. *)
Definition read_result (v : Z * Z * data_ptr * kws) : Prop :=
  let '(r, _, p, k) := v in live_or_closed k /\
  match p with
  | DataNull => r <= 0
  | DataBuffer off => 0 <= off < zlen k.(buffer) /\ k.(down) <> 0
  | DataBody => 0 <= r < zlen k.(bbuffer) /\ live k
  end.

Lemma refuse_result k oc reason : k.(down) = 0 -> 0 <= reason -> read_result (refuse k oc reason).
Proof. intros Hup Hr. unfold refuse. closes Hup. split; [by right|lia]. Qed.

Lemma close_keeps_buffer k reason : (kws_close k reason).2.(buffer) = k.(buffer).
Proof.
  unfold kws_close. destruct (negb (down k =? 0)); [done|].
  destruct (handshake (set_uri None (set_down 1 k)) && sock (set_uri None (set_down 1 k))); [|done].
  by destruct (close_frame _ _) as [fr w].
Qed.

Lemma read_frames_safe : forall fuel k oc frag body, live k -> 0 <= body < zlen k.(bbuffer) \/ body = 0 ->
  body + avail k.(rd) < 2147483648 -> avail k.(rd) < Z.of_nat fuel ->
  safe read_result (read_frames pool_resize SHA1 fuel k oc frag body body).
Proof.
  induction fuel as [|fuel IH]; intros k oc frag body Hk Hb Ht Hf.
  { destruct (live_rd k Hk) as [? _]. unfold avail in Hf. pose proof (inbox_nonneg (inbox (rd k))). lia. }
  assert (Ha0 : 0 <= avail (rd k)).
  { destruct (live_rd k Hk) as [? _]. unfold avail. pose proof (inbox_nonneg (inbox (rd k))). lia. }
  cbn [read_frames]. unfold establish_logical_layer. rewrite (live_logical k Hk).
  destruct (Z.eqb_spec (sanity k) 0); [by destruct (live_sanity k Hk)|]. cbn [mbind res_bind]. change (0 <? 0) with false. cbv iota.
  rewrite (live_up k Hk), (live_shaken k Hk). cbn [Z.eqb negb].
  destruct (start_header_safe k Hk) as (h & -> & Hh). cbn [mbind res_bind].
  destruct h as [[r k']|k']; [destruct Hh; by split|]. destruct Hh as (d & buf & rd1 & -> & Hh1 & Hd & Ha1).
  pose proof (live_head k d buf rd1 Hk Hh1) as Hk1. set (k1 := upd_head k d buf rd1) in *. pose proof (live_buffer k1 Hk1).
  destruct (ld_in k1.(buffer) 0 ltac:(lia)) as (b0 & -> & _). cbn [mbind res_bind].
  destruct (Z.land b0 15 =? WSOC_CLOSE).
  { pose proof (close_keeps_buffer k1 WS_RECV_CLOSE) as Ekb. destruct (close_result k1 WS_RECV_CLOSE (live_up k1 Hk1)) as (k' & E & Hdn).
    rewrite E in Ekb |- *. cbn [snd] in Ekb. split; [by right|]. rewrite Ekb. split; [lia|done]. }
  destruct (_ || _); [|by apply refuse_result; [apply Hk1|]].
  destruct (read_header_safe k1 Hk1 ltac:(cbn; lia)) as (d2 & buf2 & rd2 & hd & -> & Hh2 & Ha2 & Hhd). cbn [mbind res_bind].
  pose proof (live_head k1 d2 buf2 rd2 Hk1 Hh2) as Hk2. set (k2 := upd_head k1 d2 buf2 rd2) in *.
  destruct hd as [[[plen hlen] key]|]; [|by apply refuse_result; [apply Hk2|]]. destruct Hhd as (Hhl & Hd14 & Hp & Ha3).
  change (avail (rd k1)) with (avail rd1) in *. change (datalen k1) with d in *.
  eapply safe_bind; [apply (read_payload_safe k2 (Z.land b0 15) body plen hlen key Hk2); cbn; try lia|].
  intros [k3 ok] [Hup3 Hok]. destruct ok; cbn [negb]; [|by apply refuse_result].
  destruct (Hok eq_refl) as (Hk3 & Hp0 & Hroom & Ha4). change (avail (rd k2)) with (avail rd2) in *. change (datalen k2) with d2 in *.
  assert (avail (rd k3) + plen <= avail (rd k) - 2) by lia.
  destruct (if negb (negb (Z.land (Z.shiftr b0 7) 1 =? 0)) && negb (Z.land b0 15 =? WSOC_CONTINUATION) then true
    else if negb (Z.land (Z.shiftr b0 7) 1 =? 0) && (Z.land b0 15 =? WSOC_CONTINUATION) then false else frag).
  - apply IH; [done|lia|lia|lia].
  - split; [by left|]. split; [lia|done].
Qed.
End Safety.

(** ** A concrete connection *)

Definition ex_alloc (n : Z) : option (list Z) := Some (replicate (Z.to_nat n) 0).
Definition ex_resize (b : list Z) (n : Z) : option (list Z) :=
  if (0 <=? n) && (n <? 9223372036854775808)
  then Some (take (Z.to_nat n) b ++ replicate (Z.to_nat n - length b) 0) else None.
Definition ex_sha (m : list Z) : list Z := replicate 20 (u8 (zlen m)).
Definition ex_conn (t : kws_type_t) (ev : list recv_event) : kws :=
  MkKws t true (replicate 64 0) (replicate 64 0) 64 64 0 None (MkReader 0 0 0 ev)
    (MkWriter [] [] [1; 2; 3; 4; 5; 6; 7; 8; 9; 10; 11; 12; 13; 14; 15; 16]) 0 true true 10000 5000
    (match t with KWS_SERVER => KWS_FLAG_DONTMASK | KWS_CLIENT => 0 end) None 0 0 [47] [104] None [].

Lemma ex_alloc_ok n : 0 <= n < 8589934592 -> exists b, ex_alloc n = Some b /\ zlen b = n.
Proof. intros Hn. eexists. split; [done|]. rewrite zlen_replicate. lia. Qed.

Lemma ex_resizes : resizes ex_resize.
Proof.
  intros b n Hn. exists (replicate (Z.to_nat n - length b) 0). pose proof (zlen_nonneg b). unfold ex_resize.
  destruct (Z.leb_spec 0 n); [|lia]. destruct (Z.ltb_spec n 9223372036854775808); [|lia]. cbn [andb].
  rewrite zlen_app, zlen_replicate. unfold zlen in *. rewrite take_ge by lia. split; [done|lia].
Qed.

Lemma ex_resize_size b n b' : ex_resize b n = Some b' -> zlen b' = n /\ n < 9223372036854775808.
Proof.
  unfold ex_resize. destruct (Z.leb_spec 0 n), (Z.ltb_spec n 9223372036854775808); cbn [andb]; try discriminate.
  intros [= <-]. unfold zlen. rewrite length_app, length_take, length_replicate. lia.
Qed.

Lemma ex_ready t ev : ready (ex_conn t ev).
Proof. split; try done. right. vm_compute. discriminate. Qed.

Lemma ex_live t ev : live (ex_conn t ev).
Proof. split; done. Qed.

Lemma ex_writable t ev : writable (ex_conn t ev).
Proof. split; [done|done|]. exists []. repeat split; [constructor|unfold WS_WRITE_SANITY; simpl; lia]. Qed.

(** A message in two frames or more, as RFC 6455 has them. *)
Definition fragmented (fs : list frame) : Prop :=
  exists first mids lst, fs = first :: mids ++ [lst] /\
    f_fin first = false /\ (f_oc first = WSOC_TEXT \/ f_oc first = WSOC_BINARY) /\
    Forall (fun f => f_fin f = false /\ f_oc f = WSOC_CONTINUATION) mids /\ f_fin lst = true /\ f_oc lst = WSOC_CONTINUATION.

Lemma fragmented_unit fs : fragmented fs ->
  one_unit false fs = true /\ Forall (fun f => known_oc (f_oc f)) fs /\ last_oc WSOC_INVALID fs = WSOC_CONTINUATION.
Proof.
  intros (first & mids & lst & -> & Hf & Ho & Hm & Hlf & Hlo).
  assert (E : one_unit true (mids ++ [lst]) = true).
  { induction Hm as [|f mids [Ef Eo] _ IH]; cbn; unfold frag_after; [rewrite Hlf, Hlo; done|]. rewrite Ef, Eo. exact IH. }
  split; [|split].
  - cbn. unfold frag_after. rewrite Hf. destruct Ho as [H|H]; rewrite H; exact E.
  - apply Forall_cons. split; [unfold known_oc; tauto|]. apply Forall_app. split.
    + eapply Forall_impl; [exact Hm|]. intros f [_ H]. unfold known_oc. auto.
    + apply Forall_cons. unfold known_oc. auto.
  - unfold last_oc. cbn. rewrite foldl_app. done.
Qed.

(** C18: frames are read back: what [kws_write_frame] sends for [data], masked or
    not, of any length below 2^31, through any sequence of partial sends, is
    read by [kws_read_frame] of the peer, in whatever chunks it arrives, as the
    same opcode and data, text with a NUL behind it; the peer can then go on
    with what follows. *)
Theorem kws_frame_roundtrip pool_alloc pool_resize sha k1 k2 oc data :
  (forall n, 0 <= n < 8589934592 -> exists b, pool_alloc n = Some b /\ zlen b = n) -> resizes pool_resize ->
  writable k1 -> ready k2 -> known_oc oc -> oc <> WSOC_CONTINUATION -> zlen data < 2147479000 ->
  k2.(payload_size_max) = 0 \/ zlen data < k2.(payload_size_max) ->
  exists k1' w, kws_write_frame pool_alloc pool_resize k1 oc data (zlen data) = Ok (zlen data, k1') /\ writable k1' /\
    k1'.(wr).(sent) = k1.(wr).(sent) ++ w /\
    forall rest, delivers k2.(rd).(inbox) w rest ->
      exists k2', kws_read_frame pool_resize sha k2 = Ok (zlen data, oc, DataBody, k2') /\
        take (length data) k2'.(bbuffer) = data /\ (oc = WSOC_TEXT -> k2'.(bbuffer) !! length data = Some 0) /\
        ready k2' /\ k2'.(rd).(inbox) = rest.
Proof.
  intros Ha Hr H1 H2 Ho Hnc Hl Hm. assert (Hoc : 0 <= oc < 16) by (unfold known_oc in Ho; intuition (subst; done)).
  destruct (write_frame_run pool_alloc pool_resize Ha Hr k1 oc data H1 Hoc Hl) as (k1' & E1 & Es & H1').
  exists k1', (frame_bytes (frame_of k1 oc data)). split; [done|]. split; [done|]. split; [done|]. intros rest Hd.
  pose proof (frame_of_wf k1 oc data Hoc ltac:(lia)) as Hwf. set (f := frame_of k1 oc data) in *.
  assert (Em : message_data [f] = data) by apply app_nil_r.
  assert (Hu : one_unit false [f] = true).
  { cbn. unfold frag_after. cbn. destruct (Z.eqb_spec oc WSOC_CONTINUATION); done. }
  destruct (kws_read_frame_run pool_resize sha k2 [f] rest Hr H2) as (k' & tail & E & Hk' & Eb & Ein & Ht); rewrite ?Em in *;
    [by exists rest|done|by constructor|by constructor|lia|done|].
  exists k'. split; [exact E|]. rewrite Eb. split; [by apply take_app_length|]. split; [|done].
  intros ->. destruct (Ht eq_refl) as (t & ->). by rewrite list_lookup_middle.
Qed.

Lemma kws_frame_roundtrip_witness :
  let k2 := ex_conn KWS_SERVER [Recv [129; 130; 1]; Recv [2; 3; 4; 73]; Recv [107]] in
  exists k1' k2', kws_write_frame ex_alloc ex_resize (ex_conn KWS_CLIENT []) WSOC_TEXT [72; 105] 2 = Ok (2, k1') /\
    kws_read_frame ex_resize ex_sha k2 = Ok (2, WSOC_TEXT, DataBody, k2') /\ take 2 k2'.(bbuffer) = [72; 105] /\ ready k2'.
Proof.
  intros k2.
  destruct (kws_frame_roundtrip ex_alloc ex_resize ex_sha (ex_conn KWS_CLIENT []) k2 WSOC_TEXT [72; 105] ex_alloc_ok
    ex_resizes (ex_writable _ _) (ex_ready _ _) ltac:(right; left; reflexivity) ltac:(discriminate) ltac:(reflexivity)
    ltac:(left; reflexivity)) as (k1' & w & E & _ & Es & H).
  exists k1'. vm_compute in E. injection E as <-. cbn in Es. subst w.
  destruct (H []) as (k2' & E & Ed & _ & Hr & _); [|exists k2'; split; [reflexivity|]; split; [exact E|by split]].
  exists [[129; 130; 1]; [2; 3; 4; 73]; [107]]. repeat split. by repeat constructor.
Defined.

(** A fragmented message (RFC 6455) of any number of frames, each masked or
    not and arriving in any chunks of its own, is read as the concatenation of
    its payloads; [kws_read_frame] reports it with the opcode of its last
    frame, WSOC_CONTINUATION, whether it was text or binary. *)
Lemma kws_reads_fragments pool_resize sha k fs rest :
  resizes pool_resize -> ready k -> fragmented fs -> Forall wf_frame fs -> delivers_frames k.(rd).(inbox) fs rest ->
  zlen (message_data fs) < 2147483648 ->
  k.(payload_size_max) = 0 \/ zlen (message_data fs) < k.(payload_size_max) ->
  exists k', kws_read_frame pool_resize sha k = Ok (zlen (message_data fs), WSOC_CONTINUATION, DataBody, k') /\
    take (length (message_data fs)) k'.(bbuffer) = message_data fs /\ ready k' /\ k'.(rd).(inbox) = rest.
Proof.
  intros Hr Hk Hfr Hwf Hd Hl Hm. destruct (fragmented_unit fs Hfr) as (Hu & Hoc & Elast).
  destruct (kws_read_frame_run pool_resize sha k fs rest Hr Hk Hd Hu Hwf Hoc Hl Hm) as (k' & tail & E & Hk' & Eb & Ein & _).
  exists k'. rewrite Elast in E. split; [exact E|]. rewrite Eb. split; [by apply take_app_length|]. done.
Qed.

Lemma kws_reads_fragments_witness :
  let k := ex_conn KWS_CLIENT [Recv [1; 1; 72]; Recv [0; 1]; Recv [105]; Recv [128; 1; 33]] in
  exists k', kws_read_frame ex_resize ex_sha k = Ok (3, WSOC_CONTINUATION, DataBody, k') /\
    take 3 k'.(bbuffer) = [72; 105; 33] /\ ready k'.
Proof.
  intros k.
  destruct (kws_reads_fragments ex_resize ex_sha k
    [Frame false 1 None [72]; Frame false 0 None [105]; Frame true 0 None [33]] [] ex_resizes (ex_ready _ _))
    as (k' & E & Ed & Hr & _); [| | |reflexivity|by left|exists k'; split; [exact E|split; [exact Ed|exact Hr]]].
  - exists (Frame false 1 None [72]), [Frame false 0 None [105]], (Frame true 0 None [33]).
    repeat split; [by left|by repeat constructor].
  - by repeat constructor.
  - exists [Recv [0; 1]; Recv [105]; Recv [128; 1; 33]]. split; [exists [[1; 1; 72]]; by repeat constructor|].
    exists [Recv [128; 1; 33]]. split; [exists [[0; 1]; [105]]; by repeat constructor|].
    exists []. split; [exists [[128; 1; 33]]; by repeat constructor|done].
Defined.

(** C17: [kws_read_frame] is safe against any peer: on a live connection, whatever
    the socket delivers (any bytes, any split, errors, an early end; fewer than
    2^31 bytes), every access is inside [buffer] and [bbuffer], no assertion
    fails and every loop ends. The call returns with the connection live again
    or closed, and a message it hands out lies inside [bbuffer] with at least a
    byte behind it; the exceptions are the [abort] when no memory is left and a
    peer whose announced length overflows the signed arithmetic on it. *)
Theorem kws_read_frame_safe pool_resize SHA1 k :
  (forall b n b', pool_resize b n = Some b' -> zlen b' = n /\ n < 9223372036854775808) ->
  live k -> avail k.(rd) < 2147483648 ->
  match kws_read_frame pool_resize SHA1 k with
  | Ok (r, _, p, k') => live_or_closed k' /\
      match p with
      | DataNull => r <= 0
      | DataBuffer off => 0 <= off < zlen k'.(buffer) /\ k'.(down) <> 0
      | DataBody => 0 <= r < zlen k'.(bbuffer) /\ live k'
      end
  | Err f => f = Aborted \/ f = Overflow
  end.
Proof.
  intros Hsize Hk Ha. pose proof (pending_avail (rd k)).
  assert (E := read_frames_safe pool_resize SHA1 Hsize (S (S (pending_bytes (rd k)))) k WSOC_INVALID false 0 Hk
    (or_intror eq_refl) ltac:(lia) ltac:(lia)). unfold kws_read_frame.
  destruct (read_frames _ _ _ _ _ _ _ _) as [[[[r oc] p] k']|f]; exact E.
Qed.

(** A peer that announces five bytes and sends three. *)
Lemma kws_read_frame_safe_witness :
  match kws_read_frame ex_resize ex_sha (ex_conn KWS_SERVER [Recv [130; 5; 1; 2]; RecvBlock; Recv [3]; RecvFail]) with
  | Ok (r, _, p, k') => live_or_closed k' /\
      match p with
      | DataNull => r <= 0
      | DataBuffer off => 0 <= off < zlen k'.(buffer) /\ k'.(down) <> 0
      | DataBody => 0 <= r < zlen k'.(bbuffer) /\ live k'
      end
  | Err f => f = Aborted \/ f = Overflow
  end.
Proof. apply (kws_read_frame_safe ex_resize ex_sha _ ex_resize_size (ex_live _ _)). reflexivity. Defined.

(** ** What the peer can meet *)

(** Two frames of one byte in one segment: the second one's bytes are taken for
    a wrong length, and the connection is closed. *)
Lemma two_frames_at_once : exists k',
  kws_read_frame ex_resize ex_sha (ex_conn KWS_CLIENT [Recv [129; 1; 72; 129; 1; 73]]) = Ok (0, WSOC_CLOSE, DataNull, k') /\
  k'.(down) = 1.
Proof. eexists. split; vm_compute; reflexivity. Qed.

(** The same two frames in segments of their own. *)
Lemma two_frames_apart : exists k',
  kws_read_frame ex_resize ex_sha (ex_conn KWS_CLIENT [Recv [129; 1; 72]; Recv [129; 1; 73]]) = Ok (1, WSOC_TEXT, DataBody, k') /\
  k'.(down) = 0 /\ k'.(rd).(inbox) = [Recv [129; 1; 73]].
Proof. eexists. split; [|split]; vm_compute; reflexivity. Qed.

(** The payload of a PING between fragments becomes part of the message. *)
Lemma ping_in_message : exists k',
  kws_read_frame ex_resize ex_sha (ex_conn KWS_CLIENT [Recv [1; 1; 72]; Recv [137; 1; 63]; Recv [128; 1; 105]]) =
    Ok (3, WSOC_CONTINUATION, DataBody, k') /\ take 3 k'.(bbuffer) = [72; 63; 105].
Proof. eexists. split; vm_compute; reflexivity. Qed.

(** Without blocking, a message whose second fragment is late is lost: the call
    returns -2, and the next one starts a new message. *)
Lemma late_fragment :
  let k := set_block 0 (ex_conn KWS_CLIENT [Recv [1; 1; 72]; RecvBlock; Recv [128; 1; 105]]) in
  match kws_read_frame ex_resize ex_sha k with
  | Ok (r, oc, p, k1) => (r, oc, p) = (-2, WSOC_TEXT, DataNull) /\
      match kws_read_frame ex_resize ex_sha k1 with
      | Ok (r, oc, p, k2) => (r, oc, p) = (1, WSOC_CONTINUATION, DataBody) /\ take 1 k2.(bbuffer) = [105]
      | Err _ => False
      end
  | Err _ => False
  end.
Proof. vm_compute. repeat split. Qed.

(** A length near 2^63 overflows [blen + plen]. *)
Lemma announced_overflow :
  kws_read_frame ex_resize ex_sha (ex_conn KWS_CLIENT
    [Recv [2; 1; 72]; Recv [128; 127; 127; 255; 255; 255; 255; 255; 255; 255]]) = Err Overflow.
Proof. vm_compute. reflexivity. Qed.
End Kws.
