(* ===== verification/KwsHandshake.v ===== *)
(** The opening handshake of WebSocket connections (src/src/kws.c): its base64 is
    the library's, and a client and a server that are connected to each other
    both complete it. *)
From S2P Require Import Prelude Base64 Kws.
Import Kws.
Local Open Scope Z_scope.

Module KwsHandshake.

(** ** Base64 *)

Lemma c64_letter v w : v mod 64 = w -> c64_at v = Base64.letter w.
Proof.
  intros <-. unfold c64_at, Base64.letter. change Base64.ks_b64_table with (c64 ++ [0]). rewrite app_nth1; [done|].
  change (length c64) with 64%nat. lia_div.
Qed.

Lemma last_letter b l v : (l = 2 \/ l = 4) -> b mod 2 ^ l = v -> c64_at (u32 (Z.shiftl (b mod 16) (6 - l))) = Base64.letter (v * 2 ^ (6 - l)).
Proof.
  intros Hl <-. apply c64_letter. unfold u32. rewrite Z.shiftl_mul_pow2 by lia.
  destruct Hl as [H|H]; rewrite H; [change (2 ^ (6 - 2)) with 16; change (2 ^ 2) with 4|change (2 ^ (6 - 4)) with 4; change (2 ^ 4) with 16]; lia_div.
Qed.

Lemma b64_loop_stream inp : all_bytes inp -> forall b,
  b64_loop inp b 0 = Base64.enc_stream 0 0 inp /\ b64_loop inp b 2 = Base64.enc_stream 2 (b mod 4) inp /\
  b64_loop inp b 4 = Base64.enc_stream 4 (b mod 16) inp.
Proof.
  induction 1 as [|x inp Hx _ IH]; intros b.
  - split; [done|]. cbn [b64_loop Base64.enc_stream]. rewrite (last_letter b 2 (b mod 4)), (last_letter b 4 (b mod 16)) by auto. done.
  - destruct (IH (u32 (u32 (Z.shiftl b 8) + x))) as (H0 & H2 & H4).
    destruct (Base64.enc_b0 b x Hx) as [E0 E0']. destruct (Base64.enc_b2 b x Hx) as [E2 E2'].
    destruct (Base64.enc_b4 b x Hx) as [E4 E4']. set (v := u32 (u32 (Z.shiftl b 8) + x)) in *.
    assert (F2 : b64_flush 3 v (0 + 8) = ([c64_at (Z.shiftr v 2)], 2)) by reflexivity.
    assert (F4 : b64_flush 3 v (2 + 8) = ([c64_at (Z.shiftr v 4)], 4)) by reflexivity.
    assert (F0 : b64_flush 3 v (4 + 8) = ([c64_at (Z.shiftr v 6); c64_at (Z.shiftr v 0)], 0)) by reflexivity.
    cbn [b64_loop Base64.enc_stream]. fold v. rewrite F2, F4, F0. cbn [Z.eqb Pos.eqb app].
    rewrite H2, H4, H0, E0', E2', (c64_letter _ _ E0), (c64_letter _ _ E2), (c64_letter _ _ (proj1 (conj E4 E4'))), (c64_letter _ _ E4').
    done.
Qed.

Lemma b64encode_ref inp : all_bytes inp -> b64encode inp = Base64.b64_ref inp.
Proof. intros H. rewrite <- Base64.enc_stream_ref. apply (b64_loop_stream inp H 0). Qed.

(** The base64 of the handshake is the library's: into any buffer with room
    for it, [ks_b64_encode] writes the letters of [b64encode] of kws.c and a NUL. *)
Lemma kws_b64encode_agrees inp out :
  all_bytes inp -> 2 <= zlen out <= INT_MAX -> zlen (b64encode inp) < zlen out ->
  Base64.ks_b64_encode inp out (zlen out) = Ok (b64encode inp ++ 0 :: drop (S (length (b64encode inp))) out).
Proof.
  intros Hb Ho Hl. rewrite (Base64.encode_out (zlen out) ltac:(done) inp out Hb eq_refl), <- b64encode_ref by done.
  unfold zlen in *. rewrite take_ge, Nat.min_r by lia. done.
Qed.

Lemma kws_b64encode_agrees_witness :
  Base64.ks_b64_encode [1; 2] (replicate 6 9) 6 = Ok (b64encode [1; 2] ++ 0 :: drop (S (length (b64encode [1; 2]))) (replicate 6 9)).
Proof.
  apply (kws_b64encode_agrees [1; 2] (replicate 6 9)).
  - repeat constructor; unfold is_byte; lia.
  - vm_compute. split; discriminate.
  - reflexivity.
Defined.

(** ** Searching *)

Lemma after_skip pat c s : take (length pat) (c :: s) <> pat -> after pat (c :: s) = after pat s.
Proof. intros H. cbn [after]. by rewrite bool_decide_false. Qed.

Lemma after_notin x pat l s : Forall (fun c => c <> x) l -> after (x :: pat) (l ++ s) = after (x :: pat) s.
Proof.
  induction 1 as [|c l Hc _ IH]; [done|]. cbn [app]. rewrite after_skip; [done|]. cbn. congruence.
Qed.

Lemma after_here pat s : after pat (pat ++ s) = Some s.
Proof.
  assert (E : take (length pat) (pat ++ s) = pat) by by apply take_app_length.
  assert (D : drop (length pat) (pat ++ s) = s) by by apply drop_app_length.
  destruct (pat ++ s) eqn:Es; cbn [after]; by rewrite bool_decide_true, D.
Qed.

Lemma after_length pat s r : after pat s = Some r -> (length pat <= length s)%nat.
Proof.
  revert r. induction s as [|c s IH]; intros r H; cbn [after] in H;
    match type of H with (if bool_decide ?P then _ else _) = _ => destruct (bool_decide_reflect P) as [E|] end; try done.
  - apply (f_equal length) in E. rewrite length_take in E. lia.
  - apply (f_equal length) in E. rewrite length_take in E. lia.
  - specialize (IH _ H). cbn. lia.
Qed.

Lemma after_app pat q s r : after pat s = Some r -> after pat (s ++ q) = Some (r ++ q).
Proof.
  assert (Hhd : forall s, take (length pat) s = pat -> after pat (s ++ q) = Some (drop (length pat) s ++ q)).
  { intros s0 E. rewrite <- (take_drop (length pat) s0), E at 1. rewrite <- app_assoc. apply after_here. }
  induction s as [|c s IH]; cbn [after].
  - destruct (bool_decide_reflect (take (length pat) [] = pat)) as [E|]; [|done]. intros [= <-]. by rewrite Hhd.
  - destruct (bool_decide_reflect (take (length pat) (c :: s) = pat)) as [E|Hne]; [intros [= <-]; by rewrite Hhd|].
    intros Hr. destruct (decide (take (length pat) ((c :: s) ++ q) = pat)) as [E|Hne2].
    2: { cbn [app] in *. rewrite after_skip by done. auto. }
    
    exfalso. destruct (Nat.le_gt_cases (length pat) (length (c :: s))) as [Hl|Hl].
    + rewrite take_app_le in E by done. done.
    + pose proof (after_length _ _ _ Hr). cbn in Hl. lia.
Qed.

(** ** Messages in lines *)

Definition plain (l : list Z) : Prop := Forall (fun c => c <> 0 /\ c <> 10 /\ c <> 13) l.
Definition wf_line (l : list Z) : Prop := plain l /\ l <> [].
Definition http (ls : list (list Z)) : list Z := concat (map (fun l => l ++ crlf) ls) ++ crlf.
Definition blank : list Z := [13; 10; 13; 10].

Lemma http_cons l ls : http (l :: ls) = l ++ crlf ++ http ls.
Proof. unfold http. cbn. by rewrite <- !app_assoc. Qed.

Lemma plain_not l x : plain l -> x = 0 \/ x = 10 \/ x = 13 -> Forall (fun c => c <> x) l.
Proof. intros H Hx. eapply Forall_impl; [exact H|]. cbn. intros c. intuition congruence. Qed.

Lemma after_http ls x : ls <> [] -> Forall wf_line ls -> after blank (http ls ++ x) = Some x.
Proof.
  induction ls as [|l ls IH]; [done|]. intros _ Hls. apply Forall_cons in Hls as [[Hl _] Hls].
  rewrite http_cons, <- !app_assoc. unfold blank. rewrite after_notin by (apply plain_not; auto).
  destruct ls as [|l2 ls]; [apply (after_here blank x)|].
  apply Forall_cons in Hls as [[Hl2 Hne2] Hls]. rewrite <- (IH ltac:(done)) by (by repeat constructor).
  rewrite http_cons. destruct l2 as [|c l2]; [done|]. apply Forall_cons in Hl2 as [(H0 & H10 & H13) _].
  cbn [app crlf]. unfold blank. rewrite !after_skip; [done|cbn; congruence..].
Qed.

Lemma after_two_lf ls : Forall wf_line ls -> after [10; 10] (http ls) = None.
Proof.
  induction ls as [|l ls IH]; intros Hls; [done|]. apply Forall_cons in Hls as [[Hl _] Hls].
  rewrite http_cons, after_notin by (apply plain_not; auto). cbn [app crlf]. rewrite after_skip by (cbn; congruence).
  rewrite after_skip, IH; [done|done|]. destruct ls as [|l2 ls]; [done|].
  apply Forall_cons in Hls as [[Hl2 Hne2] _]. rewrite http_cons. destruct l2 as [|c l2]; [done|].
  apply Forall_cons in Hl2 as [(H0 & H10 & H13) _]. cbn. congruence.
Qed.

(** Nothing is found before the whole message is there. *)
Lemma http_prefix ls p q : ls <> [] -> Forall wf_line ls -> p ++ q = http ls -> q <> [] ->
  after blank p = None /\ after [10; 10] p = None.
Proof.
  intros Hne Hls E Hq. split.
  - destruct (after blank p) as [r|] eqn:Ea; [|done]. apply (after_app _ q) in Ea.
    pose proof (after_http ls [] Hne Hls) as Eh. rewrite app_nil_r, <- E, Ea in Eh. injection Eh as Eh.
    by apply app_nil in Eh as [_ ->].
  - destruct (after [10; 10] p) as [r|] eqn:Ea; [|done]. apply (after_app _ q) in Ea.
    rewrite E, after_two_lf in Ea by done. discriminate.
Qed.

(** Whether a line is the header [name]. *)
Definition line_is (name l : list Z) : bool := has_prefix_ci name l && bool_decide (nth (length name) l 0 = 58).

Lemma line_test name l s : plain name -> plain l ->
  has_prefix_ci name (l ++ 13 :: s) && bool_decide (nth (length name) (l ++ 13 :: s) 0 = 58) = line_is name l.
Proof.
  intros Hn Hl. unfold line_is. destruct (Nat.lt_ge_cases (length name) (length l)) as [H|H].
  - unfold has_prefix_ci. rewrite take_app_le, app_nth1 by lia. done.
  - assert (E : bool_decide (nth (length name) l 0 = 58) = false) by (rewrite nth_overflow by lia; done).
    rewrite E, andb_false_r. destruct (decide (length name = length l)) as [El|Hne].
    + rewrite El, nth_middle. by rewrite andb_false_r.
    + apply andb_false_intro1. unfold has_prefix_ci. apply bool_decide_false. intros Em.
      apply (f_equal (fun m => m !! length l)) in Em. rewrite !list_lookup_fmap, lookup_take_lt, list_lookup_middle in Em by lia.
      cbn in Em. destruct (name !! length l) as [c|] eqn:Ec; [|done]. cbn in Em. injection Em as Em.
      apply (Forall_lookup_1 _ _ _ _ Hn) in Ec. unfold lower in Em. destruct ((65 <=? c) && (c <=? 90)) eqn:Eb; [|change ((65 <=? 13) && (13 <=? 90)) with false in Em; lia].
      apply andb_prop in Eb as [? ?]. change ((65 <=? 13) && (13 <=? 90)) with false in Em. lia.
Qed.

Lemma find_line_skip fuel name l s : plain name -> plain l -> line_is name l = false ->
  find_line (S fuel) name (l ++ crlf ++ s) = find_line fuel name s.
Proof.
  intros Hn Hl H. cbn [find_line]. change (crlf ++ s) with (13 :: 10 :: s). rewrite line_test, H by done.
  rewrite after_notin by (apply plain_not; auto). rewrite after_skip by (cbn; congruence).
  change (10 :: s) with ([10] ++ s). by rewrite after_here.
Qed.

Lemma find_line_http name pre l post x : plain name -> Forall wf_line pre -> plain l ->
  Forall (fun l => line_is name l = false) pre -> line_is name l = true -> forall fuel, (length pre < fuel)%nat ->
  find_line fuel name (http (pre ++ l :: post) ++ x) = Some (l ++ crlf ++ http post ++ x).
Proof.
  intros Hn Hpre Hl Hno Hyes. induction pre as [|l0 pre IH]; intros [|fuel] Hf; simpl in Hf; try lia; cbn [app]; rewrite http_cons, <- !app_assoc.
  - cbn [find_line]. change (crlf ++ http post ++ x) with (13 :: 10 :: http post ++ x). by rewrite line_test, Hyes.
  - apply Forall_cons in Hpre as [[Hl0 _] Hpre]. apply Forall_cons in Hno as [Hn0 Hno].
    rewrite find_line_skip by done. apply IH; [done|done|lia].
Qed.

Lemma find_line_none name ls : plain name -> name <> [] -> Forall wf_line ls ->
  Forall (fun l => line_is name l = false) ls -> forall fuel, find_line fuel name (http ls) = None.
Proof.
  intros Hn Hne Hls Hno. induction ls as [|l ls IH]; intros [|fuel]; try done.
  - assert (E : forall fuel, find_line fuel name [] = None).
    { intros [|n]; [done|]. cbn [find_line]. unfold has_prefix_ci. rewrite take_nil. by destruct name. }
    etransitivity; [apply (find_line_skip fuel name [] [])|]; [done|constructor| |apply E].
    unfold line_is, has_prefix_ci. rewrite take_nil. by destruct name.
  - apply Forall_cons in Hls as [[Hl _] Hls]. apply Forall_cons in Hno as [Hn0 Hno]. rewrite http_cons, find_line_skip by done. auto.
Qed.

Lemma up_to_app x l s : Forall (fun c => c <> x) l -> up_to x (l ++ x :: s) = Some l.
Proof.
  induction 1 as [|c l Hc _ IH]; cbn; [by rewrite Z.eqb_refl|]. destruct (Z.eqb_spec c x); [done|]. by rewrite IH.
Qed.

Lemma http_length ls x : Forall wf_line ls -> (length ls <= length (http ls ++ x))%nat.
Proof.
  induction ls as [|l ls IH]; intros H; [simpl; lia|]. apply Forall_cons in H as [_ H]. rewrite http_cons, <- !app_assoc, !length_app.
  specialize (IH H). rewrite length_app in IH. cbn. lia.
Qed.

(** The header line [name: v]. *)
Definition header (name v : list Z) : list Z := name ++ [58; 32] ++ v.
Definition is_name (name : list Z) : Prop := plain name /\ Forall (fun c => c <> 58) name.
Definition is_value (v : list Z) : Prop := plain v /\ forall w, v <> 32 :: w.

Lemma header_is name v : line_is name (header name v) = true.
Proof.
  unfold line_is, header, has_prefix_ci. rewrite take_app_length. cbn [app]. rewrite nth_middle. by rewrite !bool_decide_true.
Qed.

Lemma header_plain name v : plain name -> plain v -> plain (header name v).
Proof. intros Hn Hv. apply Forall_app. split; [done|]. apply Forall_app. split; [|done]. repeat constructor; lia. Qed.

Lemma cheezy_found name v pre post x n : is_name name -> is_value v -> Forall wf_line pre ->
  Forall (fun l => line_is name l = false) pre ->
  cheezy_get_var (http (pre ++ header name v :: post) ++ x) name n = Some (take (Z.to_nat (n - 1)) v).
Proof.
  intros [Hn Hc] [Hv Hs] Hpre Hno. unfold cheezy_get_var.
  rewrite (find_line_http name pre (header name v) post x Hn Hpre); [|by apply header_plain|done|apply header_is|].
  2: { pose proof (http_length pre [] Hpre). unfold http in *. rewrite map_app, concat_app, !length_app in *. cbn in *. lia. }
  unfold header. rewrite <- !app_assoc. cbn [mbind option_bind]. rewrite after_notin by done.
  change ([58; 32] ++ v ++ crlf ++ http post ++ x) with ([58] ++ 32 :: v ++ crlf ++ http post ++ x). rewrite after_here. cbn [mbind option_bind app skip_spaces].
  assert (E : skip_spaces (v ++ crlf ++ http post ++ x) = v ++ crlf ++ http post ++ x).
  { destruct v as [|c v]; [done|]. cbn [app skip_spaces]. destruct (decide (c = 32)) as [->|Hne]; [by destruct (Hs v)|].
    destruct c as [|p|]; try done. do 6 (destruct p as [p|p|]; try done). }
  rewrite E. change (crlf ++ http post ++ x) with (13 :: 10 :: http post ++ x).
  by rewrite up_to_app by (apply plain_not; auto).
Qed.

Lemma cheezy_none name ls n : plain name -> name <> [] -> Forall wf_line ls ->
  Forall (fun l => line_is name l = false) ls -> cheezy_get_var (http ls) name n = None.
Proof. intros. unfold cheezy_get_var. by rewrite find_line_none. Qed.

(** ** Reading to the blank line *)

Lemma cstr_more l x t : no_nul l -> exists x', cstr (l ++ x ++ 0 :: t) 0 = Ok (l ++ x').
Proof.
  intros Hl. assert (E : exists x' t', x ++ 0 :: t = x' ++ 0 :: t' /\ no_nul x').
  { induction x as [|c x (x' & t' & E & Hx)]; [exists [], t; by repeat constructor|].
    destruct (decide (c = 0)) as [->|Hc]; [exists [], (x ++ 0 :: t); by repeat constructor|].
    exists (c :: x'), t'. cbn. rewrite E. split; [done|]. by constructor. }
  destruct E as (x' & t' & -> & Hx). exists x'. rewrite app_assoc. apply cstr_full. by apply Forall_app.
Qed.

Lemma plain_no_nul l : plain l -> no_nul l.
Proof. intros H. apply plain_not; auto. Qed.

Lemma http_no_nul ls : Forall wf_line ls -> no_nul (http ls).
Proof.
  induction ls as [|l ls IH]; intros H; [by repeat constructor|]. apply Forall_cons in H as [[Hl _] H].
  rewrite http_cons. apply Forall_app. split; [by apply plain_no_nul|]. repeat (constructor; [done|]). by apply IH.
Qed.

Section Reading.
Context (ls : list (list Z)) (Hne : ls <> []) (Hls : Forall wf_line ls).

Lemma server_read_run rest : forall fuel k got tail bs, k.(buffer) = got ++ tail -> k.(datalen) = zlen got -> at_socket k.(rd) ->
  delivers k.(rd).(inbox) bs rest -> got ++ bs = http ls -> bs <> [] -> k.(buflen) = zlen k.(buffer) ->
  zlen (http ls) < k.(buflen) < 2147483648 -> (length bs < fuel)%nat ->
  exists bytes t rd', server_read_loop fuel k = Ok (bytes, upd_head k (zlen (http ls)) (http ls ++ 0 :: t) rd') /\
    1 <= bytes < k.(buflen) /\ at_socket rd' /\ rd'.(inbox) = rest /\ zlen (http ls ++ 0 :: t) = zlen k.(buffer).
Proof.
  induction fuel as [|fuel IH]; intros k got tail bs Eb Ed Hrd Hdel E Hbs Ebl Hroom Hf; [lia|]. cbn [server_read_loop].
  pose proof (f_equal zlen E) as El. pose proof (f_equal zlen Eb) as Ebz. rewrite zlen_app in El, Ebz. pose proof (zlen_nonneg got).
  assert (1 <= zlen bs) by (destruct bs; [done|rewrite zlen_cons; pose proof (zlen_nonneg bs); lia]).
  destruct (string_read_chunk k.(rd) None got tail bs rest (k.(buflen) - k.(datalen) - 1) WS_BLOCK Hrd
    ltac:(right; unfold WS_BLOCK; lia) Hdel Hbs ltac:(lia) ltac:(lia)) as (m & tail' & rd1 & E1 & Hm & Hmb & Ht & Hrd1 & Hdel1 & t & ->).
  rewrite Z.sub_add in E1. rewrite Eb, Ed in *. rewrite E1. cbn [mbind res_bind].
  destruct (Z.ltb_spec 0 m); [|lia]. cbn [datalen buffer set_datalen set_rd set_buffer]. rewrite Ed.
  set (got' := got ++ take (Z.to_nat m) bs). assert (Eg : zlen got' = zlen got + m) by (unfold got'; rewrite zlen_app, zlen_take_le by lia; lia).
  assert (Egb : got' ++ drop (Z.to_nat m) bs = http ls) by (unfold got'; by rewrite <- app_assoc, take_drop).
  assert (Hno : no_nul got') by (pose proof (http_no_nul ls Hls) as Hn; rewrite <- Egb in Hn; by apply Forall_app in Hn as [? _]).
  rewrite cstr_full by done. cbn [mbind res_bind]. fold blank. rewrite <- Eg.
  change (set_datalen (zlen got') (set_rd rd1 (set_buffer (got' ++ 0 :: t) k))) with (upd_head k (zlen got') (got' ++ 0 :: t) rd1).
  assert (Ez : zlen (got' ++ 0 :: t) = zlen k.(buffer)) by (rewrite Eb, !zlen_app; lia).
  destruct (decide (drop (Z.to_nat m) bs = [])) as [Edr|Hdr].
  - rewrite Edr, app_nil_r in Egb. rewrite Edr in Hdel1. apply delivers_nil in Hdel1. rewrite Egb in *.
    pose proof (after_http ls [] Hne Hls) as Ea. rewrite app_nil_r in Ea. rewrite Ea. cbn [is_Some_dec].
    exists m, t, rd1. parts. by rewrite Ez, Eb.
  - destruct (http_prefix ls got' _ Hne Hls Egb Hdr) as [-> ->]. cbn [is_Some_dec].
    destruct (IH (upd_head k (zlen got') (got' ++ 0 :: t) rd1) got' (0 :: t) (drop (Z.to_nat m) bs)) as (bytes & t2 & rd2 & E2 & Hb2 & Hrd2 & Hin2 & Ez2);
      [done|done|done|done|done|done|cbn; rewrite Ez, Eb; done|exact Hroom|rewrite length_drop; unfold zlen in *; lia|].
    exists bytes, t2, rd2. split; [exact E2|]. cbn in Hb2, Ez2. parts. by rewrite Ez2, Ez, Eb.
Qed.

(** A whole chunk that fits. *)
Lemma string_read_whole rd dst bs rest n : at_socket rd -> rd.(inbox) = Recv bs :: rest -> 1 <= n < 2147483648 ->
  1 <= zlen bs <= n -> n < MAX_RW -> zlen dst = n + 1 ->
  exists t, kws_string_read rd None dst 0 (n + 1) WS_BLOCK =
    Ok (zlen bs, bs ++ 0 :: t, MkReader 0 0 rd.(unprocessed_position) rest) /\ zlen (bs ++ 0 :: t) = n + 1.
Proof.
  intros [Hx Hu] Hin Hn Hbs Hmax Hd. unfold kws_string_read. destruct (Z.ltb_spec (n + 1) 1); [lia|]. destruct (Z.ltb_spec (n + 1) 2); [lia|].
  assert (Est := st_behind [] dst n 0 ltac:(lia)). change (zlen (@nil Z) + n) with n in Est. cbn [app] in Est.
  replace (0 + (n + 1) - 1) with n by lia. rewrite Est. cbn [mbind res_bind default from_option].
  set (d1 := take (Z.to_nat n) dst ++ 0 :: drop (S (Z.to_nat n)) dst).
  assert (Ed1 : zlen d1 = n + 1) by (unfold d1, zlen in *; rewrite length_app, length_take; cbn [length]; rewrite length_drop; lia).
  unfold kws_raw_read. rewrite Hu, Hx, Hin. cbn [Z.ltb Z.compare]. cbn [recv_loop recv length]. replace (n + 1 - 1) with n by lia.
  rewrite s32_id, u64_id, Z.min_l by lia. destruct (Z.leb_spec (zlen bs) n); [|lia]. destruct (Z.eqb_spec (zlen bs) (-1)); [lia|].
  cbn [andb mbind res_bind]. change ((10000 <=? 0 + 1) || negb (WS_BLOCK =? 0) && (WS_BLOCK ÷ 10 <=? 0 + 1)) with false. cbv iota.
  destruct (Z.ltb_spec 0 (zlen bs)); [|lia]. destruct (Z.leb_spec 0 (zlen bs)); [|lia]. cbn [andb].
  destruct (blit_chunk [] d1 bs (zlen bs) n) as (tail & E & Et & Etl); [lia|lia|lia|]. cbn [app] in E.
  rewrite take_ge in E by (unfold zlen; lia). change (zlen (@nil Z)) with 0 in E. rewrite E. cbn [mbind res_bind].
  assert (Ht : exists t, tail = 0 :: t).
  { rewrite Etl. destruct (Z.ltb_spec (zlen bs) n); [by eexists|]. replace (zlen bs) with n by lia. unfold d1.
    rewrite Nat.add_0_r, drop_app_length' by (rewrite length_take; unfold zlen in *; lia). by eexists. }
  destruct Ht as (t & ->). exists t. split; [done|]. rewrite zlen_app. lia.
Qed.
End Reading.

(** ** Request and response in lines *)

Definition key_name : list Z := text "Sec-WebSocket-Key".
Definition proto_name : list Z := text "Sec-WebSocket-Protocol".
Definition accept_name : list Z := text "Sec-WebSocket-Accept".

Definition request_lines (c : kws) (enonce : list Z) : list (list Z) :=
  [text "GET " ++ c.(req_uri) ++ text " HTTP/1.1"; text "Host: " ++ c.(req_host);
   text "Upgrade: websocket"; text "Connection: Upgrade"; header key_name enonce; text "Sec-WebSocket-Version: 13"] ++
  match c.(req_proto) with Some pr => [header proto_name pr] | None => [] end ++
  map (fun h => header h.1 h.2) c.(headers).

Definition response_lines (accept proto : list Z) : list (list Z) :=
  [text "HTTP/1.1 101 Switching Protocols"; text "Upgrade: websocket"; text "Connection: Upgrade"; header accept_name accept] ++
  (if bool_decide (proto = []) then [] else [header proto_name proto]).

Lemma client_request_lines c enonce : client_request c enonce = http (request_lines c enonce).
Proof.
  unfold client_request, http, request_lines. rewrite !map_app, !concat_app, map_map.
  assert (E : concat (map (fun h => h.1 ++ text ": " ++ h.2 ++ crlf) (headers c)) =
    concat (map (fun h => header h.1 h.2 ++ crlf) (headers c))).
  { f_equal. apply map_ext. intros h. unfold header. by rewrite <- !app_assoc. }
  rewrite <- E. unfold header, key_name. destruct (req_proto c); cbn [map concat]; rewrite ?app_nil_r, <- !app_assoc; done.
Qed.

Lemma server_response_lines sha key proto : length (b64encode (sha (key ++ WEBSOCKET_GUID))) = 28%nat -> (length proto <= 255)%nat ->
  server_response sha key proto = http (response_lines (b64encode (sha (key ++ WEBSOCKET_GUID))) proto).
Proof.
  intros Hl Hp. unfold server_response. set (a := b64encode (sha (key ++ WEBSOCKET_GUID))) in *. rewrite take_ge.
  - unfold http, response_lines. rewrite map_app, concat_app. unfold header, accept_name.
    destruct (bool_decide (proto = [])); cbn [map concat]; rewrite ?app_nil_r, <- !app_assoc; done.
  - destruct (bool_decide (proto = [])); unfold text, bytes_of_string; rewrite !length_app, Hl, !length_map; cbn; lia.
Qed.

Ltac plain_const := apply (bool_decide_unpack _); vm_compute; exact I.

(** Lines that differ from a name at some byte. *)
Lemma line_differs name l i a b : name !! i = Some a -> l !! i = Some b -> lower a <> lower b -> line_is name l = false.
Proof.
  intros Ha Hb Hab. unfold line_is. apply andb_false_intro1. unfold has_prefix_ci. apply bool_decide_false. intros E.
  apply (f_equal (fun m => m !! i)) in E. rewrite !list_lookup_fmap, Ha, lookup_take_lt in E by (by apply lookup_lt_Some in Ha).
  rewrite Hb in E. cbn in E. congruence.
Qed.

Lemma plain_app l1 l2 : plain l1 -> plain l2 -> plain (l1 ++ l2).
Proof. intros. by apply Forall_app. Qed.

(** A client whose request is well formed. *)
Record client_ok (c : kws) : Prop := {
  co_uri : plain c.(req_uri) /\ Forall (fun b => b <> 32) c.(req_uri);
  co_host : plain c.(req_host);
  co_proto : match c.(req_proto) with Some pr => is_value pr /\ pr <> [] /\ (length pr <= 255)%nat | None => True end;
  co_headers : Forall (fun h => plain h.1 /\ plain h.2 /\ line_is proto_name (header h.1 h.2) = false) c.(headers)
}.

(** A connection before the handshake. *)
Record fresh (k : kws) : Prop := {
  fr_rd : at_socket k.(rd);
  fr_wr : takes_all k.(wr);
  fr_datalen : k.(datalen) = 0;
  fr_buffer : k.(buflen) = zlen k.(buffer) /\ k.(buflen) < MAX_RW
}.

Lemma b64_value inp : all_bytes inp -> is_value (b64encode inp) /\ length (b64encode inp) = (4 * ((length inp + 2) / 3))%nat.
Proof.
  intros Hb. rewrite b64encode_ref, Base64.b64_ref_length by done. split; [|done].
  assert (H : Forall (fun c => 43 <= c) (Base64.b64_ref inp)).
  { apply Base64.b64_ref_Forall; [|unfold Base64.b64_pad; lia|done]. intros v Hv. unfold Base64.is_sextet in Hv.
    assert (E : forallb (fun n => 43 <=? Base64.letter (Z.of_nat n)) (seq 0 64) = true) by reflexivity.
    rewrite forallb_forall in E. specialize (E (Z.to_nat v) ltac:(apply in_seq; lia)). rewrite Z2Nat.id in E by lia. lia. }
  split.
  - eapply Forall_impl; [exact H|]. cbn. lia.
  - intros w E. rewrite E in H. apply Forall_cons in H as [H _]. lia.
Qed.

Lemma request_wf c enonce : client_ok c -> plain enonce -> Forall wf_line (request_lines c enonce).
Proof.
  intros [[Hu _] Hh Hp Hhs] He. unfold request_lines. repeat first [apply Forall_app_2|apply Forall_cons_2|apply Forall_nil_2];
    try (split; [|done]); try plain_const.
  - apply plain_app; [plain_const|]. apply plain_app; [done|plain_const].
  - apply plain_app; [plain_const|done].
  - apply header_plain; [plain_const|done].
  - destruct (req_proto c) as [pr|]; [|constructor]. destruct Hp as ([Hp _] & _). constructor; [|constructor].
    split; [|done]. apply header_plain; [plain_const|done].
  - apply Forall_map. eapply Forall_impl; [exact Hhs|]. intros [n v] (Hn & Hv & _). cbn in *. split; [by apply header_plain|].
    unfold header. by destruct n.
Qed.

Lemma request_key c enonce : client_ok c -> is_value enonce -> (length enonce <= 255)%nat ->
  cheezy_get_var (client_request c enonce) (text "Sec-WebSocket-Key") 256 = Some enonce.
Proof.
  intros Hc He Hl. rewrite client_request_lines. pose proof (request_wf c enonce Hc (proj1 He)) as Hwf.
  pose proof (cheezy_found key_name enonce (take 4 (request_lines c enonce)) (drop 5 (request_lines c enonce)) [] 256) as E.
  rewrite app_nil_r in E. etransitivity; [apply E|rewrite take_ge by lia; done]; [split; plain_const|done|by apply Forall_take|].
  unfold request_lines. cbn [take app]. constructor; [by apply (line_differs _ _ 0 83 71)|].
  constructor; [by apply (line_differs _ _ 0 83 72)|]. by repeat constructor.
Qed.

Lemma request_proto c enonce : client_ok c -> is_value enonce ->
  default [] (cheezy_get_var (client_request c enonce) (text "Sec-WebSocket-Protocol") 256) = default [] c.(req_proto).
Proof.
  intros Hc He. rewrite client_request_lines. pose proof (request_wf c enonce Hc (proj1 He)) as Hwf.
  assert (Hno : Forall (fun l => line_is proto_name l = false) (take 6 (request_lines c enonce))).
  { unfold request_lines. cbn [take app]. constructor; [by apply (line_differs _ _ 0 83 71)|].
    constructor; [by apply (line_differs _ _ 0 83 72)|]. do 2 (constructor; [done|]).
    constructor; [by apply (line_differs _ _ 14 80 75)|]. by repeat constructor. }
  destruct Hc as [_ _ Hp Hhs]. destruct (req_proto c) as [pr|] eqn:Ep.
  - destruct Hp as (Hv & _ & Hl).
    pose proof (cheezy_found proto_name pr (take 6 (request_lines c enonce)) (drop 7 (request_lines c enonce)) [] 256) as E.
    rewrite app_nil_r in E. unfold request_lines in *. rewrite Ep in *. etransitivity; [refine (f_equal (default []) (E _ _ _ _))|];
      [split; plain_const|done|by apply Forall_take|exact Hno|]. cbn [default from_option]. rewrite take_ge by lia. done.
  - rewrite (cheezy_none proto_name); [done|plain_const|done|done|].
    unfold request_lines in *. rewrite Ep in *. cbn [take app] in *. apply (Forall_app_2 _ _ _ Hno). apply Forall_map.
    eapply Forall_impl; [exact Hhs|]. by intros h (_ & _ & H).
Qed.

Lemma response_length sha key proto : 1 <= zlen (server_response sha key proto) <= 511.
Proof.
  assert (E : exists l, server_response sha key proto = take 511 (72 :: l)) by (eexists; reflexivity).
  destruct E as (l & ->). unfold zlen. rewrite length_take. simpl length. lia.
Qed.

(** What a handshake leaves as it was. *)
Record shaken (k k' : kws) : Prop := {
  sh_buffer : zlen k'.(buffer) = zlen k.(buffer) /\ k'.(buflen) = k.(buflen);
  sh_bbuffer : k'.(bbuffer) = k.(bbuffer) /\ k'.(bbuflen) = k.(bbuflen);
  sh_state : k'.(down) = k.(down) /\ k'.(sanity) = k.(sanity) /\ k'.(block) = k.(block);
  sh_write : k'.(write_buffer) = k.(write_buffer) /\ k'.(write_buffer_len) = k.(write_buffer_len);
  sh_params : k'.(payload_size_max) = k.(payload_size_max) /\ k'.(type) = k.(type) /\ k'.(sock) = k.(sock)
}.

Section Shake.
Context (SHA1 : list Z -> list Z) (Hsha : forall m, all_bytes (SHA1 m) /\ length (SHA1 m) = 20%nat).

Lemma accept_ok key : is_value (b64encode (SHA1 key)) /\ length (b64encode (SHA1 key)) = 28%nat.
Proof. destruct (Hsha key) as [Hb Hl]. destruct (b64_value (SHA1 key) Hb) as [Hv E]. by rewrite E, Hl. Qed.

Lemma server_run c s enonce rest : client_ok c -> is_value enonce -> enonce <> [] -> (length enonce <= 255)%nat ->
  fresh s -> s.(sock) = true -> delivers s.(rd).(inbox) (client_request c enonce) rest ->
  zlen (client_request c enonce) < s.(buflen) ->
  let resp := server_response SHA1 enonce (default [] c.(req_proto)) in
  exists s', ws_server_handshake SHA1 s = Ok (0, s') /\ s'.(handshake) = true /\ s'.(uri) = Some c.(req_uri) /\
    s'.(wr).(sent) = s.(wr).(sent) ++ resp /\ s'.(rd).(inbox) = rest /\ takes_all s'.(wr) /\ at_socket s'.(rd) /\ shaken s s'.
Proof.
  intros Hc He Hne Hel [Hrd Hwr Hd [Hbl Hmax]] Hsock Hdel Hroom resp. pose proof (request_wf c enonce Hc (proj1 He)) as Hwf.
  pose proof (request_key c enonce Hc He Hel) as Hkey. pose proof (request_proto c enonce Hc He) as Hproto.
  rewrite client_request_lines in *. set (ls := request_lines c enonce) in *. unfold MAX_RW in Hmax.
  unfold ws_server_handshake. rewrite Hsock. cbn [negb].
  assert (Hhl : (2 <= length (http ls))%nat) by (unfold http; rewrite length_app; simpl; lia).
  destruct (server_read_run ls ltac:(done) Hwf rest (S (S (pending_bytes s.(rd)))) s [] s.(buffer) (http ls) eq_refl Hd Hrd Hdel eq_refl)
    as (bytes & t & rd' & -> & Hb & Hrd' & Hin & Hz); [by intros E; rewrite E in Hhl; simpl in Hhl; lia|done|lia|
      pose proof (delivers_pending _ _ _ Hdel); lia|]. cbn [mbind res_bind].
  destruct (Z.ltb_spec bytes 0); [lia|]. cbn [buflen upd_head set_datalen set_rd set_buffer]. destruct (Z.ltb_spec (buflen s - 1) bytes); [lia|].
  cbn [orb buffer datalen]. rewrite (st_app_mid (http ls) t 0 0) by done. cbn [mbind res_bind].
  rewrite cstr_full by by apply http_no_nul. cbn [mbind res_bind].
  assert (Eh : exists r, http ls = text "GET " ++ req_uri c ++ 32 :: r).
  { unfold ls, request_lines. cbn [app]. rewrite http_cons, <- !app_assoc. by eexists. }
  destruct Eh as (r & Eh). assert (Eg : has_prefix_ci (text "GET ") (http ls) = true) by by rewrite Eh.
  assert (Eu : up_to 32 (drop 4 (http ls)) = Some (req_uri c)).
  { rewrite Eh. change (drop 4 (text "GET " ++ ?l)) with l. apply up_to_app, Hc. }
  rewrite Eg, Eu. cbn [negb]. rewrite Hkey, Hproto. change (default [] (Some enonce)) with enonce. rewrite bool_decide_false by done.
  destruct (accept_ok (enonce ++ WEBSOCKET_GUID)) as [Hav Hal].
  assert (Hp : (length (default [] (req_proto c)) <= 255)%nat).
  { pose proof (co_proto c Hc) as Hp. destruct (req_proto c); [apply Hp|simpl; lia]. }
  assert (Hr : 1 <= zlen resp < 2147479552).
  { pose proof (response_length SHA1 enonce (default [] (req_proto c))). unfold resp. lia. }
  fold resp.
  destruct (raw_write_run s.(wr) resp (zlen resp) Hwr ltac:(lia) ltac:(lia)) as (w & Ew & Esent & Hw).
  match goal with |- context [kws_raw_write ?w0 resp _] => change w0 with (wr s) end.
  rewrite Ew, Z.eqb_refl. cbn [negb]. eexists. split; [reflexivity|]. rewrite take_ge in Esent by (unfold zlen; lia).
  do 2 (split; [reflexivity|]). do 4 (split; [done|]). split; by rewrite ?Hz.
Qed.

Lemma client_run c extra rest : client_ok c -> fresh c ->
  let enonce := b64encode (gen_nonce c.(wr) 16).1 in
  let req := client_request c enonce in
  let resp := server_response SHA1 enonce (default [] c.(req_proto)) in
  zlen req < MAX_RW -> c.(rd).(inbox) = Recv (resp ++ extra) :: rest -> zlen (resp ++ extra) < c.(buflen) ->
  exists c', ws_client_handshake SHA1 c = Ok (0, c') /\ c'.(handshake) = true /\ c'.(wr).(sent) = c.(wr).(sent) ++ req /\
    c'.(rd).(inbox) = rest /\ c'.(rd).(unprocessed_buffer_len) = zlen extra /\
    (extra <> [] -> slice c'.(buffer) c'.(rd).(unprocessed_position) (zlen extra) = Ok extra) /\
    takes_all c'.(wr) /\ c'.(rd).(x) = 0 /\ shaken c c'.
Proof.
  intros Hc [Hrd Hwr Hd [Hbl Hmax]] enonce req resp Hreq Hin Hroom. unfold MAX_RW in Hmax, Hreq. unfold ws_client_handshake.
  assert (Hnl : length (gen_nonce (wr c) 16).1 = 16%nat).
  { cbn [gen_nonce fst]. rewrite length_map, length_take, length_app, length_replicate. lia. }
  assert (Hnb : all_bytes (gen_nonce (wr c) 16).1).
  { cbn [gen_nonce fst]. apply Forall_map, Forall_forall. intros b _. apply u8_range. }
  assert (Hw : takes_all (gen_nonce (wr c) 16).2 /\ sent (gen_nonce (wr c) 16).2 = sent (wr c)) by done.
  destruct (b64_value _ Hnb) as [He Hel]. rewrite Hnl in Hel. change (4 * ((16 + 2) / 3))%nat with 24%nat in Hel.
  subst resp req enonce. destruct (gen_nonce (wr c) 16) as [nonce w]. cbn [fst snd] in *.
  set (enonce := b64encode nonce) in *. set (req := client_request c enonce) in *. destruct Hw as [Hw Hws].
  destruct (accept_ok (enonce ++ WEBSOCKET_GUID)) as [Hav Hal].
  assert (Hp : (length (default [] (req_proto c)) <= 255)%nat).
  { pose proof (co_proto c Hc) as Hp. destruct (req_proto c); [apply Hp|simpl; lia]. }
  pose proof (response_length SHA1 enonce (default [] (req_proto c))) as Hrl.
  rewrite (server_response_lines SHA1 enonce _ Hal Hp) in *.
  set (accept := b64encode (SHA1 (enonce ++ WEBSOCKET_GUID))) in *. set (ls := response_lines accept (default [] (req_proto c))) in *.
  assert (Hls : Forall wf_line ls).
  { unfold ls, response_lines. apply Forall_app_2.
    - do 3 (apply Forall_cons_2; [split; [plain_const|done]|]). apply Forall_cons_2; [|constructor].
      split; [|done]. apply header_plain; [plain_const|apply Hav].
    - destruct (bool_decide (default [] (req_proto c) = [])); [constructor|]. apply Forall_cons_2; [|constructor].
      split; [|done]. apply header_plain; [plain_const|]. pose proof (co_proto c Hc) as Hpr. destruct (req_proto c); [apply Hpr|constructor]. }
  assert (Hacc : forall x, cheezy_get_var (http ls ++ x) (text "Sec-WebSocket-Accept") 128 = Some accept).
  { intros x. unfold ls, response_lines.
    pose proof (cheezy_found accept_name accept (take 3 ls) (drop 4 ls) x 128) as E.
    etransitivity; [apply E|rewrite take_ge by lia; done]; [split; plain_const|done|by apply Forall_take|by repeat constructor]. }
  assert (Hr1 : 1 <= zlen req).
  { unfold req. rewrite client_request_lines. unfold http, zlen. rewrite length_app. simpl length. lia. }
  destruct (raw_write_run w req (zlen req) Hw ltac:(lia) ltac:(lia)) as (w' & -> & Esent & Hw'). cbn [snd].
  rewrite take_ge in Esent by (unfold zlen; lia). rewrite Hws in Esent.
  rewrite zlen_app in Hroom. pose proof (zlen_nonneg extra).
  cbn [client_read_loop]. cbn [Kws.rd Kws.buffer Kws.datalen Kws.buflen set_wr]. rewrite Hd, Z.sub_0_r.
  destruct (string_read_whole c.(rd) c.(buffer) (http ls ++ extra) rest (c.(buflen) - 1) Hrd Hin) as (t & E & Ez');
    [rewrite ?zlen_app; unfold MAX_RW; lia..|]. rewrite Z.sub_add, Hbl, <- app_assoc in Ez'. rewrite Z.sub_add in E. rewrite E. cbn [mbind res_bind].
  destruct (Z.ltb_spec 0 (zlen (http ls ++ extra))) as [Hpos|]; [|rewrite zlen_app in *; lia].
  destruct (cstr_more (http ls) extra t (http_no_nul ls Hls)) as (x' & Ecs). rewrite <- app_assoc in *. rewrite Ecs. cbn [mbind res_bind].
  pose proof (after_http ls x' ltac:(done) Hls) as Ea. change (after [13; 10; 13; 10] (http ls ++ x')) with (after blank (http ls ++ x')).
  rewrite Ea. cbn [mbind res_bind]. destruct (Z.ltb_spec 0 (zlen (http ls ++ extra))); [|lia].
  cbn [Kws.buffer set_rd set_buffer set_wr]. rewrite Ecs. cbn [mbind res_bind]. rewrite Hacc. change (default [] (Some accept)) with accept.
  rewrite bool_decide_false by (intros E2; rewrite E2 in Hal; done).
  assert (Ev : verify_accept SHA1 enonce accept = true).
  { unfold verify_accept, accept_key. rewrite take_ge; [by apply bool_decide_true|]. rewrite length_app, Hel. vm_compute. lia. }
  rewrite Ev. cbn [negb orb]. change (after [13; 10; 13; 10] (http ls ++ x')) with (after blank (http ls ++ x')). rewrite Ea.
  replace (zlen (http ls ++ x') - zlen x') with (zlen (http ls)) by (rewrite zlen_app; lia). rewrite !zlen_app.
  replace (zlen (http ls) + zlen extra - zlen (http ls)) with (zlen extra) by lia.
  destruct (Z.ltb_spec (zlen (http ls)) (zlen (http ls) + zlen extra)).
  - eexists. split; [reflexivity|]. split; [reflexivity|]. split; [exact Esent|]. do 2 (split; [reflexivity|]).
    split; [intros _; by apply slice_app|]. split; [done|]. split; [done|]. split; done.
  - assert (extra = []) as -> by (apply zlen_zero; lia). eexists. split; [reflexivity|]. split; [reflexivity|]. split; [exact Esent|].
    do 2 (split; [reflexivity|]). split; [done|]. split; [done|]. split; [done|]. split; done.
Qed.
End Shake.

(** The opening handshake succeeds: the request [ws_client_handshake] sends,
    arriving at a server in any chunks, is answered by [ws_server_handshake] and
    gives it the client's path; that answer, arriving at once, completes the
    client's handshake, and what the server sent right behind it is kept for the
    frames. It needs nothing of SHA-1 but its length. *)
Lemma kws_handshake_completes SHA1 c s extra rest_c rest_s :
  (forall m, all_bytes (SHA1 m) /\ length (SHA1 m) = 20%nat) ->
  client_ok c -> fresh c -> fresh s -> s.(sock) = true ->
  let enonce := b64encode (gen_nonce c.(wr) 16).1 in
  let req := client_request c enonce in
  let resp := server_response SHA1 enonce (default [] c.(req_proto)) in
  delivers s.(rd).(inbox) req rest_s -> zlen req < s.(buflen) ->
  c.(rd).(inbox) = Recv (resp ++ extra) :: rest_c -> zlen (resp ++ extra) < c.(buflen) ->
  exists s' c', ws_server_handshake SHA1 s = Ok (0, s') /\ s'.(handshake) = true /\ s'.(uri) = Some c.(req_uri) /\
    s'.(wr).(sent) = s.(wr).(sent) ++ resp /\ s'.(rd).(inbox) = rest_s /\
    ws_client_handshake SHA1 c = Ok (0, c') /\ c'.(handshake) = true /\ c'.(wr).(sent) = c.(wr).(sent) ++ req /\
    c'.(rd).(inbox) = rest_c /\ c'.(rd).(unprocessed_buffer_len) = zlen extra /\
    (extra <> [] -> slice c'.(buffer) c'.(rd).(unprocessed_position) (zlen extra) = Ok extra).
Proof.
  intros Hsha Hc Hfc Hfs Hsock enonce req resp Hdel Hroom Hin Hroom2.
  assert (Hnb : all_bytes (gen_nonce c.(wr) 16).1) by (cbn [gen_nonce fst]; apply Forall_map, Forall_forall; intros b _; apply u8_range).
  assert (Hnl : length (gen_nonce c.(wr) 16).1 = 16%nat) by (cbn [gen_nonce fst]; rewrite length_map, length_take, length_app, length_replicate; lia).
  destruct (b64_value _ Hnb) as [He Hel]. rewrite Hnl in Hel. change (4 * ((16 + 2) / 3))%nat with 24%nat in Hel. fold enonce in He, Hel.
  destruct (server_run SHA1 Hsha c s enonce rest_s Hc He) as (s' & ? & ? & ? & ? & ? & _); [by intros E; rewrite E in Hel|lia|done..|].
  destruct (fr_buffer s Hfs) as [_ Hmax].
  destruct (client_run SHA1 Hsha c extra rest_c Hc Hfc) as (c' & ? & ? & ? & ? & ? & ? & _); [fold enonce req; lia|done|done|].
  exists s', c'. parts.
Qed.

(** ** A concrete handshake *)

Definition ex_peer (t : kws_type_t) (proto : option (list Z)) (ev : list recv_event) : kws :=
  MkKws t true (replicate 400 0) (replicate 64 0) 400 64 0 None (MkReader 0 0 0 ev)
    (MkWriter [] [] (map Z.of_nat (seq 1 40))) 0 false false 10000 5000 0 None 0 0 (text "/chat") (text "host") proto [].

Definition ex_request : list Z :=
  client_request (ex_peer KWS_CLIENT (Some (text "sip")) []) (b64encode (map Z.of_nat (seq 1 16))).
Definition ex_response : list Z := server_response ex_sha (b64encode (map Z.of_nat (seq 1 16))) (text "sip").

Lemma ex_peer_fresh t proto ev : fresh (ex_peer t proto ev).
Proof. split; [done| |done|done]. exists []. parts. unfold WS_WRITE_SANITY. simpl. lia. Qed.

Lemma kws_handshake_completes_witness :
  let c := ex_peer KWS_CLIENT (Some (text "sip")) [Recv (ex_response ++ [129; 1; 72])] in
  let s := ex_peer KWS_SERVER None [Recv (take 30 ex_request); Recv (drop 30 ex_request)] in
  exists s' c', ws_server_handshake ex_sha s = Ok (0, s') /\ s'.(uri) = Some (text "/chat") /\ s'.(wr).(sent) = ex_response /\
    ws_client_handshake ex_sha c = Ok (0, c') /\ c'.(wr).(sent) = ex_request /\ c'.(rd).(unprocessed_buffer_len) = 3.
Proof.
  intros c s.
  destruct (kws_handshake_completes ex_sha c s [129; 1; 72] [] []) as (s' & c' & H).
  - intros m. split; [|done]. unfold ex_sha. apply Forall_replicate, u8_range.
  - split; [split; plain_const|plain_const| |constructor]. split; [|split; [discriminate|simpl; lia]]. split; [plain_const|]. intros w. discriminate.
  - apply ex_peer_fresh.
  - apply ex_peer_fresh.
  - reflexivity.
  - exists [take 30 ex_request; drop 30 ex_request]. split; [reflexivity|]. split; [reflexivity|].
    repeat constructor; vm_compute; discriminate.
  - vm_compute. reflexivity.
  - reflexivity.
  - vm_compute. reflexivity.
  - destruct H as (H1 & _ & H2 & H3 & _ & H4 & _ & H5 & _ & H6 & _). exists s', c'. repeat split; assumption.
Defined.

(** The client reads every part of the response to the same place: a response
    that is split inside its Accept header is overwritten, and the handshake fails. *)
Lemma split_response :
  let run ev := match ws_client_handshake ex_sha (ex_peer KWS_CLIENT (Some (text "sip")) ev) with Ok (r, _) => Some r | Err _ => None end in
  run [Recv ex_response] = Some 0 /\ run [Recv (take 90 ex_response); Recv (drop 90 ex_response)] = Some (-1).
Proof. vm_compute. done. Qed.
End KwsHandshake.
