(* ===== verification/KwsHttp.v ===== *)
(** HTTP requests on WebSocket connections (src/src/kws.c): cleaning the path,
    the query string, the request line and headers, keep-alive. *)
From S2P Require Import Prelude StrUtil Tokens Kws.
Import Kws.
Local Open Scope Z_scope.

Module KwsHttp.

(** ** Strings inside a buffer *)

(** [strchr(m + off, c)] *)
Definition strchr (m : list Z) (off c : Z) : res (option Z) :=
  s ← cstr m off;
  Ok (option_map (fun l => off + zlen l) (up_to c s)).

(** [strncasecmp(m, name, n) == 0], [n] the length of [name] or less. *)
Definition begins_ci (name : list Z) (n : nat) (s : list Z) : bool :=
  bool_decide (map lower (take n s) = map lower (take n name)).

(** [ks_separate_string] of the string at [off]. *)
Definition separate_at (m : list Z) (off delim arraylen : Z) : res (list Z * list Z) :=
  v ← Tokens.ks_separate_string (Some (drop (Z.to_nat off) m)) delim arraylen;
  let '(t, array) := v in
  Ok (take (Z.to_nat off) m ++ t, map (Z.add off) array).

(** ** The path *)

(** [argv\[1\]] to [argv\[last - 1\]]. *)
Fixpoint keep_segments (m : list Z) (argv kept : list Z) : res (list Z) :=
  match argv with
  | [] => Ok kept
  | a :: argv =>
    s ← cstr m a;
    if bool_decide (s = []) || bool_decide (s = [46]) then keep_segments m argv kept
    else if bool_decide (s = [46; 46]) then keep_segments m argv (removelast kept)
    else keep_segments m argv (kept ++ [a])
  end.

(** [sprintf(m + dst, "/%s", m + src)]. Where the argument and the place it is
    written to overlap C leaves it undefined: what it does there is a parameter. *)
Section Overlapping.
Variable overlapping : list Z -> Z -> Z -> res (list Z).

Definition sprintf_slash (m : list Z) (dst src : Z) : res (list Z) :=
  s ← cstr m src;
  if (src + zlen s + 1 <=? dst) || (dst + zlen s + 2 <=? src) then blit m dst (47 :: s ++ [0]) else overlapping m dst src.

Fixpoint join_segments (m : list Z) (kept : list Z) (uri_len : Z) : res (list Z) :=
  match kept with
  | [] => Ok m
  | a :: kept => s ← cstr m a; m ← sprintf_slash m uri_len a; join_segments m kept (uri_len + zlen s + 1)
  end.

Definition clean_uri (uri : list Z) : res (ks_status_t * list Z) :=
  v ← Tokens.ks_separate_string (Some uri) 47 64;
  let '(m, argv) := v in
  if zlen argv =? 64 then Ok (KS_STATUS_FAIL, m) else
  kept ← keep_segments m (tail argv) [];
  m ← join_segments m kept 0;
  c ← ld m 0;
  if c =? 0 then m ← st m 0 47; m ← st m 1 0; Ok (KS_STATUS_SUCCESS, m) else Ok (KS_STATUS_SUCCESS, m).

(** ** Requests *)

Definition KWS_MAX_HEADERS : Z := 64.

(** The offsets are in [_buffer]; [headers] are [headers_k] and [headers_v]. *)
Record kws_request := MkRequest {
  _buffer : option (list Z);
  r_method : option Z;
  r_uri : option Z;
  r_qs : option Z;
  r_host : option Z;
  r_port : Z;
  r_user_agent : option Z;
  r_referer : option Z;
  r_keepalive : bool;
  r_content_type : option Z;
  r_authorization : option Z;
  r_content_length : Z;
  r_bytes_header : Z;
  r_bytes_read : Z;
  r_bytes_buffered : Z;
  r_headers : list (list Z * list Z);
  r_total_headers : Z
}.

(** [while ((next = strchr(next, '&')))]: one parameter; [q] is a string of its own. *)
Definition parse_param (q : list Z) : res (option (list Z * list Z)) :=
  let plus := map (fun c => if c =? 43 then 32 else c) q in
  m ← StrUtil.ks_url_decode (plus ++ [0]);
  s ← cstr m 0;
  match up_to 61 s with
  | Some name => Ok (Some (name, drop (S (length name)) s))
  | None => Ok None
  end.

Fixpoint parse_qs_loop (fuel : nat) (q : list Z) (headers : list (list Z * list Z)) (total : Z) :
    res (list (list Z * list Z) * Z) :=
  match fuel with
  | O => Err NoFuel
  | S fuel =>
    if negb (total <? KWS_MAX_HEADERS) then Ok (headers, total) else
    let '(param, next) := match up_to 38 q with Some l => (l, Some (drop (S (length l)) q)) | None => (q, None) end in
    h ← parse_param param;
    let '(headers, total) := match h with
      | Some kv => (take (Z.to_nat total) headers ++ [kv], total + 1)
      | None => (headers, total) end in
    match next with Some q => parse_qs_loop fuel q headers total | None => Ok (headers, total) end
  end.

Definition set_headers (hs : list (list Z * list Z)) (total : Z) (r : kws_request) : kws_request :=
  MkRequest r.(_buffer) r.(r_method) r.(r_uri) r.(r_qs) r.(r_host) r.(r_port) r.(r_user_agent) r.(r_referer) r.(r_keepalive)
    r.(r_content_type) r.(r_authorization) r.(r_content_length) r.(r_bytes_header) r.(r_bytes_read) r.(r_bytes_buffered) hs total.

(** [qs]: the caller's string, or the request's own. *)
Definition kws_parse_qs (r : kws_request) (qs : option (list Z)) : res (ks_status_t * kws_request) :=
  q ← (match qs with
       | Some q => Ok q
       | None => match r.(_buffer), r.(r_qs) with
                 | Some m, Some off => cstr m off
                 | _, _ => Err NullDeref
                 end
       end);
  v ← parse_qs_loop (S (length q)) q r.(r_headers) r.(r_total_headers);
  let '(hs, total) := v in Ok (KS_STATUS_SUCCESS, set_headers hs total r).

(** One header at [h] of the buffer: the request; [None]: no colon. *)
Definition parse_one (r : kws_request) (m : list Z) (h : Z) : res (option kws_request) :=
  v ← separate_at m h 58 2;
  let '(m, argv) := v in
  match argv with
  | [k; v0] =>
    header ← cstr m k;
    value0 ← cstr m v0;
    let value_off := v0 + (zlen value0 - zlen (skip_spaces value0)) in
    let value1 := skip_spaces value0 in
    let len := zlen value1 in
    cr ← (if len =? 0 then Ok false else c ← ld m (value_off + len - 1); Ok (c =? 13));
    m ← (if cr : bool then st m (value_off + len - 1) 0 else Ok m);
    value ← cstr m value_off;
    let hs := r.(r_headers) ++ [(header, value)] in
    let upd m ua host port ct cl ref au :=
      Ok (Some (MkRequest (Some m) r.(r_method) r.(r_uri) r.(r_qs) host port ua ref r.(r_keepalive) ct au cl
        r.(r_bytes_header) r.(r_bytes_read) r.(r_bytes_buffered) hs r.(r_total_headers))) in
    let ua := r.(r_user_agent) in let host := r.(r_host) in let port := r.(r_port) in let ct := r.(r_content_type) in
    let cl := r.(r_content_length) in let ref := r.(r_referer) in let au := r.(r_authorization) in
    if begins_ci (text "User-Agent") 10 header then upd m (Some value_off) host port ct cl ref au
    else if begins_ci (text "Host") 4 header then
      p ← strchr m value_off 58;
      match p with
      | None => upd m ua (Some value_off) port ct cl ref au
      | Some p =>
        m ← st m p 0;
        c ← ld m (p + 1);
        port ← (if c =? 0 then Ok port else s ← cstr m (p + 1); n ← StrUtil.atoi s; Ok (u16 n));
        upd m ua (Some value_off) port ct cl ref au
      end
    else if begins_ci (text "Content-Type") 12 header then upd m ua host port (Some value_off) cl ref au
    else if begins_ci (text "Content-Length") 14 header then
      n ← StrUtil.atoi value; upd m ua host port ct (u64 n) ref au
    else if begins_ci (text "Referer") 7 header then upd m ua host port ct cl (Some value_off) au
    else if begins_ci (text "Authorization") 7 header then upd m ua host port ct cl ref (Some value_off)
    else upd m ua host port ct cl ref au
  | _ => Ok None
  end.

Fixpoint parse_headers (r : kws_request) (hs : list Z) : res (option kws_request) :=
  match hs with
  | [] => Ok (Some r)
  | h :: hs =>
    match r.(_buffer) with
    | None => Err NullDeref
    | Some m => v ← parse_one r m h; match v with Some r => parse_headers r hs | None => Ok None end
    end
  end.

(** [request->_buffer] from [strdup] on: the request, and whether there were headers. [None]: [err:]. *)
Definition parse_request (req : list Z) (datalen bytes_header : Z) : res (option (kws_request * bool)) :=
  let m := req ++ [0] in
  p ← strchr m 0 32;
  match p with
  | None => Ok None
  | Some p =>
    m ← st m p 0;
    let uri := p + 1 in
    c ← ld m uri;
    if negb (c =? 47) then Ok None else
    p ← strchr m uri 32;
    match p with
    | None => Ok None
    | Some p =>
      m ← st m p 0;
      let http := p + 1 in
      q ← strchr m uri 63;
      m ← (match q with Some q => st m q 0 | None => Ok m end);
      let qs := option_map (Z.add 1) q in
      v ← clean_uri (drop (Z.to_nat uri) m);
      let '(status, t) := v in
      if bool_decide (status <> KS_STATUS_SUCCESS) then Ok None else
      let m := take (Z.to_nat uri) m ++ t in
      line ← cstr m http;
      let v11 := bool_decide (take 8 line = text "HTTP/1.1") in
      if negb v11 && negb (bool_decide (take 8 line = text "HTTP/1.0")) then Ok None else
      p ← strchr m http 10;
      let r m := MkRequest (Some m) (Some 0) (Some uri) qs None 0 None None v11 None None 0 bytes_header bytes_header datalen [] 0 in
      match p with
      | None => Ok (Some (r m, false))
      | Some p =>
        m ← st m p 0;
        v ← separate_at m (p + 1) 10 KWS_MAX_HEADERS;
        let '(m, hs) := v in
        if zlen hs <? 1 then Ok None else
        v ← parse_headers (r m) hs;
        match v with
        | Some r => Ok (Some (set_headers r.(r_headers) (zlen hs) r, true))
        | None => Ok None
        end
      end
    end
  end.

(** Where the body begins, and the end of the header part. *)
Definition find_body (s : list Z) : option (Z * Z) :=
  match after [13; 10; 13; 10] s with
  | Some rest => Some (zlen s - zlen rest - 4, zlen s - zlen rest)
  | None => match after [10; 10] s with
            | Some rest => Some (zlen s - zlen rest - 2, zlen s - zlen rest)
            | None => None
            end
  end.

(** [while (i--) if ( *p++ == ' ') break;]: what is left in [i]. *)
Fixpoint sanity_scan (i : nat) (m : list Z) (p : Z) : res Z :=
  match i with
  | O => Ok (-1)
  | S i => c ← ld m p; if c =? 32 then Ok (Z.of_nat i) else sanity_scan i m (p + 1)
  end.

(** The status, the connection, and the request; [None]: [*requestP] is NULL. *)
Definition kws_parse_header (k : kws) : res (ks_status_t * kws * option kws_request) :=
  let datalen := k.(datalen) in
  if datalen <? 16 then Ok (KS_STATUS_FAIL, k, None) else
  i ← sanity_scan 10 k.(buffer) 0;
  if i =? 0 then Ok (KS_STATUS_FAIL, k, None) else
  s ← cstr k.(buffer) 0;
  match find_body s with
  | None => Ok (KS_STATUS_FAIL, k, None)
  | Some (e, body) =>
    buf ← st k.(buffer) e 0;
    let k := set_buffer buf k in
    req ← cstr buf 0;
    v ← parse_request req datalen body;
    match v with
    | None => Ok (KS_STATUS_FAIL, k, None)
    | Some (r, has_headers) =>
      k ← (if has_headers : bool then
             let left := if body <=? datalen then datalen - body else datalen in
             let k := if body <=? datalen then set_datalen left k else k in
             if 0 <? left then
               d ← slice k.(buffer) body (left + 1);
               buf ← blit k.(buffer) 0 d;
               Ok (set_rd (MkReader k.(rd).(x) left 0 k.(rd).(inbox)) (set_buffer buf k))
             else Ok k
           else Ok k);
      v ← (match r.(r_qs) with Some _ => kws_parse_qs r None | None => Ok (KS_STATUS_SUCCESS, r) end);
      Ok (KS_STATUS_SUCCESS, k, Some v.2)
    end
  end.
End Overlapping.

Definition kws_request_reset (r : kws_request) : kws_request :=
  MkRequest None r.(r_method) r.(r_uri) r.(r_qs) r.(r_host) r.(r_port) r.(r_user_agent) r.(r_referer) r.(r_keepalive)
    r.(r_content_type) r.(r_authorization) r.(r_content_length) r.(r_bytes_header) r.(r_bytes_read) r.(r_bytes_buffered) [] 0.

Definition kws_request_free (request : option kws_request) : option kws_request := None.

Fixpoint kws_request_get_header (headers : list (list Z * list Z)) (key : list Z) : option (list Z) :=
  match headers with
  | [] => None
  | (k, v) :: headers => if bool_decide (k = key) then Some v else kws_request_get_header headers key
  end.

(** ** The connection around requests *)

Definition kws_get_buffer (k : kws) : ks_status_t * list Z * Z := (KS_STATUS_SUCCESS, k.(buffer), k.(datalen)).
Definition kws_test_flag (k : kws) (f : Z) : Z := Z.land k.(flags) f.
Definition kws_set_flag (k : kws) (f : Z) : Z * kws := (Z.lor k.(flags) f, set_flags (Z.lor k.(flags) f) k).
Definition kws_clear_flag (k : kws) (f : Z) : Z * kws :=
  (Z.land k.(flags) (Z.lnot f), set_flags (Z.land k.(flags) (Z.lnot f)) k).

Definition kws_read_buffer (k : kws) (bytes block : Z) : res (Z * kws) :=
  let bytes := if k.(buflen) <? bytes then k.(buflen) else bytes in
  v ← kws_string_read k.(rd) None k.(buffer) 0 bytes block;
  let '(r, buf, rd') := v in Ok (r, set_rd rd' (set_buffer buf k)).

(** The loop is that of the server's handshake. *)
Definition kws_keepalive (k : kws) : res (ks_status_t * kws) :=
  v ← server_read_loop (S (S (pending_bytes k.(rd)))) (set_datalen 0 k);
  let '(bytes, k) := v in Ok (if 0 <? bytes then KS_STATUS_SUCCESS else KS_STATUS_FAIL, k).

(** ** The cleaned path as segments *)

Definition norm_step (segments : list (list Z)) (s : list Z) : list (list Z) :=
  if bool_decide (s = []) || bool_decide (s = [46]) then segments
  else if bool_decide (s = [46; 46]) then removelast segments else segments ++ [s].
Definition normalize (fs : list (list Z)) : list (list Z) := fold_left norm_step fs [].
Definition slashed (segments : list (list Z)) : list Z := concat (map (cons 47) segments).
Definition render (segments : list (list Z)) : list Z := match segments with [] => [47] | _ => slashed segments end.

(** Strings [vs] at [os] in [m], each with a gap in front, the first behind [lo]. *)
Inductive segs (m : list Z) : Z -> list Z -> list (list Z) -> Prop :=
  | segs_nil lo : segs m lo [] []
  | segs_cons lo o v os vs : lo < o -> Tokens.c_string m o v -> no_nul v -> segs m (o + zlen v) os vs ->
      segs m lo (o :: os) (v :: vs).

Lemma segs_below m lo lo' os vs : segs m lo os vs -> lo' <= lo -> segs m lo' os vs.
Proof. intros H Hl. destruct H; constructor; (lia || done). Qed.

Lemma segs_length m lo os vs : segs m lo os vs -> length os = length vs.
Proof. induction 1; simpl; congruence. Qed.

(** Leaving a string out keeps the rest in order. *)
Lemma segs_drop m a v r rv : forall k kv lo, length k = length kv -> segs m lo (k ++ a :: r) (kv ++ v :: rv) -> segs m lo (k ++ r) (kv ++ rv).
Proof.
  induction k as [|o k IH]; intros [|w kv] lo Hl H; try done; cbn [app] in *; inversion H; subst.
  - apply (segs_below _ (a + zlen v)); [done|]. pose proof (zlen_nonneg v). lia.
  - constructor; try done. by apply IH; [injection Hl|].
Qed.

Lemma removelast_length {A} (l : list A) : length (removelast l) = pred (length l).
Proof. destruct l as [|a l] using rev_ind; [done|]. rewrite removelast_last, length_app. simpl. lia. Qed.

Lemma keep_segments_run m lo : forall argv vs k kv, length k = length kv -> segs m lo (k ++ argv) (kv ++ vs) ->
  exists k', keep_segments m argv k = Ok k' /\ segs m lo k' (fold_left norm_step vs kv).
Proof.
  induction argv as [|a argv IH]; intros vs k kv Hl H.
  { pose proof (segs_length _ _ _ _ H) as E. rewrite !length_app in E. destruct vs; [|simpl in E; lia]. exists k. rewrite !app_nil_r in H. done. }
  pose proof (segs_length _ _ _ _ H) as E. rewrite !length_app in E. destruct vs as [|v vs]; [simpl in E; lia|].
  assert (Hv : Tokens.c_string m a v /\ no_nul v).
  { clear IH E. revert lo kv Hl H. induction k as [|o k IHk]; intros lo [|w kv] Hl H; try done; cbn [app] in H; inversion H; subst; [done|].
    by apply (IHk (o + zlen w) kv); [injection Hl|]. }
  destruct Hv as [Hc Hv]. cbn [keep_segments fold_left]. rewrite (Tokens.c_string_cstr m a v Hc Hv). cbn [mbind res_bind]. unfold norm_step at 2.
  pose proof (segs_drop _ _ _ _ _ _ _ _ Hl H) as Hd.
  destruct (bool_decide (v = []) || _); [by apply IH|]. destruct (bool_decide (v = [46; 46])).
  - apply IH; [by rewrite !removelast_length, Hl|]. destruct k as [|o k _] using rev_ind.
    + destruct kv; [|done]. exact Hd.
    + destruct kv as [|w kv _] using rev_ind; [rewrite length_app in Hl; simpl in Hl; lia|]. rewrite !removelast_last. rewrite !length_app in Hl. simpl in Hl.
      rewrite <- !app_assoc in Hd. cbn [app] in Hd. apply segs_drop in Hd; [done|lia].
  - apply IH; [rewrite !length_app, Hl; done|]. by rewrite <- !app_assoc.
Qed.

(** Strings are read behind what is written. *)
Lemma segs_move m m' lo os vs : segs m lo os vs -> 0 <= lo -> length m' = length m ->
  drop (Z.to_nat (lo + 1)) m = drop (Z.to_nat (lo + 1)) m' -> segs m' lo os vs.
Proof.
  induction 1 as [|lo o v os vs Hlo Hc Hv _ IH]; intros H0 Hl Hd; constructor; try done.
  - destruct Hc as (pre & post & -> & ->). assert (Hs : pre = take (Z.to_nat (lo + 1)) pre ++ drop (Z.to_nat (lo + 1)) pre) by (by rewrite take_drop).
    rewrite drop_app_le in Hd by (unfold zlen in Hlo; lia). exists (take (Z.to_nat (lo + 1)) m' ++ drop (Z.to_nat (lo + 1)) pre), post.
    split; [rewrite <- app_assoc, Hd; by rewrite take_drop|].
    unfold zlen. rewrite !length_app, length_take, length_drop. rewrite length_app in Hl. unfold zlen in Hlo. simpl in Hl. lia.
  - pose proof (zlen_nonneg v). apply IH; [lia|done|]. replace (Z.to_nat (o + zlen v + 1)) with (Z.to_nat (lo + 1) + Z.to_nat (o + zlen v - lo))%nat by lia.
    by rewrite <- !drop_drop, Hd.
Qed.

(** An implementation that has read an argument behind its destination before it
    writes over it. *)
Definition reads_ahead (overlapping : list Z -> Z -> Z -> res (list Z)) : Prop :=
  forall m dst src s, 0 <= dst < src -> cstr m src = Ok s -> overlapping m dst src = blit m dst (47 :: s ++ [0]).

Section Reads_ahead.
Context (overlapping : list Z -> Z -> Z -> res (list Z)) (Hahead : reads_ahead overlapping).

Lemma sprintf_slash_ahead m dst src s : 0 <= dst < src -> cstr m src = Ok s -> sprintf_slash overlapping m dst src = blit m dst (47 :: s ++ [0]).
Proof. intros Hd Hs. unfold sprintf_slash. rewrite Hs. cbn [mbind res_bind]. destruct (_ || _); [done|]. by apply Hahead. Qed.

Lemma join_segments_run : forall os vs out r, segs (out ++ 0 :: r) (zlen out) os vs ->
  exists r', join_segments overlapping (out ++ 0 :: r) os (zlen out) = Ok (out ++ slashed vs ++ 0 :: r') /\
    (length (slashed vs) + length r' = length r)%nat.
Proof.
  induction os as [|o os IH]; intros [|v vs] out r H; [by exists r|by inversion H|by inversion H|].
  inversion H as [|? ? ? ? ? Hlo Hc Hv Hrest]; subst. cbn [join_segments]. pose proof (Tokens.c_string_cstr _ _ _ Hc Hv) as Ecs.
  rewrite (sprintf_slash_ahead _ _ _ _ (conj (zlen_nonneg out) Hlo) Ecs), Ecs. cbn [mbind res_bind].
  assert (Hroom : (S (length v) <= length r)%nat).
  { destruct Hc as (pre & post & E & ->). apply (f_equal zlen) in E. rewrite !zlen_app, !zlen_cons in E. pose proof (zlen_nonneg post).
    unfold zlen in *. lia. }
  rewrite (blit_rest out (0 :: r) (47 :: v ++ [0])) by (done || (unfold zlen; simpl; rewrite length_app; simpl; lia)). cbn [mbind res_bind].
  set (r1 := drop (length (47 :: v ++ [0])) (0 :: r)). assert (Hr1 : length r1 = (length r - S (length v))%nat).
  { unfold r1. rewrite length_drop. simpl. rewrite length_app. simpl. lia. }
  replace ((out ++ 47 :: v ++ [0]) ++ r1) with ((out ++ 47 :: v) ++ 0 :: r1) by (by rewrite <- !app_assoc; cbn [app]; rewrite <- app_assoc).
  replace (zlen out + zlen v + 1) with (zlen (out ++ 47 :: v)) by (rewrite zlen_app, zlen_cons; lia).
  destruct (IH vs (out ++ 47 :: v) r1) as (r' & E & Hl).
  { apply segs_below with (lo := o + zlen v); [|rewrite zlen_app, zlen_cons; lia]. pose proof (zlen_nonneg out). pose proof (zlen_nonneg v).
    eapply segs_move; [exact Hrest|lia| |].
    - rewrite !length_app. simpl. lia.
    - assert (Hk : forall k, (S (S (length v)) <= k)%nat -> drop (length out + k) (out ++ 0 :: r) = drop (length out + k) ((out ++ 47 :: v) ++ 0 :: r1)).
      { intros k Hk. rewrite <- (app_assoc out), !drop_app_ge by lia. replace (length out + k - length out)%nat with k by lia.
        replace ((47 :: v) ++ 0 :: r1) with ((47 :: v ++ [0]) ++ r1) by (cbn; by rewrite <- app_assoc).
        assert (Hll : length (47 :: v ++ [0]) = S (S (length v))) by (simpl; rewrite length_app; simpl; lia). subst r1. revert Hll.
        generalize (47 :: v ++ [0]). intros l Hll. rewrite drop_app_ge by lia. rewrite drop_drop. f_equal. lia. }
      replace (Z.to_nat (o + zlen v + 1)) with (length out + (Z.to_nat (o + zlen v + 1) - length out))%nat by (unfold zlen in *; lia).
      apply Hk. unfold zlen in *. lia. }
  exists r'. rewrite E. change (slashed (v :: vs)) with ((47 :: v) ++ slashed vs). split; [by rewrite <- !app_assoc|]. rewrite length_app. simpl. lia.
Qed.

(** ** The segments kept *)

Definition plain_segment (s : list Z) : Prop := s <> [] /\ s <> [46] /\ s <> [46; 46].

Lemma removelast_Forall {A} (P : A -> Prop) l : Forall P l -> Forall P (removelast l).
Proof. destruct l as [|a l _] using rev_ind; [done|]. rewrite removelast_last. by intros [? _]%Forall_app. Qed.

Lemma normalize_Forall (P : list Z -> Prop) vs : Forall P vs -> Forall (fun s => plain_segment s /\ P s) (normalize vs).
Proof.
  unfold normalize. generalize (Forall_nil_2 (fun s => plain_segment s /\ P s)). generalize (@nil (list Z)).
  induction vs as [|v vs IH]; intros acc Ha H; cbn [fold_left]; [done|]. apply Forall_cons in H as [Hv H]. apply IH; [|done]. unfold norm_step.
  destruct (bool_decide_reflect (v = [])); [done|]. destruct (bool_decide_reflect (v = [46])); [done|].
  destruct (bool_decide_reflect (v = [46; 46])); [by apply removelast_Forall|]. apply Forall_app. split; [done|]. constructor; [|done].
  by split; [split|].
Qed.

Lemma laid_segs arr fs m off : Tokens.laid 47 off arr fs m -> Forall no_nul fs -> forall pre lo, off = zlen pre -> lo < off ->
  segs (pre ++ m) lo arr (map (Tokens.clean 47) fs).
Proof.
  induction 1 as [off m|off sp f junk arr fs m Hl _ IH]; intros Hf pre lo -> Hlo; [constructor|]. apply Forall_cons in Hf as [Hf Hfs].
  pose proof (zlen_nonneg sp). cbn [map]. constructor; [lia| |by apply Tokens.clean_no_nul|].
  - exists (pre ++ sp), (junk ++ m). split; [by rewrite <- !app_assoc|by rewrite zlen_app].
  - rewrite app_assoc. apply IH; [done| |].
    + rewrite zlen_app. unfold zlen in *. lia.
    + rewrite length_app in Hl. simpl in Hl. rewrite length_app in Hl. simpl in Hl. unfold zlen. lia.
Qed.

Lemma split_slash w : exists r, Tokens.split 47 64 (47 :: w) = option_map (cons []) r /\
  (r = Some [] \/ r = Tokens.fields 47 62 w false []).
Proof. destruct w as [|c w]; [exists (Some []); auto|]. eexists. split; [reflexivity|]. by right. Qed.

Lemma laid_length delim off arr fs m : Tokens.laid delim off arr fs m -> length arr = length fs.
Proof. induction 1; simpl; congruence. Qed.

Lemma laid_empty delim arr fs m : Tokens.laid delim 0 arr ([] :: fs) m ->
  exists arr' m', arr = 0 :: arr' /\ m = 0 :: m' /\ Tokens.laid delim 1 arr' fs m'.
Proof.
  intros H. inversion H as [|? sp ? junk arr' ? m' Hlen Hm' E1 E2 E3 E4]. subst. rewrite length_app in Hlen.
  change (Tokens.clean delim []) with (@nil Z) in *. simpl in Hlen.
  destruct sp; [|simpl in Hlen; lia]. destruct junk; [|simpl in Hlen; lia]. by exists arr', m'.
Qed.

Definition no_slash (s : list Z) : Prop := Forall (fun c => c <> 47) s.

(** The run of [clean_uri] on a path that starts with a slash. *)
Lemma clean_uri_run w t fs : no_nul w -> Tokens.split 47 64 (47 :: w) = Some fs ->
  exists m, clean_uri overlapping (47 :: w ++ 0 :: t) = Ok (if (length fs =? 64)%nat then KS_STATUS_FAIL else KS_STATUS_SUCCESS, m) /\
    length m = length (47 :: w ++ 0 :: t) /\
    (length fs <> 64%nat -> Tokens.c_string m 0 (render (normalize (map (Tokens.clean 47) (tail fs))))).
Proof.
  intros Hw Hs. assert (Hn : no_nul (47 :: w)) by (by constructor).
  pose proof (Tokens.separate_run (47 :: w) t 47 64 Hn ltac:(intros ?; discriminate) ltac:(done) ltac:(done) ltac:(lia)) as H.
  rewrite Hs in H. destruct H as (m & arr & E & Hm & Hl). unfold clean_uri. change (47 :: w ++ 0 :: t) with ((47 :: w) ++ 0 :: t).
  change (Z.of_nat 64) with 64 in E. rewrite E. cbn [mbind res_bind].
  pose proof (laid_length _ _ _ _ _ Hm) as Ha.
  assert (Ha64 : (zlen arr =? 64) = (length fs =? 64)%nat) by (unfold zlen; destruct (Nat.eqb_spec (length fs) 64); lia). rewrite Ha64.
  destruct (Nat.eqb_spec (length fs) 64) as [|Hne]; [by exists m|].
  assert (Hfs : Forall no_nul fs).
  { cbn in Hs. apply (Tokens.fields_no_nul 47 (47 :: w) 63 false []); [done|constructor|done]. }
  destruct (split_slash w) as (r & Er & _). rewrite Hs in Er. destruct r as [fs'|]; [|done]. injection Er as ->.
  destruct (laid_empty _ _ _ _ Hm) as (arr' & m' & -> & -> & Hm'). apply Forall_cons in Hfs as [_ Hfs]. cbn [tail].
  pose proof (laid_segs _ _ _ _ Hm' Hfs [0] 0 eq_refl ltac:(lia)) as Hseg. cbn [app] in Hseg.
  destruct (keep_segments_run (0 :: m') 0 arr' _ [] [] eq_refl Hseg) as (k & Ek & Hk). rewrite Ek. cbn [mbind res_bind].
  fold (normalize (map (Tokens.clean 47) fs')) in Hk. revert Hk. generalize (normalize (map (Tokens.clean 47) fs')). intros vs Hk.
  destruct (join_segments_run k vs [] m' Hk) as (r & Ej & Hr). cbn [app] in Ej. change (zlen (@nil Z)) with 0 in Ej. rewrite Ej.
  cbn [mbind res_bind]. simpl in Hl. rewrite length_app in Hl. simpl in Hl. destruct vs as [|v vs].
  - cbn [slashed concat map app] in *. simpl in Hr. destruct r as [|c r]; [simpl in Hr; lia|].
    change (ld (0 :: c :: r) 0) with (@Ok Z 0). cbn [mbind res_bind Z.eqb]. change (st (0 :: c :: r) 0 47) with (st ([] ++ 0 :: c :: r) 0 47).
    rewrite st_app_mid by done. cbn [mbind res_bind app]. change (st (47 :: c :: r) 1 0) with (st ([47] ++ c :: r) 1 0).
    rewrite st_app_mid by done. cbn [mbind res_bind app]. eexists. split; [done|]. split; [simpl in *; rewrite length_app; simpl; lia|].
    intros _. exists [], r. done.
  - change (slashed (v :: vs) ++ 0 :: r) with (47 :: (v ++ slashed vs) ++ 0 :: r) in *. change (ld (47 :: ?l) 0) with (@Ok Z 47). cbn [mbind res_bind Z.eqb].
    eexists. split; [done|]. change (length (slashed (v :: vs))) with (S (length (v ++ slashed vs))) in Hr.
    split; [simpl; rewrite !length_app; simpl; rewrite length_app in Hr; lia|]. intros _. by exists [], r.
Qed.

(** The path of a request, cleaned in place, with an implementation of sprintf that
    reads ahead: with fewer than 64 parts it
    becomes, inside its buffer, the parts that are not empty or [.], each [..]
    having taken the one before it; no part is left empty, [.] or [..], and if the
    path has no quotes and no backslashes no part holds a slash, so the result
    stays below the root. With 64 parts it is refused, and a path that ends in an
    unpaired backslash runs off its string. *)
Lemma clean_uri_below_root w t : no_nul w ->
  match Tokens.split 47 64 (47 :: w) with
  | None => t = [] -> clean_uri overlapping (47 :: w ++ 0 :: t) = Err OutOfBounds
  | Some fs =>
    exists m, length m = length (47 :: w ++ 0 :: t) /\
    if decide (length fs = 64%nat) then clean_uri overlapping (47 :: w ++ 0 :: t) = Ok (KS_STATUS_FAIL, m)
    else let segments := normalize (map (Tokens.clean 47) (tail fs)) in
      clean_uri overlapping (47 :: w ++ 0 :: t) = Ok (KS_STATUS_SUCCESS, m) /\
      Tokens.c_string m 0 (render segments) /\ Forall plain_segment segments /\
      (Tokens.unquoted w -> Forall no_slash segments)
  end.
Proof.
  intros Hw. destruct (Tokens.split 47 64 (47 :: w)) as [fs|] eqn:Es.
  - destruct (clean_uri_run w t fs Hw Es) as (m & E & Hl & Hc). exists m. split; [done|]. rewrite E.
    destruct (Nat.eqb_spec (length fs) 64) as [H64|H64]; destruct (decide (length fs = 64%nat)); try done. cbv zeta. split; [done|]. split; [by apply Hc|].
    split; [eapply Forall_impl; [apply (normalize_Forall (fun _ => True)), Forall_true; done|by intros ? [? _]]|].
    intros Hu. eapply Forall_impl; [apply normalize_Forall with (P := no_slash)|by intros ? [_ ?]].
    destruct (split_slash w) as (r & Er & Hr). rewrite Es in Er. destruct r as [fs'|]; [|done]. injection Er as ->. cbn [tail].
    destruct Hr as [[= ->]|Hr]; [constructor|]. symmetry in Hr.
    pose proof (Tokens.fields_length 47 (S (length w)) w 62 false [] fs' ltac:(lia) Hr) as Hlen. simpl in H64.
    assert (Hse : Forall no_slash fs') by (apply (Tokens.fields_plain 47 w 62 [] fs' Hu); [constructor|done|lia]).
    assert (Hbs : Forall (Forall (fun c => c <> Tokens.ESCAPE_META)) fs').
    { apply (Tokens.fields_Forall _ 47 w 62 [] fs' Hu); [|constructor|done]. eapply Forall_impl; [exact Hu|by intros c [? _]]. }
    apply Forall_map. eapply Forall_impl; [apply Forall_and; exact (conj Hse Hbs)|]. intros f [H1 H2]. by apply Tokens.clean_plain.
  - intros Ht. pose proof (Tokens.separate_run (47 :: w) t 47 64 ltac:(by constructor) ltac:(intros ?; discriminate) ltac:(done) ltac:(done) ltac:(lia)) as H.
    rewrite Es in H. change (Z.of_nat 64) with 64 in H. unfold clean_uri. change (47 :: w ++ 0 :: t) with ((47 :: w) ++ 0 :: t). by rewrite (H Ht).
Qed.
End Reads_ahead.

(** Such an implementation. *)
Definition read_first (m : list Z) (dst src : Z) : res (list Z) := s ← cstr m src; blit m dst (47 :: s ++ [0]).
Lemma read_first_ahead : reads_ahead read_first.
Proof. intros m dst src s _ E. unfold read_first. by rewrite E. Qed.

(** And without one, no path of a part keeps its meaning. *)
Lemma clean_uri_overlaps : clean_uri (fun _ _ _ => Err BadArgument) (text "/a" ++ [0]) = Err BadArgument.
Proof. vm_compute. reflexivity. Qed.

(** [/a/./b/../../c//d] becomes [/c/d]. *)
Lemma clean_uri_below_root_witness :
  let w := text "a/./b/../../c//d" in
  exists fs m, Tokens.split 47 64 (47 :: w) = Some fs /\ render (normalize (map (Tokens.clean 47) (tail fs))) = text "/c/d" /\
    clean_uri read_first (47 :: w ++ [0]) = Ok (KS_STATUS_SUCCESS, m) /\ Tokens.c_string m 0 (text "/c/d").
Proof.
  pose proof (clean_uri_below_root read_first read_first_ahead (text "a/./b/../../c//d") []) as H. destruct H as (m & _ & H); [repeat constructor; discriminate|].
  destruct H as (E & Hc & _). eexists _, m. split; [vm_compute; reflexivity|]. split; [reflexivity|]. split; [exact E|exact Hc].
Defined.

(** A connection that has read a request and the first bytes of its body. *)
Definition ex_request : list Z :=
  text "GET /a/../b?x=1&y=%41+b HTTP/1.1" ++ [13; 10] ++ text "Host: h:8080" ++ [13; 10] ++ text "Content-Length: 12" ++ [13; 10; 13; 10] ++ text "body".
Definition ex_http : kws := set_datalen (zlen ex_request) (set_buffer (ex_request ++ replicate 20 0) (ex_conn KWS_SERVER [])).

(** What a caller sees of a request. *)
Definition string_of (r : kws_request) (off : option Z) : option (list Z) :=
  match r.(_buffer), off with
  | Some m, Some o => match cstr m o with Ok s => Some s | Err _ => None end
  | _, _ => None
  end.

Example kws_parse_header_test :
  match kws_parse_header read_first ex_http with
  | Ok (status, k, Some r) =>
      (status, datalen k, take 5 (buffer k), string_of r (r_method r), string_of r (r_uri r), string_of r (r_host r), r_port r, r_content_length r) =
      (KS_STATUS_SUCCESS, 4, text "body" ++ [0], Some (text "GET"), Some (text "/b"), Some (text "h"), 8080, 12) /\
      r_headers r = [(text "Host", text "h:8080"); (text "Content-Length", text "12"); (text "x", text "1"); (text "y", text "A b")] /\
      kws_request_get_header (r_headers r) (text "y") = Some (text "A b")
  | _ => False
  end.
Proof. vm_compute. done. Qed.

(** The check for a space among the first ten characters refuses only a space at the tenth. *)
Lemma sanity_check : 
  (sanity_scan 10 (text "NOSPACESATALL ") 0, sanity_scan 10 (text "PATCHPATCH GET") 0, sanity_scan 10 (text "PROPPATCH /x ") 0) =
  (Ok (-1), Ok (-1), Ok 0).
Proof. reflexivity. Qed.

(** Quotes hide slashes from the cut, and are removed afterwards: the path is not cleaned. *)
Lemma clean_uri_quoted : 
  exists t, clean_uri read_first (text "/x/'../../'etc" ++ [0]) = Ok (KS_STATUS_SUCCESS, text "/x/../../etc" ++ 0 :: t).
Proof. eexists. vm_compute. reflexivity. Qed.
End KwsHttp.
