(* ===== verification/Json.v ===== *)
(** JSON values (src/src/ks_json.c over src/src/include/cJSON): items, their
    types, and the calls that make, extend, search and shorten them. *)
From S2P Require Import Prelude Str Printf.
Local Open Scope Z_scope.

Module Json.
Import Str.

(** ** Numbers: [Fin m e] is [m * 2^e] *)

Inductive double := Fin (m e : Z) | Inf (negative : bool) | NaN.

(** [d >= n], [d <= n] and [d > n] for an integer [n]. *)
Definition d_ge (d : double) (n : Z) : bool :=
  match d with
  | Fin m e => if 0 <=? e then n <=? m * 2 ^ e else n * 2 ^ (- e) <=? m
  | Inf negative => negb negative
  | NaN => false
  end.
Definition d_le (d : double) (n : Z) : bool :=
  match d with
  | Fin m e => if 0 <=? e then m * 2 ^ e <=? n else m <=? n * 2 ^ (- e)
  | Inf negative => negative
  | NaN => false
  end.
Definition d_gt (d : double) (n : Z) : bool := d_ge d n && negb (d_le d n).

(** [(int) d]; outside [int] the conversion is undefined. *)
Definition d_int (d : double) : res Z :=
  match d with
  | Fin m e =>
    let v := if 0 <=? e then m * 2 ^ e else Z.quot m (2 ^ (- e)) in
    if (-2147483648 <=? v) && (v <=? INT_MAX) then Ok v else Err Overflow
  | _ => Err Overflow
  end.

(** ** Items: [next] and [prev] are the order of [child] *)

Definition KS_JSON_TYPE_INVALID : Z := 0.
Definition KS_JSON_TYPE_FALSE : Z := 1.
Definition KS_JSON_TYPE_TRUE : Z := 2.
Definition KS_JSON_TYPE_NULL : Z := 4.
Definition KS_JSON_TYPE_NUMBER : Z := 8.
Definition KS_JSON_TYPE_STRING : Z := 16.
Definition KS_JSON_TYPE_ARRAY : Z := 32.
Definition KS_JSON_TYPE_OBJECT : Z := 64.
Definition kJSON_IsReference : Z := 256.
Definition kJSON_StringIsConst : Z := 512.

#[warnings="-register-all"]
Inductive kJSON := Item
  (type : Z) (valuestring : option (list Z)) (valueint : Z) (valuedouble : double)
  (string : option (list Z)) (child : list kJSON).

Definition type (j : kJSON) := let '(Item t _ _ _ _ _) := j in t.
Definition valuestring (j : kJSON) := let '(Item _ v _ _ _ _) := j in v.
Definition valueint (j : kJSON) := let '(Item _ _ v _ _ _) := j in v.
Definition valuedouble (j : kJSON) := let '(Item _ _ _ v _ _) := j in v.
Definition string (j : kJSON) := let '(Item _ _ _ _ v _) := j in v.
Definition child (j : kJSON) := let '(Item _ _ _ _ _ c) := j in c.
Definition set_child (c : list kJSON) (j : kJSON) := let '(Item t vs vi vd s _) := j in Item t vs vi vd s c.

Definition zero : double := Fin 0 0.
Definition new_item (t : Z) : kJSON := Item t None 0 zero None [].

(** ** Making items; [malloc] serves *)

Definition ks_json_create_array : kJSON := new_item KS_JSON_TYPE_ARRAY.
Definition ks_json_create_object : kJSON := new_item KS_JSON_TYPE_OBJECT.
Definition ks_json_create_null : kJSON := new_item KS_JSON_TYPE_NULL.
Definition ks_json_create_true : kJSON := new_item KS_JSON_TYPE_TRUE.
Definition ks_json_create_false : kJSON := new_item KS_JSON_TYPE_FALSE.
Definition ks_json_create_bool (value : bool) : kJSON := if value then ks_json_create_true else ks_json_create_false.

(** An item without a [valuestring] is deleted again: NULL. *)
Definition ks_json_create_string (s : option (list Z)) : option kJSON :=
  match s with Some s => Some (Item KS_JSON_TYPE_STRING (Some s) 0 zero None []) | None => None end.

(** The text of [ks_vmprintf], copied and freed. *)
Definition ks_json_create_string_fmt (available : Z -> bool) (fmt : list Z) (ap : list Printf.value) : res (option kJSON) :=
  str ← Printf.ks_vmprintf available fmt ap;
  match str with
  | None => Ok None
  | Some str => s ← cstr str 0; Ok (ks_json_create_string (Some s))
  end.

Definition saturate (number : double) : res Z :=
  if d_ge number INT_MAX then Ok INT_MAX else if d_le number (-2147483648) then Ok (-2147483648) else d_int number.

Definition ks_json_create_number (number : double) : res kJSON :=
  i ← saturate number; Ok (Item KS_JSON_TYPE_NUMBER None i number None []).

(** ** Adding: the parent afterwards; a NULL parent or item changes nothing *)

Definition ks_json_add_item_to_array (array item : option kJSON) : option kJSON :=
  match array, item with Some a, Some i => Some (set_child (child a ++ [i]) a) | _, _ => array end.

Definition ks_json_add_item_to_object (object : option kJSON) (name : option (list Z)) (item : option kJSON) : option kJSON :=
  match object, name, item with
  | Some o, Some k, Some (Item t vs vi vd _ c) =>
      ks_json_add_item_to_array (Some o) (Some (Item (Z.land t (Z.lnot kJSON_StringIsConst)) vs vi vd (Some k) c))
  | _, _, _ => object
  end.

Definition ks_json_add_array_to_array (a : option kJSON) := ks_json_add_item_to_array a (Some ks_json_create_array).
Definition ks_json_add_object_to_array (a : option kJSON) := ks_json_add_item_to_array a (Some ks_json_create_object).
Definition ks_json_add_string_to_array (a : option kJSON) s := ks_json_add_item_to_array a (ks_json_create_string s).
Definition ks_json_add_number_to_array (a : option kJSON) d : res (option kJSON) :=
  i ← ks_json_create_number d; Ok (ks_json_add_item_to_array a (Some i)).
Definition ks_json_add_true_to_array (a : option kJSON) := ks_json_add_item_to_array a (Some ks_json_create_true).
Definition ks_json_add_false_to_array (a : option kJSON) := ks_json_add_item_to_array a (Some ks_json_create_false).
Definition ks_json_add_bool_to_array (a : option kJSON) (value : bool) :=
  if value then ks_json_add_true_to_array a else ks_json_add_false_to_array a.

Definition ks_json_add_array_to_object (o : option kJSON) k := ks_json_add_item_to_object o k (Some ks_json_create_array).
Definition ks_json_add_object_to_object (o : option kJSON) k := ks_json_add_item_to_object o k (Some ks_json_create_object).
Definition ks_json_add_true_to_object (o : option kJSON) k := ks_json_add_item_to_object o k (Some ks_json_create_true).
Definition ks_json_add_false_to_object (o : option kJSON) k := ks_json_add_item_to_object o k (Some ks_json_create_false).
Definition ks_json_add_bool_to_object (o : option kJSON) k (value : bool) :=
  if value then ks_json_add_true_to_object o k else ks_json_add_false_to_object o k.
Definition ks_json_add_number_to_object (o : option kJSON) k d : res (option kJSON) :=
  i ← ks_json_create_number d; Ok (ks_json_add_item_to_object o k (Some i)).
Definition ks_json_add_string_to_object (o : option kJSON) k s := ks_json_add_item_to_object o k (ks_json_create_string s).

(** ** Finding *)

Fixpoint find_child (name : list Z) (c : list kJSON) : res (option kJSON) :=
  match c with
  | [] => Ok None
  | j :: c => match string j with
              | None => Err NullDeref
              | Some s => if bool_decide (name = s) then Ok (Some j) else find_child name c
              end
  end.

Definition ks_json_get_object_item (object : option kJSON) (name : option (list Z)) : res (option kJSON) :=
  match object, name with Some o, Some k => find_child k (child o) | _, _ => Ok None end.

Definition ks_json_get_array_item (array : option kJSON) (index : Z) : option kJSON :=
  if index <? 0 then None else match array with Some a => child a !! Z.to_nat index | None => None end.

Definition ks_json_get_array_size (array : option kJSON) : Z :=
  match array with Some a => s32 (zlen (child a)) | None => 0 end.

Definition ks_json_enum_child (item : option kJSON) : list kJSON := match item with Some j => child j | None => [] end.

(** ** Removing *)

Definition remove_at (i : nat) (j : kJSON) : kJSON := set_child (delete i (child j)) j.

Definition ks_json_delete_item_from_array (array : option kJSON) (index : Z) : option kJSON :=
  match array with
  | Some a => if index <? 0 then Some a else Some (remove_at (Z.to_nat index) a)
  | None => None
  end.

Definition same_name_ci (a : list Z) (b : option (list Z)) : bool :=
  match b with Some b => bool_decide (map lower a = map lower b) | None => false end.

(** [kJSON_DeleteItemFromObject]: the first name that differs in case only goes. *)
Fixpoint index_ci (name : list Z) (c : list kJSON) : option nat :=
  match c with
  | [] => None
  | j :: c => if same_name_ci name (string j) then Some O else option_map S (index_ci name c)
  end.

Definition ks_json_delete_item_from_object (obj : option kJSON) (key : option (list Z)) : option kJSON :=
  match obj, key with
  | Some o, Some k => match index_ci k (child o) with Some i => Some (remove_at i o) | None => Some o end
  | _, _ => obj
  end.

Definition ks_json_delete (c : option kJSON) : option kJSON := None.

Fixpoint duplicate (j : kJSON) : kJSON :=
  let '(Item t vs vi vd s c) := j in Item (Z.land t (Z.lnot kJSON_IsReference)) vs vi vd s (map duplicate c).

Definition ks_json_duplicate (c : option kJSON) (recurse : bool) : option kJSON :=
  match c with
  | Some j => Some (if recurse then duplicate j else set_child [] (duplicate j))
  | None => None
  end.

(** ** Types and values *)

Definition ks_json_type_get (item : option kJSON) : Z := match item with Some j => type j | None => KS_JSON_TYPE_INVALID end.
Definition ks_json_type_is (item : option kJSON) (t : Z) : bool := ks_json_type_get item =? t.
Definition ks_json_type_is_array item := ks_json_type_is item KS_JSON_TYPE_ARRAY.
Definition ks_json_type_is_string item := ks_json_type_is item KS_JSON_TYPE_STRING.
Definition ks_json_type_is_number item := ks_json_type_is item KS_JSON_TYPE_NUMBER.
Definition ks_json_type_is_null item := ks_json_type_is item KS_JSON_TYPE_NULL.
Definition ks_json_type_is_object item := ks_json_type_is item KS_JSON_TYPE_OBJECT.
Definition ks_json_type_is_false item := ks_json_type_is item KS_JSON_TYPE_FALSE.
Definition ks_json_type_is_true item := ks_json_type_is item KS_JSON_TYPE_TRUE.
Definition ks_json_type_is_bool item := ks_json_type_is item KS_JSON_TYPE_FALSE || ks_json_type_is item KS_JSON_TYPE_TRUE.

Definition ks_json_name (item : option kJSON) (name : option (list Z)) : res (ks_status_t * option (list Z)) :=
  match item with
  | None => Err NullDeref
  | Some j => match string j with
              | None | Some [] => Ok (KS_STATUS_FAIL, name)
              | Some s => Ok (KS_STATUS_SUCCESS, Some s)
              end
  end.

(** The status and what [*value] holds then. *)
Definition value_of {A} (test : option kJSON -> bool) (field : kJSON -> A) (item : option kJSON) (value : A) : ks_status_t * A :=
  match item with
  | Some j => if test item then (KS_STATUS_SUCCESS, field j) else (KS_STATUS_FAIL, value)
  | None => (KS_STATUS_FAIL, value)
  end.
Definition ks_json_value_string := value_of ks_json_type_is_string valuestring.
Definition ks_json_value_number_int := value_of ks_json_type_is_number valueint.
Definition ks_json_value_number_double := value_of ks_json_type_is_number valuedouble.
Definition ks_json_value_bool := value_of ks_json_type_is_bool (fun j => type j =? KS_JSON_TYPE_TRUE).

Definition ks_json_get_name (item : option kJSON) : option (list Z) := match item with Some j => string j | None => None end.
Definition ks_json_get_string item def := (ks_json_value_string item def).2.
Definition ks_json_get_number_int item def := (ks_json_value_number_int item def).2.
Definition ks_json_get_number_double item def := (ks_json_value_number_double item def).2.
Definition ks_json_get_bool item def := (ks_json_value_bool item def).2.

Definition ks_json_get_array_bool array index def := ks_json_get_bool (ks_json_get_array_item array index) def.
Definition ks_json_get_array_string array index def := ks_json_get_string (ks_json_get_array_item array index) def.
Definition ks_json_get_array_number_int array index def := ks_json_get_number_int (ks_json_get_array_item array index) def.
Definition ks_json_get_array_number_double array index def := ks_json_get_number_double (ks_json_get_array_item array index) def.

Definition ks_json_get_object_bool object name def : res bool :=
  i ← ks_json_get_object_item object name; Ok (ks_json_get_bool i def).
Definition ks_json_get_object_string object name def : res (option (list Z)) :=
  i ← ks_json_get_object_item object name; Ok (ks_json_get_string i def).
Definition ks_json_get_object_number_int object name def : res Z :=
  i ← ks_json_get_object_item object name; Ok (ks_json_get_number_int i def).
Definition ks_json_get_object_number_double object name def : res double :=
  i ← ks_json_get_object_item object name; Ok (ks_json_get_number_double i def).

(** ** Well-typed values *)

Definition in_int (i : Z) : bool := (-2147483648 <=? i) && (i <=? INT_MAX).

(** What the fields of an item of each type hold. *)
Definition fields_ok (t : Z) (vs : option (list Z)) (vi : Z) (vd : double) (c : list kJSON) : bool :=
  if t =? KS_JSON_TYPE_STRING then bool_decide (vs <> None) && bool_decide (length c = 0%nat)
  else if t =? KS_JSON_TYPE_NUMBER then (match saturate vd with Ok i => i =? vi | Err _ => false end) && bool_decide (length c = 0%nat)
  else if t =? KS_JSON_TYPE_OBJECT then forallb (fun j => bool_decide (string j <> None)) c
  else if t =? KS_JSON_TYPE_ARRAY then true
  else ((t =? KS_JSON_TYPE_FALSE) || (t =? KS_JSON_TYPE_TRUE) || (t =? KS_JSON_TYPE_NULL)) && bool_decide (length c = 0%nat).

Fixpoint well_typed (j : kJSON) : bool :=
  let '(Item t vs vi vd s c) := j in fields_ok t vs vi vd c && forallb well_typed c.

(** The values the calls make when children go into arrays and members into
    objects. A caller holds pointers into a value: [made_inside] is any change
    behind such a pointer. *)
Inductive made : kJSON -> Prop :=
  | made_array : made ks_json_create_array
  | made_object : made ks_json_create_object
  | made_null : made ks_json_create_null
  | made_bool b : made (ks_json_create_bool b)
  | made_string s j : ks_json_create_string s = Some j -> made j
  | made_string_fmt available fmt ap j : ks_json_create_string_fmt available fmt ap = Ok (Some j) -> made j
  | made_number d j : ks_json_create_number d = Ok j -> made j
  | made_add_array a i a' : made a -> type a = KS_JSON_TYPE_ARRAY -> made i ->
      ks_json_add_item_to_array (Some a) (Some i) = Some a' -> made a'
  | made_add_object o k i o' : made o -> type o = KS_JSON_TYPE_OBJECT -> made i ->
      ks_json_add_item_to_object (Some o) (Some k) (Some i) = Some o' -> made o'
  | made_delete_array a index a' : made a -> ks_json_delete_item_from_array (Some a) index = Some a' -> made a'
  | made_delete_object o key o' : made o -> ks_json_delete_item_from_object (Some o) key = Some o' -> made o'
  | made_duplicate j recurse j' : made j -> ks_json_duplicate (Some j) recurse = Some j' -> made j'
  | made_child j i c : made j -> child j !! i = Some c -> made c
  | made_inside j i c c' : made j -> child j !! i = Some c -> made c' -> string c' = string c ->
      made (set_child (<[i := c']> (child j)) j).

Lemma well_typed_item t vs vi vd s c : well_typed (Item t vs vi vd s c) = true <->
  fields_ok t vs vi vd c = true /\ Forall (fun j => well_typed j = true) c.
Proof. cbn [well_typed]. by rewrite andb_true_iff, forallb_forall, List.Forall_forall. Qed.

(** The item's own fields do not change when its children do, as long as the
    members keep names. *)
Lemma fields_ok_children t vs vi vd c c' : fields_ok t vs vi vd c = true ->
  (c = [] -> c' = []) -> (forallb (fun j => bool_decide (string j <> None)) c = true -> forallb (fun j => bool_decide (string j <> None)) c' = true) ->
  fields_ok t vs vi vd c' = true.
Proof.
  intros H Hnil Hn. unfold fields_ok in *.
  assert (Hl : bool_decide (length c = 0%nat) = true -> bool_decide (length c' = 0%nat) = true).
  { intros E%bool_decide_eq_true_1. apply bool_decide_eq_true_2. apply length_zero_iff_nil in E. by rewrite (Hnil E). }
  destruct (t =? KS_JSON_TYPE_STRING); [apply andb_true_iff in H as [? ?]; apply andb_true_iff; by split; [|apply Hl]|].
  destruct (t =? KS_JSON_TYPE_NUMBER); [apply andb_true_iff in H as [? ?]; apply andb_true_iff; by split; [|apply Hl]|].
  destruct (t =? KS_JSON_TYPE_OBJECT); [by apply Hn|]. destruct (t =? KS_JSON_TYPE_ARRAY); [done|].
  apply andb_true_iff in H as [? ?]; apply andb_true_iff; by split; [|apply Hl].
Qed.

Lemma well_typed_children j c' : well_typed j = true -> (child j = [] -> c' = []) ->
  (forallb (fun j => bool_decide (string j <> None)) (child j) = true -> forallb (fun j => bool_decide (string j <> None)) c' = true) ->
  Forall (fun j => well_typed j = true) c' -> well_typed (set_child c' j) = true.
Proof.
  destruct j as [t vs vi vd s c]. intros [H1 H2]%well_typed_item Hn Hs Hc. cbn [set_child child] in *. apply well_typed_item.
  split; [by apply (fields_ok_children _ _ _ _ c)|done].
Qed.

Lemma kJSON_ind' (P : kJSON -> Prop) :
  (forall t vs vi vd s c, Forall P c -> P (Item t vs vi vd s c)) -> forall j, P j.
Proof.
  intros HP. fix IH 1. intros [t vs vi vd s c]. apply HP. induction c as [|j c IHc]; constructor; [apply IH|exact IHc].
Qed.

Lemma fields_type t vs vi vd c : fields_ok t vs vi vd c = true -> Z.land t (Z.lnot kJSON_StringIsConst) = t /\ Z.land t (Z.lnot kJSON_IsReference) = t.
Proof.
  unfold fields_ok. destruct (Z.eqb_spec t KS_JSON_TYPE_STRING) as [->|]; [done|]. destruct (Z.eqb_spec t KS_JSON_TYPE_NUMBER) as [->|]; [done|].
  destruct (Z.eqb_spec t KS_JSON_TYPE_OBJECT) as [->|]; [done|]. destruct (Z.eqb_spec t KS_JSON_TYPE_ARRAY) as [->|]; [done|].
  rewrite andb_true_iff, !orb_true_iff, !Z.eqb_eq. by intros [[[->| ->]| ->] _].
Qed.

Lemma well_typed_duplicate j : well_typed j = true -> duplicate j = j.
Proof.
  induction j as [t vs vi vd s c IH] using kJSON_ind'. intros [H1 H2]%well_typed_item. cbn [duplicate].
  rewrite (proj2 (fields_type _ _ _ _ _ H1)). f_equal. clear H1. induction c as [|j c IHc]; [done|].
  apply Forall_cons in IH as [Hj IH]. apply Forall_cons in H2 as [H2j H2]. cbn [map]. by rewrite (Hj H2j), (IHc IH H2).
Qed.

Lemma saturate_int d i : saturate d = Ok i -> in_int i = true.
Proof.
  unfold saturate, d_int, in_int, INT_MAX. destruct (d_ge d _); [by intros [= <-]|]. destruct (d_le d _); [by intros [= <-]|].
  destruct d; try done. destruct (_ && _) eqn:E; [|done]. by intros [= <-].
Qed.

Lemma named_sublist c c' : c' ⊆ c -> forallb (fun j => bool_decide (string j <> None)) c = true -> forallb (fun j => bool_decide (string j <> None)) c' = true.
Proof. rewrite !forallb_forall. intros Hs H j Hj. apply H. apply list_elem_of_In, Hs. by apply list_elem_of_In. Qed.

Lemma delete_sub {A} (c : list A) i : delete i c ⊆ c.
Proof. intros x Hx. apply list_elem_of_lookup in Hx as [k Hk]. apply list_elem_of_lookup. destruct (decide (k < i)%nat).
  - rewrite list_lookup_delete_lt in Hk by lia. by exists k.
  - rewrite list_lookup_delete_ge in Hk by lia. by exists (S k).
Qed.

Lemma well_typed_remove i j : well_typed j = true -> well_typed (remove_at i j) = true.
Proof.
  intros H. unfold remove_at. apply well_typed_children; [done|by intros ->|apply named_sublist, delete_sub|].
  destruct j as [t vs vi vd s c]. apply well_typed_item in H as [_ H]. by apply Forall_delete.
Qed.

Lemma made_well_typed j : made j -> well_typed j = true.
Proof.
  induction 1 as [| | |b|s j E|available fmt ap j E|d j E|a i a' _ IHa Ht _ IHi E|o k i o' _ IHo Ht _ IHi E|a index a' _ IH E|o key o' _ IH E|j recurse j' _ IH E|j i c _ IH E|j i c c' _ IH E _ IHc Es].
  - done.
  - done.
  - done.
  - by destruct b.
  - destruct s; [|done]. by injection E as <-.
  - unfold ks_json_create_string_fmt in E. res_inv. destruct x; [|done]. res_inv. by subst j.
  - unfold ks_json_create_number in E. destruct (saturate d) as [i|] eqn:Es; [|done]. cbn in E. injection E as <-. apply well_typed_item. split; [|done].
    unfold fields_ok. cbn. rewrite Es. by rewrite Z.eqb_refl.
  - injection E as <-. destruct a as [t vs vi vd s c]. apply well_typed_item in IHa as [H1 H2]. cbn [type] in Ht. subst t. cbn [set_child child]. apply well_typed_item.
    split; [done|]. apply Forall_app. by split; [|constructor].
  - destruct i as [t vs vi vd s c]. cbn in E. injection E as <-. destruct o as [t0 vs0 vi0 vd0 s0 c0]. cbn [type] in Ht. subst t0.
    apply well_typed_item in IHo as [H1 H2]. apply well_typed_item in IHi as [H3 H4]. cbn [set_child child]. rewrite (proj1 (fields_type _ _ _ _ _ H3)).
    apply well_typed_item. split.
    + revert H1. unfold fields_ok. cbn. rewrite forallb_app. intros ->. done.
    + apply Forall_app. split; [done|]. constructor; [|done]. by apply well_typed_item.
  - cbn in E. destruct (index <? 0); injection E as <-; [done|by apply well_typed_remove].
  - destruct key as [k|]; cbn in E; [|by injection E as <-]. destruct (index_ci _ _); injection E as <-; [by apply well_typed_remove|done].
  - cbn in E. injection E as <-. rewrite well_typed_duplicate by done. destruct recurse; [done|]. apply well_typed_children; [done|done|done|constructor].
  - destruct j as [t vs vi vd s ch]. apply well_typed_item in IH as [_ H]. by apply (Forall_lookup_1 _ _ _ _ H E).
  - apply well_typed_children; [done| | |].
    + intros En. by rewrite En in E.
    + rewrite !forallb_forall. intros H x Hx. apply list_elem_of_In, list_elem_of_lookup in Hx as [k Hk]. destruct (decide (k = i)) as [->|].
      * rewrite list_lookup_insert_eq in Hk by (by apply lookup_lt_Some in E). injection Hk as <-. rewrite Es. apply H. apply list_elem_of_In, list_elem_of_lookup. by exists i.
      * rewrite list_lookup_insert_ne in Hk by done. apply H. apply list_elem_of_In, list_elem_of_lookup. by exists k.
    + apply Forall_insert; [|done]. destruct j as [t vs vi vd s ch]. by apply well_typed_item in IH as [_ H].
Qed.

Lemma find_child_named name : forall c, forallb (fun j => bool_decide (string j <> None)) c = true ->
  exists o, find_child name c = Ok o /\ forall x, o = Some x -> string x = Some name /\ exists i, c !! i = Some x.
Proof.
  induction c as [|j c IH]; intros H; cbn [find_child]; [by exists None|]. cbn [forallb] in H. apply andb_true_iff in H as [Hj%bool_decide_eq_true_1 H].
  destruct (string j) as [s|] eqn:Es; [|done]. destruct (bool_decide_reflect (name = s)) as [->|Hne].
  - exists (Some j). split; [done|]. intros x [= <-]. split; [done|by exists 0%nat].
  - destruct (IH H) as (o & Eo & Ho). exists o. split; [done|]. intros x Ex. destruct (Ho x Ex) as [? [i Hi]]. split; [done|by exists (S i)].
Qed.

(** C23: the values that the calls make, with children going into arrays and
    members into objects, removals, copies and changes behind pointers, are well
    typed at every depth; on them looking up a member never meets a missing name
    and gives a value of the same kind with the name asked for, a string item
    always has its string, and a number read as an [int] is the saturated double. *)
Theorem json_values_well_typed j : made j -> well_typed j = true /\
  (type j = KS_JSON_TYPE_OBJECT -> forall name, exists o, ks_json_get_object_item (Some j) (Some name) = Ok o /\
     forall x, o = Some x -> made x /\ string x = Some name) /\
  (type j = KS_JSON_TYPE_STRING -> forall def, ks_json_get_string (Some j) def <> None) /\
  (type j = KS_JSON_TYPE_NUMBER -> forall def, saturate (valuedouble j) = Ok (ks_json_get_number_int (Some j) def)) /\
  (forall def, in_int def = true -> in_int (ks_json_get_number_int (Some j) def) = true).
Proof.
  intros Hm. pose proof (made_well_typed j Hm) as Hw. split; [done|]. destruct j as [t vs vi vd s c]. pose proof Hw as Hw2.
  apply well_typed_item in Hw2 as [Hf _]. cbn [type valuedouble].
  assert (Hnum : t = KS_JSON_TYPE_NUMBER -> saturate vd = Ok vi).
  { intros ->. unfold fields_ok in Hf. cbn in Hf. destruct (saturate vd) as [i|]; [|done]. apply andb_true_iff in Hf as [E%Z.eqb_eq _]. by rewrite E. }
  split; [|split; [|split]].
  - intros -> name. cbn [ks_json_get_object_item]. destruct (find_child_named name c Hf) as (o & Eo & Ho). exists o. split; [done|].
    intros x Ex. destruct (Ho x Ex) as [Es [i Hi]]. split; [|done]. exact (made_child _ i x Hm Hi).
  - intros -> def. unfold ks_json_get_string, ks_json_value_string, value_of. cbn. cbn in Hf. apply andb_true_iff in Hf as [Hf%bool_decide_eq_true_1 _]. exact Hf.
  - intros E def. unfold ks_json_get_number_int, ks_json_value_number_int, value_of, ks_json_type_is_number, ks_json_type_is. cbn [ks_json_type_get type].
    subst t. cbn. by apply Hnum.
  - intros def Hd. unfold ks_json_get_number_int, ks_json_value_number_int, value_of, ks_json_type_is_number, ks_json_type_is. cbn [ks_json_type_get type].
    destruct (Z.eqb_spec t KS_JSON_TYPE_NUMBER) as [E|]; [|done]. cbn. exact (saturate_int _ _ (Hnum E)).
Qed.

(** [{"n": 2.5e10, "a": ["x"]}], the array filled behind its pointer. *)
Lemma json_values_well_typed_witness :
  let n := Item KS_JSON_TYPE_NUMBER None INT_MAX (Fin 25000000000 0) None [] in
  exists j, made j /\ well_typed j = true /\
    ks_json_get_object_number_int (Some j) (Some (bytes_of_string "n")) 0 = Ok INT_MAX /\
    (i ← ks_json_get_object_item (Some j) (Some (bytes_of_string "a")); Ok (ks_json_get_array_string i 0 None)) = Ok (Some (bytes_of_string "x")).
Proof.
  intros n. assert (H1 : exists j, made j /\ type j = KS_JSON_TYPE_OBJECT /\ exists r, child j = [r; Item KS_JSON_TYPE_ARRAY None 0 zero (Some (bytes_of_string "a")) []] /\ r = Item KS_JSON_TYPE_NUMBER None INT_MAX (Fin 25000000000 0) (Some (bytes_of_string "n")) [] /\ j = set_child (child j) ks_json_create_object).
  { eexists. split.
    - eapply made_add_object; [eapply (made_add_object ks_json_create_object (bytes_of_string "n") n); [apply made_object|done|apply (made_number (Fin 25000000000 0)); reflexivity|reflexivity]|reflexivity|exact made_array|reflexivity].
    - split; [reflexivity|]. eexists. split; [reflexivity|]. split; reflexivity. }
  destruct H1 as (j & Hj & Ht & r & Hc & Hr & Ej).
  pose (a := Item KS_JSON_TYPE_ARRAY None 0 zero (Some (bytes_of_string "a")) [Item KS_JSON_TYPE_STRING (Some (bytes_of_string "x")) 0 zero None []]).
  exists (set_child (<[1%nat := a]> (child j)) j).
  assert (Hm : made (set_child (<[1%nat := a]> (child j)) j)).
  { apply (made_inside j 1 (Item KS_JSON_TYPE_ARRAY None 0 zero (Some (bytes_of_string "a")) []) a); [done|by rewrite Hc| |done].
    eapply (made_add_array (Item KS_JSON_TYPE_ARRAY None 0 zero (Some (bytes_of_string "a")) [])); [|reflexivity|eapply (made_string (Some (bytes_of_string "x"))); reflexivity|reflexivity].
    apply (made_child j 1); [done|by rewrite Hc]. }
  split; [exact Hm|]. split; [exact (proj1 (json_values_well_typed _ Hm))|]. rewrite Ej, Hc, Hr. split; reflexivity.
Defined.

(** Looking up a name in an array that is not empty compares with a missing name. *)
Lemma get_item_of_array : ks_json_get_object_item (ks_json_add_string_to_array (Some ks_json_create_array) (Some [120])) (Some [97]) = Err NullDeref.
Proof. reflexivity. Qed.

(** Deletion goes by the name without case and takes the first member. *)
Lemma delete_other_case :
  let add k o := ks_json_add_true_to_object o (Some (bytes_of_string k)) in
  let o := ks_json_delete_item_from_object (add "id" (add "ID" (Some ks_json_create_object)))%string (Some (bytes_of_string "id")) in
  ks_json_get_object_item o (Some (bytes_of_string "ID")) = Ok None /\
  ks_json_get_object_bool o (Some (bytes_of_string "id")) false = Ok true.
Proof. split; reflexivity. Qed.

(** A number that is no number has no [int]. *)
Lemma create_nan : ks_json_create_number NaN = Err Overflow.
Proof. reflexivity. Qed.
End Json.
