(* ===== verification/JsonNum.v ===== *)
(** Numbers of JSON texts (src/src/include/cJSON/cJSON.c): [strtod] on the
    characters [parse_number] lets through, and [%ld] and [%lf] of
    [print_number]. The value of a text and the text of a value are inverse on
    the numbers that six decimals hold. *)
From S2P Require Import Prelude Str Json.
Import Str Json.
Local Open Scope Z_scope.

Module JsonNum.

(** ** The double nearest to a fraction *)

(** Trailing zero bits of a negative exponent go. *)
Fixpoint strip (fuel : nat) (q e : Z) : double :=
  match fuel with
  | O => Fin q e
  | S fuel => if (e <? 0) && Z.even q then strip fuel (q / 2) (e + 1) else Fin q e
  end.

(** The [a] with [2^a <= num / den < 2^(a + 1)]. *)
Definition magnitude (num den : Z) : Z :=
  let a := Z.log2 num - Z.log2 den in
  if (if 0 <=? a then den * 2 ^ a <=? num else den <=? num * 2 ^ (- a)) then a else a - 1.

(** [num / den] to 53 bits, half to even; at [2^1024] and above infinity. *)
Definition nearest (num den : Z) : double :=
  let e := Z.max (magnitude num den - 52) (-1074) in
  let num := if 0 <=? e then num else num * 2 ^ (- e) in
  let den := if 0 <=? e then den * 2 ^ e else den in
  let q := num / den in
  let r := num mod den in
  let q := if (2 * r <? den) || ((2 * r =? den) && Z.even q) then q else q + 1 in
  let e := if q =? 2 ^ 53 then e + 1 else e in
  let q := if q =? 2 ^ 53 then 2 ^ 52 else q in
  if 971 <? e then Inf false else strip (Z.to_nat (- e)) q e.

Definition negate (d : double) : double :=
  match d with Fin m e => Fin (- m) e | Inf negative => Inf (negb negative) | NaN => NaN end.

(** [n * 10^k] for [n < 10^63]: far outside the range of a double no division is
    needed. *)
Definition decimal (negative : bool) (n k : Z) : double :=
  let d := if (n =? 0) || (k <? -500) then zero
           else if 400 <? k then Inf false
           else nearest (n * 10 ^ Z.max k 0) (10 ^ Z.max (- k) 0) in
  if negative then negate d else d.

(** ** [strtod], for texts of digits, signs, points and [e] *)

Definition is_digit (c : Z) : bool := (48 <=? c) && (c <=? 57).

Fixpoint span_digits (s : list Z) : list Z * list Z :=
  match s with
  | c :: s' => if is_digit c then let '(ds, r) := span_digits s' in (c :: ds, r) else ([], s)
  | [] => ([], [])
  end.
Definition digits_value (ds : list Z) : Z := foldl (fun n c => n * 10 + (c - 48)) 0 ds.

(** An optional sign: whether it is a minus, its length, the rest. *)
Definition read_sign (s : list Z) : bool * Z * list Z :=
  match s with
  | 45 :: s' => (true, 1, s')
  | 43 :: s' => (false, 1, s')
  | _ => (false, 0, s)
  end.

(** The exponent part, if there is one: its length and value. *)
Definition read_exponent (s : list Z) : Z * Z :=
  match s with
  | c :: s' =>
    if (c =? 101) || (c =? 69) then
      let '(negative, n, s') := read_sign s' in
      let '(ds, _) := span_digits s' in
      match ds with
      | [] => (0, 0)
      | _ => (1 + n + zlen ds, if negative then - digits_value ds else digits_value ds)
      end
    else (0, 0)
  | [] => (0, 0)
  end.

(** How many characters are the number, and the number. *)
Definition strtod (s : list Z) : Z * double :=
  let '(negative, n, s) := read_sign s in
  let '(ip, s) := span_digits s in
  let '(point, fp, s) := match s with
                         | 46 :: s' => let '(fp, s') := span_digits s' in (1, fp, s')
                         | _ => (0, [], s)
                         end in
  match ip ++ fp with
  | [] => (0, zero)
  | ds => let '(ne, x) := read_exponent s in
          (n + zlen ip + point + zlen fp + ne, decimal negative (digits_value ds) (x - zlen fp))
  end.

(** ** [sprintf] of numbers *)

Fixpoint dec_loop (fuel : nat) (n : Z) : list Z :=
  match fuel with
  | O => [48 + n mod 10]
  | S fuel => if n <? 10 then [48 + n] else dec_loop fuel (n / 10) ++ [48 + n mod 10]
  end.
(** A natural number, and [%ld]. *)
Definition dec (n : Z) : list Z := dec_loop (Z.to_nat (Z.log2 n)) n.
Definition fmt_ld (v : Z) : list Z := if v <? 0 then 45 :: dec (- v) else dec v.

(** Exactly [k] digits. *)
Fixpoint dec_fixed (k : nat) (n : Z) : list Z :=
  match k with O => [] | S k => dec_fixed k (n / 10) ++ [48 + n mod 10] end.

(** [%lf] of [m * 2^e], [e < 0]: six decimals, half to even. *)
Definition millionths (m e : Z) : Z :=
  let num := m * 1000000 in
  let den := 2 ^ (- e) in
  let q := num / den in
  let r := num mod den in
  if (2 * r <? den) || ((2 * r =? den) && Z.even q) then q else q + 1.
Definition fmt_lf (m e : Z) : list Z :=
  let s := millionths (Z.abs m) e in
  (if m <? 0 then [45] else []) ++ dec (s / 1000000) ++ 46 :: dec_fixed 6 (s mod 1000000).

(** [!modf(d, &i)]: no fractional part. *)
Definition integral (m e : Z) : bool := (0 <=? e) || (m mod 2 ^ (- e) =? 0).
Definition whole (m e : Z) : Z := if 0 <=? e then m * 2 ^ e else Z.quot m (2 ^ (- e)).
Definition in_long (v : Z) : bool := (-9223372036854775808 <=? v) && (v <=? 9223372036854775807).

(** What [print_number] hands to [sprintf]; a value outside [long int] may not be
    converted to it. *)
Definition number_text (d : double) : res (list Z) :=
  match d with
  | Fin m e => if integral m e then (if in_long (whole m e) then Ok (fmt_ld (whole m e)) else Err Overflow)
               else Ok (fmt_lf m e)
  | _ => Ok (bytes_of_string "null")
  end.

(** ** Which doubles there are, and which six decimals hold *)

(** One representation for each value: integers below [2^53] as they are, other
    numbers with an odd mantissa or with 53 bits. *)
Definition canonical (m e : Z) : bool :=
  if e =? 0 then Z.abs m <? 2 ^ 53
  else if e <? 0 then (-1074 <=? e) && (Z.abs m <? 2 ^ 53) && Z.odd m
  else (e <=? 971) && (2 ^ 52 <=? Z.abs m) && (Z.abs m <? 2 ^ 53).
Definition is_double (d : double) : bool := match d with Fin m e => canonical m e | _ => true end.

(** A value whose conversion to [long int] is defined, and one whose text says all
    of it: integers of [long int] and multiples of 1/64. *)
Definition convertible (d : double) : bool :=
  is_double d && match d with Fin m e => negb (0 <=? e) || in_long (whole m e) | _ => true end.
Definition exact (d : double) : bool := convertible d && match d with Fin _ e => -6 <=? e | _ => false end.

(** ** The nearest double to a double is itself *)

Lemma strip_odd k : forall fuel m e, (k <= fuel)%nat -> e <= 0 -> (e = 0 \/ Z.odd m = true) ->
  strip fuel (m * 2 ^ Z.of_nat k) (e - Z.of_nat k) = Fin m e.
Proof.
  induction k as [|k IH]; intros fuel m e Hf He Hm.
  - replace (m * _) with m by lia. replace (e - _) with e by lia. destruct fuel; cbn [strip]; [done|].
    destruct (Z.ltb_spec e 0); [|done]. destruct Hm as [?|Hm]; [lia|]. by rewrite <- Z.negb_odd, Hm.
  - destruct fuel as [|fuel]; [lia|]. cbn [strip]. destruct (Z.ltb_spec (e - Z.of_nat (S k)) 0); [|lia].
    replace (m * 2 ^ Z.of_nat (S k)) with (2 * (m * 2 ^ Z.of_nat k)) by (rewrite Nat2Z.inj_succ, Z.pow_succ_r; lia).
    rewrite Z.even_mul. cbn [Z.even orb andb]. rewrite Z.mul_comm, Z.div_mul by lia.
    replace (e - Z.of_nat (S k) + 1) with (e - Z.of_nat k) by lia. apply IH; [lia|done|done].
Qed.

(** [2^x <= num / den], and the same over a common power. *)
Definition reaches (num den x : Z) : bool :=
  if 0 <=? x then den * 2 ^ x <=? num else den <=? num * 2 ^ (- x).

Lemma reaches_scaled num den x k : 0 <= k -> 0 <= x + k ->
  reaches num den x = (den * 2 ^ (x + k) <=? num * 2 ^ k).
Proof.
  intros Hk Hx. unfold reaches. apply eq_true_iff_eq. destruct (Z.leb_spec 0 x); rewrite !Z.leb_le.
  - rewrite Z.pow_add_r by lia. pose proof (Z.pow_pos_nonneg 2 k ltac:(lia) ltac:(lia)). nia.
  - replace (2 ^ k) with (2 ^ (- x) * 2 ^ (x + k)) by (rewrite <- Z.pow_add_r by lia; f_equal; lia).
    pose proof (Z.pow_pos_nonneg 2 (x + k) ltac:(lia) ltac:(lia)). nia.
Qed.

Lemma reaches_mono num den x y : 0 <= den -> x <= y -> reaches num den y = true -> reaches num den x = true.
Proof.
  intros Hd Hxy. set (k := Z.max 0 (- x)). rewrite (reaches_scaled _ _ x k), (reaches_scaled _ _ y k), !Z.leb_le by lia.
  intros H. etrans; [|exact H]. apply Z.mul_le_mono_nonneg_l; [done|]. apply Z.pow_le_mono_r; lia.
Qed.

Lemma magnitude_spec num den : 0 < num -> 0 < den ->
  reaches num den (magnitude num den) = true /\ reaches num den (magnitude num den + 1) = false.
Proof.
  intros Hn Hd. unfold magnitude. set (b := Z.log2 num - Z.log2 den). fold (reaches num den b).
  pose proof (Z.log2_spec num Hn) as Ln. pose proof (Z.log2_spec den Hd) as Ld.
  pose proof (Z.log2_nonneg num). pose proof (Z.log2_nonneg den). rewrite !Z.pow_succ_r in * by done.
  destruct (reaches num den b) eqn:E; split; [done| | |by replace (b - 1 + 1) with b by lia].
  - rewrite (reaches_scaled _ _ _ (Z.log2 den)) by lia. apply Z.leb_gt.
    replace (b + 1 + _) with (Z.succ (Z.log2 num)) by lia. rewrite Z.pow_succ_r by lia. nia.
  - rewrite (reaches_scaled _ _ _ (Z.log2 den + 1)) by lia. apply Z.leb_le.
    replace (b - 1 + _) with (Z.log2 num) by lia. rewrite Z.add_1_r, Z.pow_succ_r by lia. nia.
Qed.

Lemma magnitude_unique num den a : 0 < num -> 0 < den ->
  reaches num den a = true -> reaches num den (a + 1) = false -> magnitude num den = a.
Proof.
  intros Hn Hd H1 H2. pose proof (magnitude_spec num den Hn Hd) as [H3 H4].
  assert (Hup : forall x y, reaches num den x = true -> reaches num den (y + 1) = false -> x <= y).
  { intros x y Hx Hy. destruct (Z.le_gt_cases x y) as [|Hge]; [done|].
    by rewrite (reaches_mono num den (y + 1) x ltac:(lia) ltac:(lia) Hx) in Hy. }
  pose proof (Hup _ _ H1 H4). pose proof (Hup _ _ H3 H2). lia.
Qed.

(** The exponent is the one of [m * 2^e], whatever fraction shows the value. *)
Lemma magnitude_exact num den m e : 0 < m -> 0 < den ->
  num * 2 ^ Z.max (- e) 0 = m * 2 ^ Z.max e 0 * den -> magnitude num den = Z.log2 m + e.
Proof.
  intros Hm Hd E. pose proof (Z.pow_pos_nonneg 2 (Z.max (- e) 0) ltac:(lia) ltac:(lia)).
  pose proof (Z.pow_pos_nonneg 2 (Z.max e 0) ltac:(lia) ltac:(lia)).
  pose proof (Z.log2_spec m Hm) as Lm. pose proof (Z.log2_nonneg m). rewrite Z.pow_succ_r in Lm by done.
  assert (Hn : 0 < num) by nia.
  assert (Hk : forall x, reaches num den (x + e) = (2 ^ (Z.max 0 x) <=? m * 2 ^ (Z.max 0 x - x))).
  { intros x. set (k := Z.max (- e) 0 + Z.max 0 (- x)). rewrite (reaches_scaled _ _ _ k) by lia. apply eq_true_iff_eq. rewrite !Z.leb_le.
    replace (2 ^ k) with (2 ^ Z.max (- e) 0 * 2 ^ Z.max 0 (- x)) by (subst k; rewrite Z.pow_add_r by lia; done).
    rewrite Z.mul_assoc, E.
    replace (2 ^ (x + e + k)) with (2 ^ Z.max 0 x * 2 ^ Z.max e 0) by (rewrite <- Z.pow_add_r by lia; f_equal; lia).
    replace (Z.max 0 x - x) with (Z.max 0 (- x)) by lia. nia. }
  apply magnitude_unique; [done..| |].
  - rewrite Hk, Z.max_r, Z.sub_diag by done. apply Z.leb_le. lia.
  - replace (Z.log2 m + e + 1) with (Z.log2 m + 1 + e) by lia. rewrite Hk, Z.max_r, Z.sub_diag by lia. apply Z.leb_gt.
    rewrite Z.add_1_r, Z.pow_succ_r by lia. lia.
Qed.

Lemma canonical_bound m e : canonical m e = true -> Z.abs m < 2 ^ 53 /\ -1074 <= e <= 971.
Proof.
  unfold canonical. destruct (Z.eqb_spec e 0) as [->|]; [rewrite Z.ltb_lt; lia|].
  destruct (Z.ltb_spec e 0); rewrite !andb_true_iff, ?Z.leb_le, ?Z.ltb_lt; lia.
Qed.

(** A double is rounded to itself. *)
Lemma nearest_exact num den m e : 0 < m -> 0 < den -> canonical m e = true ->
  num * 2 ^ Z.max (- e) 0 = m * 2 ^ Z.max e 0 * den -> nearest num den = Fin m e.
Proof.
  intros Hm Hd Hc E. pose proof (canonical_bound _ _ Hc) as [Hb He]. rewrite Z.abs_eq in Hb by lia.
  unfold nearest. rewrite (magnitude_exact num den m e) by done. set (x := Z.max _ _).
  assert (Hl : 0 <= Z.log2 m < 53) by (split; [apply Z.log2_nonneg|by apply Z.log2_lt_pow2]).
  assert (Hx : x <= e /\ (0 < e -> x = e) /\ (0 <= x -> 0 < e \/ x = 0)).
  { unfold canonical in Hc. destruct (Z.eqb_spec e 0) as [->|]; [subst x; lia|]. destruct (Z.ltb_spec e 0); [subst x; lia|].
    apply andb_true_iff in Hc as [Hc _]. apply andb_true_iff in Hc as [_ Hc]. rewrite Z.abs_eq in Hc by lia. apply Z.leb_le in Hc.
    apply Z.log2_le_mono in Hc. rewrite Z.log2_pow2 in Hc by lia. subst x. lia. }
  pose proof (Z.pow_pos_nonneg 2 (Z.max (- e) 0) ltac:(lia) ltac:(lia)).
  set (num' := if 0 <=? x then num else _). set (den' := if 0 <=? x then _ else _).
  assert (Hd' : 0 < den') by (subst den'; destruct (Z.leb_spec 0 x); [apply Z.mul_pos_pos; [|apply Z.pow_pos_nonneg]|]; lia).
  assert (E' : num' = m * 2 ^ (e - x) * den').
  { subst num' den'. destruct (Z.leb_spec 0 x).
    - destruct Hx as (Hx0 & Hx1 & Hx2). destruct (Z.lt_ge_cases 0 e) as [Hp|Hp].
      + rewrite (Hx1 Hp), Z.sub_diag. rewrite Z.max_r, Z.max_l in E by lia. lia.
      + assert (x = 0) as -> by lia. assert (e = 0) as -> by lia. change (- 0) with 0 in E. rewrite !Z.max_id, !Z.pow_0_r in E. rewrite Z.sub_diag, !Z.pow_0_r. lia.
    - apply (Z.mul_reg_r _ _ (2 ^ Z.max (- e) 0)); [lia|].
      replace (num * 2 ^ (- x) * 2 ^ Z.max (- e) 0) with (num * 2 ^ Z.max (- e) 0 * 2 ^ (- x)) by lia. rewrite E.
      assert (P : 2 ^ (e - x) * 2 ^ Z.max (- e) 0 = 2 ^ Z.max e 0 * 2 ^ (- x)) by (rewrite <- !Z.pow_add_r by lia; f_equal; lia).
      replace (m * 2 ^ (e - x) * den * 2 ^ Z.max (- e) 0) with (m * den * (2 ^ (e - x) * 2 ^ Z.max (- e) 0)) by lia. rewrite P. lia. }
  rewrite E', Z.div_mul, Z.mod_mul by lia. destruct (Z.ltb_spec (2 * 0) den'); [|lia]. cbn [orb].
  assert (Hq : m * 2 ^ (e - x) < 2 ^ 53).
  { apply Z.log2_lt_pow2; [apply Z.mul_pos_pos; [lia|apply Z.pow_pos_nonneg; lia]|]. rewrite Z.log2_mul_pow2 by lia. subst x. lia. }
  destruct (Z.eqb_spec (m * 2 ^ (e - x)) (2 ^ 53)); [lia|]. destruct (Z.ltb_spec 971 x); [lia|].
  destruct (Z.lt_ge_cases 0 e) as [Hp|Hp].
  - replace x with e by (symmetry; by apply Hx). rewrite Z.sub_diag, Z.mul_1_r, Z2Nat.nonpos by lia. done.
  - pose proof (strip_odd (Z.to_nat (e - x)) (Z.to_nat (- x)) m e) as P. rewrite Z2Nat.id in P by lia.
    replace (e - (e - x)) with x in P by lia. apply P; [lia|done|]. unfold canonical in Hc.
    destruct (Z.eqb_spec e 0); [by left|]. destruct (Z.ltb_spec e 0); [|lia]. right. by apply andb_true_iff in Hc as [_ ?].
Qed.

(** What rounding gives is a double. *)
Lemma strip_canonical fuel : forall q e, 0 <= q < 2 ^ 53 -> -1074 <= e -> e = - Z.of_nat fuel ->
  exists m e', strip fuel q e = Fin m e' /\ canonical m e' = true.
Proof.
  induction fuel as [|fuel IH]; intros q e Hq He Hf; cbn [strip].
  - exists q, e. split; [done|]. unfold canonical. replace e with 0 by lia. cbn [Z.eqb]. apply Z.ltb_lt. lia.
  - destruct (Z.ltb_spec e 0); [|lia]. destruct (Z.even q) eqn:Ev; cbn [andb]; [apply IH; lia_div|].
    exists q, e. split; [done|]. unfold canonical. destruct (Z.eqb_spec e 0); [lia|]. destruct (Z.ltb_spec e 0); [|lia].
    rewrite !andb_true_iff, Z.leb_le, Z.ltb_lt, <- Z.negb_even, Ev. lia.
Qed.

Lemma nearest_canonical num den : 0 < num -> 0 < den ->
  nearest num den = Inf false \/ exists m e, nearest num den = Fin m e /\ canonical m e = true.
Proof.
  intros Hn Hd. unfold nearest. destruct (magnitude_spec num den Hn Hd) as [H1 H2]. set (a := magnitude num den) in *. set (e := Z.max _ _).
  set (num' := if 0 <=? e then num else _). set (den' := if 0 <=? e then _ else _).
  assert (En : num' = num * 2 ^ Z.max (- e) 0) by (subst num'; destruct (Z.leb_spec 0 e); [rewrite Z.max_r by lia; lia|by rewrite Z.max_l by lia]).
  assert (Ed : den' = den * 2 ^ (e + Z.max (- e) 0)).
  { subst den'. destruct (Z.leb_spec 0 e); [rewrite Z.max_r by lia; do 2 f_equal; lia|]. rewrite Z.max_l, Z.add_opp_diag_r by lia. lia. }
  assert (Hscale : forall k, 0 <= k -> reaches num den (e + k) = (den' * 2 ^ k <=? num')).
  { intros k Hk. rewrite (reaches_scaled _ _ _ (Z.max (- e) 0)) by lia. rewrite En, Ed, <- Z.mul_assoc, <- Z.pow_add_r by lia. do 3 f_equal. lia. }
  assert (Hup : num' < den' * 2 ^ 53).
  { apply Z.leb_gt. rewrite <- Hscale by lia. destruct (reaches num den (e + 53)) eqn:E; [|done].
    rewrite (reaches_mono num den (a + 1) (e + 53)) in H2 by (lia || done). done. }
  assert (Hlow : -1074 < e -> den' * 2 ^ 52 <= num').
  { intros He. apply Z.leb_le. rewrite <- Hscale by lia. by replace (e + 52) with a by lia. }
  assert (Hd' : 0 < den') by (rewrite Ed; apply Z.mul_pos_pos; [done|apply Z.pow_pos_nonneg; lia]).
  assert (Hn' : 0 < num') by (rewrite En; apply Z.mul_pos_pos; [done|apply Z.pow_pos_nonneg; lia]).
  set (q := if _ || _ then num' / den' else _).
  assert (Hq : 0 <= q <= 2 ^ 53 /\ (-1074 < e -> 2 ^ 52 <= q)).
  { assert (0 <= num' / den' < 2 ^ 53) by (split; [apply Z.div_pos; lia|apply Z.div_lt_upper_bound; lia]).
    assert (-1074 < e -> 2 ^ 52 <= num' / den') by (intros He; apply Z.div_le_lower_bound; [done|by apply Hlow]).
    subst q. destruct (_ || _); lia. }
  assert (He : -1074 <= e) by lia. clearbody q e. clear - Hq He.
  set (e' := if q =? 2 ^ 53 then e + 1 else e). set (q' := if q =? 2 ^ 53 then 2 ^ 52 else q).
  assert (H : 0 <= q' < 2 ^ 53 /\ (0 < e' -> 2 ^ 52 <= q') /\ -1074 <= e') by (subst q' e'; destruct (Z.eqb_spec q (2 ^ 53)); lia).
  clearbody q' e'. destruct (Z.ltb_spec 971 e'); [by left|]. right. destruct (Z.lt_ge_cases 0 e').
  - exists q', e'. rewrite Z2Nat.nonpos by lia. split; [done|]. unfold canonical. destruct (Z.eqb_spec e' 0); [lia|]. destruct (Z.ltb_spec e' 0); [lia|].
    rewrite !andb_true_iff, !Z.leb_le, Z.ltb_lt. lia.
  - apply strip_canonical; lia.
Qed.

Lemma canonical_neg m e : canonical (- m) e = canonical m e.
Proof. unfold canonical. by rewrite Z.abs_opp, Z.odd_opp. Qed.

(** The decimal [n * 10^k] of a double is read as that double. *)
Lemma decimal_exact m e n k : canonical m e = true -> -500 <= k <= 400 -> 0 <= n ->
  n * 10 ^ Z.max k 0 * 2 ^ Z.max (- e) 0 = Z.abs m * 2 ^ Z.max e 0 * 10 ^ Z.max (- k) 0 -> (m = 0 -> e = 0) ->
  decimal (m <? 0) n k = Fin m e.
Proof.
  intros Hc Hk Hn E H0. unfold decimal. pose proof (Z.pow_pos_nonneg 10 (Z.max k 0) ltac:(lia) ltac:(lia)).
  pose proof (Z.pow_pos_nonneg 10 (Z.max (- k) 0) ltac:(lia) ltac:(lia)).
  pose proof (Z.pow_pos_nonneg 2 (Z.max e 0) ltac:(lia) ltac:(lia)). pose proof (Z.pow_pos_nonneg 2 (Z.max (- e) 0) ltac:(lia) ltac:(lia)).
  destruct (Z.eqb_spec n 0) as [->|]; cbn [orb].
  - assert (m = 0) as -> by nia. by rewrite H0.
  - assert (m <> 0) by nia. destruct (Z.ltb_spec k (-500)); [lia|]. destruct (Z.ltb_spec 400 k); [lia|].
    rewrite (nearest_exact _ _ (Z.abs m) e); [|lia|done| |done].
    + destruct (Z.ltb_spec m 0); cbn [negate]; f_equal; lia.
    + destruct (Z.abs_eq_or_opp m) as [-> | ->]; [done|by rewrite canonical_neg].
Qed.

Lemma decimal_double b n k : 0 <= n -> is_double (decimal b n k) = true /\ decimal b n k <> NaN.
Proof.
  intros Hn. unfold decimal. cbv zeta. lazymatch goal with |- is_double (if b then negate ?x else _) = _ /\ _ => set (d := x) end. assert (Hd : is_double d = true /\ d <> NaN).
  { subst d. destruct (Z.eqb_spec n 0); cbn [orb]; [done|]. destruct (_ <? -500); [done|]. destruct (_ <? k); [done|].
    destruct (nearest_canonical (n * 10 ^ Z.max k 0) (10 ^ Z.max (- k) 0)) as [-> |(m & e & -> & Hc)]; [| |done|done];
      [apply Z.mul_pos_pos; [lia|]|]; apply Z.pow_pos_nonneg; lia. }
  destruct b; [|done]. destruct Hd as [Hd Hn']. destruct d; cbn [negate is_double] in *; [|done..]. by rewrite canonical_neg.
Qed.

(** ** Digits *)

Definition all_digits (ds : list Z) : Prop := Forall (fun c => is_digit c = true) ds.

Lemma is_digit_spec c : is_digit c = true <-> 48 <= c <= 57.
Proof. unfold is_digit. rewrite andb_true_iff, !Z.leb_le. lia. Qed.

Lemma digits_value_app a b : digits_value (a ++ b) = digits_value a * 10 ^ zlen b + digits_value b.
Proof.
  unfold digits_value. rewrite foldl_app. generalize (foldl (fun n c => n * 10 + (c - 48)) 0 a). intros x.
  induction b as [|c b IH] using rev_ind; [cbn; rewrite zlen_nil; lia|]. rewrite !foldl_app, IH. cbn [foldl].
  replace (zlen (b ++ [c])) with (zlen b + 1) by zlen_solve. pose proof (zlen_nonneg b). rewrite (Z.pow_add_r 10 (zlen b)), Z.pow_1_r by lia. lia.
Qed.

Lemma digits_value_one c : digits_value [c] = c - 48.
Proof. cbn. lia. Qed.

Lemma dec_loop_ok fuel : forall n k, 0 <= n < 2 ^ (Z.of_nat fuel + 1) -> (n < 10 ^ Z.of_nat (S k)) ->
  digits_value (dec_loop fuel n) = n /\ all_digits (dec_loop fuel n) /\ 1 <= zlen (dec_loop fuel n) <= Z.of_nat (S k).
Proof.
  induction fuel as [|fuel IH]; intros n k Hn Hk; cbn [dec_loop].
  - cbn in Hn. rewrite digits_value_one, zlen_cons, zlen_nil, Z.mod_small by lia. split; [lia|]. split; [|lia].
    apply Forall_singleton, is_digit_spec. lia.
  - destruct (Z.ltb_spec n 10).
    + rewrite digits_value_one, zlen_cons, zlen_nil. split; [lia|]. split; [|lia]. apply Forall_singleton, is_digit_spec. lia.
    + destruct k as [|k]; [cbn in Hk; lia|]. rewrite !Nat2Z.inj_succ, <- !Z.add_1_r, !Z.pow_add_r, !Z.pow_1_r in Hn, Hk by lia.
      destruct (IH (n / 10) k) as (H1 & H2 & H3).
      { lia_div. }
      { lia_div. }
      rewrite digits_value_app, digits_value_one, zlen_app, zlen_cons, zlen_nil, H1. split; [cbn; lia_div|]. split; [|lia].
      apply Forall_app. split; [done|]. apply Forall_singleton, is_digit_spec. lia_div.
Qed.

Lemma dec_digits_ok n k : 0 <= n < 10 ^ Z.of_nat (S k) ->
  digits_value (dec n) = n /\ all_digits (dec n) /\ 1 <= zlen (dec n) <= Z.of_nat (S k).
Proof.
  intros Hn. apply dec_loop_ok; [|lia]. split; [lia|]. pose proof (Z.log2_nonneg n). rewrite Z2Nat.id by done.
  destruct (Z.eq_dec n 0) as [->|]; [done|]. rewrite Z.add_1_r. apply Z.log2_spec. lia.
Qed.

Lemma dec_fixed_ok k : forall n, 0 <= n < 10 ^ Z.of_nat k ->
  digits_value (dec_fixed k n) = n /\ all_digits (dec_fixed k n) /\ zlen (dec_fixed k n) = Z.of_nat k.
Proof.
  induction k as [|k IH]; intros n Hn; cbn [dec_fixed]; [cbn in Hn; repeat split; [cbn; lia|constructor]|].
  rewrite Nat2Z.inj_succ, <- Z.add_1_r, Z.pow_add_r, Z.pow_1_r in Hn by lia.
  destruct (IH (n / 10)) as (H1 & H2 & H3); [lia_div|].
  rewrite digits_value_app, digits_value_one, zlen_app, zlen_cons, zlen_nil, H1. split; [cbn; lia_div|]. split; [|lia].
  apply Forall_app. split; [done|]. apply Forall_singleton, is_digit_spec. lia_div.
Qed.

(** ** A number's text is read back *)

Lemma span_digits_app ds r : all_digits ds -> match r with c :: _ => is_digit c = false | [] => True end ->
  span_digits (ds ++ r) = (ds, r).
Proof.
  intros Hd Hr. induction Hd as [|c ds Hc _ IH]; cbn [app].
  - destruct r as [|c r]; [done|]. cbn [span_digits]. by rewrite Hr.
  - cbn [span_digits]. by rewrite Hc, IH.
Qed.

Lemma span_digits_split s : forall ds r, span_digits s = (ds, r) -> s = ds ++ r /\ all_digits ds.
Proof.
  induction s as [|c s IH]; cbn [span_digits]; intros ds r; [intros [= <- <-]; split; [done|constructor]|].
  destruct (is_digit c) eqn:Hc; [|intros [= <- <-]; split; [done|constructor]].
  destruct (span_digits s) as [ds' r']. intros [= <- <-]. destruct (IH _ _ eq_refl) as [-> H]. split; [done|by constructor].
Qed.

Lemma read_sign_split s b n r : read_sign s = (b, n, r) -> 0 <= n /\ zlen s = n + zlen r.
Proof.
  assert (H0 : forall s : list Z, 0 <= 0 /\ zlen s = 0 + zlen s) by lia.
  destruct s as [|c s]; cbn [read_sign]; [intros [= <- <- <-]; apply H0|]. destruct c as [|p|p]; try (intros [= <- <- <-]; apply H0).
  do 6 (try (destruct p as [p|p|]); try (intros [= <- <- <-]; first [apply H0|rewrite zlen_cons; lia])).
Qed.

Lemma digits_value_nonneg ds : all_digits ds -> 0 <= digits_value ds.
Proof.
  induction ds as [|c ds IH] using rev_ind; intros Hd; [done|]. apply Forall_app in Hd as [Hd Hc]. apply Forall_cons in Hc as [Hc _]. apply is_digit_spec in Hc.
  rewrite digits_value_app, digits_value_one. pose proof (zlen_nonneg ds). specialize (IH Hd). change (zlen [c]) with 1. lia.
Qed.

Lemma read_exponent_len s n x : read_exponent s = (n, x) -> 0 <= n <= zlen s.
Proof.
  pose proof (zlen_nonneg s). unfold read_exponent. destruct s as [|c s]; [intros [= <- <-]; lia|]. destruct (_ || _); [|intros [= <- <-]; lia].
  destruct (read_sign s) as [[b k] r] eqn:E1. destruct (span_digits r) as [ds r'] eqn:E2. apply read_sign_split in E1.
  apply span_digits_split in E2 as [-> _]. destruct ds; [intros [= <- <-]; lia|]. intros [= <- <-].
  rewrite (zlen_cons c s). rewrite zlen_app in E1. pose proof (zlen_nonneg r'). pose proof (zlen_nonneg (z :: ds)). lia.
Qed.

(** [strtod] reads inside its text and gives a double, never NaN. *)
Lemma strtod_safe s n d : strtod s = (n, d) -> 0 <= n <= zlen s /\ is_double d = true /\ d <> NaN.
Proof.
  unfold strtod. destruct (read_sign s) as [[b k] s1] eqn:E1. destruct (span_digits s1) as [ip s2] eqn:E2.
  set (pf := match s2 with 46 :: s' => _ | _ => _ end). destruct pf as [[point fp] s3] eqn:E3.
  apply read_sign_split in E1 as [Hk Hs]. apply span_digits_split in E2 as [-> Hi].
  assert (H3 : 0 <= point /\ zlen s2 = point + zlen fp + zlen s3 /\ all_digits fp).
  { subst pf. assert (H0 : (0, [], s2) = (point, fp, s3) -> 0 <= point /\ zlen s2 = point + zlen fp + zlen s3 /\ all_digits fp).
    { intros [= <- <- <-]. split; [done|]. split; [change (zlen (@nil Z)) with 0; lia|constructor]. }
    destruct s2 as [|c s2]; [by apply H0|]. destruct (Z.eq_dec c 46) as [->|].
    - destruct (span_digits s2) as [fp' s'] eqn:E4. injection E3 as <- <- <-. apply span_digits_split in E4 as [-> Hf].
      rewrite zlen_cons, zlen_app. split; [done|]. split; [lia|done].
    - destruct c as [|p|p]; try by apply H0. do 6 (try destruct p as [p|p|]; try (by apply H0); try done). }
  clear pf E3. destruct H3 as (Hp & Hl & Hf). rewrite zlen_app in Hs.
  pose proof (zlen_nonneg ip). pose proof (zlen_nonneg fp). pose proof (zlen_nonneg s3).
  destruct (ip ++ fp) as [|c ds] eqn:E; [intros [= <- <-]; repeat split; [lia|lia|done]|].
  destruct (read_exponent s3) as [ne x] eqn:E4. apply read_exponent_len in E4. intros [= <- <-]. split; [lia|].
  apply decimal_double, digits_value_nonneg. rewrite <- E. by apply Forall_app.
Qed.

Lemma saturate_number d : d <> NaN -> exists i, saturate d = Ok i.
Proof.
  intros Hd. unfold saturate, d_ge, d_le, d_int, INT_MAX. destruct d as [m e|[]|]; [|by eexists..|done]. destruct (Z.leb_spec 0 e).
  - destruct (Z.leb_spec 2147483647 (m * 2 ^ e)); [eauto|]. destruct (Z.leb_spec (m * 2 ^ e) (-2147483648)); [eauto|].
    destruct (_ && _) eqn:E; [eauto|]. rewrite andb_false_iff, !Z.leb_gt in E. lia.
  - pose proof (Z.pow_pos_nonneg 2 (- e) ltac:(lia) ltac:(lia)). set (p := 2 ^ (- e)) in *.
    destruct (Z.leb_spec (2147483647 * p) m); [eauto|]. destruct (Z.leb_spec m (-2147483648 * p)); [eauto|].
    destruct (_ && _) eqn:E; [eauto|]. rewrite andb_false_iff, !Z.leb_gt in E.
    destruct (Z.le_gt_cases 0 m).
    + assert (0 <= Z.quot m p <= 2147483647); [|lia]. split; [apply Z.quot_pos; lia|]. apply Z.quot_le_upper_bound; lia.
    + assert (-2147483648 <= Z.quot m p <= 0); [|lia]. rewrite <- (Z.opp_involutive m), Z.quot_opp_l by lia.
      assert (0 <= Z.quot (- m) p <= 2147483648); [|lia]. split; [apply Z.quot_pos; lia|]. apply Z.quot_le_upper_bound; lia.
Qed.

Definition minus (b : bool) : list Z := if b then [45] else [].

Lemma read_sign_minus b s : match s with c :: _ => is_digit c = true | [] => False end ->
  read_sign (minus b ++ s) = (b, zlen (minus b), s).
Proof.
  destruct b; [done|]. destruct s as [|c s]; [done|]. intros Hc%is_digit_spec. cbn [minus app read_sign].
  destruct (Z.eq_dec c 45), (Z.eq_dec c 43); try lia. destruct c as [|p|p]; try lia.
  do 6 (destruct p as [p|p|]; try done; try lia).
Qed.

Lemma strtod_int b ds : all_digits ds -> ds <> [] ->
  strtod (minus b ++ ds) = (zlen (minus b) + zlen ds, decimal b (digits_value ds) 0).
Proof.
  intros Hd Hn. unfold strtod. rewrite read_sign_minus by (destruct Hd; done).
  replace ds with (ds ++ []) at 1 by apply app_nil_r. rewrite span_digits_app by done. cbn beta iota.
  rewrite app_nil_r. destruct ds as [|c ds]; [done|]. cbn [read_exponent]. change (zlen (@nil Z)) with 0. f_equal. lia.
Qed.

Lemma strtod_point b ip fp : all_digits ip -> all_digits fp -> ip <> [] ->
  strtod (minus b ++ ip ++ 46 :: fp) = (zlen (minus b ++ ip ++ 46 :: fp), decimal b (digits_value (ip ++ fp)) (- zlen fp)).
Proof.
  intros Hi Hf Hn. unfold strtod. rewrite read_sign_minus by (destruct Hi; done). rewrite span_digits_app by done.
  replace fp with (fp ++ []) at 1 by apply app_nil_r. rewrite span_digits_app by done. cbn beta iota.
  rewrite !zlen_app, zlen_cons. destruct ip as [|c ip]; [done|]. cbn [app read_exponent]. rewrite Z.sub_0_l. f_equal. lia.
Qed.

Lemma canonical_integral m e : canonical m e = true -> integral m e = (0 <=? e).
Proof.
  unfold canonical, integral. destruct (Z.eqb_spec e 0) as [->|]; [done|]. destruct (Z.ltb_spec e 0); [|by destruct (Z.leb_spec 0 e); [|lia]].
  intros Hc. apply andb_true_iff in Hc as [_ Ho]. destruct (Z.leb_spec 0 e); [lia|]. cbn [orb]. apply Z.eqb_neq. intros E.
  apply Z.mod_divide in E as [q ->]; [|apply Z.pow_nonzero; lia]. revert Ho.
  replace (- e) with (Z.succ (- e - 1)) by lia. rewrite Z.pow_succ_r, <- Z.negb_even, !Z.even_mul by lia.
  cbn [Z.even orb]. by rewrite orb_true_r.
Qed.

(** The two forms: an integer, and a number with six decimals. *)
Inductive number_form (d : double) : list Z -> Prop :=
  | form_int m e : d = Fin m e -> canonical m e = true -> 0 <= e -> Z.abs (m * 2 ^ e) <= 2 ^ 63 ->
      number_form d (minus (m <? 0) ++ dec (Z.abs m * 2 ^ e))
  | form_lf m e ip fp : d = Fin m e -> canonical m e = true -> e < 0 ->
      ip = dec (millionths (Z.abs m) e / 1000000) -> fp = dec_fixed 6 (millionths (Z.abs m) e mod 1000000) ->
      number_form d (minus (m <? 0) ++ ip ++ 46 :: fp).

Lemma number_text_form m e : convertible (Fin m e) = true -> exists t, number_text (Fin m e) = Ok t /\ number_form (Fin m e) t.
Proof.
  unfold convertible. cbn [is_double]. intros [Hc Hl]%andb_true_iff. unfold number_text. rewrite canonical_integral by done.
  destruct (Z.leb_spec 0 e) as [He|He]; cbn [negb orb] in Hl.
  - rewrite Hl. eexists. split; [done|]. unfold whole, in_long in *. destruct (Z.leb_spec 0 e); [|lia]. rewrite andb_true_iff, !Z.leb_le in Hl.
    pose proof (Z.pow_pos_nonneg 2 e ltac:(lia) ltac:(lia)).
    replace (fmt_ld (m * 2 ^ e)) with (minus (m <? 0) ++ dec (Z.abs m * 2 ^ e)); [constructor; try done; lia|].
    unfold fmt_ld. destruct (Z.ltb_spec m 0), (Z.ltb_spec (m * 2 ^ e) 0); try nia; cbn [minus app]; do 2 f_equal; nia.
  - eexists. split; [done|]. unfold fmt_lf. replace (if m <? 0 then [45] else []) with (minus (m <? 0)) by by destruct (m <? 0).
    econstructor; done.
Qed.

Lemma millionths_bound m e : 0 <= m < 2 ^ 53 -> e < 0 -> 0 <= millionths m e <= 2 ^ 52 * 1000000 + 1.
Proof.
  intros Hm He. unfold millionths. assert (2 <= 2 ^ (- e)) by (change 2 with (2 ^ 1) at 1; apply Z.pow_le_mono_r; lia).
  set (den := 2 ^ (- e)) in *. assert (0 <= m * 1000000 / den <= 2 ^ 52 * 1000000).
  { split; [apply Z.div_pos; lia|]. apply Z.div_le_upper_bound; [lia|]. nia. }
  destruct (_ || _); lia.
Qed.

Lemma millionths_exact m e : -6 <= e < 0 -> millionths m e * 2 ^ (- e) = m * 1000000.
Proof.
  intros He. assert (E : m * 1000000 = m * 15625 * 2 ^ (6 + e) * 2 ^ (- e)).
  { rewrite <- Z.mul_assoc, <- Z.pow_add_r by lia. replace (6 + e + - e) with 6 by lia. lia. }
  pose proof (Z.pow_pos_nonneg 2 (- e) ltac:(lia) ltac:(lia)). unfold millionths. rewrite E, Z.div_mul, Z.mod_mul by lia.
  destruct (Z.ltb_spec (2 * 0) (2 ^ (- e))); [done|lia].
Qed.

Lemma ip_ok m e : canonical m e = true -> e < 0 -> let s := millionths (Z.abs m) e in
  digits_value (dec (s / 1000000)) = s / 1000000 /\ all_digits (dec (s / 1000000)) /\ 1 <= zlen (dec (s / 1000000)) <= 16.
Proof.
  intros Hc He s. pose proof (canonical_bound _ _ Hc) as [Hm _].
  pose proof (millionths_bound (Z.abs m) e ltac:(lia) He). apply (dec_digits_ok _ 15). subst s. cbn. cbn in H. lia_div.
Qed.

(** The characters of numbers, and what starts one. *)
Definition is_number_char (c : Z) : bool :=
  is_digit c || (c =? 43) || (c =? 45) || (c =? 101) || (c =? 69) || (c =? 46).

Lemma digits_chars ds : all_digits ds -> Forall (fun c => is_number_char c = true) ds.
Proof. intros H. eapply Forall_impl; [exact H|]. intros c Hc. unfold is_number_char. by rewrite Hc. Qed.

Lemma minus_chars b : Forall (fun c => is_number_char c = true) (minus b) /\ zlen (minus b) <= 1.
Proof. destruct b; split; repeat constructor; done. Qed.

Lemma number_form_chars d t : number_form d t -> Forall (fun c => is_number_char c = true) t /\ 1 <= zlen t <= 24 /\
  match t with c :: _ => c = 45 \/ is_digit c = true | [] => False end.
Proof.
  assert (Hhead : forall b l, 1 <= zlen l -> all_digits l -> forall r, match (minus b ++ l) ++ r with c :: _ => c = 45 \/ is_digit c = true | [] => False end).
  { intros [] [|c l] Hl Hd r; [by left|by left|done|]. apply Forall_cons in Hd as [? _]. by right. }
  intros [m e -> Hc He Hb|m e ip fp -> Hc He -> ->]; pose proof (minus_chars (m <? 0)) as [Hm Hl].
  - destruct (dec_digits_ok (Z.abs m * 2 ^ e) 18) as (H1 & H2 & H3).
    { rewrite Z.abs_mul, (Z.abs_eq (2 ^ e)) in Hb by (apply Z.pow_nonneg; lia). cbn. cbn in Hb. split; [|lia].
      apply Z.mul_nonneg_nonneg; [lia|apply Z.pow_nonneg; lia]. }
    split; [apply Forall_app; split; [done|by apply digits_chars]|]. rewrite zlen_app. pose proof (zlen_nonneg (minus (m <? 0))).
    split; [lia|]. pose proof (Hhead (m <? 0) (dec (Z.abs m * 2 ^ e)) ltac:(lia) H2 []) as P. by rewrite app_nil_r in P.
  - destruct (ip_ok m e Hc He) as (H1 & H2 & H3). destruct (dec_fixed_ok 6 (millionths (Z.abs m) e mod 1000000)) as (H4 & H5 & H6).
    { change (10 ^ Z.of_nat 6) with 1000000. apply Z.mod_pos_bound. lia. }
    rewrite !zlen_app, zlen_cons, H6. pose proof (zlen_nonneg (minus (m <? 0))). split; [|split; [lia|]].
    + rewrite !Forall_app, Forall_cons. repeat split; try done; by apply digits_chars.
    + rewrite app_assoc. apply Hhead; [lia|done].
Qed.

Lemma nonempty (l : list Z) n : 1 <= zlen l <= n -> l <> [].
Proof. intros H ->. unfold zlen in H. cbn in H. lia. Qed.

(** Reading a number's text gives the number, when the text says all of it. *)
Lemma number_text_back d t : exact d = true -> number_text d = Ok t -> strtod t = (zlen t, d).
Proof.
  intros Hx Ht. unfold exact in Hx. apply andb_true_iff in Hx as [Hv Hx]. destruct d as [m e| |]; [|done..].
  destruct (number_text_form m e Hv) as (t' & Ht' & Hf). rewrite Ht in Ht'. injection Ht' as <-. apply Z.leb_le in Hx.
  destruct Hf as [m' e' [= <- <-] Hc He Hb|m' e' ip fp [= <- <-] Hc He -> ->].
  - pose proof (Z.pow_pos_nonneg 2 e ltac:(lia) ltac:(lia)).
    destruct (dec_digits_ok (Z.abs m * 2 ^ e) 18) as (H1 & H2 & H3).
    { rewrite Z.abs_mul, (Z.abs_eq (2 ^ e)) in Hb by lia. cbn. cbn in Hb. nia. }
    rewrite strtod_int; [|done|by eapply nonempty]. rewrite zlen_app. f_equal. rewrite H1.
    apply decimal_exact; [done|lia|lia| |].
    + rewrite (Z.max_r (- e)), (Z.max_l e) by lia. change (10 ^ _) with 1. change (10 ^ _) with 1. rewrite Z.pow_0_r. lia.
    + intros ->. unfold canonical in Hc. destruct (Z.eqb_spec e 0); [done|]. destruct (Z.ltb_spec e 0); [lia|].
      apply andb_true_iff in Hc as [Hc _]. apply andb_true_iff in Hc as [_ Hc]. by apply Z.leb_le in Hc.
  - destruct (ip_ok m e Hc He) as (H1 & H2 & H3). destruct (dec_fixed_ok 6 (millionths (Z.abs m) e mod 1000000)) as (H4 & H5 & H6).
    { change (10 ^ Z.of_nat 6) with 1000000. apply Z.mod_pos_bound. lia. }
    rewrite strtod_point; [|done..|by eapply nonempty]. f_equal.
    rewrite digits_value_app, H6, H4, H1. pose proof (canonical_bound _ _ Hc) as [Hm _].
    pose proof (millionths_bound (Z.abs m) e ltac:(lia) He) as Hs. pose proof (millionths_exact (Z.abs m) e ltac:(lia)) as Ee.
    set (s := millionths (Z.abs m) e) in *. replace (s / 1000000 * 10 ^ Z.of_nat 6 + s mod 1000000) with s by (change (10 ^ Z.of_nat 6) with 1000000; lia_div).
    apply decimal_exact; [done|lia|lia| |].
    + rewrite (Z.max_l (- e)), (Z.max_r e) by lia. change (10 ^ Z.max (- Z.of_nat 6) 0) with 1. change (10 ^ Z.max (- - Z.of_nat 6) 0) with 1000000. lia.
    + intros ->. unfold canonical in Hc. destruct (Z.eqb_spec e 0); [done|]. destruct (Z.ltb_spec e 0); [|lia].
      by apply andb_true_iff in Hc as [_ ?].
Qed.

(** Any convertible number has a text that fits its buffer. *)
Lemma number_text_ok d : convertible d = true -> exists t, number_text d = Ok t /\ 1 <= zlen t <= 24 /\ no_nul t /\ all_bytes t.
Proof.
  intros Hv. destruct d as [m e| |]; [|eexists; split; [done|]; split; [done|]; split; repeat constructor; done..].
  destruct (number_text_form m e Hv) as (t & Ht & Hf). exists t. split; [done|]. apply number_form_chars in Hf as (H1 & H2 & _).
  split; [done|]. split; eapply Forall_impl; try exact H1; intros c; unfold is_number_char, is_digit, is_byte;
    rewrite !orb_true_iff, andb_true_iff, !Z.leb_le, !Z.eqb_eq; lia.
Qed.

End JsonNum.
