(* ===== verification/JsonParse.v ===== *)
(** The parser of JSON texts (src/src/include/cJSON/cJSON.c, [ks_json_parse] of
    src/src/ks_json.c): for any text it stays inside its buffers, ends, gives well-typed
    values and loses no memory. *)
From S2P Require Import Prelude Str Json JsonNum.
Import Str Json JsonNum.
Local Open Scope Z_scope.

Module JsonParse.

(** ** The allocator: what [allocate] answers next (it serves from the end of the
    list on), what fresh memory holds, how many blocks are live *)

Record internal_hooks := Hooks { serve : list bool; fill : Z; live : Z; reallocate : bool }.

Definition allocate (n : Z) (h : internal_hooks) : option (list Z) * internal_hooks :=
  match serve h with
  | false :: r => (None, Hooks r (fill h) (live h) (reallocate h))
  | true :: r => (Some (replicate (Z.to_nat n) (fill h)), Hooks r (fill h) (live h + 1) (reallocate h))
  | [] => (Some (replicate (Z.to_nat n) (fill h)), Hooks [] (fill h) (live h + 1) (reallocate h))
  end.
Definition deallocate (n : Z) (h : internal_hooks) : internal_hooks :=
  Hooks (serve h) (fill h) (live h - n) (reallocate h).

Definition kJSON_New_Item (h : internal_hooks) : option kJSON * internal_hooks :=
  let '(m, h) := allocate 64 h in (match m with Some _ => Some (new_item 0) | None => None end, h).

(** The blocks of an item: [kJSON_Delete] frees them, and those of its siblings. *)
Definition has {A} (x : option A) : Z := match x with Some _ => 1 | None => 0 end.
Fixpoint blocks (j : kJSON) : Z :=
  let '(Item t vs _ _ s c) := j in
  (if Z.land t kJSON_IsReference =? 0 then foldr (fun j n => blocks j + n) 0 c + has vs else 0)
  + (if Z.land t kJSON_StringIsConst =? 0 then has s else 0) + 1.
Definition blocks_of (c : list kJSON) : Z := foldr (fun j n => blocks j + n) 0 c.
Definition kJSON_Delete (c : list kJSON) (h : internal_hooks) : internal_hooks := deallocate (blocks_of c) h.

(** ** The parse buffer *)

Record parse_buffer := Buf { content : list Z; len : Z; offset : Z; depth : Z; hooks : internal_hooks }.

Definition set_offset (o : Z) (b : parse_buffer) := Buf (content b) (len b) o (depth b) (hooks b).
Definition set_depth (d : Z) (b : parse_buffer) := Buf (content b) (len b) (offset b) d (hooks b).
Definition set_hooks (h : internal_hooks) (b : parse_buffer) := Buf (content b) (len b) (offset b) (depth b) h.

Definition can_read (b : parse_buffer) (size : Z) : bool := offset b + size <=? len b.
Definition can_access_at_index (b : parse_buffer) (index : Z) : bool := offset b + index <? len b.
Definition buffer_at (b : parse_buffer) (index : Z) : res Z := ld (content b) (offset b + index).

(** [strncmp] with a literal of that length gives 0. *)
Fixpoint starts_at (m : list Z) (off : Z) (lit : list Z) : res bool :=
  match lit with
  | [] => Ok true
  | c :: lit => x ← ld m off; if x =? c then starts_at m (off + 1) lit else Ok false
  end.

Definition set_value (t : Z) (vs : option (list Z)) (vi : Z) (vd : double) (c : list kJSON) (j : kJSON) : kJSON :=
  Item t vs vi vd (string j) c.
Definition set_type (t : Z) (j : kJSON) := set_value t (valuestring j) (valueint j) (valuedouble j) (child j) j.

(** ** Numbers *)

(** What [number_c_string] holds before its NUL: its 64 bytes take 63 characters. *)
Fixpoint copy_number (n : nat) (b : parse_buffer) (i : Z) : res (list Z) :=
  match n with
  | O => Ok []
  | S n => if can_access_at_index b i then
             c ← buffer_at b i;
             if is_number_char c then s ← copy_number n b (i + 1); Ok (c :: s) else Ok []
           else Ok []
  end.

Definition parse_number (item : kJSON) (b : parse_buffer) : res (bool * kJSON * parse_buffer) :=
  number_c_string ← copy_number 63 b 0;
  let '(n, number) := strtod number_c_string in
  if n =? 0 then Ok (false, item, b) else
  i ← saturate number;
  Ok (true, set_value KS_JSON_TYPE_NUMBER (valuestring item) i number (child item) item, set_offset (offset b + n) b).

(** ** Strings *)

Definition hex_value (c : Z) : option Z :=
  if (48 <=? c) && (c <=? 57) then Some (c - 48)
  else if (65 <=? c) && (c <=? 70) then Some (10 + c - 65)
  else if (97 <=? c) && (c <=? 102) then Some (10 + c - 97)
  else None.

Fixpoint hex4_loop (n : nat) (m : list Z) (input h : Z) : res Z :=
  match n with
  | O => Ok h
  | S n => c ← ld m input;
           match hex_value c with
           | None => Ok 0
           | Some d => let h := u32 (h + d) in
                       match n with O => Ok h | _ => hex4_loop n m (input + 1) (u32 (Z.shiftl h 4)) end
           end
  end.
Definition parse_hex4 (m : list Z) (input : Z) : res Z := hex4_loop 4 m input 0.

(** The length of the UTF-8 form of a code point and the mark of its first byte. *)
Definition utf8_form (codepoint : Z) : option (Z * Z) :=
  if codepoint <? 128 then Some (1, 0)
  else if codepoint <? 2048 then Some (2, 192)
  else if codepoint <? 65536 then Some (3, 224)
  else if codepoint <=? 1114111 then Some (4, 240)
  else None.

Fixpoint put_continuation (pos : nat) (out : list Z) (o codepoint : Z) : res (list Z * Z) :=
  match pos with
  | O => Ok (out, codepoint)
  | S pos' => out ← st out (o + Z.of_nat pos) (u8 (Z.land (Z.lor codepoint 128) 191));
              put_continuation pos' out o (Z.shiftr codepoint 6)
  end.

Definition put_utf8 (out : list Z) (o codepoint : Z) : res (option (list Z * Z)) :=
  match utf8_form codepoint with
  | None => Ok None
  | Some (utf8_length, first_byte_mark) =>
    '(out, codepoint) ← put_continuation (Z.to_nat (utf8_length - 1)) out o codepoint;
    out ← st out o (if 1 <? utf8_length then Z.land (Z.lor codepoint first_byte_mark) 255 else Z.land codepoint 127);
    Ok (Some (out, o + utf8_length))
  end.

(** The code point of one or two [\uXXXX] and how long they are. *)
Definition utf16_literal (m : list Z) (input_pointer input_end : Z) : res (option (Z * Z)) :=
  if input_end - input_pointer <? 6 then Ok None else
  first_code ← parse_hex4 m (input_pointer + 2);
  if (56320 <=? first_code) && (first_code <=? 57343) then Ok None else
  if (55296 <=? first_code) && (first_code <=? 56319) then
    let second_sequence := input_pointer + 6 in
    if input_end - second_sequence <? 6 then Ok None else
    c0 ← ld m second_sequence;
    c1 ← ld m (second_sequence + 1);
    if negb (c0 =? 92) || negb (c1 =? 117) then Ok None else
    second_code ← parse_hex4 m (second_sequence + 2);
    if (second_code <? 56320) || (57343 <? second_code) then Ok None else
    Ok (Some (65536 + Z.lor (Z.shiftl (Z.land first_code 1023) 10) (Z.land second_code 1023), 12))
  else Ok (Some (first_code, 6)).

(** 0, or the length of the literal, with the output behind it. *)
Definition utf16_literal_to_utf8 (m : list Z) (input_pointer input_end : Z) (out : list Z) (o : Z) : res (Z * list Z * Z) :=
  l ← utf16_literal m input_pointer input_end;
  match l with
  | None => Ok (0, out, o)
  | Some (codepoint, sequence_length) =>
    r ← put_utf8 out o codepoint;
    match r with Some (out, o) => Ok (sequence_length, out, o) | None => Ok (0, out, o) end
  end.

(** Where the literal ends and how many bytes escapes save; [None]: it does not end. *)
Fixpoint scan_string (fuel : nat) (m : list Z) (length input_end skipped_bytes : Z) : res (option (Z * Z)) :=
  match fuel with
  | O => Err NoFuel
  | S fuel =>
    if input_end <? length then
      c ← ld m input_end;
      if c =? 34 then Ok (Some (input_end, skipped_bytes)) else
      if c =? 92 then
        if length <=? input_end + 1 then Ok None else scan_string fuel m length (input_end + 2) (skipped_bytes + 1)
      else scan_string fuel m length (input_end + 1) skipped_bytes
    else Ok None
  end.

(** The escapes of one character. *)
Definition unescaped (c : Z) : option Z :=
  if c =? 98 then Some 8 else if c =? 102 then Some 12 else if c =? 110 then Some 10
  else if c =? 114 then Some 13 else if c =? 116 then Some 9
  else if (c =? 34) || (c =? 92) || (c =? 47) then Some c else None.

(** The input pointer at the end, and the output unless an escape is wrong. *)
Fixpoint unescape (fuel : nat) (m : list Z) (input_pointer input_end : Z) (out : list Z) (o : Z) : res (Z * option (list Z * Z)) :=
  match fuel with
  | O => Err NoFuel
  | S fuel =>
    if negb (input_pointer <? input_end) then Ok (input_pointer, Some (out, o)) else
    c ← ld m input_pointer;
    if negb (c =? 92) then
      out ← st out o c; unescape fuel m (input_pointer + 1) input_end out (o + 1)
    else if input_end - input_pointer <? 1 then Ok (input_pointer, None) else
    c1 ← ld m (input_pointer + 1);
    match unescaped c1 with
    | Some x => out ← st out o x; unescape fuel m (input_pointer + 2) input_end out (o + 1)
    | None =>
      if c1 =? 117 then
        '(sequence_length, out, o) ← utf16_literal_to_utf8 m input_pointer input_end out o;
        if sequence_length =? 0 then Ok (input_pointer, None)
        else unescape fuel m (input_pointer + sequence_length) input_end out o
      else Ok (input_pointer, None)
    end
  end.

Definition parse_string (item : kJSON) (b : parse_buffer) : res (bool * kJSON * parse_buffer) :=
  let m := content b in
  let input_pointer := offset b + 1 in
  c ← buffer_at b 0;
  if negb (c =? 34) then Ok (false, item, set_offset input_pointer b) else
  scanned ← scan_string (S (Z.to_nat (len b))) m (len b) input_pointer 0;
  match scanned with
  | None => Ok (false, item, set_offset input_pointer b)
  | Some (input_end, skipped_bytes) =>
    let allocation_length := input_end - offset b - skipped_bytes in
    let '(output, h) := allocate (allocation_length + 1) (hooks b) in
    match output with
    | None => Ok (false, item, set_offset input_pointer (set_hooks h b))
    | Some out =>
      '(input_pointer, r) ← unescape (S (Z.to_nat (len b))) m input_pointer input_end out 0;
      match r with
      | None => Ok (false, item, set_offset input_pointer (set_hooks (deallocate 1 h) b))
      | Some (out, o) =>
        out ← st out o 0;
        s ← cstr out 0;
        Ok (true, set_value KS_JSON_TYPE_STRING (Some s) (valueint item) (valuedouble item) (child item) item,
            set_offset (input_end + 1) (set_hooks h b))
      end
    end
  end.

(** ** White space *)

Fixpoint skip_loop (fuel : nat) (b : parse_buffer) : res parse_buffer :=
  match fuel with
  | O => Err NoFuel
  | S fuel => if can_access_at_index b 0 then
                c ← buffer_at b 0; if c <=? 32 then skip_loop fuel (set_offset (offset b + 1) b) else Ok b
              else Ok b
  end.
Definition buffer_skip_whitespace (b : parse_buffer) : res parse_buffer :=
  b ← skip_loop (S (Z.to_nat (len b))) b;
  Ok (if offset b =? len b then set_offset (offset b - 1) b else b).

Definition skip_utf8_bom (b : parse_buffer) : res (option parse_buffer) :=
  if negb (offset b =? 0) then Ok None else
  bom ← (if can_access_at_index b 4 then starts_at (content b) (offset b) [239; 187; 191] else Ok false);
  Ok (Some (if bom : bool then set_offset (offset b + 3) b else b)).

(** ** Arrays and objects, over a parser [parse_value] of their elements *)

Definition CJSON_NESTING_LIMIT : Z := 1000.

(** The character at the offset, if it can be accessed, is [c]. *)
Definition next_is (b : parse_buffer) (c : Z) : res bool :=
  if can_access_at_index b 0 then x ← buffer_at b 0; Ok (x =? c) else Ok false.

Section Nested.
Context (parse_value : kJSON -> parse_buffer -> res (bool * kJSON * parse_buffer)).

(** [current_item] is the last of [head]. *)
Fixpoint array_items (fuel : nat) (head : list kJSON) (b : parse_buffer) : res (bool * list kJSON * parse_buffer) :=
  match fuel with
  | O => Err NoFuel
  | S fuel =>
    let '(new_item, h) := kJSON_New_Item (hooks b) in
    let b := set_hooks h b in
    match new_item with
    | None => Ok (false, head, b)
    | Some current_item =>
      b ← buffer_skip_whitespace (set_offset (offset b + 1) b);
      '(parsed, current_item, b) ← parse_value current_item b;
      let head := head ++ [current_item] in
      if negb parsed then Ok (false, head, b) else
      b ← buffer_skip_whitespace b;
      more ← next_is b 44;
      if more : bool then array_items fuel head b else Ok (true, head, b)
    end
  end.

Fixpoint object_items (fuel : nat) (head : list kJSON) (b : parse_buffer) : res (bool * list kJSON * parse_buffer) :=
  match fuel with
  | O => Err NoFuel
  | S fuel =>
    let '(new_item, h) := kJSON_New_Item (hooks b) in
    let b := set_hooks h b in
    match new_item with
    | None => Ok (false, head, b)
    | Some current_item =>
      b ← buffer_skip_whitespace (set_offset (offset b + 1) b);
      '(parsed, current_item, b) ← parse_string current_item b;
      if negb parsed then Ok (false, head ++ [current_item], b) else
      b ← buffer_skip_whitespace b;
      let current_item := Item (type current_item) None (valueint current_item) (valuedouble current_item)
                               (valuestring current_item) (child current_item) in
      colon ← next_is b 58;
      if negb colon then Ok (false, head ++ [current_item], b) else
      b ← buffer_skip_whitespace (set_offset (offset b + 1) b);
      '(parsed, current_item, b) ← parse_value current_item b;
      let head := head ++ [current_item] in
      if negb parsed then Ok (false, head, b) else
      b ← buffer_skip_whitespace b;
      more ← next_is b 44;
      if more : bool then object_items fuel head b else Ok (true, head, b)
    end
  end.

(** What [parse_array] and [parse_object] share: the brackets, the empty case and
    the clean-up. *)
Definition parse_nested (t opening closing : Z) (items : list kJSON -> parse_buffer -> res (bool * list kJSON * parse_buffer))
    (item : kJSON) (b : parse_buffer) : res (bool * kJSON * parse_buffer) :=
  if CJSON_NESTING_LIMIT <=? depth b then Ok (false, item, b) else
  let b := set_depth (depth b + 1) b in
  let success head b := Ok (true, set_value t (valuestring item) (valueint item) (valuedouble item) head item,
                            set_offset (offset b + 1) (set_depth (depth b - 1) b)) in
  let fail head b := Ok (false, item, set_hooks (kJSON_Delete head (hooks b)) b) in
  opened ← (if t =? KS_JSON_TYPE_ARRAY then c ← buffer_at b 0; Ok (c =? opening) else next_is b opening);
  if negb opened then fail [] b else
  b ← buffer_skip_whitespace (set_offset (offset b + 1) b);
  empty ← next_is b closing;
  if empty : bool then success [] b else
  if negb (can_access_at_index b 0) then fail [] (set_offset (offset b - 1) b) else
  '(parsed, head, b) ← items [] (set_offset (offset b - 1) b);
  if negb parsed then fail head b else
  closed ← next_is b closing;
  if closed : bool then success head b else fail head b.

Definition parse_array (item : kJSON) (b : parse_buffer) : res (bool * kJSON * parse_buffer) :=
  parse_nested KS_JSON_TYPE_ARRAY 91 93 (array_items (S (Z.to_nat (len b)))) item b.
Definition parse_object (item : kJSON) (b : parse_buffer) : res (bool * kJSON * parse_buffer) :=
  parse_nested KS_JSON_TYPE_OBJECT 123 125 (object_items (S (Z.to_nat (len b)))) item b.
End Nested.

(** [can_read] and [strncmp] with a keyword. *)
Definition keyword (b : parse_buffer) (lit : list Z) : res bool :=
  if can_read b (zlen lit) then starts_at (content b) (offset b) lit else Ok false.

(** [fuel] bounds the nesting. *)
Fixpoint parse_value (fuel : nat) (item : kJSON) (b : parse_buffer) : res (bool * kJSON * parse_buffer) :=
  match fuel with
  | O => Err NoFuel
  | S fuel =>
    null ← keyword b (bytes_of_string "null");
    if null : bool then Ok (true, set_type KS_JSON_TYPE_NULL item, set_offset (offset b + 4) b) else
    false_ ← keyword b (bytes_of_string "false");
    if false_ : bool then Ok (true, set_type KS_JSON_TYPE_FALSE item, set_offset (offset b + 5) b) else
    true_ ← keyword b (bytes_of_string "true");
    if true_ : bool then
      Ok (true, set_value KS_JSON_TYPE_TRUE (valuestring item) 1 (valuedouble item) (child item) item, set_offset (offset b + 4) b) else
    if negb (can_access_at_index b 0) then Ok (false, item, b) else
    c ← buffer_at b 0;
    if c =? 34 then parse_string item b
    else if (c =? 45) || ((48 <=? c) && (c <=? 57)) then parse_number item b
    else if c =? 91 then parse_array (parse_value fuel) item b
    else if c =? 123 then parse_object (parse_value fuel) item b
    else Ok (false, item, b)
  end.

(** ** [kJSON_ParseWithOpts]: the item, where parsing ended, and where it failed
    ([global_error]) *)

Record parsed := Parsed { result : option kJSON; parse_end : option Z; error_position : option Z; after : internal_hooks }.

Definition nesting_fuel : nat := Z.to_nat (CJSON_NESTING_LIMIT + 1).

(** Its label [fail]. *)
Definition fail (item : list kJSON) (b : parse_buffer) : res parsed :=
  let position := if offset b <? len b then offset b else if 0 <? len b then len b - 1 else 0 in
  Ok (Parsed None (Some position) (Some position) (kJSON_Delete item (hooks b))).

Definition kJSON_ParseWithOpts (value : option (list Z)) (require_null_terminated : bool) (h : internal_hooks) : res parsed :=
  match value with
  | None => Ok (Parsed None None None h)
  | Some m =>
    length ← strlen m;
    let b := Buf m (length + 1) 0 0 h in
    let '(item, h) := kJSON_New_Item h in
    let b := set_hooks h b in
    match item with
    | None => fail [] b
    | Some item =>
      bom ← skip_utf8_bom b;
      match bom with
      | None => fail [item] b
      | Some b =>
        b ← buffer_skip_whitespace b;
        '(ok, item, b) ← parse_value nesting_fuel item b;
        if negb ok then fail [item] b else
        '(bad, b) ← (if require_null_terminated then
                       b ← buffer_skip_whitespace b;
                       ended ← next_is b 0; Ok (negb ended, b)
                     else Ok (false, b));
        if bad : bool then fail [item] b
        else Ok (Parsed (Some item) (Some (offset b)) None (hooks b))
      end
    end
  end.

Definition kJSON_Parse (value : option (list Z)) (h : internal_hooks) : res parsed := kJSON_ParseWithOpts value false h.
Definition ks_json_parse (value : option (list Z)) (h : internal_hooks) : res parsed := kJSON_Parse value h.

(** ** What the parser promises: NUL-free strings and doubles at every depth *)

Definition text_ok (v : option (list Z)) : bool :=
  match v with Some s => forallb (fun c => (0 <? c) && (c <? 256)) s | None => true end.
Fixpoint clean (j : kJSON) : bool :=
  let '(Item _ vs _ vd s c) := j in text_ok vs && text_ok s && is_double vd && forallb clean c.

(** An item before its value is parsed. *)
Definition blank (j : kJSON) : Prop :=
  exists t str, j = Item t None 0 zero str [] /\ (t = 0 \/ t = KS_JSON_TYPE_STRING) /\ text_ok str = true.

(** ** Blocks *)

Lemma blocks_of_app c d : blocks_of (c ++ d) = blocks_of c + blocks_of d.
Proof. unfold blocks_of. induction c as [|j c IH]; cbn [app foldr]; lia. Qed.

Lemma blocks_item t vs vi vd s c : 0 <= t < 256 -> blocks (Item t vs vi vd s c) = blocks_of c + has vs + has s + 1.
Proof.
  intros Ht. cbn [blocks]. fold (blocks_of c).
  assert (E : forall k, 8 <= k -> Z.land t (2 ^ k) = 0).
  { intros k Hk. apply Z.bits_inj'. intros i Hi. rewrite Z.land_spec, Z.bits_0. destruct (Z.lt_ge_cases i 8).
    - rewrite Z.pow2_bits_false by lia. apply andb_false_r.
    - destruct (Z.eq_dec t 0) as [->|]; [by rewrite Z.bits_0|]. rewrite Z.bits_above_log2; [done|lia|]. apply Z.log2_lt_pow2; [lia|].
      pose proof (Z.pow_le_mono_r 2 8 i ltac:(lia) ltac:(lia)). change (2 ^ 8) with 256 in *. lia. }
  change kJSON_IsReference with (2 ^ 8). change kJSON_StringIsConst with (2 ^ 9). rewrite !E by lia. cbn. lia.
Qed.

Lemma allocate_cases n h : exists r a h', allocate n h = (r, h') /\ live h' = live h + a /\
  ((r = None /\ a = 0) \/ (r = Some (replicate (Z.to_nat n) (fill h)) /\ a = 1)).
Proof.
  unfold allocate. destruct (serve h) as [|[] l]; do 3 eexists; (split; [done|]); cbn [live]; (split; [|by auto]); lia.
Qed.

Lemma new_item_cases h : exists r h', kJSON_New_Item h = (r, h') /\
  ((r = None /\ live h' = live h) \/ (r = Some (new_item 0) /\ live h' = live h + 1)).
Proof.
  unfold kJSON_New_Item. destruct (allocate_cases 64 h) as (r & a & h' & -> & Hl & Hr). do 2 eexists. split; [done|].
  destruct Hr as [[-> ->]|[-> ->]]; [left|right]; split; try done; lia.
Qed.

(** ** Output: code points as bytes *)

Definition utf8_bytes (cp : Z) : list Z :=
  if cp <? 128 then [Z.land cp 127]
  else if cp <? 2048 then [Z.land (Z.lor (Z.shiftr cp 6) 192) 255; u8 (Z.land (Z.lor cp 128) 191)]
  else if cp <? 65536 then [Z.land (Z.lor (Z.shiftr (Z.shiftr cp 6) 6) 224) 255; u8 (Z.land (Z.lor (Z.shiftr cp 6) 128) 191); u8 (Z.land (Z.lor cp 128) 191)]
  else [Z.land (Z.lor (Z.shiftr (Z.shiftr (Z.shiftr cp 6) 6) 6) 240) 255; u8 (Z.land (Z.lor (Z.shiftr (Z.shiftr cp 6) 6) 128) 191);
        u8 (Z.land (Z.lor (Z.shiftr cp 6) 128) 191); u8 (Z.land (Z.lor cp 128) 191)].

Lemma land_255_byte x : is_byte (Z.land x 255).
Proof. unfold is_byte. change 255 with (Z.ones 8). rewrite Z.land_ones by lia. apply Z.mod_pos_bound. lia. Qed.

Lemma utf8_bytes_ok cp : 0 <= cp -> all_bytes (utf8_bytes cp) /\ 1 <= zlen (utf8_bytes cp) <= 4 /\ (cp < 65536 -> zlen (utf8_bytes cp) <= 3) /\
  (cp = 0 -> zlen (utf8_bytes cp) = 1).
Proof.
  intros Hc. unfold utf8_bytes, all_bytes. destruct (Z.ltb_spec cp 128); [|destruct (Z.ltb_spec cp 2048); [|destruct (Z.ltb_spec cp 65536)]];
    rewrite !zlen_cons, zlen_nil; (split; [|lia]); rewrite ?Forall_cons;
    repeat split; try apply land_255_byte; try apply u8_range; try (by constructor); try (apply Z.land_nonneg; lia);
    change 127 with (Z.ones 7); rewrite Z.land_ones by lia; pose proof (Z.mod_pos_bound cp (2 ^ 7) ltac:(lia)); lia.
Qed.

Local Ltac put_byte :=
  rewrite st_behind by (unfold zlen; cbn [length]; lia);
  rewrite Nat2Z.id; cbn [mbind res_bind take drop app].
Local Ltac put_first :=
  cbv iota; rewrite st_rest by (done || (unfold zlen; cbn [length]; lia));
  cbn [mbind res_bind drop length app]; rewrite <- app_assoc; done.

Lemma put_utf8_ok acc rest cp : 0 <= cp <= 1114111 -> zlen (utf8_bytes cp) <= zlen rest ->
  put_utf8 (acc ++ rest) (zlen acc) cp =
  Ok (Some ((acc ++ utf8_bytes cp) ++ drop (length (utf8_bytes cp)) rest, zlen acc + zlen (utf8_bytes cp))).
Proof.
  intros Hc Hr. unfold put_utf8, utf8_form, utf8_bytes in *.
  destruct (Z.ltb_spec cp 128); [|destruct (Z.ltb_spec cp 2048); [|destruct (Z.ltb_spec cp 65536); [|destruct (Z.leb_spec cp 1114111); [|lia]]]];
    rewrite !zlen_cons, zlen_nil in Hr.
  - destruct rest as [|r0 rest]; [unfold zlen in Hr; cbn in Hr; lia|]. change (Z.to_nat (1 - 1)) with 0%nat. cbn [put_continuation mbind res_bind].
    change (1 <? 1) with false. cbv iota. rewrite st_rest by (done || rewrite zlen_cons; pose proof (zlen_nonneg rest); lia).
    cbn [mbind res_bind drop length]. rewrite <- app_assoc. done.
  - destruct rest as [|r0 [|r1 rest]]; try (unfold zlen in Hr; cbn in Hr; lia). change (Z.to_nat (2 - 1)) with 1%nat. cbn [put_continuation mbind res_bind].
    put_byte. change (1 <? 2) with true. put_first.
  - destruct rest as [|r0 [|r1 [|r2 rest]]]; try (unfold zlen in Hr; cbn in Hr; lia). change (Z.to_nat (3 - 1)) with 2%nat. cbn [put_continuation mbind res_bind].
    put_byte. put_byte. change (1 <? 3) with true. put_first.
  - destruct rest as [|r0 [|r1 [|r2 [|r3 rest]]]]; try (unfold zlen in Hr; cbn in Hr; lia). change (Z.to_nat (4 - 1)) with 3%nat. cbn [put_continuation mbind res_bind].
    put_byte. put_byte. put_byte. change (1 <? 4) with true. put_first.
Qed.

(** ** A text: NUL-terminated bytes *)

Section Text.
Context (s junk : list Z) (Hs : no_nul s) (Hbytes : all_bytes s).
Let m : list Z := s ++ 0 :: junk.
Let n : Z := zlen s.

Lemma text_ld i : 0 <= i <= n -> exists c, ld m i = Ok c /\ is_byte c /\ (c = 0 <-> i = n).
Proof.
  intros Hi. destruct (Z.eq_dec i n) as [->|].
  - exists 0. subst m n. rewrite ld_app_mid by done. repeat split; unfold is_byte; lia.
  - destruct (ld_in s i) as (c & Hc & Hl); [subst n; lia|]. exists c. subst m. unfold ld in *. destruct (Z.ltb_spec i 0); [lia|].
    rewrite (lookup_app_l_Some _ _ _ _ Hl). unfold no_nul, all_bytes in *. rewrite Forall_lookup in Hs, Hbytes.
    specialize (Hs _ _ Hl). specialize (Hbytes _ _ Hl). done.
Qed.

(** The text between two offsets. *)
Definition sub (p e : Z) : list Z := take (Z.to_nat (e - p)) (drop (Z.to_nat p) m).

Lemma sub_nil p e : e <= p -> sub p e = [].
Proof. intros H. unfold sub. by rewrite Z2Nat.nonpos by lia. Qed.

Lemma sub_cons p e c : 0 <= p < e -> ld m p = Ok c -> sub p e = c :: sub (p + 1) e.
Proof.
  intros Hp Hc. unfold ld in Hc. destruct (Z.ltb_spec p 0); [lia|]. destruct (m !! Z.to_nat p) as [x|] eqn:E; [|done]. injection Hc as ->.
  unfold sub. rewrite (drop_S _ c) by done. replace (Z.to_nat (e - p)) with (S (Z.to_nat (e - (p + 1)))) by lia.
  cbn [take]. by replace (Z.to_nat (p + 1)) with (S (Z.to_nat p)) by lia.
Qed.

(** How many bytes a literal needs: an escape counts once. Reading a byte later
    never needs more. *)
Fixpoint tok (l : list Z) : Z :=
  match l with
  | [] => 0
  | c :: l => if c =? 92 then match l with [] => 1 | _ :: l => 1 + tok l end else 1 + tok l
  end.

Lemma tok_step l : forall c, 0 <= tok l /\ tok l <= tok (c :: l) <= 1 + tok l.
Proof.
  induction l as [|d l IH]; intros c; cbn [tok].
  - destruct (c =? 92); lia.
  - pose proof (IH d) as Hd. pose proof (IH c) as Hc. cbn [tok] in Hd, Hc. destruct (c =? 92), (d =? 92); lia.
Qed.
Lemma tok_nonneg l : 0 <= tok l.
Proof. apply (tok_step l 0). Qed.

Lemma hex_value_range c d : hex_value c = Some d -> 0 <= d < 16 /\ c <> 92.
Proof.
  unfold hex_value. destruct (_ && _) eqn:E1; [|destruct (_ && _) eqn:E2 in |- *; [|destruct (_ && _) eqn:E3 in |- *; [|done]]];
    intros [= <-]; rewrite andb_true_iff, !Z.leb_le in *; lia.
Qed.

(** One digit, and the shift. *)
Lemma hex4_step k i h c : ld m i = Ok c -> 0 <= h <= 65520 ->
  hex4_loop (S (S k)) m i h = Ok 0 \/
  c <> 92 /\ exists d, 0 <= d < 16 /\ hex4_loop (S (S k)) m i h = hex4_loop (S k) m (i + 1) (u32 ((h + d) * 16)).
Proof.
  intros Hc Hh. cbn [hex4_loop]. rewrite Hc. cbn [mbind res_bind]. destruct (hex_value c) as [d|] eqn:E; [|by left]. right.
  apply hex_value_range in E as [Hd ?]. split; [done|]. exists d. split; [done|]. rewrite (u32_id (h + d)), Z.shiftl_mul_pow2 by lia. done.
Qed.

Lemma parse_hex4_ok p e : 0 <= p -> p + 4 <= e -> e <= n -> exists r, parse_hex4 m p = Ok r /\ 0 <= r <= 65535 /\
  tok (sub (p + 4) e) <= tok (sub p e) /\ (r <> 0 -> tok (sub p e) = 4 + tok (sub (p + 4) e)).
Proof.
  intros Hp Hpe He.
  destruct (text_ld p) as (c0 & L0 & _); [lia|]. destruct (text_ld (p + 1)) as (c1 & L1 & _); [lia|].
  destruct (text_ld (p + 1 + 1)) as (c2 & L2 & _); [lia|]. destruct (text_ld (p + 1 + 1 + 1)) as (c3 & L3 & _); [lia|].
  assert (Es : sub p e = c0 :: c1 :: c2 :: c3 :: sub (p + 4) e).
  { rewrite (sub_cons p e c0), (sub_cons (p + 1) e c1), (sub_cons (p + 1 + 1) e c2), (sub_cons (p + 1 + 1 + 1) e c3) by (done || lia).
    by replace (p + 1 + 1 + 1 + 1) with (p + 4) by lia. }
  rewrite Es. set (r := sub (p + 4) e) in *. assert (Hmono : tok r <= tok (c0 :: c1 :: c2 :: c3 :: r)).
  { pose proof (tok_step r c3). pose proof (tok_step (c3 :: r) c2). pose proof (tok_step (c2 :: c3 :: r) c1).
    pose proof (tok_step (c1 :: c2 :: c3 :: r) c0). lia. }
  assert (H0 : forall x, x = Ok 0 -> exists v, x = Ok v /\ 0 <= v <= 65535 /\ tok r <= tok (c0 :: c1 :: c2 :: c3 :: r) /\
    (v <> 0 -> tok (c0 :: c1 :: c2 :: c3 :: r) = 4 + tok r)) by (intros x ->; exists 0; repeat split; [lia|lia|done|done]).
  unfold parse_hex4. destruct (hex4_step 2 p 0 c0 L0) as [E|(N0 & d0 & D0 & ->)]; [lia|by apply H0|].
  rewrite (u32_id ((0 + d0) * 16)) by lia.
  destruct (hex4_step 1 _ ((0 + d0) * 16) c1 L1) as [E|(N1 & d1 & D1 & ->)]; [lia|by apply H0|].
  rewrite (u32_id (((0 + d0) * 16 + d1) * 16)) by lia.
  destruct (hex4_step 0 _ (((0 + d0) * 16 + d1) * 16) c2 L2) as [E|(N2 & d2 & D2 & ->)]; [lia|by apply H0|].
  rewrite (u32_id ((((0 + d0) * 16 + d1) * 16 + d2) * 16)) by lia. cbn [hex4_loop]. rewrite L3. cbn [mbind res_bind].
  destruct (hex_value c3) as [d3|] eqn:E3; [|by apply H0]. apply hex_value_range in E3 as [D3 N3]. eexists. split; [done|].
  rewrite u32_id by lia. split; [lia|]. split; [done|]. intros _. cbn [tok].
  rewrite (proj2 (Z.eqb_neq _ _) N0), (proj2 (Z.eqb_neq _ _) N1), (proj2 (Z.eqb_neq _ _) N2), (proj2 (Z.eqb_neq _ _) N3). lia.
Qed.

(** A [\u] literal: what it yields fits what it takes. *)
Lemma utf16_ok p e : 0 <= p -> p < e -> e < n -> ld m p = Ok 92 -> ld m (p + 1) = Ok 117 ->
  utf16_literal m p e = Ok None \/ exists cp k, utf16_literal m p e = Ok (Some (cp, k)) /\ 0 <= cp <= 1114111 /\
    6 <= k /\ p + k <= e /\ zlen (utf8_bytes cp) + tok (sub (p + k) e) <= tok (sub p e).
Proof.
  intros Hp Hpe He L0 L1. unfold utf16_literal. destruct (Z.ltb_spec (e - p) 6); [by left|].
  assert (Es : tok (sub p e) = 1 + tok (sub (p + 2) e)).
  { rewrite (sub_cons p e 92), (sub_cons (p + 1) e 117) by (done || lia). cbn [tok]. do 3 f_equal. lia. }
  destruct (parse_hex4_ok (p + 2) e) as (f & -> & Hf & T1 & T1'); [lia..|]. replace (p + 2 + 4) with (p + 6) in * by lia. cbn [mbind res_bind].
  destruct (_ && _) eqn:E1; [by left|]. destruct (Z.leb_spec 55296 f), (Z.leb_spec f 56319); cbn [andb].
  2-4: right; exists f, 6; (split; [done|]); destruct (utf8_bytes_ok f) as (_ & ? & Hl3 & Hl1); [lia|];
    (split; [lia|]); (split; [lia|]); (split; [lia|]); destruct (Z.eq_dec f 0) as [->|Hf0]; [rewrite Hl1 by done; lia|];
    specialize (Hl3 ltac:(lia)); specialize (T1' Hf0); lia.
  destruct (Z.ltb_spec (e - (p + 6)) 6); [by left|].
  destruct (text_ld (p + 6)) as (c0 & M0 & _); [lia|]. destruct (text_ld (p + 6 + 1)) as (c1 & M1 & _); [lia|]. rewrite M0, M1. cbn [mbind res_bind].
  destruct (Z.eqb_spec c0 92) as [->|]; [|by left]. destruct (Z.eqb_spec c1 117) as [->|]; [|by left]. cbn [negb orb].
  destruct (parse_hex4_ok (p + 6 + 2) e) as (g & -> & Hg & T2 & T2'); [lia..|]. replace (p + 6 + 2 + 4) with (p + 12) in * by lia. cbn [mbind res_bind].
  destruct (Z.ltb_spec g 56320), (Z.ltb_spec 57343 g); cbn [orb]; try by left. right.
  assert (E6 : tok (sub (p + 6) e) = 1 + tok (sub (p + 6 + 2) e)).
  { rewrite (sub_cons (p + 6) e 92), (sub_cons (p + 6 + 1) e 117) by (done || lia). cbn [tok]. do 3 f_equal. lia. }
  set (cp := 65536 + _). assert (Hcp : 0 <= cp <= 1114111).
  { subst cp. assert (Ha : 0 <= Z.land f 1023 < 2 ^ 10) by (change 1023 with (Z.ones 10); rewrite Z.land_ones by lia; apply Z.mod_pos_bound; lia).
    assert (Hb : 0 <= Z.land g 1023 < 2 ^ 10) by (change 1023 with (Z.ones 10); rewrite Z.land_ones by lia; apply Z.mod_pos_bound; lia).
    rewrite Z.shiftl_mul_pow2 by lia. set (x := Z.land f 1023 * 2 ^ 10). assert (0 <= Z.lor x (Z.land g 1023) < 2 ^ 20); [|lia].
    split; [apply Z.lor_nonneg; lia|]. destruct (Z.eq_dec (Z.lor x (Z.land g 1023)) 0) as [->|]; [lia|].
    apply Z.log2_lt_pow2; [assert (0 <= Z.lor x (Z.land g 1023)) by (apply Z.lor_nonneg; lia); lia|]. rewrite Z.log2_lor by lia. apply Z.max_lub_lt.
    - destruct (Z.eq_dec x 0) as [->|]; [done|]. apply Z.log2_lt_pow2; lia.
    - destruct (Z.eq_dec (Z.land g 1023) 0) as [->|]; [done|]. apply Z.log2_lt_pow2; lia. }
  exists cp, 12. split; [done|]. split; [done|]. split; [lia|]. split; [lia|].
  destruct (utf8_bytes_ok cp) as (_ & ? & _); [lia|]. specialize (T1' ltac:(lia)). specialize (T2' ltac:(lia)). lia.
Qed.

(** The scan ends; what it counts is what the literal needs. *)
Lemma scan_ok fuel : forall p k, 0 <= p <= n + 1 -> n + 1 - p < Z.of_nat fuel ->
  scan_string fuel m (n + 1) p k = Ok None \/
  exists e k', scan_string fuel m (n + 1) p k = Ok (Some (e, k')) /\ p <= e < n /\ ld m e = Ok 34 /\ tok (sub p e) = e - p - (k' - k).
Proof.
  induction fuel as [|fuel IH]; intros p k Hp Hf; [lia|]. cbn [scan_string]. destruct (Z.ltb_spec p (n + 1)); [|by left].
  destruct (text_ld p) as (c & Lc & Hc & Hz); [lia|]. rewrite Lc. cbn [mbind res_bind].
  destruct (Z.eqb_spec c 34) as [->|].
  { right. exists p, k. split; [done|]. split; [|split; [done|rewrite sub_nil by lia; cbn [tok]; lia]].
    destruct (Z.eq_dec p n); [by apply Hz in e|lia]. }
  destruct (Z.eqb_spec c 92) as [->|].
  - destruct (Z.leb_spec (n + 1) (p + 1)); [by left|]. destruct (IH (p + 2) (k + 1)) as [->|(e & k' & -> & He & Le & T)]; [lia|lia|by left|].
    right. exists e, k'. split; [done|]. split; [lia|]. split; [done|]. destruct (text_ld (p + 1)) as (d & Ld & _); [lia|].
    rewrite (sub_cons p e 92), (sub_cons (p + 1) e d) by (done || lia). cbn [tok]. replace (p + 1 + 1) with (p + 2) by lia.
    change (92 =? 92) with true. cbv iota. lia.
  - destruct (IH (p + 1) k) as [->|(e & k' & -> & He & Le & T)]; [lia|lia|by left|].
    right. exists e, k'. split; [done|]. split; [lia|]. split; [done|]. rewrite (sub_cons p e c) by (done || lia). cbn [tok].
    destruct (Z.eqb_spec c 92); [done|]. lia.
Qed.

Lemma unescaped_byte c x : unescaped c = Some x -> is_byte c -> is_byte x.
Proof. unfold unescaped. repeat (destruct (_ =? _); [by intros [= <-]|]). destruct (_ || _); [by intros [= <-]|done]. Qed.

(** Unescaping writes at most what the scan counted, and behind the literal reads
    at most its closing quote. *)
Lemma unescape_ok e T : e < n -> ld m e = Ok 34 -> forall fuel p acc rest,
  0 <= p <= e + 1 -> e + 1 - p < Z.of_nat fuel -> zlen acc + tok (sub p e) <= T -> zlen acc + zlen rest = T + 2 -> all_bytes acc ->
  exists p' r, unescape fuel m p e (acc ++ rest) (zlen acc) = Ok (p', r) /\ 0 <= p' /\
    match r with
    | None => True
    | Some (out, o) => exists acc' rest', out = acc' ++ rest' /\ o = zlen acc' /\ all_bytes acc' /\ 0 < zlen rest'
    end.
Proof.
  intros He Le. induction fuel as [|fuel IH]; intros p acc rest Hp Hf HT Hlen Hacc; [lia|]. cbn [unescape].
  pose proof (tok_nonneg (sub p e)). pose proof (zlen_nonneg acc).
  destruct (Z.ltb_spec p e) as [Hpe|]; cbn [negb]; [|do 2 eexists; (split; [done|]); split; [lia|]; exists acc, rest; repeat split; [done|lia]].
  destruct (text_ld p) as (c & Lc & Hc & _); [lia|]. rewrite Lc. cbn [mbind res_bind].
  assert (Hpush : forall x q, is_byte x -> p < q <= e + 1 -> tok (sub q e) + 1 <= tok (sub p e) ->
    exists p' r, (out ← st (acc ++ rest) (zlen acc) x; unescape fuel m q e out (zlen acc + 1)) = Ok (p', r) /\ 0 <= p' /\
    match r with None => True | Some (out, o) => exists acc' rest', out = acc' ++ rest' /\ o = zlen acc' /\ all_bytes acc' /\ 0 < zlen rest' end).
  { intros x q Hx Hq Htok. destruct (st_push acc rest x (zlen acc) eq_refl) as (rest' & -> & Hr); [lia|]. cbn [mbind res_bind].
    replace (zlen acc + 1) with (zlen (acc ++ [x])) by zlen_solve. assert (El : zlen (acc ++ [x]) = zlen acc + 1) by zlen_solve.
    apply IH; [lia|lia|lia|lia|]. apply Forall_app. split; [done|by apply Forall_singleton]. }
  destruct (Z.eqb_spec c 92) as [->|]; cbn [negb].
  2: { apply Hpush; [done|lia|]. rewrite (sub_cons p e c) by (done || lia). cbn [tok]. destruct (Z.eqb_spec c 92); [done|]. lia. }
  destruct (Z.ltb_spec (e - p) 1); [lia|]. destruct (text_ld (p + 1)) as (c1 & L1 & Hc1 & _); [lia|]. rewrite L1. cbn [mbind res_bind].
  destruct (unescaped c1) as [x|] eqn:Ex.
  - apply Hpush; [by eapply unescaped_byte|lia|]. rewrite (sub_cons p e 92) by (done || lia). cbn [tok]. change (92 =? 92) with true. cbv iota.
    destruct (Z.eq_dec (p + 1) e); [rewrite (sub_nil (p + 1)), (sub_nil (p + 2)) by lia; cbn [tok]; lia|].
    rewrite (sub_cons (p + 1) e c1) by (done || lia). replace (p + 1 + 1) with (p + 2) by lia. lia.
  - destruct (Z.eqb_spec c1 117) as [->|]; [|do 2 eexists; split; [done|]; by split; [lia|]]. unfold utf16_literal_to_utf8.
    destruct (utf16_ok p e) as [->|(cp & k & -> & Hcp & Hk & Hpk & Htok)]; [lia|lia|lia|done|done|..]; cbn [mbind res_bind].
    { do 2 eexists. split; [done|]. by split; [lia|]. }
    destruct (utf8_bytes_ok cp) as (Hb & Hl & _); [lia|]. pose proof (tok_nonneg (sub (p + k) e)).
    rewrite put_utf8_ok by lia. cbn [mbind res_bind]. destruct (Z.eqb_spec k 0); [lia|].
    rewrite <- zlen_app. apply IH; [lia|lia|rewrite zlen_app; lia| |by apply Forall_app]. rewrite zlen_app.
    unfold zlen in *. rewrite length_drop. lia.
Qed.

(** The C string in front of the NUL just written. *)
Lemma cstr_written acc rest : all_bytes acc -> exists v, cstr (acc ++ 0 :: rest) 0 = Ok v /\ text_ok (Some v) = true.
Proof.
  intros Ha. assert (H : exists v r, acc ++ 0 :: rest = v ++ 0 :: r /\ no_nul v /\ all_bytes v).
  { induction acc as [|c acc IH]; [by exists [], rest; repeat constructor|]. apply Forall_cons in Ha as [Hc Ha].
    destruct (Z.eq_dec c 0) as [->|]; [exists [], (acc ++ 0 :: rest); repeat constructor|].
    destruct (IH Ha) as (v & r & E & Hv & Hb). exists (c :: v), r. cbn [app]. rewrite E. split; [done|]. split; by constructor. }
  destruct H as (v & r & -> & Hv & Hb). exists v. rewrite cstr_full by done. split; [done|]. cbn [text_ok]. apply forallb_forall. intros c Hc.
  apply list_elem_of_In in Hc. unfold no_nul, all_bytes in *. rewrite Forall_forall in Hv, Hb. specialize (Hv c Hc). specialize (Hb c Hc).
  unfold is_byte in Hb. apply andb_true_iff. rewrite !Z.ltb_lt. lia.
Qed.

(** ** The steps of the parser, on the buffer of the text *)

Definition buf (o d : Z) (h : internal_hooks) : parse_buffer := Buf m (n + 1) o d h.

Lemma buf_at o d h : buffer_at (buf o d h) 0 = ld m o.
Proof. unfold buffer_at. cbn. by rewrite Z.add_0_r. Qed.

Lemma buf_hooks o d h : hooks (buf o d h) = h.
Proof. done. Qed.
Lemma buf_offset o d h : offset (buf o d h) = o.
Proof. done. Qed.
Lemma buf_set_hooks o d h h' : set_hooks h' (buf o d h) = buf o d h'.
Proof. done. Qed.
Lemma buf_set_offset o d h o' : set_offset o' (buf o d h) = buf o' d h.
Proof. done. Qed.

Definition good (j : kJSON) : Prop := well_typed j = true /\ clean j = true.

(** What a parser of values does with a blank item: it sets it to a good value and moves on,
    or gives up; blocks are accounted for. *)
Definition parses (r : res (bool * kJSON * parse_buffer)) (item : kJSON) (o d : Z) (h : internal_hooks) : Prop :=
  exists ok item' o' d' h', r = Ok (ok, item', buf o' d' h') /\ 0 <= o' /\
    live h' - blocks item' = live h - blocks item /\
    if ok : bool then o < o' <= n /\ d' = d /\ good item' /\ string item' = string item /\ 0 <= type item' < 256 else item' = item.

Lemma parses_fail item o d h o' d' h' : 0 <= o' -> live h' = live h -> parses (Ok (false, item, buf o' d' h')) item o d h.
Proof. intros Ho Hl. exists false, item, o', d', h'. by rewrite Hl. Qed.

Lemma blank_blocks t str : t = 0 \/ t = KS_JSON_TYPE_STRING -> blocks (Item t None 0 zero str []) = has str + 1.
Proof. intros Ht. rewrite blocks_item by (unfold KS_JSON_TYPE_STRING in *; lia). cbn. lia. Qed.

Lemma parse_string_ok item o d h : blank item -> 0 <= o <= n ->
  exists ok item' o' h', parse_string item (buf o d h) = Ok (ok, item', buf o' d h') /\ 0 <= o' /\
    live h' - blocks item' = live h - blocks item /\
    if ok : bool then o < o' <= n /\ exists v, text_ok (Some v) = true /\
                      item' = Item KS_JSON_TYPE_STRING (Some v) 0 zero (string item) []
    else item' = item.
Proof.
  intros (t & str & -> & Ht & Hstr) Ho. unfold parse_string. cbn [buf content len offset hooks buffer_at].
  assert (Hfail : forall o' h', 0 <= o' -> live h' = live h -> exists ok item' o'' h'', Ok (false, Item t None 0 zero str [], set_offset o' (set_hooks h' (buf o d h))) = Ok (ok, item', buf o'' d h'') /\ 0 <= o'' /\
    live h'' - blocks item' = live h - blocks (Item t None 0 zero str []) /\
    if ok : bool then o < o'' <= n /\ exists v, text_ok (Some v) = true /\ item' = Item KS_JSON_TYPE_STRING (Some v) 0 zero (string (Item t None 0 zero str [])) []
    else item' = Item t None 0 zero str []).
  { intros o' h' Ho' Hl. exists false, (Item t None 0 zero str []), o', h'. by rewrite Hl. }
  rewrite buf_at. destruct (text_ld o Ho) as (c & -> & Hc & Hz). cbn [mbind res_bind].
  destruct (Z.eqb_spec c 34) as [->|]; cbn [negb]; [|apply (Hfail (o + 1) h); [lia|done]].
  assert (Hon : o < n) by (destruct (Z.eq_dec o n) as [e|]; [by apply Hz in e|lia]).
  destruct (scan_ok (S (Z.to_nat (n + 1))) (o + 1) 0) as [->|(e & k & -> & He & Le & Htok)]; [lia|lia|apply (Hfail (o + 1) h); [lia|done]|].
  cbn [mbind res_bind]. destruct (allocate_cases (e - o - k + 1) h) as (r & a & h' & -> & Hl & [[-> ->]|[-> ->]]); [apply Hfail; lia|].
  pose proof (tok_nonneg (sub (o + 1) e)).
  destruct (unescape_ok e (e - o - 1 - k) ltac:(lia) Le (S (Z.to_nat (n + 1))) (o + 1) [] (replicate (Z.to_nat (e - o - k + 1)) (fill h)))
    as (p' & r & E & Hp' & Hr); [lia|lia|change (zlen (@nil Z)) with 0; lia|rewrite zlen_replicate; change (zlen (@nil Z)) with 0; lia|constructor|].
  cbn [app] in E. change (zlen (@nil Z)) with 0 in E. rewrite E. cbn [mbind res_bind]. destruct r as [[out o2]|]; [|apply (Hfail p' (deallocate 1 h')); [done|cbn; lia]].
  destruct Hr as (acc & rest & -> & -> & Hacc & Hrest). rewrite st_rest by done. cbn [mbind res_bind].
  destruct (cstr_written acc (drop 1 rest) Hacc) as (v & -> & Hv). cbn [mbind res_bind].
  exists true, (Item KS_JSON_TYPE_STRING (Some v) 0 zero str []), (e + 1), h'. split; [done|]. split; [lia|].
  rewrite (blank_blocks t str Ht), blocks_item by (unfold KS_JSON_TYPE_STRING; lia). cbn. split; [lia|]. split; [lia|]. by exists v.
Qed.

Lemma skip_loop_ok fuel : forall o d h, 0 <= o <= n + 1 -> n + 1 - o < Z.of_nat fuel ->
  exists o', skip_loop fuel (buf o d h) = Ok (buf o' d h) /\ o <= o' <= n + 1.
Proof.
  induction fuel as [|fuel IH]; intros o d h Ho Hf; [lia|]. cbn [skip_loop]. rewrite buf_at. unfold can_access_at_index. cbn [buf offset len].
  rewrite Z.add_0_r. destruct (Z.ltb_spec o (n + 1)); [|exists o; split; [done|lia]].
  destruct (text_ld o) as (c & -> & _); [lia|]. cbn [mbind res_bind]. destruct (c <=? 32); [|exists o; split; [done|lia]].
  destruct (IH (o + 1) d h) as (o' & E & ?); [lia|lia|]. exists o'. split; [exact E|lia].
Qed.

Lemma skip_ok o d h : 0 <= o <= n -> exists o', buffer_skip_whitespace (buf o d h) = Ok (buf o' d h) /\ o <= o' <= n.
Proof.
  intros Ho. unfold buffer_skip_whitespace. destruct (skip_loop_ok (S (Z.to_nat (len (buf o d h)))) o d h) as (o' & -> & Ho'); [lia|cbn; lia|].
  cbn [mbind res_bind buf offset len]. destruct (Z.eqb_spec o' (n + 1)) as [->|]; eexists; (split; [done|]); lia.
Qed.

Lemma next_is_ok o d h c : 0 <= o <= n -> c <> 0 -> exists b, next_is (buf o d h) c = Ok b /\ (b = true -> o < n /\ ld m o = Ok c).
Proof.
  intros Ho Hc. unfold next_is. rewrite buf_at. unfold can_access_at_index. cbn [buf offset len]. destruct (Z.ltb_spec (o + 0) (n + 1)); [|lia].
  destruct (text_ld o Ho) as (x & -> & _ & Hz). eexists. split; [done|]. intros ->%Z.eqb_eq. split; [|done].
  destruct (Z.eq_dec o n); [by apply Hz in e|lia].
Qed.

Lemma starts_at_ok lit : forall p, 0 <= p -> p + zlen lit <= n + 1 -> no_nul lit ->
  exists b, starts_at m p lit = Ok b /\ (b = true -> p + zlen lit <= n \/ lit = []).
Proof.
  induction lit as [|c lit IH]; intros p Hp Hl Hn; cbn [starts_at]; [exists true; eauto|]. rewrite zlen_cons in *. apply Forall_cons in Hn as [Hc Hn].
  pose proof (zlen_nonneg lit). destruct (text_ld p) as (x & -> & _ & Hz); [lia|]. cbn [mbind res_bind]. destruct (Z.eqb_spec x c) as [->|]; [|by exists false].
  destruct (IH (p + 1)) as (b & -> & Hb); [lia|lia|done|]. exists b. split; [done|]. intros Ht. left. destruct (Hb Ht) as [| ->]; [lia|].
  change (zlen (@nil Z)) with 0 in *. destruct (Z.eq_dec p n); [by apply Hz in e|lia].
Qed.

Lemma keyword_ok o d h lit : 0 <= o <= n -> no_nul lit -> lit <> [] ->
  exists b, keyword (buf o d h) lit = Ok b /\ (b = true -> o + zlen lit <= n).
Proof.
  intros Ho Hn Hne. unfold keyword, can_read. cbn [buf offset len content]. destruct (Z.leb_spec (o + zlen lit) (n + 1)); [|by exists false].
  destruct (starts_at_ok lit o) as (b & -> & Hb); [lia|done|done|]. exists b. split; [done|]. intros Ht. by destruct (Hb Ht).
Qed.

Lemma copy_number_ok k : forall o d h i, 0 <= i -> 0 <= o + i <= n ->
  exists cs, copy_number k (buf o d h) i = Ok cs /\ o + i + zlen cs <= n.
Proof.
  induction k as [|k IH]; intros o d h i Hi Ho; cbn [copy_number]; [exists []; split; [done|change (zlen (@nil Z)) with 0; lia]|].
  unfold can_access_at_index, buffer_at. cbn [buf offset len content]. destruct (Z.ltb_spec (o + i) (n + 1)); [|lia].
  destruct (text_ld (o + i)) as (c & -> & _ & Hz); [lia|]. cbn [mbind res_bind]. destruct (is_number_char c) eqn:Ec.
  - assert (o + i <> n) by (intros ->%Hz; done). destruct (IH o d h (i + 1)) as (cs & E & Hl); [lia|lia|]. rewrite E. cbn [mbind res_bind].
    exists (c :: cs). split; [done|]. rewrite zlen_cons. lia.
  - exists []. split; [done|change (zlen (@nil Z)) with 0; lia].
Qed.

Lemma parse_number_ok item o d h : blank item -> 0 <= o <= n -> parses (parse_number item (buf o d h)) item o d h.
Proof.
  intros (t & str & -> & Ht & Hstr) Ho. unfold parses, parse_number. destruct (copy_number_ok 63 o d h 0) as (cs & -> & Hl); [lia|lia|].
  cbn [mbind res_bind]. destruct (strtod cs) as [k x] eqn:E. destruct (strtod_safe _ _ _ E) as (Hk & Hd & Hx).
  destruct (Z.eqb_spec k 0); [by apply parses_fail; [lia|]|].
  destruct (saturate_number x Hx) as (i & Hi). rewrite Hi. cbn [mbind res_bind].
  exists true, (Item KS_JSON_TYPE_NUMBER None i x str []), (o + k), d, h. split; [done|]. split; [lia|].
  rewrite blank_blocks, blocks_item by (done || unfold KS_JSON_TYPE_NUMBER; lia). split; [cbn; lia|]. split; [lia|]. split; [done|].
  split; [|split; [done|unfold KS_JSON_TYPE_NUMBER; cbn; lia]]. split; cbn.
  - unfold fields_ok. cbn. rewrite Hi, Z.eqb_refl. done.
  - by rewrite Hstr, Hd.
Qed.

(** ** Arrays and objects *)

(** What the loops over elements leave. *)
Definition collects (Q : list kJSON -> Prop) (f : list kJSON -> parse_buffer -> res (bool * list kJSON * parse_buffer)) (head : list kJSON) (o d : Z) (h : internal_hooks) : Prop :=
  exists ok head' o' d' h', f head (buf o d h) = Ok (ok, head', buf o' d' h') /\ 0 <= o' /\
    live h' - blocks_of head' = live h - blocks_of head /\ (ok = true -> o < o' <= n /\ d' = d /\ Q head').

Definition named (j : kJSON) : Prop := exists k, string j = Some k.
Definition elements (c : list kJSON) : Prop := Forall good c.
Definition members (c : list kJSON) : Prop := Forall (fun j => good j /\ named j) c.

Lemma blocks_of_one c j : blocks_of (c ++ [j]) = blocks_of c + blocks j.
Proof. rewrite blocks_of_app. cbn. lia. Qed.

Section Loops.
Context (f : kJSON -> parse_buffer -> res (bool * kJSON * parse_buffer)) (d : Z).
Hypothesis Hf : forall item o h, blank item -> 0 <= o <= n -> parses (f item (buf o d h)) item o d h.

Lemma array_items_ok fuel : forall head o h, elements head -> 0 <= o < n -> n - o < Z.of_nat fuel ->
  collects elements (array_items f fuel) head o d h.
Proof.
  induction fuel as [|fuel IH]; intros head o h Hh Ho Hfu; [lia|]. cbn [array_items]. unfold collects. cbn [array_items].
  destruct (new_item_cases h) as (r & h1 & En & Hr). rewrite buf_hooks, En, buf_set_hooks.
  destruct Hr as [[-> Hl]|[-> Hl]]; [exists false, head, o, d, h1; (split; [done|]); (split; [lia|]); by split; [lia|]|].
  rewrite buf_offset, buf_set_offset. destruct (skip_ok (o + 1) d h1) as (o1 & -> & Ho1); [lia|]. cbn [mbind res_bind].
  destruct (Hf (new_item 0) o1 h1) as (ok & item & o2 & d2 & h2 & -> & Ho2 & Hl2 & Hok); [by exists 0, None; auto|lia|]. cbn [mbind res_bind].
  assert (Hb : live h2 - blocks_of (head ++ [item]) = live h - blocks_of head) by (rewrite blocks_of_one; change (blocks (new_item 0)) with 1 in Hl2; lia).
  destruct ok; cbn [negb]; [|by exists false, (head ++ [item]), o2, d2, h2]. destruct Hok as (Ho2' & -> & Hg & _).
  destruct (skip_ok o2 d h2) as (o3 & -> & Ho3); [lia|]. cbn [mbind res_bind]. destruct (next_is_ok o3 d h2 44) as (b & -> & Hb'); [lia|lia|]. cbn [mbind res_bind].
  assert (Hh' : elements (head ++ [item])) by (apply Forall_app; split; [done|by apply Forall_singleton]).
  destruct b; [|exists true, (head ++ [item]), o3, d, h2; repeat split; [lia|done|lia|lia|done]].
  destruct (Hb' eq_refl) as [Hn _]. destruct (IH (head ++ [item]) o3 h2 Hh') as (ok' & c & o' & d' & h' & -> & Ho' & Hl' & Hok'); [lia|lia|].
  exists ok', c, o', d', h'. split; [done|]. split; [done|]. split; [lia|]. intros Ht. destruct (Hok' Ht) as (? & ? & ?). repeat split; [lia|lia|done|done].
Qed.

Lemma object_items_ok fuel : forall head o h, members head -> 0 <= o < n -> n - o < Z.of_nat fuel ->
  collects members (object_items f fuel) head o d h.
Proof.
  induction fuel as [|fuel IH]; intros head o h Hh Ho Hfu; [lia|]. unfold collects. cbn [object_items].
  destruct (new_item_cases h) as (r & h1 & En & Hr). rewrite buf_hooks, En, buf_set_hooks.
  destruct Hr as [[-> Hl]|[-> Hl]]; [exists false, head, o, d, h1; (split; [done|]); (split; [lia|]); by split; [lia|]|].
  rewrite buf_offset, buf_set_offset. destruct (skip_ok (o + 1) d h1) as (o1 & -> & Ho1); [lia|]. cbn [mbind res_bind].
  destruct (parse_string_ok (new_item 0) o1 d h1) as (ok & item & o2 & h2 & -> & Ho2 & Hl2 & Hok); [by exists 0, None; auto|lia|]. cbn [mbind res_bind].
  change (blocks (new_item 0)) with 1 in Hl2.
  destruct ok; cbn [negb]; [|exists false, (head ++ [item]), o2, d, h2; repeat split; [done|rewrite blocks_of_one; lia|done..]].
  destruct Hok as (Ho2' & v & Hv & ->). destruct (skip_ok o2 d h2) as (o3 & -> & Ho3); [lia|]. cbn [mbind res_bind type valueint valuedouble valuestring child].
  rewrite (blocks_item KS_JSON_TYPE_STRING) in Hl2 by (unfold KS_JSON_TYPE_STRING; lia). cbn [has blocks_of foldr string new_item] in Hl2.
  set (named_item := Item KS_JSON_TYPE_STRING None 0 zero (Some v) []). assert (Hbn : blocks named_item = 2) by reflexivity.
  destruct (next_is_ok o3 d h2 58) as (b & -> & Hb'); [lia|lia|]. cbn [mbind res_bind].
  destruct b; cbn [negb]; [|exists false, (head ++ [named_item]), o3, d, h2; repeat split; [lia|rewrite blocks_of_one; lia|done..]].
  destruct (Hb' eq_refl) as [Hn _]. rewrite buf_offset, buf_set_offset. destruct (skip_ok (o3 + 1) d h2) as (o4 & -> & Ho4); [lia|]. cbn [mbind res_bind].
  destruct (Hf named_item o4 h2) as (ok & item & o5 & d5 & h5 & -> & Ho5 & Hl5 & Hok); [by exists KS_JSON_TYPE_STRING, (Some v); auto|lia|]. cbn [mbind res_bind].
  assert (Hb : live h5 - blocks_of (head ++ [item]) = live h - blocks_of head) by (rewrite blocks_of_one; lia).
  destruct ok; cbn [negb]; [|by exists false, (head ++ [item]), o5, d5, h5]. destruct Hok as (Ho5' & -> & Hg & Hst & _).
  destruct (skip_ok o5 d h5) as (o6 & -> & Ho6); [lia|]. cbn [mbind res_bind]. destruct (next_is_ok o6 d h5 44) as (b & -> & Hb6); [lia|lia|]. cbn [mbind res_bind].
  assert (Hh' : members (head ++ [item])) by (apply Forall_app; split; [done|]; apply Forall_singleton; split; [done|]; by exists v).
  destruct b; [|exists true, (head ++ [item]), o6, d, h5; repeat split; [lia|done|lia|lia|done]].
  destruct (Hb6 eq_refl) as [Hn6 _]. destruct (IH (head ++ [item]) o6 h5 Hh') as (ok' & c & o' & d' & h' & -> & Ho' & Hl' & Hok'); [lia|lia|].
  exists ok', c, o', d', h'. split; [done|]. split; [done|]. split; [lia|]. intros Ht. destruct (Hok' Ht) as (? & ? & ?). repeat split; [lia|lia|done|done].
Qed.
End Loops.

(** Brackets around what [items] collects. *)
Lemma parse_nested_ok t opening closing items Q item o d h :
  (t = KS_JSON_TYPE_ARRAY \/ t = KS_JSON_TYPE_OBJECT) -> opening <> 0 -> closing <> 0 ->
  Q [] -> (forall c, Q c -> elements c /\ fields_ok t None 0 zero c = true) ->
  (forall o h, 0 <= o < n -> d < CJSON_NESTING_LIMIT -> collects Q items [] o (d + 1) h) -> blank item -> 0 <= o <= n ->
  parses (parse_nested t opening closing items item (buf o d h)) item o d h.
Proof.
  intros Ht Hop Hcl HQ0 HQ Hit (t0 & str & -> & Ht0 & Hstr) Ho. unfold parse_nested.
  destruct (Z.leb_spec CJSON_NESTING_LIMIT (depth (buf o d h))) as [|Hd]; [by apply parses_fail; [lia|]|]. cbn [buf depth] in Hd.
  change (set_depth (depth (buf o d h) + 1) (buf o d h)) with (buf o (d + 1) h).
  assert (Hopen : exists b, (if t =? KS_JSON_TYPE_ARRAY then c ← buffer_at (buf o (d + 1) h) 0; Ok (c =? opening) else next_is (buf o (d + 1) h) opening) = Ok b /\ (b = true -> o < n)).
  { destruct (t =? KS_JSON_TYPE_ARRAY).
    - rewrite buf_at. destruct (text_ld o Ho) as (c & -> & _ & Hz). eexists. split; [done|]. intros ->%Z.eqb_eq. destruct (Z.eq_dec o n); [by apply Hz in e|lia].
    - destruct (next_is_ok o (d + 1) h opening Ho Hop) as (b & -> & Hb). exists b. split; [done|]. intros H. apply (Hb H). }
  destruct Hopen as (b & -> & Hb). cbn [mbind res_bind].
  assert (Hsucc : forall c o' h', o <= o' < n -> live h' = live h + blocks_of c -> Q c ->
    parses (Ok (true, Item t None 0 zero str c, buf (o' + 1) (d + 1 - 1) h')) (Item t0 None 0 zero str []) o d h).
  { intros c o' h' Ho' Hl Hc. exists true, (Item t None 0 zero str c), (o' + 1), (d + 1 - 1), h'. split; [done|]. split; [lia|].
    assert (Hr : 0 <= t < 256) by (unfold KS_JSON_TYPE_ARRAY, KS_JSON_TYPE_OBJECT in Ht; lia). rewrite blank_blocks, blocks_item by done.
    split; [cbn; lia|]. split; [lia|]. split; [lia|]. split; [|done]. destruct (HQ c Hc) as [He Hf]. split.
    - apply well_typed_item. split; [done|]. eapply Forall_impl; [exact He|]. by intros j [? _].
    - cbn. rewrite Hstr. cbn. apply forallb_forall. intros j Hj%list_elem_of_In. unfold elements in He. rewrite Forall_forall in He. by destruct (He j Hj). }
  destruct b; cbn [negb]; [|rewrite buf_hooks, buf_set_hooks; apply parses_fail; [lia|unfold kJSON_Delete, deallocate, blocks_of; cbn [live foldr]; lia]]. specialize (Hb eq_refl).
  rewrite buf_offset, buf_set_offset. destruct (skip_ok (o + 1) (d + 1) h) as (o1 & -> & Ho1); [lia|]. cbn [mbind res_bind].
  destruct (next_is_ok o1 (d + 1) h closing) as (b & -> & Hb1); [lia|done|]. cbn [mbind res_bind].
  destruct b; [destruct (Hb1 eq_refl); apply (Hsucc [] o1 h); [lia|cbn; lia|done]|].
  unfold can_access_at_index. cbn [buf offset len]. destruct (Z.ltb_spec (o1 + 0) (n + 1)); [|lia]. cbn [negb].
  rewrite buf_set_offset.
  destruct (Hit (o1 - 1) h) as (ok & c & o2 & d2 & h2 & -> & Ho2 & Hl2 & Hok); [lia|done|]. cbn [mbind res_bind]. cbn [blocks_of foldr] in Hl2.
  assert (Hdel : live (kJSON_Delete c h2) = live h) by (cbn; lia).
  destruct ok; cbn [negb]; [|by apply parses_fail]. destruct (Hok eq_refl) as (Ho2' & -> & Hc).
  destruct (next_is_ok o2 (d + 1) h2 closing) as (b & -> & Hb2); [lia|done|]. cbn [mbind res_bind].
  destruct b; [destruct (Hb2 eq_refl); apply (Hsucc c o2 h2); [lia|lia|done]|by apply (parses_fail _ o d h o2 (d + 1) (kJSON_Delete c h2))].
Qed.

(** A constant's item. *)
Lemma parses_constant t vi str t0 o d h k : (t = KS_JSON_TYPE_NULL \/ t = KS_JSON_TYPE_FALSE \/ t = KS_JSON_TYPE_TRUE) ->
  t0 = 0 \/ t0 = KS_JSON_TYPE_STRING -> text_ok str = true -> 0 <= o -> 0 < k -> o + k <= n ->
  parses (Ok (true, Item t None vi zero str [], buf (o + k) d h)) (Item t0 None 0 zero str []) o d h.
Proof.
  intros Ht Ht0 Hstr Ho Hk Hn. assert (Hr : 0 <= t < 256) by (unfold KS_JSON_TYPE_NULL, KS_JSON_TYPE_FALSE, KS_JSON_TYPE_TRUE in Ht; lia).
  eexists true, _, (o + k), d, h. split; [done|]. split; [lia|]. rewrite blank_blocks, blocks_item by done. split; [cbn; lia|].
  split; [lia|]. split; [done|]. split; [|done]. split; [|cbn; by rewrite Hstr]. by destruct Ht as [->|[->| ->]].
Qed.

(** Any blank item, at any depth: the parser of values with fuel for the nesting. *)
Lemma parse_value_ok fuel : forall item o d h, blank item -> 0 <= o <= n -> 0 <= d <= CJSON_NESTING_LIMIT -> CJSON_NESTING_LIMIT - d < Z.of_nat fuel ->
  parses (parse_value fuel item (buf o d h)) item o d h.
Proof.
  induction fuel as [|fuel IH]; intros item o d h Hi Ho Hd Hf; [lia|]. cbn [parse_value].
  assert (Hk : forall lit, no_nul lit -> lit <> [] -> exists b, keyword (buf o d h) lit = Ok b /\ (b = true -> o + zlen lit <= n)) by (intros; by apply keyword_ok).
  destruct (Hk (bytes_of_string "null")) as (b & -> & Hb); [by repeat constructor|done|]. cbn [mbind res_bind].
  pose proof Hi as (t & str & -> & Ht & Hstr).
  destruct b; [apply (parses_constant _ 0 str t o d h 4); try done; [auto|lia|by apply Hb]|]. clear Hb.
  destruct (Hk (bytes_of_string "false")) as (b & -> & Hb); [by repeat constructor|done|]. cbn [mbind res_bind].
  destruct b; [apply (parses_constant _ 0 str t o d h 5); try done; [auto|lia|by apply Hb]|]. clear Hb.
  destruct (Hk (bytes_of_string "true")) as (b & -> & Hb); [by repeat constructor|done|]. cbn [mbind res_bind].
  destruct b; [apply (parses_constant _ 1 str t o d h 4); try done; [auto|lia|by apply Hb]|]. clear Hb Hk.
  rewrite buf_at. unfold can_access_at_index. cbn [buf offset len]. destruct (Z.ltb_spec (o + 0) (n + 1)); [|lia]. cbn [negb].
  fold (buf o d h). destruct (text_ld o Ho) as (c & -> & _). cbn [mbind res_bind].
  destruct (c =? 34).
  { destruct (parse_string_ok (Item t None 0 zero str []) o d h) as (ok & item' & o' & h' & -> & Ho' & Hl & Hok); [done|done|].
    exists ok, item', o', d, h'. split; [done|]. split; [done|]. split; [done|]. destruct ok; [|done]. destruct Hok as (? & v & Hv & ->).
    split; [done|]. split; [done|]. split; [|done]. split; [done|]. cbn. cbn in Hv. by rewrite Hv, Hstr. }
  destruct (_ || _); [by apply parse_number_ok|].
  assert (Hnest : d < CJSON_NESTING_LIMIT -> forall item o h, blank item -> 0 <= o <= n -> parses (parse_value fuel item (buf o (d + 1) h)) item o (d + 1) h) by (intros; apply IH; [done|done|lia|lia]).
  destruct (c =? 91).
  - eapply (parse_nested_ok _ _ _ _ elements); try done; [by left|by constructor|].
    intros o' h' Ho' Hd'. apply array_items_ok; [by apply Hnest|constructor|done|cbn; lia].
  - destruct (c =? 123); [|by apply parses_fail; [lia|]].
    eapply (parse_nested_ok _ _ _ _ members); try done; [by right|by constructor| |].
    + intros l Hl. split; [eapply Forall_impl; [exact Hl|]; by intros j [? _]|]. cbn. apply forallb_forall. intros j Hj%list_elem_of_In.
      unfold members in Hl. rewrite Forall_forall in Hl. destruct (Hl j Hj) as [_ [k Hk]]. apply bool_decide_eq_true_2. by rewrite Hk.
    + intros o' h' Ho' Hd'. apply object_items_ok; [by apply Hnest|constructor|done|cbn; lia].
Qed.

Lemma skip_bom_ok h : exists o, skip_utf8_bom (buf 0 0 h) = Ok (Some (buf o 0 h)) /\ 0 <= o <= n.
Proof.
  pose proof (zlen_nonneg s). unfold skip_utf8_bom. rewrite buf_offset. cbn [Z.eqb negb]. unfold can_access_at_index. cbn [buf offset len content].
  destruct (Z.ltb_spec (0 + 4) (n + 1)); [|by exists 0]. assert (Hz : zlen [239; 187; 191] = 3) by done.
  destruct (starts_at_ok [239; 187; 191] 0) as (b & -> & Hb); [lia|rewrite Hz; lia|by repeat constructor|].
  cbn [mbind res_bind]. destruct b; [|exists 0; split; [done|lia]]. exists 3. split; [done|]. lia.
Qed.

(** ** The whole parser *)

Definition parse_outcome (h : internal_hooks) (r : parsed) : Prop :=
  match result r with
  | Some j => well_typed j = true /\ clean j = true /\ live (after r) = live h + blocks j /\
              error_position r = None /\ exists e, parse_end r = Some e /\ 0 < e <= n
  | None => live (after r) = live h /\ exists e, parse_end r = Some e /\ error_position r = Some e /\ 0 <= e <= n
  end.

Lemma parse_ok require_null_terminated h : exists r, kJSON_ParseWithOpts (Some m) require_null_terminated h = Ok r /\ parse_outcome h r.
Proof.
  pose proof (zlen_nonneg s). unfold kJSON_ParseWithOpts.
  assert (Hlen : strlen m = Ok n) by (by apply strlen_app). rewrite Hlen. cbn [mbind res_bind].
  assert (Hfail : forall c o d h', 0 <= o -> live h' = live h + blocks_of c -> exists r, fail c (buf o d h') = Ok r /\ parse_outcome h r).
  { intros c o d h' Ho Hl. eexists. split; [done|]. unfold parse_outcome. cbn. split; [lia|]. eexists. split; [done|]. split; [done|].
    destruct (Z.ltb_spec o (n + 1)); [lia|]. destruct (Z.ltb_spec 0 (n + 1)); lia. }
  fold (buf 0 0 h). destruct (new_item_cases h) as (r & h1 & -> & Hr). rewrite buf_set_hooks.
  destruct Hr as [[-> Hl]|[-> Hl]]; [apply Hfail; [lia|cbn; lia]|]. destruct (skip_bom_ok h1) as (o0 & -> & Ho0). cbn [mbind res_bind].
  destruct (skip_ok o0 0 h1 Ho0) as (o1 & -> & Ho1). cbn [mbind res_bind].
  destruct (parse_value_ok nesting_fuel (new_item 0) o1 0 h1) as (ok & item & o2 & d2 & h2 & -> & Ho2 & Hl2 & Hok);
    [by exists 0, None; auto|lia|unfold CJSON_NESTING_LIMIT; lia|unfold nesting_fuel, CJSON_NESTING_LIMIT; lia|]. cbn [mbind res_bind].
  change (blocks (new_item 0)) with 1 in Hl2. assert (Hb : blocks_of [item] = blocks item) by (cbn; lia).
  destruct ok; cbn [negb]; [|apply Hfail; [done|lia]]. destruct Hok as (Ho2' & -> & [Hw Hc] & _).
  assert (Hend : forall o, 0 < o <= n -> exists r, Ok (Parsed (Some item) (Some (offset (buf o 0 h2))) None (hooks (buf o 0 h2))) = Ok r /\ parse_outcome h r).
  { intros o Ho. eexists. split; [done|]. unfold parse_outcome. cbn. split; [done|]. split; [done|]. split; [lia|]. split; [done|]. by exists o. }
  destruct require_null_terminated; cbn [mbind res_bind]; [|apply Hend; lia].
  destruct (skip_ok o2 0 h2) as (o3 & -> & Ho3); [lia|]. cbn [mbind res_bind].
  unfold next_is. rewrite buf_at. unfold can_access_at_index. cbn [buf offset len]. destruct (Z.ltb_spec (o3 + 0) (n + 1)); [|lia].
  fold (buf o3 0 h2). destruct (text_ld o3) as (c & -> & _); [lia|]. cbn [mbind res_bind]. destruct (c =? 0); cbn [negb]; [apply Hend; lia|apply Hfail; [lia|lia]].
Qed.

End Text.

(** C38: for any NUL-terminated text, any answers of the allocator and any contents of
    fresh memory, [kJSON_ParseWithOpts] returns without leaving its buffers (the
    text, the number buffer, the memory of a string, whose size is computed from a
    first scan), within a recursion of 1001 calls. It gives a well-typed value whose
    strings are NUL-free and whose numbers are doubles, having read no further than
    the text, and as many blocks are live as the value has; or NULL with the position
    of the error inside the text, and no block more than before. *)
Theorem json_parse_safe s junk require_null_terminated h : no_nul s -> all_bytes s ->
  exists r, kJSON_ParseWithOpts (Some (s ++ 0 :: junk)) require_null_terminated h = Ok r /\
    match result r with
    | Some j => well_typed j = true /\ clean j = true /\ live (after r) = live h + blocks j /\
                error_position r = None /\ exists e, parse_end r = Some e /\ 0 < e <= zlen s
    | None => live (after r) = live h /\ exists e, parse_end r = Some e /\ error_position r = Some e /\ 0 <= e <= zlen s
    end.
Proof. intros Hs Hb. exact (parse_ok s junk Hs Hb require_null_terminated h). Qed.

(** [{"a":[1,"\u00e9"]}] with a third allocation that fails, and with all served. *)
Lemma json_parse_safe_witness :
  let s := [123; 34; 97; 34; 58; 91; 49; 44; 34; 92; 117; 48; 48; 101; 57; 34; 93; 125] in
  (exists r, kJSON_ParseWithOpts (Some (s ++ [0])) true (Hooks [true; true; false] 7 0 true) = Ok r /\ result r = None /\ live (after r) = 0) /\
  (exists r, kJSON_ParseWithOpts (Some (s ++ [0])) true (Hooks [] 7 0 true) = Ok r /\
    result r = Some (Item 64 None 0 zero None [Item 32 None 0 zero (Some [97]) [Item 8 None 1 (Fin 1 0) None []; Item 16 (Some [195; 169]) 0 zero None []]])).
Proof.
  intros s. assert (Hs : no_nul s) by (repeat constructor; done). assert (Hb : all_bytes s) by (repeat constructor; done). split.
  - destruct (json_parse_safe s [] true (Hooks [true; true; false] 7 0 true) Hs Hb) as (r & E & Hr). exists r. split; [exact E|].
    assert (result r = None) as Hn by (vm_compute in E; injection E as <-; reflexivity). rewrite Hn in Hr. split; [exact Hn|apply Hr].
  - destruct (json_parse_safe s [] true (Hooks [] 7 0 true) Hs Hb) as (r & E & Hr). exists r. split; [exact E|].
    vm_compute in E. injection E as <-. reflexivity.
Defined.

(** ** Where the parser takes what is no JSON *)

(** ["\uZZZZ"] has no code: [parse_hex4] gives 0 for it, a NUL is put into the string, which ends there. *)
Lemma parse_invalid_code : exists r,
  ks_json_parse (Some [34; 97; 92; 117; 90; 90; 90; 90; 98; 34; 0]) (Hooks [] 7 0 true) = Ok r /\
  result r = Some (Item KS_JSON_TYPE_STRING (Some [97]) 0 zero None []).
Proof. eexists. split; [vm_compute; reflexivity|reflexivity]. Qed.

(** A number is cut after 63 characters: 10^69 is read as 10^62. *)
Lemma parse_long_number : exists r,
  ks_json_parse (Some (49 :: replicate 69 48 ++ [0])) (Hooks [] 7 0 true) = Ok r /\ parse_end r = Some 63 /\
  option_map valuedouble (result r) = Some (decimal false 1 62).
Proof. eexists. split; [vm_compute; reflexivity|split; [reflexivity|vm_compute; reflexivity]]. Qed.

End JsonParse.
