(* ===== verification/JsonPrint.v ===== *)
(** The printer of JSON values (src/src/include/cJSON/cJSON.c, [ks_json_print] and
    [ks_json_print_unformatted] of src/src/ks_json.c): into its growing buffer it writes
    the text of a value, or gives up when memory does not suffice. *)
From S2P Require Import Prelude Str Json JsonNum JsonParse.
Import Str Json JsonNum JsonParse.
Local Open Scope Z_scope.

Module JsonPrint.

(** ** The print buffer *)

Record printbuffer := PBuf {
  p_buffer : option (list Z); p_length : Z; p_offset : Z; p_depth : Z;
  p_noalloc : bool; p_format : bool; p_hooks : internal_hooks }.

Definition set_memory (b : option (list Z)) (l : Z) (h : internal_hooks) (p : printbuffer) :=
  PBuf b l (p_offset p) (p_depth p) (p_noalloc p) (p_format p) h.
Definition set_p_offset (o : Z) (p : printbuffer) :=
  PBuf (p_buffer p) (p_length p) o (p_depth p) (p_noalloc p) (p_format p) (p_hooks p).
Definition set_p_depth (d : Z) (p : printbuffer) :=
  PBuf (p_buffer p) (p_length p) (p_offset p) d (p_noalloc p) (p_format p) (p_hooks p).

(** [realloc]: what fits is kept. *)
Definition realloc (m : list Z) (n : Z) (h : internal_hooks) : option (list Z) * internal_hooks :=
  let grown := take (Z.to_nat n) m ++ replicate (Z.to_nat (n - zlen m)) (fill h) in
  match serve h with
  | false :: r => (None, Hooks r (fill h) (live h) (reallocate h))
  | true :: r => (Some grown, Hooks r (fill h) (live h) (reallocate h))
  | [] => (Some grown, h)
  end.

(** ** Steps: the code goes on when one returns true, and returns false otherwise *)

Definition step : Type := printbuffer -> res (bool * printbuffer).

Definition seq (f g : step) : step := fun p => '(ok, p) ← f p; if ok : bool then g p else Ok (false, p).
Definition nothing : step := fun p => Ok (true, p).
Local Notation "f >> g" := (seq f g) (at level 60, right associativity).

(** Whether there are [needed] bytes and one more behind the offset. *)
Definition ensure (needed : Z) : step := fun p =>
  match p_buffer p with
  | None => Ok (false, p)
  | Some b =>
    if (0 <? p_length p) && (p_length p <=? p_offset p) then Ok (false, p) else
    if INT_MAX <? needed then Ok (false, p) else
    let needed := needed + (p_offset p + 1) in
    if needed <=? p_length p then Ok (true, p) else
    if p_noalloc p then Ok (false, p) else
    let newsize := if INT_MAX / 2 <? needed then (if needed <=? INT_MAX then Some INT_MAX else None) else Some (needed * 2) in
    match newsize with
    | None => Ok (false, p)
    | Some newsize =>
      if reallocate (p_hooks p) then
        let '(newbuffer, h) := realloc b newsize (p_hooks p) in
        match newbuffer with
        | None => Ok (false, set_memory None 0 (deallocate 1 h) p)
        | Some newbuffer => Ok (true, set_memory (Some newbuffer) newsize h p)
        end
      else
        let '(newbuffer, h) := allocate newsize (p_hooks p) in
        match newbuffer with
        | None => Ok (false, set_memory None 0 (deallocate 1 h) p)
        | Some newbuffer =>
          copied ← slice b 0 (p_offset p + 1);
          newbuffer ← blit newbuffer 0 copied;
          Ok (true, set_memory (Some newbuffer) newsize (deallocate 1 h) p)
        end
    end
  end.

(** Stores from [offset + i] on. *)
Definition write (i : Z) (bs : list Z) : step := fun p =>
  match p_buffer p with
  | None => Err NullDeref
  | Some b => b ← blit b (p_offset p + i) bs; Ok (true, set_memory (Some b) (p_length p) (p_hooks p) p)
  end.

Definition advance (k : Z) : step := fun p => Ok (true, set_p_offset (p_offset p + k) p).
Definition deepen (k : Z) : step := fun p => Ok (true, set_p_depth (p_depth p + k) p).

Definition update_offset : step := fun p =>
  match p_buffer p with
  | None => Ok (true, p)
  | Some b => n ← strlen (drop (Z.to_nat (p_offset p)) b); Ok (true, set_p_offset (p_offset p + n) p)
  end.

(** ** Numbers: through a buffer of 26 bytes *)

Definition print_number (item : kJSON) : step := fun p =>
  text ← number_text (valuedouble item);
  number_buffer ← blit (replicate 26 (fill (p_hooks p))) 0 (text ++ [0]);
  let length := zlen text in
  if (length <? 0) || (25 <? length) then Ok (false, p) else
  text ← slice number_buffer 0 length;
  (ensure (length + 1) >> write 0 text >> write length [0] >> advance length) p.

(** ** Strings *)

Definition needs_escape (c : Z) : bool :=
  (c =? 34) || (c =? 92) || (c =? 8) || (c =? 12) || (c =? 10) || (c =? 13) || (c =? 9).

(** How many characters more a character takes, and all of a string. *)
Definition extra (c : Z) : Z := if needs_escape c then 1 else if c <? 32 then 5 else 0.
Definition escape_characters (s : list Z) : Z := foldr (fun c n => extra c + n) 0 s.

Definition hex_digit (d : Z) : Z := if d <? 10 then 48 + d else 87 + d.
(** [sprintf("u%04x")] of a byte, without its NUL. *)
Definition u_code (c : Z) : list Z := [117; 48; 48; hex_digit (c / 16); hex_digit (c mod 16)].

(** What follows the backslash: one character, or the code of one without a name. *)
Definition escape_letter (c : Z) : option Z :=
  if c =? 92 then Some 92 else if c =? 34 then Some 34 else if c =? 8 then Some 98 else if c =? 12 then Some 102
  else if c =? 10 then Some 110 else if c =? 13 then Some 114 else if c =? 9 then Some 116 else None.

(** The loop over the string; [i] is where [output_pointer] stands. *)
Fixpoint put_escaped (s : list Z) (i : Z) : step :=
  match s with
  | [] => nothing
  | c :: s =>
    if (31 <? c) && negb (c =? 34) && negb (c =? 92) then write i [c] >> put_escaped s (i + 1)
    else write i [92] >>
         match escape_letter c with
         | Some x => write (i + 1) [x] >> put_escaped s (i + 2)
         | None => write (i + 1) (u_code c ++ [0]) >> put_escaped s (i + 6)
         end
  end.

Definition print_string_ptr (input : option (list Z)) : step :=
  match input with
  | None => ensure 3 >> write 0 [34; 34; 0]
  | Some s =>
    let output_length := zlen s + escape_characters s in
    ensure (output_length + 3) >>
    (if escape_characters s =? 0 then write 0 [34] >> write 1 s
     else write 0 [34] >> put_escaped s 1) >>
    write (output_length + 1) [34] >> write (output_length + 2) [0]
  end.

Definition print_string (item : kJSON) : step := print_string_ptr (valuestring item).

(** ** Arrays and objects, over a printer [print_value] of their elements *)

Definition tabs (d : Z) : list Z := replicate (Z.to_nat d) 9.
Definition if_format {A} (p : printbuffer) (x y : A) : A := if p_format p then x else y.

(** Between elements of arrays: a comma unless there is no [next]. *)
Definition separate (last : bool) : step := fun p =>
  if last then nothing p else
  let length := if_format p 2 1 in
  (ensure (length + 1) >> write 0 (44 :: if_format p [32] []) >> write length [0] >> advance length) p.

(** In objects: before a key, between key and value, behind a member, at the end. *)
Definition indent : step := fun p =>
  if_format p (ensure (p_depth p) >> write 0 (tabs (p_depth p)) >> advance (p_depth p)) nothing p.
Definition colon : step := fun p =>
  let length := if_format p 2 1 in (ensure length >> write 0 (58 :: if_format p [9] []) >> advance length) p.
Definition finish (last : bool) : step := fun p =>
  let comma := if last then [] else [44] in
  let length := if_format p 1 0 + zlen comma in
  (ensure (length + 1) >> write 0 (comma ++ if_format p [10] [] ++ [0]) >> advance length) p.
Definition close_object : step := fun p =>
  (ensure (if_format p (p_depth p + 1) 2) >> write 0 (if_format p (tabs (p_depth p - 1)) [] ++ [125; 0])) p.

Definition is_last (c : list kJSON) : bool := match c with [] => true | _ => false end.

Section Nested.
Context (print_value : kJSON -> step).

Fixpoint print_elements (c : list kJSON) : step :=
  match c with
  | [] => nothing
  | current_element :: c =>
    print_value current_element >> update_offset >> separate (is_last c) >> print_elements c
  end.

Definition print_array (item : kJSON) : step :=
  ensure 1 >> write 0 [91] >> advance 1 >> deepen 1 >> print_elements (child item) >>
  ensure 2 >> write 0 [93; 0] >> deepen (-1).

Fixpoint print_members (c : list kJSON) : step :=
  match c with
  | [] => nothing
  | current_item :: c =>
    indent >> print_string_ptr (string current_item) >> update_offset >> colon >>
    print_value current_item >> update_offset >> finish (is_last c) >> print_members c
  end.

Definition print_object (item : kJSON) : step := fun p =>
  let length := if_format p 2 1 in
  (ensure (length + 1) >> write 0 (123 :: if_format p [10] []) >> deepen 1 >> advance length >>
   print_members (child item) >> close_object >> deepen (-1)) p.
End Nested.

Definition kJSON_Raw : Z := 128.

Fixpoint print_value (item : kJSON) : step :=
  let '(Item t vs vi vd s c) := item in
  let t := Z.land t 255 in
  if t =? KS_JSON_TYPE_NULL then ensure 5 >> write 0 (bytes_of_string "null" ++ [0])
  else if t =? KS_JSON_TYPE_FALSE then ensure 6 >> write 0 (bytes_of_string "false" ++ [0])
  else if t =? KS_JSON_TYPE_TRUE then ensure 5 >> write 0 (bytes_of_string "true" ++ [0])
  else if t =? KS_JSON_TYPE_NUMBER then print_number item
  else if t =? kJSON_Raw then
    match vs with None => fun p => Ok (false, p) | Some raw => ensure (zlen raw + 1) >> write 0 (raw ++ [0]) end
  else if t =? KS_JSON_TYPE_STRING then print_string item
  else if t =? KS_JSON_TYPE_ARRAY then print_array print_value item
  else if t =? KS_JSON_TYPE_OBJECT then print_object print_value item
  else fun p => Ok (false, p).

Definition print_item (item : option kJSON) : step :=
  match item with None => fun p => Ok (false, p) | Some item => print_value item end.

(** ** The calls: the memory with the text, or NULL, and the allocator after *)

Definition free_buffer (p : printbuffer) : internal_hooks :=
  match p_buffer p with Some _ => deallocate 1 (p_hooks p) | None => p_hooks p end.

Definition print (item : option kJSON) (format : bool) (h : internal_hooks) : res (option (list Z) * internal_hooks) :=
  let '(m, h) := allocate 256 h in
  match m with
  | None => Ok (None, h)
  | Some m =>
    '(ok, p) ← print_item item (PBuf (Some m) 256 0 0 false format h);
    if negb ok then Ok (None, free_buffer p) else
    '(_, p) ← update_offset p;
    match p_buffer p with
    | None => Err NullDeref
    | Some b =>
      if reallocate (p_hooks p) then
        Ok (realloc b (p_offset p + 1) (p_hooks p))
      else
        let '(printed, h) := allocate (p_offset p + 1) (p_hooks p) in
        match printed with
        | None => Ok (None, deallocate 1 h)
        | Some printed =>
          copied ← slice b 0 (Z.min (p_length p) (p_offset p + 1));
          printed ← blit printed 0 copied;
          printed ← st printed (p_offset p) 0;
          Ok (Some printed, deallocate 1 h)
        end
    end
  end.

Definition kJSON_Print (item : option kJSON) (h : internal_hooks) := print item true h.
Definition kJSON_PrintUnformatted (item : option kJSON) (h : internal_hooks) := print item false h.
Definition ks_json_print (item : option kJSON) (h : internal_hooks) := kJSON_Print item h.
Definition ks_json_print_unformatted (item : option kJSON) (h : internal_hooks) := kJSON_PrintUnformatted item h.

Definition kJSON_PrintBuffered (item : option kJSON) (prebuffer : Z) (fmt : bool) (h : internal_hooks) : res (option (list Z) * internal_hooks) :=
  if prebuffer <? 0 then Ok (None, h) else
  let '(m, h) := allocate prebuffer h in
  match m with
  | None => Ok (None, h)
  | Some m =>
    '(ok, p) ← print_item item (PBuf (Some m) prebuffer 0 0 false fmt h);
    if negb ok then Ok (None, free_buffer p) else Ok (p_buffer p, p_hooks p)
  end.

(** The caller's buffer, of [len] bytes, afterwards. *)
Definition kJSON_PrintPreallocated (item : option kJSON) (buf : option (list Z)) (len : Z) (fmt : bool) (h : internal_hooks)
  : res (bool * option (list Z)) :=
  match buf with
  | None => Ok (false, None)
  | Some m => if len <? 0 then Ok (false, Some m) else
              '(ok, p) ← print_item item (PBuf (Some m) len 0 0 true fmt h); Ok (ok, p_buffer p)
  end.

(** ** The text of a value *)

Definition number_txt (d : double) : list Z := match number_text d with Ok t => t | Err _ => [] end.
Definition esc (c : Z) : list Z :=
  if (31 <? c) && negb (c =? 34) && negb (c =? 92) then [c]
  else match escape_letter c with Some x => [92; x] | None => 92 :: u_code c end.
Definition escaped (s : list Z) : list Z := concat (map esc s).
Definition quoted (s : option (list Z)) : list Z :=
  match s with Some s => 34 :: escaped s ++ [34] | None => [34; 34] end.

Section Text.
Context (fmt : bool).
Definition f_tabs (d : Z) : list Z := if fmt then tabs d else [].
Definition f_char (c : Z) : list Z := if fmt then [c] else [].

Fixpoint text_elements (tx : kJSON -> list Z) (c : list kJSON) : list Z :=
  match c with
  | [] => []
  | j :: c => tx j ++ (if is_last c then [] else 44 :: f_char 32) ++ text_elements tx c
  end.

Fixpoint text_members (tx : kJSON -> list Z) (d : Z) (c : list kJSON) : list Z :=
  match c with
  | [] => []
  | j :: c => f_tabs d ++ quoted (string j) ++ (58 :: f_char 9) ++ tx j ++
              ((if is_last c then [] else [44]) ++ f_char 10) ++ text_members tx d c
  end.

Fixpoint text (d : Z) (j : kJSON) : list Z :=
  let '(Item t vs vi vd _ c) := j in
  if t =? KS_JSON_TYPE_NULL then bytes_of_string "null"
  else if t =? KS_JSON_TYPE_FALSE then bytes_of_string "false"
  else if t =? KS_JSON_TYPE_TRUE then bytes_of_string "true"
  else if t =? KS_JSON_TYPE_NUMBER then number_txt vd
  else if t =? KS_JSON_TYPE_STRING then quoted vs
  else if t =? KS_JSON_TYPE_ARRAY then [91] ++ text_elements (text (d + 1)) c ++ [93]
  else (123 :: f_char 10) ++ text_members (text (d + 1)) (d + 1) c ++ f_tabs d ++ [125].
End Text.

(** Values whose numbers [print_number] may convert. *)
Fixpoint numbers_ok (j : kJSON) : bool :=
  let '(Item t _ _ vd _ c) := j in (negb (t =? KS_JSON_TYPE_NUMBER) || convertible vd) && forallb numbers_ok c.

(** ** Steps on a buffer that holds [pre] in front of the offset and [rest] behind it *)

(** The answers of the allocator between two states; one of them was a refusal. *)
Definition used (h h' : internal_hooks) : Prop := exists l, serve h = l ++ serve h'.
Definition refused (h h' : internal_hooks) : Prop := exists l, serve h = l ++ serve h' /\ false ∈ l.

Lemma used_refl h h' : serve h' = serve h -> used h h'.
Proof. intros E. exists []. by rewrite E. Qed.

Lemma used_trans h1 h2 h3 : used h1 h2 -> used h2 h3 -> used h1 h3.
Proof. intros [l E] [l' E']. exists (l ++ l'). by rewrite E, E', app_assoc. Qed.

Lemma refused_trans h1 h2 h3 : used h1 h2 -> refused h2 h3 -> refused h1 h3.
Proof. intros [l E] (l' & E' & Hin). exists (l ++ l'). rewrite E, E', app_assoc. split; [done|]. apply elem_of_app. by right. Qed.

Lemma refused_nil h h' : serve h = [] -> ~ refused h h'.
Proof. intros E (l & E' & Hin). rewrite E in E'. destruct l; [by apply elem_of_nil in Hin|done]. Qed.

Lemma allocate_used n h r h' : allocate n h = (r, h') -> used h h' /\ (r = None -> refused h h') /\ reallocate h' = reallocate h.
Proof.
  unfold allocate. destruct (serve h) as [|[] l] eqn:E; intros [= <- <-].
  - split; [exists []; by rewrite E|done].
  - split; [exists [true]; by rewrite E|done].
  - split; [exists [false]; by rewrite E|]. split; [|done]. intros _. exists [false]. split; [by rewrite E|by left].
Qed.

Section Runs.
Context (fmt na : bool) (size : Z).

Definition pb (pre rest : list Z) (d : Z) (h : internal_hooks) : printbuffer :=
  PBuf (Some (pre ++ rest)) (zlen (pre ++ rest)) (zlen pre) d na fmt h.

(** The allocator after steps that freed nothing. *)
Definition kept (h h' : internal_hooks) : Prop := live h' = live h /\ used h h' /\ reallocate h' = reallocate h.

Lemma kept_trans h1 h2 h3 : kept h1 h2 -> kept h2 h3 -> kept h1 h3.
Proof. intros (? & ? & ?) (? & ? & ?). repeat split; [lia|by eapply used_trans|congruence]. Qed.

(** A step that goes on leads to such a buffer of [Q]; one that gives up has freed the buffer or
    left it: it may not allocate, the allocator refused, or [size] bytes are too many. *)
Definition does (f : step) (pre rest : list Z) (d : Z) (h : internal_hooks) (Q : list Z -> list Z -> Z -> Prop) : Prop :=
  exists ok p', f (pb pre rest d h) = Ok (ok, p') /\
    if ok : bool then exists pre' rest' d' h', p' = pb pre' rest' d' h' /\ Q pre' rest' d' /\ kept h h'
    else live (p_hooks p') - has (p_buffer p') = live h - 1 /\ (na = true \/ refused h (p_hooks p') \/ INT_MAX < size).

Lemma does_seq f g pre rest d h Q R : does f pre rest d h Q ->
  (forall pre' rest' d' h', Q pre' rest' d' -> does g pre' rest' d' h' R) -> does (seq f g) pre rest d h R.
Proof.
  intros (ok & p & E & Hf) Hg. unfold does, seq. rewrite E. cbn [mbind res_bind]. destruct ok; [|by exists false, p].
  destruct Hf as (pre1 & rest1 & d1 & h1 & -> & HQ & Hk). destruct (Hg _ _ _ h1 HQ) as (ok & p' & E' & H). exists ok, p'. split; [done|].
  destruct ok.
  - destruct H as (pre2 & rest2 & d2 & h2 & -> & HR & Hk2). exists pre2, rest2, d2, h2. split; [done|]. split; [done|]. by eapply kept_trans.
  - destruct Hk as (Hl & Hs & _). destruct H as [H1 H2]. split; [lia|]. destruct H2 as [H2|[H2|H2]]; [by left|right; left; by eapply refused_trans|by right; right].
Qed.

Lemma does_impl f pre rest d h (Q R : list Z -> list Z -> Z -> Prop) : does f pre rest d h Q -> (forall pre' rest' d', Q pre' rest' d' -> R pre' rest' d') -> does f pre rest d h R.
Proof.
  intros (ok & p & E & Hf) HQ. exists ok, p. split; [done|]. destruct ok; [|done]. destruct Hf as (pre1 & rest1 & d1 & h1 & -> & H & Hk).
  exists pre1, rest1, d1, h1. auto.
Qed.

(** A step that only changes the buffer. *)
Lemma does_pure f pre rest d h pre' rest' d' (Q : list Z -> list Z -> Z -> Prop) : f (pb pre rest d h) = Ok (true, pb pre' rest' d' h) ->
  Q pre' rest' d' -> does f pre rest d h Q.
Proof. intros E HQ. exists true, (pb pre' rest' d' h). split; [done|]. exists pre', rest', d', h. repeat split; [done|by apply used_refl]. Qed.

(** Memory after growing still begins with what was printed. *)
Lemma grown_pb pre rest' d h0 h l : l = zlen (pre ++ rest') ->
  forall rest, set_memory (Some (pre ++ rest')) l h (pb pre rest d h0) = pb pre rest' d h.
Proof. by intros -> rest. Qed.

Lemma realloc_cases m n h : zlen m <= n -> exists r h', realloc m n h = (r, h') /\ kept h h' /\
  (r = None /\ refused h h' \/ r = Some (m ++ replicate (Z.to_nat (n - zlen m)) (fill h))).
Proof.
  intros Hn. unfold realloc. rewrite take_ge by (unfold zlen in Hn; lia). destruct (serve h) as [|[] l] eqn:E; do 2 eexists; (split; [done|]).
  - split; [|by right]. repeat split. exists []. by rewrite E.
  - split; [|by right]. repeat split. exists [true]. by rewrite E.
  - split; [|left; split; [done|]]; [repeat split; exists [false]; by rewrite E|]. exists [false]. split; [by rewrite E|by left].
Qed.

Lemma does_ensure k pre rest d h : 0 <= k -> 0 < zlen rest -> zlen pre + k + 1 <= size ->
  does (ensure k) pre rest d h (fun pre' rest' d' => pre' = pre /\ d' = d /\ k + 1 <= zlen rest').
Proof.
  intros Hk Hr Hs. pose proof (zlen_nonneg pre). assert (Hlen : zlen (pre ++ rest) = zlen pre + zlen rest) by apply zlen_app.
  unfold does, ensure. cbn [pb p_buffer p_length p_offset p_noalloc p_hooks]. rewrite Hlen.
  destruct (Z.ltb_spec 0 (zlen pre + zlen rest)); [|lia]. destruct (Z.leb_spec (zlen pre + zlen rest) (zlen pre)); [lia|]. cbn [andb].
  destruct (Z.ltb_spec INT_MAX k); [exists false, (pb pre rest d h); split; [done|]; split; [done|]; right; right; lia|].
  set (needed := k + (zlen pre + 1)) in *. destruct (Z.leb_spec needed (zlen pre + zlen rest)).
  { exists true, (pb pre rest d h). split; [done|]. exists pre, rest, d, h. repeat split; [lia|by apply used_refl]. }
  destruct (Bool.bool_dec na true) as [Hna|Hna%Bool.not_true_is_false]; [rewrite Hna; exists false, (pb pre rest d h); split; [done|]; split; [done|]; by left|].
  rewrite Hna. set (newsize := if INT_MAX / 2 <? needed then _ else _).
  assert (Hnew : (newsize = None /\ INT_MAX < needed) \/ exists x, newsize = Some x /\ needed <= x).
  { subst newsize. destruct (_ <? needed); [|right; exists (needed * 2); split; [done|lia]]. destruct (Z.leb_spec needed INT_MAX); eauto. }
  destruct Hnew as [[-> Hbig]|(x & -> & Hx)]; [exists false, (pb pre rest d h); split; [done|]; split; [done|]; right; right; lia|].
  assert (Hlost : forall h', live h' = live h -> refused h h' -> exists ok p', Ok (false, set_memory None 0 (deallocate 1 h') (pb pre rest d h)) = Ok (ok, p') /\
    if ok : bool then exists pre' rest' d' h', p' = pb pre' rest' d' h' /\ (pre' = pre /\ d' = d /\ k + 1 <= zlen rest') /\ kept h h'
    else live (p_hooks p') - has (p_buffer p') = live h - 1 /\ (false = true \/ refused h (p_hooks p') \/ INT_MAX < size)).
  { intros h' Hl Hf. do 2 eexists. split; [done|]. cbn. split; [lia|]. right. left. exact Hf. }
  destruct (reallocate h).
  - destruct (realloc_cases (pre ++ rest) x h) as (r & h' & -> & Hl & [[-> Hr']| ->]); [lia|by apply Hlost; [apply Hl|]|].
    exists true, (pb pre (rest ++ replicate (Z.to_nat (x - zlen (pre ++ rest))) (fill h)) d h'). rewrite <- app_assoc. split.
    + do 2 f_equal. apply grown_pb. rewrite !zlen_app, zlen_replicate. lia.
    + do 4 eexists. split; [done|]. rewrite zlen_app, zlen_replicate. by split; [split; [done|split; [done|lia]]|].
  - destruct (allocate_cases x h) as (r & a & h' & Ea & Hl & Hr'). rewrite Ea.
    pose proof (allocate_used _ _ _ _ Ea) as Hu.
    destruct Hu as (Hu & Hre1 & Hre).
    destruct Hr' as [[-> ->]|[-> ->]]; [apply Hlost; [lia|by apply Hre1]|].
    destruct rest as [|r0 rest]; [done|]. change (pre ++ r0 :: rest) with (pre ++ [r0] ++ rest). rewrite app_assoc.
    rewrite (slice_app [] (pre ++ [r0]) rest) by (done || (rewrite zlen_app; done)). cbn [mbind res_bind].
    rewrite (blit_rest [] (replicate (Z.to_nat x) (fill h)) (pre ++ [r0])) by (done || (rewrite zlen_app, zlen_replicate; change (zlen [r0]) with 1; lia)).
    cbn [mbind res_bind app]. set (tail := drop _ _).
    assert (Ht : zlen (pre ++ r0 :: tail) = x).
    { rewrite zlen_app, zlen_cons. subst tail. unfold zlen. rewrite length_drop, length_replicate, length_app. cbn [length]. unfold zlen in *. lia. }
    exists true, (pb pre (r0 :: tail) d (deallocate 1 h')). split.
    + do 2 f_equal. rewrite <- !app_assoc. cbn [app]. by apply grown_pb.
    + do 4 eexists. split; [done|]. rewrite zlen_app in Ht. split; [split; [done|split; [done|lia]]|]. split; [cbn; lia|]. by split.
Qed.

Lemma does_write x bs y z pre d h : zlen y = zlen bs ->
  does (write (zlen x) bs) pre (x ++ y ++ z) d h (fun pre' rest' d' => pre' = pre /\ d' = d /\ rest' = x ++ bs ++ z).
Proof.
  intros Hy. eapply does_pure; [|done]. unfold write. cbn [pb p_buffer p_offset]. rewrite <- zlen_app, (app_assoc pre x), (blit_app (pre ++ x) y z bs) by done.
  cbn [mbind res_bind]. rewrite <- !app_assoc. unfold pb, set_memory. cbn. do 3 f_equal. by rewrite !zlen_app, Hy.
Qed.

(** Room for [bs] at [i]. *)
Lemma split_room (rest : list Z) i k : 0 <= i -> 0 <= k -> i + k <= zlen rest -> exists x y z, rest = x ++ y ++ z /\ zlen x = i /\ zlen y = k.
Proof.
  intros Hi Hk Hr. destruct (split_at rest i) as (x & r & -> & Hx); [lia|]. rewrite zlen_app in Hr. destruct (split_at r k) as (y & z & -> & Hy); [lia|]. by exists x, y, z.
Qed.

Lemma does_advance x y pre d h k : k = zlen x -> does (advance k) pre (x ++ y) d h (fun pre' rest' d' => pre' = pre ++ x /\ d' = d /\ rest' = y).
Proof. intros ->. eapply does_pure; [|done]. unfold advance, set_p_offset, pb. cbn. rewrite <- (zlen_app pre x), <- app_assoc. done. Qed.

Lemma does_deepen k pre rest d h : does (deepen k) pre rest d h (fun pre' rest' d' => pre' = pre /\ d' = d + k /\ rest' = rest).
Proof. by eapply does_pure. Qed.

Lemma does_nothing pre rest d h : does nothing pre rest d h (fun pre' rest' d' => pre' = pre /\ d' = d /\ rest' = rest).
Proof. by eapply does_pure. Qed.

Lemma does_update x y pre d h : no_nul x -> does update_offset pre (x ++ 0 :: y) d h (fun pre' rest' d' => pre' = pre ++ x /\ d' = d /\ rest' = 0 :: y).
Proof.
  intros Hx. eapply does_pure; [|done]. unfold update_offset. cbn [pb p_buffer p_offset].
  replace (Z.to_nat (zlen pre)) with (length pre) by (unfold zlen; lia). rewrite drop_app_length, strlen_app by done. cbn [mbind res_bind]. unfold set_p_offset, pb. cbn.
  rewrite <- (zlen_app pre x), <- app_assoc. done.
Qed.

(** Room is made, [bs] is written, and it goes on. *)
Lemma does_put k bs g pre rest d h Q : 0 <= k -> 0 < zlen rest -> zlen bs <= k + 1 -> zlen pre + k + 1 <= size ->
  (forall z h', k + 1 <= zlen bs + zlen z -> does g pre (bs ++ z) d h' Q) ->
  does (seq (ensure k) (seq (write 0 bs) g)) pre rest d h Q.
Proof.
  intros Hk Hr Hb Hs Hg. eapply does_seq; [by apply does_ensure|]. intros pre' rest' d' h' (-> & -> & Hr').
  destruct (split_room rest' 0 (zlen bs)) as (x & y & z & -> & Hx & Hy); [lia|apply zlen_nonneg|lia|].
  apply zlen_zero in Hx as ->. rewrite !zlen_app in Hr'. change (zlen (@nil Z)) with 0 in Hr'.
  eapply does_seq; [by apply (does_write [] bs)|]. intros pre' rest' d' h'' (-> & -> & ->). apply Hg. lia.
Qed.

(** The last store of a text. *)
Lemma does_put_last k bs pre rest d h : 0 <= k -> 0 < zlen rest -> zlen bs <= k + 1 -> zlen pre + k + 1 <= size ->
  does (seq (ensure k) (write 0 bs)) pre rest d h (fun pre' rest' d' => pre' = pre /\ d' = d /\ exists z, rest' = bs ++ z).
Proof.
  intros Hk Hr Hb Hs. eapply does_seq; [by apply does_ensure|]. intros pre' rest' d' h' (-> & -> & Hr').
  destruct (split_room rest' 0 (zlen bs)) as (x & y & z & -> & Hx & Hy); [lia|apply zlen_nonneg|lia|].
  apply zlen_zero in Hx as ->. eapply does_impl; [by apply (does_write [] bs)|]. intros ? ? ? (-> & -> & ->). repeat split. by exists z.
Qed.

(** [T] is printed: the offset is somewhere in it, and a NUL stands behind it. *)
Definition printed (T pre : list Z) (d : Z) (pre' rest' : list Z) (d' : Z) : Prop :=
  exists x y r, T = x ++ y /\ pre' = pre ++ x /\ rest' = y ++ 0 :: r /\ no_nul y /\ d' = d.

Lemma printed_update f T pre rest d h g Q : does f pre rest d h (printed T pre d) ->
  (forall r h', does g (pre ++ T) (0 :: r) d h' Q) -> does (seq f (seq update_offset g)) pre rest d h Q.
Proof.
  intros Hf Hg. eapply does_seq; [exact Hf|]. intros pre' rest' d' h' (x & y & r & -> & -> & -> & Hy & ->).
  eapply does_seq; [by apply does_update|]. intros ? ? ? h'' (-> & -> & ->). rewrite <- app_assoc. apply Hg.
Qed.

(** ** Strings *)

Lemma esc_length c : zlen (esc c) = 1 + extra c.
Proof.
  unfold esc, extra, needs_escape, escape_letter, u_code.
  destruct (Z.eqb_spec c 34) as [->|]; [done|]. destruct (Z.eqb_spec c 92) as [->|]; [done|]. cbn [negb].
  destruct (Z.eqb_spec c 8) as [->|]; [done|]. destruct (Z.eqb_spec c 12) as [->|]; [done|]. destruct (Z.eqb_spec c 10) as [->|]; [done|].
  destruct (Z.eqb_spec c 13) as [->|]; [done|]. destruct (Z.eqb_spec c 9) as [->|]; [done|]. rewrite !andb_true_r. cbn [orb].
  destruct (Z.ltb_spec 31 c), (Z.ltb_spec c 32); try lia; done.
Qed.

Lemma extra_nonneg c : 0 <= extra c.
Proof. unfold extra. destruct (needs_escape c); [lia|]. destruct (_ <? _); lia. Qed.

Lemma escaped_cons c s : escaped (c :: s) = esc c ++ escaped s.
Proof. done. Qed.

Lemma escaped_length s : zlen (escaped s) = zlen s + escape_characters s /\ 0 <= escape_characters s.
Proof.
  induction s as [|c s [IH1 IH2]]; [done|]. rewrite escaped_cons, zlen_app, zlen_cons, esc_length, IH1. cbn [escape_characters foldr].
  fold (escape_characters s). pose proof (extra_nonneg c). lia.
Qed.

Lemma escaped_id s : escape_characters s = 0 -> escaped s = s.
Proof.
  induction s as [|c s IH]; [done|]. cbn [escape_characters foldr]. fold (escape_characters s). intros H. pose proof (extra_nonneg c).
  pose proof (escaped_length s) as [_ ?]. rewrite escaped_cons, IH by lia. f_equal. pose proof (esc_length c) as L. unfold esc in *.
  destruct (_ && _); [done|]. destruct (escape_letter c); unfold zlen, u_code in L; cbn in L; lia.
Qed.

(** A store behind [x], and it goes on. *)
Lemma does_store bs g x w pre d h Q i : i = zlen x -> zlen bs <= zlen w ->
  (forall z h', zlen bs + zlen z = zlen w -> does g pre (x ++ bs ++ z) d h' Q) -> does (seq (write i bs) g) pre (x ++ w) d h Q.
Proof.
  intros -> Hw Hg. destruct (split_room w 0 (zlen bs)) as (e & y & z & -> & He & Hy); [lia|apply zlen_nonneg|lia|].
  apply zlen_zero in He as ->. cbn [app] in *. eapply does_seq; [by apply does_write|]. intros ? ? ? h' (-> & -> & ->). apply Hg. rewrite zlen_app. lia.
Qed.

Definition escaped_at (s x : list Z) (room : Z) (pre : list Z) (d : Z) (pre' rest' : list Z) (d' : Z) : Prop :=
  pre' = pre /\ d' = d /\ exists w', rest' = x ++ escaped s ++ w' /\ zlen w' = room - zlen (escaped s).

Lemma escaped_at_cons c s x room pre d pre' rest' d' : escaped_at s (x ++ esc c) (room - zlen (esc c)) pre d pre' rest' d' ->
  escaped_at (c :: s) x room pre d pre' rest' d'.
Proof.
  intros (-> & -> & w & -> & Hw). split; [done|]. split; [done|]. exists w. rewrite escaped_cons, zlen_app, <- !app_assoc. split; [done|lia].
Qed.

Lemma put_escaped_ok s : forall x w pre d h i, i = zlen x -> zlen (escaped s) + 1 <= zlen w ->
  does (put_escaped s i) pre (x ++ w) d h (escaped_at s x (zlen w) pre d).
Proof.
  induction s as [|c s IH]; intros x w pre d h i -> Hw; cbn [put_escaped].
  { eapply does_impl; [apply does_nothing|]. intros ? ? ? (-> & -> & ->). repeat split. exists w. split; [done|]. change (zlen (escaped [])) with 0. lia. }
  rewrite escaped_cons, zlen_app in Hw. pose proof (zlen_nonneg (escaped s)). pose proof (escaped_at_cons c s x (zlen w) pre d) as Hc. unfold esc in Hw, Hc.
  destruct (_ && _).
  - apply does_store; [done|change (zlen [c]) with 1 in *; lia|]. intros z h' Hz. rewrite app_assoc. eapply does_impl; [apply IH|].
    + by rewrite zlen_app.
    + lia.
    + intros ? ? ? H'. apply Hc. replace (zlen w - zlen [c]) with (zlen z) by lia. done.
  - apply does_store; [done|destruct (escape_letter c) as [l|]; [change (zlen [92; l]) with 2 in Hw|change (zlen (92 :: u_code c)) with 6 in Hw]; change (zlen [92]) with 1; lia|].
    intros z h' Hz. change (zlen [92]) with 1 in Hz. rewrite app_assoc. assert (Hx : zlen (x ++ [92]) = zlen x + 1) by (rewrite zlen_app; done).
    destruct (escape_letter c) as [l|].
    + change (zlen [92; l]) with 2 in *. apply does_store; [done|change (zlen [l]) with 1; lia|]. intros z' h'' Hz'. change (zlen [l]) with 1 in Hz'.
      rewrite app_assoc. eapply does_impl; [apply IH; [rewrite zlen_app, Hx; change (zlen [l]) with 1; lia|lia]|].
      intros ? ? ? H'. apply Hc. replace (zlen w - 2) with (zlen z') by lia. by rewrite <- app_assoc in H'.
    + change (zlen (92 :: u_code c)) with 6 in *. apply does_store; [done|change (zlen (u_code c ++ [0])) with 6; lia|]. intros z' h'' Hz'.
      change (zlen (u_code c ++ [0])) with 6 in Hz'.
      replace ((x ++ [92]) ++ (u_code c ++ [0]) ++ z') with ((x ++ 92 :: u_code c) ++ 0 :: z') by (rewrite <- !app_assoc; done).
      eapply does_impl; [apply IH; [rewrite zlen_app; change (zlen (92 :: u_code c)) with 6; lia|rewrite zlen_cons; lia]|].
      intros ? ? ? H'. apply Hc. replace (zlen w - 6) with (zlen (0 :: z')) by (rewrite zlen_cons; lia). done.
Qed.

Lemma quoted_length s : zlen (quoted (Some s)) = zlen s + escape_characters s + 2.
Proof. unfold quoted. rewrite zlen_cons, zlen_app, (proj1 (escaped_length s)). change (zlen [34]) with 1. lia. Qed.

Lemma hex_digit_pos d : 0 <= d -> 0 < hex_digit d.
Proof. unfold hex_digit. destruct (_ <? _); lia. Qed.

Lemma quoted_no_nul v : text_ok v = true -> no_nul (quoted v).
Proof.
  destruct v as [s|]; [|by repeat constructor]. cbn [text_ok quoted]. intros H. apply Forall_cons. split; [done|]. apply Forall_app. split; [|by repeat constructor].
  induction s as [|c s IH]; [constructor|]. cbn [forallb] in H. apply andb_true_iff in H as [Hc H]. rewrite escaped_cons. apply Forall_app. split; [|by apply IH].
  apply andb_true_iff in Hc as [Hc _]. apply Z.ltb_lt in Hc. unfold esc. destruct (_ && _); [repeat constructor; lia|].
  unfold escape_letter. destruct (c =? 92); [by repeat constructor|]. destruct (c =? 34); [by repeat constructor|]. destruct (c =? 8); [by repeat constructor|].
  destruct (c =? 12); [by repeat constructor|]. destruct (c =? 10); [by repeat constructor|]. destruct (c =? 13); [by repeat constructor|]. destruct (c =? 9); [by repeat constructor|].
  pose proof (hex_digit_pos (c / 16) ltac:(lia_div)). pose proof (hex_digit_pos (c mod 16) ltac:(lia_div)).
  unfold u_code. repeat constructor; lia.
Qed.

Lemma print_string_ok v pre rest d h : text_ok v = true -> 0 < zlen rest -> zlen pre + zlen (quoted v) + 2 <= size ->
  does (print_string_ptr v) pre rest d h (printed (quoted v) pre d).
Proof.
  intros Hv Hr Hs. assert (Hdone : forall r, printed (quoted v) pre d pre (quoted v ++ 0 :: r) d).
  { intros r. exists [], (quoted v), r. rewrite app_nil_r. repeat split. by apply quoted_no_nul. }
  destruct v as [s|]; cbn [print_string_ptr].
  - rewrite quoted_length in Hs. pose proof (escaped_length s) as [Hl He]. pose proof (zlen_nonneg s). set (ol := zlen s + escape_characters s) in *.
    eapply does_seq; [apply does_ensure; [lia|done|lia]|]. intros pre' rest' d' h' (-> & -> & Hr').
    assert (Hbody : does (if escape_characters s =? 0 then seq (write 0 [34]) (write 1 s) else seq (write 0 [34]) (put_escaped s 1)) pre rest' d h'
      (fun pre' rest2 d' => pre' = pre /\ d' = d /\ exists z, rest2 = (34 :: escaped s) ++ z /\ zlen z = zlen rest' - 1 - ol)).
    { destruct (Z.eqb_spec (escape_characters s) 0) as [E|].
      - apply (does_store [34] _ []); [done|change (zlen [34]) with 1; lia|]. intros z h2 Hz. change (zlen [34]) with 1 in Hz.
        destruct (split_room z 0 (zlen s)) as (e & y & w & -> & He' & Hy); [lia|done|lia|]. apply zlen_zero in He' as ->.
        eapply does_impl; [by apply (does_write [34] s y w)|]. intros ? ? ? (-> & -> & ->). repeat split. exists w. rewrite escaped_id by done. split; [done|].
        rewrite !zlen_app in Hz. change (zlen (@nil Z)) with 0 in Hz. lia.
      - apply (does_store [34] _ []); [done|change (zlen [34]) with 1; lia|]. intros z h2 Hz. change (zlen [34]) with 1 in Hz.
        eapply does_impl; [by apply (put_escaped_ok s [34]); [|lia]|]. intros ? ? ? (-> & -> & w & -> & Hw). repeat split. exists w. split; [done|lia]. }
    eapply does_seq; [exact Hbody|]. intros ? ? ? h2 (-> & -> & z & -> & Hz).
    assert (Hlx : zlen (34 :: escaped s) = ol + 1) by (rewrite zlen_cons; lia).
    apply does_store; [lia|change (zlen [34]) with 1; lia|]. intros z' h3 Hz'. change (zlen [34]) with 1 in Hz'. rewrite app_assoc.
    destruct (split_room z' 0 1) as (e & y & w & -> & He' & Hy); [lia|lia|lia|]. apply zlen_zero in He' as ->. cbn [app].
    replace (ol + 2) with (zlen ((34 :: escaped s) ++ [34])) by (rewrite zlen_app; change (zlen [34]) with 1; lia).
    eapply does_impl; [by apply (does_write ((34 :: escaped s) ++ [34]) [0] y w)|]. intros ? ? ? (-> & -> & ->). apply (Hdone w).
  - eapply does_impl; [apply does_put_last; [lia|done|done|change (zlen (quoted None)) with 2 in Hs; lia]|]. intros ? ? ? (-> & -> & z & ->). apply (Hdone z).
Qed.

(** ** Numbers *)

Lemma print_number_ok item pre rest d h : convertible (valuedouble item) = true -> 0 < zlen rest ->
  zlen pre + zlen (number_txt (valuedouble item)) + 2 <= size ->
  does (print_number item) pre rest d h (printed (number_txt (valuedouble item)) pre d).
Proof.
  intros Hv Hr Hs. destruct (number_text_ok _ Hv) as (t & Ht & Hl & Hn & _). unfold number_txt in *. rewrite Ht in *.
  assert (Hbuf : exists nb, blit (replicate 26 (fill h)) 0 (t ++ [0]) = Ok (t ++ nb)).
  { exists ([0] ++ drop (length (t ++ [0])) (replicate 26 (fill h))).
    rewrite (blit_rest [] (replicate 26 (fill h)) (t ++ [0])) by (done || (rewrite zlen_replicate, zlen_app; change (zlen [0]) with 1; lia)). cbn [app]. by rewrite <- app_assoc. }
  destruct Hbuf as [nb Hnb].
  assert (Hbody : does (seq (ensure (zlen t + 1)) (seq (write 0 t) (seq (write (zlen t) [0]) (advance (zlen t))))) pre rest d h (printed t pre d)).
  { apply does_put; [lia|done|lia|lia|]. intros z h' Hz. apply does_store; [done|change (zlen [0]) with 1; lia|]. intros z' h2 Hz'.
    eapply does_impl; [by apply does_advance|]. intros ? ? ? (-> & -> & ->). exists t, [], z'. rewrite app_nil_r. repeat split. constructor. }
  destruct Hbody as (ok & p' & E & H). exists ok, p'. split; [|exact H]. unfold print_number. rewrite Ht. cbn [mbind res_bind pb p_hooks].
  rewrite Hnb. cbn [mbind res_bind]. destruct (Z.ltb_spec (zlen t) 0); [lia|]. destruct (Z.ltb_spec 25 (zlen t)); [lia|]. cbn [orb].
  rewrite (slice_app [] t nb) by done. exact E.
Qed.

(** ** Arrays and objects *)

Lemma is_nul_behind r : 0 < zlen (0 :: r).
Proof. rewrite zlen_cons. pose proof (zlen_nonneg r). lia. Qed.
#[local] Hint Resolve is_nul_behind : ks.

(** [T] is printed, with the offset behind it. *)
Definition passed (T pre : list Z) (d : Z) (pre' rest' : list Z) (d' : Z) : Prop := pre' = pre ++ T /\ d' = d /\ 0 < zlen rest'.

Lemma passed_nil pre rest d h : 0 < zlen rest -> does nothing pre rest d h (passed [] pre d).
Proof. intros Hr. eapply does_impl; [apply does_nothing|]. intros ? ? ? (-> & -> & ->). split; [by rewrite app_nil_r|done]. Qed.

(** Room for [T] and [k] more, [T] with a tail [e] is written, the offset moves behind [T]. *)
Lemma does_pass k T e pre rest d h n : 0 <= k -> 0 < zlen rest -> zlen T <= k -> zlen (T ++ e) <= k + 1 -> zlen pre + k + 1 <= size -> n = zlen T ->
  does (seq (ensure k) (seq (write 0 (T ++ e)) (advance n))) pre rest d h (passed T pre d).
Proof.
  intros Hk Hr HT He Hs ->. apply does_put; [done|done|done|done|]. intros z h' Hz. rewrite <- app_assoc.
  eapply does_impl; [by apply does_advance|]. intros ? ? ? (-> & -> & ->). split; [done|]. split; [done|]. rewrite !zlen_app in *. lia.
Qed.

Lemma does_pass_all k T pre rest d h n : 0 <= k -> 0 < zlen rest -> zlen T <= k -> zlen pre + k + 1 <= size -> n = zlen T ->
  does (seq (ensure k) (seq (write 0 T) (advance n))) pre rest d h (passed T pre d).
Proof.
  intros Hk Hr HT Hs Hn. pose proof (does_pass k T [] pre rest d h n) as P. rewrite app_nil_r in P. apply P; lia.
Qed.

Lemma separate_ok (last : bool) pre rest d h : 0 < zlen rest -> let T := if last then [] else 44 :: f_char fmt 32 in zlen pre + zlen T + 2 <= size ->
  does (separate last) pre rest d h (passed T pre d).
Proof.
  intros Hr T Hs. destruct last; [by apply passed_nil|]. unfold does, separate, if_format. cbn [pb p_format].
  set (n := if fmt then 2 else 1). assert (En : n = zlen T) by (subst n T; unfold f_char; by destruct fmt).
  change (44 :: if fmt then [32] else []) with T. pose proof (zlen_nonneg T).
  apply does_put; [lia|done|lia|lia|]. intros z h2 Hz. apply does_store; [done|change (zlen [0]) with 1; lia|]. intros z' h3 Hz'.
  eapply does_impl; [by apply does_advance|]. intros ? ? ? (-> & -> & ->). split; [done|]. split; [done|apply is_nul_behind].
Qed.

Lemma indent_ok pre rest d h : 0 <= d -> 0 < zlen rest -> zlen pre + zlen (f_tabs fmt d) + 2 <= size ->
  does indent pre rest d h (passed (f_tabs fmt d) pre d).
Proof.
  intros Hd Hr Hs. unfold does, indent, if_format, f_tabs in *. cbn [pb p_format p_depth]. destruct fmt; [|by apply passed_nil].
  assert (Ht : zlen (tabs d) = d) by (unfold tabs; rewrite zlen_replicate; lia). 
  apply does_pass_all; lia.
Qed.

Lemma colon_ok pre rest d h : 0 < zlen rest -> zlen pre + zlen (58 :: f_char fmt 9) + 2 <= size ->
  does colon pre rest d h (passed (58 :: f_char fmt 9) pre d).
Proof.
  intros Hr Hs. unfold does, colon, if_format. cbn [pb p_format]. change (if fmt then [9] else []) with (f_char fmt 9).
  set (n := if fmt then 2 else 1). assert (En : n = zlen (58 :: f_char fmt 9)) by (subst n; unfold f_char; by destruct fmt).
  pose proof (zlen_nonneg (58 :: f_char fmt 9)). apply does_pass_all; lia.
Qed.

Lemma finish_does (last : bool) pre rest d h : 0 < zlen rest -> let T := (if last then [] else [44]) ++ f_char fmt 10 in zlen pre + zlen T + 2 <= size ->
  does (finish last) pre rest d h (passed T pre d).
Proof.
  intros Hr T Hs. unfold does, finish, if_format. cbn [pb p_format].
  set (n := (if fmt then 1 else 0) + _). assert (En : n = zlen T) by (subst n T; unfold f_char; by destruct fmt, last).
  replace ((if last then [] else [44]) ++ (if fmt then [10] else []) ++ [0]) with (T ++ [0]) by (subst T; unfold f_char; by rewrite <- app_assoc).
  pose proof (zlen_nonneg T). apply does_pass; [lia|done|lia|rewrite zlen_app; change (zlen [0]) with 1; lia|lia|done].
Qed.

Lemma close_ok pre rest d h : 1 <= d -> 0 < zlen rest -> let T := f_tabs fmt (d - 1) ++ [125] in zlen pre + zlen T + 2 <= size ->
  does close_object pre rest d h (printed T pre d).
Proof.
  intros Hd Hr T Hs. unfold does, close_object, if_format. cbn [pb p_format p_depth].
  set (k := if fmt then d + 1 else 2). assert (Ek : k = zlen T + 1).
  { subst k T. unfold f_tabs. rewrite zlen_app. change (zlen [125]) with 1. destruct fmt; [unfold tabs; rewrite zlen_replicate; lia|done]. }
  replace ((if fmt then tabs (d - 1) else []) ++ [125; 0]) with (T ++ [0]) by (subst T; unfold f_tabs; rewrite <- app_assoc; done).
  pose proof (zlen_nonneg T). eapply does_impl; [apply does_put_last; [lia|done|rewrite zlen_app; change (zlen [0]) with 1; lia|lia]|].
  intros ? ? ? (-> & -> & z & ->). exists [], T, z. rewrite app_nil_r, <- app_assoc. repeat split.
  subst T. apply Forall_app. split; [|by repeat constructor]. unfold f_tabs, tabs. destruct fmt; [|constructor]. by apply Forall_replicate.
Qed.

Section Loops.
Context (pv : kJSON -> step) (tx : kJSON -> list Z) (d : Z) (Hd : 0 <= d).

(** What is known of the elements. *)
Definition element_ok (j : kJSON) : Prop := text_ok (string j) = true /\ forall pre rest h, 0 < zlen rest -> zlen pre + zlen (tx j) + 2 <= size ->
  does (pv j) pre rest d h (printed (tx j) pre d).

Lemma print_elements_ok c : Forall element_ok c -> forall pre rest h, 0 < zlen rest -> zlen pre + zlen (text_elements fmt tx c) + 3 <= size ->
  does (print_elements pv c) pre rest d h (passed (text_elements fmt tx c) pre d).
Proof.
  induction 1 as [|j c [_ Hj] Hc IH]; intros pre rest h Hr Hs; cbn [print_elements text_elements] in *; [by apply passed_nil|].
  set (sep := if is_last c then _ else _) in *. rewrite !zlen_app in Hs.
  pose proof (zlen_nonneg sep). pose proof (zlen_nonneg (text_elements fmt tx c)).
  eapply printed_update; [apply Hj; [done|lia]|]. intros r h1.
  eapply does_seq; [apply separate_ok; [apply is_nul_behind|fold sep; rewrite zlen_app; lia]|]. intros ? ? ? h2 (-> & -> & Hr2). fold sep.
  eapply does_impl; [apply IH; [done|rewrite !zlen_app; lia]|]. intros ? ? ? (-> & -> & Hr3). split; [by rewrite <- !app_assoc|done].
Qed.

Lemma print_members_ok c : Forall element_ok c -> forall pre rest h, 0 < zlen rest -> zlen pre + zlen (text_members fmt tx d c) + 3 <= size ->
  does (print_members pv c) pre rest d h (passed (text_members fmt tx d c) pre d).
Proof.
  induction 1 as [|j c [Hn Hj] Hc IH]; intros pre rest h Hr Hs; cbn [print_members text_members] in *; [by apply passed_nil|].
  set (com := (if is_last c then _ else _) ++ f_char fmt 10) in *. set (col := 58 :: f_char fmt 9) in *. rewrite !zlen_app in Hs.
  pose proof (zlen_nonneg com). pose proof (zlen_nonneg col). pose proof (zlen_nonneg (f_tabs fmt d)). pose proof (zlen_nonneg (quoted (string j))).
  pose proof (zlen_nonneg (tx j)). pose proof (zlen_nonneg (text_members fmt tx d c)).
  eapply does_seq; [apply indent_ok; [done|done|lia]|]. intros ? ? ? h1 (-> & -> & Hr1).
  eapply printed_update; [apply print_string_ok; [done|done|rewrite zlen_app; lia]|]. intros r h2.
  eapply does_seq; [apply colon_ok; [apply is_nul_behind|fold col; rewrite !zlen_app; lia]|]. intros ? ? ? h3 (-> & -> & Hr3). fold col.
  eapply printed_update; [apply Hj; [done|rewrite !zlen_app; lia]|]. intros r' h4.
  eapply does_seq; [apply finish_does; [apply is_nul_behind|fold com; rewrite !zlen_app; lia]|]. intros ? ? ? h5 (-> & -> & Hr5). fold com.
  eapply does_impl; [apply IH; [done|rewrite !zlen_app; lia]|]. intros ? ? ? (-> & -> & Hr6). split; [by rewrite <- !app_assoc|done].
Qed.

End Loops.

(** ** Values *)

Lemma literal_ok k lit pre rest d h : 0 < zlen rest -> no_nul lit -> k = zlen lit + 1 -> zlen pre + zlen lit + 2 <= size ->
  does (seq (ensure k) (write 0 (lit ++ [0]))) pre rest d h (printed lit pre d).
Proof.
  intros Hr Hn -> Hs. pose proof (zlen_nonneg lit). eapply does_impl; [apply does_put_last; [lia|done|rewrite zlen_app; change (zlen [0]) with 1; lia|lia]|].
  intros ? ? ? (-> & -> & z & ->). exists [], lit, z. rewrite app_nil_r, <- app_assoc. by repeat split.
Qed.

Lemma fields_types t vs vi vd c : fields_ok t vs vi vd c = true -> In t [4; 1; 2; 8; 16; 32; 64].
Proof.
  unfold fields_ok, KS_JSON_TYPE_STRING, KS_JSON_TYPE_NUMBER, KS_JSON_TYPE_OBJECT, KS_JSON_TYPE_ARRAY, KS_JSON_TYPE_FALSE, KS_JSON_TYPE_TRUE, KS_JSON_TYPE_NULL. intros Hf. cbn.
  destruct (Z.eqb_spec t 16); [auto 9|]. destruct (Z.eqb_spec t 8); [auto 9|]. destruct (Z.eqb_spec t 64); [auto 9|]. destruct (Z.eqb_spec t 32); [auto 9|].
  apply andb_true_iff in Hf as [Hf _]. rewrite !orb_true_iff, !Z.eqb_eq in Hf. destruct Hf as [[?|?]|?]; auto 9.
Qed.
Lemma fields_land t vs vi vd c : fields_ok t vs vi vd c = true -> Z.land t 255 = t.
Proof. intros H%fields_types. by repeat destruct H as [<-|H]. Qed.
Lemma fields_raw t vs vi vd c : fields_ok t vs vi vd c = true -> t <> kJSON_Raw.
Proof. intros H%fields_types. by repeat destruct H as [<-|H]. Qed.

Lemma print_value_ok j : forall d, well_typed j = true -> clean j = true -> numbers_ok j = true -> 0 <= d ->
  forall pre rest h, 0 < zlen rest -> zlen pre + zlen (text fmt d j) + 2 <= size -> does (print_value j) pre rest d h (printed (text fmt d j) pre d).
Proof.
  induction j as [t vs vi vd s c IH] using kJSON_ind'. intros d Hw Hc Hn Hd pre rest h Hr Hs.
  apply well_typed_item in Hw as [Hf Hw]. cbn [clean] in Hc. apply andb_true_iff in Hc as [Hc Hcc]. apply andb_true_iff in Hc as [Hc Hdbl].
  apply andb_true_iff in Hc as [Hvs Hstr]. cbn [numbers_ok] in Hn. apply andb_true_iff in Hn as [Hnum Hnc].
  rewrite forallb_forall in Hcc, Hnc. rewrite Forall_forall in Hw, IH.
  assert (Hel : Forall (element_ok print_value (text fmt (d + 1)) (d + 1)) c).
  { apply Forall_forall. intros j Hj. pose proof (proj1 (list_elem_of_In c j) Hj) as Hj'. split.
    - specialize (Hcc j Hj'). destruct j. cbn [clean] in Hcc. rewrite !andb_true_iff in Hcc. apply Hcc.
    - intros pre' rest' h' Hr' Hs'. apply (IH j Hj); auto; lia. }
  clear IH Hw Hcc Hnc. pose proof (zlen_nonneg pre). cbn [print_value text] in *. pose proof (fields_land _ _ _ _ _ Hf) as Hland. rewrite Hland. clear Hland.
  destruct (Z.eqb_spec t KS_JSON_TYPE_NULL) as [->|N4]; [by apply literal_ok; [|repeat constructor| |]|].
  destruct (Z.eqb_spec t KS_JSON_TYPE_FALSE) as [->|N1]; [by apply literal_ok; [|repeat constructor| |]|].
  destruct (Z.eqb_spec t KS_JSON_TYPE_TRUE) as [->|N2]; [by apply literal_ok; [|repeat constructor| |]|].
  destruct (Z.eqb_spec t KS_JSON_TYPE_NUMBER) as [->|N8]; [by apply print_number_ok|].
  pose proof (fields_raw _ _ _ _ _ Hf) as Nr. destruct (Z.eqb_spec t kJSON_Raw); [done|]. clear Nr.
  destruct (Z.eqb_spec t KS_JSON_TYPE_STRING) as [->|N16]; [by apply print_string_ok|].
  destruct (Z.eqb_spec t KS_JSON_TYPE_ARRAY) as [->|N32].
  - rewrite !zlen_app in Hs. change (zlen [91]) with 1 in Hs. change (zlen [93]) with 1 in Hs. set (T := text_elements fmt _ c) in *. pose proof (zlen_nonneg T).
    unfold print_array. cbn [child]. apply does_put; [lia|done|done|lia|]. intros z h1 Hz.
    change (zlen [91]) with 1 in Hz. eapply does_seq; [by apply (does_advance [91])|]. intros ? ? ? h2 (-> & -> & ->).
    eapply does_seq; [apply does_deepen|]. intros ? ? ? h3 (-> & -> & ->).
    eapply does_seq; [apply (print_elements_ok _ (text fmt (d + 1)) (d + 1) c Hel); [lia|fold T; rewrite zlen_app; change (zlen [91]) with 1; lia]|]. fold T.
    intros ? ? ? h4 (-> & -> & Hr4). apply does_put; [lia|done|done|rewrite !zlen_app; change (zlen [91]) with 1; lia|]. intros z2 h5 Hz2.
    eapply does_impl; [apply does_deepen|]. intros ? ? ? (-> & -> & ->). exists ([91] ++ T), [93], z2. rewrite <- !app_assoc. repeat split; [by repeat constructor|lia].
  - destruct (Z.eqb_spec t KS_JSON_TYPE_OBJECT) as [->|N64].
    2: { exfalso. unfold fields_ok in Hf. rewrite (proj2 (Z.eqb_neq _ _) N16), (proj2 (Z.eqb_neq _ _) N8), (proj2 (Z.eqb_neq _ _) N64), (proj2 (Z.eqb_neq _ _) N32),
         (proj2 (Z.eqb_neq _ _) N1), (proj2 (Z.eqb_neq _ _) N2), (proj2 (Z.eqb_neq _ _) N4) in Hf. done. }
    rewrite !zlen_app in Hs. set (op := 123 :: f_char fmt 10) in *. set (T := text_members fmt _ _ c) in *. pose proof (zlen_nonneg T).
    assert (Hop : 1 <= zlen op) by (subst op; rewrite zlen_cons; pose proof (zlen_nonneg (f_char fmt 10)); lia).
    change (zlen [125]) with 1 in Hs. pose proof (zlen_nonneg (f_tabs fmt d)).
    unfold does, print_object, if_format. cbn [pb p_format child]. clear n. set (n := if fmt then 2 else 1).
    assert (En : n = zlen op) by (subst n op; unfold f_char; by destruct fmt). change (123 :: if fmt then [10] else []) with op.
    apply does_put; [lia|done|lia|lia|]. intros z h1 Hz.
    eapply does_seq; [apply does_deepen|]. intros ? ? ? h3 (-> & -> & ->).
    eapply does_seq; [by apply does_advance|]. intros ? ? ? h2 (-> & -> & ->).
    eapply does_seq; [apply (print_members_ok _ (text fmt (d + 1)) (d + 1) ltac:(lia) c Hel); [lia|fold T; rewrite zlen_app; lia]|]. fold T.
    intros ? ? ? h4 (-> & -> & Hr4). pose proof (close_ok ((pre ++ op) ++ T) rest' (d + 1) h4) as Hcl. cbn zeta in Hcl.
    replace (d + 1 - 1) with d in Hcl by lia. rewrite !zlen_app in Hcl. change (zlen [125]) with 1 in Hcl.
    eapply does_seq; [apply Hcl; [lia|done|lia]|]. intros ? ? ? h5 (x & y & r & Exy & -> & -> & Hy & ->).
    eapply does_impl; [apply does_deepen|]. intros ? ? ? (-> & -> & ->). exists (op ++ T ++ x), y, r. rewrite Exy, <- !app_assoc. repeat split; [done|lia].
Qed.

End Runs.

(** ** The calls *)

(** From an empty buffer of [m]. *)
Lemma print_item_ok fmt na j m h : well_typed j = true -> clean j = true -> numbers_ok j = true -> 0 < zlen m ->
  exists ok p', print_item (Some j) (PBuf (Some m) (zlen m) 0 0 na fmt h) = Ok (ok, p') /\
    if ok : bool then exists pre' rest' d' h', p' = pb fmt na pre' rest' d' h' /\ printed (text fmt 0 j) [] 0 pre' rest' d' /\ kept h h'
    else live (p_hooks p') - has (p_buffer p') = live h - 1 /\ (na = true \/ refused h (p_hooks p') \/ INT_MAX < zlen (text fmt 0 j) + 2).
Proof. intros Hw Hc Hn Hm. exact (print_value_ok fmt na (zlen (text fmt 0 j) + 2) j 0 Hw Hc Hn ltac:(lia) [] m h Hm ltac:(change (zlen (@nil Z)) with 0; lia)). Qed.

(** The room [allocate] makes. *)
Lemma allocate_kept n h : exists r h', allocate n h = (r, h') /\ reallocate h' = reallocate h /\ used h h' /\
  ((r = None /\ live h' = live h /\ refused h h') \/ (r = Some (replicate (Z.to_nat n) (fill h)) /\ live h' = live h + 1)).
Proof.
  destruct (allocate n h) as [r h'] eqn:Ea. destruct (allocate_used _ _ _ _ Ea) as (Hu & Hr & Hre). exists r, h'. do 3 (split; [done|]).
  unfold allocate in Ea. destruct (serve h) as [|[] l] eqn:E; injection Ea as <- <-; auto.
Qed.

Lemma free_lost p' l : live (p_hooks p') - has (p_buffer p') = l - 1 + 0 -> live (free_buffer p') = l - 1.
Proof. unfold free_buffer. destruct (p_buffer p'); cbn [has deallocate live]; lia. Qed.

(** The text in memory of its own size. *)
Lemma shrink_ok T r h : fst (realloc (T ++ 0 :: r) (zlen T + 1) h) = None /\ refused h (snd (realloc (T ++ 0 :: r) (zlen T + 1) h)) /\ live (snd (realloc (T ++ 0 :: r) (zlen T + 1) h)) = live h \/
  fst (realloc (T ++ 0 :: r) (zlen T + 1) h) = Some (T ++ [0]) /\ live (snd (realloc (T ++ 0 :: r) (zlen T + 1) h)) = live h.
Proof.
  assert (E : take (Z.to_nat (zlen T + 1)) (T ++ 0 :: r) ++ replicate (Z.to_nat (zlen T + 1 - zlen (T ++ 0 :: r))) (fill h) = T ++ [0]).
  { rewrite zlen_app, zlen_cons. pose proof (zlen_nonneg r). rewrite (Z2Nat.nonpos (_ - _)) by lia. cbn [replicate]. rewrite app_nil_r.
    change (0 :: r) with ([0] ++ r). rewrite app_assoc. apply take_app_length'. rewrite length_app. unfold zlen. cbn. lia. }
  unfold realloc. rewrite E. destruct (serve h) as [|[] l] eqn:Es; cbn [fst snd live]; auto.
  left. split; [done|]. split; [|done]. exists [false]. split; [by rewrite Es|by left].
Qed.

Lemma print_ok fmt j h : well_typed j = true -> clean j = true -> numbers_ok j = true ->
  exists r h', print (Some j) fmt h = Ok (r, h') /\
    match r with
    | Some m => m = text fmt 0 j ++ [0] /\ live h' = live h + 1
    | None => (refused h h' \/ INT_MAX < zlen (text fmt 0 j) + 2) /\ (live h' = live h \/ reallocate h = true /\ live h' = live h + 1)
    end.
Proof.
  intros Hw Hc Hn. unfold print. destruct (allocate_kept 256 h) as (r & h1 & -> & Hre & Hsv & [(-> & Hl & Hne)|[-> Hl]]); [exists None, h1; auto|].
  set (m := replicate _ _). assert (Hm : zlen m = 256) by (subst m; by rewrite zlen_replicate). change 256 with (Z.of_nat 256) in *. rewrite <- Hm.
  destruct (print_item_ok fmt false j m h1 Hw Hc Hn) as (ok & p' & -> & Hp); [lia|]. cbn [mbind res_bind]. set (T := text fmt 0 j) in *.
  destruct ok; cbn [negb].
  2: { destruct Hp as [Hp1 Hp2]. exists None, (free_buffer p'). split; [done|]. split; [|left; rewrite (free_lost _ (live h1)); lia].
       destruct Hp2 as [Hp2|[Hp2|Hp2]]; [done| |by right]. left. eapply refused_trans; [exact Hsv|]. unfold free_buffer. by destruct (p_buffer p'). }
  destruct Hp as (pre' & rest' & d' & h2 & -> & (x & y & rest & ET & -> & -> & Hy & ->) & (Hl2 & Hs2 & Hr2)). cbn [app] in *.
  destruct (does_update fmt false 0 y rest x 0 h2 Hy) as (ok & p' & Eu & Hu). rewrite Eu. cbn [mbind res_bind]. unfold update_offset, pb in Eu. cbn in Eu.
  destruct ok; [|res_inv; done]. destruct Hu as (? & ? & ? & h3 & -> & (-> & -> & ->) & (Hl3 & Hs3 & Hr3)). rewrite <- ET in *. cbn [pb p_buffer p_hooks p_offset p_length].
  destruct (reallocate h3) eqn:Er.
  - destruct (shrink_ok T rest h3) as [(E1 & E2 & E3)|[E1 E2]]; destruct (realloc _ _ _) as [r h4]; cbn [fst snd] in *; subst r; do 2 eexists; (split; [done|]).
    + split; [left; eapply refused_trans; [|exact E2]; eauto using used_trans|]. right. split; [congruence|lia].
    + split; [done|lia].
  - destruct (allocate_kept (zlen T + 1) h3) as (r & h4 & -> & _ & _ & [(-> & Hl4 & Hne)|[-> Hl4]]).
    { do 2 eexists. split; [done|]. split; [left; eapply refused_trans; [|exact Hne]; eauto using used_trans|]. left. cbn. lia. }
    rewrite Z.min_r by (rewrite zlen_app, zlen_cons; pose proof (zlen_nonneg rest); lia).
    change (T ++ 0 :: rest) with (T ++ [0] ++ rest). rewrite app_assoc. rewrite (slice_app [] (T ++ [0]) rest) by (done || by rewrite zlen_app). cbn [mbind res_bind].
    rewrite (blit_rest [] (replicate (Z.to_nat (zlen T + 1)) (fill h3)) (T ++ [0])) by (done || (rewrite zlen_app, zlen_replicate; change (zlen [0]) with 1; pose proof (zlen_nonneg T); lia)).
    cbn [mbind res_bind app]. rewrite drop_ge by (rewrite length_replicate, length_app; unfold zlen; cbn; lia). rewrite app_nil_r.
    rewrite st_app_mid by done. cbn [mbind res_bind]. do 2 eexists. split; [done|]. split; [done|]. cbn. lia.
Qed.

(** C39: the printer implements [text]: for a well-typed value with NUL-free strings,
    whose numbers are doubles that [long int] can hold when they are whole (of others,
    as 2^63, the conversion is undefined: [print_large_number]), whatever the
    allocator answers, with [realloc] or without, [ks_json_print] and
    [ks_json_print_unformatted] return without leaving a buffer either the formatted or unformatted text and its NUL
    in memory of exactly that size, or NULL; NULL only when the allocator refused one of
    the requests the call made, or the text needs more than [INT_MAX] bytes. One block
    more is live when there is a text; when there is none, no block more, except that a
    failed [realloc] at the end keeps the print buffer. *)
Theorem json_print_text (formatted : bool) j h : well_typed j = true -> clean j = true -> numbers_ok j = true ->
  exists r h', (if formatted then ks_json_print else ks_json_print_unformatted) (Some j) h = Ok (r, h') /\
    match r with
    | Some m => m = text formatted 0 j ++ [0] /\ live h' = live h + 1
    | None => (refused h h' \/ INT_MAX < zlen (text formatted 0 j) + 2) /\ (live h' = live h \/ reallocate h = true /\ live h' = live h + 1)
    end.
Proof. intros Hw Hc Hn. destruct (print_ok formatted j h Hw Hc Hn) as (r & h' & E & Hr). exists r, h'. by destruct formatted. Qed.

(** [{"k":[true,-2.5,"\u0001"]}]. *)
Lemma json_print_text_witness :
  let j := Item 64 None 0 zero None [Item 32 None 0 zero (Some [107]) [Item 2 None 1 zero None []; Item 8 None (-2) (Fin (-5) (-1)) None []; Item 16 (Some [1]) 0 zero None []]] in
  (exists h', ks_json_print_unformatted (Some j) (Hooks [] 170 0 false) =
     Ok (Some (bytes_of_string "{" ++ [34; 107; 34; 58] ++ bytes_of_string "[true,-2.500000," ++ [34] ++ bytes_of_string "\u0001" ++ [34] ++ bytes_of_string "]}" ++ [0]), h') /\ live h' = 1) /\
  (exists h', ks_json_print (Some j) (Hooks [false] 170 0 true) = Ok (None, h') /\ live h' = 0).
Proof.
  intros j. split.
  - destruct (json_print_text false j (Hooks [] 170 0 false)) as (r & h' & E & Hr); [reflexivity|reflexivity|reflexivity|]. exists h'.
    destruct r as [m|]; [|vm_compute in E; discriminate]. destruct Hr as [-> Hl]. split; [exact E|exact Hl].
  - destruct (json_print_text true j (Hooks [false] 170 0 true)) as (r & h' & E & Hr); [reflexivity|reflexivity|reflexivity|]. exists h'.
    vm_compute in E. injection E as <- <-. split; reflexivity.
Defined.

(** ** Where the printer does not do as it says *)

(** When the last [realloc], which gives back memory, fails, the print buffer is lost. *)
Lemma print_loses_buffer : ks_json_print (Some ks_json_create_null) (Hooks [true; false] 170 0 true) = Ok (None, Hooks [] 170 1 true).
Proof. vm_compute. reflexivity. Qed.

(** 2^63 is read, and printing it converts it to a [long int] that cannot hold it. *)
Lemma print_large_number : exists j, ks_json_create_number (Fin 4503599627370496 11) = Ok j /\ ks_json_print (Some j) (Hooks [] 170 0 true) = Err Overflow.
Proof. exists (Item 8 None 2147483647 (Fin 4503599627370496 11) None []). split; vm_compute; reflexivity. Qed.

(** 0.1 and 0.1000001 have the same text. *)
Lemma print_rounds : text false 0 (Item 8 None 0 (Fin 3602879701896397 (-55)) None []) = text false 0 (Item 8 None 0 (Fin 3602883304776099 (-55)) None []).
Proof. vm_compute. reflexivity. Qed.

(** Without [realloc], a prebuffer of no bytes is read. *)
Lemma print_buffered_empty : kJSON_PrintBuffered (Some ks_json_create_array) 0 false (Hooks [] 170 0 false) = Err OutOfBounds.
Proof. vm_compute. reflexivity. Qed.

End JsonPrint.
