(* ===== verification/JsonText.v ===== *)
(** JSON texts: what the printer (JsonPrint) writes, the parser (JsonParse) reads back. *)
From S2P Require Import Prelude Str Json JsonNum JsonParse JsonPrint.
Import Str Json JsonNum JsonParse JsonPrint.
Local Open Scope Z_scope.

Module JsonText.

(** ** What comes back *)

(** The value a text stands for, under the name it has in its object: elements of arrays lose their
    names, and [true] has the integer 1. *)
Fixpoint as_parsed (name : option (list Z)) (j : kJSON) : kJSON :=
  let '(Item t vs vi vd _ c) := j in
  if t =? KS_JSON_TYPE_STRING then Item t vs 0 zero name []
  else if t =? KS_JSON_TYPE_NUMBER then Item t None vi vd name []
  else if t =? KS_JSON_TYPE_ARRAY then Item t None 0 zero name (map (as_parsed None) c)
  else if t =? KS_JSON_TYPE_OBJECT then Item t None 0 zero name (map (fun j => as_parsed (string j) j) c)
  else Item t None (if t =? KS_JSON_TYPE_TRUE then 1 else 0) zero name [].

(** Numbers whose text says all of them, and how deeply arrays and objects are nested. *)
Fixpoint exact_numbers (j : kJSON) : bool :=
  let '(Item t _ _ vd _ c) := j in (negb (t =? KS_JSON_TYPE_NUMBER) || exact vd) && forallb exact_numbers c.
Fixpoint nesting (j : kJSON) : Z :=
  let '(Item t _ _ _ _ c) := j in
  if (t =? KS_JSON_TYPE_ARRAY) || (t =? KS_JSON_TYPE_OBJECT) then 1 + foldr (fun j n => Z.max (nesting j) n) 0 c else 0.

(** Equal up to the nesting of [++]. *)
Local Ltac app_norm := repeat first [rewrite <- app_assoc | progress cbn [app]]; reflexivity.

(** ** Reading a known text *)

Lemma ld_mid (pre : list Z) x post o : o = zlen pre -> ld (pre ++ x :: post) o = Ok x.
Proof. intros ->. by apply ld_app_mid. Qed.

Lemma ld_here (pre : list Z) x post : ld (pre ++ x :: post) (zlen pre) = Ok x.
Proof. by apply ld_mid. Qed.

(** The buffer at the end of [pre], and one behind [T]. *)
Definition at_ (m pre : list Z) (L d : Z) (h : internal_hooks) : parse_buffer := Buf m L (zlen pre) d h.

Lemma at_byte pre x post L d h : buffer_at (at_ (pre ++ x :: post) pre L d h) 0 = Ok x.
Proof. unfold buffer_at. cbn. rewrite Z.add_0_r. by apply ld_mid. Qed.

Lemma at_access m pre L d h : zlen pre < L -> can_access_at_index (at_ m pre L d h) 0 = true.
Proof. intros H. unfold can_access_at_index. cbn. apply Z.ltb_lt. lia. Qed.

Lemma at_next pre x post L d h c : zlen pre < L -> next_is (at_ (pre ++ x :: post) pre L d h) c = Ok (x =? c).
Proof. intros H. unfold next_is. rewrite at_access by done. rewrite at_byte. done. Qed.

(** White space is skipped up to a character that is none. *)
Lemma skip_loop_at ws x post L d h : Forall (fun c => c <= 32) ws -> 32 < x -> forall fuel pre, zlen pre + zlen ws < L -> (length ws < fuel)%nat ->
  skip_loop fuel (at_ (pre ++ ws ++ x :: post) pre L d h) = Ok (at_ (pre ++ ws ++ x :: post) (pre ++ ws) L d h).
Proof.
  intros Hws Hx. induction Hws as [|c ws Hc Hws IH]; intros fuel pre HL Hf; (destruct fuel as [|fuel]; [cbn in Hf; lia|]); cbn [skip_loop].
  - change (zlen (@nil Z)) with 0 in HL. rewrite at_access by lia. rewrite app_nil_r. cbn [app]. rewrite at_byte. cbn [mbind res_bind]. by destruct (Z.leb_spec x 32); [lia|].
  - rewrite zlen_cons in HL. pose proof (zlen_nonneg ws). rewrite at_access by lia. cbn [app]. rewrite at_byte. cbn [mbind res_bind]. destruct (Z.leb_spec c 32); [|lia].
    replace (set_offset _ _) with (at_ (pre ++ c :: ws ++ x :: post) (pre ++ [c]) L d h) by (unfold at_, set_offset; cbn; rewrite zlen_app; done).
    replace (pre ++ c :: ws ++ x :: post) with ((pre ++ [c]) ++ ws ++ x :: post) by (rewrite <- app_assoc; done).
    rewrite IH; [by rewrite <- !app_assoc|rewrite zlen_app; change (zlen [c]) with 1; lia|cbn in Hf; lia].
Qed.

Lemma skip_at ws x post pre L d h : Forall (fun c => c <= 32) ws -> 32 < x -> zlen pre + zlen ws < L ->
  buffer_skip_whitespace (at_ (pre ++ ws ++ x :: post) pre L d h) = Ok (at_ (pre ++ ws ++ x :: post) (pre ++ ws) L d h).
Proof.
  intros Hws Hx HL. unfold buffer_skip_whitespace. pose proof (zlen_nonneg pre). pose proof (zlen_nonneg ws).
  rewrite skip_loop_at by (done || (cbn; unfold zlen in *; lia)). cbn [mbind res_bind]. cbn [at_ offset len]. rewrite zlen_app.
  destruct (Z.eqb_spec (zlen pre + zlen ws) L); [lia|done].
Qed.

Lemma skip_none x post pre L d h : 32 < x -> zlen pre < L ->
  buffer_skip_whitespace (at_ (pre ++ x :: post) pre L d h) = Ok (at_ (pre ++ x :: post) pre L d h).
Proof. intros Hx HL. pose proof (skip_at [] x post pre L d h) as P. cbn [app] in P. rewrite app_nil_r in P. apply P; [constructor|done|change (zlen (@nil Z)) with 0; lia]. Qed.

Lemma starts_other pre x post c lit o : o = zlen pre -> x <> c -> starts_at (pre ++ x :: post) o (c :: lit) = Ok false.
Proof. intros -> Hx. cbn [starts_at]. rewrite ld_mid by done. cbn [mbind res_bind]. by destruct (Z.eqb_spec x c). Qed.

Lemma starts_same lit : forall pre post o, o = zlen pre -> starts_at (pre ++ lit ++ post) o lit = Ok true.
Proof.
  induction lit as [|c lit IH]; intros pre post o ->; cbn [starts_at app]; [done|]. rewrite ld_mid by done. cbn [mbind res_bind]. rewrite Z.eqb_refl.
  replace (pre ++ c :: lit ++ post) with ((pre ++ [c]) ++ lit ++ post) by (rewrite <- app_assoc; done). apply IH. by rewrite zlen_app.
Qed.

Lemma keyword_other pre x post L d h c lit : x <> c -> keyword (at_ (pre ++ x :: post) pre L d h) (c :: lit) = Ok false.
Proof. intros Hx. unfold keyword. destruct (can_read _ _); [|done]. by apply starts_other. Qed.

Lemma keyword_same pre post L d h lit : zlen pre + zlen lit <= L -> keyword (at_ (pre ++ lit ++ post) pre L d h) lit = Ok true.
Proof. intros HL. unfold keyword, can_read. cbn [at_ offset len content]. destruct (Z.leb_spec (zlen pre + zlen lit) L); [|lia]. by apply starts_same. Qed.

(** ** Strings *)

Lemma hex_value_digit d : 0 <= d < 16 -> hex_value (hex_digit d) = Some d.
Proof.
  intros Hd. unfold hex_value, hex_digit. destruct (Z.ltb_spec d 10).
  - destruct (Z.leb_spec 48 (48 + d)); [|lia]. destruct (Z.leb_spec (48 + d) 57); [|lia]. cbn [andb]. f_equal. lia.
  - destruct (Z.leb_spec 48 (87 + d)); [|lia]. destruct (Z.leb_spec (87 + d) 57); [lia|]. destruct (Z.leb_spec 65 (87 + d)); [|lia].
    destruct (Z.leb_spec (87 + d) 70); [lia|]. destruct (Z.leb_spec 97 (87 + d)); [|lia]. destruct (Z.leb_spec (87 + d) 102); [|lia]. cbn [andb]. f_equal. lia.
Qed.

(** The three forms of a character's escape. *)
Inductive esc_form (c : Z) : list Z -> Prop :=
  | esc_plain : c <> 34 -> c <> 92 -> esc_form c [c]
  | esc_letter x : unescaped x = Some c -> x <> 117 -> esc_form c [92; x]
  | esc_code : 0 < c < 32 -> esc_form c (92 :: u_code c).

Lemma esc_cases c : 0 < c -> esc_form c (esc c).
Proof.
  intros Hc. unfold esc. destruct (Z.ltb_spec 31 c), (Z.eqb_spec c 34), (Z.eqb_spec c 92); cbn [andb negb]; try lia; try (by apply esc_plain); subst; try (by apply esc_letter).
  unfold escape_letter. destruct (Z.eqb_spec c 92); [lia|]. destruct (Z.eqb_spec c 34); [lia|].
  destruct (Z.eqb_spec c 8) as [->|]; [by apply esc_letter|]. destruct (Z.eqb_spec c 12) as [->|]; [by apply esc_letter|]. destruct (Z.eqb_spec c 10) as [->|]; [by apply esc_letter|].
  destruct (Z.eqb_spec c 13) as [->|]; [by apply esc_letter|]. destruct (Z.eqb_spec c 9) as [->|]; [by apply esc_letter|]. apply esc_code. lia.
Qed.

(** Characters neither quote nor backslash are scanned one by one. *)
Lemma scan_plain l : Forall (fun c => c <> 34 /\ c <> 92) l -> forall fuel pre post L k, zlen pre + zlen l < L -> (length l < fuel)%nat ->
  scan_string fuel (pre ++ l ++ post) L (zlen pre) k = scan_string (fuel - length l) ((pre ++ l) ++ post) L (zlen (pre ++ l)) k.
Proof.
  induction 1 as [|c l [H1 H2] Hl IH]; intros fuel pre post L k HL Hf; [rewrite app_nil_r; cbn; by rewrite Nat.sub_0_r|].
  rewrite zlen_cons in HL. pose proof (zlen_nonneg l). destruct fuel as [|fuel]; [cbn in Hf; lia|]. cbn [scan_string app]. destruct (Z.ltb_spec (zlen pre) L); [|lia]. rewrite ld_here. cbn [mbind res_bind].
  destruct (Z.eqb_spec c 34); [done|]. destruct (Z.eqb_spec c 92); [done|].
  replace (pre ++ c :: l ++ post) with ((pre ++ [c]) ++ l ++ post) by (rewrite <- app_assoc; done).
  replace (zlen pre + 1) with (zlen (pre ++ [c])) by (rewrite zlen_app; done). rewrite IH; [|rewrite zlen_app; change (zlen [c]) with 1; lia|cbn in Hf; lia].
  rewrite <- !app_assoc. done.
Qed.

Lemma hex_digit_plain d : 0 <= d < 16 -> hex_digit d <> 34 /\ hex_digit d <> 92.
Proof. unfold hex_digit. destruct (Z.ltb_spec d 10); lia. Qed.

Lemma scan_escaped s : Forall (fun c => 0 < c) s -> forall fuel pre post L k, zlen pre + zlen (escaped s) < L -> (length (escaped s) < fuel)%nat ->
  exists k', scan_string fuel (pre ++ escaped s ++ 34 :: post) L (zlen pre) k = Ok (Some (zlen pre + zlen (escaped s), k')) /\
             k <= k' /\ k' - k + zlen s <= zlen (escaped s).
Proof.
  induction 1 as [|c s Hc Hs IH]; intros fuel pre post L k HL Hf.
  - change (escaped []) with (@nil Z) in *. change (zlen (@nil Z)) with 0 in *. destruct fuel as [|fuel]; [cbn in Hf; lia|]. cbn [scan_string app].
    destruct (Z.ltb_spec (zlen pre) L); [|lia]. rewrite ld_here. cbn [mbind res_bind Z.eqb Pos.eqb]. exists k. split; [do 3 f_equal; lia|lia].
  - rewrite escaped_cons in *. rewrite zlen_app, length_app in *. pose proof (zlen_nonneg (escaped s)).
    assert (Hgo : forall fuel' j, (length (escaped s) < fuel')%nat -> k <= j -> j - k + 1 <= zlen (esc c) ->
      exists k', scan_string fuel' ((pre ++ esc c) ++ escaped s ++ 34 :: post) L (zlen (pre ++ esc c)) j = Ok (Some (zlen pre + (zlen (esc c) + zlen (escaped s)), k')) /\
        k <= k' /\ k' - k + zlen (c :: s) <= zlen (esc c) + zlen (escaped s)).
    { intros fuel' j Hf' Hj1 Hj2. destruct (IH fuel' (pre ++ esc c) post L j) as (k' & -> & H1 & H2); [rewrite zlen_app; lia|done|].
      exists k'. rewrite zlen_app, zlen_cons. split; [do 3 f_equal; lia|lia]. }
    destruct (esc_cases c Hc) as [N1 N2|x Hx Hu|Hr].
    + replace (pre ++ ([c] ++ escaped s) ++ 34 :: post) with (pre ++ [c] ++ (escaped s ++ 34 :: post)) by (by rewrite <- app_assoc).
      rewrite scan_plain; [|by repeat constructor|lia|cbn in *; lia]. apply Hgo; [cbn in *; lia|lia|change (zlen [c]) with 1; lia].
    + change (zlen [92; x]) with 2 in *. destruct fuel as [|fuel]; [lia|]. cbn [scan_string]. destruct (Z.ltb_spec (zlen pre) L); [|lia].
      rewrite <- app_assoc. cbn [app]. rewrite ld_here. cbn [mbind res_bind Z.eqb Pos.eqb]. destruct (Z.leb_spec L (zlen pre + 1)); [lia|].
      replace (pre ++ 92 :: x :: escaped s ++ 34 :: post) with ((pre ++ [92; x]) ++ escaped s ++ 34 :: post) by (rewrite <- app_assoc; done).
      replace (zlen pre + 2) with (zlen (pre ++ [92; x])) by (rewrite zlen_app; done). apply Hgo; [cbn in Hf; lia|lia|lia].
    + change (zlen (92 :: u_code c)) with 6 in *. destruct fuel as [|fuel]; [lia|]. cbn [scan_string]. destruct (Z.ltb_spec (zlen pre) L); [|lia].
      rewrite <- app_assoc. cbn [app]. rewrite ld_here. cbn [mbind res_bind Z.eqb Pos.eqb]. destruct (Z.leb_spec L (zlen pre + 1)); [lia|].
      set (hx := [48; 48; hex_digit (c / 16); hex_digit (c mod 16)]).
      replace (pre ++ 92 :: u_code c ++ escaped s ++ 34 :: post) with ((pre ++ [92; 117]) ++ hx ++ (escaped s ++ 34 :: post)) by (rewrite <- app_assoc; done).
      replace (zlen pre + 2) with (zlen (pre ++ [92; 117])) by (rewrite zlen_app; done). change (length (92 :: u_code c)) with 6%nat in Hf.
      assert (Hhx : Forall (fun c => c <> 34 /\ c <> 92) hx).
      { pose proof (hex_digit_plain (c / 16) ltac:(lia_div)). pose proof (hex_digit_plain (c mod 16) ltac:(lia_div)). subst hx. by repeat (apply Forall_cons; split); try (split; lia). }
      rewrite scan_plain; [|done|rewrite zlen_app; change (zlen [92; 117]) with 2; change (zlen hx) with 4; lia|cbn; lia].
      replace ((pre ++ [92; 117]) ++ hx) with (pre ++ 92 :: u_code c) by (rewrite <- app_assoc; done). apply Hgo; [cbn; lia|lia|lia].
Qed.

(** A literal's escapes give its characters back. *)
Lemma unescape_escaped s : Forall (fun c => 0 < c) s -> forall fuel pre post acc rest e, e = zlen pre + zlen (escaped s) -> zlen s < zlen rest ->
  (length (escaped s) < fuel)%nat ->
  unescape fuel (pre ++ escaped s ++ 34 :: post) (zlen pre) e (acc ++ rest) (zlen acc) = Ok (e, Some ((acc ++ s) ++ drop (length s) rest, zlen acc + zlen s)).
Proof.
  induction 1 as [|c s Hc Hs IH]; intros fuel pre post acc rest e He Hr Hf.
  - change (escaped []) with (@nil Z) in *. change (zlen (@nil Z)) with 0 in *. destruct fuel as [|fuel]; [cbn in Hf; lia|]. cbn [unescape].
    destruct (Z.ltb_spec (zlen pre) e); [lia|]. cbn [negb]. rewrite app_nil_r, drop_0. do 3 f_equal; [lia|]. f_equal. lia.
  - rewrite escaped_cons in *. rewrite zlen_app, length_app in *. pose proof (zlen_nonneg (escaped s)). pose proof (zlen_nonneg s). rewrite zlen_cons in Hr.
    assert (Hgo : forall fuel', (length (escaped s) < fuel')%nat ->
      unescape fuel' ((pre ++ esc c) ++ escaped s ++ 34 :: post) (zlen (pre ++ esc c)) e ((acc ++ [c]) ++ drop 1 rest) (zlen (acc ++ [c])) =
      Ok (e, Some ((acc ++ c :: s) ++ drop (length (c :: s)) rest, zlen acc + zlen (c :: s)))).
    { intros fuel' Hf'. rewrite IH; [|rewrite zlen_app; lia|unfold zlen in *; rewrite length_drop; lia|done]. rewrite <- !app_assoc. cbn [app].
      rewrite drop_drop, zlen_app, (zlen_cons c s). change (zlen [c]) with 1. replace (zlen acc + 1 + zlen s) with (zlen acc + (zlen s + 1)) by lia. done. }
    assert (Hpush : st (acc ++ rest) (zlen acc) c = Ok ((acc ++ [c]) ++ drop 1 rest)) by (rewrite st_rest, <- app_assoc by (done || lia); done).
    destruct fuel as [|fuel]; [cbn in Hf; lia|]. cbn [unescape]. destruct (esc_cases c Hc) as [N1 N2|x Hx Hu|Hr'].
    + change (zlen [c]) with 1 in *. destruct (Z.ltb_spec (zlen pre) e); [|lia]. cbn [negb].
      replace (pre ++ ([c] ++ escaped s) ++ 34 :: post) with (pre ++ c :: (escaped s ++ 34 :: post)) by done. rewrite ld_here. cbn [mbind res_bind].
      destruct (Z.eqb_spec c 92); [done|]. cbn [negb]. rewrite Hpush. cbn [mbind res_bind].
      replace (pre ++ c :: escaped s ++ 34 :: post) with ((pre ++ [c]) ++ escaped s ++ 34 :: post) by (rewrite <- app_assoc; done).
      replace (zlen pre + 1) with (zlen (pre ++ [c])) by (rewrite zlen_app; done). replace (zlen acc + 1) with (zlen (acc ++ [c])) by (rewrite zlen_app; done).
      apply Hgo. cbn in Hf. lia.
    + change (zlen [92; x]) with 2 in *. destruct (Z.ltb_spec (zlen pre) e); [|lia]. cbn [negb]. rewrite <- (app_assoc [92; x]). cbn [app].
      rewrite ld_here. cbn [mbind res_bind Z.eqb Pos.eqb negb]. destruct (Z.ltb_spec (e - zlen pre) 1); [lia|].
      replace (pre ++ 92 :: x :: escaped s ++ 34 :: post) with ((pre ++ [92]) ++ x :: (escaped s ++ 34 :: post)) by (rewrite <- app_assoc; done).
      rewrite (ld_mid (pre ++ [92]) x _ (zlen pre + 1)) by (rewrite zlen_app; done). cbn [mbind res_bind]. rewrite Hx, Hpush. cbn [mbind res_bind].
      replace ((pre ++ [92]) ++ x :: escaped s ++ 34 :: post) with ((pre ++ [92; x]) ++ escaped s ++ 34 :: post) by (rewrite <- !app_assoc; done).
      replace (zlen pre + 2) with (zlen (pre ++ [92; x])) by (rewrite zlen_app; done). replace (zlen acc + 1) with (zlen (acc ++ [c])) by (rewrite zlen_app; done).
      apply Hgo. cbn in Hf. lia.
    + change (zlen (92 :: u_code c)) with 6 in *. destruct (Z.ltb_spec (zlen pre) e); [|lia]. cbn [negb].
      set (tail := escaped s ++ 34 :: post). set (hi := hex_digit (c / 16)). set (lo := hex_digit (c mod 16)).
      set (m := pre ++ (92 :: u_code c) ++ tail). replace (pre ++ ((92 :: u_code c) ++ escaped s) ++ 34 :: post) with m by (subst m tail; by rewrite <- !app_assoc).
      assert (L0 : ld m (zlen pre) = Ok 92) by (by apply ld_mid).
      assert (L1 : ld m (zlen pre + 1) = Ok 117) by (subst m; unfold u_code; replace (pre ++ _) with ((pre ++ [92]) ++ 117 :: 48 :: 48 :: hi :: lo :: tail) by (rewrite <- app_assoc; done); apply ld_mid; by rewrite zlen_app).
      assert (L2 : ld m (zlen pre + 2) = Ok 48) by (subst m; unfold u_code; replace (pre ++ _) with ((pre ++ [92; 117]) ++ 48 :: 48 :: hi :: lo :: tail) by (rewrite <- app_assoc; done); apply ld_mid; by rewrite zlen_app).
      assert (L3 : ld m (zlen pre + 2 + 1) = Ok 48) by (subst m; unfold u_code; replace (pre ++ _) with ((pre ++ [92; 117; 48]) ++ 48 :: hi :: lo :: tail) by (rewrite <- app_assoc; done); apply ld_mid; rewrite zlen_app; change (zlen [92; 117; 48]) with 3; lia).
      assert (L4 : ld m (zlen pre + 2 + 1 + 1) = Ok hi) by (subst m; unfold u_code; replace (pre ++ _) with ((pre ++ [92; 117; 48; 48]) ++ hi :: lo :: tail) by (rewrite <- app_assoc; done); apply ld_mid; rewrite zlen_app; change (zlen [92; 117; 48; 48]) with 4; lia).
      assert (L5 : ld m (zlen pre + 2 + 1 + 1 + 1) = Ok lo) by (subst m; unfold u_code; replace (pre ++ _) with ((pre ++ [92; 117; 48; 48; hi]) ++ lo :: tail) by (rewrite <- app_assoc; done); apply ld_mid; rewrite zlen_app; change (zlen [92; 117; 48; 48; hi]) with 5; lia).
      rewrite L0. cbn [mbind res_bind Z.eqb Pos.eqb negb]. destruct (Z.ltb_spec (e - zlen pre) 1); [lia|]. rewrite L1. cbn [mbind res_bind unescaped Z.eqb Pos.eqb orb].
      unfold utf16_literal_to_utf8, utf16_literal. destruct (Z.ltb_spec (e - zlen pre) 6); [lia|].
      assert (Hh : parse_hex4 m (zlen pre + 2) = Ok c).
      { unfold parse_hex4. cbn [hex4_loop]. rewrite L2. cbn [mbind res_bind]. change (hex_value 48) with (Some 0). cbn [hex4_loop]. rewrite L3. cbn [mbind res_bind]. change (hex_value 48) with (Some 0).
        rewrite L4. cbn [mbind res_bind]. subst hi lo. rewrite hex_value_digit by lia_div. rewrite L5. cbn [mbind res_bind]. rewrite hex_value_digit by lia_div.
        f_equal. change (u32 (Z.shiftl (u32 (0 + 0)) 4)) with 0. change (u32 (Z.shiftl (u32 (0 + 0)) 4)) with 0.
        rewrite (u32_id (0 + c / 16)), Z.shiftl_mul_pow2 by lia_div. rewrite (u32_id ((0 + c / 16) * 2 ^ 4)), u32_id by lia_div. lia_div. }
      rewrite Hh. cbn [mbind res_bind]. destruct (Z.leb_spec 56320 c); [lia|]. destruct (Z.leb_spec 55296 c); [lia|]. cbn [andb].
      assert (Hu8 : utf8_bytes c = [c]) by (unfold utf8_bytes; destruct (Z.ltb_spec c 128); [|lia]; f_equal; change 127 with (Z.ones 7); rewrite Z.land_ones, Z.mod_small by lia; done).
      cbn [mbind res_bind]. rewrite put_utf8_ok by (try rewrite Hu8; change (zlen [c]) with 1; lia). rewrite Hu8. cbn [mbind res_bind length]. change (zlen [c]) with 1. cbn [Z.eqb].
      replace m with ((pre ++ 92 :: u_code c) ++ escaped s ++ 34 :: post) by (subst m tail; by rewrite <- !app_assoc).
      replace (zlen pre + 6) with (zlen (pre ++ 92 :: u_code c)) by (rewrite zlen_app; done). replace (zlen acc + 1) with (zlen (acc ++ [c])) by (rewrite zlen_app; done).
      apply Hgo. cbn in Hf. lia.
Qed.

Lemma text_ok_pos s : text_ok (Some s) = true -> Forall (fun c => 0 < c) s /\ no_nul s.
Proof.
  cbn. rewrite forallb_forall. intros H. unfold no_nul. rewrite !Forall_forall. split; intros c Hc%list_elem_of_In%H; apply andb_true_iff in Hc as [Hc%Z.ltb_lt _]; lia.
Qed.

(** The allocator serves for ever. *)
Definition serves (h : internal_hooks) : Prop := serve h = [].

Lemma allocate_serves n h : serves h -> exists h', allocate n h = (Some (replicate (Z.to_nat n) (fill h)), h') /\ serves h'.
Proof. unfold serves, allocate. intros ->. by eexists. Qed.
Lemma new_item_serves h : serves h -> exists h', kJSON_New_Item h = (Some (new_item 0), h') /\ serves h'.
Proof. intros Hh. unfold kJSON_New_Item. destruct (allocate_serves 64 h Hh) as (h' & -> & ?). eauto. Qed.

Lemma parse_string_at s pre post L d h t name : text_ok (Some s) = true -> serves h -> zlen pre + zlen (quoted (Some s)) <= L ->
  exists h', serves h' /\ let m := pre ++ quoted (Some s) ++ post in
    parse_string (Item t None 0 zero name []) (at_ m pre L d h) =
    Ok (true, Item KS_JSON_TYPE_STRING (Some s) 0 zero name [], at_ m (pre ++ quoted (Some s)) L d h').
Proof.
  intros Hs Hh HL. destruct (text_ok_pos s Hs) as [Hpos Hn]. cbn [quoted] in *. rewrite zlen_cons, zlen_app in HL. change (zlen [34]) with 1 in HL.
  pose proof (zlen_nonneg (escaped s)). pose proof (zlen_nonneg pre). pose proof (zlen_nonneg s). unfold parse_string.
  set (m := pre ++ (34 :: escaped s ++ [34]) ++ post). assert (Em : m = (pre ++ [34]) ++ escaped s ++ 34 :: post) by (subst m; cbn [app]; rewrite <- !app_assoc; done).
  assert (E0 : buffer_at (at_ m pre L d h) 0 = Ok 34) by (apply (at_byte pre 34)). rewrite E0. cbn [mbind res_bind Z.eqb Pos.eqb negb]. cbn [at_ content len offset hooks].
  replace (zlen pre + 1) with (zlen (pre ++ [34])) by (rewrite zlen_app; done). assert (Hp : zlen (pre ++ [34]) = zlen pre + 1) by (rewrite zlen_app; done).
  destruct (scan_escaped s Hpos (S (Z.to_nat L)) (pre ++ [34]) post L 0) as (k & Hk & Hk1 & Hk2); [lia|unfold zlen in *; lia|]. rewrite <- Em in Hk. rewrite Hk.
  cbn [mbind res_bind]. set (size := _ - zlen pre - k + 1). destruct (allocate_serves size h Hh) as (h' & -> & Hh').
  assert (Hsize : zlen s + 2 <= size) by (subst size; lia).
  pose proof (unescape_escaped s Hpos (S (Z.to_nat L)) (pre ++ [34]) post [] (replicate (Z.to_nat size) (fill h)) (zlen (pre ++ [34]) + zlen (escaped s)) eq_refl) as U.
  rewrite <- Em in U. cbn [app] in U. change (zlen (@nil Z)) with 0 in U. rewrite U; [|rewrite zlen_replicate; lia|unfold zlen in *; lia]. cbn [mbind res_bind].
  rewrite st_rest; [|done|unfold zlen in *; rewrite length_drop, length_replicate; lia]. cbn [mbind res_bind]. rewrite cstr_full by done. cbn [mbind res_bind].
  exists h'. split; [done|]. do 3 f_equal. unfold at_, set_offset, set_hooks. cbn. f_equal. rewrite Hp, (zlen_app pre), zlen_cons, zlen_app. change (zlen [34]) with 1. lia.
Qed.

(** ** Numbers *)

Lemma copy_number_at T x post pre L d h : Forall (fun c => is_number_char c = true) T -> is_number_char x = false -> zlen pre + zlen T < L ->
  forall k dn td, dn ++ td = T -> (length td < k)%nat -> copy_number k (at_ (pre ++ T ++ x :: post) pre L d h) (zlen dn) = Ok td.
Proof.
  intros HT Hx HL k. induction k as [|k IH]; intros dn td E Hk; [lia|]. cbn [copy_number]. unfold can_access_at_index, buffer_at. cbn [at_ offset len content].
  subst T. rewrite zlen_app in HL. pose proof (zlen_nonneg td). destruct (Z.ltb_spec (zlen pre + zlen dn) L); [|lia].
  rewrite <- zlen_app, <- app_assoc, app_assoc. destruct td as [|c td]; cbn [app].
  - rewrite ld_here. cbn [mbind res_bind]. by rewrite Hx.
  - rewrite ld_here. cbn [mbind res_bind]. apply Forall_app in HT as [_ HT]. apply Forall_cons in HT as [-> _].
    specialize (IH (dn ++ [c]) td). rewrite <- app_assoc in IH. specialize (IH eq_refl ltac:(cbn in Hk; lia)).
    replace ((pre ++ dn) ++ c :: td ++ x :: post) with (pre ++ (dn ++ [c] ++ td) ++ x :: post) by (rewrite <- !app_assoc; done).
    rewrite zlen_app in IH. change (zlen [c]) with 1 in IH. cbn [app] in IH |- *. by rewrite IH.
Qed.

Lemma number_txt_ok vd : exact vd = true -> let T := number_txt vd in strtod T = (zlen T, vd) /\ 1 <= zlen T <= 24 /\
  Forall (fun c => is_number_char c = true) T /\ match T with c :: _ => c = 45 \/ is_digit c = true | [] => False end.
Proof.
  intros Hx T. pose proof Hx as Hx'. unfold exact in Hx'. apply andb_true_iff in Hx' as [Hv He]. destruct vd as [m e| |]; [|done..].
  destruct (number_text_form m e Hv) as (t & Ht & Hf). assert (ET : T = t) by (subst T; unfold number_txt; by rewrite Ht). rewrite ET.
  destruct (number_form_chars _ _ Hf) as (H1 & H2 & H3). split; [by apply number_text_back|done].
Qed.

Lemma parse_number_at vd vi x post pre L d h t name : exact vd = true -> saturate vd = Ok vi -> is_number_char x = false -> zlen pre + zlen (number_txt vd) < L ->
  let m := pre ++ number_txt vd ++ x :: post in
  parse_number (Item t None 0 zero name []) (at_ m pre L d h) =
  Ok (true, Item KS_JSON_TYPE_NUMBER None vi vd name [], at_ m (pre ++ number_txt vd) L d h).
Proof.
  intros Hx Hi Hc HL m. destruct (number_txt_ok vd Hx) as (Hs & Hl & Hch & _). unfold parse_number. subst m.
  pose proof (copy_number_at _ x post pre L d h Hch Hc HL 63 [] (number_txt vd) eq_refl ltac:(unfold zlen in Hl; lia)) as E.
  change (zlen (@nil Z)) with 0 in E. rewrite E. cbn [mbind res_bind]. rewrite Hs.
  destruct (Z.eqb_spec (zlen (number_txt vd)) 0); [lia|]. rewrite Hi. cbn [mbind res_bind]. do 3 f_equal. unfold at_, set_offset. cbn. by rewrite zlen_app.
Qed.

(** ** Arrays and objects *)

Lemma at_step m pre y L d h : set_offset (offset (at_ m pre L d h) + 1) (at_ m pre L d h) = at_ m (pre ++ [y]) L d h.
Proof. unfold at_, set_offset. cbn. by rewrite zlen_app. Qed.

Lemma at_hooks m pre L d h h' : set_hooks h' (at_ m pre L d h) = at_ m pre L d h'.
Proof. done. Qed.

(** What a text begins with. *)
Definition head_ok (T : list Z) : Prop := exists c r, T = c :: r /\ 32 < c < 128 /\ c <> 93 /\ c <> 125.

Definition white (ws : list Z) : Prop := Forall (fun c => c <= 32) ws.
Lemma white_char fmt c : c <= 32 -> white (f_char fmt c).
Proof. intros H. unfold f_char, white. destruct fmt; by repeat constructor. Qed.
Lemma white_tabs fmt d : white (f_tabs fmt d).
Proof. unfold f_tabs, white, tabs. destruct fmt; [|constructor]. apply Forall_replicate. lia. Qed.

Section Nested.
Context (fmt : bool) (f : kJSON -> parse_buffer -> res (bool * kJSON * parse_buffer)) (tx : kJSON -> list Z) (d : Z).

(** [f] reads the text of [j] in front of anything that does not go on as a number. *)
Definition readable (j : kJSON) : Prop := head_ok (tx j) /\ forall pre x post L h t name,
  is_number_char x = false -> zlen pre + zlen (tx j) < L -> serves h ->
  exists h', serves h' /\ let m := pre ++ tx j ++ x :: post in
    f (Item t None 0 zero name []) (at_ m pre L d h) = Ok (true, as_parsed name j, at_ m (pre ++ tx j) L d h').

(** The same with white space in front, which [buffer_skip_whitespace] takes. *)
Lemma read_white j m ws pre x post L h t name : readable j -> white ws -> m = pre ++ ws ++ tx j ++ x :: post ->
  is_number_char x = false -> zlen pre + zlen ws + zlen (tx j) < L -> serves h ->
  exists h', serves h' /\ (b ← buffer_skip_whitespace (at_ m pre L d h); f (Item t None 0 zero name []) b) =
    Ok (true, as_parsed name j, at_ m (pre ++ ws ++ tx j) L d h').
Proof.
  intros [(c & r & Ec & Hc) Hj] Hws -> Hx HL Hh. pose proof (zlen_nonneg (tx j)).
  assert (HL' : zlen pre + zlen ws < L) by (rewrite Ec, zlen_cons in HL; pose proof (zlen_nonneg r); lia).
  pose proof (skip_at ws c (r ++ x :: post) pre L d h Hws ltac:(lia) HL') as E. change (c :: r ++ x :: post) with ((c :: r) ++ x :: post) in E. rewrite <- Ec in E.
  rewrite E. cbn [mbind res_bind]. destruct (Hj (pre ++ ws) x post L h t name Hx) as (h' & Hh' & Ef); [rewrite zlen_app; lia|done|].
  exists h'. split; [done|]. cbn zeta in Ef. rewrite <- !app_assoc in Ef. exact Ef.
Qed.

Lemma elements_length c : Forall readable c -> (length c <= length (text_elements fmt tx c))%nat.
Proof.
  induction 1 as [|j c [(x & r & E & _) _] Hc IH]; [done|]. cbn [text_elements length]. rewrite E, !length_app. cbn [length]. lia.
Qed.

Lemma array_items_at c : c <> [] -> Forall readable c -> forall fuel head p y ws post L h,
  white ws -> (length c <= fuel)%nat -> serves h -> zlen p + 1 + zlen ws + zlen (text_elements fmt tx c) < L ->
  exists h', serves h' /\ let m := (p ++ [y]) ++ ws ++ text_elements fmt tx c ++ 93 :: post in
    array_items f fuel head (at_ m p L d h) = Ok (true, head ++ map (as_parsed None) c, at_ m ((p ++ [y]) ++ ws ++ text_elements fmt tx c) L d h').
Proof.
  intros Hne Hc. induction Hc as [|j c Hj Hc IH]; [done|]. intros fuel head p y ws post L h Hws Hf Hh HL. destruct fuel as [|fuel]; [cbn in Hf; lia|].
  cbn [text_elements] in *. set (rest := text_elements fmt tx c) in *. set (sep := if is_last c then [] else 44 :: f_char fmt 32) in *.
  rewrite !zlen_app in HL. pose proof (zlen_nonneg sep). pose proof (zlen_nonneg rest).
  set (m := (p ++ [y]) ++ ws ++ (tx j ++ sep ++ rest) ++ 93 :: post). cbn zeta. cbn [array_items].
  assert (Hp : zlen (p ++ [y]) = zlen p + 1) by (rewrite zlen_app; done).
  destruct (new_item_serves h Hh) as (h1 & En & Hh1). cbn [at_ hooks]. rewrite En. fold (at_ m p L d h). rewrite at_hooks, (at_step m p y).
  assert (Hx : exists x post', sep ++ rest ++ 93 :: post = x :: post' /\ is_number_char x = false /\ 32 < x /\ (x =? 44) = negb (is_last c)).
  { subst sep. destruct c; cbn [is_last]; [exists 93, post|do 2 eexists]; by repeat split. }
  destruct Hx as (x & post' & Ex & Hx & Hx32 & Hx44).
  assert (Em : m = (p ++ [y]) ++ ws ++ tx j ++ x :: post') by (subst m; rewrite <- Ex, <- !app_assoc; done).
  destruct (read_white j m ws (p ++ [y]) x post' L h1 0 None Hj Hws Em Hx) as (h2 & Hh2 & Er); [lia|done|].
  destruct (buffer_skip_whitespace _) as [b|]; [|done]. cbn [mbind res_bind] in *. change (new_item 0) with (Item 0 None 0 zero None []). rewrite Er. cbn [mbind res_bind negb].
  set (q := (p ++ [y]) ++ ws ++ tx j) in *. assert (Emq : m = q ++ x :: post') by (rewrite Em; subst q; rewrite <- !app_assoc; done).
  assert (Hq : zlen q = zlen p + 1 + zlen ws + zlen (tx j)) by (subst q; rewrite !zlen_app; change (zlen [y]) with 1; lia).
  rewrite Emq, skip_none by (done || lia). cbn [mbind res_bind]. rewrite at_next by lia. cbn [mbind res_bind]. rewrite Hx44, <- Emq.
  destruct c as [|j2 c]; cbn [is_last negb].
  - exists h2. split; [done|]. subst sep rest. cbn [is_last text_elements map app]. rewrite app_nil_r. done.
  - cbn [is_last] in sep. injection Ex as <- <-.
    destruct (IH ltac:(done) fuel (head ++ [as_parsed None j]) q 44 (f_char fmt 32) post L h2) as (h3 & Hh3 & E3); [by apply white_char|cbn in Hf |- *; lia|done| |].
    { fold rest. subst sep. rewrite zlen_cons in HL. lia. }
    fold rest in E3. cbn zeta in E3. replace ((q ++ [44]) ++ f_char fmt 32 ++ rest ++ 93 :: post) with m in E3 by (rewrite Emq, <- !app_assoc; done).
    rewrite E3. exists h3. split; [done|]. rewrite <- (app_assoc head).
    replace ((p ++ [y]) ++ ws ++ tx j ++ sep ++ rest) with ((q ++ [44]) ++ f_char fmt 32 ++ rest) by (subst q sep; by rewrite <- !app_assoc). done.
Qed.

Lemma white_head ws z post : white ws -> is_number_char z = false -> exists x post', ws ++ z :: post = x :: post' /\ is_number_char x = false.
Proof.
  intros Hws Hz. destruct Hws as [|c ws Hc _]; [by exists z, post|]. exists c, (ws ++ z :: post). split; [done|].
  unfold is_number_char, is_digit. apply not_true_is_false. rewrite !orb_true_iff, andb_true_iff, !Z.leb_le, !Z.eqb_eq. lia.
Qed.

Definition member_ok (j : kJSON) : Prop := readable j /\ exists k, string j = Some k /\ text_ok (Some k) = true.

Lemma members_length fd c : (length c <= length (text_members fmt tx fd c))%nat.
Proof. induction c as [|j c IH]; [done|]. cbn [text_members length]. rewrite !length_app. cbn [length]. lia. Qed.

(** The key of a member and its colon. *)
Lemma read_key k m ws pre post L h : text_ok (Some k) = true -> white ws -> m = pre ++ ws ++ quoted (Some k) ++ 58 :: post ->
  zlen pre + zlen ws + zlen (quoted (Some k)) < L -> serves h -> let q := pre ++ ws ++ quoted (Some k) in
  exists h', serves h' /\ (b ← buffer_skip_whitespace (at_ m pre L d h); parse_string (Item 0 None 0 zero None []) b) =
    Ok (true, Item KS_JSON_TYPE_STRING (Some k) 0 zero None [], at_ m q L d h') /\
    buffer_skip_whitespace (at_ m q L d h') = Ok (at_ m q L d h') /\ next_is (at_ m q L d h') 58 = Ok true.
Proof.
  intros Hk Hws -> HL Hh q. assert (Hq1 : 1 <= zlen (quoted (Some k))) by (cbn [quoted]; rewrite zlen_cons; pose proof (zlen_nonneg (escaped k ++ [34])); lia).
  pose proof (skip_at ws 34 ((escaped k ++ [34]) ++ 58 :: post) pre L d h Hws ltac:(lia) ltac:(lia)) as E.
  change (34 :: (escaped k ++ [34]) ++ 58 :: post) with (quoted (Some k) ++ 58 :: post) in E. rewrite E. cbn [mbind res_bind].
  destruct (parse_string_at k (pre ++ ws) (58 :: post) L d h 0 None Hk Hh) as (h' & Hh' & Ep); [rewrite zlen_app; lia|]. cbn zeta in Ep.
  rewrite <- !app_assoc in Ep. fold q in Ep. exists h'. split; [done|]. split; [exact Ep|].
  assert (Hq : zlen q = zlen pre + zlen ws + zlen (quoted (Some k))) by (subst q; rewrite !zlen_app; lia).
  replace (pre ++ ws ++ quoted (Some k) ++ 58 :: post) with (q ++ 58 :: post) by (subst q; by rewrite <- !app_assoc).
  split; [apply skip_none; lia|]. rewrite at_next by lia. done.
Qed.

(** Members without the tabs in front of the first. *)
Definition untabbed (fd : Z) (c : list kJSON) : list Z :=
  match c with
  | [] => []
  | j :: c => quoted (string j) ++ (58 :: f_char fmt 9) ++ tx j ++ ((if is_last c then [] else [44]) ++ f_char fmt 10) ++ text_members fmt tx fd c
  end.
Lemma untabbed_members fd c : c <> [] -> text_members fmt tx fd c = f_tabs fmt fd ++ untabbed fd c.
Proof. by destruct c. Qed.

Lemma object_items_at fd c : c <> [] -> Forall member_ok c -> forall fuel head p y ws tail post L h,
  white ws -> white tail -> (length c <= fuel)%nat -> serves h -> zlen p + 1 + zlen ws + zlen (untabbed fd c) + zlen tail < L ->
  exists h', serves h' /\ let m := (p ++ [y]) ++ ws ++ untabbed fd c ++ tail ++ 125 :: post in
    object_items f fuel head (at_ m p L d h) =
    Ok (true, head ++ map (fun j => as_parsed (string j) j) c, at_ m ((p ++ [y]) ++ ws ++ untabbed fd c ++ tail) L d h').
Proof.
  intros Hne Hc. induction Hc as [|j c [Hj (k & Hk & Hkt)] Hc IH]; [done|]. intros fuel head p y ws tail post L h Hws Htail Hf Hh HL. destruct fuel as [|fuel]; [cbn in Hf; lia|].
  cbn [untabbed] in *. rewrite Hk in *. set (rest := text_members fmt tx fd c) in *. set (com := (if is_last c then [] else [44]) ++ f_char fmt 10) in *.
  rewrite !zlen_app, (zlen_cons 58) in HL. pose proof (zlen_nonneg com). pose proof (zlen_nonneg rest). pose proof (zlen_nonneg tail). pose proof (zlen_nonneg (f_char fmt 9)). pose proof (zlen_nonneg (tx j)).
  set (m := (p ++ [y]) ++ ws ++ (quoted (Some k) ++ (58 :: f_char fmt 9) ++ tx j ++ com ++ rest) ++ tail ++ 125 :: post). cbn zeta. cbn [object_items].
  assert (Hp : zlen (p ++ [y]) = zlen p + 1) by (rewrite zlen_app; done).
  destruct (new_item_serves h Hh) as (h1 & En & Hh1). cbn [at_ hooks]. rewrite En. fold (at_ m p L d h). rewrite at_hooks, (at_step m p y).
  set (post1 := f_char fmt 9 ++ tx j ++ com ++ rest ++ tail ++ 125 :: post).
  assert (Em1 : m = (p ++ [y]) ++ ws ++ quoted (Some k) ++ 58 :: post1) by (subst m post1; app_norm).
  destruct (read_key k m ws (p ++ [y]) post1 L h1 Hkt Hws Em1) as (h2 & Hh2 & Ek & Esk & Enx); [lia|done|]. set (q1 := (p ++ [y]) ++ ws ++ quoted (Some k)) in *.
  change (new_item 0) with (Item 0 None 0 zero None []). destruct (buffer_skip_whitespace (at_ m (p ++ [y]) L d h1)) as [b|]; [|done]. cbn [mbind res_bind] in Ek |- *.
  rewrite Ek. cbn [mbind res_bind negb]. rewrite Esk. cbn [mbind res_bind type valueint valuedouble valuestring child]. rewrite Enx. cbn [mbind res_bind negb].
  rewrite (at_step m q1 58).
  assert (Hrest : exists W' z post2, com ++ rest ++ tail ++ 125 :: post = W' ++ z :: post2 /\ white W' /\ 32 < z /\ is_number_char z = false /\ (z =? 44) = negb (is_last c) /\
    (is_last c = true -> W' = com ++ tail /\ z = 125) /\ (is_last c = false -> W' = [] /\ post2 = f_char fmt 10 ++ rest ++ tail ++ 125 :: post) /\ zlen W' <= zlen com + zlen tail /\ (is_last c = false -> 1 <= zlen com)).
  { subst com rest. destruct c; cbn [is_last text_members app].
    - exists (f_char fmt 10 ++ tail), 125, post. rewrite <- app_assoc, zlen_app. split; [done|]. split; [apply Forall_app; split; [by apply white_char|done]|]. by repeat split.
    - exists [], 44. eexists. split; [done|]. split; [constructor|]. repeat split; try done; rewrite ?zlen_cons; change (zlen (@nil Z)) with 0; pose proof (zlen_nonneg (f_char fmt 10)); lia. }
  destruct Hrest as (W' & z & post2 & Er2 & HW' & Hz32 & Hzn & Hz44 & Hl1 & Hl2 & HWl' & Hcom).
  destruct (white_head W' z post2 HW' Hzn) as (x & post' & Ex & Hx).
  assert (Hq1 : zlen q1 = zlen p + 1 + zlen ws + zlen (quoted (Some k))) by (subst q1; rewrite !zlen_app; change (zlen [y]) with 1; lia).
  assert (Em2 : m = (q1 ++ [58]) ++ f_char fmt 9 ++ tx j ++ x :: post').
  { rewrite Em1. subst q1 post1. rewrite <- Ex, <- Er2. app_norm. }
  destruct (read_white j m (f_char fmt 9) (q1 ++ [58]) x post' L h2 KS_JSON_TYPE_STRING (Some k) Hj ltac:(by apply white_char) Em2 Hx) as (h3 & Hh3 & Ev); [rewrite zlen_app; change (zlen [58]) with 1; lia|done|].
  destruct (buffer_skip_whitespace (at_ m (q1 ++ [58]) L d h2)) as [b2|]; [|done]. cbn [mbind res_bind] in Ev |- *. rewrite Ev. cbn [mbind res_bind negb].
  set (q := (q1 ++ [58]) ++ f_char fmt 9 ++ tx j) in *.
  assert (Hq : zlen q = zlen q1 + 1 + zlen (f_char fmt 9) + zlen (tx j)) by (subst q; rewrite !zlen_app; change (zlen [58]) with 1; lia).
  assert (Emq : m = q ++ W' ++ z :: post2) by (rewrite Em2, <- Ex in *; subst q; rewrite Ex; app_norm).
  assert (Hcl : is_last c = false -> zlen W' = 0) by (intros Hl; by destruct (Hl2 Hl) as [-> _]).
  assert (HqL : zlen q + zlen W' < L) by lia.
  rewrite Emq, skip_at by done. cbn [mbind res_bind]. rewrite app_assoc, at_next by (rewrite zlen_app; lia). cbn [mbind res_bind]. rewrite Hz44, <- app_assoc, <- Emq.
  destruct (is_last c) eqn:Hlast; cbn [negb].
  - destruct (Hl1 eq_refl) as [-> ->]. destruct c; [|done]. exists h3. split; [done|]. cbn [map]. subst rest. cbn [text_members untabbed]. rewrite Hk, app_nil_r.
    replace (q ++ com ++ tail) with ((p ++ [y]) ++ ws ++ (quoted (Some k) ++ (58 :: f_char fmt 9) ++ tx j ++ com) ++ tail); [done|].
    subst q q1. app_norm.
  - destruct (Hl2 eq_refl) as [-> ->]. rewrite app_nil_r. assert (Erest : rest = f_tabs fmt fd ++ untabbed fd c) by (apply untabbed_members; by destruct c). assert (Ez : z = 44) by (apply Z.eqb_eq; by rewrite Hz44). subst z.
    destruct (IH ltac:(by destruct c) fuel (head ++ [as_parsed (Some k) j]) q 44 (f_char fmt 10 ++ f_tabs fmt fd) tail post L h3) as (h4 & Hh4 & E4); [apply Forall_app; split; [by apply white_char|apply white_tabs]|done|cbn in Hf; lia|done| |].
    { rewrite zlen_app. subst com. cbn [app] in HL. rewrite zlen_cons, Erest, zlen_app in HL. lia. }
    cbn zeta in E4. replace ((q ++ [44]) ++ (f_char fmt 10 ++ f_tabs fmt fd) ++ untabbed fd c ++ tail ++ 125 :: post) with m in E4 by (rewrite Emq, Erest; app_norm).
    rewrite E4. exists h4. split; [done|]. cbn [map untabbed]. rewrite Hk, <- (app_assoc head).
    replace ((q ++ [44]) ++ (f_char fmt 10 ++ f_tabs fmt fd) ++ untabbed fd c ++ tail) with ((p ++ [y]) ++ ws ++ (quoted (Some k) ++ (58 :: f_char fmt 9) ++ tx j ++ com ++ rest) ++ tail); [done|].
    subst q q1 com. rewrite Erest. app_norm.
Qed.

End Nested.

(** ** Values *)

Lemma quoted_head v : head_ok (quoted v).
Proof. destruct v as [s|]; cbn [quoted]; do 2 eexists; (split; [done|]); lia. Qed.

Lemma text_head fmt d j : well_typed j = true -> exact_numbers j = true -> head_ok (text fmt d j).
Proof.
  destruct j as [t vs vi vd s c]. intros Hw Hx. apply well_typed_item in Hw as [Hf _]. cbn [exact_numbers] in Hx. apply andb_true_iff in Hx as [Hx _]. cbn [text].
  destruct (t =? KS_JSON_TYPE_NULL); [exists 110; eexists; (split; [done|]); lia|]. destruct (t =? KS_JSON_TYPE_FALSE); [exists 102; eexists; (split; [done|]); lia|].
  destruct (t =? KS_JSON_TYPE_TRUE); [exists 116; eexists; (split; [done|]); lia|]. destruct (t =? KS_JSON_TYPE_NUMBER); cbn [negb orb] in Hx.
  - destruct (number_txt_ok vd Hx) as (_ & _ & _ & H). destruct (number_txt vd) as [|x r]; [done|]. exists x, r. split; [done|].
    destruct H as [->|H%is_digit_spec]; lia.
  - destruct (t =? KS_JSON_TYPE_STRING); [apply quoted_head|]. destruct (t =? KS_JSON_TYPE_ARRAY); [exists 91|exists 123]; eexists; (split; [done|]); lia.
Qed.

Lemma nesting_child j c : j ∈ c -> nesting j <= foldr (fun j n => Z.max (nesting j) n) 0 c.
Proof. induction 1; cbn [foldr]; lia. Qed.
Lemma nesting_nonneg c : 0 <= foldr (fun j n => Z.max (nesting j) n) 0 c.
Proof. induction c; cbn [foldr]; lia. Qed.

(** No keyword begins here. *)
Lemma no_keyword pre x post L d h fuel item : x <> 110 -> x <> 102 -> x <> 116 -> zlen pre < L -> let b := at_ (pre ++ x :: post) pre L d h in
  parse_value (S fuel) item b =
  if x =? 34 then parse_string item b else if (x =? 45) || ((48 <=? x) && (x <=? 57)) then parse_number item b
  else if x =? 91 then parse_array (parse_value fuel) item b else if x =? 123 then parse_object (parse_value fuel) item b else Ok (false, item, b).
Proof.
  intros H1 H2 H3 HL b. cbn [parse_value]. subst b.
  change (bytes_of_string "null") with [110; 117; 108; 108]. change (bytes_of_string "false") with [102; 97; 108; 115; 101]. change (bytes_of_string "true") with [116; 114; 117; 101].
  rewrite (keyword_other pre x post L d h 110) by done. cbn [mbind res_bind]. rewrite (keyword_other pre x post L d h 102) by done. cbn [mbind res_bind].
  rewrite (keyword_other pre x post L d h 116) by done. cbn [mbind res_bind]. rewrite at_access by done. cbn [negb]. rewrite at_byte. done.
Qed.

Section Values.
Context (fmt : bool).

(** [parse_nested] on a bracket, white space and what is no white space. *)
Lemma parse_nested_opens tt op cl items pre W z R L pd h t name : pd < CJSON_NESTING_LIMIT -> white W -> 32 < z -> zlen pre + 1 + zlen W < L ->
  let m := pre ++ op :: W ++ z :: R in
  parse_nested tt op cl items (Item t None 0 zero name []) (at_ m pre L pd h) =
  if z =? cl then Ok (true, Item tt None 0 zero name [], at_ m (pre ++ op :: W ++ [cl]) L pd h) else
  '(parsed, head, b) ← items [] (Buf m L (zlen pre + zlen W) (pd + 1) h);
  if negb parsed then Ok (false, Item t None 0 zero name [], set_hooks (kJSON_Delete head (hooks b)) b) else
  closed ← next_is b cl;
  if closed : bool then Ok (true, Item tt None 0 zero name head, set_offset (offset b + 1) (set_depth (depth b - 1) b))
  else Ok (false, Item t None 0 zero name [], set_hooks (kJSON_Delete head (hooks b)) b).
Proof.
  intros Hpd HW Hz HL m. pose proof (zlen_nonneg W). pose proof (zlen_nonneg pre).
  unfold parse_nested. change (depth (at_ m pre L pd h)) with pd. destruct (Z.leb_spec CJSON_NESTING_LIMIT pd); [lia|].
  change (set_depth (pd + 1) (at_ m pre L pd h)) with (at_ m pre L (pd + 1) h).
  assert (Eo : (if tt =? KS_JSON_TYPE_ARRAY then c ← buffer_at (at_ m pre L (pd + 1) h) 0; Ok (c =? op) else next_is (at_ m pre L (pd + 1) h) op) = Ok true).
  { subst m. rewrite at_next, at_byte by lia. cbn [mbind res_bind]. rewrite Z.eqb_refl. by destruct (tt =? KS_JSON_TYPE_ARRAY). }
  rewrite Eo. cbn [mbind res_bind negb]. rewrite (at_step m pre op).
  assert (Em : m = (pre ++ [op]) ++ W ++ z :: R) by (subst m; app_norm).
  assert (Hp : zlen (pre ++ [op]) = zlen pre + 1) by (rewrite zlen_app; done).
  rewrite Em, skip_at by (done || lia). cbn [mbind res_bind]. rewrite (app_assoc _ W), at_next by (rewrite zlen_app; lia). cbn [mbind res_bind].
  rewrite <- (app_assoc _ W), <- Em. destruct (Z.eqb_spec z cl).
  - unfold set_value. cbn [valuestring valueint valuedouble string]. do 3 f_equal. unfold at_, set_offset, set_depth. cbn.
    rewrite !zlen_app, !zlen_cons, !zlen_app, !zlen_cons. change (zlen (@nil Z)) with 0. f_equal; lia.
  - rewrite at_access by (rewrite zlen_app; lia). cbn [negb].
    replace (set_offset _ (at_ m ((pre ++ [op]) ++ W) L (pd + 1) h)) with (Buf m L (zlen pre + zlen W) (pd + 1) h); [done|].
    unfold at_, set_offset. cbn. rewrite zlen_app. f_equal. lia.
Qed.

(** Its end. *)
Lemma closes m q cl post L pd h : m = q ++ cl :: post -> zlen q < L ->
  next_is (at_ m q L (pd + 1) h) cl = Ok true /\
  set_offset (offset (at_ m q L (pd + 1) h) + 1) (set_depth (depth (at_ m q L (pd + 1) h) - 1) (at_ m q L (pd + 1) h)) = at_ m (q ++ [cl]) L pd h.
Proof.
  intros -> HL. rewrite at_next, Z.eqb_refl by done. split; [done|]. unfold at_, set_offset, set_depth. cbn. rewrite zlen_app. f_equal. lia.
Qed.

(** [parse_array] on the text of an array. *)
Lemma parse_array_at f fd pd c pre post L h t name : pd < CJSON_NESTING_LIMIT -> serves h ->
  Forall (readable f (text fmt fd) (pd + 1)) c -> let T := [91] ++ text_elements fmt (text fmt fd) c ++ [93] in zlen pre + zlen T < L ->
  exists h', serves h' /\ let m := pre ++ T ++ post in
    parse_array f (Item t None 0 zero name []) (at_ m pre L pd h) = Ok (true, Item KS_JSON_TYPE_ARRAY None 0 zero name (map (as_parsed None) c), at_ m (pre ++ T) L pd h').
Proof.
  intros Hpd Hh Hc T HL. set (m := pre ++ T ++ post). cbn zeta. subst T. set (els := text_elements fmt (text fmt fd) c) in *. rewrite !zlen_app in HL. change (zlen [91]) with 1 in HL. change (zlen [93]) with 1 in HL.
  pose proof (zlen_nonneg els). pose proof (zlen_nonneg pre). unfold parse_array. cbn [at_ len].
  destruct c as [|j c].
  - assert (Em : m = pre ++ 91 :: [] ++ 93 :: post) by (subst m els; app_norm).
    exists h. split; [done|]. change (Buf m L (zlen pre) pd h) with (at_ m pre L pd h). rewrite Em, parse_nested_opens by (done || constructor || (change (zlen (@nil Z)) with 0; lia)). done.
  - assert (Hhead : exists x r, els ++ 93 :: post = x :: r /\ 32 < x /\ x <> 93).
    { pose proof (Forall_inv Hc) as [(x & r & E & Hx) _]. subst els. cbn [text_elements]. rewrite E. do 2 eexists. split; [done|lia]. }
    destruct Hhead as (x & r & Ex & Hx32 & Hx93). assert (Em : m = pre ++ 91 :: [] ++ x :: r) by (subst m; cbn [app]; rewrite <- Ex; app_norm).
    destruct (array_items_at fmt f (text fmt fd) (pd + 1) (j :: c) ltac:(done) Hc (S (Z.to_nat L)) [] pre 91 [] post L h) as (h' & Hh' & E);
      [constructor| |done|fold els; change (zlen (@nil Z)) with 0; lia|].
    { pose proof (elements_length fmt f (text fmt fd) (pd + 1) (j :: c) Hc) as Hl. fold els in Hl. unfold zlen in HL. lia. }
    exists h'. split; [done|]. cbn zeta in E. cbn [app] in E. fold els in E. replace ((pre ++ [91]) ++ els ++ 93 :: post) with m in E by (subst m; app_norm).
    change (Buf m L (zlen pre) pd h) with (at_ m pre L pd h). rewrite Em at 1. rewrite parse_nested_opens by (done || constructor || (change (zlen (@nil Z)) with 0; lia)). rewrite <- Em.
    destruct (Z.eqb_spec x 93); [done|]. change (zlen (@nil Z)) with 0. rewrite Z.add_0_r. change (Buf m L (zlen pre) (pd + 1) h) with (at_ m pre L (pd + 1) h). rewrite E. cbn [mbind res_bind negb].
    destruct (closes m ((pre ++ [91]) ++ els) 93 post L pd h') as [En Eo]; [subst m; app_norm|rewrite !zlen_app; change (zlen [91]) with 1; lia|].
    rewrite En. cbn [mbind res_bind]. rewrite Eo. replace (pre ++ [91] ++ els ++ [93]) with (((pre ++ [91]) ++ els) ++ [93]) by app_norm. done.
Qed.

(** [parse_object] on the text of an object. *)
Lemma parse_object_at f fd pd c pre post L h t name : pd < CJSON_NESTING_LIMIT -> serves h ->
  Forall (member_ok f (text fmt fd) (pd + 1)) c ->
  let T := (123 :: f_char fmt 10) ++ text_members fmt (text fmt fd) fd c ++ f_tabs fmt (fd - 1) ++ [125] in zlen pre + zlen T < L ->
  exists h', serves h' /\ let m := pre ++ T ++ post in
    parse_object f (Item t None 0 zero name []) (at_ m pre L pd h) =
    Ok (true, Item KS_JSON_TYPE_OBJECT None 0 zero name (map (fun j => as_parsed (string j) j) c), at_ m (pre ++ T) L pd h').
Proof.
  intros Hpd Hh Hc T HL. set (m := pre ++ T ++ post). cbn zeta. set (tail := f_tabs fmt (fd - 1)) in *. pose proof (zlen_nonneg pre). pose proof (zlen_nonneg tail). pose proof (zlen_nonneg (f_char fmt 10)).
  pose proof (white_char fmt 10 ltac:(lia)) as Hw10. pose proof (white_tabs fmt (fd - 1)) as Hwt. fold tail in Hwt. unfold parse_object. cbn [at_ len]. destruct c as [|j c].
  - assert (Em : m = pre ++ 123 :: (f_char fmt 10 ++ tail) ++ 125 :: post) by (subst m T; cbn [text_members]; app_norm).
    subst T. cbn [text_members] in HL. cbn [app] in HL. rewrite zlen_cons, !zlen_app in HL. change (zlen [125]) with 1 in HL.
    exists h. split; [done|]. change (Buf m L (zlen pre) pd h) with (at_ m pre L pd h).
    rewrite Em at 1. rewrite parse_nested_opens; [rewrite <- Em|done|by apply Forall_app|lia|rewrite zlen_app; lia].
    cbn [text_members Z.eqb]. change (125 =? 125) with true. cbv iota. replace (pre ++ 123 :: (f_char fmt 10 ++ tail) ++ [125]) with (pre ++ (123 :: f_char fmt 10) ++ [] ++ tail ++ [125]) by app_norm. done.
  - set (W := f_char fmt 10 ++ f_tabs fmt fd). set (U := untabbed fmt (text fmt fd) fd (j :: c)).
    assert (HW : white W) by (apply Forall_app; split; [done|apply white_tabs]).
    assert (ET : T = 123 :: W ++ U ++ tail ++ [125]) by (subst T W; rewrite untabbed_members by done; fold U; app_norm).
    rewrite ET in HL. rewrite zlen_cons, !zlen_app in HL. change (zlen [125]) with 1 in HL.
    assert (HU : exists r, U ++ tail ++ 125 :: post = 34 :: r) by (subst U; cbn [untabbed]; destruct (string j); cbn [quoted app]; by eexists).
    destruct HU as (r & Er). assert (Em : m = pre ++ 123 :: W ++ 34 :: r) by (subst m; rewrite ET, <- Er; app_norm).
    destruct (exists_last (l := pre ++ 123 :: W)) as (p & y & Ep); [by destruct pre|].
    assert (Hzp : zlen p = zlen pre + zlen W) by (pose proof (f_equal zlen Ep) as Hl; rewrite !zlen_app, zlen_cons in Hl; change (zlen [y]) with 1 in Hl; lia).
    destruct (object_items_at fmt f (text fmt fd) (pd + 1) fd (j :: c) ltac:(done) Hc (S (Z.to_nat L)) [] p y [] tail post L h) as (h' & Hh' & E);
      [constructor|done| |done|fold U; change (zlen (@nil Z)) with 0; lia|].
    { pose proof (members_length fmt (text fmt fd) fd (j :: c)) as Hl. rewrite untabbed_members, length_app in Hl by done. fold U in Hl. subst W. rewrite zlen_app in *. unfold zlen in *. lia. }
    exists h'. split; [done|]. cbn zeta in E. cbn [app] in E. fold U in E. replace ((p ++ [y]) ++ U ++ tail ++ 125 :: post) with m in E by (rewrite <- Ep; subst m; rewrite ET; app_norm).
    pose proof (zlen_nonneg U). change (Buf m L (zlen pre) pd h) with (at_ m pre L pd h). rewrite Em at 1. rewrite parse_nested_opens by (done || lia). rewrite <- Em.
    change (34 =? 125) with false. cbv iota. rewrite <- Hzp. change (Buf m L (zlen p) (pd + 1) h) with (at_ m p L (pd + 1) h). rewrite E. cbn [mbind res_bind negb].
    destruct (closes m ((p ++ [y]) ++ U ++ tail) 125 post L pd h') as [En Eo]; [subst m; rewrite <- Ep, ET; app_norm|rewrite !zlen_app; change (zlen [y]) with 1; lia|].
    rewrite En. cbn [mbind res_bind]. rewrite Eo. replace (pre ++ T) with (((p ++ [y]) ++ U ++ tail) ++ [125]) by (rewrite <- Ep, ET; app_norm). done.
Qed.

(** [parse_value] on the text of any value. *)
Lemma keyword_value (lit : list Z) j0 pre post L pd h fuel item :
  (lit = bytes_of_string "null" /\ j0 = set_type KS_JSON_TYPE_NULL item \/ lit = bytes_of_string "false" /\ j0 = set_type KS_JSON_TYPE_FALSE item \/
   lit = bytes_of_string "true" /\ j0 = set_value KS_JSON_TYPE_TRUE (valuestring item) 1 (valuedouble item) (child item) item) ->
  zlen pre + zlen lit <= L ->
  parse_value (S fuel) item (at_ (pre ++ lit ++ post) pre L pd h) = Ok (true, j0, at_ (pre ++ lit ++ post) (pre ++ lit) L pd h).
Proof.
  intros Hl HL. set (b := at_ (pre ++ lit ++ post) pre L pd h). cbn [parse_value].
  assert (Eo : forall n, n = zlen lit -> set_offset (offset b + n) b = at_ (pre ++ lit ++ post) (pre ++ lit) L pd h)
    by (intros n ->; unfold at_, set_offset; cbn; by rewrite zlen_app).
  assert (Es : keyword b lit = Ok true) by (by apply keyword_same).
  assert (Hn : lit = bytes_of_string "null" \/ keyword b (bytes_of_string "null") = Ok false).
  { destruct Hl as [[-> _]|[[-> _]|[-> _]]]; [by left|right..].
    - exact (keyword_other pre 102 _ L pd h 110 [117; 108; 108] ltac:(done)).
    - exact (keyword_other pre 116 _ L pd h 110 [117; 108; 108] ltac:(done)). }
  assert (Hf : lit = bytes_of_string "true" -> keyword b (bytes_of_string "false") = Ok false).
  { intros E. subst b. rewrite E. exact (keyword_other pre 116 _ L pd h 102 [97; 108; 115; 101] ltac:(done)). }
  destruct Hl as [[E ->]|[[E ->]|[E ->]]].
  - rewrite <- E, Es. cbn [mbind res_bind]. by rewrite Eo by (by subst lit).
  - destruct Hn as [Hn|Hn]; [by rewrite E in Hn|]. rewrite Hn. cbn [mbind res_bind]. rewrite <- E, Es. cbn [mbind res_bind]. by rewrite Eo by (by subst lit).
  - destruct Hn as [Hn|Hn]; [by rewrite E in Hn|]. rewrite Hn, (Hf E). cbn [mbind res_bind]. rewrite <- E, Es. cbn [mbind res_bind]. by rewrite Eo by (by subst lit).
Qed.

Lemma value_at j : well_typed j = true -> clean j = true -> exact_numbers j = true ->
  forall fuel fd pd, pd + nesting j <= CJSON_NESTING_LIMIT -> CJSON_NESTING_LIMIT - pd < Z.of_nat fuel -> readable (parse_value fuel) (text fmt fd) pd j.
Proof.
  induction j as [t vs vi vd s c IH] using kJSON_ind'. intros Hw Hcl Hx fuel fd pd Hn Hf. split; [by apply text_head|].
  intros pre x post L h t0 name Hxc HL Hh. pose proof Hw as [Hfo Hwc]%well_typed_item. pose proof (nesting_nonneg c) as Hnn.
  destruct fuel as [|fuel]; [cbn [nesting] in Hn; destruct (_ || _) in Hn; lia|].
  cbn [clean] in Hcl. rewrite !andb_true_iff in Hcl. destruct Hcl as [[[Hvs Hs] Hvd] Hclc].
  cbn [exact_numbers] in Hx. rewrite andb_true_iff in Hx. destruct Hx as [Hx Hxc'].
  rewrite forallb_forall in Hclc, Hxc'. cbn [text as_parsed nesting] in *.
  assert (Hc : forall pd', pd' = pd + 1 -> (t = KS_JSON_TYPE_ARRAY \/ t = KS_JSON_TYPE_OBJECT) -> Forall (readable (parse_value fuel) (text fmt (fd + 1)) pd') c).
  { intros pd' -> Ht. apply List.Forall_forall. intros j Hj. rewrite List.Forall_forall in IH, Hwc. apply IH; auto; [|lia].
    pose proof (nesting_child j c ltac:(by apply list_elem_of_In)). destruct Ht as [->| ->]; cbn in Hn; lia. }
  destruct (Z.eqb_spec t KS_JSON_TYPE_NULL) as [->|H1].
  { exists h. split; [done|]. apply (keyword_value (bytes_of_string "null") (Item KS_JSON_TYPE_NULL None 0 zero name [])); [by auto|lia]. }
  destruct (Z.eqb_spec t KS_JSON_TYPE_FALSE) as [->|H2].
  { exists h. split; [done|]. apply (keyword_value (bytes_of_string "false") (Item KS_JSON_TYPE_FALSE None 0 zero name [])); [by auto|lia]. }
  destruct (Z.eqb_spec t KS_JSON_TYPE_TRUE) as [->|H3].
  { exists h. split; [done|]. apply (keyword_value (bytes_of_string "true") (Item KS_JSON_TYPE_TRUE None 1 zero name [])); [by auto|lia]. }
  destruct (Z.eqb_spec t KS_JSON_TYPE_NUMBER) as [->|H4].
  { cbn [negb orb] in Hx. destruct (number_txt_ok vd Hx) as (_ & Hl & _ & Hhead). destruct (number_txt vd) as [|z r] eqn:Er; [done|].
    assert (Hz : 45 = z \/ 48 <= z <= 57) by (destruct Hhead as [->|Hd%is_digit_spec]; lia).
    rewrite zlen_cons in HL. pose proof (zlen_nonneg r). cbn [app]. rewrite no_keyword by lia.
    destruct (Z.eqb_spec z 34); [lia|]. assert (En : (z =? 45) || ((48 <=? z) && (z <=? 57)) = true) by (rewrite orb_true_iff, andb_true_iff, Z.eqb_eq, !Z.leb_le; lia).
    rewrite En. exists h. split; [done|]. unfold fields_ok in Hfo. cbn in Hfo. apply andb_true_iff in Hfo as [Hsat _]. destruct (saturate vd) as [vi'|] eqn:Esat; [|done]. apply Z.eqb_eq in Hsat as ->.
    pose proof (parse_number_at vd vi x post pre L pd h t0 name Hx Esat Hxc) as P. rewrite Er in P. apply P. rewrite zlen_cons. lia. }
  destruct (Z.eqb_spec t KS_JSON_TYPE_STRING) as [->|H5].
  { unfold fields_ok in Hfo. cbn in Hfo. apply andb_true_iff in Hfo as [Hv%bool_decide_eq_true_1 _]. destruct vs as [v|]; [|done].
    destruct (parse_string_at v pre (x :: post) L pd h t0 name Hvs Hh ltac:(lia)) as (h' & Hh' & E). exists h'. split; [done|]. cbn zeta in *. cbn [quoted] in *.
    pose proof (zlen_nonneg (escaped v ++ [34])). rewrite zlen_cons in HL. cbn [app] in *. rewrite no_keyword by lia. exact E. }
  destruct (Z.eqb_spec t KS_JSON_TYPE_ARRAY) as [->|H6].
  { cbn in Hn. destruct (parse_array_at (parse_value fuel) (fd + 1) pd c pre (x :: post) L h t0 name ltac:(lia) Hh (Hc _ eq_refl ltac:(by left)) HL) as (h' & Hh' & E).
    exists h'. split; [done|]. cbn zeta in *. cbn [app] in *. rewrite zlen_cons in HL. pose proof (zlen_nonneg (text_elements fmt (text fmt (fd + 1)) c ++ [93])). rewrite no_keyword by lia. exact E. }
  unfold fields_ok in Hfo. destruct (Z.eqb_spec t KS_JSON_TYPE_STRING); [done|]. destruct (Z.eqb_spec t KS_JSON_TYPE_NUMBER); [done|].
  destruct (Z.eqb_spec t KS_JSON_TYPE_OBJECT) as [->|H7].
  - cbn in Hn. assert (Hm : Forall (member_ok (parse_value fuel) (text fmt (fd + 1)) (pd + 1)) c).
    { specialize (Hc _ eq_refl ltac:(by right)). rewrite forallb_forall in Hfo. rewrite List.Forall_forall in Hc |- *. intros j Hj. split; [by apply Hc|].
      specialize (Hfo j Hj). apply bool_decide_eq_true_1 in Hfo. destruct (string j) as [k|] eqn:Ek; [|done]. exists k. split; [done|].
      specialize (Hclc j Hj). destruct j as [? ? ? ? sj ?]. cbn in Ek. subst sj. cbn [clean] in Hclc. rewrite !andb_true_iff in Hclc. tauto. }
    replace (f_tabs fmt fd) with (f_tabs fmt (fd + 1 - 1)) in * by (f_equal; lia).
    destruct (parse_object_at (parse_value fuel) (fd + 1) pd c pre (x :: post) L h t0 name ltac:(lia) Hh Hm HL) as (h' & Hh' & E).
    exists h'. split; [done|]. cbn zeta in *. cbn [app] in *. rewrite zlen_cons in HL.
    pose proof (zlen_nonneg (f_char fmt 10 ++ text_members fmt (text fmt (fd + 1)) (fd + 1) c ++ f_tabs fmt (fd + 1 - 1) ++ [125])). rewrite no_keyword by lia. exact E.
  - destruct (Z.eqb_spec t KS_JSON_TYPE_ARRAY); [done|]. rewrite andb_true_iff, !orb_true_iff, !Z.eqb_eq in Hfo. tauto.
Qed.


(** The text has no NUL. *)
Lemma no_nul_tabs d : no_nul (f_tabs fmt d).
Proof. unfold f_tabs, tabs, no_nul. destruct fmt; [|constructor]. apply Forall_replicate. lia. Qed.
Lemma no_nul_char c : c <> 0 -> no_nul (f_char fmt c).
Proof. unfold f_char, no_nul. destruct fmt; by repeat constructor. Qed.

Lemma text_no_nul j : well_typed j = true -> clean j = true -> exact_numbers j = true -> forall d, no_nul (text fmt d j).
Proof.
  unfold no_nul. induction j as [t vs vi vd s c IH] using kJSON_ind'. intros [_ Hw]%well_typed_item Hcl Hx d.
  cbn [clean exact_numbers] in Hcl, Hx. rewrite !andb_true_iff in Hcl. rewrite !andb_true_iff in Hx. destruct Hcl as [[[Hvs Hs] Hvd] Hcl], Hx as [Hx Hxc].
  rewrite forallb_forall in Hcl, Hxc. rewrite List.Forall_forall in IH, Hw. cbn [text].
  destruct (t =? KS_JSON_TYPE_NULL); [by repeat constructor|]. destruct (t =? KS_JSON_TYPE_FALSE); [by repeat constructor|]. destruct (t =? KS_JSON_TYPE_TRUE); [by repeat constructor|].
  destruct (t =? KS_JSON_TYPE_NUMBER); cbn [negb orb] in Hx.
  { destruct (number_txt_ok vd Hx) as (_ & _ & H & _). eapply Forall_impl; [exact H|]. intros x Hc ->. done. }
  destruct (t =? KS_JSON_TYPE_STRING); [by apply quoted_no_nul|]. destruct (t =? KS_JSON_TYPE_ARRAY).
  - repeat (apply Forall_app; split); try by repeat constructor. induction c as [|j c IHc]; [constructor|]. cbn [text_elements]. apply Forall_app; split; [by apply IH; auto with datatypes|].
    apply Forall_app; split; [|by apply IHc; auto with datatypes]. destruct (is_last c); [constructor|]. constructor; [done|]. by apply no_nul_char.
  - apply Forall_app; split; [constructor; [done|by apply no_nul_char]|]. apply Forall_app; split; [|apply Forall_app; split; [apply no_nul_tabs|by repeat constructor]].
    induction c as [|j c IHc]; [constructor|]. cbn [text_members].
    apply Forall_app; split; [apply no_nul_tabs|]. apply Forall_app; split.
    { apply quoted_no_nul. specialize (Hcl j ltac:(by left)). destruct j as [? ? ? ? sj ?]. cbn [clean string] in *. rewrite !andb_true_iff in Hcl. tauto. }
    constructor; [done|]. apply Forall_app; split; [by apply no_nul_char|]. apply Forall_app; split; [by apply IH; auto with datatypes|].
    apply Forall_app; split; [apply Forall_app; split; [destruct (is_last c); by repeat constructor|by apply no_nul_char]|]. apply IHc; auto with datatypes.
Qed.

(** What comes back has the same text. *)
Lemma as_parsed_name name j : string (as_parsed name j) = name.
Proof. destruct j as [t vs vi vd s c]. cbn [as_parsed]. by repeat case_match. Qed.

Lemma text_elements_map tx (g : kJSON -> kJSON) c : Forall (fun j => tx (g j) = tx j) c -> text_elements fmt tx (map g c) = text_elements fmt tx c.
Proof. induction 1 as [|j c Hj Hc IH]; [done|]. cbn [map text_elements]. rewrite Hj, IH. by destruct c. Qed.

Lemma text_members_map tx fd (g : kJSON -> kJSON) c : Forall (fun j => tx (g j) = tx j /\ string (g j) = string j) c ->
  text_members fmt tx fd (map g c) = text_members fmt tx fd c.
Proof. induction 1 as [|j c [Hj Hs] Hc IH]; [done|]. cbn [map text_members]. rewrite Hj, Hs, IH. by destruct c. Qed.

Lemma text_as_parsed j : well_typed j = true -> forall name d, text fmt d (as_parsed name j) = text fmt d j.
Proof.
  induction j as [t vs vi vd s c IH] using kJSON_ind'. intros [Hfo Hw]%well_typed_item name d. rewrite List.Forall_forall in IH, Hw. cbn [as_parsed].
  unfold fields_ok in Hfo. destruct (Z.eqb_spec t KS_JSON_TYPE_STRING) as [->|]; [done|]. destruct (Z.eqb_spec t KS_JSON_TYPE_NUMBER) as [->|]; [done|].
  destruct (Z.eqb_spec t KS_JSON_TYPE_OBJECT) as [->|].
  - cbn [text Z.eqb]. cbn. do 2 f_equal. f_equal. apply text_members_map. apply List.Forall_forall. intros j Hj. rewrite as_parsed_name. split; [|done]. by apply IH; auto.
  - destruct (Z.eqb_spec t KS_JSON_TYPE_ARRAY) as [->|].
    + cbn. do 2 f_equal. apply text_elements_map. apply List.Forall_forall. intros j Hj. by apply IH; auto.
    + cbn [text]. rewrite andb_true_iff, !orb_true_iff, !Z.eqb_eq in Hfo. destruct Hfo as [[[->| ->]| ->] _]; done.
Qed.

End Values.

(** ** The round trip *)

Lemma parse_printed fmt j junk require_null_terminated h :
  well_typed j = true -> clean j = true -> exact_numbers j = true -> nesting j <= CJSON_NESTING_LIMIT -> serves h ->
  exists h', kJSON_ParseWithOpts (Some (text fmt 0 j ++ 0 :: junk)) require_null_terminated h =
    Ok (Parsed (Some (as_parsed None j)) (Some (zlen (text fmt 0 j))) None h').
Proof.
  intros Hw Hc Hx Hn Hh. pose proof (text_no_nul fmt j Hw Hc Hx 0) as Hnul. pose proof (text_head fmt 0 j Hw Hx) as (c & r & ET & Hc1 & Hc2 & Hc3).
  pose proof (value_at fmt j Hw Hc Hx nesting_fuel 0 0 ltac:(lia) ltac:(unfold nesting_fuel, CJSON_NESTING_LIMIT; lia)) as [_ Hv].
  set (T := text fmt 0 j) in *. set (m := T ++ 0 :: junk). pose proof (zlen_nonneg T). pose proof (zlen_nonneg r).
  unfold kJSON_ParseWithOpts. assert (El : strlen m = Ok (zlen T)) by (by apply strlen_app). rewrite El. cbn [mbind res_bind].
  destruct (new_item_serves h Hh) as (h1 & -> & Hh1). change (set_hooks h1 (Buf m (zlen T + 1) 0 0 h)) with (at_ m [] (zlen T + 1) 0 h1).
  assert (Em : m = [] ++ c :: r ++ 0 :: junk) by (subst m; rewrite ET; app_norm).
  assert (Eb : skip_utf8_bom (at_ m [] (zlen T + 1) 0 h1) = Ok (Some (at_ m [] (zlen T + 1) 0 h1))).
  { unfold skip_utf8_bom. change (offset (at_ m [] (zlen T + 1) 0 h1) =? 0) with true. cbn [negb]. destruct (can_access_at_index _ _); [|done].
    cbn [at_ content offset]. rewrite Em, (starts_other [] c) by (done || lia). done. }
  rewrite Eb. cbn [mbind res_bind].
  assert (Es : buffer_skip_whitespace (at_ m [] (zlen T + 1) 0 h1) = Ok (at_ m [] (zlen T + 1) 0 h1)) by (rewrite Em; apply skip_none; [lia|change (zlen (@nil Z)) with 0; lia]).
  rewrite Es. cbn [mbind res_bind].
  destruct (Hv [] 0 junk (zlen T + 1) h1 0 None ltac:(done)) as (h2 & Hh2 & E); [change (zlen (@nil Z)) with 0; lia|done|]. cbn zeta in E. cbn [app] in E. fold m in E.
  change (new_item 0) with (Item 0 None 0 zero None []). rewrite E. cbn [mbind res_bind negb].
  destruct require_null_terminated; cbn [mbind res_bind]; [|by exists h2].
  assert (Ee : buffer_skip_whitespace (at_ m T (zlen T + 1) 0 h2) = Ok (at_ m T (zlen T + 1) 0 h2)).
  { unfold buffer_skip_whitespace. cbn [at_ len]. replace (Z.to_nat (zlen T + 1)) with (S (Z.to_nat (zlen T))) by lia. cbn [skip_loop].
    change (Buf m (zlen T + 1) (zlen T) 0 h2) with (at_ m T (zlen T + 1) 0 h2). rewrite at_access by lia. assert (E0 : buffer_at (at_ m T (zlen T + 1) 0 h2) 0 = Ok 0) by apply at_byte. rewrite E0. cbn [mbind res_bind].
    change (0 <=? 32) with true. cbv iota. rewrite (at_step m T 0). unfold can_access_at_index at 1. cbn [at_ offset len]. rewrite zlen_app. change (zlen [0]) with 1.
    destruct (Z.ltb_spec (zlen T + 1 + 0) (zlen T + 1)); [lia|]. cbn [mbind res_bind]. unfold at_, set_offset. cbn [offset len]. rewrite zlen_app. change (zlen [0]) with 1. rewrite Z.eqb_refl. do 2 f_equal. lia. }
  rewrite Ee. cbn [mbind res_bind]. assert (E0 : next_is (at_ m T (zlen T + 1) 0 h2) 0 = Ok true) by (apply at_next; lia). rewrite E0. by exists h2.
Qed.

Lemma exact_convertible j : exact_numbers j = true -> numbers_ok j = true.
Proof.
  induction j as [t vs vi vd s c IH] using kJSON_ind'. cbn [exact_numbers numbers_ok]. rewrite !andb_true_iff, !orb_true_iff, !forallb_forall.
  intros [Hx Hc]. split; [destruct Hx as [Hx|Hx]; [by left|right]; by apply andb_true_iff in Hx as [? _]|]. rewrite List.Forall_forall in IH. auto.
Qed.

(** C40: printed and parsed again, with or without tabs and line breaks: take a
    well-typed value with NUL-free strings, nested at most 1000 deep, whose numbers
    are exact (whole within [long int], or multiples of 1/64 that six places hold;
    others are rounded, [print_rounds]) and whose text fits
    [INT_MAX], and an allocator that serves. [ks_json_print] or
    [ks_json_print_unformatted] gives a NUL-terminated text. [kJSON_ParseWithOpts],
    with and without the request for a NUL behind the value, and so [ks_json_parse],
    accepts that text whatever lies behind it in memory, stops at its NUL and gives
    the value [as_parsed] back: the same type, text, number and children, but for
    what a text does not have, the names of elements of arrays and of the value
    itself, and that [valueint] is 1 for true. Printed again it has the same text. *)
Theorem json_text_roundtrip (formatted : bool) j junk require_null_terminated h h2 :
  well_typed j = true -> clean j = true -> exact_numbers j = true -> nesting j <= CJSON_NESTING_LIMIT ->
  zlen (text formatted 0 j) + 2 <= INT_MAX -> serve h = [] -> serve h2 = [] ->
  let print := if formatted then ks_json_print else ks_json_print_unformatted in
  exists t h1 h3, print (Some j) h = Ok (Some (t ++ [0]), h1) /\
    kJSON_ParseWithOpts (Some ((t ++ [0]) ++ junk)) require_null_terminated h2 = Ok (Parsed (Some (as_parsed None j)) (Some (zlen t)) None h3) /\
    (require_null_terminated = false -> ks_json_parse (Some ((t ++ [0]) ++ junk)) h2 = Ok (Parsed (Some (as_parsed None j)) (Some (zlen t)) None h3)) /\
    text formatted 0 (as_parsed None j) = t.
Proof.
  intros Hw Hc Hx Hn Hl Hh Hh2 print. destruct (print_ok formatted j h Hw Hc (exact_convertible j Hx)) as (r & h1 & E & Hr).
  destruct r as [m|]; [|destruct Hr as [[Hr|Hr] _]; [by apply refused_nil in Hr|lia]]. destruct Hr as [-> _].
  destruct (parse_printed formatted j junk require_null_terminated h2 Hw Hc Hx Hn Hh2) as (h3 & Ep).
  exists (text formatted 0 j), h1, h3. rewrite <- !app_assoc. cbn [app]. split; [by destruct formatted|]. split; [done|]. split; [by intros ->|by apply text_as_parsed].
Qed.

(** A member k with true, -2.5 and a string of a control character and a quote, and an
    empty object e: the value comes back as it was. *)
Definition example : kJSON :=
  Item 64 None 0 zero None [Item 32 None 0 zero (Some [107]) [Item 2 None 1 zero None []; Item 8 None (-2) (Fin (-5) (-1)) None []; Item 16 (Some [1; 34]) 0 zero None []];
                            Item 64 None 0 zero (Some [101]) []].
Lemma json_text_roundtrip_witness :
  exists t h1 h3, ks_json_print (Some example) (Hooks [] 170 0 true) = Ok (Some (t ++ [0]), h1) /\
    kJSON_ParseWithOpts (Some ((t ++ [0]) ++ [93])) true (Hooks [] 7 0 false) = Ok (Parsed (Some example) (Some (zlen t)) None h3).
Proof.
  destruct (json_text_roundtrip true example [93] true (Hooks [] 170 0 true) (Hooks [] 7 0 false)) as (t & h1 & h3 & E1 & E2 & _);
    [by vm_compute..|]. exists t, h1, h3. split; [exact E1|exact E2].
Defined.

End JsonText.
