(* ===== verification/KwsConnect.v ===== *)
(** Setting WebSocket connections up and taking them down (src/src/kws.c: [kws_create],
    [kws_init_ex], [kws_connect_ex], [kws_wait_sock], [kws_destroy]): the URL and the
    parameters, the handshake over the new socket, what a failed one leaves. *)
From S2P Require Import Prelude StrUtil Kws KwsHandshake Json.
Import Kws KwsHandshake.
Local Open Scope Z_scope.

Module KwsConnect.

Definition WS_INIT_SANITY : Z := 5000.
Definition WS_BUFLEN : Z := 65536.
Definition KS_POLL_READ : Z := 1.
Definition KS_POLL_ERROR : Z := 4.
Definition KS_USEC_PER_MSEC : Z := 1000.

(** A socket: not [KS_SOCK_INVALID], what reading and writing meet on it, and the
    values [rand] will give. *)
Record socket := Socket { s_valid : bool; s_in : list recv_event; s_out : list send_event; s_rand : list Z }.

(** The object of [kws_create]: memory of a pool is zeroed. *)
Definition kws_create : kws :=
  MkKws KWS_CLIENT true [] [] 0 0 0 None (MkReader 0 0 0 []) (MkWriter [] [] []) 0 false false 0 0 0 None 0 0 [] [] None [].

(** The string up to the first [c] and what stands behind it. *)
Definition cut (c : Z) (s : list Z) : list Z * option (list Z) :=
  match up_to c s with
  | Some l => (l, Some (drop (S (length l)) s))
  | None => (s, None)
  end.

(** The request's path, host and protocol from [client_data]. *)
Definition split_client_data (k : kws) (client_data : list Z) : list Z * list Z * option (list Z) :=
  match cut 58 client_data with
  | (uri, None) => (uri, k.(req_host), k.(req_proto))
  | (uri, Some rest) =>
    match cut 58 rest with
    | (host, None) => (uri, host, k.(req_proto))
    | (host, Some proto) => (uri, host, Some proto)
    end
  end.

(** The headers [ws_client_handshake] takes from the parameters. *)
Fixpoint collect_headers (items : list Json.kJSON) : res (list (list Z * list Z)) :=
  match items with
  | [] => Ok []
  | param :: items =>
    k ← Json.ks_json_get_object_string (Some param) (Some (text "key")) None;
    v ← Json.ks_json_get_object_string (Some param) (Some (text "value")) None;
    hs ← collect_headers items;
    Ok (match k, v with Some k, Some v => (k, v) :: hs | _, _ => hs end)
  end.

Definition param_headers (params : option Json.kJSON) : res (list (list Z * list Z)) :=
  headers ← Json.ks_json_get_object_item params (Some (text "headers"));
  collect_headers (Json.ks_json_enum_child headers).

(** What waiting gives; [ready]: the result of [ks_wait_sock]. *)
Definition kws_wait_sock (k : kws) (ready : Z) : Z :=
  if negb k.(sock) then KS_POLL_ERROR
  else if 0 <? k.(rd).(unprocessed_buffer_len) then KS_POLL_READ
  else ready.

Definition kws_destroy (k : kws) : kws :=
  let k := if k.(down) =? 0 then (kws_close k WS_NONE).2 else k in
  if 1 <? k.(down) then k else
  let k := set_down 2 k in
  let k := match k.(write_buffer) with Some _ => set_write_buffer_len 0 (set_write_buffer None k) | None => k end in
  set_bbuffer [] (set_buffer [] k).

Section Init.
Context (SHA1 : list Z -> list Z) (pool_alloc : Z -> option (list Z)).

(** The fields before the handshake. *)
Definition init_fields (k0 : kws) (s : socket) (client_data : option (list Z)) (flags : Z) (params : option Json.kJSON) : res kws :=
  max ← Json.ks_json_get_object_number_int params (Some (text "payload_size_max")) 0;
  let block := if negb (Z.land flags KWS_BLOCK =? 0) then WS_BLOCK else k0.(block) in
  v ← match client_data with
      | Some cd =>
        hs ← param_headers (Json.ks_json_duplicate params true);
        Ok (KWS_CLIENT, flags, split_client_data k0 cd, hs)
      | None => Ok (KWS_SERVER, Z.lor flags KWS_FLAG_DONTMASK, (k0.(req_uri), k0.(req_host), k0.(req_proto)), [])
      end;
  let '(type, flags, (uri, host, proto), hs) := v in
  Ok (MkKws type s.(s_valid) (default [] (pool_alloc WS_BUFLEN)) (default [] (pool_alloc WS_BUFLEN)) WS_BUFLEN WS_BUFLEN
    k0.(datalen) k0.(Kws.uri) (MkReader k0.(rd).(x) 0 0 s.(s_in)) (MkWriter s.(s_out) [] s.(s_rand)) k0.(down)
    k0.(handshake) k0.(logical_established) block WS_INIT_SANITY flags k0.(write_buffer) k0.(write_buffer_len)
    max uri host proto hs).

(** [times]: what [ks_time_now] says after each try. The wait between the tries
    has no effect on the connection. *)
Fixpoint timed_handshake (times : list Z) (deadline : Z) (k : kws) : res (Z * kws) :=
  v ← establish_logical_layer SHA1 k;
  let '(ll, k) := v in
  if ll =? -2 then
    match times with
    | [] => Err NoFuel
    | now :: times => if deadline <=? now then Ok (-1, k) else timed_handshake times deadline k
    end
  else Ok (ll, k).

(** The status, what [*kwsP] is then, and the object, which after a failure has
    been destroyed. Without TLS. *)
Definition kws_init_ex (k0 : option kws) (s : socket) (client_data : option (list Z)) (flags : Z) (params : option Json.kJSON)
    (start : Z) (times : list Z) : res (ks_status_t * option kws * kws) :=
  k ← init_fields (default kws_create k0) s client_data flags params;
  hs_timeout ← Json.ks_json_get_object_number_int params (Some (text "ws_handshake_timeout_ms")) 0;
  let hs_timeout_ms := u32 hs_timeout in
  v ← (if 0 <? hs_timeout_ms then
         v ← timed_handshake times (start + hs_timeout_ms * KS_USEC_PER_MSEC) (set_block 0 k);
         let '(ll, k') := v in Ok (ll, set_block k.(block) k')
       else establish_logical_layer SHA1 k);
  let '(ll, k) := v in
  if (ll =? -1) || negb (k.(down) =? 0) then Ok (KS_STATUS_FAIL, None, kws_destroy k)
  else Ok (KS_STATUS_SUCCESS, Some k, k).
End Init.

(** ** Connecting *)

Definition path_of (s : list Z) : list Z :=
  match up_to 47 s with Some l => drop (length l) s | None => text "/" end.

(** Host, port and path of a URL behind its scheme. *)
Definition split_url (p : list Z) (port : Z) : res (list Z * Z * list Z) :=
  match cut 58 p with
  | (host, Some q) => n ← StrUtil.atoi q; Ok (host, u16 n, path_of q)
  | (host, None) => Ok ((cut 47 p).1, port, path_of p)
  end.

Definition begins (name s : list Z) : bool := bool_decide (take (length name) s = name).

Definition client_data (path host : list Z) (protocol : option (list Z)) : list Z :=
  path ++ 58 :: host ++ match protocol with Some pr => 58 :: pr | None => [] end.

Section Connect.
(** [ks_addr_getbyname] and [ks_socket_connect_ex] (ks_socket.c over the resolver
    and the network) and [SSL_CTX_new]; [init]: [kws_init_ex], told whether it is
    given a TLS context. *)
Context {addr : Type} (getbyname : list Z -> Z -> ks_status_t * addr) (socket_connect : addr -> Z -> socket) (SSL_CTX_new : bool).
Context (init : bool -> option kws -> socket -> option (list Z) -> Z -> option Json.kJSON -> res (ks_status_t * option kws * kws)).

(** Where to connect to, whether over TLS; or that there is no such place and what
    [*kwsP] becomes. *)
Definition connect_target (k0 : option kws) (params : option Json.kJSON) (ssl_ctx : bool) :
    res (option kws + bool * option (list Z) * Z * option (list Z)) :=
  url ← Json.ks_json_get_object_string params (Some (text "url")) None;
  match url with
  | None =>
    path ← Json.ks_json_get_object_string params (Some (text "path")) None;
    host ← Json.ks_json_get_object_string params (Some (text "host")) None;
    tmp ← Json.ks_json_get_object_item params (Some (text "port"));
    (* the [int] is stored to a [ks_port_t] of 16 bits *)
    if Json.ks_json_type_is_number tmp then Err OutOfBounds else Ok (inr (ssl_ctx, host, 443, path))
  | Some url =>
    if begins (text "wss://") url then
      if ssl_ctx || SSL_CTX_new then
        v ← split_url (drop 6 url) 443;
        let '(host, port, path) := v in Ok (inr (true, Some host, port, Some path))
      else Ok (inl k0)
    else if begins (text "ws://") url then
      v ← split_url (drop 5 url) 80;
      let '(host, port, path) := v in Ok (inr (ssl_ctx, Some host, port, Some path))
    else Ok (inl None)
  end.

(** The status and what [*kwsP] is then; [k0]: what it was. *)
Definition kws_connect_ex (k0 : option kws) (params : option Json.kJSON) (flags : Z) (ssl_ctx : bool) (timeout_ms : Z) :
    res (ks_status_t * option kws) :=
  protocol ← Json.ks_json_get_object_string params (Some (text "protocol")) None;
  t ← connect_target k0 params ssl_ctx;
  match t with
  | inl k => Ok (KS_STATUS_FAIL, k)
  | inr (tls, Some host, port, Some path) =>
    let '(status, a) := getbyname host port in
    if decide (status = KS_STATUS_SUCCESS) then
      let cl_sock := socket_connect a timeout_ms in
      v ← init tls k0 cl_sock (Some (client_data path host protocol)) flags params;
      let '(status, k, _) := v in
      Ok (if decide (status = KS_STATUS_SUCCESS) then (KS_STATUS_SUCCESS, k) else (KS_STATUS_FAIL, k))
    else Ok (status, k0)
  | inr _ => Ok (KS_STATUS_FAIL, k0)
  end.

Definition kws_connect (k0 : option kws) (params : option Json.kJSON) (flags : Z) : res (ks_status_t * option kws) :=
  kws_connect_ex k0 params flags false 30000.
End Connect.

(** ** URLs *)

Lemma up_to_none x l : Forall (fun c => c <> x) l -> up_to x l = None.
Proof. induction 1 as [|c l Hc _ IH]; cbn; [done|]. destruct (Z.eqb_spec c x); [done|]. by rewrite IH. Qed.

Lemma cut_at c l s : Forall (fun b => b <> c) l -> cut c (l ++ c :: s) = (l, Some s).
Proof.
  intros Hl. unfold cut. rewrite up_to_app by done. do 2 f_equal.
  replace (S (length l)) with (length (l ++ [c])) by (rewrite length_app; simpl; lia).
  rewrite (cons_middle c l s), app_assoc. apply drop_app_length.
Qed.

Lemma cut_none c l : Forall (fun b => b <> c) l -> cut c l = (l, None).
Proof. intros Hl. unfold cut. by rewrite up_to_none. Qed.

Lemma decimal_digits fuel : forall n acc, (0 < fuel)%nat -> 0 <= n < 10 ^ Z.of_nat fuel ->
  exists ds, StrUtil.decimal fuel n acc = ds ++ acc /\ ds <> [] /\ Forall (fun c => 48 <= c <= 57) ds /\
    forall t m, StrUtil.digits (ds ++ t) m = StrUtil.digits t (m * 10 ^ Z.of_nat (length ds) + n).
Proof.
  induction fuel as [|fuel IH]; intros n acc Hf Hn; [lia|]. cbn [StrUtil.decimal].
  assert (Hstep : forall d t m, 0 <= d < 10 -> StrUtil.digits (48 + d :: t) m = StrUtil.digits t (m * 10 + d)).
  { intros d t m Hd. cbn [StrUtil.digits]. destruct (Z.leb_spec 48 (48 + d)); [|lia]. destruct (Z.leb_spec (48 + d) 57); [|lia].
    cbn [andb]. f_equal. lia. }
  pose proof (Z.mod_pos_bound n 10 ltac:(lia)) as Hm. destruct (Z.ltb_spec n 10).
  - rewrite Z.mod_small in * by lia. exists [48 + n]. split; [done|]. split; [done|]. split; [repeat constructor; lia|].
    intros t m. cbn [app length]. rewrite Hstep by lia. by rewrite Z.pow_1_r.
  - rewrite Nat2Z.inj_succ, Z.pow_succ_r in Hn by lia. pose proof (Z.div_mod n 10 ltac:(lia)).
    destruct fuel as [|fuel]; [change (10 ^ Z.of_nat 0) with 1 in Hn; lia|].
    destruct (IH (n / 10) (48 + n mod 10 :: acc)) as (ds & -> & Hne & Hds & Hval); [lia|lia|].
    exists (ds ++ [48 + n mod 10]). rewrite <- app_assoc. split; [done|]. split; [by destruct ds|].
    split; [apply Forall_app; split; [done|repeat constructor; lia]|].
    intros t m. rewrite <- app_assoc. cbn [app]. rewrite Hval, Hstep by lia. f_equal.
    rewrite length_app, Nat2Z.inj_add, Z.pow_add_r by lia. cbn [length]. change (10 ^ Z.of_nat 1) with 10. lia.
Qed.

(** A host, an optional port and a path as an URL has them. *)
Record url_ok (host : list Z) (port : option Z) (path : list Z) : Prop := {
  url_host : plain host /\ Forall (fun c => c <> 58) host /\ Forall (fun c => c <> 47) host;
  url_port : match port with Some n => 0 <= n < 65536 | None => True end;
  url_path : plain path /\ Forall (fun c => c <> 58) path /\ Forall (fun c => c <> 32) path;
  url_slash : exists t, path = 47 :: t
}.

Definition port_text (port : option Z) : list Z := match port with Some n => 58 :: StrUtil.decimal 20 n [] | None => [] end.

Lemma path_of_app l t : Forall (fun c => c <> 47) l -> path_of (l ++ 47 :: t) = 47 :: t.
Proof. intros Hl. unfold path_of. rewrite up_to_app by done. apply drop_app_length. Qed.

Lemma split_url_ok host port path default_port : url_ok host port path ->
  split_url (host ++ port_text port ++ path) default_port = Ok (host, default default_port port, path).
Proof.
  intros [(_ & Hc & Hs) Hp (_ & Hpc & _) (t & ->)]. unfold split_url, port_text. destruct port as [n|].
  - cbn [app]. rewrite cut_at by done.
    destruct (decimal_digits 20 n [] ltac:(lia) ltac:(lia)) as (ds & -> & Hne & Hds & Hval). rewrite app_nil_r.
    assert (Ea : StrUtil.atoi (ds ++ 47 :: t) = Ok n).
    { destruct ds as [|d ds]; [done|]. pose proof (Forall_inv Hds) as Hd. cbn beta in Hd. unfold StrUtil.atoi. cbn [app StrUtil.skip_white].
      destruct (Z.eqb_spec d 32); [lia|]. destruct (Z.leb_spec 9 d); [|lia]. destruct (Z.leb_spec d 13); [lia|]. cbn [orb andb].
      specialize (Hval (47 :: t) 0). cbn [app] in Hval.
      assert (E : (match d :: ds ++ 47 :: t with 43 :: s => StrUtil.digits s 0 | 45 :: s => - StrUtil.digits s 0 | s => StrUtil.digits s 0 end) =
        StrUtil.digits (d :: ds ++ 47 :: t) 0).
      { assert (Hl : forall d, 48 <= d <= 57 -> d <> 43 /\ d <> 45) by lia. clear - Hd.
        destruct d as [|d|d]; try lia. repeat (destruct d as [d|d|]; try lia; try reflexivity). }
      rewrite E, Hval. change (StrUtil.digits (47 :: t) (0 * 10 ^ Z.of_nat (length (d :: ds)) + n)) with n. unfold INT_MAX.
      destruct (Z.leb_spec (-2147483648) n); [|lia]. destruct (Z.leb_spec n 2147483647); [done|lia]. }
    rewrite Ea. cbn [mbind res_bind default from_option].
    rewrite u16_id by lia. rewrite path_of_app; [done|]. eapply Forall_impl; [exact Hds|]. cbn. lia.
  - cbn [app]. rewrite cut_none by (apply Forall_app; split; done). rewrite cut_at by done. cbn [fst default from_option].
    by rewrite path_of_app.
Qed.

Lemma split_client_data_ok k path host protocol : Forall (fun c => c <> 58) path -> Forall (fun c => c <> 58) host ->
  k.(req_proto) = None -> split_client_data k (client_data path host protocol) = (path, host, protocol).
Proof.
  intros Hp Hh Hk. unfold split_client_data, client_data. rewrite cut_at by done. destruct protocol.
  - by rewrite cut_at.
  - by rewrite app_nil_r, cut_none, Hk.
Qed.

(** ** The handshake of any peer is safe *)

Lemma cstr_ended (m : list Z) : In 0 m -> exists s, cstr m 0 = Ok s.
Proof.
  intros Hin. apply list_elem_of_In, list_elem_of_split_l in Hin as (l & t & -> & Hl). exists l. apply cstr_full.
  apply Forall_forall. intros c Hc ->. done.
Qed.

Lemma ended_st (m : list Z) i m' : st m i 0 = Ok m' -> In 0 m'.
Proof.
  unfold st. destruct ((0 <=? i) && (i <? zlen m)) eqn:E; [|done]. intros [= <-]. apply andb_prop in E as [H1 H2].
  apply list_elem_of_In, list_elem_of_lookup. exists (Z.to_nat i). apply list_lookup_insert_eq. unfold zlen in *. lia.
Qed.

(** A string read leaves the buffer terminated. *)
Lemma read_ended rd dst off size block : safe_rd (zlen dst) rd -> 1 <= size < 9223372036854775808 ->
  0 <= off -> off + size <= zlen dst ->
  exists r dst' rd', kws_string_read rd None dst off size block = Ok (r, dst', rd') /\ -2 <= r < size /\
    zlen dst' = zlen dst /\ In 0 dst' /\ safe_rd (zlen dst) rd' /\ avail rd' <= avail rd - Z.max 0 r.
Proof.
  intros Hrd Hs Ho Hl. unfold kws_string_read. destruct (Z.ltb_spec size 1); [lia|].
  destruct (st_ok dst (off + size - 1) 0) as (dst1 & Est & Hd1); [lia|]. rewrite Est. cbn [mbind res_bind].
  pose proof (ended_st _ _ _ Est) as Hin. destruct (Z.ltb_spec size 2).
  { exists 0, dst1, rd. parts. }
  cbn [default from_option]. rewrite <- Hd1 in Hrd |- *.
  destruct (raw_read_safe rd dst1 (size - 1) block Hrd ltac:(lia)) as (r & d & rd' & -> & Hr & Hd & Hrd' & Ha & Ha0).
  cbn [mbind res_bind]. destruct (blit_in dst1 d off) as (dst2 & Eb & Hd2); [lia|lia|]. rewrite Eb. cbn [mbind res_bind].
  exists r, dst2, rd'. split; [done|]. parts.
  clear - Est Eb Hs Hd Ho Hl. assert (E : dst1 = take (Z.to_nat (off + size - 1)) dst ++ 0 :: drop (S (Z.to_nat (off + size - 1))) dst).
  { pose proof (st_behind [] dst (off + size - 1) 0 ltac:(lia)) as E. change (zlen (@nil Z)) with 0 in E.
    rewrite Z.add_0_l in E. cbn [app] in E. rewrite E in Est. by injection Est. }
  unfold blit in Eb. destruct (_ && _); [|done]. injection Eb as <-. apply in_or_app. right. apply in_or_app. right.
  rewrite E. rewrite drop_app_le by (rewrite length_take; unfold zlen in *; lia). apply in_or_app. right. by left.
Qed.

(** A connection that is being set up. *)
Record opened (k : kws) : Prop := {
  op_up : k.(down) = 0;
  op_sanity : k.(sanity) <> 0;
  op_buffer : 64 <= zlen k.(buffer) /\ k.(buflen) = zlen k.(buffer) /\ k.(buflen) < 9223372036854775808;
  op_bbuffer : zlen k.(bbuffer) = k.(bbuflen) /\ k.(bbuflen) < 9223372036854775808;
  op_datalen : 0 <= k.(datalen) < k.(buflen);
  op_rd : safe_rd (zlen k.(buffer)) k.(rd)
}.

Lemma opened_head k d buf rd : opened k -> head_safe k buf rd -> 0 <= d < k.(buflen) -> opened (upd_head k d buf rd).
Proof. intros [? ? ? ? ? ?] [E ?] Hd. split; try done; cbn; by rewrite E. Qed.

Lemma opened_handshake v k : opened k -> opened (set_handshake v k).
Proof. intros []. by split. Qed.
Lemma opened_logical v k : opened k -> opened (set_logical_established v k).
Proof. intros []. by split. Qed.
Lemma opened_wr w k : opened k -> opened (set_wr w k).
Proof. intros []. by split. Qed.
Lemma opened_uri u k : opened k -> opened (set_uri u k).
Proof. intros []. by split. Qed.
Lemma opened_flags f k : opened k -> opened (set_flags f k).
Proof. intros []. by split. Qed.
Lemma opened_block b k : opened k -> opened (set_block b k).
Proof. intros []. by split. Qed.
Lemma opened_buffer b k : opened k -> zlen b = zlen k.(buffer) -> opened (set_buffer b k).
Proof. intros [] Hb. split; try done; unfold set_buffer; cbn [buffer buflen rd]; by rewrite Hb. Qed.
Lemma opened_left k n pos ev : opened k -> 0 <= n -> 0 <= pos -> pos + n <= zlen k.(buffer) ->
  opened (set_rd (MkReader k.(rd).(x) n pos ev) k).
Proof. intros []. by split. Qed.
#[local] Hint Resolve opened_handshake opened_logical opened_wr opened_uri opened_flags opened_block : core.

Lemma server_read_safe : forall fuel k, opened k -> avail k.(rd) < Z.of_nat fuel ->
  exists bytes d buf rd, server_read_loop fuel k = Ok (bytes, upd_head k d buf rd) /\ head_safe k buf rd /\
    0 <= d < k.(buflen) /\ In 0 buf.
Proof.
  induction fuel as [|fuel IH]; intros k Hk Hf.
  { pose proof (inbox_nonneg k.(rd).(inbox)). destruct (op_rd k Hk) as [? _]. unfold avail in Hf. lia. }
  destruct Hk as [? ? (Hb1 & Hb2 & Hb3) ? Hd Hrd] eqn:Ek. clear Ek. cbn [server_read_loop].
  destruct (read_ended k.(rd) k.(buffer) k.(datalen) (k.(buflen) - k.(datalen)) WS_BLOCK)
    as (r & buf & rd1 & -> & Hr & Hbuf & Hin & Hrd1 & Ha); [done|lia..|]. cbn [mbind res_bind].
  destruct (Z.ltb_spec 0 r); cycle 1.
  { exists r, k.(datalen), buf, rd1. split; [by destruct k|]. split; [by split|]. done. }
  destruct (cstr_ended buf Hin) as (req & ->). cbn [mbind res_bind].
  set (k1 := set_datalen _ _). assert (E1 : k1 = upd_head k (k.(datalen) + r) buf rd1) by by destruct k.
  assert (Hh : head_safe k buf rd1) by by split.
  destruct (is_Some_dec (after [13; 10; 13; 10] req)); [|destruct (is_Some_dec (after [10; 10] req))].
  1,2: exists r, (k.(datalen) + r), buf, rd1; rewrite E1; parts.
  rewrite E1. destruct (IH (upd_head k (k.(datalen) + r) buf rd1)) as (b & d & buf2 & rd2 & -> & [E2 Hs2] & Hd2 & Hin2).
  { apply opened_head; [by split|done|lia]. }
  { cbn. lia. }
  cbn in E2, Hs2, Hd2. exists b, d, buf2, rd2. split; [done|]. split; [split; [by rewrite E2|by rewrite <- Hbuf]|]. done.
Qed.

Lemma client_read_safe : forall fuel k, opened k -> avail k.(rd) < Z.of_nat fuel ->
  exists bytes buf rd, client_read_loop fuel k = Ok (bytes, upd_head k k.(datalen) buf rd) /\ head_safe k buf rd /\
    bytes < k.(buflen) /\ In 0 buf.
Proof.
  induction fuel as [|fuel IH]; intros k Hk Hf.
  { pose proof (inbox_nonneg k.(rd).(inbox)). destruct (op_rd k Hk) as [? _]. unfold avail in Hf. lia. }
  pose proof Hk as [? ? (Hb1 & Hb2 & Hb3) ? Hd Hrd]. cbn [client_read_loop].
  destruct (read_ended k.(rd) k.(buffer) k.(datalen) (k.(buflen) - k.(datalen)) WS_BLOCK)
    as (r & buf & rd1 & -> & Hr & Hbuf & Hin & Hrd1 & Ha); [done|lia..|]. cbn [mbind res_bind].
  assert (E1 : set_rd rd1 (set_buffer buf k) = upd_head k k.(datalen) buf rd1) by by destruct k.
  assert (Hh : head_safe k buf rd1) by by split. rewrite E1.
  destruct (Z.ltb_spec 0 r); [|exists r, buf, rd1; parts].
  destruct (cstr_ended buf Hin) as (resp & ->). cbn [mbind res_bind].
  destruct (after [13; 10; 13; 10] resp); [exists r, buf, rd1; parts|].
  destruct (IH (upd_head k k.(datalen) buf rd1)) as (b & buf2 & rd2 & -> & [E2 Hs2] & Hb & Hin2).
  { by apply opened_head. }
  { cbn. lia. }
  cbn in E2, Hs2, Hb. exists b, buf2, rd2. split; [done|]. split; [split; [by rewrite E2|by rewrite <- Hbuf]|]. done.
Qed.

Lemma after_suffix pat s r : after pat s = Some r -> exists l, s = l ++ r.
Proof.
  assert (Hd : forall s0 r0 : list Z, Some (drop (length pat) s0) = Some r0 -> exists l, s0 = l ++ r0).
  { intros s0 r0 [= <-]. exists (take (length pat) s0). by rewrite take_drop. }
  induction s as [|c s IH]; cbn [after]; (destruct (bool_decide _); [apply Hd|]); [done|].
  intros H. destruct (IH H) as (l & ->). by exists (c :: l).
Qed.

Section Safe.
Context (SHA1 : list Z -> list Z).

Lemma pending_fuel k : avail k.(rd) < Z.of_nat (S (S (pending_bytes k.(rd)))).
Proof. pose proof (pending_avail k.(rd)). lia. Qed.

Lemma client_safe k : opened k -> exists r k', ws_client_handshake SHA1 k = Ok (r, k') /\ -1 <= r /\
  (0 <= r -> opened k' /\ k'.(handshake) = true).
Proof.
  intros Hk. unfold ws_client_handshake. destruct (gen_nonce (wr k) 16) as [nonce w]. set (k1 := set_wr _ k).
  assert (Hk1 : opened k1) by (by apply opened_wr). clearbody k1.
  destruct (client_read_safe (S (S (pending_bytes k1.(rd)))) k1 Hk1 (pending_fuel k1)) as (b & buf & rd1 & -> & Hh & Hb & Hin).
  cbn [mbind res_bind]. destruct (Z.ltb_spec 0 b); [|eexists _, _; by split].
  cbn [buffer upd_head set_datalen set_rd set_buffer]. destruct (cstr_ended buf Hin) as (resp & ->). cbn [mbind res_bind].
  destruct (_ || _); [eexists _, _; by split|].
  set (k2 := upd_head _ _ _ _). assert (Hk2 : opened k2) by (apply opened_head; [done|done|apply (op_datalen _ Hk1)]).
  eexists _, _. split; [reflexivity|]. split; [done|]. intros _. split; [apply opened_handshake|done].
  destruct (after [13; 10; 13; 10] resp) as [rest|] eqn:Ea; [|done].
  destruct (Z.ltb_spec (zlen resp - zlen rest) b); [|done].
  apply after_suffix in Ea as (l & ->). rewrite zlen_app in *. pose proof (zlen_nonneg l).
  apply opened_left; [done|lia|lia|]. destruct Hh as [Eb _], (op_buffer _ Hk1) as (_ & E1 & _). cbn. lia.
Qed.

Lemma refuse_safe k bytes : opened k -> exists r k', server_refuse k bytes = (r, k') /\ -1 <= r /\
  (0 <= r -> opened k' /\ k'.(handshake) = true).
Proof.
  intros Hk. unfold server_refuse. destruct (negb (flag_set k KWS_STAY_OPEN)); [|destruct (flag_set k KWS_HTTP)];
    (eexists _, _; split; [reflexivity|]; split; [done|]); [done| |done].
  intros _. split; [auto|done].
Qed.

Lemma server_safe k : opened k -> exists r k', ws_server_handshake SHA1 k = Ok (r, k') /\ -3 <= r /\
  (0 <= r -> opened k' /\ k'.(handshake) = true).
Proof.
  intros Hk. unfold ws_server_handshake. destruct (negb (sock k)); [eexists _, _; by split|].
  destruct (server_read_safe (S (S (pending_bytes k.(rd)))) k Hk (pending_fuel k)) as (b & d & buf & rd1 & -> & Hh & Hd & Hin).
  cbn [mbind res_bind]. set (k1 := upd_head _ _ _ _). assert (Hk1 : opened k1) by by apply opened_head.
  assert (Href : forall k2, opened k2 -> exists r k', Ok (server_refuse k2 b) = Ok (r, k') /\ -3 <= r /\
    (0 <= r -> opened k' /\ k'.(handshake) = true)).
  { intros k2 Hk2. destruct (refuse_safe k2 b Hk2) as (r & k' & -> & Hr & H). exists r, k'. parts. }
  destruct (_ || _); [by apply Href|].
  destruct (st_ok k1.(buffer) k1.(datalen) 0) as (buf2 & Est & Hb2).
  { destruct Hk1 as [_ _ (_ & E & _) _ Hd1 _]. lia. }
  rewrite Est. cbn [mbind res_bind]. set (k2 := set_buffer buf2 k1).
  assert (Hk2 : opened k2) by by apply opened_buffer.
  destruct (cstr_ended buf2 (ended_st _ _ _ Est)) as (req & ->). cbn [mbind res_bind].
  destruct (negb _); [by apply Href|]. destruct (up_to 32 (drop 4 req)) as [path|]; [|by apply Href].
  assert (Hk3 : opened (set_uri (Some path) k2)) by auto.
  destruct (bool_decide _); [by apply Href|]. destruct (kws_raw_write _ _ _) as [wrote w].
  assert (Hk4 : opened (set_wr w (set_uri (Some path) k2))) by auto.
  destruct (negb _); [by apply Href|].
  eexists _, _. split; [reflexivity|]. split; [done|]. intros _. split; [auto|done].
Qed.

(** One try of the handshake decides: it is never to be tried again. *)
Lemma establish_safe k : opened k -> k.(handshake) = false -> k.(logical_established) = false ->
  exists r k', establish_logical_layer SHA1 k = Ok (r, k') /\
    (r = -1 /\ k'.(down) = 1 \/ r = 0 /\ opened k' /\ k'.(handshake) = true /\ k'.(logical_established) = true).
Proof.
  intros Hk Hh Hl. unfold establish_logical_layer. destruct (Z.eqb_spec (sanity k) 0); [by destruct (op_sanity k Hk)|].
  rewrite Hl. cbn [handshake_loop]. rewrite Hh, (op_up k Hk). cbn [Z.eqb negb andb].
  assert (E : exists r k', ws_handshake SHA1 k = Ok (r, k') /\ (0 <= r -> opened k' /\ k'.(handshake) = true)).
  { unfold ws_handshake. destruct (type k); [destruct (client_safe k Hk) as (r & k' & ? & _ & ?)|
      destruct (server_safe k Hk) as (r & k' & ? & _ & ?)]; by exists r, k'. }
  destruct E as (r & k' & -> & Hr). cbn [mbind res_bind]. destruct (Z.ltb_spec r 0).
  { eexists _, _. split; [reflexivity|]. by left. }
  destruct (Hr ltac:(lia)) as [Hk' Hh']. rewrite Hh', andb_false_r. cbn [negb andb].
  eexists _, _. split; [reflexivity|]. right. split; [done|]. split; [auto|]. done.
Qed.
End Safe.

(** ** Parameters *)

(** What a caller passes: a value the JSON calls made, an object; or none. *)
Definition good_params (params : option Json.kJSON) : Prop :=
  match params with Some j => Json.well_typed j = true /\ Json.type j = Json.KS_JSON_TYPE_OBJECT | None => True end.

Lemma get_item_ok params name : good_params params -> exists i, Json.ks_json_get_object_item params (Some name) = Ok i.
Proof.
  destruct params as [[t vs vi vd s c]|]; [|by exists None]. intros [Hw Ht]. cbn in Ht. subst t.
  apply Json.well_typed_item in Hw as [Hw _]. cbn in Hw. cbn [Json.ks_json_get_object_item Json.child].
  destruct (Json.find_child_named name c Hw) as (o & -> & _). by exists o.
Qed.

Lemma get_number_ok params name def : good_params params -> exists n, Json.ks_json_get_object_number_int params (Some name) def = Ok n.
Proof.
  intros Hp. unfold Json.ks_json_get_object_number_int. destruct (get_item_ok params name Hp) as (i & ->). by eexists.
Qed.

Lemma duplicate_ok params : good_params params -> Json.ks_json_duplicate params true = params.
Proof. destruct params as [j|]; [|done]. intros [Hw _]. cbn. by rewrite Json.well_typed_duplicate. Qed.

(** ** A connection as its setting up leaves it *)

Definition begun (t : kws_type_t) (s : socket) (b : list Z) (block flags max : Z) (uri host : list Z) (proto : option (list Z))
    (hs : list (list Z * list Z)) : kws :=
  MkKws t s.(s_valid) b b WS_BUFLEN WS_BUFLEN 0 None (MkReader 0 0 0 s.(s_in)) (MkWriter s.(s_out) [] s.(s_rand)) 0
    false false block WS_INIT_SANITY flags None 0 max uri host proto hs.

Definition block_of (flags : Z) : Z := if negb (Z.land flags KWS_BLOCK =? 0) then WS_BLOCK else 0.

Lemma block_good flags : good_block (block_of flags).
Proof. unfold good_block, block_of, WS_BLOCK. destruct (negb _); lia. Qed.

Section Begin.
Context (SHA1 : list Z -> list Z) (pool_alloc : Z -> option (list Z)) (b : list Z).
Hypothesis (Hb : pool_alloc WS_BUFLEN = Some b) (Hlen : zlen b = WS_BUFLEN).

Lemma client_fields s cd flags params hs : good_params params -> param_headers params = Ok hs -> exists max,
  init_fields pool_alloc kws_create s (Some cd) flags params =
    Ok (let '(uri, host, proto) := split_client_data kws_create cd in begun KWS_CLIENT s b (block_of flags) flags max uri host proto hs).
Proof.
  intros Hp Hhs. unfold init_fields. destruct (get_number_ok params (text "payload_size_max") 0 Hp) as (max & ->).
  rewrite duplicate_ok, Hb by done. cbn [mbind res_bind]. rewrite Hhs. cbn [mbind res_bind]. exists max.
  by destruct (split_client_data kws_create cd) as [[uri host] proto].
Qed.

Lemma server_fields s flags params : good_params params -> exists max,
  init_fields pool_alloc kws_create s None flags params =
    Ok (begun KWS_SERVER s b (block_of flags) (Z.lor flags KWS_FLAG_DONTMASK) max [] [] None []).
Proof.
  intros Hp. unfold init_fields. destruct (get_number_ok params (text "payload_size_max") 0 Hp) as (max & ->).
  rewrite Hb. cbn [mbind res_bind]. by exists max.
Qed.

Lemma begun_opened t s block flags max uri host proto hs : opened (begun t s b block flags max uri host proto hs).
Proof.
  split; cbn; try done.
  by rewrite Hlen.
Qed.

(** The handshake's one result is that of [kws_init_ex], whether it is timed or not. *)
Lemma init_decides s cd flags params start times k t r k' :
  init_fields pool_alloc kws_create s cd flags params = Ok k ->
  Json.ks_json_get_object_number_int params (Some (text "ws_handshake_timeout_ms")) 0 = Ok t ->
  let timed := 0 <? u32 t in
  establish_logical_layer SHA1 (set_block (if timed then 0 else k.(block)) k) = Ok (r, k') -> r <> -2 ->
  kws_init_ex SHA1 pool_alloc None s cd flags params start times =
    let k'' := if timed then set_block k.(block) k' else k' in
    Ok (if (r =? -1) || negb (k''.(down) =? 0) then (KS_STATUS_FAIL, None, kws_destroy k'') else (KS_STATUS_SUCCESS, Some k'', k'')).
Proof.
  intros Hf Ht timed He Hr. unfold kws_init_ex. cbn [default from_option]. rewrite Hf. cbn [mbind res_bind]. rewrite Ht. cbn [mbind res_bind].
  fold timed. destruct timed.
  - assert (E : timed_handshake SHA1 times (start + u32 t * KS_USEC_PER_MSEC) (set_block 0 k) = Ok (r, k')).
    { destruct times; cbn [timed_handshake]; rewrite He; cbn [mbind res_bind]; by destruct (Z.eqb_spec r (-2)). }
    rewrite E. cbn [mbind res_bind]. by destruct (_ || _).
  - assert (E : set_block k.(block) k = k) by by destruct k. rewrite E in He. rewrite He. cbn [mbind res_bind]. by destruct (_ || _).
Qed.

Lemma init_safe s cd flags params start times k : good_params params ->
  init_fields pool_alloc kws_create s cd flags params = Ok k ->
  (forall bl, opened (set_block bl k)) -> k.(handshake) = false -> k.(logical_established) = false ->
  exists st kp k', kws_init_ex SHA1 pool_alloc None s cd flags params start times = Ok (st, kp, k') /\
    (st = KS_STATUS_SUCCESS /\ kp = Some k' /\ live k' \/ st = KS_STATUS_FAIL /\ kp = None /\ k'.(down) = 2).
Proof.
  intros Hp Hf Hop Hh Hl. destruct (get_number_ok params (text "ws_handshake_timeout_ms") 0 Hp) as (t & Ht).
  set (timed := 0 <? u32 t). set (k1 := set_block (if timed then 0 else k.(block)) k).
  destruct (establish_safe SHA1 k1 (Hop _) Hh Hl) as (r & k' & He & Hr).
  pose proof (init_decides s cd flags params start times k t r k' Hf Ht He) as E. cbn zeta in E. fold timed in E.
  rewrite E by lia. clear E.
  set (k2 := if timed then _ else _).
  assert (Hd : k2.(down) = k'.(down)) by (unfold k2; by destruct timed).
  destruct Hr as [[-> Hdown]|(-> & Hk' & Hh' & Hl')].
  - eexists _, _, _. split; [reflexivity|]. right. do 2 (split; [done|]). clearbody k2. unfold kws_destroy. rewrite Hd, Hdown.
    cbn [Z.eqb Pos.eqb]. rewrite Hd, Hdown. cbn [Z.ltb Z.compare Pos.compare Pos.compare_cont]. by destruct (write_buffer _).
  - cbn [Z.eqb orb]. rewrite Hd, (op_up _ Hk'). cbn [Z.eqb negb]. eexists _, _, _. split; [reflexivity|]. left. do 2 (split; [done|]).
    assert (Hk2 : opened k2) by (unfold k2; destruct timed; auto).
    assert (Hk2' : k2.(handshake) = true /\ k2.(logical_established) = true) by (unfold k2; by destruct timed).
    destruct Hk2 as [? ? (? & ? & ?) ? ? ?], Hk2'. by split.
Qed.
End Begin.

(** ** Both ends together *)

(** A connection whose request asks for [path] of [host]. *)
Definition asking (path host : list Z) (protocol : option (list Z)) (hs : list (list Z * list Z)) : kws :=
  begun KWS_CLIENT (Socket true [] [] []) [] 0 0 0 path host protocol hs.

Definition request (path host : list Z) (protocol : option (list Z)) (hs : list (list Z * list Z)) (enonce : list Z) : list Z :=
  client_request (asking path host protocol hs) enonce.

Definition nonce_of (s : socket) : list Z := b64encode (gen_nonce (MkWriter s.(s_out) [] s.(s_rand)) 16).1.

(** The handshake that succeeds once. *)
Lemma establish_done sha k k' : k.(down) = 0 -> k.(sanity) <> 0 -> k.(handshake) = false -> k.(logical_established) = false ->
  ws_handshake sha k = Ok (0, k') -> k'.(handshake) = true -> k'.(down) = 0 ->
  establish_logical_layer sha k = Ok (0, set_logical_established true k').
Proof.
  intros Hd Hs Hh Hl He Hh' Hd'. unfold establish_logical_layer. destruct (Z.eqb_spec (sanity k) 0); [done|]. rewrite Hl.
  cbn [handshake_loop]. rewrite Hd, Hh, He. cbn [Z.eqb negb andb mbind res_bind Z.ltb Z.compare]. rewrite Hh', Hd'. done.
Qed.

(** What an end of a connection is once both shook hands. *)
Definition up (t : kws_type_t) (k : kws) (sent_to_peer : list Z) (rest : list recv_event) : Prop :=
  ready k /\ writable k /\ k.(type) = t /\ k.(wr).(sent) = sent_to_peer /\ k.(rd).(inbox) = rest.

(** From the handshake of either end to the connection [kws_init_ex] gives. *)
Lemma init_up sha pool_alloc s cd flags params start times k t sent_to_peer rest (U : option (list Z) -> Prop) :
  good_params params -> init_fields pool_alloc kws_create s cd flags params = Ok k ->
  k.(type) = t -> k.(down) = 0 -> k.(handshake) = false -> k.(logical_established) = false -> k.(sanity) <> 0 ->
  good_block k.(block) -> zlen k.(buffer) = WS_BUFLEN -> zlen k.(bbuffer) = WS_BUFLEN -> k.(bbuflen) = WS_BUFLEN ->
  k.(write_buffer) = None -> k.(write_buffer_len) = 0 ->
  (forall bl, exists k', ws_handshake sha (set_block bl k) = Ok (0, k') /\ k'.(handshake) = true /\ shaken (set_block bl k) k' /\
    U k'.(uri) /\ k'.(wr).(sent) = sent_to_peer /\ k'.(rd).(inbox) = rest /\ takes_all k'.(wr) /\ at_socket k'.(rd)) ->
  exists k', kws_init_ex sha pool_alloc None s cd flags params start times = Ok (KS_STATUS_SUCCESS, Some k', k') /\
    up t k' sent_to_peer rest /\ U k'.(uri).
Proof.
  intros Hp Hf Ht Hd Hh Hl Hs Hb Hbuf Hbb Hbbl Hw Hwl Hrun.
  destruct (get_number_ok params (text "ws_handshake_timeout_ms") 0 Hp) as (tm & Htm).
  destruct (Hrun (if 0 <? u32 tm then 0 else k.(block))) as (k' & He & Hh' & Hsh & Hu & Hsent & Hin & Hta & Hat).
  set (bl := if 0 <? u32 tm then 0 else k.(block)) in *. pose proof Hsh as [[Hz1 _] [Hz2 Hz3] (Hd' & Hs' & Hb') [Hw' Hwl'] (_ & Ht' & _)].
  cbn [set_block buffer buflen bbuffer bbuflen down sanity block write_buffer write_buffer_len type] in *.
  assert (Hest : establish_logical_layer sha (set_block bl k) = Ok (0, set_logical_established true k')).
  { apply establish_done; try done. by rewrite Hd', Hd. }
  pose proof (init_decides sha pool_alloc s cd flags params start times k tm 0 _ Hf Htm Hest ltac:(lia)) as E.
  cbn zeta in E. rewrite E. clear E. cbn [Z.eqb orb].
  set (k2 := if 0 <? u32 tm then _ else _).
  assert (Hk2 : exists bl2, good_block bl2 /\ k2 = set_block bl2 (set_logical_established true k')).
  { unfold k2, bl in *. destruct (0 <? u32 tm); [by eexists|]. exists k.(block). split; [done|]. rewrite <- Hb'. by destruct k'. }
  destruct Hk2 as (bl2 & Hbl2 & ->). cbn [set_block set_logical_established down]. rewrite Hd', Hd. cbn [Z.eqb negb].
  eexists. split; [reflexivity|]. split; [|exact Hu]. split; [|split; [|split; [by rewrite <- Ht|by split]]].
  - split; cbn [set_block set_logical_established down handshake sanity logical_established block buffer bbuffer bbuflen rd]; try done.
    + by rewrite Hd', Hd.
    + by rewrite Hs'.
    + rewrite Hz1, Hbuf. done.
    + rewrite Hz2, Hz3, Hbb, Hbbl. done.
  - split; cbn [set_block set_logical_established down write_buffer write_buffer_len wr]; [by rewrite Hd', Hd| |done]. by rewrite Hw', Hwl', Hw, Hwl.
Qed.

(** ** Concrete connections *)

Definition ex_params (members : list (String.string * String.string)) : option Json.kJSON :=
  foldl (fun o m => Json.ks_json_add_string_to_object o (Some (text m.1)) (Some (text m.2))) (Some Json.ks_json_create_object) members.

Definition ex_url : option Json.kJSON := ex_params [("url", "ws://host:81/chat"); ("protocol", "sip")]%string.
Definition ex_rand : list Z := map Z.of_nat (seq 1 40).
Definition ex_nonce : list Z := b64encode (map Z.of_nat (seq 1 16)).
Definition ex_req : list Z := request (text "/chat") (text "host") (Some (text "sip")) [] ex_nonce.
Definition ex_resp : list Z := server_response ex_sha ex_nonce (text "sip").
Definition ex_client (ev : list recv_event) : socket := Socket true ev [] ex_rand.
Definition ex_server : socket := Socket true [Recv (take 30 ex_req); Recv (drop 30 ex_req)] [Sent 7; Sent 500] ex_rand.

Definition ex_init (s : socket) (cd : option (list Z)) (flags : Z) (params : option Json.kJSON) :=
  kws_init_ex ex_sha ex_alloc None s cd flags params 0 [].

(** C20: setting a connection up is safe whatever the peer does: for any socket
    (valid or not, any bytes in any chunks, errors, an early end), client data,
    flags and well-typed parameters (the headers among them being readable),
    timed or not, [kws_init_ex] returns without a fault, never out of tries. It
    returns either success and a live connection, for which every later read is
    safe in turn, or a failure, a NULL connection and the object destroyed. *)
Theorem kws_init_ex_safe SHA1 pool_alloc s cd flags params start times b hs :
  pool_alloc WS_BUFLEN = Some b -> zlen b = WS_BUFLEN -> good_params params ->
  (cd <> None -> param_headers params = Ok hs) ->
  exists st kp k', kws_init_ex SHA1 pool_alloc None s cd flags params start times = Ok (st, kp, k') /\
    (st = KS_STATUS_SUCCESS /\ kp = Some k' /\ live k' \/ st = KS_STATUS_FAIL /\ kp = None /\ k'.(down) = 2).
Proof.
  intros Hb Hlen Hp Hhs. destruct cd as [cd|].
  - destruct (client_fields pool_alloc b Hb s cd flags params hs Hp (Hhs ltac:(done))) as (max & E).
    destruct (split_client_data kws_create cd) as [[uri host] proto].
    eapply init_safe; [done|exact E|intros bl; apply (begun_opened b Hlen)|done|done].
  - destruct (server_fields pool_alloc b Hb s flags params Hp) as (max & E).
    eapply init_safe; [done|exact E|intros bl; apply (begun_opened b Hlen)|done|done].
Qed.

(** A peer that goes away in the middle of its answer. *)
Lemma kws_init_ex_safe_witness :
  exists st kp k', kws_init_ex ex_sha ex_alloc None (ex_client [Recv (take 90 ex_resp); RecvBlock]) (Some (text "/chat:host")) 1 ex_url 5 [6; 7]
      = Ok (st, kp, k') /\
    (st = KS_STATUS_SUCCESS /\ kp = Some k' /\ live k' \/ st = KS_STATUS_FAIL /\ kp = None /\ k'.(down) = 2).
Proof.
  apply (kws_init_ex_safe ex_sha ex_alloc _ _ 1 ex_url 5 [6; 7] (replicate (Z.to_nat WS_BUFLEN) 0) []);
    [done|vm_compute; reflexivity|split; vm_compute; reflexivity|intros _; vm_compute; reflexivity].
Defined.

(** C19: a client and a server that connect get to talk: from a URL ws://host[:port]/path
    in its parameters, whose host has no colon or slash and whose path no colon,
    space or line end ([url_ok]; a colon there is taken for the port's), [kws_connect_ex] asks for that host and port, and the request
    for that path, shorter than [WS_BUFLEN] and arriving at a server in any chunks,
    and its answer, which has to arrive in one piece, over sockets that take what is
    written, make [kws_init_ex] succeed at both ends, timed or not. Both connections
    are then ready to read frames and may write them, the server knows the path, and
    nothing of either stream was lost or sent but the two messages. It needs nothing
    of SHA-1 but its length. *)
Theorem kws_connected {addr} SHA1 pool_alloc b (getbyname : list Z -> Z -> ks_status_t * addr) socket_connect SSL_CTX_new tls_init
    a host port path proto hs p ps flags_c flags_s timeout_ms sc ss rest_c rest_s start_c start_s times_c times_s :
  (forall m, all_bytes (SHA1 m) /\ length (SHA1 m) = 20%nat) ->
  pool_alloc WS_BUFLEN = Some b -> zlen b = WS_BUFLEN -> good_params p -> good_params ps ->
  Json.ks_json_get_object_string p (Some (text "url")) None = Ok (Some (text "ws://" ++ host ++ port_text port ++ path)) ->
  Json.ks_json_get_object_string p (Some (text "protocol")) None = Ok proto -> param_headers p = Ok hs ->
  url_ok host port path -> client_ok (asking path host proto hs) ->
  getbyname host (default 80 port) = (KS_STATUS_SUCCESS, a) -> socket_connect a timeout_ms = sc ->
  ss.(s_valid) = true -> takes_all (MkWriter sc.(s_out) [] sc.(s_rand)) -> takes_all (MkWriter ss.(s_out) [] ss.(s_rand)) ->
  let enonce := nonce_of sc in
  let req := request path host proto hs enonce in
  let resp := server_response SHA1 enonce (default [] proto) in
  zlen req < WS_BUFLEN -> sc.(s_in) = Recv resp :: rest_c -> delivers ss.(s_in) req rest_s ->
  exists c s,
    kws_connect_ex getbyname socket_connect SSL_CTX_new
      (fun tls k0 s cd fl params => if tls then tls_init k0 s cd fl params
                                    else kws_init_ex SHA1 pool_alloc k0 s cd fl params start_c times_c)
      None p flags_c false timeout_ms = Ok (KS_STATUS_SUCCESS, Some c) /\
    kws_init_ex SHA1 pool_alloc None ss None flags_s ps start_s times_s = Ok (KS_STATUS_SUCCESS, Some s, s) /\
    up KWS_CLIENT c req rest_c /\ up KWS_SERVER s resp rest_s /\ s.(uri) = Some path.
Proof.
  intros Hsha Hb Hlen Hp Hps Hurl Hproto Hhs Hu Hok Hdns Hconn Hval Htc Hts enonce req resp Hreq Hin Hdel.
  pose proof Hu as [(_ & Hhc & _) _ (_ & Hpc & _) _].
  assert (Hok' : forall s bl fl max, client_ok (begun KWS_CLIENT s b bl fl max path host proto hs)) by by destruct Hok.
  assert (Hfresh : forall t s bl fl max u h pr l, takes_all (MkWriter s.(s_out) [] s.(s_rand)) -> fresh (begun t s b bl fl max u h pr l)).
  { intros. split; [done|done|done|]. cbn. by rewrite Hlen. }
  assert (Hnb : all_bytes (gen_nonce (MkWriter sc.(s_out) [] sc.(s_rand)) 16).1) by (cbn [gen_nonce fst]; apply Forall_map, Forall_forall; intros x _; apply u8_range).
  assert (Hnl : length (gen_nonce (MkWriter sc.(s_out) [] sc.(s_rand)) 16).1 = 16%nat) by (cbn [gen_nonce fst]; rewrite length_map, length_take, length_app, length_replicate; lia).
  destruct (b64_value _ Hnb) as [He Hel]. rewrite Hnl in Hel. change (4 * ((16 + 2) / 3))%nat with 24%nat in Hel. fold (nonce_of sc) in He, Hel. fold enonce in He, Hel.
  assert (Hrl : 1 <= zlen resp <= 511) by apply response_length.
  destruct (client_fields pool_alloc b Hb sc (client_data path host proto) flags_c p hs Hp Hhs) as (max & Ec).
  rewrite split_client_data_ok in Ec by done.
  destruct (server_fields pool_alloc b Hb ss flags_s ps Hps) as (max2 & Es).
  destruct (init_up SHA1 pool_alloc sc (Some (client_data path host proto)) flags_c p start_c times_c _ KWS_CLIENT req rest_c (fun _ => True) Hp Ec)
    as (c & Ei & Hc & _); [done..|apply block_good|done|done|done|done|done| |].
  { intros bl. destruct (client_run SHA1 Hsha (begun KWS_CLIENT sc b bl flags_c max path host proto hs) [] rest_c (Hok' _ _ _ _) (Hfresh _ _ _ _ _ _ _ _ _ Htc))
      as (c' & E & Hh & Hsent & Hin' & Hun & _ & Hta & Hx & Hsh); [|rewrite app_nil_r; exact Hin|rewrite app_nil_r|].
    - change (zlen req < MAX_RW). unfold WS_BUFLEN, MAX_RW in *. lia.
    - change (zlen resp < WS_BUFLEN). unfold WS_BUFLEN. lia.
    - exists c'. split; [exact E|]. split; [done|]. split; [exact Hsh|].
      split; [done|]. split; [exact Hsent|]. split; [done|]. by split. }
  destruct (init_up SHA1 pool_alloc ss None flags_s ps start_s times_s _ KWS_SERVER resp rest_s (fun u => u = Some path) Hps Es)
    as (s & Ei2 & Hs & Hsu); [done..|apply block_good|done|done|done|done|done| |].
  { intros bl. destruct (server_run SHA1 Hsha (asking path host proto hs) (begun KWS_SERVER ss b bl (Z.lor flags_s KWS_FLAG_DONTMASK) max2 [] [] None [])
      enonce rest_s Hok He) as (s' & E & Hh & Hsu & Hsent & Hin' & Hta & Hat & Hsh);
      [by intros E; rewrite E in Hel|lia|by apply Hfresh|done|exact Hdel|exact Hreq|].
    exists s'. split; [exact E|]. split; [done|]. split; [exact Hsh|]. split; [done|]. by split. }
  exists c, s. split; [|done]. unfold kws_connect_ex, connect_target. rewrite Hproto, Hurl. cbn [mbind res_bind].
  change (begins (text "wss://") (text "ws://" ++ ?l)) with false. change (begins (text "ws://") (text "ws://" ++ ?l)) with true.
  change (drop 5 (text "ws://" ++ ?l)) with l. cbv iota. rewrite (split_url_ok host port path 80 Hu). cbn [mbind res_bind].
  rewrite Hdns, Hconn, Ei. cbn [mbind res_bind]. by repeat rewrite decide_True by done.
Qed.

Lemma takes_ex ev s : takes_all (MkWriter [] [] (s_rand (ex_client ev))) /\ takes_all (MkWriter ex_server.(s_out) [] s).
Proof.
  split; [exists []|exists [7; 500]]; (split; [done|]; split; [repeat constructor; lia|unfold WS_WRITE_SANITY; simpl; lia]).
Qed.

Lemma kws_connected_witness :
  let req := request (text "/chat") (text "host") (Some (text "sip")) [] (nonce_of (ex_client [Recv ex_resp])) in
  let resp := server_response ex_sha (nonce_of (ex_client [Recv ex_resp])) (text "sip") in
  exists c s,
    kws_connect_ex (fun h n => (KS_STATUS_SUCCESS, (h, n))) (fun a _ => ex_client [Recv ex_resp]) false
      (fun tls k0 s cd fl params => if tls then kws_init_ex ex_sha ex_alloc k0 s cd fl params 0 []
                                    else kws_init_ex ex_sha ex_alloc k0 s cd fl params 0 []) None ex_url 3 false 1000
      = Ok (KS_STATUS_SUCCESS, Some c) /\
    kws_init_ex ex_sha ex_alloc None ex_server None 0 None 0 [] = Ok (KS_STATUS_SUCCESS, Some s, s) /\
    up KWS_CLIENT c req [] /\ up KWS_SERVER s resp [] /\ s.(uri) = Some (text "/chat").
Proof.
  destruct (kws_connected ex_sha ex_alloc (replicate (Z.to_nat WS_BUFLEN) 0) (fun h n => (KS_STATUS_SUCCESS, (h, n)))
    (fun a _ => ex_client [Recv ex_resp]) false (fun k0 s cd fl params => kws_init_ex ex_sha ex_alloc k0 s cd fl params 0 [])
    (text "host", 81) (text "host") (Some 81) (text "/chat") (Some (text "sip")) [] ex_url None 3 0 1000
    (ex_client [Recv ex_resp]) ex_server [] [] 0 0 [] []) as (c & s & Ec & Es & H).
  - intros m. split; [|done]. unfold ex_sha. apply Forall_replicate, u8_range.
  - done.
  - vm_compute. reflexivity.
  - split; vm_compute; reflexivity.
  - exact I.
  - vm_compute. reflexivity.
  - vm_compute. reflexivity.
  - vm_compute. reflexivity.
  - split; [repeat split; plain_const|lia|repeat split; plain_const|by eexists].
  - split; [split; plain_const|plain_const| |constructor]. split; [|split; [discriminate|simpl; lia]]. split; [plain_const|].
    intros w. discriminate.
  - done.
  - done.
  - done.
  - apply (takes_ex [] []).
  - apply (takes_ex [] ex_rand).
  - vm_compute. reflexivity.
  - vm_compute. reflexivity.
  - exists [take 30 ex_req; drop 30 ex_req]. split; [reflexivity|]. split; [vm_compute; reflexivity|].
    repeat constructor; vm_compute; discriminate.
  - exact (ex_intro _ c (ex_intro _ s (conj Ec (conj Es H)))).
Defined.

(** ** Where connecting does not do as it says *)

(** The time of "ws_handshake_timeout_ms" passes unnoticed: without TLS the handshake
    is never to be tried again, so that the clock is not looked at. *)
Lemma handshake_untimed sha times deadline k : opened k -> k.(handshake) = false -> k.(logical_established) = false ->
  timed_handshake sha times deadline k = establish_logical_layer sha k.
Proof.
  intros Hk Hh Hl. destruct (establish_safe sha k Hk Hh Hl) as (r & k' & E & Hr). destruct times; cbn [timed_handshake];
    rewrite E; cbn [mbind res_bind]; by destruct (Z.eqb_spec r (-2)); [lia|].
Qed.

(** A number for the port, without a URL, is stored over the 16 bits of it. *)
Lemma port_overruns tls_init : 
  kws_connect_ex (fun h n => (KS_STATUS_SUCCESS, (h, n))) (fun a _ => ex_client []) false tls_init None
    (Json.ks_json_add_item_to_object (ex_params [("host", "h"); ("path", "/")]%string) (Some (text "port"))
      (Some (Json.Item Json.KS_JSON_TYPE_NUMBER None 80 (Json.Fin 80 0) None []))) 0 false 1000 = Err OutOfBounds.
Proof. reflexivity. Qed.

(** A colon in the path is taken for that of the port, and one that comes to the
    client data for that of the host. *)
Lemma colon_in_path : split_url (text "h/a:1/b") 80 = Ok (text "h/a", 1, text "/b") /\
  split_client_data kws_create (client_data (text "/a:1") (text "h") None) = (text "/a", text "1", Some (text "h")).
Proof. split; reflexivity. Qed.

(** A failed handshake leaves the socket open, [KWS_CLOSE_SOCK] or not. *)
Lemma failed_handshake_keeps_socket :
  match ex_init (ex_client [Recv (text "HTTP/1.1 404 Not Found")]) (Some (text "/chat:host")) KWS_CLOSE_SOCK ex_url with
  | Ok (st, kp, k) => st = KS_STATUS_FAIL /\ kp = None /\ k.(sock) = true
  | Err _ => False
  end.
Proof. vm_compute. done. Qed.
End KwsConnect.
