(* ===== verification/JsonCheck.v ===== *)
(** Checks of JSON values (src/src/ks_json_check.c): numbers in strings, prefixes,
    names in lists, and the members of objects and arrays. *)
From S2P Require Import Prelude Str StrUtil Json.
Import Str StrUtil Json.
Local Open Scope Z_scope.

Module JsonCheck.

(** A C string, or NULL. *)
Definition zstr (s : option (list Z)) : bool := match s with None | Some [] => true | _ => false end.

(** ** Numbers in strings *)

Definition is_digit (c : Z) : bool := (47 <? c) && (c <? 58).

Definition ks_is_number (s : list Z) : bool :=
  let s := match s with c :: s' => if (c =? 45) || (c =? 43) then s' else s | [] => s end in
  forallb (fun c => (c =? 46) || is_digit c) s.

(** [atof] of a string that passes [ks_is_number]: a sign, digits, one point and
    digits, as the fraction [n / 10^k]. *)
Fixpoint fraction (s : list Z) (n k : Z) : Z * Z :=
  match s with c :: s => if is_digit c then fraction s (n * 10 + (c - 48)) (k + 1) else (n, k) | [] => (n, k) end.
Fixpoint integral (s : list Z) (n : Z) : Z * Z :=
  match s with
  | c :: s' => if is_digit c then integral s' (n * 10 + (c - 48)) else if c =? 46 then fraction s' n 0 else (n, 0)
  | [] => (n, 0)
  end.
Definition atof (s : list Z) : bool * (Z * Z) :=
  match s with
  | 45 :: s => (true, integral s 0)
  | 43 :: s => (false, integral s 0)
  | _ => (false, integral s 0)
  end.

(** The double nearest to the fraction is at least 0 when the fraction is not
    below [-2^-1075], and at most 1 when it is not above [1 + 2^-53]. *)
Definition atof_ge_0 (v : bool * (Z * Z)) : bool := let '(neg, (n, k)) := v in negb neg || (n * 2 ^ 1075 <=? 10 ^ k).
Definition atof_le_1 (v : bool * (Z * Z)) : bool := let '(neg, (n, k)) := v in neg || (n * 2 ^ 53 <=? 10 ^ k * (2 ^ 53 + 1)).

(** A string item's [valuestring]. *)
Definition item_string (item : option kJSON) : option (list Z) :=
  match item with Some j => if type j =? KS_JSON_TYPE_STRING then valuestring j else None | None => None end.
Definition number_string (item : option kJSON) (test : Z -> bool) : res bool :=
  if negb (ks_json_type_is_string item) then Ok false else
  match item_string item with
  | None => Err NullDeref
  | Some s => if ks_is_number s then n ← atoi s; Ok (test n) else Ok false
  end.

Definition ks_json_check_string_is_not_negative item := number_string item (fun n => 0 <=? n).
Definition ks_json_check_string_is_positive item := number_string item (fun n => 0 <? n).
Definition ks_json_check_string_is_positive_or_neg_one item := number_string item (fun n => (0 <? n) || (n =? -1)).
Definition ks_json_check_string_is_decimal_between_zero_and_one (item : option kJSON) : res bool :=
  if negb (ks_json_type_is_string item) then Ok false else
  match item_string item with
  | None => Err NullDeref
  | Some s => Ok (ks_is_number s && (atof_ge_0 (atof s) && atof_le_1 (atof s)))
  end.

(** ** Numbers *)

Definition number_item (item : option kJSON) (test : Z -> bool) : bool :=
  match item with Some j => ks_json_type_is_number item && test (valueint j) | None => false end.
Definition ks_json_check_number_is_not_negative item := number_item item (fun n => 0 <=? n).
Definition ks_json_check_number_is_positive item := number_item item (fun n => 0 <? n).
Definition ks_json_check_number_is_positive_or_neg_one item := number_item item (fun n => (0 <? n) || (n =? -1)).
Definition ks_json_check_number_is_decimal_between_zero_and_one (item : option kJSON) : bool :=
  match item with Some j => ks_json_type_is_number item && (d_gt (valuedouble j) 0 && (valueint j <=? 1)) | None => false end.
Definition ks_json_check_number_is_8_bit_unsigned item := number_item item (fun n => (0 <=? n) && (n <=? 255)).
Definition ks_json_check_number_is_16_bit_unsigned item := number_item item (fun n => (0 <=? n) && (n <=? 65535)).
Definition ks_json_check_number_is_ip_port item := number_item item (fun n => (1 <=? n) && (n <=? 65535)).

(** ** Strings *)

Definition ks_json_check_string_is_any_or_empty (item : option kJSON) : bool := ks_json_type_is_string item.
Definition ks_json_check_string_is_any (item : option kJSON) : bool := ks_json_type_is_string item && negb (zstr (item_string item)).
Definition ks_json_check_string_is_any_nullable (item : option kJSON) : bool := ks_json_type_is_null item || ks_json_type_is_string item.

(** A string item that is not empty, tested. *)
Definition string_item (item : option kJSON) (test : list Z -> bool) : bool :=
  match item_string item with Some (c :: s) => test (c :: s) | _ => false end.

Definition ks_json_check_string_starts_with_insensitive (item : option kJSON) (m : option (list Z)) : bool :=
  match m with
  | Some (c :: m') => let m := c :: m' in
      string_item item (fun s => (length m <=? length s)%nat && bool_decide (map lower (take (length m) s) = map lower m))
  | _ => false
  end.
Definition ks_json_check_string_starts_with (item : option kJSON) (m : option (list Z)) : bool :=
  match m with
  | Some (c :: m') => let m := c :: m' in
      string_item item (fun s => (length m <=? length s)%nat && bool_decide (take (length m) s = m))
  | _ => false
  end.
Definition ks_json_check_string_ends_with (item : option kJSON) (m : option (list Z)) : bool :=
  match m with
  | Some (c :: m') => let m := c :: m' in
      string_item item (fun s => (length m <=? length s)%nat && bool_decide (take (length m) (drop (length s - length m) s) = m))
  | _ => false
  end.

Definition is_dtmf_digit (c : Z) : bool := existsb (Z.eqb c) (bytes_of_string "0123456789AaBbCcDd*#").
Definition ks_json_check_string_is_dtmf_digit (item : option kJSON) : bool :=
  string_item item (fun s => (length s =? 1)%nat && is_dtmf_digit (nth 0 s 0)).
Definition ks_json_check_string_is_dtmf_digits (item : option kJSON) : bool := string_item item (forallb is_dtmf_digit).

(** [strstr]: what stands in front of the first occurrence. *)
Fixpoint strstr (s pat : list Z) : option (list Z) :=
  if bool_decide (take (length pat) s = pat) then Some []
  else match s with [] => None | c :: s => option_map (cons c) (strstr s pat) end.

Definition comma : Z := 44.

(** [rule] shrinks with each call: it is the tail behind the last occurrence. *)
Fixpoint string_matches (fuel : nat) (value rule : list Z) : res bool :=
  match fuel with
  | O => Err NoFuel
  | S fuel =>
    if bool_decide (rule = []) || bool_decide (value = []) || existsb (Z.eqb comma) value then Ok false else
    match strstr rule value with
    | None => Ok false
    | Some front =>
      let end' := drop (length front + length value) rule in
      if (bool_decide (front = []) || (List.last front 0 =? comma)) && (match end' with [] => true | c :: _ => c =? comma end) then Ok true
      else string_matches fuel value end'
    end
  end.
Definition matches (value rule : list Z) : res bool := string_matches (S (length rule)) value rule.

Definition ks_json_check_string_matches (item : option kJSON) (rule : list Z) : res bool :=
  match item_string item with Some (c :: s) => matches (c :: s) rule | _ => Ok false end.

(** [uuid_parse] is that of libuuid. *)
Definition ks_json_check_string_is_uuid (uuid_parse : list Z -> bool) (item : option kJSON) : bool :=
  string_item item (fun s => (length s =? 36)%nat && uuid_parse s).
Definition ks_json_check_string_is_e164 (item : option kJSON) : bool :=
  string_item item (fun s => (4 <? length s)%nat && (length s <? 20)%nat && (nth 0 s 0 =? 43) && ks_is_number s && negb (existsb (Z.eqb 46) (tail s))).

Definition starts item (s : String.string) := ks_json_check_string_starts_with_insensitive item (Some (bytes_of_string s)).
Definition ks_json_check_string_is_https item := starts item "https://".
Definition ks_json_check_string_is_http item := starts item "http://".
Definition ks_json_check_string_is_http_or_https item := ks_json_check_string_is_http item || ks_json_check_string_is_https item.
Definition ks_json_check_string_is_ws_uri item := starts item "ws://".
Definition ks_json_check_string_is_wss_uri item := starts item "wss://".
Definition ks_json_check_string_is_ws_or_wss_uri item := ks_json_check_string_is_ws_uri item || ks_json_check_string_is_wss_uri item.

(** ** Objects and arrays *)

Fixpoint names_match (items : list kJSON) (names : list Z) : res bool :=
  match items with
  | [] => Ok true
  | j :: items =>
    match string j with
    | None | Some [] => Ok false
    | Some s => m ← matches s names; if m : bool then names_match items names else Ok false
    end
  end.

Definition ks_json_check_object (json : option kJSON) (item_names : option (list Z)) : res bool :=
  if negb (ks_json_type_is_object json) then Ok false else
  match item_names with
  | None | Some [] => Ok true
  | Some names => names_match (ks_json_enum_child json) names
  end.

(** The check may set the error message. *)
Fixpoint check_items {M} (items : list kJSON) (check : kJSON -> M -> bool * M) (msg : M) : bool * M :=
  match items with
  | [] => (true, msg)
  | j :: items => let '(ok, msg) := check j msg in if ok : bool then check_items items check msg else (false, msg)
  end.
Definition ks_json_check_array_items {M} (json : option kJSON) (check : kJSON -> M -> bool * M) (msg : M) : bool * M :=
  if negb (ks_json_type_is_array json) then (false, msg) else check_items (ks_json_enum_child json) check msg.
Definition ks_json_check_string_array (json : option kJSON) (check : kJSON -> bool) : bool :=
  ks_json_type_is_array json && forallb check (ks_json_enum_child json).
Definition ks_json_check_is_any (item : option kJSON) : bool := true.
Definition ks_json_check_is_array (item : option kJSON) : bool := ks_json_type_is_array item.

(** ** Lists of names *)

Definition no_comma (s : list Z) : Prop := Forall (fun c => c <> comma) s.
Definition field_start (a : list Z) : Prop := a = [] \/ exists a', a = a' ++ [comma].
Definition field_end (b : list Z) : Prop := b = [] \/ exists b', b = comma :: b'.

(** [f] stands between commas, or the ends, of [rule]. *)
Definition field_of (f rule : list Z) : Prop := no_comma f /\ exists a b, rule = a ++ f ++ b /\ field_start a /\ field_end b.

Lemma strstr_some pat : forall s front, strstr s pat = Some front -> s = front ++ pat ++ drop (length front + length pat) s.
Proof.
  induction s as [|c s IH]; intros front E; cbn [strstr] in E.
  - destruct (bool_decide_reflect (take (length pat) [] = pat)) as [H|]; [|done]. injection E as <-. rewrite take_nil in H. by rewrite <- H.
  - destruct (bool_decide_reflect (take (length pat) (c :: s) = pat)) as [H|].
    + injection E as <-. cbn [app length Nat.add]. by rewrite <- H at 1; rewrite take_drop.
    + destruct (strstr s pat) as [f|]; [|done]. injection E as <-. cbn [app length Nat.add drop]. f_equal. by apply IH.
Qed.

(** It is the first occurrence. *)
Lemma strstr_first pat b : forall a, exists front, strstr (a ++ pat ++ b) pat = Some front /\ (length front <= length a)%nat.
Proof.
  induction a as [|c a IH].
  - exists []. cbn [app]. assert (E : take (length pat) (pat ++ b) = pat) by apply take_app_length. split; [|done].
    destruct (pat ++ b); cbn [strstr]; by rewrite bool_decide_true.
  - cbn [app strstr]. destruct (bool_decide _); [exists []; split; [done|simpl; lia]|].
    destruct IH as (f & -> & Hf). exists (c :: f). split; [done|simpl; lia].
Qed.

Lemma comma_free_end l : exists a x, l = a ++ x /\ no_comma x /\ field_start a.
Proof.
  induction l as [|c l (a & x & -> & Hx & Ha)] using rev_ind; [exists [], []; repeat split; [constructor|by left]|].
  destruct (Z.eq_dec c comma) as [->|Hc].
  - exists (a ++ x ++ [comma]), []. rewrite app_nil_r, app_assoc. split; [done|]. split; [constructor|]. right. exists (a ++ x). by rewrite ?app_assoc.
  - exists a, (x ++ [c]). rewrite app_assoc. split; [done|]. split; [|done]. apply Forall_app. by split; [|constructor].
Qed.

Lemma no_comma_existsb s : no_comma s -> existsb (Z.eqb comma) s = false.
Proof. induction 1 as [|c s Hc _ IH]; [done|]. cbn [existsb]. rewrite IH. by destruct (Z.eqb_spec comma c). Qed.

Lemma field_start_test a : bool_decide (a = []) || (List.last a 0 =? comma) = true <-> field_start a.
Proof.
  rewrite orb_true_iff, bool_decide_eq_true, Z.eqb_eq. unfold field_start. destruct a as [|c a _] using rev_ind.
  - split; [by left|]. intros [?|[a' E]]; [by left|by destruct a'].
  - rewrite List.last_last. split.
    + intros [E| ->]; [by destruct a|right; by exists a].
    + intros [E|[a' E]]; [by destruct a|]. right. by apply app_inj_tail in E as [_ ->].
Qed.

Lemma field_end_test (b : list Z) : match b with [] => true | c :: _ => c =? comma end = true <-> field_end b.
Proof.
  unfold field_end. destruct b as [|c b]; [split; [by left|done]|]. rewrite Z.eqb_eq. split; [intros ->; right; by exists b|].
  intros [?|[b' E]]; [done|]. by injection E.
Qed.

(** An occurrence in front of a field that is the value ends before the field's comma. *)
Lemma occurrence_before value a b front q : no_comma value -> value <> [] -> field_start a ->
  a ++ value ++ b = front ++ value ++ q -> (length front < length a)%nat -> exists a2, q = a2 ++ value ++ b /\ field_start a2.
Proof.
  intros Hv Hne [->|[a' ->]] E Hl; [simpl in Hl; lia|]. rewrite length_app in Hl. simpl in Hl.
  assert (Hle : (length front + length value <= length a')%nat).
  { destruct (decide (length front + length value <= length a')%nat) as [|Hgt]; [done|exfalso].
    assert (Hc : (front ++ value ++ q) !! length a' = Some comma) by (rewrite <- E, <- app_assoc; by apply list_lookup_middle).
    rewrite lookup_app_r, lookup_app_l in Hc by lia. apply list_elem_of_lookup_2 in Hc. unfold no_comma in Hv. rewrite Forall_forall in Hv. by apply (Hv _ Hc). }
  exists (drop (length front + length value) a' ++ [comma]). split; [|right; by eexists].
  transitivity (drop (length front + length value) (front ++ value ++ q)); [rewrite app_assoc, drop_app_length'; [done|by rewrite length_app]|].
  rewrite <- E, <- !app_assoc, drop_app_le by lia. done.
Qed.

Section Matches.
Context (value : list Z) (Hv : no_comma value) (Hne : value <> []).

Definition matched (rule front rest : list Z) : Prop := rule = front ++ value ++ rest.

(** One call: no occurrence, an accepted one, or the tail behind the first one. *)
Lemma string_matches_step fuel rule : rule <> [] ->
  (strstr rule value = None /\ string_matches (S fuel) value rule = Ok false) \/
  exists front rest, strstr rule value = Some front /\ matched rule front rest /\
    ((field_start front /\ field_end rest /\ string_matches (S fuel) value rule = Ok true) \/
     (~ (field_start front /\ field_end rest) /\ string_matches (S fuel) value rule = string_matches fuel value rest)).
Proof.
  intros Hr. cbn [string_matches]. rewrite (bool_decide_false _ Hr), (bool_decide_false _ Hne), (no_comma_existsb _ Hv). cbn [orb].
  destruct (strstr rule value) as [front|] eqn:E; [right|by left]. pose proof (strstr_some _ _ _ E) as Es.
  set (rest := drop (length front + length value) rule) in *. exists front, rest. split; [done|]. split; [done|].
  destruct (_ && _) eqn:Et.
  - left. apply andb_true_iff in Et as [E1%field_start_test E2%field_end_test]. done.
  - right. split; [|done]. intros [H1%field_start_test H2%field_end_test]. by rewrite H1, H2 in Et.
Qed.

Lemma string_matches_ends : forall fuel rule, (length rule < fuel)%nat -> exists r, string_matches fuel value rule = Ok r.
Proof.
  induction fuel as [|fuel IH]; intros rule Hl; [lia|]. destruct rule as [|c rule]; [by eexists|].
  destruct (string_matches_step fuel (c :: rule) ltac:(done)) as [[_ E]|(front & rest & _ & Em & [(_ & _ & E)|[_ E]])]; rewrite E; eauto.
  apply IH. apply (f_equal length) in Em. rewrite !length_app in Em. destruct value; [done|]. simpl in *. lia.
Qed.

Lemma string_matches_complete : forall fuel rule, (length rule < fuel)%nat -> field_of value rule -> string_matches fuel value rule = Ok true.
Proof.
  induction fuel as [|fuel IH]; intros rule Hl Hf; [lia|]. destruct Hf as (_ & a & b & Er & Ha & Hb).
  assert (Hr : rule <> []) by (rewrite Er; destruct a, value; done).
  destruct (strstr_first value b a) as (f & Ef & Hlf). rewrite <- Er in Ef.
  destruct (string_matches_step fuel rule Hr) as [[E _]|(front & rest & E & Em & H)]; [congruence|].
  assert (f = front) as -> by congruence. rewrite Er in Em. destruct H as [(_ & _ & ->)|[Hno ->]]; [done|].
  apply IH.
  - apply (f_equal length) in Em. rewrite Er, Em in *. rewrite !length_app in *. destruct value; [done|]. simpl in *. lia.
  - split; [done|]. destruct (decide (length front < length a)%nat) as [Hlt|Hge].
    + destruct (occurrence_before value a b front rest Hv Hne Ha Em Hlt) as (a2 & -> & Ha2). exists a2, b. done.
    + assert (a = front /\ b = rest) as [-> ->]; [|by destruct Hno]. apply app_inj_1 in Em as [-> Em]; [|lia]. by apply app_inv_head in Em.
Qed.

(** What stands in front of the rule in the whole list. *)
Lemma string_matches_sound : forall fuel rule pre, field_start pre \/ (exists p, pre = p ++ value) ->
  string_matches fuel value rule = Ok true -> field_of value (pre ++ rule) \/ exists x, field_of (x ++ value ++ value) (pre ++ rule).
Proof.
  induction fuel as [|fuel IH]; intros rule pre Hp Ht; [done|]. destruct rule as [|c rule]; [done|].
  destruct (string_matches_step fuel (c :: rule) ltac:(done)) as [[_ E]|(front & rest & _ & Em & [(Hs & He & E)|[_ E]])]; rewrite E in Ht; [done| |].
  - unfold matched in Em. rewrite Em. destruct Hs as [->|[a' ->]].
    + cbn [app]. destruct Hp as [Hp|[p ->]]; [left; split; [done|by exists pre, rest]|]. right.
      destruct (comma_free_end p) as (a & x & -> & Hx & Ha). exists x. split; [unfold no_comma; rewrite !Forall_app; done|].
      exists a, rest. by rewrite <- !app_assoc.
    + left. split; [done|]. exists (pre ++ a' ++ [comma]), rest. rewrite <- !app_assoc. split; [done|]. split; [|done]. right. exists (pre ++ a'). by rewrite <- app_assoc.
  - unfold matched in Em. rewrite Em. destruct (IH rest (pre ++ front ++ value)) as [H|[x H]]; [right; exists (pre ++ front); by rewrite <- app_assoc|done| |].
    + left. by rewrite <- !app_assoc in H.
    + right. exists x. by rewrite <- !app_assoc in H.
Qed.
End Matches.

(** A value that is a name of the list is accepted, always; a value that is
    accepted is a name of the list, or some name ends in the value twice over
    (which the restart behind an occurrence takes for the name itself); the
    answer always comes. *)
Lemma string_matches_names value rule : no_comma value -> value <> [] ->
  exists r, matches value rule = Ok r /\ (field_of value rule -> r = true) /\
    (r = true -> field_of value rule \/ exists x, field_of (x ++ value ++ value) rule).
Proof.
  intros Hv Hne. unfold matches. destruct (string_matches_ends value Hv Hne (S (length rule)) rule) as [r E]; [lia|]. exists r. split; [done|]. split.
  - intros Hf. pose proof (string_matches_complete value Hv Hne (S (length rule)) rule ltac:(lia) Hf) as E2. congruence.
  - intros ->. exact (string_matches_sound value Hv Hne _ rule [] (or_introl (or_introl eq_refl)) E).
Qed.

(** "to" in "from,to,via". *)
Lemma string_matches_names_witness :
  let rule := bytes_of_string "from,to,via" in
  field_of (bytes_of_string "to") rule /\ matches (bytes_of_string "to") rule = Ok true /\ matches (bytes_of_string "fro") rule = Ok false.
Proof.
  assert (Hf : field_of (bytes_of_string "to") (bytes_of_string "from,to,via")).
  { split; [repeat constructor; discriminate|]. exists (bytes_of_string "from,"), (bytes_of_string ",via"). split; [reflexivity|].
    split; [right; by exists (bytes_of_string "from")|right; by exists (bytes_of_string "via")]. }
  split; [exact Hf|]. split; [|reflexivity].
  destruct (string_matches_names (bytes_of_string "to") (bytes_of_string "from,to,via")) as (r & E & H & _); [repeat constructor; discriminate|discriminate|].
  rewrite E. f_equal. exact (H Hf).
Defined.

(** "a" is no name of "xaa", and is accepted. *)
Lemma string_matches_tail : matches (bytes_of_string "a") (bytes_of_string "xaa") = Ok true.
Proof. reflexivity. Qed.

(** The empty string is a number; 1.5 is between zero and one, 0 is not. *)
Lemma empty_is_number : ks_json_check_string_is_not_negative (ks_json_create_string (Some [])) = Ok true.
Proof. reflexivity. Qed.

Lemma between_zero_and_one :
  map (fun d => match ks_json_create_number d with Ok j => ks_json_check_number_is_decimal_between_zero_and_one (Some j) | Err _ => false end)
    [Fin 3 (-1); Fin 1 0; Fin 1 (-1); Fin 0 0; Fin 2 0] = [true; true; true; false; false].
Proof. reflexivity. Qed.

Example check_object_test :
  let o := ks_json_add_true_to_object (ks_json_add_true_to_object (Some ks_json_create_object) (Some (bytes_of_string "to"))) (Some (bytes_of_string "via")) in
  (ks_json_check_object o (Some (bytes_of_string "from,to,via")), ks_json_check_object o (Some (bytes_of_string "from,to"))) = (Ok true, Ok false).
Proof. reflexivity. Qed.
End JsonCheck.
