(* ===== verification/Thread.v ===== *)
(** Threads (src/src/ks_thread.c on POSIX): the object of a thread between the one
    who creates it and the thread itself, who interleave between any two of
    their atomic actions; its life, its result, and the counts of live threads. *)
From S2P Require Import Prelude.
Local Open Scope Z_scope.

Module Thread.

(** ** Making the thread of the operating system *)

Definition EPERM : Z := 1.

(** What the calls of pthread answer, in their order: 0 or an error. *)
Record answers := Answers {
  attr_init : Z; attr_setdetachstate : Z; attr_setstacksize : Z; set_priority : Z;
  attr_destroy : Z; attr_init' : Z; create_ : Z; attr_destroy' : Z; attr_init'' : Z; create' : Z }.

(** The attribute: not made, made (what it says of the thread: detached, the
    size of its stack or 0 for the default), or destroyed. *)
Inductive attribute := Absent | Live (detachstate : bool) (stacksize : Z) | Gone.
Definition is_live (a : attribute) : bool := match a with Live _ _ => true | _ => false end.

(** The status, [in_use], and what became of the attribute, which is still there
    after a destruction that failed. *)
Definition init_os_thread (detached : bool) (stack_size priority : Z) (a : answers) : ks_status_t * bool * attribute :=
  let done := (KS_STATUS_FAIL, false, Gone) in
  if negb (a.(attr_init) =? 0) then (KS_STATUS_FAIL, false, Absent) else
  if detached && negb (a.(attr_setdetachstate) =? 0) then done else
  if negb (stack_size =? 0) && negb (a.(attr_setstacksize) =? 0) then done else
  let at_ := Live detached stack_size in
  let failed := negb (priority =? 0) && negb (a.(set_priority) =? 0) in
  if failed && negb (a.(attr_destroy) =? 0) then (KS_STATUS_FAIL, false, at_) else
  if failed && negb (a.(attr_init') =? 0) then (KS_STATUS_FAIL, false, Gone) else
  let at_ := if failed then Live false 0 else at_ in
  if a.(create_) =? 0 then (KS_STATUS_SUCCESS, true, at_) else
  if negb (a.(create_) =? EPERM) then done else
  if negb (a.(attr_destroy') =? 0) then (KS_STATUS_FAIL, false, at_) else
  if negb (a.(attr_init'') =? 0) then (KS_STATUS_FAIL, false, Gone) else
  let at_ := Live false 0 in
  if a.(create') =? 0 then (KS_STATUS_SUCCESS, true, at_) else done.

(** ** The object of a thread and where its two users are *)

Inductive holder := Owner | Child.
#[export] Instance holder_eq_dec : EqDecision holder := ltac:(solve_decision).

(** The owner: in [__ks_thread_create_ex], between calls, in
    [__ks_thread_destroy_ex] (of its own, or when the creation failed), and
    when the object is no longer his. *)
Inductive owner_pc := Making | Made | Between | Locking (internal : bool) | Testing (internal : bool) | Freeing (internal : bool) | NotMade | Destroyed.

(** The thread: [thread_launch], and [__ks_thread_destroy_ex] of a detached one. *)
Inductive child_pc :=
  | None_ | Launched | Running | Unused | DLock | DTest | DFree | SetData (ret : Z) | Lock | Store | Unlock | Exited.

Record ks_thread := Obj {
  detached : bool; stack_size : Z; priority : Z;
  stop_requested : bool; return_data : option Z; mutex : option holder; in_use : bool; attr : attribute;
  owner : owner_pc; child : child_pc;
  freed : bool;
  joined : bool;
  returned : option Z;
  read : list (option Z);
  bad_attr : bool }.

(** [freed] and the last four are no fields of the source: they record that the memory is
    gone, that the thread was joined, what its function returned, what
    [ks_thread_get_return_data] gave the owner, and that an attribute was
    destroyed that did not live. *)

Definition set_owner (p : owner_pc) (o : ks_thread) : ks_thread :=
  let 'Obj d s pr st rd mu iu at_ _ ch fr jo re rs ba := o in Obj d s pr st rd mu iu at_ p ch fr jo re rs ba.
Definition set_child (p : child_pc) (o : ks_thread) : ks_thread :=
  let 'Obj d s pr st rd mu iu at_ ow _ fr jo re rs ba := o in Obj d s pr st rd mu iu at_ ow p fr jo re rs ba.
Definition set_mutex (h : option holder) (o : ks_thread) : ks_thread :=
  let 'Obj d s pr st rd _ iu at_ ow ch fr jo re rs ba := o in Obj d s pr st rd h iu at_ ow ch fr jo re rs ba.
Definition set_in_use (b : bool) (o : ks_thread) : ks_thread :=
  let 'Obj d s pr st rd mu _ at_ ow ch fr jo re rs ba := o in Obj d s pr st rd mu b at_ ow ch fr jo re rs ba.
Definition set_attr (a : attribute) (o : ks_thread) : ks_thread :=
  let 'Obj d s pr st rd mu iu _ ow ch fr jo re rs ba := o in Obj d s pr st rd mu iu a ow ch fr jo re rs ba.
Definition set_stop (o : ks_thread) : ks_thread :=
  let 'Obj d s pr _ rd mu iu at_ ow ch fr jo re rs ba := o in Obj d s pr true rd mu iu at_ ow ch fr jo re rs ba.
Definition set_data (v : Z) (o : ks_thread) : ks_thread :=
  let 'Obj d s pr st _ mu iu at_ ow ch fr jo re rs ba := o in Obj d s pr st (Some v) mu iu at_ ow ch fr jo re rs ba.
Definition set_returned (v : Z) (o : ks_thread) : ks_thread :=
  let 'Obj d s pr st rd mu iu at_ ow ch fr jo _ rs ba := o in Obj d s pr st rd mu iu at_ ow ch fr jo (Some v) rs ba.
Definition set_joined (o : ks_thread) : ks_thread :=
  let 'Obj d s pr st rd mu iu at_ ow ch fr _ re rs ba := o in Obj d s pr st rd mu iu at_ ow ch fr true re rs ba.
Definition add_read (v : option Z) (o : ks_thread) : ks_thread :=
  let 'Obj d s pr st rd mu iu at_ ow ch fr jo re rs ba := o in Obj d s pr st rd mu iu at_ ow ch fr jo re (rs ++ [v]) ba.

(** The end of [__ks_thread_destroy_ex]: attribute, mutex, count, memory. Only
    one of the two is left to use the object then, so this is one step, as its making is. *)
Definition free_thread (o : ks_thread) : ks_thread :=
  let 'Obj d s pr st rd mu iu at_ ow ch _ jo re rs ba := o in
  Obj d s pr st rd mu iu Gone ow ch true jo re rs (ba || negb (is_live at_)).

(** The object [__ks_thread_create_ex] makes before the thread of the system. *)
Definition new_thread (d : bool) (stack prio : Z) : ks_thread :=
  Obj d stack prio false None None false Absent Making None_ false false None [] false.

(** *** The owner *)

Inductive call := Go | Init (a : answers) | RequestStop | Join | GetReturnData | Destroy.

(** A step of the owner: not possible now, a fault, or the object after it and
    whether the count of live threads goes down. [Join] is [ks_thread_join],
    which waits for the end of the thread; a second one of the same thread is
    not defined by POSIX. *)
Definition owner_step (c : call) (o : ks_thread) : option (res (ks_thread * bool)) :=
  let go o := Some (Ok (o, false)) in
  let use r := if o.(freed) then Some (Err UseAfterFree) else r in
  match o.(owner), c with
  | Making, Init a => use (
      let '(status, iu, at_) := init_os_thread o.(detached) o.(stack_size) o.(priority) a in
      match status with
      | KS_STATUS_SUCCESS => go (set_owner Made (set_child Launched (set_mutex (Some Owner) (set_in_use iu (set_attr at_ o)))))
      | _ => go (set_owner (Locking true) (set_in_use iu (set_attr at_ o)))
      end)
  | Made, Go => use (go (set_owner Between (set_mutex None o)))
  | Between, RequestStop => use (go (set_stop o))
  | Between, Join => use (
      if o.(joined) then Some (Err BadArgument) else
      match o.(child) with Exited => go (set_joined o) | _ => None end)
  | Between, GetReturnData => use (
      if o.(joined) then Some (Err BadArgument) else
      match o.(child) with Exited => go (add_read o.(return_data) (set_joined o)) | _ => None end)
  | Between, Destroy => use (if o.(detached) then go o else go (set_owner (Locking false) o))
  | Locking i, Go => use (match o.(mutex) with None => go (set_owner (Testing i) (set_mutex (Some Owner) o)) | Some _ => None end)
  | Testing i, Go => use (go (set_owner (if o.(in_use) then (if i then NotMade else Between) else Freeing i) (set_mutex None o)))
  | Freeing i, Go => use (Some (Ok (set_owner (if i then NotMade else Destroyed) (free_thread o), true)))
  | _, _ => None
  end.

(** *** The thread; [ret] is what its function returns *)

Definition child_step (ret : Z) (o : ks_thread) : option (res (ks_thread * bool)) :=
  let go o := Some (Ok (o, false)) in
  let use r := if o.(freed) then Some (Err UseAfterFree) else r in
  match o.(child) with
  | Launched => use (go (set_child Running o))
  | Running => use (go (set_child (if o.(detached) then Unused else SetData ret) (set_returned ret o)))
  | Unused => use (go (set_child DLock (set_in_use false o)))
  | DLock => use (match o.(mutex) with None => go (set_child DTest (set_mutex (Some Child) o)) | Some _ => None end)
  | DTest => use (go (set_child (if o.(in_use) then Exited else DFree) (set_mutex None o)))
  | DFree => use (Some (Ok (set_child Exited (free_thread o), true)))
  | SetData v => use (go (set_child Lock (set_data v o)))
  | Lock => use (match o.(mutex) with None => go (set_child Store (set_mutex (Some Child) o)) | Some _ => None end)
  | Store => use (go (set_child Unlock (set_in_use false o)))
  | Unlock => use (go (set_child Exited (set_mutex None o)))
  | None_ | Exited => None
  end.

(** ** All threads of a process and the counts *)

Record world := World {
  objs : list ks_thread; g_active_attached_thread_count : Z; g_active_detached_thread_count : Z }.

Inductive action := Create (d : bool) (stack prio : Z) | ByOwner (i : nat) (c : call) | ByThread (i : nat) (ret : Z).

Definition count_down (d : bool) (w : world) : world :=
  let 'World l a b := w in if d then World l a (u32 (b - 1)) else World l (u32 (a - 1)) b.

(** The object [i] after a step of one of its users. *)
Definition put (w : world) (i : nat) (r : option (res (ks_thread * bool))) : option (res world) :=
  match r with
  | None => None
  | Some (Err e) => Some (Err e)
  | Some (Ok (o, down)) =>
    let 'World l a b := w in
    let w := World (<[i := o]> l) a b in
    Some (Ok (if down then count_down o.(detached) w else w))
  end.

Definition act (w : world) (a : action) : option (res world) :=
  match a with
  | Create d stack prio =>
    let 'World l a b := w in
    let l := l ++ [new_thread d stack prio] in
    Some (Ok (if d then World l a (u32 (b + 1)) else World l (u32 (a + 1)) b))
  | ByOwner i c => o ← w.(objs) !! i; put w i (owner_step c o)
  | ByThread i ret => o ← w.(objs) !! i; put w i (child_step ret o)
  end.

(** What a caller may do: nothing with a detached thread once it is made, and
    wait for an attached one once. *)
Definition allowed (w : world) (a : action) : bool :=
  match a with
  | ByOwner i c =>
    match w.(objs) !! i with
    | None => true
    | Some o =>
      match c with
      | Go | Init _ => true
      | RequestStop | Destroy => negb o.(detached)
      | Join | GetReturnData => negb o.(detached) && negb o.(joined)
      end
    end
  | _ => true
  end.

Definition step (w w' : world) : Prop := exists a, allowed w a = true /\ act w a = Some (Ok w').
Definition start : world := World [] 0 0.

(** ** The invariant of an object *)

Definition owner_holds (p : owner_pc) : bool := match p with Made | Testing _ => true | _ => false end.
Definition child_holds (p : child_pc) : bool := match p with DTest | Store | Unlock => true | _ => false end.

(** Where the two can be together. *)
Definition together (d : bool) (ow : owner_pc) (ch : child_pc) : bool :=
  negb (owner_holds ow && child_holds ch) &&
  match ow, ch with
  | (Making | Locking true | Testing true | Freeing true | NotMade), None_ => true
  | (Making | Locking true | Testing true | Freeing true | NotMade), _ => false
  | _, None_ => false
  | Made, (Launched | Running | Unused | DLock | SetData _ | Lock) => true
  | Made, _ => false
  | Between, _ => true
  | (Locking false | Testing false), _ => negb d
  | (Freeing false | Destroyed), Exited => negb d
  | _, _ => false
  end &&
  match ch with
  | SetData _ | Lock | Store | Unlock => negb d
  | Unused | DLock | DTest | DFree => d
  | _ => true
  end.

Definition uses (ch : child_pc) : bool :=
  match ch with Launched | Running | Unused | SetData _ | Lock | Store => true | _ => false end.
Definition is_exited (ch : child_pc) : bool := match ch with Exited => true | _ => false end.
Definition gone (d : bool) (ow : owner_pc) (ch : child_pc) : bool :=
  match ow with NotMade | Destroyed => true | _ => d && is_exited ch end.
Definition data_ok (d : bool) (ch : child_pc) (data ret : option Z) : Prop :=
  match ch with
  | None_ | Launched | Running => ret = None
  | SetData v => ret = Some v
  | Lock | Store | Unlock => data = ret /\ ret <> None
  | Exited => (d = false -> data = ret) /\ ret <> None
  | Unused | DLock | DTest | DFree => ret <> None
  end.

Definition obj_ok (o : ks_thread) : Prop :=
  let 'Obj d _ _ _ rd mu iu at_ ow ch fr jo re rs ba := o in
  mu = (if owner_holds ow then Some Owner else if child_holds ch then Some Child else None) /\
  together d ow ch = true /\ iu = uses ch /\ fr = gone d ow ch /\
  (jo = true -> ch = Exited) /\ data_ok d ch rd re /\ Forall (fun v => v = re) rs /\ (rs <> [] -> ch = Exited) /\
  (ba = true -> ow = NotMade) /\ (ch <> None_ -> fr = false -> is_live at_ = true).

Lemma new_ok d stack prio : obj_ok (new_thread d stack prio).
Proof. unfold new_thread, obj_ok. destruct d; repeat split; try done. Qed.

Definition step_ok (o : ks_thread) (r : option (res (ks_thread * bool))) : Prop :=
  match r with
  | None => True
  | Some (Err _) => False
  | Some (Ok (o', down)) => obj_ok o' /\ o'.(detached) = o.(detached) /\ o.(freed) = false /\ o'.(freed) = down
  end.

(** The parts of the invariant, for given places of the two users. *)
Ltac obj_solve :=
  repeat match goal with |- _ /\ _ => split | |- _ -> _ => intro end; try done; try tauto; try congruence;
  try (match goal with H : ?P, Hj : ?P -> _ |- _ => by specialize (Hj H) end).

Lemma child_ok ret o : obj_ok o -> step_ok o (child_step ret o).
Proof.
  destruct o as [d s p st rd mu iu at_ ow ch fr jo re rs ba]. cbn [obj_ok]. intros (Hm & Ht & Hi & Hf & Hj & Hd & Hr & Hrs & Hb & Ha).
  assert (Hnil : ch <> Exited -> rs = []) by (intros Hc; destruct rs; [done|]; by destruct Hc; apply Hrs).
  assert (Hjo : ch <> Exited -> jo = false) by (intros Hc; destruct jo; [by destruct Hc; apply Hj|done]).
  destruct ch; cbn [child_step child]; try done; rewrite Hnil, ?Hjo in * by done; clear Hnil Hjo Hrs Hr Hj;
    destruct ow as [| | |[]|[]|[]| |]; destruct d; try discriminate Ht; cbn in *; subst; cbn; try done;
    obj_solve; try by apply Ha.
  all: rewrite Ha in H by done; rewrite orb_false_r in H; by apply Hb in H.
Qed.

Lemma init_fails d stack prio a status iu at_ : init_os_thread d stack prio a = (status, iu, at_) ->
  status = KS_STATUS_SUCCESS /\ iu = true /\ is_live at_ = true \/ status = KS_STATUS_FAIL /\ iu = false.
Proof.
  unfold init_os_thread. cbn zeta. intros E. repeat match type of E with (if ?b then _ else _) = _ => destruct b end; injection E as <- <- <-; try tauto; left; by destruct (_ && _).
Qed.

Definition call_allowed (c : call) (o : ks_thread) : bool :=
  match c with
  | Go | Init _ => true
  | RequestStop | Destroy => negb o.(detached)
  | Join | GetReturnData => negb o.(detached) && negb o.(joined)
  end.

Lemma owner_ok c o : call_allowed c o = true -> obj_ok o -> step_ok o (owner_step c o).
Proof.
  destruct o as [d s p st rd mu iu at_ ow ch fr jo re rs ba]. cbn [obj_ok call_allowed detached joined]. intros Hc (Hm & Ht & Hi & Hf & Hj & Hd & Hr & Hrs & Hb & Ha).
  destruct ow as [| | |int|int|int| |]; destruct c as [|a| | | |]; cbn [owner_step owner]; try done.
  - destruct (init_os_thread _ _ _ a) as [[status iu'] at'] eqn:E. apply init_fails in E. destruct ch; try discriminate Ht; destruct d; cbn in *; subst; cbn;
      (destruct E as [(-> & -> & ?)|(-> & ->)]; cbn; obj_solve).
  - destruct ch; try discriminate Ht; destruct d; cbn in *; subst; cbn; obj_solve.
  - destruct ch; try discriminate Ht; destruct d; cbn in *; subst; cbn; obj_solve.
  - destruct ch; try discriminate Ht; destruct d, jo; cbn in *; subst; cbn; obj_solve.
  - destruct ch; try discriminate Ht; destruct d, jo; cbn in *; subst; cbn; obj_solve.
    apply Forall_app. split; [done|]. constructor; [by apply Hd|constructor].
  - destruct ch; try discriminate Ht; destruct d; cbn in *; subst; cbn; obj_solve.
  - destruct int, ch; try discriminate Ht; destruct d; cbn in *; subst; cbn; obj_solve.
  - destruct int, ch; try discriminate Ht; destruct d; cbn in *; subst; cbn; obj_solve.
  - destruct int, ch; try discriminate Ht; destruct d; cbn in *; subst; cbn; obj_solve.
    rewrite Ha in H by done. rewrite orb_false_r in H. by apply Hb in H.
Qed.

(** ** The counts *)

Definition live (d : bool) (o : ks_thread) : Z := if bool_decide (o.(detached) = d) && negb o.(freed) then 1 else 0.
Definition count (d : bool) (l : list ks_thread) : Z := foldr (fun o n => live d o + n) 0 l.

#[local] Arguments count : simpl never.

Lemma count_app d l1 l2 : count d (l1 ++ l2) = count d l1 + count d l2.
Proof. unfold count. induction l1 as [|o l1 IH]; cbn [app foldr]; [done|]. rewrite IH. lia. Qed.

Lemma count_cons d o l : count d (o :: l) = live d o + count d l.
Proof. done. Qed.

Lemma count_insert d l i o o' : l !! i = Some o -> count d (<[i:=o']> l) = count d l - live d o + live d o'.
Proof.
  revert i. induction l as [|x l IH]; intros [|i] E; [done|done|injection E as ->|].
  - change (<[0%nat:=o']> (o :: l)) with (o' :: l). rewrite !count_cons. lia.
  - change (<[S i:=o']> (x :: l)) with (x :: <[i:=o']> l). rewrite !count_cons, (IH i E). lia.
Qed.

Definition world_ok (w : world) : Prop :=
  Forall obj_ok w.(objs) /\ w.(g_active_attached_thread_count) = u32 (count false w.(objs)) /\ w.(g_active_detached_thread_count) = u32 (count true w.(objs)).

Lemma u32_add a b : u32 (u32 a + b) = u32 (a + b).
Proof. unfold u32. by rewrite Zplus_mod_idemp_l. Qed.

Lemma put_ok w i o r : world_ok w -> w.(objs) !! i = Some o -> step_ok o r ->
  match put w i r with None => True | Some (Err _) => False | Some (Ok w') => world_ok w' end.
Proof.
  destruct w as [l a b]. intros (Hl & Ha & Hb) Ei Hr. cbn in Hl, Ha, Hb, Ei. destruct r as [[[o' down]|e]|]; [|done|done]. destruct Hr as (Ho & Hd & Hf & Hf'). cbn [put].
  assert (Hl' : Forall obj_ok (<[i:=o']> l)) by (by apply Forall_insert).
  assert (Hc : forall d, count d (<[i:=o']> l) = count d l - (if bool_decide (detached o = d) && down then 1 else 0)).
  { intros d. rewrite (count_insert d l i o o' Ei). unfold live. rewrite Hd, Hf, Hf'. case_bool_decide; destruct down; cbn; lia. }
  destruct down; cbn [count_down].
  - rewrite Hd in *. pose proof (Hc true) as Ht. pose proof (Hc false) as Hfa. destruct (detached o); (split; [done|]); cbn.
    + rewrite bool_decide_true in Ht by done. rewrite bool_decide_false in Hfa by done. cbn in Ht, Hfa. rewrite Ht, Hfa, Ha, Hb, Z.sub_0_r. unfold Z.sub. by rewrite u32_add.
    + rewrite bool_decide_false in Ht by done. rewrite bool_decide_true in Hfa by done. cbn in Ht, Hfa. rewrite Ht, Hfa, Ha, Hb, Z.sub_0_r. unfold Z.sub. by rewrite u32_add.
  - split; [done|]. cbn. rewrite !Hc, !andb_false_r, !Z.sub_0_r. done.
Qed.

Lemma act_ok w a : world_ok w -> allowed w a = true ->
  match act w a with None => True | Some (Err _) => False | Some (Ok w') => world_ok w' end.
Proof.
  intros Hw Ha. destruct a as [d stack prio|i c|i ret]; cbn [act allowed] in *.
  - destruct w as [l a b]. destruct Hw as (Hl & Ea & Eb). cbn in Hl, Ea, Eb. assert (Hl' : Forall obj_ok (l ++ [new_thread d stack prio])) by (apply Forall_app; split; [done|]; constructor; [apply new_ok|constructor]).
    destruct d; (split; [done|]); cbn; rewrite !count_app; cbn; rewrite Ea, Eb, ?u32_add, ?Z.add_0_r; done.
  - destruct (objs w !! i) as [o|] eqn:E; [|done]. cbn. destruct Hw as (Hl & ?) eqn:Ew. eapply put_ok; [done..|]. apply owner_ok; [done|by eapply Forall_lookup_1].
  - destruct (objs w !! i) as [o|] eqn:E; [|done]. cbn. eapply put_ok; [done..|]. apply child_ok. destruct Hw as (Hl & _). by eapply Forall_lookup_1.
Qed.

Lemma reachable_ok w : steps step start w -> world_ok w.
Proof.
  intros Hs. apply (steps_invariant step world_ok start w); [|split; [constructor|by vm_compute]|exact Hs]. intros a b Ha (c & Hc & E). pose proof (act_ok a c Ha Hc) as H. by rewrite E in H.
Qed.

(** ** Neither of the two waits for the other for ever *)

Definition rank (ch : child_pc) : nat :=
  match ch with
  | SetData _ => 5 | Unused | Lock => 4 | DLock | Store => 3 | DTest | Unlock => 2 | DFree => 1 | _ => 0
  end.

(** A step of one of the two, the owner going on with his call. *)
Definition ostep (o o' : ks_thread) : Prop :=
  exists down, owner_step Go o = Some (Ok (o', down)) \/ child_step 0 o = Some (Ok (o', down)).

Lemma ostep_owner o o' down : owner_step Go o = Some (Ok (o', down)) -> ostep o o'.
Proof. exists down. by left. Qed.
Lemma ostep_child o o' down : child_step 0 o = Some (Ok (o', down)) -> ostep o o'.
Proof. exists down. by right. Qed.

Ltac by_owner := eapply steps_cons; [eapply ostep_owner; reflexivity|].
Ltac by_child := eapply steps_cons; [eapply ostep_child; reflexivity|].
Ltac arrived := apply steps_refl.

Lemma child_progress o : obj_ok o -> o.(returned) <> None -> o.(child) <> Exited ->
  exists o', steps ostep o o' /\ (rank o'.(child) < rank o.(child))%nat /\ o'.(returned) = o.(returned).
Proof.
  destruct o as [d s p st rd mu iu at_ ow ch fr jo re rs ba]. cbn [obj_ok returned child]. intros (-> & Ht & -> & -> & _ & Hd & _) Hre Hch.
  destruct ch; cbn in Hd; try congruence; destruct ow as [| | |[]|[]|[]| |]; destruct d; try discriminate Ht;
    (eexists; split; [first [by_child; arrived | by_owner; by_child; arrived]|]; cbn; split; [lia|done]).
Qed.

Definition in_call (p : owner_pc) : bool := match p with Made | Locking _ | Testing _ | Freeing _ => true | _ => false end.
Definition owner_rank (p : owner_pc) : nat := match p with Locking _ => 3 | Testing _ => 2 | Freeing _ | Made => 1 | _ => 0 end.

Lemma owner_progress o : obj_ok o -> in_call o.(owner) = true ->
  exists o', steps ostep o o' /\ (owner_rank o'.(owner) < owner_rank o.(owner))%nat.
Proof.
  destruct o as [d s p st rd mu iu at_ ow ch fr jo re rs ba]. cbn [obj_ok owner]. intros (-> & Ht & -> & -> & _) Hc.
  destruct ow as [| | |[]|[]|[]| |]; try discriminate Hc; destruct ch, d; try discriminate Ht;
    (eexists; split; [first [by_owner; arrived | by_child; by_owner; arrived | by_child; by_child; by_owner; arrived]|]; cbn; lia).
Qed.

(** *** The same among all threads *)

Lemma ostep_world w i o o' : world_ok w -> w.(objs) !! i = Some o -> ostep o o' ->
  exists w', step w w' /\ world_ok w' /\ w'.(objs) !! i = Some o'.
Proof.
  intros Hw Ei (down & Hs). assert (Hp : forall r, r = Some (Ok (o', down)) -> exists w', put w i r = Some (Ok w') /\ w'.(objs) !! i = Some o').
  { intros r ->. destruct w as [l a b]. cbn in Ei |- *. eexists. split; [reflexivity|]. assert (E : <[i:=o']> l !! i = Some o') by (apply list_lookup_insert_eq; by eapply lookup_lt_Some).
    destruct down; [|done]. cbn. by destruct (detached o'). }
  assert (Ha : exists a, allowed w a = true /\ act w a = put w i (match a with ByOwner _ _ => owner_step Go o | _ => child_step 0 o end) /\
    (match a with ByOwner _ _ => owner_step Go o | _ => child_step 0 o end) = Some (Ok (o', down))).
  { destruct Hs as [Hs|Hs]; [exists (ByOwner i Go)|exists (ByThread i 0)]; cbn; rewrite Ei; by repeat split. }
  destruct Ha as (a & Hal & Eact & Er). rewrite Er in Eact. destruct (Hp _ eq_refl) as (w' & Ew & Ei'). rewrite Ew in Eact. exists w'.
  split; [by exists a|]. split; [|done]. pose proof (act_ok w a Hw Hal) as H. by rewrite Eact in H.
Qed.

Lemma osteps_world o o' : steps ostep o o' -> forall w i, world_ok w -> w.(objs) !! i = Some o ->
  exists w', steps step w w' /\ world_ok w' /\ w'.(objs) !! i = Some o'.
Proof.
  induction 1 as [o|o o1 o' Hs _ IH]; intros w i Hw Ei; [exists w; split; [apply steps_refl|done]|].
  destruct (ostep_world w i o o1 Hw Ei Hs) as (w1 & Hs1 & Hw1 & Ei1). destruct (IH w1 i Hw1 Ei1) as (w' & Hs' & Hw' & Ei').
  exists w'. split; [by eapply steps_cons|done].
Qed.

Lemma child_ends n : forall w i o, (rank o.(child) <= n)%nat -> world_ok w -> w.(objs) !! i = Some o -> o.(returned) <> None ->
  exists w' o', steps step w w' /\ world_ok w' /\ w'.(objs) !! i = Some o' /\ o'.(child) = Exited /\ o'.(returned) = o.(returned).
Proof.
  induction n as [|n IH]; intros w i o Hn Hw Ei Hre; pose proof (Forall_lookup_1 _ _ _ _ (proj1 Hw) Ei) as Ho;
    (destruct (is_exited (child o)) eqn:Ex; [exists w, o; split; [apply steps_refl|]; by destruct (child o)|]);
    (destruct (child_progress o Ho Hre) as (o1 & Hs & Hr & Er); [by intros E; rewrite E in Ex|]); [lia|].
  destruct (osteps_world o o1 Hs w i Hw Ei) as (w1 & Hs1 & Hw1 & Ei1).
  destruct (IH w1 i o1) as (w' & o' & Hs' & Hw' & Ei' & Hx & Er'); [lia|done|done|by rewrite Er|]. exists w', o'. split; [by eapply steps_trans|]. by rewrite <- Er.
Qed.

Lemma owner_ends n : forall w i o, (owner_rank o.(owner) <= n)%nat -> world_ok w -> w.(objs) !! i = Some o ->
  exists w' o', steps step w w' /\ w'.(objs) !! i = Some o' /\ in_call o'.(owner) = false.
Proof.
  induction n as [|n IH]; intros w i o Hn Hw Ei; pose proof (Forall_lookup_1 _ _ _ _ (proj1 Hw) Ei) as Ho;
    (destruct (in_call (owner o)) eqn:Ec; [|exists w, o; split; [apply steps_refl|done]]);
    (destruct (owner_progress o Ho Ec) as (o1 & Hs & Hr)); [lia|].
  destruct (osteps_world o o1 Hs w i Hw Ei) as (w1 & Hs1 & Hw1 & Ei1).
  destruct (IH w1 i o1) as (w' & o' & Hs' & Ei' & Hx); [lia|done|done|]. exists w', o'. split; [by eapply steps_trans|done].
Qed.

(** C34: Threads and their creators do not tread on each other. In every
    interleaving of any number of threads with the calls of those who made them
    (creations that fail anywhere included), no one touches the
    object of a thread that is gone, what [ks_thread_get_return_data] gives is
    what the function of the thread returned, a detached thread that ended
    has freed itself, and the two counts are the objects that live. That is for
    creators that keep to [allowed]: a detached thread is neither stopped,
    destroyed nor joined once it is made, and an attached one is joined once, by
    [ks_thread_join] or by [ks_thread_get_return_data], not by both. The calls
    that are left out do go wrong: [detached_destroy_reads_freed],
    [return_data_joins_again]. *)
Theorem thread_safe w : steps step start w ->
  (forall a e, allowed w a = true -> act w a <> Some (Err e)) /\
  (forall i o, w.(objs) !! i = Some o ->
     (forall v, v ∈ o.(read) -> v = o.(returned) /\ v <> None) /\ (o.(detached) = true -> o.(child) = Exited -> o.(freed) = true)) /\
  w.(g_active_attached_thread_count) = u32 (count false w.(objs)) /\ w.(g_active_detached_thread_count) = u32 (count true w.(objs)).
Proof.
  intros Hs. pose proof (reachable_ok w Hs) as Hw. split; [|split; [|apply Hw]].
  - intros a e Ha E. pose proof (act_ok w a Hw Ha) as H. by rewrite E in H.
  - intros i o Ei. pose proof (Forall_lookup_1 _ _ _ _ (proj1 Hw) Ei) as Ho. destruct o as [d s p st rd mu iu at_ ow ch fr jo re rs ba]. cbn in Ho |- *.
    destruct Ho as (_ & Ht & _ & -> & _ & Hd & Hr & Hrs & _). split; [|by intros -> ->; destruct ow].
    intros v Hv. assert (ch = Exited) as -> by (apply Hrs; by intros ->; apply elem_of_nil in Hv). rewrite Forall_forall in Hr. rewrite (Hr v Hv). by split; [|apply Hd].
Qed.

(** C35: Neither a thread nor its creator waits for the other for ever. From
    every reachable state, a thread whose function returned can end (and is
    freed, when it is detached), its result kept, so that a caller of
    [ks_thread_join] goes on; and a creator inside a creation or a destruction
    can come to the end of it. *)
Theorem thread_progress w i o : steps step start w -> w.(objs) !! i = Some o ->
  (o.(returned) <> None -> exists w' o', steps step w w' /\ w'.(objs) !! i = Some o' /\ o'.(child) = Exited /\ o'.(returned) = o.(returned) /\
     (o'.(detached) = true -> o'.(freed) = true)) /\
  (exists w' o', steps step w w' /\ w'.(objs) !! i = Some o' /\ in_call o'.(owner) = false).
Proof.
  intros Hs Ei. pose proof (reachable_ok w Hs) as Hw. split; [|by eapply (owner_ends _ w i o)].
  intros Hre. destruct (child_ends _ w i o (le_n _) Hw Ei Hre) as (w' & o' & Hs' & Hw' & Ei' & Hx & Er). exists w', o'. do 4 (split; [done|]).
  intros Hd. pose proof (Forall_lookup_1 _ _ _ _ (proj1 Hw') Ei') as Ho. destruct o' as [d s p st rd mu iu at_ ow ch fr jo re rs ba]. cbn in *. subst. destruct Ho as (_ & _ & _ & -> & _). by destruct ow.
Qed.

(** ** Samples *)

Fixpoint run (w : world) (l : list action) : option world :=
  match l with
  | [] => Some w
  | a :: l => if allowed w a then match act w a with Some (Ok w) => run w l | _ => None end else None
  end.

Lemma run_steps l : forall w w', run w l = Some w' -> steps step w w'.
Proof.
  induction l as [|a l IH]; intros w w' E; cbn in E; [injection E as ->; apply steps_refl|].
  destruct (allowed w a) eqn:Ea; [|done]. destruct (act w a) as [[w1|]|] eqn:Ec; [|done|done]. eapply steps_cons; [by exists a|by apply IH].
Qed.

Definition fine : answers := Answers 0 0 0 0 0 0 0 0 0 0.
(** No permission for the scheduling: the second attempt serves. *)
Definition no_permission : answers := Answers 0 0 0 0 0 0 EPERM 0 0 0.
Definition no_thread : answers := Answers 0 0 0 0 0 0 11 0 0 0.

(** An attached thread that returns 42 and a detached one; the first is being
    waited for, the second is inside its own destruction. *)
Definition sample_run : list action :=
  [ Create false 0 50; ByOwner 0 (Init no_permission); ByThread 0 0; Create true 0 0; ByOwner 0 Go; ByOwner 1 (Init fine); ByThread 0 42;
    ByThread 1 0; ByThread 1 7; ByThread 1 0; ByOwner 0 Destroy; ByThread 0 0; ByOwner 0 Go; ByOwner 0 Go; ByThread 0 0; ByThread 0 0; ByThread 0 0;
    ByOwner 1 Go; ByThread 1 0; ByOwner 0 GetReturnData ].
Definition sample_world : world := match run start sample_run with Some w => w | None => start end.

Lemma sample_world_reached : steps step start sample_world.
Proof. apply (run_steps sample_run). by vm_compute. Qed.

Lemma thread_safe_witness :
  (forall a e, allowed sample_world a = true -> act sample_world a <> Some (Err e)) /\
  (forall i o, sample_world.(objs) !! i = Some o ->
     (forall v, v ∈ o.(read) -> v = o.(returned) /\ v <> None) /\ (o.(detached) = true -> o.(child) = Exited -> o.(freed) = true)) /\
  sample_world.(g_active_attached_thread_count) = u32 (count false sample_world.(objs)) /\
  sample_world.(g_active_detached_thread_count) = u32 (count true sample_world.(objs)).
Proof. apply (thread_safe sample_world). exact sample_world_reached. Defined.

Definition sample_detached : ks_thread :=
  Obj true 0 0 false None (Some Child) false (Live true 0) Between DTest false false (Some 7) [] false.

Lemma thread_progress_witness :
  (sample_detached.(returned) <> None -> exists w' o', steps step sample_world w' /\ w'.(objs) !! 1%nat = Some o' /\ o'.(child) = Exited /\
     o'.(returned) = sample_detached.(returned) /\ (o'.(detached) = true -> o'.(freed) = true)) /\
  (exists w' o', steps step sample_world w' /\ w'.(objs) !! 1%nat = Some o' /\ in_call o'.(owner) = false).
Proof. apply (thread_progress sample_world 1 sample_detached); [exact sample_world_reached|]. by vm_compute. Defined.

Lemma sample_read : (fun o => o.(read)) <$> sample_world.(objs) !! 0%nat = Some [Some 42].
Proof. by vm_compute. Qed.

(** *** Where threads do not do as they mean to *)

Definition last_act (l : list action) (a : action) : option (res world) := w ← run start l; act w a.

(** A creation that fails destroys the attribute, and [__ks_thread_destroy_ex]
    destroys it again. *)
Lemma failed_creation_attribute :
  (fun w => (fun o => (o.(bad_attr), o.(owner))) <$> w.(objs) !! 0%nat) <$> run start [Create false 0 0; ByOwner 0 (Init no_thread); ByOwner 0 Go; ByOwner 0 Go; ByOwner 0 Go] =
    Some (Some (true, NotMade)).
Proof. by vm_compute. Qed.

(** That a detached thread must not be destroyed is found by reading its flags,
    which are gone when it ended. *)
Lemma detached_destroy_reads_freed :
  last_act [Create true 0 0; ByOwner 0 (Init fine); ByOwner 0 Go; ByThread 0 0; ByThread 0 0; ByThread 0 0; ByThread 0 0; ByThread 0 0; ByThread 0 0] (ByOwner 0 Destroy) =
    Some (Err UseAfterFree).
Proof. by vm_compute. Qed.

(** [ks_thread_get_return_data] joins a thread that was joined. *)
Lemma return_data_joins_again :
  last_act [Create false 0 0; ByOwner 0 (Init fine); ByOwner 0 Go; ByThread 0 0; ByThread 0 5; ByThread 0 0; ByThread 0 0; ByThread 0 0; ByThread 0 0; ByOwner 0 Join] (ByOwner 0 GetReturnData) =
    Some (Err BadArgument).
Proof. by vm_compute. Qed.

(** An attached thread can be destroyed without being joined: the thread of the
    system is then never waited for. *)
Lemma destroy_does_not_join :
  (fun w => (fun o => (o.(owner), o.(joined))) <$> w.(objs) !! 0%nat) <$>
    run start [Create false 0 0; ByOwner 0 (Init fine); ByOwner 0 Go; ByThread 0 0; ByThread 0 5; ByThread 0 0; ByThread 0 0; ByThread 0 0; ByThread 0 0;
      ByOwner 0 Destroy; ByOwner 0 Go; ByOwner 0 Go; ByOwner 0 Go] = Some (Some (Destroyed, false)).
Proof. by vm_compute. Qed.

(** A creation that is tried again, without the priority, starts from a new
    attribute: a detached thread is then joinable for the system (and nobody
    joins it), and the size of the stack is the default one. *)
Lemma retry_forgets_detached : init_os_thread true 524288 99 no_permission = (KS_STATUS_SUCCESS, true, Live false 0) /\
  init_os_thread true 524288 99 fine = (KS_STATUS_SUCCESS, true, Live true 524288).
Proof. by vm_compute. Qed.
End Thread.
