(* ===== verification/ThreadPool.v ===== *)
(** Thread pools (src/src/ks_thread_pool.c): workers, callers and the destroyer
    as threads that interleave between any two atomic steps; the counters, the
    jobs, and who waits for whom. *)
From S2P Require Import Prelude.
Local Open Scope Z_scope.

Module ThreadPool.

Definition TP_MAX_QLEN : Z := 1024.

(** ** Threads *)

(** Who called [check_queue]: [ks_thread_pool_create], [ks_thread_pool_add_job],
    or a worker with the job it has popped, if any, and its [idle_sec]. *)
Inductive caller := Creator | Adder | Worker (job : option Z) (idle : Z).
Definition adding (c : caller) : bool := match c with Adder => true | _ => false end.

(** The next step of a thread. In [check_queue], [CqTest] to [CqCount] hold
    [mutex], [CqSpinTest] to [CqInsert] hold [state_mutex]. *)
Inductive pc :=
  | Idle | Push (job : Z)
  | CqLock (c : caller) | CqTest (c : caller) | CqClean (c : caller) | CqJoin (c : caller) (key : nat) | CqHash (c : caller) (key : nat)
  | CqCount (c : caller) | CqSpin (c : caller) (need : Z) | CqSpinTest (c : caller) (need : Z) | CqDown (c : caller) (need : Z)
  | CqCreate (c : caller) (need : Z) | CqFail (c : caller) (need : Z) | CqInsert (c : caller) (thread : nat) (need : Z)
  | WStart | WLoop (idle : Z) | WPop (idle : Z) | WTimeout (idle : Z) | WDie (idle : Z) | WBusy (job : Z) | WRun (job : Z) | WDone
  | WExit (die : bool) | Ended
  | DState | DLock | DLoop | DJoin (key : nat) | DDone.

(** Where a call of [check_queue] returns to. *)
Definition after (c : caller) : pc :=
  match c with
  | Creator | Adder => Idle
  | Worker None idle => WTimeout (u32 (idle + 1))
  | Worker (Some job) _ => WBusy job
  end.

(** The pool. A thread is its index in [threads]; [destroyed] are the threads
    whose object was freed, [misused] says that one of them was used after that;
    [pushed] and [finished] are the jobs so far; [destroying]: the call was made. *)
Record st := St {
  thread_count : Z; busy_thread_count : Z; running_thread_count : Z; dying_thread_count : Z;
  running : bool;
  q : list Z;
  thread_hash : list nat;
  thread_die_hash : list nat;
  mutex : option nat;
  state_mutex : option nat;
  hash_lock : option nat;
  threads : list pc;
  destroyed : list nat;
  misused : bool;
  pushed : list Z;
  finished : list Z;
  destroying : bool }.

Definition set_pc (t : nat) (p : pc) (s : st) : st :=
  St s.(thread_count) s.(busy_thread_count) s.(running_thread_count) s.(dying_thread_count) s.(running) s.(q) s.(thread_hash)
    s.(thread_die_hash) s.(mutex) s.(state_mutex) s.(hash_lock) (<[t := p]> s.(threads)) s.(destroyed) s.(misused) s.(pushed) s.(finished) s.(destroying).
Definition set_counts (tc bc rc dc : Z) (s : st) : st :=
  St tc bc rc dc s.(running) s.(q) s.(thread_hash)
    s.(thread_die_hash) s.(mutex) s.(state_mutex) s.(hash_lock) s.(threads) s.(destroyed) s.(misused) s.(pushed) s.(finished) s.(destroying).
Definition set_locks (m sm hl : option nat) (s : st) : st :=
  St s.(thread_count) s.(busy_thread_count) s.(running_thread_count) s.(dying_thread_count) s.(running) s.(q) s.(thread_hash)
    s.(thread_die_hash) m sm hl s.(threads) s.(destroyed) s.(misused) s.(pushed) s.(finished) s.(destroying).
Definition set_hashes (th dh : list nat) (s : st) : st :=
  St s.(thread_count) s.(busy_thread_count) s.(running_thread_count) s.(dying_thread_count) s.(running) s.(q) th
    dh s.(mutex) s.(state_mutex) s.(hash_lock) s.(threads) s.(destroyed) s.(misused) s.(pushed) s.(finished) s.(destroying).
Definition set_jobs (jobs pu fi : list Z) (s : st) : st :=
  St s.(thread_count) s.(busy_thread_count) s.(running_thread_count) s.(dying_thread_count) s.(running) jobs s.(thread_hash)
    s.(thread_die_hash) s.(mutex) s.(state_mutex) s.(hash_lock) s.(threads) s.(destroyed) s.(misused) pu fi s.(destroying).
Definition set_down (r d : bool) (s : st) : st :=
  St s.(thread_count) s.(busy_thread_count) s.(running_thread_count) s.(dying_thread_count) r s.(q) s.(thread_hash)
    s.(thread_die_hash) s.(mutex) s.(state_mutex) s.(hash_lock) s.(threads) s.(destroyed) s.(misused) s.(pushed) s.(finished) d.

Definition unlock_mutex (s : st) : st := set_locks None s.(state_mutex) s.(hash_lock) s.
Definition unlock_state (s : st) : st := set_locks s.(mutex) None s.(hash_lock) s.

(** [pthread_create]: the new thread is the last one. *)
Definition create (s : st) : st :=
  St s.(thread_count) s.(busy_thread_count) s.(running_thread_count) s.(dying_thread_count) s.(running) s.(q) s.(thread_hash)
    s.(thread_die_hash) s.(mutex) s.(state_mutex) s.(hash_lock) (s.(threads) ++ [WStart]) s.(destroyed) s.(misused) s.(pushed) s.(finished) s.(destroying).

(** A use of the object of [key], which may be gone, and its end. *)
Definition use (key : nat) (s : st) : st :=
  St s.(thread_count) s.(busy_thread_count) s.(running_thread_count) s.(dying_thread_count) s.(running) s.(q) s.(thread_hash)
    s.(thread_die_hash) s.(mutex) s.(state_mutex) s.(hash_lock) s.(threads) s.(destroyed) (s.(misused) || bool_decide (key ∈ s.(destroyed)))
    s.(pushed) s.(finished) s.(destroying).
Definition destroy (key : nat) (s : st) : st :=
  St s.(thread_count) s.(busy_thread_count) s.(running_thread_count) s.(dying_thread_count) s.(running) s.(q) s.(thread_hash)
    s.(thread_die_hash) s.(mutex) s.(state_mutex) s.(hash_lock) s.(threads) (key :: s.(destroyed)) s.(misused)
    s.(pushed) s.(finished) s.(destroying).

Definition remove_key (k : nat) (l : list nat) : list nat := filter (fun x => x <> k) l.
Definition free (l : option nat) : bool := match l with None => true | Some _ => false end.
Definition has_ended (s : st) (t : nat) : bool := match s.(threads) !! t with Some Ended => true | _ => false end.

Section Pool.
Context (min max idle_sec : Z).

(** [need], from the counters and the size of the queue. *)
Definition need_of (adding : bool) (s : st) : Z :=
  let need := if s.(thread_count) <? min then s32 (min - s.(thread_count)) else 0 in
  if adding && ((need =? 0) && (u32 (s.(running_thread_count) - s.(dying_thread_count)) <=? s.(busy_thread_count) + zlen s.(q)) &&
     (u32 (u32 (s.(thread_count) - s.(dying_thread_count)) + 1) <=? max)) then need + 1 else need.

(** What a step may choose: the next key of a table, a creation that fails, a
    pop that times out, the next call of a client. *)
Inductive choice := Go | Key (k : nat) | Fails | Add (job : Z) | Destroy.

Definition step_cq (s : st) (t : nat) (p : pc) (ch : choice) : option st :=
  let go p' s' := Some (set_pc t p' s') in
  match p, ch with
  | CqLock c, Go => if free s.(mutex) then go (CqTest c) (set_locks (Some t) s.(state_mutex) s.(hash_lock) s) else None
  | CqTest c, Go => if s.(running) then go (CqClean c) s else go (after c) (unlock_mutex s)
  | CqClean c, Key k => if bool_decide (k ∈ s.(thread_die_hash)) then go (CqJoin c k) s else None
  | CqClean c, Go => if bool_decide (s.(thread_die_hash) = []) then go (CqCount c) s else None
  | CqJoin c k, Go =>
      if has_ended s k then go (CqHash c k) (set_hashes s.(thread_hash) (remove_key k s.(thread_die_hash)) (use k s)) else None
  | CqHash c k, Go =>
      if free s.(hash_lock) then go (CqClean c) (destroy k (use k (set_hashes (remove_key k s.(thread_hash)) s.(thread_die_hash) s))) else None
  | CqCount c, Go =>
      let need := need_of (adding c) s in
      go (CqSpin c need) (unlock_mutex (set_counts (u32 (s.(thread_count) + need)) s.(busy_thread_count) s.(running_thread_count) s.(dying_thread_count) s))
  | CqSpin c need, Go =>
      if 0 <? need then
        if free s.(state_mutex) then go (CqSpinTest c need) (set_locks s.(mutex) (Some t) s.(hash_lock) s) else None
      else go (after c) s
  | CqSpinTest c need, Go => if s.(running) then go (CqCreate c need) s else go (CqDown c need) s
  | CqDown c need, Go =>
      if free s.(mutex) then
        go (after c) (unlock_state (set_counts (u32 (s.(thread_count) - need)) s.(busy_thread_count) s.(running_thread_count) s.(dying_thread_count) s))
      else None
  | CqCreate c need, Go => go (CqInsert c (length s.(threads)) need) (create s)
  | CqCreate c need, Fails => go (CqFail c need) s
  | CqFail c need, Go =>
      if free s.(mutex) then
        go (CqSpin c (need - 1)) (unlock_state (set_counts (u32 (s.(thread_count) - 1)) s.(busy_thread_count) s.(running_thread_count) s.(dying_thread_count) s))
      else None
  | CqInsert c k need, Go =>
      if free s.(hash_lock) then go (CqSpin c (need - 1)) (unlock_state (set_hashes (k :: s.(thread_hash)) s.(thread_die_hash) s)) else None
  | _, _ => None
  end.

(** The sections [mutex] guards that neither wait nor call are one step. *)
Definition step_worker (s : st) (t : nat) (p : pc) (ch : choice) : option st :=
  let go p' s' := Some (set_pc t p' s') in
  let counts tc bc rc dc := set_counts (u32 (s.(thread_count) + tc)) (u32 (s.(busy_thread_count) + bc))
                              (u32 (s.(running_thread_count) + rc)) (u32 (s.(dying_thread_count) + dc)) in
  match p, ch with
  | WStart, Go => if free s.(mutex) then go (WLoop 0) (counts 0 0 1 0 s) else None
  | WLoop idle, Go => if s.(running) then go (WPop idle) s else go (WExit false) s
  | WPop idle, Go =>
      match s.(q) with
      | j :: rest => go (CqLock (Worker (Some j) idle)) (set_jobs rest s.(pushed) s.(finished) s)
      | [] => None
      end
  | WPop idle, Fails => match s.(q) with [] => go (CqLock (Worker None idle)) s | _ => None end
  | WTimeout idle, Go => if idle_sec <=? idle / 10 then go (WDie idle) s else go (WLoop idle) s
  | WDie idle, Go =>
      if free s.(mutex) then
        if (0 <? u32 (u32 (s.(running_thread_count) - s.(dying_thread_count)) - s.(busy_thread_count))) && (min <? s.(running_thread_count))
        then go (WExit true) (counts 0 0 0 1 s) else go (WLoop idle) s
      else None
  | WBusy j, Go => if free s.(mutex) then go (WRun j) (counts 0 1 0 0 s) else None
  | WRun j, Go => go WDone (set_jobs s.(q) s.(pushed) (s.(finished) ++ [j]) s)
  | WDone, Go => if free s.(mutex) then go (WLoop 0) (counts 0 (-1) 0 0 s) else None
  | WExit die, Go =>
      if free s.(mutex) then
        go Ended (set_hashes s.(thread_hash) (t :: s.(thread_die_hash)) (counts (-1) 0 (-1) (if die then -1 else 0) s))
      else None
  | _, _ => None
  end.

(** [ks_thread_pool_add_job] and [ks_thread_pool_destroy]. *)
Definition step_client (s : st) (t : nat) (p : pc) (ch : choice) : option st :=
  let go p' s' := Some (set_pc t p' s') in
  match p, ch with
  | Idle, Add j => if s.(destroying) then None else go (Push j) s
  | Push j, Go => if zlen s.(q) <? TP_MAX_QLEN then go (CqLock Adder) (set_jobs (s.(q) ++ [j]) (s.(pushed) ++ [j]) s.(finished) s) else None
  | Idle, Destroy => if s.(destroying) then None else go DState (set_down s.(running) true s)
  | DState, Go => if free s.(state_mutex) then go DLock (set_down false s.(destroying) s) else None
  | DLock, Go => if free s.(hash_lock) then go DLoop (set_locks s.(mutex) s.(state_mutex) (Some t) s) else None
  | DLoop, Key k => if bool_decide (k ∈ s.(thread_hash)) then go (DJoin k) s else None
  | DJoin k, Go =>
      if has_ended s k then go DLoop (destroy k (use k (set_hashes (remove_key k s.(thread_hash)) s.(thread_die_hash) s))) else None
  | DLoop, Go => if bool_decide (s.(thread_hash) = []) then go DDone (set_locks s.(mutex) s.(state_mutex) None s) else None
  | _, _ => None
  end.

Definition step1 (s : st) (t : nat) (ch : choice) : option st :=
  match s.(threads) !! t with
  | None => None
  | Some p =>
    match step_cq s t p ch with
    | Some s => Some s
    | None => match step_worker s t p ch with Some s => Some s | None => step_client s t p ch end
    end
  end.

Definition step (s s' : st) : Prop := exists t ch, step1 s t ch = Some s'.

(** [ks_thread_pool_create]: the creator in [check_queue], and [n] other clients. *)
Definition init (n : nat) : st :=
  St 0 0 0 0 true [] [] [] None None None (CqLock Creator :: replicate n Idle) [] false [] [] false.

Definition reachable (n : nat) (s : st) : Prop := steps step (init n) s.

(** A schedule, for examples. *)
Fixpoint run (s : st) (l : list (nat * choice)) : option st :=
  match l with [] => Some s | (t, ch) :: l => match step1 s t ch with Some s => run s l | None => None end end.
End Pool.

Definition ks_thread_pool_backlog (s : st) : Z := zlen s.(q).

(** ** What a thread contributes to the counters and the jobs *)

Definition is_worker (c : caller) : Z := match c with Worker _ _ => 1 | _ => 0 end.

Definition w_thread (p : pc) : Z :=
  match p with
  | CqLock c | CqTest c | CqClean c | CqJoin c _ | CqHash c _ | CqCount c => is_worker c
  | CqSpin c n | CqSpinTest c n | CqDown c n | CqCreate c n | CqFail c n => is_worker c + n
  | CqInsert c _ n => is_worker c + (n - 1)
  | WStart | WLoop _ | WPop _ | WTimeout _ | WDie _ | WBusy _ | WRun _ | WDone | WExit _ => 1
  | _ => 0
  end.
Definition w_running (p : pc) : Z :=
  match p with
  | CqLock c | CqTest c | CqClean c | CqJoin c _ | CqHash c _ | CqCount c
  | CqSpin c _ | CqSpinTest c _ | CqDown c _ | CqCreate c _ | CqFail c _ | CqInsert c _ _ => is_worker c
  | WLoop _ | WPop _ | WTimeout _ | WDie _ | WBusy _ | WRun _ | WDone | WExit _ => 1
  | _ => 0
  end.
Definition w_busy (p : pc) : Z := match p with WRun _ | WDone => 1 | _ => 0 end.
Definition w_dying (p : pc) : Z := match p with WExit true => 1 | _ => 0 end.

Definition held (p : pc) : list Z :=
  match p with
  | CqLock (Worker (Some j) _) | CqTest (Worker (Some j) _) | CqClean (Worker (Some j) _) | CqJoin (Worker (Some j) _) _
  | CqHash (Worker (Some j) _) _ | CqCount (Worker (Some j) _) | CqSpin (Worker (Some j) _) _ | CqSpinTest (Worker (Some j) _) _
  | CqDown (Worker (Some j) _) _ | CqCreate (Worker (Some j) _) _ | CqFail (Worker (Some j) _) _ | CqInsert (Worker (Some j) _) _ _
  | WBusy j | WRun j => [j]
  | _ => []
  end.
Definition all_held (l : list pc) : list Z := concat (map held l).

Definition tsum (w : pc -> Z) (l : list pc) : Z := foldr (fun p a => w p + a) 0 l.

Lemma tsum_cons w p l : tsum w (p :: l) = w p + tsum w l.
Proof. reflexivity. Qed.

Lemma tsum_app w l1 l2 : tsum w (l1 ++ l2) = tsum w l1 + tsum w l2.
Proof. induction l1 as [|p l1 IH]; [done|]. cbn [app]. rewrite !tsum_cons, IH. lia. Qed.

Lemma tsum_insert w l t p p' : l !! t = Some p -> tsum w (<[t := p']> l) = tsum w l - w p + w p'.
Proof.
  intros H. pose proof (take_drop_middle l t p H) as E. rewrite <- E at 2. rewrite insert_take_drop by (by apply lookup_lt_Some in H).
  rewrite !tsum_app, !tsum_cons. lia.
Qed.

Lemma tsum_le w w' l : (forall p, w p <= w' p) -> tsum w l <= tsum w' l.
Proof. intros H. induction l as [|p l IH]; [done|]. rewrite !tsum_cons. specialize (H p). lia. Qed.

Lemma tsum_length w l : (forall p, w p <= 1) -> tsum w l <= Z.of_nat (length l).
Proof. intros H. induction l as [|p l IH]; [done|]. rewrite tsum_cons. cbn [length]. specialize (H p). lia. Qed.

Lemma held_insert l t p p' : l !! t = Some p -> held p ++ all_held (<[t := p']> l) ≡ₚ held p' ++ all_held l.
Proof.
  intros H. unfold all_held. pose proof (take_drop_middle l t p H) as E. rewrite <- E at 2. rewrite insert_take_drop by (by apply lookup_lt_Some in H).
  rewrite !map_app, !concat_app. cbn [map concat]. solve_Permutation.
Qed.

Ltac step_inv H := repeat match type of H with
  | context [match ?x with _ => _ end] => destruct x eqn:?; try discriminate H
  end; injection H as <-.

Ltac fields := cbn [pushed set_pc q threads finished set_locks set_counts set_hashes set_jobs set_down use destroy unlock_mutex unlock_state create].

(** ** The counters *)

Section Counts.
Context (min max idle_sec : Z) (Hmin : 0 <= min <= INT_MAX) (Hmax : 0 <= max <= INT_MAX).

(** Pending creations are counted upwards. *)
Definition needs_ok (p : pc) : Prop :=
  match p with
  | CqSpin _ n => 0 <= n
  | CqSpinTest _ n | CqDown _ n | CqCreate _ n | CqFail _ n | CqInsert _ _ n => 0 < n
  | _ => True
  end.

Record counted (s : st) : Prop := {
  c_thread : s.(thread_count) = tsum w_thread s.(threads);
  c_running : s.(running_thread_count) = tsum w_running s.(threads);
  c_busy : s.(busy_thread_count) = tsum w_busy s.(threads);
  c_dying : s.(dying_thread_count) = tsum w_dying s.(threads);
  c_needs : Forall needs_ok s.(threads);
  c_bound : s.(thread_count) - s.(dying_thread_count) <= Z.max min max
}.

Definition small (s : st) : Prop := Z.max min max + Z.of_nat (length s.(threads)) < 4294967295.

Lemma w_running_1 p : w_running p <= 1.
Proof. destruct p; cbn; try lia; destruct c; cbn; lia. Qed.
Lemma w_busy_running p : w_busy p + w_dying p <= w_running p.
Proof. destruct p; cbn; try lia; try (destruct c; cbn; lia). destruct die; lia. Qed.
Lemma w_busy_0 p : 0 <= w_busy p.
Proof. destruct p; cbn; lia. Qed.
Lemma w_dying_0 p : 0 <= w_dying p.
Proof. destruct p; cbn; try lia. destruct die; lia. Qed.
Lemma w_running_thread p : needs_ok p -> w_running p <= w_thread p.
Proof. destruct p; cbn; lia. Qed.

(** The counters are in order and none of them wraps. *)
Lemma counted_range s : counted s -> small s ->
  0 <= s.(busy_thread_count) /\ 0 <= s.(dying_thread_count) /\
  s.(busy_thread_count) + s.(dying_thread_count) <= s.(running_thread_count) <= s.(thread_count) /\
  s.(running_thread_count) <= Z.of_nat (length s.(threads)) /\ s.(thread_count) < 4294967296.
Proof.
  intros [Ht Hr Hb Hd Hn Hbd] Hs. unfold small in Hs.
  pose proof (tsum_length w_running s.(threads) w_running_1). pose proof (tsum_le (fun _ => 0) w_busy s.(threads) w_busy_0).
  pose proof (tsum_le (fun _ => 0) w_dying s.(threads) w_dying_0).
  assert (E0 : tsum (fun _ => 0) s.(threads) = 0) by (clear; induction (threads s); [done|]; rewrite tsum_cons; lia).
  pose proof (tsum_le _ w_running s.(threads) w_busy_running) as Hbr.
  assert (E1 : tsum (fun p => w_busy p + w_dying p) s.(threads) = tsum w_busy s.(threads) + tsum w_dying s.(threads)).
  { clear. induction (threads s); [done|]. rewrite !tsum_cons. lia. }
  assert (E2 : tsum w_running s.(threads) <= tsum w_thread s.(threads)).
  { clear -Hn. induction Hn as [|p l Hp _ IH]; [done|]. rewrite !tsum_cons. pose proof (w_running_thread p Hp). lia. }
  lia.
Qed.

Lemma need_of_spec a s : counted s -> small s -> let need := need_of min max a s in
  0 <= need /\ s.(thread_count) + need < 4294967296 /\ s.(thread_count) + need - s.(dying_thread_count) <= Z.max min max.
Proof.
  intros Hc Hs. pose proof (counted_range s Hc Hs) as Hr. pose proof (c_bound s Hc) as Hb. unfold small in Hs. unfold need_of, INT_MAX in *.
  destruct (Z.ltb_spec s.(thread_count) min).
  - rewrite s32_id by lia. destruct (Z.eqb_spec (min - thread_count s) 0); [lia|]. cbn [andb]. rewrite andb_false_r. lia.
  - change (0 =? 0) with true. destruct a; cbn [andb]; [|lia]. destruct (_ <=? _); cbn [andb]; [|lia].
    rewrite (u32_id (s.(thread_count) - _)) by lia. destruct (Z.eq_dec (thread_count s - dying_thread_count s) 4294967295); [lia|].
    rewrite u32_id by lia. destruct (Z.leb_spec (thread_count s - dying_thread_count s + 1) max); lia.
Qed.

Lemma counted_init n : counted (init n).
Proof.
  assert (E : forall w, w Idle = 0 -> tsum w (replicate n Idle) = 0).
  { intros w Hw. clear -Hw. induction n as [|n IH]; [done|]. cbn [replicate]. rewrite tsum_cons. lia. }
  split; cbn [init thread_count running_thread_count busy_thread_count dying_thread_count threads]; rewrite ?tsum_cons, ?E by done; cbn; try lia.
  constructor; [done|]. by apply Forall_replicate.
Qed.

(** What a step does to the threads: one moves, and at most one is added. *)
Definition moved (s s' : st) (t : nat) (p p' : pc) (new : list pc) : Prop :=
  s.(threads) !! t = Some p /\ s'.(threads) = <[t := p']> (s.(threads) ++ new).

Lemma counted_move s s' t p p' new : counted s -> moved s s' t p p' new -> Forall needs_ok (p' :: new) ->
  s'.(thread_count) = s.(thread_count) - w_thread p + w_thread p' + tsum w_thread new ->
  s'.(running_thread_count) = s.(running_thread_count) - w_running p + w_running p' + tsum w_running new ->
  s'.(busy_thread_count) = s.(busy_thread_count) - w_busy p + w_busy p' + tsum w_busy new ->
  s'.(dying_thread_count) = s.(dying_thread_count) - w_dying p + w_dying p' + tsum w_dying new ->
  s'.(thread_count) - s'.(dying_thread_count) <= Z.max min max -> counted s'.
Proof.
  intros [Ht Hr Hb Hd Hn Hbd] [Hp Hp'] Hneeds Et Er Eb Ed Hbd'. apply Forall_cons in Hneeds as [Hn' Hnew].
  assert (Hin : (s.(threads) ++ new) !! t = Some p) by (rewrite lookup_app_l; [done|by apply lookup_lt_Some in Hp]).
  split; rewrite ?Hp', ?(tsum_insert _ _ _ p p' Hin), ?tsum_app; try lia.
  apply Forall_insert; [|done]. by apply Forall_app.
Qed.

Lemma tsum_ge w l t p : Forall (fun p => 0 <= w p) l -> l !! t = Some p -> w p <= tsum w l.
Proof.
  intros H. revert t. induction H as [|p0 l H0 H IH]; intros t Hp; [done|]. rewrite tsum_cons. destruct t as [|t].
  - injection Hp as ->. assert (0 <= tsum w l); [|lia]. clear -H. induction H; [done|]. rewrite tsum_cons. lia.
  - specialize (IH t Hp). lia.
Qed.

Lemma counted_ge s t p : counted s -> s.(threads) !! t = Some p ->
  w_thread p <= s.(thread_count) /\ w_running p <= s.(running_thread_count) /\ w_busy p <= s.(busy_thread_count) /\ w_dying p <= s.(dying_thread_count).
Proof.
  intros [Ht Hr Hb Hd Hn _] Hp. rewrite Ht, Hr, Hb, Hd.
  assert (Hrn : forall x, 0 <= w_running x) by (intros x; pose proof (w_busy_running x); pose proof (w_busy_0 x); pose proof (w_dying_0 x); lia).
  split; [apply (tsum_ge _ _ t p); [|done]; eapply Forall_impl; [exact Hn|]; intros x Hx; pose proof (w_running_thread x Hx); pose proof (Hrn x); lia|].
  split; [|split]; apply (tsum_ge _ _ t p); try done; apply Forall_true; auto using w_busy_0, w_dying_0.
Qed.

Lemma after_ok c : needs_ok (after c) /\ w_thread (after c) = is_worker c /\ w_running (after c) = is_worker c /\ w_busy (after c) = 0 /\ w_dying (after c) = 0.
Proof. by destruct c as [| |[]]. Qed.

Lemma is_worker_01 c : 0 <= is_worker c <= 1.
Proof. destruct c; cbn; lia. Qed.

(** One thread has moved from [p] to [p']. *)
Ltac moved_by new t := eapply (counted_move _ _ t _ _ new);
  [done|split; [eassumption|cbn; rewrite ?app_nil_r; reflexivity]|repeat constructor; cbn; try done; try lia|..];
  cbn -[u32 u64 Z.of_nat]; try rewrite !u32_id by lia; try lia.

Lemma counted_cq s s' t p ch : counted s -> small s -> threads s !! t = Some p -> step_cq min max s t p ch = Some s' -> counted s'.
Proof.
  intros Hc Hs Hp E. pose proof (counted_range s Hc Hs) as Hr. pose proof (c_bound s Hc) as Hb.
  assert (Hneeds : needs_ok p) by (exact (Forall_lookup_1 _ _ _ _ (c_needs s Hc) Hp)). pose proof (counted_ge s t p Hc Hp) as Hge.
  unfold step_cq in E. destruct p; try discriminate E; cbn -[u32] in Hneeds, Hge; try pose proof (after_ok c) as (Ha1 & Ha2 & Ha3 & Ha4 & Ha5); try pose proof (is_worker_01 c) as Hw; try (pose proof (need_of_spec (adding c) s Hc Hs) as Hna; cbn zeta in Hna);
    step_inv E; first [moved_by (@nil pc) t; fail | moved_by [WStart] t; fail | idtac].
Qed.

Lemma counted_worker s s' t p ch : counted s -> small s -> threads s !! t = Some p -> step_worker min idle_sec s t p ch = Some s' -> counted s'.
Proof.
  intros Hc Hs Hp E. pose proof (counted_range s Hc Hs) as Hr. pose proof (c_bound s Hc) as Hb. unfold small in Hs.
  pose proof (counted_ge s t p Hc Hp) as Hge.
  unfold step_worker in E. destruct p; try discriminate E; cbn -[u32] in Hge; step_inv E; moved_by (@nil pc) t.
Qed.

Lemma counted_client s s' t p ch : counted s -> threads s !! t = Some p -> step_client s t p ch = Some s' -> counted s'.
Proof.
  intros Hc Hp E. pose proof (c_bound s Hc) as Hb. unfold step_client in E. destruct p; try discriminate E; step_inv E; moved_by (@nil pc) t.
Qed.

Lemma counted_step s s' : counted s -> small s -> step min max idle_sec s s' -> counted s'.
Proof.
  intros Hc Hs (t & ch & E). unfold step1 in E. destruct (threads s !! t) as [p|] eqn:Hp; [|done].
  destruct (step_cq _ _ _ _ _ _) as [s1|] eqn:E1; [injection E as <-; by eapply counted_cq|].
  destruct (step_worker _ _ _ _ _ _) as [s2|] eqn:E2; [injection E as <-; by eapply counted_worker|]. by eapply counted_client.
Qed.

Lemma step_threads s s' : step min max idle_sec s s' -> (length s.(threads) <= length s'.(threads))%nat.
Proof.
  intros (t & ch & E). unfold step1 in E. destruct (threads s !! t) as [p|] eqn:Hp; [|done].
  destruct (step_cq _ _ _ _ _ _) as [s1|] eqn:E1; [injection E as <-|destruct (step_worker _ _ _ _ _ _) as [s2|] eqn:E2; [injection E as <-|]].
  - unfold step_cq in E1. destruct p; try discriminate E1; step_inv E1; cbn; rewrite length_insert, ?length_app; lia.
  - unfold step_worker in E2. destruct p; try discriminate E2; step_inv E2; cbn; by rewrite length_insert.
  - unfold step_client in E. destruct p; try discriminate E; step_inv E; cbn; by rewrite length_insert.
Qed.

Lemma counted_steps s s' : counted s -> steps (step min max idle_sec) s s' -> small s' -> counted s'.
Proof.
  intros Hc Hst Hs. assert (H : small s /\ counted s'); [|by destruct H]. revert Hc Hs. induction Hst as [s|s1 s2 s3 H1 H2 IH]; intros Hc Hs; [done|].
  assert (Hl : (length s2.(threads) <= length s3.(threads))%nat).
  { clear -H2. induction H2 as [|? ? ? H _ IH]; [done|]. pose proof (step_threads _ _ H). lia. }
  pose proof (step_threads _ _ H1). assert (Hs1 : small s1) by (unfold small in *; lia). assert (Hs2 : small s2) by (unfold small in *; lia).
  split; [done|]. by apply IH; [apply counted_step with s1|].
Qed.

(** C25: in every interleaving of the workers, the callers and the destroyer the
    counters are exact: [thread_count] is the number of workers that have not
    ended, with the creations still to be made, [running_thread_count] the workers
    that have started, [busy_thread_count] those inside a job, [dying_thread_count]
    those that decided to die; none of them wraps, and the threads that are not
    dying stay within the larger of [min] and [max]. *)
Theorem tp_counts n s : reachable min max idle_sec n s ->
  Z.max min max + Z.of_nat (length s.(threads)) < 4294967295 ->
  s.(thread_count) = tsum w_thread s.(threads) /\ s.(running_thread_count) = tsum w_running s.(threads) /\
  s.(busy_thread_count) = tsum w_busy s.(threads) /\ s.(dying_thread_count) = tsum w_dying s.(threads) /\
  s.(busy_thread_count) + s.(dying_thread_count) <= s.(running_thread_count) <= s.(thread_count) /\
  s.(thread_count) - s.(dying_thread_count) <= Z.max min max.
Proof.
  intros Hr Hs. pose proof (counted_steps _ s (counted_init n) Hr Hs) as Hc. pose proof (counted_range s Hc Hs) as (_ & _ & H1 & _). destruct Hc.
  split; [done|]. split; [done|]. split; [done|]. by split.
Qed.
End Counts.

(** ** The jobs *)

Definition jobs_of (s : st) : list Z := s.(q) ++ all_held s.(threads) ++ s.(finished).

Lemma all_held_snoc l : all_held (l ++ [WStart]) = all_held l.
Proof. unfold all_held. rewrite map_app, concat_app. cbn. by rewrite app_nil_r. Qed.

Lemma held_same l t p p' : l !! t = Some p -> held p' = held p -> all_held (<[t := p']> l) ≡ₚ all_held l.
Proof. intros Hp E. pose proof (held_insert l t p p' Hp) as H. rewrite E in H. by apply Permutation_app_inv_l in H. Qed.

Lemma held_after c : held (after c) = held (CqLock c).
Proof. by destruct c as [| |[]]. Qed.

Lemma held_cq c : held (CqLock c) = match c with Worker (Some j) _ => [j] | _ => [] end.
Proof. by destruct c as [| |[]]. Qed.

Section Jobs.
Context (min max idle_sec : Z).

Lemma jobs_step s s' : s.(pushed) ≡ₚ jobs_of s -> step min max idle_sec s s' -> s'.(pushed) ≡ₚ jobs_of s'.
Proof.
  intros Hj (t & ch & E). unfold step1 in E. destruct (threads s !! t) as [p|] eqn:Hp; [|done]. unfold jobs_of in *.
  destruct (step_cq _ _ _ _ _ _) as [s1|] eqn:E1; [injection E as <-|destruct (step_worker _ _ _ _ _ _) as [s2|] eqn:E2; [injection E as <-|]].
  - unfold step_cq in E1. destruct p; try discriminate E1; step_inv E1; fields;
      rewrite Hj; try (rewrite (held_same _ _ _ _ Hp); [done|by try rewrite held_after; destruct c as [| |[]]]).
    assert (Hp2 : (threads s ++ [WStart]) !! t = Some (CqCreate c need)) by (rewrite lookup_app_l; [done|by apply lookup_lt_Some in Hp]).
    rewrite (held_same _ _ _ _ Hp2); [by rewrite all_held_snoc|by destruct c as [| |[]]].
  - unfold step_worker in E2. destruct p; try discriminate E2; step_inv E2; fields;
      rewrite Hj; try (by rewrite (held_same _ _ _ _ Hp)).
    + pose proof (held_insert _ _ _ (CqLock (Worker (Some z) idle)) Hp) as H. cbn [held app] in H. rewrite H. solve_Permutation.
    + rewrite (held_same _ _ _ _ Hp) by done. by match goal with H : q s = _ |- _ => rewrite H end.
    + pose proof (held_insert _ _ _ WDone Hp) as H. cbn [held app] in H. rewrite <- H. solve_Permutation.
  - unfold step_client in E. destruct p; try discriminate E; step_inv E; fields;
      rewrite ?Hj; try (by rewrite (held_same _ _ _ _ Hp)).
    rewrite (held_same _ _ _ _ Hp) by done. solve_Permutation.
Qed.

(** C26: in every interleaving each job handed to the pool is in exactly one
    place: in the queue, with one worker, or done; so a job added once is run at
    most once, and what has run was added. *)
Theorem tp_jobs n s : reachable min max idle_sec n s ->
  s.(pushed) ≡ₚ s.(q) ++ all_held s.(threads) ++ s.(finished) /\ (NoDup s.(pushed) -> NoDup s.(finished)).
Proof.
  intros Hr. assert (H : pushed s ≡ₚ jobs_of s).
  { refine (steps_invariant _ (fun s => s.(pushed) ≡ₚ jobs_of s) _ _ _ _ Hr); [intros a b; apply jobs_step|].
    unfold jobs_of, all_held. cbn. clear. by induction n as [|n IH]. }
  split; [exact H|]. rewrite H. unfold jobs_of. intros Hd. by apply NoDup_app in Hd as (_ & _ & (_ & _ & Hd)%NoDup_app).
Qed.
End Jobs.

(** ** Who waits for whom *)

Definition holds_mutex (p : pc) : bool :=
  match p with CqTest _ | CqClean _ | CqJoin _ _ | CqHash _ _ | CqCount _ => true | _ => false end.
Definition holds_state (p : pc) : bool :=
  match p with CqSpinTest _ _ | CqDown _ _ | CqCreate _ _ | CqFail _ _ | CqInsert _ _ _ => true | _ => false end.

Definition is_destroyer (p : pc) : bool := match p with DState | DLock | DLoop | DJoin _ | DDone => true | _ => false end.

(** A lock is held by the thread whose next step says so. *)
Definition holder (holds : pc -> bool) (l : option nat) (thr : list pc) : Prop :=
  (forall t p, thr !! t = Some p -> holds p = bool_decide (l = Some t)) /\ (forall t, l = Some t -> exists p, thr !! t = Some p).

Record locked (s : st) : Prop := {
  l_mutex : holder holds_mutex s.(mutex) s.(threads);
  l_state : holder holds_state s.(state_mutex) s.(threads);
  l_hash : s.(hash_lock) = None \/ s.(destroying) = true;
  l_ended : forall k, k ∈ s.(thread_die_hash) -> s.(threads) !! k = Some Ended;
  l_join : forall t c k, s.(threads) !! t = Some (CqJoin c k) -> k ∈ s.(thread_die_hash);
  l_down : forall t p, s.(threads) !! t = Some p -> is_destroyer p = true -> s.(destroying) = true
}.

Lemma holder_move holds l l' thr t p p' new : holder holds l thr -> thr !! t = Some p -> Forall (fun p => holds p = false) new ->
  l' = (if holds p' then Some t else if holds p then None else l) -> (holds p' = true -> holds p = true \/ l = None) ->
  holder holds l' (<[t := p']> (thr ++ new)).
Proof.
  intros [H1 H2] Hp Hnew -> Ha. assert (Ht : (t < length (thr ++ new))%nat) by (rewrite length_app; apply lookup_lt_Some in Hp; lia). split.
  - intros t' x Hx. destruct (decide (t' = t)) as [->|Hne].
    + rewrite list_lookup_insert_eq in Hx by done. injection Hx as <-. pose proof (H1 _ _ Hp) as Ep. destruct (holds p') eqn:E; [by rewrite bool_decide_true|].
      destruct (holds p) eqn:E2; [by rewrite bool_decide_false|exact Ep].
    + rewrite list_lookup_insert_ne in Hx by done. assert (Hx1 : holds x = bool_decide (l = Some t')).
      { destruct (decide (t' < length thr)%nat); [rewrite lookup_app_l in Hx by done; by apply H1|]. rewrite lookup_app_r in Hx by lia.
        rewrite (Forall_lookup_1 _ _ _ _ Hnew Hx). symmetry. apply bool_decide_eq_false. intros E. destruct (H2 _ E) as [y Hy]. apply lookup_lt_Some in Hy. lia. }
      rewrite Hx1. apply bool_decide_ext. pose proof (H1 _ _ Hp) as Ep. symmetry in Ep.
      destruct (holds p') eqn:E1.
      * destruct (Ha eq_refl) as [E2| ->]; [rewrite E2 in Ep; apply bool_decide_eq_true_1 in Ep; rewrite Ep|]; split; congruence.
      * destruct (holds p) eqn:E2; [apply bool_decide_eq_true_1 in Ep; rewrite Ep; split; congruence|done].
  - intros t' E. assert (Hlt : (t' < length (thr ++ new))%nat); [|by apply lookup_lt_is_Some_2; rewrite length_insert].
    destruct (holds p'); [by injection E as <-|]. destruct (holds p); [done|]. destruct (H2 _ E) as [y Hy]. apply lookup_lt_Some in Hy. rewrite length_app. lia.
Qed.

Lemma locked_move s s' t p p' new : locked s -> s.(threads) !! t = Some p -> s'.(threads) = <[t := p']> (s.(threads) ++ new) ->
  Forall (fun p => p = WStart) new ->
  s'.(mutex) = (if holds_mutex p' then Some t else if holds_mutex p then None else s.(mutex)) -> (holds_mutex p' = true -> holds_mutex p = true \/ s.(mutex) = None) ->
  s'.(state_mutex) = (if holds_state p' then Some t else if holds_state p then None else s.(state_mutex)) -> (holds_state p' = true -> holds_state p = true \/ s.(state_mutex) = None) ->
  (s'.(hash_lock) = None \/ s'.(destroying) = true) -> p <> Ended ->
  (forall k, k ∈ s'.(thread_die_hash) -> k ∈ s.(thread_die_hash) \/ k = t /\ p' = Ended) ->
  (holds_mutex p = false -> forall k, k ∈ s.(thread_die_hash) -> k ∈ s'.(thread_die_hash)) ->
  (forall c k, p' = CqJoin c k -> k ∈ s'.(thread_die_hash)) ->
  (is_destroyer p' = true -> s'.(destroying) = true) -> (s.(destroying) = true -> s'.(destroying) = true) -> locked s'.
Proof.
  intros [Hm Hs Hh He Hj Hdn] Hp Ht Hnew Em Am Es As Eh Hpe Hd1 Hd2 Hj' Hdn' Hdd.
  assert (Htl : (t < length (threads s ++ new))%nat) by (rewrite length_app; apply lookup_lt_Some in Hp; lia).
  split; rewrite ?Ht; [|(eapply holder_move; try done; eapply Forall_impl; [exact Hnew|by intros ? ->])|done| | |].
  - eapply holder_move; try done. eapply Forall_impl; [exact Hnew|by intros ? ->].
  - intros k Hk. destruct (Hd1 k Hk) as [Hk'|[-> ->]]; [|by apply list_lookup_insert_eq]. specialize (He k Hk').
    rewrite list_lookup_insert_ne by (intros ->; congruence). rewrite lookup_app_l; [done|by apply lookup_lt_Some in He].
  - intros t' c k Hk. destruct (decide (t' = t)) as [->|Hne]; [rewrite list_lookup_insert_eq in Hk by done; injection Hk as ->; by apply (Hj' c)|].
    rewrite list_lookup_insert_ne in Hk by done. destruct (decide (t' < length s.(threads))%nat).
    + rewrite lookup_app_l in Hk by done. apply Hd2; [|by apply (Hj t' c)]. pose proof (proj1 Hm _ _ Hk) as E1. cbn in E1. symmetry in E1. apply bool_decide_eq_true_1 in E1.
      rewrite (proj1 Hm _ _ Hp), E1. apply bool_decide_eq_false. congruence.
    + rewrite lookup_app_r in Hk by lia. by apply (Forall_lookup_1 _ _ _ _ Hnew) in Hk.
  - intros t' x Hk Hx. destruct (decide (t' = t)) as [->|Hne]; [rewrite list_lookup_insert_eq in Hk by done; injection Hk as ->; by apply Hdn'|].
    rewrite list_lookup_insert_ne in Hk by done. destruct (decide (t' < length s.(threads))%nat).
    + rewrite lookup_app_l in Hk by done. apply Hdd. by apply (Hdn t' x).
    + rewrite lookup_app_r in Hk by lia. apply (Forall_lookup_1 _ _ _ _ Hnew) in Hk. by rewrite Hk in Hx.
Qed.

Lemma elem_of_remove k x l : k ∈ remove_key x l -> k ∈ l.
Proof. unfold remove_key. by intros [_ ?]%list_elem_of_filter. Qed.

Lemma free_None l : free l = true -> l = None.
Proof. by destruct l. Qed.

Lemma after_holds c : holds_mutex (after c) = false /\ holds_state (after c) = false /\ (forall c' k, after c <> CqJoin c' k) /\ after c <> Ended /\ is_destroyer (after c) = false.
Proof. by destruct c as [| |[]]. Qed.

Lemma in_remove x k l : x ∈ l -> x <> k -> x ∈ remove_key k l.
Proof. intros. by apply list_elem_of_filter. Qed.

Ltac facts := repeat match goal with
  | H : free _ = true |- _ => apply free_None in H
  | H : bool_decide _ = true |- _ => apply bool_decide_eq_true_1 in H
  end.

Section Locks.
Context (min max idle_sec : Z).

Lemma holds_lock holds l thr t p : holder holds l thr -> thr !! t = Some p -> if holds p then l = Some t else l <> Some t.
Proof. intros [H _] Hp. specialize (H t p Hp). destruct (holds p); symmetry in H; [by apply bool_decide_eq_true_1 in H|by apply bool_decide_eq_false_1 in H]. Qed.

Ltac locked_by new t := eapply (locked_move _ _ t _ _ new);
  [done|eassumption|cbn; rewrite ?app_nil_r; reflexivity|first [apply Forall_nil_2|apply Forall_cons_2; [done|apply Forall_nil_2]]|..];
  cbn -[remove_key];
  try done; try solve [intros; simplify_eq; first [congruence|tauto|eauto using elem_of_remove]].

Lemma locked_step s s' : locked s -> step min max idle_sec s s' -> locked s'.
Proof.
  intros Hl (t & ch & E). unfold step1 in E. destruct (threads s !! t) as [p|] eqn:Hp; [|done]. pose proof (l_hash s Hl) as Hh. pose proof (l_down s Hl t p Hp) as Hdn.
  pose proof (holds_lock _ _ _ _ _ (l_mutex s Hl) Hp) as Hm. pose proof (holds_lock _ _ _ _ _ (l_state s Hl) Hp) as Hs.
  destruct (step_cq _ _ _ _ _ _) as [s1|] eqn:E1; [injection E as <-|destruct (step_worker _ _ _ _ _ _) as [s2|] eqn:E2; [injection E as <-|]].
  - unfold step_cq in E1. destruct p; try discriminate E1; try pose proof (after_holds c) as (Ha1 & Ha2 & Ha3 & Ha4 & Ha6); cbn in Hm, Hs, Hdn; step_inv E1.
    all: facts;  first [locked_by (@nil pc) t; fail|locked_by [WStart] t; fail|idtac].
    all: locked_by (@nil pc) t; rewrite ?Ha1, ?Ha2, ?Ha6; try done; by intros c' k E; destruct (Ha3 c' k).
  - unfold step_worker in E2. destruct p; try discriminate E2; cbn in Hm, Hs, Hdn; step_inv E2; facts; locked_by (@nil pc) t.
    all: intros; rewrite ?elem_of_cons in *; naive_solver.
  - unfold step_client in E. destruct p; try discriminate E; cbn in Hm, Hs, Hdn; step_inv E; facts; locked_by (@nil pc) t.
Qed.

Lemma locked_init n : locked (init n).
Proof.
  assert (Hc : forall t p, (init n).(threads) !! t = Some p -> holds_mutex p = false /\ holds_state p = false /\ is_destroyer p = false /\ forall c k, p <> CqJoin c k).
  { intros [|t] p H; [by injection H as <-|]. cbn in H. by apply lookup_replicate in H as [-> _]. }
  split; [split|split| | | |]; cbn [init mutex state_mutex hash_lock thread_die_hash].
  - intros t p H. by destruct (Hc t p H) as [-> _].
  - done.
  - intros t p H. by destruct (Hc t p H) as (_ & -> & _).
  - done.
  - by left.
  - intros k Hk. by apply elem_of_nil in Hk.
  - intros t c k H. by destruct (Hc _ _ H) as (_ & _ & _ & H3); destruct (H3 c k).
  - intros t p H. by destruct (Hc _ _ H) as (_ & _ & -> & _).
Qed.

Lemma locked_steps s s' : locked s -> steps (step min max idle_sec) s s' -> locked s'.
Proof. intros H Hst. by refine (steps_invariant _ locked _ _ (fun a b => locked_step a b) H Hst). Qed.

Lemma step_go s t p s' ch : s.(threads) !! t = Some p -> step_cq min max s t p ch = Some s' -> step min max idle_sec s s'.
Proof. intros Hp E. exists t, ch. unfold step1. by rewrite Hp, E. Qed.

(** What [h] alone leaves as it was. *)
Definition only (h : nat) (s s' : st) : Prop :=
  s'.(destroying) = s.(destroying) /\ s'.(q) = s.(q) /\ forall t, t <> h -> (t < length s.(threads))%nat -> s'.(threads) !! t = s.(threads) !! t.

Lemma only_pc h s p s0 : threads s0 = threads s -> destroying s0 = destroying s -> q s0 = q s -> only h s (set_pc h p s0).
Proof. intros Et Ed Eq. split; [done|]. split; [done|]. intros t Hne _. cbn. by rewrite Et, list_lookup_insert_ne. Qed.

Lemma only_trans h a b c : (length a.(threads) <= length b.(threads))%nat -> only h a b -> only h b c -> only h a c.
Proof. intros Hl (E1 & E2 & E3) (F1 & F2 & F3). split; [congruence|]. split; [congruence|]. intros t Hne Ht. rewrite F3, E3; [done|done|done|done|lia]. Qed.

(** The steps left to the holder of [mutex]. *)
Definition rank (s : st) (p : pc) : nat :=
  (3 * length s.(thread_die_hash) + match p with CqTest _ | CqHash _ _ => 4 | CqClean _ => 3 | CqJoin _ _ => 2 | _ => 1 end)%nat.

Lemma remove_shrinks k l : k ∈ l -> (length (remove_key k l) < length l)%nat.
Proof.
  intros H. unfold remove_key. induction l as [|x l IH]; [by apply elem_of_nil in H|]. rewrite filter_cons. pose proof (length_filter (fun x => x <> k) l).
  destruct (decide (x <> k)) as [Hx|Hx]; [|simpl; lia]. apply elem_of_cons in H as [->|H]; [done|]. specialize (IH H). simpl. lia.
Qed.

(** Unless the pool is being destroyed, who holds [mutex] gives it back on its own. *)
Lemma release_mutex : forall n s h p, locked s -> s.(destroying) = false -> s.(mutex) = Some h -> s.(threads) !! h = Some p -> (rank s p < n)%nat ->
  exists s', steps (step min max idle_sec) s s' /\ s'.(mutex) = None /\ s'.(state_mutex) = s.(state_mutex) /\ only h s s'.
Proof.
  induction n as [|n IH]; intros s h p Hl Hd Hm Hp Hr; [lia|].
  pose proof (holds_lock _ _ _ _ _ (l_mutex s Hl) Hp) as Hh. destruct (l_hash s Hl) as [Hhl|]; [|congruence].
  assert (Hgo : forall s0 p' ch, step_cq min max s h p ch = Some (set_pc h p' s0) -> threads s0 = threads s -> mutex s0 = Some h -> state_mutex s0 = state_mutex s ->
    destroying s0 = destroying s -> q s0 = q s -> (rank s0 p' < rank s p)%nat ->
    exists s', steps (step min max idle_sec) s s' /\ s'.(mutex) = None /\ s'.(state_mutex) = s.(state_mutex) /\ only h s s').
  { intros s0 p' ch E Et Em Es Ed Eq Hrk. pose proof (step_go _ _ _ _ _ Hp E) as Hst.
    destruct (IH (set_pc h p' s0) h p') as (s' & H1 & H2 & H3 & H4); [by apply locked_step with s|cbn; congruence|done|cbn; rewrite Et; apply list_lookup_insert_eq; by apply lookup_lt_Some in Hp|unfold rank in *; cbn in *; lia|].
    exists s'. split; [by econstructor|]. split; [done|]. split; [cbn in H3; congruence|]. eapply only_trans; [|by apply (only_pc h s p' s0)|exact H4]. cbn. rewrite length_insert, Et. done. }
  assert (Hend : forall s0 p' ch, step_cq min max s h p ch = Some (set_pc h p' s0) -> threads s0 = threads s -> mutex s0 = None -> state_mutex s0 = state_mutex s ->
    destroying s0 = destroying s -> q s0 = q s -> exists s', steps (step min max idle_sec) s s' /\ s'.(mutex) = None /\ s'.(state_mutex) = s.(state_mutex) /\ only h s s').
  { intros s0 p' ch E Et Em Es Ed Eq. exists (set_pc h p' s0). split; [econstructor; [exact (step_go _ _ _ _ _ Hp E)|constructor]|]. split; [done|]. split; [done|]. by apply only_pc. }
  destruct p; cbn in Hh; try congruence.
  - destruct (running s) eqn:Er.
    + eapply (Hgo s (CqClean c) Go); try done; [cbn; by rewrite Er|unfold rank; lia].
    + eapply (Hend (unlock_mutex s) (after c) Go); try done. cbn. by rewrite Er.
  - destruct (thread_die_hash s) as [|k l] eqn:Ek.
    + eapply (Hgo s (CqCount c) Go); try done; [cbn; by rewrite Ek|unfold rank; lia].
    + eapply (Hgo s (CqJoin c k) (Key k)); try done; [cbn; rewrite Ek; rewrite bool_decide_true; [done|by left]|unfold rank; lia].
  - pose proof (l_join s Hl _ _ _ Hp) as Hk. pose proof (remove_shrinks _ _ Hk).
    eapply (Hgo (set_hashes s.(thread_hash) (remove_key key s.(thread_die_hash)) (use key s)) (CqHash c key) Go); try done.
    + cbn. unfold has_ended. by rewrite (l_ended s Hl _ Hk).
    + unfold rank. cbn [thread_die_hash set_hashes]. lia.
  - eapply (Hgo (destroy key (use key (set_hashes (remove_key key s.(thread_hash)) s.(thread_die_hash) s))) (CqClean c) Go); try done; [cbn; by rewrite Hhl|unfold rank; cbn; lia].
  - eapply (Hend (unlock_mutex (set_counts (u32 (s.(thread_count) + need_of min max (adding c) s)) s.(busy_thread_count) s.(running_thread_count) s.(dying_thread_count) s)) _ Go); done.
Qed.

Lemma free_mutex s t p : locked s -> s.(destroying) = false -> s.(threads) !! t = Some p -> holds_mutex p = false ->
  exists s', steps (step min max idle_sec) s s' /\ s'.(mutex) = None /\ s'.(state_mutex) = s.(state_mutex) /\ s'.(destroying) = false /\
    s'.(threads) !! t = Some p /\ locked s' /\
    (forall t' p', s.(threads) !! t' = Some p' -> holds_mutex p' = false -> s'.(threads) !! t' = Some p') /\ s'.(q) = s.(q).
Proof.
  intros Hl Hd Hp Hh. destruct (mutex s) as [m|] eqn:Em; [|exists s; split; [constructor|done]].
  destruct (proj2 (l_mutex s Hl) m Em) as [x Hx].
  destruct (release_mutex (S (rank s x)) s m x Hl Hd Em Hx) as (s' & H1 & H2 & H3 & H4 & H5 & H6); [lia|].
  assert (Hall : forall t' p', s.(threads) !! t' = Some p' -> holds_mutex p' = false -> s'.(threads) !! t' = Some p').
  { intros t' p' Hp' Hh'. rewrite H6; [done| |by apply lookup_lt_Some in Hp'].
    intros ->. pose proof (holds_lock _ _ _ _ _ (l_mutex s Hl) Hp') as E. rewrite Hh' in E. congruence. }
  exists s'. split; [done|]. split; [done|]. split; [done|]. split; [congruence|]. split; [by apply Hall|]. split; [by apply locked_steps with s|by split].
Qed.

Definition spin_rank (p : pc) : nat := match p with CqSpinTest _ _ => 3 | CqCreate _ _ => 2 | _ => 1 end.

(** The same for [state_mutex], with help from the holder of [mutex]. *)
Lemma release_state : forall n s h p t x, locked s -> s.(destroying) = false -> s.(state_mutex) = Some h -> s.(threads) !! h = Some p -> (spin_rank p < n)%nat ->
  s.(threads) !! t = Some x -> holds_mutex x = false -> t <> h ->
  exists s', steps (step min max idle_sec) s s' /\ s'.(state_mutex) = None /\ s'.(threads) !! t = Some x.
Proof.
  induction n as [|n IH]; intros s h p t x Hl Hd Hs Hp Hr Ht Hx Hne; [lia|].
  pose proof (holds_lock _ _ _ _ _ (l_state s Hl) Hp) as Hh. destruct (l_hash s Hl) as [Hhl|]; [|congruence].
  assert (Hlt : (h < length s.(threads))%nat) by (by apply lookup_lt_Some in Hp).
  assert (Hlast : forall s0 s1 p' ch, steps (step min max idle_sec) s s0 -> threads s0 !! h = Some p -> threads s0 !! t = Some x ->
    step_cq min max s0 h p ch = Some (set_pc h p' (unlock_state s1)) -> threads s1 = threads s0 ->
    exists s', steps (step min max idle_sec) s s' /\ s'.(state_mutex) = None /\ s'.(threads) !! t = Some x).
  { intros s0 s1 p' ch H1 Hp0 Ht0 E Et. exists (set_pc h p' (unlock_state s1)). split; [|split; [done|cbn; by rewrite Et, list_lookup_insert_ne]].
    eapply steps_trans; [exact H1|]. econstructor; [exact (step_go _ _ _ _ _ Hp0 E)|constructor]. }
  assert (Hgo : forall s0 p' ch, step_cq min max s h p ch = Some (set_pc h p' s0) -> threads s0 !! t = Some x -> (h < length (threads s0))%nat ->
    state_mutex s0 = Some h -> destroying s0 = destroying s -> (spin_rank p' < spin_rank p)%nat ->
    exists s', steps (step min max idle_sec) s s' /\ s'.(state_mutex) = None /\ s'.(threads) !! t = Some x).
  { intros s0 p' ch E Et Hh0 Es Ed Hrk. pose proof (step_go _ _ _ _ _ Hp E) as Hst.
    destruct (IH (set_pc h p' s0) h p' t x) as (s' & H1 & H2); [by apply locked_step with s|cbn; congruence|done|cbn; by apply list_lookup_insert_eq|lia|cbn; by rewrite list_lookup_insert_ne|done|done|].
    exists s'. split; [by econstructor|done]. }
  destruct p; cbn in Hh; try congruence.
  - destruct (running s) eqn:Er; [eapply (Hgo s (CqCreate c need) Go)|eapply (Hgo s (CqDown c need) Go)]; try done; cbn; rewrite ?Er; done || lia.
  - destruct (free_mutex s h _ Hl Hd Hp eq_refl) as (s1 & H1 & H2 & H3 & H4 & H5 & H6 & H7).
    eapply (Hlast s1 _ (after c) Go); [exact H1|exact H5|by apply H7|cbn; by rewrite H2|done].
  - eapply (Hgo (create s) (CqInsert c (length s.(threads)) need) Go); try done; cbn; rewrite ?length_app; [by rewrite lookup_app_l by (by apply lookup_lt_Some in Ht)|lia|lia].
  - destruct (free_mutex s h _ Hl Hd Hp eq_refl) as (s1 & H1 & H2 & H3 & H4 & H5 & H6 & H7).
    eapply (Hlast s1 _ (CqSpin c (need - 1)) Go); [exact H1|exact H5|by apply H7|cbn; by rewrite H2|done].
  - eapply (Hlast s _ (CqSpin c (need - 1)) Go); [constructor|exact Hp|exact Ht|cbn; by rewrite Hhl|done].
Qed.

(** Until the pool is destroyed it runs, and its queue keeps its bound. *)
Definition tidy (s : st) : Prop := zlen s.(q) <= TP_MAX_QLEN /\ (s.(running) = true \/ s.(destroying) = true).

Lemma tidy_step s s' : locked s -> tidy s -> step min max idle_sec s s' -> tidy s'.
Proof.
  intros Hl Ht (t & ch & E). unfold step1 in E. destruct (threads s !! t) as [p|] eqn:Hp; [|done]. pose proof (l_down s Hl t p Hp) as Hdn.
  destruct (step_cq _ _ _ _ _ _) as [s1|] eqn:E1; [injection E as <-|destruct (step_worker _ _ _ _ _ _) as [s2|] eqn:E2; [injection E as <-|]].
  - unfold step_cq in E1. destruct p; try discriminate E1; step_inv E1; exact Ht.
  - unfold step_worker in E2. destruct p; try discriminate E2; step_inv E2; try exact Ht.
    destruct Ht as [H1 H2]. rewrite Heql, zlen_cons in H1. split; [cbn; lia|exact H2].
  - unfold step_client in E. destruct p; try discriminate E; step_inv E; try exact Ht; destruct Ht as [H1 H2]; split; try exact H1; try exact H2; try (by right).
    + cbn. rewrite zlen_app. change (zlen [job]) with 1. lia.
    + right. by apply Hdn.
Qed.

Lemma tp_reachable_ok n s : reachable min max idle_sec n s -> locked s /\ tidy s.
Proof.
  intros H. refine (steps_invariant _ (fun s => locked s /\ tidy s) _ _ _ _ H).
  - intros a b [Hl Ht] Hs. split; [by apply locked_step with a|by apply tidy_step with a].
  - split; [apply locked_init|]. split; [done|by left].
Qed.

(** The steps a worker is from its next pop; the others may leave first. *)
Definition to_pop (p : pc) : option nat :=
  match p with
  | WPop _ => Some 0%nat | WLoop _ => Some 1%nat | WDone | WStart => Some 2%nat | WRun _ => Some 3%nat | WBusy _ => Some 4%nat
  | _ => None
  end.

(** A worker that comes back to the queue makes room for who waits. *)
Lemma makes_room t p w : p <> Ended -> to_pop p = None -> holds_mutex p = false -> forall n s x, locked s -> tidy s -> s.(destroying) = false ->
  s.(threads) !! t = Some p -> s.(threads) !! w = Some x -> to_pop x = Some n -> 0 < zlen s.(q) ->
  exists s', steps (step min max idle_sec) s s' /\ s'.(threads) !! t = Some p /\ zlen s'.(q) < TP_MAX_QLEN.
Proof.
  intros Hpe Htp Hh. induction n as [|n IH]; intros s x Hl Ht Hd Hp Hx Hr Hq.
  - assert (t <> w) by congruence. destruct x; try discriminate Hr. destruct (q s) as [|j l] eqn:Eq; [done|].
    exists (set_pc w (CqLock (Worker (Some j) idle)) (set_jobs l s.(pushed) s.(finished) s)).
    split; [|split; [cbn; by rewrite list_lookup_insert_ne|destruct Ht as [Hq' _]; rewrite Eq, zlen_cons in Hq'; cbn; lia]].
    econstructor; [|constructor]. exists w, Go. unfold step1. rewrite Hx. cbn. by rewrite Eq.
  - assert (Htw : t <> w) by congruence. assert (Hhx : holds_mutex x = false) by (by destruct x).
    destruct (free_mutex s t p Hl Hd Hp Hh) as (s1 & H1 & H2 & _ & H4 & H5 & H6 & H7 & H8). specialize (H7 w x Hx Hhx).
    assert (Ht1 : tidy s1) by (refine (proj2 (steps_invariant _ (fun s => locked s /\ tidy s) _ _ _ (conj Hl Ht) H1)); intros a b [Ha Hb] Hs; split; [by apply locked_step with a|by apply tidy_step with a]).
    assert (Hgo : forall x' s2, to_pop x' = Some n -> step1 min max idle_sec s1 w Go = Some (set_pc w x' s2) -> threads s2 = threads s1 ->
      q s2 = q s1 -> destroying s2 = destroying s1 ->
      exists s', steps (step min max idle_sec) s s' /\ s'.(threads) !! t = Some p /\ zlen s'.(q) < TP_MAX_QLEN).
    { intros x' s2 Hx' E Et Eq Ed. assert (Hs : step min max idle_sec s1 (set_pc w x' s2)) by (by exists w, Go).
      destruct (IH (set_pc w x' s2) x') as (s' & H9 & H10).
      - by apply locked_step with s1.
      - by apply tidy_step with s1.
      - cbn. congruence.
      - cbn. by rewrite Et, list_lookup_insert_ne.
      - cbn. rewrite Et. apply list_lookup_insert_eq. by apply lookup_lt_Some in H7.
      - done.
      - cbn. by rewrite Eq, H8.
      - exists s'. split; [|done]. eapply steps_trans; [exact H1|]. by econstructor. }
    destruct x; try discriminate Hr; injection Hr as <-.
    all: try (eapply Hgo; [|unfold step1; rewrite H7; cbn; rewrite ?H2; cbn; reflexivity|..]; reflexivity).
    destruct Ht1 as [_ [Er|Er]]; [|congruence].
    eapply Hgo; [|unfold step1; rewrite H7; cbn; rewrite Er; reflexivity|..]; reflexivity.
Qed.

(** A thread inside a call, or a worker. *)
Definition in_call (p : pc) : bool :=
  match p with
  | Idle | Ended | DState | DLock | DLoop | DJoin _ | DDone => false
  | _ => true
  end.

(** C24: as long as nobody destroys the pool no thread waits for ever: from every
    reachable state, whoever is inside a call of the pool, and every worker, can
    take its next step after the other threads have taken some of theirs. A push on
    a full queue is no exception as long as some worker will come back to the
    queue without the check of the queue or the idle check in between; where there
    is no worker it does wait for ever ([tp_push_blocks]). *)
Theorem tp_no_deadlock n s t p : reachable min max idle_sec n s -> s.(destroying) = false -> s.(threads) !! t = Some p -> in_call p = true ->
  (forall job, p = Push job -> zlen s.(q) < TP_MAX_QLEN \/ exists w x, s.(threads) !! w = Some x /\ to_pop x <> None) ->
  exists s' ch, steps (step min max idle_sec) s s' /\ s'.(threads) !! t = Some p /\ step1 min max idle_sec s' t ch <> None.
Proof.
  intros Hr Hd Hp Hin Hpush. destruct (tp_reachable_ok n s Hr) as [Hl Htidy].
  assert (Hnow : forall ch, step1 min max idle_sec s t ch <> None ->
    exists s' ch, steps (step min max idle_sec) s s' /\ s'.(threads) !! t = Some p /\ step1 min max idle_sec s' t ch <> None).
  { intros ch H. exists s, ch. split; [constructor|done]. }
  assert (Hfree : holds_mutex p = false -> (forall s', mutex s' = None -> threads s' !! t = Some p -> step1 min max idle_sec s' t Go <> None) ->
    exists s' ch, steps (step min max idle_sec) s s' /\ s'.(threads) !! t = Some p /\ step1 min max idle_sec s' t ch <> None).
  { intros Hh H. destruct (free_mutex s t p Hl Hd Hp Hh) as (s1 & H1 & H2 & _ & _ & H5 & _). exists s1, Go. auto. }
  destruct (l_hash s Hl) as [Hhl|]; [|congruence].
  destruct p; cbn in Hin; try done;
    try (apply Hfree; [done|]; intros s' Em Hp'; unfold step1; rewrite Hp'; cbn; rewrite Em; cbn; by repeat case_match);
    try (apply (Hnow Go); unfold step1; rewrite Hp; cbn; rewrite ?Hhl; cbn; by repeat case_match).
  - destruct (Z.ltb_spec (zlen s.(q)) TP_MAX_QLEN) as [Hlt|Hge].
    { apply (Hnow Go). unfold step1. rewrite Hp. cbn. by destruct (Z.ltb_spec (zlen s.(q)) TP_MAX_QLEN); [|lia]. }
    destruct (Hpush _ eq_refl) as [Hlt|(w & x & Hx & Hpop)]; [lia|]. destruct (to_pop x) as [m|] eqn:Em; [|done].
    destruct (makes_room t (Push job) w ltac:(done) eq_refl eq_refl m s x Hl Htidy Hd Hp Hx Em) as (s' & H1 & H2 & H3); [unfold TP_MAX_QLEN in Hge; lia|].
    exists s', Go. split; [done|]. split; [done|]. unfold step1. rewrite H2. cbn. by destruct (Z.ltb_spec (zlen s'.(q)) TP_MAX_QLEN); [|lia].
  - destruct (thread_die_hash s) as [|k l] eqn:Ek; [apply (Hnow Go)|apply (Hnow (Key k))]; unfold step1; rewrite Hp; cbn; rewrite Ek; [done|].
    rewrite bool_decide_true by (by apply elem_of_cons; left). done.
  - apply (Hnow Go). unfold step1. rewrite Hp. cbn. unfold has_ended. by rewrite (l_ended s Hl _ (l_join s Hl _ _ _ Hp)).
  - destruct (Z.ltb_spec 0 need) as [Hn|Hn].
    + destruct (state_mutex s) as [h|] eqn:Es.
      * destruct (proj2 (l_state s Hl) h Es) as [x Hx]. assert (t <> h) by (intros ->; pose proof (holds_lock _ _ _ _ _ (l_state s Hl) Hp) as E; cbn in E; congruence).
        destruct (release_state (S (spin_rank x)) s h x t _ Hl Hd Es Hx ltac:(lia) Hp eq_refl) as (s' & H1 & H2 & H3); [done|].
        exists s', Go. split; [done|]. split; [done|]. unfold step1. rewrite H3. cbn. rewrite H2. by destruct (Z.ltb_spec 0 need); [|lia].
      * apply (Hnow Go). unfold step1. rewrite Hp. cbn. rewrite Es. by destruct (Z.ltb_spec 0 need); [|lia].
    + apply (Hnow Go). unfold step1. rewrite Hp. cbn. by destruct (Z.ltb_spec 0 need); [lia|].
  - destruct (q s) as [|j l] eqn:Eq; [apply (Hnow Fails)|apply (Hnow Go)]; unfold step1; rewrite Hp; cbn; by rewrite Eq.
Qed.
End Locks.

(** ** Schedules *)

Lemma run_reachable min max idle_sec : forall l s s', run min max idle_sec s l = Some s' -> steps (step min max idle_sec) s s'.
Proof.
  induction l as [|[t ch] l IH]; intros s s' E; cbn [run] in E; [injection E as <-; constructor|].
  destruct (step1 _ _ _ s t ch) as [s1|] eqn:E1; [|done]. econstructor; [by exists t, ch|by apply IH].
Qed.

(** A pool of one to three threads that die at their first idle check. *)
Definition go (t : nat) (n : nat) : list (nat * choice) := replicate n (t, Go).
(** The creator makes worker 1; the client adds job 10, which makes worker 2;
    worker 1 runs the job. *)
Definition ex_start : list (nat * choice) :=
  go 0 9 ++ go 1 1 ++ [(0%nat, Add 10)] ++ go 0 10 ++ go 2 2 ++ go 1 2 ++ go 1 9.
(** A pop that finds nothing, with the check of the queue behind it. *)
Definition ex_idle (t : nat) : list (nat * choice) := [(t, Fails)] ++ go t 5.

(** Both were idle when job 20 is added: no thread is made for it since two are
    there. Then both decide to die, each counting the other. *)
Definition ex_stranded : list (nat * choice) :=
  ex_start ++ ex_idle 1 ++ ex_idle 2 ++ [(0%nat, Add 20)] ++ go 0 6 ++ go 1 2 ++ go 2 2 ++ go 1 1 ++ go 2 1.

Definition state_after (l : list (nat * choice)) : st := default (init 0) (run 1 3 0 (init 0) l).

Lemma state_after_reachable l : run 1 3 0 (init 0) l <> None -> reachable 1 3 0 0 (state_after l).
Proof. intros H. unfold state_after. destruct (run 1 3 0 (init 0) l) as [s|] eqn:E; [|done]. exact (run_reachable _ _ _ _ _ _ E). Qed.

(** With [min] = 1 no worker is left, job 20 stays in the queue, and nothing
    happens until the client calls again. *)
Lemma tp_job_stranded : exists s, reachable 1 3 0 0 s /\ s.(thread_count) = 0 /\ s.(q) = [20] /\ s.(threads) = [Idle; Ended; Ended] /\
  forall t ch s', step1 1 3 0 s t ch = Some s' -> t = 0%nat /\ ((exists j, ch = Add j) \/ ch = Destroy).
Proof.
  exists (state_after ex_stranded). split; [apply state_after_reachable; by vm_compute|]. split; [by vm_compute|]. split; [by vm_compute|]. split; [by vm_compute|].
  assert (Et : threads (state_after ex_stranded) = [Idle; Ended; Ended]) by by vm_compute.
  revert Et. generalize (state_after ex_stranded). intros s Et t ch s' E. unfold step1 in E. rewrite Et in E. destruct t as [|[|[|t]]]; cbn in E; [|done|done|done].
  split; [done|]. destruct ch; try done; [left; by eexists|by right].
Qed.

(** Worker 1 dies; worker 2 finds it in [thread_die_hash] and has joined it. Then
    the pool is destroyed, up to the join of worker 2. *)
Definition ex_deadlock : list (nat * choice) :=
  ex_start ++ ex_idle 1 ++ go 1 3 ++ [(2%nat, Fails)] ++ go 2 2 ++ [(2%nat, Key 1)] ++ go 2 1 ++
  [(0%nat, Destroy)] ++ go 0 2 ++ [(0%nat, Key 2)].

(** The destroyer [d] has [thread_hash] locked and joins [w]; [w] wants that lock. *)
Definition deadlocked (d w : nat) (s : st) : Prop :=
  s.(threads) !! d = Some (DJoin w) /\ (exists c k, s.(threads) !! w = Some (CqHash c k)) /\ s.(hash_lock) = Some d /\ s.(destroying) = true /\
  forall t p, s.(threads) !! t = Some p -> is_destroyer p = true -> t = d.

Ltac stay Hgo new := refine (Hgo _ _ new _ _ eq_refl _ _ _ _ _);
  [done|done|cbn; by rewrite ?app_nil_r|first [apply Forall_nil_2|apply Forall_cons_2; [done|apply Forall_nil_2]]|done|done|cbn; try done; try (intros H; exfalso; eauto; fail)].

Lemma deadlocked_step min max idle_sec d w s s' : deadlocked d w s -> step min max idle_sec s s' -> deadlocked d w s'.
Proof.
  intros (Hd & (c & k & Hw) & Hh & Hde & Hu) (t & ch & E). unfold step1 in E. destruct (threads s !! t) as [p|] eqn:Hp; [|done].
  assert (Hgo : forall p' s0 new, p <> DJoin w -> (forall c k, p <> CqHash c k) -> s' = set_pc t p' s0 -> threads s0 = threads s ++ new -> Forall (fun p => p = WStart) new ->
    hash_lock s0 = hash_lock s -> destroying s0 = true -> (is_destroyer p' = true -> is_destroyer p = true) -> deadlocked d w s').
  { intros p' s0 new Hn1 Hn2 -> Et Hnew Eh Ed Hdn. assert (t <> d) by (intros ->; congruence). assert (t <> w) by (intros ->; rewrite Hw in Hp; injection Hp as <-; by destruct (Hn2 c k)).
    assert (Hl : forall i x, threads s !! i = Some x -> i <> t -> <[t:=p']> (threads s ++ new) !! i = Some x).
    { intros i x Hi Hne. rewrite list_lookup_insert_ne by done. rewrite lookup_app_l; [done|by apply lookup_lt_Some in Hi]. }
    unfold deadlocked. cbn [threads set_pc hash_lock destroying]. rewrite Et, Eh. split; [by apply Hl|]. split; [exists c, k; by apply Hl|]. split; [done|]. split; [done|].
    intros t' x Hx Hxd. destruct (decide (t' = t)) as [->|Hne].
    - rewrite list_lookup_insert_eq in Hx by (rewrite length_app; apply lookup_lt_Some in Hp; lia). injection Hx as ->. by apply (Hu t p); [|apply Hdn].
    - rewrite list_lookup_insert_ne in Hx by done. destruct (decide (t' < length (threads s))%nat); [rewrite lookup_app_l in Hx by done; by apply (Hu t' x)|].
      rewrite lookup_app_r in Hx by lia. apply (Forall_lookup_1 _ _ _ _ Hnew) in Hx. by rewrite Hx in Hxd. }
  assert (Hed : forall x, has_ended s x = true -> x <> w) by (intros x Hx ->; unfold has_ended in Hx; by rewrite Hw in Hx).
  assert (Haf : forall c, is_destroyer (after c) = true -> False) by (intros [| |[]]; done).
  destruct (step_cq _ _ _ _ _ _) as [s1|] eqn:E1; [injection E as <-|destruct (step_worker _ _ _ _ _ _) as [s2|] eqn:E2; [injection E as <-|]].
  - unfold step_cq in E1. destruct p; try discriminate E1; step_inv E1; facts; try congruence; first [stay Hgo (@nil pc); fail|stay Hgo [WStart]].
  - unfold step_worker in E2. destruct p; try discriminate E2; step_inv E2; stay Hgo (@nil pc).
  - destruct (is_destroyer p) eqn:Edp.
    + pose proof (Hu t p Hp Edp) as ->. rewrite Hd in Hp. injection Hp as <-. cbn in E. destruct ch; try done.
      destruct (has_ended s w) eqn:Ew; [|done]. by destruct (Hed w Ew).
    + unfold step_client in E. destruct p; try discriminate E; try discriminate Edp; step_inv E; facts; try congruence; stay Hgo (@nil pc).
Qed.

(** The pool is never destroyed: from this state on the destroyer and worker 2
    wait for each other whatever the schedule. *)
Lemma tp_destroy_deadlock : exists s, reachable 1 3 0 0 s /\ deadlocked 0 2 s /\
  forall s', steps (step 1 3 0) s s' -> deadlocked 0 2 s' /\ forall ch, step1 1 3 0 s' 0 ch = None /\ step1 1 3 0 s' 2 ch = None.
Proof.
  exists (state_after ex_deadlock). assert (Hd : deadlocked 0 2 (state_after ex_deadlock)).
  { assert (Et : threads (state_after ex_deadlock) = [DJoin 2; Ended; CqHash (Worker None 0) 1]) by by vm_compute.
    unfold deadlocked. rewrite Et. split; [done|]. split; [by eexists _, _|]. split; [by vm_compute|]. split; [by vm_compute|].
    intros [|[|[|t]]] p Hp Hx; [done| | |done]; injection Hp as <-; done. }
  split; [apply state_after_reachable; by vm_compute|]. split; [done|]. intros s' Hs.
  assert (H : deadlocked 0 2 s') by (refine (steps_invariant _ (deadlocked 0 2) _ _ _ Hd Hs); intros a b; apply deadlocked_step).
  split; [done|]. destruct H as (H1 & (c & k & H2) & H3 & _). intros ch. unfold step1. rewrite H1, H2. cbn. rewrite H3. unfold has_ended. rewrite H2.
  by destruct ch.
Qed.

(** Worker 1 is dead and in both tables: the destroyer joins and frees it, then
    worker 2, which was past the test of the state, joins it again. *)
Definition ex_misuse : list (nat * choice) :=
  ex_start ++ ex_idle 1 ++ go 1 3 ++ [(2%nat, Fails)] ++ go 2 2 ++ [(2%nat, Key 1)] ++
  [(0%nat, Destroy)] ++ go 0 2 ++ [(0%nat, Key 1)] ++ go 0 1 ++ go 2 1.

Lemma tp_join_after_free : exists s, reachable 1 3 0 0 s /\ s.(misused) = true.
Proof. exists (state_after ex_misuse). split; [apply state_after_reachable; by vm_compute|by vm_compute]. Qed.

(** Job 10 is done and worker 1 has taken job 20. *)
Definition ex_run : list (nat * choice) := ex_start ++ [(0%nat, Add 20)] ++ go 0 6 ++ go 1 7.

(** A pool of no threads: 1024 jobs are pushed, and the next push, which comes
    before [check_queue], waits for a worker. *)
Definition ex_full : list (nat * choice) :=
  go 0 5 ++ concat (map (fun j => (0%nat, Add (Z.of_nat j)) :: go 0 6) (seq 0 1024)) ++ [(0%nat, Add 1024)].

Lemma tp_push_blocks : exists s, reachable 0 0 0 0 s /\ s.(threads) = [Push 1024] /\ s.(destroying) = false /\ forall t ch, step1 0 0 0 s t ch = None.
Proof.
  destruct (run 0 0 0 (init 0) ex_full) as [s|] eqn:E; [|exfalso; revert E; by vm_compute].
  assert (Hs : s = default (init 0) (run 0 0 0 (init 0) ex_full)) by by rewrite E.
  assert (Ht : threads s = [Push 1024]) by (rewrite Hs; by vm_compute). assert (Hd : destroying s = false) by (rewrite Hs; by vm_compute).
  assert (Hq : (zlen (q s) <? TP_MAX_QLEN) = false) by (rewrite Hs; by vm_compute). clear Hs.
  exists s. split; [by apply run_reachable with ex_full|]. split; [done|]. split; [done|].
  intros [|[|t]] ch; unfold step1; rewrite Ht; [cbn; rewrite Hq; by destruct ch|done|done].
Qed.

Lemma tp_counts_witness : exists s, reachable 1 3 0 0 s /\ s.(thread_count) = tsum w_thread s.(threads) /\ s.(thread_count) = 2.
Proof.
  exists (state_after ex_run). assert (Hr : reachable 1 3 0 0 (state_after ex_run)) by (apply state_after_reachable; by vm_compute).
  split; [exact Hr|]. split; [|by vm_compute]. refine (proj1 (tp_counts 1 3 0 _ _ 0 (state_after ex_run) Hr _)); [split; by vm_compute|split; by vm_compute|by vm_compute].
Defined.

Lemma tp_jobs_witness : exists s, reachable 1 3 0 0 s /\ s.(pushed) = [10; 20] /\ s.(pushed) ≡ₚ s.(q) ++ all_held s.(threads) ++ s.(finished).
Proof.
  exists (state_after ex_run). assert (Hr : reachable 1 3 0 0 (state_after ex_run)) by (apply state_after_reachable; by vm_compute).
  split; [exact Hr|]. split; [by vm_compute|]. exact (proj1 (tp_jobs 1 3 0 0 (state_after ex_run) Hr)).
Defined.

(** Worker 2 has [mutex]; worker 1, which wants it, can go on later. *)
Lemma tp_no_deadlock_witness : exists s t p, reachable 1 3 0 0 s /\ s.(threads) !! t = Some p /\ step1 1 3 0 s t Go = None /\
  exists s' ch, steps (step 1 3 0) s s' /\ s'.(threads) !! t = Some p /\ step1 1 3 0 s' t ch <> None.
Proof.
  exists (state_after (ex_start ++ [(1%nat, Fails)] ++ [(2%nat, Fails)] ++ go 2 1)), 1%nat, (CqLock (Worker None 0)).
  assert (Hr : reachable 1 3 0 0 (state_after (ex_start ++ [(1%nat, Fails)] ++ [(2%nat, Fails)] ++ go 2 1))) by (apply state_after_reachable; by vm_compute).
  split; [exact Hr|]. split; [by vm_compute|]. split; [by vm_compute|].
  exact (tp_no_deadlock 1 3 0 0 _ 1 (CqLock (Worker None 0)) Hr ltac:(by vm_compute) ltac:(by vm_compute) ltac:(by vm_compute) ltac:(done)).
Defined.
End ThreadPool.
